(* ===== verification/_CoqProject ===== *)
-Q . S2P
Prelude.v
Ids.v
Bytes.v
Json.v
JsonText.v
Recipe.v
Selection.v
GuestProto.v
SessionRecord.v
Outside.v
Lifecycle.v
World.v
Logic.v
Host.v
Golden.v
Format.v
FormatSafety.v
Projects.v
SessionStore.v
RebuildJournal.v
ProjectReplace.v
WorkspaceRecord.v
ExportJournal.v
Receiver.v
ReceiverSafety.v
Inspector.v
InspectorSafety.v
WorkspaceStore.v
WorkspaceTransition.v
DiskReserve.v
Capture.v
Exports.v
ExportSafety.v
ImportTree.v
ImportMatch.v
ImportCapture.v
CaptureSafety.v
ImportJournal.v
Imports.v
WorkspaceBatch.v
SessionCreate.v
SessionStart.v
ImportSafety.v
ActionAttempt.v
ActionService.v
ActionSafety.v
GuestAction.v
GuestSafety.v
GuestRun.v
SessionDelete.v
Rebuild.v
Compose.v
