(* ===== verification/Prelude.v ===== *)
(** * Boxwarden: a verification library

    Boxwarden (src/) keeps disposable virtual machines: a session is a durable
    record plus one clone of a base image, workspaces are disks that outlive the
    session they are attached to, a recipe says what to install and run in the
    guest, and host directories travel into a workspace (imports) and out of it
    (exports). All state is small JSON files in one private state root, guarded
    by advisory locks and changed only by atomic replacement; the dangerous
    parts (formatting a disk, cloning, starting, deleting, replacing a system,
    running a command in the guest, copying a workspace) are journaled, so that
    a process may die anywhere. This library embeds that core in Rocq and proves
    what the journals and locks are for.

    ** Parts, and where they are modelled (paths below src/internal unless
    they begin with src/)

    Values and files.
    - Prelude.v: errors as values ([res], with wrapping and [errors.Is]), strings,
      paths, sorting. Bytes.v: byte strings, big-endian integers, hexadecimal.
    - Ids.v: identifiers (domain/id.go, backend/id.go, session/name.go, id.go, the
      validators of session/record.go, workspacex/record.go), lock scopes
      (lock/filelock.go).
    - Json.v, JsonText.v: encoding/json: values, the compact text, the scanner.
    - SessionRecord.v, RebuildJournal.v, WorkspaceRecord.v, ExportJournal.v,
      ImportJournal.v, ActionAttempt.v, Recipe.v, Selection.v: the durable documents
      (session/record.go, rebuild_journal.go, workspacex/record.go,
      export_journal.go, import_journal.go, session/action_attempt.go, recipe/,
      importx/selection.go): record, validation, strict decoder, encoder, and the
      operations of their stores.
    - GuestProto.v: the action request and receipt (guestproto/action.go) and the
      validators of protocol.go they use.
    The machine.
    - World.v: files, locks, faults, the recorded trace, the effect monad.
    - Outside.v, Host.v: what the backend, the supervisor, the formatter, the
      golden registry and the guest may answer, and the class [Host] of these.
    - Logic.v: the program logic (weakest preconditions that also constrain every
      step), and the class [SessionProtocol].
    Stores and services, in the order of the call graph.
    - Golden.v: the golden registry (golden/). Format.v: the formatter's journal,
      run and admission (workspaceformat/, hostidentity/storage.go), over the bytes
      of disk images. Projects.v, ProjectReplace.v: project bookmarks, setup, and
      the replacement of a project's system (projectx/).
    - SessionStore.v (session/store.go, list_records.go, delete_store.go),
      WorkspaceStore.v (workspacex/store.go, registry.go, locks.go).
    - WorkspaceTransition.v, WorkspaceBatch.v: attachments, uses, promotion, and
      the multi-volume transactions of workspacex/.
    - SessionCreate.v, SessionStart.v, SessionDelete.v, Rebuild.v: the session
      services (session/create.go, start.go, stop.go, delete.go, rebuild.go).
      They reach the volumes through the classes [WorkspaceLifecycle] and
      [StoppedGates], as the source reaches them through interfaces.
    - Compose.v: the wiring of sessionruntime/; the workspace batches implement
      the two classes and satisfy their laws.
    - ActionService.v: planning and running recipe steps in the guest
      (session/action_service.go, action_plan.go, action_skip.go).
    - GuestAction.v: the helper inside the guest (guestproto/action_store.go,
      action_exec.go).
    - Lifecycle.v: status classification (lifecycle/reconcile.go).
    Trees in and out.
    - Inspector.v: the sender of an export, inside the inspector machine
      (src/tools/alpha-inspector/guest/export.go, stream.go). Receiver.v: the host's
      receiver (exportx/receiver.go, parent.go).
    - DiskReserve.v: the guard on host disk space (diskreserve/guard.go). Capture.v:
      the bound capture of the inspector's output (exportx/capture.go). Exports.v:
      the export transaction (workspacex/export_copy.go, export_recover.go,
      export_request.go, export_capture.go, export_publish.go, export_run.go).
    - ImportTree.v: the re-admission of a captured tree and its comparison with a
      published one (importx/inspect.go, published.go). ImportCapture.v: the capture
      of a host directory and its preview (importx/source.go, selection.go).
      Imports.v: the import transaction (workspacex/import_begin.go,
      import_transfer.go, import_verify.go).
    Proofs about a component that need more than its own file: FormatSafety.v,
    ReceiverSafety.v, InspectorSafety.v, ActionSafety.v, GuestSafety.v, GuestRun.v,
    ExportSafety.v, ImportMatch.v, CaptureSafety.v, ImportSafety.v.

    ** Model

    An operation is a function of the monad [M]: from a world (files, held
    locks, outside state, trace, clock tick) to a result or error and a world.
    Every primitive asks the environment [Env] first: it may fail before its
    effect, leave a torn file (a prefix of the bytes), or fail after its effect.
    At every lock acquisition the environment may also change the files, as
    holders of other locks do. The outside world is the class [Host]; its answers
    are not constrained. Components with an outside of their own have a class of
    their own: [Platform] and the images of Format.v, [ReceiverPlatform] and the
    spool of Receiver.v, [GuestMount] of Inspector.v, [ReservePlatform],
    [HostFiles] (metadata, clock, randomness), [CaptureHost] (the helper
    process), [SourceDisk], [Inspection] (the entries of directories outside the
    state root, the bundle builder), [TreeHost], [ImportControl] (the
    supervisor's transfer), [ImportSource] (the host tree an import is taken from,
    which may answer differently at every moment).
    The trace records the events of World.v: lock acquisitions and releases,
    every change of a file (published, created, written, removed, made, renamed), and every
    call to the outside with its answer. A step ([step]) keeps the event, the
    files before and after it and the locks held. Safety theorems say of every
    recorded step what held at that very moment (what was on disk just before and
    just after, which locks were held, what had been observed before), so they
    also hold for a process that dies at any point: its trace is a prefix. A write
    that replaces a record is stated against the record that its file held just
    before ([rewrites], [moved], [action_steps], [evolution]).
    Between two acquisitions the files change only by this process's own steps;
    what the other processes never change is [untouched], and [left_alone] relates
    the files at two moments between which this process wrote nothing. What the other processes must respect is
    stated as classes: [SessionProtocol] (nobody touches a session record or
    rebuild journal whose lock is held here), [AttemptProtocol] (attempts are
    never removed or duplicated), [ExportProtocol] (under the storage lock, volume
    records and the files of a copying export are left alone), [ImportProtocol]
    (so are a published export and its snapshot). SHA-256 is the class [Digests];
    where its form matters (64 lower-case hexadecimal digits) that is a named
    hypothesis.
    In the guest there are no locks: GuestAction.v gives each helper process as
    a program over single file-system calls, and theorems quantify over all
    schedules of all helpers, each call of which may fail in the same ways, and
    any helper of which may never run again.

    ** Theorems (C<n> in their comments)

    - C1-C8, the composed program: replacement of a system deletes only the old
      object, only after its candidate was proved ready, one journal phase at a
      time; deletion, start and stop persist their intent before they act.
    - C9: creation; C10-C13: the workspace transactions: each write changes the
      one field it is for in the record on disk, of an idle volume (start), of a
      volume in the session's own use (release) or of one nothing uses (deletion);
      the gates run a reservation only for the exact stopped session.
    - C14, C15: actions are sent only under both locks from a durable reservation
      and never replayed. C16-C19: the guest runs an attempt at most once under
      every schedule, host and guest together run an action at most once, receipts
      are truthful, and a helper left alone completes.
    - C20, C21: a volume is formatted at most once, and a formatted disk is
      admitted.
    - C22-C25: the receiver publishes one complete admissible tree or nothing,
      and on a calm machine accepts exactly the encodings of admissible trees; the
      inspector's stream is received as the tree it was made from; the inspector's
      walk ends.
    - C26-C29: the export transaction, its resumption and its recovery, and the
      proof that goes with a captured stream.
    - C30, C31: the import transaction: bytes are sent only for a tree that is on
      disk exactly as recorded, to a session proved live, and success means it was proved live
      again afterwards; "verified" is written only for a published tree equal to the
      captured one, and only over the journal that was read. C32, C33: the captured
      tree is exactly what the selection leaves of the source, published by one
      rename, and a run pinned to a preview renames only a tree of that digest.
    - C34-C36: registration, project replacement, guarded volume records (all
      mutations, the settled exports included). C37: the attempts' abstract
      machine. C38: size bounds. C39: what one stray file in the rebuild registry
      blocks. C40: the decoder's strictness.
    Theorems outside this list, in the same files, carry the rest: exactness of
    validators and store admission (Ids.v, SessionRecord.v, WorkspaceRecord.v),
    round trips of every document, exact listings, setup updates, the plan of automatic steps,
    the arithmetic of free space at machine width.

    ** Bounds and recursion

    All definitions are total. Loops over directories, lists and received bytes
    are structural. Fuel appears where the recursion is not, with a proof that it
    is enough: the JSON scanner takes the length of its input (JsonText.v); the
    automatic runner the 128 rounds of the source; the inspector its depth limit
    and the size of each file in chunks (C26); the copy and the hash of a snapshot
    one turn per MiB and one more ([turns], Exports.v); the walks over an import
    tree [walk_fuel], two more than the depth a declared path can have
    ([inspect_fuel] and [compare_fuel] of ImportTree.v: more changes nothing); the
    capture of a source and the removal of its staging directory one and two more
    than the depth limit ([capture_fuel_enough], [removal_fuel_enough]).
    Integers are [Z] with the range checks of the decoders (int, uint64, uint32)
    and, in DiskReserve.v and Format.v, with 64-bit wrap-around written out; sizes
    of files are [N].

    ** Not modelled, and why

    - app/, cmd/, config/: argument parsing, printing and a TOML document read by a
      third-party decoder.
    - supervisor/, serialx/, sshx/, clipboardx/, clipboardhost/, execx/,
      sessionruntime/owner.go, hostx/, privateacl/, timezonex/: live
      processes, sockets, subprocesses and operating-system queries; what the core
      relies on is [Host], [ImportControl] and the constructor [EUnsafe] of World.v.
    - The formatter and inspector machines themselves, the building of their
      bundles (workspacex/export_bundle.go, exportx/bundle.go): parameters.
    - guestproto/bootstrap.go, clipboard.go, workspace.go, identity.go and the
      serial messages of protocol.go: the guest's own set-up.
    - basebuild/, alphaprep/, alphaqual/, qualification/, the remaining tools/:
      image building and test harnesses.
    - Modes, owners and ACLs of files are one bit ([EUnsafe], [fi_private],
      [ti_owned]); Lstat, open and read of a state file are one primitive, of a
      guest file single calls. Loss of unsynced data in a power failure is not
      modelled. The number -0 is the integer 0 for the scanner, also where Go would
      refuse the sign for an unsigned field. *)
From Stdlib Require Export Ascii ZArith Lia.
From stdpp Require Export base tactics strings gmap list sorting fin_maps pretty.

(** ** Notation scope *)

#[export] Set Warnings "-clear-no-such-hyp".

Declare Scope go_scope.
Delimit Scope go_scope with go.
Global Open Scope Z_scope.
Global Open Scope go_scope.

(** ** Go errors and fallible results

    A Go [error] is kept as the text of its outermost message together with
    the one bit the program inspects: whether [errors.Is(err, os.ErrNotExist)]
    holds. [fmt.Errorf] with [%w] keeps that bit ([wrapw]); with [%v], or with
    no error argument, the result is a fresh error ([Errorf]). *)
Record error := Error { err_not_exist : bool; err_msg : string }.

Definition Errorf (msg : string) : error := Error false msg.
Definition ErrNotExist : error := Error true "file does not exist".
Definition wrapw (msg : string) (e : error) : error := Error (err_not_exist e) msg.
(** [errors.Join]: the join matches a sentinel when one of its parts does. *)
Definition join_err (a b : error) : error :=
  Error (err_not_exist a || err_not_exist b) (err_msg a).

Inductive res (A : Type) :=
| Ok (a : A)
| Er (e : error).
Arguments Ok {A} a.
Arguments Er {A} e.

Definition res_bind {A B} (m : res A) (f : A → res B) : res B :=
  match m with Ok a => f a | Er e => Er e end.
Definition is_ok {A} (m : res A) : bool := match m with Ok _ => true | Er _ => false end.
(** The value of a success. *)
Definition ok_of {A} (m : res A) : option A := match m with Ok a => Some a | Er _ => None end.
Definition fail {A} (msg : string) : res A := Er (Errorf msg).
(** [if !cond { return fmt.Errorf(msg) }] *)
Definition check (cond : bool) (msg : string) : res unit := if cond then Ok tt else fail msg.

Notation "'let?' x := m 'in' k" := (res_bind m (λ x, k))
  (at level 10, x pattern, m at level 100, k at level 200) : go_scope.
Notation "m ;;? k" := (res_bind m (λ _, k))
  (at level 100, k at level 200, right associativity) : go_scope.
Infix "=s" := String.eqb (at level 70, no associativity) : go_scope.
Notation "a ≠s b" := (negb (String.eqb a b)) (at level 70, no associativity) : go_scope.

(** Pointer tests: [p != nil] and [p == nil]. *)
Definition isSome {A} (o : option A) : bool := match o with Some _ => true | None => false end.
Definition isNone {A} (o : option A) : bool := negb (isSome o).

(** ** Decidable equality *)

#[export] Instance error_eq_dec : EqDecision error.
Proof. solve_decision. Defined.
#[export] Instance res_eq_dec `{EqDecision A} : EqDecision (res A).
Proof. solve_decision. Defined.

(** ** Lemmas on results *)

Lemma res_bind_ok {A B} (m : res A) (f : A → res B) b :
  res_bind m f = Ok b ↔ ∃ a, m = Ok a ∧ f a = Ok b.
Proof.
  destruct m as [a|e]; simpl; split.
  - eauto.
  - intros (a' & Ha & H). congruence.
  - discriminate.
  - intros (a' & Ha & H). discriminate.
Qed.

Lemma check_ok c msg u : check c msg = Ok u ↔ c = true.
Proof. unfold check, fail. destruct c, u; split; congruence. Qed.

Lemma check_then_ok {B} c msg (m : res B) b : (check c msg ;;? m) = Ok b ↔ c = true ∧ m = Ok b.
Proof. unfold check, fail. destruct c; cbn; naive_solver. Qed.

Lemma unit_then_ok {B} (m : res unit) (k : res B) b : (m ;;? k) = Ok b ↔ m = Ok tt ∧ k = Ok b.
Proof. destruct m as [[]|]; cbn; naive_solver. Qed.

Lemma is_ok_true {A} (m : res A) : is_ok m = true ↔ ∃ a, m = Ok a.
Proof. destruct m; simpl; split; [eauto|done|done|]. by intros [? ?]. Qed.

(** A pure step never reports a missing file: its errors are its own. *)
Definition plain {A} (r : res A) : Prop := ∀ e, r = Er e → err_not_exist e = false.
Lemma plain_ok {A} (a : A) : plain (Ok a).
Proof. by intros e [=]. Qed.
Lemma plain_fail {A} msg : plain (@fail A msg).
Proof. by intros e [= <-]. Qed.
Lemma plain_check c msg : plain (check c msg).
Proof. destruct c; [apply plain_ok|apply plain_fail]. Qed.
Lemma plain_bind {A B} (m : res A) (f : A → res B) : plain m → (∀ a, plain (f a)) → plain (res_bind m f).
Proof. intros Hm Hf. destruct m as [a|e0]; cbn; [apply Hf|]. intros e [= <-]. by apply Hm. Qed.
Create HintDb plain discriminated.
#[export] Hint Resolve plain_ok plain_fail plain_check plain_bind : plain.
Ltac plain_tac :=
  repeat first
    [ match goal with |- ∀ _, _ => intro end
    | solve [eauto 3 with plain]
    | match goal with
      | |- plain (res_bind _ _) => apply plain_bind
      | |- plain (let '_ := ?x in _) => destruct x
      | |- plain (if ?x then _ else _) => destruct x
      | |- plain (match ?x with _ => _ end) => destruct x end ].

(** ** Strings as byte sequences *)

Lemma eqs_true (a b : string) : (a =s b) = true ↔ a = b.
Proof. apply String.eqb_eq. Qed.
Lemma eqs_false (a b : string) : (a =s b) = false ↔ a ≠ b.
Proof. apply String.eqb_neq. Qed.
Lemma neqs_true (a b : string) : (a ≠s b) = true ↔ a ≠ b.
Proof. rewrite negb_true_iff. apply eqs_false. Qed.
Lemma neqs_false (a b : string) : (a ≠s b) = false ↔ a = b.
Proof. rewrite negb_false_iff. apply eqs_true. Qed.
Lemma eqs_refl (a : string) : (a =s a) = true.
Proof. by apply eqs_true. Qed.

(** The byte ranges the validators use. A byte outside ASCII is in none. *)
Definition is_lower (c : ascii) : bool := Ascii.leb "a" c && Ascii.leb c "z".
Definition is_upper (c : ascii) : bool := Ascii.leb "A" c && Ascii.leb c "Z".
Definition is_digit (c : ascii) : bool := Ascii.leb "0" c && Ascii.leb c "9".
Definition is_lower_hex (c : ascii) : bool := is_digit c || (Ascii.leb "a" c && Ascii.leb c "f").

(** [for each byte of s: f byte], the shape of the validators' loops. *)
Fixpoint str_all (f : ascii → bool) (s : string) : bool :=
  match s with
  | EmptyString => true
  | String c r => f c && str_all f r
  end.

Lemma str_all_app f a b : str_all f (a +:+ b) = str_all f a && str_all f b.
Proof. induction a as [|c a IH]; simpl; [done|]. by rewrite IH, andb_assoc. Qed.

Lemma str_all_impl (f g : ascii → bool) s :
  (∀ c, f c = true → g c = true) → str_all f s = true → str_all g s = true.
Proof.
  intros Hfg. induction s as [|c s IH]; simpl; [done|].
  rewrite !andb_true_iff. intros [Hc Hs]. eauto.
Qed.

Lemma str_all_append_inj f (sep : ascii) a a' b b' :
  f sep = false → str_all f a = true → str_all f a' = true →
  a +:+ String sep b = a' +:+ String sep b' → a = a' ∧ b = b'.
Proof.
  intros Hsep. revert a'. induction a as [|c a IH]; intros [|c' a']; simpl.
  - intros _ _ E. by inversion E.
  - intros _ [Hc _]%andb_true_iff E. simplify_eq/=. congruence.
  - intros [Hc _]%andb_true_iff _ E. simplify_eq/=. congruence.
  - intros [_ Ha]%andb_true_iff [_ Ha']%andb_true_iff E. inversion E; subst.
    destruct (IH a') as [-> ->]; auto.
Qed.

Lemma str_length_app (a b : string) :
  String.length (a +:+ b) = (String.length a + String.length b)%nat.
Proof. induction a as [|c a IH]; [done|]. cbn. by rewrite <-IH. Qed.

Lemma str_app_inj_l (p a b : string) : p +:+ a = p +:+ b → a = b.
Proof. induction p as [|c p IH]; [done|]. intros E. injection E. exact IH. Qed.

Lemma str_app_inj_len (a a' b b' : string) :
  String.length a = String.length a' → a +:+ b = a' +:+ b' → a = a' ∧ b = b'.
Proof.
  revert a'. induction a as [|c a IH]; intros [|c' a']; simpl; try lia; [done|].
  intros Hl E. injection E as -> E. injection Hl as Hl.
  destruct (IH a' Hl E) as [-> ->]. done.
Qed.

Lemma substring_all s : String.substring 0 (String.length s) s = s.
Proof. induction s as [|c s IH]; [done|]. cbn. by rewrite IH. Qed.
Lemma substring_split n s : s = String.substring 0 n s +:+ String.substring n (String.length s - n) s.
Proof.
  revert n. induction s as [|c s IH]; intros [|n]; [done|done|..].
  - change (String c s = String c (String.substring 0 (String.length s) s)). by rewrite substring_all.
  - change (String c s = String c (String.substring 0 n s +:+ String.substring n (String.length s - n) s)). by rewrite <-IH.
Qed.

(** *** File names and paths *)

Fixpoint has_prefix (p s : string) : bool :=
  match p, s with
  | EmptyString, _ => true
  | String a p', String b s' => Ascii.eqb a b && has_prefix p' s'
  | _, _ => false
  end.
(** [strings.Contains] *)
Fixpoint str_contains (p s : string) : bool :=
  has_prefix p s || match s with EmptyString => false | String _ r => str_contains p r end.
(** [strings.HasSuffix] and [strings.TrimSuffix] in one. *)
Fixpoint strip_suffix (suf s : string) : option string :=
  if s =s suf then Some EmptyString
  else match s with
       | EmptyString => None
       | String c r => String c <$> strip_suffix suf r
       end.
(** [strings.Split(value, "/")] *)
Fixpoint split_slash (acc s : string) : list string :=
  match s with
  | EmptyString => [acc]
  | String c r => if Ascii.eqb c "/" then acc :: split_slash "" r else split_slash (acc +:+ String c EmptyString) r
  end.
(** [filepath.Base] of a canonical absolute path. *)
Definition path_base (p : string) : string := if p =s "/" then "/" else List.last (split_slash "" p) "".
Definition json_name (n : string) : string := n +:+ ".json".
(** The name of a record file without its extension. *)
Definition json_key (name : string) : option string := strip_suffix ".json" name.
(** [strings.HasPrefix(name, ".") && strings.Contains(name, ".tmp-")] *)
Definition is_temporary (name : string) : bool := has_prefix "." name && str_contains ".tmp-" name.

Lemma strip_suffix_app suf n : strip_suffix suf (n +:+ suf) = Some n.
Proof.
  induction n as [|c n IH].
  - change (EmptyString +:+ suf) with suf. destruct suf; cbn [strip_suffix]; by rewrite eqs_refl.
  - change (String c n +:+ suf) with (String c (n +:+ suf)). cbn [strip_suffix].
    assert ((String c (n +:+ suf) =s suf) = false) as ->.
    { apply eqs_false. intros E. apply (f_equal String.length) in E. cbn in E.
      rewrite str_length_app in E. lia. }
    by rewrite IH.
Qed.
Lemma strip_suffix_ok suf s n : strip_suffix suf s = Some n → s = n +:+ suf.
Proof.
  revert n. induction s as [|c s IH]; intros n; cbn [strip_suffix]; case_match eqn:E.
  - intros [= <-]. by apply eqs_true in E.
  - done.
  - intros [= <-]. by apply eqs_true in E.
  - intros (m & Hm & ->)%fmap_Some. change (String c m +:+ suf) with (String c (m +:+ suf)). f_equal. by apply IH.
Qed.
Lemma json_key_name n : json_key (json_name n) = Some n.
Proof. apply strip_suffix_app. Qed.
Lemma json_key_ok s n : json_key s = Some n ↔ s = json_name n.
Proof. split; [apply strip_suffix_ok|]. intros ->. apply json_key_name. Qed.
Lemma json_name_inj a b : json_name a = json_name b → a = b.
Proof. intros E. apply (f_equal json_key) in E. rewrite !json_key_name in E. congruence. Qed.
#[export] Instance json_name_Inj : Inj (=) (=) json_name.
Proof. intros a b. apply json_name_inj. Qed.

(** [strings.TrimSpace(s) == ""]: every rune is white space. The multi-byte
    white space runes are U+0085, U+00A0, U+1680, U+2000 to U+200A, U+2028,
    U+2029, U+202F, U+205F and U+3000. *)
Definition is_space (c : ascii) : bool :=
  let n := N_of_ascii c in ((9 <=? n) && (n <=? 13) || (n =? 32))%N.
Definition is_space2 (a b : ascii) : bool :=
  ((N_of_ascii a =? 0xC2) && ((N_of_ascii b =? 0x85) || (N_of_ascii b =? 0xA0)))%N.
Definition is_space3 (a b c : ascii) : bool :=
  let '(x, y, z) := (N_of_ascii a, N_of_ascii b, N_of_ascii c) in
  ((x =? 0xE1) && (y =? 0x9A) && (z =? 0x80) ||
   (x =? 0xE2) && (y =? 0x80) && ((0x80 <=? z) && (z <=? 0x8A) || (z =? 0xA8) || (z =? 0xA9) || (z =? 0xAF)) ||
   (x =? 0xE2) && (y =? 0x81) && (z =? 0x9F) || (x =? 0xE3) && (y =? 0x80) && (z =? 0x80))%N.
Fixpoint blank (s : string) : bool :=
  match s with
  | EmptyString => true
  | String a r =>
      if is_space a then blank r
      else match r with
           | EmptyString => false
           | String b r1 =>
               if is_space2 a b then blank r1
               else match r1 with
                    | EmptyString => false
                    | String c r2 => if is_space3 a b c then blank r2 else false
                    end
           end
  end.

(** [filepath.IsAbs(p) && filepath.Clean(p) == p]: the root, or a slash before
    each element, none of them empty, [.] or [..]. *)
Definition clean_elem (e : string) : bool := (e ≠s "") && (e ≠s ".") && (e ≠s "..").
Fixpoint clean_elems (acc s : string) : bool :=
  match s with
  | EmptyString => clean_elem acc
  | String c r =>
      if Ascii.eqb c "/" then clean_elem acc && clean_elems "" r
      else clean_elems (acc +:+ String c EmptyString) r
  end.
Definition canonical_abs (p : string) : bool :=
  match p with
  | String "/" EmptyString => true
  | String "/" r => clean_elems "" r
  | _ => false
  end.
(** [filepath.Join(root, elems...)] for a canonical root and clean elements. *)
Definition path_join (root : string) (elems : list string) : string :=
  fold_left (λ p e, p +:+ String "/" e) elems (if root =s "/" then "" else root).

(** *** The byte order of Go's [<] on strings *)
Definition str_le (a b : string) : Prop := String.leb a b = true.
#[export] Instance str_le_dec : RelDecision str_le.
Proof. intros a b. unfold str_le. apply _. Defined.
#[export] Instance str_le_total : Total str_le.
Proof.
  intros a b. unfold str_le. destruct (String.leb_total a b); auto.
Qed.
#[export] Instance str_le_trans : Transitive str_le.
Proof.
  intros a b c. unfold str_le, String.leb.
  revert b c. induction a as [|x a IH]; intros [|y b] [|z c]; cbn; try done.
  intros H1 H2.
  destruct (Ascii.compare x y) eqn:E1; [|..]; try done.
  - apply Ascii.compare_eq_iff in E1 as ->.
    destruct (Ascii.compare y z) eqn:E2; try done. by eapply IH.
  - destruct (Ascii.compare y z) eqn:E2; try done.
    + apply Ascii.compare_eq_iff in E2 as ->. by rewrite E1.
    + assert (Ascii.compare x z = Lt) as ->; [|done].
      unfold Ascii.compare in *. rewrite N.compare_lt_iff in *. lia.
Qed.
#[export] Instance str_le_antisymm : AntiSymm (=) str_le.
Proof. intros a b. unfold str_le. apply String.leb_antisym. Qed.
(** [sort.Slice] by a string key. *)
Definition key_le {A} (key : A → string) (a b : A) : Prop := str_le (key a) (key b).
#[export] Instance key_le_dec {A} (key : A → string) : RelDecision (key_le key).
Proof. intros a b. unfold key_le. apply _. Defined.
#[export] Instance key_le_trans {A} (key : A → string) : Transitive (key_le key).
Proof. intros a b c. unfold key_le. apply str_le_trans. Qed.
#[export] Instance key_le_total {A} (key : A → string) : Total (key_le key).
Proof. intros a b. unfold key_le. apply str_le_total. Qed.
Definition sort_by {A} (key : A → string) (l : list A) : list A := merge_sort (key_le key) l.
Lemma sort_by_perm {A} (key : A → string) l : sort_by key l ≡ₚ l.
Proof. apply merge_sort_Permutation. Qed.
Lemma sort_by_sorted {A} (key : A → string) l : StronglySorted (key_le key) (sort_by key l).
Proof. apply StronglySorted_merge_sort; apply _. Qed.

(** ** Tactics *)

(** Turn the boolean guards of a translated Go condition into propositions. *)
Ltac bsimpl :=
  repeat match goal with
  | H : _ && _ = true |- _ => apply andb_true_iff in H; destruct H
  | H : _ || _ = false |- _ => apply orb_false_iff in H; destruct H
  | H : negb _ = true |- _ => apply negb_true_iff in H
  | H : negb _ = false |- _ => apply negb_false_iff in H
  | H : String.eqb _ _ = true |- _ => apply String.eqb_eq in H
  | H : String.eqb _ _ = false |- _ => apply String.eqb_neq in H
  | H : bool_decide _ = true |- _ => apply bool_decide_eq_true in H
  | H : bool_decide _ = false |- _ => apply bool_decide_eq_false in H
  | H : Z.eqb _ _ = true |- _ => apply Z.eqb_eq in H
  | H : Z.eqb _ _ = false |- _ => apply Z.eqb_neq in H
  end.

(** Peel the successful prefix of a chain of [res_bind]s in a hypothesis. *)
Ltac res_inv H :=
  repeat match type of H with
  | res_bind _ _ = Ok _ =>
      let a := fresh "a" in let Ha := fresh "Ha" in
      apply res_bind_ok in H; destruct H as (a & Ha & H)
  end.

Create HintDb go.
#[export] Hint Resolve eqs_refl : go.
