(* ===== verification/Ids.v ===== *)
(** Identifiers: the validators of domains, session names, UUIDs, backend
    object names, digests, mount paths and lock scopes, one Module per package
    that declares its own copy, and the two constructions of identifiers the
    program makes itself ([newID], [objectIDFor]). Go's [for _, r := range s]
    visits runes; every accepted rune is one ASCII byte and any other byte
    starts a rune outside the accepted ranges, so the loops are byte loops. *)
From S2P Require Import Prelude.

Definition lower_digit (c : ascii) : bool := is_lower c || is_digit c.
Definition isAlphaNumeric (value : ascii) : bool := is_lower value || is_upper value || is_digit value.
Definition alnum_dash (c : ascii) : bool := isAlphaNumeric c || Ascii.eqb c "-".

(** The loop shared by the UUID validators: a dash at 8, 13, 18, 23 and a
    lower-case hexadecimal digit everywhere else. *)
Definition uuid_dash (i : nat) : bool :=
  (i =? 8)%nat || (i =? 13)%nat || (i =? 18)%nat || (i =? 23)%nat.
Fixpoint uuid_loop (i : nat) (s : string) : bool :=
  match s with
  | EmptyString => true
  | String c r =>
      (if uuid_dash i then Ascii.eqb c "-" else is_lower_hex c) && uuid_loop (S i) r
  end.

Module Domain.
Definition maxIDLength : nat := 63.
Definition Parse (raw : string) : res string :=
  if (String.length raw =? 0)%nat || (maxIDLength <? String.length raw)%nat
  then fail "invalid domain identifier"
  else match raw with
       | EmptyString => fail "invalid domain identifier"
       | String c rest =>
           if negb (is_lower c) then fail "invalid domain identifier"
           else if str_all lower_digit rest then Ok raw
           else fail "invalid domain identifier"
       end.
End Domain.

Module Backend.
Definition maxObjectIDLength : nat := 127.
Definition ValidateObjectID (objectID : string) : res unit :=
  match objectID with
  | EmptyString => fail "invalid backend object ID"
  | String c rest =>
      if (maxObjectIDLength <? String.length objectID)%nat || negb (isAlphaNumeric c)
      then fail "invalid backend object ID"
      else if str_all alnum_dash rest then Ok tt else fail "invalid backend object ID"
  end.
End Backend.

Module Session.
Definition maxNameLength : nat := 63.
Definition ParseName (raw : string) : res string :=
  if (String.length raw =? 0)%nat || (maxNameLength <? String.length raw)%nat
  then fail "invalid session name"
  else match raw with
       | EmptyString => fail "invalid session name"
       | String c rest =>
           if negb (is_lower c) then fail "invalid session name"
           else if str_all lower_digit rest then Ok raw
           else fail "invalid session name"
       end.
Definition validUUID (raw : string) : bool :=
  (String.length raw =? 36)%nat && uuid_loop 0 raw.
Definition validBackendObjectID (raw : string) : bool :=
  match raw with
  | EmptyString => false
  | String c rest =>
      negb (127 <? String.length raw)%nat && isAlphaNumeric c && str_all alnum_dash rest
  end.
Definition lowerSHA256 (raw : string) : bool :=
  (String.length raw =? 64)%nat && str_all is_lower_hex raw.

(** [hex.EncodeToString] *)
Definition hexd (n : Z) : ascii :=
  match String.get (Z.to_nat n) "0123456789abcdef" with Some c => c | None => "0"%char end.
Fixpoint hex (raw : list Z) : string :=
  match raw with
  | [] => ""
  | b :: r => String (hexd (Z.shiftr b 4)) (String (hexd (Z.land b 15)) (hex r))
  end.
(** [newID]: sixteen random bytes with the version and variant bits set.
    [source] is what [io.ReadFull] delivered. *)
Definition newID (source : res (list Z)) : res string :=
  match source with
  | Er e => Er (wrapw "read session identity randomness" e)
  | Ok raw =>
      let raw := alter (λ b, Z.lor (Z.land b 0x0f) 0x40) 6%nat raw in
      let raw := alter (λ b, Z.lor (Z.land b 0x3f) 0x80) 8%nat raw in
      let encoded := hex raw in
      Ok (String.substring 0 8 encoded +:+ "-" +:+ String.substring 8 4 encoded +:+ "-" +:+
          String.substring 12 4 encoded +:+ "-" +:+ String.substring 16 4 encoded +:+ "-" +:+
          String.substring 20 12 encoded)
  end.
(** [strings.ReplaceAll(id, "-", "")] *)
Fixpoint strip_dashes (s : string) : string :=
  match s with
  | EmptyString => EmptyString
  | String c r => if Ascii.eqb c "-" then strip_dashes r else String c (strip_dashes r)
  end.
Definition objectIDFor (domainID id : string) : string :=
  "boxwarden-" +:+ domainID +:+ "-" +:+ strip_dashes id.
End Session.

Module Workspacex.
Definition validSessionName (name : string) : bool :=
  match name with
  | EmptyString => false
  | String c rest =>
      negb (63 <? String.length name)%nat && is_lower c && str_all lower_digit rest
  end.
Definition mount_prefix : string := "/home/boxwarden/workspaces/".
Definition validMountPath (mount : string) : bool :=
  let n := String.length mount_prefix in
  negb (String.length mount <=? n)%nat && negb (255 <? String.length mount)%nat &&
  (String.substring 0 n mount =s mount_prefix) &&
  validSessionName (String.substring n (String.length mount - n) mount).
Definition validPendingKind (kind : string) : bool :=
  existsb (String.eqb kind) ["create"; "format"; "import"; "attach"; "detach"; "export-snapshot"].
Definition validUUID (raw : string) : bool :=
  (String.length raw =? 36)%nat && uuid_loop 0 raw.
Definition validObjectID (raw : string) : bool :=
  match raw with
  | EmptyString => false
  | String c rest =>
      negb (127 <? String.length raw)%nat && isAlphaNumeric c && str_all alnum_dash rest
  end.
End Workspacex.

Module Lock.
Definition maxScopeLength : nat := 250.
Definition validScope (scope : string) : bool :=
  match scope with
  | EmptyString => false
  | String c rest =>
      negb (maxScopeLength <? String.length scope)%nat && isAlphaNumeric c && str_all alnum_dash rest
  end.
Definition validLowerIdentifier (raw : string) : bool :=
  match raw with
  | EmptyString => false
  | String c rest =>
      negb (63 <? String.length raw)%nat && is_lower c && str_all lower_digit rest
  end.
Definition validDomain (raw : string) : bool := validLowerIdentifier raw.
Definition validSessionName (raw : string) : bool := validLowerIdentifier raw.
(** The scopes the program locks. *)
Definition session_scope (domain name : string) : string := "session-" +:+ domain +:+ "-" +:+ name.
Definition storage_scope (domain : string) : string := "storage-" +:+ domain.
Definition volume_scope (domain volumeID : string) : string := "volume-" +:+ domain +:+ "-" +:+ volumeID.
Definition transition_scope (domain name : string) : string := "transition-" +:+ domain +:+ "-" +:+ name.
Definition export_scope (domain id : string) : string := "export-" +:+ domain +:+ "-" +:+ id.
Definition import_scope (domain id : string) : string := "import-" +:+ domain +:+ "-" +:+ id.
Definition golden_scope : string := "golden".
End Lock.

(** The locks of one state root. *)
Inductive lock_name :=
| LSession (domain name : string)
| LStorage (domain : string)
| LVolume (domain volumeID : string)
| LTransition (domain name : string)
| LExport (domain id : string)
| LImport (domain id : string)
| LGolden.
Definition lock_scope (l : lock_name) : string :=
  match l with
  | LSession d n => Lock.session_scope d n
  | LStorage d => Lock.storage_scope d
  | LVolume d v => Lock.volume_scope d v
  | LTransition d n => Lock.transition_scope d n
  | LExport d i => Lock.export_scope d i
  | LImport d i => Lock.import_scope d i
  | LGolden => Lock.golden_scope
  end.
Definition lock_name_ok (l : lock_name) : bool :=
  match l with
  | LSession d n | LTransition d n => Lock.validDomain d && Lock.validSessionName n
  | LStorage d => Lock.validDomain d
  | LVolume d v | LExport d v | LImport d v => Lock.validDomain d && Session.validUUID v
  | LGolden => true
  end.

(** ** The copies agree *)

Lemma Parse_ok raw s :
  Domain.Parse raw = Ok s ↔ s = raw ∧ Lock.validLowerIdentifier raw = true.
Proof.
  unfold Domain.Parse, Lock.validLowerIdentifier, Domain.maxIDLength, fail.
  destruct raw as [|c rest]; [naive_solver|].
  destruct (63 <? String.length (String c rest))%nat; simpl; [naive_solver|].
  destruct (is_lower c); simpl; [|naive_solver].
  destruct (str_all lower_digit rest); naive_solver.
Qed.

Lemma ParseName_eq raw : is_ok (Session.ParseName raw) = Lock.validLowerIdentifier raw.
Proof.
  unfold Session.ParseName, Lock.validLowerIdentifier, Session.maxNameLength.
  destruct raw as [|c rest]; [done|].
  destruct (63 <? String.length (String c rest))%nat; simpl; [done|].
  destruct (is_lower c); simpl; [|done]. by destruct (str_all lower_digit rest).
Qed.

Lemma ParseName_ok raw s :
  Session.ParseName raw = Ok s ↔ s = raw ∧ Lock.validLowerIdentifier raw = true.
Proof.
  unfold Session.ParseName, Lock.validLowerIdentifier, Session.maxNameLength, fail.
  destruct raw as [|c rest]; [naive_solver|].
  destruct (63 <? String.length (String c rest))%nat; simpl; [naive_solver|].
  destruct (is_lower c); simpl; [|naive_solver].
  destruct (str_all lower_digit rest); naive_solver.
Qed.

Lemma validSessionName_eq raw : Workspacex.validSessionName raw = Lock.validLowerIdentifier raw.
Proof. done. Qed.
Lemma validUUID_eq raw : Workspacex.validUUID raw = Session.validUUID raw.
Proof. done. Qed.
Lemma validObjectID_eq raw : Workspacex.validObjectID raw = Session.validBackendObjectID raw.
Proof. done. Qed.
Lemma ValidateObjectID_eq raw :
  is_ok (Backend.ValidateObjectID raw) = Session.validBackendObjectID raw.
Proof.
  unfold Backend.ValidateObjectID, Session.validBackendObjectID, Backend.maxObjectIDLength.
  destruct raw as [|c rest]; [done|].
  destruct (127 <? String.length (String c rest))%nat; simpl; [done|].
  destruct (isAlphaNumeric c); simpl; [|done]. by destruct (str_all alnum_dash rest).
Qed.

Lemma ident_bytes raw :
  Lock.validLowerIdentifier raw = true →
  str_all lower_digit raw = true ∧ (0 < String.length raw ≤ 63)%nat.
Proof.
  unfold Lock.validLowerIdentifier. destruct raw as [|c rest]; [done|].
  intros H. bsimpl. apply Nat.ltb_ge in H. cbn [str_all]. unfold lower_digit at 1.
  rewrite H1, H0. simpl in *. split; [done|lia].
Qed.

Lemma uuid_bytes raw :
  Session.validUUID raw = true → String.length raw = 36%nat ∧ uuid_loop 0 raw = true.
Proof. unfold Session.validUUID. intros H. bsimpl. by apply Nat.eqb_eq in H. Qed.

Lemma eqb_dash c : Ascii.eqb c "-" = true ↔ c = "-"%char.
Proof. apply Ascii.eqb_eq. Qed.

Lemma lower_hex_dash c : is_lower_hex c = true → Ascii.eqb c "-" = false.
Proof. intros H. destruct (Ascii.eqb_spec c "-"); [subst; discriminate|done]. Qed.
Lemma lower_hex_alnum c : is_lower_hex c = true → isAlphaNumeric c = true.
Proof.
  unfold is_lower_hex, isAlphaNumeric, is_lower, is_digit, is_upper, Ascii.leb, Ascii.compare.
  destruct c as [[] [] [] [] [] [] [] []]; vm_compute; done.
Qed.
Lemma lower_digit_alnum c : lower_digit c = true → isAlphaNumeric c = true.
Proof. unfold lower_digit, isAlphaNumeric. destruct (is_lower c), (is_digit c), (is_upper c); done. Qed.
Lemma alnum_alnum_dash c : isAlphaNumeric c = true → alnum_dash c = true.
Proof. unfold alnum_dash. by intros ->. Qed.

Lemma ident_alnum_dash s : str_all lower_digit s = true → str_all alnum_dash s = true.
Proof. apply str_all_impl. eauto using alnum_alnum_dash, lower_digit_alnum. Qed.

Lemma uuid_alnum_dash i s : uuid_loop i s = true → str_all alnum_dash s = true.
Proof.
  revert i. induction s as [|c s IH]; intros i; cbn; [done|]. intros H. bsimpl.
  rewrite (IH _ H0), andb_true_r. unfold alnum_dash. destruct (uuid_dash i).
  - by rewrite H, orb_true_r.
  - by rewrite (lower_hex_alnum _ H).
Qed.
#[export] Hint Resolve ident_alnum_dash uuid_alnum_dash : go.

(** ** Backend object names *)

Lemma strip_dashes_hex i s : uuid_loop i s = true → str_all is_lower_hex (Session.strip_dashes s) = true.
Proof.
  revert i. induction s as [|c s IH]; intros i; cbn; [done|]. intros H. bsimpl.
  destruct (uuid_dash i).
  - rewrite H. eauto.
  - rewrite (lower_hex_dash _ H). cbn. rewrite H. eauto.
Qed.

Lemma strip_dashes_length s : (String.length (Session.strip_dashes s) ≤ String.length s)%nat.
Proof. induction s as [|c s IH]; cbn; [done|]. destruct (Ascii.eqb c "-"); cbn; lia. Qed.

Lemma strip_dashes_inj i a b :
  uuid_loop i a = true → uuid_loop i b = true → String.length a = String.length b →
  Session.strip_dashes a = Session.strip_dashes b → a = b.
Proof.
  revert i b. induction a as [|c a IH]; intros i [|c' b]; cbn; try done.
  intros Ha Hb Hl E. bsimpl. injection Hl as Hl. destruct (uuid_dash i).
  - rewrite H1, H in E. apply eqb_dash in H1, H. subst. f_equal. eauto.
  - rewrite (lower_hex_dash _ H1), (lower_hex_dash _ H) in E.
    injection E as -> E. f_equal. eauto.
Qed.

Lemma objectIDFor_inj_aux d d' id id' :
  Lock.validLowerIdentifier d = true → Lock.validLowerIdentifier d' = true →
  Session.validUUID id = true → Session.validUUID id' = true →
  Session.objectIDFor d id = Session.objectIDFor d' id' → d = d' ∧ id = id'.
Proof.
  intros Hd Hd' Hi Hi' E. apply ident_bytes in Hd as [Hd _], Hd' as [Hd' _].
  apply uuid_bytes in Hi as [Hl Hi], Hi' as [Hl' Hi'].
  unfold Session.objectIDFor in E. apply str_app_inj_l in E.
  apply (str_all_append_inj lower_digit) in E as [-> E]; try done.
  split; [done|]. eapply strip_dashes_inj; eauto. congruence.
Qed.

Lemma objectIDFor_valid_aux d id :
  Lock.validLowerIdentifier d = true → Session.validUUID id = true →
  Session.validBackendObjectID (Session.objectIDFor d id) = true.
Proof.
  intros Hd Hi. apply ident_bytes in Hd as [Hd Hld]. apply uuid_bytes in Hi as [Hl Hi].
  pose proof (strip_dashes_length id) as Hs. pose proof (strip_dashes_hex _ _ Hi) as Hh.
  unfold Session.validBackendObjectID. cbn [Session.objectIDFor].
  change (Session.objectIDFor d id) with
    (String "b" ("oxwarden-" +:+ (d +:+ "-" +:+ Session.strip_dashes id))).
  cbn [isAlphaNumeric is_lower]. rewrite !andb_true_iff, negb_true_iff. repeat split.
  - apply Nat.ltb_ge. cbn [String.length]. rewrite !str_length_app. cbn [String.length]. lia.
  - rewrite !str_all_app. rewrite (ident_alnum_dash _ Hd).
    rewrite (str_all_impl _ alnum_dash _ (λ c Hc, alnum_alnum_dash c (lower_hex_alnum c Hc)) Hh).
    done.
Qed.

(** ** Identifiers made from random bytes *)

Lemma hexd_hex n : 0 ≤ n < 16 → is_lower_hex (Session.hexd n) = true.
Proof.
  intros Hn. assert (Hk : ∃ k, (k < 16)%nat ∧ n = Z.of_nat k) by (exists (Z.to_nat n); lia).
  destruct Hk as (k & Hk & ->). do 16 (destruct k as [|k]; [reflexivity|]). lia.
Qed.

Lemma nibbles b : 0 ≤ b < 256 → 0 ≤ Z.shiftr b 4 < 16 ∧ 0 ≤ Z.land b 15 < 16.
Proof.
  intros Hb. split.
  - rewrite Z.shiftr_div_pow2 by lia. change (2 ^ 4) with 16.
    pose proof (Z.div_pos b 16). pose proof (Z.div_lt_upper_bound b 16 16). lia.
  - change 15 with (Z.ones 4). rewrite Z.land_ones by lia. apply Z.mod_pos_bound. lia.
Qed.

Lemma byte_cases (P : Z → Prop) :
  (∀ k, (k < 256)%nat → P (Z.of_nat k)) → ∀ b, 0 ≤ b < 256 → P b.
Proof. intros H b Hb. rewrite <-(Z2Nat.id b) by lia. apply H. lia. Qed.

Lemma version_byte b : 0 ≤ b < 256 →
  Z.shiftr (Z.lor (Z.land b 0x0f) 0x40) 4 = 4 ∧ 0 ≤ Z.lor (Z.land b 0x0f) 0x40 < 256.
Proof.
  revert b. apply byte_cases. intros k Hk.
  do 256 (destruct k as [|k]; [by vm_compute|]). lia.
Qed.

Lemma variant_byte b : 0 ≤ b < 256 →
  8 ≤ Z.shiftr (Z.lor (Z.land b 0x3f) 0x80) 4 < 12 ∧ 0 ≤ Z.lor (Z.land b 0x3f) 0x80 < 256.
Proof.
  revert b. apply byte_cases. intros k Hk.
  do 256 (destruct k as [|k]; [by vm_compute|]). lia.
Qed.

(** [hex] of a list is two digits per byte. *)
Lemma hex_digits raw :
  Forall (λ b, 0 ≤ b < 256) raw → str_all is_lower_hex (Session.hex raw) = true.
Proof.
  induction 1 as [|b raw Hb _ IH]; [done|]. cbn. apply nibbles in Hb as [H1 H2].
  by rewrite (hexd_hex _ H1), (hexd_hex _ H2).
Qed.

Lemma plain_Parse raw : plain (Domain.Parse raw).
Proof. unfold Domain.Parse. plain_tac. Qed.
Lemma plain_ParseName raw : plain (Session.ParseName raw).
Proof. unfold Session.ParseName. plain_tac. Qed.
#[export] Hint Resolve plain_Parse plain_ParseName : plain.

(** ** Properties *)

(** [newID] turns any sixteen random bytes into a canonical
    lower-case UUID that the record validators accept, whose version digit is 4
    and whose variant digit is one of 8, 9, a, b; a failed read is reported. *)
Theorem newID_is_valid_v4 (raw : list Z) :
  length raw = 16%nat → Forall (λ b, 0 ≤ b < 256) raw →
  ∃ id, Session.newID (Ok raw) = Ok id ∧ Session.validUUID id = true ∧
        String.get 14 id = Some "4"%char ∧
        String.get 19 id ∈ Some <$> ["8"%char; "9"%char; "a"%char; "b"%char].
Proof.
  intros Hl Hb. do 16 (destruct raw as [|? raw]; [done|]). destruct raw; [|done].
  repeat match goal with H : Forall _ (_ :: _) |- _ => apply Forall_cons in H as [? H] end.
  eexists. split; [reflexivity|]. cbn. cbv [String.append]. cbn.
  repeat match goal with
  | H : 0 ≤ ?b < 256 |- context [Z.lor (Z.land ?b 15) 64] =>
      apply version_byte in H as [? H]; revert H; generalize dependent (Z.lor (Z.land b 15) 64); intros
  | H : 0 ≤ ?b < 256 |- context [Z.lor (Z.land ?b 63) 128] =>
      apply variant_byte in H as [? H]; revert H; generalize dependent (Z.lor (Z.land b 63) 128); intros
  end.
  repeat match goal with H : 0 ≤ _ < 256 |- _ => apply nibbles in H as [? ?] end.
  unfold Session.validUUID. cbn.
  repeat match goal with
  | H : 0 ≤ ?x < 16 |- context [is_lower_hex (Session.hexd ?x)] => rewrite (hexd_hex _ H); cbn
  end.
  split; [done|]. split; [by match goal with H : Z.shiftr _ 4 = 4 |- _ => rewrite H end|].
  match goal with H : 8 ≤ ?x < 12 |- _ => assert (x = 8 ∨ x = 9 ∨ x = 10 ∨ x = 11) as E by lia end.
  destruct E as [-> | [-> | [-> | ->]]]; set_solver.
Qed.
Lemma newID_is_valid_v4_witness :
  ∃ id, Session.newID (Ok [1;2;3;4;5;255;0;7;255;9;10;11;12;13;14;15]) = Ok id ∧
        Session.validUUID id = true ∧ String.get 14 id = Some "4"%char ∧
        String.get 19 id ∈ Some <$> ["8"%char; "9"%char; "a"%char; "b"%char].
Proof.
  apply newID_is_valid_v4; [reflexivity|]. repeat (apply Forall_cons; split; [lia|]). apply Forall_nil. exact I.
Defined.

(** The backend object derived from a domain and a UUID is always
    admitted by the backend argument check, and two different (domain, UUID)
    pairs never derive the same object. *)
Theorem objectIDFor_valid_injective (d d' id id' : string) :
  Domain.Parse d = Ok d → Domain.Parse d' = Ok d' →
  Session.validUUID id = true → Session.validUUID id' = true →
  Backend.ValidateObjectID (Session.objectIDFor d id) = Ok tt ∧
  (Session.objectIDFor d id = Session.objectIDFor d' id' → d = d' ∧ id = id').
Proof.
  intros [_ Hd]%Parse_ok [_ Hd']%Parse_ok Hi Hi'. split.
  - pose proof (objectIDFor_valid_aux _ _ Hd Hi) as H. rewrite <-ValidateObjectID_eq in H.
    apply is_ok_true in H as [[] H]. done.
  - eauto using objectIDFor_inj_aux.
Qed.
Lemma objectIDFor_valid_injective_witness :
  Backend.ValidateObjectID (Session.objectIDFor "work" "01234567-89ab-4def-8123-456789abcdef") = Ok tt.
Proof.
  refine (proj1 (objectIDFor_valid_injective "work" "work" "01234567-89ab-4def-8123-456789abcdef"
    "01234567-89ab-4def-8123-456789abcdef" _ _ _ _)); reflexivity.
Defined.

Lemma scope_ok (c : ascii) (r s : string) :
  isAlphaNumeric c = true → str_all alnum_dash r = true → str_all alnum_dash s = true →
  (String.length r + String.length s < 250)%nat →
  Lock.validScope (String c r +:+ s) = true.
Proof.
  intros Hc Hr Hs Hl. change (String c r +:+ s) with (String c (r +:+ s)).
  unfold Lock.validScope, Lock.maxScopeLength. rewrite Hc, str_all_app, Hr, Hs.
  rewrite !andb_true_r. apply negb_true_iff, Nat.ltb_ge. cbn. rewrite str_length_app. lia.
Qed.

Lemma scope_tail d s :
  str_all lower_digit d = true → str_all alnum_dash s = true →
  str_all alnum_dash (d +:+ "-" +:+ s) = true.
Proof. intros Hd Hs. by rewrite !str_all_app, (ident_alnum_dash _ Hd), Hs. Qed.

(** Every lock the program takes for valid identifiers has a scope the
    lock package accepts, and distinct locks have distinct scopes (so no two
    domains, sessions or volumes ever share a lock file by accident). *)
Theorem lock_scopes_valid_injective (l l' : lock_name) :
  lock_name_ok l = true → lock_name_ok l' = true →
  Lock.validScope (lock_scope l) = true ∧ (lock_scope l = lock_scope l' → l = l').
Proof.
  intros Hl Hl'. split.
  - destruct l; simpl in Hl; bsimpl;
      repeat match goal with
      | H : Lock.validDomain _ = true |- _ => apply ident_bytes in H as [? ?]
      | H : Lock.validSessionName _ = true |- _ => apply ident_bytes in H as [? ?]
      | H : Session.validUUID _ = true |- _ => apply uuid_bytes in H as [? ?]
      end; try reflexivity; (apply scope_ok; [reflexivity|reflexivity|..]);
      try apply scope_tail; rewrite ?str_length_app; cbn [String.length]; eauto with go; lia.
  - intros E. destruct l, l'; simpl in Hl, Hl', E; try (vm_compute in E; discriminate E); try done;
      unfold Lock.session_scope, Lock.storage_scope, Lock.volume_scope, Lock.transition_scope, Lock.export_scope, Lock.import_scope in E;
      apply str_app_inj_l in E; bsimpl;
      repeat match goal with
      | H : Lock.validDomain _ = true |- _ => apply ident_bytes in H as [? _]
      end; try congruence;
      apply (str_all_append_inj lower_digit) in E as [-> ->]; done.
Qed.
Lemma lock_scopes_valid_injective_witness :
  Lock.validScope (lock_scope (LSession "work" "dev")) = true.
Proof.
  refine (proj1 (lock_scopes_valid_injective (LSession "work" "dev") (LStorage "work") _ _)); reflexivity.
Defined.

#[global] Arguments Domain.Parse : simpl never.
#[global] Arguments Backend.ValidateObjectID : simpl never.
#[global] Arguments Session.ParseName : simpl never.
#[global] Arguments Session.validUUID : simpl never.
#[global] Arguments Session.validBackendObjectID : simpl never.
#[global] Arguments Session.lowerSHA256 : simpl never.
#[global] Arguments Session.objectIDFor : simpl never.
#[global] Arguments Workspacex.validSessionName : simpl never.
#[global] Arguments Workspacex.validMountPath : simpl never.
#[global] Arguments Workspacex.validPendingKind : simpl never.
#[global] Arguments Workspacex.validUUID : simpl never.
#[global] Arguments Workspacex.validObjectID : simpl never.
#[global] Arguments Lock.validScope : simpl never.
#[global] Arguments Lock.validLowerIdentifier : simpl never.
#[global] Arguments Lock.session_scope : simpl never.
#[global] Arguments Lock.storage_scope : simpl never.
#[global] Arguments Lock.volume_scope : simpl never.
#[global] Arguments Lock.transition_scope : simpl never.
#[global] Arguments Lock.export_scope : simpl never.
#[global] Arguments Lock.import_scope : simpl never.
