(* ===== verification/Bytes.v ===== *)
(** Strings as byte sequences: prefixes and the rest, big-endian integers
    (encoding/binary) and hexadecimal text (encoding/hex). *)
From S2P Require Import Prelude Ids.

Definition byte_val (c : ascii) : Z := Z.of_N (N_of_ascii c).
Definition byte_at (n : Z) : ascii := ascii_of_N (Z.to_N n).

(** [s[:n]], [s[n:]] *)
Fixpoint str_take (n : nat) (s : string) : string :=
  match n, s with S n, String c r => String c (str_take n r) | _, _ => EmptyString end.
Fixpoint str_drop (n : nat) (s : string) : string :=
  match n, s with S n, String _ r => str_drop n r | _, _ => s end.
Fixpoint str_repeat (c : ascii) (n : nat) : string :=
  match n with O => EmptyString | S n => String c (str_repeat c n) end.

(** [binary.BigEndian.Uint16], [Uint32], [Uint64] and their [Put] forms. *)
Fixpoint be (acc : Z) (s : string) : Z :=
  match s with EmptyString => acc | String c r => be (acc * 256 + byte_val c) r end.
Fixpoint put_be (n : nat) (z : Z) : string :=
  match n with O => EmptyString | S n => String (byte_at (Z.land (Z.shiftr z (8 * Z.of_nat n)) 255)) (put_be n z) end.

(** [hex.DecodeString], [hex.EncodeToString] *)
Definition unhexd (c : ascii) : Z := let n := byte_val c in if n <? 58 then n - 48 else n - 87.
Fixpoint unhex (s : string) : string :=
  match s with String a (String b r) => String (byte_at (16 * unhexd a + unhexd b)) (unhex r) | _ => EmptyString end.
Fixpoint hexEncode (s : string) : string :=
  match s with
  | EmptyString => EmptyString
  | String c r => let n := byte_val c in String (Session.hexd (Z.shiftr n 4)) (String (Session.hexd (Z.land n 15)) (hexEncode r))
  end.

(** ** Lemmas *)

Lemma byte_val_range c : 0 <= byte_val c < 256.
Proof. unfold byte_val. pose proof (N_ascii_bounded c). lia. Qed.
Lemma byte_val_at n : 0 <= n < 256 → byte_val (byte_at n) = n.
Proof. intros H. unfold byte_val, byte_at. rewrite N_ascii_embedding by lia. lia. Qed.
Lemma byte_at_val c : byte_at (byte_val c) = c.
Proof. unfold byte_val, byte_at. rewrite N2Z.id. apply ascii_N_embedding. Qed.

Lemma take_app a b : str_take (String.length a) (a +:+ b) = a.
Proof. induction a as [|c a IH]; [by destruct b|]. cbn. unfold String.append in *. cbn. by rewrite IH. Qed.
Lemma drop_app a b : str_drop (String.length a) (a +:+ b) = b.
Proof. induction a as [|c a IH]; [by destruct b|]. cbn. unfold String.append in *. cbn. by rewrite IH. Qed.
Lemma take_drop n s : s = str_take n s +:+ str_drop n s.
Proof. revert s. induction n as [|n IH]; intros [|c s]; try done. cbn. unfold String.append in *. cbn. by rewrite <-IH. Qed.
Lemma take_length n s : (n <= String.length s)%nat → String.length (str_take n s) = n.
Proof. revert s. induction n as [|n IH]; intros [|c s] H; cbn in *; try lia. rewrite IH; lia. Qed.
Lemma drop_length n s : String.length (str_drop n s) = (String.length s - n)%nat.
Proof. revert s. induction n as [|n IH]; intros [|c s]; cbn; try lia. apply IH. Qed.
Lemma take_app_n n a b : String.length a = n → str_take n (a +:+ b) = a.
Proof. intros <-. apply take_app. Qed.
Lemma drop_app_n n a b : String.length a = n → str_drop n (a +:+ b) = b.
Proof. intros <-. apply drop_app. Qed.
Lemma repeat_length c n : String.length (str_repeat c n) = n.
Proof. induction n as [|n IH]; cbn; lia. Qed.
Lemma has_prefix_app p s : has_prefix p (p +:+ s) = true.
Proof. induction p as [|c p IH]; [by destruct s|]. change (Ascii.eqb c c && has_prefix p (p +:+ s) = true). by rewrite Ascii.eqb_refl. Qed.
Lemma be_range acc s : 0 <= acc → acc * 256 ^ Z.of_nat (String.length s) <= be acc s < (acc + 1) * 256 ^ Z.of_nat (String.length s).
Proof.
  revert acc. induction s as [|c s IH]; intros acc Ha; [cbn; lia|]. cbn [be String.length].
  pose proof (byte_val_range c). specialize (IH (acc * 256 + byte_val c)). rewrite Nat2Z.inj_succ, Z.pow_succ_r by lia.
  pose proof (Z.pow_pos_nonneg 256 (Z.of_nat (String.length s))). nia.
Qed.
Lemma put_be_length n z : String.length (put_be n z) = n.
Proof. induction n as [|n IH]; cbn; lia. Qed.
Lemma be_put_acc n z acc : 0 <= z → be acc (put_be n z) = acc * 256 ^ Z.of_nat n + z mod 256 ^ Z.of_nat n.
Proof.
  intros Hz. revert acc. induction n as [|n IH]; intros acc; [cbn; rewrite Z.mod_1_r; lia|]. cbn [put_be be]. rewrite IH.
  rewrite Z.land_ones with (n := 8) by lia. change (2 ^ 8) with 256. rewrite byte_val_at by (apply Z.mod_pos_bound; lia).
  rewrite Z.shiftr_div_pow2 by lia. rewrite Z.pow_mul_r by lia. change (2 ^ 8) with 256.
  rewrite Nat2Z.inj_succ, Z.pow_succ_r by lia. set (p := 256 ^ Z.of_nat n). assert (0 < p) by (apply Z.pow_pos_nonneg; lia).
  rewrite (Z.mul_comm 256 p), (Z.rem_mul_r z p 256) by lia. lia.
Qed.
Lemma be_put n z : 0 <= z < 256 ^ Z.of_nat n → be 0 (put_be n z) = z.
Proof. intros H. rewrite be_put_acc by lia. rewrite Z.mod_small by lia. lia. Qed.
Lemma put_be_be s : put_be (String.length s) (be 0 s) = s.
Proof.
  assert (∀ s acc, 0 <= acc → ∀ z, z = be acc s → put_be (String.length s) z = s) as H; [|by apply (H s 0)].
  clear s. induction s as [|c s IH]; intros acc Ha z Hz; [done|]. cbn [String.length put_be be] in *. pose proof (byte_val_range c) as Hc.
  rewrite (IH (acc * 256 + byte_val c)) by (lia || done). f_equal.
  pose proof (be_range (acc * 256 + byte_val c) s ltac:(lia)) as Hr. rewrite <-Hz in Hr.
  rewrite Z.land_ones with (n := 8) by lia. rewrite Z.shiftr_div_pow2, Z.pow_mul_r by lia. change (2 ^ 8) with 256.
  set (p := 256 ^ Z.of_nat (String.length s)) in *. assert (0 < p) by (apply Z.pow_pos_nonneg; lia).
  assert (z / p = acc * 256 + byte_val c) as -> by (symmetry; apply Z.div_unique with (z - p * (acc * 256 + byte_val c)); lia).
  rewrite Z.add_comm, Z_mod_plus_full, Z.mod_small by lia. apply byte_at_val.
Qed.
