(* ===== verification/Json.v ===== *)
(** The part of Go's encoding/json the record stores use: a file is a
    sequence of JSON values (the lexical layer is JsonText.v: a file that is
    not a sequence of JSON values is [file_docs = None]); objects keep their
    fields in order and with duplicates, because the decoders reject duplicate
    and unknown fields themselves. [json_size] is the length of the compact
    encoding [json.Marshal] writes, which the stores compare with their size
    bounds. *)
From S2P Require Import Prelude Ids.

#[local] Set Warnings "-register-all".

(** A value. [JNum] is an integer literal, [JReal] any other number literal; a
    string holds any bytes, since the encoder takes any. *)
Inductive json :=
| JNull
| JBool (b : bool)
| JNum (z : Z)
| JReal (lit : string)
| JStr (s : string)
| JArr (l : list json)
| JObj (fields : list (string * json)).

(** *** Strings are read as valid UTF-8: every byte that does not belong to a
    well-formed rune becomes U+FFFD *)
Definition byte_in (lo hi : N) (c : ascii) : bool := (lo <=? N_of_ascii c)%N && (N_of_ascii c <=? hi)%N.
Definition cont (c : ascii) : bool := byte_in 0x80 0xBF c.
Definition rune2 (b0 b1 : ascii) : bool := byte_in 0xC2 0xDF b0 && cont b1.
Definition rune3 (b0 b1 b2 : ascii) : bool :=
  cont b2 &&
  (byte_in 0xE0 0xE0 b0 && byte_in 0xA0 0xBF b1 || byte_in 0xE1 0xEC b0 && cont b1 ||
   byte_in 0xED 0xED b0 && byte_in 0x80 0x9F b1 || byte_in 0xEE 0xEF b0 && cont b1).
Definition rune4 (b0 b1 b2 b3 : ascii) : bool :=
  cont b2 && cont b3 &&
  (byte_in 0xF0 0xF0 b0 && byte_in 0x90 0xBF b1 || byte_in 0xF1 0xF3 b0 && cont b1 ||
   byte_in 0xF4 0xF4 b0 && byte_in 0x80 0x8F b1).
Definition replacement (r : string) : string := String "239" (String "191" (String "189" r)).
Fixpoint coerce_utf8 (s : string) : string :=
  match s with
  | EmptyString => EmptyString
  | String b0 r0 =>
      if byte_in 0 0x7F b0 then String b0 (coerce_utf8 r0)
      else match r0 with
           | EmptyString => replacement EmptyString
           | String b1 r1 =>
               if rune2 b0 b1 then String b0 (String b1 (coerce_utf8 r1))
               else match r1 with
                    | EmptyString => replacement (coerce_utf8 r0)
                    | String b2 r2 =>
                        if rune3 b0 b1 b2 then String b0 (String b1 (String b2 (coerce_utf8 r2)))
                        else match r2 with
                             | EmptyString => replacement (coerce_utf8 r0)
                             | String b3 r3 =>
                                 if rune4 b0 b1 b2 b3
                                 then String b0 (String b1 (String b2 (String b3 (coerce_utf8 r3))))
                                 else replacement (coerce_utf8 r0)
                             end
                    end
           end
  end.
(** *** [json.Unmarshal] into a Go variable holding [old]; [null] is a no-op *)
Definition int64_ok (z : Z) : bool := (- 2 ^ 63 <=? z) && (z <? 2 ^ 63).
Definition uint64_ok (z : Z) : bool := (0 <=? z) && (z <? 2 ^ 64).

Definition get_string (v : json) (old : string) : res string :=
  match v with JStr s => Ok (coerce_utf8 s) | JNull => Ok old | _ => fail "cannot unmarshal into string" end.
Definition get_int (v : json) (old : Z) : res Z :=
  match v with
  | JNum z => if int64_ok z then Ok z else fail "number out of range of int"
  | JNull => Ok old
  | _ => fail "cannot unmarshal into int"
  end.
Definition get_uint64 (v : json) (old : Z) : res Z :=
  match v with
  | JNum z => if uint64_ok z then Ok z else fail "number out of range of uint64"
  | JNull => Ok old
  | _ => fail "cannot unmarshal into uint64"
  end.
Definition get_bool (v : json) (old : bool) : res bool :=
  match v with JBool b => Ok b | JNull => Ok old | _ => fail "cannot unmarshal into bool" end.

(** *** The field loop of every strict decoder *)
Section object_loop.
Context {S : Type}.
(** One case of the decoder's switch: [None] is its [default] branch. *)
Variable handler : string → json → S → option (res S).
Fixpoint object_loop (fields : list (string * json)) (seen : list string) (st : S)
  : res (S * list string) :=
  match fields with
  | [] => Ok (st, seen)
  | (name, v) :: rest =>
      if existsb (String.eqb name) seen then fail "duplicate field"
      else match handler name v st with
           | None => fail "unknown field"
           | Some (Er e) => Er (wrapw "field" e)
           | Some (Ok st') => object_loop rest (name :: seen) st'
           end
  end.
Definition decode_object (v : json) (st : S) : res (S * list string) :=
  match v with
  | JObj fields => object_loop fields [] st
  | _ => fail "expected object"
  end.
End object_loop.

Definition seen_all (names seen : list string) : bool :=
  forallb (λ n, existsb (String.eqb n) seen) names.

(** *** [json.Marshal] of a Go string *)
Definition jstr (s : string) : json := JStr s.
(** A struct field tagged [omitempty]. *)
Definition omitempty (name v : string) : list (string * json) :=
  if v =s "" then [] else [(name, jstr v)].

(** *** Encoded length *)
Definition ctrl_short (c : ascii) : bool :=
  existsb (Ascii.eqb c) ["034"; "092"; "008"; "012"; "010"; "013"; "009"]%char.
Definition html_special (c : ascii) : bool := existsb (Ascii.eqb c) ["<"; ">"; "&"]%char.
Definition esc_size (c : ascii) : N :=
  (if ctrl_short c then 2
   else if (N_of_ascii c <? 32) || html_special c then 6 else 1)%N.
(** U+2028 and U+2029 (E2 80 A8, E2 80 A9) are written as six-byte escapes, and
    so is, as U+FFFD, every byte that does not belong to a well-formed rune. *)
Definition line_sep (c0 c1 c2 : ascii) : bool :=
  Ascii.eqb c0 "226" && Ascii.eqb c1 "128" && (Ascii.eqb c2 "168" || Ascii.eqb c2 "169").
Fixpoint str_size (s : string) : N :=
  match s with
  | EmptyString => 0
  | String b0 r0 =>
      if byte_in 0 0x7F b0 then esc_size b0 + str_size r0
      else match r0 with
           | EmptyString => 6
           | String b1 r1 =>
               if rune2 b0 b1 then 2 + str_size r1
               else match r1 with
                    | EmptyString => 6 + str_size r0
                    | String b2 r2 =>
                        if rune3 b0 b1 b2 then (if line_sep b0 b1 b2 then 6 else 3) + str_size r2
                        else match r2 with
                             | EmptyString => 6 + str_size r0
                             | String b3 r3 => if rune4 b0 b1 b2 b3 then 4 + str_size r3 else 6 + str_size r0
                             end
                    end
           end
  end%N.
Definition num_size (z : Z) : N := N.of_nat (String.length (pretty z)).

Fixpoint json_size (v : json) : N :=
  match v with
  | JNull => 4
  | JBool b => if b then 4 else 5
  | JNum z => num_size z
  | JReal lit => N.of_nat (String.length lit)
  | JStr s => 2 + str_size s
  | JArr l => 2 + (N.of_nat (length l) - 1) + foldr (λ v n, json_size v + n)%N 0%N l
  | JObj fs =>
      2 + (N.of_nat (length fs) - 1) + foldr (λ kv n, (2 + str_size kv.1) + 1 + json_size kv.2 + n)%N 0%N fs
  end%N.

(** A stored file: its byte length and, when it is a sequence of JSON values,
    those values. [file_blob] holds the bytes of the files the program hashes
    or compares as bytes (recipe intents) and is empty for all others. *)
Record file := File { file_size : N; file_docs : option (list json); file_blob : string }.

(** The single JSON value of a file within [limit] bytes; more than one value,
    none, or a malformed tail is an error. *)
Definition single_doc (limit : N) (f : file) : res json :=
  if (limit <? file_size f)%N then fail "record exceeds its size bound"
  else match file_docs f with
       | Some [v] => Ok v
       | Some _ => fail "unexpected trailing or missing JSON value"
       | None => fail "malformed JSON"
       end.

(** [append(raw, '\n')] of one marshalled value. *)
Definition json_file (v : json) : file := File (json_size v + 1) (Some [v]) "".

(** ** Lemmas *)

Definition is_ascii (c : ascii) : bool := byte_in 0 0x7F c.

Lemma coerce_ascii s : str_all is_ascii s = true → coerce_utf8 s = s.
Proof.
  induction s as [|c s IH]; [done|]. cbn [str_all]. intros H. bsimpl.
  unfold is_ascii in H. cbn [coerce_utf8]. rewrite H. by rewrite IH.
Qed.

Lemma alnum_dash_ascii s : str_all Ids.alnum_dash s = true → str_all is_ascii s = true.
Proof.
  apply str_all_impl. intros c.
  destruct c as [[] [] [] [] [] [] [] []]; vm_compute; done.
Qed.

Lemma esc_size_le c : (esc_size c ≤ 6)%N.
Proof. unfold esc_size. destruct (ctrl_short c); [lia|]. destruct (_ || _); lia. Qed.

(** No rune starts with this byte here. *)
Definition ill_formed (b : ascii) (r : string) : bool :=
  negb (byte_in 0 0x7F b) &&
  match r with String b1 _ => negb (rune2 b b1) | _ => true end &&
  match r with String b1 (String b2 _) => negb (rune3 b b1 b2) | _ => true end &&
  match r with String b1 (String b2 (String b3 _)) => negb (rune4 b b1 b2 b3) | _ => true end.
(** Induction on the runes of a string: a byte at a time where it is ASCII or
    ill-formed, a whole rune otherwise. *)
Lemma rune_ind (P : string → Prop) :
  P "" →
  (∀ b r, byte_in 0 0x7F b = true → P r → P (String b r)) →
  (∀ b b1 r, byte_in 0 0x7F b = false → rune2 b b1 = true → P r → P (String b (String b1 r))) →
  (∀ b b1 b2 r, byte_in 0 0x7F b = false → rune2 b b1 = false → rune3 b b1 b2 = true → P r →
     P (String b (String b1 (String b2 r)))) →
  (∀ b b1 b2 b3 r, byte_in 0 0x7F b = false → rune2 b b1 = false → rune3 b b1 b2 = false → rune4 b b1 b2 b3 = true → P r →
     P (String b (String b1 (String b2 (String b3 r))))) →
  (∀ b r, ill_formed b r = true → P r → P (String b r)) →
  ∀ s, P s.
Proof.
  intros H0 H1 H2 H3 H4 Hbad s. remember (String.length s) as n eqn:Hn. revert s Hn.
  induction (lt_wf n) as [n _ IH]. intros s ->.
  assert (IH' : ∀ r, (String.length r < String.length s)%nat → P r) by (intros r Hr; eapply IH; [exact Hr|done]).
  clear IH. destruct s as [|b r]; [done|].
  destruct (byte_in 0 0x7F b) eqn:E1; [apply H1; [done|apply IH'; cbn; lia]|].
  assert (ill_formed b r = true → P (String b r)) as Hr by (intros Hi; apply Hbad; [done|apply IH'; cbn; lia]).
  unfold ill_formed in Hr. rewrite E1 in Hr. cbn [negb andb] in Hr.
  destruct r as [|b1 r1]; [by apply Hr|].
  destruct (rune2 b b1) eqn:E2; [apply H2; [done|done|apply IH'; cbn; lia]|].
  destruct r1 as [|b2 r2]; [by apply Hr|].
  destruct (rune3 b b1 b2) eqn:E3; [apply H3; [done|done|done|apply IH'; cbn; lia]|].
  destruct r2 as [|b3 r3]; [by apply Hr|].
  destruct (rune4 b b1 b2 b3) eqn:E4; [apply H4; [done|done|done|done|apply IH'; cbn; lia]|by apply Hr].
Qed.
(** Unfold one rune of a function on strings, at an ill-formed byte [H]. *)
Ltac ill_step H :=
  unfold ill_formed in H; rewrite !andb_true_iff, !negb_true_iff in H;
  let E1 := fresh in let E2 := fresh in let E3 := fresh in let E4 := fresh in
  destruct H as [[[E1 E2] E3] E4]; cbn [coerce_utf8 str_size]; rewrite E1;
  repeat match goal with |- context [match ?r with EmptyString => _ | String _ _ => _ end] => is_var r; destruct r end;
  rewrite ?negb_true_iff in *; rewrite ?E2, ?E3, ?E4; try done.
Lemma coerce_ill b r : ill_formed b r = true → coerce_utf8 (String b r) = replacement (coerce_utf8 r).
Proof. intros H. ill_step H. Qed.
Lemma coerce_1 b r : byte_in 0 0x7F b = true → coerce_utf8 (String b r) = String b (coerce_utf8 r).
Proof. intros E. cbn [coerce_utf8]. by rewrite E. Qed.
Lemma coerce_2 b b1 r : byte_in 0 0x7F b = false → rune2 b b1 = true →
  coerce_utf8 (String b (String b1 r)) = String b (String b1 (coerce_utf8 r)).
Proof. intros E1 E2. cbn [coerce_utf8]. by rewrite E1, E2. Qed.
Lemma coerce_3 b b1 b2 r : byte_in 0 0x7F b = false → rune2 b b1 = false → rune3 b b1 b2 = true →
  coerce_utf8 (String b (String b1 (String b2 r))) = String b (String b1 (String b2 (coerce_utf8 r))).
Proof. intros E1 E2 E3. cbn [coerce_utf8]. by rewrite E1, E2, E3. Qed.
Lemma coerce_4 b b1 b2 b3 r : byte_in 0 0x7F b = false → rune2 b b1 = false → rune3 b b1 b2 = false → rune4 b b1 b2 b3 = true →
  coerce_utf8 (String b (String b1 (String b2 (String b3 r)))) = String b (String b1 (String b2 (String b3 (coerce_utf8 r)))).
Proof. intros E1 E2 E3 E4. cbn [coerce_utf8]. by rewrite E1, E2, E3, E4. Qed.
(** What has been decoded once is decoded to itself. *)
Lemma coerce_idem s : coerce_utf8 (coerce_utf8 s) = coerce_utf8 s.
Proof.
  induction s as [|b r E IH|b b1 r E1 E2 IH|b b1 b2 r E1 E2 E3 IH|b b1 b2 b3 r E1 E2 E3 E4 IH|b r E IH] using rune_ind.
  - done.
  - by rewrite coerce_1, coerce_1, IH.
  - by rewrite coerce_2, coerce_2, IH.
  - by rewrite coerce_3, coerce_3, IH.
  - by rewrite coerce_4, coerce_4, IH.
  - rewrite coerce_ill by done. unfold replacement. by rewrite coerce_3, IH.
Qed.
Lemma size_ill b r : ill_formed b r = true → str_size (String b r) = (6 + str_size r)%N.
Proof. intros H. ill_step H. Qed.

Lemma str_size_le s : (str_size s ≤ 6 * N.of_nat (String.length s))%N.
Proof.
  induction s as [|b r E IH|b b1 r E1 E2 IH|b b1 b2 r E1 E2 E3 IH|b b1 b2 b3 r E1 E2 E3 E4 IH|b r E IH] using rune_ind.
  - done.
  - cbn [str_size]. rewrite E. pose proof (esc_size_le b). cbn [String.length]. lia.
  - cbn [str_size]. rewrite E1, E2. cbn [String.length]. lia.
  - cbn [str_size]. rewrite E1, E2, E3. cbn [String.length]. destruct (line_sep b b1 b2); lia.
  - cbn [str_size]. rewrite E1, E2, E3, E4. cbn [String.length]. lia.
  - rewrite size_ill by done. cbn [String.length]. lia.
Qed.

Lemma coerce_length s : (String.length (coerce_utf8 s) ≤ 3 * String.length s)%nat.
Proof.
  remember (String.length s) as n eqn:Hn. revert s Hn.
  induction (lt_wf n) as [n _ IH]. intros s ->.
  assert (IH' : ∀ r, (String.length r < String.length s)%nat →
    (String.length (coerce_utf8 r) ≤ 3 * String.length r)%nat) by (intros r Hr; eapply IH; [|reflexivity]; lia).
  clear IH. destruct s as [|b0 r0]; [done|]. cbn [coerce_utf8].
  destruct (byte_in 0 127 b0); [specialize (IH' r0 ltac:(simpl; lia)); cbn in *; lia|].
  destruct r0 as [|b1 r1]; [cbn; lia|].
  destruct (rune2 b0 b1); [specialize (IH' r1 ltac:(simpl; lia)); cbn in *; lia|].
  destruct r1 as [|b2 r2]; [specialize (IH' (String b1 "") ltac:(simpl; lia)); cbn in *; lia|].
  destruct (rune3 b0 b1 b2); [specialize (IH' r2 ltac:(simpl; lia)); cbn in *; lia|].
  pose proof (IH' (String b1 (String b2 r2)) ltac:(simpl; lia)) as H0.
  destruct r2 as [|b3 r3]; [cbn in *; lia|].
  destruct (rune4 b0 b1 b2 b3); [specialize (IH' r3 ltac:(simpl; lia)); cbn in *; lia|].
  cbn [replacement String.length] in *. lia.
Qed.

Lemma jstr_size s : (json_size (jstr s) ≤ 2 + 6 * N.of_nat (String.length s))%N.
Proof. apply N.add_le_mono_l, str_size_le. Qed.

Lemma json_size_obj fs :
  json_size (JObj fs) =
  (2 + (N.of_nat (length fs) - 1) + foldr (λ kv n, (2 + str_size kv.1) + 1 + json_size kv.2 + n) 0 fs)%N.
Proof. reflexivity. Qed.

Lemma obj_size_cons k v fs :
  (json_size (JObj ((k, v) :: fs)) ≤ str_size k + json_size v + 4 + json_size (JObj fs))%N.
Proof. rewrite !json_size_obj. cbn [foldr length fst snd]. lia. Qed.

Lemma omitempty_size k v fs n : (str_size k ≤ 24)%N → (String.length v ≤ n)%nat →
  (json_size (JObj (omitempty k v ++ fs)) ≤ 30 + 6 * N.of_nat n + json_size (JObj fs))%N.
Proof.
  intros Hk Hv. unfold omitempty. destruct (v =s ""); cbn [app]; [lia|].
  pose proof (obj_size_cons k (jstr v) fs). pose proof (jstr_size v). lia.
Qed.

Lemma jstr_field_size k v fs n : (str_size k ≤ 24)%N → (String.length v ≤ n)%nat →
  (json_size (JObj ((k, jstr v) :: fs)) ≤ 30 + 6 * N.of_nat n + json_size (JObj fs))%N.
Proof. intros Hk Hv. pose proof (obj_size_cons k (jstr v) fs). pose proof (jstr_size v). lia. Qed.

(** Strings of bytes that need no escape are written as they are. *)
Definition plain_byte (c : ascii) : bool := is_ascii c && (esc_size c =? 1)%N.
Lemma plain_str_size s : str_all plain_byte s = true → str_size s = N.of_nat (String.length s).
Proof.
  induction s as [|c r IH]; [done|]. intros [Hc Hr]%andb_true_iff. specialize (IH Hr).
  unfold plain_byte in Hc. apply andb_true_iff in Hc as [Ha He]. apply N.eqb_eq in He. unfold is_ascii in Ha.
  cbn [str_size String.length]. rewrite Ha, He, IH. lia.
Qed.
Lemma alnum_dash_plain s : str_all alnum_dash s = true → str_all plain_byte s = true.
Proof.
  apply str_all_impl. intros c. destruct c as [b0 b1 b2 b3 b4 b5 b6 b7].
  destruct b0, b1, b2, b3, b4, b5, b6, b7; vm_compute; done.
Qed.
Lemma plain_jstr_field_size k v fs n : str_all plain_byte v = true → coerce_utf8 v = v →
  (String.length v ≤ n)%nat →
  (json_size (JObj ((k, jstr v) :: fs)) ≤ str_size k + 6 + N.of_nat n + json_size (JObj fs))%N.
Proof.
  intros Hp Hc Hv. pose proof (obj_size_cons k (jstr v) fs) as H.
  assert (json_size (jstr v) = 2 + N.of_nat (String.length v))%N as Hs.
  { unfold jstr. cbn [json_size]. by rewrite (plain_str_size v). }
  lia.
Qed.

Lemma plain_omitempty_size k v fs n : str_all plain_byte v = true → coerce_utf8 v = v →
  (String.length v ≤ n)%nat →
  (json_size (JObj (omitempty k v ++ fs)) ≤ str_size k + 6 + N.of_nat n + json_size (JObj fs))%N.
Proof.
  intros Hp Hc Hv. unfold omitempty. destruct (v =s ""); cbn [app]; [lia|]. by apply plain_jstr_field_size.
Qed.

(** *** The field loop *)
Lemma object_loop_app {S} (h : string → json → S → option (res S)) fs gs seen st st' seen' :
  object_loop h fs seen st = Ok (st', seen') →
  object_loop h (fs ++ gs) seen st = object_loop h gs seen' st'.
Proof.
  revert seen st. induction fs as [|[n v] fs IH]; intros seen st; simpl.
  - intros E. by injection E as -> ->.
  - destruct (existsb _ seen); [done|]. destruct (h n v st) as [[st1|e]|]; [|done|done]. apply IH.
Qed.

(** An invariant of the loop relating the fields seen to the value built. *)
Lemma object_loop_inv {S} (h : string → json → S → option (res S)) (I : list string → S → Prop) :
  (∀ n v seen st st', I seen st → h n v st = Some (Ok st') → I (n :: seen) st') →
  ∀ fs seen st st' seen', I seen st → object_loop h fs seen st = Ok (st', seen') → I seen' st'.
Proof.
  intros Hstep. induction fs as [|[n v] fs IH]; intros seen st st' seen' HI; simpl.
  - intros E. by injection E as <- <-.
  - destruct (existsb _ seen); [done|]. destruct (h n v st) as [[st1|e]|] eqn:Hh; [|done|done]. eauto.
Qed.

Lemma seen_in n seen : existsb (String.eqb n) seen = true ↔ n ∈ seen.
Proof.
  rewrite existsb_exists. split.
  - intros (x & Hx & ->%String.eqb_eq). by apply list_elem_of_In.
  - intros H. exists n. split; [by apply list_elem_of_In|apply eqs_refl].
Qed.

(** A decoder accepts no object with a repeated field name. *)
Lemma object_loop_nodup {S} (h : string → json → S → option (res S)) fs seen st r :
  object_loop h fs seen st = Ok r →
  NoDup (fs.*1) ∧ (∀ n, n ∈ fs.*1 → n ∉ seen) ∧ r.2 = rev (fs.*1) ++ seen.
Proof.
  revert seen st. induction fs as [|[n v] fs IH]; intros seen st; simpl.
  - intros E. injection E as <-. split_and!; [constructor|set_solver|done].
  - destruct (existsb (String.eqb n) seen) eqn:Hd; [done|].
    destruct (h n v st) as [[st1|e]|]; [|done|done]. intros (Hn & Hd' & ->)%IH.
    assert (n ∉ seen).
    { intros Hin. apply not_true_iff_false in Hd. apply Hd, existsb_exists. exists n.
      split; [by apply list_elem_of_In|apply eqs_refl]. }
    split_and!.
    + constructor; [|done]. intros Hin. apply (Hd' _ Hin). set_solver.
    + intros m. rewrite elem_of_cons. intros [->|Hm]; [done|]. intros Hs. apply (Hd' _ Hm). set_solver.
    + by rewrite <-app_assoc.
Qed.

#[global] Arguments coerce_utf8 : simpl never.
#[global] Arguments int64_ok : simpl never.
#[global] Arguments uint64_ok : simpl never.
#[global] Arguments json_size : simpl never.

(** *** Decoding errors are plain *)

Lemma plain_get_string v old : plain (get_string v old).
Proof. unfold get_string. plain_tac. Qed.
Lemma plain_get_int v old : plain (get_int v old).
Proof. unfold get_int. plain_tac. Qed.
Lemma plain_get_uint64 v old : plain (get_uint64 v old).
Proof. unfold get_uint64. plain_tac. Qed.
Lemma plain_get_bool v old : plain (get_bool v old).
Proof. unfold get_bool. plain_tac. Qed.
Lemma plain_single_doc limit f : plain (single_doc limit f).
Proof. unfold single_doc. plain_tac. Qed.
Lemma plain_object_loop {S} (handler : string → json → S → option (res S)) fields seen st :
  (∀ n v s r, handler n v s = Some r → plain r) → plain (object_loop handler fields seen st).
Proof.
  intros Hh. revert seen st. induction fields as [|[n v] fields IH]; intros seen st; cbn [object_loop].
  - apply plain_ok.
  - destruct (existsb _ seen); [apply plain_fail|]. destruct (handler n v st) as [[s|e]|] eqn:E; [apply IH| |apply plain_fail].
    intros e' [= <-]. cbn. by eapply Hh.
Qed.
Lemma plain_decode_object {S} (handler : string → json → S → option (res S)) v st :
  (∀ n v s r, handler n v s = Some r → plain r) → plain (decode_object handler v st).
Proof. intros Hh. destruct v; cbn; try apply plain_fail. by apply plain_object_loop. Qed.
#[export] Hint Resolve plain_get_string plain_get_int plain_get_uint64 plain_get_bool plain_single_doc plain_decode_object : plain.

(** One case of a decoder's field switch. *)
Ltac plain_cases :=
  repeat (match goal with |- (if ?b then _ else _) = Some _ → _ => destruct b end);
  try discriminate; intros [= <-]; plain_tac.
Ltac plain_field := intros ? ? ? ?; plain_cases.

(** *** Identifiers are written as they are *)

Lemma coerce_alnum_dash s : str_all alnum_dash s = true → coerce_utf8 s = s.
Proof. intros H. apply coerce_ascii, alnum_dash_ascii, H. Qed.

Lemma coerce_ident s : Lock.validLowerIdentifier s = true → coerce_utf8 s = s.
Proof. intros [H _]%ident_bytes. eauto using coerce_alnum_dash with go. Qed.
Lemma coerce_uuid s : Session.validUUID s = true → coerce_utf8 s = s.
Proof. intros [_ H]%uuid_bytes. eauto using coerce_alnum_dash with go. Qed.

Lemma objectid_bytes s :
  Session.validBackendObjectID s = true → str_all alnum_dash s = true ∧ (0 < String.length s ≤ 127)%nat.
Proof.
  unfold Session.validBackendObjectID. destruct s as [|c r]; [done|]. intros H. bsimpl.
  apply Nat.ltb_ge in H. cbn [str_all]. rewrite (alnum_alnum_dash _ H1), H0. cbn in *. split; [done|lia].
Qed.
Lemma coerce_objectid s : Session.validBackendObjectID s = true → coerce_utf8 s = s.
Proof. intros [H _]%objectid_bytes. by apply coerce_alnum_dash. Qed.
Lemma sha_bytes s : Session.lowerSHA256 s = true → str_all alnum_dash s = true ∧ String.length s = 64%nat.
Proof.
  unfold Session.lowerSHA256. intros H. bsimpl. apply Nat.eqb_eq in H. split; [|done].
  eapply str_all_impl; [|eassumption]. eauto using alnum_alnum_dash, lower_hex_alnum.
Qed.
Lemma coerce_sha s : Session.lowerSHA256 s = true → coerce_utf8 s = s.
Proof. intros [H _]%sha_bytes. by apply coerce_alnum_dash. Qed.

Lemma in_literals (s : string) l : existsb (String.eqb s) l = true → s ∈ l.
Proof. rewrite existsb_exists. intros (x & Hx & ->%String.eqb_eq). by apply list_elem_of_In. Qed.

(** Written as it is, in at most [n] bytes. *)
Definition plain_upto (n : nat) (s : string) : Prop :=
  str_all plain_byte s = true ∧ coerce_utf8 s = s ∧ (String.length s ≤ n)%nat.
Lemma literal_plain n (s : string) l :
  s ∈ l → forallb (λ s, str_all plain_byte s && (coerce_utf8 s =s s) && (String.length s <=? n)%nat) l = true → plain_upto n s.
Proof.
  intros Hs Hl. rewrite forallb_forall in Hl. apply list_elem_of_In, Hl in Hs. bsimpl. apply Nat.leb_le in H0. done.
Qed.
Lemma plain_ident s : Lock.validLowerIdentifier s = true → plain_upto 63 s.
Proof.
  intros H. pose proof (ident_bytes _ H) as [Hb Hl]. split_and!; [|by apply coerce_ident|lia].
  by apply alnum_dash_plain, ident_alnum_dash.
Qed.
Lemma plain_uuid s : Session.validUUID s = true → plain_upto 36 s.
Proof.
  intros H. pose proof (uuid_bytes _ H) as [Hl Hb]. split_and!; [|by apply coerce_uuid|lia].
  by eapply alnum_dash_plain, uuid_alnum_dash.
Qed.
Lemma plain_objectid s : Session.validBackendObjectID s = true → plain_upto 127 s.
Proof.
  intros H. pose proof (objectid_bytes _ H) as [Hb Hl]. split_and!; [|by apply coerce_objectid|lia]. by apply alnum_dash_plain.
Qed.
Lemma plain_sha s : s = "" ∨ Session.lowerSHA256 s = true → plain_upto 64 s.
Proof.
  intros [->|H]; [split_and!; [done|done|cbn; lia]|].
  pose proof (sha_bytes _ H) as [Hb Hl]. split_and!; [|by apply coerce_sha|lia]. by apply alnum_dash_plain.
Qed.

(** Bound an object's size field by field, and compute the constants. *)
Ltac obj_size_step :=
  etrans; [first [eapply plain_jstr_field_size; eassumption|eapply plain_omitempty_size; eassumption|apply obj_size_cons]
          |apply N.add_le_mono_l].
Ltac obj_size_tac := repeat obj_size_step; try reflexivity.
Ltac size_lia :=
  repeat match goal with
         | |- context [str_size (String ?c ?s)] =>
             let v := eval vm_compute in (str_size (String c s)) in change (str_size (String c s)) with v
         | H : context [str_size (String ?c ?s)] |- _ =>
             let v := eval vm_compute in (str_size (String c s)) in change (str_size (String c s)) with v in H
         end;
  repeat match goal with
         | |- context [json_size (JObj [])] => change (json_size (JObj [])) with 2%N
         | H : context [json_size (JObj [])] |- _ => change (json_size (JObj [])) with 2%N in H
         | |- context [json_size (jstr (String ?c ?s))] =>
             let v := eval vm_compute in (json_size (jstr (String c s))) in change (json_size (jstr (String c s))) with v
         | |- context [json_size (JNum (Zpos ?p))] =>
             let v := eval vm_compute in (json_size (JNum (Zpos p))) in change (json_size (JNum (Zpos p))) with v
         end;
  lia.

(** *** Numbers *)

Lemma pretty_N_go_length n x s : (x < 10 ^ N.of_nat n)%N → (String.length (pretty_N_go x s) ≤ n + String.length s)%nat.
Proof.
  revert x s. induction n as [|n IH]; intros x s Hx.
  { replace x with 0%N by (cbn in Hx; lia). by rewrite pretty_N_go_0. }
  destruct (decide (0 < x)%N) as [Hp|Hp]; [|replace x with 0%N by lia; rewrite pretty_N_go_0; lia].
  rewrite pretty_N_go_step by done. etrans; [apply IH|cbn; lia].
  apply N.Div0.div_lt_upper_bound. by rewrite <-N.pow_succ_r', <-Nat2N.inj_succ.
Qed.
(** A non-negative number takes at most its count of digits. *)
Lemma num_size_le z n : 0 ≤ z < 10 ^ Z.of_nat n → (0 < n)%nat → (json_size (JNum z) ≤ N.of_nat n)%N.
Proof.
  intros Hz Hn. change (json_size (JNum z)) with (num_size z). unfold num_size.
  assert (String.length (pretty z) ≤ n)%nat; [|lia].
  destruct z as [|p|p]; [cbn; lia| |lia].
  change (pretty (Z.pos p)) with (pretty_N_go (N.pos p) ""). etrans; [apply (pretty_N_go_length n)|cbn; lia].
  apply N2Z.inj_lt. rewrite N2Z.inj_pow, nat_N_Z. cbn. lia.
Qed.
