(* ===== verification/JsonText.v ===== *)
(** The lexical layer of encoding/json: the text [json.Marshal] writes for a
    value, and the scanner every [json.Decoder] of the program runs over the
    bytes it reads. The stores work on parsed files (Json.v); the theorems of
    this file show that nothing is lost by that: the bytes the program writes
    are scanned back to exactly the value and the size of [json_file], and the
    fuel of the scanner is enough for every input. *)
From S2P Require Import Prelude Ids Json.

(** ** The text of a value *)

Definition LF : ascii := "010".
Definition quote : ascii := "034".
Definition backslash : ascii := "092".
Definition byte_of (n : N) : ascii := ascii_of_N n.
(** One hexadecimal digit, lower case. *)
Definition hex_digit (n : N) : ascii := if (n <? 10)%N then ascii_of_N (48 + n) else ascii_of_N (87 + n).

(** [appendString] with HTML escaping: ASCII byte by byte, U+2028 and U+2029 as
    escapes, every other well-formed rune as it is, and a byte that belongs to
    none as the escape of U+FFFD. *)
Definition u00 (c : ascii) : string :=
  String backslash (String "u" (String "0" (String "0"
    (String (hex_digit (N.shiftr (N_of_ascii c) 4)) (String (hex_digit (N.land (N_of_ascii c) 15)) ""))))).
Definition short_escape (c : ascii) : option ascii :=
  match N_of_ascii c with
  | 34 => Some quote | 92 => Some backslash | 8 => Some "b"%char | 12 => Some "f"%char
  | 10 => Some "n"%char | 13 => Some "r"%char | 9 => Some "t"%char | _ => None
  end%N.
Definition escape_byte (c : ascii) : string :=
  match short_escape c with
  | Some e => String backslash (String e "")
  | None => if (N_of_ascii c <? 32)%N || html_special c then u00 c else String c ""
  end.
Definition line_sep_escape (c2 : ascii) : string :=
  "\u202" +:+ String (if Ascii.eqb c2 "168" then "8"%char else "9"%char) "".
Definition invalid_escape : string := "\ufffd".
Fixpoint escape (s : string) : string :=
  match s with
  | EmptyString => EmptyString
  | String b0 r0 =>
      if byte_in 0 0x7F b0 then escape_byte b0 +:+ escape r0
      else match r0 with
           | EmptyString => invalid_escape
           | String b1 r1 =>
               if rune2 b0 b1 then String b0 (String b1 (escape r1))
               else match r1 with
                    | EmptyString => invalid_escape +:+ escape r0
                    | String b2 r2 =>
                        if rune3 b0 b1 b2
                        then (if line_sep b0 b1 b2 then line_sep_escape b2 else String b0 (String b1 (String b2 ""))) +:+ escape r2
                        else match r2 with
                             | EmptyString => invalid_escape +:+ escape r0
                             | String b3 r3 =>
                                 if rune4 b0 b1 b2 b3 then String b0 (String b1 (String b2 (String b3 (escape r3))))
                                 else invalid_escape +:+ escape r0
                             end
                    end
           end
  end.
Definition render_string (s : string) : string := String quote (escape s +:+ String quote "").

(** Comma-separated texts. *)
Definition commas (l : list string) : string :=
  match l with
  | [] => ""
  | a :: r => a +:+ foldr (λ b acc, String "," (b +:+ acc)) "" r
  end.
Fixpoint render (v : json) : string :=
  match v with
  | JNull => "null"
  | JBool b => if b then "true" else "false"
  | JNum z => pretty z
  | JReal lit => lit
  | JStr s => render_string s
  | JArr l => String "[" (commas (map render l) +:+ "]")
  | JObj fs => String "{" (commas (map (λ kv, render_string kv.1 +:+ String ":" (render kv.2)) fs) +:+ "}")
  end.

(** ** The scanner *)

Definition is_ws (c : ascii) : bool := existsb (Ascii.eqb c) [" "; "009"; "010"; "013"]%char.
Fixpoint skip_ws (s : string) : string :=
  match s with String c r => if is_ws c then skip_ws r else s | EmptyString => EmptyString end.
Fixpoint strip_prefix (p s : string) : option string :=
  match p, s with
  | EmptyString, _ => Some s
  | String a p', String b s' => if Ascii.eqb a b then strip_prefix p' s' else None
  | _, _ => None
  end.

(** *** Numbers *)
Definition digit_val (c : ascii) : Z := Z.of_N (N_of_ascii c) - 48.
(** The digits at the front, and the rest. *)
Fixpoint digits (s : string) : string * string :=
  match s with
  | String c r => if is_digit c then let '(d, rest) := digits r in (String c d, rest) else (EmptyString, s)
  | EmptyString => (EmptyString, EmptyString)
  end.
Fixpoint decimal (acc : Z) (s : string) : Z :=
  match s with EmptyString => acc | String c r => decimal (acc * 10 + digit_val c) r end.
(** A fraction and an exponent, each optional: their text and the rest. *)
Definition fraction (s : string) : option (string * string) :=
  match s with
  | String "." r => let '(d, rest) := digits r in if d =s "" then None else Some (String "." d, rest)
  | _ => Some (EmptyString, s)
  end.
Definition exponent (s : string) : option (string * string) :=
  match s with
  | String e r =>
      if Ascii.eqb e "e" || Ascii.eqb e "E" then
        let '(sign, r) := match r with
                          | String g r' => if Ascii.eqb g "+" || Ascii.eqb g "-" then (String g "", r') else (EmptyString, r)
                          | EmptyString => (EmptyString, r)
                          end in
        let '(d, rest) := digits r in
        if d =s "" then None else Some (String e (sign +:+ d), rest)
      else Some (EmptyString, s)
  | EmptyString => Some (EmptyString, s)
  end.
(** A number without its sign: [0] or digits not starting with [0]. *)
Definition unsigned (s : string) : option (Z * string * string) :=
  match s with
  | String "0" r => Some (0, "0"%string, r)
  | String c _ => if is_digit c then let '(d, rest) := digits s in Some (decimal 0 d, d, rest) else None
  | EmptyString => None
  end.
Definition scan_number (s : string) : option (json * string) :=
  let '(neg, s1) := match s with String "-" r => (true, r) | _ => (false, s) end in
  match unsigned s1 with
  | None => None
  | Some (z, text, r1) =>
      match fraction r1 with
      | None => None
      | Some (f, r2) =>
          match exponent r2 with
          | None => None
          | Some (e, r3) =>
              if (f =s "") && (e =s "") then Some (JNum (if neg then - z else z), r3)
              else Some (JReal ((if neg then "-" else "") +:+ text +:+ f +:+ e), r3)
          end
      end
  end.

(** *** Strings *)
Definition hex_val (c : ascii) : option N :=
  if is_digit c then Some (N_of_ascii c - 48)%N
  else if Ascii.leb "a" c && Ascii.leb c "f" then Some (N_of_ascii c - 87)%N
  else if Ascii.leb "A" c && Ascii.leb c "F" then Some (N_of_ascii c - 55)%N
  else None.
Definition getu4 (a b c d : ascii) : option N :=
  match hex_val a, hex_val b, hex_val c, hex_val d with
  | Some a, Some b, Some c, Some d => Some (((a * 16 + b) * 16 + c) * 16 + d)%N
  | _, _, _, _ => None
  end.
Definition is_surrogate (n : N) : bool := ((0xD800 <=? n) && (n <? 0xE000))%N.
Definition utf8_encode (n : N) : string :=
  (if n <? 0x80 then String (byte_of n) ""
   else if n <? 0x800 then String (byte_of (0xC0 + N.shiftr n 6)) (String (byte_of (0x80 + N.land n 63)) "")
   else if n <? 0x10000 then
     String (byte_of (0xE0 + N.shiftr n 12)) (String (byte_of (0x80 + N.land (N.shiftr n 6) 63)) (String (byte_of (0x80 + N.land n 63)) ""))
   else String (byte_of (0xF0 + N.shiftr n 18)) (String (byte_of (0x80 + N.land (N.shiftr n 12) 63))
          (String (byte_of (0x80 + N.land (N.shiftr n 6) 63)) (String (byte_of (0x80 + N.land n 63)) ""))))%N.
(** [utf16.DecodeRune] for a high surrogate followed by a low one. *)
Definition surrogate_pair (hi lo : N) : option N :=
  (if (0xD800 <=? hi) && (hi <? 0xDC00) && (0xDC00 <=? lo) && (lo <? 0xE000)
   then Some ((hi - 0xD800) * 1024 + (lo - 0xDC00) + 0x10000) else None)%N.
Definition simple_escape (c : ascii) : option ascii :=
  match N_of_ascii c with
  | 34 => Some quote | 92 => Some backslash | 47 => Some "/"%char | 98 => Some "008"%char
  | 102 => Some "012"%char | 110 => Some "010"%char | 114 => Some "013"%char | 116 => Some "009"%char
  | _ => None
  end%N.
(** The bytes of a string literal after its opening quote, escapes resolved,
    and what follows its closing quote. *)
Fixpoint unescape (s : string) : option (string * string) :=
  match s with
  | EmptyString => None
  | String c r =>
      if Ascii.eqb c quote then Some (EmptyString, r)
      else if Ascii.eqb c backslash then
        match r with
        | String e r1 =>
            if Ascii.eqb e "u" then
              match r1 with
              | String a (String b (String c (String d r2))) =>
                  match getu4 a b c d with
                  | None => None
                  | Some hi =>
                      if is_surrogate hi then
                        match r2 with
                        | String b1 (String b2 (String a' (String b' (String c' (String d' r3))))) =>
                            match (if Ascii.eqb b1 backslash && Ascii.eqb b2 "u" then getu4 a' b' c' d' else None) with
                            | Some lo =>
                                match surrogate_pair hi lo with
                                | Some n => (λ p, (utf8_encode n +:+ p.1, p.2)) <$> unescape r3
                                | None => (λ p, (utf8_encode 0xFFFD +:+ p.1, p.2)) <$> unescape r2
                                end
                            | None => (λ p, (utf8_encode 0xFFFD +:+ p.1, p.2)) <$> unescape r2
                            end
                        | _ => (λ p, (utf8_encode 0xFFFD +:+ p.1, p.2)) <$> unescape r2
                        end
                      else (λ p, (utf8_encode hi +:+ p.1, p.2)) <$> unescape r2
                  end
              | _ => None
              end
            else match simple_escape e with
                 | Some b => (λ p, (String b p.1, p.2)) <$> unescape r1
                 | None => None
                 end
        | EmptyString => None
        end
      else if (N_of_ascii c <? 32)%N then None
      else (λ p, (String c p.1, p.2)) <$> unescape r
  end.
(** A string literal after its opening quote; bytes that are no UTF-8 become
    U+FFFD. *)
Definition scan_string (s : string) : option (string * string) :=
  match unescape s with Some (t, r) => Some (coerce_utf8 t, r) | None => None end.

(** *** Values *)
Fixpoint scan_value (fuel : nat) (s : string) : option (json * string) :=
  match fuel with
  | O => None
  | S fuel =>
      match skip_ws s with
      | EmptyString => None
      | String c r =>
          if Ascii.eqb c "{" then
            match skip_ws r with
            | String "}" r' => Some (JObj [], r')
            | r' => match scan_members fuel r' with Some (fs, r2) => Some (JObj fs, r2) | None => None end
            end
          else if Ascii.eqb c "[" then
            match skip_ws r with
            | String "]" r' => Some (JArr [], r')
            | r' => match scan_elements fuel r' with Some (l, r2) => Some (JArr l, r2) | None => None end
            end
          else if Ascii.eqb c quote then
            match scan_string r with Some (t, r2) => Some (JStr t, r2) | None => None end
          else match strip_prefix "null" (String c r), strip_prefix "true" (String c r), strip_prefix "false" (String c r) with
               | Some r2, _, _ => Some (JNull, r2)
               | _, Some r2, _ => Some (JBool true, r2)
               | _, _, Some r2 => Some (JBool false, r2)
               | None, None, None => scan_number (String c r)
               end
      end
  end
with scan_elements (fuel : nat) (s : string) : option (list json * string) :=
  match fuel with
  | O => None
  | S fuel =>
      match scan_value fuel s with
      | None => None
      | Some (v, r) =>
          match skip_ws r with
          | String "," r' => match scan_elements fuel r' with Some (l, r2) => Some (v :: l, r2) | None => None end
          | String "]" r' => Some ([v], r')
          | _ => None
          end
      end
  end
with scan_members (fuel : nat) (s : string) : option (list (string * json) * string) :=
  match fuel with
  | O => None
  | S fuel =>
      match skip_ws s with
      | String c r =>
          if Ascii.eqb c quote then
            match scan_string r with
            | None => None
            | Some (k, r1) =>
                match skip_ws r1 with
                | String ":" r2 =>
                    match scan_value fuel r2 with
                    | None => None
                    | Some (v, r3) =>
                        match skip_ws r3 with
                        | String "," r' =>
                            match scan_members fuel r' with Some (fs, r4) => Some ((k, v) :: fs, r4) | None => None end
                        | String "}" r' => Some ([(k, v)], r')
                        | _ => None
                        end
                    end
                | _ => None
                end
            end
          else None
      | EmptyString => None
      end
  end.
(** All the values of an input. *)
Fixpoint scan_docs (fuel : nat) (s : string) : option (list json) :=
  match fuel with
  | O => None
  | S fuel =>
      match skip_ws s with
      | EmptyString => Some []
      | s' => match scan_value (S (String.length s')) s' with
              | None => None
              | Some (v, r) => match scan_docs fuel r with Some l => Some (v :: l) | None => None end
              end
      end
  end.
Definition scan (s : string) : option (list json) := scan_docs (S (String.length s)) s.

(** The file that holds these bytes. *)
Definition bytes_file (raw : string) : file := File (N.of_nat (String.length raw)) (scan raw) raw.

(** The values [json.Marshal] writes: every string is valid UTF-8 and every
    number an integer. *)
Fixpoint printable (v : json) : bool :=
  match v with
  | JNull | JBool _ | JNum _ => true
  | JReal _ => false
  | JStr s => coerce_utf8 s =s s
  | JArr l => forallb printable l
  | JObj fs => forallb (λ kv, (coerce_utf8 kv.1 =s kv.1) && printable kv.2) fs
  end.

(** ** Hashing *)

(** [fmt.Sprintf("%x", sha256.Sum256(raw))]; the hash itself is not modelled. *)
Class Digests := { sha256 : string → string }.
Definition sha256_json `{Digests} (v : json) : string := sha256 (render v).

(** ** Lemmas *)

Lemma str_app_assoc (a b c : string) : (a +:+ b) +:+ c = a +:+ (b +:+ c).
Proof. induction a as [|x a IH]; [done|]. cbn. unfold String.append in *. cbn in *. congruence. Qed.
Lemma str_app_nil (a : string) : a +:+ "" = a.
Proof. induction a as [|x a IH]; [done|]. unfold String.append in *. cbn in *. congruence. Qed.

(** Induction through the lists inside a value. *)
Lemma json_ind' (P : json → Prop) :
  P JNull → (∀ b, P (JBool b)) → (∀ z, P (JNum z)) → (∀ l, P (JReal l)) → (∀ s, P (JStr s)) →
  (∀ l, Forall P l → P (JArr l)) → (∀ fs, Forall (λ kv, P kv.2) fs → P (JObj fs)) → ∀ v, P v.
Proof.
  intros H1 H2 H3 H4 H5 H6 H7. refine (fix go v := _). destruct v as [|b|z|lit|s|l|fs]; [exact H1|apply H2|apply H3|apply H4|apply H5|..].
  - apply H6. revert l. refine (fix gos l := match l with [] => Forall_nil_2 _ | a :: l => Forall_cons_2 _ _ _ (go a) (gos l) end).
  - apply H7. revert fs.
    refine (fix gos fs := match fs with [] => Forall_nil_2 _ | kv :: fs => Forall_cons_2 _ kv fs (go kv.2) (gos fs) end).
Qed.

(** *** The size of a text *)
Lemma escape_byte_size c : N.of_nat (String.length (escape_byte c)) = esc_size c.
Proof. destruct c as [[] [] [] [] [] [] [] []]; reflexivity. Qed.
Lemma escape_ill b r : ill_formed b r = true → escape (String b r) = invalid_escape +:+ escape r.
Proof. intros H. cbn [escape]. ill_step H. Qed.
Lemma escape_size s : N.of_nat (String.length (escape s)) = str_size s.
Proof.
  induction s as [|b r E IH|b b1 r E1 E2 IH|b b1 b2 r E1 E2 E3 IH|b b1 b2 b3 r E1 E2 E3 E4 IH|b r E IH] using rune_ind.
  - done.
  - cbn [escape str_size]. by rewrite E, str_length_app, Nat2N.inj_add, escape_byte_size, IH.
  - cbn [escape str_size]. rewrite E1, E2. cbn [String.length]. lia.
  - cbn [escape str_size]. rewrite E1, E2, E3, str_length_app, Nat2N.inj_add, IH. by destruct (line_sep b b1 b2).
  - cbn [escape str_size]. rewrite E1, E2, E3, E4. cbn [String.length]. lia.
  - rewrite escape_ill, size_ill, str_length_app, Nat2N.inj_add, IH by done. done.
Qed.
Lemma render_string_size s : N.of_nat (String.length (render_string s)) = (2 + str_size s)%N.
Proof. unfold render_string. cbn [String.length]. rewrite str_length_app. cbn [String.length]. pose proof (escape_size s). lia. Qed.

Lemma commas_cons a b l : commas (a :: b :: l) = a +:+ String "," (commas (b :: l)).
Proof. done. Qed.
Lemma commas_size {A} (f : A → string) (g : A → N) l :
  (∀ a, a ∈ l → N.of_nat (String.length (f a)) = g a) →
  N.of_nat (String.length (commas (map f l))) = (N.of_nat (length l) - 1 + foldr (λ a n, g a + n) 0 l)%N.
Proof.
  induction l as [|a [|b l] IH]; intros H; [done| |].
  - cbn [map commas foldr length]. rewrite str_app_nil, H by set_solver. lia.
  - cbn [map] in *. rewrite commas_cons, str_length_app. cbn [String.length foldr length] in *.
    rewrite Nat2N.inj_add, Nat2N.inj_succ, IH, H by set_solver. lia.
Qed.
Lemma foldr_map_size {A} (g h : A → N) l : (∀ a, a ∈ l → g a = h a) →
  foldr (λ a n, g a + n)%N 0%N l = foldr (λ a n, h a + n)%N 0%N l.
Proof. induction l as [|a l IH]; [done|]. intros H. cbn. rewrite IH, H by set_solver. done. Qed.

Lemma render_size v : N.of_nat (String.length (render v)) = json_size v.
Proof.
  induction v as [|b|z|lit|s|l IH|fs IH] using json_ind'; try done.
  - by destruct b.
  - apply render_string_size.
  - cbn [render String.length]. rewrite str_length_app. cbn [String.length].
    rewrite Forall_forall in IH. pose proof (commas_size render json_size l IH) as H.
    change (json_size (JArr l)) with (2 + (N.of_nat (length l) - 1) + foldr (λ v n, json_size v + n)%N 0%N l)%N. lia.
  - cbn [render String.length]. rewrite str_length_app. cbn [String.length].
    rewrite Forall_forall in IH.
    pose proof (commas_size (λ kv, render_string kv.1 +:+ String ":" (render kv.2))
                  (λ kv, (2 + str_size kv.1) + 1 + json_size kv.2)%N fs) as H.
    rewrite json_size_obj. rewrite <-N.add_assoc. 
    assert (∀ a, a ∈ fs → N.of_nat (String.length (render_string a.1 +:+ String ":" (render a.2))) = (2 + str_size a.1 + 1 + json_size a.2)%N) as Ha.
    { intros a Hin. rewrite str_length_app. cbn [String.length]. rewrite <-(render_string_size a.1), <-(IH a Hin). lia. }
    specialize (H Ha). lia.
Qed.

(** *** Strings are read back *)
Lemma unescape_byte c r : byte_in 0 0x7F c = true → unescape (escape_byte c +:+ r) = (λ p, (String c p.1, p.2)) <$> unescape r.
Proof. by destruct c as [[] [] [] [] [] [] [] []]. Qed.
Lemma unescape_sep c2 r : line_sep "226" "128" c2 = true →
  unescape (line_sep_escape c2 +:+ r) = (λ p, (String "226" (String "128" (String c2 p.1)), p.2)) <$> unescape r.
Proof.
  unfold line_sep, line_sep_escape. cbn [Ascii.eqb andb Bool.eqb]. intros [->%Ascii.eqb_eq| ->%Ascii.eqb_eq]%orb_true_iff; reflexivity.
Qed.
Lemma unescape_high c r : byte_in 0 0x7F c = false → unescape (String c r) = (λ p, (String c p.1, p.2)) <$> unescape r.
Proof. by destruct c as [[] [] [] [] [] [] [] []]. Qed.
(** The bytes of a rune after its first are no ASCII. *)
Lemma cont_high c : cont c = true → byte_in 0 0x7F c = false.
Proof. by destruct c as [[] [] [] [] [] [] [] []]. Qed.
Lemma high_by lo hi c : (127 < lo)%N → byte_in lo hi c = true → byte_in 0 0x7F c = false.
Proof. unfold byte_in. intros Hlo H. bsimpl. apply andb_false_iff. right. apply N.leb_gt. apply N.leb_le in H. lia. Qed.
Lemma rune2_high b b1 : rune2 b b1 = true → byte_in 0 0x7F b1 = false.
Proof. unfold rune2. intros H. bsimpl. by apply cont_high. Qed.
Lemma rune3_high b b1 b2 : rune3 b b1 b2 = true → byte_in 0 0x7F b1 = false ∧ byte_in 0 0x7F b2 = false.
Proof.
  unfold rune3. intros H. bsimpl. split; [|by apply cont_high].
  rewrite !orb_true_iff in H0. destruct H0 as [[[H0|H0]|H0]|H0]; bsimpl; first [by apply cont_high|eapply high_by; [|eassumption]; lia].
Qed.
Lemma rune4_high b b1 b2 b3 : rune4 b b1 b2 b3 = true →
  byte_in 0 0x7F b1 = false ∧ byte_in 0 0x7F b2 = false ∧ byte_in 0 0x7F b3 = false.
Proof.
  unfold rune4. intros H. bsimpl. split_and!; [|by apply cont_high..].
  rewrite !orb_true_iff in H0. destruct H0 as [[H0|H0]|H0]; bsimpl; first [by apply cont_high|eapply high_by; [|eassumption]; lia].
Qed.
(** The scanner reads an escaped string as the valid UTF-8 nearest to it. *)
Lemma unescape_escape s rest : unescape (escape s +:+ String quote rest) = Some (coerce_utf8 s, rest).
Proof.
  induction s as [|b r E IH|b b1 r E1 E2 IH|b b1 b2 r E1 E2 E3 IH|b b1 b2 b3 r E1 E2 E3 E4 IH|b r E IH] using rune_ind.
  - done.
  - rewrite coerce_1 by done. cbn [escape]. by rewrite E, str_app_assoc, unescape_byte, IH.
  - rewrite coerce_2 by done. cbn [escape]. rewrite E1, E2.
    change (String b (String b1 (escape r)) +:+ String quote rest) with (String b (String b1 (escape r +:+ String quote rest))).
    by rewrite !unescape_high, IH by eauto using rune2_high.
  - rewrite coerce_3 by done. cbn [escape]. rewrite E1, E2, E3, str_app_assoc. destruct (rune3_high _ _ _ E3) as [H1 H2].
    destruct (line_sep b b1 b2) eqn:Hl.
    + assert (b = "226"%char ∧ b1 = "128"%char) as [-> ->].
      { unfold line_sep in Hl. rewrite !andb_true_iff in Hl. by destruct Hl as [[?%Ascii.eqb_eq ?%Ascii.eqb_eq] _]. }
      by rewrite unescape_sep, IH.
    + set (tail := escape r +:+ String quote rest) in *.
      change (String b (String b1 (String b2 "")) +:+ tail) with (String b (String b1 (String b2 tail))).
      by rewrite !unescape_high, IH.
  - rewrite coerce_4 by done. cbn [escape]. rewrite E1, E2, E3, E4. destruct (rune4_high _ _ _ _ E4) as (H1 & H2 & H3).
    change (String b (String b1 (String b2 (String b3 (escape r)))) +:+ String quote rest)
      with (String b (String b1 (String b2 (String b3 (escape r +:+ String quote rest))))).
    by rewrite !unescape_high, IH.
  - rewrite escape_ill, coerce_ill, str_app_assoc by done.
    assert (∀ x, unescape (invalid_escape +:+ x) = (λ p, (replacement p.1, p.2)) <$> unescape x) as -> by done.
    by rewrite IH.
Qed.
Lemma scan_string_render s rest : coerce_utf8 s = s → scan_string (escape s +:+ String quote rest) = Some (s, rest).
Proof. intros H. unfold scan_string. by rewrite unescape_escape, !H. Qed.

(** *** Numbers are read back *)
(** What may follow a value in compact text. *)
Definition delimited (rest : string) : bool :=
  match rest with
  | String c _ => negb (is_digit c) && negb (existsb (Ascii.eqb c) ["."; "e"; "E"]%char)
  | EmptyString => true
  end.
Lemma digits_app d rest : str_all is_digit d = true → delimited rest = true → digits (d +:+ rest) = (d, rest).
Proof.
  induction d as [|c d IH].
  - intros _ H. change ("" +:+ rest) with rest. destruct rest as [|c r]; [done|]. cbn in *. bsimpl. by rewrite H.
  - intros [Hc Hd]%andb_true_iff H. change (String c d +:+ rest) with (String c (d +:+ rest)). cbn [digits]. by rewrite Hc, IH.
Qed.
Lemma decimal_app acc a b : decimal acc (a +:+ b) = decimal (decimal acc a) b.
Proof.
  revert acc. induction a as [|c a IH]; intros acc; [done|].
  change (String c a +:+ b) with (String c (a +:+ b)). cbn [decimal]. apply IH.
Qed.
Lemma digit_char n : (n < 10)%N → is_digit (pretty_N_char n) = true ∧ digit_val (pretty_N_char n) = Z.of_N n.
Proof. intros H. assert (n = 0 ∨ n = 1 ∨ n = 2 ∨ n = 3 ∨ n = 4 ∨ n = 5 ∨ n = 6 ∨ n = 7 ∨ n = 8 ∨ n = 9)%N as Hn by lia. naive_solver. Qed.
Lemma digit_char_0 n : (n < 10)%N → pretty_N_char n = "0"%char → n = 0%N.
Proof. intros H. assert (n = 0 ∨ n = 1 ∨ n = 2 ∨ n = 3 ∨ n = 4 ∨ n = 5 ∨ n = 6 ∨ n = 7 ∨ n = 8 ∨ n = 9)%N as Hn by lia. naive_solver. Qed.
(** The text of a number: its digits, none when it is 0, and no leading zero. *)
Lemma pretty_go_digits x s : ∃ d, pretty_N_go x s = d +:+ s ∧ str_all is_digit d = true ∧ decimal 0 d = Z.of_N x ∧
  (x = 0%N → d = "") ∧ ((0 < x)%N → ∃ c r, d = String c r ∧ c ≠ "0"%char).
Proof.
  revert s. induction (N.lt_wf_0 x) as [x _ IH]; intros s.
  destruct (decide (0 < x)%N) as [Hx|Hx].
  - rewrite pretty_N_go_step by done. set (ch := pretty_N_char (x `mod` 10)).
    destruct (IH (x `div` 10)%N (N.div_lt x 10 Hx eq_refl) (String ch s)) as (d & -> & Hd & Hv & H0 & Hh).
    pose proof (digit_char (x `mod` 10) (N.mod_lt x 10 ltac:(done))) as [Hc Hcv].
    pose proof (N.div_mod x 10 ltac:(done)) as Hdm.
    exists (d +:+ String ch ""). split_and!.
    + by rewrite str_app_assoc.
    + rewrite str_all_app, Hd. cbn [str_all]. unfold ch. by rewrite Hc.
    + rewrite decimal_app, Hv. cbn [decimal]. unfold ch. rewrite Hcv. lia.
    + lia.
    + intros _. destruct (decide (0 < x `div` 10)%N) as [Hq|Hq].
      * destruct (Hh Hq) as (c & r & -> & Hne). by exists c, (r +:+ String ch "").
      * rewrite H0 by (apply N.le_0_r, N.nlt_ge, Hq). exists ch, "". split; [done|]. intros E. apply digit_char_0 in E; [|by apply N.mod_lt]. lia.
  - exists "". assert (x = 0%N) as -> by lia. split_and!; [done|done|done|done|lia].
Qed.
Lemma unsigned_pretty x rest : delimited rest = true →
  ∃ d, unsigned (pretty x +:+ rest) = Some (Z.of_N x, d, rest) ∧ ∃ c r, pretty x +:+ rest = String c r ∧ is_digit c = true.
Proof.
  intros Hr. unfold pretty, pretty_N. destruct (decide (x = 0%N)) as [->|Hx].
  { exists "0"%string. split; [done|]. by exists "0"%char, rest. }
  destruct (pretty_go_digits x "") as (d & -> & Hd & Hv & _ & Hh). destruct (Hh ltac:(lia)) as (c & r & -> & Hne).
  rewrite str_app_nil. exists (String c r). split.
  - change (String c r +:+ rest) with (String c (r +:+ rest)). cbn [str_all] in Hd. bsimpl.
    assert (unsigned (String c (r +:+ rest)) =
            if is_digit c then let '(d, rest) := digits (String c (r +:+ rest)) in Some (decimal 0 d, d, rest) else None) as ->.
    { destruct c as [[] [] [] [] [] [] [] []]; try reflexivity. by destruct Hne. }
    rewrite H. change (String c (r +:+ rest)) with (String c r +:+ rest). rewrite digits_app; [by rewrite Hv| |done].
    cbn [str_all]. by rewrite H, H0.
  - exists c, (r +:+ rest). split; [done|]. cbn [str_all] in Hd. by bsimpl.
Qed.
Lemma delimited_number rest : delimited rest = true → fraction rest = Some (EmptyString, rest) ∧ exponent rest = Some (EmptyString, rest).
Proof.
  destruct rest as [|c r]; [done|]. cbn [delimited existsb]. rewrite orb_false_r. intros H. bsimpl. split.
  - unfold fraction. destruct c as [[] [] [] [] [] [] [] []]; try done.
  - unfold exponent. by rewrite H1, H2.
Qed.
Lemma scan_pretty z rest : delimited rest = true →
  scan_number (pretty z +:+ rest) = Some (JNum z, rest) ∧
  ∃ c r, pretty z +:+ rest = String c r ∧ (is_digit c = true ∨ c = "-"%char).
Proof.
  intros Hr. pose proof (delimited_number rest Hr) as [Hf He].
  assert (∀ (neg : bool) (x : Z * string * string) (s : string), unsigned s = Some x → x.2 = rest →
    match unsigned s with
    | None => None
    | Some (z, text, r1) =>
        match fraction r1 with
        | None => None
        | Some (f, r2) =>
            match exponent r2 with
            | None => None
            | Some (e, r3) =>
                if (f =s "") && (e =s "") then Some (JNum (if neg then - z else z), r3)
                else Some (JReal ((if neg then "-" else "") +:+ text +:+ f +:+ e), r3)
            end
        end
    end = Some (JNum (if neg then - x.1.1 else x.1.1), rest)) as Hgo.
  { intros neg [[v text] r1] s -> Hx. cbn in Hx. subst r1. rewrite Hf, He. done. }
  destruct z as [|p|p].
  - split; [|by exists "0"%char, rest; split; [done|left]].
    unfold scan_number. exact (Hgo false (0, "0"%string, rest) (String "0" rest) eq_refl eq_refl).
  - change (pretty (Z.pos p)) with (pretty (N.pos p)).
    destruct (unsigned_pretty (N.pos p) rest Hr) as (d & Hu & c & r & Hs & Hc). split; [|eauto].
    unfold scan_number. rewrite Hs in *.
    assert ((match String c r with String "-" r0 => (true, r0) | _ => (false, String c r) end) = (false, String c r)) as ->.
    { destruct c as [[] [] [] [] [] [] [] []]; try done. }
    exact (Hgo false _ _ Hu eq_refl).
  - change (pretty (Z.neg p) +:+ rest) with (String "-" (pretty (N.pos p) +:+ rest)).
    destruct (unsigned_pretty (N.pos p) rest Hr) as (d & Hu & _). split; [|eauto].
    unfold scan_number. exact (Hgo true _ _ Hu eq_refl).
Qed.

(** *** Values are read back *)
Lemma render_head v rest : printable v = true → delimited rest = true → ∃ c r, render v +:+ rest = String c r ∧
  is_ws c = false ∧ c ≠ "]"%char ∧ c ≠ "}"%char.
Proof.
  intros Hv Hr. destruct v as [|b|z|lit|s|l|fs]; try done.
  - by exists "n"%char, ("ull" +:+ rest).
  - destruct b; [by exists "t"%char, ("rue" +:+ rest)|by exists "f"%char, ("alse" +:+ rest)].
  - destruct (scan_pretty z rest Hr) as (_ & c & r & Hs & Hc). exists c, r. split; [done|].
    destruct Hc as [Hc| ->]; [|done]. destruct c as [[] [] [] [] [] [] [] []]; done.
  - by eexists _, _.
  - by eexists _, _.
  - by eexists _, _.
Qed.
Lemma skip_nonws c r : is_ws c = false → skip_ws (String c r) = String c r.
Proof. intros H. cbn [skip_ws]. by rewrite H. Qed.
Definition readable (v : json) : Prop := ∀ n rest,
  (String.length (render v) < n)%nat → delimited rest = true → scan_value n (render v +:+ rest) = Some (v, rest).

Lemma delimited_close (c : ascii) rest : c ∈ [","; "]"; "}"]%char → delimited (String c rest) = true.
Proof. rewrite !elem_of_cons, elem_of_nil. by intros [->|[->|[->|[]]]]. Qed.

(** Elements and members separated by commas, up to the closing bracket. *)
Lemma scan_elements_read l n rest : Forall readable l → Forall (λ v, printable v = true) l → l ≠ [] →
  (String.length (commas (map render l)) + 1 < n)%nat →
  scan_elements n (commas (map render l) +:+ String "]" rest) = Some (l, rest).
Proof.
  intros Hr Hp. revert n. induction l as [|v l IH]; intros n Hne Hn; [done|]. clear Hne.
  apply Forall_cons in Hr as [Hv Hr], Hp as [Hpv Hp]. destruct n as [|n]; [lia|]. cbn [map] in *.
  destruct l as [|v2 l].
  - cbn [map commas foldr] in *. rewrite str_app_nil in *. cbn [scan_elements]. rewrite Hv; [done|lia|by apply delimited_close; set_solver].
  - cbn [map] in *. rewrite commas_cons in Hn |- *. rewrite str_length_app in Hn. cbn [String.length] in Hn.
    rewrite str_app_assoc. cbn [scan_elements].
    change (String "," (commas (render v2 :: map render l)) +:+ String "]" rest)
      with (String "," (commas (render v2 :: map render l) +:+ String "]" rest)).
    rewrite Hv; [|lia|by apply delimited_close; set_solver]. cbn [skip_ws is_ws existsb Ascii.eqb Bool.eqb andb orb].
    rewrite (IH Hr Hp n); [done|done|lia].
Qed.

Definition member (kv : string * json) : string := render_string kv.1 +:+ String ":" (render kv.2).
Lemma scan_members_read fs n rest : Forall (λ kv, readable kv.2) fs →
  Forall (λ kv : string * json, coerce_utf8 kv.1 = kv.1 ∧ printable kv.2 = true) fs → fs ≠ [] →
  (String.length (commas (map member fs)) + 1 < n)%nat →
  scan_members n (commas (map member fs) +:+ String "}" rest) = Some (fs, rest).
Proof.
  intros Hr Hp. revert n. induction fs as [|[k v] fs IH]; intros n Hne Hn; [done|]. clear Hne.
  apply Forall_cons in Hr as [Hv Hr], Hp as [[Hk Hpv] Hp]. destruct n as [|n]; [lia|]. cbn [map] in *.
  assert (∀ tail, delimited tail = true → (String.length (member (k, v)) ≤ n)%nat →
    scan_members (S n) (member (k, v) +:+ tail) =
      match skip_ws tail with
      | String "," r' => match scan_members n r' with Some (fs, r4) => Some ((k, v) :: fs, r4) | None => None end
      | String "}" r' => Some ([(k, v)], r')
      | _ => None
      end) as Hstep.
  { intros tail Ht Hl. unfold member, render_string in *. cbn [fst snd] in *. rewrite str_length_app in Hl. cbn [String.length] in Hl.
    change (String quote (escape k +:+ String quote "") +:+ String ":" (render v))
      with (String quote ((escape k +:+ String quote "") +:+ String ":" (render v))).
    rewrite str_app_assoc. change (String quote "" +:+ String ":" (render v)) with (String quote (String ":" (render v))).
    change (String quote (escape k +:+ String quote (String ":" (render v))) +:+ tail)
      with (String quote ((escape k +:+ String quote (String ":" (render v))) +:+ tail)).
    rewrite str_app_assoc.
    change (String quote (String ":" (render v)) +:+ tail) with (String quote (String ":" (render v +:+ tail))).
    cbn [scan_members]. rewrite (skip_nonws quote) by done. cbn [Ascii.eqb Bool.eqb quote].
    rewrite scan_string_render by done. cbn [skip_ws is_ws existsb Ascii.eqb Bool.eqb andb orb].
    rewrite Hv; [done|rewrite str_length_app in Hl; cbn in Hl; cbn; lia|done]. }
  destruct fs as [|kv2 fs].
  - cbn [map commas foldr] in *. rewrite str_app_nil in *. rewrite Hstep; [done|by apply delimited_close; set_solver|lia].
  - cbn [map] in *. rewrite commas_cons in Hn |- *. rewrite str_length_app in Hn. cbn [String.length] in Hn.
    rewrite str_app_assoc.
    change (String "," (commas (member kv2 :: map member fs)) +:+ String "}" rest)
      with (String "," (commas (member kv2 :: map member fs) +:+ String "}" rest)).
    rewrite Hstep; [|by apply delimited_close; set_solver|lia]. cbn [skip_ws is_ws existsb Ascii.eqb Bool.eqb andb orb].
    rewrite (IH Hr Hp n); [done|done|lia].
Qed.

Lemma render_readable v : printable v = true → readable v.
Proof.
  induction v as [|b|z|lit|s|l IH|fs IH] using json_ind'; intros Hp n rest Hn Hr; (destruct n as [|n]; [lia|]).
  - done.
  - by destruct b.
  - change (render (JNum z)) with (pretty z) in *. destruct (scan_pretty z rest Hr) as (Hs & c & r & Hc & Hd).
    rewrite Hc in *. destruct Hd as [Hd| ->]; [|exact Hs].
    cbn [scan_value]. destruct c as [[] [] [] [] [] [] [] []]; try done; exact Hs.
  - done.
  - apply eqs_true in Hp. change (render (JStr s) +:+ rest) with (String quote ((escape s +:+ String quote "") +:+ rest)).
    rewrite str_app_assoc. change (String quote "" +:+ rest) with (String quote rest).
    cbn [scan_value]. rewrite skip_nonws by done. cbn [Ascii.eqb Bool.eqb quote]. by rewrite scan_string_render.
  - change (forallb printable l = true) in Hp. rewrite forallb_forall in Hp.
    assert (Forall (λ v, printable v = true) l) as Hpl by (apply Forall_forall; intros v Hv; by apply Hp, list_elem_of_In).
    assert (Forall readable l) as Hrl.
    { rewrite Forall_forall in IH, Hpl |- *. eauto. }
    change (render (JArr l)) with (String "[" (commas (map render l) +:+ "]")) in *. cbn [String.length] in Hn.
    rewrite str_length_app in Hn. cbn [String.length] in Hn.
    change (String "[" (commas (map render l) +:+ "]") +:+ rest) with (String "[" ((commas (map render l) +:+ "]") +:+ rest)).
    rewrite str_app_assoc. change ("]" +:+ rest) with (String "]" rest). cbn [scan_value].
    rewrite (skip_nonws "[") by done. cbn [Ascii.eqb Bool.eqb].
    destruct l as [|v l]; [done|].
    assert (∃ c r, commas (map render (v :: l)) +:+ String "]" rest = String c r ∧ is_ws c = false ∧ c ≠ "]"%char) as (c & r & Hc & Hw & Hne).
    { apply Forall_cons in Hpl as [Hv _]. cbn [map commas]. rewrite str_app_assoc.
      destruct (render_head v (foldr (λ b acc : string, String "," (b +:+ acc)) "" (map render l) +:+ String "]" rest)) as (c & r & ? & ? & ? & ?); [done| |eauto].
      destruct l as [|v2 l]; by apply delimited_close; set_solver. }
    pose proof (scan_elements_read (v :: l) n rest Hrl Hpl ltac:(done) ltac:(lia)) as Hs.
    rewrite Hc in *. rewrite skip_nonws by done. clear Hc Hw.
    destruct c as [[] [] [] [] [] [] [] []]; first [by rewrite Hs|by destruct Hne].
  - change (forallb (λ kv, (coerce_utf8 kv.1 =s kv.1) && printable kv.2) fs = true) in Hp. rewrite forallb_forall in Hp.
    assert (Forall (λ kv : string * json, coerce_utf8 kv.1 = kv.1 ∧ printable kv.2 = true) fs) as Hpl.
    { apply Forall_forall. intros kv Hv. apply list_elem_of_In, Hp in Hv. bsimpl. done. }
    assert (Forall (λ kv, readable kv.2) fs) as Hrl.
    { rewrite Forall_forall in IH, Hpl |- *. intros kv Hv. apply IH; [done|]. by apply Hpl. }
    change (render (JObj fs)) with (String "{" (commas (map member fs) +:+ "}")) in *. cbn [String.length] in Hn.
    rewrite str_length_app in Hn. cbn [String.length] in Hn.
    change (String "{" (commas (map member fs) +:+ "}") +:+ rest) with (String "{" ((commas (map member fs) +:+ "}") +:+ rest)).
    rewrite str_app_assoc. change ("}" +:+ rest) with (String "}" rest). cbn [scan_value].
    rewrite (skip_nonws "{") by done. cbn [Ascii.eqb Bool.eqb].
    destruct fs as [|kv fs]; [done|].
    pose proof (scan_members_read (kv :: fs) n rest Hrl Hpl ltac:(done) ltac:(lia)) as Hs.
    assert (∃ r, commas (map member (kv :: fs)) +:+ String "}" rest = String quote r) as [r Hc] by (by eexists).
    rewrite Hc in *. rewrite skip_nonws by done. unfold quote in *. by rewrite Hs.
Qed.

(** No object's bytes are a proper prefix of another's. *)
Lemma printable_members fs : printable (JObj fs) = true →
  Forall (λ kv, readable kv.2) fs ∧ Forall (λ kv : string * json, coerce_utf8 kv.1 = kv.1 ∧ printable kv.2 = true) fs.
Proof.
  intros Hp. change (forallb (λ kv, (coerce_utf8 kv.1 =s kv.1) && printable kv.2) fs = true) in Hp. rewrite forallb_forall in Hp.
  assert (Forall (λ kv : string * json, coerce_utf8 kv.1 = kv.1 ∧ printable kv.2 = true) fs) as H.
  { apply Forall_forall. intros kv Hv. apply list_elem_of_In, Hp in Hv. bsimpl. done. }
  split; [|done]. eapply Forall_impl; [exact H|]. intros kv [_ Hkv]. by apply render_readable.
Qed.
Lemma render_prefix fs fs' tail : printable (JObj fs) = true → printable (JObj fs') = true → fs ≠ [] → fs' ≠ [] →
  render (JObj fs) +:+ tail = render (JObj fs') → fs = fs' ∧ tail = "".
Proof.
  intros [Hr Hp]%printable_members [Hr' Hp']%printable_members Hne Hne' H.
  change (String "{" ((commas (map member fs) +:+ "}") +:+ tail) = String "{" (commas (map member fs') +:+ "}")) in H.
  injection H as H. rewrite str_app_assoc in H. change ("}" +:+ tail) with (String "}" tail) in H.
  set (n := (2 + String.length (commas (map member fs)) + String.length (commas (map member fs')))%nat).
  pose proof (scan_members_read fs n tail Hr Hp Hne ltac:(unfold n; lia)) as H1.
  pose proof (scan_members_read fs' n "" Hr' Hp' Hne' ltac:(unfold n; lia)) as H2.
  rewrite H in H1. rewrite H1 in H2. by injection H2 as -> ->.
Qed.

(** The scanner reads exactly the value, whether or not a line feed follows. *)
Lemma scan_render v tail : printable v = true → tail = "" ∨ tail = String LF "" → scan (render v +:+ tail) = Some [v].
Proof.
  intros Hv Ht. assert (delimited tail = true) as Hd by (by destruct Ht as [-> | ->]).
  unfold scan. cbn [scan_docs].
  destruct (render_head v tail Hv Hd) as (c & r & Hc & Hw & _).
  pose proof (render_readable v Hv (S (String.length (String c r))) tail) as Hr.
  rewrite Hc in *. rewrite skip_nonws by done. rewrite Hr; [|clear Hr|done].
  - cbn [String.length]. by destruct Ht as [-> | ->].
  - rewrite <-Hc, str_length_app. cbn [String.length]. lia.
Qed.

(** *** The scanner consumes its input, and its fuel is enough *)

Lemma skip_ws_length s : (String.length (skip_ws s) ≤ String.length s)%nat.
Proof. induction s as [|c s IH]; [done|]. cbn [skip_ws]. destruct (is_ws c); cbn [String.length]; lia. Qed.
Lemma strip_prefix_length p s r : strip_prefix p s = Some r → String.length s = (String.length p + String.length r)%nat.
Proof.
  revert s. induction p as [|a p IH]; intros [|b s] H; cbn in H; try done; [by injection H as <-|by injection H as <-|].
  destruct (Ascii.eqb a b); [|done]. cbn. by rewrite (IH _ H).
Qed.
Lemma digits_length s : (String.length (digits s).2 ≤ String.length s)%nat.
Proof. induction s as [|c s IH]; [done|]. cbn. destruct (is_digit c); [|done]. destruct (digits s) as [d rest]. cbn in *. lia. Qed.
Lemma fraction_length s f r : fraction s = Some (f, r) → (String.length r ≤ String.length s)%nat.
Proof.
  unfold fraction. intros H. destruct s as [|c s]; [by injection H as <- <-|].
  assert (fraction (String c s) = Some (f, r)) as H' by exact H. clear H. unfold fraction in H'.
  pose proof (digits_length s). destruct c as [[] [] [] [] [] [] [] []]; try (injection H' as <- <-; cbn; lia).
  destruct (digits s) as [d rest]. cbn in *. destruct (d =s ""); [done|]. injection H' as <- <-. cbn. lia.
Qed.
Lemma exponent_length s e r : exponent s = Some (e, r) → (String.length r ≤ String.length s)%nat.
Proof.
  unfold exponent. destruct s as [|c s]; [by intros [= <- <-]|]. destruct (_ || _); [|intros [= <- <-]; cbn; lia].
  assert (∀ t, (String.length (digits t).2 ≤ String.length t)%nat) as Hd by apply digits_length.
  destruct s as [|g s]; [done|]. destruct (Ascii.eqb g "+" || Ascii.eqb g "-").
  - specialize (Hd s). destruct (digits s) as [d rest]. destruct (d =s ""); [done|]. intros [= <- <-]. cbn in *. lia.
  - specialize (Hd (String g s)). destruct (digits (String g s)) as [d rest]. destruct (d =s ""); [done|]. intros [= <- <-]. cbn in *. lia.
Qed.
Lemma unsigned_length s z t r : unsigned s = Some (z, t, r) → (String.length r < String.length s)%nat.
Proof.
  unfold unsigned. destruct s as [|c s]; [done|]. intros H.
  assert (is_digit c = true → (String.length (digits (String c s)).2 < String.length (String c s))%nat) as Hd.
  { intros Hc. cbn [digits]. rewrite Hc. pose proof (digits_length s). destruct (digits s) as [d rest]. cbn in *. lia. }
  destruct c as [[] [] [] [] [] [] [] []]; try done; try (injection H as <- <- <-; cbn; lia); specialize (Hd eq_refl); 
    cbn [is_digit] in H; destruct (digits _) as [d rest]; (injection H as <- <- <-; exact Hd).
Qed.
Lemma scan_number_length s v r : scan_number s = Some (v, r) → (String.length r < String.length s)%nat.
Proof.
  assert (∀ s1 (neg : bool) w, match unsigned s1 with
    | None => None
    | Some (z, text, r1) => match fraction r1 with
        | None => None
        | Some (f, r2) => match exponent r2 with
            | None => None
            | Some (e, r3) => if (f =s "") && (e =s "") then Some (JNum (if neg then - z else z), r3)
                              else Some (JReal ((if neg then "-" else "") +:+ text +:+ f +:+ e), r3) end end end = Some (w, r) →
    (String.length r < String.length s1)%nat) as Hmain.
  { intros s1 neg w. destruct (unsigned s1) as [[[z t] r1]|] eqn:Eu; [|done]. destruct (fraction r1) as [[f r2]|] eqn:Ef; [|done].
    destruct (exponent r2) as [[e r3]|] eqn:Ee; [|done]. apply unsigned_length in Eu. apply fraction_length in Ef. apply exponent_length in Ee.
    destruct (_ && _); intros [= _ <-]; lia. }
  unfold scan_number. destruct s as [|c s]; [done|].
  destruct c as [[] [] [] [] [] [] [] []]; intros H; first [apply (Hmain _ false) in H|apply (Hmain _ true) in H]; cbn [String.length] in *; lia.
Qed.
Lemma unescape_length s t r : unescape s = Some (t, r) → (String.length r < String.length s)%nat.
Proof.
  remember (String.length s) as n eqn:Hn. revert s t Hn. induction (lt_wf n) as [n _ IH]. intros s t -> H.
  assert (∀ s' (f : string * string → string * string) t', (String.length s' < String.length s)%nat → (f <$> unescape s') = Some (t', r) → (∀ p, (f p).2 = p.2) →
    (String.length r < String.length s)%nat) as Hsub.
  { intros s' f t' Hl Hf Hp. destruct (unescape s') as [[t1 r1]|] eqn:Eu; [|done]. cbn in Hf. injection Hf as Hf.
    pose proof (Hp (t1, r1)) as Hr. rewrite Hf in Hr. cbn in Hr. subst r1. etrans; [eapply IH; [exact Hl|done|exact Eu]|done]. }
  clear IH. destruct s as [|c s]; [done|]. cbn [unescape] in H.
  destruct (Ascii.eqb c quote); [injection H as <- <-; cbn; lia|]. destruct (Ascii.eqb c backslash).
  2:{ destruct (N_of_ascii c <? 32)%N; [done|]. eapply Hsub; [|exact H|done]. cbn. lia. }
  destruct s as [|e r1]; [done|]. destruct (Ascii.eqb e "u").
  2:{ destruct (simple_escape e); [|done]. eapply Hsub; [|exact H|done]. cbn. lia. }
  destruct r1 as [|a [|b [|c' [|d r2]]]]; try done. destruct (getu4 a b c' d) as [hi|]; [|done].
  destruct (is_surrogate hi); [|eapply Hsub; [|exact H|done]; cbn; lia].
  destruct r2 as [|b1 [|b2 [|a' [|b' [|c2 [|d' r3]]]]]]; try (eapply Hsub; [|exact H|done]; cbn; lia).
  destruct (if Ascii.eqb b1 backslash && Ascii.eqb b2 "u" then getu4 a' b' c2 d' else None) as [lo|]; [|eapply Hsub; [|exact H|done]; cbn; lia].
  destruct (surrogate_pair hi lo); (eapply Hsub; [|exact H|done]; cbn; lia).
Qed.
Lemma scan_string_length s t r : scan_string s = Some (t, r) → (String.length r < String.length s)%nat.
Proof. unfold scan_string. destruct (unescape s) as [[t' r']|] eqn:Eu; [|done]. intros [= _ <-]. by eapply unescape_length. Qed.

(** The delimiters tested one at a time. *)
Definition after (c : ascii) (s : string) : option string :=
  match s with String a r => if Ascii.eqb a c then Some r else None | EmptyString => None end.
Lemma after_length c s r : after c s = Some r → String.length s = S (String.length r).
Proof. destruct s as [|a s]; [done|]. cbn. destruct (Ascii.eqb a c); [|done]. by intros [= <-]. Qed.
Lemma scan_value_eq n s : scan_value (S n) s =
  match skip_ws s with
  | EmptyString => None
  | String c r =>
      if Ascii.eqb c "{" then
        match after "}" (skip_ws r) with
        | Some r' => Some (JObj [], r')
        | None => (λ p, (JObj p.1, p.2)) <$> scan_members n (skip_ws r)
        end
      else if Ascii.eqb c "[" then
        match after "]" (skip_ws r) with
        | Some r' => Some (JArr [], r')
        | None => (λ p, (JArr p.1, p.2)) <$> scan_elements n (skip_ws r)
        end
      else if Ascii.eqb c quote then (λ p, (JStr p.1, p.2)) <$> scan_string r
      else match strip_prefix "null" (String c r), strip_prefix "true" (String c r), strip_prefix "false" (String c r) with
           | Some r2, _, _ => Some (JNull, r2)
           | _, Some r2, _ => Some (JBool true, r2)
           | _, _, Some r2 => Some (JBool false, r2)
           | None, None, None => scan_number (String c r)
           end
  end.
Proof.
  cbn [scan_value]. destruct (skip_ws s) as [|c r]; [done|]. destruct (Ascii.eqb c "{"); [|destruct (Ascii.eqb c "[")].
  - destruct (skip_ws r) as [|a r']; [by destruct (scan_members n "") as [[]|]|].
    destruct a as [[] [] [] [] [] [] [] []]; cbn; repeat case_match; naive_solver.
  - destruct (skip_ws r) as [|a r']; [by destruct (scan_elements n "") as [[]|]|].
    destruct a as [[] [] [] [] [] [] [] []]; cbn; repeat case_match; naive_solver.
  - destruct (Ascii.eqb c quote); [by destruct (scan_string r) as [[]|]|done].
Qed.
Lemma scan_elements_eq n s : scan_elements (S n) s =
  match scan_value n s with
  | None => None
  | Some (v, r) =>
      match after "," (skip_ws r), after "]" (skip_ws r) with
      | Some r', _ => (λ p, (v :: p.1, p.2)) <$> scan_elements n r'
      | None, Some r' => Some ([v], r')
      | None, None => None
      end
  end.
Proof.
  cbn [scan_elements]. destruct (scan_value n s) as [[v r]|]; [|done]. destruct (skip_ws r) as [|a r']; [done|].
  destruct a as [[] [] [] [] [] [] [] []]; cbn; repeat case_match; naive_solver.
Qed.
Lemma scan_members_eq n s : scan_members (S n) s =
  match after quote (skip_ws s) with
  | None => None
  | Some r =>
      match scan_string r with
      | None => None
      | Some (k, r1) =>
          match after ":" (skip_ws r1) with
          | None => None
          | Some r2 =>
              match scan_value n r2 with
              | None => None
              | Some (v, r3) =>
                  match after "," (skip_ws r3), after "}" (skip_ws r3) with
                  | Some r', _ => (λ p, ((k, v) :: p.1, p.2)) <$> scan_members n r'
                  | None, Some r' => Some ([(k, v)], r')
                  | None, None => None
                  end
              end
          end
      end
  end.
Proof.
  cbn [scan_members]. destruct (skip_ws s) as [|c r]; [done|]. cbn [after]. destruct (Ascii.eqb c quote); [|done].
  destruct (scan_string r) as [[k r1]|]; [|done]. destruct (skip_ws r1) as [|a r2]; [done|].
  assert (∀ t, match scan_value n t with
    | None => None
    | Some (v, r3) => match skip_ws r3 with
        | String "," r' => match scan_members n r' with Some (fs, r4) => Some ((k, v) :: fs, r4) | None => None end
        | String "}" r' => Some ([(k, v)], r')
        | _ => None end end =
    match scan_value n t with
    | None => None
    | Some (v, r3) => match after "," (skip_ws r3), after "}" (skip_ws r3) with
        | Some r', _ => (λ p, ((k, v) :: p.1, p.2)) <$> scan_members n r'
        | None, Some r' => Some ([(k, v)], r')
        | None, None => None end end) as Hv.
  { intros t. destruct (scan_value n t) as [[v r3]|]; [|done]. destruct (skip_ws r3) as [|b r']; [done|].
    destruct b as [[] [] [] [] [] [] [] []]; cbn; repeat case_match; naive_solver. }
  destruct a as [[] [] [] [] [] [] [] []]; try reflexivity. apply Hv.
Qed.

(** A success consumes input, and any fuel beyond what it consumed repeats it. *)
Definition settles {A} (scanner : nat → string → option (A * string)) (n : nat) : Prop := ∀ s a r, scanner n s = Some (a, r) →
  (String.length r < String.length s)%nat ∧ ∀ m, (String.length s - String.length r ≤ m)%nat → scanner m s = Some (a, r).
Lemma settles_value n : settles scan_elements n → settles scan_members n → settles scan_value (S n).
Proof.
  intros He Hm s v r H. rewrite scan_value_eq in H. pose proof (skip_ws_length s) as Hs.
  enough ((String.length r < String.length s)%nat ∧ ∀ m, (String.length s - String.length r ≤ S m)%nat → scan_value (S m) s = Some (v, r)) as [Hl Hr].
  { split; [done|]. intros [|m] Hm'; [lia|]. by apply Hr. }
  setoid_rewrite scan_value_eq. destruct (skip_ws s) as [|c rest]; [done|]. cbn [String.length] in Hs. pose proof (skip_ws_length rest) as Hrest.
  destruct (Ascii.eqb c "{"); [|destruct (Ascii.eqb c "["); [|destruct (Ascii.eqb c quote)]].
  - destruct (after "}" (skip_ws rest)) as [r'|] eqn:Ea; [apply after_length in Ea; injection H as <- <-; split; [lia|done]|].
    destruct (scan_members n (skip_ws rest)) as [[fs r2]|] eqn:Em; [|done]. cbn in H. injection H as <- <-. apply Hm in Em as [H1 H2].
    split; [lia|]. intros m Hl. by rewrite H2 by lia.
  - destruct (after "]" (skip_ws rest)) as [r'|] eqn:Ea; [apply after_length in Ea; injection H as <- <-; split; [lia|done]|].
    destruct (scan_elements n (skip_ws rest)) as [[fs r2]|] eqn:Em; [|done]. cbn in H. injection H as <- <-. apply He in Em as [H1 H2].
    split; [lia|]. intros m Hl. by rewrite H2 by lia.
  - split; [|done]. destruct (scan_string rest) as [[t r2]|] eqn:Et; [|done]. apply scan_string_length in Et. injection H as <- <-. cbn in *. lia.
  - split; [|done]. destruct (strip_prefix "null" (String c rest)) as [r2|] eqn:E1; [apply strip_prefix_length in E1; injection H as <- <-; cbn in *; lia|].
    destruct (strip_prefix "true" (String c rest)) as [r2|] eqn:E2; [apply strip_prefix_length in E2; injection H as <- <-; cbn in *; lia|].
    destruct (strip_prefix "false" (String c rest)) as [r2|] eqn:E3; [apply strip_prefix_length in E3; injection H as <- <-; cbn in *; lia|].
    apply scan_number_length in H. cbn in *. lia.
Qed.
Lemma settles_elements n : settles scan_value n → settles scan_elements n → settles scan_elements (S n).
Proof.
  intros Hv He s l r H. rewrite scan_elements_eq in H. destruct (scan_value n s) as [[v r1]|] eqn:Ev; [|done]. apply Hv in Ev as [H1 H2].
  enough ((String.length r < String.length s)%nat ∧ ∀ m, (String.length s - String.length r ≤ S m)%nat → scan_elements (S m) s = Some (l, r)) as [Hl Hr].
  { split; [done|]. intros [|m] Hm'; [lia|]. by apply Hr. }
  setoid_rewrite scan_elements_eq. pose proof (skip_ws_length r1) as Hs. destruct (after "," (skip_ws r1)) as [r'|] eqn:Ec.
  - pose proof (after_length _ _ _ Ec) as LEc. destruct (scan_elements n r') as [[l' r2]|] eqn:El; [|done]. cbn in H. injection H as <- <-. apply He in El as [H3 H4].
    split; [lia|]. intros m Hl. rewrite H2 by lia. cbn. by rewrite Ec, H4 by lia.
  - destruct (after "]" (skip_ws r1)) as [r'|] eqn:Eb; [|done]. pose proof (after_length _ _ _ Eb) as LEb. injection H as <- <-.
    split; [lia|]. intros m Hl. rewrite H2 by lia. cbn. by rewrite Ec, Eb.
Qed.
Lemma settles_members n : settles scan_value n → settles scan_members n → settles scan_members (S n).
Proof.
  intros Hv He s l r H. rewrite scan_members_eq in H. pose proof (skip_ws_length s) as Hs0.
  enough ((String.length r < String.length s)%nat ∧ ∀ m, (String.length s - String.length r ≤ S m)%nat → scan_members (S m) s = Some (l, r)) as [Hl Hr].
  { split; [done|]. intros [|m] Hm'; [lia|]. by apply Hr. }
  setoid_rewrite scan_members_eq. destruct (after quote (skip_ws s)) as [s1|] eqn:Eq; [|done]. pose proof (after_length _ _ _ Eq) as LEq.
  destruct (scan_string s1) as [[k r1]|] eqn:Es; [|done]. apply scan_string_length in Es. pose proof (skip_ws_length r1) as Hs1.
  destruct (after ":" (skip_ws r1)) as [r2|] eqn:Ek; [|done]. pose proof (after_length _ _ _ Ek) as LEk.
  destruct (scan_value n r2) as [[v r3]|] eqn:Ev; [|done]. apply Hv in Ev as [H1 H2].
  pose proof (skip_ws_length r3) as Hs3. destruct (after "," (skip_ws r3)) as [r'|] eqn:Ec.
  - pose proof (after_length _ _ _ Ec) as LEc. destruct (scan_members n r') as [[l' r4]|] eqn:El; [|done]. cbn in H. injection H as <- <-. apply He in El as [H3 H4].
    split; [lia|]. intros m Hl. rewrite H2 by lia. cbn. by rewrite Ec, H4 by lia.
  - destruct (after "}" (skip_ws r3)) as [r'|] eqn:Eb; [|done]. pose proof (after_length _ _ _ Eb) as LEb. injection H as <- <-.
    split; [lia|]. intros m Hl. rewrite H2 by lia. cbn. by rewrite Ec, Eb.
Qed.
Lemma scanners_settle n : settles scan_value n ∧ settles scan_elements n ∧ settles scan_members n.
Proof.
  induction n as [|n (Hv & He & Hm)]; [by split_and!; intros s a r|].
  split_and!; [by apply settles_value|by apply settles_elements|by apply settles_members].
Qed.
(** The fuel only matters below the length of the input. *)
Lemma scan_value_fuel n m s : (String.length s ≤ n)%nat → (String.length s ≤ m)%nat → scan_value n s = scan_value m s.
Proof.
  intros Hn Hm. destruct (scan_value n s) as [[v r]|] eqn:E.
  - symmetry. apply (proj1 (scanners_settle n)) in E as [H1 H2]. apply H2. lia.
  - destruct (scan_value m s) as [[v r]|] eqn:E'; [|done]. apply (proj1 (scanners_settle m)) in E' as [H1 H2]. rewrite H2 in E by lia. done.
Qed.
Lemma scan_docs_fuel n m s : (String.length s < n)%nat → (String.length s < m)%nat → scan_docs n s = scan_docs m s.
Proof.
  revert m s. induction n as [|n IH]; intros [|m] s Hn Hm; try lia. cbn [scan_docs]. pose proof (skip_ws_length s) as Hs.
  destruct (skip_ws s) as [|c s']; [done|]. destruct (scan_value _ _) as [[v r]|] eqn:E; [|done].
  apply (proj1 (scanners_settle _)) in E as [H1 _]. by rewrite (IH m r) by lia.
Qed.

(** Whatever fuel reads an input, the fuel of [scan] reads it too. *)
Lemma scan_docs_reads n s l : scan_docs n s = Some l → scan s = Some l.
Proof.
  assert (∀ m, (String.length s < m)%nat → scan_docs n s = Some l → scan_docs m s = Some l) as H; [|intros E; apply H; [lia|done]].
  revert s l. induction n as [|n IH]; intros s l [|m] Hm H; try done; try lia. cbn [scan_docs] in *. pose proof (skip_ws_length s) as Hs.
  destruct (skip_ws s) as [|c s']; [done|]. destruct (scan_value _ _) as [[v r]|] eqn:E; [|done].
  apply (proj1 (scanners_settle _)) in E as [H1 _]. destruct (scan_docs n r) as [l'|] eqn:El; [|done]. by rewrite (IH r l' m) by (done || lia).
Qed.

(** ** Properties *)

(** The bytes of a marshalled value, with the line feed the stores
    append, are scanned back to that value and nothing else, and their number is
    the size the stores compare with their bounds; so the parsed file every
    store is verified on is exactly what the program's own scanner makes of the
    bytes the program writes. *)
Lemma marshalled_bytes_scan_back v : printable v = true →
  scan (render v +:+ String LF "") = Some [v] ∧
  file_size (bytes_file (render v +:+ String LF "")) = file_size (json_file v) ∧
  file_docs (bytes_file (render v +:+ String LF "")) = file_docs (json_file v).
Proof.
  intros Hv. assert (scan (render v +:+ String LF "") = Some [v]) as Hs by (apply scan_render; auto).
  split_and!; [done| |exact Hs].
  cbn [bytes_file json_file file_size]. rewrite str_length_app. cbn [String.length]. rewrite <-render_size. lia.
Qed.

Definition example_json : json :=
  JObj [("a<b", JArr [JNum (-12); JBool true; JNull; JStr (String "226" (String "128" (String "168" "x")))]); ("", JObj [])].
Lemma marshalled_bytes_scan_back_witness :
  printable example_json = true ∧ scan (render example_json +:+ String LF "") = Some [example_json].
Proof. split; [reflexivity|]. exact (proj1 (marshalled_bytes_scan_back example_json eq_refl)). Defined.
