(* ===== verification/Recipe.v ===== *)
(** Recipes (src/internal/recipe): the declarative environment description, its
    validation (recipe.go), the canonical intent a session is bound to by digest
    (intent.go), and the narrower inputs of a prepared base (cache.go,
    preparation_payload.go). Documents are read from their bytes with the
    scanner of JsonText.v and decoded the way encoding/json decodes into a
    struct: field names match exactly or else by case folding, a later field
    overwrites an earlier one, and [null] leaves a scalar alone. *)
From S2P Require Import Prelude Ids Json JsonText.

(** ** Struct decoding *)

(** [foldName]: ASCII letters in upper case; of the other runes only U+017F and
    U+212A fold into ASCII. *)
Definition upper_byte (c : ascii) : ascii := if is_lower c then ascii_of_N (N_of_ascii c - 32) else c.
Fixpoint fold_name (s : string) : string :=
  match s with
  | EmptyString => EmptyString
  | String c r =>
      match r with
      | String c1 r1 =>
          if Ascii.eqb c "197" && Ascii.eqb c1 "191" then String "S" (fold_name r1)
          else match r1 with
               | String c2 r2 =>
                   if Ascii.eqb c "226" && Ascii.eqb c1 "132" && Ascii.eqb c2 "170" then String "K" (fold_name r2)
                   else String (upper_byte c) (fold_name r)
               | EmptyString => String (upper_byte c) (fold_name r)
               end
      | EmptyString => String (upper_byte c) ""
      end
  end.
(** The struct field a key names: the exact one, else the first by folding. *)
Definition field_for (names : list string) (key : string) : option string :=
  if existsb (String.eqb key) names then Some key
  else find (λ n, fold_name n =s fold_name key) names.

Section struct.
Context {S : Type} (names : list string) (handler : string → json → S → res S).
Fixpoint struct_loop (fields : list (string * json)) (st : S) : res S :=
  match fields with
  | [] => Ok st
  | (key, v) :: rest =>
      match field_for names key with
      | None => fail "unknown field"
      | Some name => let? st := handler name v st in struct_loop rest st
      end
  end.
(** [Decoder.Decode] into a struct with DisallowUnknownFields. *)
Definition decode_struct (v : json) (st : S) : res S :=
  match v with
  | JObj fields => struct_loop fields st
  | JNull => Ok st
  | _ => fail "cannot unmarshal into struct"
  end.
(** [json.Unmarshal] into a struct: unknown fields are ignored. *)
Fixpoint lenient_loop (fields : list (string * json)) (st : S) : res S :=
  match fields with
  | [] => Ok st
  | (key, v) :: rest =>
      match field_for names key with
      | None => lenient_loop rest st
      | Some name => let? st := handler name v st in lenient_loop rest st
      end
  end.
Definition unmarshal_struct (v : json) (st : S) : res S :=
  match v with
  | JObj fields => lenient_loop fields st
  | JNull => Ok st
  | _ => fail "cannot unmarshal into struct"
  end.
End struct.

(** A Go slice: [None] is nil. Elements are decoded into those already there. *)
Abbreviation slice A := (option (list A)).
Definition items {A} (s : slice A) : list A := default [] s.
Section slices.
Context {A : Type} (elem : json → A → res A) (zero : A).
Fixpoint decode_elements (l : list json) (olds : list A) : res (list A) :=
  match l with
  | [] => Ok []
  | v :: rest =>
      let? a := elem v (match olds with [] => zero | o :: _ => o end) in
      let? r := decode_elements rest (match olds with [] => [] | _ :: os => os end) in
      Ok (a :: r)
  end.
Definition decode_slice (v : json) (old : slice A) : res (slice A) :=
  match v with
  | JNull => Ok None
  | JArr l => let? r := decode_elements l (items old) in Ok (Some r)
  | _ => fail "cannot unmarshal into slice"
  end.
End slices.
Definition marshal_slice {A} (enc : A → json) (s : slice A) : json :=
  match s with None => JNull | Some l => JArr (map enc l) end.

(** [rejectDuplicateKeys]: no object anywhere repeats a key. *)
Fixpoint distinct (l : list string) : bool :=
  match l with [] => true | a :: r => negb (existsb (String.eqb a) r) && distinct r end.
Fixpoint checkJSONValue (v : json) : bool :=
  match v with
  | JArr l => forallb checkJSONValue l
  | JObj fs => distinct (map fst fs) && forallb (λ kv, checkJSONValue kv.2) fs
  | _ => true
  end.

(** ** The recipe *)

Definition maxRecipeBytes : N := 2 ^ 20.
Definition sourceKind : string := "ubuntu-24.04.4-desktop-arm64".
Definition sourceSHA256 : string := "c2610520bf582976839a1724c669e1cfed0547427be5a0ad12d457b92b46ffbe".
Definition workspaceRoot : string := "/home/boxwarden/workspaces/".

Record Source := mkSource { src_kind : string; src_sha256 : string }.
Record Machine := mkMachine { mc_cpus : Z; mc_memory : Z; mc_disk : Z }.
Record Step := mkStep { st_id : string; st_phase : string; st_argv : slice string }.
Record Workspace := mkWorkspace { ws_name : string; ws_mount : string }.
Record Launch := mkLaunch { la_id : string; la_argv : slice string }.
Record Recipe := mkRecipe {
  rc_version : Z; rc_source : Source; rc_machine : Machine; rc_packages : slice string;
  rc_steps : slice Step; rc_workspaces : slice Workspace; rc_launch : slice Launch }.
#[export] Instance Source_eq_dec : EqDecision Source.
Proof. solve_decision. Defined.
#[export] Instance Machine_eq_dec : EqDecision Machine.
Proof. solve_decision. Defined.
#[export] Instance Step_eq_dec : EqDecision Step.
Proof. solve_decision. Defined.
#[export] Instance Workspace_eq_dec : EqDecision Workspace.
Proof. solve_decision. Defined.
#[export] Instance Launch_eq_dec : EqDecision Launch.
Proof. solve_decision. Defined.
#[export] Instance Recipe_eq_dec : EqDecision Recipe.
Proof. solve_decision. Defined.

Definition zeroSource : Source := mkSource "" "".
Definition zeroMachine : Machine := mkMachine 0 0 0.
Definition zeroStep : Step := mkStep "" "" None.
Definition zeroWorkspace : Workspace := mkWorkspace "" "".
Definition zeroLaunch : Launch := mkLaunch "" None.
Definition zeroRecipe : Recipe := mkRecipe 0 zeroSource zeroMachine None None None None.

(** ** Validation *)

Definition id_byte (c : ascii) : bool := is_lower c || is_digit c || Ascii.eqb c "-".
Definition validID (value : string) : bool :=
  match value with
  | EmptyString => false
  | String c rest => negb (64 <? String.length value)%nat && is_lower c && str_all id_byte rest
  end.
Definition package_byte (c : ascii) : bool :=
  is_lower c || is_digit c || existsb (Ascii.eqb c) ["+"; "."; "-"]%char.
Definition validPackage (value : string) : bool :=
  match value with
  | EmptyString => false
  | String c rest => negb (128 <? String.length value)%nat && is_lower c && str_all package_byte rest
  end.
Definition validPhase (value : string) : bool :=
  existsb (String.eqb value) ["prepare"; "once"; "reconfigure"; "startup"].
(** [strings.IndexFunc(s, unicode.IsControl) >= 0], but for the bytes in
    [except]: the C0 controls, DEL, and U+0080 to U+009F. *)
Fixpoint has_control (except : list ascii) (s : string) : bool :=
  match s with
  | EmptyString => false
  | String c r =>
      ((N_of_ascii c <? 32)%N || (N_of_ascii c =? 127)%N) && negb (existsb (Ascii.eqb c) except) ||
      match r with
      | String c1 _ => (N_of_ascii c =? 0xC2)%N && byte_in 0x80 0x9F c1
      | EmptyString => false
      end || has_control except r
  end.
Definition validArg (arg : string) : bool :=
  negb (65536 <? N.of_nat (String.length arg))%N && negb (has_control ["010"; "009"]%char arg).
Definition validArgv (args : slice string) : bool :=
  match items args with
  | [] => false
  | (a :: _) as l => negb (32 <? length l)%nat && (a ≠s "") && forallb validArg l
  end.
Definition validMount (mount : string) : bool :=
  has_prefix workspaceRoot mount && negb (String.length mount <=? String.length workspaceRoot)%nat &&
  canonical_abs mount && negb (str_contains "//" mount) && negb (has_control [] mount).
Definition mount_overlap (a b : string) : bool := (a =s b) || has_prefix (b +:+ "/") a || has_prefix (a +:+ "/") b.

Fixpoint validPackages (seen l : list string) : bool :=
  match l with
  | [] => true
  | p :: rest => validPackage p && negb (existsb (String.eqb p) seen) && validPackages (p :: seen) rest
  end.
(** The step loop; the identifiers seen so far go on to the launch loop. *)
Fixpoint validSteps (ids : list string) (l : list Step) : option (list string) :=
  match l with
  | [] => Some ids
  | s :: rest =>
      if validID (st_id s) && negb (existsb (String.eqb (st_id s)) ids) && validPhase (st_phase s) && validArgv (st_argv s)
      then validSteps (st_id s :: ids) rest else None
  end.
Fixpoint validLaunches (ids : list string) (l : list Launch) : bool :=
  match l with
  | [] => true
  | a :: rest =>
      validID (la_id a) && negb (existsb (String.eqb (la_id a)) ids) && validArgv (la_argv a) && validLaunches (la_id a :: ids) rest
  end.
Fixpoint validWorkspaces (volumes mounts : list string) (l : list Workspace) : bool :=
  match l with
  | [] => true
  | w :: rest =>
      validID (ws_name w) && negb (existsb (String.eqb (ws_name w)) volumes) && validMount (ws_mount w) &&
      negb (existsb (mount_overlap (ws_mount w)) mounts) &&
      validWorkspaces (ws_name w :: volumes) (ws_mount w :: mounts) rest
  end.
Definition within (lo z hi : Z) : bool := (lo <=? z) && (z <=? hi).
Definition validate (r : Recipe) : res unit :=
  check ((rc_version r =? 1) && (src_kind (rc_source r) =s sourceKind) && (src_sha256 (rc_source r) =s sourceSHA256))
        "unsupported recipe version or installer source" ;;?
  check (within 1 (mc_cpus (rc_machine r)) 16 && within 2048 (mc_memory (rc_machine r)) 65536 && within 20 (mc_disk (rc_machine r)) 2048)
        "machine resources are outside supported bounds" ;;?
  check ((length (items (rc_packages r)) <=? 128)%nat && (length (items (rc_steps r)) <=? 128)%nat &&
         (length (items (rc_workspaces r)) <=? 16)%nat && (length (items (rc_launch r)) <=? 16)%nat)
        "recipe item count exceeds bound" ;;?
  check (validPackages [] (items (rc_packages r))) "invalid or duplicate apt package" ;;?
  match validSteps [] (items (rc_steps r)) with
  | None => fail "invalid or duplicate guest step"
  | Some ids => check (validLaunches ids (items (rc_launch r))) "invalid or duplicate launch action"
  end ;;?
  check (validWorkspaces [] [] (items (rc_workspaces r))) "invalid, duplicate or overlapping workspace".

(** ** Decoding and encoding *)

Definition source_field (name : string) (v : json) (s : Source) : res Source :=
  if name =s "kind" then let? x := get_string v (src_kind s) in Ok (mkSource x (src_sha256 s))
  else let? x := get_string v (src_sha256 s) in Ok (mkSource (src_kind s) x).
Definition machine_field (name : string) (v : json) (m : Machine) : res Machine :=
  if name =s "cpus" then let? x := get_int v (mc_cpus m) in Ok (mkMachine x (mc_memory m) (mc_disk m))
  else if name =s "memory_mib" then let? x := get_int v (mc_memory m) in Ok (mkMachine (mc_cpus m) x (mc_disk m))
  else let? x := get_int v (mc_disk m) in Ok (mkMachine (mc_cpus m) (mc_memory m) x).
Definition step_field (name : string) (v : json) (s : Step) : res Step :=
  if name =s "id" then let? x := get_string v (st_id s) in Ok (mkStep x (st_phase s) (st_argv s))
  else if name =s "phase" then let? x := get_string v (st_phase s) in Ok (mkStep (st_id s) x (st_argv s))
  else let? x := decode_slice get_string "" v (st_argv s) in Ok (mkStep (st_id s) (st_phase s) x).
Definition workspace_field (name : string) (v : json) (w : Workspace) : res Workspace :=
  if name =s "name" then let? x := get_string v (ws_name w) in Ok (mkWorkspace x (ws_mount w))
  else let? x := get_string v (ws_mount w) in Ok (mkWorkspace (ws_name w) x).
Definition launch_field (name : string) (v : json) (a : Launch) : res Launch :=
  if name =s "id" then let? x := get_string v (la_id a) in Ok (mkLaunch x (la_argv a))
  else let? x := decode_slice get_string "" v (la_argv a) in Ok (mkLaunch (la_id a) x).
Definition decodeStep : json → Step → res Step := decode_struct ["id"; "phase"; "argv"] step_field.
Definition decodeWorkspace : json → Workspace → res Workspace := decode_struct ["name"; "mount"] workspace_field.
Definition decodeLaunch : json → Launch → res Launch := decode_struct ["id"; "argv"] launch_field.
Definition recipe_field (name : string) (v : json) (r : Recipe) : res Recipe :=
  let '(mkRecipe version source machine packages steps workspaces launch) := r in
  if name =s "version" then let? x := get_int v version in Ok (mkRecipe x source machine packages steps workspaces launch)
  else if name =s "source" then
    let? x := decode_struct ["kind"; "sha256"] source_field v source in Ok (mkRecipe version x machine packages steps workspaces launch)
  else if name =s "machine" then
    let? x := decode_struct ["cpus"; "memory_mib"; "system_disk_gib"] machine_field v machine in
    Ok (mkRecipe version source x packages steps workspaces launch)
  else if name =s "apt_packages" then
    let? x := decode_slice get_string "" v packages in Ok (mkRecipe version source machine x steps workspaces launch)
  else if name =s "steps" then
    let? x := decode_slice decodeStep zeroStep v steps in Ok (mkRecipe version source machine packages x workspaces launch)
  else if name =s "workspaces" then
    let? x := decode_slice decodeWorkspace zeroWorkspace v workspaces in
    Ok (mkRecipe version source machine packages steps x launch)
  else let? x := decode_slice decodeLaunch zeroLaunch v launch in Ok (mkRecipe version source machine packages steps workspaces x).
Definition decodeRecipe : json → Recipe → res Recipe :=
  decode_struct ["version"; "source"; "machine"; "apt_packages"; "steps"; "workspaces"; "launch"] recipe_field.

Definition marshalSource (s : Source) : json := JObj [("kind", jstr (src_kind s)); ("sha256", jstr (src_sha256 s))].
Definition marshalMachine (m : Machine) : json :=
  JObj [("cpus", JNum (mc_cpus m)); ("memory_mib", JNum (mc_memory m)); ("system_disk_gib", JNum (mc_disk m))].
Definition marshalStep (s : Step) : json :=
  JObj [("id", jstr (st_id s)); ("phase", jstr (st_phase s)); ("argv", marshal_slice jstr (st_argv s))].
Definition marshalWorkspace (w : Workspace) : json := JObj [("name", jstr (ws_name w)); ("mount", jstr (ws_mount w))].
Definition marshalLaunch (a : Launch) : json := JObj [("id", jstr (la_id a)); ("argv", marshal_slice jstr (la_argv a))].
Definition marshalRecipe (r : Recipe) : json :=
  JObj [("version", JNum (rc_version r)); ("source", marshalSource (rc_source r)); ("machine", marshalMachine (rc_machine r));
        ("apt_packages", marshal_slice jstr (rc_packages r)); ("steps", marshal_slice marshalStep (rc_steps r));
        ("workspaces", marshal_slice marshalWorkspace (rc_workspaces r)); ("launch", marshal_slice marshalLaunch (rc_launch r))].

(** ** Operations *)

(** The single document of an input without repeated keys. *)
Definition strict_doc (raw : string) : res json :=
  match scan raw with
  | Some [v] => if checkJSONValue v then Ok v else fail "duplicate or invalid object key"
  | _ => fail "recipe must contain one JSON object"
  end.
(** [Load] after the file has been read. *)
Definition LoadBytes (data : string) : res Recipe :=
  check (negb (maxRecipeBytes <? N.of_nat (String.length data))%N) "recipe exceeds its size bound" ;;?
  let? v := strict_doc data in
  let? value := decodeRecipe v zeroRecipe in
  validate value ;;?
  Ok value.

(** An action needs a canonical absolute executable and leaves 4 KiB of the
    64 KiB request for its binding. *)
Definition validateRunnableActionArgv (argv : slice string) : res unit :=
  match items argv with
  | [] => fail "index out of range"
  | executable :: _ =>
      check (canonical_abs executable && (executable ≠s "/") && negb (has_control [] executable))
            "executable must be a canonical absolute guest path" ;;?
      check (negb (60 * 2 ^ 10 <? json_size (marshal_slice jstr argv))%N) "action arguments exceed the bounded request envelope"
  end.
Fixpoint runnableSteps (l : list Step) : res unit :=
  match l with
  | [] => Ok tt
  | s :: rest =>
      check (existsb (String.eqb (st_phase s)) ["prepare"; "once"; "startup"; "reconfigure"]) "recipe phase is unsupported" ;;?
      (if st_phase s ≠s "prepare" then validateRunnableActionArgv (st_argv s) else Ok tt) ;;?
      runnableSteps rest
  end.
Definition ValidateRunnable (value : Recipe) : res unit :=
  validate value ;;?
  runnableSteps (items (rc_steps value)) ;;?
  check (length (items (rc_launch value)) =? 0)%nat "recipe launch actions are unsupported".

(** Missing and empty lists have identical meaning in an intent. *)
Definition normalised (value : Recipe) : Recipe :=
  mkRecipe (rc_version value) (rc_source value) (rc_machine value) (Some (items (rc_packages value)))
    (Some (items (rc_steps value))) (Some (items (rc_workspaces value))) (Some (items (rc_launch value))).
Definition marshalIntent (value : Recipe) : json := JObj [("intent_version", JNum 1); ("recipe", marshalRecipe value)].
Definition CanonicalIntent `{Digests} (value : Recipe) : res (string * string) :=
  validate value ;;?
  let encoded := render (marshalIntent (normalised value)) in
  check (negb (maxRecipeBytes <? N.of_nat (String.length encoded))%N) "canonical recipe intent exceeds its bound" ;;?
  Ok (encoded, sha256 encoded).

Definition envelope_field (name : string) (v : json) (e : Z * Recipe) : res (Z * Recipe) :=
  if name =s "intent_version" then let? x := get_int v e.1 in Ok (x, e.2)
  else let? x := decodeRecipe v e.2 in Ok (e.1, x).
Definition DecodeIntent `{Digests} (raw : string) : res Recipe :=
  check ((0 <? N.of_nat (String.length raw))%N && negb (maxRecipeBytes <? N.of_nat (String.length raw))%N)
        "recipe intent length is invalid" ;;?
  let? v := strict_doc raw in
  let? envelope := decode_struct ["intent_version"; "recipe"] envelope_field v (0, zeroRecipe) in
  check (envelope.1 =? 1) "unsupported recipe intent version" ;;?
  let? canonical := CanonicalIntent envelope.2 in
  check (raw =s canonical.1) "recipe intent is not canonical" ;;?
  Ok envelope.2.

(** The inputs of a reusable base: only the prepare steps, and nil when there
    are none. *)
Definition prepareSteps (value : Recipe) : list Step := filter (λ s, st_phase s = "prepare") (items (rc_steps value)).
Definition PreparationKey `{Digests} (value : Recipe) (guestDefinitionSHA256 : string) : res string :=
  validate value ;;?
  check (Session.lowerSHA256 guestDefinitionSHA256) "guest definition SHA-256 must be 64 lowercase hex characters" ;;?
  Ok (sha256_json (JObj [("key_version", JNum 1); ("guest_definition_sha256", jstr guestDefinitionSHA256);
        ("source", marshalSource (rc_source value)); ("machine", marshalMachine (rc_machine value));
        ("apt_packages", marshal_slice jstr (rc_packages value));
        ("prepare_steps", match prepareSteps value with [] => JNull | l => JArr (map marshalStep l) end)])).
Definition PreparationPayload (value : Recipe) (key : string) : res string :=
  validate value ;;?
  check (Session.lowerSHA256 key) "preparation key must be lowercase SHA-256" ;;?
  let raw := render (JObj [("version", JNum 1); ("preparation_key", jstr key);
        ("apt_packages", marshal_slice jstr (Some (items (rc_packages value))));
        ("steps", JArr (map (λ s, JObj [("id", jstr (st_id s)); ("argv", marshal_slice jstr (Some (items (st_argv s))))]) (prepareSteps value)))]) in
  check (negb (maxRecipeBytes <? N.of_nat (String.length raw))%N) "guest preparation payload exceeds bound" ;;?
  Ok raw.

(** ** Lemmas *)

(** Strings the encoder writes as they are. *)
Definition utf8 (s : string) : Prop := coerce_utf8 s = s.
Lemma get_utf8 s old : utf8 s → get_string (jstr s) old = Ok s.
Proof. intros H. cbn. by rewrite H. Qed.
Record utf8_recipe (r : Recipe) : Prop := {
  u_packages : Forall utf8 (items (rc_packages r));
  u_steps : Forall (λ s, utf8 (st_id s) ∧ utf8 (st_phase s) ∧ Forall utf8 (items (st_argv s)) ∧ st_argv s ≠ None) (items (rc_steps r));
  u_workspaces : Forall (λ w, utf8 (ws_name w) ∧ utf8 (ws_mount w)) (items (rc_workspaces r));
  u_launch : Forall (λ a, utf8 (la_id a) ∧ Forall utf8 (items (la_argv a)) ∧ la_argv a ≠ None) (items (rc_launch r));
}.

Lemma str_all_utf8 f s : (∀ c, f c = true → is_ascii c = true) → str_all f s = true → utf8 s.
Proof. intros Hf Hs. apply coerce_ascii. by eapply str_all_impl. Qed.
Lemma validID_utf8 s : validID s = true → utf8 s.
Proof.
  unfold validID. destruct s as [|c r]; [done|]. intros H. bsimpl. apply (str_all_utf8 id_byte).
  - intros x. unfold id_byte. destruct x as [[] [] [] [] [] [] [] []]; vm_compute; done.
  - cbn [str_all]. unfold id_byte at 1. by rewrite H1, H0.
Qed.
Lemma validPackage_utf8 s : validPackage s = true → utf8 s.
Proof.
  unfold validPackage. destruct s as [|c r]; [done|]. intros H. bsimpl. apply (str_all_utf8 package_byte).
  - intros x. destruct x as [[] [] [] [] [] [] [] []]; vm_compute; done.
  - cbn [str_all]. unfold package_byte at 1. by rewrite H1, H0.
Qed.
Lemma validPhase_utf8 s : validPhase s = true → utf8 s.
Proof. intros H%in_literals. unfold utf8. rewrite !elem_of_cons, elem_of_nil in H. by destruct H as [->|[->|[->|[->|[]]]]]. Qed.

(** What validation says of the parts, as properties of their lists. *)
Lemma validPackages_all seen l : validPackages seen l = true → Forall (λ p, validPackage p = true) l.
Proof. revert seen. induction l as [|p l IH]; intros seen; [constructor|]. cbn. intros H. bsimpl. constructor; eauto. Qed.
Lemma validSteps_all ids l ids' : validSteps ids l = Some ids' →
  Forall (λ s, validID (st_id s) = true ∧ validPhase (st_phase s) = true ∧ validArgv (st_argv s) = true) l.
Proof.
  revert ids. induction l as [|s l IH]; intros ids; [constructor|]. cbn. case_match eqn:Hs; [|done]. intros H. bsimpl.
  constructor; eauto.
Qed.
Lemma validLaunches_all ids l : validLaunches ids l = true → Forall (λ a, validID (la_id a) = true ∧ validArgv (la_argv a) = true) l.
Proof. revert ids. induction l as [|a l IH]; intros ids; [constructor|]. cbn. intros H. bsimpl. constructor; eauto. Qed.
Lemma validWorkspaces_all vs ms l : validWorkspaces vs ms l = true →
  Forall (λ w, validID (ws_name w) = true ∧ validMount (ws_mount w) = true) l.
Proof. revert vs ms. induction l as [|w l IH]; intros vs ms; [constructor|]. cbn. intros H. bsimpl. constructor; eauto. Qed.

Record valid_recipe (r : Recipe) : Prop := {
  v_version : rc_version r = 1;
  v_source : rc_source r = mkSource sourceKind sourceSHA256;
  v_machine : (1 ≤ mc_cpus (rc_machine r) ≤ 16) ∧ (2048 ≤ mc_memory (rc_machine r) ≤ 65536) ∧ (20 ≤ mc_disk (rc_machine r) ≤ 2048);
  v_packages : Forall (λ p, validPackage p = true) (items (rc_packages r));
  v_steps : Forall (λ s, validID (st_id s) = true ∧ validPhase (st_phase s) = true ∧ validArgv (st_argv s) = true) (items (rc_steps r));
  v_workspaces : Forall (λ w, validID (ws_name w) = true ∧ validMount (ws_mount w) = true) (items (rc_workspaces r));
  v_launch : Forall (λ a, validID (la_id a) = true ∧ validArgv (la_argv a) = true) (items (rc_launch r));
}.
Lemma validate_valid r : validate r = Ok tt → valid_recipe r.
Proof.
  unfold validate, within. intros H. res_inv H.
  repeat match goal with H : check _ _ = Ok _ |- _ => apply check_ok in H end. bsimpl.
  destruct (validSteps [] (items (rc_steps r))) as [ids|] eqn:Hs; [|done]. apply check_ok in Ha3.
  repeat match goal with H : (_ =s _) = true |- _ => apply eqs_true in H end.
  constructor; [done| | |by eapply validPackages_all|by eapply validSteps_all|by eapply validWorkspaces_all|by eapply validLaunches_all].
  - destruct (rc_source r). cbn in *. congruence.
  - repeat match goal with H : (_ <=? _) = true |- _ => apply Z.leb_le in H end. lia.
Qed.
Lemma validArgv_some a : validArgv a = true → a ≠ None.
Proof. by destruct a. Qed.

(** The arguments and mounts are the only strings validation leaves open. *)
Record utf8_args (r : Recipe) : Prop := {
  ua_steps : Forall (λ s, Forall utf8 (items (st_argv s))) (items (rc_steps r));
  ua_workspaces : Forall (λ w, utf8 (ws_mount w)) (items (rc_workspaces r));
  ua_launch : Forall (λ a, Forall utf8 (items (la_argv a))) (items (rc_launch r));
}.
Lemma utf8_args_recipe r : valid_recipe r → utf8_args r → utf8_recipe r.
Proof.
  intros V U. constructor.
  - eapply Forall_impl; [exact (v_packages _ V)|]. exact validPackage_utf8.
  - eapply Forall_impl; [exact (proj2 (Forall_and _ _) (conj (v_steps _ V) (ua_steps _ U)))|]. cbn.
    intros s ((Hi & Hp & Ha) & Hu). split_and!; [by apply validID_utf8|by apply validPhase_utf8|done|by apply validArgv_some].
  - eapply Forall_impl; [exact (proj2 (Forall_and _ _) (conj (v_workspaces _ V) (ua_workspaces _ U)))|]. cbn.
    intros w ((Hi & _) & Hu). split; [by apply validID_utf8|done].
  - eapply Forall_impl; [exact (proj2 (Forall_and _ _) (conj (v_launch _ V) (ua_launch _ U)))|]. cbn.
    intros a ((Hi & Ha) & Hu). split_and!; [by apply validID_utf8|done|by apply validArgv_some].
Qed.

(** *** What is written is what is read *)
Lemma decode_elements_map {A} (elem : json → A → res A) zero enc l :
  Forall (λ a, elem (enc a) zero = Ok a) l → decode_elements elem zero (map enc l) [] = Ok l.
Proof. induction 1 as [|a l Ha _ IH]; [done|]. cbn [map decode_elements]. rewrite Ha. cbn [res_bind]. by rewrite IH. Qed.
Lemma decode_slice_map {A} (elem : json → A → res A) zero enc s :
  Forall (λ a, elem (enc a) zero = Ok a) (items s) → decode_slice elem zero (marshal_slice enc s) None = Ok s.
Proof. destruct s as [l|]; [|done]. intros H. cbn [marshal_slice decode_slice items default]. by rewrite decode_elements_map. Qed.
Lemma decode_strings s : Forall utf8 (items s) → decode_slice get_string "" (marshal_slice jstr s) None = Ok s.
Proof.
  intros H. apply decode_slice_map. eapply Forall_impl; [exact H|]. intros x Hx. by apply get_utf8.
Qed.

(** Evaluate one decoded object whose keys are known. *)
Ltac struct_step := cbn [decode_struct struct_loop]; 
  repeat (match goal with |- context [field_for ?ns ?k] => let v := eval vm_compute in (field_for ns k) in change (field_for ns k) with v end; cbn [res_bind struct_loop]).

Ltac lenient_step := cbn [unmarshal_struct lenient_loop];
  repeat (match goal with |- context [field_for ?ns ?k] => let v := eval vm_compute in (field_for ns k) in change (field_for ns k) with v end; cbn [res_bind lenient_loop]).

Lemma decode_marshalStep s : utf8 (st_id s) → utf8 (st_phase s) → Forall utf8 (items (st_argv s)) →
  decodeStep (marshalStep s) zeroStep = Ok s.
Proof.
  intros Hi Hp Ha. destruct s as [i p a]. cbn in Hi, Hp, Ha. unfold decodeStep, marshalStep. cbn [st_id st_phase st_argv].
  struct_step. unfold step_field. cbn [String.eqb Ascii.eqb Bool.eqb zeroStep].
  rewrite get_utf8 by done. cbn [res_bind st_id st_phase st_argv]. rewrite get_utf8 by done. cbn [res_bind st_id st_phase st_argv].
  by rewrite decode_strings.
Qed.
Lemma decode_marshalWorkspace w : utf8 (ws_name w) → utf8 (ws_mount w) → decodeWorkspace (marshalWorkspace w) zeroWorkspace = Ok w.
Proof.
  intros Hn Hm. destruct w as [n m]. cbn in Hn, Hm. unfold decodeWorkspace, marshalWorkspace. cbn [ws_name ws_mount].
  struct_step. unfold workspace_field. cbn [String.eqb Ascii.eqb Bool.eqb zeroWorkspace].
  rewrite get_utf8 by done. cbn [res_bind ws_name ws_mount]. by rewrite get_utf8.
Qed.
Lemma decode_marshalLaunch a : utf8 (la_id a) → Forall utf8 (items (la_argv a)) → decodeLaunch (marshalLaunch a) zeroLaunch = Ok a.
Proof.
  intros Hi Ha. destruct a as [i a]. cbn in Hi, Ha. unfold decodeLaunch, marshalLaunch. cbn [la_id la_argv].
  struct_step. unfold launch_field. cbn [String.eqb Ascii.eqb Bool.eqb zeroLaunch].
  rewrite get_utf8 by done. cbn [res_bind la_id la_argv]. by rewrite decode_strings.
Qed.
Lemma small_int z : - 2 ^ 32 ≤ z ≤ 2 ^ 32 → int64_ok z = true.
Proof. intros H. unfold int64_ok. apply andb_true_iff. split; [apply Z.leb_le|apply Z.ltb_lt]; lia. Qed.
Lemma decode_marshalRecipe r : valid_recipe r → utf8_recipe r → decodeRecipe (marshalRecipe r) zeroRecipe = Ok r.
Proof.
  intros V U. destruct V as [Hv Hs Hm _ _ _ _], U as [Hp Hst Hw Hl].
  destruct r as [version source [c m d] packages steps workspaces launch]. cbn in Hv, Hs, Hm, Hp, Hst, Hw, Hl. subst version source.
  unfold decodeRecipe, marshalRecipe. cbn [rc_version rc_source rc_machine rc_packages rc_steps rc_workspaces rc_launch].
  struct_step. unfold recipe_field.
  cbn [zeroRecipe String.eqb Ascii.eqb Bool.eqb get_int]. rewrite small_int by lia. cbn [res_bind].
  match goal with |- context [decode_struct ?ns source_field ?v ?o] =>
    assert (decode_struct ns source_field v o = Ok (mkSource sourceKind sourceSHA256)) as -> by reflexivity end.
  cbn [res_bind]. unfold marshalMachine. cbn [mc_cpus mc_memory mc_disk].
  match goal with |- context [decode_struct ?ns machine_field ?v ?o] =>
    assert (decode_struct ns machine_field v o = Ok (mkMachine c m d)) as -> end.
  { struct_step. unfold machine_field. cbn [String.eqb Ascii.eqb Bool.eqb get_int zeroMachine mc_cpus mc_memory mc_disk].
    rewrite !small_int by lia. done. }
  cbn [res_bind]. rewrite decode_strings by done. cbn [res_bind].
  rewrite decode_slice_map by (eapply Forall_impl; [exact Hst|]; intros s (? & ? & ? & _); by apply decode_marshalStep). cbn [res_bind].
  rewrite decode_slice_map by (eapply Forall_impl; [exact Hw|]; intros w [? ?]; by apply decode_marshalWorkspace). cbn [res_bind].
  rewrite decode_slice_map by (eapply Forall_impl; [exact Hl|]; intros a (? & ? & _); by apply decode_marshalLaunch). done.
Qed.

Lemma printable_strings s : Forall utf8 (items s) → printable (marshal_slice jstr s) = true.
Proof.
  destruct s as [l|]; [|done]. cbn [items default marshal_slice printable]. intros H. apply forallb_forall.
  intros v (x & <- & Hx)%in_map_iff. rewrite Forall_forall in H. assert (utf8 x) as Hu by (by apply H, list_elem_of_In).
  cbn. by apply eqs_true.
Qed.
Lemma printable_slice {A} (enc : A → json) s : Forall (λ a, printable (enc a) = true) (items s) → printable (marshal_slice enc s) = true.
Proof.
  destruct s as [l|]; [|done]. cbn [items default marshal_slice printable]. intros H. apply forallb_forall.
  intros v (x & <- & Hx)%in_map_iff. rewrite Forall_forall in H. by apply H, list_elem_of_In.
Qed.
Lemma keys_slice {A} (enc : A → json) s : (∀ a, checkJSONValue (enc a) = true) → checkJSONValue (marshal_slice enc s) = true.
Proof.
  destruct s as [l|]; [|done]. cbn [marshal_slice checkJSONValue]. intros H. apply forallb_forall. by intros v (x & <- & Hx)%in_map_iff.
Qed.
Lemma keys_strings s : checkJSONValue (marshal_slice jstr s) = true.
Proof. by apply keys_slice. Qed.
Lemma keys_intent r : checkJSONValue (marshalIntent r) = true.
Proof.
  assert (checkJSONValue (marshalRecipe r) = true) as Hr.
  { unfold marshalRecipe. cbn [checkJSONValue map fst snd forallb].
    rewrite keys_strings, !keys_slice; [done|..].
    - intros a. cbn [marshalLaunch checkJSONValue map fst snd forallb]. by rewrite keys_strings.
    - intros w. done.
    - intros s. cbn [marshalStep checkJSONValue map fst snd forallb]. by rewrite keys_strings. }
  unfold marshalIntent. cbn [checkJSONValue map fst snd forallb]. by rewrite Hr.
Qed.
Lemma printable_field k v : utf8 k → printable v = true → ((coerce_utf8 (k, v).1 =s (k, v).1) && printable (k, v).2) = true.
Proof. intros Hk Hv. cbn. rewrite Hv, Hk. by rewrite eqs_refl. Qed.
Ltac printable_obj := apply forallb_forall; intros kv Hkv; cbn [In] in Hkv;
  repeat (destruct Hkv as [<-|Hkv]; [apply printable_field; [reflexivity|]|]); [..|destruct Hkv].
Lemma printable_jstr s : utf8 s → printable (jstr s) = true.
Proof. intros H. cbn. by apply eqs_true. Qed.
Lemma printable_intent r : valid_recipe r → utf8_recipe r → printable (marshalIntent r) = true.
Proof.
  intros V U. cbn [marshalIntent printable]. printable_obj; [done|]. cbn [marshalRecipe printable]. printable_obj.
  - done.
  - rewrite (v_source _ V). done.
  - done.
  - apply printable_strings, U.
  - apply printable_slice. eapply Forall_impl; [exact (u_steps _ U)|]. intros s (? & ? & ? & _).
    cbn [marshalStep printable]. printable_obj; [by apply printable_jstr..|by apply printable_strings].
  - apply printable_slice. eapply Forall_impl; [exact (u_workspaces _ U)|]. intros w (? & ?).
    cbn [marshalWorkspace printable]. printable_obj; by apply printable_jstr.
  - apply printable_slice. eapply Forall_impl; [exact (u_launch _ U)|]. intros a (? & ? & _).
    cbn [marshalLaunch printable]. printable_obj; [by apply printable_jstr|by apply printable_strings].
Qed.

Lemma valid_normalised r : valid_recipe r → valid_recipe (normalised r).
Proof. intros []. by constructor. Qed.
Lemma utf8_normalised r : utf8_recipe r → utf8_recipe (normalised r).
Proof. intros []. by constructor. Qed.

(** ** Properties *)

(** A session's intent and its bytes determine each other: the
    canonical bytes of any valid recipe whose arguments and mounts are UTF-8 are
    decoded back to that recipe (missing lists read as empty ones); and whatever
    bytes the decoder accepts are the canonical bytes of what it returns, so no
    two different byte strings are the same intent and a digest names one recipe. *)
Theorem intent_roundtrip `{Digests} (value : Recipe) (raw digest : string) :
  (utf8_args value → CanonicalIntent value = Ok (raw, digest) →
     DecodeIntent raw = Ok (normalised value) ∧ digest = sha256 raw ∧ (N.of_nat (String.length raw) ≤ maxRecipeBytes)%N) ∧
  (DecodeIntent raw = Ok value → CanonicalIntent value = Ok (raw, sha256 raw)).
Proof.
  split.
  - intros U. unfold CanonicalIntent at 1. intros Hc. res_inv Hc. destruct a. apply validate_valid in Ha as V.
    apply check_ok, negb_true_iff in Ha0. set (bytes := render (marshalIntent (normalised value))) in *.
    assert (raw = bytes ∧ digest = sha256 bytes) as [-> ->] by (split; congruence). clear Hc.
    pose proof (utf8_normalised _ (utf8_args_recipe _ V U)) as Un. pose proof (valid_normalised _ V) as Vn.
    split_and!; [|done|by apply N.ltb_ge].
    unfold DecodeIntent. rewrite Ha0.
    assert ((0 <? N.of_nat (String.length bytes))%N = true) as -> by done.
    unfold strict_doc. 
    assert (scan bytes = Some [marshalIntent (normalised value)]) as ->.
    { rewrite <-(str_app_nil bytes). apply scan_render; [by apply printable_intent|by left]. }
    rewrite keys_intent. cbn [negb andb check res_bind]. unfold marshalIntent. struct_step. unfold envelope_field.
    cbn [String.eqb Ascii.eqb Bool.eqb get_int res_bind fst snd]. 
    assert (int64_ok 1 = true) as -> by done. cbn [res_bind fst snd].
    rewrite decode_marshalRecipe by done. cbn [res_bind fst snd Z.eqb check].
    unfold CanonicalIntent. change (validate (normalised value)) with (validate value). rewrite Ha. cbn [res_bind].
    change (normalised (normalised value)) with (normalised value). fold bytes. rewrite Ha0. cbn [negb check res_bind fst].
    by rewrite eqs_refl.
  - unfold DecodeIntent. intros Hd. res_inv Hd. apply check_ok, eqs_true in Ha4. injection Hd as <-.
    rewrite Ha3. destruct a3 as [enc dig]. cbn in Ha4. subst enc. unfold CanonicalIntent in Ha3. res_inv Ha3.
    do 2 f_equal. congruence.
Qed.

#[local] Instance labDigests : Digests := {| sha256 s := s |}.
Definition example_recipe : Recipe :=
  mkRecipe 1 (mkSource sourceKind sourceSHA256) (mkMachine 4 8192 64) (Some ["git"]) 
    (Some [mkStep "setup" "once" (Some ["/usr/bin/true"; "a b"])]) (Some [mkWorkspace "code" "/home/boxwarden/workspaces/code"]) None.
Lemma intent_roundtrip_witness :
  DecodeIntent (render (marshalIntent (normalised example_recipe))) = Ok (normalised example_recipe).
Proof.
  eapply (proj1 (intent_roundtrip example_recipe _ (render (marshalIntent (normalised example_recipe))))); [|reflexivity].
  constructor; repeat constructor; reflexivity.
Defined.

(** The duplicate check compares keys exactly, the decoder folds their case: a
    second spelling of a field is accepted and silently replaces the first. *)
Definition two_spellings : string :=
  render (JObj (match marshalRecipe example_recipe with JObj fs => fs | _ => [] end ++
    [("Machine", marshalMachine (mkMachine 16 65536 2048)); ("STEPS", JNull)])).
Lemma second_spelling_wins :
  LoadBytes two_spellings = Ok (mkRecipe 1 (rc_source example_recipe) (mkMachine 16 65536 2048) (rc_packages example_recipe)
    None (rc_workspaces example_recipe) None).
Proof. vm_compute. reflexivity. Qed.

(** A missing and an empty package list, one intent, are two preparation keys. *)
Definition no_packages (s : slice string) : Recipe :=
  mkRecipe 1 (rc_source example_recipe) (rc_machine example_recipe) s None None None.
Lemma empty_list_changes_key :
  CanonicalIntent (no_packages None) = CanonicalIntent (no_packages (Some [])) ∧
  PreparationKey (no_packages None) sourceSHA256 ≠ PreparationKey (no_packages (Some [])) sourceSHA256.
Proof. split; [reflexivity|]. vm_compute. discriminate. Qed.

(** Reading a recipe terminates: the scanner that the strict reader runs on
    an input of n bytes needs no more than n + 1 rounds. Any larger allowance
    gives the same result, the reader accepts exactly the inputs that some
    allowance scans to one value without repeated keys, and so it never refuses
    an input because its recursion was cut short. *)
Theorem recipe_reading_terminates (data : string) (rounds : nat) (Hr : (String.length data < rounds)%nat) :
  scan_docs rounds data = scan data ∧
  (∀ v, strict_doc data = Ok v ↔ checkJSONValue v = true ∧ ∃ n, scan_docs n data = Some [v]) ∧
  (scan_docs rounds data = None → ∀ n, scan_docs n data = None).
Proof.
  assert (scan_docs rounds data = scan data) as Hs by (apply scan_docs_fuel; lia). split_and!; [done|intros v; split|].
  - unfold strict_doc. destruct (scan data) as [[|w [|]]|] eqn:E; try done. destruct (checkJSONValue w) eqn:Ec; [|done].
    intros [= <-]. split; [done|]. by exists (S (String.length data)).
  - intros [Hv [n Hn%scan_docs_reads]]. unfold strict_doc. by rewrite Hn, Hv.
  - rewrite Hs. intros Hnone n. destruct (scan_docs n data) as [l|] eqn:E; [|done]. apply scan_docs_reads in E. congruence.
Qed.
Lemma recipe_reading_terminates_witness :
  let data := render (marshalRecipe example_recipe) in
  strict_doc data = Ok (marshalRecipe example_recipe) ∧ ∃ n, scan_docs n data = Some [marshalRecipe example_recipe].
Proof.
  intros data. assert (strict_doc data = Ok (marshalRecipe example_recipe)) as H by (vm_compute; reflexivity). split; [exact H|].
  exact (proj2 (proj1 (proj1 (proj2 (recipe_reading_terminates data (S (String.length data)) ltac:(lia))) _) H)).
Defined.
