(* ===== verification/Selection.v ===== *)
(** The selection an import is pinned to (src/internal/importx/selection.go):
    literal excluded paths and an optional digest, frozen in a project bookmark
    as its one canonical encoding; and what the selection leaves of a tree. *)
From S2P Require Import Prelude Ids Json JsonText Recipe.

Definition MaxExclusions : nat := 32.
Definition maxSelectionBytes : nat := 16 * 2 ^ 10.
Definition maxPathBytes : nat := 255.
Definition maxDepth : nat := 8.

Record Selection := mkSelection { sel_excludes : slice string; sel_digest : string }.
#[export] Instance Selection_eq_dec : EqDecision Selection.
Proof. solve_decision. Defined.
Definition zeroSelection : Selection := mkSelection None "".

(** ** Normalization *)

Definition validDigest (value : string) : bool := (String.length value =? 64)%nat && str_all is_lower_hex value.
(** [path.Clean(name) == name] of a relative name: no empty element, no [.],
    and [..] only at the front, or the whole is [.]. *)
Fixpoint clean_rel (front : bool) (elems : list string) : bool :=
  match elems with
  | [] => true
  | e :: rest => (e ≠s "") && (e ≠s ".") && ((e ≠s "..") || front) && clean_rel (front && (e =s "..")) rest
  end.
Definition canonical_rel (name : string) : bool := (name =s ".") || clean_rel true (split_slash "" name).
Definition component_byte (c : ascii) : bool := isAlphaNumeric c || existsb (Ascii.eqb c) ["."; "_"; "-"]%char.
Definition safe_component (c : string) : bool :=
  clean_elem c && negb (63 <? String.length c)%nat && str_all component_byte c.
Definition safe_relative (name : string) : bool :=
  (name ≠s "") && negb (maxPathBytes <? String.length name)%nat && negb (has_prefix "/" name) && canonical_rel name &&
  negb (maxDepth + 1 <? length (split_slash "" name))%nat && forallb safe_component (split_slash "" name).
(** The path is an excluded one, or below it. *)
Definition excluded_by (prior name : string) : bool := (name =s prior) || has_prefix (prior +:+ "/") name.
Fixpoint checkExcludes (priors names : list string) : bool :=
  match names with
  | [] => true
  | name :: rest => safe_relative name && negb (existsb (λ prior, excluded_by prior name) priors) && checkExcludes (priors ++ [name]) rest
  end.
Definition normalizeSelection (input : Selection) : res Selection :=
  check (negb (MaxExclusions <? length (items (sel_excludes input)))%nat && ((sel_digest input =s "") || validDigest (sel_digest input)))
        "invalid import exclusion count or expected digest" ;;?
  let excludes := sort_by id (items (sel_excludes input)) in
  check (checkExcludes [] excludes) "invalid, duplicate or overlapping import exclusion" ;;?
  Ok (mkSelection (Some excludes) (sel_digest input)).

(** ** The canonical encoding *)

Definition marshalSelection (s : Selection) : json :=
  JObj [("excludes", marshal_slice jstr (sel_excludes s)); ("expected_digest", jstr (sel_digest s))].
Definition selection_field (name : string) (v : json) (s : Selection) : res Selection :=
  if name =s "excludes" then let? x := decode_slice get_string "" v (sel_excludes s) in Ok (mkSelection x (sel_digest s))
  else let? x := get_string v (sel_digest s) in Ok (mkSelection (sel_excludes s) x).
Definition decodeSelection : json → Selection → res Selection :=
  unmarshal_struct ["excludes"; "expected_digest"] selection_field.
Definition CanonicalSelection (input : Selection) : res string :=
  let? s := normalizeSelection input in
  let raw := render (marshalSelection s) in
  check (negb (maxSelectionBytes <? String.length raw)%nat) "import selection exceeds bound" ;;?
  Ok raw.
Definition ParseSelection (encoded : string) : res Selection :=
  if encoded =s "" then Ok zeroSelection
  else
    check (negb (maxSelectionBytes <? String.length encoded)%nat) "import selection exceeds bound" ;;?
    let? v := match scan encoded with Some [v] => Ok v | _ => fail "malformed JSON" end in
    let? s := decodeSelection v zeroSelection in
    let? canonical := CanonicalSelection s in
    check (canonical =s encoded) "noncanonical import selection" ;;?
    normalizeSelection s.

(** ** Lemmas *)

Lemma component_byte_ascii c : component_byte c = true → is_ascii c = true.
Proof. destruct c as [[] [] [] [] [] [] [] []]; vm_compute; done. Qed.
Lemma lower_hex_ascii c : is_lower_hex c = true → is_ascii c = true.
Proof. destruct c as [[] [] [] [] [] [] [] []]; vm_compute; done. Qed.
(** The bytes of a path are those of its elements and the slashes. *)
Lemma split_slash_all (f : ascii → bool) acc s : forallb (str_all f) (split_slash acc s) = true → f "/"%char = true →
  str_all f (acc +:+ s) = true.
Proof.
  intros H Hf. revert acc H. induction s as [|c s IH]; intros acc H; cbn [split_slash] in H.
  - rewrite str_app_nil. cbn in H. by rewrite andb_true_r in H.
  - destruct (Ascii.eqb c "/") eqn:Ec.
    + apply Ascii.eqb_eq in Ec as ->. cbn [forallb] in H. apply andb_true_iff in H as [Ha Hr].
      rewrite str_all_app, Ha. cbn [str_all]. rewrite Hf. by apply (IH "").
    + specialize (IH _ H). by rewrite str_app_assoc in IH.
Qed.
Lemma safe_relative_ascii name : safe_relative name = true → str_all is_ascii name = true.
Proof.
  unfold safe_relative. intros H. bsimpl.
  apply (str_all_impl (λ c, component_byte c || Ascii.eqb c "/")).
  - intros c. rewrite orb_true_iff. intros [Hc|Hc]; [by apply component_byte_ascii|]. by apply Ascii.eqb_eq in Hc as ->.
  - apply (split_slash_all _ ""); [|done]. apply forallb_forall. intros e He.
    assert (safe_component e = true) as Hs by (eapply forallb_forall; eassumption).
    unfold safe_component in Hs. bsimpl. apply (str_all_impl component_byte); [|done]. by intros c ->.
Qed.
Lemma safe_relative_utf8 name : safe_relative name = true → utf8 name.
Proof. intros H. by apply coerce_ascii, safe_relative_ascii. Qed.
Lemma checkExcludes_all priors names : checkExcludes priors names = true → Forall (λ n, safe_relative n = true) names.
Proof.
  revert priors. induction names as [|n names IH]; intros priors H; [done|]. cbn [checkExcludes] in H. bsimpl. constructor; [done|by eapply IH].
Qed.
#[export] Instance key_le_id_antisymm : AntiSymm (=) (key_le id).
Proof. intros a b. apply str_le_antisymm. Qed.
Lemma sort_by_idem l : sort_by id (sort_by id l) = sort_by id l.
Proof.
  apply (StronglySorted_unique (key_le id)); [apply sort_by_sorted|apply sort_by_sorted|]. apply sort_by_perm.
Qed.

(** A normalized selection: sorted, safe, without overlaps. *)
Record normal_selection (s : Selection) : Prop := {
  ns_some : sel_excludes s ≠ None;
  ns_sorted : sort_by id (items (sel_excludes s)) = items (sel_excludes s);
  ns_again : normalizeSelection s = Ok s;
  ns_utf8 : Forall utf8 (items (sel_excludes s)) ∧ utf8 (sel_digest s);
}.
Lemma normalizeSelection_ok s n : normalizeSelection s = Ok n → normal_selection n.
Proof.
  unfold normalizeSelection. intros H. res_inv H. apply check_ok in Ha, Ha0. injection H as <-.
  rewrite andb_true_iff in Ha. destruct Ha as [Hlen Hdig].
  constructor; cbn [sel_excludes sel_digest items default].
  - done.
  - apply sort_by_idem.
  - unfold normalizeSelection. cbn [sel_excludes sel_digest]. change (items (Some (sort_by id (items (sel_excludes s))))) with (sort_by id (items (sel_excludes s))). rewrite sort_by_idem, Ha0.
    assert (length (sort_by id (items (sel_excludes s))) = length (items (sel_excludes s))) as -> by apply Permutation_length, sort_by_perm.
    by rewrite Hlen, Hdig.
  - split; [eapply Forall_impl; [by eapply checkExcludes_all|]; apply safe_relative_utf8|].
    apply orb_true_iff in Hdig as [Hd|Hd]; [apply eqs_true in Hd as ->; done|]. unfold validDigest in Hd. bsimpl.
    apply (str_all_utf8 is_lower_hex); [apply lower_hex_ascii|done].
Qed.
Lemma decode_marshalSelection s : Forall utf8 (items (sel_excludes s)) → utf8 (sel_digest s) →
  decodeSelection (marshalSelection s) zeroSelection = Ok s.
Proof.
  intros He Hd. destruct s as [e d]. cbn in He, Hd. unfold decodeSelection, marshalSelection. cbn [sel_excludes sel_digest unmarshal_struct].
  lenient_step.
  unfold selection_field. cbn [String.eqb Ascii.eqb Bool.eqb zeroSelection sel_excludes sel_digest]. rewrite decode_strings by done. cbn [res_bind].
  cbn [sel_excludes sel_digest]. by rewrite get_utf8.
Qed.
Lemma printable_selection s : Forall utf8 (items (sel_excludes s)) → utf8 (sel_digest s) → printable (marshalSelection s) = true.
Proof. intros He Hd. cbn [marshalSelection printable]. printable_obj; [by apply printable_strings|by apply printable_jstr]. Qed.

(** The encoding of a selection is ASCII text. *)
Lemma escape_byte_ascii c : is_ascii c = true → str_all is_ascii (escape_byte c) = true.
Proof. destruct c as [[] [] [] [] [] [] [] []]; vm_compute; done. Qed.
Lemma escape_ascii s : str_all is_ascii s = true → str_all is_ascii (escape s) = true.
Proof.
  induction s as [|c s IH]; [done|]. cbn [str_all]. intros H. bsimpl. cbn [escape].
  assert (byte_in 0 0x7F c = true) as -> by done. rewrite str_all_app, escape_byte_ascii by done. by apply IH.
Qed.
Lemma render_string_ascii s : str_all is_ascii s = true → str_all is_ascii (render_string s) = true.
Proof. intros H. unfold render_string. cbn [str_all]. rewrite str_all_app, escape_ascii by done. done. Qed.
Lemma commas_ascii l : Forall (λ s, str_all is_ascii s = true) l → str_all is_ascii (commas l) = true.
Proof.
  induction 1 as [|a l Ha Hl IH]; [done|]. destruct l as [|b l].
  - cbn [commas foldr]. by rewrite str_app_nil.
  - rewrite commas_cons, str_all_app, Ha. cbn [str_all]. by rewrite IH.
Qed.
Lemma ParseSelection_utf8 encoded s : ParseSelection encoded = Ok s → utf8 encoded.
Proof.
  unfold ParseSelection. destruct (encoded =s "") eqn:Ee; [by apply eqs_true in Ee as ->|]. intros H. res_inv H.
  apply check_ok, eqs_true in Ha3. subst a2. unfold CanonicalSelection in Ha2. res_inv Ha2.
  assert (encoded = render (marshalSelection a2)) as -> by congruence. clear -Ha3.
  unfold normalizeSelection in Ha3. res_inv Ha3. apply check_ok in Ha, Ha0. injection Ha3 as <-.
  apply coerce_ascii. apply checkExcludes_all in Ha0. unfold marshalSelection. cbn [render sel_excludes sel_digest marshal_slice map jstr fst snd].
  cbn [str_all]. rewrite str_all_app, commas_ascii; [done|]. repeat constructor.
  - rewrite str_all_app, render_string_ascii by done. cbn [str_all]. rewrite str_all_app, commas_ascii; [done|].
    rewrite map_map. apply Forall_map. eapply Forall_impl; [exact Ha0|]. intros x Hx. by apply render_string_ascii, safe_relative_ascii.
  - rewrite str_all_app, render_string_ascii by done. apply render_string_ascii.
    apply andb_true_iff in Ha as [_ [Hd|Hd]%orb_true_iff]; [by apply eqs_true in Hd as ->|].
    unfold validDigest in Hd. bsimpl. eapply str_all_impl; [|eassumption]. apply lower_hex_ascii.
Qed.

(** ** Properties *)

(** A frozen import selection and its text determine each other: every
    selection that normalizes is encoded as text that parses to exactly its
    normalized form, whatever order its exclusions were given in; and the only
    nonempty texts that parse are the canonical encodings of what they parse to,
    so no two texts freeze the same selection. *)
Theorem selection_roundtrip (s : Selection) (encoded : string) :
  (CanonicalSelection s = Ok encoded → ∃ n, normalizeSelection s = Ok n ∧ ParseSelection encoded = Ok n) ∧
  (ParseSelection encoded = Ok s → encoded ≠ "" → normalizeSelection s = Ok s ∧ CanonicalSelection s = Ok encoded).
Proof.
  assert (∀ n, normal_selection n → (String.length (render (marshalSelection n)) ≤ maxSelectionBytes)%nat →
    CanonicalSelection n = Ok (render (marshalSelection n))) as Hcanon.
  { intros n [_ _ Hn _] Hl. unfold CanonicalSelection. rewrite Hn. cbn [res_bind].
    assert ((maxSelectionBytes <? String.length (render (marshalSelection n)))%nat = false) as -> by by apply Nat.ltb_ge. done. }
  split.
  - unfold CanonicalSelection at 1. intros H. res_inv H. apply check_ok, negb_true_iff in Ha0.
    assert (encoded = render (marshalSelection a)) as -> by congruence. clear H. apply normalizeSelection_ok in Ha as Hn. exists a. split; [done|]. apply Nat.ltb_ge in Ha0 as Hl.
    unfold ParseSelection. rewrite Ha0.
    assert ((render (marshalSelection a) =s "") = false) as -> by done. cbn [negb check res_bind].
    destruct (ns_utf8 _ Hn) as [He Hd].
    assert (scan (render (marshalSelection a)) = Some [marshalSelection a]) as ->.
    { rewrite <-(str_app_nil (render _)). apply scan_render; [by apply printable_selection|by left]. }
    cbn [res_bind]. rewrite decode_marshalSelection by done. cbn [res_bind]. rewrite Hcanon by done. cbn [res_bind].
    rewrite eqs_refl. apply Hn.
  - unfold ParseSelection. destruct (encoded =s "") eqn:Ee; [by apply eqs_true in Ee|]. intros H _. res_inv H.
    apply check_ok, eqs_true in Ha3. subst a2. apply normalizeSelection_ok in H as Hn. split; [apply Hn|].
    unfold CanonicalSelection in Ha2. rewrite H in Ha2. cbn [res_bind] in Ha2. res_inv Ha2. apply check_ok, negb_true_iff, Nat.ltb_ge in Ha3.
    assert (encoded = render (marshalSelection s)) as -> by congruence. by apply Hcanon.
Qed.
Lemma selection_roundtrip_witness :
  ∃ encoded, CanonicalSelection (mkSelection (Some ["node_modules"; ".git"]) "") = Ok encoded ∧
    ParseSelection encoded = Ok (mkSelection (Some [".git"; "node_modules"]) "").
Proof.
  eexists. split; [reflexivity|].
  destruct (proj1 (selection_roundtrip (mkSelection (Some ["node_modules"; ".git"]) "") _) eq_refl) as (n & Hn & Hp).
  vm_compute in Hn. injection Hn as <-. exact Hp.
Defined.
