(* ===== verification/GuestProto.v ===== *)
(** The guest protocol (src/internal/guestproto): the canonical action request
    the host derives from a stored recipe and the receipt the guest answers with
    (action.go), read from and written to their exact bytes, with the field
    validators of protocol.go they use. *)
From S2P Require Import Prelude Ids Json JsonText Recipe.

Definition Version : Z := 1.
Definition MaxRequestBytes : N := 64 * 2 ^ 10.
Definition MaxResponseBytes : N := 64 * 2 ^ 10.
Definition maxNonceBytes : nat := 128.
Definition MaxActionRequestBytes : N := 64 * 2 ^ 10.
Definition MaxActionReceiptBytes : N := 4 * 2 ^ 10.

(** ** Field validators *)

Definition token_byte (c : ascii) : bool := isAlphaNumeric c || existsb (Ascii.eqb c) ["-"; "_"; "."; ":"]%char.
Definition validToken (value : string) (minimum maximum : nat) : bool :=
  negb ((String.length value <? minimum)%nat || (maximum <? String.length value)%nat) && str_all token_byte value.
Definition validUUID (value : string) : bool := (String.length value =? 36)%nat && uuid_loop 0 value.
Definition zone_byte (c : ascii) : bool := isAlphaNumeric c || existsb (Ascii.eqb c) ["/"; "_"; "-"; "+"]%char.
Definition validZone (value : string) : bool :=
  negb ((String.length value =? 0)%nat || (127 <? String.length value)%nat || str_contains ".." value) && str_all zone_byte value.
Definition validPackageName (value : string) : bool :=
  match value with
  | EmptyString => false
  | String c rest => negb (128 <? String.length value)%nat && is_lower c && str_all package_byte rest
  end.
Definition workspaces_prefix : string := "/home/boxwarden/workspaces/".
Definition validWorkspacePath (path : string) : bool :=
  match strip_prefix workspaces_prefix path with
  | Some (String c rest as name) => negb (63 <? String.length name)%nat && is_lower c && str_all lower_digit rest
  | _ => false
  end.
Definition actionID (value : string) : bool :=
  match value with
  | EmptyString => false
  | String c rest => negb (64 <? String.length value)%nat && is_lower c && str_all id_byte rest
  end.
Definition actionSHA256 (value : string) : bool := (String.length value =? 64)%nat && str_all is_lower_hex value.
Definition lowerHex64 (value : string) : bool := (String.length value =? 64)%nat && str_all is_lower_hex value.
Definition validFingerprint (value : string) : bool := has_prefix "SHA256:" value && (String.length value =? 50)%nat.
Definition derivedPrincipal (session : string) : string := "boxwarden-session-" +:+ session.

(** ** Messages *)

Record Association := mkAssociation { as_domain : string; as_session : string; as_kind : string; as_object : string }.
#[export] Instance Association_eq_dec : EqDecision Association.
Proof. solve_decision. Defined.
Definition Association_valid (a : Association) : bool :=
  validToken (as_domain a) 1 63 && validUUID (as_session a) && validToken (as_kind a) 1 63 && validToken (as_object a) 1 255.

Record ActionRequest := mkActionRequest {
  aq_version : Z; aq_association : Association; aq_generation : string; aq_recipe : string;
  aq_action : string; aq_phase : string; aq_attempt : string; aq_argv : slice string }.
Record ActionReceipt := mkActionReceipt {
  ar_version : Z; ar_association : Association; ar_generation : string; ar_recipe : string;
  ar_action : string; ar_phase : string; ar_attempt : string; ar_request : string; ar_state : string }.
#[export] Instance ActionRequest_eq_dec : EqDecision ActionRequest.
Proof. solve_decision. Defined.
#[export] Instance ActionReceipt_eq_dec : EqDecision ActionReceipt.
Proof. solve_decision. Defined.

Definition nil_uuid : string := "00000000-0000-0000-0000-000000000000".
(** One element of the argument loop. *)
Definition request_arg (index : nat) (arg : string) : bool :=
  negb (65536 <? N.of_nat (String.length arg))%N && negb (has_control ["010"; "009"]%char arg) &&
  negb ((index =? 0)%nat && has_control [] arg).
Definition Validate (r : ActionRequest) : res unit :=
  check ((aq_version r =? Version) && Association_valid (aq_association r) && (as_kind (aq_association r) =s "tart") &&
         validUUID (aq_generation r) && validUUID (aq_attempt r) && (aq_attempt r ≠s nil_uuid) &&
         actionSHA256 (aq_recipe r) && actionID (aq_action r)) "invalid action request binding" ;;?
  check (existsb (String.eqb (aq_phase r)) ["once"; "reconfigure"; "startup"; "launch"]) "invalid action phase" ;;?
  match items (aq_argv r) with
  | [] => fail "invalid action executable"
  | (executable :: _) as argv =>
      check (negb (32 <? length argv)%nat && canonical_abs executable && (executable ≠s "/")) "invalid action executable" ;;?
      check (forallb id (imap request_arg argv)) "invalid action argument"
  end.

(** *** Encoding: the association's fields are inlined *)
Definition marshalAssociation (a : Association) : list (string * json) :=
  [("domain", jstr (as_domain a)); ("session_id", jstr (as_session a)); ("backend_kind", jstr (as_kind a)); ("backend_object", jstr (as_object a))].
Definition marshalRequest (r : ActionRequest) : json :=
  JObj (("version", JNum (aq_version r)) :: marshalAssociation (aq_association r) ++
    [("generation", jstr (aq_generation r)); ("recipe_digest", jstr (aq_recipe r)); ("action_id", jstr (aq_action r));
     ("action_phase", jstr (aq_phase r)); ("attempt_id", jstr (aq_attempt r)); ("argv", marshal_slice jstr (aq_argv r))]).
Definition marshalReceipt (r : ActionReceipt) : json :=
  JObj (("version", JNum (ar_version r)) :: marshalAssociation (ar_association r) ++
    [("generation", jstr (ar_generation r)); ("recipe_digest", jstr (ar_recipe r)); ("action_id", jstr (ar_action r));
     ("action_phase", jstr (ar_phase r)); ("attempt_id", jstr (ar_attempt r)); ("request_sha256", jstr (ar_request r));
     ("state", jstr (ar_state r))]).
Definition EncodeActionRequest `{Digests} (request : ActionRequest) : res (string * string) :=
  Validate request ;;?
  let raw := render (marshalRequest request) in
  check (negb (MaxActionRequestBytes <? N.of_nat (String.length raw))%N) "encode bounded action request" ;;?
  Ok (raw, sha256 raw).
Definition validateFor `{Digests} (receipt : ActionReceipt) (request : ActionRequest) : res unit :=
  Validate request ;;?
  let? encoded := EncodeActionRequest request in
  check ((ar_version receipt =? Version) && bool_decide (ar_association receipt = aq_association request) &&
         (ar_generation receipt =s aq_generation request) && (ar_recipe receipt =s aq_recipe request) &&
         (ar_action receipt =s aq_action request) && (ar_phase receipt =s aq_phase request) &&
         (ar_attempt receipt =s aq_attempt request) && (ar_request receipt =s encoded.2) && (ar_state receipt =s "succeeded"))
        "action receipt differs from exact request".
Definition EncodeActionReceipt `{Digests} (request : ActionRequest) (receipt : ActionReceipt) : res string :=
  validateFor receipt request ;;?
  let raw := render (marshalReceipt receipt) in
  check (negb (MaxActionReceiptBytes <? N.of_nat (String.length raw))%N) "encode bounded action receipt" ;;?
  Ok raw.

(** *** Decoding *)
(** [readBounded]: everything up to the end of the input. *)
Definition readBounded (data : string) (limit : N) : res string :=
  check (negb (limit <? N.of_nat (String.length data))%N) "request exceeds its bound" ;;? Ok data.
(** [exactObject]: exactly the allowed fields, each once; three of them may be
    missing. *)
Definition optional_field (key : string) : bool := existsb (String.eqb key) ["zone"; "packages"; "workspaces"].
Definition exactFields (v : json) (allowed : list string) : res (list (string * json)) :=
  match v with
  | JObj fields =>
      check (forallb (λ kv, existsb (String.eqb kv.1) allowed) fields && distinct (map fst fields)) "invalid or duplicate field" ;;?
      check (forallb (λ key, existsb (String.eqb key) (map fst fields) || optional_field key) allowed) "missing field" ;;?
      Ok fields
  | _ => fail "request must be a JSON object"
  end.
Definition exactObject (data : string) (allowed : list string) : res (list (string * json)) :=
  match scan data with
  | Some [v] => exactFields v allowed
  | _ => fail "request must be a JSON object"
  end.
Definition field (fields : list (string * json)) (key : string) : option json := snd <$> find (λ kv, kv.1 =s key) fields.

Definition zeroAssociation : Association := mkAssociation "" "" "" "".
Definition association_field (name : string) (v : json) (a : Association) : res Association :=
  if name =s "domain" then let? x := get_string v (as_domain a) in Ok (mkAssociation x (as_session a) (as_kind a) (as_object a))
  else if name =s "session_id" then let? x := get_string v (as_session a) in Ok (mkAssociation (as_domain a) x (as_kind a) (as_object a))
  else if name =s "backend_kind" then let? x := get_string v (as_kind a) in Ok (mkAssociation (as_domain a) (as_session a) x (as_object a))
  else let? x := get_string v (as_object a) in Ok (mkAssociation (as_domain a) (as_session a) (as_kind a) x).
Definition association_fields : list string := ["domain"; "session_id"; "backend_kind"; "backend_object"].
Definition request_fields : list string :=
  "version"%string :: association_fields ++ ["generation"; "recipe_digest"; "action_id"; "action_phase"; "attempt_id"; "argv"]%string.
Definition request_field (name : string) (v : json) (r : ActionRequest) : res ActionRequest :=
  let '(mkActionRequest version association generation recipe action phase attempt argv) := r in
  if name =s "version" then let? x := get_int v version in Ok (mkActionRequest x association generation recipe action phase attempt argv)
  else if name =s "generation" then let? x := get_string v generation in Ok (mkActionRequest version association x recipe action phase attempt argv)
  else if name =s "recipe_digest" then let? x := get_string v recipe in Ok (mkActionRequest version association generation x action phase attempt argv)
  else if name =s "action_id" then let? x := get_string v action in Ok (mkActionRequest version association generation recipe x phase attempt argv)
  else if name =s "action_phase" then let? x := get_string v phase in Ok (mkActionRequest version association generation recipe action x attempt argv)
  else if name =s "attempt_id" then let? x := get_string v attempt in Ok (mkActionRequest version association generation recipe action phase x argv)
  else if name =s "argv" then
    let? x := decode_slice get_string "" v argv in Ok (mkActionRequest version association generation recipe action phase attempt x)
  else let? x := association_field name v association in Ok (mkActionRequest version x generation recipe action phase attempt argv).
Definition zeroRequest : ActionRequest := mkActionRequest 0 zeroAssociation "" "" "" "" "" None.
Definition DecodeActionRequest `{Digests} (reader : string) : res ActionRequest :=
  let? raw := readBounded reader MaxActionRequestBytes in
  let? fields := exactObject raw request_fields in
  let? request := decode_struct request_fields request_field (JObj fields) zeroRequest in
  Validate request ;;?
  let? canonical := EncodeActionRequest request in
  check (raw =s canonical.1) "action request is not canonical" ;;?
  Ok request.

Definition receipt_fields : list string :=
  "version"%string :: association_fields ++ ["generation"; "recipe_digest"; "action_id"; "action_phase"; "attempt_id"; "request_sha256"; "state"]%string.
Definition receipt_field (name : string) (v : json) (r : ActionReceipt) : res ActionReceipt :=
  let '(mkActionReceipt version association generation recipe action phase attempt request state) := r in
  if name =s "version" then let? x := get_int v version in Ok (mkActionReceipt x association generation recipe action phase attempt request state)
  else if name =s "generation" then let? x := get_string v generation in Ok (mkActionReceipt version association x recipe action phase attempt request state)
  else if name =s "recipe_digest" then let? x := get_string v recipe in Ok (mkActionReceipt version association generation x action phase attempt request state)
  else if name =s "action_id" then let? x := get_string v action in Ok (mkActionReceipt version association generation recipe x phase attempt request state)
  else if name =s "action_phase" then let? x := get_string v phase in Ok (mkActionReceipt version association generation recipe action x attempt request state)
  else if name =s "attempt_id" then let? x := get_string v attempt in Ok (mkActionReceipt version association generation recipe action phase x request state)
  else if name =s "request_sha256" then let? x := get_string v request in Ok (mkActionReceipt version association generation recipe action phase attempt x state)
  else if name =s "state" then let? x := get_string v state in Ok (mkActionReceipt version association generation recipe action phase attempt request x)
  else let? x := association_field name v association in Ok (mkActionReceipt version x generation recipe action phase attempt request state).
Definition zeroReceipt : ActionReceipt := mkActionReceipt 0 zeroAssociation "" "" "" "" "" "" "".
Definition trim_line (raw : string) : string := default raw (strip_suffix (String LF "") raw).
Definition DecodeActionReceipt `{Digests} (request : ActionRequest) (reader : string) : res ActionReceipt :=
  let? raw := readBounded reader MaxActionReceiptBytes in
  let raw := trim_line raw in
  let? fields := exactObject raw receipt_fields in
  let? receipt := decode_struct receipt_fields receipt_field (JObj fields) zeroReceipt in
  validateFor receipt request ;;?
  let? canonical := EncodeActionReceipt request receipt in
  check (raw =s canonical) "action receipt is not canonical" ;;?
  Ok receipt.

(** ** Lemmas *)

Lemma token_ascii s : str_all token_byte s = true → utf8 s.
Proof. apply str_all_utf8. intros c. by destruct c as [[] [] [] [] [] [] [] []]. Qed.
Lemma token_plain s : str_all token_byte s = true → str_all plain_byte s = true.
Proof. apply str_all_impl. intros c. by destruct c as [[] [] [] [] [] [] [] []]. Qed.
(** Every identifier of the protocol is a string of token bytes. *)
Lemma alnum_dash_token s : str_all alnum_dash s = true → str_all token_byte s = true.
Proof. apply str_all_impl. intros c. by destruct c as [[] [] [] [] [] [] [] []]. Qed.
Lemma uuid_token s : validUUID s = true → str_all token_byte s = true ∧ String.length s = 36%nat.
Proof.
  unfold validUUID. intros H. bsimpl. split; [|by apply Nat.eqb_eq]. apply alnum_dash_token. by eapply uuid_alnum_dash.
Qed.
Lemma sha_token s : actionSHA256 s = true → str_all token_byte s = true ∧ String.length s = 64%nat.
Proof.
  unfold actionSHA256. intros H. bsimpl. split; [|by apply Nat.eqb_eq]. eapply str_all_impl; [|eassumption].
  intros c. by destruct c as [[] [] [] [] [] [] [] []].
Qed.
Lemma action_token s : actionID s = true → str_all token_byte s = true ∧ (String.length s ≤ 64)%nat.
Proof.
  unfold actionID. destruct s as [|c r]; [done|]. intros H. bsimpl. split; [|by apply Nat.ltb_ge].
  cbn [str_all]. apply andb_true_iff. split.
  - revert H1. by destruct c as [[] [] [] [] [] [] [] []].
  - eapply str_all_impl; [|eassumption]. intros x. by destruct x as [[] [] [] [] [] [] [] []].
Qed.
Lemma validToken_ok s lo hi : validToken s lo hi = true → str_all token_byte s = true ∧ (String.length s ≤ hi)%nat.
Proof. unfold validToken. intros H. bsimpl. split; [done|by apply Nat.ltb_ge]. Qed.

Lemma token_upto n s : str_all token_byte s = true → (String.length s ≤ n)%nat → plain_upto n s.
Proof. intros Ht Hl. split_and!; [by apply token_plain|by apply token_ascii|done]. Qed.

(** What a valid request says of its binding. *)
Record association_ok (a : Association) : Prop := {
  ao_domain : plain_upto 63 (as_domain a); ao_session : plain_upto 36 (as_session a);
  ao_kind : as_kind a = "tart"; ao_object : plain_upto 255 (as_object a) }.
Record request_ok (r : ActionRequest) : Prop := {
  qo_version : aq_version r = Version; qo_association : association_ok (aq_association r);
  qo_generation : plain_upto 36 (aq_generation r); qo_recipe : plain_upto 64 (aq_recipe r);
  qo_action : plain_upto 64 (aq_action r); qo_phase : plain_upto 11 (aq_phase r);
  qo_attempt : plain_upto 36 (aq_attempt r) }.
Lemma Validate_ok r : Validate r = Ok tt → request_ok r.
Proof.
  unfold Validate, Association_valid. intros H. apply check_then_ok in H as [Hb H]. apply check_then_ok in H as [Hp _]. bsimpl.
  repeat match goal with
  | H : validToken _ _ _ = true |- _ => apply validToken_ok in H as [? ?]
  | H : validUUID _ = true |- _ => apply uuid_token in H as [? ?]
  | H : actionSHA256 _ = true |- _ => apply sha_token in H as [? ?]
  | H : actionID _ = true |- _ => apply action_token in H as [? ?]
  end.
  apply in_literals in Hp.
  constructor; [done|constructor; [..|done|]; (apply token_upto; [done|lia])|..]; try (apply token_upto; [done|lia]).
  by eapply literal_plain.
Qed.

(** *** Requests and receipts are written and read *)
Lemma printable_upto n s : plain_upto n s → printable (jstr s) = true.
Proof. intros (_ & H & _). by apply printable_jstr. Qed.
Lemma get_upto n s old : plain_upto n s → get_string (jstr s) old = Ok s.
Proof. intros (_ & H & _). by apply get_utf8. Qed.
Ltac printable_upto := first [eapply printable_upto; eassumption|reflexivity].
Lemma printable_request r : request_ok r → Forall utf8 (items (aq_argv r)) → printable (marshalRequest r) = true.
Proof.
  intros [_ [] ? ? ? ? ?] Hargv. cbn [marshalRequest marshalAssociation app printable]. printable_obj; try printable_upto.
  - rewrite ao_kind0. reflexivity.
  - by apply printable_strings.
Qed.
Lemma request_keys r : exactFields (marshalRequest r) request_fields =
  Ok (match marshalRequest r with JObj fs => fs | _ => [] end).
Proof. reflexivity. Qed.
(** Read the fields of a marshalled object one after the other. *)
Lemma tart_upto : plain_upto 4 "tart".
Proof. split_and!; [done|done|cbn; lia]. Qed.
Ltac read_field :=
  cbn [res_bind String.eqb Ascii.eqb Bool.eqb as_domain as_session as_kind as_object];
  first [erewrite get_upto by eassumption|rewrite decode_strings by assumption
        |match goal with |- context [get_int (JNum ?z) ?o] => change (get_int (JNum z) o) with (@Ok Z z) end].
Lemma decode_request r : request_ok r → Forall utf8 (items (aq_argv r)) →
  decode_struct request_fields request_field (marshalRequest r) zeroRequest = Ok r.
Proof.
  intros [Hv [? ? ? ?] ? ? ? ? ?] Hargv. destruct r as [v [d i k o] g rd a p t argv]. pose proof tart_upto.
  cbn [aq_version aq_association aq_generation aq_recipe aq_action aq_phase aq_attempt aq_argv as_domain as_session as_kind as_object] in *. subst v k.
  unfold marshalRequest. cbn [aq_version aq_association aq_generation aq_recipe aq_action aq_phase aq_attempt aq_argv marshalAssociation as_domain as_session as_kind as_object app].
  struct_step. unfold zeroRequest, zeroAssociation, request_field, association_field. repeat read_field. reflexivity.
Qed.
Record receipt_ok (r : ActionReceipt) : Prop := {
  co_version : ar_version r = Version; co_association : association_ok (ar_association r);
  co_generation : plain_upto 36 (ar_generation r); co_recipe : plain_upto 64 (ar_recipe r);
  co_action : plain_upto 64 (ar_action r); co_phase : plain_upto 11 (ar_phase r);
  co_attempt : plain_upto 36 (ar_attempt r); co_request : plain_upto 64 (ar_request r); co_state : plain_upto 9 (ar_state r) }.
Lemma printable_receipt r : receipt_ok r → printable (marshalReceipt r) = true.
Proof.
  intros [_ [] ? ? ? ? ? ? ?]. cbn [marshalReceipt marshalAssociation app printable]. printable_obj; try printable_upto.
  rewrite ao_kind0. reflexivity.
Qed.
Lemma decode_receipt r : receipt_ok r → decode_struct receipt_fields receipt_field (marshalReceipt r) zeroReceipt = Ok r.
Proof.
  intros [Hv [? ? ? ?] ? ? ? ? ? ? ?]. destruct r as [v [d i k o] g rd a p t q s]. pose proof tart_upto.
  cbn [ar_version ar_association ar_generation ar_recipe ar_action ar_phase ar_attempt ar_request ar_state as_domain as_session as_kind as_object] in *. subst v k.
  unfold marshalReceipt. cbn [ar_version ar_association ar_generation ar_recipe ar_action ar_phase ar_attempt ar_request ar_state marshalAssociation as_domain as_session as_kind as_object app].
  struct_step. unfold zeroReceipt, zeroAssociation, receipt_field, association_field. repeat read_field. reflexivity.
Qed.
Lemma exactObject_render v allowed : printable v = true → exactObject (render v) allowed = exactFields v allowed.
Proof.
  intros Hv. unfold exactObject. rewrite <-(str_app_nil (render v)), (scan_render v "") by auto. reflexivity.
Qed.

(** *** Sizes *)
Lemma association_size a fs : association_ok a →
  (json_size (JObj (marshalAssociation a ++ fs)) ≤ 440 + json_size (JObj fs))%N.
Proof.
  intros [(?&?&?) (?&?&?) Hk (?&?&?)]. unfold marshalAssociation. rewrite Hk. cbn [app].
  eapply N.le_trans; [obj_size_tac|]. size_lia.
Qed.
(** All of a request but its arguments fits the 4 KiB set aside for it. *)
Lemma request_size r : request_ok r →
  (json_size (marshalRequest r) ≤ 4 * 2 ^ 10 + json_size (marshal_slice jstr (aq_argv r)))%N.
Proof.
  intros [Hv Ha (?&?&?) (?&?&?) (?&?&?) (?&?&?) (?&?&?)]. unfold marshalRequest. rewrite Hv.
  eapply N.le_trans; [apply obj_size_cons|]. pose proof (association_size _ [("generation", jstr (aq_generation r)); ("recipe_digest", jstr (aq_recipe r)); ("action_id", jstr (aq_action r));
     ("action_phase", jstr (aq_phase r)); ("attempt_id", jstr (aq_attempt r)); ("argv", marshal_slice jstr (aq_argv r))]%string Ha) as Hs.
  eapply N.le_trans; [apply N.add_le_mono_l, Hs|]. clear Hs.
  eapply N.le_trans; [do 2 apply N.add_le_mono_l; obj_size_tac|]. unfold Version. size_lia.
Qed.
Lemma receipt_size r : receipt_ok r → (json_size (marshalReceipt r) ≤ 2048)%N.
Proof.
  intros [Hv Ha (?&?&?) (?&?&?) (?&?&?) (?&?&?) (?&?&?) (?&?&?) (?&?&?)]. unfold marshalReceipt. rewrite Hv.
  eapply N.le_trans; [apply obj_size_cons|]. pose proof (association_size _ [("generation", jstr (ar_generation r)); ("recipe_digest", jstr (ar_recipe r)); ("action_id", jstr (ar_action r));
     ("action_phase", jstr (ar_phase r)); ("attempt_id", jstr (ar_attempt r)); ("request_sha256", jstr (ar_request r));
     ("state", jstr (ar_state r))]%string Ha) as Hs.
  eapply N.le_trans; [apply N.add_le_mono_l, Hs|]. clear Hs.
  eapply N.le_trans; [do 2 apply N.add_le_mono_l; obj_size_tac|]. unfold Version. size_lia.
Qed.

(** *** A runnable recipe step is a valid request *)
Lemma runnableSteps_all l s : runnableSteps l = Ok tt → s ∈ l → st_phase s ≠ "prepare" →
  validateRunnableActionArgv (st_argv s) = Ok tt.
Proof.
  induction l as [|x l IH]; intros H Hin Hp; [by apply not_elem_of_nil in Hin|].
  cbn [runnableSteps] in H. apply check_then_ok in H as [_ H]. apply unit_then_ok in H as [Hx H].
  apply elem_of_cons in Hin as [->|Hin]; [|auto].
  destruct (st_phase x =s "prepare") eqn:E; [by apply eqs_true in E|]. exact Hx.
Qed.
Lemma request_args l : forallb validArg l = true → ∀ k, (0 < k)%nat → forallb id (imap (λ n, request_arg (k + n)) l) = true.
Proof.
  induction l as [|a l IH]; [done|]. intros H k Hk. cbn [forallb] in H. bsimpl. cbn [imap forallb].
  apply andb_true_iff. split.
  - unfold id, request_arg. unfold validArg in H. bsimpl. destruct k as [|k]; [lia|]. cbn [Nat.add Nat.eqb andb negb]. by rewrite H, H1.
  - rewrite (imap_ext _ (λ n, request_arg (S k + n))); [apply IH; [done|lia]|]. intros i x _. cbn. by rewrite Nat.add_succ_r.
Qed.
Lemma request_argv a l : forallb validArg (a :: l) = true → has_control [] a = false →
  forallb id (imap request_arg (a :: l)) = true.
Proof.
  intros H Ha. cbn [forallb] in H. bsimpl. cbn [imap forallb]. apply andb_true_iff. split.
  - unfold id, request_arg. unfold validArg in H. bsimpl. by rewrite H, H1, Ha.
  - rewrite (imap_ext _ (λ n, request_arg (1 + n))) by (intros; reflexivity). apply (request_args l); [done|lia].
Qed.
Lemma validArgv_cons l : validArgv (Some l) = true → ∃ a r, l = a :: r ∧ (length l ≤ 32)%nat ∧ forallb validArg l = true.
Proof. unfold validArgv. change (items (Some l)) with l. destruct l as [|a r]; [done|]. intros H. bsimpl. exists a, r. split_and!; [done|by apply Nat.ltb_ge|done]. Qed.
Lemma alnum_token n s : str_all alnum_dash s = true → (1 ≤ String.length s ≤ n)%nat → validToken s 1 n = true.
Proof.
  intros Hs Hl. unfold validToken. rewrite (alnum_dash_token _ Hs).
  replace (String.length s <? 1)%nat with false by (symmetry; apply Nat.ltb_ge; lia).
  by replace (n <? String.length s)%nat with false by (symmetry; apply Nat.ltb_ge; lia).
Qed.

(** What decoding accepts was encoded from what it returns. *)
Section codec.
Context {D : Digests}.
Lemma EncodeActionRequest_ok request raw digest : EncodeActionRequest request = Ok (raw, digest) →
  Validate request = Ok tt ∧ raw = render (marshalRequest request) ∧ digest = sha256 raw ∧
  (N.of_nat (String.length raw) ≤ MaxActionRequestBytes)%N.
Proof.
  unfold EncodeActionRequest. intros H. apply unit_then_ok in H as [Hv H]. apply check_then_ok in H as [Hs H].
  apply negb_true_iff, N.ltb_ge in Hs. injection H as <- <-. done.
Qed.
(** The one receipt of a request. *)
Definition receipt_for (request : ActionRequest) : ActionReceipt :=
  mkActionReceipt Version (aq_association request) (aq_generation request) (aq_recipe request) (aq_action request)
    (aq_phase request) (aq_attempt request) (sha256 (render (marshalRequest request))) "succeeded".
Lemma validateFor_exact receipt request raw digest : EncodeActionRequest request = Ok (raw, digest) →
  validateFor receipt request = Ok tt ↔ receipt = receipt_for request.
Proof.
  intros He. pose proof (EncodeActionRequest_ok _ _ _ He) as (Hv & -> & -> & _).
  unfold validateFor. rewrite Hv, He. cbn [res_bind snd]. rewrite check_ok. split.
  - intros H. bsimpl. destruct receipt. cbn in *. unfold receipt_for. by subst.
  - intros ->. unfold receipt_for. cbn [ar_version ar_association ar_generation ar_recipe ar_action ar_phase ar_attempt ar_request ar_state].
    rewrite !eqs_refl, bool_decide_true by done. done.
Qed.
Lemma receipt_for_ok request : request_ok request → Session.lowerSHA256 (sha256 (render (marshalRequest request))) = true →
  receipt_ok (receipt_for request).
Proof. intros [] Hd. constructor; try done. apply plain_sha. by right. Qed.
End codec.
Lemma last_byte_inj (a b : string) (x y : ascii) : a +:+ String x "" = b +:+ String y "" → x = y.
Proof.
  intros H. assert (String.length a = String.length b) as Hl.
  { apply (f_equal String.length) in H. rewrite !str_length_app in H. cbn in H. lia. }
  apply str_app_inj_len in H as [_ H]; [congruence|done].
Qed.
Lemma trim_render v fs : v = JObj fs → trim_line (render v) = render v ∧ trim_line (render v +:+ String LF "") = render v.
Proof.
  intros ->.  unfold trim_line. rewrite strip_suffix_app. split; [|done].
  destruct (strip_suffix (String LF "") (render (JObj fs))) as [n|] eqn:E; [|done]. apply strip_suffix_ok in E.
  change (render (JObj fs)) with (String "{" (commas (map member fs)) +:+ String "}" "") in E. by apply last_byte_inj in E.
Qed.
Lemma trim_line_cases raw : raw = trim_line raw ∨ raw = trim_line raw +:+ String LF "".
Proof. unfold trim_line. destruct (strip_suffix (String LF "") raw) as [n|] eqn:E; [|by left]. right. by apply strip_suffix_ok. Qed.

(** What the host accepts as a receipt, whatever the digest function. *)
Lemma decoded_receipt {D : Digests} request reader receipt : DecodeActionReceipt request reader = Ok receipt →
  receipt = receipt_for request ∧
  (reader = render (marshalReceipt (receipt_for request)) ∨ reader = render (marshalReceipt (receipt_for request)) +:+ String LF "").
Proof.
  unfold DecodeActionReceipt, readBounded. intros H. res_inv H. apply check_then_ok in Ha as [_ Ha]. injection Ha as <-.
  destruct a2. assert (∃ raw digest, EncodeActionRequest request = Ok (raw, digest)) as (raw & digest & He).
  { unfold validateFor in Ha2. apply unit_then_ok in Ha2 as [_ Ha2]. apply res_bind_ok in Ha2 as ([raw digest] & He & _). eauto. }
  apply (validateFor_exact _ _ _ _ He) in Ha2 as ->. unfold EncodeActionReceipt in Ha3.
  apply unit_then_ok in Ha3 as [_ Ha3]. apply check_then_ok in Ha3 as [_ Ha3].
  assert (a3 = render (marshalReceipt (receipt_for request))) as -> by congruence.
  apply check_ok, eqs_true in Ha4. injection H as <-. split; [done|]. rewrite <-Ha4. apply trim_line_cases.
Qed.

(** And the canonical bytes are accepted. *)
Lemma encoded_receipt {D : Digests} request raw digest : EncodeActionRequest request = Ok (raw, digest) → Session.lowerSHA256 digest = true →
  EncodeActionReceipt request (receipt_for request) = Ok (render (marshalReceipt (receipt_for request))).
Proof.
  intros He Hd. pose proof (EncodeActionRequest_ok _ _ _ He) as (Hv & Hr & -> & _). rewrite Hr in Hd.
  unfold EncodeActionReceipt. rewrite (proj2 (validateFor_exact _ _ _ _ He)) by done. cbn [res_bind].
  rewrite render_size. pose proof (receipt_size _ (receipt_for_ok _ (Validate_ok _ Hv) Hd)). unfold MaxActionReceiptBytes.
  by replace (4 * 2 ^ 10 <? _)%N with false by (symmetry; apply N.ltb_ge; lia).
Qed.
Lemma canonical_receipt {D : Digests} request raw digest reader : EncodeActionRequest request = Ok (raw, digest) →
  Session.lowerSHA256 digest = true →
  reader = render (marshalReceipt (receipt_for request)) ∨ reader = render (marshalReceipt (receipt_for request)) +:+ String LF "" →
  DecodeActionReceipt request reader = Ok (receipt_for request).
Proof.
  intros He Hd Hreader. pose proof (EncodeActionRequest_ok _ _ _ He) as (Hv & Hr & Hdig & _).
  pose proof Hd as Hd2. rewrite Hdig, Hr in Hd2. pose proof (receipt_for_ok _ (Validate_ok _ Hv) Hd2) as Hok.
  unfold DecodeActionReceipt, readBounded.
  assert (N.of_nat (String.length reader) ≤ 2049)%N as Hl.
  { pose proof (receipt_size _ Hok) as Hs. rewrite <-render_size in Hs. destruct Hreader as [->| ->]; [lia|]. rewrite str_length_app. change (String.length (String LF "")) with 1%nat. lia. }
  unfold MaxActionReceiptBytes. replace (4 * 2 ^ 10 <? _)%N with false by (symmetry; apply N.ltb_ge; lia). cbn [negb check res_bind].
  assert (trim_line reader = render (marshalReceipt (receipt_for request))) as ->.
  { destruct (trim_render (marshalReceipt (receipt_for request)) _ eq_refl). by destruct Hreader as [->| ->]. }
  rewrite exactObject_render by (by apply printable_receipt).
  change (exactFields (marshalReceipt (receipt_for request)) receipt_fields)
    with (Ok (match marshalReceipt (receipt_for request) with JObj fs => fs | _ => [] end)). cbn [res_bind].
  pose proof (decode_receipt _ Hok) as Hdec. unfold marshalReceipt at 1. unfold marshalReceipt at 1 in Hdec. rewrite Hdec. cbn [res_bind].
  rewrite (proj2 (validateFor_exact _ _ _ _ He)) by done. cbn [res_bind]. rewrite (encoded_receipt _ _ _ He Hd). cbn [res_bind]. by rewrite eqs_refl.
Qed.

(** ** Properties *)

Section properties.
Context {D : Digests}.

(** C38: the 4 KiB the recipe validator sets aside for the binding of an
    action are enough: every step of a runnable recipe that the guest is to run,
    bound to any admissible domain, session, backend object, generation, recipe
    digest and attempt, is a valid request and encodes within the 64 KiB the
    guest reads. *)
Theorem runnable_actions_fit (value : Recipe) (s : Step) (a : Association) (generation recipe attempt : string) :
  ValidateRunnable value = Ok tt → s ∈ items (rc_steps value) → st_phase s ≠ "prepare" →
  Lock.validDomain (as_domain a) = true → Session.validUUID (as_session a) = true → as_kind a = "tart" →
  Session.validBackendObjectID (as_object a) = true → Session.validUUID generation = true →
  Session.validUUID attempt = true → attempt ≠ nil_uuid → Session.lowerSHA256 recipe = true →
  let request := mkActionRequest Version a generation recipe (st_id s) (st_phase s) attempt (st_argv s) in
  ∃ raw, EncodeActionRequest request = Ok (raw, sha256 raw) ∧ (N.of_nat (String.length raw) ≤ MaxActionRequestBytes)%N.
Proof.
  intros Hr Hin Hp Hd Hs Hk Ho Hg Ha Hn Hrd request. unfold ValidateRunnable in Hr.
  apply unit_then_ok in Hr as [Hv Hr]. apply unit_then_ok in Hr as [Hr _].
  apply validate_valid, v_steps in Hv. rewrite Forall_forall in Hv. destruct (Hv s Hin) as (Hid & Hph & Hargv).
  pose proof (runnableSteps_all _ _ Hr Hin Hp) as Hrun.
  destruct (st_argv s) as [argv|] eqn:Eargv; [|done]. destruct (validArgv_cons _ Hargv) as (e & r & -> & Hl & Hall).
  unfold validateRunnableActionArgv in Hrun. change (items (Some (e :: r))) with (e :: r) in Hrun.
  apply check_then_ok in Hrun as [He Hsz]. apply check_ok in Hsz. bsimpl. apply N.ltb_ge in Hsz.
  pose proof (ident_bytes _ Hd) as [Hdb Hdl]. pose proof (objectid_bytes _ Ho) as [Hob Hol].
  assert (Validate request = Ok tt) as Hval.
  { unfold Validate, request, Association_valid. cbn [aq_version aq_association aq_generation aq_recipe aq_action aq_phase aq_attempt aq_argv]. change (items (Some (e :: r))) with (e :: r).
    apply check_then_ok. split.
    - unfold validUUID, actionSHA256, actionID. unfold Session.validUUID in Hs, Hg, Ha. unfold Session.lowerSHA256 in Hrd.
      unfold validID in Hid. rewrite Hs, Hg, Ha, Hrd, Hid, Hk.
      rewrite (alnum_token 63 (as_domain a)), (alnum_token 255 (as_object a)).
      + cbn. by rewrite (proj2 (neqs_true _ _) Hn).
      + done.
      + destruct (as_object a); cbn in *; [done|lia].
      + by apply ident_alnum_dash.
      + destruct (as_domain a); cbn in *; [done|lia].
    - apply check_then_ok. split.
      + apply in_literals in Hph. rewrite !elem_of_cons, elem_of_nil in Hph.
        destruct Hph as [Hph|[Hph|[Hph|[Hph|[]]]]]; [done|rewrite Hph; reflexivity..].
      + apply check_then_ok. split; [|by rewrite request_argv].
        rewrite H, (proj2 (neqs_true _ _) H1). by replace (32 <? length (e :: r))%nat with false by (symmetry; apply Nat.ltb_ge; lia). }
  pose proof (request_size _ (Validate_ok _ Hval)) as Hsize. cbn [request aq_argv] in Hsize.
  assert (N.of_nat (String.length (render (marshalRequest request))) ≤ MaxActionRequestBytes)%N as Hfit.
  { rewrite render_size. unfold MaxActionRequestBytes. lia. }
  exists (render (marshalRequest request)). split; [|done]. unfold EncodeActionRequest. rewrite Hval. cbn [res_bind].
  replace (MaxActionRequestBytes <? _)%N with false by (symmetry; by apply N.ltb_ge). reflexivity.
Qed.

(** An action request and its bytes determine each other: the bytes of
    any encodable request whose arguments are UTF-8 are decoded by the guest back
    to that request, under the digest the host records; and whatever bytes the
    guest accepts are the canonical bytes of what it executes. *)
Theorem action_request_roundtrip (request : ActionRequest) (raw digest : string) :
  (Forall utf8 (items (aq_argv request)) → EncodeActionRequest request = Ok (raw, digest) →
     DecodeActionRequest raw = Ok request ∧ digest = sha256 raw) ∧
  (DecodeActionRequest raw = Ok request → EncodeActionRequest request = Ok (raw, sha256 raw)).
Proof.
  split.
  - intros Hu He. pose proof (EncodeActionRequest_ok _ _ _ He) as (Hv & Hr & Hd & Hs). split; [|done].
    pose proof (Validate_ok _ Hv) as Hok. unfold DecodeActionRequest, readBounded.
    replace (MaxActionRequestBytes <? _)%N with false by (symmetry; by apply N.ltb_ge). cbn [negb check res_bind].
    rewrite Hr at 1. rewrite exactObject_render, request_keys by (by apply printable_request). cbn [res_bind].
    pose proof (decode_request _ Hok Hu) as Hdec. unfold marshalRequest in Hdec |- *. rewrite Hdec. cbn [res_bind].
    rewrite Hv, He. cbn [res_bind fst]. by rewrite eqs_refl.
  - unfold DecodeActionRequest, readBounded. intros H. res_inv H. apply check_ok, eqs_true in Ha4. injection H as <-.
    apply check_then_ok in Ha as [_ Ha]. injection Ha as <-. destruct a3 as [enc dig]. cbn in Ha4. subst enc.
    pose proof (EncodeActionRequest_ok _ _ _ Ha3) as (_ & _ & -> & _). done.
Qed.

(** A request has exactly one receipt: of all byte strings the guest
    may answer an encodable request with, the host accepts just the canonical
    bytes of the success receipt bound to that request's association,
    generation, recipe, action, attempt and digest, with or without a line feed,
    and reads them as that receipt. (A SHA-256 digest is 64 lower-case
    hexadecimal digits.) *)
Theorem action_receipt_exact (request : ActionRequest) (raw digest reader : string) (receipt : ActionReceipt) :
  EncodeActionRequest request = Ok (raw, digest) → Session.lowerSHA256 digest = true →
  DecodeActionReceipt request reader = Ok receipt ↔
  receipt = receipt_for request ∧
  (reader = render (marshalReceipt (receipt_for request)) ∨ reader = render (marshalReceipt (receipt_for request)) +:+ String LF "").
Proof.
  intros He Hd. split; [apply decoded_receipt|]. intros [-> Hreader]. by eapply canonical_receipt.
Qed.
End properties.

Section evaluations.
(** A digest in the documented form: 64 lower-case hexadecimal digits. *)
#[local] Instance constDigests : Digests := {| sha256 _ := sourceSHA256 |}.
Definition example_association : Association :=
  mkAssociation "work" "01234567-89ab-4def-8123-456789abcdef" "tart" "boxwarden-work-0123456789ab4def8123456789abcdef".
Definition example_request : ActionRequest :=
  mkActionRequest Version example_association "99999999-9999-4999-8999-999999999999" sourceSHA256 "setup" "once"
    "11111111-2222-4333-8444-555555555555" (Some ["/usr/bin/true"; "a b"]).
Lemma runnable_actions_fit_witness :
  ∃ raw, EncodeActionRequest example_request = Ok (raw, sha256 raw) ∧ (N.of_nat (String.length raw) ≤ MaxActionRequestBytes)%N.
Proof.
  refine (runnable_actions_fit example_recipe (mkStep "setup" "once" (Some ["/usr/bin/true"; "a b"])) example_association _ _ _ _ _ _ _ _ _ _ _ _ _ _);
    first [reflexivity|by apply elem_of_cons; left|discriminate].
Defined.
Lemma action_request_roundtrip_witness : DecodeActionRequest (render (marshalRequest example_request)) = Ok example_request.
Proof.
  refine (proj1 (proj1 (action_request_roundtrip example_request _ sourceSHA256) _ _)); [|reflexivity].
  repeat constructor; reflexivity.
Defined.
Lemma action_receipt_exact_witness :
  DecodeActionReceipt example_request (render (marshalReceipt (receipt_for example_request)) +:+ String LF "") = Ok (receipt_for example_request).
Proof.
  refine (proj2 (action_receipt_exact example_request (render (marshalRequest example_request)) sourceSHA256 _ _ _ _) _); [reflexivity|reflexivity|].
  split; [reflexivity|right; reflexivity].
Defined.
End evaluations.
