(* ===== verification/SessionRecord.v ===== *)
(** The durable session record of src/internal/session/record.go and the
    validation and encoding half of store.go: its fields, the strict decoder,
    the versioned encoder, the store admission check and the one-way version 1
    to version 2 upgrade. *)
From S2P Require Import Prelude Ids Json.

Abbreviation recordVersionV1 := 1%Z.
Abbreviation recordVersion := 2%Z.
Abbreviation maxReadinessDiagnosticBytes := 1024%nat.

Abbreviation ModeClean := "clean"%string.
Abbreviation ModeQuarantine := "quarantine"%string.

Abbreviation StateCreating := "creating"%string.
Abbreviation StateStopped := "stopped"%string.
Abbreviation StateStarting := "starting"%string.
Abbreviation StateRunning := "running"%string.
Abbreviation StateStopping := "stopping"%string.
Abbreviation StateDeleting := "deleting"%string.
Abbreviation StateFailed := "failed"%string.

Abbreviation ReadinessNotReady := "not_ready"%string.
Abbreviation ReadinessStarting := "starting"%string.
Abbreviation ReadinessReady := "ready"%string.
Abbreviation ReadinessDrift := "drift"%string.

Record BackendRef := mkBackendRef { br_kind : string; br_object_id : string }.
Record ReadinessRecord := mkReadiness { rr_status : string; rr_diagnostic : string }.

Record SessionRecord := mkSessionRecord {
  sr_version : Z;
  sr_domain : string;
  sr_name : string;
  sr_id : string;
  sr_mode : string;
  sr_state : string;
  sr_backend : BackendRef;
  sr_golden : string;
  sr_intent : string;
  sr_generation : string;
  sr_readiness : ReadinessRecord;
}.

#[export] Instance BackendRef_eq_dec : EqDecision BackendRef.
Proof. solve_decision. Defined.
#[export] Instance ReadinessRecord_eq_dec : EqDecision ReadinessRecord.
Proof. solve_decision. Defined.
#[export] Instance SessionRecord_eq_dec : EqDecision SessionRecord.
Proof. solve_decision. Defined.

(** The zero values [Record{}], [BackendRef{}], [ReadinessRecord{}]. *)
Definition zeroBackendRef : BackendRef := mkBackendRef "" "".
Definition zeroReadiness : ReadinessRecord := mkReadiness "" "".
Definition zeroRecord : SessionRecord :=
  mkSessionRecord 0 "" "" "" "" "" zeroBackendRef "" "" "" zeroReadiness.

(** Field assignments. *)
Definition set_version (x : Z) (r : SessionRecord) : SessionRecord :=
  mkSessionRecord x (sr_domain r) (sr_name r) (sr_id r) (sr_mode r) (sr_state r) (sr_backend r) (sr_golden r) (sr_intent r) (sr_generation r) (sr_readiness r).
Definition set_domain (x : string) (r : SessionRecord) : SessionRecord :=
  mkSessionRecord (sr_version r) x (sr_name r) (sr_id r) (sr_mode r) (sr_state r) (sr_backend r) (sr_golden r) (sr_intent r) (sr_generation r) (sr_readiness r).
Definition set_name (x : string) (r : SessionRecord) : SessionRecord :=
  mkSessionRecord (sr_version r) (sr_domain r) x (sr_id r) (sr_mode r) (sr_state r) (sr_backend r) (sr_golden r) (sr_intent r) (sr_generation r) (sr_readiness r).
Definition set_id (x : string) (r : SessionRecord) : SessionRecord :=
  mkSessionRecord (sr_version r) (sr_domain r) (sr_name r) x (sr_mode r) (sr_state r) (sr_backend r) (sr_golden r) (sr_intent r) (sr_generation r) (sr_readiness r).
Definition set_mode (x : string) (r : SessionRecord) : SessionRecord :=
  mkSessionRecord (sr_version r) (sr_domain r) (sr_name r) (sr_id r) x (sr_state r) (sr_backend r) (sr_golden r) (sr_intent r) (sr_generation r) (sr_readiness r).
Definition set_state (x : string) (r : SessionRecord) : SessionRecord :=
  mkSessionRecord (sr_version r) (sr_domain r) (sr_name r) (sr_id r) (sr_mode r) x (sr_backend r) (sr_golden r) (sr_intent r) (sr_generation r) (sr_readiness r).
Definition set_backend (x : BackendRef) (r : SessionRecord) : SessionRecord :=
  mkSessionRecord (sr_version r) (sr_domain r) (sr_name r) (sr_id r) (sr_mode r) (sr_state r) x (sr_golden r) (sr_intent r) (sr_generation r) (sr_readiness r).
Definition set_golden (x : string) (r : SessionRecord) : SessionRecord :=
  mkSessionRecord (sr_version r) (sr_domain r) (sr_name r) (sr_id r) (sr_mode r) (sr_state r) (sr_backend r) x (sr_intent r) (sr_generation r) (sr_readiness r).
Definition set_intent (x : string) (r : SessionRecord) : SessionRecord :=
  mkSessionRecord (sr_version r) (sr_domain r) (sr_name r) (sr_id r) (sr_mode r) (sr_state r) (sr_backend r) (sr_golden r) x (sr_generation r) (sr_readiness r).
Definition set_generation (x : string) (r : SessionRecord) : SessionRecord :=
  mkSessionRecord (sr_version r) (sr_domain r) (sr_name r) (sr_id r) (sr_mode r) (sr_state r) (sr_backend r) (sr_golden r) (sr_intent r) x (sr_readiness r).
Definition set_readiness (x : ReadinessRecord) (r : SessionRecord) : SessionRecord :=
  mkSessionRecord (sr_version r) (sr_domain r) (sr_name r) (sr_id r) (sr_mode r) (sr_state r) (sr_backend r) (sr_golden r) (sr_intent r) (sr_generation r) x.

(** ** Validation *)

Definition validState (state : string) : bool :=
  existsb (String.eqb state)
    [StateCreating; StateStopped; StateStarting; StateRunning; StateStopping; StateDeleting; StateFailed].

Definition validateStartGeneration (record : SessionRecord) : res unit :=
  if (sr_state record =s StateStarting) || (sr_state record =s StateRunning) || (sr_state record =s StateStopping)
  then check (Session.validUUID (sr_generation record)) "record requires a valid start generation"
  else check (sr_generation record =s "") "record must not have a start generation".

Definition validateReadiness (record : SessionRecord) : res unit :=
  if (maxReadinessDiagnosticBytes <? String.length (rr_diagnostic (sr_readiness record)))%nat
  then fail "readiness diagnostic exceeds its bound"
  else
    let status := rr_status (sr_readiness record) in
    if status =s ReadinessNotReady then
      check (negb ((sr_generation record ≠s "") && (sr_state record ≠s StateStopping)))
            "not-ready record must not have a start generation"
    else if status =s ReadinessStarting then
      check (sr_state record =s StateStarting) "starting record requires starting intent"
    else if status =s ReadinessReady then
      check (sr_state record =s StateRunning) "ready record requires running intent"
    else if status =s ReadinessDrift then
      check (sr_state record =s StateRunning) "drift record requires running intent"
    else fail "invalid readiness status".

(** ** Decoding *)

Definition backend_field (name : string) (v : json) (b : BackendRef) : option (res BackendRef) :=
  if name =s "kind" then Some (let? s := get_string v (br_kind b) in Ok (mkBackendRef s (br_object_id b)))
  else if name =s "object_id" then Some (let? s := get_string v (br_object_id b) in Ok (mkBackendRef (br_kind b) s))
  else None.

Definition decodeBackend (v : json) : res BackendRef :=
  let? (b, seen) := decode_object backend_field v zeroBackendRef in
  if negb (seen_all ["kind"; "object_id"] seen) || (br_kind b ≠s "tart") ||
     negb (Session.validBackendObjectID (br_object_id b))
  then fail "invalid backend reference"
  else Ok b.

Definition readiness_field (name : string) (v : json) (r : ReadinessRecord) : option (res ReadinessRecord) :=
  if name =s "status" then Some (let? s := get_string v (rr_status r) in Ok (mkReadiness s (rr_diagnostic r)))
  else if name =s "diagnostic" then Some (let? s := get_string v (rr_diagnostic r) in Ok (mkReadiness (rr_status r) s))
  else None.

Definition decodeReadiness (v : json) : res ReadinessRecord :=
  let? (r, seen) := decode_object readiness_field v zeroReadiness in
  if negb (seen_all ["status"; "diagnostic"] seen) then fail "incomplete readiness record" else Ok r.

Definition record_field (name : string) (v : json) (record : SessionRecord) : option (res SessionRecord) :=
  if name =s "version" then Some (let? z := get_int v (sr_version record) in Ok (set_version z record))
  else if name =s "domain" then
    Some (let? raw := get_string v "" in let? d := Domain.Parse raw in Ok (set_domain d record))
  else if name =s "name" then
    Some (let? raw := get_string v "" in let? n := Session.ParseName raw in Ok (set_name n record))
  else if name =s "id" then Some (let? s := get_string v (sr_id record) in Ok (set_id s record))
  else if name =s "mode" then Some (let? s := get_string v (sr_mode record) in Ok (set_mode s record))
  else if name =s "intended_state" then Some (let? s := get_string v (sr_state record) in Ok (set_state s record))
  else if name =s "backend" then Some (let? b := decodeBackend v in Ok (set_backend b record))
  else if name =s "golden_revision" then Some (let? s := get_string v (sr_golden record) in Ok (set_golden s record))
  else if name =s "recipe_intent_digest" then Some (let? s := get_string v (sr_intent record) in Ok (set_intent s record))
  else if name =s "start_generation" then Some (let? s := get_string v (sr_generation record) in Ok (set_generation s record))
  else if name =s "readiness" then Some (let? r := decodeReadiness v in Ok (set_readiness r record))
  else None.

(** The checks after the field loop; [seen] holds the fields that occurred. *)
Definition record_checks (seen : list string) (record : SessionRecord) : res SessionRecord :=
  let got n := existsb (String.eqb n) seen in
  if negb (got "version") || negb ((sr_version record =? recordVersionV1) || (sr_version record =? recordVersion))
  then fail "unsupported session record version"
  else if negb (seen_all ["domain"; "name"; "id"; "mode"; "intended_state"; "backend"] seen)
  then fail "session record has missing required fields"
  else if negb (Session.validUUID (sr_id record)) then fail "invalid session record id"
  else if (sr_mode record ≠s ModeClean) && (sr_mode record ≠s ModeQuarantine) then fail "invalid session mode"
  else if negb (validState (sr_state record)) then fail "invalid intended state"
  else if sr_version record =? recordVersionV1 then
    if got "start_generation" || got "readiness" || got "recipe_intent_digest"
    then fail "version 1 session record has version 2 fields"
    else Ok record
  else
    if negb (got "golden_revision") || negb (Session.validBackendObjectID (sr_golden record)) || negb (got "readiness")
    then fail "session record has missing required fields"
    else if got "recipe_intent_digest" && negb (Session.lowerSHA256 (sr_intent record))
    then fail "invalid recipe intent digest"
    else validateStartGeneration record ;;? validateReadiness record ;;? Ok record.

Definition decodeRecord (v : json) : res SessionRecord :=
  let? (record, seen) := decode_object record_field v zeroRecord in
  record_checks seen record.

(** ** Encoding *)

Definition marshalBackend (b : BackendRef) : json :=
  JObj [("kind", jstr (br_kind b)); ("object_id", jstr (br_object_id b))].
Definition marshalReadiness (r : ReadinessRecord) : json :=
  JObj [("status", jstr (rr_status r)); ("diagnostic", jstr (rr_diagnostic r))].

Definition marshalRecord (record : SessionRecord) : json :=
  let common :=
    [("version", JNum (sr_version record)); ("domain", jstr (sr_domain record)); ("name", jstr (sr_name record));
     ("id", jstr (sr_id record)); ("mode", jstr (sr_mode record)); ("intended_state", jstr (sr_state record));
     ("backend", marshalBackend (sr_backend record))] ++ omitempty "golden_revision" (sr_golden record) in
  if sr_version record =? recordVersionV1 then JObj common
  else JObj (common ++ omitempty "recipe_intent_digest" (sr_intent record) ++
             omitempty "start_generation" (sr_generation record) ++
             [("readiness", marshalReadiness (sr_readiness record))]).

(** ** Store admission *)

Definition validateRecordForStore (expectedDomain : string) (record : SessionRecord) : res unit :=
  let? parsedDomain := Domain.Parse expectedDomain in
  if sr_domain record ≠s parsedDomain then fail "session record domain does not match target domain"
  else
    let? decoded := decodeRecord (marshalRecord record) in
    if bool_decide (decoded ≠ record) then fail "session record does not round-trip through its versioned schema"
    else if (sr_golden record ≠s "") && negb (Session.validBackendObjectID (sr_golden record))
    then fail "invalid golden revision"
    else Ok tt.

Definition upgradeRecordForStore (record : SessionRecord) : SessionRecord :=
  if negb (sr_version record =? recordVersionV1) || (sr_golden record =s "") ||
     ((sr_state record ≠s StateStopped) && (sr_state record ≠s StateCreating))
  then record
  else set_readiness (mkReadiness ReadinessNotReady "")
         (set_generation "" (set_version recordVersion record)).

(** What the store admits, written out: the invariant of every record on disk. *)
Definition generation_ok (r : SessionRecord) : bool :=
  if (sr_state r =s StateStarting) || (sr_state r =s StateRunning) || (sr_state r =s StateStopping)
  then Session.validUUID (sr_generation r) else sr_generation r =s "".
Definition readiness_ok (r : SessionRecord) : bool :=
  (String.length (rr_diagnostic (sr_readiness r)) <=? maxReadinessDiagnosticBytes)%nat &&
  (coerce_utf8 (rr_diagnostic (sr_readiness r)) =s rr_diagnostic (sr_readiness r)) &&
  match rr_status (sr_readiness r) with
  | ReadinessNotReady => (sr_generation r =s "") || (sr_state r =s StateStopping)
  | ReadinessStarting => sr_state r =s StateStarting
  | ReadinessReady => sr_state r =s StateRunning
  | ReadinessDrift => sr_state r =s StateRunning
  | _ => false
  end.
Definition record_ok (dom : string) (r : SessionRecord) : bool :=
  Lock.validDomain dom && (sr_domain r =s dom) && Lock.validSessionName (sr_name r) &&
  Session.validUUID (sr_id r) && ((sr_mode r =s ModeClean) || (sr_mode r =s ModeQuarantine)) &&
  validState (sr_state r) &&
  (br_kind (sr_backend r) =s "tart") && Session.validBackendObjectID (br_object_id (sr_backend r)) &&
  if sr_version r =? recordVersionV1 then
    ((sr_golden r =s "") || Session.validBackendObjectID (sr_golden r)) &&
    (sr_intent r =s "") && (sr_generation r =s "") && bool_decide (sr_readiness r = zeroReadiness)
  else
    (sr_version r =? recordVersion) && Session.validBackendObjectID (sr_golden r) &&
    ((sr_intent r =s "") || Session.lowerSHA256 (sr_intent r)) && generation_ok r && readiness_ok r.

#[global] Arguments validState : simpl never.
#[global] Arguments generation_ok : simpl never.
#[global] Arguments readiness_ok : simpl never.
#[global] Arguments validateStartGeneration : simpl never.
#[global] Arguments validateReadiness : simpl never.
#[global] Arguments decodeBackend : simpl never.

(** ** Encoding and decoding lemmas *)

Definition coerce_backend (b : BackendRef) : BackendRef :=
  mkBackendRef (coerce_utf8 (br_kind b)) (coerce_utf8 (br_object_id b)).
Definition coerce_readiness (r : ReadinessRecord) : ReadinessRecord :=
  mkReadiness (coerce_utf8 (rr_status r)) (coerce_utf8 (rr_diagnostic r)).

Lemma decode_marshal_backend b :
  decodeBackend (marshalBackend b) =
  if (coerce_utf8 (br_kind b) ≠s "tart") || negb (Session.validBackendObjectID (coerce_utf8 (br_object_id b)))
  then fail "invalid backend reference" else Ok (coerce_backend b).
Proof. reflexivity. Qed.

Lemma decode_marshal_readiness r : decodeReadiness (marshalReadiness r) = Ok (coerce_readiness r).
Proof. reflexivity. Qed.

(** The fields a record is written with. *)
Definition marshal_fields (r : SessionRecord) : list string :=
  ["version"; "domain"; "name"; "id"; "mode"; "intended_state"; "backend"] ++
  (if sr_golden r =s "" then [] else ["golden_revision"]) ++
  if sr_version r =? recordVersionV1 then []
  else (if sr_intent r =s "" then [] else ["recipe_intent_digest"]) ++
       (if sr_generation r =s "" then [] else ["start_generation"]) ++ ["readiness"].

(** What decoding the encoded record yields before the final checks. *)
Definition reread (r : SessionRecord) : SessionRecord :=
  let v1 := sr_version r =? recordVersionV1 in
  mkSessionRecord (sr_version r) (coerce_utf8 (sr_domain r)) (coerce_utf8 (sr_name r)) (coerce_utf8 (sr_id r))
    (coerce_utf8 (sr_mode r)) (coerce_utf8 (sr_state r)) (coerce_backend (sr_backend r))
    (coerce_utf8 (sr_golden r)) (if v1 then "" else coerce_utf8 (sr_intent r))
    (if v1 then "" else coerce_utf8 (sr_generation r))
    (if v1 then zeroReadiness else coerce_readiness (sr_readiness r)).

Definition reread_ok (r : SessionRecord) : bool :=
  int64_ok (sr_version r) && is_ok (Domain.Parse (coerce_utf8 (sr_domain r))) &&
  is_ok (Session.ParseName (coerce_utf8 (sr_name r))) &&
  (coerce_utf8 (br_kind (sr_backend r)) =s "tart") &&
  Session.validBackendObjectID (coerce_utf8 (br_object_id (sr_backend r))).

Lemma decode_marshal r r' :
  decodeRecord (marshalRecord r) = Ok r' ↔
  reread_ok r = true ∧ record_checks (rev (marshal_fields r)) (reread r) = Ok r'.
Proof.
  unfold decodeRecord, reread_ok, reread, marshalRecord, marshal_fields, omitempty.
  destruct r as [v d n i m st [k o] g t gen [rs rd]]; cbn [sr_version sr_domain sr_name sr_id sr_mode sr_state
    sr_backend sr_golden sr_intent sr_generation sr_readiness br_kind br_object_id].
  pose proof (decode_marshal_backend (mkBackendRef k o)) as Hb.
  destruct (Domain.Parse (coerce_utf8 d)) as [d'|e] eqn:Hd.
  2:{ split; [|intros [H _]; bsimpl; discriminate].
      destruct (v =? 1); cbn; destruct (int64_ok v); cbn; rewrite ?Hd; discriminate. }
  destruct (Session.ParseName (coerce_utf8 n)) as [n'|e] eqn:Hn.
  2:{ split; [|intros [H _]; bsimpl; discriminate].
      destruct (v =? 1); cbn; destruct (int64_ok v); cbn; rewrite ?Hd; cbn; rewrite ?Hn; discriminate. }
  pose proof (proj1 (proj1 (Parse_ok _ _) Hd)) as ->.
  pose proof (proj1 (proj1 (ParseName_ok _ _) Hn)) as ->.
  destruct (int64_ok v) eqn:Hv.
  2:{ split; [|intros [H _]; bsimpl; discriminate].
      destruct (v =? 1); cbn; rewrite Hv; discriminate. }
  cbn [br_kind br_object_id] in Hb.
  destruct (coerce_utf8 k =s "tart") eqn:Hk; [destruct (Session.validBackendObjectID (coerce_utf8 o)) eqn:Ho|].
  2-3: split; [|intros [H _]; bsimpl; discriminate];
       destruct (v =? 1); cbn -[decodeBackend]; rewrite Hv; cbn -[decodeBackend]; rewrite Hd;
       cbn -[decodeBackend]; rewrite Hn; cbn -[decodeBackend]; rewrite Hb; discriminate.
  destruct (v =? 1) eqn:Hv1, (g =s "") eqn:Hg, (t =s "") eqn:Ht, (gen =s "") eqn:Hgen; bsimpl; subst;
    cbn -[decodeBackend record_checks]; rewrite Hv; cbn -[decodeBackend record_checks]; rewrite Hd;
    cbn -[decodeBackend record_checks]; rewrite Hn; cbn -[decodeBackend record_checks]; rewrite Hb;
    cbn -[record_checks]; naive_solver.
Qed.

(** The final checks as one boolean, for the fields a record is written with. *)
Definition readiness_rule (r : SessionRecord) : bool :=
  (String.length (rr_diagnostic (sr_readiness r)) <=? maxReadinessDiagnosticBytes)%nat &&
  match rr_status (sr_readiness r) with
  | ReadinessNotReady => (sr_generation r =s "") || (sr_state r =s StateStopping)
  | ReadinessStarting => sr_state r =s StateStarting
  | ReadinessReady => sr_state r =s StateRunning
  | ReadinessDrift => sr_state r =s StateRunning
  | _ => false
  end.
Definition checks_rule (r : SessionRecord) : bool :=
  ((sr_version r =? recordVersionV1) || (sr_version r =? recordVersion)) &&
  Session.validUUID (sr_id r) && ((sr_mode r =s ModeClean) || (sr_mode r =s ModeQuarantine)) &&
  validState (sr_state r) &&
  if sr_version r =? recordVersionV1 then true
  else Session.validBackendObjectID (sr_golden r) &&
       ((sr_intent r =s "") || Session.lowerSHA256 (sr_intent r)) && generation_ok r && readiness_rule r.

Lemma validateStartGeneration_ok r : is_ok (validateStartGeneration r) = generation_ok r.
Proof. unfold validateStartGeneration, generation_ok, check. destruct (_ || _); [destruct (Session.validUUID _)|destruct (_ =s _)]; done. Qed.

(** Two readings of a status: the decoder compares strings one by one. *)
Lemma status_cases (s : string) (A : Type) (a b c d e : A) :
  (if s =s ReadinessNotReady then a else if s =s ReadinessStarting then b
   else if s =s ReadinessReady then c else if s =s ReadinessDrift then d else e) =
  match s with ReadinessNotReady => a | ReadinessStarting => b | ReadinessReady => c | ReadinessDrift => d | _ => e end.
Proof.
  destruct (String.eqb_spec s ReadinessNotReady) as [->|H1]; [done|].
  destruct (String.eqb_spec s ReadinessStarting) as [->|H2]; [done|].
  destruct (String.eqb_spec s ReadinessReady) as [->|H3]; [done|].
  destruct (String.eqb_spec s ReadinessDrift) as [->|H4]; [done|].
  repeat (case_match; try congruence).
Qed.

Lemma validateReadiness_ok r : is_ok (validateReadiness r) = readiness_rule r.
Proof.
  unfold validateReadiness, readiness_rule. rewrite Nat.leb_antisym. cbv zeta.
  destruct (_ <? _)%nat; [done|]. cbn. rewrite status_cases.
  unfold check. repeat case_match; try done; cbn in *;
    repeat match goal with H : _ = _ |- _ => rewrite H in * end; try done;
    destruct (sr_generation r =s ""), (sr_state r =s StateStopping); done.
Qed.

Lemma got_marshal r n :
  existsb (String.eqb n) (rev (marshal_fields r)) = existsb (String.eqb n) (marshal_fields r).
Proof.
  apply eq_true_iff_eq. rewrite !existsb_exists. by setoid_rewrite <-in_rev.
Qed.

Lemma record_checks_ok seen r r' : record_checks seen r = Ok r' → r' = r.
Proof.
  unfold record_checks, fail. cbv zeta. repeat case_match; try congruence.
  intros H'. res_inv H'. congruence.
Qed.

Lemma record_checks_rule r :
  record_checks (rev (marshal_fields r)) r = Ok r ↔ checks_rule r = true.
Proof.
  unfold record_checks, seen_all, checks_rule. cbv zeta. cbn [forallb]. rewrite !got_marshal.
  unfold marshal_fields.
  assert (Hrest : is_ok (validateStartGeneration r ;;? validateReadiness r ;;? Ok r) =
                  generation_ok r && readiness_rule r).
  { rewrite <-validateStartGeneration_ok, <-validateReadiness_ok.
    destruct (validateStartGeneration r); cbn; [|done]. by destruct (validateReadiness r). }
  assert (Hrest' : (validateStartGeneration r ;;? validateReadiness r ;;? Ok r) = Ok r ↔
                  generation_ok r && readiness_rule r = true).
  { rewrite <-Hrest, is_ok_true. split; [eauto|]. intros (r' & H'). rewrite H'. res_inv H'. congruence. }
  unfold fail.
  destruct (sr_version r =? 1) eqn:Hv1, (sr_golden r =s "") eqn:Hg, (sr_intent r =s "") eqn:Ht,
    (sr_generation r =s "") eqn:Hgen; cbn -[validateStartGeneration validateReadiness];
    destruct (sr_version r =? 2), (Session.validUUID _), (sr_mode r =s ModeClean), (sr_mode r =s ModeQuarantine), (validState (sr_state r));
    cbn -[validateStartGeneration validateReadiness]; try (split; congruence);
    bsimpl; rewrite ?Hg, ?Ht;
    try destruct (Session.validBackendObjectID _) eqn:Hob; try destruct (Session.lowerSHA256 _);
    cbn -[validateStartGeneration validateReadiness]; try (split; congruence); try exact Hrest'; try discriminate Hob.
Qed.

(** *** Admitted strings are ASCII, so encoding does not change them *)

Lemma coerce_state s : validState s = true → coerce_utf8 s = s.
Proof.
  intros H%in_literals. repeat (apply elem_of_cons in H as [->|H]; [reflexivity|]). set_solver.
Qed.
Lemma state_length s : validState s = true → (String.length s ≤ 8)%nat.
Proof.
  intros H%in_literals. repeat (apply elem_of_cons in H as [->|H]; [cbn; lia|]). set_solver.
Qed.
Lemma coerce_mode s : (s =s ModeClean) || (s =s ModeQuarantine) = true → coerce_utf8 s = s.
Proof. intros [H|H]%orb_true_iff; apply eqs_true in H as ->; reflexivity. Qed.
Lemma mode_length s : (s =s ModeClean) || (s =s ModeQuarantine) = true → (String.length s ≤ 10)%nat.
Proof. intros [H|H]%orb_true_iff; apply eqs_true in H as ->; cbn; lia. Qed.

Lemma readiness_ok_rule r :
  readiness_ok r = readiness_rule r && (coerce_utf8 (rr_diagnostic (sr_readiness r)) =s rr_diagnostic (sr_readiness r)).
Proof.
  unfold readiness_ok, readiness_rule.
  destruct (_ <=? _)%nat; cbn [andb]; [|done]. by rewrite andb_comm.
Qed.

Lemma readiness_rule_status r : readiness_rule r = true →
  coerce_utf8 (rr_status (sr_readiness r)) = rr_status (sr_readiness r) ∧
  (String.length (rr_status (sr_readiness r)) ≤ 9)%nat.
Proof.
  unfold readiness_rule. intros [_ H]%andb_true_iff. revert H.
  repeat (case_match; try done); intros; subst; (split; [reflexivity|cbn; lia]).
Qed.

Lemma generation_ok_cases r : generation_ok r = true →
  sr_generation r = "" ∨ Session.validUUID (sr_generation r) = true.
Proof. unfold generation_ok. destruct (_ || _); [auto|]. intros H. apply eqs_true in H. auto. Qed.

(** An admitted record is read back exactly as it was written. *)
Lemma record_ok_reread dom r : record_ok dom r = true →
  reread r = r ∧ reread_ok r = true ∧ checks_rule r = true.
Proof.
  unfold record_ok, reread, reread_ok, checks_rule.
  destruct r as [v d n i m st [k o] g t gen [rs rd]]; cbn [sr_version sr_domain sr_name sr_id sr_mode sr_state
    sr_backend sr_golden sr_intent sr_generation sr_readiness br_kind br_object_id].
  intros H. rewrite !andb_true_iff in H.
  destruct H as [[[[[[[[Hdom Hd] Hn] Hi] Hm] Hst] Hk] Ho] Hv].
  apply eqs_true in Hd, Hk. subst.
  pose proof (proj2 (Parse_ok dom dom) (conj eq_refl Hdom)) as Hpd.
  pose proof (proj2 (ParseName_ok n n) (conj eq_refl Hn)) as Hpn.
  rewrite (coerce_ident _ Hdom), (coerce_ident _ Hn), (coerce_uuid _ Hi), (coerce_mode _ Hm),
    (coerce_state _ Hst), (coerce_objectid _ Ho), Hpd, Hpn, Ho, Hi, Hm, Hst.
  unfold coerce_backend. cbn [br_kind br_object_id]. rewrite (coerce_objectid _ Ho).
  change (coerce_utf8 "tart") with "tart".
  destruct (v =? 1) eqn:Hv1.
  - rewrite !andb_true_iff in Hv. destruct Hv as [[[Hg Ht] Hgen] Hr].
    apply eqs_true in Ht, Hgen. apply bool_decide_eq_true in Hr. apply Z.eqb_eq in Hv1. subst.
    rewrite Hr. split_and!; [|reflexivity|reflexivity]. f_equal.
    apply orb_true_iff in Hg as [Hg|Hg]; [apply eqs_true in Hg as ->; done|]. by rewrite coerce_objectid.
  - rewrite !andb_true_iff in Hv. destruct Hv as [[[[Hv2 Hg] Ht] Hgen] Hr].
    apply Z.eqb_eq in Hv2. subst. rewrite readiness_ok_rule in Hr. apply andb_true_iff in Hr as [Hr Hrd].
    apply eqs_true in Hrd. cbn in Hrd. pose proof (readiness_rule_status _ Hr) as [Hrs _]. cbn in Hrs.
    rewrite Hg, Ht, Hgen, Hr. split_and!; [|reflexivity|reflexivity].
    unfold coerce_readiness. cbn. rewrite Hrs, Hrd, (coerce_objectid _ Hg). f_equal.
    + apply orb_true_iff in Ht as [Ht|Ht]; [apply eqs_true in Ht as ->; done|]. by rewrite coerce_sha.
    + apply generation_ok_cases in Hgen as [Hgen|Hgen]; cbn in Hgen; [by rewrite Hgen|]. by rewrite coerce_uuid.
Qed.

Lemma decode_marshal_ok dom r : record_ok dom r = true → decodeRecord (marshalRecord r) = Ok r.
Proof.
  intros (Hr & Hro & Hc)%record_ok_reread. apply decode_marshal. split; [done|].
  rewrite Hr. by apply record_checks_rule.
Qed.

Lemma store_admits dom r : validateRecordForStore dom r = Ok tt ↔ record_ok dom r = true.
Proof.
  split.
  - unfold validateRecordForStore, fail. intros H. res_inv H.
    apply Parse_ok in Ha as [-> Hdom].
    destruct (sr_domain r ≠s dom) eqn:Hd; [done|]. apply neqs_false in Hd.
    res_inv H. case_bool_decide as Heq; [done|]. subst a.
    destruct ((sr_golden r ≠s "") && _) eqn:Hg; [done|]. clear H.
    apply decode_marshal in Ha as [Hro Hck].
    assert (Hrr : reread r = r) by (symmetry; eapply record_checks_ok, Hck).
    rewrite Hrr in Hck. apply record_checks_rule in Hck.
    unfold record_ok. unfold reread_ok, checks_rule in *.
    assert (Hname : coerce_utf8 (sr_name r) = sr_name r) by (change (sr_name (reread r) = sr_name r); congruence).
    assert (Hk : coerce_backend (sr_backend r) = sr_backend r)
      by (change (sr_backend (reread r) = sr_backend r); congruence).
    assert (Hk' : coerce_utf8 (br_kind (sr_backend r)) = br_kind (sr_backend r)) by (rewrite <-Hk at 2; done).
    assert (Ho' : coerce_utf8 (br_object_id (sr_backend r)) = br_object_id (sr_backend r)) by (rewrite <-Hk at 2; done).
    rewrite Hname, Hk', Ho', ParseName_eq in Hro.
    rewrite !andb_true_iff in Hro, Hck. destruct Hro as [[[[_ _] Hn] Hkind] Hob].
    destruct Hck as [[[[Hv Hi] Hm] Hst] Hrest].
    unfold Lock.validDomain, Lock.validSessionName.
    rewrite Hdom, Hd, Hn, Hi, Hm, Hst, Hkind, Hob, eqs_refl. cbn [andb].
    destruct (sr_version r =? 1) eqn:Hv1.
    + apply (f_equal sr_intent) in Hrr as Hint. apply (f_equal sr_generation) in Hrr as Hgen.
      apply (f_equal sr_readiness) in Hrr as Hrd. unfold reread in Hint, Hgen, Hrd. cbn in Hint, Hgen, Hrd.
      rewrite Hv1 in Hint, Hgen, Hrd. rewrite <-Hint, <-Hgen, <-Hrd. rewrite !eqs_refl, bool_decide_true by done.
      rewrite !andb_true_r. destruct (sr_golden r =s ""); [done|]. cbn in Hg |- *. by apply negb_false_iff in Hg.
    + cbn [orb] in Hv. rewrite Hv. rewrite !andb_true_iff in Hrest. destruct Hrest as [[[Hgo Hit] Hgen] Hrd].
      rewrite Hgo, Hit, Hgen, readiness_ok_rule, Hrd. cbn [andb]. apply eqs_true.
      apply (f_equal sr_readiness) in Hrr as Hr'. unfold reread in Hr'. cbn in Hr'. rewrite Hv1 in Hr'.
      rewrite <-Hr' at 2. done.
  - intros H. pose proof (decode_marshal_ok _ _ H) as Hdec.
    unfold record_ok in H. rewrite !andb_true_iff in H.
    destruct H as [[[[[[[[Hdom Hd] Hn] Hi] Hm] Hst] Hk] Ho] Hv]. apply eqs_true in Hd.
    unfold validateRecordForStore. rewrite (proj2 (Parse_ok dom dom) (conj eq_refl Hdom)). cbn [res_bind].
    rewrite Hd, eqs_refl. cbn [negb]. rewrite Hdec. cbn [res_bind]. rewrite bool_decide_false by auto.
    destruct (sr_golden r =s "") eqn:Hg; [done|]. cbn [negb andb].
    destruct (sr_version r =? 1); rewrite !andb_true_iff in Hv.
    + destruct Hv as [[[Hgo _] _] _]. cbn in Hgo. by rewrite Hgo.
    + destruct Hv as [[[[_ Hgo] _] _] _]. by rewrite Hgo.
Qed.

(** *** An admitted record fits the reader's 1 MiB bound *)

Lemma record_ok_lengths dom r : record_ok dom r = true →
  (sr_version r = 1 ∨ sr_version r = 2) ∧
  (String.length (sr_domain r) ≤ 63 ∧ String.length (sr_name r) ≤ 63 ∧ String.length (sr_id r) ≤ 36 ∧
   String.length (sr_mode r) ≤ 10 ∧ String.length (sr_state r) ≤ 8 ∧
   String.length (br_kind (sr_backend r)) ≤ 4 ∧ String.length (br_object_id (sr_backend r)) ≤ 127 ∧
   String.length (sr_golden r) ≤ 127 ∧ String.length (sr_intent r) ≤ 64 ∧ String.length (sr_generation r) ≤ 36 ∧
   String.length (rr_status (sr_readiness r)) ≤ 9 ∧ String.length (rr_diagnostic (sr_readiness r)) ≤ 1024)%nat.
Proof.
  unfold record_ok. rewrite !andb_true_iff.
  intros [[[[[[[[Hdom Hd] Hn] Hi] Hm] Hst] Hk] Ho] Hv]. apply eqs_true in Hd, Hk. rewrite Hd, Hk.
  apply ident_bytes in Hdom as [_ ?], Hn as [_ ?]. apply uuid_bytes in Hi as [? _].
  apply mode_length in Hm. apply state_length in Hst. apply objectid_bytes in Ho as [_ ?].
  destruct (sr_version r =? 1) eqn:Hv1; rewrite !andb_true_iff in Hv.
  - destruct Hv as [[[Hg Ht] Hgen] Hr]. apply eqs_true in Ht, Hgen. apply bool_decide_eq_true in Hr.
    rewrite Ht, Hgen, Hr. apply Z.eqb_eq in Hv1. rewrite orb_true_iff in Hg.
    split; [auto|]. destruct Hg as [Hg|Hg]; [apply eqs_true in Hg as ->|apply objectid_bytes in Hg as [_ Hg]];
      cbn; repeat split; lia.
  - destruct Hv as [[[[Hv2 Hg] Ht] Hgen] Hr]. apply Z.eqb_eq in Hv2. apply objectid_bytes in Hg as [_ Hg].
    rewrite readiness_ok_rule in Hr. apply andb_true_iff in Hr as [Hr _].
    pose proof (readiness_rule_status _ Hr) as [_ Hrs]. unfold readiness_rule in Hr.
    apply andb_true_iff in Hr as [Hr _]. apply Nat.leb_le in Hr.
    assert (String.length (sr_intent r) ≤ 64)%nat.
    { apply orb_true_iff in Ht as [Ht|Ht]; [apply eqs_true in Ht as ->; cbn; lia|]. apply sha_bytes in Ht as [_ ->]. lia. }
    assert (String.length (sr_generation r) ≤ 36)%nat.
    { apply generation_ok_cases in Hgen as [->|Hgen]; [cbn; lia|]. apply uuid_bytes in Hgen as [-> _]. lia. }
    split; [auto|]. cbn. repeat split; lia.
Qed.

Lemma marshal_size dom r : record_ok dom r = true → (json_size (marshalRecord r) < 2 ^ 20)%N.
Proof.
  intros (Hv & Hl)%record_ok_lengths. destruct_and! Hl.
  assert (Hver : (json_size (JNum (sr_version r)) = 1)%N) by (destruct Hv as [-> | ->]; reflexivity).
  assert (Hb : (json_size (marshalBackend (sr_backend r)) ≤ 62 + 18 * 131)%N).
  { unfold marshalBackend. pose proof (jstr_field_size "kind" (br_kind (sr_backend r))
      [("object_id", jstr (br_object_id (sr_backend r)))] 4 ltac:(vm_compute; discriminate) ltac:(lia)).
    pose proof (jstr_field_size "object_id" (br_object_id (sr_backend r)) [] 127 ltac:(vm_compute; discriminate) ltac:(lia)).
    change (json_size (JObj [])) with 2%N in *. lia. }
  assert (Hr : (json_size (marshalReadiness (sr_readiness r)) ≤ 62 + 18 * 1033)%N).
  { unfold marshalReadiness. pose proof (jstr_field_size "status" (rr_status (sr_readiness r))
      [("diagnostic", jstr (rr_diagnostic (sr_readiness r)))] 9 ltac:(vm_compute; discriminate) ltac:(lia)).
    pose proof (jstr_field_size "diagnostic" (rr_diagnostic (sr_readiness r)) [] 1024 ltac:(vm_compute; discriminate) ltac:(lia)).
    change (json_size (JObj [])) with 2%N in *. lia. }
  unfold marshalRecord. cbn [app].
  assert (Hhead : ∀ tl, (json_size (JObj (("version", JNum (sr_version r)) :: ("domain", jstr (sr_domain r)) ::
    ("name", jstr (sr_name r)) :: ("id", jstr (sr_id r)) :: ("mode", jstr (sr_mode r)) ::
    ("intended_state", jstr (sr_state r)) :: ("backend", marshalBackend (sr_backend r)) :: tl)) ≤ 10000 + json_size (JObj tl))%N).
  { intros tl. eapply N.le_trans; [apply obj_size_cons|]. rewrite Hver.
    eapply N.le_trans; [apply N.add_le_mono_l, (jstr_field_size _ _ _ 63); [vm_compute; discriminate|lia]|].
    eapply N.le_trans; [apply N.add_le_mono_l, N.add_le_mono_l, (jstr_field_size _ _ _ 63); [vm_compute; discriminate|lia]|].
    eapply N.le_trans; [do 3 apply N.add_le_mono_l; apply (jstr_field_size _ _ _ 36); [vm_compute; discriminate|lia]|].
    eapply N.le_trans; [do 4 apply N.add_le_mono_l; apply (jstr_field_size _ _ _ 10); [vm_compute; discriminate|lia]|].
    eapply N.le_trans; [do 5 apply N.add_le_mono_l; apply (jstr_field_size _ _ _ 8); [vm_compute; discriminate|lia]|].
    eapply N.le_trans; [do 6 apply N.add_le_mono_l; apply obj_size_cons|].
    change (str_size "version") with 7%N. change (str_size "backend") with 7%N. lia. }
  destruct (sr_version r =? 1).
  - eapply N.le_lt_trans; [apply Hhead|].
    pose proof (omitempty_size "golden_revision" (sr_golden r) [] 127 ltac:(vm_compute; discriminate) ltac:(lia)) as Hg.
    rewrite app_nil_r in Hg. change (json_size (JObj [])) with 2%N in Hg. change (2 ^ 20)%N with 1048576%N. lia.
  - eapply N.le_lt_trans; [apply Hhead|].
    eapply N.le_lt_trans; [apply N.add_le_mono_l, (omitempty_size _ _ _ 127); [vm_compute; discriminate|lia]|].
    eapply N.le_lt_trans; [do 2 apply N.add_le_mono_l; apply (omitempty_size _ _ _ 64); [vm_compute; discriminate|lia]|].
    eapply N.le_lt_trans; [do 3 apply N.add_le_mono_l; apply (omitempty_size _ _ _ 36); [vm_compute; discriminate|lia]|].
    eapply N.le_lt_trans; [do 4 apply N.add_le_mono_l; apply obj_size_cons|].
    change (str_size "readiness") with 9%N. change (json_size (JObj [])) with 2%N. change (2 ^ 20)%N with 1048576%N. lia.
Qed.

(** *** What the decoder accepts *)

Definition record_fields : list string :=
  ["version"; "domain"; "name"; "id"; "mode"; "intended_state"; "backend"; "golden_revision";
   "recipe_intent_digest"; "start_generation"; "readiness"].

Definition decode_inv (seen : list string) (r : SessionRecord) : Prop :=
  (∀ n, n ∈ seen → n ∈ record_fields) ∧
  ("domain" ∈ seen → Lock.validDomain (sr_domain r) = true) ∧
  ("name" ∈ seen → Lock.validSessionName (sr_name r) = true) ∧
  ("backend" ∈ seen → br_kind (sr_backend r) = "tart" ∧
     Session.validBackendObjectID (br_object_id (sr_backend r)) = true) ∧
  ("recipe_intent_digest" ∉ seen → sr_intent r = "").

Lemma decodeBackend_ok v b : decodeBackend v = Ok b →
  br_kind b = "tart" ∧ Session.validBackendObjectID (br_object_id b) = true.
Proof.
  unfold decodeBackend, fail. intros H. apply res_bind_ok in H as ([b' seen] & _ & H).
  destruct (_ || _) eqn:E in H; [done|]. injection H as <-. bsimpl. done.
Qed.

Lemma record_field_inv n v seen r r' :
  decode_inv seen r → record_field n v r = Some (Ok r') → decode_inv (n :: seen) r'.
Proof.
  intros (Hf & Hd & Hn & Hb & Hi). unfold record_field.
  repeat (case_match; [match goal with H : (n =s _) = true |- _ => apply eqs_true in H; subst n end;
    intros E; injection E as E; res_inv E; injection E as <-;
    unfold decode_inv; cbn; split_and!;
      [intros ? [->|?]%elem_of_cons; [apply (bool_decide_unpack _); vm_compute; exact I|auto]|..];
      try (intros [?|?]%elem_of_cons; [try discriminate|by auto]);
      try (intros Hno; rewrite elem_of_cons in Hno; first [tauto|apply Hi; tauto])
  |]); [..|done].
  - by apply Parse_ok in Ha0 as [-> ?].
  - by apply ParseName_ok in Ha0 as [-> ?].
  - by apply decodeBackend_ok in Ha.
Qed.

Lemma decode_inv_init : decode_inv [] zeroRecord.
Proof. unfold decode_inv. split_and!; try done; intros; exfalso; by eapply not_elem_of_nil. Qed.

Lemma decode_ok_fields v r : decodeRecord v = Ok r →
  ∃ fs, v = JObj fs ∧ NoDup fs.*1 ∧ (∀ n, n ∈ fs.*1 → n ∈ record_fields) ∧
        decode_inv (rev fs.*1) r ∧ record_checks (rev fs.*1) r = Ok r.
Proof.
  unfold decodeRecord, decode_object. intros H. apply res_bind_ok in H as ([r0 seen] & Hl & Hc).
  destruct v as [| | | | | |fs]; try discriminate. exists fs. split; [done|].
  pose proof (object_loop_nodup _ _ _ _ _ Hl) as (Hnd & _ & Hs). cbn in Hs. rewrite app_nil_r in Hs. subst seen.
  pose proof (object_loop_inv _ decode_inv record_field_inv _ _ _ _ _ decode_inv_init Hl) as HI.
  pose proof (record_checks_ok _ _ _ Hc) as ->. split_and!; try done.
  intros n Hn. destruct HI as [Hf _]. apply Hf. apply list_elem_of_In, in_rev. rewrite rev_involutive.
  by apply list_elem_of_In.
Qed.

(** *** The upgrade *)

Lemma upgrade_ok dom r : record_ok dom r = true → record_ok dom (upgradeRecordForStore r) = true.
Proof.
  intros H. unfold upgradeRecordForStore.
  destruct (_ || _) eqn:E; [done|]. bsimpl.
  unfold record_ok in *. rewrite !andb_true_iff in *. cbn.
  destruct H as [[[[[[[[Hdom Hd] Hn] Hi] Hm] Hst] Hk] Ho] Hv].
  rewrite H0 in Hv. cbn in Hv. rewrite !andb_true_iff in Hv. destruct Hv as [[[Hg Ht] Hgen] Hr].
  rewrite Hdom, Hd, Hn, Hi, Hm, Hst, Hk, Ho. split_and!; try done.
  rewrite Ht. apply orb_true_iff in Hg as [Hg|Hg]; [by apply eqs_true in Hg|]. rewrite Hg. cbn.
  apply andb_true_iff. split; [|reflexivity]. unfold generation_ok. cbn.
  apply andb_false_iff in H1 as [H1|H1]; apply neqs_false in H1; by rewrite H1.
Qed.

(** ** Properties *)

(** The store admits a record for a domain exactly when the record
    satisfies the written-out invariant [record_ok] (identifiers, state, the
    version-specific fields, generation and readiness rules); every admitted
    record is decoded back from its own encoding unchanged, and that encoding
    stays within the 1 MiB bound the reader enforces. *)
Theorem store_admission_exact (dom : string) (r : SessionRecord) :
  (validateRecordForStore dom r = Ok tt ↔ record_ok dom r = true) ∧
  (record_ok dom r = true →
     decodeRecord (marshalRecord r) = Ok r ∧ (file_size (json_file (marshalRecord r)) ≤ 2 ^ 20)%N).
Proof.
  split; [apply store_admits|]. intros H. split; [by eapply decode_marshal_ok|].
  pose proof (marshal_size _ _ H). cbn [json_file file_size]. lia.
Qed.

Definition example_record : SessionRecord :=
  mkSessionRecord 2 "work" "dev" "01234567-89ab-4def-8123-456789abcdef" ModeClean StateStopped
    (mkBackendRef "tart" "boxwarden-work-0123456789ab4def8123456789abcdef") "base-1" "" ""
    (mkReadiness ReadinessNotReady "").

Lemma store_admission_exact_witness :
  validateRecordForStore "work" example_record = Ok tt ∧ decodeRecord (marshalRecord example_record) = Ok example_record.
Proof.
  split; [apply (proj1 (store_admission_exact "work" example_record)); reflexivity|].
  apply (proj2 (store_admission_exact "work" example_record)). reflexivity.
Defined.

(** C40: the decoder is strict: a decoded object has no repeated and no
    unknown field, and a decoded version 2 record (whose diagnostic is valid
    UTF-8, as every decoded JSON string is) satisfies the store invariant of its
    own domain, so a record that can be read can be written again. *)
Theorem decodeRecord_strict (v : json) (r : SessionRecord) :
  decodeRecord v = Ok r →
  (∃ fs, v = JObj fs ∧ NoDup fs.*1 ∧ ∀ n, n ∈ fs.*1 → n ∈ record_fields) ∧
  (sr_version r = recordVersion →
   coerce_utf8 (rr_diagnostic (sr_readiness r)) = rr_diagnostic (sr_readiness r) →
   record_ok (sr_domain r) r = true).
Proof.
  intros (fs & -> & Hnd & Hk & (_ & Hd & Hn & Hb & Hi) & Hc)%decode_ok_fields. split; [eauto|].
  intros Hv2 Hdiag. unfold record_checks, seen_all, fail in Hc. rewrite Hv2 in Hc. cbv zeta in Hc.
  cbn [forallb] in Hc. repeat (case_match; try done). bsimpl.
  repeat match goal with
  | H : existsb (String.eqb _) _ = true |- _ => apply seen_in in H
  end.
  unfold record_ok. rewrite eqs_refl, Hv2. cbn.
  destruct Hb as [Hb1 Hb2]; [done|]. rewrite Hd, Hn, Hb1, Hb2, H1, H3, H8 by done.
  pose proof validateStartGeneration_ok r as Hg'. pose proof validateReadiness_ok r as Hr'.
  res_inv Hc. rewrite Ha in Hg'. rewrite Ha0 in Hr'. cbn in Hg', Hr'.
  rewrite readiness_ok_rule, Hdiag, eqs_refl, <-Hg', <-Hr'.
  apply andb_false_iff in H2. cbn. rewrite !andb_true_r, !andb_true_iff. split.
  - rewrite orb_true_iff. destruct H2 as [H2|H2]; apply neqs_false in H2; rewrite H2; auto.
  - split; [|apply eqs_refl]. apply andb_false_iff in H6 as [H6|H6]; [|apply negb_false_iff in H6; rewrite H6; by rewrite orb_true_r].
    rewrite Hi; [done|]. intros Hin%seen_in. congruence.
Qed.
Lemma decodeRecord_strict_witness :
  (∃ fs, marshalRecord example_record = JObj fs ∧ NoDup fs.*1 ∧ ∀ n, n ∈ fs.*1 → n ∈ record_fields) ∧
  record_ok "work" example_record = true.
Proof.
  destruct (decodeRecord_strict (marshalRecord example_record) example_record) as [H1 H2]; [reflexivity|].
  split; [exact H1|]. exact (H2 eq_refl eq_refl).
Defined.

(** The one-way upgrade keeps the identity of the record (domain,
    name, id, mode, state, backend, golden revision), keeps it admissible, is
    idempotent, and turns exactly the stopped or creating version 1 records that
    carry a golden revision into version 2. *)
Theorem upgrade_sound (dom : string) (r : SessionRecord) :
  record_ok dom r = true →
  let u := upgradeRecordForStore r in
  record_ok dom u = true ∧ upgradeRecordForStore u = u ∧
  (sr_domain u, sr_name u, sr_id u, sr_mode u, sr_state u, sr_backend u, sr_golden u, sr_intent u) =
  (sr_domain r, sr_name r, sr_id r, sr_mode r, sr_state r, sr_backend r, sr_golden r, sr_intent r) ∧
  (sr_version u = recordVersion ↔
     sr_version r = recordVersion ∨
     sr_golden r ≠ "" ∧ (sr_state r = StateStopped ∨ sr_state r = StateCreating)).
Proof.
  intros H u. pose proof (record_ok_lengths _ _ H) as [Hv _].
  split; [by apply upgrade_ok|]. unfold u, upgradeRecordForStore.
  destruct (negb (sr_version r =? 1)) eqn:E1; cbn [orb].
  { rewrite E1. bsimpl. naive_solver. }
  destruct (sr_golden r =s "") eqn:E2; cbn [orb].
  { rewrite E1, E2. bsimpl. naive_solver. }
  destruct ((sr_state r ≠s StateStopped) && (sr_state r ≠s StateCreating)) eqn:E3.
  { rewrite E1, E2, E3. bsimpl. naive_solver. }
  cbn. bsimpl. split_and!; try done. split; [|done]. intros _. right. split; [done|].
  apply andb_false_iff in E3 as [E3|E3]; apply neqs_false in E3; auto.
Qed.
Definition example_v1 : SessionRecord :=
  mkSessionRecord 1 "work" "dev" "01234567-89ab-4def-8123-456789abcdef" ModeClean StateStopped
    (mkBackendRef "tart" "boxwarden-work-0123456789ab4def8123456789abcdef") "base-1" "" "" zeroReadiness.
Lemma upgrade_sound_witness : upgradeRecordForStore example_v1 = example_record ∧ record_ok "work" example_record = true.
Proof. split; [reflexivity|]. exact (proj1 (upgrade_sound "work" example_v1 eq_refl)). Defined.

