(* ===== verification/Outside.v ===== *)
(** What the program sees of the outside world: the answers of the backend
    (src/internal/backend/observation.go), of the supervisor control plane
    (supervisor/request.go, stop_outcome.go), of the formatter
    (workspaceformat/format.go), the golden registry (golden/record.go) and the
    host-key pin store (sshx/pin.go), as plain data. *)
From S2P Require Import Prelude Ids Json SessionRecord.

(** ** Backend *)

Abbreviation ObjectRunning := "running"%string.
Abbreviation ObjectStopped := "stopped"%string.
Abbreviation ObjectUnknown := "unknown"%string.

Definition ObjectState_Valid (s : string) : bool :=
  (s =s ObjectRunning) || (s =s ObjectStopped) || (s =s ObjectUnknown).

Record Observation := mkObservation {
  ob_object : string; ob_exists : bool; ob_state : string; ob_diagnostic : string }.
#[export] Instance Observation_eq_dec : EqDecision Observation.
Proof. solve_decision. Defined.

(** One absent object, unmistakably. *)
Definition exactly_absent (o : Observation) (objectID : string) : bool :=
  (ob_object o =s objectID) && negb (ob_exists o) && (ob_state o =s ObjectUnknown).
Definition exists_stopped (o : Observation) : bool := ob_exists o && (ob_state o =s ObjectStopped).

(** ** Supervisor *)

Record Binding := mkBinding {
  bd_domain : string; bd_session : string; bd_kind : string; bd_object : string; bd_generation : string }.
#[export] Instance Binding_eq_dec : EqDecision Binding.
Proof. solve_decision. Defined.

Record LaunchRequest := mkLaunchRequest {
  lr_binding : Binding; lr_runtime : string; lr_config : string; lr_record : string }.

(** [ObservedAt] and [Now] are nanoseconds after Go's zero time. *)
Record Snapshot := mkSnapshot {
  sn_binding : Binding; sn_running : bool; sn_serial : bool; sn_pin : bool; sn_cert : bool;
  sn_probe : bool; sn_zone : bool; sn_at : Z; sn_diagnostic : string }.

(** What an import asks the retained supervisor to transfer, and its answer. *)
Record ImportTransfer := mkTransfer {
  it_transaction : string; it_digest : string; it_volume : string; it_uuid : string; it_mount : string }.
Record ImportResult := mkImportResult { ir_digest : string; ir_files : Z; ir_bytes : Z; ir_path : string }.

Record StopOutcome := mkStopOutcome { so_request : string; so_forced : bool }.
Definition StopOutcome_Valid (o : StopOutcome) : bool :=
  existsb (String.eqb (so_request o)) ["unrequested"; "guest_accepted"; "tart_fallback"; "tart_only"].

(** ** Formatter, golden registry, host-key pins *)

Record FormatRequest := mkFormatRequest {
  fr_domain : string; fr_volume : string; fr_uuid : string; fr_size : Z }.
Record Qualification := mkQualification {
  ql_domain : string; ql_volume : string; ql_uuid : string; ql_size : Z; ql_device : Z; ql_inode : Z }.
(** The fields of a formatter journal that the workspace package compares. *)
Record FormatJournal := mkFormatJournal {
  fj_version : Z; fj_state : string; fj_identity : option (Z * Z);
  fj_domain : string; fj_volume : string; fj_uuid : string; fj_size : Z }.

Record GoldenRecord := mkGoldenRecord {
  gr_version : Z; gr_domain : string; gr_revision : string; gr_backend : BackendRef }.

(** [sshx.Binding] and [sshx.HostKeyPin] *)
Record PinBinding := mkPinBinding {
  pb_domain : string; pb_session : string; pb_kind : string; pb_object : string }.
Record HostKeyPin := mkHostKeyPin {
  hp_version : Z; hp_domain : string; hp_session : string; hp_kind : string; hp_object : string;
  hp_algorithm : string; hp_public_key : string; hp_fingerprint : string }.
Definition marshalPin (p : HostKeyPin) : json :=
  JObj [("version", JNum (hp_version p)); ("domain", jstr (hp_domain p)); ("session_id", jstr (hp_session p));
        ("backend_kind", jstr (hp_kind p)); ("backend_object", jstr (hp_object p));
        ("algorithm", jstr (hp_algorithm p)); ("public_key", jstr (hp_public_key p));
        ("fingerprint", jstr (hp_fingerprint p))].

(** [config.Domain]; the storage declaration is compared by identity only. *)
Record DomainConfig := mkDomainConfig { dc_ID : string; dc_StateRoot : string; dc_storage : option nat }.
#[export] Instance DomainConfig_eq_dec : EqDecision DomainConfig.
Proof. solve_decision. Defined.
