(* ===== verification/Lifecycle.v ===== *)
(** Reconciliation of the persisted lifecycle intent with a read-only backend
    observation (src/internal/lifecycle/reconcile.go), the pure classification
    every status view of the program shows. *)
From S2P Require Import Prelude Ids Json SessionRecord Outside.

Inductive Consistency := Consistent | Drift | Indeterminate.
#[export] Instance Consistency_eq_dec : EqDecision Consistency.
Proof. solve_decision. Defined.
(** The five messages, with the values they quote. *)
Inductive Diagnostic :=
| DiagNone
| DiagTransitional (intended : string)
| DiagMissing
| DiagUnsupported (state : string)
| DiagNotAdopted
| DiagMismatch (intended state : string).
Record Reconciliation := mkReconciliation { rc_consistency : Consistency; rc_diagnostic : Diagnostic }.

Definition expectedObservedState (intended : string) : string * bool :=
  if intended =s StateRunning then (ObjectRunning, true)
  else if intended =s StateStopped then (ObjectStopped, true)
  else (ObjectUnknown, false).

Definition Reconcile (intended : string) (observed : Observation) : Reconciliation :=
  let '(expected, stable) := expectedObservedState intended in
  if negb stable then mkReconciliation Indeterminate (DiagTransitional intended)
  else if negb (ob_exists observed) then mkReconciliation Drift DiagMissing
  else if (ob_state observed ≠s ObjectRunning) && (ob_state observed ≠s ObjectStopped) then
    mkReconciliation Indeterminate (DiagUnsupported (ob_state observed))
  else if (intended =s StateRunning) && (ob_state observed =s ObjectRunning) then
    mkReconciliation Drift DiagNotAdopted
  else if ob_state observed ≠s expected then
    mkReconciliation Drift (DiagMismatch intended (ob_state observed))
  else mkReconciliation Consistent DiagNone.

(** Observation alone never vouches for a running session: the one
    consistent case is a session meant to be stopped whose object exists and is
    observed stopped, it is the only one without a diagnostic, and drift is
    reported exactly for a stable intent whose object is gone or observed in
    one of the two definite states. *)
Theorem reconcile_exact (intended : string) (o : Observation) :
  (rc_consistency (Reconcile intended o) = Consistent ↔
     intended = StateStopped ∧ ob_exists o = true ∧ ob_state o = ObjectStopped) ∧
  (rc_diagnostic (Reconcile intended o) = DiagNone ↔ rc_consistency (Reconcile intended o) = Consistent) ∧
  (rc_consistency (Reconcile intended o) = Drift ↔
     (intended = StateRunning ∧ (ob_exists o = false ∨ ob_state o = ObjectRunning ∨ ob_state o = ObjectStopped)) ∨
     (intended = StateStopped ∧ (ob_exists o = false ∨ ob_state o = ObjectRunning))).
Proof.
  assert (StateRunning ≠ StateStopped) as Hne by discriminate.
  unfold Reconcile, expectedObservedState.
  destruct (intended =s StateRunning) eqn:E1; [|destruct (intended =s StateStopped) eqn:E2]; bsimpl; subst;
    (destruct (ob_exists o); [destruct (ob_state o =s ObjectRunning) eqn:S1; destruct (ob_state o =s ObjectStopped) eqn:S2|]);
    bsimpl; cbn; intuition congruence.
Qed.
