(* ===== verification/World.v ===== *)
(** The machine the operations run on: the files of one state root, the
    advisory locks this process holds, the outside world behind the program's
    interfaces, and the record of everything done. Effects are a state and
    error monad over it. The environment [Env] decides, at every primitive,
    whether the primitive fails and (at each lock acquisition, where the
    process may wait) what other lock holders did to the files meanwhile; every
    theorem quantifies over it, so it holds for every failure and interleaving
    the environment can produce. *)
From S2P Require Import Prelude Ids Json JsonText Recipe GuestProto SessionRecord Outside.

(** ** State *)

(** The directories of a state root that hold records. *)
Inductive dirname :=
| Sessions | Workspaces | Rebuilds | Exports | Intents | Attempts (sessionID : string)
| Goldens | GoldenRecords | Projects | Volumes | Imports | Transaction (id : string)
| Captured (id : string).
#[export] Instance dirname_eq_dec : EqDecision dirname.
Proof. solve_decision. Defined.
#[export] Instance dirname_countable : Countable dirname.
Proof.
  refine (inj_countable' (λ d, match d with Sessions => inl 0 | Workspaces => inl 1 | Rebuilds => inl 2 | Exports => inl 3
                                        | Intents => inl 4 | Goldens => inl 5 | GoldenRecords => inl 6 | Projects => inl 7
                                        | Volumes => inl 8 | Imports => inl 9 | Attempts s => inr (inl s)
                                        | Transaction s => inr (inr (inl s)) | Captured s => inr (inr (inr s)) end)%nat
    (λ n, match n with inl 0 => Sessions | inl 1 => Workspaces | inl 2 => Rebuilds | inl 3 => Exports
                  | inl 4 => Intents | inl 5 => Goldens | inl 6 => GoldenRecords | inl 7 => Projects | inl 8 => Volumes | inl _ => Imports
                  | inr (inl s) => Attempts s | inr (inr (inl s)) => Transaction s
                  | inr (inr (inr s)) => Captured s end)%nat _).
  by intros [].
Defined.

(** A directory entry: a private regular file, a directory, or anything the
    privacy checks refuse (a symlink, a foreign mode, an extended ACL). *)
Inductive entry := EFile (f : file) | EDir | EUnsafe.

(** A missing directory and an empty one are not distinguished: every reader
    treats both as the absence of all its files. *)
Abbreviation disk :=
  (@gmap (dirname * string) (@prod_eq_dec dirname dirname_eq_dec string String.eq_dec)
     (@prod_countable dirname dirname_eq_dec dirname_countable string String.eq_dec String.countable) entry).

(** What a reader makes of one file: nothing when it is missing, unsafe, or
    does not parse. *)
Definition view {A} (parse : file → res A) (d : dirname) (name : string) (k : disk) : option A :=
  match k !! (d, name) with
  | Some (EFile f) => match parse f with Ok a => Some a | Er _ => None end
  | _ => None
  end.

(** What can happen to one file-system or lock primitive: it succeeds, fails
    with no effect, leaves a torn file behind, or takes effect and then
    reports an error (a failed directory sync after a rename). *)
Inductive fault := NoFault | FailBefore | FailTorn (written : nat) | FailAfter.

(** [env_others n held k]: what the holders of other locks made of the files
    [k] while this process, holding [held], waited for one more lock. *)
Class Env := {
  env_fault : nat → fault;
  env_others : nat → list string → disk → disk;
}.

(** The environment in which nothing fails and nobody interferes. *)
Definition quietEnv : Env := {| env_fault := λ _, NoFault; env_others := λ _ _ k, k |}.

(** Everything done, with the answers of the outside world. *)
Inductive event :=
| EvAcquire (scope : string)
| EvRelease (scope : string)
| EvPublish (d : dirname) (name : string) (f : file)
| EvCreate (d : dirname) (name : string) (f : file)
| EvRemove (d : dirname) (name : string)
| EvClone (source target : string) (answer : res unit)
| EvRandomizeMAC (object : string) (answer : res unit)
| EvDelete (object : string) (answer : res unit)
| EvObserve (object : string) (answer : res Observation)
| EvStartExact (request : LaunchRequest) (answer : res Snapshot)
| EvSnapshot (b : Binding) (answer : res Snapshot)
| EvStop (b : Binding) (answer : res unit)
| EvQuiesced (b : Binding) (answer : res bool)
| EvNow (now : Z)
| EvFormat (volumeID marker : string) (answer : res unit)
| EvMkdir (d : dirname) (name : string)
| EvWrite (d : dirname) (name : string) (f : file)
| EvCapture (transaction : string) (answer : res unit)
| EvReceive (transaction parent : string) (answer : res string)
| EvTransfer (b : Binding) (t : ImportTransfer) (answer : res ImportResult)
| EvRename (d : dirname) (from to : string)
| EvAction (retry : bool) (b : Binding) (request : ActionRequest) (answer : res ActionReceipt).

(** One recorded step: the event, the files when it began and when it was over,
    and the locks held when it began. *)
Record step := Step { st_event : event; st_before : disk; st_disk : disk; st_locks : list string }.

Record world (B : Type) := World {
  w_disk : disk;
  w_host : B;
  w_locks : list string;
  w_trace : list step;   (* newest first *)
  w_tick : nat;
}.
Arguments World {B} _ _ _ _ _.
Arguments w_disk {B} _.
Arguments w_host {B} _.
Arguments w_locks {B} _.
Arguments w_trace {B} _.
Arguments w_tick {B} _.
(** The initial world over given files and outside world. *)
Definition worldOf {B : Type} (k : disk) (b : B) : world B := World k b [] [] 0.

Section monad.
Context {B : Type}.
Definition M (A : Type) : Type := world B → res A * world B.

Definition ret {A} (a : A) : M A := λ w, (Ok a, w).
Definition throw {A} (e : error) : M A := λ w, (Er e, w).
Definition bind {A C} (m : M A) (f : A → M C) : M C := λ w,
  let '(r, w') := m w in
  match r with Ok a => f a w' | Er e => (Er e, w') end.
(** A pure fallible step. *)
Definition lift {A} (r : res A) : M A := λ w, (r, w).
(** [if cond { return fmt.Errorf(msg) }] *)
Definition guard (bad : bool) (msg : string) : M unit := λ w, (check (negb bad) msg, w).
(** [if err != nil { return fmt.Errorf("msg: %w", err) }] *)
Definition wrap {A} (msg : string) (m : M A) : M A := λ w,
  let '(r, w') := m w in
  (match r with Ok a => Ok a | Er e => Er (wrapw msg e) end, w').
(** The same with [%v], or a message that drops the error. *)
Definition wrapv {A} (msg : string) (m : M A) : M A := λ w,
  let '(r, w') := m w in
  (match r with Ok a => Ok a | Er e => Er (Errorf msg) end, w').
(** Run [m] and hand its result, success or error, to the continuation. *)
Definition attempt {A} (m : M A) : M (res A) := λ w,
  let '(r, w') := m w in (Ok r, w').
(** [return errors.Join(e, m())] *)
Definition throw_join {A} (e : error) (m : M unit) : M A :=
  bind (attempt m) (λ r, throw (match r with Ok _ => e | Er e2 => join_err e e2 end)).
End monad.
Arguments M B A : clear implicits.

Notation "'let!' x := m 'in' k" := (bind m (λ x, k))
  (at level 10, x pattern, m at level 100, k at level 200) : go_scope.
Notation "m ;;! k" := (bind m (λ _, k)) (at level 100, k at level 200, right associativity) : go_scope.

(** ** Primitives *)

Section primitives.
Context {B : Type} {E : Env}.
Implicit Types w : world B.

Definition tick w : world B := World (w_disk w) (w_host w) (w_locks w) (w_trace w) (S (w_tick w)).
(** The world after an event that left the files as [d]. *)
Definition did (ev : event) (d : disk) w : world B :=
  World d (w_host w) (w_locks w) (Step ev (w_disk w) d (w_locks w) :: w_trace w) (S (w_tick w)).
Definition set_locks (l : list string) w : world B := World (w_disk w) (w_host w) l (w_trace w) (w_tick w).
Definition now_fault w : fault := env_fault (w_tick w).

(** Open a private regular file without following links and read it. *)
Definition fs_read (d : dirname) (name : string) : M B file := λ w,
  match now_fault w with
  | NoFault =>
      (match w_disk w !! (d, name) with
       | None => Er ErrNotExist
       | Some (EFile f) => Ok f
       | Some _ => fail "must be a private regular file"
       end, tick w)
  | _ => (fail "read failed", tick w)
  end.

(** Check the target, write a temporary file, sync, rename, sync the directory. *)
Definition fs_replace (d : dirname) (name : string) (f : file) : M B unit := λ w,
  match w_disk w !! (d, name) with
  | Some EDir | Some EUnsafe => (fail "target must be a private regular file", tick w)
  | _ =>
      match now_fault w with
      | NoFault => (Ok tt, did (EvPublish d name f) (<[(d, name) := EFile f]> (w_disk w)) w)
      | FailAfter => (fail "sync directory", did (EvPublish d name f) (<[(d, name) := EFile f]> (w_disk w)) w)
      | _ => (fail "write failed", tick w)
      end
  end.

(** The first bytes of a file; no complete document can be relied on in it. *)
Definition torn (written : nat) (f : file) : file :=
  File (N.min (N.of_nat written) (file_size f)) None (String.substring 0 written (file_blob f)).
(** [O_CREATE|O_EXCL], write, sync; a torn or unsynced file stays behind. *)
Definition fs_create (d : dirname) (name : string) (f : file) : M B unit := λ w,
  match w_disk w !! (d, name) with
  | Some _ => (fail "file exists", tick w)
  | None =>
      match now_fault w with
      | NoFault => (Ok tt, did (EvCreate d name f) (<[(d, name) := EFile f]> (w_disk w)) w)
      | FailAfter => (fail "sync", did (EvCreate d name f) (<[(d, name) := EFile f]> (w_disk w)) w)
      | FailTorn written => (fail "short write", did (EvCreate d name f) (<[(d, name) := EFile (torn written f)]> (w_disk w)) w)
      | FailBefore => (fail "create failed", tick w)
      end
  end.

(** The same through a temporary file, renamed without replacing: what the
    name holds is complete or absent. *)
Definition fs_publish_new (d : dirname) (name : string) (f : file) : M B unit := λ w,
  match w_disk w !! (d, name) with
  | Some _ => (fail "file exists", tick w)
  | None =>
      match now_fault w with
      | NoFault => (Ok tt, did (EvCreate d name f) (<[(d, name) := EFile f]> (w_disk w)) w)
      | FailAfter => (fail "sync directory", did (EvCreate d name f) (<[(d, name) := EFile f]> (w_disk w)) w)
      | _ => (fail "write failed", tick w)
      end
  end.

Definition fs_remove (d : dirname) (name : string) : M B unit := λ w,
  match w_disk w !! (d, name) with
  | None => (Er ErrNotExist, tick w)
  | Some _ =>
      match now_fault w with
      | NoFault => (Ok tt, did (EvRemove d name) (delete (d, name) (w_disk w)) w)
      | FailAfter => (fail "sync directory", did (EvRemove d name) (delete (d, name) (w_disk w)) w)
      | _ => (fail "remove failed", tick w)
      end
  end.

(** [Mkdir], and the removal of an empty directory, whose entries are those
    of [inner]. *)
Definition fs_mkdir (d : dirname) (name : string) : M B unit := λ w,
  match w_disk w !! (d, name) with
  | Some _ => (fail "file exists", tick w)
  | None =>
      match now_fault w with
      | NoFault => (Ok tt, did (EvMkdir d name) (<[(d, name) := EDir]> (w_disk w)) w)
      | FailAfter => (fail "mkdir", did (EvMkdir d name) (<[(d, name) := EDir]> (w_disk w)) w)
      | _ => (fail "mkdir", tick w)
      end
  end.
Definition fs_rmdir (d : dirname) (name : string) (inner : dirname) : M B unit := λ w,
  match w_disk w !! (d, name) with
  | Some EDir =>
      if existsb (λ kv, bool_decide (kv.1.1 = inner)) (map_to_list (w_disk w)) then (fail "directory not empty", tick w)
      else match now_fault w with
           | NoFault => (Ok tt, did (EvRemove d name) (delete (d, name) (w_disk w)) w)
           | FailAfter => (fail "remove", did (EvRemove d name) (delete (d, name) (w_disk w)) w)
           | _ => (fail "remove failed", tick w)
           end
  | Some _ => (fail "not a directory", tick w)
  | None => (Er ErrNotExist, tick w)
  end.
(** A captured tree gets another name, without replacing anything: the directory
    in [Imports] and, with it, everything below. *)
Definition swap_name (from to n : string) : string := if String.eqb n from then to else if String.eqb n to then from else n.
Definition renamed (from to : string) (key : dirname * string) : dirname * string :=
  match key with
  | (Imports, n) => (Imports, swap_name from to n)
  | (Captured c, n) => (Captured (swap_name from to c), n)
  | _ => key
  end.
Definition fs_rename_captured (from to : string) : M B unit := λ w,
  match w_disk w !! (Imports, to), w_disk w !! (Imports, from) with
  | Some _, _ => (fail "file exists", tick w)
  | None, None => (Er ErrNotExist, tick w)
  | None, Some _ =>
      let go := did (EvRename Imports from to) (kmap (renamed from to) (w_disk w)) w in
      match now_fault w with
      | NoFault => (Ok tt, go)
      | FailAfter => (fail "rename", go)
      | _ => (fail "rename", tick w)
      end
  end.
(** A write through an open descriptor: bytes are added to the file; a failed
    one may have added some of them. *)
Definition appended (f : file) (bytes : string) : file := bytes_file (file_blob f +:+ bytes).
Definition fs_append (d : dirname) (name : string) (bytes : string) : M B unit := λ w,
  match w_disk w !! (d, name) with
  | Some (EFile f) =>
      let put b := did (EvWrite d name (appended f b)) (<[(d, name) := EFile (appended f b)]> (w_disk w)) w in
      match now_fault w with
      | NoFault => (Ok tt, put bytes)
      | FailTorn written => (fail "short write", put (String.substring 0 written bytes))
      | FailAfter => (fail "input/output error", put bytes)
      | FailBefore => (fail "input/output error", tick w)
      end
  | _ => (fail "bad file descriptor", tick w)
  end.

(** [Lstat] of one name. *)
Definition fs_lstat (d : dirname) (name : string) : M B entry := λ w,
  match now_fault w with
  | NoFault => (match w_disk w !! (d, name) with Some e => Ok e | None => Er ErrNotExist end, tick w)
  | _ => (fail "lstat failed", tick w)
  end.

(** The entries of a directory. *)
Definition dir_entries (d : dirname) (k : disk) : list (string * entry) :=
  (λ kv, (kv.1.2, kv.2)) <$> filter (λ kv, kv.1.1 = d) (map_to_list k).
Definition fs_list (d : dirname) : M B (list (string * entry)) := λ w,
  match now_fault w with
  | NoFault => (Ok (dir_entries d (w_disk w)), tick w)
  | _ => (fail "read directory", tick w)
  end.
Definition fs_sync (d : dirname) : M B unit := λ w,
  match now_fault w with NoFault => (Ok tt, tick w) | _ => (fail "sync directory", tick w) end.

(** [lock.Acquire]: a scope this process already holds is never granted (the
    descriptors differ, so flock waits until the context ends). When it is
    granted, other holders may have changed the files in the meantime. *)
Definition Acquire (scope : string) : M B unit := λ w,
  if negb (Lock.validScope scope) then (fail "invalid lock scope", w)
  else if bool_decide (scope ∈ w_locks w) then (fail "context ended while waiting for the lock", tick w)
  else match now_fault w with
       | NoFault =>
           (Ok tt, set_locks (scope :: w_locks w)
                     (did (EvAcquire scope) (env_others (w_tick w) (w_locks w) (w_disk w)) w))
       | _ => (fail "acquire lock", tick w)
       end.
(** [Held.Release]: idempotent; a failed close still gives the lock up. *)
Definition Release (scope : string) : M B unit := λ w,
  if bool_decide (scope ∈ w_locks w) then
    (match now_fault w with NoFault => Ok tt | _ => fail "close lock" end,
     set_locks (filter (λ s, s ≠ scope) (w_locks w)) (did (EvRelease scope) (w_disk w) w))
  else (Ok tt, w).

Definition AcquireSession (domain name : string) : M B unit :=
  guard (negb (Lock.validDomain domain)) "invalid lock domain" ;;!
  guard (negb (Lock.validSessionName name)) "invalid lock session name" ;;!
  Acquire (Lock.session_scope domain name).

(** [defer held.Release()]: the lock is given up after the body, whatever its
    outcome, and [join] folds the release error into the result: dropped,
    reported only when there is no other error, or joined ([errors.Join]). *)
Definition deferred {A} (join : res A → res unit → res A) (scope : string) (m : M B A) : M B A := λ w,
  let '(r, w1) := m w in let '(r2, w2) := Release scope w1 in (join r r2, w2).
Definition drop_release {A} (r : res A) (_ : res unit) : res A := r.
Definition first_release {A} (r : res A) (r2 : res unit) : res A :=
  match r, r2 with
  | Ok a, Ok _ => Ok a
  | Ok _, Er e => Er (wrapw "release lock" e)
  | Er e, _ => Er e
  end.
Definition join_release {A} (r : res A) (r2 : res unit) : res A :=
  match r, r2 with
  | Ok a, Ok _ => Ok a
  | Ok _, Er e => Er e
  | Er e, Ok _ => Er e
  | Er e, Er e2 => Er (join_err e e2)
  end.
Definition deferred_ignore {A} : string → M B A → M B A := deferred drop_release.
Definition deferred_join {A} : string → M B A → M B A := deferred join_release.
Definition deferred_first {A} : string → M B A → M B A := deferred first_release.

(** The locks given up, in this order, when the body ends. *)
Fixpoint deferred_all {A} (rel : list string) (m : M B A) : M B A :=
  match rel with
  | [] => m
  | s :: rest => deferred_all rest (deferred_join s m)
  end.
(** A call through an interface to the outside world. *)
Definition host_call {A} (ev : res A → event) (f : B → res A * B) : M B A := λ w,
  let '(r, b) := f (w_host w) in
  (r, World (w_disk w) b (w_locks w) (Step (ev r) (w_disk w) (w_disk w) (w_locks w) :: w_trace w) (w_tick w)).
(** A system call on the outside world, which may fail before or after it took
    effect, and a question to the operating system. *)
Definition host_try {A} (f : B → res A * B) : M B A := λ w,
  let go := let '(r, b) := f (w_host w) in (r, World (w_disk w) b (w_locks w) (w_trace w) (S (w_tick w))) in
  match now_fault w with
  | NoFault => go
  | FailAfter => (fail "input/output error", go.2)
  | _ => (fail "input/output error", tick w)
  end.
Definition ask {A} (f : nat → res A) : M B A := λ w, (f (w_tick w), tick w).
(** A call that is not recorded. *)
Definition host_ask {A} (f : B → res A * B) : M B A := λ w,
  let '(r, b) := f (w_host w) in (r, World (w_disk w) b (w_locks w) (w_trace w) (w_tick w)).
End primitives.

Lemma view_Some {A} (parse : file → res A) d name k a :
  view parse d name k = Some a ↔ ∃ f, k !! (d, name) = Some (EFile f) ∧ parse f = Ok a.
Proof.
  unfold view. split.
  - destruct (k !! (d, name)) as [[f| |]|]; try done. destruct (parse f) eqn:Ep; [|done]. intros [= ->]. eauto.
  - intros (f & -> & ->). done.
Qed.
Lemma view_insert {A} (parse : file → res A) d name f k a :
  parse f = Ok a → view parse d name (<[(d, name) := EFile f]> k) = Some a.
Proof. intros Hp. apply view_Some. exists f. by rewrite lookup_insert_eq. Qed.
Lemma view_insert_ne {A} (parse : file → res A) d name d' name' e k :
  (d', name') ≠ (d, name) → view parse d name (<[(d', name') := e]> k) = view parse d name k.
Proof. intros Hne. unfold view. by rewrite lookup_insert_ne. Qed.
Lemma view_delete {A} (parse : file → res A) d name k : view parse d name (delete (d, name) k) = None.
Proof. unfold view. by rewrite lookup_delete_eq. Qed.
Lemma view_delete_ne {A} (parse : file → res A) d name d' name' k :
  (d', name') ≠ (d, name) → view parse d name (delete (d', name') k) = view parse d name k.
Proof. intros Hne. unfold view. by rewrite lookup_delete_ne. Qed.
Lemma view_ext {A} (parse : file → res A) (d : dirname) (name : string) (k k' : disk) :
  k !! (d, name) = k' !! (d, name) → view parse d name k = view parse d name k'.
Proof. intros Hk. unfold view. by rewrite Hk. Qed.
