(* ===== verification/Logic.v ===== *)
(** The program logic of the effect monad: a weakest precondition that also
    constrains every recorded step by what was recorded before it, its rules for
    the combinators and the primitives, and the tactic that runs a body
    symbolically. [emits] is its instance for facts about steps that need no
    state. *)
From S2P Require Import Prelude Ids Json SessionRecord Outside World.

(** A property of a step and of the steps recorded before it (newest first). *)
Abbreviation stepP := (list step → step → Prop).

Fixpoint trace_ok (P : stepP) (new base : list step) : Prop :=
  match new with
  | [] => True
  | s :: rest => P (rest ++ base) s ∧ trace_ok P rest base
  end.

Lemma trace_ok_app P n2 n1 base :
  trace_ok P (n2 ++ n1) base ↔ trace_ok P n2 (n1 ++ base) ∧ trace_ok P n1 base.
Proof. induction n2 as [|s n2 IH]; cbn; [tauto|]. rewrite IH, <-app_assoc. tauto. Qed.
Lemma trace_ok_impl (P P' : stepP) new base :
  (∀ o s, P o s → P' o s) → trace_ok P new base → trace_ok P' new base.
Proof. intros H. induction new as [|s new IH]; cbn; naive_solver. Qed.
Lemma trace_ok_and (P P' : stepP) new base :
  trace_ok P new base → trace_ok P' new base → trace_ok (λ o s, P o s ∧ P' o s) new base.
Proof. induction new as [|s new IH]; cbn; naive_solver. Qed.
Lemma trace_ok_in P new base s :
  trace_ok P new base → s ∈ new → ∃ later earlier, new = later ++ s :: earlier ∧ P (earlier ++ base) s.
Proof.
  induction new as [|t new IH]; cbn; [intros _ Hin; by apply not_elem_of_nil in Hin|].
  intros [Ht Hn] [->|Hin]%elem_of_cons.
  - exists [], new. done.
  - destruct (IH Hn Hin) as (l & e & -> & HP). by exists (t :: l), e.
Qed.

Section wp.
Context {B : Type} {E : Env}.
Implicit Types (w : world B) (P : stepP).

(** From [w], [m] ends in a state and result that satisfy [Q], and every
    step it records on the way satisfies [P]. *)
Definition wp {A} P (m : M B A) (Q : res A → world B → Prop) w : Prop :=
  let '(r, w') := m w in
  Q r w' ∧ ∃ new, w_trace w' = new ++ w_trace w ∧ trace_ok P new (w_trace w).

Definition okQ {A} (Q : A → world B → Prop) : res A → world B → Prop :=
  λ r w, match r with Ok a => Q a w | Er _ => True end.

(** Every step satisfies [P], from every state. *)
Definition emits {A} P (m : M B A) : Prop := ∀ w, wp P m (λ _ _, True) w.
(** [m] leaves the files alone. *)
Definition reads {A} (m : M B A) : Prop := ∀ w, w_disk (m w).2 = w_disk w.

Lemma wp_conseq {A} P (m : M B A) (Q Q' : res A → world B → Prop) w :
  wp P m Q w → (∀ r w', Q r w' → Q' r w') → wp P m Q' w.
Proof. unfold wp. destruct (m w) as [r w']. intros [HQ Ht] H. auto. Qed.
Lemma wp_impl {A} P P' (m : M B A) Q w : (∀ o s, P o s → P' o s) → wp P m Q w → wp P' m Q w.
Proof.
  unfold wp. destruct (m w) as [r w']. intros H [HQ (new & Ht & HP)].
  split; [done|]. exists new. split; [done|]. by eapply trace_ok_impl.
Qed.
Lemma wp_and {A} P P' (m : M B A) Q Q' w :
  wp P m Q w → wp P' m Q' w → wp (λ o s, P o s ∧ P' o s) m (λ r w', Q r w' ∧ Q' r w') w.
Proof.
  unfold wp. destruct (m w) as [r w']. intros [HQ (new & Ht & HP)] [HQ' (new' & Ht' & HP')].
  split; [done|]. exists new. split; [done|].
  assert (new' = new) as -> by (rewrite Ht in Ht'; by apply app_inv_tail in Ht').
  by apply trace_ok_and.
Qed.
(** What was recorded before stays recorded. *)
Lemma wp_since {A} P (m : M B A) Q w :
  wp P m Q w → wp (λ o s, P o s ∧ w_trace w ⊆ o) m (λ r w', Q r w' ∧ w_trace w ⊆ w_trace w') w.
Proof.
  unfold wp. destruct (m w) as [r w']. intros [HQ (new & Ht & HP)].
  split; [split; [done|rewrite Ht; set_solver]|]. exists new. split; [done|]. clear -HP.
  induction new as [|s new IH]; cbn in *; [done|]. destruct HP as [HP Hn]. split; [split; [done|set_solver]|auto].
Qed.
(** What was recorded before is the end of what is recorded after. *)
Lemma wp_extends {A} P (m : M B A) Q w :
  wp P m Q w → wp P m (λ r w', Q r w' ∧ ∃ new, w_trace w' = new ++ w_trace w) w.
Proof. unfold wp. destruct (m w) as [r w']. intros [HQ (new & Ht & HP)]. eauto 6. Qed.
Lemma wp_intro {A} P (m : M B A) Q w r w' :
  m w = (r, w') → wp P m Q w → Q r w' ∧ ∃ new, w_trace w' = new ++ w_trace w ∧ trace_ok P new (w_trace w).
Proof. unfold wp. by intros ->. Qed.

Lemma wp_result {A} P (m : M B A) Q w : wp P m Q w → Q (m w).1 (m w).2.
Proof. unfold wp. destruct (m w) as [r w']. by intros [HQ _]. Qed.
Lemma wp_ret {A} P (a : A) Q w : Q (Ok a) w → wp P (ret a) Q w.
Proof. intros H. split; [done|]. by exists []. Qed.
Lemma wp_lift {A} P (r : res A) Q w : Q r w → wp P (lift r) Q w.
Proof. intros H. split; [done|]. by exists []. Qed.
Lemma wp_throw {A} P e (Q : res A → _ → Prop) w : Q (Er e) w → wp P (throw e) Q w.
Proof. intros H. split; [done|]. by exists []. Qed.
Lemma wp_guard P bad msg Q w :
  (bad = false → Q (Ok tt) w) → (bad = true → Q (Er (Errorf msg)) w) → wp P (guard bad msg) Q w.
Proof. intros H1 H2. unfold wp, guard. destruct bad; cbn; (split; [auto|by exists []]). Qed.

Lemma wp_bind {A C} P (m : M B A) (f : A → M B C) Q w :
  wp P m (λ r w', match r with Ok a => wp P (f a) Q w' | Er e => Q (Er e) w' end) w →
  wp P (bind m f) Q w.
Proof.
  unfold wp, bind. destruct (m w) as [[a|e] w1]; intros [H1 (n1 & T1 & P1)].
  - destruct (f a w1) as [r w2]. destruct H1 as [H2 (n2 & T2 & P2)]. split; [done|].
    exists (n2 ++ n1). split; [by rewrite T2, T1, app_assoc|]. rewrite trace_ok_app, <-T1. done.
  - split; [done|]. eauto.
Qed.
Lemma wp_assoc {A C A'} P (m : M B A) (f : A → M B C) (g : C → M B A') Q w :
  wp P (bind (bind m f) g) Q w → wp P (bind m (λ a, bind (f a) g)) Q w.
Proof. unfold wp, bind. by destruct (m w) as [[a|e] w1]. Qed.
Lemma wp_wrap {A} P msg (m : M B A) Q w :
  wp P m (λ r w', Q (match r with Ok a => Ok a | Er e => Er (wrapw msg e) end) w') w →
  wp P (wrap msg m) Q w.
Proof. unfold wp, wrap. by destruct (m w) as [[a|e] w1]. Qed.
Lemma wp_wrapv {A} P msg (m : M B A) Q w :
  wp P m (λ r w', Q (match r with Ok a => Ok a | Er e => Er (Errorf msg) end) w') w →
  wp P (wrapv msg m) Q w.
Proof. unfold wp, wrapv. by destruct (m w) as [[a|e] w1]. Qed.
Lemma wp_attempt {A} P (m : M B A) Q w :
  wp P m (λ r w', Q (Ok r) w') w → wp P (attempt m) Q w.
Proof. unfold wp, attempt. by destruct (m w) as [[a|e] w1]. Qed.
Lemma wp_deferred {A} P join scope (m : M B A) Q w :
  wp P m (λ r w1, wp P (Release scope) (λ r2 w2, Q (join r r2) w2) w1) w → wp P (deferred join scope m) Q w.
Proof.
  unfold wp, deferred. destruct (m w) as [r w1]. intros [H1 (n1 & T1 & P1)].
  destruct (Release scope w1) as [r2 w2]. destruct H1 as [H2 (n2 & T2 & P2)]. split; [done|].
  exists (n2 ++ n1). split; [by rewrite T2, T1, app_assoc|]. rewrite trace_ok_app, <-T1. done.
Qed.

(** *** Primitives *)
Definition file_at (d : dirname) (name : string) (k : disk) (f : file) : Prop := k !! (d, name) = Some (EFile f).

Lemma wp_fs_read P d name (Q : res file → world B → Prop) w :
  (∀ f, w_disk w !! (d, name) = Some (EFile f) → Q (Ok f) (tick w)) →
  (w_disk w !! (d, name) = None → Q (Er ErrNotExist) (tick w)) →
  (∀ e, err_not_exist e = false → Q (Er e) (tick w)) →
  wp P (fs_read d name) Q w.
Proof.
  intros H1 H2 H3. unfold wp, fs_read.
  destruct (now_fault w); [destruct (w_disk w !! (d, name)) as [[| |]|]|..];
    (split; [first [by auto|by apply H3]|by exists []]).
Qed.
Lemma wp_fs_list P d (Q : res (list (string * entry)) → world B → Prop) w :
  Q (Ok (dir_entries d (w_disk w))) (tick w) →
  (∀ e, err_not_exist e = false → Q (Er e) (tick w)) →
  wp P (fs_list d) Q w.
Proof. intros H1 H2. unfold wp, fs_list. destruct (now_fault w); (split; [first [done|by apply H2]|by exists []]). Qed.
Lemma wp_fs_sync P d (Q : res unit → world B → Prop) w :
  (∀ r, Q r (tick w)) → wp P (fs_sync d) Q w.
Proof. intros H. unfold wp, fs_sync. destruct (now_fault w); (split; [by auto|by exists []]). Qed.
Lemma wp_fs_replace P d name f (Q : res unit → world B → Prop) w :
  let k := <[(d, name) := EFile f]> (w_disk w) in
  P (w_trace w) (Step (EvPublish d name f) (w_disk w) k (w_locks w)) →
  (∀ r, Q r (did (EvPublish d name f) k w)) →
  (∀ e, err_not_exist e = false → Q (Er e) (tick w)) →
  wp P (fs_replace d name f) Q w.
Proof.
  intros k HP H1 H2. unfold wp, fs_replace.
  destruct (w_disk w !! (d, name)) as [[| |]|]; destruct (now_fault w);
    (split; [first [by apply H1|by apply H2]|]);
    first [by exists []|eexists [_]; split; [reflexivity|by split]].
Qed.
Lemma wp_fs_create P d name f (Q : res unit → world B → Prop) w :
  (w_disk w !! (d, name) = None →
   ∀ f', f' = f ∨ file_docs f' = None →
   let k := <[(d, name) := EFile f']> (w_disk w) in
   P (w_trace w) (Step (EvCreate d name f) (w_disk w) k (w_locks w)) ∧
   (f' = f → Q (Ok tt) (did (EvCreate d name f) k w)) ∧ (∀ e, Q (Er e) (did (EvCreate d name f) k w))) →
  (∀ e, err_not_exist e = false → Q (Er e) (tick w)) →
  wp P (fs_create d name f) Q w.
Proof.
  intros H1 H2. unfold wp, fs_create.
  destruct (w_disk w !! (d, name)) as [e|] eqn:Ek.
  { split; [by apply H2|by exists []]. }
  specialize (H1 eq_refl).
  destruct (now_fault w).
  - destruct (H1 f (or_introl eq_refl)) as (HP & Ho & _). split; [auto|]. eexists [_]. split; [reflexivity|by split].
  - split; [by apply H2|by exists []].
  - destruct (H1 (torn written f) (or_intror eq_refl)) as (HP & _ & He).
    split; [apply He|]. eexists [_]. split; [reflexivity|by split].
  - destruct (H1 f (or_introl eq_refl)) as (HP & _ & He). split; [apply He|]. eexists [_]. split; [reflexivity|by split].
Qed.
Lemma wp_fs_publish_new P d name f (Q : res unit → world B → Prop) w :
  let k := <[(d, name) := EFile f]> (w_disk w) in
  (w_disk w !! (d, name) = None →
   P (w_trace w) (Step (EvCreate d name f) (w_disk w) k (w_locks w)) ∧ ∀ r, Q r (did (EvCreate d name f) k w)) →
  (∀ e, err_not_exist e = false → Q (Er e) (tick w)) →
  wp P (fs_publish_new d name f) Q w.
Proof.
  intros k H1 H2. unfold wp, fs_publish_new.
  destruct (w_disk w !! (d, name)) as [e|] eqn:Ek; [split; [by apply H2|by exists []]|].
  destruct (H1 eq_refl) as [HP HQ].
  destruct (now_fault w); (split; [first [by apply HQ|by apply H2]|]);
    first [by exists []|eexists [_]; split; [reflexivity|by split]].
Qed.
Lemma wp_fs_remove P d name (Q : res unit → world B → Prop) w :
  (∀ e, w_disk w !! (d, name) = Some e →
   let k := delete (d, name) (w_disk w) in
   P (w_trace w) (Step (EvRemove d name) (w_disk w) k (w_locks w)) ∧ ∀ r, Q r (did (EvRemove d name) k w)) →
  (∀ e, Q (Er e) (tick w)) →
  wp P (fs_remove d name) Q w.
Proof.
  intros H1 H2. unfold wp, fs_remove.
  destruct (w_disk w !! (d, name)) as [e|] eqn:Ek.
  - destruct (H1 e eq_refl) as [HP H].
    destruct (now_fault w); (split; [first [apply H|apply H2]|]);
      first [by exists []|eexists [_]; split; [reflexivity|by split]].
  - split; [apply H2|by exists []].
Qed.

Lemma wp_fs_mkdir P d name (Q : res unit → world B → Prop) w :
  (w_disk w !! (d, name) = None →
   let k := <[(d, name) := EDir]> (w_disk w) in
   P (w_trace w) (Step (EvMkdir d name) (w_disk w) k (w_locks w)) ∧ ∀ r, Q r (did (EvMkdir d name) k w)) →
  (∀ e, Q (Er e) (tick w)) →
  wp P (fs_mkdir d name) Q w.
Proof.
  intros H1 H2. unfold wp, fs_mkdir.
  destruct (w_disk w !! (d, name)) as [e|] eqn:Ek; [split; [apply H2|by exists []]|].
  destruct (H1 eq_refl) as [HP HQ].
  destruct (now_fault w); (split; [first [apply HQ|apply H2]|]);
    first [by exists []|eexists [_]; split; [reflexivity|by split]].
Qed.
(** Nothing is left in the directory [inner]. *)
Definition no_entries (inner : dirname) (k : disk) : Prop := ∀ name, k !! (inner, name) = None.
Lemma wp_fs_rmdir P d name inner (Q : res unit → world B → Prop) w :
  (w_disk w !! (d, name) = Some EDir → no_entries inner (w_disk w) →
   let k := delete (d, name) (w_disk w) in
   P (w_trace w) (Step (EvRemove d name) (w_disk w) k (w_locks w)) ∧ ∀ r, Q r (did (EvRemove d name) k w)) →
  (∀ e, Q (Er e) (tick w)) →
  wp P (fs_rmdir d name inner) Q w.
Proof.
  intros H1 H2. unfold wp, fs_rmdir.
  destruct (w_disk w !! (d, name)) as [[]|] eqn:Ek; try (split; [apply H2|by exists []]).
  destruct (existsb _ _) eqn:Ex; [split; [apply H2|by exists []]|].
  destruct (H1 eq_refl) as [HP HQ].
  { intros n. destruct (w_disk w !! (inner, n)) as [e|] eqn:He; [|done]. exfalso.
    apply not_true_iff_false in Ex. apply Ex, existsb_exists. exists ((inner, n), e). split; [|by apply bool_decide_eq_true].
    by apply list_elem_of_In, elem_of_map_to_list. }
  destruct (now_fault w); (split; [first [apply HQ|apply H2]|]);
    first [by exists []|eexists [_]; split; [reflexivity|by split]].
Qed.
Lemma wp_fs_append P d name bytes (Q : res unit → world B → Prop) w :
  (∀ f b, w_disk w !! (d, name) = Some (EFile f) →
   let k := <[(d, name) := EFile (appended f b)]> (w_disk w) in
   P (w_trace w) (Step (EvWrite d name (appended f b)) (w_disk w) k (w_locks w)) ∧
   (b = bytes → Q (Ok tt) (did (EvWrite d name (appended f b)) k w)) ∧
   ∀ e, Q (Er e) (did (EvWrite d name (appended f b)) k w)) →
  (∀ e, Q (Er e) (tick w)) →
  wp P (fs_append d name bytes) Q w.
Proof.
  intros H1 H2. unfold wp, fs_append.
  destruct (w_disk w !! (d, name)) as [[f| |]|] eqn:Ek; try (split; [apply H2|by exists []]).
  destruct (now_fault w) as [| |written|].
  - destruct (H1 f bytes eq_refl) as (HP & Ho & _). split; [by apply Ho|]. eexists [_]. split; [reflexivity|by split].
  - split; [apply H2|by exists []].
  - destruct (H1 f (String.substring 0 written bytes) eq_refl) as (HP & _ & He). split; [apply He|]. eexists [_]. split; [reflexivity|by split].
  - destruct (H1 f bytes eq_refl) as (HP & _ & He). split; [apply He|]. eexists [_]. split; [reflexivity|by split].
Qed.

Definition acquired (scope : string) w : world B :=
  set_locks (scope :: w_locks w) (did (EvAcquire scope) (env_others (w_tick w) (w_locks w) (w_disk w)) w).
Lemma wp_Acquire P scope (Q : res unit → world B → Prop) w :
  (Lock.validScope scope = true → scope ∉ w_locks w →
   P (w_trace w) (Step (EvAcquire scope) (w_disk w) (env_others (w_tick w) (w_locks w) (w_disk w)) (w_locks w)) ∧ Q (Ok tt) (acquired scope w)) →
  (∀ e, Q (Er e) w ∧ Q (Er e) (tick w)) →
  wp P (Acquire scope) Q w.
Proof.
  intros H1 H2. unfold wp, Acquire.
  destruct (Lock.validScope scope) eqn:Ev; cbn; [|split; [by apply H2|by exists []]].
  destruct (decide (scope ∈ w_locks w)) as [Hin|Hin].
  - rewrite bool_decide_true by done. split; [by apply H2|by exists []].
  - rewrite bool_decide_false by done. destruct (H1 eq_refl Hin) as [HP HQ].
    destruct (now_fault w); (split; [first [done|by apply H2]|]); first [by exists []|eexists [_]; split; [reflexivity|by split]].
Qed.
Definition released (scope : string) w : world B :=
  set_locks (filter (λ s, s ≠ scope) (w_locks w)) (did (EvRelease scope) (w_disk w) w).
Lemma wp_Release P scope (Q : res unit → world B → Prop) w :
  (P (w_trace w) (Step (EvRelease scope) (w_disk w) (w_disk w) (w_locks w))) →
  (∀ r, scope ∈ w_locks w → Q r (released scope w)) →
  (scope ∉ w_locks w → Q (Ok tt) w) →
  wp P (Release scope) Q w.
Proof.
  intros HP H1 H2. unfold wp, Release.
  destruct (decide (scope ∈ w_locks w)) as [Hin|Hin].
  - rewrite bool_decide_true by done. split; [by apply H1|]. eexists [_]. split; [reflexivity|by split].
  - rewrite bool_decide_false by done. split; [by apply H2|by exists []].
Qed.
Definition asked {A} (ev : res A → event) (r : res A) (b : B) w : world B :=
  World (w_disk w) b (w_locks w) (Step (ev r) (w_disk w) (w_disk w) (w_locks w) :: w_trace w) (w_tick w).
Lemma wp_host_call {A} P (ev : res A → event) (f : B → res A * B) (Q : res A → world B → Prop) w :
  (∀ r b, f (w_host w) = (r, b) → P (w_trace w) (Step (ev r) (w_disk w) (w_disk w) (w_locks w)) ∧ Q r (asked ev r b w)) →
  wp P (host_call ev f) Q w.
Proof.
  intros HQ. unfold wp, host_call. destruct (f (w_host w)) as [r b] eqn:Ef.
  destruct (HQ r b eq_refl) as [HP H]. split; [done|]. eexists [_]. split; [reflexivity|by split].
Qed.
Lemma wp_host_ask {A} P (f : B → res A * B) (Q : res A → world B → Prop) w :
  (let '(r, b) := f (w_host w) in Q r (World (w_disk w) b (w_locks w) (w_trace w) (w_tick w))) →
  wp P (host_ask f) Q w.
Proof.
  intros HQ. unfold wp, host_ask. destruct (f (w_host w)) as [r b]. split; [done|]. by exists [].
Qed.
End wp.

(** ** Quiet computations: nothing changes but the clock of the primitives *)

Definition retick {B} (n : nat) (w : world B) : world B :=
  World (w_disk w) (w_host w) (w_locks w) (w_trace w) n.

Section quiet.
Context {B : Type} {E : Env}.
Implicit Types w : world B.

Definition quiet {A} (m : M B A) : Prop := ∀ w, ∃ r n, m w = (r, retick n w).

Lemma retick_self w : w = retick (w_tick w) w.
Proof. by destruct w. Qed.
Lemma wp_quiet {A} P (m : M B A) Q w :
  quiet m → (∀ r n, m w = (r, retick n w) → Q r (retick n w)) → wp P m Q w.
Proof.
  intros Hm H. destruct (Hm w) as (r & n & Hr). unfold wp. rewrite Hr.
  split; [auto|]. by exists [].
Qed.

Lemma quiet_ret {A} (a : A) : quiet (ret a : M B A).
Proof. intros w. exists (Ok a), (w_tick w). by rewrite <-retick_self. Qed.
Lemma quiet_throw {A} e : quiet (throw e : M B A).
Proof. intros w. exists (Er e), (w_tick w). by rewrite <-retick_self. Qed.
Lemma quiet_lift {A} r : quiet (lift r : M B A).
Proof. intros w. exists r, (w_tick w). by rewrite <-retick_self. Qed.
Lemma quiet_guard bad msg : quiet (guard bad msg : M B unit).
Proof. intros w. eexists _, (w_tick w). by rewrite <-retick_self. Qed.
Lemma quiet_bind {A C} (m : M B A) (f : A → M B C) : quiet m → (∀ a, quiet (f a)) → quiet (bind m f).
Proof.
  intros Hm Hf w. unfold bind. destruct (Hm w) as ([a|e] & n & ->); [|by eexists _, n].
  destruct (Hf a (retick n w)) as (r & n' & ->). by exists r, n'.
Qed.
Lemma quiet_wrap {A} msg (m : M B A) : quiet m → quiet (wrap msg m).
Proof. intros Hm w. unfold wrap. destruct (Hm w) as (r & n & ->). by eexists _, n. Qed.
Lemma quiet_wrapv {A} msg (m : M B A) : quiet m → quiet (wrapv msg m).
Proof. intros Hm w. unfold wrapv. destruct (Hm w) as (r & n & ->). by eexists _, n. Qed.
Lemma quiet_attempt {A} (m : M B A) : quiet m → quiet (attempt m).
Proof. intros Hm w. unfold attempt. destruct (Hm w) as (r & n & ->). by eexists _, n. Qed.
Lemma quiet_fs_read d name : quiet (fs_read d name : M B file).
Proof. intros w. unfold fs_read. destruct (now_fault w); by eexists _, _. Qed.
Lemma quiet_fs_lstat d name : quiet (fs_lstat d name : M B entry).
Proof. intros w. unfold fs_lstat. destruct (now_fault w); by eexists _, _. Qed.
Lemma quiet_fs_list d : quiet (fs_list d : M B _).
Proof. intros w. unfold fs_list. destruct (now_fault w); by eexists _, _. Qed.
Lemma quiet_fs_sync d : quiet (fs_sync d : M B unit).
Proof. intros w. unfold fs_sync. destruct (now_fault w); by eexists _, _. Qed.
End quiet.

Create HintDb quiet discriminated.
#[export] Hint Resolve quiet_ret quiet_throw quiet_lift quiet_guard quiet_bind quiet_wrap quiet_wrapv quiet_attempt
  quiet_fs_read quiet_fs_lstat quiet_fs_list quiet_fs_sync : quiet.
(** Quietness of a body built from quiet parts: its case distinctions first. *)
Ltac quiet_tac :=
  repeat first
    [ match goal with |- ∀ _, _ => intro end
    | solve [eauto 3 with quiet]
    | match goal with
      | |- quiet (bind _ _) => apply quiet_bind
      | |- quiet (wrap _ _) => apply quiet_wrap
      | |- quiet (wrapv _ _) => apply quiet_wrapv
      | |- quiet (attempt _) => apply quiet_attempt
      | |- quiet (if ?x then _ else _) => destruct x
      | |- quiet (match ?x with _ => _ end) => destruct x end ].

(** ** Silent computations: the files, the locks and the record are left alone,
    the outside world may change *)

Definition rehost {B} (b : B) (n : nat) (w : world B) : world B := World (w_disk w) b (w_locks w) (w_trace w) n.
Section silent.
Context {B : Type} {E : Env}.
Implicit Types w : world B.

Definition silent {A} (m : M B A) : Prop := ∀ w, ∃ r b n, m w = (r, rehost b n w).
Lemma wp_silent {A} S (m : M B A) Q w :
  silent m → (∀ r b n, m w = (r, rehost b n w) → Q r (rehost b n w)) → wp S m Q w.
Proof. intros Hm H. destruct (Hm w) as (r & b & n & Hr). unfold wp. rewrite Hr. split; [auto|]. by exists []. Qed.
Lemma silent_quiet {A} (m : M B A) : quiet m → silent m.
Proof. intros Hm w. destruct (Hm w) as (r & n & ->). by exists r, (w_host w), n. Qed.
Lemma silent_bind {A C} (m : M B A) (f : A → M B C) : silent m → (∀ a, silent (f a)) → silent (bind m f).
Proof.
  intros Hm Hf w. unfold bind. destruct (Hm w) as ([a|e] & b & n & ->); [|by eexists _, b, n].
  destruct (Hf a (rehost b n w)) as (r & b' & n' & ->). by exists r, b', n'.
Qed.
Lemma silent_wrap {A} msg (m : M B A) : silent m → silent (wrap msg m).
Proof. intros Hm w. unfold wrap. destruct (Hm w) as (r & b & n & ->). by eexists _, b, n. Qed.
Lemma silent_host_try {A} (f : B → res A * B) : silent (host_try f).
Proof.
  intros w. unfold host_try. destruct (f (w_host w)) as [r b]. destruct (now_fault w); first [by eexists _, b, _|by eexists _, (w_host w), _].
Qed.
Lemma quiet_host_try {A} (f : B → res A * B) : (∀ b, (f b).2 = b) → quiet (host_try f).
Proof.
  intros Hf w. unfold host_try. specialize (Hf (w_host w)). destruct (f (w_host w)) as [r b]. cbn in Hf. subst b.
  destruct (now_fault w); by eexists _, _.
Qed.
Lemma quiet_ask {A} (f : nat → res A) : quiet (ask f : M B A).
Proof. intros w. by eexists _, _. Qed.
End silent.
#[export] Hint Resolve quiet_ask : quiet.

(** ** Successful runs *)

Section ok.
Context {B : Type} {E : Env}.
Implicit Types w : world B.

Lemma bind_ok {A C} (m : M B A) (f : A → M B C) w c w' :
  bind m f w = (Ok c, w') → ∃ a w1, m w = (Ok a, w1) ∧ f a w1 = (Ok c, w').
Proof. unfold bind. destruct (m w) as [[a|e] w1]; [eauto|]. congruence. Qed.
Lemma wrap_ok {A} msg (m : M B A) w a w' : wrap msg m w = (Ok a, w') → m w = (Ok a, w').
Proof. unfold wrap. destruct (m w) as [[x|e] w1]; congruence. Qed.
Lemma wrapv_ok {A} msg (m : M B A) w a w' : wrapv msg m w = (Ok a, w') → m w = (Ok a, w').
Proof. unfold wrapv. destruct (m w) as [[x|e] w1]; congruence. Qed.
Lemma lift_ok {A} (r : res A) w a w' : lift r w = (Ok a, w') → r = Ok a ∧ w' = w.
Proof. unfold lift. naive_solver. Qed.
Lemma ret_ok {A} (x : A) w a w' : ret x w = (Ok a, w') → a = x ∧ w' = w.
Proof. unfold ret. naive_solver. Qed.
Lemma guard_ok bad msg w u w' : guard bad msg w = (Ok u, w') → bad = false ∧ w' = w.
Proof. unfold guard, check, fail. destruct bad; naive_solver. Qed.
Lemma attempt_ok {A} (m : M B A) w r w' : attempt m w = (Ok r, w') → m w = (r, w').
Proof. unfold attempt. destruct (m w). congruence. Qed.
Lemma throw_ok {A} e w (a : A) w' : throw e w = (Ok a, w') → False.
Proof. unfold throw. congruence. Qed.
Lemma fs_read_ok d name w f w' :
  fs_read d name w = (Ok f, w') → w_disk w !! (d, name) = Some (EFile f) ∧ w' = tick w.
Proof.
  unfold fs_read. destruct (now_fault w); [|try done..].
  destruct (w_disk w !! (d, name)) as [[| |]|]; naive_solver.
Qed.
Lemma fs_list_ok d w l w' : fs_list d w = (Ok l, w') → l = dir_entries d (w_disk w) ∧ w' = tick w.
Proof. unfold fs_list. destruct (now_fault w); naive_solver. Qed.
Lemma fs_read_not_exist d name w e w' :
  fs_read d name w = (Er e, w') → err_not_exist e = true → w_disk w !! (d, name) = None.
Proof.
  unfold fs_read, fail. destruct (now_fault w); [|intros [= <- _]; done..].
  destruct (w_disk w !! (d, name)) as [[| |]|]; [done|intros [= <- _]; done..|done].
Qed.

Lemma bind_er {A C} (m : M B A) (f : A → M B C) w e w' :
  bind m f w = (Er e, w') → m w = (Er e, w') ∨ ∃ a w1, m w = (Ok a, w1) ∧ f a w1 = (Er e, w').
Proof. unfold bind. destruct (m w) as [[a|e1] w1]; [eauto|]. intros [= <- <-]. auto. Qed.
Lemma lift_bind_er {A C} (r : res A) (f : A → M B C) w e w' :
  bind (lift r) f w = (Er e, w') → r = Er e ∨ ∃ a, r = Ok a ∧ f a w = (Er e, w').
Proof. unfold bind, lift. destruct r as [a|e1]; [eauto|]. intros [= <- <-]. auto. Qed.
Lemma wrap_er {A} msg (m : M B A) w e w' :
  wrap msg m w = (Er e, w') → ∃ e0, m w = (Er e0, w') ∧ e = wrapw msg e0.
Proof. unfold wrap. destruct (m w) as [[a|e1] w1]; [done|]. intros [= <- <-]. eauto. Qed.
Lemma lift_er {A} (r : res A) w e w' : lift r w = (Er e, w') → r = Er e ∧ w' = w.
Proof. unfold lift. naive_solver. Qed.

Lemma dir_entries_spec (d : dirname) (k : disk) (name : string) (e : entry) : (name, e) ∈ dir_entries d k ↔ k !! (d, name) = Some e.
Proof.
  unfold dir_entries. rewrite list_elem_of_fmap. split.
  - intros ([[d' n'] e'] & [= -> ->] & Hin). apply list_elem_of_filter in Hin as [Hd Hin]. cbn in Hd. subst.
    by apply elem_of_map_to_list in Hin.
  - intros Hk. exists ((d, name), e). split; [done|]. apply list_elem_of_filter. split; [done|].
    by apply elem_of_map_to_list.
Qed.
Lemma dir_entries_nodup (d : dirname) (k : disk) : NoDup (dir_entries d k).*1.
Proof.
  unfold dir_entries. rewrite <-list_fmap_compose.
  apply NoDup_fmap_2_strong.
  - intros [[d1 n1] e1] [[d2 n2] e2] H1 H2 Hn. apply list_elem_of_filter in H1 as [Hd1 H1], H2 as [Hd2 H2].
    cbn in *. subst. apply elem_of_map_to_list in H1, H2. congruence.
  - apply NoDup_filter, NoDup_map_to_list.
Qed.
End ok.

(** Run a successful computation backwards through its combinators. *)
Ltac ok_inv :=
  repeat match goal with
  | H : bind _ _ ?w = (Ok _, _) |- _ =>
      let a := fresh "a" in let w1 := fresh "w" in let Ha := fresh "Ha" in
      apply bind_ok in H as (a & w1 & Ha & H)
  | H : wrap _ _ _ = (Ok _, _) |- _ => apply wrap_ok in H
  | H : wrapv _ _ _ = (Ok _, _) |- _ => apply wrapv_ok in H
  | H : lift _ _ = (Ok _, _) |- _ => apply lift_ok in H as [H ->]
  | H : ret _ _ = (Ok _, _) |- _ => apply ret_ok in H as [-> ->]
  | H : guard _ _ _ = (Ok _, _) |- _ => apply guard_ok in H as [H ->]
  | H : attempt _ _ = (Ok _, _) |- _ => apply attempt_ok in H
  | H : throw _ _ = (Ok _, _) |- _ => apply throw_ok in H; destruct H
  end.

(** ** Locks: regions that give them up whatever the outcome *)

(** [P] says nothing about lock steps. *)
Definition lock_free (P : stepP) : Prop :=
  ∀ o s sc, st_event s = EvAcquire sc ∨ st_event s = EvRelease sc → P o s.
(** Some earlier step satisfies [R], and no lock was taken since: what it saw
    of the files protected by the locks held then is still so. *)
Definition recently (R : step → Prop) (o : list step) : Prop :=
  ∃ later s earlier, o = later ++ s :: earlier ∧ R s ∧ ∀ t sc, t ∈ later → st_event t ≠ EvAcquire sc.
Lemma recently_here (R : step → Prop) s o : R s → recently R (s :: o).
Proof. intros H. exists [], s, o. split_and!; [done|done|]. intros t sc Ht. by apply not_elem_of_nil in Ht. Qed.
Lemma recently_cons (R : step → Prop) s o : (∀ sc, st_event s ≠ EvAcquire sc) → recently R o → recently R (s :: o).
Proof.
  intros Hs (later & t & earlier & -> & Ht & Hl). exists (s :: later), t, earlier. split_and!; [done|done|].
  intros u sc [->|Hu]%elem_of_cons; auto.
Qed.

Lemma filter_all (P : string → Prop) `{!∀ x, Decision (P x)} (l : list string) : (∀ x, x ∈ l → P x) → filter P l = l.
Proof.
  induction l as [|x l IH]; [done|]. intros Hl. rewrite filter_cons_True by (apply Hl; set_solver).
  by rewrite IH by (intros; apply Hl; set_solver).
Qed.
Lemma filter_drop (P : string → Prop) `{!∀ x, Decision (P x)} (l1 l2 : list string) :
  (∀ x, x ∈ l1 → ¬ P x) → (∀ x, x ∈ l2 → P x) → filter P (l1 ++ l2) = l2.
Proof.
  induction l1 as [|x l1 IH]; intros H1 H2; [by apply filter_all|]. cbn [app].
  rewrite filter_cons_False by (apply H1; set_solver). apply IH; [|done]. intros y Hy. apply H1. set_solver.
Qed.
Lemma filter_absent (s : string) (l : list string) : s ∉ l → filter (λ x, x ≠ s) l = l.
Proof. intros H. apply filter_all. intros x Hx ->. done. Qed.
Lemma filter_head (s : string) (l : list string) : s ∉ l → filter (λ x, x ≠ s) (s :: l) = l.
Proof. intros H. rewrite filter_cons_False by (intros Hn; by apply Hn). by apply filter_absent. Qed.

Section locks.
Context {B : Type} {E : Env}.
Implicit Types (w : world B) (P : stepP).

(** A postcondition on the result, the files and the outside world, with the
    locks left as given. *)
Definition leaves {A} (L : list string) (Q : res A → disk → B → Prop) : res A → world B → Prop :=
  λ r w, w_locks w = L ∧ Q r (w_disk w) (w_host w).
(** The release error may be folded into the result. *)
Definition closed {A} (join : res A → res unit → res A) (Q : res A → disk → B → Prop) : Prop :=
  ∀ r r2 d h, Q r d h → Q (join r r2) d h.

Lemma wp_leaves {A} P (m : M B A) L (Q : res A → disk → B → Prop) (Q' : res A → world B → Prop) w :
  wp P m (leaves L Q) w → (∀ r w', w_locks w' = L → Q r (w_disk w') (w_host w') → Q' r w') → wp P m Q' w.
Proof. intros H HQ. eapply wp_conseq; [done|]. intros r w' [HL HQ']. auto. Qed.
Lemma wp_deferred_leaves {A} P join scope (m : M B A) L (Q : res A → disk → B → Prop) w :
  lock_free P → closed join Q → scope ∉ L →
  wp P m (leaves (scope :: L) Q) w → wp P (deferred join scope m) (leaves L Q) w.
Proof.
  intros HP HQ Hs H. apply wp_deferred. eapply wp_conseq; [exact H|]. intros r w1 [HL Hr].
  apply wp_Release; [eapply HP; cbn; eauto|..].
  - intros r2 _. split; [|by apply HQ]. cbn. by rewrite HL, filter_head.
  - intros Hn. rewrite HL in Hn. set_solver.
Qed.
Lemma wp_deferred_filter {A} P join scope (m : M B A) (Q1 Q : res A → world B → Prop) w :
  lock_free P →
  (∀ r r2 w1 w2, w_locks w2 = filter (λ s, s ≠ scope) (w_locks w1) → w_disk w2 = w_disk w1 → w_host w2 = w_host w1 →
     w_trace w1 ⊆ w_trace w2 → Q1 r w1 → Q (join r r2) w2) →
  wp P m Q1 w → wp P (deferred join scope m) Q w.
Proof.
  intros HP HQ Hm. apply wp_deferred. eapply wp_conseq; [exact Hm|]. intros r w1 Hr.
  apply wp_Release; [eapply HP; cbn; eauto|..].
  - intros r2 _. apply (HQ r r2 w1); try done. cbn. set_solver.
  - intros Hn. apply (HQ r (Ok tt) w1); try done. by rewrite filter_absent.
Qed.
Lemma wp_deferred_all {A} P rel (m : M B A) L (Q : res A → disk → B → Prop) w :
  lock_free P → closed join_release Q →
  wp P m (leaves L Q) w → wp P (deferred_all rel m) (leaves (filter (λ s, s ∉ rel) L) Q) w.
Proof.
  intros HP HQ. revert m L w. induction rel as [|s rel IH]; intros m L w Hm; cbn [deferred_all].
  - eapply wp_leaves; [exact Hm|]. intros r w' HL Hr. split; [|done]. rewrite HL. symmetry. apply filter_all.
    intros x _ Hx. by apply not_elem_of_nil in Hx.
  - replace (filter (λ x, x ∉ s :: rel) L) with (filter (λ x, x ∉ rel) (filter (λ x, x ≠ s) L))
      by (rewrite list_filter_filter; apply list_filter_iff; intros x; set_solver).
    apply IH, wp_deferred. eapply wp_conseq; [exact Hm|]. intros r w1 [HL Hr].
    apply wp_Release; [eapply HP; cbn; eauto|..].
    + intros r2 _. split; [cbn; by rewrite HL|by apply HQ].
    + intros Hn. rewrite HL in Hn. split; [by rewrite HL, filter_absent|by apply HQ].
Qed.

Lemma closed_ok {A} (Q : A → disk → B → Prop) : closed (A := A) join_release (λ r d h, ∀ a, r = Ok a → Q a d h).
Proof. intros [a|e] [[]|e2] d h Hq a' Ha'; try discriminate. by apply Hq. Qed.
Lemma closed_first {A} (Q : A → disk → B → Prop) : closed (A := A) first_release (λ r d h, ∀ a, r = Ok a → Q a d h).
Proof. intros [a|e] [[]|e2] d h Hq a' Ha'; try discriminate. by apply Hq. Qed.
Lemma closed_drop {A} (Q : res A → disk → B → Prop) : closed drop_release Q.
Proof. by intros r r2 d h. Qed.
End locks.

(** Run one command symbolically. *)
Ltac wp_step :=
  lazymatch goal with
  | |- wp _ (bind _ _) _ _ => apply wp_bind
  | |- wp _ (ret _) _ _ => apply wp_ret
  | |- wp _ (throw _) _ _ => apply wp_throw
  | |- wp _ (lift _) _ _ => apply wp_lift
  | |- wp _ (wrap _ _) _ _ => apply wp_wrap
  | |- wp _ (wrapv _ _) _ _ => apply wp_wrapv
  | |- wp _ (attempt _) _ _ => apply wp_attempt
  end.
(** A guard: on with the body; [tac] closes the failure. *)
Tactic Notation "wp_guard" "as" simple_intropattern(pat) "by" tactic3(tac) :=
  apply wp_bind, wp_guard; [intros pat|intros _; tac].
(** A reading call: on with its answer; [tac] closes the failure. *)
Tactic Notation "wp_read" "as" simple_intropattern(r) simple_intropattern(n) simple_intropattern(H) "by" tactic3(tac) :=
  apply wp_bind; repeat wp_step; apply wp_quiet; [solve [eauto 4 with quiet]|]; intros [r|?] n H; [|cbn beta iota; tac].

(** *** What a call leaves alone *)

(** [w'] differs from [w] at most in the outside world and the clock. *)
Record same {B} (w w' : world B) : Prop := {
  sm_disk : w_disk w' = w_disk w;
  sm_locks : w_locks w' = w_locks w;
  sm_trace : w_trace w' = w_trace w;
}.
Lemma same_refl {B} (w : world B) : same w w.
Proof. done. Qed.
Lemma same_trans {B} (w1 w2 w3 : world B) : same w1 w2 → same w2 w3 → same w1 w3.
Proof. intros [] []. constructor; congruence. Qed.
Lemma same_retick {B} n (w : world B) : same w (retick n w).
Proof. done. Qed.

(** *** Taking a lock *)
Section acquire.
Context {B : Type} {E : Env}.
Implicit Types (w : world B) (P : stepP).

(** [w'] is [w] after the lock was granted: nothing else of this process
    changed, and the files are what the holders of other locks left. *)
Record took (scope : string) (w w' : world B) : Prop := {
  tk_free : scope ∉ w_locks w;
  tk_locks : w_locks w' = scope :: w_locks w;
  tk_host : w_host w' = w_host w;
  tk_disk : ∃ n, w_disk w' = env_others n (w_locks w) (w_disk w);
  tk_trace : w_trace w' = Step (EvAcquire scope) (w_disk w) (w_disk w') (w_locks w) :: w_trace w;
}.
Lemma wp_Acquire_took P scope (Q : res unit → world B → Prop) w :
  lock_free P → (∀ w', took scope w w' → Q (Ok tt) w') → (∀ e n, Q (Er e) (retick n w)) → wp P (Acquire scope) Q w.
Proof.
  intros HP H1 H2. apply wp_Acquire.
  - intros _ Hn. split; [eapply HP; cbn; eauto|]. apply H1. constructor; try done. cbn. eauto.
  - intros e. split; [rewrite (retick_self w); apply H2|apply H2].
Qed.
Lemma wp_AcquireSession P dom name (Q : res unit → world B → Prop) w :
  lock_free P → (∀ w', took (Lock.session_scope dom name) w w' → Q (Ok tt) w') → (∀ e n, Q (Er e) (retick n w)) →
  wp P (AcquireSession dom name) Q w.
Proof.
  intros HP H1 H2. unfold AcquireSession.
  wp_guard as _ by (rewrite (retick_self w); apply H2). wp_guard as _ by (rewrite (retick_self w); apply H2).
  by apply wp_Acquire_took.
Qed.
End acquire.

(** A file that no other process ever changes. *)
Definition untouched `{E : Env} (key : dirname * string) : Prop := ∀ n held k, env_others n held k !! key = k !! key.
(** From [k] to [k'] this process wrote nothing. *)
Definition left_alone `{E : Env} (k k' : disk) : Prop := ∀ key, untouched key → k' !! key = k !! key.
Lemma left_alone_refl `{E : Env} k : left_alone k k.
Proof. done. Qed.
Lemma left_alone_trans `{E : Env} k1 k2 k3 : left_alone k1 k2 → left_alone k2 k3 → left_alone k1 k3.
Proof. intros H1 H2 key Hk. by rewrite H2, H1. Qed.
Lemma took_left_alone `{E : Env} {B} scope (w w' : world B) : took scope w w' → left_alone (w_disk w) (w_disk w').
Proof. intros [_ _ _ [n ->] _] key Hk. apply Hk. Qed.

(** Nothing is promised of an error but that the locks are as they were. *)
Ltac by_error := split; [try done; cbn in *; congruence|try done; intros; discriminate].

(** Give up a lock known to be the last one taken. *)
Lemma wp_Release_held {B} {E : Env} (P : stepP) scope L (Q : res unit → world B → Prop) (w : world B) :
  lock_free P → w_locks w = scope :: L → scope ∉ L →
  (∀ r w', w_locks w' = L → w_disk w' = w_disk w → w_host w' = w_host w →
     w_trace w' = Step (EvRelease scope) (w_disk w) (w_disk w) (w_locks w) :: w_trace w → Q r w') →
  wp P (Release scope) Q w.
Proof.
  intros HP HL Hn HQ. apply wp_Release; [eapply HP; cbn; eauto|..].
  - intros r _. apply HQ; try done. cbn. by rewrite HL, filter_head.
  - intros Hn'. rewrite HL in Hn'. set_solver.
Qed.

(** ** The lock protocol

    What the operations below assume of the other processes, and guarantee
    themselves: the record of a session is written only while its session lock
    is held, its rebuild journal only while both its session lock and its
    transition lock are. *)
Class SessionProtocol (E : Env) : Prop := {
  protocol_session : ∀ n held k dom name, Lock.session_scope dom name ∈ held →
    env_others n held k !! (Sessions, json_name name) = k !! (Sessions, json_name name);
  protocol_rebuild : ∀ n held k dom name, Lock.session_scope dom name ∈ held ∨ Lock.transition_scope dom name ∈ held →
    env_others n held k !! (Rebuilds, json_name name) = k !! (Rebuilds, json_name name);
}.
#[export] Instance quiet_protocol : SessionProtocol quietEnv.
Proof. by constructor. Qed.
Lemma took_session {B} {E : Env} {SP : SessionProtocol E} scope (w w' : world B) dom name :
  took scope w w' → Lock.session_scope dom name ∈ w_locks w →
  w_disk w' !! (Sessions, json_name name) = w_disk w !! (Sessions, json_name name) ∧
  w_disk w' !! (Rebuilds, json_name name) = w_disk w !! (Rebuilds, json_name name).
Proof.
  intros [_ _ _ [n ->] _] Hin. by rewrite (protocol_session _ _ _ _ _ Hin), (protocol_rebuild _ _ _ _ _ (or_introl Hin)).
Qed.
Lemma took_journal {B} {E : Env} {SP : SessionProtocol E} scope (w w' : world B) dom name :
  took scope w w' → Lock.transition_scope dom name ∈ w_locks w →
  w_disk w' !! (Rebuilds, json_name name) = w_disk w !! (Rebuilds, json_name name).
Proof. intros [_ _ _ [n ->] _] Hin. by rewrite (protocol_rebuild _ _ _ _ _ (or_intror Hin)). Qed.

(** ** Step predicates shared by the components *)

(** A call that only locks and observes. *)
Definition look_steps (_ : list step) (s : step) : Prop :=
  match st_event s with EvAcquire _ | EvRelease _ | EvObserve _ _ => True | _ => False end.
Lemma look_lock_free : lock_free look_steps.
Proof. intros o s sc [Hs|Hs]; unfold look_steps; by rewrite Hs. Qed.
#[export] Hint Resolve look_lock_free : go.
(** A call that fails, its locks given up. *)
Definition fails {A B} (L : list string) : res A → world B → Prop := leaves L (λ r _ _, is_ok r = false).
Lemma closed_fails {A B} : closed (A := A) (B := B) join_release (λ r _ _, is_ok r = false).
Proof. by intros [a|e] [[]|e2] d h Hr. Qed.
Lemma closed_fails_first {A B} : closed (A := A) (B := B) first_release (λ r _ _, is_ok r = false).
Proof. by intros [a|e] [[]|e2] d h Hr. Qed.

(** One answered observation of the object as existing and stopped. *)
Definition observed_stopped (objectID : string) (s : step) : Prop :=
  ∃ ob, st_event s = EvObserve objectID (Ok ob) ∧ ob_object ob = objectID ∧ exists_stopped ob = true.
Definition observed_absent (objectID : string) (s : step) : Prop :=
  ∃ ob, st_event s = EvObserve objectID (Ok ob) ∧ exactly_absent ob objectID = true.

(** The steps of a gate besides those of the reservation. *)
Definition gate_steps (P : stepP) (expected : SessionRecord) : stepP := λ o s,
  match st_event s with
  | EvAcquire _ | EvRelease _ => True
  | EvObserve id _ => id = br_object_id (sr_backend expected) ∨ P o s
  | _ => P o s
  end.

(** ** Runs in which nothing fails *)

Class Calm (E : Env) : Prop := calm_fault : ∀ n, env_fault n = NoFault.
#[export] Instance quiet_calm : Calm quietEnv.
Proof. done. Qed.
Section calm.
Context {B : Type} {E : Env} {C : Calm E}.
Implicit Types w : world B.
Lemma calm_read d name w f : w_disk w !! (d, name) = Some (EFile f) → fs_read d name w = (Ok f, tick w).
Proof. intros Hf. unfold fs_read, now_fault. by rewrite calm_fault, Hf. Qed.
Lemma calm_read_absent d name w : w_disk w !! (d, name) = None → fs_read d name w = (Er ErrNotExist, tick w).
Proof. intros Hf. unfold fs_read, now_fault. by rewrite calm_fault, Hf. Qed.
Lemma calm_lstat d name w e : w_disk w !! (d, name) = Some e → fs_lstat d name w = (Ok e, tick w).
Proof. intros Hf. unfold fs_lstat, now_fault. by rewrite calm_fault, Hf. Qed.
Lemma calm_sync d w : fs_sync d w = (Ok tt, tick w).
Proof. unfold fs_sync, now_fault. by rewrite calm_fault. Qed.
Lemma calm_replace d name f w g : w_disk w !! (d, name) = Some (EFile g) →
  fs_replace d name f w = (Ok tt, did (EvPublish d name f) (<[(d, name) := EFile f]> (w_disk w)) w).
Proof. intros Hf. unfold fs_replace, now_fault. by rewrite Hf, calm_fault. Qed.
Lemma calm_publish_new d name f w : w_disk w !! (d, name) = None →
  fs_publish_new d name f w = (Ok tt, did (EvCreate d name f) (<[(d, name) := EFile f]> (w_disk w)) w).
Proof. intros Hf. unfold fs_publish_new, now_fault. by rewrite Hf, calm_fault. Qed.
Lemma calm_remove d name w e : w_disk w !! (d, name) = Some e →
  fs_remove d name w = (Ok tt, did (EvRemove d name) (delete (d, name) (w_disk w)) w).
Proof. intros Hf. unfold fs_remove, now_fault. by rewrite Hf, calm_fault. Qed.
End calm.
(** One step of a successful run: [H] evaluates the next command. *)
Lemma bind_run {B A C} (m : M B A) (f : A → M B C) w a w' : m w = (Ok a, w') → bind m f w = f a w'.
Proof. intros H. unfold bind. by rewrite H. Qed.
Lemma attempt_run {B A} (m : M B A) w r w' : m w = (r, w') → attempt m w = (Ok r, w').
Proof. intros H. unfold attempt. by rewrite H. Qed.
Tactic Notation "run" "by" tactic3(tac) := (erewrite bind_run; [|tac]); cbn beta iota.
