(* ===== verification/Host.v ===== *)
(** The outside world: the backend (backend/observation.go, delete.go), the
    supervisor control plane (supervisor/request.go), the formatter's
    qualification store (workspaceformat), the golden registry, the host-key pin
    store, host and CA admission, the clock and the identity sources. Each is
    one operation of the class [Host] over an abstract host state; nothing is
    assumed of their answers, so every theorem holds whatever they return. *)
From S2P Require Import Prelude Ids Json JsonText Recipe GuestProto SessionRecord Outside World.

(** ** The operations *)

Class Host (B : Type) := {
  host_Observe : string → B → res Observation * B;
  host_Clone : string → string → B → res unit * B;
  host_RandomizeMAC : string → B → res unit * B;
  host_Delete : string → B → res unit * B;
  host_newID : B → res string * B;
  host_NewGeneration : B → res string * B;
  host_Now : B → Z * B;
  host_StartExact : LaunchRequest → B → res Snapshot * B;
  host_Snapshot : Binding → B → res Snapshot * B;
  host_Ready : Binding → B → res Snapshot * B;
  host_Stop : Binding → B → res unit * B;
  host_StopWithOutcome : Binding → B → res StopOutcome * B;
  host_Quiesced : Binding → B → res bool * B;
  host_RunAction : Binding → ActionRequest → B → res ActionReceipt * B;
  host_RetryAction : Binding → ActionRequest → B → res ActionReceipt * B;
  host_CheckRuntime : B → res unit * B;
  host_CACheck : string * string → list (string * string) → B → res unit * B;
  host_LoadPin : PinBinding → B → res HostKeyPin * B;
  host_Admit : FormatRequest → B → res Qualification * B;
  host_CloseDisk : B → res unit * B;
  host_NewManagedDisk : string → string → string → B → res nat * B;
  host_NewManagedDiskSet : list nat → B → res nat * B;
  host_CheckCreationStorage : FormatRequest → B → res unit * B;
  host_FormatterCheck : B → res unit * B;
  host_FormatCreate : FormatRequest → B → res unit * B;
  host_CheckStorage : nat → B → res unit * B;
  host_ReadFormatJournal : FormatRequest → B → res FormatJournal * B;
  host_BindLegacy : FormatRequest → nat → B → res unit * B;
}.

Section host.
Context {B : Type} {H : Host B} {E : Env}.
Definition Observe (objectID : string) : M B Observation := host_call (EvObserve objectID) (host_Observe objectID).
Definition Clone (source target : string) : M B unit := host_call (EvClone source target) (host_Clone source target).
Definition RandomizeMAC (objectID : string) : M B unit :=
  host_call (EvRandomizeMAC objectID) (host_RandomizeMAC objectID).
Definition Delete (objectID : string) : M B unit := host_call (EvDelete objectID) (host_Delete objectID).
Definition StartExact (r : LaunchRequest) : M B Snapshot := host_call (EvStartExact r) (host_StartExact r).
Definition SupervisorReady (b : Binding) : M B Snapshot := host_call (EvSnapshot b) (host_Ready b).
Definition SupervisorSnapshot (b : Binding) : M B Snapshot := host_call (EvSnapshot b) (host_Snapshot b).
Definition SupervisorStop (b : Binding) : M B unit := host_call (EvStop b) (host_Stop b).
Definition StopWithOutcome (b : Binding) : M B StopOutcome :=
  host_call (λ r, EvStop b (let? _ := r in Ok tt)) (host_StopWithOutcome b).
Definition Quiesced (b : Binding) : M B bool := host_call (EvQuiesced b) (host_Quiesced b).
Definition RunAction (b : Binding) (request : ActionRequest) : M B ActionReceipt :=
  host_call (EvAction false b request) (host_RunAction b request).
Definition RetryAction (b : Binding) (request : ActionRequest) : M B ActionReceipt :=
  host_call (EvAction true b request) (host_RetryAction b request).
Definition Now : M B Z :=
  host_call (λ r, EvNow (match r with Ok t => t | Er _ => 0 end)) (λ b, let '(t, b') := host_Now b in (Ok t, b')).
Definition Admit (r : FormatRequest) : M B Qualification := host_ask (host_Admit r).

End host.

(** ** A laboratory outside world

    An instance for the evaluations: a backend that is a map from object IDs to
    their state, a supervisor that starts and stops them at once and reports a
    converged generation, a guest whose actions succeed, a digest that is one
    fixed SHA-256, and a clock that stands at one. *)
Definition lab : Type := gmap string string.
Definition lab_snapshot (b : Binding) (running : bool) : Snapshot := mkSnapshot b running true true true true true 1 "".
Definition fixedDigests : Digests := {| sha256 _ := sourceSHA256 |}.
Definition lab_receipt : ActionRequest → ActionReceipt := @receipt_for fixedDigests.
Definition labHost : Host lab := {|
  host_Observe id b := (Ok (match b !! id with
                            | Some state => mkObservation id true state ""
                            | None => mkObservation id false ObjectUnknown "" end), b);
  host_Clone _ target b := (Ok tt, <[target := ObjectStopped]> b);
  host_RandomizeMAC _ b := (Ok tt, b);
  host_Delete id b := (Ok tt, delete id b);
  host_newID b := (Ok (match b !! "boxwarden-work-0123456789ab4def8123456789abcdef" with
                       | None => "01234567-89ab-4def-8123-456789abcdef"
                       | Some _ => match b !! "ran-11111111-2222-4333-8444-555555555555" with
                                   | None => "11111111-2222-4333-8444-555555555555"
                                   | Some _ => "22222222-2222-4333-8444-555555555555" end end), b);
  host_NewGeneration b := (Ok "99999999-9999-4999-8999-999999999999", b);
  host_Now b := (1, b);
  host_StartExact r b := (Ok (lab_snapshot (lr_binding r) true), <[bd_object (lr_binding r) := ObjectRunning]> b);
  host_Snapshot bd b := (Ok (lab_snapshot bd (bool_decide (b !! bd_object bd = Some ObjectRunning))), b);
  host_Ready bd b := (Ok (lab_snapshot bd (bool_decide (b !! bd_object bd = Some ObjectRunning))), b);
  host_Stop bd b := (Ok tt, <[bd_object bd := ObjectStopped]> b);
  host_StopWithOutcome bd b := (Ok (mkStopOutcome "guest_accepted" false), <[bd_object bd := ObjectStopped]> b);
  host_Quiesced bd b := (Ok (bool_decide (b !! bd_object bd ≠ Some ObjectRunning)), b);
  host_RunAction _ request b := (Ok (lab_receipt request), <["ran-" +:+ aq_attempt request := ""]> b);
  host_RetryAction _ request b := (Ok (lab_receipt request), b);
  host_CheckRuntime b := (Ok tt, b);
  host_CACheck _ _ b := (Ok tt, b);
  host_LoadPin _ b := (Er ErrNotExist, b);
  host_Admit r b := (Ok (mkQualification (fr_domain r) (fr_volume r) (fr_uuid r) (fr_size r) 1 1), b);
  host_CloseDisk b := (Ok tt, b);
  host_NewManagedDisk _ _ _ b := (Ok 0%nat, b);
  host_NewManagedDiskSet l b := (Ok (length l), b);
  host_CheckCreationStorage _ b := (Ok tt, b);
  host_FormatterCheck b := (Ok tt, b);
  host_FormatCreate _ b := (Ok tt, b);
  host_CheckStorage _ b := (Ok tt, b);
  host_ReadFormatJournal r b := (Ok (mkFormatJournal 1 "qualified" (Some (1, 1)) (fr_domain r) (fr_volume r) (fr_uuid r) (fr_size r)), b);
  host_BindLegacy _ _ b := (Ok tt, b);
|}.
