(* ===== verification/Golden.v ===== *)
(** The golden registry (src/internal/golden): immutable registrations of
    stopped backend objects, one record per revision and one pointer to the
    current revision, kept under the domain's golden lock (record.go,
    register.go). *)
From S2P Require Import Prelude Ids Json JsonText Recipe SessionRecord Outside World Logic Host.

(** ** Records *)

Definition goldenRecordVersion : Z := 1.

Definition validTartName (raw : string) : bool :=
  match raw with
  | EmptyString => false
  | String c rest => negb (127 <? String.length raw)%nat && isAlphaNumeric c && str_all alnum_dash rest
  end.

#[export] Instance GoldenRecord_eq_dec : EqDecision GoldenRecord.
Proof. solve_decision. Defined.

Definition validRecord (record : GoldenRecord) : res unit :=
  check (gr_version record =? goldenRecordVersion) "unsupported golden record version" ;;?
  Domain.Parse (gr_domain record) ;;?
  check (validTartName (gr_revision record) && (br_kind (gr_backend record) =s "tart") &&
         (br_object_id (gr_backend record) =s gr_revision record)) "invalid golden backend reference".

Record currentPointer := mkPointer { cp_version : Z; cp_domain : string; cp_revision : string }.
#[export] Instance currentPointer_eq_dec : EqDecision currentPointer.
Proof. solve_decision. Defined.

Definition zeroGolden : GoldenRecord := mkGoldenRecord 0 "" "" (mkBackendRef "" "").
Definition zeroPointer : currentPointer := mkPointer 0 "" "".

(** ** Decoding and encoding *)

Definition backend_ref_field (name : string) (v : json) (b : BackendRef) : res BackendRef :=
  if name =s "kind" then let? x := get_string v (br_kind b) in Ok (mkBackendRef x (br_object_id b))
  else let? x := get_string v (br_object_id b) in Ok (mkBackendRef (br_kind b) x).
Definition golden_field (name : string) (v : json) (r : GoldenRecord) : res GoldenRecord :=
  let '(mkGoldenRecord version domain revision backend) := r in
  if name =s "version" then let? x := get_int v version in Ok (mkGoldenRecord x domain revision backend)
  else if name =s "domain" then let? x := get_string v domain in Ok (mkGoldenRecord version x revision backend)
  else if name =s "revision" then let? x := get_string v revision in Ok (mkGoldenRecord version domain x backend)
  else let? x := decode_struct ["kind"; "object_id"] backend_ref_field v backend in
       Ok (mkGoldenRecord version domain revision x).
Definition decodeGolden : json → GoldenRecord → res GoldenRecord :=
  decode_struct ["version"; "domain"; "revision"; "backend"] golden_field.
Definition pointer_field (name : string) (v : json) (p : currentPointer) : res currentPointer :=
  let '(mkPointer version domain revision) := p in
  if name =s "version" then let? x := get_int v version in Ok (mkPointer x domain revision)
  else if name =s "domain" then let? x := get_string v domain in Ok (mkPointer version x revision)
  else let? x := get_string v revision in Ok (mkPointer version domain x).
Definition decodePointer : json → currentPointer → res currentPointer :=
  decode_struct ["version"; "domain"; "revision"] pointer_field.

Definition marshalGolden (r : GoldenRecord) : json :=
  JObj [("version", JNum (gr_version r)); ("domain", jstr (gr_domain r)); ("revision", jstr (gr_revision r));
        ("backend", JObj [("kind", jstr (br_kind (gr_backend r))); ("object_id", jstr (br_object_id (gr_backend r)))])].
Definition marshalPointer (p : currentPointer) : json :=
  JObj [("version", JNum (cp_version p)); ("domain", jstr (cp_domain p)); ("revision", jstr (cp_revision p))].
(** The bytes of [json.Marshal], without a final newline. *)
Definition marshalled_file (v : json) : file := File (json_size v) (Some [v]) "".

Definition maxGoldenBytes : N := 2 ^ 20.
(** One document of at most 1 MiB, without repeated keys. *)
Definition decodeStrict (f : file) : res json :=
  let? v := single_doc maxGoldenBytes f in
  check (checkJSONValue v) "duplicate field" ;;?
  Ok v.
Definition parseGolden (expectedDomain revision : string) (f : file) : res GoldenRecord :=
  let? v := decodeStrict f in
  let? record := decodeGolden v zeroGolden in
  validRecord record ;;?
  check (gr_domain record =s expectedDomain) "golden record domain does not match requested domain" ;;?
  check (gr_revision record =s revision) "golden record revision mismatch" ;;?
  Ok record.
Definition parsePointer (expectedDomain : string) (f : file) : res currentPointer :=
  let? v := decodeStrict f in
  let? pointer := decodePointer v zeroPointer in
  check ((cp_version pointer =? goldenRecordVersion) && (cp_domain pointer =s expectedDomain) && validTartName (cp_revision pointer))
        "invalid golden pointer" ;;?
  Ok pointer.

(** What a reader finds. *)
Definition golden_at (dom revision : string) : disk → option GoldenRecord :=
  view (parseGolden dom revision) GoldenRecords (json_name revision).
Definition pointer_at (dom : string) : disk → option currentPointer := view (parsePointer dom) Goldens "current.json".

(** ** Operations *)

Section golden.
Context {B : Type} {H : Host B} {E : Env}.

Definition admittedDomain (configured : DomainConfig) : res string :=
  match Domain.Parse (dc_ID configured) with
  | Ok id => if id =s dc_ID configured then Ok id else fail "invalid configured domain"
  | Er _ => fail "invalid configured domain"
  end.

(** [AcquireLock] *)
Definition AcquireGolden (configured : DomainConfig) : M B unit :=
  lift (admittedDomain configured) ;;!
  Acquire Lock.golden_scope.

Definition loadGolden (name expectedDomain revision : string) : M B GoldenRecord :=
  let! f := wrap "open golden record" (fs_read GoldenRecords name) in
  lift (parseGolden expectedDomain revision f).
Definition loadPointer (name expectedDomain : string) : M B currentPointer :=
  let! f := wrap "open golden pointer" (fs_read Goldens name) in
  lift (parsePointer expectedDomain f).

Definition LoadCurrentLocked (configured : DomainConfig) : M B GoldenRecord :=
  let! domainID := lift (admittedDomain configured) in
  let! pointer := loadPointer "current.json" domainID in
  loadGolden (json_name (cp_revision pointer)) domainID (cp_revision pointer).

Definition LoadRevisionLocked (configured : DomainConfig) (revision : string) : M B GoldenRecord :=
  let! domainID := lift (admittedDomain configured) in
  guard (negb (validTartName revision)) "invalid golden revision" ;;!
  loadGolden (json_name revision) domainID revision.

Definition LoadCurrent (configured : DomainConfig) : M B GoldenRecord :=
  AcquireGolden configured ;;!
  deferred_ignore Lock.golden_scope (LoadCurrentLocked configured).

Definition writeImmutable (d : dirname) (name : string) (contents : file) : M B unit :=
  let! found := attempt (fs_lstat d name) in
  match found with
  | Ok _ => throw (Errorf "immutable target already exists")
  | Er e => if err_not_exist e then fs_replace d name contents else throw e
  end.

Definition persistRegistration (record : GoldenRecord) (setCurrent : bool) : M B unit :=
  let name := json_name (gr_revision record) in
  let! found := attempt (fs_lstat GoldenRecords name) in
  match found with
  | Ok _ =>
      let! existing := loadGolden name (gr_domain record) (gr_revision record) in
      guard (bool_decide (existing ≠ record)) "immutable golden revision conflicts with existing record"
  | Er e => if err_not_exist e then writeImmutable GoldenRecords name (marshalled_file (marshalGolden record)) else throw e
  end ;;!
  if setCurrent
  then fs_replace Goldens "current.json"
         (marshalled_file (marshalPointer (mkPointer goldenRecordVersion (gr_domain record) (gr_revision record))))
  else ret tt.

Definition goldenRecordFor (domainID tartName : string) : GoldenRecord :=
  mkGoldenRecord goldenRecordVersion domainID tartName (mkBackendRef "tart" tartName).

(** [observer] tells whether the caller has one. *)
Definition register (configured : DomainConfig) (tartName : string) (observer setCurrent : bool) : M B GoldenRecord :=
  let! domainID := lift (admittedDomain configured) in
  guard (negb (validTartName tartName)) "invalid Tart object identity" ;;!
  guard (negb observer) "golden observer is required" ;;!
  AcquireGolden configured ;;!
  deferred_ignore Lock.golden_scope (
  let! observation := wrap "observe golden" (Observe tartName) in
  guard ((ob_object observation ≠s tartName) || negb (ob_exists observation) || (ob_state observation ≠s ObjectStopped))
        "golden must be one existing stopped object" ;;!
  let record := goldenRecordFor domainID tartName in
  persistRegistration record setCurrent ;;!
  ret record).
Definition Register (configured : DomainConfig) (tartName : string) (observer : bool) : M B GoldenRecord :=
  register configured tartName observer true.
Definition RegisterRevision (configured : DomainConfig) (tartName : string) (observer : bool) : M B GoldenRecord :=
  register configured tartName observer false.
End golden.

(** ** Lemmas *)

Lemma validTartName_eq raw : validTartName raw = Session.validBackendObjectID raw.
Proof. done. Qed.
Lemma validRecord_ok g u : validRecord g = Ok u →
  gr_version g = 1 ∧ Lock.validLowerIdentifier (gr_domain g) = true ∧ validTartName (gr_revision g) = true ∧
  gr_backend g = mkBackendRef "tart" (gr_revision g).
Proof.
  unfold validRecord. intros H. res_inv H. apply check_ok in Ha, H. apply Parse_ok in Ha0 as [_ Hd]. bsimpl.
  destruct (gr_backend g) as [kind object]. cbn in *. split_and!; [done|done|done|congruence].
Qed.
(** The registration of a revision is determined by its domain and name. *)
Lemma golden_at_ok dom revision k g : golden_at dom revision k = Some g →
  g = goldenRecordFor dom revision ∧ validTartName revision = true ∧ Lock.validLowerIdentifier dom = true.
Proof.
  intros (f & _ & H)%view_Some. unfold parseGolden in H. res_inv H. apply check_ok in Ha2, Ha3. bsimpl. injection H as <-.
  apply validRecord_ok in Ha1 as (Hv & Hd & Hr & Hb). subst dom revision. split_and!; [|done|done].
  destruct a0. cbn in *. unfold goldenRecordFor. unfold goldenRecordVersion in *. congruence.
Qed.
Lemma pointer_at_ok dom k p : pointer_at dom k = Some p →
  p = mkPointer 1 dom (cp_revision p) ∧ validTartName (cp_revision p) = true.
Proof.
  intros (f & _ & H)%view_Some. unfold parsePointer in H. res_inv H. apply check_ok in Ha1. bsimpl. injection H as <-.
  destruct a0 as [v d r]. cbn in *. split; [|done]. unfold goldenRecordVersion in *. congruence.
Qed.

Lemma decode_marshalGolden dom revision : utf8 dom → utf8 revision →
  decodeGolden (marshalGolden (goldenRecordFor dom revision)) zeroGolden = Ok (goldenRecordFor dom revision).
Proof.
  intros Hd Hr. unfold decodeGolden, marshalGolden, goldenRecordFor, zeroGolden. cbn [gr_version gr_domain gr_revision gr_backend br_kind br_object_id].
  struct_step. unfold golden_field. cbn [String.eqb Ascii.eqb Bool.eqb get_int].
  change (int64_ok goldenRecordVersion) with true. cbn [res_bind]. rewrite get_utf8 by done. cbn [res_bind].
  rewrite get_utf8 by done. cbn [res_bind].
  struct_step. unfold backend_ref_field. cbn [String.eqb Ascii.eqb Bool.eqb]. rewrite get_utf8 by done. cbn [res_bind br_kind br_object_id].
  by rewrite get_utf8.
Qed.
Lemma decode_marshalPointer version dom revision : int64_ok version = true → utf8 dom → utf8 revision →
  decodePointer (marshalPointer (mkPointer version dom revision)) zeroPointer = Ok (mkPointer version dom revision).
Proof.
  intros Hv Hd Hr. unfold decodePointer, marshalPointer, zeroPointer. cbn [cp_version cp_domain cp_revision].
  struct_step. unfold pointer_field. cbn [String.eqb Ascii.eqb Bool.eqb get_int]. rewrite Hv. cbn [res_bind].
  rewrite get_utf8 by done. cbn [res_bind]. by rewrite get_utf8.
Qed.
Lemma small_document v : (json_size v ≤ maxGoldenBytes)%N → checkJSONValue v = true → decodeStrict (marshalled_file v) = Ok v.
Proof.
  intros Hv Hk. unfold decodeStrict, single_doc. cbn [file_size file_docs marshalled_file].
  replace (maxGoldenBytes <? json_size v)%N with false by (symmetry; by apply N.ltb_ge). cbn [res_bind]. by rewrite Hk.
Qed.

(** What is registered is what a reader finds. *)
Lemma golden_at_written dom revision k : Lock.validLowerIdentifier dom = true → validTartName revision = true →
  golden_at dom revision (<[(GoldenRecords, json_name revision) := EFile (marshalled_file (marshalGolden (goldenRecordFor dom revision)))]> k)
  = Some (goldenRecordFor dom revision).
Proof.
  intros Hd Hr. apply view_insert. pose proof (coerce_ident _ Hd) as Cd. pose proof (coerce_objectid _ Hr) as Cr.
  assert (Domain.Parse dom = Ok dom) as Hp by by apply Parse_ok.
  apply plain_ident in Hd as (?&?&?). apply plain_objectid in Hr as Pr. destruct Pr as (?&?&?).
  unfold parseGolden. rewrite small_document.
  - cbn [res_bind]. rewrite decode_marshalGolden by done. cbn [res_bind]. unfold validRecord, goldenRecordFor.
    cbn [gr_version gr_domain gr_revision gr_backend br_kind br_object_id]. rewrite Hp, Hr, !eqs_refl. done.
  - unfold marshalGolden, goldenRecordFor. cbn [gr_version gr_domain gr_revision gr_backend br_kind br_object_id].
    set (b := JObj [("kind", _); _]). assert (json_size b ≤ 200)%N as Hb by (subst b; etrans; [obj_size_tac|]; size_lia).
    clearbody b. etrans; [obj_size_tac|]. unfold goldenRecordVersion, maxGoldenBytes. size_lia.
  - done.
Qed.
Lemma pointer_at_written dom revision k : Lock.validLowerIdentifier dom = true → validTartName revision = true →
  pointer_at dom (<[(Goldens, "current.json") := EFile (marshalled_file (marshalPointer (mkPointer 1 dom revision)))]> k)
  = Some (mkPointer 1 dom revision).
Proof.
  intros Hd Hr. apply view_insert. pose proof (coerce_ident _ Hd) as Cd. pose proof (coerce_objectid _ Hr) as Cr.
  apply plain_ident in Hd as (?&?&?). apply plain_objectid in Hr as Pr. destruct Pr as (?&?&?).
  unfold parsePointer. rewrite small_document.
  - cbn [res_bind]. rewrite decode_marshalPointer by done. cbn [res_bind cp_version cp_domain cp_revision]. by rewrite Hr, eqs_refl.
  - unfold marshalPointer. cbn [cp_version cp_domain cp_revision]. etrans; [obj_size_tac|]. unfold maxGoldenBytes. size_lia.
  - done.
Qed.

Section lemmas.
Context {B : Type} {H : Host B} {E : Env}.
Implicit Types (w : world B) (P : stepP).

Lemma admittedDomain_ok d dom : admittedDomain d = Ok dom → dc_ID d = dom ∧ Lock.validLowerIdentifier dom = true.
Proof.
  unfold admittedDomain. destruct (Domain.Parse (dc_ID d)) as [x|] eqn:Ep; [|done]. apply Parse_ok in Ep as [-> Hv].
  rewrite eqs_refl. by intros [= <-].
Qed.
Lemma quiet_loadGolden name dom revision : quiet (loadGolden name dom revision : M B _).
Proof. unfold loadGolden. quiet_tac. Qed.
Lemma quiet_LoadRevisionLocked d revision : quiet (LoadRevisionLocked d revision : M B _).
Proof. unfold LoadRevisionLocked, loadGolden. quiet_tac. Qed.
Lemma quiet_LoadCurrentLocked d : quiet (LoadCurrentLocked d : M B _).
Proof. unfold LoadCurrentLocked, loadPointer, loadGolden. quiet_tac. Qed.

Lemma loadGolden_ok dom revision w g w' :
  loadGolden (json_name revision) dom revision w = (Ok g, w') → golden_at dom revision (w_disk w) = Some g.
Proof. unfold loadGolden. intros Hl. ok_inv. apply fs_read_ok in Ha as [Hf ->]. apply view_Some. eauto. Qed.
Lemma LoadRevisionLocked_ok d revision w g w' :
  LoadRevisionLocked d revision w = (Ok g, w') → golden_at (dc_ID d) revision (w_disk w) = Some g.
Proof. unfold LoadRevisionLocked. intros Hl. ok_inv. apply admittedDomain_ok in Ha as [-> _]. by eapply loadGolden_ok. Qed.
Lemma LoadCurrentLocked_ok d w g w' : LoadCurrentLocked d w = (Ok g, w') →
  ∃ p, pointer_at (dc_ID d) (w_disk w) = Some p ∧ golden_at (dc_ID d) (cp_revision p) (w_disk w) = Some g.
Proof.
  unfold LoadCurrentLocked, loadPointer. intros Hl. ok_inv. apply admittedDomain_ok in Ha as [-> _].
  apply fs_read_ok in Ha1 as [Hf ->]. exists a0. split; [apply view_Some; eauto|]. by eapply loadGolden_ok in Hl.
Qed.

Lemma wp_AcquireGolden P d (Q : res unit → world B → Prop) w :
  lock_free P → (∀ w', took Lock.golden_scope w w' → Q (Ok tt) w') → (∀ e n, Q (Er e) (retick n w)) → wp P (AcquireGolden d) Q w.
Proof.
  intros HP H1 H2. unfold AcquireGolden. apply wp_bind, wp_lift.
  destruct (admittedDomain d); [|rewrite (retick_self w); apply H2]. by apply wp_Acquire_took.
Qed.
End lemmas.
#[export] Hint Resolve quiet_loadGolden quiet_LoadRevisionLocked quiet_LoadCurrentLocked : quiet.

(** ** What registration writes *)

Section register.
Context {B : Type} {H : Host B} {E : Env} (dom name : string) (setCurrent : bool).
Implicit Types (w : world B).
#[local] Abbreviation record := (goldenRecordFor dom name).

(** Files of the registry change only under the golden lock, right after the
    object was observed stopped: the revision's record first, then the pointer,
    and only to a revision that is on disk. *)
Definition register_steps (o : list step) (s : step) : Prop :=
  match st_event s with
  | EvAcquire _ | EvRelease _ => True
  | EvObserve id _ => id = name
  | EvPublish GoldenRecords n _ =>
      n = json_name name ∧ Lock.golden_scope ∈ st_locks s ∧ recently (observed_stopped name) o ∧
      golden_at dom name (st_disk s) = Some record
  | EvPublish Goldens n _ =>
      setCurrent = true ∧ n = "current.json" ∧ Lock.golden_scope ∈ st_locks s ∧ recently (observed_stopped name) o ∧
      golden_at dom name (st_disk s) = Some record ∧ pointer_at dom (st_disk s) = Some (mkPointer 1 dom name)
  | _ => False
  end.
(** What may differ between the files when the lock was granted and now. *)
Definition registered_only (k k' : disk) : Prop := ∀ d n,
  k' !! (d, n) = k !! (d, n) ∨ d = GoldenRecords ∧ n = json_name name ∧ k !! (d, n) = None ∨
  setCurrent = true ∧ d = Goldens ∧ n = "current.json".
Definition registration_done (k : disk) : Prop :=
  golden_at dom name k = Some record ∧ (setCurrent = true → pointer_at dom k = Some (mkPointer 1 dom name)).

Lemma registered_only_refl k : registered_only k k.
Proof. intros d n. by left. Qed.
Lemma wp_setPointer k0 w :
  Lock.validLowerIdentifier dom = true → validTartName name = true → Lock.golden_scope ∈ w_locks w →
  recently (observed_stopped name) (w_trace w) → registered_only k0 (w_disk w) → golden_at dom name (w_disk w) = Some record →
  wp register_steps
    (if setCurrent then fs_replace Goldens "current.json" (marshalled_file (marshalPointer (mkPointer goldenRecordVersion dom name))) else ret tt)
    (λ r w', w_locks w' = w_locks w ∧ registered_only k0 (w_disk w') ∧ (is_ok r = true → registration_done (w_disk w'))) w.
Proof.
  intros Hd Hn Hl Hr Hk Hg. destruct setCurrent eqn:Es; [|apply wp_ret; split_and!; [done|done|]; intros _; split; [done|]; intros Hs; congruence].
  set (k := <[(Goldens, "current.json") := EFile (marshalled_file (marshalPointer (mkPointer 1 dom name)))]> (w_disk w)).
  assert (golden_at dom name k = Some record) as Hg' by (unfold golden_at, k; by rewrite view_insert_ne).
  assert (pointer_at dom k = Some (mkPointer 1 dom name)) as Hp by by apply pointer_at_written.
  apply wp_fs_replace; [|intros r|intros e _]; fold k.
  - unfold register_steps. cbn [st_event st_locks st_disk]. by rewrite Es.
  - split_and!; [done| |intros _; by split]. intros d n. cbn [w_disk did]. destruct (decide ((d, n) = (Goldens, "current.json"))) as [[= -> ->]|Hne].
    + by right; right.
    + unfold k. rewrite lookup_insert_ne by done. apply Hk.
  - by split_and!.
Qed.
Lemma wp_persistRegistration w :
  Lock.validLowerIdentifier dom = true → validTartName name = true → Lock.golden_scope ∈ w_locks w →
  recently (observed_stopped name) (w_trace w) →
  wp register_steps (persistRegistration record setCurrent)
    (λ r w', w_locks w' = w_locks w ∧ registered_only (w_disk w) (w_disk w') ∧ (is_ok r = true → registration_done (w_disk w'))) w.
Proof.
  intros Hd Hn Hl Hr. unfold persistRegistration. cbv zeta. cbn [gr_revision gr_domain goldenRecordFor].
  assert (∀ e n, w_locks (retick n w) = w_locks w ∧ registered_only (w_disk w) (w_disk (retick n w)) ∧
    (is_ok (Er e : res unit) = true → registration_done (w_disk (retick n w)))) as Her by (intros; by split_and!; [|apply registered_only_refl|]).
  apply wp_bind, wp_attempt, wp_quiet; [auto with quiet|]. intros r n Hstat. cbn beta iota. apply wp_bind. destruct r as [x|e].
  - wp_read as g n2 Hload by apply Her. apply loadGolden_ok in Hload. cbn [w_disk retick] in Hload.
    apply golden_at_ok in Hload as Hg. destruct Hg as (-> & _).
    apply wp_guard; [|intros _; apply Her]. intros _.
    refine (wp_setPointer (w_disk w) (retick n2 (retick n w)) _ _ _ _ _ _); try done. apply registered_only_refl.
  - destruct (err_not_exist e) eqn:Ee; [|apply wp_throw, Her].
    unfold writeImmutable. apply wp_bind, wp_attempt, wp_quiet; [auto with quiet|]. intros [x|e2] n2 Hstat2; cbn beta iota; [apply wp_throw, Her|].
    destruct (err_not_exist e2) eqn:Ee2; [|apply wp_throw, Her].
    assert (w_disk w !! (GoldenRecords, json_name name) = None) as Hnone.
    { clear -Hstat Ee. unfold fs_lstat, fail in Hstat. destruct (now_fault w); [|by injection Hstat as <- _..].
      destruct (w_disk w !! _); [done|done]. }
    set (k := <[(GoldenRecords, json_name name) := EFile (marshalled_file (marshalGolden record))]> (w_disk w)).
    assert (golden_at dom name k = Some record) as Hg by by apply golden_at_written.
    assert (registered_only (w_disk w) k) as Hk.
    { intros d m. destruct (decide ((d, m) = (GoldenRecords, json_name name))) as [[= -> ->]|Hne]; [by right; left|].
      left. unfold k. by rewrite lookup_insert_ne. }
    apply wp_fs_replace; [|intros [u|e3]|intros e3 _; apply Her]; cbn [w_disk retick] in *; fold k.
    + by unfold register_steps; cbn [st_event st_locks st_disk w_trace retick].
    + match goal with |- wp _ _ _ ?w' => refine (wp_setPointer (w_disk w) w' _ _ _ _ _ _) end; try done. by apply recently_cons.
    + by split_and!.
Qed.

(** The result and the files of a registration, from the grant of the lock. *)
Lemma wp_register d (observer : bool) w :
  admittedDomain d = Ok dom →
  wp register_steps (register d name observer setCurrent)
    (λ r w', w_locks w' = w_locks w ∧ (∀ g, r = Ok g → g = record ∧ registration_done (w_disk w')) ∧
       (w_disk w' = w_disk w ∨
        ∃ later t, w_trace w' = later ++ t :: w_trace w ∧ st_event t = EvAcquire Lock.golden_scope ∧
                   registered_only (st_disk t) (w_disk w'))) w.
Proof.
  intros Hdom. pose proof (admittedDomain_ok _ _ Hdom) as [_ Hvd].
  assert (lock_free register_steps) as HP by (intros o s sc [Hs|Hs]; unfold register_steps; by rewrite Hs).
  unfold register. apply wp_bind, wp_lift. rewrite Hdom. wp_guard as Hn%negb_false_iff by (split_and!; [done|done|by left]). wp_guard as _ by (split_and!; [done|done|by left]).
  apply wp_bind, wp_AcquireGolden; [done| |intros e n; split_and!; [done|done|by left]]. intros w1 [Hf Hl _ _ Ht]. cbn beta iota.
  eapply wp_conseq; [apply wp_extends, (wp_deferred_leaves _ _ _ _ (w_locks w)
    (λ r k _, registered_only (w_disk w1) k ∧ ∀ g, r = Ok g → g = record ∧ registration_done k))|].
  - done.
  - by intros r r2 k h.
  - done.
  - assert (∀ e (w' : world B), w_locks w' = w_locks w1 → registered_only (w_disk w1) (w_disk w') → leaves (Lock.golden_scope :: w_locks w)
      (λ r k _, registered_only (w_disk w1) k ∧ ∀ g, r = Ok g → g = record ∧ registration_done k) (Er e) w') as Her
      by (intros e w' Hl' Hk'; split; [congruence|done]).
    apply wp_bind, wp_wrap, wp_host_call. intros r b _. split; [done|]. set (w2 := asked _ _ _ _).
    destruct r as [ob|e]; [|apply Her; [done|apply registered_only_refl]].
    cbn beta iota. wp_guard as Hg by (apply Her; [done|apply registered_only_refl]). rewrite !orb_false_iff, negb_false_iff in Hg.
    destruct Hg as [[Ho Hx] Hs].
    cbv zeta. apply wp_bind. eapply wp_conseq; [apply wp_persistRegistration; try done|].
    + change (Lock.golden_scope ∈ w_locks w1). rewrite Hl. by left.
    + apply recently_here. exists ob. bsimpl. split_and!; [done|done|]. unfold exists_stopped. by rewrite Hx, Hs, eqs_refl.
    + intros [[]|e] w3 (Hl3 & Hk3 & Hr3); cbn beta iota; [|by apply Her]. apply wp_ret. split; [by rewrite Hl3|].
      split; [done|]. intros g [= <-]. split; [done|]. by apply Hr3.
  - intros r w3 [[Hl3 [Hk3 Hr3]] [later Ht3]]. split_and!; [done|done|]. right. exists later. eexists. rewrite Ht3, Ht. split; [done|].
    split; [done|]. done.
Qed.
End register.

(** ** Properties *)

(** C34: registration is safe: the registry is written only under the
    golden lock and right after the named object was observed existing and
    stopped; the pointer is written only when asked for and only to a revision
    whose record is then on disk; no record that was on disk when the lock was
    granted is changed, and nothing but this revision's record and the pointer
    is; and success means that a reader now finds exactly the registration (and,
    when asked for, the pointer to it), whatever failed before. *)
Theorem registration_is_safe `{H : Host B} {E : Env} (configured : DomainConfig) (dom tartName : string) (observer setCurrent : bool)
    (w : world B) :
  admittedDomain configured = Ok dom →
  wp (register_steps dom tartName setCurrent) (register configured tartName observer setCurrent)
    (λ r w', w_locks w' = w_locks w ∧
       (∀ g, r = Ok g → g = goldenRecordFor dom tartName ∧ registration_done dom tartName setCurrent (w_disk w')) ∧
       (w_disk w' = w_disk w ∨
        ∃ later t, w_trace w' = later ++ t :: w_trace w ∧ st_event t = EvAcquire Lock.golden_scope ∧
                   registered_only tartName setCurrent (st_disk t) (w_disk w'))) w.
Proof. apply wp_register. Qed.

(** What the readers return is exactly what is registered: a revision
    loads as the one registration its name and domain determine (a Tart object
    of that name), or not at all, and the current one is the revision the pointer
    names; a pointer to a revision without a record is an error. *)
Theorem golden_loads_exact `{E : Env} {B} (configured : DomainConfig) (revision : string) (w : world B) :
  (∀ g, (LoadRevisionLocked configured revision w).1 = Ok g →
     g = goldenRecordFor (dc_ID configured) revision ∧ validTartName revision = true ∧
     golden_at (dc_ID configured) revision (w_disk w) = Some g) ∧
  (∀ g, (LoadCurrentLocked configured w).1 = Ok g →
     g = goldenRecordFor (dc_ID configured) (gr_revision g) ∧
     pointer_at (dc_ID configured) (w_disk w) = Some (mkPointer 1 (dc_ID configured) (gr_revision g)) ∧
     golden_at (dc_ID configured) (gr_revision g) (w_disk w) = Some g).
Proof.
  split; intros g Hg.
  - destruct (LoadRevisionLocked configured revision w) as [r w'] eqn:El. cbn in Hg. subst r.
    apply LoadRevisionLocked_ok in El. pose proof (golden_at_ok _ _ _ _ El) as (? & ? & _). done.
  - destruct (LoadCurrentLocked configured w) as [r w'] eqn:El. cbn in Hg. subst r.
    apply LoadCurrentLocked_ok in El as (p & Hp & Hk). pose proof (golden_at_ok _ _ _ _ Hk) as (-> & _).
    pose proof (pointer_at_ok _ _ _ Hp) as (Hpe & _). rewrite Hpe in Hp. done.
Qed.

(** ** Evaluations *)

(** The registry of a laboratory: two revisions, the first of them current. *)
Definition golden_file (dom revision : string) : file := marshalled_file (marshalGolden (goldenRecordFor dom revision)).
Definition lab_goldens : disk :=
  <[(Goldens, "current.json") := EFile (marshalled_file (marshalPointer (mkPointer 1 "work" "base-1")))]>
  (<[(GoldenRecords, "base-1.json") := EFile (golden_file "work" "base-1")]>
   {[ (GoldenRecords, "base-2.json") := EFile (golden_file "work" "base-2") ]}).
Section evaluations.
#[local] Existing Instance quietEnv.
#[local] Existing Instance labHost.
Definition lab_domain : DomainConfig := mkDomainConfig "work" "/var/lib/boxwarden/work" None.
Definition two_objects : world lab := worldOf ∅ {[ "base-1" := ObjectStopped; "base-2" := ObjectStopped ]}.
Example lab_registry :
  let k := w_disk (Register lab_domain "base-1" true (RegisterRevision lab_domain "base-2" true two_objects).2).2 in
  (golden_at "work" "base-1" k, golden_at "work" "base-2" k, pointer_at "work" k) =
  (golden_at "work" "base-1" lab_goldens, golden_at "work" "base-2" lab_goldens, pointer_at "work" lab_goldens) ∧
  (LoadCurrent lab_domain (worldOf lab_goldens ∅ : world lab)).1 = Ok (goldenRecordFor "work" "base-1").
Proof. vm_compute. by split. Qed.
Lemma registration_is_safe_witness :
  golden_at "work" "base-1" (w_disk (Register lab_domain "base-1" true two_objects).2) = Some (goldenRecordFor "work" "base-1").
Proof.
  refine (proj1 (proj2 (proj1 (proj2 (wp_result _ _ _ two_objects
    (registration_is_safe lab_domain "work" "base-1" true true two_objects _))) (goldenRecordFor "work" "base-1") _)));
    vm_compute; reflexivity.
Defined.
End evaluations.
