(* ===== verification/Format.v ===== *)
(** The formatter of managed workspace disks (src/internal/workspaceformat:
    format.go, legacy_binding.go): the journal of one volume ID, its strict
    decoder, the exclusive creation of the raw file, the single run of the
    trusted formatter, the publication of the verified journal and the later
    admission of the exact file. Raw files are their identity, size and bytes;
    the formatter is an arbitrary function on them. *)
From S2P Require Import Prelude Ids Bytes Json JsonText Recipe SessionRecord Outside World Logic.

(** ** Documents *)

Definition journalVersion : Z := 2.
Definition maxJournalBytes : N := 4096.
Abbreviation StateReserved := "reserved"%string.
Abbreviation StateFormatting := "formatting"%string.
Abbreviation StateVerified := "verified"%string.
Abbreviation StateFailed := "failed"%string.

(** [DiskIdentity]: device and inode. *)
Abbreviation DiskIdentity := (Z * Z)%type.
Record Identity := mkHostIdentity { hi_volume : string; hi_file : Z }.
Record FormatEvidence := mkEvidence { fe_uuid : string; fe_whole : bool; fe_clean : bool }.
Record StorageExpectation := mkStorageExpectation { se_config : string; se_root : string; se_mount : string; se_volume : string }.
Record Journal := mkFormat {
  jn_version : Z; jn_domain : string; jn_volume : string; jn_uuid : string; jn_size : Z; jn_state : string;
  jn_identity : option DiskIdentity; jn_host : option Identity; jn_evidence : option FormatEvidence }.
#[export] Instance Identity_eq_dec : EqDecision Identity.
Proof. solve_decision. Defined.
#[export] Instance FormatEvidence_eq_dec : EqDecision FormatEvidence.
Proof. solve_decision. Defined.
#[export] Instance Journal_eq_dec : EqDecision Journal.
Proof. solve_decision. Defined.
#[export] Instance Qualification_eq_dec : EqDecision Qualification.
Proof. solve_decision. Defined.
Definition zeroJournal : Journal := mkFormat 0 "" "" "" 0 "" None None None.

Definition validateRequest (request : FormatRequest) : res unit :=
  Domain.Parse (fr_domain request) ;;?
  check (Session.validUUID (fr_volume request) && Session.validUUID (fr_uuid request) && (4096 <=? fr_size request) &&
         (fr_size request <=? 2 ^ 43) && (fr_size request mod 512 =? 0)) "invalid workspace formatting request".

(** Decoding into a pointer: [null] makes it nil, anything else is decoded
    into what it points to. *)
Definition decode_pointer {A} (elem : json → A → res A) (zero : A) (v : json) (old : option A) : res (option A) :=
  match v with
  | JNull => Ok None
  | _ => let? x := elem v (default zero old) in Ok (Some x)
  end.
Definition identity_field (name : string) (v : json) (d : DiskIdentity) : res DiskIdentity :=
  if name =s "device" then let? x := get_uint64 v d.1 in Ok (x, d.2) else let? x := get_uint64 v d.2 in Ok (d.1, x).
Definition decodeIdentity : json → DiskIdentity → res DiskIdentity := decode_struct ["device"; "inode"] identity_field.
Definition host_field (name : string) (v : json) (h : Identity) : res Identity :=
  if name =s "volume_uuid" then let? x := get_string v (hi_volume h) in Ok (mkHostIdentity x (hi_file h))
  else let? x := get_uint64 v (hi_file h) in Ok (mkHostIdentity (hi_volume h) x).
Definition decodeHost : json → Identity → res Identity := decode_struct ["volume_uuid"; "file_id"] host_field.
Definition evidence_field (name : string) (v : json) (e : FormatEvidence) : res FormatEvidence :=
  if name =s "observed_uuid" then let? x := get_string v (fe_uuid e) in Ok (mkEvidence x (fe_whole e) (fe_clean e))
  else if name =s "whole_device" then let? x := get_bool v (fe_whole e) in Ok (mkEvidence (fe_uuid e) x (fe_clean e))
  else let? x := get_bool v (fe_clean e) in Ok (mkEvidence (fe_uuid e) (fe_whole e) x).
Definition decodeEvidence : json → FormatEvidence → res FormatEvidence :=
  decode_struct ["observed_uuid"; "whole_device"; "filesystem_clean"] evidence_field.
Definition journal_field (name : string) (v : json) (j : Journal) : res Journal :=
  let '(mkFormat version domain volume uuid size state identity host evidence) := j in
  if name =s "version" then let? x := get_int v version in Ok (mkFormat x domain volume uuid size state identity host evidence)
  else if name =s "domain" then let? x := get_string v domain in Ok (mkFormat version x volume uuid size state identity host evidence)
  else if name =s "volume_id" then let? x := get_string v volume in Ok (mkFormat version domain x uuid size state identity host evidence)
  else if name =s "filesystem_uuid" then
    let? x := get_string v uuid in Ok (mkFormat version domain volume x size state identity host evidence)
  else if name =s "size_bytes" then let? x := get_int v size in Ok (mkFormat version domain volume uuid x state identity host evidence)
  else if name =s "state" then let? x := get_string v state in Ok (mkFormat version domain volume uuid size x identity host evidence)
  else if name =s "identity" then
    let? x := decode_pointer decodeIdentity (0, 0) v identity in Ok (mkFormat version domain volume uuid size state x host evidence)
  else if name =s "host_identity" then
    let? x := decode_pointer decodeHost (mkHostIdentity "" 0) v host in
    Ok (mkFormat version domain volume uuid size state identity x evidence)
  else
    let? x := decode_pointer decodeEvidence (mkEvidence "" false false) v evidence in
    Ok (mkFormat version domain volume uuid size state identity host x).
Definition journalFields : list string :=
  ["version"; "domain"; "volume_id"; "filesystem_uuid"; "size_bytes"; "state"; "identity"; "host_identity"; "evidence"].

(** One value, no object of which repeats a key. *)
Definition walkJSONValue (v : json) : bool := checkJSONValue v.
Definition rejectDuplicateJSON (raw : string) : res json :=
  match scan raw with
  | Some [v] => if walkJSONValue v then Ok v else fail "duplicate JSON field"
  | _ => fail "trailing JSON value"
  end.
(** What a journal of [request] may claim in each state. *)
Definition identity_proven (j : Journal) : bool :=
  match jn_identity j with Some (device, inode) => negb (device =? 0) && negb (inode =? 0) | None => false end &&
  match jn_evidence j with Some _ => true | None => false end.
Definition host_proven (j : Journal) : bool :=
  match jn_host j, jn_identity j with
  | Some h, Some (_, inode) => Session.validUUID (hi_volume h) && negb (hi_file h =? 0) && (hi_file h =? inode)
  | _, _ => false
  end.
Definition admitJournal (request : FormatRequest) (j : Journal) : res unit :=
  check (((jn_version j =? 1) || (jn_version j =? journalVersion)) && (jn_domain j =s fr_domain request) && (jn_volume j =s fr_volume request) &&
         (jn_uuid j =s fr_uuid request) && (jn_size j =? fr_size request)) "format journal does not match exact request" ;;?
  check (negb ((jn_version j =? 1) && bool_decide (is_Some (jn_host j)))) "legacy format journal cannot claim later host identity" ;;?
  check (negb ((jn_state j ≠s StateVerified) && bool_decide (is_Some (jn_host j)))) "incomplete format journal cannot claim persistent host identity" ;;?
  if jn_state j =s StateReserved then
    check (negb (bool_decide (is_Some (jn_identity j)) || bool_decide (is_Some (jn_evidence j)))) "reserved format journal claims completed work"
  else if (jn_state j =s StateFormatting) || (jn_state j =s StateFailed) then
    check (negb (bool_decide (is_Some (jn_evidence j)))) "incomplete format journal claims verification"
  else if jn_state j =s StateVerified then
    check (identity_proven j) "verified format journal lacks proof" ;;?
    check (negb ((jn_version j =? 2) && negb (host_proven j))) "verified format journal lacks persistent APFS identity"
  else fail "invalid format journal state".
Definition decodeJournal (raw : string) (request : FormatRequest) : res Journal :=
  let? v := rejectDuplicateJSON raw in
  let? j := decode_struct journalFields journal_field v zeroJournal in
  admitJournal request j ;;?
  Ok j.

Definition marshalIdentity (d : DiskIdentity) : json := JObj [("device", JNum d.1); ("inode", JNum d.2)].
Definition marshalHost (h : Identity) : json := JObj [("volume_uuid", jstr (hi_volume h)); ("file_id", JNum (hi_file h))].
Definition marshalEvidence (e : FormatEvidence) : json :=
  JObj [("observed_uuid", jstr (fe_uuid e)); ("whole_device", JBool (fe_whole e)); ("filesystem_clean", JBool (fe_clean e))].
(** A pointer tagged [omitempty]. *)
Definition omitnil {A} (name : string) (enc : A → json) (o : option A) : list (string * json) :=
  match o with Some a => [(name, enc a)] | None => [] end.
Definition marshalFormatJournal (j : Journal) : json :=
  JObj ([("version", JNum (jn_version j)); ("domain", jstr (jn_domain j)); ("volume_id", jstr (jn_volume j));
         ("filesystem_uuid", jstr (jn_uuid j)); ("size_bytes", JNum (jn_size j)); ("state", jstr (jn_state j))] ++
        omitnil "identity" marshalIdentity (jn_identity j) ++ omitnil "host_identity" marshalHost (jn_host j) ++
        omitnil "evidence" marshalEvidence (jn_evidence j)).
Definition journal_text (j : Journal) : string := render (marshalFormatJournal j) +:+ String LF "".

Definition rawName (id : string) : string := id +:+ ".raw".
Definition journalName (id : string) : string := id +:+ ".format.json".
Definition qualification (j : Journal) (identity : DiskIdentity) : Qualification :=
  mkQualification (jn_domain j) (jn_volume j) (jn_uuid j) (jn_size j) identity.1 identity.2.

(** *** The binding of a version 1 receipt to a persistent identity *)
Definition legacyBindingVersion : Z := 1.
Definition maxLegacyBindingBytes : N := 4096.
Record legacyBinding := mkLegacyBinding {
  lb_version : Z; lb_domain : string; lb_volume : string; lb_uuid : string; lb_size : Z; lb_original : DiskIdentity;
  lb_receipt : string; lb_host : Identity }.
#[export] Instance legacyBinding_eq_dec : EqDecision legacyBinding.
Proof. solve_decision. Defined.
Definition legacyBindingName (volumeID : string) : string := volumeID +:+ ".binding.json".
Definition binding_field (name : string) (v : json) (b : legacyBinding) : res legacyBinding :=
  let '(mkLegacyBinding version domain volume uuid size original receipt host) := b in
  if name =s "version" then let? x := get_int v version in Ok (mkLegacyBinding x domain volume uuid size original receipt host)
  else if name =s "domain" then let? x := get_string v domain in Ok (mkLegacyBinding version x volume uuid size original receipt host)
  else if name =s "volume_id" then let? x := get_string v volume in Ok (mkLegacyBinding version domain x uuid size original receipt host)
  else if name =s "filesystem_uuid" then let? x := get_string v uuid in Ok (mkLegacyBinding version domain volume x size original receipt host)
  else if name =s "size_bytes" then let? x := get_int v size in Ok (mkLegacyBinding version domain volume uuid x original receipt host)
  else if name =s "original_identity" then
    let? x := decodeIdentity v original in Ok (mkLegacyBinding version domain volume uuid size x receipt host)
  else if name =s "receipt_sha256" then let? x := get_string v receipt in Ok (mkLegacyBinding version domain volume uuid size original x host)
  else let? x := decodeHost v host in Ok (mkLegacyBinding version domain volume uuid size original receipt x).
Definition bindingFields : list string :=
  ["version"; "domain"; "volume_id"; "filesystem_uuid"; "size_bytes"; "original_identity"; "receipt_sha256"; "host_identity"].
Definition marshalBinding (b : legacyBinding) : json :=
  JObj [("version", JNum (lb_version b)); ("domain", jstr (lb_domain b)); ("volume_id", jstr (lb_volume b));
        ("filesystem_uuid", jstr (lb_uuid b)); ("size_bytes", JNum (lb_size b)); ("original_identity", marshalIdentity (lb_original b));
        ("receipt_sha256", jstr (lb_receipt b)); ("host_identity", marshalHost (lb_host b))].
Definition binding_text (b : legacyBinding) : string := render (marshalBinding b) +:+ String LF "".

(** ** The disk images *)

(** A regular file: its length, its bytes (NUL where the map is silent) and
    whether its owner, mode and link count are the private ones. *)
Record rawfile := mkRaw { rw_size : Z; rw_private : bool; rw_data : gmap Z ascii }.
(** The names of the volumes directory, and the files by identity: an open
    descriptor keeps the identity, whatever becomes of the name. *)
Record images := mkImages { im_names : gmap string DiskIdentity; im_files : gmap DiskIdentity rawfile }.

(** What the operating system answers. *)
Class Platform := {
  pf_identity : images → DiskIdentity;                  (* of the next file *)
  pf_random : nat → string;
  pf_statfs : nat → res (Z * Z * Z);                    (* block size, blocks, available blocks *)
  pf_samples : nat → list (res (Z * Z * Z));            (* at the ticks of the monitor *)
  pf_observe : nat → DiskIdentity → res Identity;       (* hostidentity.Observe *)
  pf_storage : nat → StorageExpectation → res unit;     (* hostidentity.checkStorage *)
  pf_same_fs : nat → res unit;
  pf_canceled : nat → bool;
}.
(** The formatter: a function of its request and of the images, which it may
    change in any way. *)
Record FormatterRequest := mkFormatterRequest { ft_name : string; ft_request : FormatRequest; ft_identity : DiskIdentity; ft_marker : string }.
Record Formatter := mkFormatter { fm_run : FormatterRequest → images → res FormatEvidence * images; fm_synthetic : bool }.

Section format.
Context {E : Env} {P : Platform}.

Definition raw_create (name : string) : M images DiskIdentity :=
  host_try (λ b, match im_names b !! name with
                   | Some _ => (fail "file exists", b)
                   | None => let id := pf_identity b in
                             (Ok id, mkImages (<[name := id]> (im_names b)) (<[id := mkRaw 0 true ∅]> (im_files b)))
                   end).
Definition on_file {A} (id : DiskIdentity) (f : rawfile → res A * rawfile) : M images A :=
  host_try (λ b, match im_files b !! id with
                   | None => (fail "bad file descriptor", b)
                   | Some x => let '(r, y) := f x in (r, mkImages (im_names b) (<[id := y]> (im_files b)))
                   end).
Definition raw_truncate (id : DiskIdentity) (size : Z) : M images unit :=
  on_file id (λ x, (Ok tt, mkRaw size (rw_private x) (rw_data x))).
Fixpoint put_bytes (off : Z) (s : string) (m : gmap Z ascii) : gmap Z ascii :=
  match s with EmptyString => m | String c r => put_bytes (off + 1) r (<[off := c]> m) end.
Definition raw_write (id : DiskIdentity) (off : Z) (s : string) : M images unit :=
  on_file id (λ x, (Ok tt, mkRaw (Z.max (rw_size x) (off + Z.of_nat (String.length s))) (rw_private x) (put_bytes off s (rw_data x)))).
Definition raw_sync (id : DiskIdentity) : M images unit := on_file id (λ x, (Ok tt, x)).
Definition raw_stat (id : DiskIdentity) : M images rawfile := on_file id (λ x, (Ok x, x)).
(** [ReadAt]: an error unless all [n] bytes are there. *)
Fixpoint get_bytes (off : Z) (n : nat) (m : gmap Z ascii) : string :=
  match n with O => EmptyString | S n => String (default "000"%char (m !! off)) (get_bytes (off + 1) n m) end.
Definition raw_read (id : DiskIdentity) (off : Z) (n : nat) : M images string :=
  on_file id (λ x, (if off + Z.of_nat n <=? rw_size x then Ok (get_bytes off n (rw_data x)) else fail "EOF", x)).
(** [Lstat] of a name, and the file it names. *)
Definition raw_lstat (name : string) : M images (DiskIdentity * rawfile) :=
  host_try (λ b, (match im_names b !! name with
                    | Some id => match im_files b !! id with Some x => Ok (id, x) | None => Er ErrNotExist end
                    | None => Er ErrNotExist end, b)).

Definition privateRegular (x : rawfile) : M images unit := guard (negb (rw_private x)) "expected private regular file mode 0600".
Definition openVolumes : M images unit := fs_sync Volumes ;;! wrap "volumes directory differs from state-root filesystem" (ask pf_same_fs).
(** The pinned file is the private file of that name and size. *)
Definition exactFile (name : string) (id : DiskIdentity) (size : Z) : M images DiskIdentity :=
  let! opened := raw_stat id in
  privateRegular opened ;;!
  guard (negb (rw_size opened =? size)) "raw disk size changed" ;;!
  let! entry := raw_lstat name in
  privateRegular entry.2 ;;!
  guard (bool_decide (id ≠ entry.1)) "raw disk path no longer names pinned file" ;;!
  wrap "raw disk differs from volumes filesystem" (ask pf_same_fs) ;;!
  guard ((id.1 =? 0) || (id.2 =? 0)) "raw disk identity unavailable" ;;!
  ret id.

Definition ext4_magic : string := String "083" (String "239" "").
Definition verifyExt4Header (id : DiskIdentity) (uuid : string) : M images unit :=
  let! magic := raw_read id (1024 + 0x38) 2 in
  guard (magic ≠s ext4_magic) "raw disk lacks whole-device ext4 superblock magic" ;;!
  let! observed := raw_read id (1024 + 0x68) 16 in
  guard (observed ≠s unhex (Session.strip_dashes uuid)) "raw disk ext4 UUID does not match qualification".

(** *** Free space *)
Definition uint64_max : Z := 2 ^ 64 - 1.
Definition checkHeadroomValues (capacity free : Z) : res unit :=
  let floor := Z.max (capacity / 10) (20 * 2 ^ 30) in
  check (negb (free <=? floor)) "host filesystem free space is at or below reserve".
Definition headroomOf (stat : Z * Z * Z) : res unit :=
  let '(bsize, blocks, available) := stat in
  check (negb (bsize <=? 0)) "invalid host filesystem block size" ;;?
  check (negb ((uint64_max / bsize <? blocks) || (uint64_max / bsize <? available))) "host filesystem capacity overflow" ;;?
  checkHeadroomValues ((blocks * bsize) mod 2 ^ 64) ((available * bsize) mod 2 ^ 64).
Definition checkHeadroom : M images unit :=
  let! stat := ask pf_statfs in
  lift (headroomOf stat).
(** The monitor stops at the first sample without headroom. *)
Fixpoint monitorHeadroom (samples : list (res (Z * Z * Z))) : res unit :=
  match samples with
  | [] => Ok tt
  | s :: rest => (let? stat := s in headroomOf stat) ;;? monitorHeadroom rest
  end.

(** *** The journal file *)
Definition writeInitialJournal (j : Journal) : M images unit :=
  fs_create Volumes (journalName (jn_volume j)) (bytes_file (journal_text j)).
Definition replaceJournal (j : Journal) : M images unit :=
  let name := journalName (jn_volume j) in
  fs_lstat Volumes name ;;!
  fs_replace Volumes name (bytes_file (journal_text j)).
Definition readJournalWithRaw (request : FormatRequest) : M images (Journal * string) :=
  let! f := fs_read Volumes (journalName (fr_volume request)) in
  guard (maxJournalBytes <? N.of_nat (String.length (file_blob f)))%N "format journal unreadable or oversized" ;;!
  let! journal := lift (decodeJournal (file_blob f) request) in
  ret (journal, file_blob f).
Definition readJournal (request : FormatRequest) : M images Journal :=
  let! p := readJournalWithRaw request in
  ret p.1.
Definition ReadJournal (request : FormatRequest) : M images Journal :=
  lift (validateRequest request) ;;!
  openVolumes ;;!
  readJournal request.

Context {D : Digests}.
Definition decodeBinding (raw : string) : res legacyBinding :=
  let? v := rejectDuplicateJSON raw in
  decode_struct bindingFields binding_field v (mkLegacyBinding 0 "" "" "" 0 (0, 0) "" (mkHostIdentity "" 0)).
Definition binding_matches (request : FormatRequest) (j : Journal) (receipt : string) (b : legacyBinding) : bool :=
  (jn_version j =? 1) && (jn_state j =s StateVerified) && (lb_version b =? legacyBindingVersion) && (lb_domain b =s fr_domain request) &&
  (lb_volume b =s fr_volume request) && (lb_uuid b =s fr_uuid request) && (lb_size b =? fr_size request) &&
  bool_decide (jn_identity j = Some (lb_original b)) && (lb_receipt b =s sha256 receipt) && Session.validUUID (hi_volume (lb_host b)) &&
  (hi_file (lb_host b) =? (lb_original b).2).
Definition readLegacyBinding (request : FormatRequest) (j : Journal) (receipt : string) : M images (option legacyBinding) :=
  let! found := attempt (fs_read Volumes (legacyBindingName (fr_volume request))) in
  match found with
  | Er e => if err_not_exist e then ret None else throw e
  | Ok f =>
      guard (maxLegacyBindingBytes <? N.of_nat (String.length (file_blob f)))%N "legacy binding unreadable or oversized" ;;!
      let! binding := lift (decodeBinding (file_blob f)) in
      guard (negb (binding_matches request j receipt binding)) "legacy binding does not match exact verified receipt" ;;!
      ret (Some binding)
  end.

(** *** Admission *)
Definition proven (request : FormatRequest) (j : Journal) : bool :=
  (jn_state j =s StateVerified) && bool_decide (is_Some (jn_identity j)) &&
  match jn_evidence j with Some e => (fe_uuid e =s fr_uuid request) && fe_whole e && fe_clean e | None => false end.
Definition checkIdentity (j : Journal) (recorded : DiskIdentity) (legacy : option legacyBinding) (id : DiskIdentity) : M images unit :=
  if jn_version j =? 1 then
    match legacy with
    | None => guard (bool_decide (id ≠ recorded)) "raw disk identity does not match qualification"
    | Some binding =>
        let! host := ask (λ n, pf_observe n id) in
        guard (bool_decide (host ≠ lb_host binding) || negb (id.2 =? recorded.2) || negb (id.2 =? hi_file host))
              "raw disk persistent APFS identity does not match legacy binding"
    end
  else
    let! host := ask (λ n, pf_observe n id) in
    guard (bool_decide (jn_host j ≠ Some host) || negb (recorded.2 =? hi_file host)) "raw disk APFS identity does not match qualification".
Definition admitVerified (request : FormatRequest) : M images (DiskIdentity * Qualification) :=
  lift (validateRequest request) ;;!
  openVolumes ;;!
  let! p := readJournalWithRaw request in
  let '(j, receipt) := p in
  guard (negb (proven request j)) "workspace format is not verified" ;;!
  let recorded := default (0, 0) (jn_identity j) in
  let! legacy := (if jn_version j =? 1 then readLegacyBinding request j receipt else ret None) in
  let name := rawName (fr_volume request) in
  let! entry := raw_lstat name in
  privateRegular entry.2 ;;!
  let! id := exactFile name entry.1 (fr_size request) in
  checkIdentity j recorded legacy id ;;!
  verifyExt4Header id (fr_uuid request) ;;!
  (if jn_version j =? 2 then fs_sync Volumes else ret tt) ;;!
  ret (id, qualification j recorded).
Definition Admit (request : FormatRequest) : M images (DiskIdentity * Qualification) := admitVerified request.

(** *** Creation *)
(** [filepath.Rel] of two clean absolute paths does not climb. *)
Definition path_under (base path : string) : bool := (base =s "/") || (path =s base) || has_prefix (base +:+ "/") path.
Definition StorageExpectation_Validate (s : StorageExpectation) : res unit :=
  check (canonical_abs (se_config s) && canonical_abs (se_root s) && canonical_abs (se_mount s)) "workspace storage path must be clean and absolute" ;;?
  check (Session.validUUID (se_volume s)) "workspace storage requires canonical APFS volume UUID" ;;?
  check (path_under (se_mount s) (se_root s)) "workspace state root is outside expected mount".
Definition CheckStorage (s : StorageExpectation) : M images unit := ask (λ n, StorageExpectation_Validate s ;;? pf_storage n s).
Definition CheckCreationStorage (stateRoot : string) (storage : option StorageExpectation) (formatter : Formatter) : M images unit :=
  if fm_synthetic formatter then ret tt
  else match storage with
       | None => throw (Errorf "workspace creation requires externally enrolled backing storage")
       | Some s =>
           guard (se_root s ≠s stateRoot) "workspace creation requires externally enrolled backing storage" ;;!
           wrap "admit workspace backing storage" (CheckStorage s)
       end.
(** Without a persistent identity of the directory only an explicitly
    synthetic formatter gets the legacy journal, and never on macOS. *)
Definition creationJournalVersion (darwin : bool) (volumes : DiskIdentity) (formatter : Formatter) : M images Z :=
  let! observed := attempt (ask (λ n, pf_observe n volumes)) in
  match observed with
  | Ok _ => ret journalVersion
  | Er e => if negb darwin && fm_synthetic formatter then ret 1 else throw e
  end.
Definition reservedFor (version : Z) (request : FormatRequest) : Journal :=
  mkFormat version (fr_domain request) (fr_volume request) (fr_uuid request) (fr_size request) StateReserved None None None.
Definition set_journal (state : string) (identity : option DiskIdentity) (host : option Identity) (evidence : option FormatEvidence) (j : Journal) : Journal :=
  mkFormat (jn_version j) (jn_domain j) (jn_volume j) (jn_uuid j) (jn_size j) state identity host evidence.

(** The deferred recording of a failure, before any verified publication. *)
Definition recordingFailure {A} (j : Journal) (m : M images A) : M images A :=
  let! r := attempt m in
  match r with
  | Ok a => ret a
  | Er e => throw_join e (wrap "record failed format" (replaceJournal (set_journal StateFailed (jn_identity j) (jn_host j) (jn_evidence j) j)))
  end.
(** The exclusive, sized and marked raw file. *)
Definition createRaw (request : FormatRequest) : M images (DiskIdentity * string) :=
  let name := rawName (fr_volume request) in
  let! id := wrap "create exclusive raw file" (raw_create name) in
  wrap "size raw file" (raw_truncate id (fr_size request)) ;;!
  let! marker := ask (λ n, Ok (pf_random n)) in
  wrap "write raw disk marker" (raw_write id 0 marker) ;;!
  wrap "sync raw file" (raw_sync id) ;;!
  wrap "sync raw-file directory" (fs_sync Volumes) ;;!
  let! id := exactFile name id (fr_size request) in
  ret (id, marker).
Definition evidence_ok (request : FormatRequest) (e : FormatEvidence) : bool := (fe_uuid e =s fr_uuid request) && fe_whole e && fe_clean e.
Definition runFormatter (formatter : Formatter) (request : FormatRequest) (id : DiskIdentity) (marker : string) : M images (res FormatEvidence) :=
  attempt (host_call (λ r, EvFormat (fr_volume request) (hexEncode marker) (let? _ := r in Ok tt))
                     (fm_run formatter (mkFormatterRequest (rawName (fr_volume request)) request id (hexEncode marker)))).
(** The one formatter run and the independent checks that follow. *)
Definition formatRaw (formatter : Formatter) (storage : option StorageExpectation) (request : FormatRequest) (j : Journal) (id : DiskIdentity)
    (marker : string) : M images (FormatEvidence * option Identity) :=
  wrap "persist formatting intent" (replaceJournal j) ;;!
  let! formatted := runFormatter formatter request id marker in
  let! samples := ask (λ n, Ok (pf_samples n)) in
  wrap "formatting exceeded host disk reserve" (lift (monitorHeadroom samples)) ;;!
  let! canceled := ask (λ n, Ok (pf_canceled n)) in
  guard canceled "workspace formatting canceled" ;;!
  checkHeadroom ;;!
  let! evidence := wrap "Linux formatter" (lift formatted) in
  guard (negb (evidence_ok request evidence)) "Linux formatter did not verify exact healthy whole-device ext4 filesystem" ;;!
  wrap "sync formatted raw file" (raw_sync id) ;;!
  let! post := exactFile (rawName (fr_volume request)) id (fr_size request) in
  guard (bool_decide (post ≠ id)) "raw disk identity changed during formatting" ;;!
  verifyExt4Header id (fr_uuid request) ;;!
  let! host :=
    (if jn_version j =? 2 then
       let! host := wrap "read formatted host identity" (ask (λ n, pf_observe n id)) in
       guard (negb (hi_file host =? id.2) || match storage with Some s => hi_volume host ≠s se_volume s | None => false end)
             "formatted raw APFS identity differs from creation inode or enrolled volume" ;;!
       ret (Some host)
     else ret None) in
  ret (evidence, host).
Definition settleVerifiedJournal (request : FormatRequest) (expected : Journal) (id : DiskIdentity) : M images unit :=
  let! observed := wrapv "verified journal publication did not match exact receipt" (readJournal request) in
  guard (bool_decide (observed ≠ expected)) "verified journal publication did not match exact receipt" ;;!
  fs_sync Volumes ;;!
  let! admitted := admitVerified request in
  guard (bool_decide (admitted.2 ≠ qualification expected id)) "verified journal did not readmit exact formatted file".
Definition publishVerified (request : FormatRequest) (verified : Journal) (id : DiskIdentity) : M images Qualification :=
  let! published := attempt (replaceJournal verified) in
  match published with
  | Ok _ => ret (qualification verified id)
  | Er e =>
      let! settled := attempt (settleVerifiedJournal request verified id) in
      match settled with
      | Ok _ => ret (qualification verified id)
      | Er e2 => throw (wrapw "persist verified format" (join_err e e2))
      end
  end.
Definition createReserved (formatter : Formatter) (storage : option StorageExpectation) (request : FormatRequest) (reserved : Journal)
  : M images Qualification :=
  let! raw := recordingFailure reserved (createRaw request) in
  let '(id, marker) := raw in
  let formatting := set_journal StateFormatting (Some id) None None reserved in
  let! proof := recordingFailure formatting (formatRaw formatter storage request formatting id marker) in
  let '(evidence, host) := proof in
  publishVerified request (set_journal StateVerified (Some id) host (Some evidence) reserved) id.
Definition createLocked (darwin : bool) (volumes : DiskIdentity) (stateRoot : string) (formatter : Formatter) (storage : option StorageExpectation)
    (request : FormatRequest) : M images Qualification :=
  openVolumes ;;!
  CheckCreationStorage stateRoot storage formatter ;;!
  let! version := wrap "qualify workspace backing filesystem" (creationJournalVersion darwin volumes formatter) in
  checkHeadroom ;;!
  let reserved := reservedFor version request in
  wrap "reserve workspace volume" (writeInitialJournal reserved) ;;!
  createReserved formatter storage request reserved.
Definition Create (darwin : bool) (volumes : DiskIdentity) (stateRoot : string) (formatter : option Formatter) (storage : option StorageExpectation)
    (request : FormatRequest) : M images Qualification :=
  lift (validateRequest request) ;;!
  match formatter with
  | None => throw (Errorf "nil workspace formatter")
  | Some formatter =>
      guard (negb (canonical_abs stateRoot)) "state root must be a clean absolute path" ;;!
      CheckCreationStorage stateRoot storage formatter ;;!
      let scope := Lock.storage_scope (fr_domain request) in
      Acquire scope ;;!
      deferred_ignore scope (createLocked darwin volumes stateRoot formatter storage request)
  end.

(** *** Binding a legacy receipt *)
(** A private temporary file linked to its name, which must be free. *)
Definition writeLegacyBinding (b : legacyBinding) : M images unit :=
  fs_publish_new Volumes (legacyBindingName (lb_volume b)) (bytes_file (binding_text b)).
Definition BindLegacy (stateRoot : string) (request : FormatRequest) (storage : StorageExpectation) : M images unit :=
  lift (validateRequest request) ;;!
  lift (StorageExpectation_Validate storage) ;;!
  guard (se_root storage ≠s stateRoot) "legacy binding lacks exact storage or identity checker" ;;!
  wrap "admit enrolled storage before legacy binding" (CheckStorage storage) ;;!
  openVolumes ;;!
  let! p := readJournalWithRaw request in
  let '(j, receipt) := p in
  guard (negb ((jn_version j =? 1) && proven request j)) "legacy receipt is not verified" ;;!
  let recorded := default (0, 0) (jn_identity j) in
  let name := rawName (fr_volume request) in
  let! entry := raw_lstat name in
  let! id := exactFile name entry.1 (fr_size request) in
  guard (negb (id.2 =? recorded.2)) "legacy raw file ID differs from verified receipt" ;;!
  verifyExt4Header id (fr_uuid request) ;;!
  let! host := ask (λ n, pf_observe n id) in
  guard ((hi_volume host ≠s se_volume storage) || negb (hi_file host =? id.2))
        "legacy raw file differs from expected persistent APFS identity" ;;!
  let want := mkLegacyBinding legacyBindingVersion (fr_domain request) (fr_volume request) (fr_uuid request) (fr_size request) recorded
                (sha256 receipt) host in
  let! existing := readLegacyBinding request j receipt in
  match existing with
  | Some b =>
      guard (bool_decide (b ≠ want)) "existing legacy binding conflicts with pinned proof" ;;!
      wrap "recheck enrolled storage before binding settlement" (CheckStorage storage) ;;!
      fs_sync Volumes
  | None =>
      wrap "recheck enrolled storage before legacy publication" (CheckStorage storage) ;;!
      writeLegacyBinding want ;;!
      let! published := wrapv "published legacy binding differs from exact proof" (readLegacyBinding request j receipt) in
      guard (bool_decide (published ≠ Some want)) "published legacy binding differs from exact proof" ;;!
      wrap "recheck enrolled storage after binding publication" (CheckStorage storage) ;;!
      fs_sync Volumes
  end.
End format.

(** ** Lemmas *)

Lemma validateRequest_ok r u : validateRequest r = Ok u →
  Lock.validLowerIdentifier (fr_domain r) = true ∧ Session.validUUID (fr_volume r) = true ∧ Session.validUUID (fr_uuid r) = true ∧
  4096 ≤ fr_size r ≤ 2 ^ 43.
Proof.
  unfold validateRequest. intros H. res_inv H. apply Parse_ok in Ha as [_ Ha]. apply check_ok in H.
  rewrite !andb_true_iff, !Z.leb_le in H. tauto.
Qed.
(** The Go types of the fields, and text the decoder can produce. *)
Definition typed_identity (d : DiskIdentity) : bool := uint64_ok d.1 && uint64_ok d.2.
Definition typed_journal (j : Journal) : bool :=
  match jn_identity j with Some d => typed_identity d | None => true end &&
  match jn_host j with Some h => uint64_ok (hi_file h) && (coerce_utf8 (hi_volume h) =s hi_volume h) | None => true end &&
  match jn_evidence j with Some e => coerce_utf8 (fe_uuid e) =s fe_uuid e | None => true end.
Record admitted_journal (r : FormatRequest) (j : Journal) : Prop := {
  aj_version : jn_version j = 1 ∨ jn_version j = 2;
  aj_domain : jn_domain j = fr_domain r;
  aj_volume : jn_volume j = fr_volume r;
  aj_uuid : jn_uuid j = fr_uuid r;
  aj_size : jn_size j = fr_size r;
  aj_state : jn_state j = StateReserved ∨ jn_state j = StateFormatting ∨ jn_state j = StateFailed ∨ jn_state j = StateVerified;
}.
Lemma admitJournal_ok r j u : admitJournal r j = Ok u → admitted_journal r j.
Proof.
  unfold admitJournal. intros H. res_inv H. apply check_ok in Ha.
  rewrite !andb_true_iff, orb_true_iff, !Z.eqb_eq, !String.eqb_eq in Ha. unfold journalVersion in Ha.
  constructor; try tauto. destruct (jn_state j =s StateReserved) eqn:E1; [apply eqs_true in E1; tauto|].
  destruct ((jn_state j =s StateFormatting) || (jn_state j =s StateFailed)) eqn:E2.
  { apply orb_true_iff in E2. rewrite !eqs_true in E2. tauto. }
  destruct (jn_state j =s StateVerified) eqn:E3; [apply eqs_true in E3; tauto|done].
Qed.

Section codec.
Context (r : FormatRequest) (j : Journal).
Hypothesis Hr : validateRequest r = Ok tt.
Hypothesis Ht : typed_journal j = true.
Hypothesis Hj : admitJournal r j = Ok tt.

Lemma journal_strings : utf8 (jn_domain j) ∧ utf8 (jn_volume j) ∧ utf8 (jn_uuid j) ∧ utf8 (jn_state j).
Proof.
  destruct (admitJournal_ok _ _ _ Hj) as [_ -> -> -> _ Hs]. destruct (validateRequest_ok _ _ Hr) as (? & ? & ? & _).
  split_and!; [by apply coerce_ident|by apply coerce_uuid|by apply coerce_uuid|]. by destruct Hs as [->|[->|[->| ->]]].
Qed.
Lemma decode_marshalFormatJournal : decode_struct journalFields journal_field (marshalFormatJournal j) zeroJournal = Ok j.
Proof.
  destruct journal_strings as (U1 & U2 & U3 & U4). destruct (admitJournal_ok _ _ _ Hj) as [Hv _ _ _ Hz _].
  assert (int64_ok (jn_size j) = true) as Hsize.
  { destruct (validateRequest_ok _ _ Hr) as (_ & _ & _ & ?). unfold int64_ok. apply andb_true_iff. split; [apply Z.leb_le|apply Z.ltb_lt]; lia. }
  clear Hj Hz Hr. revert Ht. unfold typed_journal, typed_identity, utf8 in *. intros Ht'. bsimpl.
  destruct j as [version domain volume uuid size state identity host evidence]. cbn [jn_version jn_domain jn_volume jn_uuid jn_size jn_state jn_identity jn_host jn_evidence] in *.
  unfold marshalFormatJournal. cbn [jn_version jn_domain jn_volume jn_uuid jn_size jn_state jn_identity jn_host jn_evidence].
  destruct identity as [[device inode]|], host as [[hv hf]|], evidence as [[eu ew ec]|]; cbn [fst snd hi_volume hi_file fe_uuid] in *; bsimpl;
    destruct Hv as [->| ->]; lazy -[coerce_utf8 int64_ok uint64_ok];
    rewrite ?(eq_refl : int64_ok 1 = true), ?(eq_refl : int64_ok 2 = true), Hsize;
    lazy -[coerce_utf8 int64_ok uint64_ok];
    repeat match goal with H : uint64_ok _ = true |- _ => rewrite H; clear H end; lazy -[coerce_utf8 int64_ok uint64_ok];
    repeat match goal with H : uint64_ok _ = true |- _ => rewrite H; clear H end; lazy -[coerce_utf8]; congruence.
Qed.
Lemma printable_journal : printable (marshalFormatJournal j) = true.
Proof.
  destruct journal_strings as (U1 & U2 & U3 & U4). revert Ht. unfold typed_journal, marshalFormatJournal, omitnil. intros Ht'. cbn [printable].
  apply forallb_forall. intros [k v] Hkv. cbn [fst snd]. assert (utf8 k ∧ printable v = true) as [-> ->]; [|by rewrite eqs_refl].
  rewrite !in_app_iff in Hkv. destruct Hkv as [Hkv|[Hkv|[Hkv|Hkv]]].
  - cbn [In] in Hkv. repeat (destruct Hkv as [[= <- <-]|Hkv]; [split; [done|first [done|by apply printable_jstr]]|]). done.
  - case_match; cbn [In] in Hkv; [|done]. by destruct Hkv as [[= <- <-]|[]].
  - destruct (jn_host j) as [h|]; cbn [In] in Hkv; [|done]. destruct Hkv as [[= <- <-]|[]]. split; [done|].
    bsimpl. unfold marshalHost. cbn [printable]. printable_obj; [by apply printable_jstr|done].
  - destruct (jn_evidence j) as [e|]; cbn [In] in Hkv; [|done]. destruct Hkv as [[= <- <-]|[]]. split; [done|].
    bsimpl. unfold marshalEvidence. cbn [printable]. printable_obj; [by apply printable_jstr|done|done].
Qed.
Lemma checked_journal : walkJSONValue (marshalFormatJournal j) = true.
Proof. unfold marshalFormatJournal, omitnil. by destruct (jn_identity j), (jn_host j), (jn_evidence j). Qed.
(** What is written is what is read. *)
Lemma decode_journal_text : decodeJournal (journal_text j) r = Ok j.
Proof.
  unfold decodeJournal, rejectDuplicateJSON, journal_text. rewrite scan_render by (auto using printable_journal).
  rewrite checked_journal. cbn [res_bind]. rewrite decode_marshalFormatJournal. cbn [res_bind]. by rewrite Hj.
Qed.
Lemma admitted_host h : jn_host j = Some h → Session.validUUID (hi_volume h) = true.
Proof.
  intros Hh. revert Hj. unfold admitJournal, host_proven, is_Some. rewrite Hh. intros H. res_inv H. apply check_ok in Ha, Ha0, Ha1.
  assert (jn_state j = StateVerified) as Hs.
  { apply negb_true_iff in Ha1. rewrite bool_decide_true in Ha1 by eauto. rewrite andb_true_r in Ha1. by apply neqs_false. }
  rewrite Hs in H. cbn in H. res_inv H. apply check_ok in H. apply negb_true_iff, andb_false_iff in H as [H|H].
  - rewrite !andb_true_iff, orb_true_iff, !Z.eqb_eq in Ha. apply Z.eqb_neq in H. unfold journalVersion in Ha.
    apply negb_true_iff in Ha0. rewrite bool_decide_true, andb_true_r in Ha0 by eauto. apply Z.eqb_neq in Ha0. lia.
  - apply negb_false_iff in H. destruct (jn_identity j) as [[]|]; [|done]. by bsimpl.
Qed.
Lemma omitnil_size {A} k (enc : A → json) o fs n : (∀ a, o = Some a → (json_size (enc a) ≤ n)%N) →
  (json_size (JObj (omitnil k enc o ++ fs)) ≤ (str_size k + 4 + n) + json_size (JObj fs))%N.
Proof.
  intros H. destruct o as [a|]; cbn [omitnil app]; [|lia]. pose proof (obj_size_cons k (enc a) fs). specialize (H a eq_refl). lia.
Qed.
Lemma uint64_size z : uint64_ok z = true → (json_size (JNum z) ≤ 20)%N.
Proof.
  unfold uint64_ok. rewrite andb_true_iff, Z.leb_le, Z.ltb_lt. intros H. apply (num_size_le z 20); lia.
Qed.
Lemma journal_text_fits : match jn_evidence j with Some e => fe_uuid e = fr_uuid r | None => True end →
  (N.of_nat (String.length (journal_text j)) ≤ maxJournalBytes)%N.
Proof.
  intros He. pose proof admitted_host as Hhost. destruct (admitJournal_ok _ _ _ Hj) as [Hv Hd Hvol Hu Hz Hs].
  destruct (validateRequest_ok _ _ Hr) as (Pd & Pv & Pu & Hsz).
  rewrite <-Hd in Pd. rewrite <-Hvol in Pv. rewrite <-Hu in Pu. apply plain_ident in Pd as (?&?&?). apply plain_uuid in Pv as (?&?&?), Pu as (?&?&?).
  assert (plain_upto 10 (jn_state j)) as (?&?&?).
  { apply (literal_plain 10 _ [StateReserved; StateFormatting; StateFailed; StateVerified]); [|done]. set_solver. }
  assert (json_size (JNum (jn_size j)) ≤ N.of_nat 13)%N by (apply num_size_le; [rewrite Hz; lia|lia]).
  assert (json_size (JNum (jn_version j)) ≤ 1)%N by (by destruct Hv as [->| ->]).
  unfold journal_text. rewrite str_length_app, Nat2N.inj_add, render_size. change (N.of_nat (String.length (String LF ""))) with 1%N.
  revert Ht. unfold typed_journal, typed_identity. rewrite !andb_true_iff. intros [[Hti Hth] _].
  assert (∀ d, jn_identity j = Some d → json_size (marshalIdentity d) ≤ 100)%N as Hi.
  { intros d Ed. rewrite Ed, andb_true_iff in Hti. destruct Hti as [T1%uint64_size T2%uint64_size].
    eapply N.le_trans; [unfold marshalIdentity; obj_size_tac|]. size_lia. }
  assert (∀ h, jn_host j = Some h → json_size (marshalHost h) ≤ 200)%N as Hh.
  { intros h Eh. pose proof (plain_uuid _ (Hhost _ Eh)) as (?&?&?). rewrite Eh, andb_true_iff in Hth. destruct Hth as [T1%uint64_size _].
    eapply N.le_trans; [unfold marshalHost; obj_size_tac|]. size_lia. }
  assert (∀ e, jn_evidence j = Some e → json_size (marshalEvidence e) ≤ 200)%N as Hev.
  { intros e Ee. rewrite Ee, <-Hu in He. destruct e as [eu ew ec]. cbn [fe_uuid] in *. subst eu.
    assert (json_size (JBool ew) ≤ 5 ∧ json_size (JBool ec) ≤ 5)%N as [? ?] by (by destruct ew, ec).
    eapply N.le_trans; [unfold marshalEvidence; cbn [fe_uuid fe_whole fe_clean]; obj_size_tac|]. size_lia. }
  pose proof (omitnil_size "evidence" marshalEvidence (jn_evidence j) [] 200 Hev) as S1. rewrite app_nil_r in S1.
  pose proof (omitnil_size "host_identity" marshalHost (jn_host j) (omitnil "evidence" marshalEvidence (jn_evidence j)) 200 Hh) as S2.
  pose proof (omitnil_size "identity" marshalIdentity (jn_identity j) (omitnil "host_identity" marshalHost (jn_host j) ++ omitnil "evidence" marshalEvidence (jn_evidence j)) 100 Hi) as S3.
  unfold maxJournalBytes. eapply N.le_trans; [apply N.add_le_mono_r; unfold marshalFormatJournal; cbn [app]; repeat obj_size_step; exact S3|]. size_lia.
Qed.
End codec.
