(* ===== verification/FormatSafety.v ===== *)
(** What the formatter promises: a volume ID is formatted at most once, under a
    journal that is always ahead of the disk; success is a verified journal
    that admission reads back; and the free-space rule means what it says at
    every machine width. *)
From S2P Require Import Prelude Ids Bytes Json JsonText Recipe SessionRecord Outside World Logic Format.

(** ** Lemmas *)

Section calls.
Context {E : Env} {P : Platform} {D : Digests}.
Implicit Types (w : world images).

Lemma quiet_on_file {A} id (g : rawfile → res A) : quiet (on_file id (λ x, (g x, x))).
Proof.
  apply quiet_host_try. intros [names files]. cbn [im_names im_files]. destruct (files !! id) as [x|] eqn:Ex; [|done]. cbn [snd].
  by rewrite insert_id.
Qed.
Lemma quiet_raw_lstat name : quiet (raw_lstat name).
Proof. by apply quiet_host_try. Qed.
Lemma quiet_raw_stat id : quiet (raw_stat id).
Proof. apply (quiet_on_file id Ok). Qed.
Lemma quiet_raw_sync id : quiet (raw_sync id).
Proof. apply (quiet_on_file id (λ _, Ok tt)). Qed.
Lemma quiet_raw_read id off n : quiet (raw_read id off n).
Proof. apply (quiet_on_file id (λ x, if off + Z.of_nat n <=? rw_size x then Ok (get_bytes off n (rw_data x)) else fail "EOF")). Qed.
#[local] Hint Resolve quiet_raw_lstat quiet_raw_stat quiet_raw_sync quiet_raw_read : quiet.
Lemma quiet_privateRegular x : quiet (privateRegular x).
Proof. apply quiet_guard. Qed.
#[local] Hint Resolve quiet_privateRegular : quiet.
Lemma quiet_exactFile name id size : quiet (exactFile name id size).
Proof. unfold exactFile. quiet_tac. Qed.
Lemma quiet_verifyExt4Header id uuid : quiet (verifyExt4Header id uuid).
Proof. unfold verifyExt4Header. quiet_tac. Qed.
Lemma quiet_openVolumes : quiet openVolumes.
Proof. unfold openVolumes. quiet_tac. Qed.
Lemma quiet_checkHeadroom : quiet checkHeadroom.
Proof. unfold checkHeadroom. quiet_tac. Qed.
Lemma quiet_readJournalWithRaw r : quiet (readJournalWithRaw r).
Proof. unfold readJournalWithRaw. quiet_tac. Qed.
#[local] Hint Resolve quiet_exactFile quiet_verifyExt4Header quiet_openVolumes quiet_checkHeadroom quiet_readJournalWithRaw : quiet.
Lemma quiet_readJournal r : quiet (readJournal r).
Proof. unfold readJournal. quiet_tac. Qed.
Lemma quiet_readLegacyBinding r j t : quiet (readLegacyBinding r j t).
Proof. unfold readLegacyBinding. quiet_tac. Qed.
Lemma quiet_checkIdentity j d l id : quiet (checkIdentity j d l id).
Proof. unfold checkIdentity. quiet_tac. Qed.
#[local] Hint Resolve quiet_readJournal quiet_readLegacyBinding quiet_checkIdentity : quiet.
Lemma quiet_admitVerified r : quiet (admitVerified r).
Proof. unfold admitVerified. quiet_tac. Qed.
#[local] Hint Resolve quiet_admitVerified : quiet.
Lemma quiet_settle r j id : quiet (settleVerifiedJournal r j id).
Proof. unfold settleVerifiedJournal. quiet_tac. Qed.
Lemma quiet_CheckCreationStorage root s f : quiet (CheckCreationStorage root s f).
Proof. unfold CheckCreationStorage, CheckStorage. quiet_tac. Qed.
Lemma quiet_creationJournalVersion dw v f : quiet (creationJournalVersion dw v f).
Proof. unfold creationJournalVersion. quiet_tac. Qed.
Lemma silent_createRaw r : silent (createRaw r).
Proof.
  unfold createRaw. repeat first [apply silent_bind; [|intros ?] | apply silent_wrap | apply silent_host_try | apply silent_quiet; solve [auto with quiet]].
Qed.
End calls.
#[export] Hint Resolve quiet_ask quiet_raw_lstat quiet_raw_stat quiet_raw_sync quiet_raw_read quiet_exactFile quiet_verifyExt4Header quiet_openVolumes
  quiet_checkHeadroom quiet_readJournalWithRaw quiet_readJournal quiet_readLegacyBinding quiet_checkIdentity quiet_admitVerified quiet_settle
  quiet_CheckCreationStorage quiet_creationJournalVersion : quiet.

Lemma journalName_inj a b : journalName a = journalName b → a = b.
Proof.
  unfold journalName. change ".format.json" with (".format" +:+ ".json"). rewrite <-!str_app_assoc. intros H%json_name_inj.
  assert (∀ s, strip_suffix ".format" (s +:+ ".format") = Some s) as Hs by (intros s; apply strip_suffix_app).
  pose proof (Hs a) as Ha. rewrite H, Hs in Ha. congruence.
Qed.
(** ** The steps of a creation *)

Fixpoint formats (volumeID : string) (tr : list step) : nat :=
  match tr with
  | [] => 0
  | s :: rest => (match st_event s with EvFormat v _ _ => if v =s volumeID then 1 else 0 | _ => 0 end + formats volumeID rest)%nat
  end.
Lemma formats_app v a b : formats v (a ++ b) = (formats v a + formats v b)%nat.
Proof. induction a as [|s a IH]; [done|]. cbn [formats app]. rewrite IH. lia. Qed.

Section steps.
Context {E : Env} {P : Platform} {D : Digests}.
Context (r : FormatRequest).
Implicit Types (w : world images).
#[local] Abbreviation jname := (journalName (fr_volume r)).
#[local] Abbreviation scope := (Lock.storage_scope (fr_domain r)).
Definition journalFile (j : Journal) : file := bytes_file (journal_text j).
Definition formattingFor (version : Z) (id : DiskIdentity) : Journal := set_journal StateFormatting (Some id) None None (reservedFor version r).
Definition failedFor (version : Z) (id : option DiskIdentity) : Journal := set_journal StateFailed id None None (reservedFor version r).
Definition verifiedFor (version : Z) (id : DiskIdentity) (host : option Identity) (evidence : FormatEvidence) : Journal :=
  set_journal StateVerified (Some id) host (Some evidence) (reservedFor version r).

(** What was done last: the reservation; then the formatting intent; then the
    formatter run. *)
Definition reserved_last (version : Z) (o : list step) : Prop :=
  ∃ s rest, o = s :: rest ∧ st_event s = EvCreate Volumes jname (journalFile (reservedFor version r)).
Definition intended_last (version : Z) (id : DiskIdentity) (o : list step) : Prop :=
  ∃ s rest, o = s :: rest ∧ st_event s = EvPublish Volumes jname (journalFile (formattingFor version id)) ∧ reserved_last version rest.
Definition formatted_last (version : Z) (id : DiskIdentity) (answer : res unit) (o : list step) : Prop :=
  ∃ s rest marker, o = s :: rest ∧ st_event s = EvFormat (fr_volume r) marker answer ∧ intended_last version id rest.

Definition publishes (o : list step) (f : file) : Prop := ∃ version,
  (∃ id, f = journalFile (formattingFor version id) ∧ reserved_last version o) ∨
  (f = journalFile (failedFor version None) ∧ reserved_last version o) ∨
  (∃ id, f = journalFile (failedFor version (Some id)) ∧
     (reserved_last version o ∨ intended_last version id o ∨ ∃ answer, formatted_last version id answer o)) ∨
  (∃ id host evidence, f = journalFile (verifiedFor version id host evidence) ∧ formatted_last version id (Ok tt) o ∧ evidence_ok r evidence = true ∧
     (version = 2 → ∃ h, host = Some h ∧ hi_file h = id.2)).
Definition format_steps (o : list step) (s : step) : Prop :=
  match st_event s with
  | EvAcquire sc | EvRelease sc => sc = scope
  | EvCreate Volumes n f => n = jname ∧ scope ∈ st_locks s ∧ ∃ version, f = journalFile (reservedFor version r)
  | EvPublish Volumes n f => n = jname ∧ scope ∈ st_locks s ∧ publishes o f
  | EvFormat v marker answer => v = fr_volume r ∧ scope ∈ st_locks s ∧
      ∃ version id, intended_last version id o ∧ st_disk s !! (Volumes, jname) = Some (EFile (journalFile (formattingFor version id)))
  | _ => False
  end.

(** What one creation does to the rest: at most one formatter run, and nothing
    to any other file. *)
Definition formatted_once (w w' : world images) : Prop :=
  w_locks w' = w_locks w ∧ is_Some (w_disk w' !! (Volumes, jname)) ∧ (∀ key, key ≠ (Volumes, jname) → w_disk w' !! key = w_disk w !! key) ∧
  ∃ new, w_trace w' = new ++ w_trace w ∧ (formats (fr_volume r) new ≤ 1)%nat ∧ ∀ v, v ≠ fr_volume r → formats v new = 0%nat.

Lemma wp_replaceJournal W j Q w :
  W (w_trace w) (Step (EvPublish Volumes (journalName (jn_volume j)) (journalFile j)) (w_disk w) (<[(Volumes, journalName (jn_volume j)) := EFile (journalFile j)]> (w_disk w)) (w_locks w)) →
  (∀ x n, Q x (did (EvPublish Volumes (journalName (jn_volume j)) (journalFile j)) (<[(Volumes, journalName (jn_volume j)) := EFile (journalFile j)]> (w_disk w)) (retick n w))) →
  (∀ e n, Q (Er e) (retick n w)) →
  wp W (replaceJournal j) Q w.
Proof.
  intros HS HQ HE. unfold replaceJournal. apply wp_bind, wp_quiet; [auto with quiet|]. intros [x|e] n _; [|apply HE].
  apply wp_fs_replace; [exact HS|intros x'; apply HQ|intros e _; apply (HE e (S n))].
Qed.
(** A failure is recorded, whether or not its publication succeeds. *)
Lemma wp_recordingFailure {A} W j (m : M images A) Q w :
  let failed := set_journal StateFailed (jn_identity j) (jn_host j) (jn_evidence j) j in
  let name := journalName (jn_volume j) in
  wp W m (λ x w1, match x with
                  | Ok a => Q (Ok a) w1
                  | Er _ => W (w_trace w1) (Step (EvPublish Volumes name (journalFile failed)) (w_disk w1) (<[(Volumes, name) := EFile (journalFile failed)]> (w_disk w1)) (w_locks w1)) ∧
                            (∀ e n, Q (Er e) (did (EvPublish Volumes name (journalFile failed)) (<[(Volumes, name) := EFile (journalFile failed)]> (w_disk w1)) (retick n w1))) ∧
                            ∀ e n, Q (Er e) (retick n w1)
                  end) w →
  wp W (recordingFailure j m) Q w.
Proof.
  cbv zeta. intros H. unfold recordingFailure. apply wp_bind, wp_attempt. eapply wp_conseq; [exact H|]. intros [a|e] w1 Hx; cbn beta iota.
  { by apply wp_ret. }
  destruct Hx as (HS & HQ & HE). unfold throw_join. apply wp_bind, wp_attempt, wp_wrap, wp_replaceJournal.
  - exact HS.
  - intros x n. apply wp_throw, HQ.
  - intros e' n. apply wp_throw, HE.
Qed.

(** How far the run went: what was recorded since the reservation. *)
Inductive phase (version : Z) (id : DiskIdentity) (base : list step) : option (res unit) → bool → list step → Prop :=
| phase_reserved : phase version id base None false base
| phase_intended s : st_event s = EvPublish Volumes jname (journalFile (formattingFor version id)) → phase version id base None true (s :: base)
| phase_formatted s t marker answer : st_event s = EvPublish Volumes jname (journalFile (formattingFor version id)) →
    st_event t = EvFormat (fr_volume r) marker answer → phase version id base (Some answer) true (t :: s :: base).
Definition beside (w w1 : world images) : Prop :=
  w_locks w1 = w_locks w ∧ is_Some (w_disk w1 !! (Volumes, jname)) ∧ ∀ key, key ≠ (Volumes, jname) → w_disk w1 !! key = w_disk w !! key.
Lemma beside_insert w w1 x : beside w w1 → ∀ k, k = <[(Volumes, jname) := x]> (w_disk w1) →
  ∀ w2, w_disk w2 = k → w_locks w2 = w_locks w1 → beside w w2.
Proof.
  intros (Hl & _ & Ho) k -> w2 Hk Hl2. split_and!; [congruence|rewrite Hk, lookup_insert_eq; eauto|].
  intros key Hne. rewrite Hk, lookup_insert_ne by congruence. by apply Ho.
Qed.
Lemma beside_same w w1 w2 : beside w w1 → w_disk w2 = w_disk w1 → w_locks w2 = w_locks w1 → beside w w2.
Proof. unfold beside. intros H -> ->. done. Qed.
Lemma beside_trans w w1 w2 : beside w w1 → beside w1 w2 → beside w w2.
Proof. intros (L1 & _ & O1) (L2 & P2 & O2). split_and!; [congruence|done|]. intros key Hne. rewrite O2 by done. by apply O1. Qed.
Lemma phase_last version id base answer started o : phase version id base answer started o → reserved_last version base →
  reserved_last version o ∨ intended_last version id o ∨ ∃ a, formatted_last version id a o.
Proof.
  inversion 1 as [|s Hs|s t marker a Hs Ht]; subst; intros Hb; [by left|right; left; by exists s, base|].
  right; right. exists a, t, (s :: base), marker. split_and!; [done|done|]. by exists s, base.
Qed.
Lemma phase_formats version id base answer started o : phase version id base answer started o → ∃ new, o = new ++ base ∧
  (formats (fr_volume r) new ≤ 1)%nat ∧ ∀ v, v ≠ fr_volume r → formats v new = 0%nat.
Proof.
  inversion 1 as [|s Hs|s t marker a Hs Ht]; subst.
  - exists []. split_and!; [done|cbn; lia|done].
  - exists [s]. cbn. rewrite Hs. split_and!; [done|lia|done].
  - exists [t; s]. cbn. rewrite Hs, Ht, eqs_refl. split_and!; [done|lia|]. intros v Hv. by destruct (String.eqb_spec (fr_volume r) v).
Qed.

Lemma wp_formatRaw formatter storage version id marker w :
  reserved_last version (w_trace w) → scope ∈ w_locks w → is_Some (w_disk w !! (Volumes, jname)) →
  wp format_steps (formatRaw formatter storage r (formattingFor version id) id marker)
    (λ x w1, beside w w1 ∧ match x with
       | Ok (evidence, host) => phase version id (w_trace w) (Some (Ok tt)) true (w_trace w1) ∧ evidence_ok r evidence = true ∧
                                (version = 2 → ∃ h, host = Some h ∧ hi_file h = id.2)
       | Er _ => ∃ answer started, phase version id (w_trace w) answer started (w_trace w1)
       end) w.
Proof.
  intros Hres Hscope Hp. assert (beside w w) as Hw by (split_and!; done). unfold formatRaw.
  apply wp_bind, wp_wrap, wp_replaceJournal.
  { split_and!; [done|done|]. exists version. left. by exists id. }
  2:{ intros e n. split; [done|]. eexists _, _. apply phase_reserved. }
  intros x n. set (w1 := did _ _ _).
  assert (beside w w1) as Hw1 by by eapply beside_insert.
  assert (∃ s, w_trace w1 = s :: w_trace w ∧ st_event s = EvPublish Volumes jname (journalFile (formattingFor version id)) ∧
    w_disk w1 !! (Volumes, jname) = Some (EFile (journalFile (formattingFor version id)))) as (s & Ht & Hs & Hd).
  { eexists. split_and!; [reflexivity|reflexivity|apply lookup_insert_eq]. }
  assert (phase version id (w_trace w) None true (w_trace w1)) as Hph1 by (rewrite Ht; by apply phase_intended).
  clearbody w1. destruct x as [[]|e]; cbn beta iota; [|split; [done|eauto]].
  unfold runFormatter. apply wp_bind, wp_attempt, wp_host_call. intros answer b _. split.
  { split_and!; [done|by destruct Hw1 as (-> & _)|]. exists version, id. split; [|done]. exists s, (w_trace w). by rewrite Ht. }
  cbn beta iota. set (w2 := asked _ _ _ _).
  assert (beside w w2) as Hw2 by by eapply beside_same.
  assert (phase version id (w_trace w) (Some (let? _ := answer in Ok tt)) true (w_trace w2)) as Hph.
  { cbn [w2 w_trace asked]. rewrite Ht. by eapply phase_formatted. }
  clearbody w2. clear Hw1 Hph1 b Hd Ht.
  assert (∀ (e : error) w3, w_disk w3 = w_disk w2 → w_locks w3 = w_locks w2 → w_trace w3 = w_trace w2 →
    beside w w3 ∧ ∃ a st, phase version id (w_trace w) a st (w_trace w3)) as Her.
  { intros e w3 H1 H2 H3. split; [by eapply beside_same|]. rewrite H3. eauto. }
  apply wp_bind, wp_quiet; [auto with quiet|]. intros [samples|e] n1 _; cbn beta iota; [|by apply (Her e)].
  apply wp_bind, wp_wrap, wp_lift. destruct (monitorHeadroom samples) as [[]|e]; cbn beta iota; [|by apply Her].
  apply wp_bind, wp_quiet; [auto with quiet|]. intros [canceled|e] n2 _; cbn beta iota; [|by apply (Her e)].
  wp_guard as _ by by apply Her.
  apply wp_bind, wp_quiet; [auto with quiet|]. intros [u|e] n3 _; cbn beta iota; [|by apply (Her e)].
  apply wp_bind, wp_wrap, wp_lift. destruct answer as [evidence|e]; cbn beta iota; [|by apply Her].
  wp_guard as Hev%negb_false_iff by by apply Her.
  apply wp_bind, wp_wrap, wp_quiet; [auto with quiet|]. intros [u2|e] n4 _; cbn beta iota; [|by apply (Her e)].
  apply wp_bind, wp_quiet; [auto with quiet|]. intros [post|e] n5 _; cbn beta iota; [|by apply (Her e)].
  wp_guard as _ by by apply Her.
  apply wp_bind, wp_quiet; [auto with quiet|]. intros [u3|e] n6 _; cbn beta iota; [|by apply (Her e)].
  apply wp_bind, wp_quiet; [quiet_tac|]. intros [host|e] n7 Hhost; cbn beta iota; [|by apply (Her e)].
  apply wp_ret. split; [by eapply beside_same|]. split_and!; [done|done|]. intros ->.
  change (jn_version (formattingFor 2 id) =? 2) with true in Hhost. cbn iota in Hhost. ok_inv.
  apply ret_ok in Hhost as [-> _]. apply orb_false_iff in Ha0 as [H1 _]. apply negb_false_iff, Z.eqb_eq in H1. eauto.
Qed.

Lemma wp_publishVerified version id host evidence base w :
  reserved_last version base → phase version id base (Some (Ok tt)) true (w_trace w) → evidence_ok r evidence = true →
  (version = 2 → ∃ h, host = Some h ∧ hi_file h = id.2) → scope ∈ w_locks w → is_Some (w_disk w !! (Volumes, jname)) →
  wp format_steps (publishVerified r (verifiedFor version id host evidence) id)
    (λ x w1, beside w w1 ∧ (w_trace w1 = w_trace w ∨ ∃ f, ∃ s, w_trace w1 = s :: w_trace w ∧ st_event s = EvPublish Volumes jname f)) w.
Proof.
  intros Hres Hph Hev Hhost Hscope Hp. assert (beside w w) as Hw by (split_and!; done). unfold publishVerified.
  apply wp_bind, wp_attempt, wp_replaceJournal.
  - split_and!; [done|done|]. exists version. do 3 right. exists id, host, evidence. split_and!; [done| |done|done].
    inversion Hph as [| |s t marker answer Hs Ht]; subst. eexists _, _, _. split_and!; [done|done|]. by eexists _, _.
  - intros x n. cbn beta iota. set (w1 := did _ _ _).
    assert (beside w w1) as Hw1 by by eapply beside_insert.
    assert (∃ f s, w_trace w1 = s :: w_trace w ∧ st_event s = EvPublish Volumes jname f) as Ht by by eexists _, _.
    clearbody w1. destruct x as [[]|e]; [apply wp_ret; auto|].
    apply wp_bind, wp_attempt, wp_quiet; [auto with quiet|]. intros [u|e2] n2 _; cbn beta iota; [apply wp_ret|apply wp_throw]; auto.
  - intros e n. cbn beta iota. apply wp_bind, wp_attempt, wp_quiet; [auto with quiet|].
    intros [u|e2] n2 _; cbn beta iota; [apply wp_ret|apply wp_throw]; auto.
Qed.

Lemma wp_createReserved formatter storage version w :
  reserved_last version (w_trace w) → scope ∈ w_locks w → is_Some (w_disk w !! (Volumes, jname)) →
  wp format_steps (createReserved formatter storage r (reservedFor version r)) (λ _ w', formatted_once w w') w.
Proof.
  intros Hres Hscope Hp. assert (beside w w) as Hw by (split_and!; done).
  assert (∀ w1 o f, beside w w1 → w_trace w1 = o ++ w_trace w → (formats (fr_volume r) o ≤ 1)%nat → (∀ v, v ≠ fr_volume r → formats v o = 0%nat) →
    ∀ x n, x = did (EvPublish Volumes jname f) (<[(Volumes, jname) := EFile f]> (w_disk w1)) (retick n w1) → formatted_once w x) as Hpub.
  { intros w1 o f Hb Ht H1 H2 x n ->. destruct Hb as (Hl & _ & Ho). split_and!; [done|cbn; rewrite lookup_insert_eq; eauto| |].
    - intros key Hne. cbn [w_disk did]. rewrite lookup_insert_ne by congruence. by apply Ho.
    - cbn [w_trace did retick]. rewrite Ht. eexists (_ :: o). split_and!; [reflexivity|done|done]. }
  assert (∀ w1 o, beside w w1 → w_trace w1 = o ++ w_trace w → (formats (fr_volume r) o ≤ 1)%nat → (∀ v, v ≠ fr_volume r → formats v o = 0%nat) →
    formatted_once w w1) as Hstop.
  { intros w1 o (Hl & Hp1 & Ho) Ht H1 H2. split_and!; eauto. }
  unfold createReserved. apply wp_bind, wp_recordingFailure. cbv zeta. apply wp_silent; [apply silent_createRaw|].
  intros [[id marker]|e] b n _; cbn beta iota.
  2:{ split; [split; [done|split; [done|exists version; right; left; by split]]|split].
      - intros e2 m. by apply (Hpub (rehost b n w) [] (journalFile (failedFor version None)) Hw eq_refl (Nat.le_0_l _) (λ _ _, eq_refl) _ m).
      - intros e2 m. apply (Hstop _ []); [by eapply beside_same|done|cbn; lia|done]. }
  set (w1 := rehost b n w). assert (beside w w1) as Hw1 by by eapply beside_same.
  change (set_journal StateFormatting (Some id) None None (reservedFor version r)) with (formattingFor version id).
  change (w_trace w) with (w_trace w1) in Hres. change (w_locks w) with (w_locks w1) in Hscope. change (w_disk w) with (w_disk w1) in Hp.
  assert (w_trace w1 = w_trace w) as Ht1 by done. clearbody w1.
  apply wp_bind, wp_recordingFailure. cbv zeta. eapply wp_conseq; [by apply wp_formatRaw|]. intros [[evidence host]|e] w2 [Hb2 Hx]; cbn beta iota.
  - destruct Hx as (Hph & Hev & Hh). destruct (phase_formats _ _ _ _ _ _ Hph) as (o & Ho & F1 & F2). rewrite Ht1 in Ho.
    pose proof (beside_trans _ _ _ Hw1 Hb2) as Hb. pose proof Hb2 as (Hl2 & Hp2 & _).
    eapply wp_conseq; [eapply wp_publishVerified; [exact Hres|exact Hph|done|done|by rewrite Hl2|done]|].
    intros x w3 [Hb3 Ht3]. pose proof (beside_trans _ _ _ Hb Hb3) as Hb'. destruct Ht3 as [Ht3|(f & s & Ht3 & Hs)].
    + apply (Hstop _ o); [done|by rewrite Ht3|done|done].
    + apply (Hstop _ (s :: o)); [done|by rewrite Ht3, Ho|cbn; by rewrite Hs|intros v Hv; cbn; rewrite Hs; by apply F2].
  - destruct Hx as (answer & started & Hph). destruct (phase_formats _ _ _ _ _ _ Hph) as (o & Ho & F1 & F2). rewrite Ht1 in Ho.
    pose proof (beside_trans _ _ _ Hw1 Hb2) as Hb. pose proof Hb2 as (Hl2 & _). split; [|split].
    + split; [done|split; [by rewrite <-Hl2 in Hscope|]]. exists version. do 2 right. left. exists id. split; [done|]. by eapply phase_last.
    + intros e2 m. by apply (Hpub w2 o (journalFile (failedFor version (Some id))) Hb Ho F1 F2 _ m).
    + intros e2 m. apply (Hstop _ o); [by eapply beside_same|done|done|done].
Qed.

(** No volume ID was formatted twice, and a formatted one has its journal. *)
Definition once w : Prop := ∀ v, (formats v (w_trace w) ≤ 1)%nat ∧ (formats v (w_trace w) ≠ 0%nat → is_Some (w_disk w !! (Volumes, journalName v))).
(** Other holders of the storage lock remove no journal. *)
Definition others_keep_journals : Prop :=
  ∀ n held k v, is_Some (k !! (Volumes, journalName v)) → is_Some (env_others n held k !! (Volumes, journalName v)).

Lemma once_silent w w' : w_trace w' = w_trace w → w_disk w' = w_disk w → once w → once w'.
Proof. unfold once. by intros -> ->. Qed.
Lemma once_step w w' s : w_trace w' = s :: w_trace w → (∀ v marker answer, st_event s ≠ EvFormat v marker answer) →
  (∀ v, is_Some (w_disk w !! (Volumes, journalName v)) → is_Some (w_disk w' !! (Volumes, journalName v))) → once w → once w'.
Proof.
  intros Ht Hs Hk Ho v. assert (formats v (w_trace w') = formats v (w_trace w)) as Hf.
  { rewrite Ht. cbn. destruct (st_event s) eqn:Es; try done. exfalso. by eapply Hs. }
  rewrite Hf. destruct (Ho v) as [H1 H2]. split; [done|]. intros Hn. by apply Hk, H2.
Qed.
(** A creation over a free journal name. *)
Lemma once_created w w1 w' s : once w → w_disk w !! (Volumes, jname) = None →
  w_trace w1 = s :: w_trace w → (∀ v marker answer, st_event s ≠ EvFormat v marker answer) →
  (∀ key, key ≠ (Volumes, jname) → w_disk w1 !! key = w_disk w !! key) → formatted_once w1 w' → once w'.
Proof.
  intros Ho Hnone Ht Hs Hk (_ & Hp & Hk' & new & Hn & F1 & F2) v. rewrite Hn, formats_app, Ht.
  assert (formats v (s :: w_trace w) = formats v (w_trace w)) as ->.
  { cbn. destruct (st_event s) eqn:Es; try done. exfalso. by eapply Hs. }
  destruct (Ho v) as [H1 H2]. destruct (decide (v = fr_volume r)) as [->|Hne].
  - assert (formats (fr_volume r) (w_trace w) = 0)%nat as ->.
    { destruct (decide (formats (fr_volume r) (w_trace w) = 0)%nat) as [|Hc]; [done|]. apply H2 in Hc as [x Hx]. congruence. }
    split; [lia|done].
  - rewrite F2 by done. split; [done|]. intros Hc. assert ((Volumes, journalName v) ≠ (Volumes, jname)) as Hj.
    { intros [= Hj%journalName_inj]. done. }
    rewrite Hk', Hk by done. by apply H2.
Qed.
Lemma wp_createLocked dw volumes root formatter storage w :
  scope ∈ w_locks w → wp format_steps (createLocked dw volumes root formatter storage r) (λ _ w', w_locks w' = w_locks w ∧ (once w → once w')) w.
Proof.
  intros Hscope. assert (∀ n, w_locks (retick n w) = w_locks w ∧ (once w → once (retick n w))) as Her by done. unfold createLocked.
  apply wp_bind, wp_quiet; [auto with quiet|]. intros [u1|e] n1 _; cbn beta iota; [|apply Her].
  apply wp_bind, wp_quiet; [auto with quiet|]. intros [u2|e] n2 _; cbn beta iota; [|apply Her].
  apply wp_bind, wp_wrap, wp_quiet; [auto with quiet|]. intros [version|e] n3 _; cbn beta iota; [|apply Her].
  apply wp_bind, wp_quiet; [auto with quiet|]. intros [u3|e] n4 _; cbn beta iota; [|apply Her]. cbv zeta.
  apply wp_bind, wp_wrap. unfold writeInitialJournal. apply wp_fs_create; [|intros e _; apply (Her (S n4))].
  cbn [jn_volume reservedFor]. intros Hnone f _. cbv zeta. split; [split; [done|split; [done|by exists version]]|]. set (ev := EvCreate _ _ _). set (w1 := did ev _ _).
  assert (w_trace w1 = Step ev (w_disk w) (w_disk w1) (w_locks w) :: w_trace w) as Ht by done.
  assert (∀ key, key ≠ (Volumes, jname) → w_disk w1 !! key = w_disk w !! key) as Hk.
  { intros key Hne. cbn [w1 w_disk did]. by rewrite lookup_insert_ne by congruence. }
  assert (is_Some (w_disk w1 !! (Volumes, jname))) as Hp by (cbn [w1 w_disk did]; rewrite lookup_insert_eq; eauto).
  split.
  - intros _. cbn beta iota. eapply wp_conseq; [apply wp_createReserved; [by eexists _, _|done|done]|].
    intros x w' Hf. split; [by destruct Hf as [-> _]|]. intros Ho. by eapply once_created.
  - intros e. split; [done|]. intros Ho. eapply once_created; [done|done|exact Ht|done|done|]. split_and!; [done|done|done|].
    exists []. split_and!; [done|cbn; lia|done].
Qed.
Lemma wp_Create dw volumes root formatter storage w :
  wp format_steps (Create dw volumes root formatter storage r) (λ _ w', others_keep_journals → once w → once w') w.
Proof.
  unfold Create. apply wp_bind, wp_lift. destruct (validateRequest r) as [[]|e]; cbn beta iota; [|done].
  destruct formatter as [formatter|]; [|by apply wp_throw]. wp_guard as _ by done.
  apply wp_bind, wp_quiet; [auto with quiet|]. intros [u1|e] n1 _; cbn beta iota; [|done]. cbv zeta.
  apply wp_bind, wp_Acquire; [|by split]. intros _ Hfree. split; [done|]. cbn beta iota. set (w1 := acquired _ _).
  assert (others_keep_journals → once w → once w1) as Ho1.
  { intros Hk. eapply (once_step w w1); [done|done|]. intros v. apply Hk. }
  unfold deferred_ignore. apply wp_deferred. eapply wp_conseq; [apply wp_createLocked; set_solver|]. intros x w2 [Hl Ho2].
  apply wp_Release; [done| |].
  - intros y _. intros Hk Ho. eapply (once_step w2); [done|done|done|auto].
  - intros _ Hk Ho. auto.
Qed.
End steps.

(** ** Successful creations *)

Definition image_exact (r : FormatRequest) (id : DiskIdentity) (b : images) : Prop :=
  im_names b !! rawName (fr_volume r) = Some id ∧ id.1 ≠ 0 ∧ id.2 ≠ 0 ∧
  ∃ x, im_files b !! id = Some x ∧ rw_private x = true ∧ rw_size x = fr_size r ∧
    get_bytes (1024 + 0x38) 2 (rw_data x) = ext4_magic ∧ get_bytes (1024 + 0x68) 16 (rw_data x) = unhex (Session.strip_dashes (fr_uuid r)).
(** The journal a reader of the volume ID finds. *)
Definition journal_at (r : FormatRequest) : disk → option Journal :=
  view (λ f, if (maxJournalBytes <? N.of_nat (String.length (file_blob f)))%N then fail "oversized" else decodeJournal (file_blob f) r)
       Volumes (journalName (fr_volume r)).

Section success.
Context {E : Env} {P : Platform} {D : Digests}.
Implicit Types (w : world images).

Lemma quiet_same {A} (m : M images A) w x w' : quiet m → m w = (x, w') → ∃ n, w' = retick n w.
Proof. intros Hm Hr. destruct (Hm w) as (y & n & Hq). rewrite Hr in Hq. injection Hq as _ ->. eauto. Qed.
Lemma on_file_ok {A} id (g : rawfile → res A) w a w' : on_file id (λ x, (g x, x)) w = (Ok a, w') →
  ∃ x, im_files (w_host w) !! id = Some x ∧ g x = Ok a.
Proof.
  unfold on_file, host_try. destruct (now_fault w); [|done..]. destruct (im_files (w_host w) !! id) as [x|]; [|done].
  intros [= Hg _]. eauto.
Qed.
Lemma raw_lstat_ok name w p w' : raw_lstat name w = (Ok p, w') →
  im_names (w_host w) !! name = Some p.1 ∧ im_files (w_host w) !! p.1 = Some p.2.
Proof.
  unfold raw_lstat, host_try. destruct (now_fault w); [|done..]. destruct (im_names (w_host w) !! name) as [id|]; [|done].
  destruct (im_files (w_host w) !! id) as [x|] eqn:Ex; [|done]. by intros [= <- _].
Qed.
Lemma exactFile_ok name id size w id' w' : exactFile name id size w = (Ok id', w') →
  id' = id ∧ id.1 ≠ 0 ∧ id.2 ≠ 0 ∧ im_names (w_host w) !! name = Some id ∧
  ∃ x, im_files (w_host w) !! id = Some x ∧ rw_private x = true ∧ rw_size x = size.
Proof.
  unfold exactFile, privateRegular. intros H. ok_inv. apply (on_file_ok id Ok) in Ha as Hs. destruct Hs as (x & Hx & [= ->]).
  destruct (quiet_same _ _ _ _ (quiet_raw_stat id) Ha) as [n ->]. apply raw_lstat_ok in Ha2 as [Hn _]. cbn [w_host retick] in *.
  apply bool_decide_eq_false, dec_stable in Ha4. apply orb_false_iff in Ha6 as [H1 H2]. apply Z.eqb_neq in H1, H2.
  apply negb_false_iff in Ha0, Ha1. apply Z.eqb_eq in Ha1. rewrite <-Ha4 in Hn. split_and!; eauto.
Qed.
Lemma raw_read_ok id off n w s w' : raw_read id off n w = (Ok s, w') → ∃ x, im_files (w_host w) !! id = Some x ∧ s = get_bytes off n (rw_data x).
Proof.
  intros (x & Hx & Hg)%(on_file_ok id (λ x, if off + Z.of_nat n <=? rw_size x then Ok (get_bytes off n (rw_data x)) else fail "EOF")).
  destruct (off + Z.of_nat n <=? rw_size x); [|done]. injection Hg as <-. eauto.
Qed.
Lemma verifyExt4Header_ok id uuid w u w' : verifyExt4Header id uuid w = (Ok u, w') →
  ∃ x, im_files (w_host w) !! id = Some x ∧ get_bytes (1024 + 0x38) 2 (rw_data x) = ext4_magic ∧
    get_bytes (1024 + 0x68) 16 (rw_data x) = unhex (Session.strip_dashes uuid).
Proof.
  unfold verifyExt4Header. intros H. ok_inv. destruct (quiet_same _ _ _ _ (quiet_raw_read _ _ _) Ha) as [n ->].
  apply raw_read_ok in Ha as (x & Hx & ->), Ha1 as (y & Hy & ->). cbn [w_host retick] in *. rewrite Hx in Hy. injection Hy as <-.
  apply neqs_false in H, Ha0. eauto.
Qed.
Lemma exact_image r id w1 w2 id' u w1' w2' : w_host w2 = w_host w1 → exactFile (rawName (fr_volume r)) id (fr_size r) w1 = (Ok id', w1') →
  verifyExt4Header id (fr_uuid r) w2 = (Ok u, w2') → image_exact r id (w_host w1).
Proof.
  intros Hh (_ & H1 & H2 & Hn & x & Hx & Hp & Hs)%exactFile_ok (y & Hy & Hm & Hu)%verifyExt4Header_ok. rewrite Hh, Hx in Hy. injection Hy as <-.
  split_and!; eauto 10.
Qed.
(** The steps of a successful run that only look. *)
Ltac looked := repeat match goal with
  | H : ?m ?w = (Ok _, ?w') |- _ => is_var w';
      let n := fresh "n" in destruct (quiet_same m w _ w' ltac:(solve [auto with quiet|quiet_tac]) H) as [n ->] end.

Lemma createRaw_ok r w p w' : createRaw r w = (Ok p, w') → ∃ b, p.1 = pf_identity b.
Proof.
  unfold createRaw. intros H. ok_inv. apply exactFile_ok in Ha5 as (-> & _).
  revert Ha. unfold raw_create, host_try. destruct (now_fault w); [|done..]. destruct (im_names (w_host w) !! _); [done|].
  intros [= <- _]. eauto.
Qed.
Lemma formatRaw_ok formatter storage r version id marker w p w' :
  formatRaw formatter storage r (formattingFor r version id) id marker w = (Ok p, w') →
  image_exact r id (w_host w') ∧ evidence_ok r p.1 = true ∧
  (version = 2 → ∃ h n, p.2 = Some h ∧ pf_observe n id = Ok h ∧ hi_file h = id.2 ∧ ∀ s, storage = Some s → hi_volume h = se_volume s).
Proof.
  unfold formatRaw. intros H. ok_inv. cbn [fst snd]. clear Ha Ha0. pose proof Ha9 as Hexact. pose proof Ha11 as Hheader.
  looked. apply negb_false_iff in Ha7. split_and!; [|done|].
  - change (image_exact r id (w_host w1)). refine (exact_image r id _ _ _ _ _ _ _ Hexact Hheader). done.
  - intros ->. change (jn_version (formattingFor r 2 id) =? 2) with true in Ha12. cbn iota in Ha12.
    apply bind_ok in Ha12 as (h & wo & Ho & Ha12). apply wrap_ok in Ho. apply bind_ok in Ha12 as (u & wg & [Hg _]%guard_ok & [-> _]%ret_ok).
    apply orb_false_iff in Hg as [H1 H2]. apply negb_false_iff, Z.eqb_eq in H1. injection Ho as Ho _.
    exists h. eexists. split_and!; [done|exact Ho|done|]. intros s ->. by apply neqs_false in H2.
Qed.

Lemma recordingFailure_ok {A} j (m : M images A) w a w' : recordingFailure j m w = (Ok a, w') → m w = (Ok a, w').
Proof.
  unfold recordingFailure. intros (x & w1 & Hm%attempt_ok & H)%bind_ok. destruct x as [b|e]; [by apply ret_ok in H as [-> ->]|].
  unfold throw_join in H. by apply bind_ok in H as (y & w2 & _ & H%throw_ok).
Qed.
(** A journal the formatter publishes as verified can be read back. *)
Section verified.
Context (r : FormatRequest) (id : DiskIdentity) (h : Identity) (evidence : FormatEvidence).
Hypothesis Hr : validateRequest r = Ok tt.
Hypothesis Hid : typed_identity id = true ∧ id.1 ≠ 0 ∧ id.2 ≠ 0.
Hypothesis Hh : hi_file h = id.2 ∧ Session.validUUID (hi_volume h) = true.
Hypothesis Hev : evidence_ok r evidence = true.
#[local] Abbreviation verified := (verifiedFor r 2 id (Some h) evidence).
Lemma evidence_uuid : fe_uuid evidence = fr_uuid r.
Proof. unfold evidence_ok in Hev. by bsimpl. Qed.
Lemma admit_verified_journal : admitJournal r verified = Ok tt.
Proof.
  destruct Hid as (_ & H1 & H2), Hh as [H3 H4]. unfold admitJournal, identity_proven, host_proven, verifiedFor, set_journal, reservedFor.
  cbn [jn_version jn_domain jn_volume jn_uuid jn_size jn_state jn_identity jn_host jn_evidence]. rewrite !eqs_refl, Z.eqb_refl. cbn.
  destruct id as [device inode]. cbn in *. rewrite H3, H4. apply Z.eqb_neq in H1, H2. by rewrite H1, H2, !Z.eqb_refl.
Qed.
Lemma typed_verified_journal : typed_journal verified = true.
Proof.
  destruct Hid as (Ht & _), Hh as [H3 H4]. unfold typed_journal. cbn [jn_identity jn_host jn_evidence verifiedFor set_journal].
  rewrite Ht, H3. unfold typed_identity in Ht. apply andb_true_iff in Ht as [_ ->]. rewrite (coerce_uuid _ H4), eqs_refl, evidence_uuid.
  destruct (validateRequest_ok _ _ Hr) as (_ & _ & Hu & _). by rewrite (coerce_uuid _ Hu), eqs_refl.
Qed.
Lemma journal_at_verified k : k !! (Volumes, journalName (fr_volume r)) = Some (EFile (journalFile verified)) → journal_at r k = Some verified.
Proof.
  intros Hk. apply view_Some. eexists. split; [exact Hk|]. cbn [file_blob journalFile bytes_file].
  pose proof (journal_text_fits r verified Hr typed_verified_journal admit_verified_journal evidence_uuid) as Hl.
  apply N.ltb_ge in Hl as ->. apply decode_journal_text; [done|apply typed_verified_journal|apply admit_verified_journal].
Qed.
Lemma publishVerified_ok w q w' : publishVerified r verified id w = (Ok q, w') →
  q = qualification verified id ∧ w_host w' = w_host w ∧ journal_at r (w_disk w') = Some verified.
Proof.
  unfold publishVerified. intros (x & w1 & Hx%attempt_ok & H)%bind_ok.
  assert (w_host w1 = w_host w) as Hw1.
  { revert Hx. unfold replaceJournal, bind. destruct (quiet_fs_lstat Volumes (journalName (jn_volume verified)) w) as (y & n & ->).
    destruct y; [|by intros [= _ <-]]. unfold fs_replace. repeat case_match; by intros [= _ <-]. }
  destruct x as [[]|e].
  - apply ret_ok in H as [-> ->]. split_and!; [done|done|]. apply journal_at_verified.
    unfold replaceJournal in Hx. apply bind_ok in Hx as (y & w2 & Hl & Hx).
    destruct (quiet_fs_lstat Volumes (journalName (jn_volume verified)) w) as (y' & n & Hq). rewrite Hl in Hq. injection Hq as <- ->.
    revert Hx. unfold fs_replace. repeat case_match; intros [= <-]; apply lookup_insert_eq.
  - apply bind_ok in H as (y & w2 & Hy%attempt_ok & H). destruct (quiet_same _ _ _ _ (quiet_settle _ _ _) Hy) as [n ->].
    destruct y as [[]|e2]; [|by apply throw_ok in H]. apply ret_ok in H as [-> ->]. split_and!; [done|done|].
    unfold settleVerifiedJournal in Hy. apply bind_ok in Hy as (o & w2 & Ho%wrapv_ok & Hy). apply bind_ok in Hy as (u & w3 & [Hg _]%guard_ok & _).
    apply bool_decide_eq_false, dec_stable in Hg. unfold readJournal, readJournalWithRaw in Ho. ok_inv.
    apply fs_read_ok in Ha0 as [Hf ->]. cbn [fst] in Hg. subst. apply view_Some. eexists. split; [exact Hf|]. by rewrite Ha1.
Qed.
End verified.

(** The identities the operating system hands out are those of its types. *)
Class TypedPlatform : Prop := typed_identities : ∀ b, typed_identity (pf_identity b) = true.
(** Everything a successful creation with a real formatter leaves behind. *)
Definition created_exactly (r : FormatRequest) (q : Qualification) (w' : world images) : Prop :=
  ∃ id h evidence n, q = qualification (verifiedFor r 2 id (Some h) evidence) id ∧ evidence_ok r evidence = true ∧
    pf_observe n id = Ok h ∧ hi_file h = id.2 ∧ image_exact r id (w_host w') ∧ journal_at r (w_disk w') = Some (verifiedFor r 2 id (Some h) evidence).
Lemma createReserved_ok {T : TypedPlatform} formatter s r w q w' : validateRequest r = Ok tt → Session.validUUID (se_volume s) = true →
  createReserved formatter (Some s) r (reservedFor 2 r) w = (Ok q, w') → created_exactly r q w'.
Proof.
  intros Hr Hs. unfold createReserved. intros ([id marker] & w1 & Hraw%recordingFailure_ok & H)%bind_ok.
  apply createRaw_ok in Hraw as [b Hid]. cbn [fst] in Hid.
  apply bind_ok in H as ([evidence host] & w2 & Hf%recordingFailure_ok & H). apply formatRaw_ok in Hf as (Him & Hev & Hh). cbn [fst snd] in *.
  destruct (Hh eq_refl) as (h & n & -> & Ho & Hf & Hv). pose proof Him as (_ & H1 & H2 & _).
  apply publishVerified_ok in H as (-> & Hhost & Hj); [|done|subst id; split_and!; [apply typed_identities|done|done]|by rewrite (Hv s eq_refl)|done].
  exists id, h, evidence, n. rewrite Hhost. split_and!; done.
Qed.
Lemma created_retick r q w n : created_exactly r q w → created_exactly r q (retick n w).
Proof. done. Qed.
Lemma CheckCreationStorage_ok root storage formatter w u w' : fm_synthetic formatter = false →
  CheckCreationStorage root storage formatter w = (Ok u, w') → ∃ s, storage = Some s ∧ Session.validUUID (se_volume s) = true.
Proof.
  unfold CheckCreationStorage. intros -> H. destruct storage as [s|]; [|by apply throw_ok in H]. exists s. split; [done|]. ok_inv.
  unfold CheckStorage, ask in H. injection H as H _. unfold StorageExpectation_Validate in H. res_inv H.
  repeat match goal with H : (_ ;;? _) = Ok _ |- _ => res_inv H end. by repeat match goal with H : check _ _ = Ok _ |- _ => apply check_ok in H end.
Qed.
Lemma creationJournalVersion_ok dw volumes formatter w version w' : fm_synthetic formatter = false →
  creationJournalVersion dw volumes formatter w = (Ok version, w') → version = 2.
Proof.
  unfold creationJournalVersion. intros -> H. ok_inv. destruct a as [h|e]; [by ok_inv|]. rewrite andb_false_r in H. by apply throw_ok in H.
Qed.
Lemma Release_same {A} (w : world A) scope : w_disk (Release scope w).2 = w_disk w ∧ w_host (Release scope w).2 = w_host w.
Proof. unfold Release. by case_match. Qed.
Lemma Create_ok {T : TypedPlatform} dw volumes root formatter storage r w q w' : fm_synthetic formatter = false →
  Create dw volumes root (Some formatter) storage r w = (Ok q, w') → created_exactly r q w'.
Proof.
  intros Hf. unfold Create. intros ([] & w1 & [Hr ->]%lift_ok & H)%bind_ok. apply bind_ok in H as (u1 & w2 & [_ ->]%guard_ok & H).
  apply bind_ok in H as (u2 & w3 & Hs & H). destruct (CheckCreationStorage_ok _ _ _ _ _ _ Hf Hs) as (s & -> & Hu). cbv zeta in H.
  apply bind_ok in H as (u3 & w4 & _ & H). unfold deferred_ignore, deferred in H. 
  destruct (createLocked dw volumes root formatter (Some s) r w4) as [x w5] eqn:Hc. destruct (Release_same w5 (Lock.storage_scope (fr_domain r))) as [Hd Hh].
  destruct (Release (Lock.storage_scope (fr_domain r)) w5) as [y w6]. cbn [snd] in *. unfold drop_release in H. injection H as -> <-.
  assert (created_exactly r q w5) as Hc5.
  { unfold createLocked in Hc. apply bind_ok in Hc as (? & w7 & _ & Hc). apply bind_ok in Hc as (? & w8 & _ & Hc).
    apply bind_ok in Hc as (version & w9 & Hv%wrap_ok & Hc). apply creationJournalVersion_ok in Hv as ->; [|done].
    apply bind_ok in Hc as (? & w10 & _ & Hc). cbv zeta in Hc. apply bind_ok in Hc as (? & w11 & _ & Hc). by apply createReserved_ok in Hc. }
  destruct Hc5 as (id & h & evidence & n & Hq). exists id, h, evidence, n. by rewrite Hd, Hh.
Qed.

(** *** Admission without failures *)
Section admission.
Context {C : Calm E}.
Lemma calm_on_file {A} id (g : rawfile → res A) w x : im_files (w_host w) !! id = Some x → on_file id (λ x, (g x, x)) w = (g x, tick w).
Proof.
  intros Hx. unfold on_file, host_try, now_fault. rewrite calm_fault, Hx, insert_id by done. by destruct w as [k [names files] l t n].
Qed.
Lemma calm_raw_lstat name w id x : im_names (w_host w) !! name = Some id → im_files (w_host w) !! id = Some x → raw_lstat name w = (Ok (id, x), tick w).
Proof. intros Hn Hx. unfold raw_lstat, host_try, now_fault. by rewrite calm_fault, Hn, Hx. Qed.
Lemma calm_raw_read id off n w x : im_files (w_host w) !! id = Some x → off + Z.of_nat n ≤ rw_size x →
  raw_read id off n w = (Ok (get_bytes off n (rw_data x)), tick w).
Proof.
  intros Hx Hl. apply Z.leb_le in Hl. unfold raw_read.
  rewrite (calm_on_file id (λ x, if off + Z.of_nat n <=? rw_size x then Ok (get_bytes off n (rw_data x)) else fail "EOF") w x Hx). by rewrite Hl.
Qed.
(** The platform answers as it did. *)
Class SteadyPlatform : Prop := {
  steady_fs : ∀ n, pf_same_fs n = Ok tt;
  steady_identity : ∀ n m id, pf_observe n id = pf_observe m id;
}.
Context {T : SteadyPlatform}.
Lemma calm_openVolumes w : openVolumes w = (Ok tt, tick (tick w)).
Proof. unfold openVolumes. erewrite bind_run by apply calm_sync. unfold wrap, ask. by rewrite steady_fs. Qed.
Lemma calm_readJournalWithRaw r j w : journal_at r (w_disk w) = Some j → ∃ raw, readJournalWithRaw r w = (Ok (j, raw), tick w).
Proof.
  intros (f & Hf & Hd)%view_Some. exists (file_blob f). unfold readJournalWithRaw. run by (by apply calm_read). unfold guard, check.
  destruct (maxJournalBytes <? _)%N; [done|]. run by reflexivity. run by (unfold lift; by rewrite Hd). done.
Qed.
Lemma calm_exactFile r id w : image_exact r id (w_host w) → ∃ n, exactFile (rawName (fr_volume r)) id (fr_size r) w = (Ok id, retick n w).
Proof.
  intros (Hn & H1 & H2 & x & Hx & Hp & Hs & _). eexists. unfold exactFile, privateRegular, guard, check.
  run by (by apply (calm_on_file id Ok)). rewrite Hp. run by reflexivity. rewrite Hs, Z.eqb_refl. run by reflexivity.
  run by (by apply calm_raw_lstat). cbn [snd fst]. rewrite Hp. run by reflexivity. rewrite bool_decide_eq_false_2 by auto. run by reflexivity.
  run by (unfold wrap, ask; by rewrite steady_fs). apply Z.eqb_neq in H1, H2. rewrite H1, H2. run by reflexivity. reflexivity.
Qed.
Lemma calm_verifyExt4Header r id w : 4096 ≤ fr_size r → image_exact r id (w_host w) → ∃ n, verifyExt4Header id (fr_uuid r) w = (Ok tt, retick n w).
Proof.
  intros Hz (_ & _ & _ & x & Hx & _ & Hs & Hm & Hu). eexists. unfold verifyExt4Header, guard, check.
  run by (apply (calm_raw_read _ _ _ _ x); [done|lia]). rewrite Hm, eqs_refl. run by reflexivity.
  run by (apply (calm_raw_read _ _ _ _ x); [done|lia]). rewrite Hu, eqs_refl. reflexivity.
Qed.
Lemma calm_admit r q w : validateRequest r = Ok tt → created_exactly r q w →
  ∃ id n, Admit r w = (Ok (id, q), retick n w) ∧ image_exact r id (w_host w).
Proof.
  intros Hr (id & h & evidence & n0 & -> & Hev & Ho & Hf & Him & Hj). exists id. unfold Admit.
  destruct (validateRequest_ok _ _ Hr) as (_ & _ & _ & Hz & _). pose proof Him as (Hn & _ & _ & x & Hx & Hp & _).
  enough ((admitVerified r w).1 = Ok (id, qualification (verifiedFor r 2 id (Some h) evidence) id)) as Hok.
  { destruct (quiet_admitVerified r w) as (y & n & Hy). rewrite Hy in Hok. cbn [fst] in Hok. subst y. eauto. }
  unfold admitVerified. run by (unfold lift; by rewrite Hr). run by apply calm_openVolumes.
  destruct (calm_readJournalWithRaw r _ (tick (tick w)) Hj) as [raw Hraw]. run by exact Hraw.
  assert (proven r (verifiedFor r 2 id (Some h) evidence) = true) as -> by exact Hev. run by reflexivity. cbv zeta.
  change (jn_version (verifiedFor r 2 id (Some h) evidence) =? 1) with false. cbn iota. run by reflexivity.
  run by (by apply (calm_raw_lstat _ _ id x)). unfold privateRegular, guard, check. cbn [snd fst]. rewrite Hp. run by reflexivity.
  match goal with |- (bind _ _ ?w1).1 = _ => destruct (calm_exactFile r id w1 Him) as [n1 H1] end. run by exact H1.
  change (default (0, 0) (jn_identity (verifiedFor r 2 id (Some h) evidence))) with id.
  unfold checkIdentity. change (jn_version (verifiedFor r 2 id (Some h) evidence) =? 1) with false. cbn iota.
  run by (run by (unfold ask; rewrite (steady_identity _ n0), Ho; reflexivity);
    unfold guard, check; cbn [jn_host verifiedFor set_journal]; rewrite Hf, Z.eqb_refl, bool_decide_eq_false_2 by auto; reflexivity).
  match goal with |- (bind _ _ ?w1).1 = _ => destruct (calm_verifyExt4Header r id w1 Hz Him) as [n2 H2] end. run by exact H2.
  change (jn_version (verifiedFor r 2 id (Some h) evidence) =? 2) with true. cbn iota. run by apply calm_sync. reflexivity.
Qed.
End admission.
End success.

(** ** What the decoder accepts *)

Lemma decode_struct_inv {S} names (handler : string → json → S → res S) (I : S → Prop) v st st' :
  (∀ n x s s', handler n x s = Ok s' → I s → I s') → decode_struct names handler v st = Ok st' → I st → I st'.
Proof.
  intros Hh Hd. destruct v as [| | | | | |fields]; try done; [by injection Hd as ->|]. cbn [decode_struct] in Hd. revert st Hd.
  induction fields as [|[k x] rest IH]; intros st Hd Hi; cbn [struct_loop] in Hd; [by injection Hd as ->|].
  destruct (field_for names k) as [n|]; [|done]. apply res_bind_ok in Hd as (s & Hs & Hd). eauto.
Qed.
Lemma decode_pointer_inv {A} (elem : json → A → res A) zero (I : A → Prop) v old x :
  (∀ y s s', elem y s = Ok s' → I s → I s') → I zero → decode_pointer elem zero v old = Ok x → (∀ a, old = Some a → I a) → ∀ a, x = Some a → I a.
Proof.
  intros He Hz Hd Ho a ->. destruct v; try done; cbn [decode_pointer] in Hd; apply res_bind_ok in Hd as (t & Ht & [= <-]);
    (eapply He; [exact Ht|]); destruct old; cbn; auto.
Qed.
Lemma get_uint64_typed v old z : get_uint64 v old = Ok z → uint64_ok old = true → uint64_ok z = true.
Proof. destruct v as [| |n| | | |]; cbn; try done; [by intros [= ->]|]. destruct (uint64_ok n) eqn:En; [|done]. by intros [= <-]. Qed.
Lemma get_string_typed v old s : get_string v old = Ok s → coerce_utf8 old = old → coerce_utf8 s = s.
Proof. destruct v; cbn; try done; [by intros [= ->]|]. intros [= <-] _. apply coerce_idem. Qed.
(** One field at a time. *)
Ltac field_tac Hf := repeat match type of Hf with (if ?c then _ else _) = _ => destruct c end;
  let z := fresh "z" in let Hz := fresh "Hz" in apply res_bind_ok in Hf as (z & Hz & [= <-]).
Definition typed_host (h : Identity) : Prop := uint64_ok (hi_file h) = true ∧ coerce_utf8 (hi_volume h) = hi_volume h.
Definition typed_evidence (e : FormatEvidence) : Prop := coerce_utf8 (fe_uuid e) = fe_uuid e.
Lemma decodeIdentity_typed v d d' : decodeIdentity v d = Ok d' → typed_identity d = true → typed_identity d' = true.
Proof.
  intros Hd. refine (decode_struct_inv _ _ (λ d, typed_identity d = true) _ _ _ _ Hd). clear. intros n x [a b] s' Hf [Ha Hb]%andb_true_iff.
  unfold identity_field in Hf. field_tac Hf; apply get_uint64_typed in Hz; try done; by apply andb_true_iff.
Qed.
Lemma decodeHost_typed v h h' : decodeHost v h = Ok h' → typed_host h → typed_host h'.
Proof.
  intros Hd. refine (decode_struct_inv _ _ typed_host _ _ _ _ Hd). clear. intros n x [a b] s' Hf [Ha Hb].
  unfold host_field in Hf. field_tac Hf; split; cbn in *; try done; [by eapply get_string_typed|by eapply get_uint64_typed].
Qed.
Lemma decodeEvidence_typed v e e' : decodeEvidence v e = Ok e' → typed_evidence e → typed_evidence e'.
Proof.
  intros Hd. refine (decode_struct_inv _ _ typed_evidence _ _ _ _ Hd). clear. intros n x [a b c] s' Hf Ha.
  unfold evidence_field in Hf. field_tac Hf; try done. by eapply get_string_typed.
Qed.
Definition pointers_typed (j : Journal) : Prop :=
  (∀ d, jn_identity j = Some d → typed_identity d = true) ∧ (∀ h, jn_host j = Some h → typed_host h) ∧
  (∀ e, jn_evidence j = Some e → typed_evidence e).
Lemma pointers_typed_ok j : pointers_typed j → typed_journal j = true.
Proof.
  intros (H1 & H2 & H3). unfold typed_journal. destruct (jn_identity j), (jn_host j) as [h|], (jn_evidence j) as [e|];
    rewrite ?(H1 _ eq_refl); try destruct (H2 h eq_refl) as [-> ->]; try rewrite (H3 _ eq_refl : coerce_utf8 _ = _); rewrite ?eqs_refl; done.
Qed.
Lemma journal_field_typed n v j j' : journal_field n v j = Ok j' → pointers_typed j → pointers_typed j'.
Proof.
  destruct j as [version domain volume uuid size state identity host evidence]. intros Hf (H1 & H2 & H3). cbn [jn_identity jn_host jn_evidence] in *.
  unfold journal_field in Hf. field_tac Hf; split_and!; cbn [jn_identity jn_host jn_evidence]; try done.
  - exact (decode_pointer_inv decodeIdentity (0, 0) (λ d, typed_identity d = true) _ _ _ decodeIdentity_typed eq_refl Hz H1).
  - exact (decode_pointer_inv decodeHost (mkHostIdentity "" 0) typed_host _ _ _ decodeHost_typed (conj eq_refl eq_refl) Hz H2).
  - exact (decode_pointer_inv decodeEvidence (mkEvidence "" false false) typed_evidence _ _ _ decodeEvidence_typed eq_refl Hz H3).
Qed.
Lemma decoded_journal raw r j : decodeJournal raw r = Ok j → admitJournal r j = Ok tt ∧ typed_journal j = true.
Proof.
  unfold decodeJournal. intros (v & _ & H)%res_bind_ok. apply res_bind_ok in H as (j' & Hd & H). apply res_bind_ok in H as ([] & Ha & [= ->]).
  split; [done|]. apply pointers_typed_ok. refine (decode_struct_inv _ _ pointers_typed _ _ _ journal_field_typed Hd _). by split_and!.
Qed.
Lemma headroom_product blocks bsize : 0 < bsize → 0 ≤ blocks → (uint64_max / bsize <? blocks) = false ↔ blocks * bsize < 2 ^ 64.
Proof.
  intros Hb Hk. rewrite Z.ltb_ge. unfold uint64_max. split; intros H.
  - pose proof (Z.mul_div_le (2 ^ 64 - 1) bsize Hb). nia.
  - apply Z.div_le_lower_bound; [done|]. lia.
Qed.

(** ** Properties *)

(** A sequence of creation requests, whatever each of them returns. *)
Record create_call := mkCreateCall {
  cc_darwin : bool; cc_volumes : DiskIdentity; cc_root : string; cc_formatter : option Formatter; cc_storage : option StorageExpectation;
  cc_request : FormatRequest }.
Fixpoint run_creates {E : Env} {P : Platform} {D : Digests} (calls : list create_call) : M images unit :=
  match calls with
  | [] => ret tt
  | c :: rest =>
      attempt (Create (cc_darwin c) (cc_volumes c) (cc_root c) (cc_formatter c) (cc_storage c) (cc_request c)) ;;!
      run_creates rest
  end.

(** C20: no volume ID is ever formatted twice: over any sequence of creation
    requests, with any failures, any formatters and any interference of the
    other lock holders that removes no journal, each ID sees at most one
    formatter run, and an ID that saw one keeps its journal. *)
Theorem volume_formatted_at_most_once {E : Env} {P : Platform} {D : Digests} (calls : list create_call) (w : world images) :
  others_keep_journals → once w → let w' := (run_creates calls w).2 in
  ∀ v, (formats v (w_trace w') ≤ 1)%nat ∧ (formats v (w_trace w') ≠ 0%nat → is_Some (w_disk w' !! (Volumes, journalName v))).
Proof.
  intros Hk. cbv zeta. revert w. induction calls as [|c calls IH]; intros w Ho; [exact Ho|]. cbn [run_creates].
  pose proof (wp_result _ _ _ _ (wp_Create (cc_request c) (cc_darwin c) (cc_volumes c) (cc_root c) (cc_formatter c) (cc_storage c) w) Hk Ho) as Hc.
  unfold bind, attempt. destruct (Create _ _ _ _ _ _ w) as [x w1]. by apply IH.
Qed.

(** The journal is always ahead of the disk: under the storage lock a
    creation first reserves its own free journal name, hands the formatter only
    a raw file whose identity the journal on disk already carries as being
    formatted, calls it at most once and right after that, publishes a verified
    journal only right after a run that returned exact healthy evidence for that
    very identity, and otherwise at most records the failure; it touches no
    other file. *)
Theorem formatter_runs_under_intent {E : Env} {P : Platform} {D : Digests} (darwin : bool) (volumes : DiskIdentity) (stateRoot : string)
    (formatter : option Formatter) (storage : option StorageExpectation) (r : FormatRequest) (w : world images) :
  wp (format_steps r) (Create darwin volumes stateRoot formatter storage r) (λ _ _, True) w.
Proof. eapply wp_conseq; [apply wp_Create|done]. Qed.

(** C21: success means a disk that admission accepts: after any successful
    creation by a real formatter, whatever failed on the way, the private raw
    file of the right size carries the requested ext4 superblock under its
    recorded identity, the journal reads back as verified with that identity, the
    observed persistent identity and clean evidence, and an admission without
    failures returns exactly the qualification the creation returned. *)
Theorem created_disk_is_admitted {E : Env} {P : Platform} {D : Digests} {T : TypedPlatform} (darwin : bool) (volumes : DiskIdentity)
    (stateRoot : string) (formatter : Formatter) (storage : option StorageExpectation) (r : FormatRequest) (w w' : world images) (q : Qualification) :
  fm_synthetic formatter = false → Create darwin volumes stateRoot (Some formatter) storage r w = (Ok q, w') →
  created_exactly r q w' ∧
  ∀ E' : Env, Calm E' → SteadyPlatform → ∃ id n, Admit (E := E') r w' = (Ok (id, q), retick n w') ∧ image_exact r id (w_host w').
Proof.
  intros Hf Hc. pose proof (Create_ok _ _ _ _ _ _ _ _ _ Hf Hc) as He. split; [done|]. intros E' C' S'. apply (calm_admit (E := E')); [|done].
  unfold Create in Hc. by apply bind_ok in Hc as ([] & w1 & [Hr _]%lift_ok & _).
Qed.

(** The journals a reader accepts for a request are exactly the consistent
    ones: some bytes decode to a journal just when it matches the request and
    claims no more than its state allows, and then its own encoding does, within
    the bound of the reader when its evidence is the requested one. *)
Theorem journal_codec_exact (r : FormatRequest) (j : Journal) :
  validateRequest r = Ok tt →
  ((∃ raw, decodeJournal raw r = Ok j) ↔ admitJournal r j = Ok tt ∧ typed_journal j = true) ∧
  (admitJournal r j = Ok tt → typed_journal j = true → decodeJournal (journal_text j) r = Ok j ∧
     ((∀ e, jn_evidence j = Some e → fe_uuid e = fr_uuid r) → (N.of_nat (String.length (journal_text j)) ≤ maxJournalBytes)%N)).
Proof.
  intros Hr. split.
  - split; [intros [raw Hd]; by eapply decoded_journal|]. intros [Ha Ht]. exists (journal_text j). by apply decode_journal_text.
  - intros Ha Ht. split; [by apply decode_journal_text|]. intros He. apply (journal_text_fits r j Hr Ht Ha).
    destruct (jn_evidence j) as [e|]; [by apply He|done].
Qed.

(** The free-space rule is exact at machine width: on any block counts a
    statfs can report, the check passes just when neither product wraps around
    64 bits and the free bytes exceed both a tenth of the capacity and 20 GiB;
    and the monitor passes just when every one of its samples does. *)
Theorem headroom_exact (bsize blocks available : Z) (samples : list (res (Z * Z * Z))) :
  0 ≤ blocks → 0 ≤ available →
  (headroomOf (bsize, blocks, available) = Ok tt ↔
   0 < bsize ∧ blocks * bsize < 2 ^ 64 ∧ available * bsize < 2 ^ 64 ∧ blocks * bsize / 10 < available * bsize ∧ 20 * 2 ^ 30 < available * bsize) ∧
  (monitorHeadroom samples = Ok tt ↔ Forall (λ s, ∃ stat, s = Ok stat ∧ headroomOf stat = Ok tt) samples).
Proof.
  intros Hk Ha. split.
  - unfold headroomOf, checkHeadroomValues. destruct (bsize <=? 0) eqn:Eb.
    { split; [done|]. apply Z.leb_le in Eb. lia. }
    apply Z.leb_gt in Eb. cbn [check negb res_bind]. pose proof (headroom_product blocks bsize Eb Hk) as H1.
    pose proof (headroom_product available bsize Eb Ha) as H2.
    destruct (uint64_max / bsize <? blocks); cbn [orb check negb res_bind].
    { split; [done|]. intros (_ & ? & _). by apply H1 in H. }
    destruct (uint64_max / bsize <? available); cbn [orb check negb res_bind].
    { split; [done|]. intros (_ & _ & ? & _). by apply H2 in H. }
    destruct H1 as [H1 _], H2 as [H2 _]. specialize (H1 eq_refl). specialize (H2 eq_refl). rewrite !Z.mod_small by nia.
    destruct (available * bsize <=? _) eqn:El; cbn; [apply Z.leb_le in El|apply Z.leb_gt in El]; split; try done; intros; lia.
  - induction samples as [|s rest IH]; cbn [monitorHeadroom]; [split; [constructor|done]|]. rewrite Forall_cons, <-IH.
    destruct s as [stat|e]; cbn [res_bind]; [|split; [done|intros [(? & ? & _) _]; done]].
    destruct (headroomOf stat) as [[]|e] eqn:Es; cbn [res_bind]; [|split; [done|intros [(? & [= <-] & ?) _]; congruence]].
    split; [eauto|by intros [_ ?]].
Qed.

(** *** Evaluations *)
#[local] Existing Instance quietEnv.
#[local] Instance labDigests : Digests := {| sha256 _ := sourceSHA256 |}.
#[local] Instance labPlatform : Platform := {|
  pf_identity _ := (16, 42);
  pf_random _ := "0123456789abcdef0123456789abcdef"%string;
  pf_statfs _ := Ok (4096, 2 ^ 28, 2 ^ 27);
  pf_samples _ := [Ok (4096, 2 ^ 28, 2 ^ 27); Ok (4096, 2 ^ 28, 2 ^ 27 - 100)];
  pf_observe _ id := Ok (mkHostIdentity "aaaaaaaa-1111-4222-8333-bbbbbbbbbbbb" id.2);
  pf_storage _ _ := Ok tt;
  pf_same_fs _ := Ok tt;
  pf_canceled _ := false |}.
Definition lab_format : FormatRequest :=
  mkFormatRequest "work" "01234567-89ab-4def-8123-456789abcdef" "11111111-2222-4333-8444-555555555555" (2 ^ 30).
Definition lab_storage : StorageExpectation :=
  mkStorageExpectation "/etc/boxwarden.json" "/data/work" "/data" "aaaaaaaa-1111-4222-8333-bbbbbbbbbbbb".
(** A formatter that writes the superblock and reports what it wrote. *)
Definition lab_formatter : Formatter :=
  mkFormatter (λ req b,
    let write x := mkRaw (rw_size x) (rw_private x)
      (put_bytes (1024 + 0x68) (unhex (Session.strip_dashes (fr_uuid (ft_request req)))) (put_bytes (1024 + 0x38) ext4_magic (rw_data x))) in
    (Ok (mkEvidence (fr_uuid (ft_request req)) true true), mkImages (im_names b) (alter write (ft_identity req) (im_files b)))) false.
Definition empty_images : world images := worldOf ∅ (mkImages ∅ ∅).
Definition lab_create : M images Qualification := Create true (16, 2) "/data/work" (Some lab_formatter) (Some lab_storage) lab_format.
Definition lab_qualification : Qualification :=
  mkQualification "work" "01234567-89ab-4def-8123-456789abcdef" "11111111-2222-4333-8444-555555555555" (2 ^ 30) 16 42.
Lemma created_disk_is_admitted_witness : ∃ id n, Admit lab_format (lab_create empty_images).2 = (Ok (id, lab_qualification), retick n (lab_create empty_images).2).
Proof.
  assert ((lab_create empty_images).1 = Ok lab_qualification) as Hq by (vm_compute; reflexivity).
  pose proof (surjective_pairing (lab_create empty_images)) as Hp. rewrite Hq in Hp.
  assert (TypedPlatform) as T by (intros b; reflexivity).
  destruct (created_disk_is_admitted true (16, 2) "/data/work" lab_formatter (Some lab_storage) lab_format empty_images _ _ eq_refl Hp) as [_ H].
  destruct (H quietEnv) as (id & n & Ha & _); [intros n; reflexivity|split; reflexivity|]. exists id, n. exact Ha.
Defined.
(** Two requests for the same ID: the second finds the journal. *)
Definition lab_call : create_call := mkCreateCall true (16, 2) "/data/work" (Some lab_formatter) (Some lab_storage) lab_format.
Lemma volume_formatted_at_most_once_witness :
  (formats (fr_volume lab_format) (w_trace (run_creates [lab_call; lab_call] empty_images).2) ≤ 1)%nat ∧
  formats (fr_volume lab_format) (w_trace (run_creates [lab_call; lab_call] empty_images).2) = 1%nat.
Proof.
  split; [|vm_compute; reflexivity].
  apply (volume_formatted_at_most_once [lab_call; lab_call] empty_images).
  - intros n held k v Hk. exact Hk.
  - intros v. split; [apply Nat.le_0_l|]. intros Hc. contradiction Hc. reflexivity.
Defined.
Definition lab_journal : Journal :=
  verifiedFor lab_format 2 (16, 42) (Some (mkHostIdentity "aaaaaaaa-1111-4222-8333-bbbbbbbbbbbb" 42)) (mkEvidence (fr_uuid lab_format) true true).
Lemma journal_codec_exact_witness : decodeJournal (journal_text lab_journal) lab_format = Ok lab_journal.
Proof. apply (journal_codec_exact lab_format lab_journal); reflexivity. Defined.
Lemma headroom_exact_witness : headroomOf (4096, 2 ^ 28, 2 ^ 27) = Ok tt ∧ headroomOf (2 ^ 12, 2 ^ 52, 2 ^ 27) ≠ Ok tt.
Proof.
  split.
  - refine (proj2 (proj1 (headroom_exact 4096 (2 ^ 28) (2 ^ 27) [] _ _)) _); [discriminate|discriminate|]. repeat split; reflexivity.
  - intros H. pose proof (proj1 (proj1 (headroom_exact (2 ^ 12) (2 ^ 52) (2 ^ 27) [] ltac:(discriminate) ltac:(discriminate))) H) as (_ & Hw & _). discriminate Hw.
Defined.
