(* ===== verification/Projects.v ===== *)
(** Project bookmarks (src/internal/projectx): the remembered asset locators of
    a state root (setup), the bookmark of each project, and their guarded
    publication in one directory of private documents (record.go, store.go,
    setup_update.go). A document is its exact bytes: history entries are compared
    and hashed as bytes. *)
From S2P Require Import Prelude Ids Json JsonText Recipe Selection SessionRecord Outside World Logic.

Definition maxDocumentBytes : N := 64 * 2 ^ 10.
Definition setupName : string := ".setup.json".

(** ** Documents *)

Record Setup := mkSetup {
  su_version : Z; su_source : string; su_formatter : string; su_iso : string; su_go : string;
  su_openssl : string; su_openssl_sha : string; su_xorriso : string; su_xorriso_sha : string }.
Record Project := mkProject {
  pr_version : Z; pr_domain : string; pr_name : string; pr_base : string; pr_volume : string; pr_filesystem : string;
  pr_size : Z; pr_session : string; pr_object : string; pr_initialized : bool; pr_import : string; pr_import_source : string;
  pr_imported : bool; pr_intent : string; pr_selection : string }.
#[export] Instance Setup_eq_dec : EqDecision Setup.
Proof. solve_decision. Defined.
#[export] Instance Project_eq_dec : EqDecision Project.
Proof. solve_decision. Defined.
Definition zeroSetup : Setup := mkSetup 0 "" "" "" "" "" "" "" "".
Definition zeroProject : Project := mkProject 0 "" "" "" "" "" 0 "" "" false "" "" false "" "".

(** ** Validation *)

Definition validateKey (d name : string) : res unit :=
  Domain.Parse d ;;?
  Session.ParseName name ;;?
  Ok tt.
(** [filepath.IsAbs(path) && filepath.Clean(path) == path], bounded, on one line. *)
Definition path_byte (c : ascii) : bool := negb (existsb (Ascii.eqb c) ["000"; "013"; "010"]%char).
Definition canonicalPath (path : string) : bool :=
  canonical_abs path && (String.length path <=? 4096)%nat && str_all path_byte path.
Definition optional_sha (version : Z) (digest : string) : bool :=
  if version =? 1 then digest =s ""
  else if version =? 2 then Session.lowerSHA256 digest
  else (digest =s "") || Session.lowerSHA256 digest.
Definition validateRecord (d : string) (r : Project) : res unit :=
  validateKey d (pr_name r) ;;?
  check (((pr_version r =? 1) || (pr_version r =? 2) || (pr_version r =? 3)) && (pr_domain r =s d)) "invalid project version or domain" ;;?
  check (optional_sha (pr_version r) (pr_intent r)) "project version differs from recipe intent binding" ;;?
  check (if pr_version r =? 3 then (pr_selection r ≠s "") && (pr_import r ≠s "") else pr_selection r =s "")
        "project version differs from frozen import selection" ;;?
  ParseSelection (pr_selection r) ;;?
  Backend.ValidateObjectID (pr_base r) ;;?
  check (Session.validUUID (pr_volume r) && Session.validUUID (pr_filesystem r) && (16 * 2 ^ 20 <=? pr_size r) && (pr_size r <=? 4 * 2 ^ 30) &&
         (pr_size r mod 512 =? 0)) "invalid project volume identity or size" ;;?
  check (Bool.eqb (pr_session r =s "") (pr_object r =s "")) "incomplete project creation receipt" ;;?
  (if pr_session r ≠s "" then
     check (Session.validUUID (pr_session r)) "invalid project session ID" ;;?
     Backend.ValidateObjectID (pr_object r) ;;? Ok tt
   else Ok tt) ;;?
  check (negb (pr_initialized r && (pr_session r =s ""))) "initialized project lacks creation receipt" ;;?
  check (Bool.eqb (pr_import r =s "") (pr_import_source r =s "")) "incomplete project import intent" ;;?
  check ((pr_import r =s "") || Session.validUUID (pr_import r) && canonicalPath (pr_import_source r))
        "invalid project import ID or source locator" ;;?
  check (negb (pr_imported r && ((pr_import r =s "") || negb (pr_initialized r)))) "imported project lacks import or initialization receipt".

Definition validateSetup (s : Setup) : res unit :=
  check (((su_version s =? 1) || (su_version s =? 2)) && canonicalPath (su_source s) && canonicalPath (su_formatter s) &&
         canonicalPath (su_iso s) && canonicalPath (su_go s) && (path_base (su_go s) =s "go"))
        "invalid project setup version or canonical paths" ;;?
  if su_version s =? 1 then
    check ((su_openssl s =s "") && (su_openssl_sha s =s "") && (su_xorriso s =s "") && (su_xorriso_sha s =s ""))
          "legacy project setup cannot contain recipe tools"
  else
    check (canonicalPath (su_openssl s) && (path_base (su_openssl s) =s "openssl") && Session.lowerSHA256 (su_openssl_sha s) &&
           canonicalPath (su_xorriso s) && (path_base (su_xorriso s) =s "xorriso") && Session.lowerSHA256 (su_xorriso_sha s))
          "recipe setup requires exact canonical tool paths and lowercase SHA-256 digests".

(** ** Decoding and encoding *)

(** The field set of a document: known names, each once, none of them null. *)
Fixpoint documentFields (allowed seen : list string) (fields : list (string * json)) : res (list string) :=
  match fields with
  | [] => Ok seen
  | (name, v) :: rest =>
      check (negb (existsb (String.eqb name) seen)) "duplicate project field" ;;?
      check (existsb (String.eqb name) allowed) "unknown project field" ;;?
      match v with
      | JNull => fail "null project field"
      | _ => documentFields allowed (name :: seen) rest
      end
  end.
Section document.
Context {S : Type} (names : list string) (handler : string → json → S → res S).
(** [decodeDocument]: all of [fields] are required, in any order. *)
Definition decodeDocument (fields : list string) (v : json) (st : S) : res S :=
  match v with
  | JObj members =>
      let? seen := documentFields fields [] members in
      check (seen_all fields seen) "missing project field" ;;?
      unmarshal_struct names handler v st
  | _ => fail "expected project JSON object"
  end.
(** The version selects the field set. *)
Definition header_version (v : json) : res Z := unmarshal_struct ["version"] (λ _ x old, get_int x old) v 0.
Definition decodeVersionedDocument (legacy additions : list string) (v : json) (st : S) : res S :=
  let? version := header_version v in
  if version =? 1 then decodeDocument legacy v st
  else if version =? 2 then decodeDocument (legacy ++ additions) v st
  else fail "unsupported project document version".
End document.

Definition setupFields : list string := ["version"; "source_root"; "formatter_bundle"; "iso_path"; "go_binary"].
Definition setupAdditions : list string := ["openssl_path"; "openssl_sha256"; "xorriso_path"; "xorriso_sha256"].
Definition setup_field (name : string) (v : json) (s : Setup) : res Setup :=
  let '(mkSetup version source formatter iso go openssl openssl_sha xorriso xorriso_sha) := s in
  if name =s "version" then let? x := get_int v version in Ok (mkSetup x source formatter iso go openssl openssl_sha xorriso xorriso_sha)
  else if name =s "source_root" then let? x := get_string v source in Ok (mkSetup version x formatter iso go openssl openssl_sha xorriso xorriso_sha)
  else if name =s "formatter_bundle" then let? x := get_string v formatter in Ok (mkSetup version source x iso go openssl openssl_sha xorriso xorriso_sha)
  else if name =s "iso_path" then let? x := get_string v iso in Ok (mkSetup version source formatter x go openssl openssl_sha xorriso xorriso_sha)
  else if name =s "go_binary" then let? x := get_string v go in Ok (mkSetup version source formatter iso x openssl openssl_sha xorriso xorriso_sha)
  else if name =s "openssl_path" then let? x := get_string v openssl in Ok (mkSetup version source formatter iso go x openssl_sha xorriso xorriso_sha)
  else if name =s "openssl_sha256" then let? x := get_string v openssl_sha in Ok (mkSetup version source formatter iso go openssl x xorriso xorriso_sha)
  else if name =s "xorriso_path" then let? x := get_string v xorriso in Ok (mkSetup version source formatter iso go openssl openssl_sha x xorriso_sha)
  else let? x := get_string v xorriso_sha in Ok (mkSetup version source formatter iso go openssl openssl_sha xorriso x).
Definition decodeSetup (v : json) : res Setup :=
  decodeVersionedDocument (setupFields ++ setupAdditions) setup_field setupFields setupAdditions v zeroSetup.

Definition recordFields : list string :=
  ["version"; "domain"; "name"; "base"; "volume_id"; "filesystem_uuid"; "size_bytes"; "session_id"; "backend_object";
   "initialized"; "import_id"; "import_source"; "imported"].
Definition recordAdditions : list string := ["recipe_intent_digest"; "import_selection"].
Definition project_field (name : string) (v : json) (r : Project) : res Project :=
  let '(mkProject version domain rname base volume filesystem size session object initialized import source imported intent selection) := r in
  if name =s "version" then let? x := get_int v version in
    Ok (mkProject x domain rname base volume filesystem size session object initialized import source imported intent selection)
  else if name =s "domain" then let? x := get_string v domain in
    Ok (mkProject version x rname base volume filesystem size session object initialized import source imported intent selection)
  else if name =s "name" then let? x := get_string v rname in
    Ok (mkProject version domain x base volume filesystem size session object initialized import source imported intent selection)
  else if name =s "base" then let? x := get_string v base in
    Ok (mkProject version domain rname x volume filesystem size session object initialized import source imported intent selection)
  else if name =s "volume_id" then let? x := get_string v volume in
    Ok (mkProject version domain rname base x filesystem size session object initialized import source imported intent selection)
  else if name =s "filesystem_uuid" then let? x := get_string v filesystem in
    Ok (mkProject version domain rname base volume x size session object initialized import source imported intent selection)
  else if name =s "size_bytes" then let? x := get_int v size in
    Ok (mkProject version domain rname base volume filesystem x session object initialized import source imported intent selection)
  else if name =s "session_id" then let? x := get_string v session in
    Ok (mkProject version domain rname base volume filesystem size x object initialized import source imported intent selection)
  else if name =s "backend_object" then let? x := get_string v object in
    Ok (mkProject version domain rname base volume filesystem size session x initialized import source imported intent selection)
  else if name =s "initialized" then let? x := get_bool v initialized in
    Ok (mkProject version domain rname base volume filesystem size session object x import source imported intent selection)
  else if name =s "import_id" then let? x := get_string v import in
    Ok (mkProject version domain rname base volume filesystem size session object initialized x source imported intent selection)
  else if name =s "import_source" then let? x := get_string v source in
    Ok (mkProject version domain rname base volume filesystem size session object initialized import x imported intent selection)
  else if name =s "imported" then let? x := get_bool v imported in
    Ok (mkProject version domain rname base volume filesystem size session object initialized import source x intent selection)
  else if name =s "recipe_intent_digest" then let? x := get_string v intent in
    Ok (mkProject version domain rname base volume filesystem size session object initialized import source imported x selection)
  else let? x := get_string v selection in
    Ok (mkProject version domain rname base volume filesystem size session object initialized import source imported intent x).
(** Decoded over the value already there. *)
Definition decodeRecord (v : json) (value : Project) : res Project :=
  let? version := header_version v in
  let names := recordFields ++ recordAdditions in
  if version =? 3 then decodeDocument names project_field names v value
  else decodeVersionedDocument names project_field recordFields ["recipe_intent_digest"] v value.

(** [Setup] and its omitempty tags. *)
Definition marshalSetup (s : Setup) : json :=
  JObj ([("version", JNum (su_version s)); ("source_root", jstr (su_source s)); ("formatter_bundle", jstr (su_formatter s));
         ("iso_path", jstr (su_iso s)); ("go_binary", jstr (su_go s))] ++
        omitempty "openssl_path" (su_openssl s) ++ omitempty "openssl_sha256" (su_openssl_sha s) ++
        omitempty "xorriso_path" (su_xorriso s) ++ omitempty "xorriso_sha256" (su_xorriso_sha s)).
(** [Record.MarshalJSON]: version 3 writes both late fields, even when empty. *)
Definition marshalProject (r : Project) : json :=
  JObj ([("version", JNum (pr_version r)); ("domain", jstr (pr_domain r)); ("name", jstr (pr_name r)); ("base", jstr (pr_base r));
         ("volume_id", jstr (pr_volume r)); ("filesystem_uuid", jstr (pr_filesystem r)); ("size_bytes", JNum (pr_size r));
         ("session_id", jstr (pr_session r)); ("backend_object", jstr (pr_object r)); ("initialized", JBool (pr_initialized r));
         ("import_id", jstr (pr_import r)); ("import_source", jstr (pr_import_source r)); ("imported", JBool (pr_imported r))] ++
        (if pr_version r =? 3
         then [("recipe_intent_digest", jstr (pr_intent r)); ("import_selection", jstr (pr_selection r))]
         else omitempty "recipe_intent_digest" (pr_intent r) ++ omitempty "import_selection" (pr_selection r))).

(** One document: its single JSON value, or an error. *)
Definition document (raw : string) : res json :=
  match scan raw with Some [v] => Ok v | _ => fail "malformed project JSON" end.
(** [append(json.Marshal(value), '\n')] *)
Definition encode_document (v : json) : string := render v +:+ String LF "".
Definition admitSetup (raw : string) : res Setup :=
  let? v := document raw in
  let? s := decodeSetup v in
  validateSetup s ;;?
  Ok s.
Definition admitProject (d name raw : string) : res Project :=
  let? v := document raw in
  let? r := decodeRecord v zeroProject in
  validateRecord d r ;;?
  check (pr_name r =s name) "project name does not match file key" ;;?
  Ok r.

(** What a reader finds. *)
Definition readable_document (f : file) : res string :=
  check (negb (maxDocumentBytes <? N.of_nat (String.length (file_blob f)))%N) "project JSON exceeds 64 KiB" ;;?
  Ok (file_blob f).
Definition document_at (name : string) : disk → option string := view readable_document Projects name.
Definition setup_at : disk → option Setup := view (λ f, res_bind (readable_document f) admitSetup) Projects setupName.
Definition project_at (d name : string) : disk → option Project :=
  view (λ f, res_bind (readable_document f) (admitProject d name)) Projects (json_name name).

(** ** Operations *)

Section store.
Context {B : Type} {E : Env}.

Definition readDocument (name : string) : M B string :=
  let! f := fs_read Projects name in
  lift (readable_document f).

(** [publishRaw]: a private temporary file, renamed without replacing when no
    file is expected, over the file that was read otherwise. *)
Definition publishRaw (name raw : string) (expected : bool) : M B unit :=
  guard (maxDocumentBytes <? N.of_nat (String.length raw))%N "project JSON exceeds 64 KiB" ;;!
  if expected
  then fs_lstat Projects name ;;! fs_replace Projects name (bytes_file raw)
  else fs_publish_new Projects name (bytes_file raw).
Definition publish (name : string) (value : json) (expected : bool) : M B unit :=
  publishRaw name (encode_document value) expected.
Definition syncProjectDirectory : M B unit := fs_sync Projects.

Definition loadRecord (d name : string) : M B Project :=
  let! raw := readDocument (json_name name) in
  lift (admitProject d name raw).

Definition SaveSetup (next : Setup) : M B unit :=
  lift (validateSetup next) ;;!
  (* the parent directory is made and synced *)
  syncProjectDirectory ;;!
  let! found := attempt (readDocument setupName) in
  match found with
  | Ok raw =>
      let! prior := lift (admitSetup raw) in
      guard (bool_decide (prior ≠ next)) "project setup is immutable" ;;!
      syncProjectDirectory
  | Er e => if err_not_exist e then publish setupName (marshalSetup next) false else throw e
  end.
Definition LoadSetup : M B Setup :=
  let! raw := readDocument setupName in
  lift (admitSetup raw).

Definition Create (d : string) (next : Project) : M B unit :=
  lift (validateRecord d next) ;;!
  syncProjectDirectory ;;!
  publish (json_name (pr_name next)) (marshalProject next) false.
Definition Load (d name : string) : M B Project :=
  lift (validateKey d name) ;;!
  loadRecord d name.

(** Receipts only advance, and bindings never change. *)
Definition selection_upgrade (prior next : Project) : bool :=
  ((pr_version prior =? 1) || (pr_version prior =? 2)) && (pr_import prior =s "") && (pr_version next =? 3) && (pr_import next ≠s "").
Definition may_save (prior next : Project) : bool :=
  ((pr_version prior =? pr_version next) || selection_upgrade prior next) && (pr_intent prior =s pr_intent next) &&
  (pr_base prior =s pr_base next) && (pr_volume prior =s pr_volume next) && (pr_filesystem prior =s pr_filesystem next) &&
  (pr_size prior =? pr_size next) &&
  ((pr_session prior =s "") || (pr_session prior =s pr_session next) && (pr_object prior =s pr_object next)) &&
  ((pr_import prior =s "") || (pr_import prior =s pr_import next) && (pr_import_source prior =s pr_import_source next) &&
                              (pr_selection prior =s pr_selection next)) &&
  (negb (pr_initialized prior) || pr_initialized next) && (negb (pr_imported prior) || pr_imported next).
Definition Save (d : string) (next : Project) : M B unit :=
  lift (validateRecord d next) ;;!
  let! prior := loadRecord d (pr_name next) in
  guard (negb (may_save prior next)) "project binding is immutable or receipt state regressed" ;;!
  publish (json_name (pr_name next)) (marshalProject next) true.

Context {D : Digests}.
Definition setupHistory (raw : string) : string := ".setup-history-" +:+ sha256 raw +:+ ".json".
(** The archived name, with the error of the publication that followed. *)
Definition UpdateSetup (next : Setup) : M B (string * option error) :=
  lift (validateSetup next) ;;!
  let! raw := readDocument setupName in
  let! prior := lift (admitSetup raw) in
  if bool_decide (next = prior) then syncProjectDirectory ;;! ret (EmptyString, None)
  else
    let history := setupHistory raw in
    let! existing := attempt (readDocument history) in
    match existing with
    | Ok archived =>
        guard (archived ≠s raw) "setup history differs from exact previous profile; active setup was not changed" ;;!
        syncProjectDirectory
    | Er e => if err_not_exist e then wrap "preserve previous setup" (publishRaw history raw false) else throw e
    end ;;!
    let! published := attempt (publish setupName (marshalSetup next) true) in
    ret (history, match published with Ok _ => None | Er e => Some (wrapw "publish updated setup (it may already be active)" e) end).
End store.

(** ** Lemmas *)

(** Documents whose strings the encoder writes as they are: all but the paths
    are restricted to ASCII by validation. *)
Definition utf8_project (r : Project) : Prop := utf8 (pr_import_source r).
Definition utf8_setup (s : Setup) : Prop :=
  utf8 (su_source s) ∧ utf8 (su_formatter s) ∧ utf8 (su_iso s) ∧ utf8 (su_go s) ∧ utf8 (su_openssl s) ∧ utf8 (su_xorriso s).

Lemma scan_document v : printable v = true → document (encode_document v) = Ok v.
Proof. intros Hv. unfold document, encode_document. by rewrite scan_render by auto. Qed.

Lemma optional_sha_utf8 version digest : optional_sha version digest = true → utf8 digest.
Proof.
  unfold optional_sha. repeat case_match; intros Hd; [by apply eqs_true in Hd as ->|by apply coerce_sha|].
  apply orb_true_iff in Hd as [Hd|Hd]; [by apply eqs_true in Hd as ->|by apply coerce_sha].
Qed.
Lemma canonicalPath_ok p : canonicalPath p = true → canonical_abs p = true.
Proof. unfold canonicalPath. intros H. by bsimpl. Qed.

(** What validation says of a bookmark. *)
Record valid_project (d : string) (r : Project) : Prop := {
  vp_domain : pr_domain r = d ∧ Lock.validLowerIdentifier d = true;
  vp_name : Lock.validLowerIdentifier (pr_name r) = true;
  vp_version : pr_version r = 1 ∨ pr_version r = 2 ∨ pr_version r = 3;
  vp_intent : optional_sha (pr_version r) (pr_intent r) = true;
  vp_selection : if pr_version r =? 3 then pr_selection r ≠ "" else pr_selection r = "";
  vp_parsed : utf8 (pr_selection r);
  vp_base : Session.validBackendObjectID (pr_base r) = true;
  vp_volume : Session.validUUID (pr_volume r) = true ∧ Session.validUUID (pr_filesystem r) = true;
  vp_size : 16 * 2 ^ 20 ≤ pr_size r ≤ 4 * 2 ^ 30;
  vp_session : pr_session r = "" ∧ pr_object r = "" ∨
               Session.validUUID (pr_session r) = true ∧ Session.validBackendObjectID (pr_object r) = true;
  vp_import : pr_import r = "" ∧ pr_import_source r = "" ∨ Session.validUUID (pr_import r) = true;
}.
Lemma ValidateObjectID_ok raw u : Backend.ValidateObjectID raw = Ok u → Session.validBackendObjectID raw = true.
Proof. intros H. by rewrite <-ValidateObjectID_eq, H. Qed.
Lemma same_empty (a b : string) : Bool.eqb (a =s "") (b =s "") = true → a = "" ∧ b = "" ∨ a ≠ "" ∧ b ≠ "".
Proof. rewrite Bool.eqb_true_iff. destruct (a =s "") eqn:Ea, (b =s "") eqn:Eb; bsimpl; naive_solver. Qed.
Lemma validateRecord_valid d r u : validateRecord d r = Ok u → valid_project d r.
Proof.
  unfold validateRecord, validateKey. intros H. res_inv H.
  repeat match goal with H : (_ ;;? _) = Ok _ |- _ => res_inv H end.
  repeat match goal with H : check _ _ = Ok _ |- _ => apply check_ok in H end.
  apply Parse_ok in Ha11 as [_ Hd]. assert (Lock.validLowerIdentifier (pr_name r) = true) as Hn by (by rewrite <-ParseName_eq, Ha12).
  apply same_empty in Ha6, Ha9. rewrite !andb_true_iff, ?orb_true_iff, ?Z.eqb_eq, ?Z.leb_le, ?String.eqb_eq in *.
  constructor.
  - tauto.
  - done.
  - tauto.
  - done.
  - destruct (pr_version r =? 3); bsimpl; done.
  - by eapply ParseSelection_utf8.
  - by eapply ValidateObjectID_ok.
  - tauto.
  - lia.
  - destruct Ha6 as [[-> ->]|[Hs _]]; [by left|]. right. apply neqs_true in Hs. rewrite Hs in Ha7. apply check_then_ok in Ha7 as [? (? & ? & _)%res_bind_ok].
    split; [done|]. by eapply ValidateObjectID_ok.
  - destruct Ha10 as [?|[? _]%andb_true_iff]; [left; naive_solver|by right].
Qed.

Record project_strings (r : Project) : Prop := {
  us_domain : utf8 (pr_domain r); us_name : utf8 (pr_name r); us_base : utf8 (pr_base r); us_volume : utf8 (pr_volume r);
  us_filesystem : utf8 (pr_filesystem r); us_session : utf8 (pr_session r); us_object : utf8 (pr_object r);
  us_import : utf8 (pr_import r); us_source : utf8 (pr_import_source r); us_intent : utf8 (pr_intent r); us_selection : utf8 (pr_selection r);
}.
Lemma valid_strings d r : valid_project d r → utf8_project r → project_strings r.
Proof.
  intros [[<- ?] ? ? ? ? ? ? [? ?] ? Hs Hi] Hu.
  assert (utf8 (pr_session r) ∧ utf8 (pr_object r)) as [? ?]
    by (destruct Hs as [[-> ->]|[? ?]]; [done|split; [by apply coerce_uuid|by apply coerce_objectid]]).
  assert (utf8 (pr_import r)) by (destruct Hi as [[-> _]|?]; [done|by apply coerce_uuid]).
  constructor; try done; first [by apply coerce_ident|by apply coerce_objectid|by apply coerce_uuid|by eapply optional_sha_utf8].
Qed.

(** Evaluate the decoding of a document whose keys are known. *)
Ltac decode_tac := lazy -[coerce_utf8 int64_ok]; rewrite ?(eq_refl : int64_ok 1 = true), ?(eq_refl : int64_ok 2 = true), ?(eq_refl : int64_ok 3 = true);
  lazy -[coerce_utf8 int64_ok].

(** What is written is what is read, over nothing or over the same bookmark. *)
Definition under (st r : Project) : Prop :=
  (pr_intent st = "" ∨ pr_intent st = pr_intent r) ∧ (pr_selection st = "" ∨ pr_selection st = pr_selection r).
Lemma unmarshal_marshalProject d r st : valid_project d r → utf8_project r → under st r →
  unmarshal_struct (recordFields ++ recordAdditions) project_field (marshalProject r) st = Ok r.
Proof.
  intros V U [Hui Hus]. pose proof (valid_strings _ _ V U) as []. destruct V as [_ _ Hv Hi Hsel _ _ _ Hsize _ _].
  assert (int64_ok (pr_size r) = true) as Hz by (apply small_int; lia).
  destruct r as [version domain name base volume fs size session object initialized import source imported intent selection].
  cbn [pr_version pr_domain pr_name pr_base pr_volume pr_filesystem pr_size pr_session pr_object pr_initialized pr_import pr_import_source pr_imported pr_intent pr_selection] in *.
  destruct st as [? ? ? ? ? ? ? ? ? ? ? ? ? st_intent st_selection]. cbn [pr_intent pr_selection] in *. unfold utf8 in *.
  unfold marshalProject.
  cbn [pr_version pr_domain pr_name pr_base pr_volume pr_filesystem pr_size pr_session pr_object pr_initialized pr_import pr_import_source pr_imported pr_intent pr_selection].
  destruct Hv as [->|[->| ->]]; cbn in Hi, Hsel.
  - apply eqs_true in Hi as ->. subst selection. decode_tac. rewrite Hz. destruct Hui as [->| ->], Hus as [->| ->]; congruence.
  - subst selection. destruct intent as [|c intent]; [done|]. decode_tac. rewrite Hz. destruct Hus as [->| ->]; congruence.
  - decode_tac. rewrite Hz. congruence.
Qed.
Lemma decode_marshalProject d r st : valid_project d r → utf8_project r → under st r → decodeRecord (marshalProject r) st = Ok r.
Proof.
  intros V U Hst. rewrite <-(unmarshal_marshalProject d r st) by done. destruct V as [_ _ Hv Hi Hsel _ _ _ _ _ _].
  unfold decodeRecord, decodeVersionedDocument.
  assert (header_version (marshalProject r) = Ok (pr_version r)) as Hh.
  { unfold header_version, marshalProject, omitempty. destruct Hv as [Hv|[Hv|Hv]]; rewrite Hv in Hi, Hsel |- *; cbn in Hi, Hsel.
    - apply eqs_true in Hi as ->. rewrite Hsel. reflexivity.
    - rewrite Hsel. destruct (pr_intent r); [done|]. reflexivity.
    - reflexivity. }
  rewrite Hh. cbn [res_bind]. unfold decodeDocument.
  generalize (unmarshal_struct (recordFields ++ recordAdditions) project_field (marshalProject r) st) as result. intros result.
  unfold marshalProject, omitempty.
  destruct Hv as [Hv|[Hv|Hv]]; rewrite Hv in Hi, Hsel |- *; cbn in Hi, Hsel.
  - apply eqs_true in Hi as Hi'. rewrite Hi', Hsel. reflexivity.
  - rewrite Hsel. destruct (pr_intent r) as [|c i]; [done|]. reflexivity.
  - reflexivity.
Qed.
Lemma under_zero r : under zeroProject r.
Proof. split; by left. Qed.
Lemma under_same r : under r r.
Proof. split; by right. Qed.
Lemma printable_project d r : valid_project d r → utf8_project r → printable (marshalProject r) = true.
Proof.
  intros V U. pose proof (valid_strings _ _ V U) as []. unfold utf8 in *.
  unfold marshalProject, omitempty. cbn [printable]. apply forallb_forall. intros [k v] Hkv. cbn [fst snd].
  assert (utf8 k ∧ printable v = true) as [Hk Hv].
  { apply in_app_or in Hkv as [Hkv|Hkv].
    - cbn [In] in Hkv. repeat (destruct Hkv as [[= <- <-]|Hkv]; [split; [done|first [done|by apply printable_jstr]]|]). done.
    - destruct (pr_version r =? 3).
      + cbn [In] in Hkv. repeat (destruct Hkv as [[= <- <-]|Hkv]; [split; [done|by apply printable_jstr]|]). done.
      + apply in_app_or in Hkv as [Hkv|Hkv]; (case_match; [done|]); cbn [In] in Hkv; destruct Hkv as [[= <- <-]|[]]; (split; [done|by apply printable_jstr]). }
  rewrite Hv, Hk. by rewrite eqs_refl.
Qed.
Definition project_text (r : Project) : string := encode_document (marshalProject r).
Lemma admit_project_text d r : validateRecord d r = Ok tt → utf8_project r → admitProject d (pr_name r) (project_text r) = Ok r.
Proof.
  intros Hr U. pose proof (validateRecord_valid _ _ _ Hr) as V. unfold admitProject, project_text.
  rewrite scan_document by by eapply printable_project. cbn [res_bind]. rewrite (decode_marshalProject d) by (done || apply under_zero). cbn [res_bind].
  rewrite Hr. cbn [res_bind]. by rewrite eqs_refl.
Qed.

Lemma optional_empty (s : string) : s = "" ∨ s ≠ "".
Proof. destruct (decide (s = "")); auto. Qed.
Lemma validateSetup_ok s u : validateSetup s = Ok u →
  su_version s = 1 ∧ su_openssl s = "" ∧ su_openssl_sha s = "" ∧ su_xorriso s = "" ∧ su_xorriso_sha s = "" ∨
  su_version s = 2 ∧ su_openssl s ≠ "" ∧ Session.lowerSHA256 (su_openssl_sha s) = true ∧ su_xorriso s ≠ "" ∧ Session.lowerSHA256 (su_xorriso_sha s) = true.
Proof.
  unfold validateSetup. intros H. res_inv H. apply check_ok in Ha. rewrite !andb_true_iff, orb_true_iff, !Z.eqb_eq in Ha.
  destruct Ha as [[[[[Hv _] _] _] _] _].
  destruct (su_version s =? 1) eqn:E1; apply check_ok in H; rewrite !andb_true_iff, ?String.eqb_eq in H.
  - left. apply Z.eqb_eq in E1. tauto.
  - right. apply Z.eqb_neq in E1. destruct H as [[[[[H1 _] H2] H3] _] H4]. apply canonicalPath_ok in H1, H3.
    split; [tauto|]. split_and!; try done; intros Hs; rewrite Hs in *; done.
Qed.
Lemma decode_marshalSetup s : validateSetup s = Ok tt → utf8_setup s → decodeSetup (marshalSetup s) = Ok s.
Proof.
  intros Hs U. destruct U as (U1&U2&U3&U4&U5&U6). unfold utf8 in *. apply validateSetup_ok in Hs.
  destruct s as [version source formatter iso go openssl osha xorriso xsha].
  cbn [su_version su_source su_formatter su_iso su_go su_openssl su_openssl_sha su_xorriso su_xorriso_sha] in *.
  destruct Hs as [(->&->&->&->&->)|(->&Ho&Hos&Hx&Hxs)]; unfold decodeSetup, marshalSetup;
    cbn [su_version su_source su_formatter su_iso su_go su_openssl su_openssl_sha su_xorriso su_xorriso_sha].
  - decode_tac. congruence.
  - pose proof (coerce_sha _ Hos). pose proof (coerce_sha _ Hxs).
    destruct openssl; [done|]. destruct osha; [done|]. destruct xorriso; [done|]. destruct xsha; [done|].
    decode_tac. congruence.
Qed.
Lemma printable_setup s : validateSetup s = Ok tt → utf8_setup s → printable (marshalSetup s) = true.
Proof.
  intros Hs (U1&U2&U3&U4&U5&U6). apply validateSetup_ok in Hs.
  assert (utf8 (su_openssl_sha s) ∧ utf8 (su_xorriso_sha s)) as [? ?].
  { destruct Hs as [(_&_&->&_&->)|(_&_&?&_&?)]; [done|]. by split; apply coerce_sha. }
  unfold marshalSetup, omitempty. cbn [printable]. apply forallb_forall. intros [k v] Hkv. cbn [fst snd].
  assert (utf8 k ∧ printable v = true) as [Hk Hv].
  { rewrite !in_app_iff in Hkv. destruct Hkv as [Hkv|[Hkv|[Hkv|[Hkv|Hkv]]]]; try (case_match; [done|]); cbn [In] in Hkv;
      repeat (destruct Hkv as [[= <- <-]|Hkv]; [split; [done|first [done|by apply printable_jstr]]|]); done. }
  rewrite Hv, Hk. by rewrite eqs_refl.
Qed.
Definition setup_text (s : Setup) : string := encode_document (marshalSetup s).
Lemma admit_setup_text s : validateSetup s = Ok tt → utf8_setup s → admitSetup (setup_text s) = Ok s.
Proof.
  intros Hs U. unfold admitSetup, setup_text. rewrite scan_document by by apply printable_setup. cbn [res_bind].
  rewrite decode_marshalSetup by done. cbn [res_bind]. by rewrite Hs.
Qed.

Section store_lemmas.
Context {B : Type} {E : Env}.
Implicit Types (w : world B) (P : stepP).

Lemma quiet_readDocument name : quiet (readDocument name : M B _).
Proof. unfold readDocument. quiet_tac. Qed.
Lemma quiet_syncProjectDirectory : quiet (syncProjectDirectory : M B _).
Proof. apply quiet_fs_sync. Qed.
Lemma quiet_loadRecord d name : quiet (loadRecord d name : M B _).
Proof. unfold loadRecord, readDocument. quiet_tac. Qed.
Lemma readDocument_ok name w raw w' : readDocument name w = (Ok raw, w') → document_at name (w_disk w) = Some raw.
Proof. unfold readDocument. intros Hr. ok_inv. apply fs_read_ok in Ha as [Hf ->]. apply view_Some. eauto. Qed.
Lemma readDocument_absent name w e w' : readDocument name w = (Er e, w') → err_not_exist e = true → w_disk w !! (Projects, name) = None.
Proof.
  unfold readDocument. intros Hr He. apply bind_er in Hr as [Hr|(f & w1 & _ & Hr)]; [by eapply fs_read_not_exist|].
  apply lift_er in Hr as [Hr _]. unfold readable_document, check in Hr. by destruct (negb _); [|injection Hr as <-].
Qed.
Lemma loadRecord_ok d name w r w' : loadRecord d name w = (Ok r, w') → project_at d name (w_disk w) = Some r.
Proof.
  unfold loadRecord. intros Hr. ok_inv. apply readDocument_ok in Ha. apply view_Some in Ha as (f & Hf & Hd).
  apply view_Some. exists f. split; [done|]. by rewrite Hd.
Qed.

(** The file that holds a document. *)
Lemma document_written name raw k : (N.of_nat (String.length raw) ≤ maxDocumentBytes)%N →
  document_at name (<[(Projects, name) := EFile (bytes_file raw)]> k) = Some raw.
Proof.
  intros Hl. apply view_insert. unfold readable_document. cbn [file_blob bytes_file].
  by replace (maxDocumentBytes <? N.of_nat (String.length raw))%N with false by (symmetry; by apply N.ltb_ge).
Qed.
Lemma project_at_document d name k raw r :
  document_at (json_name name) k = Some raw → admitProject d name raw = Ok r → project_at d name k = Some r.
Proof. intros (f & Hf & Hd)%view_Some Hr. apply view_Some. exists f. split; [done|]. by rewrite Hd. Qed.
Lemma project_at_inv d name k r : project_at d name k = Some r →
  ∃ raw, document_at (json_name name) k = Some raw ∧ admitProject d name raw = Ok r.
Proof. intros (f & Hf & Hd)%view_Some. apply res_bind_ok in Hd as (raw & H1 & H2). exists raw. split; [|done]. apply view_Some. eauto. Qed.
Lemma admitProject_ok d name raw r : admitProject d name raw = Ok r → validateRecord d r = Ok tt ∧ pr_name r = name.
Proof. unfold admitProject. intros H. res_inv H. apply check_ok, eqs_true in Ha2. injection H as <-. by destruct a1. Qed.
Lemma document_at_ne name d' name' e k : (d', name') ≠ (Projects, name) → document_at name (<[(d', name') := e]> k) = document_at name k.
Proof. apply view_insert_ne. Qed.
Lemma project_at_ne d name d' name' e k : (d', name') ≠ (Projects, json_name name) →
  project_at d name (<[(d', name') := e]> k) = project_at d name k.
Proof. apply view_insert_ne. Qed.

(** A published document: the event, and the files when it is over. *)
Definition doc_disk (name raw : string) (k : disk) : disk := <[(Projects, name) := EFile (bytes_file raw)]> k.
Definition doc_event (expected : bool) (name raw : string) : event :=
  if expected then EvPublish Projects name (bytes_file raw) else EvCreate Projects name (bytes_file raw).
Lemma wp_publishRaw P name raw expected (Q : res unit → world B → Prop) w :
  ((N.of_nat (String.length raw) ≤ maxDocumentBytes)%N → (expected = false → w_disk w !! (Projects, name) = None) → ∀ n,
   P (w_trace w) (Step (doc_event expected name raw) (w_disk w) (doc_disk name raw (w_disk w)) (w_locks w)) ∧
   ∀ r, Q r (did (doc_event expected name raw) (doc_disk name raw (w_disk w)) (retick n w))) →
  (∀ e n, Q (Er e) (retick n w)) →
  wp P (publishRaw name raw expected) Q w.
Proof.
  intros H1 H2. unfold publishRaw. wp_guard as Hl by (rewrite (retick_self w); apply H2). apply N.ltb_ge in Hl.
  destruct expected.
  - apply wp_bind, wp_quiet; [auto with quiet|]. intros [x|e] n _; [|by apply H2].
    destruct (H1 Hl ltac:(done) n) as [HP HQ].
    apply wp_fs_replace; [done|by apply HQ|intros e _; apply (H2 e (S n))].
  - apply wp_fs_publish_new; [intros Hnone|intros e _; apply (H2 e (S (w_tick w)))].
    destruct (H1 Hl ltac:(done) (w_tick w)) as [HP HQ]. split; [done|]. rewrite (retick_self w). apply HQ.
Qed.
End store_lemmas.
#[export] Hint Resolve quiet_readDocument quiet_loadRecord quiet_syncProjectDirectory : quiet.

(** *** Without failures *)
Section calm.
Context {B : Type} {E : Env} {C : Calm E}.
Implicit Types (w : world B).
Lemma calm_readDocument name raw w : document_at name (w_disk w) = Some raw → readDocument name w = (Ok raw, tick w).
Proof.
  intros (f & Hf & Hd)%view_Some. unfold readDocument. rewrite (bind_run _ _ _ _ _ (calm_read _ _ _ _ Hf)). unfold lift. by rewrite Hd.
Qed.
Lemma calm_readDocument_absent name w : w_disk w !! (Projects, name) = None → readDocument name w = (Er ErrNotExist, tick w).
Proof. intros Hn. unfold readDocument, bind. by rewrite calm_read_absent. Qed.
Lemma calm_loadRecord d name r w : project_at d name (w_disk w) = Some r → loadRecord d name w = (Ok r, tick w).
Proof.
  intros (raw & Hraw & Hr)%project_at_inv. unfold loadRecord. rewrite (bind_run _ _ _ _ _ (calm_readDocument _ _ _ Hraw)).
  unfold lift. by rewrite Hr.
Qed.
Lemma calm_publish_fresh name v w : (N.of_nat (String.length (encode_document v)) ≤ maxDocumentBytes)%N → w_disk w !! (Projects, name) = None →
  ∃ w', publish name v false w = (Ok tt, w') ∧ w_disk w' = doc_disk name (encode_document v) (w_disk w).
Proof.
  intros Hl Hn. unfold publish, publishRaw. eexists. split; [|shelve].
  erewrite bind_run; [apply (calm_publish_new _ _ _ _ Hn)|]. unfold guard, check.
  apply N.ltb_ge in Hl as ->. done. Unshelve. done.
Qed.
Lemma calm_publish_over name v raw w : (N.of_nat (String.length (encode_document v)) ≤ maxDocumentBytes)%N →
  document_at name (w_disk w) = Some raw →
  ∃ w', publish name v true w = (Ok tt, w') ∧ w_disk w' = doc_disk name (encode_document v) (w_disk w).
Proof.
  intros Hl (f & Hf & _)%view_Some. unfold publish, publishRaw. eexists. split; [|shelve].
  erewrite bind_run; [|unfold guard, check; apply N.ltb_ge in Hl as ->; reflexivity].
  erewrite bind_run; [|apply (calm_lstat _ _ _ _ Hf)]. apply (calm_replace _ _ _ (tick w) _ Hf). Unshelve. done.
Qed.
End calm.

(** ** What the operations do to the files *)

Section effects.
Context {B : Type} {E : Env}.
Implicit Types (w : world B).

(** Nothing changed, and no success. *)
Definition untouched {A} (w : world B) (r : res A) (w' : world B) : Prop := w_disk w' = w_disk w ∧ is_ok r = false.
(** One document was written; the operation may still report an error. *)
Definition wrote (name raw : string) (w w' : world B) : Prop :=
  (N.of_nat (String.length raw) ≤ maxDocumentBytes)%N ∧ w_disk w' = doc_disk name raw (w_disk w).

Definition saved (d : string) (next : Project) (w : world B) (r : res unit) (w' : world B) : Prop :=
  untouched w r w' ∨
  ∃ prior, project_at d (pr_name next) (w_disk w) = Some prior ∧ may_save prior next = true ∧ validateRecord d next = Ok tt ∧
    wrote (json_name (pr_name next)) (project_text next) w w'.
Lemma Save_effect d next w : saved d next w (Save d next w).1 (Save d next w).2.
Proof.
  apply (wp_result (λ _ _, True) (Save d next) (saved d next w)). unfold Save.
  apply wp_bind, wp_lift. destruct (validateRecord d next) as [[]|e] eqn:Ev; [|by left]. cbn beta iota.
  wp_read as prior n Hp by by left. apply loadRecord_ok in Hp. wp_guard as Hm%negb_false_iff by by left.
  apply wp_publishRaw; [|by left]. intros Hl _ m. split; [done|]. intros r. right. by exists prior.
Qed.
Definition made (d : string) (next : Project) (w : world B) (r : res unit) (w' : world B) : Prop :=
  untouched w r w' ∨
  w_disk w !! (Projects, json_name (pr_name next)) = None ∧ validateRecord d next = Ok tt ∧
    wrote (json_name (pr_name next)) (project_text next) w w'.
Lemma Create_effect d next w : made d next w (Create d next w).1 (Create d next w).2.
Proof.
  apply (wp_result (λ _ _, True) (Create d next) (made d next w)). unfold Create.
  apply wp_bind, wp_lift. destruct (validateRecord d next) as [[]|e] eqn:Ev; [|by left]. cbn beta iota.
  apply wp_bind, wp_quiet; [auto with quiet|]. intros [u|e] n _; [|by left]. cbn beta iota.
  apply wp_publishRaw; [|by left]. intros Hl Hnone m. split; [done|]. intros r. right. by specialize (Hnone eq_refl).
Qed.
Definition setup_saved (next : Setup) (w : world B) (r : res unit) (w' : world B) : Prop :=
  w_disk w' = w_disk w ∧ (is_ok r = true → setup_at (w_disk w) = Some next) ∨
  w_disk w !! (Projects, setupName) = None ∧ validateSetup next = Ok tt ∧ wrote setupName (setup_text next) w w'.
Lemma SaveSetup_effect next w : setup_saved next w (SaveSetup next w).1 (SaveSetup next w).2.
Proof.
  apply (wp_result (λ _ _, True) (SaveSetup next) (setup_saved next w)). unfold SaveSetup.
  apply wp_bind, wp_lift. destruct (validateSetup next) as [[]|e] eqn:Ev; [|by left]. cbn beta iota.
  apply wp_bind, wp_quiet; [auto with quiet|]. intros [u|e] n _; [|by left]. cbn beta iota.
  apply wp_bind, wp_attempt, wp_quiet; [auto with quiet|]. intros [raw|e] n2 Hread; cbn beta iota.
  - apply readDocument_ok in Hread. apply wp_bind, wp_lift. destruct (admitSetup raw) as [prior|] eqn:Ea; [|by left]. cbn beta iota.
    wp_guard as Hne by by left. apply bool_decide_eq_false in Hne. apply dec_stable in Hne as ->.
    apply wp_quiet; [auto with quiet|]. intros r m _. left. split; [done|]. intros _. apply view_Some in Hread as (f & Hf & Hd).
    apply view_Some. exists f. split; [done|]. by rewrite Hd.
  - destruct (err_not_exist e) eqn:Ee; [|apply wp_throw; by left].
    apply wp_publishRaw; [|by left]. intros Hl Hnone m. split; [done|]. intros r. right. by specialize (Hnone eq_refl).
Qed.
End effects.

Lemma may_save_refl r : may_save r r = true.
Proof.
  unfold may_save. rewrite !Z.eqb_refl, !eqs_refl. cbn.
  destruct (pr_session r =s ""), (pr_import r =s ""), (pr_initialized r), (pr_imported r); done.
Qed.
Lemma may_save_trans a b c : may_save a b = true → may_save b c = true → may_save a c = true.
Proof.
  unfold may_save, selection_upgrade. rewrite !andb_true_iff, !orb_true_iff, !andb_true_iff, !orb_true_iff, !negb_true_iff, !String.eqb_eq, !Z.eqb_eq, !String.eqb_neq.
  intros (((((((((V1&I1)&B1)&O1)&F1)&S1)&E1)&M1)&N1)&T1) (((((((((V2&I2)&B2)&O2)&F2)&S2)&E2)&M2)&N2)&T2).
  split_and!; try congruence.
  - clear -V1 V2 M1 M2. naive_solver congruence.
  - clear -E1 E2. naive_solver congruence.
  - clear -M1 M2. naive_solver congruence.
  - clear -N1 N2. naive_solver congruence.
  - clear -T1 T2. naive_solver congruence.
Qed.

(** ** Properties *)

(** A bookmark only advances: whatever fails, a save either leaves the
    files alone or replaces the document of that one project, read back as it
    was given, over a stored bookmark whose base, volume, size, intent and once
    set receipts it repeats and whose flags it does not take back; success means
    it did; and advancing is transitive, so no sequence of saves can do more. *)
Theorem project_save_guarded `{E : Env} {B} (d : string) (next : Project) (w : world B) :
  let r := (Save d next w).1 in let k := w_disk w in let k' := w_disk (Save d next w).2 in
  (k' = k ∨ ∃ prior, project_at d (pr_name next) k = Some prior ∧ may_save prior next = true ∧
     k' = doc_disk (json_name (pr_name next)) (project_text next) k ∧
     (utf8_project next → project_at d (pr_name next) k' = Some next)) ∧
  (r = Ok tt → utf8_project next → project_at d (pr_name next) k' = Some next) ∧
  ∀ earlier prior later, may_save earlier prior = true → may_save prior later = true → may_save earlier later = true.
Proof.
  cbv zeta. destruct (Save_effect d next w) as [[Hd Hr]|(prior & Hp & Hm & Hv & Hl & Hd)].
  - split_and!; [by left|intros Hok; by rewrite Hok in Hr|apply may_save_trans].
  - assert (utf8_project next → project_at d (pr_name next) (w_disk (Save d next w).2) = Some next) as Hat.
    { intros U. rewrite Hd. eapply project_at_document; [by apply document_written|by apply admit_project_text]. }
    split_and!; [right; by exists prior|done|apply may_save_trans].
Qed.

Section update.
Context {B : Type} {E : Env} {D : Digests}.
Implicit Types (w : world B).

(** The previous profile, byte for byte, is archived before the active one
    is replaced. *)
Definition update_steps (raw : string) (next : Setup) (o : list step) (s : step) : Prop :=
  match st_event s with
  | EvCreate Projects n f => n = setupHistory raw ∧ f = bytes_file raw
  | EvPublish Projects n f => n = setupName ∧ f = bytes_file (setup_text next) ∧ document_at (setupHistory raw) (st_disk s) = Some raw
  | _ => False
  end.
(** The profile active afterwards: the previous one, or the next one with the
    previous one archived. *)
Definition update_outcome (raw : string) (next : Setup) (k k' : disk) (r : res (string * option error)) : Prop :=
  (∀ name, name ≠ setupName → name ≠ setupHistory raw → k' !! (Projects, name) = k !! (Projects, name)) ∧
  (document_at setupName k' = Some raw ∨
   document_at setupName k' = Some (setup_text next) ∧ document_at (setupHistory raw) k' = Some raw) ∧
  (∀ archived, r = Ok (archived, None) →
     archived = "" ∧ admitSetup raw = Ok next ∧ k' = k ∨
     archived = setupHistory raw ∧ document_at setupName k' = Some (setup_text next) ∧ document_at archived k' = Some raw).

Lemma history_name raw : setupHistory raw ≠ setupName.
Proof. done. Qed.
(** Updating the remembered locators never loses the previous profile:
    its exact bytes are archived under their digest before the active document
    is replaced, an archive is never overwritten, and whatever fails the active
    document is the previous one or, with the previous one archived, the next;
    no other document of the registry changes. *)
Theorem setup_update_archives_first (raw : string) (next : Setup) w :
  document_at setupName (w_disk w) = Some raw →
  wp (update_steps raw next) (UpdateSetup next) (λ r w', update_outcome raw next (w_disk w) (w_disk w') r) w.
Proof.
  intros Hact. assert (∀ e, update_outcome raw next (w_disk w) (w_disk w) (Er e)) as Her by (intros e; split_and!; auto; discriminate).
  unfold UpdateSetup. apply wp_bind, wp_lift. destruct (validateSetup next) as [[]|e] eqn:Ev; [|apply Her]. cbn beta iota.
  wp_read as raw' n Hraw by apply Her. apply readDocument_ok in Hraw. rewrite Hact in Hraw. injection Hraw as <-.
  apply wp_bind, wp_lift. destruct (admitSetup raw) as [prior|e] eqn:Ea; [|apply Her]. cbn beta iota.
  destruct (bool_decide (next = prior)) eqn:Eb.
  { apply bool_decide_eq_true in Eb as <-. apply wp_bind, wp_quiet; [auto with quiet|]. intros [u|e] m _; [|apply Her].
    apply wp_ret. split_and!; [done|by left|]. intros a [= <-]. by left. }
  clear Eb. cbv zeta. apply wp_bind, wp_attempt, wp_quiet; [auto with quiet|]. intros existing m Hex. cbn beta iota.
  pose proof (history_name raw) as Hne.
  (* the archive is on disk, and nothing else changed *)
  apply wp_bind. eapply wp_conseq with (Q := λ r w1,
    document_at setupName (w_disk w1) = Some raw ∧ (∀ name, name ≠ setupHistory raw → w_disk w1 !! (Projects, name) = w_disk w !! (Projects, name)) ∧
    (is_ok r = true → document_at (setupHistory raw) (w_disk w1) = Some raw)).
  { destruct existing as [archived|e].
    - apply readDocument_ok in Hex. wp_guard as Heq%neqs_false by (split_and!; done). subst archived.
      apply wp_quiet; [auto with quiet|]. intros r m2 _. by split_and!.
    - destruct (err_not_exist e) eqn:Ee; [|by apply wp_throw; split_and!]. apply wp_wrap, wp_publishRaw; [|intros e2 m2; by split_and!].
      intros Hl _ m2. split; [done|]. intros r. cbn [w_disk did]. split_and!.
      + unfold doc_disk. rewrite document_at_ne by congruence. done.
      + intros name Hn. unfold doc_disk. by rewrite lookup_insert_ne by congruence.
      + intros _. by apply document_written. }
  intros [[]|e] w1 (Hs1 & Ho1 & Ha1); cbn beta iota.
  2:{ split_and!; [intros name _ Hn; by apply Ho1|by left|done]. }
  specialize (Ha1 eq_refl). apply wp_bind, wp_attempt, wp_publishRaw.
  - intros Hl _ m2. fold (setup_text next) in Hl. 
    assert (document_at (setupHistory raw) (doc_disk setupName (setup_text next) (w_disk w1)) = Some raw) as Hh
      by (unfold doc_disk; rewrite document_at_ne by congruence; done).
    assert (document_at setupName (doc_disk setupName (setup_text next) (w_disk w1)) = Some (setup_text next)) as Hn by by apply document_written.
    split; [done|]. intros r. apply wp_ret. cbn [w_disk did]. split_and!.
    + intros name H1 H2. unfold doc_disk. rewrite lookup_insert_ne by congruence. by apply Ho1.
    + by right.
    + intros a Hr. right. injection Hr as <- _. by split.
  - intros e m2. apply wp_ret. split_and!; [intros name _ Hn; by apply Ho1|by left|done].
Qed.
End update.

#[local] Existing Instance quietEnv.
#[local] Instance labDigests : Digests := {| sha256 _ := sourceSHA256 |}.
Definition example_setup : Setup := mkSetup 1 "/srv/src" "/opt/formatter" "/srv/debian.iso" "/usr/local/go/bin/go" "" "" "" "".
Definition moved_setup : Setup := mkSetup 1 "/srv/src2" "/opt/formatter" "/srv/debian.iso" "/usr/local/go/bin/go" "" "" "" "".
Definition setup_world : world unit := worldOf {[ (Projects, setupName) := EFile (bytes_file (setup_text example_setup)) ]} tt.
Lemma setup_update_archives_first_witness :
  document_at (setupHistory (setup_text example_setup)) (w_disk (UpdateSetup moved_setup setup_world).2) = Some (setup_text example_setup) ∧
  document_at setupName (w_disk (UpdateSetup moved_setup setup_world).2) = Some (setup_text moved_setup).
Proof.
  assert (document_at setupName (w_disk setup_world) = Some (setup_text example_setup)) as Hd by (vm_compute; reflexivity).
  pose proof (wp_result _ _ _ _ (setup_update_archives_first (setup_text example_setup) moved_setup setup_world Hd)) as (_ & _ & H).
  assert ((UpdateSetup moved_setup setup_world).1 = Ok (setupHistory (setup_text example_setup), None)) as Hr by (vm_compute; reflexivity).
  destruct (H _ Hr) as [(Ha & _)|(_ & Hn & Hh)]; [discriminate Ha|]. split; [exact Hh|exact Hn].
Defined.

Definition example_project : Project :=
  mkProject 1 "work" "notes" "base-1" "01234567-89ab-4def-8123-456789abcdef" "11111111-2222-4333-8444-555555555555" (2 ^ 30)
    "22222222-2222-4333-8444-555555555555" "boxwarden-work-22222222222243338444555555555555" true "" "" false "" "".
Example valid_example_project : validateRecord "work" example_project = Ok tt.
Proof. reflexivity. Qed.
