(* ===== verification/SessionStore.v ===== *)
(** The session registry on disk: loading (src/internal/session/record.go),
    atomic saving (store.go), removal (delete_store.go), listing
    (list_records.go) and the immutable recipe intents a record may name
    (recipe_intent.go). *)
From S2P Require Import Prelude Ids Json JsonText Recipe SessionRecord Outside World Host Logic.

Definition maxSessionRecordBytes : N := 2 ^ 20.
Definition maxSessionEntries : nat := 1024.
Definition maxStoredRecipeIntentBytes : N := 2 ^ 20.

(** The pure half of the loader: what a file holds for one domain and name. *)
Definition parseSession (domainID name : string) (f : file) : res SessionRecord :=
  let? v := single_doc maxSessionRecordBytes f in
  let? record := decodeRecord v in
  check (sr_domain record =s domainID) "session record domain does not match requested domain" ;;?
  check (sr_name record =s name) "session record name does not match requested name" ;;?
  Ok record.

Definition sessionFile (record : SessionRecord) : file := json_file (marshalRecord record).

(** The session record the registry holds for a name. *)
Definition session_at (domainID name : string) (k : disk) : option SessionRecord :=
  view (parseSession domainID name) Sessions (json_name name) k.

Section store.
Context {B : Type} {E : Env}.

Definition loadRecordFromRoot (domainID name : string) : M B SessionRecord :=
  let! f := wrap "open session record" (fs_read Sessions (json_name name)) in
  lift (parseSession domainID name f).

Definition LoadRecord (expectedDomain rawName : string) : M B SessionRecord :=
  let! domainID := lift (Domain.Parse expectedDomain) in
  let! name := lift (Session.ParseName rawName) in
  loadRecordFromRoot domainID name.

Definition SaveRecord (expectedDomain : string) (record : SessionRecord) : M B unit :=
  lift (validateRecordForStore expectedDomain record) ;;!
  let record := upgradeRecordForStore record in
  lift (validateRecordForStore expectedDomain record) ;;!
  wrap "replace session record" (fs_replace Sessions (json_name (sr_name record)) (sessionFile record)).

Definition RemoveDeletingRecordLocked (expected : SessionRecord) : M B unit :=
  guard (negb (sr_version expected =? recordVersion) || (sr_state expected ≠s StateDeleting) ||
         (sr_generation expected ≠s "")) "invalid deleting session record" ;;!
  let! current := wrapv "deleting session record changed" (loadRecordFromRoot (sr_domain expected) (sr_name expected)) in
  guard (bool_decide (current ≠ expected)) "deleting session record changed" ;;!
  (* the record is pinned: stat, open and compare before the removal *)
  fs_read Sessions (json_name (sr_name expected)) ;;!
  fs_remove Sessions (json_name (sr_name expected)).

Fixpoint listSessions (expectedDomain : string) (entries : list (string * entry)) : M B (list SessionRecord) :=
  match entries with
  | [] => ret []
  | (name, kind) :: rest =>
      if is_temporary name then listSessions expectedDomain rest
      else match kind, json_key name with
           | EDir, _ | _, None => throw (Errorf "unexpected session registry entry")
           | _, Some key =>
               let! parsed := wrap "invalid session registry entry" (lift (Session.ParseName key)) in
               let! record := wrap "load session registry entry" (loadRecordFromRoot expectedDomain parsed) in
               let! records := listSessions expectedDomain rest in
               ret (record :: records)
           end
  end.

Definition ListRecords (expectedDomain : string) : M B (list SessionRecord) :=
  lift (Domain.Parse expectedDomain) ;;!
  let! entries := fs_list Sessions in
  guard (maxSessionEntries <? length entries)%nat "session registry exceeds bound" ;;!
  let! results := listSessions expectedDomain entries in
  ret (sort_by sr_name results).

Context {D : Digests}.

Definition readRecipeIntent (digest : string) : M B string :=
  let! f := fs_read Intents (json_name digest) in
  guard (maxStoredRecipeIntentBytes <? file_size f)%N "recipe intent exceeds bound" ;;!
  guard (sha256 (file_blob f) ≠s digest) "recipe intent digest mismatch" ;;!
  guard (negb (is_ok (DecodeIntent (file_blob f)))) "invalid stored recipe intent" ;;!
  ret (file_blob f).

Definition LoadRecipeIntent (digest : string) : M B string :=
  guard (negb (Session.lowerSHA256 digest)) "invalid recipe intent digest" ;;!
  readRecipeIntent digest.
End store.

(** ** Lemmas *)

Lemma parse_sessionFile dom r : record_ok dom r = true → parseSession dom (sr_name r) (sessionFile r) = Ok r.
Proof.
  intros H. unfold parseSession, single_doc, sessionFile, json_file. cbn [file_size file_docs].
  pose proof (marshal_size _ _ H) as Hs. unfold maxSessionRecordBytes.
  replace (2 ^ 20 <? json_size (marshalRecord r) + 1)%N with false by (symmetry; apply N.ltb_ge; lia).
  cbn [res_bind]. rewrite (decode_marshal_ok _ _ H). cbn [res_bind].
  apply record_ok_lengths in H as Hl.
  unfold record_ok in H. rewrite !andb_true_iff in H. destruct H as [[[[[[[[_ Hd] _] _] _] _] _] _] _].
  rewrite Hd, eqs_refl. done.
Qed.

Lemma parseSession_ok dom name f r :
  parseSession dom name f = Ok r → sr_domain r = dom ∧ sr_name r = name ∧
  ∃ v, file_docs f = Some [v] ∧ decodeRecord v = Ok r.
Proof.
  unfold parseSession, single_doc. intros H. res_inv H.
  apply check_ok in Ha1, Ha2. apply eqs_true in Ha1, Ha2. injection H as <-.
  split; [done|]. split; [done|].
  unfold fail in Ha. destruct (_ <? _)%N; [done|]. destruct (file_docs f) as [[|? [|]]|]; try done.
  injection Ha as ->. eauto.
Qed.
Lemma session_at_ids dom name k r :
  session_at dom name k = Some r → sr_domain r = dom ∧ sr_name r = name.
Proof. intros (f & _ & H)%view_Some. apply parseSession_ok in H as (? & ? & _). done. Qed.

(** What a decoded record guarantees whatever its version. *)
Lemma decoded_record v r : decodeRecord v = Ok r →
  Lock.validDomain (sr_domain r) = true ∧ Lock.validSessionName (sr_name r) = true ∧
  Session.validUUID (sr_id r) = true ∧ br_kind (sr_backend r) = "tart" ∧
  Session.validBackendObjectID (br_object_id (sr_backend r)) = true.
Proof.
  intros (fs & -> & _ & _ & (_ & Hd & Hn & Hb & _) & Hc)%decode_ok_fields.
  unfold record_checks, seen_all, fail in Hc. cbv zeta in Hc. cbn [forallb] in Hc.
  destruct (_ || _) in Hc; [done|].
  destruct (negb _) eqn:Es in Hc; [done|]. destruct (negb (Session.validUUID _)) eqn:Eu in Hc; [done|]. clear Hc.
  bsimpl. repeat match goal with H : existsb (String.eqb _) _ = true |- _ => apply seen_in in H end.
  destruct Hb as [? ?]; [done|]. split_and!; auto.
Qed.
Lemma session_at_ok dom name k r : session_at dom name k = Some r →
  Lock.validDomain dom = true ∧ Lock.validSessionName name = true ∧
  Session.validUUID (sr_id r) = true ∧ br_kind (sr_backend r) = "tart" ∧
  Session.validBackendObjectID (br_object_id (sr_backend r)) = true.
Proof.
  intros (f & _ & Hp)%view_Some. apply parseSession_ok in Hp as (<- & <- & v & _ & Hv).
  by eapply decoded_record.
Qed.

Lemma plain_decodeRecord v : plain (decodeRecord v).
Proof.
  unfold decodeRecord. apply plain_bind.
  - apply plain_decode_object. unfold record_field. plain_field.
    + unfold decodeBackend. plain_tac. apply plain_decode_object. unfold backend_field. plain_field.
    + unfold decodeReadiness. plain_tac. apply plain_decode_object. unfold readiness_field. plain_field.
  - intros [r seen]. unfold record_checks, validateStartGeneration, validateReadiness. cbv zeta. plain_tac.
Qed.
Lemma plain_parseSession dom name f : plain (parseSession dom name f).
Proof. unfold parseSession. plain_tac. apply plain_decodeRecord. Qed.
#[export] Hint Resolve plain_decodeRecord plain_parseSession : plain.

Section lemmas.
Context {B : Type} {E : Env}.
Implicit Types w : world B.

Lemma quiet_loadRecordFromRoot dom name : quiet (loadRecordFromRoot dom name : M B _).
Proof. unfold loadRecordFromRoot. quiet_tac. Qed.
Lemma quiet_LoadRecord dom name : quiet (LoadRecord dom name : M B _).
Proof. unfold LoadRecord. quiet_tac; apply quiet_loadRecordFromRoot. Qed.
Lemma quiet_listSessions dom entries : quiet (listSessions dom entries : M B _).
Proof.
  induction entries as [|[name kind] rest IH]; cbn [listSessions]; quiet_tac; try apply quiet_loadRecordFromRoot.
Qed.
Lemma quiet_ListRecords dom : quiet (ListRecords dom : M B _).
Proof. unfold ListRecords. quiet_tac; apply quiet_listSessions. Qed.
Lemma quiet_LoadRecipeIntent `{Digests} digest : quiet (LoadRecipeIntent digest : M B _).
Proof. unfold LoadRecipeIntent, readRecipeIntent. quiet_tac. Qed.

Lemma loadRecordFromRoot_ok dom name w r w' :
  loadRecordFromRoot dom name w = (Ok r, w') → session_at dom name (w_disk w) = Some r.
Proof.
  unfold loadRecordFromRoot. intros H. ok_inv. apply fs_read_ok in Ha as [Hf ->].
  apply view_Some. eauto.
Qed.
Lemma LoadRecord_ok dom name w r w' :
  LoadRecord dom name w = (Ok r, w') → session_at dom name (w_disk w) = Some r.
Proof.
  unfold LoadRecord. intros H. ok_inv. apply Parse_ok in Ha as [-> _]. apply ParseName_ok in Ha0 as [-> _].
  by eapply loadRecordFromRoot_ok.
Qed.
Lemma LoadRecord_not_exist dom name w e w' :
  LoadRecord dom name w = (Er e, w') → err_not_exist e = true → w_disk w !! (Sessions, json_name name) = None.
Proof.
  unfold LoadRecord, loadRecordFromRoot. intros H He.
  apply lift_bind_er in H as [H|(d & Hd & H)]; [by rewrite (plain_Parse _ _ H) in He|].
  apply lift_bind_er in H as [H|(n & Hn & H)]; [by rewrite (plain_ParseName _ _ H) in He|].
  apply ParseName_ok in Hn as [-> _].
  apply bind_er in H as [H|(f & w1 & Hf & H)].
  - apply wrap_er in H as (e0 & H & ->). by eapply fs_read_not_exist.
  - apply lift_er in H as [H _]. by rewrite (plain_parseSession _ _ _ _ H) in He.
Qed.
End lemmas.
#[export] Hint Resolve quiet_loadRecordFromRoot quiet_LoadRecord quiet_ListRecords quiet_LoadRecipeIntent : quiet.

Lemma upgrade_name r : sr_name (upgradeRecordForStore r) = sr_name r.
Proof. unfold upgradeRecordForStore. by destruct (_ || _). Qed.

(** Only stopped and creating records are upgraded. *)
Lemma upgrade_active r : sr_state r ≠ StateStopped → sr_state r ≠ StateCreating → upgradeRecordForStore r = r.
Proof.
  intros H1%eqs_false H2%eqs_false. unfold upgradeRecordForStore. rewrite H1, H2. cbn [negb andb]. by rewrite orb_true_r.
Qed.

Section save.
Context {B : Type} {E : Env}.
Implicit Types w : world B.

(** The disk after a save, and the step that publishes it. *)
Definition saved_disk (r : SessionRecord) (k : disk) : disk :=
  <[(Sessions, json_name (sr_name r)) := EFile (sessionFile (upgradeRecordForStore r))]> k.
Definition save_event (r : SessionRecord) : event :=
  EvPublish Sessions (json_name (sr_name r)) (sessionFile (upgradeRecordForStore r)).

Lemma wp_SaveRecord P dom r (Q : res unit → world B → Prop) w :
  (record_ok dom r = true →
     P (w_trace w) (Step (save_event r) (w_disk w) (saved_disk r (w_disk w)) (w_locks w)) ∧
     ∀ res, Q res (did (save_event r) (saved_disk r (w_disk w)) w)) →
  (∀ e n, Q (Er e) (retick n w)) →
  wp P (SaveRecord dom r) Q w.
Proof.
  intros H1 H2. unfold SaveRecord. apply wp_bind, wp_lift.
  destruct (validateRecordForStore dom r) as [[]|e] eqn:Ev; [|rewrite (retick_self w); apply H2].
  apply store_admits in Ev. cbv zeta. apply wp_bind, wp_lift.
  destruct (validateRecordForStore dom (upgradeRecordForStore r)) as [[]|e]; [|rewrite (retick_self w); apply H2].
  destruct (H1 Ev) as [HP HQ]. unfold save_event, saved_disk in HP, HQ.
  apply wp_wrap. rewrite upgrade_name. apply wp_fs_replace; [done|..].
  - intros [u|e]; apply HQ.
  - intros e _. apply H2.
Qed.

Lemma session_at_saved dom r k :
  record_ok dom r = true → session_at dom (sr_name r) (saved_disk r k) = Some (upgradeRecordForStore r).
Proof.
  intros H%upgrade_ok. unfold session_at, saved_disk. apply view_insert.
  rewrite <-(upgrade_name r). by apply parse_sessionFile.
Qed.
Lemma session_at_saved_ne dom r n k :
  n ≠ sr_name r → session_at dom n (saved_disk r k) = session_at dom n k.
Proof. intros Hne. apply view_insert_ne. intros [= E1%json_name_inj]. congruence. Qed.
End save.

(** *** Listing *)
Section list.
Context {B : Type} {E : Env}.
Implicit Types w : world B.

Lemma valid_name_not_temporary n : Lock.validSessionName n = true → is_temporary (json_name n) = false.
Proof.
  unfold Lock.validSessionName, Lock.validLowerIdentifier. destruct n as [|c n]; [done|].
  rewrite !andb_true_iff. intros [[_ Hc] _]. unfold is_temporary, json_name.
  change (String c n +:+ ".json") with (String c (n +:+ ".json")). cbn [has_prefix].
  destruct (Ascii.eqb "." c) eqn:Ec; [|done]. apply Ascii.eqb_eq in Ec as <-. by vm_compute in Hc.
Qed.

Lemma listSessions_ok dom entries w l w' :
  listSessions dom entries w = (Ok l, w') →
  (∀ name e, (name, e) ∈ entries → is_temporary name = false →
     ∃ r, name = json_name (sr_name r) ∧ session_at dom (sr_name r) (w_disk w) = Some r ∧ r ∈ l) ∧
  (∀ r, r ∈ l → (∃ e, (json_name (sr_name r), e) ∈ entries) ∧ session_at dom (sr_name r) (w_disk w) = Some r) ∧
  (NoDup entries.*1 → NoDup (sr_name <$> l)) ∧ w_disk w' = w_disk w.
Proof.
  revert w l w'. induction entries as [|[name kind] rest IH]; intros w l w' H; cbn [listSessions] in H.
  - ok_inv. split_and!; [|intros r Hr; by apply not_elem_of_nil in Hr|constructor|done].
    intros ? ? Hin. by apply not_elem_of_nil in Hin.
  - destruct (is_temporary name) eqn:Et.
    { apply IH in H as (H1 & H2 & H3 & H4). split_and!; [| |intros [_ Hnd]%NoDup_cons; auto|done].
      - intros n e [[= -> ->]|Hin]%elem_of_cons Ht; [congruence|eauto].
      - intros r Hr. destruct (H2 r Hr) as [[e He] Hs]. split; [|done]. exists e. by apply elem_of_cons; right. }
    assert (∃ key, json_key name = Some key ∧ ∃ parsed r l' w1 w2,
      Session.ParseName key = Ok parsed ∧ loadRecordFromRoot dom parsed w = (Ok r, w1) ∧
      listSessions dom rest w1 = (Ok l', w2) ∧ l = r :: l' ∧ w' = w2) as (key & Hkey & parsed & r & l' & w1 & w2 & Hp & Hr & Hl & -> & ->).
    { destruct kind; destruct (json_key name) as [key|]; try (exfalso; ok_inv; done);
        exists key; (split; [done|]); ok_inv; eauto 10. }
    apply json_key_ok in Hkey as ->. apply ParseName_ok in Hp as [-> _].
    destruct (quiet_loadRecordFromRoot dom key w) as (x & n & Hq). rewrite Hq in Hr. injection Hr as -> <-.
    apply loadRecordFromRoot_ok in Hq. pose proof (session_at_ids _ _ _ _ Hq) as [_ Hn].
    apply IH in Hl as (H1 & H2 & H3 & H4). cbn [w_disk retick] in *. split_and!; [| | |done].
    + intros n' e [[= -> ->]|Hin]%elem_of_cons Ht.
      * exists r. rewrite Hn. split_and!; [done|done|by apply elem_of_cons; left].
      * destruct (H1 n' e Hin Ht) as (r' & ? & ? & ?). exists r'. split_and!; [done|done|by apply elem_of_cons; right].
    + intros r' [->|Hin]%elem_of_cons.
      * rewrite Hn. split; [|done]. exists kind. by apply elem_of_cons; left.
      * destruct (H2 r' Hin) as [[e He] ?]. split; [|done]. exists e. by apply elem_of_cons; right.
    + intros [Hni Hnd]%NoDup_cons. cbn. apply NoDup_cons. split; [|auto].
      rewrite Hn. intros (r' & Hk & Hin)%list_elem_of_fmap_1.
      destruct (H2 r' Hin) as [[e He] _]. apply Hni. apply list_elem_of_fmap.
      exists (json_name key, e). split; [done|]. by rewrite Hk.
Qed.
End list.

(** ** Properties *)

(** Saving is atomic under every failure of the file system: either
    nothing on disk changes and an error is returned, or the record was
    admissible and the registry entry of its name, and nothing else, becomes the
    complete upgraded record, which reading back yields; success means the
    latter, and a save of an admissible record over a free or regular entry
    succeeds when nothing fails. *)
Theorem save_record_atomic `{E : Env} {B} (dom : string) (r : SessionRecord) (w : world B) :
  let res := (SaveRecord dom r w).1 in let w' := (SaveRecord dom r w).2 in
  (w_disk w' = w_disk w ∧ is_ok res = false ∨
   record_ok dom r = true ∧ w_disk w' = saved_disk r (w_disk w) ∧
   session_at dom (sr_name r) (w_disk w') = Some (upgradeRecordForStore r) ∧
   ∀ n, n ≠ sr_name r → session_at dom n (w_disk w') = session_at dom n (w_disk w)) ∧
  w_locks w' = w_locks w ∧ w_host w' = w_host w ∧
  (record_ok dom r = true → env_fault (w_tick w) = NoFault →
   (w_disk w !! (Sessions, json_name (sr_name r)) = None ∨
    ∃ f, w_disk w !! (Sessions, json_name (sr_name r)) = Some (EFile f)) → res = Ok tt).
Proof.
  pose proof (wp_SaveRecord (λ _ _, True) dom r (λ res w',
    (w_disk w' = w_disk w ∧ is_ok res = false ∨
     record_ok dom r = true ∧ w_disk w' = saved_disk r (w_disk w)) ∧
    w_locks w' = w_locks w ∧ w_host w' = w_host w) w) as H.
  unfold wp in H. destruct (SaveRecord dom r w) as [res w'] eqn:Er. cbn [fst snd].
  destruct H as [(Hd & Hl & Hh) _]; [by intros; split; auto 10|by intros; auto|].
  split; [|split; [done|split; [done|]]].
  - destruct Hd as [|[Hok Hd]]; [by left|right]. split; [done|]. split; [done|]. rewrite Hd. split.
    + by apply session_at_saved.
    + intros n Hn. by apply session_at_saved_ne.
  - intros Hok Hf He. unfold SaveRecord, bind, lift in Er. pose proof (upgrade_ok _ _ Hok) as Hu.
    apply store_admits in Hok, Hu. rewrite Hok, Hu in Er. unfold wrap, fs_replace, now_fault in Er.
    rewrite upgrade_name, Hf in Er.
    destruct He as [He|[f He]]; rewrite He in Er; by injection Er as <- _.
Qed.

#[local] Existing Instance quietEnv.
Definition emptyWorld : world unit := worldOf ∅ tt.
Lemma save_record_atomic_witness :
  (SaveRecord "work" example_record emptyWorld).1 = Ok tt ∧ record_ok "work" example_record = true.
Proof.
  split; [|reflexivity].
  refine (proj2 (proj2 (proj2 (save_record_atomic "work" example_record emptyWorld))) _ _ _); [reflexivity|reflexivity|].
  left. reflexivity.
Defined.

(** A listing that succeeds is exactly the registry: sorted by name
    without repetition, it holds every record that some name resolves to and
    nothing else, and it only succeeds when every entry that is not a temporary
    file is such a record; it changes nothing. *)
Theorem list_records_exact `{E : Env} {B} (dom : string) (w w' : world B) (l : list SessionRecord) :
  ListRecords dom w = (Ok l, w') →
  StronglySorted (key_le sr_name) l ∧ NoDup (sr_name <$> l) ∧
  (∀ r, r ∈ l ↔ session_at dom (sr_name r) (w_disk w) = Some r) ∧
  (∀ name e, w_disk w !! (Sessions, name) = Some e → is_temporary name = false →
     ∃ r, name = json_name (sr_name r) ∧ r ∈ l) ∧
  (length l ≤ maxSessionEntries)%nat ∧ w_disk w' = w_disk w.
Proof.
  unfold ListRecords. intros H. ok_inv. apply fs_list_ok in Ha0 as [-> ->].
  rename a2 into l. apply listSessions_ok in Ha2 as (H1 & H2 & H3 & H4).
  pose proof (sort_by_perm sr_name l) as Hp. cbn [w_disk tick] in *.
  split; [apply sort_by_sorted|]. split; [|split; [|split; [|split]]].
  - rewrite Hp. apply H3, dir_entries_nodup.
  - intros r. rewrite Hp. split; [apply H2|]. intros Hs.
    pose proof (session_at_ok _ _ _ _ Hs) as (_ & Hn & _).
    apply view_Some in Hs as Hf. destruct Hf as (f & Hf & _). apply dir_entries_spec in Hf.
    destruct (H1 _ _ Hf (valid_name_not_temporary _ Hn)) as (r' & Hr' & Hs' & Hin).
    apply json_name_inj in Hr'. rewrite <-Hr', Hs in Hs'. congruence.
  - intros name e He Ht. apply dir_entries_spec in He. destruct (H1 _ _ He Ht) as (r & ? & _ & Hin).
    exists r. split; [done|]. by rewrite Hp.
  - rewrite (Permutation_length Hp). apply Nat.ltb_ge in Ha1.
    etrans; [|exact Ha1]. rewrite <-(length_fmap sr_name), <-(length_fmap fst (dir_entries _ _)).
    rewrite <-(length_fmap json_name).
    apply submseteq_length, NoDup_submseteq.
    + apply (NoDup_fmap_2 json_name), H3, dir_entries_nodup.
    + intros x (n & -> & (r & -> & Hr)%list_elem_of_fmap)%list_elem_of_fmap.
      destruct (H2 r Hr) as [[e He] _]. apply list_elem_of_fmap. by exists (json_name (sr_name r), e).
  - done.
Qed.
Definition oneSession : world unit := worldOf {[ (Sessions, "dev.json") := EFile (sessionFile example_record) ]} tt.
Lemma list_records_exact_witness : StronglySorted (key_le sr_name) [example_record] ∧ NoDup (sr_name <$> [example_record]).
Proof.
  destruct (list_records_exact "work" oneSession (ListRecords "work" oneSession).2 [example_record]) as (H1 & H2 & _).
  - vm_compute. reflexivity.
  - split; [exact H1|exact H2].
Defined.
