(* ===== verification/RebuildJournal.v ===== *)
(** The rebuild journal of src/internal/session/rebuild_journal.go: its record,
    validation, strict decoder, and the operations that create it, advance its
    phase, remove it, and gate every other mutation on its absence; with the
    backend-object reservation scan of store.go, which reads both registries. *)
From S2P Require Import Prelude Ids Json JsonText SessionRecord Outside World Host Logic SessionStore.

Abbreviation RebuildReserved := "reserved"%string.
Abbreviation RebuildCloned := "cloned"%string.
Abbreviation RebuildCutover := "cutover"%string.
Abbreviation RebuildReady := "ready"%string.
Abbreviation RebuildRetiring := "retiring"%string.
Definition maxRebuildJournalBytes : N := 4096.

Record RebuildJournal := mkJournal {
  rj_version : Z;
  rj_domain : string;
  rj_session_name : string;
  rj_session_id : string;
  rj_operation : string;
  rj_phase : string;
  rj_old_backend : string;
  rj_old_revision : string;
  rj_old_intent : string;
  rj_cand_backend : string;
  rj_cand_revision : string;
  rj_cand_intent : string;
  rj_pin_present : bool;
  rj_pin_digest : string;
}.
#[export] Instance RebuildJournal_eq_dec : EqDecision RebuildJournal.
Proof. solve_decision. Defined.

Definition zeroJournal : RebuildJournal := mkJournal 0 "" "" "" "" "" "" "" "" "" "" "" false "".
Definition set_phase (p : string) (j : RebuildJournal) : RebuildJournal :=
  mkJournal (rj_version j) (rj_domain j) (rj_session_name j) (rj_session_id j) (rj_operation j) p
    (rj_old_backend j) (rj_old_revision j) (rj_old_intent j) (rj_cand_backend j) (rj_cand_revision j)
    (rj_cand_intent j) (rj_pin_present j) (rj_pin_digest j).
Definition set_pin (present : bool) (digest : string) (j : RebuildJournal) : RebuildJournal :=
  mkJournal (rj_version j) (rj_domain j) (rj_session_name j) (rj_session_id j) (rj_operation j) (rj_phase j)
    (rj_old_backend j) (rj_old_revision j) (rj_old_intent j) (rj_cand_backend j) (rj_cand_revision j)
    (rj_cand_intent j) present digest.

Definition oldPinBinding (j : RebuildJournal) : PinBinding :=
  mkPinBinding (rj_domain j) (rj_session_id j) "tart" (rj_old_backend j).

Definition verifyOldPinWitness `{Digests} (j : RebuildJournal) (pin : HostKeyPin) : res unit :=
  let binding := oldPinBinding j in
  if negb (rj_pin_present j) || negb (hp_version pin =? 1) || (hp_domain pin ≠s pb_domain binding) ||
     (hp_session pin ≠s pb_session binding) || (hp_kind pin ≠s pb_kind binding) || (hp_object pin ≠s pb_object binding)
  then fail "old host-key pin does not match exact rebuild binding"
  else check (sha256_json (marshalPin pin) =s rj_pin_digest j) "old host-key pin changed since rebuild reservation".

Definition validRebuildPhase (p : string) : bool :=
  existsb (String.eqb p) [RebuildReserved; RebuildCloned; RebuildCutover; RebuildReady; RebuildRetiring].

Definition validateRebuildJournal (j : RebuildJournal) : res unit :=
  match Domain.Parse (rj_domain j), Session.ParseName (rj_session_name j) with
  | Er _, _ => fail "invalid rebuild domain"
  | Ok _, Er _ => fail "invalid rebuild identity or backend binding"
  | Ok parsedDomain, Ok name =>
      if parsedDomain ≠s rj_domain j then fail "invalid rebuild domain"
      else if (name ≠s rj_session_name j) || negb (rj_version j =? 1) ||
         negb (Session.validUUID (rj_session_id j)) || negb (Session.validUUID (rj_operation j)) ||
         negb (Session.validBackendObjectID (rj_old_backend j)) || negb (Session.validBackendObjectID (rj_old_revision j)) ||
         negb (Session.validBackendObjectID (rj_cand_backend j)) || negb (Session.validBackendObjectID (rj_cand_revision j)) ||
         (rj_cand_backend j ≠s Session.objectIDFor (rj_domain j) (rj_operation j)) ||
         (rj_cand_backend j =s rj_old_backend j)
      then fail "invalid rebuild identity or backend binding"
      else if negb (validRebuildPhase (rj_phase j)) then fail "invalid rebuild phase"
      else if negb (rj_pin_present j) && (rj_pin_digest j ≠s "") ||
              rj_pin_present j && negb (Session.lowerSHA256 (rj_pin_digest j))
      then fail "invalid old host-key pin witness"
      else if (rj_old_intent j ≠s "") && negb (Session.lowerSHA256 (rj_old_intent j)) ||
              (rj_cand_intent j ≠s "") && negb (Session.lowerSHA256 (rj_cand_intent j))
      then fail "invalid rebuild recipe intent digest"
      else Ok tt
  end.

(** ** Encoding *)

Definition marshalJournal (j : RebuildJournal) : json :=
  JObj ([("version", JNum (rj_version j)); ("domain", jstr (rj_domain j)); ("session_name", jstr (rj_session_name j));
         ("session_id", jstr (rj_session_id j)); ("operation_id", jstr (rj_operation j)); ("phase", jstr (rj_phase j));
         ("old_backend", jstr (rj_old_backend j)); ("old_revision", jstr (rj_old_revision j))] ++
        omitempty "old_intent_digest" (rj_old_intent j) ++
        [("candidate_backend", jstr (rj_cand_backend j)); ("candidate_revision", jstr (rj_cand_revision j))] ++
        omitempty "candidate_intent_digest" (rj_cand_intent j) ++
        [("old_pin_present", JBool (rj_pin_present j)); ("old_pin_digest", jstr (rj_pin_digest j))]).

Definition journal_field (name : string) (v : json) (j : RebuildJournal) : option (res RebuildJournal) :=
  let '(mkJournal ver dom sn sid op ph ob orev oi cb crev ci pp pd) := j in
  if name =s "version" then Some (let? x := get_int v ver in Ok (mkJournal x dom sn sid op ph ob orev oi cb crev ci pp pd))
  else if name =s "domain" then Some (let? x := get_string v dom in Ok (mkJournal ver x sn sid op ph ob orev oi cb crev ci pp pd))
  else if name =s "session_name" then Some (let? x := get_string v sn in Ok (mkJournal ver dom x sid op ph ob orev oi cb crev ci pp pd))
  else if name =s "session_id" then Some (let? x := get_string v sid in Ok (mkJournal ver dom sn x op ph ob orev oi cb crev ci pp pd))
  else if name =s "operation_id" then Some (let? x := get_string v op in Ok (mkJournal ver dom sn sid x ph ob orev oi cb crev ci pp pd))
  else if name =s "phase" then Some (let? x := get_string v ph in Ok (mkJournal ver dom sn sid op x ob orev oi cb crev ci pp pd))
  else if name =s "old_backend" then Some (let? x := get_string v ob in Ok (mkJournal ver dom sn sid op ph x orev oi cb crev ci pp pd))
  else if name =s "old_revision" then Some (let? x := get_string v orev in Ok (mkJournal ver dom sn sid op ph ob x oi cb crev ci pp pd))
  else if name =s "old_intent_digest" then Some (let? x := get_string v oi in Ok (mkJournal ver dom sn sid op ph ob orev x cb crev ci pp pd))
  else if name =s "candidate_backend" then Some (let? x := get_string v cb in Ok (mkJournal ver dom sn sid op ph ob orev oi x crev ci pp pd))
  else if name =s "candidate_revision" then Some (let? x := get_string v crev in Ok (mkJournal ver dom sn sid op ph ob orev oi cb x ci pp pd))
  else if name =s "candidate_intent_digest" then Some (let? x := get_string v ci in Ok (mkJournal ver dom sn sid op ph ob orev oi cb crev x pp pd))
  else if name =s "old_pin_present" then Some (let? x := get_bool v pp in Ok (mkJournal ver dom sn sid op ph ob orev oi cb crev ci x pd))
  else if name =s "old_pin_digest" then Some (let? x := get_string v pd in Ok (mkJournal ver dom sn sid op ph ob orev oi cb crev ci pp x))
  else None.

Definition journal_required : list string :=
  ["version"; "domain"; "session_name"; "session_id"; "operation_id"; "phase"; "old_backend"; "old_revision";
   "candidate_backend"; "candidate_revision"; "old_pin_present"; "old_pin_digest"].

Definition decodeRebuildJournal (v : json) : res RebuildJournal :=
  let? (j, seen) := decode_object journal_field v zeroJournal in
  check (seen_all journal_required seen) "missing rebuild journal field" ;;?
  validateRebuildJournal j ;;? Ok j.

(** What a file holds for one domain and session name. *)
Definition parseJournal (domainID name : string) (f : file) : res RebuildJournal :=
  let? v := single_doc maxRebuildJournalBytes f in
  let? j := decodeRebuildJournal v in
  check ((rj_domain j =s domainID) && (rj_session_name j =s name)) "rebuild journal does not match requested domain and session" ;;?
  Ok j.

Definition journalFile (j : RebuildJournal) : file := json_file (marshalJournal j).

(** The only successor of each phase. *)
Definition nextPhase (p : string) : option string :=
  if p =s RebuildReserved then Some RebuildCloned
  else if p =s RebuildCloned then Some RebuildCutover
  else if p =s RebuildCutover then Some RebuildReady
  else if p =s RebuildReady then Some RebuildRetiring
  else None.

(** ** Operations *)
Section operations.
Context {B : Type} {E : Env}.

Definition LoadRebuildJournal (expectedDomain sessionName : string) : M B RebuildJournal :=
  lift (Domain.Parse expectedDomain) ;;!
  let! name := lift (Session.ParseName sessionName) in
  let! f := fs_read Rebuilds (json_name name) in
  lift (parseJournal expectedDomain name f).

Definition RequireNoRebuild (domainID sessionName : string) : M B unit :=
  let! r := attempt (LoadRebuildJournal domainID sessionName) in
  match r with
  | Er e => if err_not_exist e then ret tt else throw (wrapw "inspect session rebuild journal" e)
  | Ok _ => throw (Errorf "session has a pending system rebuild")
  end.

Fixpoint scanRebuilds (domainID objectID : string) (entries : list (string * entry)) : M B unit :=
  match entries with
  | [] => ret tt
  | (name, kind) :: rest =>
      match kind, json_key name with
      | EDir, _ | _, None => throw (Errorf "unexpected rebuild registry entry")
      | _, Some key =>
          let! parsed := wrap "invalid rebuild registry entry" (lift (Session.ParseName key)) in
          let! journal := wrap "inspect rebuild registry entry" (LoadRebuildJournal domainID parsed) in
          guard ((rj_old_backend journal =s objectID) || (rj_cand_backend journal =s objectID))
                "backend object identity is reserved by rebuild" ;;!
          scanRebuilds domainID objectID rest
      end
  end.
Definition requireUnreservedRebuildObject (domainID objectID : string) : M B unit :=
  let! entries := fs_list Rebuilds in
  scanRebuilds domainID objectID entries.

Fixpoint scanSessions (expectedDomain name objectID : string) (entries : list (string * entry)) : M B unit :=
  match entries with
  | [] => ret tt
  | (entryName, kind) :: rest =>
      if is_temporary entryName then scanSessions expectedDomain name objectID rest
      else match kind, json_key entryName with
           | EDir, _ | _, None => throw (Errorf "unexpected session registry entry")
           | _, Some key =>
               let! owner := wrap "invalid session registry entry" (lift (Session.ParseName key)) in
               let! record := wrap "load session registry entry" (loadRecordFromRoot expectedDomain owner) in
               guard ((owner ≠s name) && (br_object_id (sr_backend record) =s objectID))
                     "backend object identity is already reserved" ;;!
               scanSessions expectedDomain name objectID rest
           end
  end.
Definition requireUnreservedBackendObject (expectedDomain name objectID : string) : M B unit :=
  requireUnreservedRebuildObject expectedDomain objectID ;;!
  let! entries := fs_list Sessions in
  scanSessions expectedDomain name objectID entries.

Definition createRebuildJournal (j : RebuildJournal) : M B unit :=
  lift (validateRebuildJournal j) ;;!
  guard (rj_phase j ≠s RebuildReserved) "new rebuild journal must reserve the candidate first" ;;!
  wrap "reserve rebuild candidate backend"
    (requireUnreservedBackendObject (rj_domain j) (rj_session_name j) (rj_cand_backend j)) ;;!
  guard (maxRebuildJournalBytes <? file_size (journalFile j))%N "rebuild journal exceeds bound" ;;!
  fs_create Rebuilds (json_name (rj_session_name j)) (journalFile j).

Definition advanceRebuildJournal (expected next : RebuildJournal) : M B unit :=
  lift (validateRebuildJournal expected) ;;!
  lift (validateRebuildJournal next) ;;!
  match nextPhase (rj_phase expected) with
  | None => throw (Errorf "rebuild phase cannot advance")
  | Some phase =>
      guard (bool_decide (next ≠ set_phase phase expected)) "rebuild journal transition changed identity or skipped phase" ;;!
      let! current := LoadRebuildJournal (rj_domain expected) (rj_session_name expected) in
      if bool_decide (current = next) then ret tt
      else
        guard (bool_decide (current ≠ expected)) "rebuild journal changed before phase advancement" ;;!
        fs_replace Rebuilds (json_name (rj_session_name expected)) (journalFile next)
  end.

Definition removeRebuildJournal (expected : RebuildJournal) : M B unit :=
  wrapv "invalid completed rebuild journal" (lift (validateRebuildJournal expected)) ;;!
  guard (rj_phase expected ≠s RebuildRetiring) "invalid completed rebuild journal" ;;!
  let! current := wrapv "rebuild journal changed before final clearance"
                    (LoadRebuildJournal (rj_domain expected) (rj_session_name expected)) in
  guard (bool_decide (current ≠ expected)) "rebuild journal changed before final clearance" ;;!
  fs_remove Rebuilds (json_name (rj_session_name expected)).

Definition syncRebuildJournalRegistry : M B unit := fs_sync Rebuilds.
End operations.

#[global] Arguments validateRebuildJournal : simpl never.

(** ** Lemmas *)

(** The session's journal, as its readers see it. *)
Definition journal_at (domainID name : string) (k : disk) : option RebuildJournal :=
  view (parseJournal domainID name) Rebuilds (json_name name) k.

(** Validity written out. *)
Record journal_ok (j : RebuildJournal) : Prop := {
  jo_version : rj_version j = 1;
  jo_domain : Lock.validDomain (rj_domain j) = true;
  jo_name : Lock.validSessionName (rj_session_name j) = true;
  jo_session : Session.validUUID (rj_session_id j) = true;
  jo_operation : Session.validUUID (rj_operation j) = true;
  jo_old : Session.validBackendObjectID (rj_old_backend j) = true;
  jo_old_rev : Session.validBackendObjectID (rj_old_revision j) = true;
  jo_cand : Session.validBackendObjectID (rj_cand_backend j) = true;
  jo_cand_rev : Session.validBackendObjectID (rj_cand_revision j) = true;
  jo_derived : rj_cand_backend j = Session.objectIDFor (rj_domain j) (rj_operation j);
  jo_distinct : rj_cand_backend j ≠ rj_old_backend j;
  jo_phase : validRebuildPhase (rj_phase j) = true;
  jo_pin : if rj_pin_present j then Session.lowerSHA256 (rj_pin_digest j) = true else rj_pin_digest j = "";
  jo_old_intent : rj_old_intent j = "" ∨ Session.lowerSHA256 (rj_old_intent j) = true;
  jo_cand_intent : rj_cand_intent j = "" ∨ Session.lowerSHA256 (rj_cand_intent j) = true;
}.

Lemma or_empty (s : string) (b : bool) : (s ≠s "") && negb b = false ↔ s = "" ∨ b = true.
Proof. rewrite andb_false_iff, neqs_false, negb_false_iff. tauto. Qed.

Lemma validateRebuildJournal_ok j u : validateRebuildJournal j = Ok u ↔ journal_ok j.
Proof.
  unfold validateRebuildJournal, fail. destruct u. split.
  - destruct (Domain.Parse _) as [d|] eqn:Hd; [|done]. destruct (Session.ParseName _) as [n|] eqn:Hn; [|done].
    apply Parse_ok in Hd as [-> Hd]. apply ParseName_ok in Hn as [-> Hn]. rewrite !eqs_refl. cbn [negb orb].
    destruct (_ || _) eqn:E1; [done|]. destruct (negb (validRebuildPhase _)) eqn:E2; [done|].
    destruct (_ || _) eqn:E3 in |- *; [done|]. destruct (_ || _) eqn:E4 in |- *; [done|]. intros _.
    apply orb_false_iff in E4 as [E4 E5]. rewrite or_empty in E4, E5. bsimpl. constructor; auto.
    destruct (rj_pin_present j); cbn in *; [by bsimpl|by apply neqs_false].
  - intros [].
    destruct (Domain.Parse (rj_domain j)) as [d|e] eqn:Hd.
    2:{ exfalso. pose proof (proj2 (Parse_ok (rj_domain j) (rj_domain j)) (conj eq_refl jo_domain0)). congruence. }
    apply Parse_ok in Hd as [-> _].
    destruct (Session.ParseName (rj_session_name j)) as [n|e] eqn:Hn.
    2:{ exfalso. pose proof (proj2 (ParseName_ok _ (rj_session_name j)) (conj eq_refl jo_name0)). congruence. }
    apply ParseName_ok in Hn as [-> _].
    rewrite !eqs_refl, jo_version0, jo_session0, jo_operation0, jo_old0, jo_old_rev0, jo_cand0, jo_cand_rev0, jo_phase0, <-jo_derived0, !eqs_refl.
    apply eqs_false in jo_distinct0 as ->. cbn [negb orb Z.eqb Pos.eqb].
    destruct (rj_pin_present j); rewrite jo_pin0; cbn [negb andb orb];
      (apply or_empty in jo_old_intent0 as ->); (apply or_empty in jo_cand_intent0 as ->); done.
Qed.

Lemma coerce_phase p : validRebuildPhase p = true → coerce_utf8 p = p.
Proof. intros H%in_literals. set_solver. Qed.
Lemma phase_length p : validRebuildPhase p = true → (String.length p ≤ 8)%nat ∧ str_all plain_byte p = true.
Proof. intros H%in_literals. set_unfold. destruct_or!; subst; (split; [cbn; lia|reflexivity]). Qed.

(** The journal as written is the journal as read, and always fits its bound. *)
Lemma decode_marshal_journal j : journal_ok j → decodeRebuildJournal (marshalJournal j) = Ok j.
Proof.
  intros Hj. pose proof Hj as []. unfold decodeRebuildJournal, decode_object, marshalJournal, jstr, omitempty.
  assert (int64_ok (rj_version j) = true) as Hv by (by rewrite jo_version0).
  assert (coerce_utf8 (rj_pin_digest j) = rj_pin_digest j) as Hp.
  { destruct (rj_pin_present j); [by apply coerce_sha|by rewrite jo_pin0]. }
  assert (∀ s, s = "" ∨ Session.lowerSHA256 s = true → coerce_utf8 s = s) as Hi by (intros s [->|?]; [done|by apply coerce_sha]).
  pose proof (Hi _ jo_old_intent0) as Ho. pose proof (Hi _ jo_cand_intent0) as Hc.
  apply validateRebuildJournal_ok with (u := tt) in Hj.
  destruct j as [ver dom sn sid op ph ob orev oi cb crev ci pp pd]; cbn in *.
  apply coerce_ident in jo_domain0, jo_name0. apply coerce_uuid in jo_session0, jo_operation0. apply coerce_phase in jo_phase0.
  pose proof (coerce_objectid ob ltac:(done)) as K1. pose proof (coerce_objectid orev ltac:(done)) as K2.
  pose proof (coerce_objectid cb ltac:(done)) as K3. pose proof (coerce_objectid crev ltac:(done)) as K4.
  destruct (oi =s "") eqn:E1, (ci =s "") eqn:E2; bsimpl; subst;
    cbn -[validateRebuildJournal]; rewrite Hv; cbn -[validateRebuildJournal];
    by rewrite ?Ho, ?Hc, jo_domain0, jo_name0, jo_session0, jo_operation0, jo_phase0, K1, K2, K3, K4, Hp, Hj.
Qed.

Lemma journal_size j : journal_ok j → (file_size (journalFile j) ≤ 2048)%N.
Proof.
  intros []. unfold journalFile, json_file, marshalJournal. cbn [file_size app].
  pose proof (phase_length _ jo_phase0) as [Hl Hp].
  assert (rj_pin_digest j = "" ∨ Session.lowerSHA256 (rj_pin_digest j) = true) as Hd by (destruct (rj_pin_present j); auto).
  apply plain_ident in jo_domain0 as (?&?&?), jo_name0 as (?&?&?).
  apply plain_uuid in jo_session0 as (?&?&?), jo_operation0 as (?&?&?).
  apply plain_objectid in jo_old0 as (?&?&?), jo_old_rev0 as (?&?&?), jo_cand0 as (?&?&?), jo_cand_rev0 as (?&?&?).
  apply plain_sha in Hd as (?&?&?), jo_old_intent0 as (?&?&?), jo_cand_intent0 as (?&?&?).
  pose proof (coerce_phase _ jo_phase0).
  rewrite jo_version0.
  eapply N.le_trans; [apply N.add_le_mono_r|].
  { etrans; [apply obj_size_cons|]. apply N.add_le_mono_l.
    repeat (etrans; [first [eapply plain_jstr_field_size; eassumption|eapply plain_omitempty_size; eassumption|apply obj_size_cons]|apply N.add_le_mono_l]).
    reflexivity. }
  assert (json_size (JBool (rj_pin_present j)) ≤ 5)%N by (destruct (rj_pin_present j); done).
  change (json_size (JNum 1)) with 1%N. change (json_size (JObj [])) with 2%N.
  repeat match goal with |- context [str_size ?s] => let v := eval vm_compute in (str_size s) in change (str_size s) with v end.
  lia.
Qed.

Lemma plain_validateRebuildJournal j : plain (validateRebuildJournal j).
Proof. unfold validateRebuildJournal. plain_tac. Qed.
Lemma plain_parseJournal dom name f : plain (parseJournal dom name f).
Proof.
  unfold parseJournal, decodeRebuildJournal. plain_tac; try apply plain_validateRebuildJournal.
  apply plain_decode_object. unfold journal_field. intros n v [] r. plain_cases.
Qed.
#[export] Hint Resolve plain_validateRebuildJournal plain_parseJournal : plain.

Lemma parse_journalFile j : journal_ok j → parseJournal (rj_domain j) (rj_session_name j) (journalFile j) = Ok j.
Proof.
  intros Hj. unfold parseJournal, single_doc. pose proof (journal_size _ Hj) as Hs.
  replace (maxRebuildJournalBytes <? file_size (journalFile j))%N with false
    by (symmetry; apply N.ltb_ge; unfold maxRebuildJournalBytes; lia).
  cbn [journalFile json_file file_docs res_bind]. rewrite (decode_marshal_journal _ Hj). cbn [res_bind].
  by rewrite !eqs_refl.
Qed.
Lemma parseJournal_ok dom name f j :
  parseJournal dom name f = Ok j → rj_domain j = dom ∧ rj_session_name j = name ∧ journal_ok j.
Proof.
  unfold parseJournal, decodeRebuildJournal. intros H. res_inv H. apply check_ok in Ha1. bsimpl. injection H as <-.
  split; [done|]. split; [done|]. apply res_bind_ok in Ha0 as ([j' seen] & _ & Ha0).
  apply res_bind_ok in Ha0 as (? & _ & Ha0). apply res_bind_ok in Ha0 as (? & Hv & Ha0).
  injection Ha0 as <-. by eapply validateRebuildJournal_ok.
Qed.
Lemma journal_at_ok dom name k j :
  journal_at dom name k = Some j → rj_domain j = dom ∧ rj_session_name j = name ∧ journal_ok j.
Proof. intros (f & _ & H)%view_Some. by eapply parseJournal_ok. Qed.
Lemma journal_at_written j k :
  journal_ok j → journal_at (rj_domain j) (rj_session_name j) (<[(Rebuilds, json_name (rj_session_name j)) := EFile (journalFile j)]> k) = Some j.
Proof. intros Hj. by apply view_insert, parse_journalFile. Qed.

Section lemmas.
Context {B : Type} {E : Env}.
Implicit Types w : world B.

Lemma quiet_LoadRebuildJournal dom name : quiet (LoadRebuildJournal dom name : M B _).
Proof. unfold LoadRebuildJournal. quiet_tac. Qed.
Lemma quiet_RequireNoRebuild dom name : quiet (RequireNoRebuild dom name : M B _).
Proof. unfold RequireNoRebuild. quiet_tac; apply quiet_LoadRebuildJournal. Qed.
Lemma quiet_scanRebuilds dom obj entries : quiet (scanRebuilds dom obj entries : M B _).
Proof. induction entries as [|[name kind] rest IH]; cbn [scanRebuilds]; quiet_tac; try apply quiet_LoadRebuildJournal. Qed.
Lemma quiet_scanSessions dom name obj entries : quiet (scanSessions dom name obj entries : M B _).
Proof. induction entries as [|[n kind] rest IH]; cbn [scanSessions]; quiet_tac. Qed.
Lemma quiet_requireUnreservedRebuildObject dom obj : quiet (requireUnreservedRebuildObject dom obj : M B _).
Proof. unfold requireUnreservedRebuildObject. quiet_tac; apply quiet_scanRebuilds. Qed.
Lemma quiet_requireUnreservedBackendObject dom name obj : quiet (requireUnreservedBackendObject dom name obj : M B _).
Proof. unfold requireUnreservedBackendObject. quiet_tac; [apply quiet_requireUnreservedRebuildObject|apply quiet_scanSessions]. Qed.

Lemma LoadRebuildJournal_ok dom name w j w' :
  LoadRebuildJournal dom name w = (Ok j, w') → journal_at dom name (w_disk w) = Some j.
Proof.
  unfold LoadRebuildJournal. intros H. ok_inv. apply ParseName_ok in Ha0 as [-> _]. apply fs_read_ok in Ha1 as [Hf ->].
  apply view_Some. eauto.
Qed.
Lemma LoadRebuildJournal_not_exist dom name w e w' :
  LoadRebuildJournal dom name w = (Er e, w') → err_not_exist e = true → w_disk w !! (Rebuilds, json_name name) = None.
Proof.
  unfold LoadRebuildJournal. intros H He.
  apply lift_bind_er in H as [H|(d & Hd & H)]; [by rewrite (plain_Parse _ _ H) in He|].
  apply lift_bind_er in H as [H|(n & Hn & H)]; [by rewrite (plain_ParseName _ _ H) in He|].
  apply ParseName_ok in Hn as [-> _].
  apply bind_er in H as [H|(f & w1 & Hf & H)]; [by eapply fs_read_not_exist|].
  apply lift_er in H as [H _]. by rewrite (plain_parseJournal _ _ _ _ H) in He.
Qed.
Lemma RequireNoRebuild_ok dom name w u w' :
  RequireNoRebuild dom name w = (Ok u, w') → w_disk w !! (Rebuilds, json_name name) = None.
Proof.
  unfold RequireNoRebuild. intros H. ok_inv. destruct a as [j|e]; ok_inv.
  destruct (err_not_exist e) eqn:He; ok_inv. by eapply LoadRebuildJournal_not_exist.
Qed.

Lemma scanRebuilds_ok dom obj entries w u w' :
  scanRebuilds dom obj entries w = (Ok u, w') →
  ∀ name e, (name, e) ∈ entries → ∃ key j, name = json_name key ∧ journal_at dom key (w_disk w) = Some j ∧
    rj_old_backend j ≠ obj ∧ rj_cand_backend j ≠ obj.
Proof.
  revert w. induction entries as [|[name kind] rest IH]; intros w H; cbn [scanRebuilds] in H.
  { intros n e Hin. by apply not_elem_of_nil in Hin. }
  assert (∃ key, json_key name = Some key ∧ ∃ parsed j w1,
    Session.ParseName key = Ok parsed ∧ LoadRebuildJournal dom parsed w = (Ok j, w1) ∧
    (rj_old_backend j =s obj) || (rj_cand_backend j =s obj) = false ∧
    scanRebuilds dom obj rest w1 = (Ok u, w')) as (key & Hkey & parsed & j & w1 & Hp & Hj & Hne & Hl).
  { destruct kind; destruct (json_key name) as [key|]; try (exfalso; ok_inv; done);
      exists key; (split; [done|]); ok_inv; eauto 10. }
  apply json_key_ok in Hkey as ->. apply ParseName_ok in Hp as [-> _].
  destruct (quiet_LoadRebuildJournal dom key w) as (x & n & Hq). rewrite Hq in Hj. injection Hj as -> <-.
  apply LoadRebuildJournal_ok in Hq. bsimpl. intros n' e [[= -> ->]|Hin]%elem_of_cons; [by exists key, j|exact (IH _ Hl _ _ Hin)].
Qed.
Lemma scanSessions_ok dom me obj entries w u w' :
  scanSessions dom me obj entries w = (Ok u, w') →
  ∀ name e, (name, e) ∈ entries → is_temporary name = false →
    ∃ key r, name = json_name key ∧ session_at dom key (w_disk w) = Some r ∧
      (key = me ∨ br_object_id (sr_backend r) ≠ obj).
Proof.
  revert w. induction entries as [|[name kind] rest IH]; intros w H; cbn [scanSessions] in H.
  { intros n e Hin. by apply not_elem_of_nil in Hin. }
  destruct (is_temporary name) eqn:Et.
  { intros n e [[= -> ->]|Hin]%elem_of_cons Ht; [congruence|by eapply IH]. }
  assert (∃ key, json_key name = Some key ∧ ∃ parsed r w1,
    Session.ParseName key = Ok parsed ∧ loadRecordFromRoot dom parsed w = (Ok r, w1) ∧
    (parsed ≠s me) && (br_object_id (sr_backend r) =s obj) = false ∧
    scanSessions dom me obj rest w1 = (Ok u, w')) as (key & Hkey & parsed & r & w1 & Hp & Hr & Hne & Hl).
  { destruct kind; destruct (json_key name) as [key|]; try (exfalso; ok_inv; done);
      exists key; (split; [done|]); ok_inv; eauto 10. }
  apply json_key_ok in Hkey as ->. apply ParseName_ok in Hp as [-> _].
  destruct (quiet_loadRecordFromRoot dom key w) as (x & n & Hq). rewrite Hq in Hr. injection Hr as -> <-.
  apply loadRecordFromRoot_ok in Hq. intros n' e [[= -> ->]|Hin]%elem_of_cons Ht; [|exact (IH _ Hl _ _ Hin Ht)].
  exists key, r. split; [done|]. split; [done|]. apply andb_false_iff in Hne as [Hne|Hne].
  - left. by apply neqs_false.
  - right. by apply eqs_false.
Qed.
Lemma requireUnreservedBackendObject_ok (dom me obj : string) w (u : unit) w' :
  requireUnreservedBackendObject dom me obj w = (Ok u, w') →
  (∀ name e, (name, e) ∈ dir_entries Rebuilds (w_disk w) → ∃ key j, name = json_name key ∧
     journal_at dom key (w_disk w) = Some j ∧ rj_old_backend j ≠ obj ∧ rj_cand_backend j ≠ obj) ∧
  (∀ name e, (name, e) ∈ dir_entries Sessions (w_disk w) → is_temporary name = false →
     ∃ key r, name = json_name key ∧ session_at dom key (w_disk w) = Some r ∧ (key = me ∨ br_object_id (sr_backend r) ≠ obj)) ∧
  w_disk w' = w_disk w.
Proof.
  unfold requireUnreservedBackendObject, requireUnreservedRebuildObject. intros H.
  apply bind_ok in H as ([] & w2 & H1 & H). apply bind_ok in H1 as (l1 & w1 & [-> ->]%fs_list_ok & H1).
  apply bind_ok in H as (l2 & w3 & [-> ->]%fs_list_ok & H).
  pose proof (scanRebuilds_ok _ _ _ _ _ _ H1) as HR. pose proof (scanSessions_ok _ _ _ _ _ _ _ H) as HS.
  destruct (quiet_scanRebuilds dom obj (dir_entries Rebuilds (w_disk w)) (tick w)) as (x & m & Hs).
  rewrite Hs in H1. injection H1 as -> <-. cbn [w_disk tick retick] in *.
  destruct (quiet_scanSessions dom me obj (dir_entries Sessions (w_disk w)) (tick (retick m (tick w)))) as (y & m' & Hs').
  rewrite Hs' in H. injection H as -> <-. split; [done|]. split; [done|done].
Qed.

(** No other session and no rebuild names the object. *)
Definition unreserved (dom me obj : string) (k : disk) : Prop :=
  (∀ name r, session_at dom name k = Some r → name ≠ me → br_object_id (sr_backend r) ≠ obj) ∧
  (∀ name j, journal_at dom name k = Some j → rj_old_backend j ≠ obj ∧ rj_cand_backend j ≠ obj).
Lemma requireUnreserved_unreserved (dom me obj : string) w (u : unit) w' :
  requireUnreservedBackendObject dom me obj w = (Ok u, w') → unreserved dom me obj (w_disk w) ∧ w_disk w' = w_disk w.
Proof.
  intros H. apply requireUnreservedBackendObject_ok in H as (HR & HS & Hd0). split; [|done]. split.
  - intros name r Hr Hne. pose proof (session_at_ok _ _ _ _ Hr) as (_ & Hn & _).
    apply view_Some in Hr as Hf. destruct Hf as (f & Hf & _). apply dir_entries_spec in Hf.
    destruct (HS _ _ Hf (valid_name_not_temporary _ Hn)) as (key & r' & Hk & Hr' & [->|Hd]).
    + by apply json_name_inj in Hk.
    + apply json_name_inj in Hk as <-. congruence.
  - intros name j Hj. apply view_Some in Hj as Hf. destruct Hf as (f & Hf & _). apply dir_entries_spec in Hf.
    destruct (HR _ _ Hf) as (key & j' & Hk & Hj' & Hd). apply json_name_inj in Hk as <-. congruence.
Qed.
End lemmas.
#[export] Hint Resolve quiet_LoadRebuildJournal quiet_RequireNoRebuild quiet_requireUnreservedBackendObject : quiet.

(** An entry of the rebuild registry that is not named as a journal, such as
    the temporary file an interrupted phase advance leaves. *)
Record stray (name : string) (k : disk) : Prop := {
  stray_key : json_key name = None;
  stray_entry : is_Some (k !! (Rebuilds, name));
}.
Lemma stray_left_alone {E : Env} name k k' : untouched (Rebuilds, name) → left_alone k k' → stray name k → stray name k'.
Proof. intros Hu Hk [Hn He]. constructor; [done|]. by rewrite (Hk _ Hu). Qed.
Lemma stray_unreserved {B} {E : Env} (dom me obj name : string) (w w' : world B) r :
  stray name (w_disk w) → requireUnreservedBackendObject dom me obj w = (r, w') → is_ok r = false.
Proof.
  intros [Hkey [e Hk]] Hr. destruct r as [u|er]; [|done]. exfalso.
  apply requireUnreservedBackendObject_ok in Hr as (HR & _). apply dir_entries_spec in Hk.
  destruct (HR _ _ Hk) as (key & j & -> & _). by rewrite json_key_name in Hkey.
Qed.
Lemma wp_createRebuildJournal_stray {B} {E : Env} P name j (Q : res unit → world B → Prop) w :
  stray name (w_disk w) → (∀ e n, Q (Er e) (retick n w)) → wp P (createRebuildJournal j) Q w.
Proof.
  intros Hst HQ. unfold createRebuildJournal. apply wp_bind, wp_lift.
  destruct (validateRebuildJournal j) as [u|e]; [|rewrite (retick_self w); apply HQ].
  wp_guard as _ by (rewrite (retick_self w); apply HQ).
  apply wp_bind, wp_wrap, wp_quiet; [auto with quiet|]. intros [u2|e] n Hun; [|apply HQ].
  by apply (stray_unreserved _ _ _ name) in Hun.
Qed.

Section advance.
Context {B : Type} {E : Env}.
Implicit Types w : world B.

Definition journal_event (j : RebuildJournal) : event :=
  EvPublish Rebuilds (json_name (rj_session_name j)) (journalFile j).
Definition journal_disk (j : RebuildJournal) (k : disk) : disk :=
  <[(Rebuilds, json_name (rj_session_name j)) := EFile (journalFile j)]> k.

Lemma set_phase_name p j : rj_session_name (set_phase p j) = rj_session_name j.
Proof. done. Qed.

Lemma wp_advance P expected next (Q : res unit → world B → Prop) w :
  (∀ ph n, nextPhase (rj_phase expected) = Some ph → next = set_phase ph expected →
     journal_ok expected → journal_ok next →
     journal_at (rj_domain expected) (rj_session_name expected) (w_disk w) = Some expected →
     P (w_trace w) (Step (journal_event next) (w_disk w) (journal_disk next (w_disk w)) (w_locks w)) ∧
     ∀ r, Q r (did (journal_event next) (journal_disk next (w_disk w)) (retick n w))) →
  (∀ n, journal_at (rj_domain expected) (rj_session_name expected) (w_disk w) = Some next → Q (Ok tt) (retick n w)) →
  (∀ e n, Q (Er e) (retick n w)) →
  wp P (advanceRebuildJournal expected next) Q w.
Proof.
  intros H1 H2 H3. unfold advanceRebuildJournal. apply wp_bind, wp_lift.
  destruct (validateRebuildJournal expected) as [u|e] eqn:Ev; [|rewrite (retick_self w); apply H3].
  apply validateRebuildJournal_ok in Ev. apply wp_bind, wp_lift.
  destruct (validateRebuildJournal next) as [u'|e] eqn:En; [|rewrite (retick_self w); apply H3].
  apply validateRebuildJournal_ok in En.
  destruct (nextPhase (rj_phase expected)) as [ph|] eqn:Ep; [|apply wp_throw; rewrite (retick_self w); apply H3].
  apply wp_bind, wp_guard; [|intros _; rewrite (retick_self w); apply H3].
  intros Hn%bool_decide_eq_false. apply dec_stable in Hn.
  apply wp_bind, wp_quiet; [apply quiet_LoadRebuildJournal|]. intros [cur|e] n Hl; [|apply H3].
  apply LoadRebuildJournal_ok in Hl. case_bool_decide as Hc; [subst cur; by apply wp_ret, H2|].
  apply wp_bind, wp_guard; [|intros _; apply H3].
  intros He%bool_decide_eq_false. apply dec_stable in He. subst cur.
  destruct (H1 ph n eq_refl Hn Ev En Hl) as [HP HQ].
  assert (rj_session_name next = rj_session_name expected) as Hname by (by rewrite Hn).
  unfold journal_event, journal_disk in *. rewrite Hname in *.
  apply wp_fs_replace; [done|done|]. intros e _. apply H3.
Qed.

(** A journal that does not exist yet is created, complete or torn. *)
Lemma wp_createRebuildJournal P j (Q : res unit → world B → Prop) w :
  (journal_ok j → rj_phase j = RebuildReserved → unreserved (rj_domain j) (rj_session_name j) (rj_cand_backend j) (w_disk w) →
   w_disk w !! (Rebuilds, json_name (rj_session_name j)) = None →
   ∀ f n, let k := <[(Rebuilds, json_name (rj_session_name j)) := EFile f]> (w_disk w) in
     P (w_trace w) (Step (EvCreate Rebuilds (json_name (rj_session_name j)) (journalFile j)) (w_disk w) k (w_locks w)) ∧
     (f = journalFile j → Q (Ok tt) (did (EvCreate Rebuilds (json_name (rj_session_name j)) (journalFile j)) k (retick n w))) ∧
     ∀ e, Q (Er e) (did (EvCreate Rebuilds (json_name (rj_session_name j)) (journalFile j)) k (retick n w))) →
  (∀ e n, Q (Er e) (retick n w)) →
  wp P (createRebuildJournal j) Q w.
Proof.
  intros H1 H2. unfold createRebuildJournal. apply wp_bind, wp_lift.
  destruct (validateRebuildJournal j) as [u|e] eqn:Ev; [|rewrite (retick_self w); apply H2]. apply validateRebuildJournal_ok in Ev.
  wp_guard as Hp%neqs_false by (rewrite (retick_self w); apply H2).
  apply wp_bind, wp_wrap, wp_quiet; [auto with quiet|]. intros [u2|e] n Hun; [|apply H2].
  apply requireUnreserved_unreserved in Hun as [Hun _].
  wp_guard as _ by apply H2.
  apply wp_fs_create; [|intros e _; apply H2]. cbn [w_disk retick]. intros Hk f _. cbv zeta. by apply H1.
Qed.
Lemma wp_removeRebuildJournal P j (Q : res unit → world B → Prop) w :
  (rj_phase j = RebuildRetiring → journal_at (rj_domain j) (rj_session_name j) (w_disk w) = Some j →
   let key := (Rebuilds, json_name (rj_session_name j)) in let k := delete key (w_disk w) in
   P (w_trace w) (Step (EvRemove Rebuilds (json_name (rj_session_name j))) (w_disk w) k (w_locks w)) ∧
   ∀ r n, Q r (did (EvRemove Rebuilds (json_name (rj_session_name j))) k (retick n w))) →
  (∀ e n, Q (Er e) (retick n w)) →
  wp P (removeRebuildJournal j) Q w.
Proof.
  intros H1 H2. unfold removeRebuildJournal. apply wp_bind, wp_wrapv, wp_lift.
  destruct (validateRebuildJournal j) as [u|e]; [|rewrite (retick_self w); apply H2]. cbn beta iota.
  wp_guard as Hp%neqs_false by (rewrite (retick_self w); apply H2).
  wp_read as cur n Hc by apply H2. apply LoadRebuildJournal_ok in Hc.
  wp_guard as Heq%bool_decide_eq_false by apply H2. apply dec_stable in Heq as ->.
  apply wp_fs_remove; [|intros e; apply H2]. intros e Hk. cbv zeta. destruct (H1 Hp Hc) as [HP HQ]. split; [exact HP|]. intros r. apply HQ.
Qed.
End advance.

(** ** Properties *)

(** Every valid journal is decoded back from its own encoding
    unchanged, and its file is smaller than the bound all readers enforce, so
    the size check before creation never rejects one and an advanced journal can
    always be read again. *)
Theorem journal_roundtrip (j : RebuildJournal) (k : disk) :
  validateRebuildJournal j = Ok tt →
  decodeRebuildJournal (marshalJournal j) = Ok j ∧
  (file_size (journalFile j) ≤ maxRebuildJournalBytes)%N ∧
  journal_at (rj_domain j) (rj_session_name j) (journal_disk j k) = Some j.
Proof.
  intros Hj%validateRebuildJournal_ok. split; [by apply decode_marshal_journal|]. split; [|by apply journal_at_written].
  pose proof (journal_size _ Hj). unfold maxRebuildJournalBytes. lia.
Qed.
Definition example_journal : RebuildJournal :=
  mkJournal 1 "work" "dev" "01234567-89ab-4def-8123-456789abcdef" "11111111-2222-4333-8444-555555555555" RebuildReserved
    "boxwarden-work-0123456789ab4def8123456789abcdef" "base-1" "" "boxwarden-work-11111111222243338444555555555555" "base-2" ""
    false "".
Lemma journal_roundtrip_witness :
  validateRebuildJournal example_journal = Ok tt ∧ decodeRebuildJournal (marshalJournal example_journal) = Ok example_journal.
Proof. split; [reflexivity|]. apply (journal_roundtrip example_journal ∅). reflexivity. Defined.

(** Advancing a journal either leaves the files as they are or replaces
    this session's journal, found equal to the expected one, by the same journal
    in the one phase that follows; success means the next journal is what a
    reader now finds, whatever failed before; and a caller that repeats an
    advance whose effect already reached the disk succeeds without writing. *)
Theorem advance_one_step `{E : Env} {B} (expected next : RebuildJournal) (w : world B) :
  let r := (advanceRebuildJournal expected next w).1 in let w' := (advanceRebuildJournal expected next w).2 in
  let at_ k := journal_at (rj_domain expected) (rj_session_name expected) k in
  (w_disk w' = w_disk w ∨
   (∃ ph, nextPhase (rj_phase expected) = Some ph ∧ next = set_phase ph expected) ∧
   at_ (w_disk w) = Some expected ∧ w_disk w' = journal_disk next (w_disk w)) ∧
  (r = Ok tt → at_ (w_disk w') = Some next) ∧
  (at_ (w_disk w) = Some next → w_disk w' = w_disk w).
Proof.
  pose proof (wp_advance (λ _ _, True) expected next (λ r w',
    (w_disk w' = w_disk w ∧ (r = Ok tt → journal_at (rj_domain expected) (rj_session_name expected) (w_disk w) = Some next)) ∨
    (∃ ph, nextPhase (rj_phase expected) = Some ph ∧ next = set_phase ph expected) ∧ journal_ok next ∧ next ≠ expected ∧
    journal_at (rj_domain expected) (rj_session_name expected) (w_disk w) = Some expected ∧ w_disk w' = journal_disk next (w_disk w)) w) as H.
  unfold wp in H. destruct (advanceRebuildJournal expected next w) as [r w']. cbn [fst snd]. cbv zeta.
  destruct H as [H _].
  - intros ph n Hp Hn He Hk Ha. split; [done|]. intros r0. right. split; [by exists ph|]. split; [done|]. split; [|done].
    intros Heq. rewrite Hn in Heq. apply (f_equal rj_phase) in Heq. cbn in Heq. subst ph. clear -Hp.
    unfold nextPhase in Hp. repeat case_match; bsimpl; simplify_eq; congruence.
  - intros n Ha. by left.
  - intros e n. by left.
  - destruct H as [[Hd Hr]|((ph & Hp & Hn) & Hk & Hne & Ha & Hd)].
    + split; [by left|]. rewrite Hd. done.
    + split; [right; by eauto|]. rewrite Hd. split; [|congruence]. intros _.
      assert (rj_domain next = rj_domain expected ∧ rj_session_name next = rj_session_name expected) as [<- <-] by (by rewrite Hn).
      by apply journal_at_written.
Qed.

(** The gate every ordinary mutation passes opens exactly when the
    session has no journal entry of any kind: a valid, corrupt, foreign or
    unsafe journal, and a failed read, all close it. *)
Theorem no_rebuild_gate_exact `{E : Env} {B} (dom name : string) (w : world B) :
  (RequireNoRebuild dom name w).1 = Ok tt ↔
  Lock.validDomain dom = true ∧ Lock.validSessionName name = true ∧ env_fault (w_tick w) = NoFault ∧
  w_disk w !! (Rebuilds, json_name name) = None.
Proof.
  split.
  - intros H. destruct (RequireNoRebuild dom name w) as [r w'] eqn:Er. cbn in H. subst r.
    pose proof (RequireNoRebuild_ok _ _ _ _ _ Er) as Hn. revert Er.
    unfold RequireNoRebuild, LoadRebuildJournal, bind, attempt, lift, ret, throw, fs_read, now_fault. rewrite Hn.
    destruct (Domain.Parse dom) as [d|e] eqn:Ed.
    2:{ rewrite (plain_Parse _ _ Ed). done. }
    destruct (Session.ParseName name) as [n|e] eqn:En.
    2:{ rewrite (plain_ParseName _ _ En). done. }
    apply Parse_ok in Ed as [-> ?]. apply ParseName_ok in En as [-> ?]. rewrite Hn.
    destruct (env_fault (w_tick w)); done.
  - intros (Hd & Hn & Hf & Hk). unfold RequireNoRebuild, LoadRebuildJournal, bind, attempt, lift, ret, throw, fs_read, now_fault.
    rewrite (proj2 (Parse_ok dom dom) (conj eq_refl Hd)), (proj2 (ParseName_ok name name) (conj eq_refl Hn)).
    by rewrite Hf, Hk.
Qed.

(** A backend object that passes the reservation scan is named by no
    other session of the domain and by no rebuild journal, neither as the old
    system nor as the candidate. *)
Theorem reservation_exclusive `{E : Env} {B} (dom me obj : string) (w w' : world B) (u : unit) :
  requireUnreservedBackendObject dom me obj w = (Ok u, w') →
  (∀ name r, session_at dom name (w_disk w) = Some r → name ≠ me → br_object_id (sr_backend r) ≠ obj) ∧
  (∀ name j, journal_at dom name (w_disk w) = Some j → rj_old_backend j ≠ obj ∧ rj_cand_backend j ≠ obj) ∧
  w_disk w' = w_disk w.
Proof. by intros [[HS HR] Hd]%requireUnreserved_unreserved. Qed.
Section witnesses.
#[local] Existing Instance quietEnv.
Definition oneJournal : world unit :=
  worldOf {[ (Rebuilds, "dev.json") := EFile (journalFile example_journal);
             (Sessions, "dev.json") := EFile (sessionFile example_record) ]} tt.
Lemma reservation_exclusive_witness : rj_old_backend example_journal ≠ "boxwarden-work-other" ∧
  rj_cand_backend example_journal ≠ "boxwarden-work-other".
Proof.
  refine (proj1 (proj2 (reservation_exclusive "work" "dev" "boxwarden-work-other" oneJournal
    (requireUnreservedBackendObject "work" "dev" "boxwarden-work-other" oneJournal).2 tt _)) "dev" example_journal _).
  - vm_compute. reflexivity.
  - vm_compute. reflexivity.
Defined.
End witnesses.
