(* ===== verification/ProjectReplace.v ===== *)
(** Replacing the system behind a project bookmark
    (src/internal/projectx/replacement.go) and listing the registry (list.go):
    a pending intent, an immutable history receipt, the bookmark itself, and the
    removal of the intent, each one publication, in an order that any failure and
    any retry preserves. *)
From S2P Require Import Prelude Ids Json JsonText Recipe Selection SessionRecord Outside World Logic RebuildJournal Projects.

(** ** Replacement receipts *)

Record Replacement := mkReplacement {
  rp_version : Z; rp_before : Project; rp_operation : string; rp_object : string; rp_base : string; rp_intent : string }.
#[export] Instance Replacement_eq_dec : EqDecision Replacement.
Proof. solve_decision. Defined.
Definition zeroReplacement : Replacement := mkReplacement 0 zeroProject "" "" "" "".

(** The frozen tuple as a rebuild journal; the pin witness is not part of it. *)
Definition Witness (r : Replacement) : RebuildJournal :=
  let b := rp_before r in
  mkJournal 1 (pr_domain b) (pr_name b) (pr_session b) (rp_operation r) RebuildCloned (pr_object b) (pr_base b) (pr_intent b)
    (rp_object r) (rp_base r) (rp_intent r) false "".

(** The bookmark of the replaced system. *)
Definition Next (r : Replacement) : Project :=
  let '(mkProject version domain name base volume filesystem size session object initialized import source imported intent selection) := rp_before r in
  mkProject (if version =? 3 then version else if rp_intent r ≠s "" then 2 else 1) domain name (rp_base r) volume filesystem size session
    (rp_object r) initialized import source imported (rp_intent r) selection.
Definition replacementName (name : string) : string := ".replacement-" +:+ name +:+ ".json".
Definition replacementHistory (r : Replacement) : string := ".replacement-history-" +:+ rp_operation r +:+ ".json".

Definition validateReplacement (d : string) (r : Replacement) : res unit :=
  validateRecord d (rp_before r) ;;?
  check (((rp_version r =? 1) || (rp_version r =? 2)) && pr_initialized (rp_before r) && Session.validUUID (rp_operation r) &&
         (rp_object r =s Session.objectIDFor d (rp_operation r)) && (rp_object r ≠s pr_object (rp_before r)))
        "invalid project replacement identity" ;;?
  check (negb ((rp_version r =? 1) && ((pr_intent (rp_before r) ≠s "") || (rp_intent r ≠s "")) ||
               (rp_version r =? 2) && (pr_intent (rp_before r) =s "") && (rp_intent r =s "")))
        "project replacement version differs from recipe binding" ;;?
  validateRecord d (Next r).

Definition replacementFields : list string := ["version"; "before"; "operation_id"; "backend_object"; "base"].
Definition replacement_field (name : string) (v : json) (r : Replacement) : res Replacement :=
  let '(mkReplacement version before operation object base intent) := r in
  if name =s "version" then let? x := get_int v version in Ok (mkReplacement x before operation object base intent)
  else if name =s "before" then
    let? x := unmarshal_struct (recordFields ++ recordAdditions) project_field v before in Ok (mkReplacement version x operation object base intent)
  else if name =s "operation_id" then let? x := get_string v operation in Ok (mkReplacement version before x object base intent)
  else if name =s "backend_object" then let? x := get_string v object in Ok (mkReplacement version before operation x base intent)
  else if name =s "base" then let? x := get_string v base in Ok (mkReplacement version before operation object x intent)
  else let? x := get_string v intent in Ok (mkReplacement version before operation object base x).
Definition set_before (b : Project) (r : Replacement) : Replacement :=
  mkReplacement (rp_version r) b (rp_operation r) (rp_object r) (rp_base r) (rp_intent r).
(** [name] is empty for a history receipt, which is keyed by its operation. *)
Definition decodeReplacement (raw d name : string) : res Replacement :=
  let? v := document raw in
  let? r := decodeVersionedDocument (replacementFields ++ ["intent_digest"]) replacement_field replacementFields ["intent_digest"] v zeroReplacement in
  let? nested := unmarshal_struct ["before"] (λ _ x _, Ok x) v JNull in
  let? before := decodeRecord nested (rp_before r) in
  let r := set_before before r in
  validateReplacement d r ;;?
  check ((name =s "") || (pr_name (rp_before r) =s name)) "replacement project name differs from file key" ;;?
  Ok r.
(** [Replacement.MarshalJSON]: version 2 writes the digest even when empty. *)
Definition marshalReplacement (r : Replacement) : json :=
  JObj ([("version", JNum (rp_version r)); ("before", marshalProject (rp_before r)); ("operation_id", jstr (rp_operation r));
         ("backend_object", jstr (rp_object r)); ("base", jstr (rp_base r))] ++
        (if rp_version r =? 1 then omitempty "intent_digest" (rp_intent r) else [("intent_digest", jstr (rp_intent r))])).
Definition replacement_text (r : Replacement) : string := encode_document (marshalReplacement r).

(** The pending intent of a project. *)
Definition pending_at (d name : string) : disk → option Replacement :=
  view (λ f, res_bind (readable_document f) (λ raw, decodeReplacement raw d name)) Projects (replacementName name).

(** ** Operations *)

Section replacement.
Context {B : Type} {E : Env}.

Definition LoadReplacement (d name : string) : M B Replacement :=
  lift (validateKey d name) ;;!
  let! raw := readDocument (replacementName name) in
  lift (decodeReplacement raw d name).

(** The receipt of the exact current bookmark among the history entries: the
    last one met. *)
Fixpoint scanHistory (d name : string) (current : Project) (entries : list (string * entry)) (matched : Replacement) : M B Replacement :=
  match entries with
  | [] => ret matched
  | (key, _) :: rest =>
      if negb (has_prefix ".replacement-history-" key) || str_contains ".json.tmp-" key then scanHistory d name current rest matched
      else
        guard (negb (match strip_prefix ".replacement-history-" key with
                     | Some tail => match strip_suffix ".json" tail with Some id => Session.validUUID id | None => false end
                     | None => false end)) "invalid replacement history key" ;;!
        let! raw := readDocument key in
        let! receipt := lift (decodeReplacement raw d "") in
        guard (key ≠s replacementHistory receipt) "replacement history operation differs from file key" ;;!
        scanHistory d name current rest
          (if (pr_name (rp_before receipt) =s name) && bool_decide (Next receipt = current) then receipt else matched)
  end.
Definition maxProjectEntries : nat := 1024.
Definition LoadCompletedReplacement (d name : string) : M B Replacement :=
  lift (validateKey d name) ;;!
  let! pending := attempt (readDocument (replacementName name)) in
  match pending with
  | Ok _ => throw (Errorf "project replacement is still pending")
  | Er e => if err_not_exist e then ret tt else throw e
  end ;;!
  let! current := loadRecord d name in
  let! entries := fs_list Projects in
  guard (maxProjectEntries <? length entries)%nat "replacement history registry exceeds 1024 entries" ;;!
  let! matched := scanHistory d name current entries zeroReplacement in
  if rp_version matched =? 0 then throw ErrNotExist else ret matched.

(** After the pending intent is gone: the exact receipt and the exact bookmark
    show which completion still needs its directory sync. *)
Definition settleCompletedReplacement (d : string) (intent : Replacement) : M B Project :=
  let! current := loadRecord d (pr_name (rp_before intent)) in
  guard (bool_decide (current ≠ Next intent)) "completed replacement does not match current project binding" ;;!
  let! historical := readDocument (replacementHistory intent) in
  guard (historical ≠s replacement_text intent) "replacement history differs from exact completed intent" ;;!
  syncProjectDirectory ;;!
  ret (Next intent).

Definition replacementFor (before : Project) (j : RebuildJournal) : Replacement :=
  mkReplacement (if (pr_intent before ≠s "") || (rj_cand_intent j ≠s "") then 2 else 1) before (rj_operation j) (rj_cand_backend j)
    (rj_cand_revision j) (rj_cand_intent j).
Definition witnesses (d : string) (before : Project) (j : RebuildJournal) : bool :=
  (rj_version j =? 1) && (rj_domain j =s d) && (rj_session_name j =s pr_name before) && (rj_session_id j =s pr_session before) &&
  (rj_old_backend j =s pr_object before) && (rj_old_revision j =s pr_base before) && (rj_phase j =s RebuildCloned) &&
  (rj_old_intent j =s pr_intent before).
Definition BeginReplacement (d : string) (before : Project) (j : RebuildJournal) : M B Replacement :=
  let intent := replacementFor before j in
  lift (validateReplacement d intent) ;;!
  guard (negb (witnesses d before j)) "replacement witness differs from exact cloned project system" ;;!
  let! current := loadRecord d (pr_name before) in
  guard (bool_decide (current ≠ before)) "project changed before replacement intent" ;;!
  let! found := attempt (readDocument (replacementName (pr_name before))) in
  match found with
  | Ok raw =>
      let! prior := lift (decodeReplacement raw d (pr_name before)) in
      guard (bool_decide (prior ≠ intent)) "project replacement is already bound to another candidate" ;;!
      syncProjectDirectory ;;!
      ret intent
  | Er e =>
      if err_not_exist e then
        publish (replacementName (pr_name before)) (marshalReplacement intent) false ;;!
        ret intent
      else throw e
  end.

Definition CompleteReplacement (d : string) (intent : Replacement) : M B Project :=
  lift (validateReplacement d intent) ;;!
  let name := pr_name (rp_before intent) in
  let! found := attempt (readDocument (replacementName name)) in
  match found with
  | Er e => if err_not_exist e then settleCompletedReplacement d intent else throw e
  | Ok raw =>
      let! pending := lift (decodeReplacement raw d name) in
      guard (bool_decide (pending ≠ intent)) "replacement intent changed before completion" ;;!
      let! current := loadRecord d name in
      let next := Next intent in
      guard (bool_decide (current ≠ rp_before intent) && bool_decide (current ≠ next)) "project binding changed before replacement completion" ;;!
      let! historical := attempt (readDocument (replacementHistory intent)) in
      match historical with
      | Ok text =>
          guard (text ≠s raw) "replacement history differs from exact intent" ;;!
          syncProjectDirectory
      | Er e => if err_not_exist e then publish (replacementHistory intent) (marshalReplacement intent) false else throw e
      end ;;!
      publish (json_name (pr_name next)) (marshalProject next) true ;;!
      fs_remove Projects (replacementName (pr_name next)) ;;!
      syncProjectDirectory ;;!
      ret next
  end.

(** *** The registry listing *)

(** [strings.Cut]: around the first occurrence of the separator. *)
Fixpoint str_cut (sep s : string) : option (string * string) :=
  match strip_prefix sep s with
  | Some rest => Some (EmptyString, rest)
  | None => match s with
            | EmptyString => None
            | String c r => match str_cut sep r with Some (a, b) => Some (String c a, b) | None => None end
            end
  end.
(** [strings.TrimPrefix] and [strings.TrimSuffix]: unchanged when it is not one. *)
Definition trim_prefix (p s : string) : string := default s (strip_prefix p s).
Definition trim_suffix (p s : string) : string := default s (strip_suffix p s).

Definition canonicalSetupHistoryName (name : string) : bool :=
  match strip_prefix ".setup-history-" name with
  | Some tail => match strip_suffix ".json" tail with Some digest => Session.lowerSHA256 digest | None => false end
  | None => false
  end.
Definition projectListTemporary (d key : string) : bool :=
  match str_cut ".json.tmp-" key with
  | Some (prefix, nonce) =>
      if negb ((String.length nonce =? 32)%nat && str_all is_lower_hex nonce) then false
      else
        let key := json_name prefix in
        if (key =s setupName) || canonicalSetupHistoryName key then true
        else if has_prefix ".replacement-history-" key then
          Session.validUUID (trim_suffix ".json" (trim_prefix ".replacement-history-" key))
        else if has_prefix ".replacement-" key then is_ok (validateKey d (trim_suffix ".json" (trim_prefix ".replacement-" key)))
        else is_ok (validateKey d prefix)
  | None => false
  end.

Definition admitReplacementListEntry (d key : string) : M B unit :=
  let! raw := readDocument key in
  if has_prefix ".replacement-history-" key then
    let! receipt := lift (decodeReplacement raw d "") in
    guard (key ≠s replacementHistory receipt) "replacement history differs from exact operation key"
  else
    let name := trim_suffix ".json" (trim_prefix ".replacement-" key) in
    lift (validateKey d name) ;;!
    let! receipt := lift (decodeReplacement raw d name) in
    guard (key ≠s replacementName (pr_name (rp_before receipt))) "replacement pending receipt differs from exact project key" ;;!
    let! current := loadRecord d name in
    guard (bool_decide (current ≠ rp_before receipt) && bool_decide (current ≠ Next receipt))
          "pending replacement differs from current project bookmark".

Context {D : Digests}.
Definition admitSetupHistory (name : string) : M B bool :=
  if negb (has_prefix ".setup-history-" name) then ret false
  else
    guard (negb (canonicalSetupHistoryName name)) "setup history filename requires a lowercase SHA-256 and .json suffix" ;;!
    let digest := trim_suffix ".json" (trim_prefix ".setup-history-" name) in
    let! raw := readDocument name in
    guard (sha256 raw ≠s digest) "setup history bytes differ from filename digest" ;;!
    lift (admitSetup raw) ;;!
    ret true.

Fixpoint listProjects (d : string) (entries : list (string * entry)) : M B (list Project) :=
  match entries with
  | [] => ret []
  | (name, kind) :: rest =>
      if (name =s setupName) || projectListTemporary d name then listProjects d rest
      else if has_prefix ".replacement-" name then
        admitReplacementListEntry d name ;;!
        listProjects d rest
      else
        let! history := wrap "project setup history" (admitSetupHistory name) in
        if history then listProjects d rest
        else match kind, json_key name with
             | EDir, _ | _, None => throw (Errorf "unexpected project registry entry")
             | _, Some key =>
                 wrap "invalid project registry key" (lift (validateKey d key)) ;;!
                 let! record := wrap "load project" (loadRecord d key) in
                 let! records := listProjects d rest in
                 ret (record :: records)
             end
  end.
Definition List (d : string) : M B (list Project) :=
  lift (Domain.Parse d) ;;!
  let! entries := fs_list Projects in
  guard (maxProjectEntries <? length entries)%nat "project registry exceeds 1024 entries" ;;!
  let! results := listProjects d entries in
  ret (sort_by pr_name results).
End replacement.

(** ** Lemmas *)

Record valid_replacement (d : string) (r : Replacement) : Prop := {
  vr_before : valid_project d (rp_before r);
  vr_next : valid_project d (Next r);
  vr_version : rp_version r = 1 ∧ rp_intent r = "" ∨ rp_version r = 2;
  vr_operation : Session.validUUID (rp_operation r) = true;
  vr_object : rp_object r = Session.objectIDFor d (rp_operation r);
}.
Lemma validateReplacement_valid d r u : validateReplacement d r = Ok u → valid_replacement d r.
Proof.
  unfold validateReplacement. intros H. res_inv H. apply check_ok in Ha0, Ha1.
  rewrite !andb_true_iff, orb_true_iff, !Z.eqb_eq, String.eqb_eq in Ha0. destruct Ha0 as ((((Hv & _) & Ho) & Hb) & _).
  apply negb_true_iff, orb_false_iff in Ha1 as [H1 _].
  constructor; [by eapply validateRecord_valid|by eapply validateRecord_valid| |done|done].
  destruct Hv as [Hv|Hv]; [left|by right]. split; [done|]. rewrite Hv in H1. cbn in H1. apply orb_false_iff in H1 as [_ H1]. by apply neqs_false.
Qed.
Lemma Next_name r : pr_name (Next r) = pr_name (rp_before r) ∧ pr_base (Next r) = rp_base r ∧ pr_object (Next r) = rp_object r ∧
  pr_intent (Next r) = rp_intent r ∧ pr_import_source (Next r) = pr_import_source (rp_before r).
Proof. unfold Next. by destruct (rp_before r). Qed.
Lemma replacement_strings d r : valid_replacement d r → utf8 (rp_operation r) ∧ utf8 (rp_object r) ∧ utf8 (rp_base r) ∧ utf8 (rp_intent r).
Proof.
  intros [_ Hn _ Ho _]. destruct (Next_name r) as (_ & Hb & Hobj & Hi & _).
  destruct Hn as [_ _ _ Hin _ _ Hba _ _ Hses _]. rewrite Hb, Hobj, Hi in *. split_and!.
  - by apply coerce_uuid.
  - destruct Hses as [(_ & ->)|(_ & ?)]; [done|by apply coerce_objectid].
  - by apply coerce_objectid.
  - by eapply optional_sha_utf8.
Qed.

Lemma decode_replacement_text d r : validateReplacement d r = Ok tt → utf8_project (rp_before r) →
  decodeReplacement (replacement_text r) d (pr_name (rp_before r)) = Ok r ∧ decodeReplacement (replacement_text r) d "" = Ok r.
Proof.
  intros Hr U. pose proof (validateReplacement_valid _ _ _ Hr) as V.
  destruct (replacement_strings _ _ V) as (U1 & U2 & U3 & U4). destruct V as [Vb _ Hv _ _].
  pose proof (unmarshal_marshalProject _ _ zeroProject Vb U (under_zero _)) as Hun.
  pose proof (decode_marshalProject _ _ (rp_before r) Vb U (under_same _)) as Hdec.
  pose proof (printable_project _ _ Vb U) as Hpr.
  assert (printable (marshalReplacement r) = true) as Hp.
  { unfold marshalReplacement, omitempty. cbn [printable]. apply forallb_forall. intros [k v] Hkv. cbn [fst snd].
    assert (utf8 k ∧ printable v = true) as [Hk Hv'].
    { apply in_app_or in Hkv as [Hkv|Hkv].
      - cbn [In] in Hkv. repeat (destruct Hkv as [[= <- <-]|Hkv]; [split; [done|first [done|by apply printable_jstr]]|]). done.
      - repeat case_match; cbn [In] in Hkv; [done|..]; destruct Hkv as [[= <- <-]|[]]; (split; [done|by apply printable_jstr]). }
    rewrite Hv', Hk. by rewrite eqs_refl. }
  assert (decodeVersionedDocument (replacementFields ++ ["intent_digest"]) replacement_field replacementFields ["intent_digest"]
    (marshalReplacement r) zeroReplacement = Ok r) as Hd.
  { clear Hdec Hpr Hp Hr U Vb. unfold utf8 in *. destruct r as [version before operation object base intent]. unfold marshalReplacement.
    cbn [rp_version rp_before rp_operation rp_object rp_base rp_intent] in *.
    assert (∃ members, marshalProject before = JObj members) as [members Hm] by (unfold marshalProject; eauto). rewrite Hm in Hun |- *.
    revert Hun. destruct Hv as [[-> ->]| ->]; lazy -[coerce_utf8 int64_ok project_field recordFields recordAdditions];
      intros Hun; rewrite ?(eq_refl : int64_ok 1 = true), ?(eq_refl : int64_ok 2 = true); lazy -[coerce_utf8 int64_ok project_field recordFields recordAdditions];
      rewrite Hun; congruence. }
  assert (unmarshal_struct ["before"] (λ _ x _, Ok x) (marshalReplacement r) JNull = Ok (marshalProject (rp_before r))) as Hnest.
  { clear -Hv. unfold marshalReplacement. destruct (marshalProject (rp_before r)); destruct Hv as [[-> ->]| ->]; reflexivity. }
  assert (set_before (rp_before r) r = r) as Hset by (by destruct r).
  unfold decodeReplacement, replacement_text. rewrite scan_document by done. cbn [res_bind]. rewrite Hd. cbn [res_bind].
  rewrite Hnest. cbn [res_bind]. rewrite Hdec. cbn [res_bind]. rewrite Hset, Hr. cbn [res_bind]. rewrite !eqs_refl, orb_true_r. by split.
Qed.

(** A history receipt is not named like the pending intent of any project. *)
Lemma history_not_identifier id : Lock.validLowerIdentifier ("history-" +:+ id) ≠ true.
Proof. intros H. apply ident_bytes in H as [H _]. done. Qed.

(** ** The stages of a completion *)

Section stages.
Context {B : Type} {E : Env}.
Context (d : string) (intent : Replacement).
Hypothesis intent_ok : validateReplacement d intent = Ok tt.
Hypothesis intent_utf8 : utf8_project (rp_before intent).
Hypothesis intent_fits : (N.of_nat (String.length (replacement_text intent)) ≤ maxDocumentBytes)%N ∧
  (N.of_nat (String.length (project_text (Next intent))) ≤ maxDocumentBytes)%N.
Implicit Types (w : world B) (k : disk).
#[local] Abbreviation name := (pr_name (rp_before intent)).
#[local] Abbreviation pending_file := (replacementName name).
#[local] Abbreviation history_file := (replacementHistory intent).
#[local] Abbreviation text := (replacement_text intent).

(** The files of the four stages: pending; also in the history; also in the
    bookmark; and the pending intent gone. *)
Inductive stage : nat → disk → Prop :=
| stage_pending k : document_at pending_file k = Some text → project_at d name k = Some (rp_before intent) →
    k !! (Projects, history_file) = None → stage 0 k
| stage_recorded k : document_at pending_file k = Some text → project_at d name k = Some (rp_before intent) →
    document_at history_file k = Some text → stage 1 k
| stage_switched k : document_at pending_file k = Some text → project_at d name k = Some (Next intent) →
    document_at history_file k = Some text → stage 2 k
| stage_done k : k !! (Projects, pending_file) = None → project_at d name k = Some (Next intent) →
    document_at history_file k = Some text → stage 3 k.
(** The documents no completion touches. *)
Definition elsewhere (k k' : disk) : Prop := ∀ dir n,
  (dir, n) ≠ (Projects, pending_file) → (dir, n) ≠ (Projects, history_file) → (dir, n) ≠ (Projects, json_name name) →
  k' !! (dir, n) = k !! (dir, n).

Lemma names_differ : pending_file ≠ json_name name ∧ history_file ≠ json_name name ∧ pending_file ≠ history_file.
Proof.
  pose proof (validateReplacement_valid _ _ _ intent_ok) as [[_ Hn _ _ _ _ _ _ _ _ _] _ _ _ _].
  assert (∀ s, String "." s ≠ json_name name) as Hdot.
  { intros s Heq. destruct name as [|c r] eqn:En; [done|]. cbn in Heq. injection Heq as <- _.
    unfold Lock.validLowerIdentifier in Hn. rewrite !andb_true_iff in Hn. by destruct Hn as [[_ Hc] _]. }
  split_and!; [apply Hdot|apply Hdot|]. unfold replacementName, replacementHistory. intros Heq.
  apply (str_app_inj_l ".replacement-" (name +:+ ".json") (("history-" +:+ rp_operation intent) +:+ ".json")) in Heq.
  apply json_name_inj in Heq. clear Hdot. rewrite Heq in Hn. by apply history_not_identifier in Hn.
Qed.
Lemma elsewhere_refl k : elsewhere k k.
Proof. done. Qed.
Lemma elsewhere_trans k1 k2 k3 : elsewhere k1 k2 → elsewhere k2 k3 → elsewhere k1 k3.
Proof. intros H1 H2 dir n Ha Hb Hc. rewrite H2 by done. by apply H1. Qed.
Lemma elsewhere_doc k name' raw : name' = pending_file ∨ name' = history_file ∨ name' = json_name name → elsewhere k (doc_disk name' raw k).
Proof. intros [->|[->| ->]] dir n Ha Hb Hc; unfold doc_disk; by rewrite lookup_insert_ne by congruence. Qed.

(** The three publications and the removal, each from one stage to the next. *)
Lemma stage_publish_history k : stage 0 k → stage 1 (doc_disk history_file text k).
Proof.
  destruct names_differ as (H1 & H2 & H3). inversion 1 as [k' Hp Hb Hh| | |]; subst k'. constructor; unfold doc_disk.
  - by rewrite document_at_ne by congruence.
  - by rewrite project_at_ne by congruence.
  - by apply document_written, intent_fits.
Qed.
Lemma stage_publish_next s k : s = 1%nat ∨ s = 2%nat → stage s k → stage 2 (doc_disk (json_name name) (project_text (Next intent)) k).
Proof.
  destruct names_differ as (H1 & H2 & H3). pose proof (Next_name intent) as (Hn & _ & _ & _ & Hs).
  assert (project_at d name (doc_disk (json_name name) (project_text (Next intent)) k) = Some (Next intent)) as Hat.
  { eapply project_at_document; [by apply document_written, intent_fits|]. rewrite <-Hn. apply admit_project_text.
    - unfold validateReplacement in intent_ok. clear -intent_ok. res_inv intent_ok. done.
    - unfold utf8_project. by rewrite Hs. }
  intros [->| ->]; inversion 1; subst; constructor; unfold doc_disk in *; try done; by rewrite document_at_ne by congruence.
Qed.
Lemma stage_remove_pending k : stage 2 k → stage 3 (delete (Projects, pending_file) k).
Proof.
  destruct names_differ as (H1 & H2 & H3). inversion 1; subst. constructor.
  - apply lookup_delete_eq.
  - unfold project_at. by rewrite view_delete_ne by congruence.
  - unfold document_at. by rewrite view_delete_ne by congruence.
Qed.

(** Where a completion that began at stage [s] may stop. *)
Definition completing (s : nat) (w : world B) (r : res Project) (w' : world B) : Prop :=
  (∃ s', (s ≤ s')%nat ∧ stage s' (w_disk w') ∧ (is_ok r = true → s' = 3%nat)) ∧ elsewhere (w_disk w) (w_disk w') ∧
  (∀ p, r = Ok p → p = Next intent).
Definition complete_steps (s : nat) (o : list step) (st : step) : Prop := ∃ s', (s ≤ s')%nat ∧ stage s' (st_disk st).

Lemma stage_pending_read s k raw : stage s k → document_at pending_file k = Some raw → raw = text ∧ (s ≤ 2)%nat.
Proof.
  inversion 1 as [? Hp|? Hp|? Hp|? Hp]; subst; intros Hr; [split; [congruence|lia]..|].
  apply view_Some in Hr as (f & Hf & _). congruence.
Qed.
Lemma stage_pending_absent s k : stage s k → k !! (Projects, pending_file) = None → s = 3%nat.
Proof.
  inversion 1 as [? Hp|? Hp|? Hp|? Hp]; subst; intros Hr; [..|done]; apply view_Some in Hp as (f & Hf & _); congruence.
Qed.
Lemma stage_history_absent s k : stage s k → k !! (Projects, history_file) = None → s = 0%nat.
Proof.
  inversion 1 as [? ? ? Hh|? ? ? Hh|? ? ? Hh|? ? ? Hh]; subst; intros Hr; [done|..]; apply view_Some in Hh as (f & Hf & _); congruence.
Qed.
Lemma stage_history_read s k raw : stage s k → document_at history_file k = Some raw → raw = text ∧ (1 ≤ s)%nat.
Proof.
  inversion 1 as [? ? ? Hh|? ? ? Hh|? ? ? Hh|? ? ? Hh]; subst; intros Hr; [|split; [congruence|lia]..].
  apply view_Some in Hr as (f & Hf & _). congruence.
Qed.
Lemma completing_stop s w e w' : stage s (w_disk w') → w_disk w' = w_disk w → completing s w (Er e) w'.
Proof. intros Hs Hd. split_and!; [by exists s|rewrite Hd; apply elsewhere_refl|done]. Qed.

(** The bookmark, then the removal, from a recorded intent. *)
Lemma wp_switch s w0 w :
  (1 ≤ s ≤ 2)%nat → stage s (w_disk w) → elsewhere (w_disk w0) (w_disk w) →
  wp (complete_steps s) (publish (json_name (pr_name (Next intent))) (marshalProject (Next intent)) true ;;!
       fs_remove Projects (replacementName (pr_name (Next intent))) ;;! syncProjectDirectory ;;! ret (Next intent))
     (completing s w0) w.
Proof.
  intros Hs Hst He. destruct (Next_name intent) as (Hn & _). rewrite Hn.
  assert (stage 2 (doc_disk (json_name name) (project_text (Next intent)) (w_disk w))) as H2 by (apply (stage_publish_next s); [lia|done]).
  assert (elsewhere (w_disk w0) (doc_disk (json_name name) (project_text (Next intent)) (w_disk w))) as He2
    by (eapply elsewhere_trans; [done|]; apply elsewhere_doc; auto).
  apply wp_bind, wp_publishRaw; [|intros e n; split_and!; [by exists s|done|done]].
  intros _ _ n. split; [exists 2%nat; split; [lia|done]|]. intros [[]|e]; [|split_and!; [exists 2%nat; split_and!; [lia|done|done]|done|done]].
  cbn beta iota. set (k2 := doc_disk _ _ _) in *.
  assert (stage 3 (delete (Projects, pending_file) k2)) as H3 by by apply stage_remove_pending.
  assert (elsewhere (w_disk w0) (delete (Projects, pending_file) k2)) as He3.
  { intros dir m Ha Hb Hc. rewrite lookup_delete_ne by congruence. by apply He2. }
  apply wp_bind, wp_fs_remove; [|intros e; split_and!; [exists 2%nat; split_and!; [lia|done|done]|done|done]].
  intros x _. cbn [w_disk did] in *. fold k2. split; [exists 3%nat; split; [lia|done]|].
  intros [[]|e]; [|split_and!; [exists 3%nat; split_and!; [lia|done|done]|done|done]]. cbn beta iota.
  apply wp_bind, wp_quiet; [auto with quiet|]. intros [[]|e] m _; cbn beta iota; [apply wp_ret|];
    (split_and!; [exists 3%nat; split_and!; [lia|done|done]|done|congruence]).
Qed.

Lemma wp_CompleteReplacement s w :
  stage s (w_disk w) → wp (complete_steps s) (CompleteReplacement d intent) (completing s w) w.
Proof.
  intros Hst. unfold CompleteReplacement. apply wp_bind, wp_lift. rewrite intent_ok. cbv zeta.
  apply wp_bind, wp_attempt, wp_quiet; [auto with quiet|]. intros found n Hread. cbn beta iota. destruct found as [raw|e].
  - apply readDocument_ok in Hread. destruct (stage_pending_read _ _ _ Hst Hread) as [-> Hs2].
    apply wp_bind, wp_lift. destruct (decode_replacement_text _ _ intent_ok intent_utf8) as [Hdec _]. rewrite Hdec.
    wp_guard as _ by by apply completing_stop. wp_read as current n2 Hcur by by apply completing_stop.
    wp_guard as _ by by apply completing_stop.
    apply wp_bind, wp_attempt, wp_quiet; [auto with quiet|]. intros historical n3 Hhist. cbn beta iota.
    apply wp_bind. destruct historical as [old|e].
    + apply readDocument_ok in Hhist. destruct (stage_history_read _ _ _ Hst Hhist) as [-> Hs1].
      wp_guard as _ by by apply completing_stop. apply wp_quiet; [auto with quiet|]. intros [[]|e] m _; [|by apply completing_stop].
      refine (wp_switch s w _ _ _ _); [lia|done|apply elsewhere_refl].
    + destruct (err_not_exist e) eqn:Ee; [|apply wp_throw; by apply completing_stop].
      apply readDocument_absent in Hhist; [|done]. pose proof (stage_history_absent _ _ Hst Hhist) as ->.
      pose proof (stage_publish_history _ Hst) as H1.
      assert (elsewhere (w_disk w) (doc_disk history_file text (w_disk w))) as He by (apply elsewhere_doc; auto).
      apply wp_publishRaw; [|intros e2 m; by apply completing_stop].
      intros _ _ m. split; [exists 1%nat; split; [lia|done]|].
      intros [[]|e2]; [|split_and!; [exists 1%nat; split_and!; [lia|done|done]|done|done]].
      eapply wp_conseq with (Q := completing 1 w); [apply (wp_impl (complete_steps 1))|].
      * intros o x (s' & Hs' & Hx). exists s'. split; [lia|done].
      * match goal with |- wp _ _ _ ?w' => refine (wp_switch 1 w w' _ H1 He) end. lia.
      * intros r w' ((s' & Hs' & Hx) & Hrest). split; [|done]. exists s'. split; [lia|done].
  - destruct (err_not_exist e) eqn:Ee; [|apply wp_throw; by apply completing_stop].
    apply readDocument_absent in Hread; [|done]. pose proof (stage_pending_absent _ _ Hst Hread) as ->.
    unfold settleCompletedReplacement. wp_read as current n2 Hcur by by apply completing_stop.
    wp_guard as _ by by apply completing_stop. wp_read as historical n3 Hhist by by apply completing_stop.
    wp_guard as _ by by apply completing_stop.
    apply wp_bind, wp_quiet; [auto with quiet|]. intros [u|e2] m _; [|by apply completing_stop]. cbn beta iota.
    apply wp_ret. split_and!; [by exists 3%nat|apply elsewhere_refl|congruence].
Qed.
Lemma decide_same {A} `{EqDecision A} (a : A) : bool_decide (a ≠ a) = false.
Proof. apply bool_decide_eq_false_2. auto. Qed.
(** Without failures a completion succeeds from every stage. *)
Lemma calm_switch {C : Calm E} s w : s = 1%nat ∨ s = 2%nat → stage s (w_disk w) →
  ∃ w', (publish (json_name (pr_name (Next intent))) (marshalProject (Next intent)) true ;;!
       fs_remove Projects (replacementName (pr_name (Next intent))) ;;! syncProjectDirectory ;;! ret (Next intent)) w = (Ok (Next intent), w').
Proof.
  intros Hs Hst. destruct (Next_name intent) as (Hn & _). rewrite Hn.
  assert (∃ raw, document_at (json_name name) (w_disk w) = Some raw) as [raw Hraw].
  { inversion Hst as [? ? Hp|? ? Hp|? ? Hp|? ? Hp]; subst; apply project_at_inv in Hp as (raw & ? & _); by exists raw. }
  destruct (calm_publish_over (json_name name) (marshalProject (Next intent)) raw w) as (w1 & Hw1 & Hd1); [apply intent_fits|done|].
  pose proof (stage_publish_next s _ Hs Hst) as H2. unfold project_text in H2. rewrite <-Hd1 in H2.
  inversion H2 as [| |? Hp|]; subst. apply view_Some in Hp as (f & Hf & _).
  eexists. erewrite bind_run by exact Hw1. erewrite bind_run by exact (calm_remove _ _ _ _ Hf).
  erewrite bind_run by apply calm_sync. reflexivity.
Qed.
Lemma calm_CompleteReplacement {C : Calm E} s w : stage s (w_disk w) → (CompleteReplacement d intent w).1 = Ok (Next intent).
Proof.
  intros Hst. unfold CompleteReplacement. run by (unfold lift; by rewrite intent_ok). cbv zeta.
  destruct (decode_replacement_text _ _ intent_ok intent_utf8) as [Hdec _].
  destruct (decide (s = 3)%nat) as [->|Hne].
  - inversion Hst as [| | |k Hp Hb Hh]; subst. run by (apply attempt_run; by apply calm_readDocument_absent). cbn [err_not_exist ErrNotExist].
    unfold settleCompletedReplacement. run by (by apply calm_loadRecord).
    run by (unfold guard, check; by rewrite decide_same). run by (by apply calm_readDocument).
    run by (unfold guard, check; by rewrite eqs_refl). run by (apply calm_sync). done.
  - assert (document_at pending_file (w_disk w) = Some text) as Hp by (inversion Hst; subst; done).
    run by (apply attempt_run; by apply calm_readDocument).
    run by (unfold lift; by rewrite Hdec).
    run by (unfold guard, check; by rewrite decide_same).
    assert (∃ cur, project_at d name (w_disk w) = Some cur ∧ (cur = rp_before intent ∨ cur = Next intent)) as (cur & Hcur & Hc)
      by (inversion Hst; subst; eauto).
    run by (by apply calm_loadRecord).
    assert (bool_decide (cur ≠ rp_before intent) && bool_decide (cur ≠ Next intent) = false) as Hg
      by (destruct Hc as [->| ->]; rewrite decide_same; [done|apply andb_false_r]).
    run by (unfold guard, check; by rewrite Hg).
    destruct (decide (s = 0)%nat) as [->|Hne0].
    + inversion Hst as [k ? ? Hh| | |]; subst. run by (apply attempt_run; by apply calm_readDocument_absent).
      cbn [err_not_exist ErrNotExist]. destruct (calm_publish_fresh history_file (marshalReplacement intent) (tick (tick (tick w)))) as (w1 & Hw1 & Hd1); [apply intent_fits|done|].
      run by exact Hw1. destruct (calm_switch 1 w1) as (w2 & Hw2); [by left|rewrite Hd1; by apply stage_publish_history|].
      by rewrite Hw2.
    + assert (document_at history_file (w_disk w) = Some text) as Hh by (inversion Hst; subst; done).
      run by (apply attempt_run; by apply calm_readDocument).
      run by (unfold bind, guard, check; rewrite eqs_refl; apply calm_sync).
      match goal with |- (_ ?w').1 = _ => destruct (calm_switch s w') as (w2 & Hw2) end; [|done|by rewrite Hw2].
      inversion Hst; subst; auto; done.
Qed.
End stages.

(** ** The listing *)

Section listing.
Context {B : Type} {E : Env} {D : Digests}.
Context (d : string).
Implicit Types (w : world B) (k : disk).

(** Why an entry of the directory does not stop the listing [l]. *)
Inductive accounted k (l : list Project) (name : string) : Prop :=
| acc_setup : name = setupName → accounted k l name
| acc_temporary : projectListTemporary d name = true → accounted k l name
| acc_replacement w w' : has_prefix ".replacement-" name = true → w_disk w = k →
    admitReplacementListEntry d name w = (Ok tt, w') → accounted k l name
| acc_history : canonicalSetupHistoryName name = true → accounted k l name
| acc_project r : name = json_name (pr_name r) → Lock.validLowerIdentifier (pr_name r) = true → project_at d (pr_name r) k = Some r →
    r ∈ l → accounted k l name.

Lemma quiet_admitReplacementListEntry key : quiet (admitReplacementListEntry d key : M B _).
Proof. unfold admitReplacementListEntry. quiet_tac. Qed.
Lemma quiet_admitSetupHistory key : quiet (admitSetupHistory key : M B _).
Proof. unfold admitSetupHistory. quiet_tac. Qed.
Lemma accounted_more k l r name : accounted k l name → accounted k (r :: l) name.
Proof. intros []; [by apply acc_setup|by apply acc_temporary|by eapply acc_replacement|by apply acc_history|]. eapply acc_project; eauto. by right. Qed.
Lemma admitSetupHistory_ok name w b w' : admitSetupHistory name w = (Ok b, w') → b = true → canonicalSetupHistoryName name = true.
Proof.
  unfold admitSetupHistory. destruct (negb (has_prefix _ _)); intros H Hb; [ok_inv; congruence|]. ok_inv. by apply negb_false_iff.
Qed.
Lemma validateKey_ok name u : validateKey d name = Ok u → Lock.validLowerIdentifier name = true.
Proof. unfold validateKey. intros H. res_inv H. by apply ParseName_ok in Ha0 as [_ ?]. Qed.

Lemma listProjects_ok entries w l w' : listProjects d entries w = (Ok l, w') →
  (∀ name e, (name, e) ∈ entries → accounted (w_disk w) l name) ∧
  (∀ r, r ∈ l → (∃ e, (json_name (pr_name r), e) ∈ entries) ∧ project_at d (pr_name r) (w_disk w) = Some r) ∧
  (NoDup entries.*1 → NoDup (pr_name <$> l)) ∧ w_disk w' = w_disk w.
Proof.
  revert w l w'. induction entries as [|[name kind] rest IH]; intros w l w' H; cbn [listProjects] in H.
  { ok_inv. split_and!; [..|constructor|done]; [intros ? ? Hin|intros ? Hin]; by apply not_elem_of_nil in Hin. }
  assert (∀ w1, w_disk w1 = w_disk w → accounted (w_disk w) l name → listProjects d rest w1 = (Ok l, w') →
    (∀ n e, (n, e) ∈ (name, kind) :: rest → accounted (w_disk w) l n) ∧
    (∀ r, r ∈ l → (∃ e, (json_name (pr_name r), e) ∈ (name, kind) :: rest) ∧ project_at d (pr_name r) (w_disk w) = Some r) ∧
    (NoDup ((name, kind) :: rest).*1 → NoDup (pr_name <$> l)) ∧ w_disk w' = w_disk w) as Hskip.
  { intros w1 Hd Hacc Hl. apply IH in Hl as (H1 & H2 & H3 & H4). rewrite Hd in *. split_and!; [| |intros [_ ?]%NoDup_cons; auto|done].
    - intros n e [[= -> ->]|Hin]%elem_of_cons; [done|by eapply H1].
    - intros r Hr. destruct (H2 r Hr) as [[e He] Hp]. split; [|done]. exists e. by apply elem_of_cons; right. }
  destruct (name =s setupName) eqn:Es; [apply eqs_true in Es; apply (Hskip w); [done|by apply acc_setup|done]|]. cbn [orb] in H.
  destruct (projectListTemporary d name) eqn:Et; [apply (Hskip w); [done|by apply acc_temporary|done]|].
  destruct (has_prefix ".replacement-" name) eqn:Er.
  { apply bind_ok in H as ([] & w1 & Ha & H). destruct (quiet_admitReplacementListEntry name w) as (r & n & Hq).
    rewrite Ha in Hq. injection Hq as <- ->. by apply (Hskip (retick n w)); [|eapply acc_replacement|]. }
  apply bind_ok in H as (history & w1 & Ha & H). apply wrap_ok in Ha. destruct (quiet_admitSetupHistory name w) as (r & n & Hq).
  rewrite Ha in Hq. injection Hq as <- ->. destruct history.
  { apply admitSetupHistory_ok in Ha; [|done]. by apply (Hskip (retick n w)); [|apply acc_history|]. }
  clear Hskip. assert (∃ key r l' w2, json_name key = name ∧ Lock.validLowerIdentifier key = true ∧ loadRecord d key (retick n w) = (Ok r, w2) ∧
    listProjects d rest w2 = (Ok l', w') ∧ l = r :: l') as (key & r & l' & w2 & <- & Hv & Hr & Hl & ->).
  { destruct kind, (json_key name) as [key|] eqn:Ek; try (exfalso; ok_inv; done); apply json_key_ok in Ek as ->; ok_inv;
      eapply validateKey_ok in Ha0; eauto 10. }
  destruct (quiet_loadRecord d key (retick n w)) as (r' & n2 & Hq). rewrite Hr in Hq. injection Hq as <- ->.
  apply loadRecord_ok in Hr. cbn [w_disk retick] in Hr.
  assert (pr_name r = key) as <- by (apply project_at_inv in Hr as (raw & _ & Hr); by apply admitProject_ok in Hr as [_ Hr]).
  apply IH in Hl as (H1 & H2 & H3 & H4). cbn [w_disk retick] in *. split_and!; [| | |done].
  - intros n' e [[= -> ->]|Hin]%elem_of_cons; [eapply acc_project; eauto; by left|]. by eapply accounted_more, H1.
  - intros r' [->|Hin]%elem_of_cons.
    + split; [|done]. exists kind. by apply elem_of_cons; left.
    + destruct (H2 r' Hin) as [[e He] ?]. split; [|done]. exists e. by apply elem_of_cons; right.
  - intros [Hni Hnd]%NoDup_cons. cbn. apply NoDup_cons. split; [|auto]. intros (r' & Hk & Hin)%list_elem_of_fmap_1.
    destruct (H2 r' Hin) as [[e He] _]. apply Hni. apply list_elem_of_fmap. exists (json_name (pr_name r'), e). split; [|done]. by rewrite Hk.
Qed.

(** A name without a dot is no temporary file's. *)
Definition dotless (s : string) : Prop := str_all (λ c, negb (Ascii.eqb c ".")) s = true.
Lemma no_cut s : dotless s → str_cut ".json.tmp-" (s +:+ ".json") = None.
Proof.
  unfold dotless. induction s as [|c s IH]; [done|]. cbn [str_all]. intros H. bsimpl.
  change (String c s +:+ ".json") with (String c (s +:+ ".json")). cbn [str_cut]. cbn [strip_prefix].
  rewrite Ascii.eqb_sym, H. cbn. by rewrite IH.
Qed.
Lemma key_dotless name : Lock.validLowerIdentifier name = true → dotless name ∧ ∃ c r, name = String c r ∧ is_lower c = true.
Proof.
  intros H. split.
  - apply ident_bytes in H as [H _]. unfold dotless. eapply str_all_impl; [|exact H]. intros c.
    destruct c as [[] [] [] [] [] [] [] []]; vm_compute; done.
  - unfold Lock.validLowerIdentifier in H. destruct name as [|c r]; [done|]. rewrite !andb_true_iff in H. exists c, r. naive_solver.
Qed.
Lemma record_entry name k l : Lock.validLowerIdentifier name = true → accounted k l (json_name name) → ∃ r, pr_name r = name ∧ project_at d name k = Some r ∧ r ∈ l.
Proof.
  intros Hv. destruct (key_dotless _ Hv) as (Hd & c & rest & -> & Hc).
  assert (Ascii.eqb "." c = false) as Hdot by (by destruct c as [[] [] [] [] [] [] [] []]; vm_compute in Hc |- *).
  intros [Hs|Ht|w w' Hp|Hh|r Hn Hvr Hat Hin].
  - unfold json_name, setupName in Hs. cbn in Hs. injection Hs as -> _. done.
  - unfold projectListTemporary in Ht. unfold json_name in Ht at 1. by rewrite no_cut in Ht.
  - change (Ascii.eqb "." c && has_prefix "replacement-" (json_name rest) = true) in Hp. by rewrite Hdot in Hp.
  - unfold canonicalSetupHistoryName in Hh. unfold json_name in Hh.
    change (String c rest +:+ ".json") with (String c (rest +:+ ".json")) in Hh. cbn [strip_prefix] in Hh. by rewrite Hdot in Hh.
  - apply json_name_inj in Hn as Hn'. rewrite Hn'. by exists r.
Qed.

(** A listing that succeeds accounts for every entry. *)
Lemma accounted_perm k l l' name : l ≡ₚ l' → accounted k l name → accounted k l' name.
Proof.
  intros Hp []; [by apply acc_setup|by apply acc_temporary|by eapply acc_replacement|by apply acc_history|].
  eapply acc_project; eauto. by rewrite <-Hp.
Qed.
Lemma List_ok w l w' : List d w = (Ok l, w') → ∃ l0, l = sort_by pr_name l0 ∧
  listProjects d (dir_entries Projects (w_disk w)) (tick w) = (Ok l0, w').
Proof. unfold List. intros H. ok_inv. apply fs_list_ok in Ha0 as [-> ->]. eauto. Qed.
Lemma List_accounted w l w' name e : List d w = (Ok l, w') → w_disk w !! (Projects, name) = Some e → accounted (w_disk w) l name.
Proof.
  intros (l0 & -> & H)%List_ok He%dir_entries_spec. apply listProjects_ok in H as (H & _). cbn [w_disk tick] in H.
  eapply accounted_perm; [symmetry; apply sort_by_perm|eauto].
Qed.
End listing.

(** ** Properties *)

(** C35: a replacement completes once and in order: begun at any stage a crash
    or an earlier attempt left, every publication of the completion is at a
    stage at least as late, it ends at such a stage with nothing but its three
    documents changed, success means the last stage (exact receipt kept, new
    bookmark in place, intent gone) with the new bookmark returned; and an
    attempt without failures succeeds from every stage. *)
Theorem replacement_completes_once {B} {E : Env} (d : string) (intent : Replacement) (s : nat) (w : world B) :
  validateReplacement d intent = Ok tt → utf8_project (rp_before intent) →
  (N.of_nat (String.length (replacement_text intent)) ≤ maxDocumentBytes)%N ∧
  (N.of_nat (String.length (project_text (Next intent))) ≤ maxDocumentBytes)%N →
  stage d intent s (w_disk w) →
  wp (complete_steps d intent s) (CompleteReplacement d intent) (completing d intent s w) w ∧
  (Calm E → (CompleteReplacement d intent w).1 = Ok (Next intent)).
Proof. intros. split; [by apply wp_CompleteReplacement|]. intros C. by apply (calm_CompleteReplacement d intent) with (s := s). Qed.

(** What recording the intent may do. *)
Definition begun {B} (d : string) (before : Project) (j : RebuildJournal) (w : world B) (r : res Replacement) (w' : world B) : Prop :=
  let intent := replacementFor before j in let name := pr_name before in let k := w_disk w in let k' := w_disk w' in
  (k' = k ∨ k !! (Projects, replacementName name) = None ∧ witnesses d before j = true ∧ project_at d name k = Some before ∧
     k' = doc_disk (replacementName name) (replacement_text intent) k) ∧
  (∀ i, r = Ok i → i = intent ∧ witnesses d before j = true ∧ project_at d name k' = Some before ∧ pending_at d name k' = Some intent).
Lemma begun_refused {B} d before j (w : world B) e w' : w_disk w' = w_disk w → begun d before j w (Er e) w'.
Proof. intros Hd. split; [by left|done]. Qed.

(** An intent is recorded only for the exact stored bookmark and a cloned
    candidate of exactly its system, it never displaces a pending intent, and
    success means that this very intent is the pending one while the bookmark is
    still the old one. *)
Theorem begin_replacement_binds {B} {E : Env} (d : string) (before : Project) (j : RebuildJournal) (w : world B) :
  utf8_project before → begun d before j w (BeginReplacement d before j w).1 (BeginReplacement d before j w).2.
Proof.
  intros U. apply (wp_result (λ _ _, True) (BeginReplacement d before j) (begun d before j w)).
  unfold BeginReplacement. apply wp_bind, wp_lift. destruct (validateReplacement d (replacementFor before j)) as [[]|e] eqn:Ev; [|by apply begun_refused].
  cbn beta iota. wp_guard as Hw%negb_false_iff by by apply begun_refused. wp_read as current n Hc by by apply begun_refused.
  apply loadRecord_ok in Hc. wp_guard as He by by apply begun_refused. apply bool_decide_eq_false, dec_stable in He as ->.
  apply wp_bind, wp_attempt, wp_quiet; [auto with quiet|]. intros found m Hread. cbn beta iota. destruct found as [raw|e].
  - apply readDocument_ok in Hread. apply wp_bind, wp_lift. destruct (decodeReplacement raw d (pr_name before)) as [prior|e] eqn:Ed; [|by apply begun_refused].
    cbn beta iota. wp_guard as He by by apply begun_refused. apply bool_decide_eq_false, dec_stable in He as ->.
    apply wp_bind, wp_quiet; [auto with quiet|]. intros [u|e] m2 _; [|by apply begun_refused]. cbn beta iota. apply wp_ret. split; [by left|].
    intros i [= <-]. split_and!; [done..|]. apply view_Some in Hread as (f & Hf & Hd). apply view_Some. exists f. split; [done|]. by rewrite Hd.
  - destruct (err_not_exist e) eqn:Ee; [|apply wp_throw; by apply begun_refused]. apply readDocument_absent in Hread; [|done].
    apply wp_bind, wp_publishRaw; [|intros; by apply begun_refused]. intros Hl _ m2. split; [done|]. cbn [w_disk did].
    intros [[]|e2]; cbn beta iota; [apply wp_ret|]; (split; [by right|]); [|done]. intros i [= <-]. split_and!; [done..| |].
    + cbn [w_disk did]. unfold doc_disk. rewrite project_at_ne; [done|]. intros [= Hn]. destruct (pr_name before) as [|c rest] eqn:En; [done|].
      apply validateReplacement_valid in Ev as [[_ Hv _ _ _ _ _ _ _ _] _ _ _ _]. cbn [rp_before replacementFor] in Hv. rewrite En in Hv.
      apply key_dotless in Hv as (_ & c' & r' & [= <- <-] & Hc'). injection Hn as <- _. done.
    + pose proof (document_written (replacementName (pr_name before)) _ (w_disk w) Hl) as (f & Hf & Hd)%view_Some.
      apply view_Some. exists f. split; [done|]. rewrite Hd. cbn [res_bind].
      by apply (decode_replacement_text d (replacementFor before j) Ev U).
Qed.

(** A listing that succeeds is exactly the registry: sorted by name
    without repetition, it holds every project that some valid name resolves to
    and nothing else; it only succeeds when every other entry of the directory is
    the setup document, a setup archive, a temporary file or an admitted
    replacement receipt; and it changes nothing. *)
Theorem list_projects_exact {B} {E : Env} {D : Digests} (d : string) (w w' : world B) (l : list Project) :
  List d w = (Ok l, w') →
  StronglySorted (key_le pr_name) l ∧ NoDup (pr_name <$> l) ∧
  (∀ r, r ∈ l ↔ project_at d (pr_name r) (w_disk w) = Some r) ∧
  (∀ name e, w_disk w !! (Projects, name) = Some e → accounted (B := B) d (w_disk w) l name) ∧
  w_disk w' = w_disk w.
Proof.
  intros H. pose proof (List_accounted d w l w') as Hacc. destruct (List_ok _ _ _ _ H) as (l0 & -> & Hl).
  apply listProjects_ok in Hl as (_ & H2 & H3 & H4). pose proof (sort_by_perm pr_name l0) as Hp. cbn [w_disk tick] in *.
  split_and!; [apply sort_by_sorted|rewrite Hp; apply H3, dir_entries_nodup| |by eauto|done].
  intros r. split; [rewrite Hp; apply H2|]. intros Hs.
  assert (Lock.validLowerIdentifier (pr_name r) = true) as Hv.
  { apply project_at_inv in Hs as (raw & _ & Hr). apply admitProject_ok in Hr as [Hr _]. by apply validateRecord_valid in Hr as []. }
  apply view_Some in Hs as Hf. destruct Hf as (f & Hf & _).
  destruct (record_entry d _ _ _ Hv (Hacc _ _ H Hf)) as (r' & _ & Hs' & Hin). congruence.
Qed.

#[local] Instance labDigests : Digests := {| sha256 _ := sourceSHA256 |}.
#[local] Existing Instance quietEnv.
Definition rebuild_of (before : Project) : RebuildJournal :=
  Witness (mkReplacement 1 before "99999999-9999-4999-8999-999999999999" "boxwarden-work-99999999999949998999999999999999" "base-2" "").
Definition example_replacement (before : Project) : Replacement := replacementFor before (rebuild_of before).
(** The bookmark, and after [BeginReplacement] its pending intent. *)
Definition bookmark_world (before : Project) : world unit :=
  worldOf {[ (Projects, json_name (pr_name before)) := EFile (bytes_file (project_text before)) ]} tt.
Definition replacing_world (before : Project) : world unit := (BeginReplacement "work" before (rebuild_of before) (bookmark_world before)).2.
Lemma begin_replacement_binds_witness :
  pending_at "work" "notes" (w_disk (replacing_world example_project)) = Some (example_replacement example_project).
Proof.
  destruct (begin_replacement_binds (B := unit) "work" example_project (rebuild_of example_project) (bookmark_world example_project)) as [_ H];
    [reflexivity|].
  apply (H (example_replacement example_project)). vm_compute. reflexivity.
Defined.
Lemma replacement_completes_once_witness :
  (CompleteReplacement "work" (example_replacement example_project) (replacing_world example_project)).1 = Ok (Next (example_replacement example_project)).
Proof.
  refine (proj2 (replacement_completes_once "work" (example_replacement example_project) 0 (replacing_world example_project) _ _ _ _) _).
  - reflexivity.
  - reflexivity.
  - split; vm_compute; discriminate.
  - constructor; vm_compute; reflexivity.
Defined.
Lemma list_projects_exact_witness : NoDup (pr_name <$> [example_project]).
Proof.
  destruct (list_projects_exact "work" (bookmark_world example_project) (List "work" (bookmark_world example_project)).2 [example_project]) as (_ & H & _).
  - vm_compute. reflexivity.
  - exact H.
Defined.
