(* ===== verification/WorkspaceRecord.v ===== *)
(** The durable volume record of src/internal/workspacex/record.go: its
    fields, its validation, the strict decoder and the encoder. *)
From S2P Require Import Prelude Ids Json SessionRecord Outside World.

Abbreviation workspaceRecordVersion := 1%Z.
Abbreviation FormatRawExt4 := "raw-ext4"%string.
Abbreviation VolCreating := "creating"%string.
Abbreviation VolAvailable := "available"%string.
Abbreviation VolFailed := "failed"%string.
Abbreviation ExportSnapshotKind := "export-snapshot"%string.
Definition maxRecordBytes : N := 2 ^ 20.

Record DiskIdentity := mkDisk { di_device : Z; di_inode : Z }.
Record Use := mkUse { us_kind : string; us_object : string; us_generation : string }.
Record Attachment := mkAttachment { at_session_id : string; at_session_name : string; at_mount : string }.
Record Pending := mkPending { pe_kind : string; pe_id : string }.
Record Volume := mkVolume {
  vo_version : Z;
  vo_domain : string;
  vo_id : string;
  vo_size : Z;
  vo_format : string;
  vo_uuid : string;
  vo_state : string;
  vo_disk : option DiskIdentity;
  vo_attachment : option Attachment;
  vo_use : option Use;
  vo_pending : option Pending;
}.
#[export] Instance DiskIdentity_eq_dec : EqDecision DiskIdentity.
Proof. solve_decision. Defined.
#[export] Instance Use_eq_dec : EqDecision Use.
Proof. solve_decision. Defined.
#[export] Instance Attachment_eq_dec : EqDecision Attachment.
Proof. solve_decision. Defined.
#[export] Instance Pending_eq_dec : EqDecision Pending.
Proof. solve_decision. Defined.
#[export] Instance Volume_eq_dec : EqDecision Volume.
Proof. solve_decision. Defined.

Definition zeroVolume : Volume := mkVolume 0 "" "" 0 "" "" "" None None None None.
Definition set_vstate (x : string) (v : Volume) : Volume :=
  mkVolume (vo_version v) (vo_domain v) (vo_id v) (vo_size v) (vo_format v) (vo_uuid v) x (vo_disk v) (vo_attachment v) (vo_use v) (vo_pending v).
Definition set_disk (x : option DiskIdentity) (v : Volume) : Volume :=
  mkVolume (vo_version v) (vo_domain v) (vo_id v) (vo_size v) (vo_format v) (vo_uuid v) (vo_state v) x (vo_attachment v) (vo_use v) (vo_pending v).
Definition set_attachment (x : option Attachment) (v : Volume) : Volume :=
  mkVolume (vo_version v) (vo_domain v) (vo_id v) (vo_size v) (vo_format v) (vo_uuid v) (vo_state v) (vo_disk v) x (vo_use v) (vo_pending v).
Definition set_use (x : option Use) (v : Volume) : Volume :=
  mkVolume (vo_version v) (vo_domain v) (vo_id v) (vo_size v) (vo_format v) (vo_uuid v) (vo_state v) (vo_disk v) (vo_attachment v) x (vo_pending v).
Definition set_pending (x : option Pending) (v : Volume) : Volume :=
  mkVolume (vo_version v) (vo_domain v) (vo_id v) (vo_size v) (vo_format v) (vo_uuid v) (vo_state v) (vo_disk v) (vo_attachment v) (vo_use v) x.

(** ** Validation *)

Definition disk_nonzero (d : DiskIdentity) : bool := negb (di_device d =? 0) && negb (di_inode d =? 0).

(** The [switch record.State] of validateRecord. *)
Definition validateVolumeState (v : Volume) : res unit :=
  if vo_state v =s VolCreating then
    check (isNone (vo_disk v) && isNone (vo_use v) && isNone (vo_attachment v))
          "creating workspace must not claim a disk, attachment, or backend use"
  else if vo_state v =s VolAvailable then
    check (match vo_disk v with Some d => disk_nonzero d | None => false end)
          "available workspace requires an exact disk identity"
  else if vo_state v =s VolFailed then
    check (isNone (vo_use v) && isNone (vo_attachment v)) "failed workspace must not claim attachment or backend use" ;;?
    check (match vo_disk v with Some d => disk_nonzero d | None => true end) "failed workspace has incomplete disk identity"
  else fail "invalid workspace state".

Definition validateVolume (expectedDomain : string) (v : Volume) : res unit :=
  let? parsed := Domain.Parse expectedDomain in
  check (vo_version v =? workspaceRecordVersion) "unsupported workspace record version" ;;?
  check (vo_domain v =s parsed) "workspace record domain does not match" ;;?
  check (Workspacex.validUUID (vo_id v) && Workspacex.validUUID (vo_uuid v) && (vo_format v =s FormatRawExt4))
        "invalid workspace volume or filesystem identity" ;;?
  check ((4096 <=? vo_size v) && (vo_size v <=? 2 ^ 43) && (Z.rem (vo_size v) 512 =? 0)) "invalid workspace disk size" ;;?
  validateVolumeState v ;;?
  check (match vo_use v with
         | Some u => (us_kind u =s "tart") && Workspacex.validObjectID (us_object u) && Workspacex.validUUID (us_generation u)
         | None => true end) "invalid workspace backend use reservation" ;;?
  check (match vo_attachment v with
         | Some a => (vo_state v =s VolAvailable) && Workspacex.validUUID (at_session_id a) &&
                     Workspacex.validSessionName (at_session_name a) && Workspacex.validMountPath (at_mount a)
         | None => true end) "invalid workspace attachment" ;;?
  check (negb (isSome (vo_use v)) || (isSome (vo_attachment v) && isNone (vo_pending v)))
        "workspace use requires a resolved attachment" ;;?
  match vo_pending v with
  | None => Ok tt
  | Some p =>
      check (Workspacex.validUUID (pe_id p) && Workspacex.validPendingKind (pe_kind p)) "invalid pending workspace operation" ;;?
      check (negb (pe_kind p =s ExportSnapshotKind) ||
             ((vo_state v =s VolAvailable) && isSome (vo_attachment v) && isSome (vo_disk v)))
            "export snapshot requires an available attached workspace"
  end.

(** ** Decoding *)

Definition disk_field (name : string) (v : json) (d : DiskIdentity) : option (res DiskIdentity) :=
  if name =s "device" then Some (let? x := get_uint64 v (di_device d) in Ok (mkDisk x (di_inode d)))
  else if name =s "inode" then Some (let? x := get_uint64 v (di_inode d) in Ok (mkDisk (di_device d) x))
  else None.
Definition decodeDisk (v : json) : res DiskIdentity :=
  let? (d, seen) := decode_object disk_field v (mkDisk 0 0) in
  check (seen_all ["device"; "inode"] seen) "disk identity missing field" ;;? Ok d.

Definition use_field (name : string) (v : json) (u : Use) : option (res Use) :=
  if name =s "backend_kind" then Some (let? x := get_string v (us_kind u) in Ok (mkUse x (us_object u) (us_generation u)))
  else if name =s "backend_object" then Some (let? x := get_string v (us_object u) in Ok (mkUse (us_kind u) x (us_generation u)))
  else if name =s "generation" then Some (let? x := get_string v (us_generation u) in Ok (mkUse (us_kind u) (us_object u) x))
  else None.
Definition decodeUse (v : json) : res Use :=
  let? (u, seen) := decode_object use_field v (mkUse "" "" "") in
  check (seen_all ["backend_kind"; "backend_object"; "generation"] seen) "use reservation missing field" ;;? Ok u.

Definition attachment_field (name : string) (v : json) (a : Attachment) : option (res Attachment) :=
  if name =s "session_id" then
    Some (let? x := get_string v (at_session_id a) in Ok (mkAttachment x (at_session_name a) (at_mount a)))
  else if name =s "session_name" then
    Some (let? x := get_string v (at_session_name a) in Ok (mkAttachment (at_session_id a) x (at_mount a)))
  else if name =s "mount_path" then
    Some (let? x := get_string v (at_mount a) in Ok (mkAttachment (at_session_id a) (at_session_name a) x))
  else None.
Definition decodeAttachment (v : json) : res Attachment :=
  let? (a, seen) := decode_object attachment_field v (mkAttachment "" "" "") in
  check (seen_all ["session_id"; "session_name"; "mount_path"] seen) "attachment missing field" ;;? Ok a.

Definition pending_field (name : string) (v : json) (p : Pending) : option (res Pending) :=
  if name =s "kind" then Some (let? x := get_string v (pe_kind p) in Ok (mkPending x (pe_id p)))
  else if name =s "id" then Some (let? x := get_string v (pe_id p) in Ok (mkPending (pe_kind p) x))
  else None.
Definition decodePending (v : json) : res Pending :=
  let? (p, seen) := decode_object pending_field v (mkPending "" "") in
  check (seen_all ["kind"; "id"] seen) "pending operation missing field" ;;? Ok p.

Definition volume_field (name : string) (v : json) (r : Volume) : option (res Volume) :=
  let '(mkVolume ver dom id size fmt uuid st disk att use pend) := r in
  if name =s "version" then Some (let? x := get_int v ver in Ok (mkVolume x dom id size fmt uuid st disk att use pend))
  else if name =s "domain" then Some (let? x := get_string v dom in Ok (mkVolume ver x id size fmt uuid st disk att use pend))
  else if name =s "volume_id" then Some (let? x := get_string v id in Ok (mkVolume ver dom x size fmt uuid st disk att use pend))
  else if name =s "size_bytes" then Some (let? x := get_int v size in Ok (mkVolume ver dom id x fmt uuid st disk att use pend))
  else if name =s "format" then Some (let? x := get_string v fmt in Ok (mkVolume ver dom id size x uuid st disk att use pend))
  else if name =s "filesystem_uuid" then Some (let? x := get_string v uuid in Ok (mkVolume ver dom id size fmt x st disk att use pend))
  else if name =s "state" then Some (let? x := get_string v st in Ok (mkVolume ver dom id size fmt uuid x disk att use pend))
  else if name =s "disk" then Some (let? x := decodeDisk v in Ok (mkVolume ver dom id size fmt uuid st (Some x) att use pend))
  else if name =s "use" then Some (let? x := decodeUse v in Ok (mkVolume ver dom id size fmt uuid st disk att (Some x) pend))
  else if name =s "attachment" then Some (let? x := decodeAttachment v in Ok (mkVolume ver dom id size fmt uuid st disk (Some x) use pend))
  else if name =s "pending" then Some (let? x := decodePending v in Ok (mkVolume ver dom id size fmt uuid st disk att use (Some x)))
  else None.

Definition decodeVolume (v : json) (expectedDomain : string) : res Volume :=
  let? (r, seen) := decode_object volume_field v zeroVolume in
  check (seen_all ["version"; "domain"; "volume_id"; "size_bytes"; "format"; "filesystem_uuid"; "state"] seen)
        "workspace record missing field" ;;?
  validateVolume expectedDomain r ;;? Ok r.

(** ** Encoding *)

Definition optfield {A} (name : string) (enc : A → json) (o : option A) : list (string * json) :=
  match o with Some a => [(name, enc a)] | None => [] end.
Definition marshalDisk (d : DiskIdentity) : json := JObj [("device", JNum (di_device d)); ("inode", JNum (di_inode d))].
Definition marshalUse (u : Use) : json :=
  JObj [("backend_kind", jstr (us_kind u)); ("backend_object", jstr (us_object u)); ("generation", jstr (us_generation u))].
Definition marshalAttachment (a : Attachment) : json :=
  JObj [("session_id", jstr (at_session_id a)); ("session_name", jstr (at_session_name a)); ("mount_path", jstr (at_mount a))].
Definition marshalPending (p : Pending) : json := JObj [("kind", jstr (pe_kind p)); ("id", jstr (pe_id p))].
Definition marshalVolume (v : Volume) : json :=
  JObj ([("version", JNum (vo_version v)); ("domain", jstr (vo_domain v)); ("volume_id", jstr (vo_id v));
         ("size_bytes", JNum (vo_size v)); ("format", jstr (vo_format v)); ("filesystem_uuid", jstr (vo_uuid v));
         ("state", jstr (vo_state v))] ++
        optfield "disk" marshalDisk (vo_disk v) ++ optfield "attachment" marshalAttachment (vo_attachment v) ++
        optfield "use" marshalUse (vo_use v) ++ optfield "pending" marshalPending (vo_pending v)).

(** What a file holds for one domain and volume ID. *)
Definition parseVolume (expectedDomain volumeID : string) (f : file) : res Volume :=
  let? v := single_doc maxRecordBytes f in
  let? r := decodeVolume v expectedDomain in
  check (vo_id r =s volumeID) "workspace record volume ID does not match key" ;;? Ok r.
Definition volumeFile (v : Volume) : file := json_file (marshalVolume v).

(** The record as the encoder writes it: what the disk identity's machine
    integers may hold. *)
Definition volume_ints (v : Volume) : bool :=
  int64_ok (vo_size v) && match vo_disk v with Some d => uint64_ok (di_device d) && uint64_ok (di_inode d) | None => true end.
#[global] Arguments validateVolume : simpl never.

(** ** Lemmas *)

(** Validity written out. *)
Record volume_ok (dom : string) (v : Volume) : Prop := {
  vk_version : vo_version v = 1;
  vk_domain : vo_domain v = dom ∧ Lock.validDomain dom = true;
  vk_id : Session.validUUID (vo_id v) = true;
  vk_uuid : Session.validUUID (vo_uuid v) = true;
  vk_format : vo_format v = FormatRawExt4;
  vk_size : 4096 ≤ vo_size v ≤ 2 ^ 43 ∧ Z.rem (vo_size v) 512 = 0;
  vk_state : vo_state v ∈ [VolCreating; VolAvailable; VolFailed];
  vk_disk : if vo_state v =s VolCreating then vo_disk v = None
            else if vo_state v =s VolAvailable then isSome (vo_disk v) = true else True;
  vk_identity : ∀ d, vo_disk v = Some d → di_device d ≠ 0 ∧ di_inode d ≠ 0;
  vk_attachment : ∀ a, vo_attachment v = Some a →
    vo_state v = VolAvailable ∧ Session.validUUID (at_session_id a) = true ∧
    Lock.validLowerIdentifier (at_session_name a) = true ∧ Workspacex.validMountPath (at_mount a) = true;
  vk_use : ∀ u, vo_use v = Some u →
    us_kind u = "tart" ∧ Session.validBackendObjectID (us_object u) = true ∧ Session.validUUID (us_generation u) = true ∧
    isSome (vo_attachment v) = true ∧ vo_pending v = None;
  vk_pending : ∀ p, vo_pending v = Some p →
    Session.validUUID (pe_id p) = true ∧ Workspacex.validPendingKind (pe_kind p) = true ∧
    (pe_kind p = ExportSnapshotKind → vo_state v = VolAvailable ∧ isSome (vo_attachment v) = true);
}.

Lemma validateVolumeState_ok v u :
  validateVolumeState v = Ok u ↔
  vo_state v ∈ [VolCreating; VolAvailable; VolFailed] ∧
  (if vo_state v =s VolCreating then vo_disk v = None
   else if vo_state v =s VolAvailable then isSome (vo_disk v) = true else True) ∧
  (∀ d, vo_disk v = Some d → di_device d ≠ 0 ∧ di_inode d ≠ 0) ∧
  (vo_state v ≠ VolAvailable → vo_use v = None ∧ vo_attachment v = None).
Proof.
  destruct u. unfold validateVolumeState, disk_nonzero.
  destruct (vo_state v =s VolCreating) eqn:E1; [|destruct (vo_state v =s VolAvailable) eqn:E2; [|destruct (vo_state v =s VolFailed) eqn:E3]];
    bsimpl; rewrite ?E1, ?E2, ?E3, ?check_then_ok, ?check_ok, ?andb_true_iff;
    destruct (vo_disk v) as [[dv di]|], (vo_use v), (vo_attachment v); cbn;
    rewrite ?andb_true_iff, ?negb_true_iff, ?Z.eqb_neq; set_unfold; naive_solver congruence.
Qed.
Lemma validateVolume_ok dom v u : validateVolume dom v = Ok u ↔ volume_ok dom v.
Proof.
  unfold validateVolume. destruct u.
  destruct (Domain.Parse dom) as [d|e] eqn:Hd; cbn [res_bind].
  2:{ split; [done|]. intros []. destruct vk_domain0 as [_ Hv].
      pose proof (proj2 (Parse_ok dom dom) (conj eq_refl Hv)). congruence. }
  apply Parse_ok in Hd as [-> Hd].
  rewrite !check_then_ok, unit_then_ok, validateVolumeState_ok, !check_then_ok, !andb_true_iff, Z.eqb_eq,
    !String.eqb_eq, !Z.leb_le, Z.eqb_eq, (validUUID_eq (vo_id v)), (validUUID_eq (vo_uuid v)).
  change (Lock.validLowerIdentifier dom) with (Lock.validDomain dom) in Hd. split.
  - intros (Hv & Hdom & ((Hi & Hu) & Hf) & (Hs & Hr) & (Hst & Hdk & Hid & Hna) & Huse & Hatt & Hboth & Hp).
    assert (∀ a, vo_attachment v = Some a → vo_state v = VolAvailable ∧ Session.validUUID (at_session_id a) = true ∧
      Lock.validLowerIdentifier (at_session_name a) = true ∧ Workspacex.validMountPath (at_mount a) = true) as HA.
    { intros a Ha. rewrite Ha in Hatt. bsimpl. by rewrite <-validSessionName_eq, <-validUUID_eq. }
    constructor; auto.
    + intros u Eu. rewrite Eu in Huse, Hboth. bsimpl. cbn in Hboth. bsimpl. rewrite <-validObjectID_eq, <-validUUID_eq.
      split_and!; auto. by destruct (vo_pending v).
    + intros p Ep. rewrite Ep in Hp. rewrite check_then_ok, check_ok in Hp. destruct Hp as [Hp Hx]. bsimpl.
      rewrite <-validUUID_eq. split_and!; auto. intros Hk. rewrite Hk in Hx. cbn in Hx. bsimpl. auto.
  - intros []. split_and!; auto.
    1: apply vk_domain0. 1-3: apply vk_size0.
    + intros Hns. destruct (vo_attachment v) as [a|] eqn:Ea; [naive_solver|].
      destruct (vo_use v) as [u|] eqn:Eu; [|done]. destruct (vk_use0 u eq_refl) as (_&_&_&?&_). done.
    + destruct (vo_use v) as [u|] eqn:Eu; [|done]. destruct (vk_use0 u eq_refl) as (->&Ho&Hg&_&_).
      by rewrite validObjectID_eq, validUUID_eq, Ho, Hg.
    + destruct (vo_attachment v) as [a|] eqn:Ea; [|done]. destruct (vk_attachment0 a eq_refl) as (->&Hi&Hn&Hm).
      by rewrite validUUID_eq, validSessionName_eq, Hi, Hn, Hm.
    + destruct (vo_use v) as [u|] eqn:Eu; [|done]. destruct (vk_use0 u eq_refl) as (_&_&_&->&->). done.
    + destruct (vo_pending v) as [p|] eqn:Ep; [|done]. destruct (vk_pending0 p eq_refl) as (Hi&Hk&Hx).
      rewrite check_then_ok, check_ok, validUUID_eq, Hi, Hk. split; [done|].
      destruct (pe_kind p =s ExportSnapshotKind) eqn:E; [|done]. bsimpl. destruct (Hx E) as [Ha ->].
      rewrite Ha in vk_disk0 |- *. cbn in *. by rewrite vk_disk0.
Qed.

(** *** The record as written is the record as read *)

Lemma mount_bytes m : Workspacex.validMountPath m = true → plain_upto 255 m.
Proof.
  unfold Workspacex.validMountPath. intros H. rewrite !andb_true_iff, !negb_true_iff in H.
  destruct H as (((Hn & Hl) & Hp) & Hs). apply Nat.leb_gt in Hn. apply Nat.ltb_ge in Hl. apply String.eqb_eq in Hp.
  assert (str_all plain_byte m = true) as Ha.
  { rewrite (substring_split (String.length Workspacex.mount_prefix) m) by lia. rewrite str_all_app, Hp.
    rewrite validSessionName_eq in Hs. apply plain_ident in Hs as (-> & _). reflexivity. }
  split_and!; [done| |done]. apply coerce_ascii. eapply str_all_impl; [|exact Ha].
  unfold plain_byte. intros c. by intros [? _]%andb_true_iff.
Qed.
Lemma pending_kind_plain k : Workspacex.validPendingKind k = true → plain_upto 15 k.
Proof. intros H%in_literals. by eapply literal_plain. Qed.
Lemma volume_state_plain s : s ∈ [VolCreating; VolAvailable; VolFailed] → plain_upto 9 s.
Proof. intros H. by eapply literal_plain. Qed.

Lemma decode_marshalDisk d : uint64_ok (di_device d) = true → uint64_ok (di_inode d) = true → decodeDisk (marshalDisk d) = Ok d.
Proof. intros H1 H2. destruct d as [a b]. cbn in *. unfold decodeDisk, decode_object, marshalDisk. cbn. rewrite H1. cbn. by rewrite H2. Qed.
Lemma decode_marshalUse u : coerce_utf8 (us_kind u) = us_kind u → coerce_utf8 (us_object u) = us_object u →
  coerce_utf8 (us_generation u) = us_generation u → decodeUse (marshalUse u) = Ok u.
Proof. intros H1 H2 H3. destruct u. cbn in *. unfold decodeUse, decode_object, marshalUse, jstr. cbn. by rewrite H1, H2, H3. Qed.
Lemma decode_marshalAttachment a : coerce_utf8 (at_session_id a) = at_session_id a →
  coerce_utf8 (at_session_name a) = at_session_name a → coerce_utf8 (at_mount a) = at_mount a →
  decodeAttachment (marshalAttachment a) = Ok a.
Proof. intros H1 H2 H3. destruct a. cbn in *. unfold decodeAttachment, decode_object, marshalAttachment, jstr. cbn. by rewrite H1, H2, H3. Qed.
Lemma decode_marshalPending p : coerce_utf8 (pe_kind p) = pe_kind p → coerce_utf8 (pe_id p) = pe_id p →
  decodePending (marshalPending p) = Ok p.
Proof. intros H1 H2. destruct p. cbn in *. unfold decodePending, decode_object, marshalPending, jstr. cbn. by rewrite H1, H2. Qed.
#[global] Arguments decodeDisk : simpl never.
#[global] Arguments decodeUse : simpl never.
#[global] Arguments decodeAttachment : simpl never.
#[global] Arguments decodePending : simpl never.
#[global] Arguments marshalDisk : simpl never.
#[global] Arguments marshalUse : simpl never.
#[global] Arguments marshalAttachment : simpl never.
#[global] Arguments marshalPending : simpl never.

(** The optional fields decode to the options they encode. *)
Lemma decode_options dom v :
  volume_ok dom v → volume_ints v = true →
  (∀ d, vo_disk v = Some d → decodeDisk (marshalDisk d) = Ok d) ∧
  (∀ a, vo_attachment v = Some a → decodeAttachment (marshalAttachment a) = Ok a) ∧
  (∀ u, vo_use v = Some u → decodeUse (marshalUse u) = Ok u) ∧
  (∀ p, vo_pending v = Some p → decodePending (marshalPending p) = Ok p).
Proof.
  intros [] Hi. unfold volume_ints in Hi. bsimpl. split_and!.
  - intros d Ed. rewrite Ed in H0. bsimpl. by apply decode_marshalDisk.
  - intros a Ea. destruct (vk_attachment0 a Ea) as (_ & ? & ? & (_&?&_)%mount_bytes).
    apply decode_marshalAttachment; [by apply coerce_uuid|by apply coerce_ident|done].
  - intros u Eu. destruct (vk_use0 u Eu) as (Hk & ? & ? & _).
    apply decode_marshalUse; [by rewrite Hk|by apply coerce_objectid|by apply coerce_uuid].
  - intros p Ep. destruct (vk_pending0 p Ep) as (? & (_&?&_)%pending_kind_plain & _).
    apply decode_marshalPending; [done|by apply coerce_uuid].
Qed.
Lemma decode_marshalVolume dom v : volume_ok dom v → volume_ints v = true → decodeVolume (marshalVolume v) dom = Ok v.
Proof.
  intros Hv Hi. pose proof (decode_options _ _ Hv Hi) as (HD & HA & HU & HP).
  apply andb_true_iff in Hi as [Hi _]. pose proof (proj2 (validateVolume_ok dom v tt) Hv) as Hval.
  pose proof Hv as [].
  pose proof (volume_state_plain _ vk_state0) as (_ & Hst & _). destruct vk_domain0 as [Hd Hd'].
  apply coerce_ident in Hd'. apply coerce_uuid in vk_id0, vk_uuid0.
  destruct v as [ver vd id size fmt uuid st disk att use pend]; cbn in *. subst ver fmt vd.
  unfold decodeVolume, decode_object, marshalVolume, jstr. cbn.
  change (int64_ok 1) with true. cbn. rewrite Hi. cbn.
  rewrite Hd', vk_id0, vk_uuid0, Hst. change (coerce_utf8 FormatRawExt4) with FormatRawExt4.
  destruct disk as [d|], att as [a|], use as [us|], pend as [p|];
    do 5 (cbn; rewrite ?(HD _ eq_refl), ?(HA _ eq_refl), ?(HU _ eq_refl), ?(HP _ eq_refl)); by rewrite Hval.
Qed.

(** *** The encoding fits its bound *)

Lemma marshalDisk_size d : uint64_ok (di_device d) = true → uint64_ok (di_inode d) = true → (json_size (marshalDisk d) ≤ 80)%N.
Proof.
  unfold uint64_ok. rewrite !andb_true_iff, !Z.leb_le, !Z.ltb_lt. intros H1 H2.
  assert (json_size (JNum (di_device d)) ≤ N.of_nat 20)%N by (apply num_size_le; lia).
  assert (json_size (JNum (di_inode d)) ≤ N.of_nat 20)%N by (apply num_size_le; lia).
  eapply N.le_trans; [unfold marshalDisk; obj_size_tac|]. size_lia.
Qed.
Lemma marshalAttachment_size a : Session.validUUID (at_session_id a) = true →
  Lock.validLowerIdentifier (at_session_name a) = true → Workspacex.validMountPath (at_mount a) = true →
  (json_size (marshalAttachment a) ≤ 420)%N.
Proof.
  intros (?&?&?)%plain_uuid (?&?&?)%plain_ident (?&?&?)%mount_bytes.
  eapply N.le_trans; [unfold marshalAttachment; obj_size_tac|]. size_lia.
Qed.
Lemma marshalUse_size u : us_kind u = "tart" → Session.validBackendObjectID (us_object u) = true →
  Session.validUUID (us_generation u) = true → (json_size (marshalUse u) ≤ 240)%N.
Proof.
  intros Hk (?&?&?)%plain_objectid (?&?&?)%plain_uuid. unfold marshalUse. rewrite Hk.
  eapply N.le_trans; [obj_size_tac|]. size_lia.
Qed.
Lemma marshalPending_size p : Session.validUUID (pe_id p) = true → Workspacex.validPendingKind (pe_kind p) = true →
  (json_size (marshalPending p) ≤ 80)%N.
Proof.
  intros (?&?&?)%plain_uuid (?&?&?)%pending_kind_plain.
  eapply N.le_trans; [unfold marshalPending; obj_size_tac|]. size_lia.
Qed.
Lemma optfield_size {A} k (enc : A → json) o fs n : (∀ a, o = Some a → (json_size (enc a) ≤ n)%N) →
  (json_size (JObj (optfield k enc o ++ fs)) ≤ (str_size k + 4 + n) + json_size (JObj fs))%N.
Proof.
  intros H. destruct o as [a|]; cbn [optfield app]; [|lia].
  pose proof (obj_size_cons k (enc a) fs). specialize (H a eq_refl). lia.
Qed.
Lemma marshalVolume_size dom v : volume_ok dom v → volume_ints v = true → (json_size (marshalVolume v) < 4096)%N.
Proof.
  intros [] Hi. unfold volume_ints in Hi. apply andb_true_iff in Hi as [_ Hi].
  pose proof (volume_state_plain _ vk_state0) as (?&?&?). destruct vk_domain0 as [Hd (?&?&?)%plain_ident].
  apply plain_uuid in vk_id0 as (?&?&?), vk_uuid0 as (?&?&?).
  assert (json_size (JNum (vo_size v)) ≤ N.of_nat 14)%N by (apply num_size_le; lia).
  pose proof (optfield_size "pending" marshalPending (vo_pending v) [] 80) as HP.
  pose proof (optfield_size "use" marshalUse (vo_use v) (optfield "pending" marshalPending (vo_pending v) ++ []) 240) as HU.
  pose proof (optfield_size "attachment" marshalAttachment (vo_attachment v)
    (optfield "use" marshalUse (vo_use v) ++ optfield "pending" marshalPending (vo_pending v) ++ []) 420) as HA.
  pose proof (optfield_size "disk" marshalDisk (vo_disk v) (optfield "attachment" marshalAttachment (vo_attachment v) ++
    optfield "use" marshalUse (vo_use v) ++ optfield "pending" marshalPending (vo_pending v) ++ []) 80) as HD.
  rewrite app_nil_r in *.
  specialize (HP ltac:(intros p Ep; destruct (vk_pending0 p Ep) as (?&?&_); by apply marshalPending_size)).
  specialize (HU ltac:(intros u Eu; destruct (vk_use0 u Eu) as (?&?&?&_); by apply marshalUse_size)).
  specialize (HA ltac:(intros a Ea; destruct (vk_attachment0 a Ea) as (?&?&?&?); by apply marshalAttachment_size)).
  specialize (HD ltac:(intros d Ed; rewrite Ed in Hi; bsimpl; by apply marshalDisk_size)).
  unfold marshalVolume. rewrite vk_version0, Hd, vk_format0. cbn [app].
  eapply N.le_lt_trans; [obj_size_tac|]. size_lia.
Qed.

(** *** Files *)

(** The record of one volume, as its readers see it. *)
Definition volume_at (dom volumeID : string) : disk → option Volume :=
  view (parseVolume dom volumeID) Workspaces (json_name volumeID).

Lemma parse_volumeFile dom v : volume_ok dom v → volume_ints v = true → parseVolume dom (vo_id v) (volumeFile v) = Ok v.
Proof.
  intros Hv Hi. unfold parseVolume, single_doc. pose proof (marshalVolume_size _ _ Hv Hi).
  replace (maxRecordBytes <? file_size (volumeFile v))%N with false
    by (symmetry; apply N.ltb_ge; unfold maxRecordBytes, volumeFile, json_file; cbn [file_size]; lia).
  cbn [volumeFile json_file file_docs res_bind]. rewrite (decode_marshalVolume _ _ Hv Hi). cbn [res_bind].
  by rewrite eqs_refl.
Qed.
Lemma volume_field_ints n x v v' : volume_ints v = true → volume_field n x v = Some (Ok v') → volume_ints v' = true.
Proof.
  unfold volume_ints, volume_field. destruct v as [ver vd id size fmt uuid st dk att use pend]. cbn. intros Hv.
  rewrite andb_true_iff in Hv. destruct Hv as [Hs Hd].
  repeat match goal with |- (if ?b then _ else _) = _ → _ => destruct b end; try discriminate; intros [= H]; res_inv H; injection H as <-; cbn;
    rewrite ?Hs; try done.
  - unfold get_int in Ha. destruct x; try discriminate; [by injection Ha as <-; rewrite Hs|].
    destruct (int64_ok z) eqn:E; [|done]. injection Ha as <-. by rewrite E.
  - unfold decodeDisk in Ha. apply res_bind_ok in Ha as ([d seen] & Hl & Ha). cbv beta iota in Ha. rewrite check_then_ok in Ha.
    destruct Ha as [_ [= <-]]. destruct x; try discriminate. cbn in Hl.
    apply (object_loop_inv disk_field (λ _ d, uint64_ok (di_device d) && uint64_ok (di_inode d) = true)) in Hl; [done| |done].
    intros n' y _ [a1 a2] d' Hi. unfold disk_field, get_uint64. cbn in *. apply andb_true_iff in Hi as [H1 H2].
    repeat match goal with |- (if ?b then _ else _) = _ → _ => destruct b end; try discriminate; intros [= H]; res_inv H; injection H as <-; cbn;
      destruct y; try discriminate; (try match type of Ha with (if ?b then _ else _) = _ => destruct b eqn:E; [|done] end);
      injection Ha as <-; by rewrite ?H1, ?H2, ?E.
Qed.
Lemma parseVolume_ok dom id f v :
  parseVolume dom id f = Ok v → vo_id v = id ∧ volume_ok dom v ∧ volume_ints v = true.
Proof.
  unfold parseVolume. intros H. res_inv H. injection H as <-. apply check_ok in Ha1. bsimpl.
  split; [done|]. unfold decodeVolume in Ha0. apply res_bind_ok in Ha0 as ([r seen] & Hl & Ha0). cbv beta iota in Ha0.
  rewrite check_then_ok, unit_then_ok in Ha0. destruct Ha0 as (_ & Hv & [= <-]).
  split; [by eapply validateVolume_ok|]. destruct a; try discriminate. cbn in Hl.
  apply (object_loop_inv volume_field (λ _ v, volume_ints v = true)) in Hl; [done| |done].
  intros n y _ v v' Hi Hf. by eapply volume_field_ints.
Qed.
Lemma volume_at_ok dom id k v : volume_at dom id k = Some v → vo_id v = id ∧ volume_ok dom v ∧ volume_ints v = true.
Proof. intros (f & _ & H)%view_Some. by eapply parseVolume_ok. Qed.
Lemma volume_at_written dom v k : volume_ok dom v → volume_ints v = true →
  volume_at dom (vo_id v) (<[(Workspaces, json_name (vo_id v)) := EFile (volumeFile v)]> k) = Some v.
Proof. intros Hv Hi. by apply view_insert, parse_volumeFile. Qed.
Lemma volume_at_written_ne dom v w k : vo_id v ≠ w →
  volume_at dom w (<[(Workspaces, json_name (vo_id v)) := EFile (volumeFile v)]> k) = volume_at dom w k.
Proof. intros Hne. apply view_insert_ne. by intros [= ?%json_name_inj]. Qed.

Lemma plain_validateVolume dom v : plain (validateVolume dom v).
Proof. unfold validateVolume, validateVolumeState. plain_tac. Qed.
Lemma plain_parts x : plain (decodeDisk x) ∧ plain (decodeUse x) ∧ plain (decodeAttachment x) ∧ plain (decodePending x).
Proof.
  unfold decodeDisk, decodeUse, decodeAttachment, decodePending.
  split_and!; plain_tac; apply plain_decode_object; unfold disk_field, use_field, attachment_field, pending_field; plain_field.
Qed.
Lemma plain_decodeVolume j dom : plain (decodeVolume j dom).
Proof.
  unfold decodeVolume. plain_tac; try apply plain_validateVolume.
  apply plain_decode_object. unfold volume_field. intros n x [] r. destruct (plain_parts x) as (?&?&?&?).
  plain_cases; eauto with plain.
Qed.
Lemma plain_parseVolume dom id f : plain (parseVolume dom id f).
Proof. unfold parseVolume. plain_tac; apply plain_decodeVolume. Qed.
#[export] Hint Resolve plain_validateVolume plain_decodeVolume plain_parseVolume : plain.

(** ** Properties *)

(** Every valid record whose machine integers are in range is read back
    from the file it is written to unchanged, and the file is far below the size
    every reader enforces; conversely a reader only ever returns valid records
    of the domain and volume it asked for. *)
Theorem volume_roundtrip (dom : string) (v : Volume) (f : file) (id : string) (v' : Volume) :
  (validateVolume dom v = Ok tt → volume_ints v = true →
     parseVolume dom (vo_id v) (volumeFile v) = Ok v ∧ (file_size (volumeFile v) < 2 ^ 13)%N) ∧
  (parseVolume dom id f = Ok v' → validateVolume dom v' = Ok tt ∧ volume_ints v' = true ∧ vo_id v' = id ∧ vo_domain v' = dom).
Proof.
  rewrite !validateVolume_ok. split.
  - intros Hv Hi. split; [by apply parse_volumeFile|]. pose proof (marshalVolume_size _ _ Hv Hi).
    unfold volumeFile, json_file. cbn [file_size]. lia.
  - intros (Hid & Hv & Hi)%parseVolume_ok. split_and!; [done..|]. apply Hv.
Qed.
Definition example_volume : Volume :=
  mkVolume 1 "work" "0a0a0a0a-bbbb-4ccc-8ddd-eeeeeeeeeeee" 1048576 FormatRawExt4 "1b1b1b1b-bbbb-4ccc-8ddd-eeeeeeeeeeee" VolAvailable
    (Some (mkDisk 16777220 18446744073709551615))
    (Some (mkAttachment "01234567-89ab-4def-8123-456789abcdef" "dev" "/home/boxwarden/workspaces/src")) None None.
Lemma volume_roundtrip_witness :
  validateVolume "work" example_volume = Ok tt ∧
  parseVolume "work" "0a0a0a0a-bbbb-4ccc-8ddd-eeeeeeeeeeee" (volumeFile example_volume) = Ok example_volume.
Proof.
  split; [reflexivity|].
  apply (volume_roundtrip "work" example_volume (volumeFile example_volume) "" example_volume); reflexivity.
Defined.
