(* ===== verification/ExportJournal.v ===== *)
(** The export transaction journal of src/internal/workspacex/export_journal.go:
    its record, validation, strict decoder and encoder, exclusive creation and
    phase advancement. *)
From S2P Require Import Prelude Ids Json SessionRecord Outside World Host Logic WorkspaceRecord.

Definition maxExportJournalBytes : N := 64 * 2 ^ 10.
Definition maxAlphaExportVolumeBytes : Z := 4 * 2 ^ 30.

Abbreviation ExportCopying := "copying"%string.
Abbreviation ExportAborted := "aborted"%string.
Abbreviation ExportSnapshotReady := "snapshot-ready"%string.
Abbreviation ExportInspected := "inspected"%string.
Abbreviation ExportPublished := "published"%string.

Record ExportSnapshot := mkExportSnapshot { es_identity : DiskIdentity; es_sha256 : string }.
#[export] Instance ExportSnapshot_eq_dec : EqDecision ExportSnapshot.
Proof. solve_decision. Defined.
Record ExportJournal := mkExportJournal {
  ej_version : Z;
  ej_id : string;
  ej_domain : string;
  ej_volume : string;
  ej_session_id : string;
  ej_session_name : string;
  ej_backend : string;
  ej_uuid : string;
  ej_size : Z;
  ej_source : DiskIdentity;
  ej_snapshot_path : string;
  ej_parent : string;
  ej_destination : DiskIdentity;
  ej_selected : list string;
  ej_phase : string;
  ej_snapshot : option ExportSnapshot;
}.
#[export] Instance ExportJournal_eq_dec : EqDecision ExportJournal.
Proof. solve_decision. Defined.

Definition zeroExportJournal : ExportJournal :=
  mkExportJournal 0 "" "" "" "" "" "" "" 0 (mkDisk 0 0) "" "" (mkDisk 0 0) [] "" None.
Definition set_export_phase (p : string) (s : option ExportSnapshot) (j : ExportJournal) : ExportJournal :=
  mkExportJournal (ej_version j) (ej_id j) (ej_domain j) (ej_volume j) (ej_session_id j) (ej_session_name j)
    (ej_backend j) (ej_uuid j) (ej_size j) (ej_source j) (ej_snapshot_path j) (ej_parent j) (ej_destination j)
    (ej_selected j) p s.

(** ** Validation *)

Definition validSHA256 (value : string) : bool :=
  (String.length value =? 64)%nat && str_all is_lower_hex value.

Definition selection_byte (c : ascii) : bool :=
  isAlphaNumeric c || Ascii.eqb c "." || Ascii.eqb c "_" || Ascii.eqb c "-".
Definition validExportSelection (value : string) : bool :=
  negb (String.length value =? 0)%nat && negb (512 <? String.length value)%nat &&
  negb (has_prefix "/" value) && negb (isSome (strip_suffix "/" value)) &&
  let components := split_slash "" value in
  negb (16 <? length components)%nat &&
  forallb (λ component, (component ≠s "") && (component ≠s ".") && (component ≠s "..") &&
                        negb (64 <? String.length component)%nat && str_all selection_byte component) components.

(** [strings.ToLower] on the ASCII strings that pass [validExportSelection]. *)
Definition lower_byte (c : ascii) : ascii := if is_upper c then ascii_of_N (N_of_ascii c + 32) else c.
Fixpoint ToLower (s : string) : string :=
  match s with EmptyString => EmptyString | String c r => String (lower_byte c) (ToLower r) end.
Fixpoint validSelections (seen selected : list string) : bool :=
  match selected with
  | [] => true
  | s :: rest => validExportSelection s && negb (existsb (String.eqb (ToLower s)) seen) && validSelections (ToLower s :: seen) rest
  end.

Definition validateExportJournal (j : ExportJournal) : res unit :=
  check ((ej_version j =? 1) && Workspacex.validUUID (ej_id j) &&
         (ej_id j ≠s "00000000-0000-0000-0000-000000000000") &&
         Workspacex.validUUID (ej_volume j) && Workspacex.validUUID (ej_session_id j) &&
         Workspacex.validSessionName (ej_session_name j) && Workspacex.validObjectID (ej_backend j) &&
         Workspacex.validUUID (ej_uuid j) && (4096 <=? ej_size j) && (ej_size j <=? maxAlphaExportVolumeBytes) &&
         (Z.rem (ej_size j) 512 =? 0) && disk_nonzero (ej_source j) && disk_nonzero (ej_destination j) &&
         (ej_snapshot_path j =s path_join "exports" [ej_id j; "snapshot.raw"%string]) && canonical_abs (ej_parent j))
        "invalid export transaction binding" ;;?
  Domain.Parse (ej_domain j) ;;?
  check (negb (length (ej_selected j) =? 0)%nat && negb (1024 <? length (ej_selected j))%nat) "invalid export selection count" ;;?
  check (validSelections [] (ej_selected j)) "invalid or colliding export selection" ;;?
  if (ej_phase j =s ExportCopying) || (ej_phase j =s ExportAborted) then
    check (isNone (ej_snapshot j)) "copying or aborted export cannot claim a snapshot"
  else if (ej_phase j =s ExportSnapshotReady) || (ej_phase j =s ExportInspected) || (ej_phase j =s ExportPublished) then
    check (match ej_snapshot j with
           | Some s => disk_nonzero (es_identity s) && bool_decide (es_identity s ≠ ej_source j) && validSHA256 (es_sha256 s)
           | None => false end) "export lacks exact private snapshot identity"
  else fail "invalid export phase".

(** ** Encoding and decoding *)

Definition marshalSnapshot (s : ExportSnapshot) : json :=
  JObj [("identity", marshalDisk (es_identity s)); ("sha256", jstr (es_sha256 s))].
Definition marshalExportJournal (j : ExportJournal) : json :=
  JObj ([("version", JNum (ej_version j)); ("id", jstr (ej_id j)); ("domain", jstr (ej_domain j));
         ("volume_id", jstr (ej_volume j)); ("session_id", jstr (ej_session_id j));
         ("session_name", jstr (ej_session_name j)); ("backend_object", jstr (ej_backend j));
         ("filesystem_uuid", jstr (ej_uuid j)); ("size_bytes", JNum (ej_size j));
         ("source", marshalDisk (ej_source j)); ("snapshot_path", jstr (ej_snapshot_path j));
         ("destination_parent", jstr (ej_parent j)); ("destination", marshalDisk (ej_destination j));
         ("selected", JArr (map jstr (ej_selected j))); ("phase", jstr (ej_phase j))] ++
        optfield "snapshot" marshalSnapshot (ej_snapshot j)).
Definition exportFile (j : ExportJournal) : file := json_file (marshalExportJournal j).
Definition encodeExportJournal (j : ExportJournal) : res file :=
  check (negb (maxExportJournalBytes <? file_size (exportFile j))%N) "export journal exceeds limit" ;;?
  Ok (exportFile j).

(** [json.Unmarshal] into a nil [[]string]. *)
Fixpoint get_string_list (l : list json) : res (list string) :=
  match l with
  | [] => Ok []
  | v :: rest => let? s := get_string v "" in let? r := get_string_list rest in Ok (s :: r)
  end.
Definition get_strings (v : json) (old : list string) : res (list string) :=
  match v with JArr l => get_string_list l | JNull => Ok old | _ => fail "cannot unmarshal into []string" end.

Definition snapshot_field (name : string) (v : json) (s : ExportSnapshot) : option (res ExportSnapshot) :=
  if name =s "identity" then Some (let? d := decodeDisk v in Ok (mkExportSnapshot d (es_sha256 s)))
  else if name =s "sha256" then Some (let? x := get_string v (es_sha256 s) in Ok (mkExportSnapshot (es_identity s) x))
  else None.
Definition decodeSnapshot (v : json) : res ExportSnapshot :=
  let? (s, seen) := decode_object snapshot_field v (mkExportSnapshot (mkDisk 0 0) "") in
  check (seen_all ["identity"; "sha256"] seen) "invalid snapshot fields" ;;? Ok s.

Definition export_field (name : string) (v : json) (j : ExportJournal) : option (res ExportJournal) :=
  let '(mkExportJournal ver id dom vol sid sn be uuid size src sp par dst sel ph snap) := j in
  if name =s "version" then Some (let? x := get_int v ver in Ok (mkExportJournal x id dom vol sid sn be uuid size src sp par dst sel ph snap))
  else if name =s "id" then Some (let? x := get_string v id in Ok (mkExportJournal ver x dom vol sid sn be uuid size src sp par dst sel ph snap))
  else if name =s "domain" then Some (let? x := get_string v dom in Ok (mkExportJournal ver id x vol sid sn be uuid size src sp par dst sel ph snap))
  else if name =s "volume_id" then Some (let? x := get_string v vol in Ok (mkExportJournal ver id dom x sid sn be uuid size src sp par dst sel ph snap))
  else if name =s "session_id" then Some (let? x := get_string v sid in Ok (mkExportJournal ver id dom vol x sn be uuid size src sp par dst sel ph snap))
  else if name =s "session_name" then Some (let? x := get_string v sn in Ok (mkExportJournal ver id dom vol sid x be uuid size src sp par dst sel ph snap))
  else if name =s "backend_object" then Some (let? x := get_string v be in Ok (mkExportJournal ver id dom vol sid sn x uuid size src sp par dst sel ph snap))
  else if name =s "filesystem_uuid" then Some (let? x := get_string v uuid in Ok (mkExportJournal ver id dom vol sid sn be x size src sp par dst sel ph snap))
  else if name =s "size_bytes" then Some (let? x := get_int v size in Ok (mkExportJournal ver id dom vol sid sn be uuid x src sp par dst sel ph snap))
  else if name =s "source" then Some (let? x := decodeDisk v in Ok (mkExportJournal ver id dom vol sid sn be uuid size x sp par dst sel ph snap))
  else if name =s "snapshot_path" then Some (let? x := get_string v sp in Ok (mkExportJournal ver id dom vol sid sn be uuid size src x par dst sel ph snap))
  else if name =s "destination_parent" then Some (let? x := get_string v par in Ok (mkExportJournal ver id dom vol sid sn be uuid size src sp x dst sel ph snap))
  else if name =s "destination" then Some (let? x := decodeDisk v in Ok (mkExportJournal ver id dom vol sid sn be uuid size src sp par x sel ph snap))
  else if name =s "selected" then Some (let? x := get_strings v sel in Ok (mkExportJournal ver id dom vol sid sn be uuid size src sp par dst x ph snap))
  else if name =s "phase" then Some (let? x := get_string v ph in Ok (mkExportJournal ver id dom vol sid sn be uuid size src sp par dst sel x snap))
  else if name =s "snapshot" then Some (let? x := decodeSnapshot v in Ok (mkExportJournal ver id dom vol sid sn be uuid size src sp par dst sel ph (Some x)))
  else None.

Definition export_required : list string :=
  ["version"; "id"; "domain"; "volume_id"; "session_id"; "session_name"; "backend_object"; "filesystem_uuid"; "size_bytes";
   "source"; "snapshot_path"; "destination_parent"; "destination"; "selected"; "phase"].
Definition decodeExportJournal (v : json) : res ExportJournal :=
  let? (j, seen) := decode_object export_field v zeroExportJournal in
  check (seen_all export_required seen) "export journal missing field" ;;?
  validateExportJournal j ;;? Ok j.

(** What a file holds for one domain and transaction. *)
Definition parseExport (expectedDomain id : string) (f : file) : res ExportJournal :=
  let? v := single_doc maxExportJournalBytes f in
  let? j := decodeExportJournal v in
  check ((ej_id j =s id) && (ej_domain j =s expectedDomain)) "export journal identity differs from requested domain or transaction" ;;?
  Ok j.

Definition validExportPhaseAdvance (old next : ExportJournal) : bool :=
  if ej_phase old =s ExportCopying then
    (ej_phase next =s ExportSnapshotReady) && isSome (ej_snapshot next) || (ej_phase next =s ExportAborted) && isNone (ej_snapshot next)
  else if ej_phase old =s ExportSnapshotReady then (ej_phase next =s ExportInspected) && bool_decide (ej_snapshot next = ej_snapshot old)
  else if ej_phase old =s ExportInspected then (ej_phase next =s ExportPublished) && bool_decide (ej_snapshot next = ej_snapshot old)
  else false.

(** ** Operations *)
Section operations.
Context {B : Type} {E : Env}.

Definition createExportJournal (journal : ExportJournal) : M B unit :=
  guard (ej_phase journal ≠s ExportCopying) "new export must begin copying" ;;!
  lift (validateExportJournal journal) ;;!
  let! raw := lift (encodeExportJournal journal) in
  fs_create Exports (json_name (ej_id journal)) raw.

Definition loadExportJournalFromRoot (expectedDomain id : string) : M B ExportJournal :=
  let! f := fs_read Exports (json_name id) in
  lift (parseExport expectedDomain id f).
Definition loadExportJournal (expectedDomain id : string) : M B ExportJournal :=
  guard (negb (Workspacex.validUUID id)) "invalid export transaction ID" ;;!
  lift (Domain.Parse expectedDomain) ;;!
  loadExportJournalFromRoot expectedDomain id.

Definition advanceExportJournalLocked (expected next : ExportJournal) : M B unit :=
  lift (validateExportJournal expected) ;;!
  lift (validateExportJournal next) ;;!
  guard (bool_decide (set_export_phase (ej_phase expected) (ej_snapshot expected) next ≠ expected) ||
         negb (validExportPhaseAdvance expected next)) "invalid export journal transition" ;;!
  let! current := wrapv "export journal changed before transition"
                    (loadExportJournalFromRoot (ej_domain expected) (ej_id expected)) in
  guard (bool_decide (current ≠ expected)) "export journal changed before transition" ;;!
  let! raw := lift (encodeExportJournal next) in
  fs_replace Exports (json_name (ej_id next)) raw.

Definition advanceExportJournal (expected next : ExportJournal) : M B unit :=
  lift (validateExportJournal expected) ;;!
  let scope := Lock.export_scope (ej_domain expected) (ej_id expected) in
  Acquire scope ;;!
  deferred_ignore scope (advanceExportJournalLocked expected next).
End operations.

(** ** Lemmas *)

(** The journal a file of the state root holds. *)
Definition export_at (dom id : string) : disk → option ExportJournal := view (parseExport dom id) Exports (json_name id).
Lemma parseExport_ok dom id f j :
  parseExport dom id f = Ok j → ej_id j = id ∧ ej_domain j = dom ∧ validateExportJournal j = Ok tt.
Proof.
  unfold parseExport. intros H. res_inv H. injection H as <-. apply check_ok in Ha1. bsimpl.
  split; [done|]. split; [done|]. unfold decodeExportJournal in Ha0. apply res_bind_ok in Ha0 as ([r seen] & _ & Ha0). cbv beta iota in Ha0.
  rewrite check_then_ok, unit_then_ok in Ha0. by destruct Ha0 as (_ & Hv & [= <-]).
Qed.
Lemma export_at_ok dom id k j :
  export_at dom id k = Some j → ej_id j = id ∧ ej_domain j = dom ∧ validateExportJournal j = Ok tt.
Proof. intros (f & _ & Hp)%view_Some. by apply parseExport_ok in Hp. Qed.
Section loads.
Context {B : Type} {E : Env}.
Implicit Types w : world B.
Lemma quiet_loadExportJournalFromRoot dom id : quiet (loadExportJournalFromRoot dom id : M B _).
Proof. unfold loadExportJournalFromRoot. quiet_tac. Qed.
Lemma quiet_loadExportJournal dom id : quiet (loadExportJournal dom id : M B _).
Proof. unfold loadExportJournal. quiet_tac; apply quiet_loadExportJournalFromRoot. Qed.
Lemma loadExportJournalFromRoot_ok dom id w j w' :
  loadExportJournalFromRoot dom id w = (Ok j, w') → export_at dom id (w_disk w) = Some j.
Proof. unfold loadExportJournalFromRoot. intros H. ok_inv. apply fs_read_ok in Ha as [Hf ->]. apply view_Some. eauto. Qed.
Lemma loadExportJournal_ok dom id w j w' :
  loadExportJournal dom id w = (Ok j, w') → export_at dom id (w_disk w) = Some j.
Proof. unfold loadExportJournal. intros H. ok_inv. by eapply loadExportJournalFromRoot_ok. Qed.
End loads.
#[export] Hint Resolve quiet_loadExportJournalFromRoot quiet_loadExportJournal : quiet.
