(* ===== verification/Receiver.v ===== *)
(** The receiver of an export (src/internal/exportx/receiver.go, parent.go): a
    typed stream of directories and files, written by an untrusted guest, is
    built into a private staging directory and published under the name of its
    transaction by one rename that replaces nothing. The file system is the
    parent directory's entries, each a tree of paths; every system call may
    fail, and cancellation, free space and the identity of the parent are
    questions to the operating system. *)
From S2P Require Import Prelude Ids Bytes Json JsonText Outside World Logic ExportJournal.

(** ** The wire format *)

Definition headerSize : nat := 22.
Definition recordSize : nat := 47.
Definition maxPathBytes : Z := 512.
Definition hardMaxChunk : Z := 2 ^ 20.
Abbreviation recordDirectory := 1%Z.
Abbreviation recordFile := 2%Z.
Abbreviation recordChunk := 3%Z.
Abbreviation recordFileEnd := 4%Z.
Abbreviation recordTerminal := 5%Z.

Record Options := mkOptions {
  op_parent : string; op_transaction : string; op_selected : list string; op_max_chunk : Z; op_max_file : Z; op_max_total : Z;
  op_max_files : Z; op_max_dirs : Z; op_min_free : Z }.
(** [writeFrame] of the sender: the fixed header, the path and the payload. *)
Definition frame (kind : Z) (name payload : string) (declared : Z) (digest : string) : string :=
  String (byte_at kind) (put_be 2 (Z.of_nat (String.length name)) +:+ put_be 4 (Z.of_nat (String.length payload)) +:+ put_be 8 declared +:+
                         digest +:+ name +:+ payload).
(** One fixed header, decoded. *)
Record record := mkRecord { rd_kind : Z; rd_path : Z; rd_chunk : Z; rd_declared : Z; rd_digest : string }.
Definition decodeRecord (raw : string) : record :=
  mkRecord (be 0 (str_take 1 raw)) (be 0 (str_take 2 (str_drop 1 raw))) (be 0 (str_take 4 (str_drop 3 raw)))
    (be 0 (str_take 8 (str_drop 7 raw))) (str_take 32 (str_drop 15 raw)).
Definition noDigest : string := str_repeat "000" 32.
Definition zeroDigest (d : string) : bool := d =s noDigest.
Definition equalDigest `{Digests} (data digest : string) : bool := sha256 data =s hexEncode digest.

(** ** Paths *)

(** The same text as [validExportSelection] of the export journal. *)
Definition validPath (name : string) : bool := validExportSelection name.
(** [path.Dir] of a relative path without dots or doubled slashes. *)
Fixpoint before_slash (s : string) : option string :=
  match s with
  | EmptyString => None
  | String c r => match before_slash r with
                  | Some d => Some (String c d)
                  | None => if Ascii.eqb c "/" then Some EmptyString else None
                  end
  end.
Definition path_dir (name : string) : string := default "."%string (before_slash name).
(** What was received under a folded name. *)
Abbreviation seen_paths := (gmap string (Z * string)).
Definition admitPath (name : string) (seen : seen_paths) : res unit :=
  check (validPath name) "unsafe export path" ;;?
  check (isNone (seen !! ToLower name)) "duplicate or case-folded export path" ;;?
  let parent := path_dir name in
  if parent =s "." then Ok tt
  else match seen !! ToLower parent with
       | Some (kind, spelled) => check ((kind =? recordDirectory) && (spelled =s parent))
                                   "export parent is absent, not a directory, or has different case"
       | None => fail "export parent is absent, not a directory, or has different case"
       end.
Definition admitSelectedPath (name : string) (kind : Z) (selected : list string) : res unit :=
  match selected with
  | [] => Ok tt
  | _ => check (existsb (λ choice, (name =s choice) || has_prefix (choice +:+ "/") name ||
                                   ((kind =? recordDirectory) && has_prefix (name +:+ "/") choice)) selected)
           "received path is outside host selection"
  end.
Definition validateOptions (o : Options) : res unit :=
  check (negb ((op_parent o =s "") || (op_transaction o =s str_repeat "000" 16) || (op_max_chunk o =? 0) || (hardMaxChunk <? op_max_chunk o) ||
               (op_max_file o =? 0) || (op_max_total o =? 0) || (op_max_files o =? 0) || (op_max_dirs o =? 0) || (op_min_free o =? 0)))
        "invalid export receiver options" ;;?
  check (negb (1024 <? length (op_selected o))%nat) "too many selected export paths" ;;?
  check (validSelections [] (op_selected o)) "invalid or colliding selected export path".
(** [checkSpace]: the multiplication saturates. *)
Definition spaceOf (reserve incoming : Z) (stat : Z * Z) : res unit :=
  let '(bsize, blocks) := stat in
  check (negb (bsize <=? 0)) "invalid export filesystem block size" ;;?
  let product := (blocks * bsize) mod 2 ^ 64 in
  let available := if negb (blocks =? 0) && negb (product / bsize =? blocks) then 2 ^ 64 - 1 else product in
  check (negb ((available <? incoming) || ((available - incoming) mod 2 ^ 64 <? reserve))) "export filesystem free space below reserve".

(** ** The parent directory and the stream *)

Inductive node := NDir | NFile (content : string).
Abbreviation tree := (gmap string node).
Record spool := mkSpool { sp_input : string; sp_entries : gmap string tree }.
Class ReceiverPlatform := {
  rp_random : nat → string;             (* sixteen bytes, in hexadecimal *)
  rp_statfs : nat → res (Z * Z);        (* block size and available blocks *)
  rp_parent : nat → res unit;           (* openPrivateParent, samePrivateParent *)
  rp_canceled : nat → bool;
}.
(** The file being received. *)
Record activeFile := mkActive { af_name : string; af_declared : Z; af_data : string }.
Record progress := mkProgress {
  pg_seen : seen_paths; pg_directories : list string; pg_current : option activeFile; pg_files : Z; pg_dirs : Z; pg_total : Z }.
Definition af_written (a : activeFile) : Z := Z.of_nat (String.length (af_data a)).

Section receiver.
Context {E : Env} {P : ReceiverPlatform} {D : Digests}.

Definition ctxErr : M spool unit := let! c := ask (λ n, Ok (rp_canceled n)) in guard c "context canceled".
Definition checkSpace (reserve incoming : Z) : M spool unit := let! stat := ask rp_statfs in lift (spaceOf reserve incoming stat).
(** Cancellation takes precedence over what the closed stream reports. *)
Definition streamError {A} (m : M spool A) : M spool A :=
  let! r := attempt m in
  match r with Ok a => ret a | Er e => ctxErr ;;! throw e end.
(** [io.ReadFull] *)
Definition ReadFull (n : nat) : M spool string :=
  host_try (λ b, if (String.length (sp_input b) <? n)%nat then (fail "unexpected EOF", mkSpool EmptyString (sp_entries b))
                 else (Ok (str_take n (sp_input b)), mkSpool (str_drop n (sp_input b)) (sp_entries b))).
(** Whether a read of one byte more ends with [io.EOF]. *)
Definition atEOF : M spool bool := host_try (λ b, (Ok (sp_input b =s ""), b)).
Definition readRecord : M spool record :=
  let! raw := wrap "record header" (ReadFull recordSize) in
  ret (decodeRecord raw).

(** A change of the staging tree. *)
Definition on_stage {A} (staging : string) (f : tree → res A * tree) : M spool A :=
  host_try (λ b, match sp_entries b !! staging with
                 | None => (fail "no such directory", b)
                 | Some t => let '(r, t') := f t in (r, mkSpool (sp_input b) (<[staging := t']> (sp_entries b)))
                 end).
Definition is_dir (t : tree) (name : string) : bool :=
  (name =s ".") || match t !! name with Some NDir => true | _ => false end.
(** [Mkdir], or [OpenFile] with [O_CREATE|O_EXCL]. *)
Definition stage_new (staging name : string) (what : node) : M spool unit :=
  on_stage staging (λ t, match t !! name with
                         | Some _ => (fail "file exists", t)
                         | None => if is_dir t (path_dir name) then (Ok tt, <[name := what]> t) else (fail "no such directory", t)
                         end).
Definition stage_write (staging name bytes : string) : M spool unit :=
  on_stage staging (λ t, match t !! name with
                         | Some (NFile content) => (Ok tt, <[name := NFile (content +:+ bytes)]> t)
                         | _ => (fail "bad file descriptor", t)
                         end).
Definition stage_sync (staging : string) : M spool unit := on_stage staging (λ t, (Ok tt, t)).
(** A fresh directory of the parent; [false] when the name is taken. *)
Definition stage_root (staging : string) : M spool bool :=
  host_try (λ b, match sp_entries b !! staging with
                 | Some _ => (Ok false, b)
                 | None => (Ok true, mkSpool (sp_input b) (<[staging := ∅]> (sp_entries b)))
                 end).
Definition stage_remove (staging : string) : M spool unit :=
  host_try (λ b, (Ok tt, mkSpool (sp_input b) (delete staging (sp_entries b)))).
Definition renameNoReplace (staging final : string) : M spool unit :=
  host_try (λ b, match sp_entries b !! final, sp_entries b !! staging with
                 | None, Some t => (Ok tt, mkSpool (sp_input b) (<[final := t]> (delete staging (sp_entries b))))
                 | _, _ => (fail "file exists", b)
                 end).

Fixpoint newStaging (attempts : nat) : M spool string :=
  match attempts with
  | O => throw (Errorf "unable to allocate staging directory")
  | S attempts =>
      let! entropy := ask (λ n, Ok (rp_random n)) in
      let name := ".incoming-" +:+ entropy in
      let! fresh := stage_root name in
      if fresh then ret name else newStaging attempts
  end.

(** *** The records *)
Definition copyBuffer : Z := 32 * 1024.
(** The chunk, block by block; [blocks] is at least their number. *)
Fixpoint copyChunk (blocks : nat) (o : Options) (staging name : string) (remaining : Z) : M spool string :=
  if remaining <=? 0 then ret EmptyString
  else match blocks with
       | O => throw (Errorf "unreachable")
       | S blocks =>
           ctxErr ;;!
           let count := Z.min copyBuffer remaining in
           checkSpace (op_min_free o) count ;;!
           let! bytes := wrap "chunk data" (ReadFull (Z.to_nat count)) in
           stage_write staging name bytes ;;!
           let! rest := copyChunk blocks o staging name (remaining - count) in
           ret (bytes +:+ rest)
       end.
Definition receiveDirectory (o : Options) (staging : string) (p : progress) (rec : record) (name : string) : M spool progress :=
  guard (isSome (pg_current p) || (rd_path rec =? 0) || negb (rd_declared rec =? 0) || negb (zeroDigest (rd_digest rec)))
        "invalid directory record" ;;!
  lift (admitPath name (pg_seen p)) ;;!
  lift (admitSelectedPath name recordDirectory (op_selected o)) ;;!
  guard (op_max_dirs o <=? pg_dirs p) "directory count exceeds limit" ;;!
  stage_new staging name NDir ;;!
  ret (mkProgress (<[ToLower name := (recordDirectory, name)]> (pg_seen p)) (pg_directories p ++ [name]) (pg_current p) (pg_files p)
         ((pg_dirs p + 1) mod 2 ^ 32) (pg_total p)).
Definition receiveFile (o : Options) (staging : string) (p : progress) (rec : record) (name : string) : M spool progress :=
  guard (isSome (pg_current p) || (rd_path rec =? 0) || negb (zeroDigest (rd_digest rec))) "invalid file record" ;;!
  lift (admitPath name (pg_seen p)) ;;!
  lift (admitSelectedPath name recordFile (op_selected o)) ;;!
  guard ((op_max_files o <=? pg_files p) || (op_max_file o <? rd_declared rec) || ((op_max_total o - pg_total p) mod 2 ^ 64 <? rd_declared rec))
        "file size or count exceeds limit" ;;!
  stage_new staging name (NFile EmptyString) ;;!
  ret (mkProgress (<[ToLower name := (recordFile, name)]> (pg_seen p)) (pg_directories p) (Some (mkActive name (rd_declared rec) EmptyString))
         ((pg_files p + 1) mod 2 ^ 32) (pg_dirs p) (pg_total p)).
Definition receiveChunk (o : Options) (staging : string) (p : progress) (rec : record) : M spool progress :=
  match pg_current p with
  | None => throw (Errorf "invalid chunk record")
  | Some current =>
      guard (negb (rd_path rec =? 0) || (rd_chunk rec =? 0) || negb (rd_declared rec =? 0) || negb (zeroDigest (rd_digest rec)))
            "invalid chunk record" ;;!
      guard (((af_declared current - af_written current) mod 2 ^ 64 <? rd_chunk rec) || ((op_max_total o - pg_total p) mod 2 ^ 64 <? rd_chunk rec))
            "chunk exceeds declared size or total limit" ;;!
      let! bytes := streamError (copyChunk (S (Z.to_nat (rd_chunk rec / copyBuffer))) o staging (af_name current) (rd_chunk rec)) in
      ret (mkProgress (pg_seen p) (pg_directories p) (Some (mkActive (af_name current) (af_declared current) (af_data current +:+ bytes)))
             (pg_files p) (pg_dirs p) ((pg_total p + rd_chunk rec) mod 2 ^ 64))
  end.
Definition receiveFileEnd (staging : string) (p : progress) (rec : record) : M spool progress :=
  match pg_current p with
  | None => throw (Errorf "invalid file-end record")
  | Some current =>
      guard (negb (rd_path rec =? 0) || negb (rd_declared rec =? 0) || negb (af_written current =? af_declared current)) "invalid file-end record" ;;!
      guard (negb (equalDigest (af_data current) (rd_digest rec))) "file digest mismatch" ;;!
      stage_sync staging ;;!
      ret (mkProgress (pg_seen p) (pg_directories p) None (pg_files p) (pg_dirs p) (pg_total p))
  end.
Definition receiveTerminal (o : Options) (p : progress) (rec : record) : M spool unit :=
  guard (isSome (pg_current p) || negb (rd_path rec =? 0) || negb (rd_declared rec =? pg_total p) || negb (zeroDigest (rd_digest rec)))
        "invalid terminal record" ;;!
  guard (negb (forallb (λ selected, match pg_seen p !! ToLower selected with Some (_, name) => name =s selected | None => false end)
                 (op_selected o))) "selected export path is absent" ;;!
  let! ended := streamError (wrap "trailing stream read" atEOF) in
  guard (negb ended) "trailing stream bytes".
(** One turn of the loop: the next state, or the end of the stream. *)
Definition receiveRecord (o : Options) (staging : string) (p : progress) : M spool (option progress) :=
  ctxErr ;;!
  let! rec := streamError readRecord in
  guard (maxPathBytes <? rd_path rec) "path length exceeds limit" ;;!
  guard (negb (rd_kind rec =? recordChunk) && negb (rd_chunk rec =? 0)) "unexpected record payload" ;;!
  guard ((rd_kind rec =? recordChunk) && (op_max_chunk o <? rd_chunk rec)) "chunk length exceeds limit" ;;!
  let! name := if rd_path rec =? 0 then ret EmptyString else streamError (wrap "record path" (ReadFull (Z.to_nat (rd_path rec)))) in
  if rd_kind rec =? recordDirectory then let! p := receiveDirectory o staging p rec name in ret (Some p)
  else if rd_kind rec =? recordFile then let! p := receiveFile o staging p rec name in ret (Some p)
  else if rd_kind rec =? recordChunk then let! p := receiveChunk o staging p rec in ret (Some p)
  else if rd_kind rec =? recordFileEnd then let! p := receiveFileEnd staging p rec in ret (Some p)
  else if rd_kind rec =? recordTerminal then receiveTerminal o p rec ;;! ret None
  else throw (Errorf "unknown record type").
Fixpoint receiveLoop (turns : nat) (o : Options) (staging : string) (p : progress) : M spool progress :=
  match turns with
  | O => throw (Errorf "unreachable")
  | S turns =>
      let! next := receiveRecord o staging p in
      match next with Some p => receiveLoop turns o staging p | None => ret p end
  end.
(** Every turn consumes a header, so the bytes of the input are turns enough. *)
Definition receiveRecords (o : Options) (staging : string) : M spool progress := λ w,
  receiveLoop (S (String.length (sp_input (w_host w)))) o staging (mkProgress ∅ ["."%string] None 0 0 0) w.

(** *** Publication *)
Fixpoint syncDirectories (staging : string) (paths : list string) : M spool unit :=
  match paths with [] => ret tt | _ :: rest => stage_sync staging ;;! syncDirectories staging rest end.
Definition readHeader (o : Options) : M spool unit :=
  let! header := streamError (wrap "stream header" (ReadFull headerSize)) in
  guard ((str_take 4 header ≠s "BWEX") || negb (be 0 (str_take 2 (str_drop 4 header)) =? 1)) "unsupported export stream" ;;!
  guard (str_drop 6 header ≠s op_transaction o) "transaction mismatch".
(** Everything up to the rename; on an error the staging directory goes. *)
Definition receiveStaged (o : Options) (staging : string) : M spool unit :=
  let! p := receiveRecords o staging in
  syncDirectories staging (rev (pg_directories p)) ;;!
  checkSpace (op_min_free o) 0 ;;!
  ask rp_parent ;;!
  ctxErr ;;!
  wrap "publish export" (renameNoReplace staging (hexEncode (op_transaction o))).
Definition unlessPublished (staging : string) (m : M spool unit) : M spool unit :=
  let! r := attempt m in
  match r with
  | Ok _ => ret tt
  | Er e => attempt (stage_remove staging) ;;! throw e
  end.
Definition Receive (o : Options) : M spool (string * option error) :=
  lift (validateOptions o) ;;!
  ctxErr ;;!
  ask rp_parent ;;!
  checkSpace (op_min_free o) 0 ;;!
  readHeader o ;;!
  let! staging := newStaging 4 in
  unlessPublished staging (receiveStaged o staging) ;;!
  let finalPath := path_join (op_parent o) [hexEncode (op_transaction o)] in
  let! synced := attempt (host_try (λ b, (Ok tt, b))) in
  match synced with
  | Er e => ret (finalPath, Some (wrapw "export published but parent sync failed" e))
  | Ok _ =>
      let! same := attempt (ask rp_parent) in
      match same with
      | Er e => ret (finalPath, Some (wrapw "export published but parent path changed" e))
      | Ok _ => ret (finalPath, None)
      end
  end.
Definition ReceiveSelectedExport (o : Options) : M spool (string * option error) :=
  guard (length (op_selected o) =? 0)%nat "selected export requires host path selection" ;;!
  Receive o.
End receiver.

(** ** What a stream says *)

Fixpoint cat (l : list string) : string := match l with [] => "" | s :: r => s +:+ cat r end.
Definition size (s : string) : Z := Z.of_nat (String.length s).
(** A directory, or a file in chunks with the digest at its end. *)
Inductive item := IDir (name : string) | IFile (name : string) (chunks : list string) (digest : string).
Definition item_name (i : item) : string := match i with IDir n | IFile n _ _ => n end.
Definition item_kind (i : item) : Z := match i with IDir _ => recordDirectory | IFile _ _ _ => recordFile end.
Definition content (i : item) : string := match i with IDir _ => "" | IFile _ chunks _ => cat chunks end.
Definition node_of (i : item) : node := match i with IDir _ => NDir | IFile _ chunks _ => NFile (cat chunks) end.
Definition total (l : list item) : Z := foldr (λ i n, size (content i) + n) 0 l.
Definition count (kind : Z) (l : list item) : Z := foldr (λ i n, (if item_kind i =? kind then 1 else 0) + n) 0 l.
Definition tree_of (l : list item) : tree := foldl (λ t i, <[item_name i := node_of i]> t) ∅ l.
Definition seen_of (l : list item) : seen_paths := foldl (λ m i, <[ToLower (item_name i) := (item_kind i, item_name i)]> m) ∅ l.

Definition chunk_frame (c : string) : string := frame recordChunk "" c 0 noDigest.
Definition encode_item (i : item) : string :=
  match i with
  | IDir name => frame recordDirectory name "" 0 noDigest
  | IFile name chunks digest =>
      frame recordFile name "" (size (cat chunks)) noDigest +:+ cat (map chunk_frame chunks) +:+ frame recordFileEnd "" "" 0 digest
  end.
Definition encode_header (transaction : string) : string := "BWEX" +:+ put_be 2 1 +:+ transaction.
Definition encode_terminal (n : Z) : string := frame recordTerminal "" "" n noDigest.
Definition encode_stream (transaction : string) (l : list item) : string :=
  encode_header transaction +:+ cat (map encode_item l) +:+ encode_terminal (total l).

(** The Go types of the options. *)
Record typed_options (o : Options) : Prop := {
  to_transaction : String.length (op_transaction o) = 16%nat;
  to_chunk : 0 <= op_max_chunk o < 2 ^ 32;
  to_total : 0 <= op_max_total o < 2 ^ 64;
  to_file : 0 <= op_max_file o < 2 ^ 64;
  to_files : 0 <= op_max_files o < 2 ^ 32;
  to_dirs : 0 <= op_max_dirs o < 2 ^ 32;
}.
(** A list of items the options admit: safe names inside the selection, no two
    equal up to case, parents before their children, everything within its
    bound. *)
Record fits (o : Options) (l : list item) : Prop := {
  ft_names : Forall (λ i, validPath (item_name i) = true ∧ admitSelectedPath (item_name i) (item_kind i) (op_selected o) = Ok tt) l;
  ft_distinct : NoDup (map (λ i, ToLower (item_name i)) l);
  ft_parents : ∀ l1 i l2, l = l1 ++ i :: l2 → path_dir (item_name i) = "."%string ∨ IDir (path_dir (item_name i)) ∈ l1;
  ft_files : count recordFile l <= op_max_files o;
  ft_dirs : count recordDirectory l <= op_max_dirs o;
  ft_total : total l <= op_max_total o;
  ft_sizes : Forall (λ i, size (content i) <= op_max_file o) l;
  ft_chunks : ∀ n cs d c, IFile n cs d ∈ l → c ∈ cs → 0 < size c <= op_max_chunk o;
}.
(** And complete: every selected path is there, and the digests are right. *)
Definition digests_ok `{Digests} (l : list item) : Prop :=
  ∀ n cs d, IFile n cs d ∈ l → String.length d = 32%nat ∧ equalDigest (cat cs) d = true.
Record admissible `{Digests} (o : Options) (l : list item) : Prop := {
  am_fits : fits o l;
  am_digests : digests_ok l;
  am_selected : ∀ s, s ∈ op_selected o → ∃ i, i ∈ l ∧ item_name i = s;
}.

(** ** Lemmas *)

Lemma before_slash_cat a q : before_slash (a +:+ "/" +:+ q) = Some (match before_slash q with Some r => a +:+ "/" +:+ r | None => a end).
Proof.
  induction a as [|x a IH].
  - change (match before_slash q with Some d => Some (String "/" d) | None => Some EmptyString end =
            Some (match before_slash q with Some r => String "/" r | None => EmptyString end)). by destruct (before_slash q).
  - change (String x a +:+ "/" +:+ q) with (String x (a +:+ "/" +:+ q)). cbn [before_slash]. rewrite IH. by destruct (before_slash q).
Qed.

Lemma cat_app a b : cat (a ++ b) = cat a +:+ cat b.
Proof. induction a as [|x a IH]; [done|]. cbn. by rewrite IH, str_app_assoc. Qed.
Lemma size_app a b : size (a +:+ b) = size a + size b.
Proof. unfold size. rewrite str_length_app. lia. Qed.
Lemma size_nonneg s : 0 <= size s.
Proof. unfold size. lia. Qed.
Lemma total_cons i l : total (i :: l) = size (content i) + total l.
Proof. done. Qed.
Lemma count_cons k i l : count k (i :: l) = (if item_kind i =? k then 1 else 0) + count k l.
Proof. done. Qed.
Lemma total_app a b : total (a ++ b) = total a + total b.
Proof. induction a as [|x a IH]; [done|]. cbn [app]. rewrite !total_cons. lia. Qed.
Lemma total_nonneg l : 0 <= total l.
Proof. induction l as [|x l IH]; [done|]. rewrite total_cons. pose proof (size_nonneg (content x)). lia. Qed.
Lemma count_app k a b : count k (a ++ b) = count k a + count k b.
Proof. induction a as [|x a IH]; [done|]. cbn [app]. rewrite !count_cons. lia. Qed.
Lemma count_nonneg k l : 0 <= count k l.
Proof. induction l as [|x l IH]; [done|]. rewrite count_cons. destruct (item_kind x =? k); lia. Qed.
(** Sums over a list whose end is known. *)
Ltac tally :=
  rewrite ?count_app, ?total_app, ?total_cons, ?count_cons; cbn [item_kind content cat Z.eqb Pos.eqb];
  change (total []) with 0; change (count recordFile []) with 0; change (count recordDirectory []) with 0; change (size "") with 0; lia.
Lemma tree_of_nil : tree_of [] = ∅.
Proof. done. Qed.
Lemma seen_of_nil : seen_of [] = ∅.
Proof. done. Qed.
Lemma tree_of_snoc l i : tree_of (l ++ [i]) = <[item_name i := node_of i]> (tree_of l).
Proof. unfold tree_of. by rewrite foldl_app. Qed.
Lemma seen_of_snoc l i : seen_of (l ++ [i]) = <[ToLower (item_name i) := (item_kind i, item_name i)]> (seen_of l).
Proof. unfold seen_of. by rewrite foldl_app. Qed.
Lemma seen_of_Some l k kind name : seen_of l !! k = Some (kind, name) → ∃ i, i ∈ l ∧ item_name i = name ∧ item_kind i = kind ∧ k = ToLower name.
Proof.
  induction l as [|i l IH] using rev_ind; [by rewrite seen_of_nil, lookup_empty|]. rewrite seen_of_snoc, lookup_insert_Some.
  intros [[<- [= <- <-]]|[_ H]]; [exists i; set_solver|]. destruct (IH H) as (j & ? & ? & ? & ?). exists j. set_solver.
Qed.
Lemma seen_of_None l k : seen_of l !! k = None ↔ k ∉ map (λ i, ToLower (item_name i)) l.
Proof.
  induction l as [|i l IH] using rev_ind; [rewrite seen_of_nil, lookup_empty; set_solver|]. rewrite seen_of_snoc, lookup_insert_None, map_app, IH. set_solver.
Qed.
Lemma seen_of_in l i : NoDup (map (λ i, ToLower (item_name i)) l) → i ∈ l → seen_of l !! ToLower (item_name i) = Some (item_kind i, item_name i).
Proof.
  induction l as [|j l IH] using rev_ind; [set_solver|]. rewrite map_app, seen_of_snoc. intros (Hn & Hd & _)%NoDup_app.
  intros [Hi|Hi%list_elem_of_singleton]%elem_of_app; [|subst; apply lookup_insert_eq].
  rewrite lookup_insert_ne; [by apply IH|]. intros Heq. apply (Hd (ToLower (item_name i))); [|set_solver].
  by apply (list_elem_of_fmap_2 (λ i, ToLower (item_name i))).
Qed.
Lemma tree_of_Some l n x : tree_of l !! n = Some x → ∃ i, i ∈ l ∧ item_name i = n ∧ node_of i = x.
Proof.
  induction l as [|i l IH] using rev_ind; [by rewrite tree_of_nil, lookup_empty|]. rewrite tree_of_snoc, lookup_insert_Some.
  intros [[<- <-]|[_ H]]; [exists i; set_solver|]. destruct (IH H) as (j & ? & ? & ?). exists j. set_solver.
Qed.
Lemma tree_of_None l n : tree_of l !! n = None ↔ n ∉ map item_name l.
Proof.
  induction l as [|i l IH] using rev_ind; [rewrite tree_of_nil, lookup_empty; set_solver|]. rewrite tree_of_snoc, lookup_insert_None, map_app, IH. set_solver.
Qed.
Lemma names_nodup l : NoDup (map (λ i, ToLower (item_name i)) l) → NoDup (map item_name l).
Proof. replace (map (λ i, ToLower (item_name i)) l) with (map ToLower (map item_name l)) by (by rewrite map_map). apply NoDup_fmap_1. Qed.
Lemma tree_of_in l i : NoDup (map item_name l) → i ∈ l → tree_of l !! item_name i = Some (node_of i).
Proof.
  induction l as [|j l IH] using rev_ind; [set_solver|]. rewrite map_app, tree_of_snoc. intros (Hn & Hd & _)%NoDup_app.
  intros [Hi|Hi%list_elem_of_singleton]%elem_of_app; [|subst; apply lookup_insert_eq].
  rewrite lookup_insert_ne; [by apply IH|]. intros Heq. apply (Hd (item_name i)); [|set_solver]. by apply (list_elem_of_fmap_2 item_name).
Qed.

(** *** Headers *)
Lemma drop_drop m n s : str_drop m (str_drop n s) = str_drop (n + m) s.
Proof. revert s. induction n as [|n IH]; intros [|c s]; try done; [by destruct m|]. apply IH. Qed.
Lemma decodeRecord_header raw : String.length raw = recordSize →
  let r := decodeRecord raw in
  raw = String (byte_at (rd_kind r)) (put_be 2 (rd_path r) +:+ put_be 4 (rd_chunk r) +:+ put_be 8 (rd_declared r) +:+ rd_digest r) ∧
  String.length (rd_digest r) = 32%nat ∧ 0 <= rd_kind r < 256 ∧ 0 <= rd_path r < 2 ^ 16 ∧ 0 <= rd_chunk r < 2 ^ 32 ∧ 0 <= rd_declared r < 2 ^ 64.
Proof.
  unfold recordSize. intros Hl. destruct raw as [|c s]; [done|]. cbn in Hl. injection Hl as Hl.
  assert (∀ n k, (k + n ≤ 46)%nat → String.length (str_take n (str_drop k s)) = n) as Ht
    by (intros n k Hk; apply take_length; rewrite drop_length; lia).
  assert (∀ n k, (k + n ≤ 46)%nat → put_be n (be 0 (str_take n (str_drop k s))) = str_take n (str_drop k s) ∧
            0 <= be 0 (str_take n (str_drop k s)) < 256 ^ Z.of_nat n) as Hp.
  { intros n k Hk. pose proof (put_be_be (str_take n (str_drop k s))) as H1. rewrite Ht in H1 by done. split; [done|].
    pose proof (be_range 0 (str_take n (str_drop k s)) ltac:(lia)) as H2. rewrite Ht in H2 by done. lia. }
  unfold decodeRecord. cbn [rd_kind rd_path rd_chunk rd_declared rd_digest]. change (str_take 1 (String c s)) with (String c ""). cbn [be].
  change (str_drop 1 (String c s)) with (str_drop 0 s). change (str_drop 3 (String c s)) with (str_drop 2 s).
  change (str_drop 7 (String c s)) with (str_drop 6 s). change (str_drop 15 (String c s)) with (str_drop 14 s).
  destruct (Hp 2 0)%nat as [P1 R1]; [lia|]. destruct (Hp 4 2)%nat as [P2 R2]; [lia|]. destruct (Hp 8 6)%nat as [P3 R3]; [lia|].
  rewrite P1, P2, P3. pose proof (byte_val_range c). split_and!; try lia; [|apply Ht; lia].
  rewrite Z.add_0_l, byte_at_val. f_equal. change s with (str_drop 0 s) at 1.
  rewrite (take_drop 2 (str_drop 0 s)) at 1. f_equal. rewrite drop_drop. rewrite (take_drop 4 (str_drop (0 + 2) s)) at 1. f_equal.
  rewrite drop_drop. rewrite (take_drop 8 (str_drop (0 + 2 + 4) s)) at 1. f_equal. rewrite drop_drop.
  rewrite (take_drop 32 (str_drop (0 + 2 + 4 + 8) s)) at 1. rewrite drop_drop.
  assert (str_drop (0 + 2 + 4 + 8 + 32) s = "") as -> by (pose proof (drop_length 46 s); cbn [Nat.add]; destruct (str_drop 46 s); [done|cbn in *; lia]).
  by rewrite str_app_nil.
Qed.
Definition header (r : record) : string :=
  String (byte_at (rd_kind r)) (put_be 2 (rd_path r) +:+ put_be 4 (rd_chunk r) +:+ put_be 8 (rd_declared r) +:+ rd_digest r).
Lemma frame_header kind name payload declared digest :
  frame kind name payload declared digest =
  header (mkRecord kind (size name) (size payload) declared digest) +:+ (name +:+ payload).
Proof. unfold frame, header. cbn [rd_kind rd_path rd_chunk rd_declared rd_digest]. change (String ?c ?a +:+ ?b) with (String c (a +:+ b)). by rewrite !str_app_assoc. Qed.
Lemma header_length r : String.length (rd_digest r) = 32%nat → String.length (header r) = recordSize.
Proof. intros H. unfold header. cbn [String.length]. rewrite !str_length_app, !put_be_length, H. done. Qed.
Lemma decode_header r : 0 <= rd_kind r < 256 → 0 <= rd_path r < 2 ^ 16 → 0 <= rd_chunk r < 2 ^ 32 → 0 <= rd_declared r < 2 ^ 64 →
  String.length (rd_digest r) = 32%nat → decodeRecord (header r) = r.
Proof.
  intros H1 H2 H3 H4 H5. destruct r as [kind path chunk declared digest]. cbn [rd_kind rd_path rd_chunk rd_declared rd_digest] in *.
  unfold header, decodeRecord. cbn [rd_kind rd_path rd_chunk rd_declared rd_digest]. set (c := byte_at kind).
  set (a := put_be 2 path). set (b := put_be 4 chunk). set (d := put_be 8 declared).
  assert (String.length a = 2%nat) as La by apply put_be_length. assert (String.length b = 4%nat) as Lb by apply put_be_length.
  assert (String.length d = 8%nat) as Ld by apply put_be_length.
  change (str_take 1 (String c (a +:+ b +:+ d +:+ digest))) with (String c ""). 
  change (str_drop 1 (String c (a +:+ b +:+ d +:+ digest))) with (a +:+ b +:+ d +:+ digest).
  change (str_drop 3 (String c (a +:+ b +:+ d +:+ digest))) with (str_drop (2 + 0) (a +:+ b +:+ d +:+ digest)).
  change (str_drop 7 (String c (a +:+ b +:+ d +:+ digest))) with (str_drop (2 + 4) (a +:+ b +:+ d +:+ digest)).
  change (str_drop 15 (String c (a +:+ b +:+ d +:+ digest))) with (str_drop (2 + (4 + 8)) (a +:+ b +:+ d +:+ digest)).
  rewrite <-!drop_drop, (drop_app_n 2 a) by done. rewrite (take_app_n 2 a), (drop_app_n 4 b), (drop_app_n 8 d) by done.
  change (str_drop 0 (b +:+ d +:+ digest)) with (b +:+ d +:+ digest).
  rewrite (take_app_n 4 b), (take_app_n 8 d) by done. rewrite <-H5 at 1. rewrite <-(str_app_nil digest) at 2. rewrite take_app.
  unfold a, b, d. rewrite !be_put by (cbn; lia). cbn [be]. unfold c. rewrite byte_val_at by done. done.
Qed.

(** *** The effects of a successful call *)
Section effects.
Context {E : Env} {P : ReceiverPlatform} {D : Digests}.
Implicit Types w : world spool.

Lemma host_try_ok {B A} (f : B → res A * B) (w w' : world B) a : host_try f w = (Ok a, w') → f (w_host w) = (Ok a, w_host w').
Proof. unfold host_try, fail. destruct (f (w_host w)) as [r b]. destruct (now_fault w); [|done..]. by intros [= -> <-]. Qed.
Lemma ask_ok {B A} (f : nat → res A) (w w' : world B) a : ask f w = (Ok a, w') → w_host w' = w_host w.
Proof. unfold ask. by intros [= _ <-]. Qed.
Lemma ctxErr_ok w u w' : ctxErr w = (Ok u, w') → w_host w' = w_host w.
Proof. unfold ctxErr. intros H. ok_inv. by apply ask_ok in Ha. Qed.
Lemma streamError_ok {A} (m : M spool A) w a w' : streamError m w = (Ok a, w') → m w = (Ok a, w').
Proof.
  unfold streamError. intros H. apply bind_ok in H as ([x|e] & w1 & H1%attempt_ok & H); [by apply ret_ok in H as [-> ->]|].
  apply bind_ok in H as (? & ? & _ & H). by apply throw_ok in H.
Qed.
Lemma ReadFull_ok n w s w' : ReadFull n w = (Ok s, w') →
  String.length s = n ∧ w_host w = mkSpool (s +:+ sp_input (w_host w')) (sp_entries (w_host w')).
Proof.
  unfold ReadFull. intros H%host_try_ok. destruct (w_host w) as [input entries]. cbn [sp_input sp_entries] in *.
  destruct (Nat.ltb_spec (String.length input) n); [done|]. injection H as <- Hw. rewrite <-Hw. cbn [sp_input sp_entries].
  split; [by apply take_length|]. by rewrite <-take_drop.
Qed.
Lemma on_stage_ok {A} staging (f : tree → res A * tree) w a w' : on_stage staging f w = (Ok a, w') →
  ∃ t t', sp_entries (w_host w) !! staging = Some t ∧ f t = (Ok a, t') ∧
    w_host w' = mkSpool (sp_input (w_host w)) (<[staging := t']> (sp_entries (w_host w))).
Proof.
  unfold on_stage. intros H%host_try_ok. destruct (sp_entries (w_host w) !! staging) as [t|] eqn:Et; [|done].
  destruct (f t) as [r t'] eqn:Ef. injection H as -> Hw. exists t, t'. by rewrite Ef.
Qed.
Lemma stage_new_ok staging name what w u w' : stage_new staging name what w = (Ok u, w') →
  ∃ t, sp_entries (w_host w) !! staging = Some t ∧ t !! name = None ∧ is_dir t (path_dir name) = true ∧
    w_host w' = mkSpool (sp_input (w_host w)) (<[staging := <[name := what]> t]> (sp_entries (w_host w))).
Proof.
  unfold stage_new. intros (t & t' & Ht & Hf & Hw)%on_stage_ok. exists t. destruct (t !! name); [done|].
  destruct (is_dir t (path_dir name)); [|done]. by injection Hf as _ <-.
Qed.
Lemma stage_write_ok staging name bytes w u w' : stage_write staging name bytes w = (Ok u, w') →
  ∃ t old, sp_entries (w_host w) !! staging = Some t ∧ t !! name = Some (NFile old) ∧
    w_host w' = mkSpool (sp_input (w_host w)) (<[staging := <[name := NFile (old +:+ bytes)]> t]> (sp_entries (w_host w))).
Proof.
  unfold stage_write. intros (t & t' & Ht & Hf & Hw)%on_stage_ok. exists t. destruct (t !! name) as [[|old]|]; try done.
  exists old. by injection Hf as _ <-.
Qed.
Lemma stage_sync_ok staging w u w' : stage_sync staging w = (Ok u, w') → w_host w' = w_host w.
Proof.
  unfold stage_sync. intros (t & t' & Ht & [= _ <-] & ->)%on_stage_ok. destruct (w_host w) as [i e]. cbn in *. by rewrite insert_id.
Qed.
Lemma checkSpace_ok reserve incoming w u w' : checkSpace reserve incoming w = (Ok u, w') → w_host w' = w_host w.
Proof. unfold checkSpace. intros H. ok_inv. by apply ask_ok in Ha. Qed.

(** The bytes of a chunk go from the input to the file. *)
Lemma copyChunk_ok blocks o staging name t old remaining w bytes w' :
  sp_entries (w_host w) !! staging = Some t → t !! name = Some (NFile old) → 0 <= remaining →
  copyChunk blocks o staging name remaining w = (Ok bytes, w') →
  size bytes = remaining ∧ sp_input (w_host w) = bytes +:+ sp_input (w_host w') ∧
  sp_entries (w_host w') = <[staging := <[name := NFile (old +:+ bytes)]> t]> (sp_entries (w_host w)).
Proof.
  revert t old remaining w bytes. induction blocks as [|blocks IH]; intros t old remaining w bytes Ht Ho Hr H; cbn [copyChunk] in H.
  { destruct (Z.leb_spec remaining 0); [|by apply throw_ok in H]. apply ret_ok in H as [-> ->]. rewrite str_app_nil.
    split_and!; [unfold size; cbn; lia|done|]. rewrite (insert_id t name) by done. by rewrite insert_id by done. }
  destruct (Z.leb_spec remaining 0).
  { apply ret_ok in H as [-> ->]. rewrite str_app_nil. split_and!; [unfold size; cbn; lia|done|]. rewrite (insert_id t name) by done. by rewrite insert_id by done. }
  apply bind_ok in H as (? & w1 & H1%ctxErr_ok & H). apply bind_ok in H as (? & w2 & H2%checkSpace_ok & H).
  apply bind_ok in H as (s & w3 & [Hl H3]%wrap_ok%ReadFull_ok & H). apply bind_ok in H as (? & w4 & (t4 & old4 & Ht4 & Ho4 & H4)%stage_write_ok & H).
  apply bind_ok in H as (rest & w5 & H5 & H). apply ret_ok in H as [-> ->].
  rewrite <-H1, <-H2, H3 in Ht |- *. cbn [sp_entries sp_input] in *. rewrite Ht in Ht4. injection Ht4 as <-. rewrite Ho in Ho4. injection Ho4 as <-.
  apply (IH (<[name := NFile (old +:+ s)]> t) (old +:+ s)) in H5 as (Hs & Hi & He); [|rewrite H4; apply lookup_insert_eq|apply lookup_insert_eq|lia].
  rewrite H4 in Hi, He. cbn [sp_entries sp_input] in *. split_and!.
  - rewrite size_app, Hs. unfold size, copyBuffer in *. lia.
  - by rewrite Hi, str_app_assoc.
  - by rewrite He, !insert_insert_eq, str_app_assoc.
Qed.
End effects.

(** *** Growing the list of items *)
Lemma snoc_split {A} (l l1 l2 : list A) (i j : A) : l ++ [i] = l1 ++ j :: l2 → (l1 = l ∧ j = i ∧ l2 = []) ∨ ∃ l3, l = l1 ++ j :: l3 ∧ l2 = l3 ++ [i].
Proof.
  destruct l2 as [|k l2 _] using rev_ind.
  - intros [-> [= ->]]%app_inj_tail. by left.
  - rewrite app_comm_cons, app_assoc. intros [-> ->]%app_inj_tail. right. by exists l2.
Qed.
Lemma fits_nil o : typed_options o → fits o [].
Proof.
  intros []. split; try (cbn; lia); [apply Forall_nil_2|apply NoDup_nil_2| |apply Forall_nil_2|intros; set_solver].
  intros l1 i l2 H. by destruct l1.
Qed.
Lemma fits_snoc o l i : fits o l →
  validPath (item_name i) = true → admitSelectedPath (item_name i) (item_kind i) (op_selected o) = Ok tt →
  ToLower (item_name i) ∉ map (λ i, ToLower (item_name i)) l →
  path_dir (item_name i) = "."%string ∨ IDir (path_dir (item_name i)) ∈ l →
  count recordFile (l ++ [i]) <= op_max_files o → count recordDirectory (l ++ [i]) <= op_max_dirs o →
  total (l ++ [i]) <= op_max_total o → size (content i) <= op_max_file o →
  (∀ n cs d c, i = IFile n cs d → c ∈ cs → 0 < size c <= op_max_chunk o) → fits o (l ++ [i]).
Proof.
  intros [H1 H2 H3 H4 H5 H6 H7 H8] V S N D F G T Z C. constructor; try done.
  - apply Forall_app. split; [done|]. by apply Forall_singleton.
  - rewrite map_app. apply NoDup_app. split_and!; [done| |apply NoDup_singleton]. intros x Hx ->%list_elem_of_singleton. done.
  - intros l1 j l2 [(-> & -> & ->)|(l3 & -> & ->)]%snoc_split; [done|]. by eapply H3.
  - apply Forall_app. split; [done|]. by apply Forall_singleton.
  - intros n cs d c [Hi|Hi%list_elem_of_singleton]%elem_of_app; [by eapply H8|by eapply C].
Qed.
(** The last item grows, or is completed. *)
Lemma fits_last o l i i' : fits o (l ++ [i]) → item_name i' = item_name i → item_kind i' = item_kind i →
  total (l ++ [i']) <= op_max_total o → size (content i') <= op_max_file o →
  (∀ n cs d c, i' = IFile n cs d → c ∈ cs → 0 < size c <= op_max_chunk o) → fits o (l ++ [i']).
Proof.
  intros [H1 H2 H3 H4 H5 H6 H7 H8] Hn Hk T Z C. rewrite Forall_app in H1, H7. destruct H1 as [H1 H1i], H7 as [H7 _]. rewrite Forall_singleton in H1i.
  constructor; try done.
  - apply Forall_app. split; [done|]. apply Forall_singleton. rewrite Hn, Hk. exact H1i.
  - rewrite map_app in *. cbn [map] in *. by rewrite Hn.
  - intros l1 j l2 [(-> & -> & ->)|(l3 & -> & ->)]%snoc_split; [rewrite Hn; by apply (H3 l i [])|]. apply (H3 l1 j (l3 ++ [i])). by rewrite app_comm_cons, app_assoc.
  - rewrite count_app, count_cons in *. by rewrite Hk.
  - rewrite count_app, count_cons in *. by rewrite Hk.
  - apply Forall_app. split; [done|]. by apply Forall_singleton.
  - intros n cs d c [Hi|Hi%list_elem_of_singleton]%elem_of_app; [apply (H8 n cs d c), elem_of_app; by left|by eapply C].
Qed.

(** *** The state of the loop *)
Abbreviation open_file := (option (string * Z * list string)).
Definition opened (part : open_file) : list item := match part with Some (n, _, cs) => [IFile n cs ""] | None => [] end.
Definition open_wire (part : open_file) : string :=
  match part with Some (n, declared, cs) => frame recordFile n "" declared noDigest +:+ cat (map chunk_frame cs) | None => "" end.
Definition wire (l : list item) (part : open_file) : string := cat (map encode_item l) +:+ open_wire part.
(** The items received so far, and the file that is still open. *)
Record building `{Digests} (o : Options) (l : list item) (part : open_file) (p : progress) (t : tree) : Prop := {
  bd_fits : fits o (l ++ opened part);
  bd_digests : digests_ok l;
  bd_seen : pg_seen p = seen_of (l ++ opened part);
  bd_files : pg_files p = count recordFile (l ++ opened part);
  bd_dirs : pg_dirs p = count recordDirectory (l ++ opened part);
  bd_total : pg_total p = total (l ++ opened part);
  bd_current : pg_current p = (λ '(n, declared, cs), mkActive n declared (cat cs)) <$> part;
  bd_declared : ∀ n declared cs, part = Some (n, declared, cs) → size (cat cs) <= declared ∧ declared <= op_max_file o;
  bd_tree : t = tree_of (l ++ opened part);
}.

Section soundness.
Context {E : Env} {P : ReceiverPlatform} {D : Digests}.
Implicit Types w : world spool.
Context (o : Options) (typed : typed_options o) (staging : string).

Lemma admitPath_ok name l u : NoDup (map (λ i, ToLower (item_name i)) l) → admitPath name (seen_of l) = Ok u →
  validPath name = true ∧ (ToLower name ∉ map (λ i, ToLower (item_name i)) l) ∧ (path_dir name = "."%string ∨ IDir (path_dir name) ∈ l).
Proof.
  unfold admitPath. intros Hn H. res_inv H. apply check_ok in Ha, Ha0. split; [done|]. split.
  { apply seen_of_None. by destruct (seen_of l !! ToLower name). }
  destruct (path_dir name =s ".") eqn:Ed; [left; by apply eqs_true|]. right.
  destruct (seen_of l !! ToLower (path_dir name)) as [[kind spelled]|] eqn:Es; [|done]. apply check_ok in H.
  apply andb_true_iff in H as [Hk Hs]. apply Z.eqb_eq in Hk. apply eqs_true in Hs. subst.
  apply seen_of_Some in Es as (i & Hi & Hnm & Hkd & _). by destruct i; cbn in *; subst.
Qed.
(** What one record did to the machine. *)
Definition moved (w w' : world spool) (used : string) (t' : tree) : Prop :=
  sp_input (w_host w) = used +:+ sp_input (w_host w') ∧ sp_entries (w_host w') = <[staging := t']> (sp_entries (w_host w)).
Lemma stage_new_moved name what t w u w' : sp_entries (w_host w) !! staging = Some t →
  stage_new staging name what w = (Ok u, w') → moved w w' "" (<[name := what]> t).
Proof. intros Ht (t0 & Ht0 & _ & _ & Hw)%stage_new_ok. rewrite Ht in Ht0. injection Ht0 as <-. unfold moved. by rewrite Hw. Qed.
Lemma isSome_current l part p t : building o l part p t → isSome (pg_current p) = false → part = None.
Proof. intros [_ _ _ _ _ _ Hc _ _]. rewrite Hc. by destruct part as [[[n d] cs]|]. Qed.

Lemma receiveDirectory_ok l part p t rec name w p' w' :
  building o l part p t → sp_entries (w_host w) !! staging = Some t → receiveDirectory o staging p rec name w = (Ok p', w') →
  part = None ∧ rd_path rec ≠ 0 ∧ rd_declared rec = 0 ∧ rd_digest rec = noDigest ∧
  ∃ t', moved w w' "" t' ∧ building o (l ++ [IDir name]) None p' t'.
Proof.
  intros Hb Ht H. unfold receiveDirectory in H. apply bind_ok in H as (? & w0 & [Hg ->]%guard_ok & H).
  rewrite !orb_false_iff, negb_false_iff, Z.eqb_neq, negb_false_iff, Z.eqb_eq in Hg. destruct Hg as [[[Hc Hp] Hd] Hz%eqs_true].
  apply (isSome_current _ _ _ _ Hb) in Hc as ->. destruct Hb as [Hf Hdg Hs Hfi Hdi Hto Hcu _ Htr]. cbn [opened] in *. rewrite app_nil_r in *.
  apply bind_ok in H as (? & w0 & [Ha ->]%lift_ok & H). rewrite Hs in Ha. apply admitPath_ok in Ha as (Hv & Hl & Hpar); [|apply Hf].
  apply bind_ok in H as (? & w0 & [Hsel ->]%lift_ok & H). destruct x1.
  apply bind_ok in H as (? & w0 & [Hn ->]%guard_ok & H). apply Z.leb_gt in Hn.
  apply bind_ok in H as (? & w1 & Hm & H). apply ret_ok in H as [-> ->]. apply (stage_new_moved _ _ t) in Hm; [|done].
  split_and!; try done. exists (<[name := NDir]> t). split; [done|]. destruct typed as [_ _ _ _ _ Hdm].
  pose proof (count_nonneg recordDirectory l). split; cbn [opened pg_seen pg_files pg_dirs pg_total pg_current]; rewrite ?app_nil_r.
  - apply fits_snoc; try done.
    + destruct Hf. tally.
    + tally.
    + destruct Hf. tally.
    + change (size (content (IDir name))) with 0. destruct typed. lia.
  - intros n cs d [Hi|Hi%list_elem_of_singleton]%elem_of_app; [by eapply Hdg|done].
  - by rewrite seen_of_snoc, Hs.
  - tally.
  - rewrite Z.mod_small by lia. tally.
  - tally.
  - done.
  - done.
  - by rewrite tree_of_snoc, Htr.
Qed.
Lemma receiveFile_ok l part p t rec name w p' w' : rd_declared rec < 2 ^ 64 → 0 <= rd_declared rec →
  building o l part p t → sp_entries (w_host w) !! staging = Some t → receiveFile o staging p rec name w = (Ok p', w') →
  part = None ∧ rd_path rec ≠ 0 ∧ rd_digest rec = noDigest ∧
  ∃ t', moved w w' "" t' ∧ building o l (Some (name, rd_declared rec, [])) p' t'.
Proof.
  intros Hd64 Hd0 Hb Ht H. unfold receiveFile in H. apply bind_ok in H as (? & w0 & [Hg ->]%guard_ok & H).
  rewrite !orb_false_iff, negb_false_iff, Z.eqb_neq in Hg. destruct Hg as [[Hc Hp] Hz%eqs_true].
  apply (isSome_current _ _ _ _ Hb) in Hc as ->. destruct Hb as [Hf Hdg Hs Hfi Hdi Hto Hcu _ Htr]. cbn [opened] in *. rewrite app_nil_r in *.
  apply bind_ok in H as (? & w0 & [Ha ->]%lift_ok & H). rewrite Hs in Ha. apply admitPath_ok in Ha as (Hv & Hl & Hpar); [|apply Hf].
  apply bind_ok in H as (? & w0 & [Hsel ->]%lift_ok & H). destruct x1.
  apply bind_ok in H as (? & w0 & [Hn ->]%guard_ok & H). rewrite !orb_false_iff, Z.leb_gt, !Z.ltb_ge in Hn. destruct Hn as [[Hn Hmf] Hmt].
  apply bind_ok in H as (? & w1 & Hm & H). apply ret_ok in H as [-> ->]. apply (stage_new_moved _ _ t) in Hm; [|done].
  split_and!; try done. exists (<[name := NFile ""]> t). split; [done|]. destruct typed as [_ _ _ _ Hfm _].
  pose proof (count_nonneg recordFile l). split; cbn [opened pg_seen pg_files pg_dirs pg_total pg_current]; try done.
  - apply fits_snoc; try done.
    + tally.
    + destruct Hf. tally.
    + destruct Hf. tally.
    + change (size (content (IFile name [] ""))) with 0. lia.
    + intros n cs d c [= <- <- <-] Hc. set_solver.
  - by rewrite seen_of_snoc, Hs.
  - rewrite Z.mod_small by lia. tally.
  - tally.
  - tally.
  - intros n d cs [= <- <- <-]. change (size (cat [])) with 0. lia.
  - by rewrite tree_of_snoc, Htr.
Qed.
Lemma receiveChunk_ok l part p t rec w p' w' : 0 <= rd_chunk rec <= op_max_chunk o →
  building o l part p t → sp_entries (w_host w) !! staging = Some t → receiveChunk o staging p rec w = (Ok p', w') →
  rd_path rec = 0 ∧ rd_chunk rec ≠ 0 ∧ rd_declared rec = 0 ∧ rd_digest rec = noDigest ∧
  ∃ n declared cs c t', part = Some (n, declared, cs) ∧ size c = rd_chunk rec ∧ moved w w' c t' ∧ building o l (Some (n, declared, cs ++ [c])) p' t'.
Proof.
  intros Hmc Hb Ht H. unfold receiveChunk in H. pose proof Hb as [Hf Hdg Hs Hfi Hdi Hto Hcu Hde Htr].
  destruct part as [[[n declared] cs]|]; rewrite Hcu in H; [|by apply throw_ok in H]. cbn [fmap option_fmap option_map opened] in *.
  apply bind_ok in H as (? & w0 & [Hg ->]%guard_ok & H). rewrite !orb_false_iff, !negb_false_iff, Z.eqb_eq, Z.eqb_neq, Z.eqb_eq in Hg.
  destruct Hg as [[[Hp Hc] Hd] Hz%eqs_true]. apply bind_ok in H as (? & w0 & [Hl ->]%guard_ok & H).
  rewrite orb_false_iff, !Z.ltb_ge in Hl. cbn [af_declared af_data af_name] in Hl. change (af_written (mkActive n declared (cat cs))) with (size (cat cs)) in Hl.
  destruct (Hde n declared cs eq_refl) as [Hw Hm]. pose proof (size_nonneg (cat cs)). pose proof (ft_total _ _ Hf) as Htot.
  pose proof (total_nonneg (l ++ [IFile n cs ""])). rewrite <-Hto in *. pose proof (to_file _ typed). pose proof (to_total _ typed).
  rewrite !Z.mod_small in Hl by lia. destruct Hl as [Hl1 Hl2].
  apply bind_ok in H as (c & w1 & Hcp%streamError_ok & H). apply ret_ok in H as [-> ->].
  assert (t !! n = Some (NFile (cat cs))) as Hn by (rewrite Htr, tree_of_snoc; apply lookup_insert_eq).
  apply (copyChunk_ok _ _ _ _ _ _ _ _ _ _ Ht Hn) in Hcp as (Hsz & Hi & He); [|lia].
  split_and!; try done. exists n, declared, cs, c, (<[n := NFile (cat cs +:+ c)]> t). split_and!; [done|done|done|].
  assert (cat (cs ++ [c]) = cat cs +:+ c) as Hcat by (rewrite cat_app; cbn; by rewrite str_app_nil).
  assert (total (l ++ [IFile n (cs ++ [c]) ""]) = total (l ++ [IFile n cs ""]) + rd_chunk rec) as Htc
    by (rewrite !total_app, !total_cons; cbn [content]; rewrite Hcat, size_app; lia).
  split; cbn [opened pg_seen pg_files pg_dirs pg_total pg_current]; try done.
  - eapply fits_last; [exact Hf|done|done|lia| |].
    + cbn [content]. rewrite Hcat, size_app. lia.
    + intros n' cs' d' c' [= <- <- <-] [Hin| ->%list_elem_of_singleton]%elem_of_app; [|lia].
      apply (ft_chunks _ _ Hf n cs ""); [|done]. apply elem_of_app. right. by apply list_elem_of_singleton.
  - by rewrite Hs, !seen_of_snoc.
  - rewrite Hfi. tally.
  - rewrite Hdi. tally.
  - rewrite Z.mod_small by lia. lia.
  - cbn [fmap option_fmap option_map af_data af_name af_declared]. by rewrite Hcat.
  - intros n' d' cs' [= <- <- <-]. rewrite Hcat, size_app. lia.
  - rewrite Htr, !tree_of_snoc. cbn [item_name node_of]. by rewrite insert_insert_eq, Hcat.
Qed.
Lemma receiveFileEnd_ok l part p t rec w p' w' : String.length (rd_digest rec) = 32%nat →
  building o l part p t → sp_entries (w_host w) !! staging = Some t → receiveFileEnd staging p rec w = (Ok p', w') →
  rd_path rec = 0 ∧ rd_declared rec = 0 ∧
  ∃ n cs, part = Some (n, size (cat cs), cs) ∧ w_host w' = w_host w ∧ building o (l ++ [IFile n cs (rd_digest rec)]) None p' t.
Proof.
  intros H32 Hb Ht H. unfold receiveFileEnd in H. pose proof Hb as [Hf Hdg Hs Hfi Hdi Hto Hcu Hde Htr].
  destruct part as [[[n declared] cs]|]; rewrite Hcu in H; [|by apply throw_ok in H]. cbn [fmap option_fmap option_map opened] in *.
  apply bind_ok in H as (? & w0 & [Hg ->]%guard_ok & H). rewrite !orb_false_iff, !negb_false_iff, !Z.eqb_eq in Hg.
  destruct Hg as [[Hp Hd] Hw]. apply bind_ok in H as (? & w0 & [He ->]%guard_ok & H). apply negb_false_iff in He.
  apply bind_ok in H as (? & w1 & Hy%stage_sync_ok & H). apply ret_ok in H as [-> ->].
  cbn [af_declared af_data] in *. change (af_written (mkActive n declared (cat cs))) with (size (cat cs)) in Hw. subst declared.
  split_and!; try done. exists n, cs. split_and!; [done|done|]. split; cbn [opened pg_seen pg_files pg_dirs pg_total pg_current]; rewrite ?app_nil_r; try done.
  - eapply fits_last; [exact Hf|done|done| | |].
    + pose proof (ft_total _ _ Hf) as Hx. rewrite total_app in *. exact Hx.
    + cbn [content]. by apply (Hde n (size (cat cs)) cs).
    + intros n' cs' d' c' [= <- <- <-] Hin. apply (ft_chunks _ _ Hf n cs ""); [|done]. apply elem_of_app. right. by apply list_elem_of_singleton.
  - intros n' cs' d' [Hi|[= -> -> ->]%list_elem_of_singleton]%elem_of_app; [by eapply Hdg|done].
  - by rewrite Hs, !seen_of_snoc.
  - rewrite Hfi. tally.
  - rewrite Hdi. tally.
  - rewrite Hto, !total_app. done.
  - by rewrite Htr, !tree_of_snoc.
Qed.
Lemma receiveTerminal_ok l part p t rec w u w' :
  building o l part p t → receiveTerminal o p rec w = (Ok u, w') →
  part = None ∧ rd_path rec = 0 ∧ rd_declared rec = total l ∧ rd_digest rec = noDigest ∧
  (∀ s, s ∈ op_selected o → ∃ i, i ∈ l ∧ item_name i = s) ∧ sp_input (w_host w) = "" ∧ w_host w' = w_host w.
Proof.
  intros Hb H. unfold receiveTerminal in H. apply bind_ok in H as (? & w0 & [Hg ->]%guard_ok & H).
  rewrite !orb_false_iff, !negb_false_iff, !Z.eqb_eq in Hg. destruct Hg as [[[Hc Hp] Hd] Hz%eqs_true].
  apply (isSome_current _ _ _ _ Hb) in Hc as ->. destruct Hb as [Hf Hdg Hs Hfi Hdi Hto Hcu _ Htr]. cbn [opened] in *. rewrite app_nil_r in *.
  apply bind_ok in H as (? & w0 & [Hsel ->]%guard_ok & H). rewrite negb_false_iff, forallb_forall in Hsel.
  apply bind_ok in H as (ended & w1 & He%streamError_ok & H). apply wrap_ok in He. unfold atEOF in He. apply host_try_ok in He. injection He as He Hw.
  apply guard_ok in H as [Hend ->]. rewrite negb_false_iff in Hend. rewrite Hend in He. apply eqs_true in He.
  split_and!; try done; [congruence|]. intros s Hin%list_elem_of_In. specialize (Hsel s Hin). rewrite Hs in Hsel.
  destruct (seen_of l !! ToLower s) as [[kind nm]|] eqn:Es; [|done]. apply eqs_true in Hsel as ->. apply seen_of_Some in Es as (i & ? & ? & _). eauto.
Qed.
Lemma readRecord_ok w rec w' : readRecord w = (Ok rec, w') →
  w_host w = mkSpool (header rec +:+ sp_input (w_host w')) (sp_entries (w_host w')) ∧ String.length (rd_digest rec) = 32%nat ∧
  0 <= rd_kind rec < 256 ∧ 0 <= rd_path rec < 2 ^ 16 ∧ 0 <= rd_chunk rec < 2 ^ 32 ∧ 0 <= rd_declared rec < 2 ^ 64.
Proof.
  unfold readRecord. intros H. apply bind_ok in H as (raw & w1 & [Hl Hw]%wrap_ok%ReadFull_ok & H). apply ret_ok in H as [-> ->].
  destruct (decodeRecord_header raw Hl) as (Hr & H). split; [|exact H]. rewrite Hw. by rewrite Hr at 1.
Qed.
Lemma header_eta rec : rec = mkRecord (rd_kind rec) (rd_path rec) (rd_chunk rec) (rd_declared rec) (rd_digest rec).
Proof. by destruct rec. Qed.
Lemma wire_item l i : wire (l ++ [i]) None = wire l None +:+ encode_item i.
Proof. unfold wire. cbn [open_wire]. rewrite map_app, cat_app. cbn [map cat]. by rewrite !str_app_nil. Qed.
(** One turn of the loop, on a stream of any bytes: what it consumed is the
    encoding of what it added. *)
Lemma receiveRecord_ok l part p t w r w' :
  building o l part p t → sp_entries (w_host w) !! staging = Some t → receiveRecord o staging p w = (Ok r, w') →
  match r with
  | Some p' => ∃ l' part' t' used, building o l' part' p' t' ∧ moved w w' used t' ∧ wire l' part' = wire l part +:+ used
  | None => part = None ∧ (∀ s, s ∈ op_selected o → ∃ i, i ∈ l ∧ item_name i = s) ∧
            sp_input (w_host w) = encode_terminal (total l) ∧ sp_input (w_host w') = "" ∧ sp_entries (w_host w') = sp_entries (w_host w)
  end.
Proof.
  intros Hb Ht H. unfold receiveRecord in H. apply bind_ok in H as (? & w1 & H1%ctxErr_ok & H).
  apply bind_ok in H as (rec & w2 & H2%streamError_ok%readRecord_ok & H). destruct H2 as (H2 & Hdg & Hk & Hp & Hc & Hd). rewrite H1 in H2.
  apply bind_ok in H as (? & w0 & [_ ->]%guard_ok & H). apply bind_ok in H as (? & w0 & [Hpay ->]%guard_ok & H).
  apply bind_ok in H as (? & w0 & [Hch ->]%guard_ok & H). apply bind_ok in H as (name & w3 & H3 & H).
  assert (w_host w2 = mkSpool (name +:+ sp_input (w_host w3)) (sp_entries (w_host w3)) ∧ size name = rd_path rec) as [Hw3 Hnm].
  { destruct (Z.eqb_spec (rd_path rec) 0) as [Hz|Hz]; [apply ret_ok in H3 as [-> ->]; split; [by destruct (w_host w2)|by rewrite Hz]|].
    apply streamError_ok, wrap_ok, ReadFull_ok in H3 as [Hl3 Hw3]. split; [done|]. unfold size. lia. }
  assert (sp_input (w_host w) = header rec +:+ name +:+ sp_input (w_host w3)) as Hin by (rewrite H2, Hw3; done).
  assert (sp_entries (w_host w) = sp_entries (w_host w3)) as Hen by (rewrite H2, Hw3; done).
  assert (sp_entries (w_host w3) !! staging = Some t) as Ht3 by (by rewrite <-Hen). rewrite (header_eta rec) in Hin. clear H2 Hw3.
  assert (rd_kind rec ≠ recordChunk → rd_chunk rec = 0) as Hno.
  { intros Hne. destruct (Z.eqb_spec (rd_kind rec) recordChunk); [done|]. cbn in Hpay. by apply negb_false_iff, Z.eqb_eq in Hpay. }
  destruct (Z.eqb_spec (rd_kind rec) recordDirectory) as [K|_].
  { apply bind_ok in H as (p' & w4 & Hm & H). apply ret_ok in H as [-> ->].
    apply (receiveDirectory_ok _ _ _ _ _ _ _ _ _ Hb Ht3) in Hm as (-> & _ & D1 & D2 & t' & [Hi He] & Hb').
    exists (l ++ [IDir name]), None, t', (frame recordDirectory name "" 0 noDigest). split; [done|]. split; [|apply wire_item].
    split; [|by rewrite Hen]. rewrite Hin, Hi, frame_header, K, D1, D2, Hno, <-Hnm by (by rewrite K). by rewrite !str_app_assoc. }
  destruct (Z.eqb_spec (rd_kind rec) recordFile) as [K|_].
  { apply bind_ok in H as (p' & w4 & Hm & H). apply ret_ok in H as [-> ->].
    apply (receiveFile_ok _ _ _ _ _ _ _ _ _ (proj2 Hd) (proj1 Hd) Hb Ht3) in Hm as (-> & _ & D2 & t' & [Hi He] & Hb').
    exists l, (Some (name, rd_declared rec, [])), t', (frame recordFile name "" (rd_declared rec) noDigest). split; [done|].
    split; [|unfold wire; cbn [open_wire map cat]; by rewrite !str_app_nil].
    split; [|by rewrite Hen]. rewrite Hin, Hi, frame_header, K, D2, Hno, <-Hnm by (by rewrite K). by rewrite !str_app_assoc. }
  destruct (Z.eqb_spec (rd_kind rec) recordChunk) as [K|_].
  { apply bind_ok in H as (p' & w4 & Hm & H). apply ret_ok in H as [-> ->]. cbn in Hch. apply Z.ltb_ge in Hch.
    apply (receiveChunk_ok _ _ _ _ _ _ _ _ (conj (proj1 Hc) Hch) Hb Ht3) in Hm as (D1 & _ & D2 & D3 & n & declared & cs & c & t' & -> & Hsz & [Hi He] & Hb').
    exists l, (Some (n, declared, cs ++ [c])), t', (chunk_frame c). split; [done|].
    split; [|unfold wire; cbn [open_wire]; rewrite map_app, cat_app; cbn [map cat]; by rewrite str_app_nil, !str_app_assoc].
    assert (name = "") as -> by (rewrite D1 in Hnm; destruct name; [done|unfold size in Hnm; cbn in Hnm; lia]).
    split; [|by rewrite Hen]. unfold chunk_frame. rewrite Hin, Hi, frame_header, K, D1, D2, D3, <-Hsz. by rewrite !str_app_assoc. }
  destruct (Z.eqb_spec (rd_kind rec) recordFileEnd) as [K|_].
  { apply bind_ok in H as (p' & w4 & Hm & H). apply ret_ok in H as [-> ->].
    apply (receiveFileEnd_ok _ _ _ _ _ _ _ _ Hdg Hb Ht3) in Hm as (D1 & D2 & n & cs & -> & Hi & Hb').
    exists (l ++ [IFile n cs (rd_digest rec)]), None, t, (frame recordFileEnd "" "" 0 (rd_digest rec)). split; [done|].
    split; [|rewrite wire_item; unfold wire; cbn [open_wire encode_item]; by rewrite str_app_nil, !str_app_assoc].
    assert (name = "") as -> by (rewrite D1 in Hnm; destruct name; [done|unfold size in Hnm; cbn in Hnm; lia]).
    split; [|by rewrite Hi, Hen, insert_id]. rewrite Hin, Hi, frame_header, K, D1, D2, Hno by (by rewrite K). by rewrite !str_app_assoc. }
  destruct (Z.eqb_spec (rd_kind rec) recordTerminal) as [K|_]; [|by apply throw_ok in H].
  apply bind_ok in H as ([] & w4 & Hm & H). apply ret_ok in H as [-> ->].
  apply (receiveTerminal_ok _ _ _ _ _ _ _ _ Hb) in Hm as (-> & D1 & D2 & D3 & Hsel & Hi & Hw).
  assert (name = "") as -> by (rewrite D1 in Hnm; destruct name; [done|unfold size in Hnm; cbn in Hnm; lia]).
  split_and!; [done|done| |by rewrite Hw|by rewrite Hw, Hen].
  unfold encode_terminal. rewrite Hin, Hi, frame_header, K, D1, D2, D3, Hno by (by rewrite K). by rewrite !str_app_nil.
Qed.
(** The whole body, from the empty tree. *)
Lemma receiveLoop_ok turns l part p t w p' w' :
  building o l part p t → sp_entries (w_host w) !! staging = Some t → receiveLoop turns o staging p w = (Ok p', w') →
  ∃ l' t', building o l' None p' t' ∧ (∀ s, s ∈ op_selected o → ∃ i, i ∈ l' ∧ item_name i = s) ∧ sp_input (w_host w') = "" ∧
    sp_entries (w_host w') = <[staging := t']> (sp_entries (w_host w)) ∧
    wire l part +:+ sp_input (w_host w) = wire l' None +:+ encode_terminal (total l').
Proof.
  revert l part p t w. induction turns as [|turns IH]; intros l part p t w Hb Ht H; cbn [receiveLoop] in H; [by apply throw_ok in H|].
  apply bind_ok in H as (r & w1 & Hr & H). apply (receiveRecord_ok _ _ _ _ _ _ _ Hb Ht) in Hr. destruct r as [p1|].
  - destruct Hr as (l1 & part1 & t1 & used & Hb1 & [Hi He] & Hw). apply (IH _ _ _ _ _ Hb1) in H as (l' & t' & Hb' & Hs & Hi' & He' & Hw'); [|rewrite He; apply lookup_insert_eq].
    exists l', t'. split_and!; try done; [by rewrite He', He, insert_insert_eq|]. by rewrite Hi, <-str_app_assoc, <-Hw.
  - apply ret_ok in H as [-> ->]. destruct Hr as (-> & Hs & Hi & Hi' & He). exists l, t. split_and!; try done; [by rewrite He, insert_id|by rewrite Hi].
Qed.
Lemma building_nil : building o [] None (mkProgress ∅ ["."%string] None 0 0 0) ∅.
Proof. split; cbn [opened app]; try done; [by apply fits_nil|intros n cs d Hi; set_solver]. Qed.
Lemma receiveRecords_ok w p' w' : sp_entries (w_host w) !! staging = Some ∅ → receiveRecords o staging w = (Ok p', w') →
  ∃ l, admissible o l ∧ sp_input (w_host w) = cat (map encode_item l) +:+ encode_terminal (total l) ∧ sp_input (w_host w') = "" ∧
    sp_entries (w_host w') = <[staging := tree_of l]> (sp_entries (w_host w)).
Proof.
  unfold receiveRecords. intros Ht H. apply (receiveLoop_ok _ _ _ _ _ _ _ _ building_nil Ht) in H as (l & t & [Hf Hd _ _ _ _ _ _ Htr] & Hs & Hi & He & Hw).
  cbn [opened] in *. rewrite app_nil_r in *. exists l. split_and!; [done| |done|by rewrite He, Htr].
  unfold wire in Hw. cbn [open_wire map cat] in Hw. rewrite !str_app_nil in Hw. exact Hw.
Qed.
Lemma syncDirectories_ok paths w u w' : syncDirectories staging paths w = (Ok u, w') → w_host w' = w_host w.
Proof.
  revert w. induction paths as [|x paths IH]; intros w H; cbn [syncDirectories] in H; [by apply ret_ok in H as [_ ->]|].
  apply bind_ok in H as (? & w1 & H1%stage_sync_ok & H). apply IH in H. congruence.
Qed.
End soundness.

Section publication.
Context {E : Env} {P : ReceiverPlatform} {D : Digests}.
Implicit Types w : world spool.
Context (o : Options) (typed : typed_options o).

Lemma readHeader_ok w u w' : readHeader o w = (Ok u, w') →
  w_host w = mkSpool (encode_header (op_transaction o) +:+ sp_input (w_host w')) (sp_entries (w_host w')).
Proof.
  unfold readHeader. intros H. apply bind_ok in H as (h & w1 & Hh%streamError_ok & H). apply wrap_ok, ReadFull_ok in Hh as [Hl Hw].
  apply bind_ok in H as (? & w0 & [Hg ->]%guard_ok & H). apply guard_ok in H as [Ht ->].
  apply orb_false_iff in Hg as [Hm Hv]. apply negb_false_iff, Z.eqb_eq in Hv. apply negb_false_iff, eqs_true in Hm, Ht.
  rewrite Hw. f_equal. f_equal. unfold headerSize in Hl. rewrite (take_drop 4 h), Hm. unfold encode_header. f_equal.
  rewrite (take_drop 2 (str_drop 4 h)), drop_drop. f_equal; [|exact Ht].
  pose proof (put_be_be (str_take 2 (str_drop 4 h))) as Hb. by rewrite take_length, Hv in Hb by (rewrite drop_length; lia).
Qed.
Lemma newStaging_ok n w staging w' : newStaging n w = (Ok staging, w') →
  sp_entries (w_host w) !! staging = None ∧ w_host w' = mkSpool (sp_input (w_host w)) (<[staging := ∅]> (sp_entries (w_host w))).
Proof.
  revert w. induction n as [|n IH]; intros w H; cbn [newStaging] in H; [by apply throw_ok in H|].
  apply bind_ok in H as (r & w1 & H1%ask_ok & H). apply bind_ok in H as (fresh & w2 & H2%host_try_ok & H). rewrite H1 in H2.
  destruct (sp_entries (w_host w) !! (".incoming-" +:+ r)) eqn:Hl; injection H2 as <- Hw2.
  - apply IH in H. by rewrite <-Hw2 in H.
  - apply ret_ok in H as [-> ->]. by rewrite <-Hw2.
Qed.
Lemma receiveStaged_ok staging w u w' : sp_entries (w_host w) !! staging = Some ∅ → receiveStaged o staging w = (Ok u, w') →
  ∃ l, admissible o l ∧ sp_input (w_host w) = cat (map encode_item l) +:+ encode_terminal (total l) ∧
    sp_entries (w_host w) !! hexEncode (op_transaction o) = None ∧
    sp_entries (w_host w') = <[hexEncode (op_transaction o) := tree_of l]> (delete staging (sp_entries (w_host w))).
Proof.
  intros Ht H. unfold receiveStaged in H. apply bind_ok in H as (p & w1 & H1 & H).
  apply (receiveRecords_ok o typed staging _ _ _ Ht) in H1 as (l & Ha & Hi & _ & He).
  apply bind_ok in H as (? & w2 & H2%syncDirectories_ok & H). apply bind_ok in H as (? & w3 & H3%checkSpace_ok & H).
  apply bind_ok in H as (? & w4 & H4%ask_ok & H). apply bind_ok in H as (? & w5 & H5%ctxErr_ok & H). apply wrap_ok, host_try_ok in H.
  rewrite H5, H4, H3, H2, He in H. rewrite lookup_insert_eq in H. set (final := hexEncode (op_transaction o)) in *.
  destruct (<[staging:=tree_of l]> (sp_entries (w_host w)) !! final) as [there|] eqn:Hx; [done|]. injection H as _ Hw.
  apply lookup_insert_None in Hx as [Hx Hne]. exists l. split_and!; [done|done|done|]. rewrite <-Hw. cbn [sp_entries]. by rewrite delete_insert_eq.
Qed.
Lemma Receive_ok w path err w' : Receive o w = (Ok (path, err), w') →
  path = path_join (op_parent o) [hexEncode (op_transaction o)] ∧
  ∃ l, admissible o l ∧ sp_input (w_host w) = encode_stream (op_transaction o) l ∧
    sp_entries (w_host w) !! hexEncode (op_transaction o) = None ∧
    sp_entries (w_host w') = <[hexEncode (op_transaction o) := tree_of l]> (sp_entries (w_host w)).
Proof.
  intros H. unfold Receive in H. apply bind_ok in H as (? & w0 & [_ ->]%lift_ok & H). apply bind_ok in H as (? & w1 & H1%ctxErr_ok & H).
  apply bind_ok in H as (? & w2 & H2%ask_ok & H). apply bind_ok in H as (? & w3 & H3%checkSpace_ok & H).
  apply bind_ok in H as (? & w4 & H4%readHeader_ok & H). apply bind_ok in H as (staging & w5 & [Hn H5]%newStaging_ok & H).
  apply bind_ok in H as (? & w6 & H6 & H). unfold unlessPublished in H6. apply bind_ok in H6 as ([[]|e] & w7 & H7%attempt_ok & H6).
  2:{ apply bind_ok in H6 as (? & ? & _ & H6). by apply throw_ok in H6. }
  apply ret_ok in H6 as [_ ->]. apply receiveStaged_ok in H7 as (l & Ha & Hi & Hf & He); [|rewrite H5; apply lookup_insert_eq].
  rewrite H5 in Hi, Hf, He. cbn [sp_input sp_entries] in *.
  assert (w_host w = w_host w3) as Hw by congruence. rewrite Hw, H4. cbn [sp_input sp_entries]. rewrite H3, H2, H1 in *.
  apply lookup_insert_None in Hf as [Hf Hne]. rewrite delete_insert_id in He by done.
  assert (w_host w' = w_host w7 ∧ path = path_join (op_parent o) [hexEncode (op_transaction o)]) as [Hw' Hp].
  { apply bind_ok in H as (synced & w8 & H8%attempt_ok & H). assert (w_host w8 = w_host w7) as H8'.
    { unfold host_try in H8. destruct (now_fault w7); by injection H8 as _ <-. }
    destruct synced as [[]|e]; [|by apply ret_ok in H as [[= -> _] ->]].
    apply bind_ok in H as (same & w9 & H9%attempt_ok & H). assert (w_host w9 = w_host w8) as H9' by (by injection H9 as _ <-).
    destruct same as [[]|e]; apply ret_ok in H as [[= -> _] ->]; (split; [congruence|done]). }
  split; [done|]. exists l. split_and!; [done|by unfold encode_stream; rewrite Hi|done|by rewrite Hw'].
Qed.
End publication.
