(* ===== verification/ReceiverSafety.v ===== *)
(** What the receiver promises: whatever bytes the guest sends and whatever
    fails, the parent directory afterwards holds what it held before and, at
    most, one complete tree under the name of the transaction that the
    stream encodes and the options admit; and on a machine where nothing fails
    it accepts exactly the encodings of admissible trees. *)
From S2P Require Import Prelude Ids Bytes Json JsonText Outside World Logic ExportJournal Receiver.

(** ** Lemmas *)

(** *** How the outside world evolves *)
Section evolves.
Context {E : Env} {P : ReceiverPlatform} {D : Digests} (R : relation spool) {HR : PreOrder R}.
Implicit Types w : world spool.

(** Whatever [m] does, and wherever it stops, the outside world moved along
    [R]. *)
Definition evolves {A} (m : M spool A) : Prop := ∀ w, R (w_host w) (w_host (m w).2).
Lemma evolves_ret {A} (a : A) : evolves (ret a).
Proof. intros w. reflexivity. Qed.
Lemma evolves_throw {A} e : evolves (throw e : M spool A).
Proof. intros w. reflexivity. Qed.
Lemma evolves_lift {A} (r : res A) : evolves (lift r).
Proof. intros w. reflexivity. Qed.
Lemma evolves_guard b msg : evolves (guard b msg).
Proof. intros w. reflexivity. Qed.
Lemma evolves_ask {A} (f : nat → res A) : evolves (ask f).
Proof. intros w. reflexivity. Qed.
Lemma evolves_bind {A C} (m : M spool A) (f : A → M spool C) : evolves m → (∀ a, evolves (f a)) → evolves (bind m f).
Proof.
  intros Hm Hf w. unfold bind. specialize (Hm w). destruct (m w) as [[a|e] w1]; cbn in *; [|done]. transitivity (w_host w1); [done|apply Hf].
Qed.
Lemma evolves_wrap {A} msg (m : M spool A) : evolves m → evolves (wrap msg m).
Proof. intros Hm w. unfold wrap. specialize (Hm w). by destruct (m w) as [r w1]. Qed.
Lemma evolves_attempt {A} (m : M spool A) : evolves m → evolves (attempt m).
Proof. intros Hm w. unfold attempt. specialize (Hm w). by destruct (m w) as [r w1]. Qed.
Lemma evolves_host_try {A} (f : spool → res A * spool) : (∀ b, R b (f b).2) → evolves (host_try f).
Proof.
  intros Hf w. unfold host_try. specialize (Hf (w_host w)). destruct (f (w_host w)) as [r b]. by destruct (now_fault w).
Qed.
End evolves.
Create HintDb evolves discriminated.
#[export] Hint Resolve evolves_ret evolves_throw evolves_lift evolves_guard evolves_ask : evolves.
#[export] Hint Extern 0 (PreOrder _) => typeclasses eauto : evolves.
Ltac evolves_tac :=
  repeat first
    [ match goal with |- ∀ _, _ => intro end
    | solve [eauto 2 with evolves]
    | match goal with
      | |- evolves _ (bind _ _) => apply evolves_bind; [apply _| |]
      | |- evolves _ (wrap _ _) => apply evolves_wrap
      | |- evolves _ (attempt _) => apply evolves_attempt
      | |- evolves _ (if ?x then _ else _) => destruct x
      | |- evolves _ (match ?x with _ => _ end) => destruct x end ].

Section staging.
Context {E : Env} {P : ReceiverPlatform} {D : Digests} (R : relation spool) {HR : PreOrder R}.
Context (R_read : ∀ n b, R b (mkSpool (str_drop n (sp_input b)) (sp_entries b))) (R_eof : ∀ b, R b (mkSpool EmptyString (sp_entries b))).
Context (o : Options) (staging : string) (R_stage : ∀ b t, R b (mkSpool (sp_input b) (<[staging := t]> (sp_entries b)))).

Lemma evolves_ctxErr : evolves R ctxErr.
Proof. unfold ctxErr. evolves_tac. Qed.
Lemma evolves_checkSpace a b : evolves R (checkSpace a b).
Proof. unfold checkSpace. evolves_tac. Qed.
#[local] Hint Resolve evolves_ctxErr evolves_checkSpace : evolves.
Lemma evolves_streamError {A} (m : M spool A) : evolves R m → evolves R (streamError m).
Proof. intros Hm. unfold streamError. evolves_tac. Qed.
Lemma evolves_ReadFull n : evolves R (ReadFull n).
Proof. apply evolves_host_try; [done|]. intros b. destruct (String.length (sp_input b) <? n)%nat; [apply R_eof|apply R_read]. Qed.
#[local] Hint Resolve evolves_ReadFull : evolves.
Lemma evolves_readHeader : evolves R (readHeader o).
Proof. unfold readHeader. evolves_tac. apply evolves_streamError. evolves_tac. Qed.
Lemma evolves_on_stage {A} (f : tree → res A * tree) : evolves R (on_stage staging f).
Proof.
  apply evolves_host_try; [done|]. intros b. destruct (sp_entries b !! staging) as [t|]; [|reflexivity]. destruct (f t) as [r t']. apply R_stage.
Qed.
Lemma evolves_stage_new name what : evolves R (stage_new staging name what).
Proof. apply evolves_on_stage. Qed.
Lemma evolves_stage_write name bytes : evolves R (stage_write staging name bytes).
Proof. apply evolves_on_stage. Qed.
Lemma evolves_stage_sync : evolves R (stage_sync staging).
Proof. apply evolves_on_stage. Qed.
Lemma evolves_atEOF : evolves R atEOF.
Proof. apply evolves_host_try; [done|]. intros b. reflexivity. Qed.
#[local] Hint Resolve evolves_stage_new evolves_stage_write evolves_stage_sync evolves_atEOF : evolves.
Lemma evolves_copyChunk blocks name remaining : evolves R (copyChunk blocks o staging name remaining).
Proof. revert remaining. induction blocks as [|blocks IH]; intros remaining; cbn [copyChunk]; evolves_tac; apply IH. Qed.
#[local] Hint Resolve evolves_copyChunk : evolves.
(** What follows the header and the path. *)
Definition dispatch (p : progress) (rec : record) (name : string) : M spool (option progress) :=
  if rd_kind rec =? recordDirectory then let! p := receiveDirectory o staging p rec name in ret (Some p)
  else if rd_kind rec =? recordFile then let! p := receiveFile o staging p rec name in ret (Some p)
  else if rd_kind rec =? recordChunk then let! p := receiveChunk o staging p rec in ret (Some p)
  else if rd_kind rec =? recordFileEnd then let! p := receiveFileEnd staging p rec in ret (Some p)
  else if rd_kind rec =? recordTerminal then receiveTerminal o p rec ;;! ret None
  else throw (Errorf "unknown record type").
(** What follows the header of a record. *)
Definition receiveBody (p : progress) (rec : record) : M spool (option progress) :=
  guard (maxPathBytes <? rd_path rec) "path length exceeds limit" ;;!
  guard (negb (rd_kind rec =? recordChunk) && negb (rd_chunk rec =? 0)) "unexpected record payload" ;;!
  guard ((rd_kind rec =? recordChunk) && (op_max_chunk o <? rd_chunk rec)) "chunk length exceeds limit" ;;!
  let! name := if rd_path rec =? 0 then ret EmptyString else streamError (wrap "record path" (ReadFull (Z.to_nat (rd_path rec)))) in
  dispatch p rec name.
Lemma evolves_receiveBody p rec : evolves R (receiveBody p rec).
Proof.
  unfold receiveBody, dispatch, receiveDirectory, receiveFile, receiveChunk, receiveFileEnd, receiveTerminal. evolves_tac; apply evolves_streamError; evolves_tac.
Qed.
#[local] Hint Resolve evolves_receiveBody : evolves.
Lemma evolves_receiveRecord p : evolves R (receiveRecord o staging p).
Proof. change (evolves R (ctxErr ;;! let! rec := streamError readRecord in receiveBody p rec)). unfold readRecord. evolves_tac; apply evolves_streamError; evolves_tac. Qed.
Lemma evolves_receiveLoop turns p : evolves R (receiveLoop turns o staging p).
Proof. revert p. induction turns as [|turns IH]; intros p; cbn [receiveLoop]; evolves_tac. apply evolves_receiveRecord. Qed.
Lemma evolves_receiveRecords : evolves R (receiveRecords o staging).
Proof. intros w. apply (evolves_receiveLoop (S (String.length (sp_input (w_host w)))) _ w). Qed.
Lemma evolves_syncDirectories paths : evolves R (syncDirectories staging paths).
Proof. induction paths as [|x paths IH]; cbn [syncDirectories]; evolves_tac. Qed.
End staging.

(** *** The loop needs no more turns than the input has bytes *)
Section turns.
Context {E : Env} {P : ReceiverPlatform} {D : Digests}.
Implicit Types w : world spool.

Definition shorter (b b' : spool) : Prop := (String.length (sp_input b') <= String.length (sp_input b))%nat.
#[local] Instance shorter_preorder : PreOrder shorter.
Proof. split; unfold shorter; intros ? **; lia. Qed.
Lemma receiveRecord_shorter o staging p w r w' : receiveRecord o staging p w = (Ok r, w') →
  (String.length (sp_input (w_host w')) < String.length (sp_input (w_host w)))%nat.
Proof.
  assert (∀ n b, shorter b (mkSpool (str_drop n (sp_input b)) (sp_entries b))) as H1 by (intros n b; unfold shorter; cbn [sp_input]; rewrite drop_length; lia).
  assert (∀ b, shorter b (mkSpool EmptyString (sp_entries b))) as H2 by (intros b; unfold shorter; cbn; lia).
  assert (∀ b t, shorter b (mkSpool (sp_input b) (<[staging := t]> (sp_entries b)))) as H3 by (intros b t; unfold shorter; cbn; lia).
  change (receiveRecord o staging p w) with ((ctxErr ;;! let! rec := streamError readRecord in receiveBody o staging p rec) w).
  intros H. apply bind_ok in H as (? & w1 & Hc%ctxErr_ok & H). apply bind_ok in H as (rec & w2 & (Hr & Hl & _)%streamError_ok%readRecord_ok & H).
  pose proof (evolves_receiveBody shorter H1 H2 o staging H3 p rec w2) as Hs. rewrite H in Hs. unfold shorter in Hs. cbn [snd] in Hs.
  rewrite <-Hc, Hr. cbn [sp_input]. rewrite str_length_app, (header_length rec Hl). unfold recordSize. lia.
Qed.
Lemma receiveLoop_turns o staging turns : ∀ more p w, (String.length (sp_input (w_host w)) < turns)%nat →
  receiveLoop (turns + more) o staging p w = receiveLoop turns o staging p w.
Proof.
  induction turns as [|turns IH]; intros more p w Hw; [lia|]. cbn [receiveLoop Nat.add]. unfold bind.
  destruct (receiveRecord o staging p w) as [[r|e] w1] eqn:Hr; [|done]. apply receiveRecord_shorter in Hr.
  destruct r as [p'|]; [apply IH; lia|done].
Qed.
End turns.

(** *** Where the receiver writes *)
Section confined.
Context {E : Env} {P : ReceiverPlatform} {D : Digests}.
Implicit Types w : world spool.

(** Only names in [S] change. *)
Definition outside (S : string → Prop) (b b' : spool) : Prop := ∀ n, ¬ S n → sp_entries b' !! n = sp_entries b !! n.
#[export] Instance outside_preorder S : PreOrder (outside S).
Proof. split; unfold outside; [done|]. intros a b c H1 H2 n Hn. by rewrite H2, H1. Qed.
Abbreviation confined S m := (evolves (outside S) m).
Lemma outside_same S b i : outside S b (mkSpool i (sp_entries b)).
Proof. done. Qed.
Lemma outside_stage staging b t : outside (λ n, n = staging) b (mkSpool (sp_input b) (<[staging := t]> (sp_entries b))).
Proof. intros n Hn. cbn. by rewrite lookup_insert_ne by (intros ->; by apply Hn). Qed.
Lemma confined_receiveRecords o staging : confined (λ n, n = staging) (receiveRecords o staging).
Proof. apply evolves_receiveRecords; [apply _|intros n b; apply outside_same|intros b; apply outside_same|apply outside_stage]. Qed.
Lemma confined_syncDirectories staging paths : confined (λ n, n = staging) (syncDirectories staging paths).
Proof. apply evolves_syncDirectories; [apply _|apply outside_stage]. Qed.
Lemma confined_stage_remove staging : confined (λ n, n = staging) (stage_remove staging).
Proof. apply evolves_host_try; [apply _|]. intros [i e] n Hn. cbn. by rewrite lookup_delete_ne by (intros ->; by apply Hn). Qed.
Lemma confined_readHeader o S : confined S (readHeader o).
Proof. apply evolves_readHeader; [apply _|intros n b; apply outside_same|intros b; apply outside_same]. Qed.
Lemma confined_ctxErr S : confined S ctxErr.
Proof. apply evolves_ctxErr, _. Qed.
Lemma confined_checkSpace S a b : confined S (checkSpace a b).
Proof. apply evolves_checkSpace, _. Qed.
End confined.
#[export] Hint Resolve confined_ctxErr confined_checkSpace confined_readHeader : evolves.

(** *** What a failed run leaves *)
Section failure.
Context {E : Env} {P : ReceiverPlatform} {D : Digests}.
Implicit Types w : world spool.
Context (o : Options) (typed : typed_options o).
Abbreviation final := (hexEncode (op_transaction o)).

Definition is_staging (n : string) : Prop := has_prefix ".incoming-" n = true.
Lemma confined_newStaging n : evolves (outside is_staging) (newStaging n).
Proof.
  induction n as [|n IH]; cbn [newStaging]; evolves_tac. apply evolves_host_try; [apply _|]. intros [i e] m Hm. cbn [sp_entries].
  destruct (e !! _); [done|]. cbn. rewrite lookup_insert_ne; [done|]. intros <-. apply Hm. apply has_prefix_app.
Qed.
Lemma newStaging_name n w staging w' : newStaging n w = (Ok staging, w') → is_staging staging.
Proof.
  revert w. induction n as [|n IH]; intros w H; cbn [newStaging] in H; [by apply throw_ok in H|].
  apply bind_ok in H as (r & w1 & _ & H). apply bind_ok in H as ([] & w2 & _ & H); [|by eapply IH].
  apply ret_ok in H as [-> _]. apply has_prefix_app.
Qed.
Definition published (w : world spool) (l : list item) (entries : gmap string tree) : Prop :=
  admissible o l ∧ sp_input (w_host w) = encode_stream (op_transaction o) l ∧ sp_entries (w_host w) !! final = None ∧
  entries !! final = Some (tree_of l).
(** The files are as they were, but for staging directories and perhaps a
    complete export. *)
Definition settled (w w' : world spool) : Prop :=
  ∀ n, ¬ is_staging n → sp_entries (w_host w') !! n = sp_entries (w_host w) !! n ∨
                        (n = final ∧ ∃ l, published w l (sp_entries (w_host w'))).
Lemma rename_result staging w r w' : wrap "publish export" (renameNoReplace staging final) w = (r, w') →
  sp_entries (w_host w') = sp_entries (w_host w) ∨
  ∃ t, sp_entries (w_host w) !! final = None ∧ sp_entries (w_host w) !! staging = Some t ∧
    sp_entries (w_host w') = <[final := t]> (delete staging (sp_entries (w_host w))).
Proof.
  unfold wrap, renameNoReplace, host_try. destruct w as [dk [i e] lk tr tk]. cbn [sp_entries w_host].
  destruct (e !! final) eqn:Ef; [|destruct (e !! staging) as [t|] eqn:Es];
    destruct (now_fault _); intros [= _ <-]; cbn [w_host sp_entries tick sp_input]; rewrite ?Ef; first [by left|right; exists t; done].
Qed.
(** Before the rename only the staging directory is written. *)
Definition beforeRename (staging : string) : M spool unit :=
  let! p := receiveRecords o staging in
  syncDirectories staging (rev (pg_directories p)) ;;!
  checkSpace (op_min_free o) 0 ;;!
  ask rp_parent ;;!
  ctxErr.
Lemma receiveStaged_eq staging w :
  receiveStaged o staging w = (beforeRename staging ;;! wrap "publish export" (renameNoReplace staging final)) w.
Proof.
  unfold receiveStaged, beforeRename, bind. destruct (receiveRecords o staging w) as [[p|e] w1]; [|done].
  destruct (syncDirectories _ _ w1) as [[?|e] w2]; [|done]. destruct (checkSpace _ _ w2) as [[?|e] w3]; [|done].
  destruct (ask rp_parent w3) as [[?|e] w4]; [|done]. by destruct (ctxErr w4) as [[?|e] w5].
Qed.
Lemma confined_beforeRename staging : evolves (outside (λ n, n = staging)) (beforeRename staging).
Proof.
  unfold beforeRename. evolves_tac; [apply confined_receiveRecords|apply confined_syncDirectories].
Qed.
Lemma beforeRename_ok staging w u w' : sp_entries (w_host w) !! staging = Some ∅ → beforeRename staging w = (Ok u, w') →
  ∃ l, admissible o l ∧ sp_input (w_host w) = cat (map encode_item l) +:+ encode_terminal (total l) ∧
    sp_entries (w_host w') = <[staging := tree_of l]> (sp_entries (w_host w)).
Proof.
  intros Ht H. unfold beforeRename in H. apply bind_ok in H as (p & w1 & H1 & H).
  apply (receiveRecords_ok o typed staging _ _ _ Ht) in H1 as (l & Ha & Hi & _ & He).
  apply bind_ok in H as (? & w2 & H2%syncDirectories_ok & H). apply bind_ok in H as (? & w3 & H3%checkSpace_ok & H).
  apply bind_ok in H as (? & w4 & H4%ask_ok & H). apply ctxErr_ok in H. exists l. split_and!; [done|done|]. congruence.
Qed.
Lemma Receive_failed w e w' : Receive o w = (Er e, w') → settled w w'.
Proof.
  assert (∀ x w1, w_host w1 = w_host x → settled x w1) as Hsame by (intros x w1 Hx n _; left; by rewrite Hx).
  intros H. unfold Receive in H. apply bind_er in H as [[_ ->]%lift_er|(? & w0 & [_ ->]%lift_ok & H)]; [by apply Hsame|].
  apply bind_er in H as [H|(? & w1 & H1%ctxErr_ok & H)]; [intros n Hn; left; pose proof (confined_ctxErr is_staging w n Hn) as Hx; by rewrite H in Hx|].
  apply bind_er in H as [H|(? & w2 & H2%ask_ok & H)]; [apply Hsame; by injection H as _ <-|].
  apply bind_er in H as [H|(? & w3 & H3%checkSpace_ok & H)].
  { intros n Hn. left. pose proof (confined_checkSpace is_staging (op_min_free o) 0 w2 n Hn) as Hx. rewrite H in Hx. cbn in Hx. congruence. }
  apply bind_er in H as [H|(? & w4 & H4 & H)].
  { intros n Hn. left. pose proof (confined_readHeader o is_staging w3 n Hn) as Hx. rewrite H in Hx. cbn in Hx. congruence. }
  apply readHeader_ok in H4. assert (w_host w3 = w_host w) as Hw3 by congruence. rewrite Hw3 in H4. clear H1 H2 H3 Hw3 w1 w2 w3.
  apply bind_er in H as [H|(staging & w5 & H5 & H)].
  { intros n Hn. left. pose proof (confined_newStaging 4 w4 n Hn) as Hx. rewrite H in Hx. cbn in Hx. by rewrite Hx, H4. }
  apply newStaging_name in H5 as Hst. apply newStaging_ok in H5 as [Hn5 H5].
  apply bind_er in H as [H|(? & w6 & _ & H)].
  2:{ exfalso. apply bind_er in H as [H|(synced & w7 & _ & H)]; [by unfold attempt in H; destruct (host_try _ w6)|].
      destruct synced as [[]|e1]; [|done]. apply bind_er in H as [H|(same & w8 & _ & H)]; [done|]. by destruct same as [[]|e1]. }
  unfold unlessPublished in H. apply bind_er in H as [H|([[]|e0] & w6 & H6%attempt_ok & H)]; [unfold attempt in H; by destruct (receiveStaged _ _ w5)|done|].
  assert (∀ n, ¬ is_staging n → sp_entries (w_host w') !! n = sp_entries (w_host w6) !! n) as Hrm.
  { intros n Hn. pose proof (evolves_attempt _ _ (confined_stage_remove staging) w6 n) as Hx. unfold bind in H.
    destruct (attempt (stage_remove staging) w6) as [[r|e1] w7]; (injection H as _ <-; apply Hx; intros ->; done). }
  assert (∀ n, ¬ is_staging n → sp_entries (w_host w) !! n = sp_entries (w_host w5) !! n) as Hw5.
  { intros n Hn. rewrite H5, H4. cbn [sp_entries]. rewrite lookup_insert_ne; [done|]. by intros <-. }
  rewrite receiveStaged_eq in H6. apply bind_er in H6 as [H6|(u & w8 & H8 & H6)].
  { intros n Hn. left. rewrite Hrm, Hw5 by done. pose proof (confined_beforeRename staging w5 n) as Hx. rewrite H6 in Hx. cbn in Hx. apply Hx. by intros ->. }
  pose proof (confined_beforeRename staging w5) as Hc8. rewrite H8 in Hc8. cbn [snd] in Hc8.
  apply beforeRename_ok in H8 as (l & Ha & Hi & He8); [|rewrite H5; apply lookup_insert_eq].
  intros n Hn. rewrite Hrm, Hw5 by done. assert (n ≠ staging) as Hne by (by intros ->).
  apply rename_result in H6 as [He6|(t & Hf & Ht & He6)]; [left; rewrite He6; by apply Hc8|].
  destruct (decide (n = final)) as [->|Hnf]; [right; split; [done|]|left; rewrite He6, lookup_insert_ne, lookup_delete_ne by congruence; by apply Hc8].
  exists l. rewrite He8, lookup_insert_eq in Ht. injection Ht as <-. split_and!; [done| | |].
  - rewrite H4. cbn [sp_input]. rewrite H5 in Hi. cbn [sp_input] in Hi. by rewrite Hi.
  - rewrite Hw5 by done. by rewrite <-Hc8.
  - by rewrite Hrm, He6, lookup_insert_eq.
Qed.
End failure.

(** *** Runs in which nothing fails *)

(** [m] ends with [a] and leaves the outside world as [b]. *)
Definition yields {B A} (m : M B A) (w : world B) (a : A) (b : B) : Prop := ∃ n, m w = (Ok a, rehost b n w).
Lemma yields_bind {B A C} (m : M B A) (f : A → M B C) w a b c b' :
  yields m w a b → (∀ n, yields (f a) (rehost b n w) c b') → yields (bind m f) w c b'.
Proof. intros [n Hm] Hf. destruct (Hf n) as [n' Hn]. exists n'. unfold bind. by rewrite Hm. Qed.
Lemma yields_ret {B A} (a : A) (w : world B) : yields (ret a) w a (w_host w).
Proof. exists (w_tick w). by destruct w. Qed.
Lemma yields_lift {B A} (a : A) (w : world B) : yields (lift (Ok a)) w a (w_host w).
Proof. exists (w_tick w). by destruct w. Qed.
Lemma yields_guard {B} b msg (w : world B) : b = false → yields (guard b msg) w tt (w_host w).
Proof. intros ->. exists (w_tick w). by destruct w. Qed.
Lemma yields_ask {B A} (f : nat → res A) (a : A) (w : world B) : f (w_tick w) = Ok a → yields (ask f) w a (w_host w).
Proof. intros H. exists (S (w_tick w)). unfold ask. by rewrite H. Qed.
Lemma yields_wrap {B A} msg (m : M B A) w a b : yields m w a b → yields (wrap msg m) w a b.
Proof. intros [n H]. exists n. unfold wrap. by rewrite H. Qed.
Lemma yields_attempt {B A} (m : M B A) w a b : yields m w a b → yields (attempt m) w (Ok a) b.
Proof. intros [n H]. exists n. unfold attempt. by rewrite H. Qed.
Lemma yields_host_try {B A} {E : Env} {C : Calm E} (f : B → res A * B) w a b : f (w_host w) = (Ok a, b) → yields (host_try f) w a b.
Proof. intros H. exists (S (w_tick w)). unfold host_try, now_fault. by rewrite calm_fault, H. Qed.

(** A machine that is neither short of space nor told to stop. *)
Record roomy {P : ReceiverPlatform} (o : Options) : Prop := {
  rm_live : ∀ n, rp_canceled n = false;
  rm_parent : ∀ n, rp_parent n = Ok tt;
  rm_space : ∀ n, ∃ stat, rp_statfs n = Ok stat ∧ ∀ incoming, 0 <= incoming <= copyBuffer → spaceOf (op_min_free o) incoming stat = Ok tt;
}.

Section exact.
Context {E : Env} {C : Calm E} {P : ReceiverPlatform} {D : Digests}.
Implicit Types w : world spool.
Context (o : Options) (typed : typed_options o) (room : roomy o) (staging : string).

Lemma yields_ctxErr w : yields ctxErr w tt (w_host w).
Proof.
  unfold ctxErr. eapply yields_bind; [by apply yields_ask|]. intros n. apply (yields_guard _ _ (rehost (w_host w) n w)), (rm_live _ room).
Qed.
Lemma yields_checkSpace incoming w : 0 <= incoming <= copyBuffer → yields (checkSpace (op_min_free o) incoming) w tt (w_host w).
Proof.
  intros H. destruct (rm_space _ room (w_tick w)) as (stat & Hs & Hi). unfold checkSpace. eapply yields_bind; [by apply yields_ask|].
  intros n. rewrite Hi by done. apply (yields_lift tt (rehost (w_host w) n w)).
Qed.
Lemma yields_streamError {A} (m : M spool A) w a b : yields m w a b → yields (streamError m) w a b.
Proof.
  intros H. unfold streamError. eapply yields_bind; [by apply yields_attempt|]. intros n. apply (yields_ret a (rehost b n w)).
Qed.
Lemma yields_ReadFull s w entries rest : w_host w = mkSpool (s +:+ rest) entries → yields (ReadFull (String.length s)) w s (mkSpool rest entries).
Proof.
  intros H. apply yields_host_try. rewrite H. cbn [sp_input sp_entries]. destruct (Nat.ltb_spec (String.length (s +:+ rest)) (String.length s)) as [Hl|_].
  - rewrite str_length_app in Hl. lia.
  - by rewrite take_app, drop_app.
Qed.
Lemma yields_stage_new name what w input entries t : w_host w = mkSpool input entries → entries !! staging = Some t →
  t !! name = None → is_dir t (path_dir name) = true → yields (stage_new staging name what) w tt (mkSpool input (<[staging := <[name := what]> t]> entries)).
Proof. intros H Ht Hn Hd. apply yields_host_try. rewrite H. cbn [sp_input sp_entries]. by rewrite Ht, Hn, Hd. Qed.
Lemma yields_stage_write name bytes old w input entries t : w_host w = mkSpool input entries → entries !! staging = Some t →
  t !! name = Some (NFile old) → yields (stage_write staging name bytes) w tt (mkSpool input (<[staging := <[name := NFile (old +:+ bytes)]> t]> entries)).
Proof. intros H Ht Hn. apply yields_host_try. rewrite H. cbn [sp_input sp_entries]. by rewrite Ht, Hn. Qed.
Lemma yields_stage_sync w t : sp_entries (w_host w) !! staging = Some t → yields (stage_sync staging) w tt (w_host w).
Proof. intros Ht. apply yields_host_try. rewrite Ht. destruct (w_host w) as [i e]. cbn in *. by rewrite insert_id. Qed.
Lemma yields_copyChunk blocks name bytes old w entries rest t :
  size bytes <= Z.of_nat blocks * copyBuffer → w_host w = mkSpool (bytes +:+ rest) entries → entries !! staging = Some t → t !! name = Some (NFile old) →
  yields (copyChunk blocks o staging name (size bytes)) w bytes (mkSpool rest (<[staging := <[name := NFile (old +:+ bytes)]> t]> entries)).
Proof.
  revert bytes old w entries t. induction blocks as [|blocks IH]; intros bytes old w entries t Hb Hw Ht Hn; cbn [copyChunk].
  all: destruct (Z.leb_spec (size bytes) 0) as [Hz|Hz].
  1,3: assert (bytes = "") as -> by (destruct bytes; [done|unfold size in Hz; cbn in Hz; lia]); rewrite str_app_nil, (insert_id t name) by done;
    rewrite insert_id by done; change (mkSpool rest entries) with (mkSpool ("" +:+ rest) entries); rewrite <-Hw; apply yields_ret.
  { lia. }
  set (count := Z.min copyBuffer (size bytes)). assert (0 <= count <= copyBuffer) as Hc by (unfold count, copyBuffer; lia).
  set (s := str_take (Z.to_nat count) bytes). set (bytes' := str_drop (Z.to_nat count) bytes).
  assert (bytes = s +:+ bytes') as Hs by apply take_drop.
  assert (String.length s = Z.to_nat count) as Hl by (apply take_length; unfold count, size; lia).
  assert (size bytes = count + size bytes') as Hsz by (rewrite Hs at 1; rewrite size_app; unfold size; lia).
  eapply yields_bind; [apply yields_ctxErr|]. intros n1. cbv zeta. fold count. eapply yields_bind; [apply yields_checkSpace, Hc|]. intros n2.
  rewrite <-Hl. eapply yields_bind; [apply yields_wrap, yields_ReadFull|]; [cbn [w_host rehost]; by rewrite Hw, Hs, str_app_assoc|].
  intros n3. eapply yields_bind; [by eapply yields_stage_write|]. intros n4.
  replace (size bytes - count) with (size bytes') by lia.
  eapply yields_bind; [eapply (IH bytes' (old +:+ s)); [pose proof (size_nonneg bytes'); unfold count, copyBuffer in *; lia|done|apply lookup_insert_eq|apply lookup_insert_eq]|]. intros n5.
  rewrite !insert_insert_eq, str_app_assoc, <-Hs. rewrite Hs. apply (yields_ret (s +:+ bytes') (rehost _ n5 w)).
Qed.

Lemma rehost_same b n w : w_host (rehost b n w) = b.
Proof. done. Qed.
Lemma yields_readRecord rec w rest entries : w_host w = mkSpool (header rec +:+ rest) entries →
  0 <= rd_kind rec < 256 → 0 <= rd_path rec < 2 ^ 16 → 0 <= rd_chunk rec < 2 ^ 32 → 0 <= rd_declared rec < 2 ^ 64 →
  String.length (rd_digest rec) = 32%nat → yields readRecord w rec (mkSpool rest entries).
Proof.
  intros Hw H1 H2 H3 H4 H5. unfold readRecord. eapply yields_bind.
  - apply yields_wrap. rewrite <-(header_length rec H5). by apply yields_ReadFull.
  - intros n. rewrite decode_header by done. apply (yields_ret rec (rehost _ n w)).
Qed.
Lemma yields_receiveRecord p kind name payload declared digest w rest entries a b :
  0 <= kind < 256 → size name <= maxPathBytes → (kind = recordChunk ∧ size payload <= op_max_chunk o ∨ kind ≠ recordChunk ∧ payload = "") →
  0 <= declared < 2 ^ 64 → String.length digest = 32%nat → w_host w = mkSpool (frame kind name payload declared digest +:+ rest) entries →
  (∀ w1, w_host w1 = mkSpool (payload +:+ rest) entries → yields (dispatch o staging p (mkRecord kind (size name) (size payload) declared digest) name) w1 a b) →
  yields (receiveRecord o staging p) w a b.
Proof.
  intros Hk Hn Hp Hd Hg Hw Hgo. set (rec := mkRecord kind (size name) (size payload) declared digest). unfold receiveRecord.
  pose proof (size_nonneg name). pose proof (size_nonneg payload). pose proof (to_chunk _ typed). unfold maxPathBytes in Hn.
  eapply yields_bind; [apply yields_ctxErr|]. intros n1. eapply yields_bind.
  { apply yields_streamError, (yields_readRecord rec); cbn [rec rd_kind rd_path rd_chunk rd_declared rd_digest]; try done; try lia.
    - cbn [w_host rehost]. by rewrite Hw, frame_header, str_app_assoc.
    - destruct Hp as [[_ ?]|[_ ->]]; [lia|]. change (size "") with 0. lia. }
  intros n2. eapply yields_bind; [apply yields_guard; cbn [rec rd_path]; apply Z.ltb_ge; unfold maxPathBytes; lia|]. intros n3.
  eapply yields_bind; [apply yields_guard; cbn [rec rd_kind rd_chunk]|].
  { destruct Hp as [[-> _]|[_ ->]]; [done|]. change (size "") with 0. by rewrite andb_false_r. }
  intros n4. eapply yields_bind; [apply yields_guard; cbn [rec rd_kind rd_chunk]|].
  { destruct Hp as [[-> Hp]|[_ ->]]; [by apply Z.ltb_ge in Hp as ->|]. change (size "") with 0. apply andb_false_iff. right. apply Z.ltb_ge. lia. }
  intros n5. eapply (yields_bind _ _ _ name (mkSpool (payload +:+ rest) entries)).
  - cbn [rec rd_path]. destruct (Z.eqb_spec (size name) 0) as [Hz|Hz].
    + assert (name = "") as -> by (destruct name; [done|unfold size in Hz; cbn in Hz; lia]). apply (yields_ret "" (rehost _ n5 w)).
    + apply yields_streamError, yields_wrap. unfold size. rewrite Nat2Z.id. apply yields_ReadFull. cbn [w_host rehost]. by rewrite str_app_assoc.
  - intros n6. apply Hgo. done.
Qed.

(** One record is accepted, and leaves the state as announced. *)
Definition accepted (p : progress) (w : world spool) (rest : string) (entries : gmap string tree) (l' : list item) (part' : open_file) : Prop :=
  ∃ p' t', yields (receiveRecord o staging p) w (Some p') (mkSpool rest (<[staging := t']> entries)) ∧ building o l' part' p' t'.
Lemma validPath_size name : validPath name = true → 0 < size name <= maxPathBytes.
Proof.
  unfold validPath, validExportSelection, maxPathBytes, size. rewrite !andb_true_iff, !negb_true_iff, Nat.eqb_neq, Nat.ltb_ge. lia.
Qed.
Lemma fits_admit l i : fits o (l ++ [i]) →
  validPath (item_name i) = true ∧ admitPath (item_name i) (seen_of l) = Ok tt ∧
  admitSelectedPath (item_name i) (item_kind i) (op_selected o) = Ok tt ∧
  tree_of l !! item_name i = None ∧ is_dir (tree_of l) (path_dir (item_name i)) = true.
Proof.
  intros [H1 H2 H3 _ _ _ _ _]. rewrite Forall_app, Forall_singleton in H1. destruct H1 as [_ [Hv Hs]].
  pose proof (names_nodup _ H2) as H2n. rewrite map_app in H2, H2n. apply NoDup_app in H2 as (Hl & Hd & _), H2n as (Hnl & Hnd & _).
  cbn [map] in *. assert (path_dir (item_name i) = "."%string ∨ IDir (path_dir (item_name i)) ∈ l) as Hp by (by apply (H3 l i [])).
  split_and!; [done| |done| |].
  - unfold admitPath. rewrite Hv. cbn [check res_bind]. 
    replace (seen_of l !! ToLower (item_name i)) with (@None (Z * string)) by (symmetry; apply seen_of_None; intros Hin; by apply (Hd _ Hin), list_elem_of_singleton).
    cbn [isNone check res_bind]. destruct (path_dir (item_name i) =s ".") eqn:Ed; [done|]. destruct Hp as [Hp|Hp]; [by rewrite Hp in Ed|].
    pose proof (seen_of_in l _ Hl Hp) as Hseen. cbn [item_name item_kind] in Hseen. rewrite Hseen. by rewrite eqs_refl.
  - apply tree_of_None. intros Hin. by apply (Hnd _ Hin), list_elem_of_singleton.
  - unfold is_dir. destruct Hp as [->|Hp]; [done|]. pose proof (tree_of_in l _ Hnl Hp) as Ht. cbn [item_name node_of] in Ht. by rewrite Ht, orb_true_r.
Qed.
Lemma str_app_inj_r (a b c : string) : a +:+ c = b +:+ c → a = b.
Proof.
  intros H. pose proof (f_equal String.length H) as Hl. rewrite !str_length_app in Hl. by apply str_app_inj_len in H as [-> _]; [|lia].
Qed.
Lemma staged_tree (entries : gmap string tree) t t' : <[staging := t]> entries = <[staging := t']> entries → t = t'.
Proof. intros H. apply (f_equal (lookup staging)) in H. rewrite !lookup_insert_eq in H. by injection H. Qed.
Lemma yields_Some {A} (m : M spool A) w a b : yields m w a b → yields (let! x := m in ret (Some x)) w (Some a) b.
Proof. intros H. eapply yields_bind; [exact H|]. intros n. apply (yields_ret (Some a) (rehost b n w)). Qed.
Lemma accept_dir l p t name w rest entries : building o l None p t → fits o (l ++ [IDir name]) →
  w_host w = mkSpool (frame recordDirectory name "" 0 noDigest +:+ rest) entries → entries !! staging = Some t →
  accepted p w rest entries (l ++ [IDir name]) None.
Proof.
  intros Hb Hf Hw Ht. destruct (fits_admit _ _ Hf) as (Hv & Ha & Hs & Hn & Hd). cbn [item_name item_kind] in *.
  pose proof (validPath_size _ Hv) as Hsz. pose proof (ft_dirs _ _ Hf) as Hdirs. rewrite count_app in Hdirs.
  change (count recordDirectory [IDir name]) with 1 in Hdirs. pose proof Hb as [_ _ Hseen _ Hdc _ Hc _ Htr]. cbn [opened] in *. rewrite app_nil_r in *.
  set (rec := mkRecord recordDirectory (size name) (size "") 0 noDigest).
  set (p' := mkProgress (<[ToLower name := (recordDirectory, name)]> (pg_seen p)) (pg_directories p ++ [name]) (pg_current p) (pg_files p)
         ((pg_dirs p + 1) mod 2 ^ 32) (pg_total p)).
  set (t' := <[name := NDir]> t).
  assert (∀ w1, w_host w1 = mkSpool rest entries → yields (receiveDirectory o staging p rec name) w1 p' (mkSpool rest (<[staging := t']> entries))) as Hgo.
  { intros w1 Hw1. unfold receiveDirectory. eapply yields_bind; [apply yields_guard|].
    { rewrite Hc. cbn [isSome fmap option_fmap option_map rec rd_path rd_declared rd_digest]. destruct (Z.eqb_spec (size name) 0); [lia|]. done. }
    intros n1. rewrite Hseen, Ha, Hs. eapply yields_bind; [apply yields_lift|]. intros n2. eapply yields_bind; [apply yields_lift|]. intros n3.
    eapply yields_bind; [apply yields_guard, Z.leb_gt; lia|]. intros n4.
    eapply yields_bind; [apply (yields_stage_new _ _ _ rest entries t); [done|done|by subst t|by subst t]|]. intros n5.
    unfold p'. rewrite Hseen. apply (yields_ret _ (rehost _ n5 _)). }
  exists p', t'. split.
  - eapply (yields_receiveRecord p recordDirectory name "" 0 noDigest); try done; [lia|by right|]. intros w1 Hw1. by apply yields_Some, Hgo.
  - destruct (Hgo (rehost (mkSpool rest entries) 0 w) eq_refl) as [n Hp'].
    pose proof (receiveDirectory_ok o typed staging l None p t rec name (rehost (mkSpool rest entries) 0 w) p' _ Hb Ht Hp') as (_ & _ & _ & _ & t1 & [_ He] & Hb').
    by apply staged_tree in He as <-.
Qed.
Lemma accept_file l p t name declared w rest entries : building o l None p t → fits o (l ++ [IFile name [] ""]) →
  0 <= declared <= op_max_file o → declared <= op_max_total o - total l →
  w_host w = mkSpool (frame recordFile name "" declared noDigest +:+ rest) entries → entries !! staging = Some t →
  accepted p w rest entries l (Some (name, declared, [])).
Proof.
  intros Hb Hf Hdf Hdt Hw Ht. destruct (fits_admit _ _ Hf) as (Hv & Ha & Hs & Hn & Hd). cbn [item_name item_kind] in *.
  pose proof (validPath_size _ Hv) as Hsz. pose proof (ft_files _ _ Hf) as Hfiles. rewrite count_app in Hfiles.
  change (count recordFile [IFile name [] ""]) with 1 in Hfiles. pose proof Hb as [_ _ Hseen Hfc _ Htc Hc _ Htr]. cbn [opened] in *. rewrite app_nil_r in *.
  pose proof (to_file _ typed). pose proof (to_total _ typed). pose proof (total_nonneg l).
  set (rec := mkRecord recordFile (size name) (size "") declared noDigest).
  set (p' := mkProgress (<[ToLower name := (recordFile, name)]> (pg_seen p)) (pg_directories p) (Some (mkActive name declared EmptyString))
         ((pg_files p + 1) mod 2 ^ 32) (pg_dirs p) (pg_total p)).
  set (t' := <[name := NFile ""]> t).
  assert (∀ w1, w_host w1 = mkSpool rest entries → yields (receiveFile o staging p rec name) w1 p' (mkSpool rest (<[staging := t']> entries))) as Hgo.
  { intros w1 Hw1. unfold receiveFile. eapply yields_bind; [apply yields_guard|].
    { rewrite Hc. cbn [isSome fmap option_fmap option_map rec rd_path rd_digest]. destruct (Z.eqb_spec (size name) 0); [lia|]. done. }
    intros n1. rewrite Hseen, Ha, Hs. eapply yields_bind; [apply yields_lift|]. intros n2. eapply yields_bind; [apply yields_lift|]. intros n3.
    eapply yields_bind; [apply yields_guard|].
    { cbn [rec rd_declared]. rewrite Htc, Z.mod_small by lia. rewrite !orb_false_iff, Z.leb_gt, !Z.ltb_ge. lia. }
    intros n4. eapply yields_bind; [apply (yields_stage_new _ _ _ rest entries t); [done|done|by subst t|by subst t]|]. intros n5.
    unfold p'. rewrite Hseen. apply (yields_ret _ (rehost _ n5 _)). }
  exists p', t'. split.
  - eapply (yields_receiveRecord p recordFile name "" declared noDigest); try done; [lia|by right|lia|]. intros w1 Hw1. by apply yields_Some, Hgo.
  - destruct (Hgo (rehost (mkSpool rest entries) 0 w) eq_refl) as [n Hp'].
    pose proof (receiveFile_ok o typed staging l None p t rec name (rehost (mkSpool rest entries) 0 w) p' _ ltac:(cbn; lia) ltac:(cbn; lia) Hb Ht Hp') as (_ & _ & _ & t1 & [_ He] & Hb').
    by apply staged_tree in He as <-.
Qed.
Lemma accept_chunk l n declared cs c p t w rest entries : building o l (Some (n, declared, cs)) p t →
  0 < size c <= op_max_chunk o → size (cat cs) + size c <= declared → declared <= op_max_total o - total l →
  w_host w = mkSpool (chunk_frame c +:+ rest) entries → entries !! staging = Some t →
  accepted p w rest entries l (Some (n, declared, cs ++ [c])).
Proof.
  intros Hb Hsz Hdc Hdt Hw Ht. pose proof Hb as [Hf _ Hseen Hfc _ Htc Hc Hde Htr]. cbn [opened fmap option_fmap option_map] in *.
  pose proof (to_chunk _ typed). pose proof (to_total _ typed). pose proof (to_file _ typed). pose proof (total_nonneg l). pose proof (size_nonneg (cat cs)).
  destruct (Hde n declared cs eq_refl) as [_ Hdf]. rewrite total_app, total_cons in Htc. cbn [content] in Htc. change (total []) with 0 in Htc.
  set (rec := mkRecord recordChunk (size "") (size c) 0 noDigest).
  set (p' := mkProgress (pg_seen p) (pg_directories p) (Some (mkActive n declared (cat cs +:+ c))) (pg_files p) (pg_dirs p) ((pg_total p + size c) mod 2 ^ 64)).
  set (t' := <[n := NFile (cat cs +:+ c)]> t).
  assert (∀ w1, w_host w1 = mkSpool (c +:+ rest) entries → yields (receiveChunk o staging p rec) w1 p' (mkSpool rest (<[staging := t']> entries))) as Hgo.
  { intros w1 Hw1. unfold receiveChunk. rewrite Hc. cbn [af_declared af_name af_data]. change (af_written (mkActive n declared (cat cs))) with (size (cat cs)).
    cbn [rec rd_path rd_chunk rd_declared rd_digest]. eapply yields_bind; [apply yields_guard|].
    { change (size "") with 0. destruct (Z.eqb_spec (size c) 0); [lia|]. done. }
    intros n1. eapply yields_bind; [apply yields_guard|].
    { rewrite Htc, !Z.mod_small by lia. rewrite orb_false_iff, !Z.ltb_ge. lia. }
    intros n2. eapply yields_bind; [apply yields_streamError, yields_copyChunk|].
    - unfold copyBuffer. rewrite Nat2Z.inj_succ, Z2Nat.id by (apply Z.div_pos; lia). pose proof (Z.mul_succ_div_gt (size c) (32 * 1024) ltac:(lia)). lia.
    - cbn [w_host rehost]. exact Hw1.
    - exact Ht.
    - rewrite Htr, tree_of_snoc. apply lookup_insert_eq.
    - intros n3. apply (yields_ret _ (rehost _ n3 _)). }
  exists p', t'. split.
  - eapply (yields_receiveRecord p recordChunk "" c 0 noDigest); try done; [left; lia|]. intros w1 Hw1. by apply yields_Some, Hgo.
  - destruct (Hgo (rehost (mkSpool (c +:+ rest) entries) 0 w) eq_refl) as [k Hp'].
    pose proof (receiveChunk_ok o typed staging l (Some (n, declared, cs)) p t rec (rehost (mkSpool (c +:+ rest) entries) 0 w) p' _ ltac:(cbn; lia) Hb Ht Hp')
      as (_ & _ & _ & _ & n1 & d1 & cs1 & c1 & t1 & [= <- <- <-] & Hs1 & [Hi He] & Hb').
    cbn [sp_input sp_entries w_host rehost] in Hi, He. apply staged_tree in He as <-. by apply str_app_inj_r in Hi as <-.
Qed.
Lemma accept_end l n cs digest p t w rest entries : building o l (Some (n, size (cat cs), cs)) p t →
  String.length digest = 32%nat → equalDigest (cat cs) digest = true →
  w_host w = mkSpool (frame recordFileEnd "" "" 0 digest +:+ rest) entries → entries !! staging = Some t →
  accepted p w rest entries (l ++ [IFile n cs digest]) None.
Proof.
  intros Hb Hl Hd Hw Ht. pose proof Hb as [Hf _ Hseen Hfc _ Htc Hc Hde Htr]. cbn [opened fmap option_fmap option_map] in *.
  set (rec := mkRecord recordFileEnd (size "") (size "") 0 digest).
  set (p' := mkProgress (pg_seen p) (pg_directories p) None (pg_files p) (pg_dirs p) (pg_total p)).
  assert (∀ w1, w_host w1 = mkSpool rest entries → yields (receiveFileEnd staging p rec) w1 p' (mkSpool rest (<[staging := t]> entries))) as Hgo.
  { intros w1 Hw1. unfold receiveFileEnd. rewrite Hc. cbn [af_declared af_name af_data]. change (af_written (mkActive n (size (cat cs)) (cat cs))) with (size (cat cs)).
    cbn [rec rd_path rd_declared rd_digest]. eapply yields_bind; [apply yields_guard; unfold rec; cbn [rd_path rd_declared]; by rewrite (Z.eqb_refl (size (cat cs)))|].
    intros n1. eapply yields_bind; [apply yields_guard; by rewrite Hd|]. intros n2.
    eapply yields_bind; [eapply yields_stage_sync; cbn [w_host rehost]; by rewrite Hw1|]. intros n3. cbn [w_host rehost]. rewrite Hw1, insert_id by done.
    apply (yields_ret _ (rehost _ n3 _)). }
  exists p', t. split.
  - eapply (yields_receiveRecord p recordFileEnd "" "" 0 digest); try done; [by right|]. intros w1 Hw1. by apply yields_Some, Hgo.
  - destruct (Hgo (rehost (mkSpool rest entries) 0 w) eq_refl) as [k Hp'].
    by pose proof (receiveFileEnd_ok o staging l (Some (n, size (cat cs), cs)) p t rec (rehost (mkSpool rest entries) 0 w) p' _ Hl Hb Ht Hp') as (_ & _ & n1 & cs1 & [= <- _ <-] & _ & Hb').
Qed.
(** *** The whole stream *)
Lemma yields_atEOF w entries : w_host w = mkSpool "" entries → yields atEOF w true (mkSpool "" entries).
Proof. intros H. apply yields_host_try. by rewrite H. Qed.
Lemma accept_terminal l p t w entries : building o l None p t → (∀ s, s ∈ op_selected o → ∃ i, i ∈ l ∧ item_name i = s) →
  w_host w = mkSpool (encode_terminal (total l)) entries → yields (receiveRecord o staging p) w None (mkSpool "" entries).
Proof.
  intros [Hf _ Hseen _ _ Htot Hc _ _] Hs Hw. cbn [opened fmap option_fmap option_map] in *. rewrite app_nil_r in *.
  pose proof (ft_total _ _ Hf). pose proof (total_nonneg l). pose proof (to_total _ typed).
  assert (∀ w1, w_host w1 = mkSpool "" entries → yields (receiveTerminal o p (mkRecord recordTerminal (size "") (size "") (total l) noDigest)) w1 tt (mkSpool "" entries)) as Hgo.
  { intros w1 Hw1. unfold receiveTerminal. rewrite Hc. cbn [rd_path rd_declared rd_digest isSome].
    eapply yields_bind; [apply yields_guard; rewrite Htot, (Z.eqb_refl (total l)); done|]. intros n1.
    eapply yields_bind; [apply yields_guard|].
    { apply negb_false_iff, forallb_forall. intros s Hin%list_elem_of_In. destruct (Hs s Hin) as (i & Hi & <-).
      pose proof (seen_of_in _ _ (ft_distinct _ _ Hf) Hi) as Hl. by rewrite Hseen, Hl, eqs_refl. }
    intros n2. eapply yields_bind; [apply yields_streamError, yields_wrap, (yields_atEOF _ entries), Hw1|]. intros n3.
    apply (yields_guard _ _ (rehost (mkSpool "" entries) n3 w1)). done. }
  eapply (yields_receiveRecord p recordTerminal "" "" (total l) noDigest w ""); [done|done|by right|lia|done|by rewrite str_app_nil|].
  intros w1 Hw1. cbn [dispatch]. unfold dispatch. cbn [rd_kind Z.eqb Pos.eqb]. eapply yields_bind; [by apply Hgo|]. intros n.
  apply (yields_ret None (rehost (mkSpool "" entries) n w1)).
Qed.
(** The loop reaches the end of the stream. *)
Definition ends (turns : nat) (p : progress) (w : world spool) (b : spool) : Prop := ∃ pe, yields (receiveLoop turns o staging p) w pe b.
Lemma ends_next turns p w rest entries t l' part' b : accepted p w rest (<[staging := t]> entries) l' part' →
  (∀ p' t' w', building o l' part' p' t' → w_host w' = mkSpool rest (<[staging := t']> entries) → ends turns p' w' b) → ends (S turns) p w b.
Proof.
  intros (p' & t' & Hy & Hb) H. rewrite insert_insert_eq in Hy. destruct Hy as [n Hy].
  destruct (H p' t' (rehost (mkSpool rest (<[staging := t']> entries)) n w) Hb eq_refl) as (pe & n' & He).
  exists pe, n'. cbn [receiveLoop]. unfold bind. by rewrite Hy.
Qed.
Lemma frame_longer k n c d g rest : (String.length rest < String.length (frame k n c d g +:+ rest))%nat.
Proof. rewrite str_length_app. unfold frame. cbn [String.length]. lia. Qed.
Lemma fits_prefix l1 l2 : fits o (l1 ++ l2) → fits o l1.
Proof.
  intros [H1 H2 H3 H4 H5 H6 H7 H8]. rewrite Forall_app, ?count_app, ?total_app, ?map_app in *. apply NoDup_app in H2 as (H2 & _ & _).
  pose proof (count_nonneg recordFile l2). pose proof (count_nonneg recordDirectory l2). pose proof (total_nonneg l2).
  split; try lia; try tauto.
  - intros a i c ->. apply (H3 a i (c ++ l2)). by rewrite <-app_assoc.
  - intros n cs d c Hi. apply (H8 n cs d c). set_solver.
Qed.
(** A file whose chunks [cs] arrived, with [todo] to come. *)
Lemma ends_chunks todo cs l n d p t w entries rest turns b :
  building o l (Some (n, size (cat (cs ++ todo)), cs)) p t → fits o (l ++ [IFile n (cs ++ todo) d]) →
  String.length d = 32%nat → equalDigest (cat (cs ++ todo)) d = true →
  w_host w = mkSpool (cat (map chunk_frame todo) +:+ frame recordFileEnd "" "" 0 d +:+ rest) (<[staging := t]> entries) →
  (String.length (cat (map chunk_frame todo) +:+ frame recordFileEnd "" "" 0 d +:+ rest) < turns)%nat →
  (∀ p' t' w' turns', building o (l ++ [IFile n (cs ++ todo) d]) None p' t' → w_host w' = mkSpool rest (<[staging := t']> entries) →
     (String.length rest < turns')%nat → ends turns' p' w' b) → ends turns p w b.
Proof.
  revert cs p t w turns. induction todo as [|c todo IH]; intros cs p t w turns Hb Hf Hd Hg Hw Ht Hk; (destruct turns as [|turns]; [lia|]).
  - rewrite app_nil_r in *. cbn [map cat] in *. eapply (ends_next turns p w rest entries t); [by eapply accept_end; [exact Hb|done|done|exact Hw|apply lookup_insert_eq]|].
    intros p' t' w' Hb' Hw'. eapply Hk; [exact Hb'|exact Hw'|]. pose proof (frame_longer recordFileEnd "" "" 0 d rest) as Hl. change ("" +:+ ?x) with x in Ht. lia.
  - cbn [map cat] in Hw, Ht. rewrite str_app_assoc in Hw, Ht.
    pose proof (ft_total _ _ Hf) as Htot. rewrite total_app, total_cons in Htot. cbn [content] in Htot. change (total []) with 0 in Htot.
    assert (size (cat (cs ++ c :: todo)) = size (cat cs) + (size c + size (cat todo))) as Hsz by (rewrite cat_app, size_app; cbn [cat]; by rewrite size_app).
    pose proof (size_nonneg (cat todo)).
    eapply (ends_next turns p w _ entries t).
    + eapply accept_chunk; [exact Hb| | | |exact Hw|apply lookup_insert_eq]; [|lia|lia].
      apply (ft_chunks _ _ Hf n (cs ++ c :: todo) d); set_solver.
    + assert (cs ++ c :: todo = (cs ++ [c]) ++ todo) as Happ by (by rewrite <-app_assoc). rewrite Happ in *.
      intros p' t' w' Hb' Hw'. eapply (IH (cs ++ [c])); try done.
      pose proof (frame_longer recordChunk "" c 0 noDigest (cat (map chunk_frame todo) +:+ frame recordFileEnd "" "" 0 d +:+ rest)) as Hl.
      unfold chunk_frame at 1 in Ht. lia.
Qed.
Lemma ends_items todo l p t w entries turns : building o l None p t → admissible o (l ++ todo) →
  w_host w = mkSpool (cat (map encode_item todo) +:+ encode_terminal (total (l ++ todo))) (<[staging := t]> entries) →
  (String.length (cat (map encode_item todo) +:+ encode_terminal (total (l ++ todo))) < turns)%nat →
  ends turns p w (mkSpool "" (<[staging := tree_of (l ++ todo)]> entries)).
Proof.
  revert l p t w turns. induction todo as [|i todo IH]; intros l p t w turns Hb Ha Hw Ht; (destruct turns as [|turns]; [lia|]).
  - rewrite app_nil_r in *. cbn [map cat] in *. change ("" +:+ ?x) with x in Hw. exists p.
    assert (t = tree_of l) as -> by (destruct Hb as [_ _ _ _ _ _ _ _ ->]; cbn [opened]; by rewrite app_nil_r).
    cbn [receiveLoop]. eapply yields_bind; [eapply accept_terminal; [exact Hb|apply Ha|exact Hw]|]. intros n.
    apply (yields_ret p (rehost (mkSpool "" (<[staging := tree_of l]> entries)) n w)).
  - cbn [map cat] in Hw, Ht. rewrite str_app_assoc in Hw, Ht. assert (l ++ i :: todo = (l ++ [i]) ++ todo) as Happ by (by rewrite <-app_assoc).
    rewrite Happ in *. pose proof (fits_prefix _ _ (am_fits _ _ Ha)) as Hf.
    set (rest := cat (map encode_item todo) +:+ encode_terminal (total ((l ++ [i]) ++ todo))) in *. destruct i as [name|name cs d]; cbn [encode_item] in Hw, Ht.
    + eapply (ends_next turns p w rest entries t); [eapply accept_dir; [exact Hb|exact Hf|exact Hw|apply lookup_insert_eq]|].
      intros p' t' w' Hb' Hw'. eapply (IH (l ++ [IDir name])); [exact Hb'|done|exact Hw'|]. fold rest.
      pose proof (frame_longer recordDirectory name "" 0 noDigest rest). lia.
    + destruct (am_digests _ _ Ha name cs d) as [Hd Hg]; [set_solver|]. rewrite !str_app_assoc in Hw, Ht.
      pose proof (ft_sizes _ _ Hf) as Hfs. rewrite Forall_app, Forall_singleton in Hfs. destruct Hfs as [_ Hfs]. cbn [content] in Hfs.
      pose proof (ft_total _ _ Hf) as Hft. rewrite total_app, total_cons in Hft. cbn [content] in Hft. change (total []) with 0 in Hft. pose proof (size_nonneg (cat cs)).
      eapply (ends_next turns p w _ entries t); [eapply (accept_file l p t name (size (cat cs))); [exact Hb| |lia|lia|exact Hw|apply lookup_insert_eq]|].
      * eapply (fits_last _ _ _ (IFile name [] "") Hf); try done; [tally|change (size (content (IFile name [] ""))) with 0; lia|intros ? ? ? ? [= <- <- <-]; set_solver].
      * intros p' t' w' Hb' Hw'. eapply (ends_chunks cs [] l name d p' t' w' entries rest turns); try done.
        -- pose proof (frame_longer recordFile name "" (size (cat cs)) noDigest (cat (map chunk_frame cs) +:+ frame recordFileEnd "" "" 0 d +:+ rest)). lia.
        -- intros p2 t2 w2 turns2 Hb2 Hw2 Ht2. by eapply (IH (l ++ [IFile name cs d])).
Qed.
End exact.

(** *** A whole run in which nothing fails *)
Section whole.
Context {E : Env} {C : Calm E} {P : ReceiverPlatform} {D : Digests}.
Implicit Types w : world spool.
Context (o : Options) (typed : typed_options o) (room : roomy o).

Lemma yields_readHeader w rest entries : w_host w = mkSpool (encode_header (op_transaction o) +:+ rest) entries →
  yields (readHeader o) w tt (mkSpool rest entries).
Proof.
  intros Hw. pose proof (to_transaction _ typed) as Ht. unfold readHeader.
  assert (String.length (encode_header (op_transaction o)) = headerSize) as Hl by (unfold encode_header; rewrite !str_length_app, put_be_length, Ht; done).
  eapply yields_bind; [apply yields_streamError, yields_wrap; rewrite <-Hl; by apply yields_ReadFull|]. intros n1.
  set (h := encode_header (op_transaction o)) in *. cbv zeta.
  assert (str_take 4 h = "BWEX"%string ∧ be 0 (str_take 2 (str_drop 4 h)) = 1 ∧ str_drop 6 h = op_transaction o) as (H1 & H2 & H3).
  { unfold h, encode_header. split_and!; [done|by vm_compute|]. done. }
  rewrite H1, H2, H3. eapply yields_bind; [by apply yields_guard|]. intros n2.
  apply (yields_guard _ _ (rehost (mkSpool rest entries) n2 w)). by rewrite eqs_refl.
Qed.
Lemma yields_newStaging k w input entries : w_host w = mkSpool input entries →
  (∀ n, entries !! (".incoming-" +:+ rp_random n) = None) →
  ∃ staging, is_staging staging ∧ entries !! staging = None ∧ yields (newStaging (S k)) w staging (mkSpool input (<[staging := ∅]> entries)).
Proof.
  intros Hw Hf. exists (".incoming-" +:+ rp_random (w_tick w)). split_and!; [apply has_prefix_app|apply Hf|]. cbn [newStaging].
  eapply yields_bind; [by apply yields_ask|]. intros n1. eapply yields_bind.
  { apply yields_host_try. rewrite Hw. cbn [w_host rehost sp_entries sp_input]. by rewrite Hf. }
  intros n2. apply (yields_ret _ (rehost _ n2 w)).
Qed.
Lemma yields_syncDirectories staging paths w t : sp_entries (w_host w) !! staging = Some t → yields (syncDirectories staging paths) w tt (w_host w).
Proof.
  revert w. induction paths as [|x paths IH]; intros w Ht; cbn [syncDirectories]; [apply yields_ret|].
  eapply yields_bind; [by eapply yields_stage_sync|]. intros n. by apply (IH (rehost (w_host w) n w)).
Qed.
Abbreviation final := (hexEncode (op_transaction o)).
Lemma final_not_staging : ¬ is_staging final.
Proof.
  unfold is_staging. destruct (op_transaction o) as [|c r]; [done|]. cbn [hexEncode has_prefix]. intros H. apply andb_true_iff in H as [H _].
  apply Ascii.eqb_eq in H. pose proof (byte_val_range c). assert (0 <= Z.shiftr (byte_val c) 4 < 16) as Hr.
  { rewrite Z.shiftr_div_pow2 by lia. change (2 ^ 4) with 16. split; [apply Z.div_pos; lia|apply Z.div_lt_upper_bound; lia]. }
  pose proof (hexd_hex _ Hr) as Hx. by rewrite <-H in Hx.
Qed.
Lemma yields_receiveStaged l staging w entries : is_staging staging → admissible o l → entries !! final = None →
  w_host w = mkSpool (cat (map encode_item l) +:+ encode_terminal (total l)) (<[staging := ∅]> entries) → entries !! staging = None →
  yields (receiveStaged o staging) w tt (mkSpool "" (<[final := tree_of l]> entries)).
Proof.
  intros Hst Ha Hf Hw Hn. assert (final ≠ staging) as Hne by (intros <-; by apply final_not_staging).
  destruct (ends_items o typed room staging l [] _ ∅ w entries (S (String.length (sp_input (w_host w)))) (building_nil o typed) Ha Hw) as (pe & Hl); [rewrite Hw; apply Nat.lt_succ_diag_r|].
  cbn [app] in Hl. unfold receiveStaged. eapply yields_bind; [exact Hl|]. intros n1.
  eapply yields_bind; [eapply yields_syncDirectories; cbn [w_host rehost sp_entries]; apply lookup_insert_eq|]. intros n2.
  eapply yields_bind; [apply (yields_checkSpace o room); unfold copyBuffer; lia|]. intros n3.
  eapply yields_bind; [apply yields_ask, (rm_parent o room)|]. intros n4. eapply yields_bind; [apply (yields_ctxErr o room)|]. intros n5.
  apply yields_wrap, yields_host_try. cbn [w_host rehost sp_entries sp_input]. rewrite lookup_insert_ne by done. by rewrite Hf, lookup_insert_eq, delete_insert_id.
Qed.
Lemma yields_Receive l w : validateOptions o = Ok tt → (∀ n, sp_entries (w_host w) !! (".incoming-" +:+ rp_random n) = None) →
  sp_entries (w_host w) !! final = None → admissible o l → sp_input (w_host w) = encode_stream (op_transaction o) l →
  yields (Receive o) w (path_join (op_parent o) [final], None) (mkSpool "" (<[final := tree_of l]> (sp_entries (w_host w)))).
Proof.
  intros Hv Hfr Hf Ha Hi. destruct (w_host w) as [input entries] eqn:Hw. cbn [sp_input sp_entries] in *. subst input. unfold Receive. rewrite Hv.
  eapply yields_bind; [apply yields_lift|]. intros n1. eapply yields_bind; [apply (yields_ctxErr o room)|]. intros n2.
  eapply yields_bind; [apply yields_ask, (rm_parent o room)|]. intros n3. eapply yields_bind; [apply (yields_checkSpace o room); unfold copyBuffer; lia|]. intros n4.
  eapply yields_bind; [eapply yields_readHeader; cbn [w_host rehost]; by rewrite Hw|]. intros n5.
  set (w5 := rehost (mkSpool (cat (map encode_item l) +:+ encode_terminal (total l)) entries) n5 _).
  destruct (yields_newStaging 3 w5 _ _ eq_refl Hfr) as (staging & Hst & Hn & Hy). eapply yields_bind; [exact Hy|]. intros n6.
  eapply (yields_bind _ _ _ tt (mkSpool "" (<[final := tree_of l]> entries))).
  { unfold unlessPublished. eapply yields_bind; [eapply yields_attempt, (yields_receiveStaged l staging _ entries); done|].
    intros n7. apply yields_ret. }
  intros n8. cbv zeta. eapply yields_bind; [by eapply yields_attempt, yields_host_try|]. intros n9.
  eapply yields_bind; [apply yields_attempt, yields_ask, (rm_parent o room)|]. intros n10. apply yields_ret.
Qed.
End whole.

(** *** Trees *)
Definition tree_sum (f : node → Z) (t : tree) : Z := map_fold (λ _ x n, f x + n) 0 t.
Definition node_bytes (x : node) : Z := match x with NDir => 0 | NFile c => size c end.
Definition node_file (x : node) : Z := match x with NDir => 0 | NFile _ => 1 end.
Definition node_dir (x : node) : Z := match x with NDir => 1 | NFile _ => 0 end.
(** What the host asked for and nothing it would mind. *)
Record safe_tree (o : Options) (t : tree) : Prop := {
  st_path : ∀ n x, t !! n = Some x → validPath n = true;
  st_inside : ∀ n x, t !! n = Some x →
    ∃ choice, choice ∈ op_selected o ∧ (n = choice ∨ has_prefix (choice +:+ "/") n = true ∨ x = NDir ∧ has_prefix (n +:+ "/") choice = true);
  st_parent : ∀ n x, t !! n = Some x → is_dir t (path_dir n) = true;
  st_case : ∀ n n' x x', t !! n = Some x → t !! n' = Some x' → ToLower n = ToLower n' → n = n';
  st_selected : ∀ s, s ∈ op_selected o → is_Some (t !! s);
  st_file : ∀ n c, t !! n = Some (NFile c) → size c <= op_max_file o;
  st_files : tree_sum node_file t <= op_max_files o;
  st_dirs : tree_sum node_dir t <= op_max_dirs o;
  st_bytes : tree_sum node_bytes t <= op_max_total o;
}.
Lemma tree_sum_of f l : NoDup (map item_name l) → tree_sum f (tree_of l) = foldr (λ i n, f (node_of i) + n) 0 l.
Proof.
  assert (∀ i l n, foldr (λ i n, f (node_of i) + n) n (l ++ [i]) = f (node_of i) + foldr (λ i n, f (node_of i) + n) n l) as Hs.
  { intros i k n. induction k as [|j k IH]; [done|]. cbn [foldr app]. rewrite IH. lia. }
  induction l as [|i l IH] using rev_ind; [done|]. rewrite map_app. intros (Hl & Hd & _)%NoDup_app. rewrite Hs, <-IH by done.
  rewrite tree_of_snoc. unfold tree_sum. rewrite map_fold_insert_L; [done|intros; lia|]. apply tree_of_None. intros Hi. by apply (Hd _ Hi), list_elem_of_singleton.
Qed.
Lemma admissible_safe `{Digests} o l : op_selected o ≠ [] → admissible o l → safe_tree o (tree_of l).
Proof.
  intros Hne [[Hn Hd Hp Hf Hdi Ht Hs _] _ Hsel]. pose proof (names_nodup _ Hd) as Hnd. rewrite Forall_forall in Hn, Hs.
  assert (∀ f, tree_sum f (tree_of l) = foldr (λ i n, f (node_of i) + n) 0 l) as Hsum by (intros f; by apply tree_sum_of).
  split; rewrite ?Hsum.
  - intros n x (i & Hi & <- & _)%tree_of_Some. by apply Hn.
  - intros n x (i & Hi & <- & <-)%tree_of_Some. destruct (Hn i Hi) as [_ Ha]. unfold admitSelectedPath in Ha.
    destruct (op_selected o) as [|s0 sel] eqn:Es; [done|]. rewrite <-Es in *. apply check_ok, existsb_exists in Ha as (choice & Hin & Hc).
    exists choice. split; [by apply list_elem_of_In|]. rewrite !orb_true_iff, andb_true_iff, Z.eqb_eq in Hc.
    destruct Hc as [[Hc%eqs_true|Hc]|[Hk Hc]]; [by left|by right; left|right; right; split; [by destruct i|done]].
  - intros n x (i & Hi & <- & _)%tree_of_Some. apply list_elem_of_split in Hi as (l1 & l2 & ->). unfold is_dir.
    destruct (Hp l1 i l2 eq_refl) as [->|Hpar]; [done|]. 
    assert (IDir (path_dir (item_name i)) ∈ l1 ++ i :: l2) as Hin by (apply elem_of_app; by left).
    pose proof (tree_of_in _ _ Hnd Hin) as Hl. cbn [item_name node_of] in Hl. rewrite Hl. apply orb_true_r.
  - intros n n' x x' (i & Hi & <- & _)%tree_of_Some (j & Hj & <- & _)%tree_of_Some Heq.
    pose proof (seen_of_in _ _ Hd Hi) as H1. pose proof (seen_of_in _ _ Hd Hj) as H2. rewrite Heq, H2 in H1. by injection H1.
  - intros s (i & Hi & <-)%Hsel. rewrite (tree_of_in _ _ Hnd Hi). by eexists.
  - intros n c (i & Hi & _ & Hc)%tree_of_Some. specialize (Hs i Hi). destruct i; [done|]. cbn in *. by injection Hc as <-.
  - unfold count in Hf. erewrite foldr_ext; [exact Hf| |done|done]. by intros [n|n cs d] k.
  - unfold count in Hdi. erewrite foldr_ext; [exact Hdi| |done|done]. by intros [n|n cs d] k.
  - unfold total in Ht. erewrite foldr_ext; [exact Ht| |done|done]. by intros [n|n cs d] k.
Qed.
Lemma ReceiveSelectedExport_ok {E : Env} {P : ReceiverPlatform} {D : Digests} o w r w' : ReceiveSelectedExport o w = (r, w') →
  (op_selected o = [] ∧ w' = w ∧ ∃ e, r = Er e) ∨ (op_selected o ≠ [] ∧ Receive o w = (r, w')).
Proof.
  unfold ReceiveSelectedExport, bind, guard. destruct (op_selected o) as [|s sel] eqn:Es; cbn [length Nat.eqb negb check]; [|by right].
  intros [= <- <-]. left. eauto.
Qed.
Lemma copyChunk_blocks {E : Env} {P : ReceiverPlatform} blocks : ∀ more o staging name remaining w,
  remaining <= Z.of_nat blocks * copyBuffer → copyChunk (blocks + more) o staging name remaining w = copyChunk blocks o staging name remaining w.
Proof.
  induction blocks as [|blocks IH]; intros more o staging name remaining w H.
  { destruct more; [done|]. cbn [Nat.add copyChunk]. destruct (Z.leb_spec remaining 0); [done|lia]. }
  cbn [Nat.add copyChunk]. destruct (Z.leb_spec remaining 0); [done|]. unfold bind.
  destruct (ctxErr w) as [[[]|e] w1]; [|done]. destruct (checkSpace _ _ w1) as [[[]|e] w2]; [|done]. cbv zeta.
  destruct (wrap _ _ w2) as [[s|e] w3]; [|done]. destruct (stage_write _ _ _ w3) as [[[]|e] w4]; [|done].
  rewrite IH; [done|]. unfold copyBuffer in *. lia.
Qed.

(** ** Properties *)

Section properties.
Context {E : Env} {P : ReceiverPlatform} {D : Digests}.

(** C22: Whatever bytes arrive and whatever fails, no name of the parent
    directory outside the staging area changes, except that the name of the
    transaction, free before, may now hold a tree; that tree is complete: the
    stream is exactly its encoding, its digests are right, and the options
    admit it. On success the final path is reported, the tree is there,
    nothing else changed, the staging area included, and the tree is safe: only
    plain relative paths inside the host's selection (or directories above it),
    every selected path, no two names equal up to case, no entry without its
    directory, all within the limits on files, directories and bytes. *)
Theorem export_received_whole o w r w' : typed_options o → ReceiveSelectedExport o w = (r, w') →
  settled o w w' ∧
  (∀ path err, r = Ok (path, err) → path = path_join (op_parent o) [hexEncode (op_transaction o)] ∧
     ∃ l, published o w l (sp_entries (w_host w')) ∧ sp_entries (w_host w') = <[hexEncode (op_transaction o) := tree_of l]> (sp_entries (w_host w)) ∧
       safe_tree o (tree_of l)).
Proof.
  intros typed [(_ & -> & e & ->)|[Hne0 H]]%ReceiveSelectedExport_ok; [split; [intros n _; by left|done]|].
  destruct r as [[path err]|e]; [|split; [by eapply Receive_failed|done]].
  apply (Receive_ok o typed) in H as (Hp & l & Ha & Hi & Hf & He).
  assert (published o w l (sp_entries (w_host w'))) as Hpub by (split_and!; [done|done|done|rewrite He; apply lookup_insert_eq]).
  split.
  - intros n _. destruct (decide (n = hexEncode (op_transaction o))) as [->|Hne]; [right; eauto|left; by rewrite He, lookup_insert_ne].
  - intros path' err' [= <- <-]. split; [done|]. exists l. split_and!; [done|done|by apply admissible_safe].
Qed.
(** C23: On a machine where nothing fails, with room, a free transaction name
    and fresh staging names, the receiver accepts exactly the streams that
    encode an admissible tree for this transaction. *)
Theorem receiver_exact {C : Calm E} o w : typed_options o → roomy o → validateOptions o = Ok tt → op_selected o ≠ [] →
  (∀ n, sp_entries (w_host w) !! (".incoming-" +:+ rp_random n) = None) → sp_entries (w_host w) !! hexEncode (op_transaction o) = None →
  (∃ path w', ReceiveSelectedExport o w = (Ok (path, None), w')) ↔
  (∃ l, admissible o l ∧ sp_input (w_host w) = encode_stream (op_transaction o) l).
Proof.
  intros typed room Hv Hne Hfr Hf. split.
  - intros (path & w' & [(_ & _ & e & ?)|[_ H]]%ReceiveSelectedExport_ok); [done|].
    apply (Receive_ok o typed) in H as (_ & l & Ha & Hi & _). by exists l.
  - intros (l & Ha & Hi). destruct (yields_Receive o typed room l w Hv Hfr Hf Ha Hi) as (n & Hy).
    do 2 eexists. unfold ReceiveSelectedExport, bind, guard. destruct (op_selected o) as [|s sel]; [done|]. cbn [length Nat.eqb negb check]. exact Hy.
Qed.
(** The loops end by themselves: more turns than the input has bytes, or
    more blocks than a chunk fills, change nothing. *)
Theorem receiver_terminates o staging p (w : world spool) more :
  receiveLoop (S (String.length (sp_input (w_host w))) + more) o staging p w = receiveLoop (S (String.length (sp_input (w_host w)))) o staging p w ∧
  ∀ name rec, 0 <= rd_chunk rec →
    copyChunk (S (Z.to_nat (rd_chunk rec / copyBuffer)) + more) o staging name (rd_chunk rec) w =
    copyChunk (S (Z.to_nat (rd_chunk rec / copyBuffer))) o staging name (rd_chunk rec) w.
Proof.
  split; [apply receiveLoop_turns; lia|]. intros name rec H. apply copyChunk_blocks. unfold copyBuffer.
  rewrite Nat2Z.inj_succ, Z2Nat.id by (apply Z.div_pos; lia). pose proof (Z.mul_succ_div_gt (rd_chunk rec) (32 * 1024) ltac:(lia)). lia.
Qed.
End properties.

(** ** Evaluations *)

#[local] Existing Instance quietEnv.
#[local] Instance labDigests : Digests := {| sha256 _ := hexEncode noDigest |}.
#[local] Instance labPlatform : ReceiverPlatform := {|
  rp_random _ := "0123456789abcdef0123456789abcdef"%string; rp_statfs _ := Ok (4096, 2 ^ 28); rp_parent _ := Ok tt; rp_canceled _ := false |}.
Definition lab_options : Options :=
  mkOptions "/srv/exports" (str_repeat "A" 16) ["docs/a.txt"%string] (2 ^ 18) (2 ^ 20) (2 ^ 22) 16 16 (2 ^ 30).
Definition lab_items : list item := [IDir "docs"; IFile "docs/a.txt" ["hello "%string; "world"%string] noDigest].
Definition lab_world (input : string) : world spool := worldOf ∅ (mkSpool input ∅).
Definition lab_stream : string := encode_stream (op_transaction lab_options) lab_items.
Lemma lab_typed : typed_options lab_options.
Proof. by split. Qed.
Lemma lab_roomy o : op_min_free o = 2 ^ 30 → roomy o.
Proof.
  intros Ho. split; [done|done|]. intros n. eexists. split; [done|]. intros incoming H. unfold copyBuffer in H. rewrite Ho.
  assert (spaceOf (2 ^ 30) incoming (4096, 2 ^ 28) =
          check (negb ((2 ^ 40 <? incoming) || ((2 ^ 40 - incoming) mod 2 ^ 64 <? 2 ^ 30))) "export filesystem free space below reserve") as -> by done.
  rewrite Z.mod_small by lia. destruct (Z.ltb_spec (2 ^ 40) incoming); [lia|]. by destruct (Z.ltb_spec (2 ^ 40 - incoming) (2 ^ 30)); [lia|].
Qed.
Lemma lab_admissible : admissible lab_options lab_items.
Proof.
  split; [split|..]; try done.
  - repeat constructor.
  - apply (bool_decide_unpack _). by vm_compute.
  - intros l1 i l2 H. destruct l1 as [|i1 [|i2 [|i3 l1]]]; [| |done|done]; injection H; [intros _ <-; by left|intros _ <- <-; right; apply list_elem_of_here].
  - apply (bool_decide_unpack _). by vm_compute.
  - intros n cs d c [?|[?|?]%elem_of_cons]%elem_of_cons Hc; [done| |set_solver]. simplify_eq. cbn. 
    apply elem_of_cons in Hc as [->|[->|?]%elem_of_cons]; [by vm_compute|by vm_compute|set_solver].
  - intros n cs d [?|[?|?]%elem_of_cons]%elem_of_cons; [done| |set_solver]. simplify_eq. done.
  - intros s ->%list_elem_of_singleton. eexists. split; [apply list_elem_of_further, list_elem_of_here|done].
Qed.
Lemma run_result {A B} (p : A * B) a : p.1 = a → p = (a, p.2).
Proof. destruct p. by intros <-. Qed.
Lemma lab_run : ReceiveSelectedExport lab_options (lab_world lab_stream) =
  (Ok ("/srv/exports/41414141414141414141414141414141"%string, None), (ReceiveSelectedExport lab_options (lab_world lab_stream)).2).
Proof. apply run_result. vm_compute. reflexivity. Qed.
Lemma export_received_whole_witness : settled lab_options (lab_world lab_stream) (ReceiveSelectedExport lab_options (lab_world lab_stream)).2 ∧
  ∃ l, published lab_options (lab_world lab_stream) l (sp_entries (w_host (ReceiveSelectedExport lab_options (lab_world lab_stream)).2)).
Proof.
  destruct (export_received_whole lab_options (lab_world lab_stream) _ _ lab_typed lab_run) as [Hs Hp]. split; [exact Hs|].
  destruct (Hp _ _ eq_refl) as [_ (l & Hl & _)]. by exists l.
Defined.
Lemma receiver_exact_witness : ∃ path w', ReceiveSelectedExport lab_options (lab_world lab_stream) = (Ok (path, None), w').
Proof.
  apply (receiver_exact lab_options (lab_world lab_stream) lab_typed (lab_roomy lab_options eq_refl)); [done|done|intros n; apply lookup_empty|apply lookup_empty|].
  exists lab_items. split; [apply lab_admissible|done].
Defined.
(** One flipped digest byte, a path outside the selection, or a byte too many,
    and nothing is published. *)
Example lab_rejected :
  let run l tail := (ReceiveSelectedExport lab_options (lab_world (encode_stream (op_transaction lab_options) l +:+ tail))).1 in
  run [IDir "docs"; IFile "docs/a.txt" ["hello"%string] (str_repeat "A" 32)] "" = fail "file digest mismatch" ∧
  run [IDir "docs"; IFile "docs/b.txt" ["hello"%string] noDigest] "" = fail "received path is outside host selection" ∧
  run [IDir "docs"; IDir "DOCS"; IFile "docs/a.txt" ["hello"%string] noDigest] "" = fail "duplicate or case-folded export path" ∧
  run [IDir "docs"] "" = fail "selected export path is absent" ∧
  run lab_items "x" = fail "trailing stream bytes" ∧
  run [IFile "docs/a.txt" ["hello"%string] noDigest] "" = fail "export parent is absent, not a directory, or has different case".
Proof. by vm_compute. Qed.
