(* ===== verification/Inspector.v ===== *)
(** The sender of an export (src/tools/alpha-inspector/guest/export.go,
    stream.go): the program inside the inspector virtual machine that walks the
    selected paths of a workspace mounted read-only and writes them as the
    stream the host's receiver reads. The output is the outside world, so a
    write may fail after some of its bytes; the mounted file system answers as
    it pleases ([GuestMount]), and what the sender relies on ([mounted]) is that
    the answers agree with one tree. *)
From S2P Require Import Prelude Ids Bytes Json JsonText Outside World Logic ExportJournal Receiver.

(** ** The writer *)

Record guestExportLimits := mkLimits { gl_maxFile : Z; gl_maxTotal : Z; gl_maxFiles : Z; gl_maxDirectories : Z }.
Definition defaultGuestExportLimits : guestExportLimits := mkLimits (256 * 2 ^ 20) (512 * 2 ^ 20) 8192 4096.
Record guestExportWriter := mkWriter {
  gw_seen : gmap string string; gw_walked : gset string; gw_total : Z; gw_files : Z; gw_dirs : Z }.

(** [os.FileInfo]; the inode stands for [os.SameFile]. *)
Inductive filekind := KDir | KRegular | KLink | KOther.
#[export] Instance filekind_eq_dec : EqDecision filekind.
Proof. solve_decision. Defined.
Record fileinfo := mkInfo { fi_kind : filekind; fi_size : Z; fi_inode : Z; fi_links : Z }.
(** What [ReadDir] reports beside the entries. *)
Inductive readerr := NoError | EOF | ReadError (e : error).
(** The mounted file system, one answer for every call. *)
Class GuestMount := {
  gm_canceled : nat → bool;
  gm_root : nat → res unit;                             (* os.OpenRoot *)
  gm_lstat : nat → string → res fileinfo;
  gm_open : nat → string → res Z;                       (* a descriptor *)
  gm_fstat : nat → Z → res fileinfo;
  gm_readdir : nat → Z → Z → list string * readerr;
  gm_read : nat → Z → Z → Z → res string;               (* io.ReadFull: descriptor, position, length *)
}.

(** [prefixes] without its last element: what precedes each slash. *)
Fixpoint ancestors (s : string) : list string :=
  match s with
  | EmptyString => []
  | String c r => (if Ascii.eqb c "/" then [EmptyString] else []) ++ map (String c) (ancestors r)
  end.
Definition prefixes (name : string) : list string := ancestors name ++ [name].
(** The same text as [validPath]; its loop over the runes of a component visits
    the first byte of each, which no admitted byte can be when there are more. *)
Definition validGuestExportPath (name : string) : bool := validExportSelection name.
Definition admitName (w : guestExportWriter) (name : string) : res (guestExportWriter * bool) :=
  match gw_seen w !! ToLower name with
  | Some previous => check (previous =s name) "case-colliding export paths" ;;? Ok (w, false)
  | None => Ok (mkWriter (<[ToLower name := name]> (gw_seen w)) (gw_walked w) (gw_total w) (gw_files w) (gw_dirs w), true)
  end.

Section sender.
Context {E : Env} {G : GuestMount} {D : Digests}.

Definition gctxErr : M string unit := let! c := ask (λ n, Ok (gm_canceled n)) in guard c "context canceled".
(** Nothing is written for no bytes. *)
Definition writeAll (data : string) : M string unit := λ w,
  let put s := World (w_disk w) (w_host w +:+ s) (w_locks w) (w_trace w) (S (w_tick w)) in
  if data =s "" then (Ok tt, w)
  else match now_fault w with
       | NoFault => (Ok tt, put data)
       | FailBefore => (fail "write", tick w)
       | FailTorn written => (fail "short write", put (str_take written data))
       | FailAfter => (fail "write", put data)
       end.
Definition writeFrame (kind : Z) (name payload : string) (declared : Z) (digest : string) : M string unit :=
  writeAll (header (mkRecord kind (size name) (size payload) declared digest)) ;;!
  writeAll name ;;!
  writeAll payload.
Definition writeExportTerminal (total : Z) : M string unit :=
  guard ((total <? 0) || (gl_maxTotal defaultGuestExportLimits <? total)) "invalid export terminal length" ;;!
  writeFrame recordTerminal EmptyString EmptyString total noDigest.

Fixpoint safeInfo_loop (parts : list string) (name : string) : M string fileinfo :=
  match parts with
  | [] => throw (Errorf "empty export path")
  | part :: rest =>
      let! r := attempt (ask (λ n, gm_lstat n part)) in
      match r with
      | Er _ => throw (Errorf "export path contains a missing or linked component")
      | Ok info =>
          guard (bool_decide (fi_kind info = KLink)) "export path contains a missing or linked component" ;;!
          guard ((part ≠s name) && negb (bool_decide (fi_kind info = KDir))) "export path parent is not a directory" ;;!
          if part =s name then ret info else safeInfo_loop rest name
      end
  end.
Definition safeInfo (name : string) : M string fileinfo := safeInfo_loop (prefixes name) name.
Definition SameFile (a b : fileinfo) : bool := fi_inode a =? fi_inode b.

(** The children of a directory, each through [walk]. *)
Fixpoint exportEntries (walk : guestExportWriter → string → M string guestExportWriter) (w : guestExportWriter) (name : string)
    (entries : list string) : M string guestExportWriter :=
  match entries with
  | [] => ret w
  | entry :: rest => let! w := walk w (name +:+ "/" +:+ entry) in exportEntries walk w name rest
  end.
(** The record of a directory, the first time it is met. *)
Definition announce (limits : guestExportLimits) (w : guestExportWriter) (name : string) : M string guestExportWriter :=
  let! admitted := lift (admitName w name) in
  let '(w, fresh) := admitted in
  if fresh then
    guard (gl_maxDirectories limits <=? gw_dirs w) "export directory count exceeded" ;;!
    writeFrame recordDirectory name EmptyString 0 noDigest ;;!
    ret (mkWriter (gw_seen w) (gw_walked w) (gw_total w) (gw_files w) (gw_dirs w + 1))
  else ret w.
Definition readEntries (limits : guestExportLimits) (name : string) (info : fileinfo) : M string (list string) :=
  let! directory := ask (λ n, gm_open n name) in
  let! opened := attempt (ask (λ n, gm_fstat n directory)) in
  guard (match opened with Ok i => negb (SameFile info i) || negb (bool_decide (fi_kind i = KDir)) | Er _ => true end)
        "export directory changed while opening" ;;!
  let maxEntries := gl_maxFiles limits + gl_maxDirectories limits in
  let! answer := ask (λ n, Ok (gm_readdir n directory (maxEntries + 1))) in
  let '(entries, readErr) := answer in
  let! closeErr := attempt (host_try (λ b, (Ok tt, b))) in
  match readErr, closeErr with
  | ReadError e, _ | _, Er e => throw e
  | _, Ok _ =>
      guard (maxEntries <? Z.of_nat (length entries)) "export directory entry count exceeded" ;;!
      ret (sort_by id entries)
  end.
Definition exportDirectory (walk : guestExportWriter → string → M string guestExportWriter) (limits : guestExportLimits)
    (w : guestExportWriter) (name : string) (descend : bool) : M string guestExportWriter :=
  let! r := attempt (safeInfo name) in
  match r with
  | Er _ => throw (Errorf "export parent is not a plain directory")
  | Ok info =>
      guard (negb (bool_decide (fi_kind info = KDir))) "export parent is not a plain directory" ;;!
      let! w := announce limits w name in
      if negb descend || bool_decide (name ∈ gw_walked w) then ret w
      else
        let w := mkWriter (gw_seen w) ({[ name ]} ∪ gw_walked w) (gw_total w) (gw_files w) (gw_dirs w) in
        let! entries := readEntries limits name info in
        exportEntries walk w name entries
  end.
Fixpoint exportParents (limits : guestExportLimits) (w : guestExportWriter) (parents : list string) : M string guestExportWriter :=
  match parents with
  | [] => ret w
  | parent :: rest => let! w := exportDirectory (λ w _, ret w) limits w parent false in exportParents limits w rest
  end.

Definition copyBytes : Z := 2 ^ 20.
(** The loop of [exportFile] over its buffer: the bytes read. *)
Fixpoint exportChunks (blocks : nat) (file position remaining : Z) : M string string :=
  if remaining <=? 0 then ret EmptyString
  else match blocks with
       | O => throw (Errorf "unreachable")
       | S blocks =>
           gctxErr ;;!
           let count := Z.min copyBytes remaining in
           let! chunk := ask (λ n, gm_read n file position count) in
           writeFrame recordChunk EmptyString chunk 0 noDigest ;;!
           let! rest := exportChunks blocks file (position + count) (remaining - count) in
           ret (chunk +:+ rest)
       end.
Definition exportFile (limits : guestExportLimits) (w : guestExportWriter) (name : string) (info : fileinfo) : M string guestExportWriter :=
  let! admitted := lift (admitName w name) in
  let '(w, fresh) := admitted in
  if negb fresh then ret w
  else
    guard ((gl_maxFiles limits <=? gw_files w) || (fi_size info <? 0) || (gl_maxFile limits <? fi_size info) ||
           (gl_maxTotal limits - gw_total w <? fi_size info)) "export file size or count exceeded" ;;!
    guard (negb (fi_links info =? 1)) "export file has unsupported link count" ;;!
    let! file := ask (λ n, gm_open n name) in
    let! opened := attempt (ask (λ n, gm_fstat n file)) in
    guard (match opened with
           | Ok i => negb (SameFile info i) || negb (bool_decide (fi_kind i = KRegular)) || negb (fi_size i =? fi_size info)
           | Er _ => true end) "export file changed while opening" ;;!
    writeFrame recordFile name EmptyString (fi_size info) noDigest ;;!
    let! bytes := exportChunks (S (Z.to_nat (fi_size info / copyBytes))) file 0 (fi_size info) in
    let! final := attempt (ask (λ n, gm_fstat n file)) in
    guard (match final with Ok i => negb (SameFile info i) || negb (fi_size i =? fi_size info) | Er _ => true end)
          "export file changed during read" ;;!
    writeFrame recordFileEnd EmptyString EmptyString 0 (unhex (sha256 bytes)) ;;!
    ret (mkWriter (gw_seen w) (gw_walked w) (gw_total w + fi_size info) (gw_files w + 1) (gw_dirs w)).
(** The depth of a path is at most sixteen, so [fuel] is at most seventeen. *)
Fixpoint exportPath (fuel : nat) (limits : guestExportLimits) (w : guestExportWriter) (name : string) : M string guestExportWriter :=
  match fuel with
  | O => throw (Errorf "unreachable")
  | S fuel =>
      guard (negb (validGuestExportPath name)) "unsupported export path" ;;!
      gctxErr ;;!
      let! w := exportParents limits w (ancestors name) in
      let! info := safeInfo name in
      match fi_kind info with
      | KDir => exportDirectory (exportPath fuel limits) limits w name true
      | KRegular => exportFile limits w name info
      | _ => throw (Errorf "unsupported export object type")
      end
  end.
Definition maxDepth : nat := 17.
Fixpoint exportAll (limits : guestExportLimits) (w : guestExportWriter) (selected : list string) : M string guestExportWriter :=
  match selected with
  | [] => ret w
  | name :: rest => let! w := exportPath maxDepth limits w name in exportAll limits w rest
  end.
Definition writeSelectedExportBody (transaction : string) (selected : list string) (limits : guestExportLimits) : M string Z :=
  let out_of bound n := (n <=? 0) || (bound <? n) in
  gctxErr ;;!
  guard ((transaction =s str_repeat "000" 16) || (length selected =? 0)%nat || (1024 <? length selected)%nat ||
         out_of (gl_maxFile defaultGuestExportLimits) (gl_maxFile limits) || out_of (gl_maxTotal defaultGuestExportLimits) (gl_maxTotal limits) ||
         out_of (gl_maxFiles defaultGuestExportLimits) (gl_maxFiles limits) ||
         out_of (gl_maxDirectories defaultGuestExportLimits) (gl_maxDirectories limits)) "invalid selected export request" ;;!
  ask gm_root ;;!
  writeAll ("BWEX" +:+ put_be 2 1 +:+ transaction) ;;!
  let! w := exportAll limits (mkWriter ∅ ∅ 0 0 0) selected in
  ret (gw_total w).
Definition writeSelectedExport (transaction : string) (selected : list string) (limits : guestExportLimits) : M string unit :=
  let! total := writeSelectedExportBody transaction selected limits in
  writeExportTerminal total.
End sender.

(** ** What is mounted *)

Inductive gnode := GDir | GFile (content : string) | GOther.
(** [below a n]: the path [n] is inside the directory [a]. *)
Definition below (a n : string) : bool := has_prefix (a +:+ "/") n.
(** The calls that succeed tell the truth about [t]: an unchanging tree whose
    directories list their entries. [opened] names the file behind a
    descriptor. *)
Record mounted `{GuestMount} (t : gmap string gnode) (opened : Z → string) : Prop := {
  mt_tree : ∀ a n, is_Some (t !! n) → below a n = true → t !! a = Some GDir;
  mt_lstat : ∀ k name i, gm_lstat k name = Ok i →
    (fi_kind i = KDir → t !! name = Some GDir) ∧ (fi_kind i = KRegular → ∃ c, t !! name = Some (GFile c) ∧ fi_size i = size c);
  mt_open : ∀ k name file, gm_open k name = Ok file → opened file = name;
  mt_read : ∀ k file position len s, gm_read k file position len = Ok s →
    size s = len ∧ ∀ c, t !! opened file = Some (GFile c) → s = str_take (Z.to_nat len) (str_drop (Z.to_nat position) c);
  mt_entries : ∀ k file most names err n, gm_readdir k file most = (names, err) → Z.of_nat (length names) < most → is_Some (t !! n) →
    below (opened file) n = true → ∃ c, c ∈ names ∧ (n = opened file +:+ "/" +:+ c ∨ below (opened file +:+ "/" +:+ c) n = true);
}.
(** A path the selection reaches: chosen, inside a chosen directory, or above
    a chosen path. *)
Definition reaches (selected : list string) (n : string) : Prop := ∃ s, s ∈ selected ∧ (n = s ∨ below s n = true ∨ below n s = true).
Definition exported (x : gnode) : option node := match x with GDir => Some NDir | GFile c => Some (NFile c) | GOther => None end.
