(* ===== verification/InspectorSafety.v ===== *)
(** What the inspector's stream promises: a run that succeeds wrote the
    encoding of exactly the selected part of the mounted tree, which the host's
    receiver accepts and publishes unchanged; a run that stopped anywhere before
    the terminal record wrote nothing the receiver would publish; and the walk
    ends. *)
From S2P Require Import Prelude Ids Bytes Json JsonText Outside World Logic ExportJournal Receiver ReceiverSafety Inspector.

(** ** Lemmas *)

(** *** Paths *)
Lemma ancestors_dir s : match before_slash s with Some p => ancestors s = ancestors p ++ [p] | None => ancestors s = [] end.
Proof.
  induction s as [|c s IH]; [done|]. cbn [before_slash ancestors]. destruct (before_slash s) as [d|].
  - rewrite IH. cbn [ancestors]. by rewrite map_app, app_assoc.
  - rewrite IH. by destruct (Ascii.eqb c "/").
Qed.
Lemma before_slash_app s p : before_slash s = Some p → ∃ q, s = p +:+ "/" +:+ q ∧ before_slash q = None.
Proof.
  revert p. induction s as [|c s IH]; intros p H; [done|]. cbn [before_slash] in H. destruct (before_slash s) as [d|] eqn:Hd.
  - injection H as <-. destruct (IH d eq_refl) as (q & -> & Hq). by exists q.
  - destruct (Ascii.eqb c "/") eqn:Ec; [|done]. injection H as <-. apply Ascii.eqb_eq in Ec as ->. by exists s.
Qed.
Lemma has_prefix_iff p s : has_prefix p s = true ↔ ∃ q, s = p +:+ q.
Proof.
  split.
  - revert s. induction p as [|c p IH]; intros s H; [by exists s|]. destruct s as [|d s]; [done|]. cbn [has_prefix] in H.
    apply andb_true_iff in H as [Hc%Ascii.eqb_eq Hp]. subst d. destruct (IH s Hp) as (q & ->). by exists q.
  - intros (q & ->). apply has_prefix_app.
Qed.
Lemma below_iff a n : below a n = true ↔ ∃ q, n = a +:+ "/" +:+ q.
Proof. unfold below. rewrite has_prefix_iff. split; intros (q & ->); exists q; by rewrite str_app_assoc. Qed.
Lemma below_parent s p : before_slash s = Some p → below p s = true.
Proof. intros (q & -> & _)%before_slash_app. apply below_iff. by exists q. Qed.
Lemma below_trans a b c : below a b = true → below b c = true → below a c = true.
Proof. rewrite !below_iff. intros (p & ->) (q & ->). exists (p +:+ "/" +:+ q). by rewrite !str_app_assoc. Qed.
Lemma below_child a c : below a (a +:+ "/" +:+ c) = true.
Proof. apply below_iff. by exists c. Qed.
Lemma below_irrefl a : below a a ≠ true.
Proof. intros (q & H)%below_iff. apply (f_equal String.length) in H. rewrite !str_length_app in H. cbn in H. lia. Qed.
Lemma below_compare a b n : below a n = true → below b n = true → a = b ∨ below a b = true ∨ below b a = true.
Proof.
  rewrite !below_iff. intros (p & ->) (q & H). revert b H. induction a as [|c a IH]; intros [|d b] H.
  - by left.
  - right. left. injection H as <- H. exists b. done.
  - right. right. injection H as -> H. exists a. done.
  - injection H as <- H. destruct (IH b H) as [->|[(k & ->)|(k & ->)]]; [by left|right; left; by exists k|right; right; by exists k].
Qed.
Lemma below_dir a n : below a n = true → ∃ p, before_slash n = Some p ∧ (a = p ∨ below a p = true).
Proof.
  intros (q & ->)%below_iff. rewrite before_slash_cat. destruct (before_slash q) as [r|]; eexists; (split; [done|]); [right; apply below_child|by left].
Qed.
(** *** The prefixes of a safe path are safe *)
Lemma split_parent acc s p : before_slash s = Some p → ∃ q, split_slash acc s = split_slash acc p ++ [q].
Proof.
  revert acc p. induction s as [|c s IH]; intros acc p H; [done|]. cbn [before_slash] in H. destruct (before_slash s) as [d|] eqn:Hd.
  - injection H as <-. cbn [split_slash]. destruct (Ascii.eqb c "/"); [|by apply IH]. destruct (IH "" d eq_refl) as (q & ->). by exists q.
  - destruct (Ascii.eqb c "/") eqn:Ec; [|done]. injection H as <-. cbn [split_slash]. rewrite Ec. exists s.
    assert (∀ a, before_slash s = None → split_slash a s = [a +:+ s]) as Hn.
    { clear. induction s as [|x s IH]; intros a H; [by rewrite str_app_nil|]. cbn [before_slash] in H. cbn [split_slash].
      destruct (before_slash s); [done|]. destruct (Ascii.eqb x "/"); [done|]. rewrite IH by done. by rewrite str_app_assoc. }
    by rewrite Hn.
Qed.
Lemma split_trailing acc s : isSome (strip_suffix "/" s) = true → ""%string ∈ split_slash acc s.
Proof.
  destruct (strip_suffix "/" s) as [n|] eqn:H; [|done]. apply strip_suffix_ok in H as ->. intros _. revert acc.
  induction n as [|c n IH]; intros acc; [cbn; set_solver|].
  change (String c n +:+ "/") with (String c (n +:+ "/")). cbn [split_slash]. destruct (Ascii.eqb c "/"); [|apply IH]. apply elem_of_cons. right. apply IH.
Qed.
Lemma validPath_parent s p : validPath s = true → before_slash s = Some p → validPath p = true.
Proof.
  intros H Hp. destruct (split_parent "" s p Hp) as (q & Hq). apply before_slash_app in Hp as (r & -> & _).
  unfold validPath, validExportSelection in *. rewrite Hq in H. rewrite !andb_true_iff, !negb_true_iff, !Nat.ltb_ge, Nat.eqb_neq in *.
  destruct H as [[[[H1 H2] H3] H4] [H5 H6]]. rewrite length_app in H5. rewrite forallb_app, andb_true_iff in H6. destruct H6 as [H6 _].
  assert (p ≠ "") as Hne by (intros ->; done). rewrite str_length_app in H2. cbn [length] in H5.
  assert (""%string ∉ split_slash "" p) as Hno.
  { intros Hin%list_elem_of_In. eapply forallb_forall in H6; [|exact Hin]. done. }
  split_and!; [|lia| | |lia|done].
  - destruct p; [done|cbn; lia].
  - destruct p as [|c p]; [done|]. exact H3.
  - destruct (isSome (strip_suffix "/" p)) eqn:Ht; [|done]. by apply (split_trailing "") in Ht.
Qed.

(** *** Digests as bytes *)
Lemma hex_digit c : is_lower_hex c = true → 0 <= unhexd c < 16 ∧ Session.hexd (unhexd c) = c.
Proof. destruct c as [[] [] [] [] [] [] [] []]; vm_compute; done. Qed.
Lemma hex_unhex s : ∀ n, String.length s = (2 * n)%nat → str_all is_lower_hex s = true → hexEncode (unhex s) = s ∧ String.length (unhex s) = n.
Proof.
  intros n. revert s. induction n as [|n IH]; intros [|a [|b s]] Hl Ha; try (cbn in Hl; lia); [done|]. cbn [str_all] in Ha.
  apply andb_true_iff in Ha as [Ha [Hb Hs]%andb_true_iff]. destruct (IH s) as [H1 H2]; [cbn in Hl; lia|done|].
  apply hex_digit in Ha as [Ra Ea], Hb as [Rb Eb]. cbn [unhex hexEncode String.length]. rewrite byte_val_at, H1, H2 by lia. cbv zeta.
  rewrite Z.shiftr_div_pow2 by lia. change 15 with (Z.ones 4). rewrite Z.land_ones by lia. change (2 ^ 4) with 16.
  replace ((16 * unhexd a + unhexd b) / 16) with (unhexd a) by (rewrite Z.mul_comm, Z.div_add_l by lia; rewrite Z.div_small; lia).
  replace ((16 * unhexd a + unhexd b) mod 16) with (unhexd b) by (rewrite Z.add_comm, Z.mul_comm, Z.mod_add by lia; by rewrite Z.mod_small).
  by rewrite Ea, Eb.
Qed.
Lemma raw_digest `{Digests} s : Session.lowerSHA256 (sha256 s) = true →
  String.length (unhex (sha256 s)) = 32%nat ∧ equalDigest s (unhex (sha256 s)) = true.
Proof.
  unfold Session.lowerSHA256. rewrite andb_true_iff, Nat.eqb_eq. intros [Hl Ha]. destruct (hex_unhex (sha256 s) 32) as [H1 H2]; [done|done|].
  split; [done|]. unfold equalDigest. by rewrite H1, eqs_refl.
Qed.

Lemma take_plus n m s : str_take (n + m) s = str_take n s +:+ str_take m (str_drop n s).
Proof. revert s. induction n as [|n IH]; intros [|c s]; try done; [by destruct m|]. cbn [Nat.add str_take str_drop]. by rewrite IH. Qed.

(** *** What one call wrote *)
Section writes.
Context {E : Env} {G : GuestMount} {D : Digests}.
Implicit Types w : world string.

Lemma gctxErr_ok w u w' : gctxErr w = (Ok u, w') → w_host w' = w_host w.
Proof. intros (c & w1 & H1%ask_ok & [_ ->]%guard_ok)%bind_ok. done. Qed.
Lemma writeAll_ok data w u w' : writeAll data w = (Ok u, w') → w_host w' = w_host w +:+ data.
Proof.
  unfold writeAll. destruct (data =s "") eqn:Hd; [apply eqs_true in Hd as ->; intros [= _ <-]; by rewrite str_app_nil|].
  destruct (now_fault w); try done. by intros [= _ <-].
Qed.
Lemma writeFrame_ok kind name payload declared digest w u w' : writeFrame kind name payload declared digest w = (Ok u, w') →
  w_host w' = w_host w +:+ frame kind name payload declared digest.
Proof.
  unfold writeFrame. intros (? & w1 & H1%writeAll_ok & H)%bind_ok. apply bind_ok in H as (? & w2 & H2%writeAll_ok & H3%writeAll_ok).
  by rewrite H3, H2, H1, frame_header, !str_app_assoc.
Qed.
Lemma safeInfo_ok name w i w' : safeInfo name w = (Ok i, w') → w_host w' = w_host w ∧ ∃ k, gm_lstat k name = Ok i.
Proof.
  unfold safeInfo. generalize (prefixes name). intros parts. revert w. induction parts as [|part parts IH]; intros w H; cbn [safeInfo_loop] in H; [by apply throw_ok in H|].
  apply bind_ok in H as (r & w1 & H1%attempt_ok & H). injection H1 as Hr Hw1. destruct r as [info|e]; [|by apply throw_ok in H].
  apply bind_ok in H as (? & w2 & [_ ->]%guard_ok & H). apply bind_ok in H as (? & w2 & [_ ->]%guard_ok & H).
  destruct (part =s name) eqn:Hp; [|by apply IH in H as [-> ?]; subst w1].
  apply ret_ok in H as [-> ->]. apply eqs_true in Hp as ->. subst w1. split; [done|eauto].
Qed.
Lemma attempt_ask_ok {A} (f : nat → res A) w r w' : attempt (ask f) w = (Ok r, w') → w_host w' = w_host w.
Proof. intros H%attempt_ok. injection H as _ <-. done. Qed.
Lemma readEntries_ok limits name info w entries w' : readEntries limits name info w = (Ok entries, w') →
  w_host w' = w_host w ∧ ∃ k file k' names err, gm_open k name = Ok file ∧
    gm_readdir k' file (gl_maxFiles limits + gl_maxDirectories limits + 1) = (names, err) ∧
    Z.of_nat (length names) <= gl_maxFiles limits + gl_maxDirectories limits ∧ entries ≡ₚ names.
Proof.
  unfold readEntries. intros (file & w1 & H1 & H)%bind_ok. injection H1 as Hf Hw1.
  apply bind_ok in H as (opened & w2 & H2%attempt_ask_ok & H). apply bind_ok in H as (? & w3 & [_ ->]%guard_ok & H).
  apply bind_ok in H as ([names err] & w4 & H4 & H). injection H4 as Hd Hw4.
  apply bind_ok in H as (closeErr & w5 & H5%attempt_ok & H). assert (w_host w5 = w_host w4) as Hw5.
  { unfold host_try in H5. by destruct (now_fault w4); injection H5 as _ <-. }
  assert (∃ u, (guard (gl_maxFiles limits + gl_maxDirectories limits <? Z.of_nat (length names)) "export directory entry count exceeded" ;;! ret (sort_by id names)) w5 = (Ok entries, w') ∧ u = tt) as (_ & H' & _).
  { exists tt. split; [|done]. destruct err; [| |done]; destruct closeErr; done. }
  apply bind_ok in H' as (? & w6 & [Hn ->]%guard_ok & H'). apply ret_ok in H' as [-> ->]. apply Z.ltb_ge in Hn.
  split; [subst w4 w1; cbn in *; congruence|]. do 5 eexists. split_and!; [exact Hf|exact Hd|done|apply sort_by_perm].
Qed.
Lemma exportChunks_ok blocks file position remaining w bytes w' :
  (∀ k p len s, gm_read k file p len = Ok s → size s = len) → exportChunks blocks file position remaining w = (Ok bytes, w') →
  ∃ cs, cat cs = bytes ∧ w_host w' = w_host w +:+ cat (map chunk_frame cs) ∧ size bytes = Z.max 0 remaining ∧
    (∀ c, c ∈ cs → 0 < size c <= copyBytes) ∧
    (∀ data, 0 <= position → (∀ k p len s, gm_read k file p len = Ok s → s = str_take (Z.to_nat len) (str_drop (Z.to_nat p) data)) →
       bytes = str_take (Z.to_nat remaining) (str_drop (Z.to_nat position) data)).
Proof.
  intros Hsz. revert position remaining w bytes. induction blocks as [|blocks IH]; intros position remaining w bytes H; cbn [exportChunks] in H.
  all: destruct (Z.leb_spec remaining 0) as [Hr|Hr].
  1,3: apply ret_ok in H as [-> ->]; exists []; split_and!; [done|by rewrite str_app_nil|by rewrite Z.max_l|set_solver|];
    intros data _ _; by replace (Z.to_nat remaining) with 0%nat by lia.
  1: by apply throw_ok in H.
  apply bind_ok in H as (? & w1 & H1%gctxErr_ok & H). apply bind_ok in H as (chunk & w2 & H2 & H). injection H2 as Hc Hw2.
  apply bind_ok in H as (? & w3 & H3%writeFrame_ok & H). apply bind_ok in H as (rest & w4 & H4 & H). apply ret_ok in H as [-> ->].
  apply IH in H4 as (cs & Hcs & H4 & Hsr & Hall & Hdata). pose proof (Hsz _ _ _ _ Hc) as Hsc. exists (chunk :: cs). split_and!.
  - cbn. by rewrite Hcs.
  - rewrite H4, H3. subst w2. cbn [tick w_host map cat]. rewrite H1. unfold chunk_frame at 2. by rewrite str_app_assoc.
  - rewrite size_app, Hsr, Hsc. unfold copyBytes. lia.
  - intros c [->|Hin]%elem_of_cons; [rewrite Hsc; unfold copyBytes; lia|by apply Hall].
  - intros data Hp Hread. rewrite (Hread _ _ _ _ Hc) at 1. rewrite (Hdata data) by (done || (unfold copyBytes; lia)). 
    replace (Z.to_nat remaining) with (Z.to_nat (Z.min copyBytes remaining) + Z.to_nat (remaining - Z.min copyBytes remaining))%nat by (unfold copyBytes; lia).
    rewrite take_plus, drop_drop. do 3 f_equal. unfold copyBytes. lia.
Qed.
End writes.

(** *** The state of the walk *)
Definition names_of (l : list item) : gmap string string := foldl (λ m i, <[ToLower (item_name i) := item_name i]> m) ∅ l.
Lemma names_of_snoc l i : names_of (l ++ [i]) = <[ToLower (item_name i) := item_name i]> (names_of l).
Proof. unfold names_of. by rewrite foldl_app. Qed.
Lemma names_of_Some l k n : names_of l !! k = Some n → k = ToLower n ∧ n ∈ map item_name l.
Proof.
  induction l as [|i l IH] using rev_ind; [done|]. rewrite names_of_snoc, lookup_insert_Some, map_app. intros [[<- <-]|[_ H]]; [set_solver|].
  apply IH in H as [? ?]. set_solver.
Qed.
Lemma names_of_None l k : names_of l !! k = None → k ∉ map (λ i, ToLower (item_name i)) l.
Proof.
  induction l as [|i l IH] using rev_ind; [set_solver|]. rewrite names_of_snoc, lookup_insert_None, map_app. intros [H1 H2]. specialize (IH H1). set_solver.
Qed.
(** The items written, as the writer counts them and the mount has them. *)
Record sent `{Digests} (o : Options) (t : gmap string gnode) (l : list item) (w : guestExportWriter) : Prop := {
  sn_fits : fits o l;
  sn_digests : digests_ok l;
  sn_seen : gw_seen w = names_of l;
  sn_files : gw_files w = count recordFile l;
  sn_dirs : gw_dirs w = count recordDirectory l;
  sn_total : gw_total w = total l;
  sn_tree : ∀ i, i ∈ l → ∃ x, t !! item_name i = Some x ∧ exported x = Some (node_of i);
}.
Definition announced (l : list item) (dir : string) : Prop := dir = "."%string ∨ IDir dir ∈ l.
(** Nothing below [d] is missing. *)
Definition complete (t : gmap string gnode) (l : list item) (d : string) : Prop :=
  ∀ n, is_Some (t !! n) → n = d ∨ below d n = true → n ∈ map item_name l.
Lemma complete_mono t l l' d : complete t l d → complete t (l ++ l') d.
Proof. intros H n Hn Hd. rewrite map_app. apply elem_of_app. left. by apply H. Qed.
Lemma announced_mono l l' d : announced l d → announced (l ++ l') d.
Proof. intros [->|H]; [by left|right; set_solver]. Qed.

Section walk.
Context {E : Env} {G : GuestMount} {D : Digests}.
Implicit Types st : world string.
Hypothesis digest_form : ∀ s, Session.lowerSHA256 (sha256 s) = true.
Context (o : Options) (limits : guestExportLimits) (t : gmap string gnode) (opened : Z → string) (Ht : mounted t opened).
Context (Lchunk : copyBytes <= op_max_chunk o) (Lfile : gl_maxFile limits <= op_max_file o) (Ltotal : gl_maxTotal limits <= op_max_total o)
  (Lfiles : gl_maxFiles limits <= op_max_files o) (Ldirs : gl_maxDirectories limits <= op_max_dirs o) (Lpos : 0 <= op_max_file o).

(** [n] is chosen, or inside something chosen. *)
Definition inside (n : string) : Prop := ∃ s, s ∈ op_selected o ∧ (n = s ∨ below s n = true).
Lemma inside_admitted n kind : inside n → admitSelectedPath n kind (op_selected o) = Ok tt.
Proof.
  intros (s & Hs & Hn). unfold admitSelectedPath. destruct (op_selected o) as [|s0 sel]; [set_solver|].
  assert (existsb (λ choice, (n =s choice) || has_prefix (choice +:+ "/") n || ((kind =? recordDirectory) && has_prefix (n +:+ "/") choice)) (s0 :: sel) = true) as ->; [|done].
  apply existsb_exists. exists s. split; [by apply list_elem_of_In|]. destruct Hn as [->|Hn]; [by rewrite eqs_refl|]. unfold below in Hn. rewrite Hn. by rewrite orb_true_r.
Qed.
Lemma above_admitted a n : inside n → below a n = true → admitSelectedPath a recordDirectory (op_selected o) = Ok tt.
Proof.
  intros (s & Hs & Hn) Ha. assert (a = s ∨ below s a = true ∨ below a s = true) as Hc.
  { destruct Hn as [->|Hn]; [auto|]. destruct (below_compare a s n Ha Hn) as [?|[?|?]]; auto. }
  destruct Hc as [->|[Hc|Hc]]; [apply inside_admitted; exists s; auto|apply inside_admitted; exists s; auto|].
  unfold admitSelectedPath. destruct (op_selected o) as [|s0 sel]; [set_solver|].
  assert (existsb (λ choice, (a =s choice) || has_prefix (choice +:+ "/") a || ((recordDirectory =? recordDirectory) && has_prefix (a +:+ "/") choice)) (s0 :: sel) = true) as ->; [|done].
  apply existsb_exists. exists s. split; [by apply list_elem_of_In|]. unfold below in Hc. rewrite Hc. by rewrite orb_true_r.
Qed.
Lemma inside_child n c : inside n → inside (n +:+ "/" +:+ c).
Proof.
  intros (s & Hs & Hn). exists s. split; [done|]. right. destruct Hn as [->|Hn]; [apply below_child|]. eapply below_trans; [exact Hn|apply below_child].
Qed.
(** Admission to the writer. *)
Lemma admitName_ok l w name w' fresh : sent o t l w → admitName w name = Ok (w', fresh) →
  if fresh then (ToLower name ∉ map (λ i, ToLower (item_name i)) l) ∧
    w' = mkWriter (<[ToLower name := name]> (gw_seen w)) (gw_walked w) (gw_total w) (gw_files w) (gw_dirs w)
  else w' = w ∧ name ∈ map item_name l.
Proof.
  intros Hs. unfold admitName. rewrite (sn_seen _ _ _ _ Hs). destruct (names_of l !! ToLower name) as [previous|] eqn:Hp.
  - intros H. res_inv H. injection H as <- <-. apply check_ok, eqs_true in Ha as ->. split; [done|]. by apply names_of_Some in Hp as [_ ?].
  - intros [= <- <-]. split; [by apply names_of_None|done].
Qed.
(** The result of a step: what it wrote, and the items it added. *)
Definition stepped (l : list item) (w' : guestExportWriter) (st st' : world string) (l' : list item) : Prop :=
  w_host st' = w_host st +:+ cat (map encode_item l') ∧ sent o t (l ++ l') w'.
Lemma stepped_nil l w' st st' : w_host st' = w_host st → sent o t l w' → stepped l w' st st' [].
Proof. intros H Hs. split; [by rewrite H, str_app_nil|by rewrite app_nil_r]. Qed.
Lemma stepped_trans l l1 l2 w1 w2 st st1 st2 : stepped l w1 st st1 l1 → stepped (l ++ l1) w2 st1 st2 l2 → stepped l w2 st st2 (l1 ++ l2).
Proof. intros [H1 _] [H2 Hs]. split; [by rewrite H2, H1, map_app, cat_app, str_app_assoc|by rewrite app_assoc]. Qed.
Lemma announce_ok l w name st w' st' : sent o t l w → t !! name = Some GDir → validPath name = true →
  admitSelectedPath name recordDirectory (op_selected o) = Ok tt → announced l (path_dir name) → announce limits w name st = (Ok w', st') →
  gw_walked w' = gw_walked w ∧ ∃ l', stepped l w' st st' l' ∧ IDir name ∈ l ++ l'.
Proof.
  intros Hs Hn Hv Ha Hp H. unfold announce in H. apply bind_ok in H as ([w1 fresh] & st1 & [Had ->]%lift_ok & H).
  apply (admitName_ok _ _ _ _ _ Hs) in Had. destruct fresh.
  - destruct Had as [Hnew ->]. apply bind_ok in H as (? & st1 & [Hd ->]%guard_ok & H). apply bind_ok in H as (? & st1 & Hf%writeFrame_ok & H).
    apply ret_ok in H as [-> ->]. split; [done|]. exists [IDir name]. split; [|set_solver]. split; [by cbn; rewrite Hf, str_app_nil|].
    destruct Hs as [Hfit Hdg Hseen Hfi Hdi Hto Htr]. cbn [gw_dirs gw_seen gw_files gw_total] in *. apply Z.leb_gt in Hd.
    split; cbn [gw_dirs gw_seen gw_files gw_total].
    + apply fits_snoc; try done; [destruct Hfit; tally|tally|destruct Hfit; tally].
    + intros n cs d [Hi|Hi%list_elem_of_singleton]%elem_of_app; [by eapply Hdg|done].
    + by rewrite names_of_snoc, Hseen.
    + rewrite Hfi. tally.
    + rewrite Hdi. tally.
    + rewrite Hto. tally.
    + intros i [Hi| ->%list_elem_of_singleton]%elem_of_app; [by apply Htr|]. exists GDir. done.
  - destruct Had as [-> Hin]. apply ret_ok in H as [-> ->]. split; [done|]. exists []. split; [by apply stepped_nil|]. rewrite app_nil_r.
    apply list_elem_of_fmap in Hin as (i & -> & Hi). destruct (sn_tree _ _ _ _ Hs i Hi) as (x & Hx & Hex). rewrite Hn in Hx. injection Hx as <-.
    by destruct i as [n|n cs d].
Qed.
Lemma exportFile_ok l w name info st w' st' : sent o t l w → validPath name = true → inside name → announced l (path_dir name) →
  (∃ c, t !! name = Some (GFile c) ∧ fi_size info = size c) → exportFile limits w name info st = (Ok w', st') →
  gw_walked w' = gw_walked w ∧ ∃ l', stepped l w' st st' l' ∧ name ∈ map item_name (l ++ l').
Proof.
  intros Hs Hv Hin Hp (c & Hc & Hsz) H. unfold exportFile in H. apply bind_ok in H as ([w1 fresh] & st1 & [Had ->]%lift_ok & H).
  apply (admitName_ok _ _ _ _ _ Hs) in Had. destruct fresh; cbn [negb] in H.
  2:{ destruct Had as [-> Hin2]. apply ret_ok in H as [-> ->]. split; [done|]. exists []. split; [by apply stepped_nil|by rewrite app_nil_r]. }
  destruct Had as [Hnew ->]. apply bind_ok in H as (? & st1 & [Hg ->]%guard_ok & H). apply bind_ok in H as (? & st1 & [_ ->]%guard_ok & H).
  apply bind_ok in H as (file & st1 & H1 & H). injection H1 as Hf Hst1. apply bind_ok in H as (op & st2 & H2%attempt_ask_ok & H).
  apply bind_ok in H as (? & st3 & [_ ->]%guard_ok & H). apply bind_ok in H as (? & st3 & H3%writeFrame_ok & H).
  apply bind_ok in H as (bytes & st4 & H4 & H). apply exportChunks_ok in H4 as (cs & Hcs & H4 & Hb & Hall & Hdata); [|by intros k p len s [Hr _]%(mt_read _ _ Ht)].
  apply bind_ok in H as (fin & st5 & H5%attempt_ask_ok & H). apply bind_ok in H as (? & st6 & [_ ->]%guard_ok & H).
  apply bind_ok in H as (? & st6 & H6%writeFrame_ok & H). apply ret_ok in H as [-> ->].
  assert (bytes = c) as ->.
  { rewrite (Hdata c); [|done|]; [|intros k p len s Hr; apply (mt_read _ _ Ht) in Hr as [_ Hr]; apply Hr; by rewrite (mt_open _ _ Ht _ _ _ Hf)].
    cbn [str_drop Z.to_nat]. rewrite Hsz. unfold size. rewrite Nat2Z.id. pose proof (take_app c "") as Hx. by rewrite str_app_nil in Hx. }
  destruct (raw_digest c (digest_form c)) as [Hdl Hdg]. split; [done|]. set (digest := unhex (sha256 c)) in *. exists [IFile name cs digest].
  split; [|rewrite map_app; apply elem_of_app; right; by apply list_elem_of_singleton].
  cbn [gw_files gw_total] in Hg. rewrite !orb_false_iff, Z.leb_gt, !Z.ltb_ge in Hg. destruct Hg as [[[Hg1 Hg2] Hg3] Hg4].
  destruct Hs as [Hfit Hdgs Hseen Hfi Hdi Hto Htr]. split.
  - cbn [map cat encode_item]. rewrite str_app_nil, Hcs, <-Hsz. rewrite H6, H5, H4, H3, H2, <-Hst1. cbn [tick w_host]. by rewrite !str_app_assoc.
  - split; cbn [gw_dirs gw_seen gw_files gw_total].
    + apply fits_snoc; try done.
      * by apply inside_admitted.
      * destruct Hfit. tally.
      * destruct Hfit. tally.
      * rewrite total_app, total_cons. cbn [content]. rewrite Hcs. change (total []) with 0. lia.
      * cbn [content]. rewrite Hcs. lia.
      * intros n cs1 d y [= <- <- <-] Hy. specialize (Hall y Hy). lia.
    + intros n cs' d [Hi|Hi%list_elem_of_singleton]%elem_of_app; [by eapply Hdgs|]. injection Hi as -> -> ->. by rewrite Hcs.
    + by rewrite names_of_snoc, Hseen.
    + rewrite Hfi. tally.
    + rewrite Hdi. tally.
    + rewrite Hto, total_app, total_cons. cbn [content]. rewrite Hcs. change (total []) with 0. lia.
    + intros i [Hi| ->%list_elem_of_singleton]%elem_of_app; [by apply Htr|]. exists (GFile c). cbn [item_name node_of exported]. by rewrite Hcs.
Qed.

(** *** The walk *)
Lemma exportDirectory_ok walk l w name descend st w' st' : sent o t l w → validPath name = true →
  admitSelectedPath name recordDirectory (op_selected o) = Ok tt → announced l (path_dir name) →
  exportDirectory walk limits w name descend st = (Ok w', st') →
  ∃ l1 w1 st1, gw_walked w1 = gw_walked w ∧ stepped l w1 st st1 l1 ∧ IDir name ∈ l ++ l1 ∧
    ((w' = w1 ∧ st' = st1 ∧ (descend = true → name ∈ gw_walked w)) ∨
     (descend = true ∧ ∃ k file k' names err entries st2, gm_open k name = Ok file ∧
        gm_readdir k' file (gl_maxFiles limits + gl_maxDirectories limits + 1) = (names, err) ∧
        Z.of_nat (length names) <= gl_maxFiles limits + gl_maxDirectories limits ∧ entries ≡ₚ names ∧ w_host st2 = w_host st1 ∧
        exportEntries walk (mkWriter (gw_seen w1) ({[ name ]} ∪ gw_walked w1) (gw_total w1) (gw_files w1) (gw_dirs w1)) name entries st2 = (Ok w', st'))).
Proof.
  intros Hs Hv Ha Hp H. unfold exportDirectory in H. apply bind_ok in H as ([info|e] & s1 & H1%attempt_ok & H); [|by apply throw_ok in H].
  apply safeInfo_ok in H1 as (Hs1 & k0 & Hk0). apply bind_ok in H as (? & s2 & [Hkind ->]%guard_ok & H).
  apply negb_false_iff, bool_decide_eq_true in Hkind. destruct (mt_lstat _ _ Ht _ _ _ Hk0) as [Hdir _]. specialize (Hdir Hkind).
  apply bind_ok in H as (w1 & s2 & H2 & H). apply (announce_ok l) in H2 as (Hwalk & l1 & [Hout Hsent] & Hin); try done.
  rewrite Hs1 in Hout. exists l1, w1, s2. split_and!; [done|by split|done|].
  destruct (negb descend || bool_decide (name ∈ gw_walked w1)) eqn:Hstop.
  - apply ret_ok in H as [-> ->]. left. split_and!; [done|done|]. intros ->. cbn in Hstop. rewrite <-Hwalk. by apply bool_decide_eq_true in Hstop.
  - right. apply orb_false_iff in Hstop as [Hd%negb_false_iff _]. split; [done|]. apply bind_ok in H as (entries & s3 & H3 & H).
    apply readEntries_ok in H3 as (Hs3 & k & file & k' & names & err & Ho & Hr & Hl & Hperm). do 7 eexists. split_and!; [exact Ho|exact Hr|done|exact Hperm|exact Hs3|exact H].
Qed.
(** The directories above a path, outermost first. *)
Lemma exportParents_app w a b st : exportParents limits w (a ++ b) st = (let! w := exportParents limits w a in exportParents limits w b) st.
Proof.
  revert w st. induction a as [|p a IH]; intros w st; [done|]. cbn [app exportParents]. unfold bind.
  destruct (exportDirectory _ limits w p false st) as [[w1|e] st1]; [|done]. rewrite IH. unfold bind. done.
Qed.
Lemma exportParents_ok n : ∀ s l w st w' st', (String.length s < n)%nat → sent o t l w → validPath s = true → inside s ∨ (∃ k, inside k ∧ below s k = true) →
  exportParents limits w (ancestors s) st = (Ok w', st') →
  gw_walked w' = gw_walked w ∧ ∃ l', stepped l w' st st' l' ∧ announced (l ++ l') (path_dir s).
Proof.
  induction n as [|n IH]; intros s l w st w' st' Hn Hs Hv Hi H; [lia|]. pose proof (ancestors_dir s) as Ha. unfold path_dir.
  destruct (before_slash s) as [p|] eqn:Hp; rewrite Ha in H.
  - rewrite exportParents_app in H. apply bind_ok in H as (w1 & s1 & H1 & H). pose proof (validPath_parent _ _ Hv Hp) as Hvp.
    pose proof (below_parent _ _ Hp) as Hb. assert (∃ k, inside k ∧ below p k = true) as Hip.
    { destruct Hi as [Hi|(k & Hk & Hsk)]; [by exists s|]. exists k. split; [done|]. by eapply below_trans. }
    apply (IH p l) in H1 as (Hw1 & l1 & Hst1 & Han); try done; [|apply before_slash_app in Hp as (q & -> & _); rewrite !str_length_app in Hn; cbn in Hn; lia|by right].
    cbn [exportParents] in H. apply bind_ok in H as (w2 & s2 & H2 & H). apply ret_ok in H as [-> ->]. destruct Hip as (k & Hk & Hpk).
    pose proof Hst1 as [_ Hsent1]. apply (exportDirectory_ok _ (l ++ l1)) in H2 as (l2 & w3 & st3 & Hw3 & Hst3 & Hin & Hres); [|done|done|by eapply above_admitted|done].
    destruct Hres as [(-> & -> & _)|[? _]]; [|done]. split; [by rewrite Hw3|]. exists (l1 ++ l2). split; [by eapply stepped_trans|]. right. by rewrite app_assoc.
  - apply ret_ok in H as [-> ->]. split; [done|]. exists []. split; [by apply stepped_nil|by left].
Qed.
(** What the walk may find marked: directories above the current one, whose
    walk is under way, and finished ones. *)
Definition marked (l : list item) (w : guestExportWriter) (cur : string) : Prop :=
  ∀ d, d ∈ gw_walked w → below d cur = true ∨ complete t l d.
(** One path, with everything below it. *)
Definition finished (l : list item) (w w' : guestExportWriter) : Prop :=
  ∀ d, d ∈ gw_walked w' → d ∈ gw_walked w ∨ complete t l d.
Definition walked_path (l : list item) (cur : string) (w w' : guestExportWriter) (st st' : world string) : Prop :=
  ∃ l', stepped l w' st st' l' ∧ finished (l ++ l') w w' ∧ complete t (l ++ l') cur ∧ cur ∈ map item_name (l ++ l').
Definition walks (walk : guestExportWriter → string → M string guestExportWriter) : Prop :=
  ∀ name l w st w' st', sent o t l w → marked l w name → inside name → walk w name st = (Ok w', st') → walked_path l name w w' st st'.
Lemma exportEntries_ok walk name entries : walks walk → inside name →
  ∀ l w st w' st', sent o t l w → (∀ d, d ∈ gw_walked w → d = name ∨ below d name = true ∨ complete t l d) →
  exportEntries walk w name entries st = (Ok w', st') →
  ∃ l', stepped l w' st st' l' ∧ finished (l ++ l') w w' ∧ ∀ c, c ∈ entries → complete t (l ++ l') (name +:+ "/" +:+ c).
Proof.
  intros Hwalk Hin. induction entries as [|c entries IH]; intros l w st w' st' Hs Hm H; cbn [exportEntries] in H.
  - apply ret_ok in H as [-> ->]. exists []. rewrite app_nil_r. split_and!; [by apply stepped_nil|intros d; by left|set_solver].
  - apply bind_ok in H as (w1 & s1 & H1 & H).
    apply (Hwalk _ l) in H1 as (l1 & Hst1 & Hf1 & Hc1 & _); [|done| |by apply inside_child].
    2:{ intros d Hd. destruct (Hm d Hd) as [->|[Hb|Hco]]; [left; apply below_child|left|by right]. eapply below_trans; [exact Hb|apply below_child]. }
    pose proof Hst1 as [_ Hsent1]. apply (IH (l ++ l1)) in H as (l2 & Hst2 & Hf2 & Hc2); [|done|].
    2:{ intros d Hd. destruct (Hf1 d Hd) as [Hw|Hco]; [|by right; right]. destruct (Hm d Hw) as [?|[?|?]]; auto using complete_mono. }
    exists (l1 ++ l2). rewrite app_assoc. split_and!; [by eapply stepped_trans| |].
    + intros d Hd. destruct (Hf2 d Hd) as [Hw|?]; [|by right]. destruct (Hf1 d Hw) as [?|?]; [by left|right; by apply complete_mono].
    + intros x [->|Hx]%elem_of_cons; [by apply complete_mono|by apply Hc2].
Qed.
Lemma exportPath_ok fuel : walks (exportPath fuel limits).
Proof.
  induction fuel as [|fuel IH]; intros name l w st w' st' Hs Hm Hin H; cbn [exportPath] in H; [by apply throw_ok in H|].
  apply bind_ok in H as (? & s1 & [Hv%negb_false_iff ->]%guard_ok & H). apply bind_ok in H as (? & s1 & H1%gctxErr_ok & H).
  apply bind_ok in H as (w2 & s2 & H2 & H). apply (exportParents_ok (S (String.length name)) name l) in H2 as (Hw2 & l2 & [Ho2 Hs2] & Han); [|lia|done|done|by left].
  rewrite H1 in Ho2. apply bind_ok in H as (info & s3 & H3 & H). apply safeInfo_ok in H3 as (Ho3 & k3 & Hk3).
  destruct (mt_lstat _ _ Ht _ _ _ Hk3) as [Hdir Hfile]. destruct (fi_kind info); try by apply throw_ok in H.
  - specialize (Hdir eq_refl). apply (exportDirectory_ok _ (l ++ l2)) in H as (l3 & w3 & s4 & Hw3 & Hst3 & Hi3 & H); [|done|done|by apply inside_admitted|done].
    pose proof Hst3 as [Ho3' Hs3]. rewrite Ho3 in Ho3'.
    assert (stepped l w3 st s4 (l2 ++ l3)) as Hst by (eapply stepped_trans; split; [exact Ho2|exact Hs2|exact Ho3'|exact Hs3]).
    destruct H as [(-> & -> & Hwd)|(_ & k & file & k' & names & err & entries & s5 & Hop & Hrd & Hlen & Hperm & Ho5 & H)].
    + exists (l2 ++ l3). rewrite app_assoc. split_and!; [done| | |by apply (list_elem_of_fmap_2 item_name _ _ Hi3)].
      * intros d Hd. rewrite Hw3, Hw2 in Hd. by left.
      * specialize (Hwd eq_refl). rewrite Hw2 in Hwd. destruct (Hm _ Hwd) as [Hb|Hco]; [by apply below_irrefl in Hb|]. by do 2 apply complete_mono.
    + apply (exportEntries_ok _ _ _ IH Hin ((l ++ l2) ++ l3)) in H as (l4 & [Ho4 Hs4] & Hf4 & Hc4).
      2:{ by destruct Hs3. }
      2:{ cbn [gw_walked]. intros d [->%elem_of_singleton|Hd]%elem_of_union; [by left|]. rewrite Hw3, Hw2 in Hd. right.
          destruct (Hm d Hd) as [?|?]; [by left|right]. by do 2 apply complete_mono. }
      assert (complete t (((l ++ l2) ++ l3) ++ l4) name) as Hname.
      { intros n Hn [->|Hb]; [rewrite map_app; apply elem_of_app; left; apply (list_elem_of_fmap_2 item_name _ _ Hi3)|].
        pose proof (mt_open _ _ Ht _ _ _ Hop) as Hfile'. rewrite <-Hfile' in Hb.
        destruct (mt_entries _ _ Ht _ _ _ _ _ _ Hrd ltac:(lia) Hn Hb) as (c & Hc & Hnc). rewrite Hfile' in Hnc. rewrite <-Hperm in Hc. by apply (Hc4 c Hc). }
      exists ((l2 ++ l3) ++ l4). rewrite !app_assoc. split_and!; [| |done|rewrite map_app; apply elem_of_app; left; apply (list_elem_of_fmap_2 item_name _ _ Hi3)].
      * rewrite Ho5 in Ho4. rewrite <-(app_assoc l l2 l3) in *. eapply stepped_trans; [exact Hst|]. by split.
      * intros d Hd. destruct (Hf4 d Hd) as [Hw|?]; [|by right]. cbn [gw_walked] in Hw. apply elem_of_union in Hw as [->%elem_of_singleton|Hw]; [by right|].
        left. by rewrite Hw3, Hw2 in Hw.
  - destruct (Hfile eq_refl) as (c & Hc & Hsz). apply (exportFile_ok (l ++ l2)) in H as (Hw4 & l4 & [Ho4 Hs4] & Hn4); [|done|done|done|done|by exists c].
    rewrite Ho3 in Ho4. exists (l2 ++ l4). rewrite app_assoc. split_and!; [| | |done].
    + eapply stepped_trans; split; [exact Ho2|exact Hs2|exact Ho4|exact Hs4].
    + intros d Hd. rewrite Hw4, Hw2 in Hd. by left.
    + intros n Hn [->|Hb]; [done|]. by rewrite (mt_tree _ _ Ht _ _ Hn Hb) in Hc.
Qed.
Lemma exportAll_ok selected : (∀ s, s ∈ selected → s ∈ op_selected o) → ∀ l w st w' st', sent o t l w → (∀ d, d ∈ gw_walked w → complete t l d) →
  exportAll limits w selected st = (Ok w', st') →
  ∃ l', stepped l w' st st' l' ∧ ∀ s, s ∈ selected → complete t (l ++ l') s ∧ s ∈ map item_name (l ++ l').
Proof.
  induction selected as [|s selected IH]; intros Hsel l w st w' st' Hs Hm H; cbn [exportAll] in H.
  - apply ret_ok in H as [-> ->]. exists []. split; [by apply stepped_nil|set_solver].
  - apply bind_ok in H as (w1 & s1 & H1 & H). apply (exportPath_ok _ _ l) in H1 as (l1 & Hst1 & Hf1 & Hc1 & Hi1); [|done|by intros d Hd; right; apply Hm|exists s; set_solver].
    pose proof Hst1 as [_ Hsent1]. apply (IH ltac:(set_solver) (l ++ l1)) in H as (l2 & Hst2 & Hall); [|done|].
    2:{ intros d Hd. destruct (Hf1 d Hd) as [Hw|?]; [|done]. by apply complete_mono, Hm. }
    exists (l1 ++ l2). rewrite app_assoc. split; [by eapply stepped_trans|]. intros x [->|Hx]%elem_of_cons; [|by apply Hall].
    split; [by apply complete_mono|]. rewrite map_app. apply elem_of_app. by left.
Qed.

(** A whole run. *)
Lemma ancestors_sent l n : fits o l → ∀ a s, (String.length s < n)%nat → s ∈ map item_name l → below a s = true → IDir a ∈ l.
Proof.
  intros Hf. induction n as [|n IH]; intros a s Hn Hs Hb; [lia|]. apply list_elem_of_fmap in Hs as (i & -> & Hi).
  apply list_elem_of_split in Hi as (l1 & l2 & Hl). pose proof (ft_parents _ _ Hf l1 i l2 Hl) as Hp.
  apply below_dir in Hb as (p & Hd & Ha). unfold path_dir in Hp. rewrite Hd in Hp. cbn [default] in Hp.
  assert (IDir p ∈ l1 → IDir p ∈ l) as Hin by (rewrite Hl; set_solver).
  assert (p = "."%string → False) as Hdot.
  { intros ->. pose proof (ft_names _ _ Hf) as Hv. rewrite Forall_forall in Hv. destruct (Hv i) as [Hvi _]; [rewrite Hl; set_solver|].
    pose proof (validPath_parent _ _ Hvi Hd) as Hx. by vm_compute in Hx. }
  destruct Hp as [Hp|Hp]; [by destruct (Hdot Hp)|]. destruct Ha as [->|Ha]; [by apply Hin|].
  apply (IH a p); [|apply (list_elem_of_fmap_2 item_name _ _ (Hin Hp))|done].
  apply before_slash_app in Hd as (q & Hq & _). rewrite Hq, !str_length_app in Hn. cbn in Hn. lia.
Qed.
Definition selection_of (T : tree) : Prop :=
  ∀ n x, T !! n = Some x ↔ reaches (op_selected o) n ∧ ∃ y, t !! n = Some y ∧ exported y = Some x.
Lemma selection_exact l w : op_selected o ≠ [] → sent o t l w → (∀ s, s ∈ op_selected o → complete t l s ∧ s ∈ map item_name l) → selection_of (tree_of l).
Proof.
  intros Hne Hs Hall n x. pose proof (sn_fits _ _ _ _ Hs) as Hf. pose proof (names_nodup _ (ft_distinct _ _ Hf)) as Hnd. split.
  - intros (i & Hi & <- & <-)%tree_of_Some. split; [|by apply (sn_tree _ _ _ _ Hs)]. pose proof (ft_names _ _ Hf) as Hn. rewrite Forall_forall in Hn.
    destruct (Hn i Hi) as [_ Ha]. unfold admitSelectedPath in Ha. destruct (op_selected o) as [|s0 sel] eqn:Es; [done|]. rewrite <-Es in *.
    apply check_ok, existsb_exists in Ha as (s & Hin & Hc). exists s. split; [by apply list_elem_of_In|].
    rewrite !orb_true_iff, andb_true_iff in Hc. destruct Hc as [[Hc%eqs_true|Hc]|[_ Hc]]; auto.
  - intros [(s & Hin & Hr) (y & Hy & Hx)]. destruct (Hall s Hin) as [Hco Hs']. assert (n ∈ map item_name l) as Hn.
    { destruct Hr as [Hr|[Hr|Hr]]; [by rewrite Hr|apply Hco; [by exists y|by right]|].
      apply (list_elem_of_fmap_2 item_name _ _ (ancestors_sent l (S (String.length s)) Hf n s ltac:(lia) Hs' Hr)). }
    apply list_elem_of_fmap in Hn as (i & -> & Hi). rewrite (tree_of_in _ _ Hnd Hi). destruct (sn_tree _ _ _ _ Hs i Hi) as (y' & Hy' & Hx').
    rewrite Hy in Hy'. injection Hy' as <-. by rewrite <-Hx', <-Hx.
Qed.
Lemma sent_nil : fits o [] → sent o t [] (mkWriter ∅ ∅ 0 0 0).
Proof. intros Hf. split; try done; [intros n cs d Hi; set_solver|intros i Hi; set_solver]. Qed.
Lemma writeSelectedExport_ok st u st' : typed_options o → writeSelectedExport (op_transaction o) (op_selected o) limits st = (Ok u, st') →
  ∃ l, admissible o l ∧ w_host st' = w_host st +:+ encode_stream (op_transaction o) l ∧ selection_of (tree_of l).
Proof.
  intros typed H. unfold writeSelectedExport in H. apply bind_ok in H as (n & s1 & H1 & H). unfold writeSelectedExportBody in H1.
  apply bind_ok in H1 as (? & s2 & H2%gctxErr_ok & H1). apply bind_ok in H1 as (? & s3 & [Hg ->]%guard_ok & H1).
  apply bind_ok in H1 as (? & s4 & H4%ask_ok & H1). apply bind_ok in H1 as (? & s5 & H5%writeAll_ok & H1).
  apply bind_ok in H1 as (w & s6 & H6 & H1). apply ret_ok in H1 as [-> ->].
  apply (exportAll_ok _ ltac:(done) []) in H6 as (l & [Hout Hs] & Hall); [|by apply sent_nil, fits_nil|set_solver]. cbn [app] in *.
  unfold writeExportTerminal in H. apply bind_ok in H as (? & s7 & [_ ->]%guard_ok & H). apply writeFrame_ok in H.
  exists l. assert (op_selected o ≠ []) as Hne by (intros Hz; by rewrite Hz, orb_true_r in Hg). split_and!.
  - split; [apply Hs|apply Hs|]. intros s Hin. destruct (Hall s Hin) as [_ Hi]. apply list_elem_of_fmap in Hi as (i & -> & Hi). by exists i.
  - rewrite H, Hout, H5, H4, H2, (sn_total _ _ _ _ Hs). unfold encode_stream, encode_header, encode_terminal. by rewrite !str_app_assoc.
  - by eapply selection_exact.
Qed.
End walk.

(** *** Streams without an end *)

(** Whether a terminal record is reached from the start of [s]. *)
Fixpoint terminated (fuel : nat) (s : string) : bool :=
  match fuel with
  | O => false
  | S fuel =>
      if (String.length s <? recordSize)%nat then false
      else let r := decodeRecord (str_take recordSize s) in
           (rd_kind r =? recordTerminal) ||
           terminated fuel (str_drop (recordSize + Z.to_nat (rd_path r) + Z.to_nat (rd_chunk r)) s)
  end.
Record inner_frame (kind : Z) (name payload : string) (declared : Z) (digest : string) : Prop := {
  if_kind : 0 <= kind < recordTerminal;
  if_name : size name <= maxPathBytes;
  if_payload : size payload <= copyBytes;
  if_declared : 0 <= declared < 2 ^ 64;
  if_digest : String.length digest = 32%nat;
}.
Definition inner (f : string) : Prop := ∃ kind name payload declared digest, inner_frame kind name payload declared digest ∧ f = frame kind name payload declared digest.
Lemma inner_intro kind name payload declared digest : 0 <= kind < recordTerminal → size name <= maxPathBytes → size payload <= copyBytes →
  0 <= declared < 2 ^ 64 → String.length digest = 32%nat → inner (frame kind name payload declared digest).
Proof. intros ? ? ? ? ?. do 5 eexists. split; [by split|done]. Qed.
Lemma take_all s : str_take (String.length s) s = s.
Proof. pose proof (take_app s "") as H. by rewrite str_app_nil in H. Qed.
Lemma drop_take n m s : str_drop n (str_take m s) = str_take (m - n) (str_drop n s).
Proof.
  revert m s. induction n as [|n IH]; intros m s; [by rewrite Nat.sub_0_r|]. destruct m as [|m]; [done|]. destruct s as [|c s]; [cbn; by destruct (m - n)%nat|apply IH].
Qed.
Lemma take_app_le n a b : (n <= String.length a)%nat → str_take n (a +:+ b) = str_take n a.
Proof. revert a. induction n as [|n IH]; intros [|c a] H; try done; [cbn in H; lia|]. change (String c (str_take n (a +:+ b)) = String c (str_take n a)). f_equal. apply IH. cbn in H. lia. Qed.
Lemma take_take n m s : (n <= m)%nat → str_take n (str_take m s) = str_take n s.
Proof. revert m s. induction n as [|n IH]; intros [|m] [|c s] H; try done; [lia|]. cbn [str_take]. f_equal. apply IH. lia. Qed.
Lemma take_le n s : (String.length (str_take n s) <= n)%nat.
Proof. revert s. induction n as [|n IH]; intros [|c s]; cbn; try lia. specialize (IH s). lia. Qed.
Lemma frame_decode kind name payload declared digest rest : 0 <= kind < 256 → size name <= maxPathBytes → size payload <= copyBytes → 0 <= declared < 2 ^ 64 →
  String.length digest = 32%nat → let f := frame kind name payload declared digest in
  (recordSize <= String.length f)%nat ∧ decodeRecord (str_take recordSize (f +:+ rest)) = mkRecord kind (size name) (size payload) declared digest ∧
  String.length f = (recordSize + Z.to_nat (size name) + Z.to_nat (size payload))%nat.
Proof.
  intros H1 H2 H3 H4 H5. unfold maxPathBytes, copyBytes in *. pose proof (size_nonneg name). pose proof (size_nonneg payload).
  set (rec := mkRecord kind (size name) (size payload) declared digest). pose proof (header_length rec H5) as Hl. cbv zeta. rewrite frame_header. fold rec. split_and!.
  - rewrite str_length_app. lia.
  - rewrite str_app_assoc, take_app_n by done. by apply decode_header; cbn; try lia.
  - rewrite !str_length_app, Hl. unfold size. lia.
Qed.
Lemma terminated_inner fuel fs m : Forall inner fs → terminated fuel (str_take m (cat fs)) = false.
Proof.
  revert fs m. induction fuel as [|fuel IH]; intros fs m Hfs; [done|]. cbn [terminated]. destruct (Nat.ltb_spec (String.length (str_take m (cat fs))) recordSize) as [|Hl]; [done|].
  destruct fs as [|f fs]; [destruct m; cbn in Hl; unfold recordSize in Hl; lia|]. apply Forall_cons in Hfs as [(kind & name & payload & declared & digest & [H1 H2 H3 H4 H5] & ->) Hfs].
  destruct (frame_decode kind name payload declared digest (cat fs)) as (_ & Hd & Hlen); [lia|done|done|done|done|].
  pose proof (take_le m (cat (frame kind name payload declared digest :: fs))) as Hm. cbn [cat] in *. rewrite take_take by lia. rewrite Hd. cbn [rd_kind rd_path rd_chunk].
  destruct (Z.eqb_spec kind recordTerminal); [lia|]. rewrite drop_take, (drop_app_n _ _ _ Hlen). by apply IH.
Qed.
Lemma terminated_frames fs n rest : Forall inner fs → 0 <= n < 2 ^ 64 → terminated (S (length fs)) (cat fs +:+ frame recordTerminal "" "" n noDigest +:+ rest) = true.
Proof.
  intros Hfs Hn. induction fs as [|f fs IH]; cbn [cat length].
  - destruct (frame_decode recordTerminal "" "" n noDigest rest) as (Hl & Hd & _); [done|done|done|done|done|]. change ("" +:+ ?x) with x. cbn [terminated].
    destruct (Nat.ltb_spec (String.length (frame recordTerminal "" "" n noDigest +:+ rest)) recordSize) as [Hx|_]; [rewrite str_length_app in Hx; lia|].
    by rewrite Hd.
  - apply Forall_cons in Hfs as [(kind & name & payload & declared & digest & [H1 H2 H3 H4 H5] & ->) Hfs]. rewrite str_app_assoc.
    set (rest' := cat fs +:+ frame recordTerminal "" "" n noDigest +:+ rest) in *. change (S (S (length fs))) with (S (S (length fs))). set (k := S (length fs)) in *.
    destruct (frame_decode kind name payload declared digest rest') as (Hl & Hd & Hlen); [lia|done|done|done|done|]. cbn [terminated].
    destruct (Nat.ltb_spec (String.length (frame kind name payload declared digest +:+ rest')) recordSize) as [Hx|_]; [rewrite str_length_app in Hx; lia|].
    cbv zeta. rewrite Hd. cbn [rd_kind rd_path rd_chunk]. rewrite (drop_app_n _ _ _ Hlen), IH by done. apply orb_true_r.
Qed.
Lemma items_inner `{Digests} o l : typed_options o → op_max_chunk o <= copyBytes → admissible o l →
  ∃ fs, Forall inner fs ∧ cat (map encode_item l) = cat fs.
Proof.
  intros typed Hmc [Hf Hd _]. assert (∀ k, k ⊆ l → ∃ fs, Forall inner fs ∧ cat (map encode_item k) = cat fs) as Hall; [|by apply Hall].
  induction k as [|i k IH]; intros Hk; [by exists []|]. destruct IH as (fs & Hfs & He); [set_solver|].
  assert (i ∈ l) as Hi by set_solver. pose proof (ft_names _ _ Hf) as Hn. rewrite Forall_forall in Hn. destruct (Hn i Hi) as [Hv _].
  apply validPath_size in Hv. pose proof (ft_sizes _ _ Hf) as Hs. rewrite Forall_forall in Hs. specialize (Hs i Hi). pose proof (to_file _ typed).
  destruct i as [name|name cs d]; cbn [item_name content] in *.
  - exists (frame recordDirectory name "" 0 noDigest :: fs). split; [|cbn [map encode_item cat]; by rewrite He]. apply Forall_cons. split; [|done].
    apply inner_intro; try done; lia.
  - destruct (Hd name cs d Hi) as [Hdl _]. pose proof (size_nonneg (cat cs)).
    exists (frame recordFile name "" (size (cat cs)) noDigest :: map chunk_frame cs ++ frame recordFileEnd "" "" 0 d :: fs). split.
    + apply Forall_cons. split; [apply inner_intro; [lia|lia|done|lia|done]|]. apply Forall_app. split.
      * apply Forall_map, Forall_forall. intros c Hc. pose proof (ft_chunks _ _ Hf name cs d c Hi Hc). unfold chunk_frame. apply inner_intro; [lia|done|lia|lia|done].
      * apply Forall_cons. split; [|done]. by apply inner_intro.
    + cbn [map encode_item cat]. rewrite cat_app. cbn [cat]. by rewrite He, !str_app_assoc.
Qed.

(** *** The output at every point of the run *)
Section framing.
Context {E : Env} {G : GuestMount} {D : Digests} (transaction : string).
Implicit Types st : world string.
Hypothesis digest_form : ∀ s, Session.lowerSHA256 (sha256 s) = true.
Hypothesis reads_full : ∀ k file p len s, gm_read k file p len = Ok s → size s = len.

Definition boundary (out : string) : Prop := ∃ fs, Forall inner fs ∧ out = encode_header transaction +:+ cat fs.
Definition cut (out : string) : Prop := ∃ fs m, Forall inner fs ∧ out = str_take m (encode_header transaction +:+ cat fs).
Lemma boundary_cut out : boundary out → cut out.
Proof.
  intros (fs & Hfs & ->). exists fs, (String.length (encode_header transaction +:+ cat fs)). split; [done|]. by rewrite take_all.
Qed.
(** Success ends after a whole frame; a failure ends anywhere, but in a frame
    that is not the terminal one. *)
Definition framed {A} (m : M string A) : Prop := ∀ st, boundary (w_host st) →
  match m st with (Ok _, st') => boundary (w_host st') | (Er _, st') => cut (w_host st') end.
Definition still {A} (m : M string A) : Prop := ∀ st, w_host (m st).2 = w_host st.
Lemma framed_still {A} (m : M string A) : still m → framed m.
Proof. intros H st Hb. specialize (H st). destruct (m st) as [[a|e] st']; cbn in H; rewrite H; [done|by apply boundary_cut]. Qed.
Lemma still_ret {A} (a : A) : still (ret a).
Proof. done. Qed.
Lemma still_throw {A} e : still (throw e : M string A).
Proof. done. Qed.
Lemma still_lift {A} (r : res A) : still (lift r).
Proof. done. Qed.
Lemma still_guard b msg : still (guard b msg).
Proof. done. Qed.
Lemma still_ask {A} (f : nat → res A) : still (ask f).
Proof. done. Qed.
Lemma still_bind {A C} (m : M string A) (f : A → M string C) : still m → (∀ a, still (f a)) → still (bind m f).
Proof. intros Hm Hf st. unfold bind. specialize (Hm st). destruct (m st) as [[a|e] st1]; cbn in *; [|done]. by rewrite Hf. Qed.
Lemma still_attempt {A} (m : M string A) : still m → still (attempt m).
Proof. intros Hm st. unfold attempt. specialize (Hm st). by destruct (m st). Qed.
Lemma still_close : still (host_try (λ b, (Ok tt, b))).
Proof. intros st. unfold host_try. by destruct (now_fault st). Qed.
Lemma framed_bind {A C} (m : M string A) (f : A → M string C) : framed m → (∀ a, framed (f a)) → framed (bind m f).
Proof. intros Hm Hf st Hb. unfold bind. specialize (Hm st Hb). destruct (m st) as [[a|e] st1]; [by apply Hf|done]. Qed.
(** [m] appends [data], or stops within it. *)
Definition appends (m : M string unit) (data : string) : Prop := ∀ st,
  (∃ n, w_host (m st).2 = w_host st +:+ str_take n data) ∧ (is_ok (m st).1 = true → w_host (m st).2 = w_host st +:+ data).
Lemma appends_writeAll data : appends (writeAll data) data.
Proof.
  intros st. unfold writeAll. destruct (data =s "") eqn:Hd; [apply eqs_true in Hd as ->; split; [by exists 0%nat; rewrite str_app_nil|by rewrite str_app_nil]|].
  destruct (now_fault st) as [| |n|]; (split; [|done]).
  - exists (String.length data). by rewrite take_all.
  - exists 0%nat. by rewrite str_app_nil.
  - by exists n.
  - exists (String.length data). by rewrite take_all.
Qed.
Lemma appends_bind m m' a b : appends m a → appends m' b → appends (m ;;! m') (a +:+ b).
Proof.
  intros Hm Hm' st. unfold bind. destruct (Hm st) as [(n & Hn) Hok]. destruct (m st) as [[u|e] st1]; cbn [fst snd is_ok] in *.
  - specialize (Hok eq_refl). destruct (Hm' st1) as [(k & Hk) Hok']. rewrite Hok in Hk, Hok'. split.
    + exists (String.length a + k)%nat. by rewrite take_plus, take_app, drop_app, Hk, str_app_assoc.
    + intros H. by rewrite Hok', str_app_assoc.
  - split; [|done]. rewrite Hn. destruct (Nat.le_gt_cases n (String.length a)) as [Hle|Hgt]; [exists n; by rewrite take_app_le|].
    exists (String.length a). rewrite take_app. f_equal. pose proof (take_le (String.length a) a). clear -Hgt.
    revert n Hgt. induction a as [|c a IH]; intros [|n] H; try done; [cbn in H; lia|]. cbn. f_equal. apply IH. cbn in H. lia.
Qed.
Lemma framed_frame kind name payload declared digest : 0 <= kind < recordTerminal → size name <= maxPathBytes → size payload <= copyBytes →
  0 <= declared < 2 ^ 64 → String.length digest = 32%nat → framed (writeFrame kind name payload declared digest).
Proof.
  intros H1 H2 H3 H4 H5 st (fs & Hfs & Ho). pose proof (inner_intro _ _ _ _ _ H1 H2 H3 H4 H5) as Hin. set (f := frame kind name payload declared digest) in *.
  assert (appends (writeFrame kind name payload declared digest) f) as Ha.
  { unfold f. rewrite frame_header. apply appends_bind; [apply appends_writeAll|]. apply appends_bind; apply appends_writeAll. }
  destruct (Ha st) as [(n & Hn) Hok]. rewrite Ho in *. destruct (writeFrame kind name payload declared digest st) as [[u|e] st']; cbn [fst snd is_ok] in *.
  - exists (fs ++ [f]). split; [by apply Forall_app, conj, Forall_singleton|]. rewrite Hok by done. rewrite cat_app. cbn [cat]. by rewrite str_app_nil, str_app_assoc.
  - exists (fs ++ [f]), (String.length (encode_header transaction +:+ cat fs) + n)%nat. split; [by apply Forall_app, conj, Forall_singleton|].
    rewrite Hn, cat_app. cbn [cat]. by rewrite str_app_nil, <-str_app_assoc, take_plus, take_app, drop_app.
Qed.
Lemma still_gctxErr : still gctxErr.
Proof. apply still_bind; [apply still_ask|]. intros c. apply still_guard. Qed.
Lemma still_safeInfo name : still (safeInfo name).
Proof.
  unfold safeInfo. generalize (prefixes name). intros parts. induction parts as [|part parts IH]; cbn [safeInfo_loop]; [apply still_throw|].
  apply still_bind; [apply still_attempt, still_ask|]. intros [info|e]; [|apply still_throw]. apply still_bind; [apply still_guard|]. intros _.
  apply still_bind; [apply still_guard|]. intros _. destruct (part =s name); [apply still_ret|done].
Qed.
Lemma still_readEntries limits name info : still (readEntries limits name info).
Proof.
  unfold readEntries. apply still_bind; [apply still_ask|]. intros file. apply still_bind; [apply still_attempt, still_ask|]. intros op.
  apply still_bind; [apply still_guard|]. intros _. apply still_bind; [apply still_ask|]. intros [entries err].
  apply still_bind; [apply still_attempt, still_close|]. intros closed.
  destruct err, closed; try apply still_throw; (apply still_bind; [apply still_guard|]; intros _; apply still_ret).
Qed.
Lemma framed_announce limits w name : size name <= maxPathBytes → framed (announce limits w name).
Proof.
  intros H. unfold announce. apply framed_bind; [apply framed_still, still_lift|]. intros [w1 []]; [|apply framed_still, still_ret].
  apply framed_bind; [apply framed_still, still_guard|]. intros _. apply framed_bind; [by apply framed_frame|]. intros _. apply framed_still, still_ret.
Qed.
Lemma framed_exportDirectory walk limits w name descend : size name <= maxPathBytes → (∀ w n, framed (walk w n)) → framed (exportDirectory walk limits w name descend).
Proof.
  intros Hn Hwalk. unfold exportDirectory. apply framed_bind; [apply framed_still, still_attempt, still_safeInfo|]. intros [info|e]; [|apply framed_still, still_throw].
  apply framed_bind; [apply framed_still, still_guard|]. intros _. apply framed_bind; [by apply framed_announce|]. intros w1.
  destruct (negb descend || _); [apply framed_still, still_ret|]. apply framed_bind; [apply framed_still, still_readEntries|]. intros entries.
  generalize (mkWriter (gw_seen w1) ({[name]} ∪ gw_walked w1) (gw_total w1) (gw_files w1) (gw_dirs w1)). clear -Hwalk.
  induction entries as [|c entries IH]; intros w; cbn [exportEntries]; [apply framed_still, still_ret|]. apply framed_bind; [apply Hwalk|apply IH].
Qed.
Lemma framed_exportParents limits w name : size name <= maxPathBytes → framed (exportParents limits w (ancestors name)).
Proof.
  intros Hn. assert (Forall (λ p, size p <= maxPathBytes) (ancestors name)) as Hall.
  { clear -Hn. assert (∀ s, Forall (λ p, size p <= size s) (ancestors s)) as H; [|by eapply Forall_impl; [apply H|]; intros p Hp; cbn in *; lia].
    induction s as [|c s IH]; cbn [ancestors]; [done|]. apply Forall_app. split.
    - destruct (Ascii.eqb c "/"); [|done]. apply Forall_singleton. unfold size. cbn. lia.
    - apply Forall_map. eapply Forall_impl; [apply IH|]. intros p Hp. unfold size in *. cbn in *. lia. }
  revert w. induction Hall as [|p ps Hp _ IH]; intros w; cbn [exportParents]; [apply framed_still, still_ret|].
  apply framed_bind; [apply framed_exportDirectory; [done|intros; apply framed_still, still_ret]|apply IH].
Qed.
Lemma framed_exportChunks blocks file : ∀ position remaining, framed (exportChunks blocks file position remaining).
Proof.
  induction blocks as [|blocks IH]; intros position remaining; cbn [exportChunks]; (destruct (Z.leb_spec remaining 0); [apply framed_still, still_ret|]);
    [apply framed_still, still_throw|].
  apply framed_bind; [apply framed_still, still_gctxErr|]. intros _. cbv zeta. intros st Hb. unfold bind at 1, ask.
  destruct (gm_read (w_tick st) file position (Z.min copyBytes remaining)) as [chunk|e] eqn:Hr; [|by apply boundary_cut].
  apply reads_full in Hr. refine (framed_bind _ _ _ _ (tick st) Hb); [apply framed_frame; (done || lia)|]. intros _.
  apply framed_bind; [apply IH|]. intros rest. apply framed_still, still_ret.
Qed.
Lemma framed_exportFile limits w name info : size name <= maxPathBytes → gl_maxFile limits < 2 ^ 64 → framed (exportFile limits w name info).
Proof.
  intros Hn Hmax. unfold exportFile. apply framed_bind; [apply framed_still, still_lift|]. intros [w1 fresh]. destruct (negb fresh); [apply framed_still, still_ret|].
  intros st Hb. unfold bind at 1, guard at 1. destruct (_ || _ || _ || _) eqn:Hg; [by apply boundary_cut|].
  rewrite !orb_false_iff, Z.leb_gt, !Z.ltb_ge in Hg. destruct Hg as [[[_ Hg2] Hg3] _]. cbn [negb check]. revert st Hb.
  change (framed (guard (negb (fi_links info =? 1)) "export file has unsupported link count" ;;!
    let! file := ask (λ n, gm_open n name) in
    let! opened := attempt (ask (λ n, gm_fstat n file)) in
    guard (match opened with
           | Ok i => negb (SameFile info i) || negb (bool_decide (fi_kind i = KRegular)) || negb (fi_size i =? fi_size info)
           | Er _ => true end) "export file changed while opening" ;;!
    writeFrame recordFile name EmptyString (fi_size info) noDigest ;;!
    let! bytes := exportChunks (S (Z.to_nat (fi_size info / copyBytes))) file 0 (fi_size info) in
    let! final := attempt (ask (λ n, gm_fstat n file)) in
    guard (match final with Ok i => negb (SameFile info i) || negb (fi_size i =? fi_size info) | Er _ => true end)
          "export file changed during read" ;;!
    writeFrame recordFileEnd EmptyString EmptyString 0 (unhex (sha256 bytes)) ;;!
    ret (mkWriter (gw_seen w1) (gw_walked w1) (gw_total w1 + fi_size info) (gw_files w1 + 1) (gw_dirs w1)))).
  apply framed_bind; [apply framed_still, still_guard|]. intros _. apply framed_bind; [apply framed_still, still_ask|]. intros file.
  apply framed_bind; [apply framed_still, still_attempt, still_ask|]. intros op. apply framed_bind; [apply framed_still, still_guard|]. intros _.
  apply framed_bind; [apply framed_frame; (done || lia)|]. intros _. apply framed_bind; [apply framed_exportChunks|]. intros bytes.
  apply framed_bind; [apply framed_still, still_attempt, still_ask|]. intros fin. apply framed_bind; [apply framed_still, still_guard|]. intros _.
  apply framed_bind; [apply framed_frame; try done; apply (raw_digest bytes (digest_form bytes))|]. intros _. apply framed_still, still_ret.
Qed.
Lemma framed_exportPath fuel limits : gl_maxFile limits < 2 ^ 64 → ∀ w name, framed (exportPath fuel limits w name).
Proof.
  intros Hmax. induction fuel as [|fuel IH]; intros w name; cbn [exportPath]; [apply framed_still, still_throw|].
  intros st Hb. unfold bind at 1, guard at 1. destruct (validGuestExportPath name) eqn:Hv; [|by apply boundary_cut]. cbn [negb check].
  apply validPath_size in Hv as [_ Hv]. revert st Hb.
  change (framed (gctxErr ;;! let! w := exportParents limits w (ancestors name) in let! info := safeInfo name in
      match fi_kind info with
      | KDir => exportDirectory (exportPath fuel limits) limits w name true
      | KRegular => exportFile limits w name info
      | _ => throw (Errorf "unsupported export object type")
      end)).
  apply framed_bind; [apply framed_still, still_gctxErr|]. intros _. apply framed_bind; [by apply framed_exportParents|]. intros w1.
  apply framed_bind; [apply framed_still, still_safeInfo|]. intros info.
  destruct (fi_kind info); [by apply framed_exportDirectory|by apply framed_exportFile|apply framed_still, still_throw|apply framed_still, still_throw].
Qed.
Lemma body_cut selected limits st : w_host st = "" → cut (w_host (writeSelectedExportBody transaction selected limits st).2).
Proof.
  intros Ho. assert (cut "") as Hc by (by exists [], 0%nat). unfold writeSelectedExportBody. unfold bind at 1. pose proof (still_gctxErr st) as H1.
  destruct (gctxErr st) as [[u|e] s1]; cbn [snd] in *; [|cbn [snd]; by rewrite H1, Ho]. unfold bind at 1, guard at 1.
  destruct (_ || _ || _ || _ || _ || _ || _) eqn:Hg; [change (cut (w_host s1)); by rewrite H1, Ho|]. cbn [negb check]. unfold bind at 1, ask at 1.
  destruct (gm_root (w_tick s1)) as [u'|e]; [|cbn [snd tick w_host]; by rewrite H1, Ho].
  unfold bind at 1. destruct (appends_writeAll ("BWEX" +:+ put_be 2 1 +:+ transaction) (tick s1)) as [(n & Hn) Hok].
  destruct (writeAll ("BWEX" +:+ put_be 2 1 +:+ transaction) (tick s1)) as [[u2|e] s2]; cbn [fst snd is_ok tick w_host] in *; rewrite H1, Ho in *.
  2:{ exists [], n. split; [done|]. cbn [cat]. by rewrite str_app_nil. }
  assert (gl_maxFile limits < 2 ^ 64) as Hmax.
  { rewrite !orb_false_iff in Hg. destruct Hg as [[[[[[_ _] _] [_ Hg]] _] _] _]. apply Z.ltb_ge in Hg. unfold defaultGuestExportLimits in Hg. cbn in Hg. lia. }
  assert (framed (exportAll limits (mkWriter ∅ ∅ 0 0 0) selected)) as Hall.
  { generalize (mkWriter ∅ ∅ 0 0 0). clear Hg. induction selected as [|s selected IH]; intros w; cbn [exportAll]; [apply framed_still, still_ret|].
    apply framed_bind; [by apply framed_exportPath|apply IH]. }
  specialize (Hall s2). unfold bind at 1. destruct (exportAll limits (mkWriter ∅ ∅ 0 0 0) selected s2) as [[w|e] s3].
  - apply boundary_cut, Hall. exists []. split; [done|]. cbn [cat]. rewrite str_app_nil. by apply Hok.
  - apply Hall. exists []. split; [done|]. cbn [cat]. rewrite str_app_nil. by apply Hok.
Qed.
Lemma cut_not_stream o l : String.length transaction = 16%nat → typed_options o → op_max_chunk o <= copyBytes → admissible o l →
  ¬ cut (encode_stream (op_transaction o) l).
Proof.
  intros Ht typed Hmc Ha (fs & m & Hfs & He). destruct (items_inner o l typed Hmc Ha) as (gs & Hgs & Hc).
  assert (∀ t : string, String.length t = 16%nat → String.length (encode_header t) = 22%nat) as Hh by (intros t Hl; unfold encode_header; by rewrite !str_length_app, put_be_length, Hl).
  unfold encode_stream in He. apply (f_equal (str_drop 22)) in He. rewrite drop_take, !(drop_app_n 22) in He; [|by apply Hh|by apply Hh, typed].
  pose proof (total_nonneg l). pose proof (ft_total _ _ (am_fits _ _ Ha)). pose proof (to_total _ typed).
  pose proof (terminated_frames gs (total l) "" Hgs ltac:(lia)) as Hterm. rewrite str_app_nil, <-Hc in Hterm. unfold encode_terminal in He. rewrite He in Hterm.
  by rewrite terminated_inner in Hterm.
Qed.
End framing.

(** *** The walk ends *)
Section depth.
Context {E : Env} {G : GuestMount} {D : Digests} (limits : guestExportLimits).
Implicit Types st : world string.

Definition depth (name : string) : nat := length (split_slash "" name).
Lemma split_child a c : ∀ acc, split_slash acc (a +:+ "/" +:+ c) = split_slash acc a ++ split_slash "" c.
Proof.
  induction a as [|x a IH]; intros acc; [done|]. change (String x a +:+ "/" +:+ c) with (String x (a +:+ "/" +:+ c)). cbn [split_slash].
  destruct (Ascii.eqb x "/"); [|apply IH]. by rewrite IH.
Qed.
Lemma split_nonempty s : ∀ acc, (1 <= length (split_slash acc s))%nat.
Proof. induction s as [|x s IH]; intros acc; cbn [split_slash]; [done|]. destruct (Ascii.eqb x "/"); [cbn; lia|apply IH]. Qed.
Lemma depth_child a c : (depth a < depth (a +:+ "/" +:+ c))%nat.
Proof. unfold depth. rewrite split_child, length_app. pose proof (split_nonempty c ""). lia. Qed.
Lemma exportDirectory_ext walk walk' w name descend st : (∀ w c st, walk w (name +:+ "/" +:+ c) st = walk' w (name +:+ "/" +:+ c) st) →
  exportDirectory walk limits w name descend st = exportDirectory walk' limits w name descend st.
Proof.
  intros Hw. assert (∀ entries w st, exportEntries walk w name entries st = exportEntries walk' w name entries st) as He.
  { induction entries as [|c entries IH]; intros w1 s; [done|]. cbn [exportEntries]. unfold bind. rewrite Hw. destruct (walk' w1 _ s) as [[w2|e] s2]; [apply IH|done]. }
  unfold exportDirectory, bind. destruct (attempt (safeInfo name) st) as [[[info|e]|e] s1]; [|done|done].
  destruct (guard _ _ s1) as [[u|e] s2]; [|done]. destruct (announce limits w name s2) as [[w1|e] s3]; [|done].
  destruct (negb descend || _); [done|]. cbv zeta. destruct (readEntries limits name info s3) as [[entries|e] s4]; [|done]. apply He.
Qed.
Lemma exportPath_fuel fuel more : ∀ w name st, (1 <= fuel)%nat → (18 <= fuel + depth name)%nat →
  exportPath (fuel + more) limits w name st = exportPath fuel limits w name st.
Proof.
  induction fuel as [|fuel IH]; intros w name st H1 H2; [lia|]. cbn [Nat.add exportPath]. unfold bind at 1 4, guard at 1 2.
  destruct (validGuestExportPath name) eqn:Hv; [|done]. cbn [negb check]. assert (depth name <= 16)%nat as Hd.
  { unfold validGuestExportPath, validExportSelection in Hv. rewrite !andb_true_iff, !negb_true_iff, !Nat.ltb_ge in Hv. apply Hv. }
  unfold bind. destruct (gctxErr st) as [[u|e] s1]; [|done]. destruct (exportParents limits w (ancestors name) s1) as [[w1|e] s2]; [|done].
  destruct (safeInfo name s2) as [[info|e] s3]; [|done]. destruct (fi_kind info); try done. apply exportDirectory_ext.
  intros w2 c s4. pose proof (depth_child name c). apply IH; lia.
Qed.
Lemma exportChunks_blocks blocks : ∀ more file position remaining st, remaining <= Z.of_nat blocks * copyBytes →
  exportChunks (blocks + more) file position remaining st = exportChunks blocks file position remaining st.
Proof.
  induction blocks as [|blocks IH]; intros more file position remaining st H.
  { destruct more; [done|]. cbn [Nat.add exportChunks]. destruct (Z.leb_spec remaining 0); [done|lia]. }
  cbn [Nat.add exportChunks]. destruct (Z.leb_spec remaining 0); [done|]. unfold bind.
  destruct (gctxErr st) as [[[]|e] s1]; [|done]. cbv zeta. destruct (ask _ s1) as [[chunk|e] s2]; [|done].
  destruct (writeFrame _ _ _ _ _ s2) as [[[]|e] s3]; [|done]. rewrite IH; [done|]. unfold copyBytes in *. lia.
Qed.
End depth.

(** The limits of the sender lie within those of the receiver. *)
Record within (limits : guestExportLimits) (o : Options) : Prop := {
  wi_chunk : copyBytes <= op_max_chunk o;
  wi_file : gl_maxFile limits <= op_max_file o;
  wi_total : gl_maxTotal limits <= op_max_total o;
  wi_files : gl_maxFiles limits <= op_max_files o;
  wi_dirs : gl_maxDirectories limits <= op_max_dirs o;
}.

(** ** Properties *)

(** C24: End to end. When the inspector's run over a mounted tree succeeds,
    whatever failed on the way, its output is a stream that the host's
    receiver, on a machine where nothing fails, accepts; and the directory it
    publishes holds exactly the selected part of the mounted tree: the chosen
    files with their contents, everything inside the chosen directories, the
    directories above them, and nothing else. *)
Theorem export_end_to_end {Eg Eh : Env} {C : Calm Eh} {G : GuestMount} {P : ReceiverPlatform} {D : Digests}
    o limits t opened (st st' : world string) (w : world spool) :
  (∀ s, Session.lowerSHA256 (sha256 s) = true) → mounted t opened → within limits o →
  typed_options o → roomy o → validateOptions o = Ok tt → op_selected o ≠ [] →
  (∀ n, sp_entries (w_host w) !! (".incoming-" +:+ rp_random n) = None) → sp_entries (w_host w) !! hexEncode (op_transaction o) = None →
  w_host st = "" → @writeSelectedExport Eg G D (op_transaction o) (op_selected o) limits st = (Ok tt, st') → sp_input (w_host w) = w_host st' →
  ∃ path w' T, @ReceiveSelectedExport Eh P D o w = (Ok (path, None), w') ∧
    sp_entries (w_host w') = <[hexEncode (op_transaction o) := T]> (sp_entries (w_host w)) ∧
    ∀ n x, T !! n = Some x ↔ reaches (op_selected o) n ∧ ∃ y, t !! n = Some y ∧ exported y = Some x.
Proof.
  intros Hd Ht [Hw1 Hw2 Hw3 Hw4 Hw5] typed room Hv Hne Hfr Hf Ho Hrun Hin.
  apply (writeSelectedExport_ok Hd o limits t opened Ht Hw1 Hw2 Hw3 Hw4 Hw5 (proj1 (to_file _ typed)) st tt st' typed) in Hrun as (l & Ha & Hs & Hsel).
  rewrite Ho in Hs. rewrite Hs in Hin. destruct (yields_Receive o typed room l w Hv Hfr Hf Ha Hin) as (n & Hy).
  do 3 eexists. split_and!; [unfold ReceiveSelectedExport, bind, guard; destruct (op_selected o) as [|s sel]; [done|]; exact Hy|done|exact Hsel].
Qed.
(** Until the inspector writes the terminal record, which it does only
    once the file system is unmounted, nothing it has written can be published:
    however the run ended, and whatever the receiver's machine does, the
    receiver refuses the output. *)
Theorem unfinished_export_is_refused {Eg Eh : Env} {G : GuestMount} {P : ReceiverPlatform} {D : Digests}
    o transaction selected limits (st : world string) (w : world spool) path err w' :
  (∀ s, Session.lowerSHA256 (sha256 s) = true) → (∀ k file p len s, gm_read k file p len = Ok s → size s = len) →
  String.length transaction = 16%nat → typed_options o → w_host st = "" →
  sp_input (w_host w) = w_host (@writeSelectedExportBody Eg G D transaction selected limits st).2 →
  @ReceiveSelectedExport Eh P D o w ≠ (Ok (path, err), w').
Proof.
  intros Hd Hr Ht typed Ho Hin Hrun. apply ReceiveSelectedExport_ok in Hrun as [(_ & _ & e & ?)|[_ Hrun]]; [done|].
  assert (op_max_chunk o <= copyBytes) as Hmc.
  { unfold Receive in Hrun. apply bind_ok in Hrun as (? & w1 & [Hv _]%lift_ok & _). unfold validateOptions in Hv. res_inv Hv. apply check_ok in Ha.
    rewrite negb_true_iff, !orb_false_iff in Ha. destruct Ha as [[[[[[[[_ _] _] Ha] _] _] _] _] _]. by apply Z.ltb_ge in Ha. }
  apply (Receive_ok o typed) in Hrun as (_ & l & Ha & Hi & _). rewrite Hin in Hi.
  apply (cut_not_stream transaction o l Ht typed Hmc Ha). rewrite <-Hi. by apply body_cut.
Qed.
(** C25: The walk ends by itself: a path is at most sixteen names deep and a
    file is read in pieces of a mebibyte, so more fuel changes nothing. *)
Theorem inspector_walk_ends {Eg : Env} {G : GuestMount} limits w name file remaining (st : world string) `{Digests} more :
  exportPath (maxDepth + more) limits w name st = exportPath maxDepth limits w name st ∧
  exportChunks (S (Z.to_nat (remaining / copyBytes)) + more) file 0 remaining st = exportChunks (S (Z.to_nat (remaining / copyBytes))) file 0 remaining st.
Proof.
  split.
  - apply exportPath_fuel; [unfold maxDepth; lia|]. unfold maxDepth, depth. pose proof (split_nonempty name ""). lia.
  - apply exportChunks_blocks. unfold copyBytes. pose proof (Z.mul_succ_div_gt remaining (2 ^ 20) ltac:(lia)). 
    destruct (Z.le_gt_cases 0 remaining); [|lia]. rewrite Nat2Z.inj_succ, Z2Nat.id by (apply Z.div_pos; lia). lia.
Qed.

(** ** Evaluations *)

#[local] Existing Instance quietEnv.
#[local] Existing Instance ReceiverSafety.labDigests.
#[local] Existing Instance ReceiverSafety.labPlatform.
(** A mount with a directory of one file, and a file nobody chose. *)
Definition lab_mount : gmap string gnode :=
  {[ "docs"%string := GDir; "docs/a.txt"%string := GFile "hello world"; "secret"%string := GFile "s3cret" ]}.
Definition lab_opened (file : Z) : string :=
  if file =? 0 then "docs" else if file =? 1 then "docs/a.txt" else if file =? 2 then "secret" else ".".
Definition lab_info (name : string) : res fileinfo :=
  match lab_mount !! name with
  | Some GDir => Ok (mkInfo KDir 4096 2 2)
  | Some (GFile c) => Ok (mkInfo KRegular (size c) (size name) 1)
  | _ => fail "no such file or directory"
  end.
#[local] Instance labMount : GuestMount := {|
  gm_canceled _ := false;
  gm_root _ := Ok tt;
  gm_lstat _ name := lab_info name;
  gm_open _ name := if name =s "docs" then Ok 0 else if name =s "docs/a.txt" then Ok 1 else if name =s "secret" then Ok 2 else fail "no such file or directory";
  gm_fstat _ file := lab_info (lab_opened file);
  gm_readdir _ file _ := if file =? 0 then (["a.txt"%string], NoError) else ([], EOF);
  gm_read _ file position len :=
    match lab_mount !! lab_opened file with
    | Some (GFile c) => let s := str_take (Z.to_nat len) (str_drop (Z.to_nat position) c) in if size s =? len then Ok s else fail "unexpected EOF"
    | _ => fail "is a directory"
    end;
|}.
Lemma lab_entry name x : lab_mount !! name = Some x →
  (name, x) ∈ [("docs"%string, GDir); ("docs/a.txt"%string, GFile "hello world"); ("secret"%string, GFile "s3cret")].
Proof.
  unfold lab_mount. rewrite !lookup_insert_Some, lookup_singleton_Some. intros [[<- <-]|[_ [[<- <-]|[_ [<- <-]]]]]; set_solver.
Qed.
Lemma lab_mounted : mounted lab_mount lab_opened.
Proof.
  split.
  - intros a n [x Hx] Hb. apply lab_entry in Hx. apply below_dir in Hb as (p & Hp & Hb).
    apply elem_of_cons in Hx as [[= -> ->]|[[= -> ->]|[= -> ->]%list_elem_of_singleton]%elem_of_cons]; try done. injection Hp as <-.
    destruct Hb as [->|Hb]; [done|]. by apply below_dir in Hb as (q & Hq & _).
  - intros k name i H. change (lab_info name = Ok i) in H. unfold lab_info in H. destruct (lab_mount !! name) as [[|c|]|] eqn:Hn; try done; injection H as <-; split; try done. by exists c.
  - intros k name file H. cbn [gm_open labMount] in H. destruct (name =s "docs") eqn:H1; [injection H as <-; by apply eqs_true in H1|].
    destruct (name =s "docs/a.txt") eqn:H2; [injection H as <-; by apply eqs_true in H2|]. destruct (name =s "secret") eqn:H3; [injection H as <-; by apply eqs_true in H3|done].
  - intros k file position len s H. cbn [gm_read labMount] in H. destruct (lab_mount !! lab_opened file) as [[|c|]|] eqn:Hn; try done. cbv zeta in H.
    destruct (Z.eqb_spec (size (str_take (Z.to_nat len) (str_drop (Z.to_nat position) c))) len) as [He|]; [|done]. injection H as <-. split; [done|]. by intros c' [= <-].
  - intros k file most names err n H _ [x Hx] Hb. cbn [gm_readdir labMount] in H. apply lab_entry in Hx. apply below_dir in Hb as (p & Hp & Hb).
    apply elem_of_cons in Hx as [[= -> ->]|[[= -> ->]|[= -> ->]%list_elem_of_singleton]%elem_of_cons]; try done. injection Hp as <-.
    destruct Hb as [Hb|Hb]; [|by apply below_dir in Hb as (q & Hq & _)]. exists "a.txt"%string. rewrite Hb. split; [|by left].
    destruct (Z.eqb_spec file 0) as [->|Hne]; [injection H as <- _; set_solver|]. exfalso. unfold lab_opened in Hb.
    apply Z.eqb_neq in Hne as Hz. rewrite Hz in Hb. by destruct (file =? 1), (file =? 2).
Qed.
Definition mount_options : Options :=
  mkOptions "/srv/exports" (str_repeat "A" 16) ["docs"%string] (2 ^ 20) (256 * 2 ^ 20) (512 * 2 ^ 20) 8192 4096 (2 ^ 30).
Definition lab_guest : world string := worldOf ∅ EmptyString.
Definition lab_host (input : string) : world spool := worldOf ∅ (mkSpool input ∅).
Lemma mount_typed : typed_options mount_options.
Proof. by split. Qed.
Definition lab_output : world string := (writeSelectedExport (op_transaction mount_options) ["docs"%string] defaultGuestExportLimits lab_guest).2.
Lemma lab_run_guest : writeSelectedExport (op_transaction mount_options) ["docs"%string] defaultGuestExportLimits lab_guest = (Ok tt, lab_output).
Proof. unfold lab_output. refine (run_result (writeSelectedExport _ _ _ _) (Ok tt) _). vm_compute. reflexivity. Qed.
Lemma export_end_to_end_witness : ∃ path w' T, ReceiveSelectedExport mount_options (lab_host (w_host lab_output)) = (Ok (path, None), w') ∧
  sp_entries (w_host w') = <[hexEncode (op_transaction mount_options) := T]> ∅ ∧
  ∀ n x, T !! n = Some x ↔ reaches ["docs"%string] n ∧ ∃ y, lab_mount !! n = Some y ∧ exported y = Some x.
Proof.
  apply (export_end_to_end (Eg := quietEnv) mount_options defaultGuestExportLimits lab_mount lab_opened lab_guest lab_output (lab_host (w_host lab_output)));
    [reflexivity|apply lab_mounted|by split|apply mount_typed|by apply lab_roomy|reflexivity|discriminate|intros n; apply lookup_empty|apply lookup_empty|reflexivity| |reflexivity].
  exact lab_run_guest.
Defined.
Definition lab_unfinished : world spool :=
  lab_host (w_host (writeSelectedExportBody (op_transaction mount_options) ["docs"%string] defaultGuestExportLimits lab_guest).2).
Lemma unfinished_export_is_refused_witness : is_ok (ReceiveSelectedExport mount_options lab_unfinished).1 = false.
Proof.
  destruct (ReceiveSelectedExport mount_options lab_unfinished) as [[[path err]|e] w'] eqn:Hr; [exfalso; revert path err w' Hr|done].
  intros path err w'. apply (unfinished_export_is_refused (Eg := quietEnv) mount_options (op_transaction mount_options) ["docs"%string] defaultGuestExportLimits lab_guest);
    [reflexivity| |reflexivity|apply mount_typed|reflexivity|reflexivity]. intros k file p len s Hr. by apply (mt_read _ _ lab_mounted) in Hr as [? _].
Defined.
