(* ===== verification/WorkspaceStore.v ===== *)
(** The volume registry on disk: the guarded atomic save of
    src/internal/workspacex/store.go with its cross-record binding checks, the
    strict loader, the two lock constructors of locks.go, and the attachment
    listing of registry.go. *)
From S2P Require Import Prelude Ids Json SessionRecord Outside World Host Logic SessionStore WorkspaceRecord ExportJournal.

(** The [mutationKind] a caller declares. *)
Inductive mutationKind :=
| mutationGeneric | mutationAttach | mutationDetach | mutationReserveUse | mutationReleaseUse
| mutationPromoteVerified | mutationBeginExportSnapshot | mutationFinishExportSnapshot | mutationAbortExportSnapshot.
#[export] Instance mutationKind_eq_dec : EqDecision mutationKind.
Proof. solve_decision. Defined.

Definition maxRegistryEntries : nat := 4096.
Definition maxSessionAttachments : nat := 4.

Definition mountsOverlap (a b : string) : bool :=
  (a =s b) || has_prefix (b +:+ "/") a || has_prefix (a +:+ "/") b.

(** Both volumes are attached to one session with overlapping mounts. *)
Definition mount_conflict (existing next : Volume) : bool :=
  match vo_attachment next, vo_attachment existing with
  | Some n, Some e => (at_session_id e =s at_session_id n) && mountsOverlap (at_mount e) (at_mount n)
  | _, _ => false
  end.

(** The checks on the record being replaced that no mutation escapes, but for
    the exceptions named. *)
Definition checkIdentity (existing next : Volume) (mutation : mutationKind) : res unit :=
  check (negb ((vo_state existing =s VolCreating) && (vo_state next =s VolAvailable) &&
               bool_decide (mutation ≠ mutationPromoteVerified)))
        "available promotion requires qualified exclusive creation and ext4 verification" ;;?
  check (negb ((vo_state existing =s VolFailed) && (vo_state next ≠s VolFailed) ||
               (vo_state existing =s VolAvailable) && (vo_state next =s VolCreating)))
        "unsafe workspace state regression" ;;?
  check ((vo_size existing =? vo_size next) && (vo_format existing =s vo_format next) && (vo_uuid existing =s vo_uuid next))
        "workspace volume and filesystem identity is immutable" ;;?
  check (match vo_disk existing with Some d => bool_decide (vo_disk next = Some d) | None => true end)
        "workspace disk identity is immutable" ;;?
  check (negb (isSome (vo_pending existing) && bool_decide (vo_pending existing ≠ vo_pending next) &&
               bool_decide (mutation ≠ mutationFinishExportSnapshot) && bool_decide (mutation ≠ mutationAbortExportSnapshot)))
        "pending workspace operation requires explicit reconciliation".

Definition is_snapshot_pending (p : option Pending) : bool :=
  match p with Some p => pe_kind p =s ExportSnapshotKind | None => false end.
Definition is_exact_pending (id : string) (p : option Pending) : bool :=
  match p with Some p => (pe_kind p =s ExportSnapshotKind) && (pe_id p =s id) | None => false end.

(** The [switch mutation] of checkBindings, but for the export journal. *)
Definition checkMutation (existing next : Volume) (mutation : mutationKind) (expectedPendingID : string) : res unit :=
  match mutation with
  | mutationPromoteVerified =>
      check ((vo_state existing =s VolCreating) && (vo_state next =s VolAvailable) && isNone (vo_disk existing) &&
             isSome (vo_disk next) && isNone (vo_pending existing) && isNone (vo_pending next) &&
             isNone (vo_attachment existing) && isNone (vo_attachment next) && isNone (vo_use existing) && isNone (vo_use next))
            "invalid verified workspace promotion"
  | mutationGeneric =>
      check (bool_decide (vo_attachment existing = vo_attachment next) && bool_decide (vo_use existing = vo_use next))
            "attachment or use requires a dedicated observed transition" ;;?
      check (negb (isNone (vo_pending existing) && is_snapshot_pending (vo_pending next)))
            "export snapshot requires a dedicated stopped-volume transition"
  | mutationBeginExportSnapshot =>
      check ((vo_state existing =s VolAvailable) && isSome (vo_attachment existing) && isNone (vo_use existing) &&
             isNone (vo_pending existing) && is_snapshot_pending (vo_pending next) &&
             bool_decide (set_pending (vo_pending next) existing = next)) "invalid export snapshot reservation"
  | mutationFinishExportSnapshot =>
      check (is_exact_pending expectedPendingID (vo_pending existing) && isNone (vo_pending next) &&
             bool_decide (set_pending None existing = next)) "invalid export snapshot completion"
  | mutationAbortExportSnapshot =>
      check (is_exact_pending expectedPendingID (vo_pending existing) && isNone (vo_pending next) &&
             bool_decide (set_pending None existing = next)) "invalid export snapshot abort"
  | mutationAttach =>
      check (isNone (vo_attachment existing) && isSome (vo_attachment next) && isNone (vo_use existing) && isNone (vo_use next))
            "invalid attach transition"
  | mutationDetach =>
      check (isSome (vo_attachment existing) && isNone (vo_attachment next) && isNone (vo_use existing) && isNone (vo_use next))
            "invalid detach transition"
  | mutationReserveUse =>
      check (isNone (vo_use existing) && isSome (vo_use next) && isSome (vo_attachment existing) &&
             bool_decide (vo_attachment existing = vo_attachment next)) "invalid use-reservation transition"
  | mutationReleaseUse =>
      check (isSome (vo_use existing) && isNone (vo_use next) && bool_decide (vo_attachment existing = vo_attachment next))
            "invalid use-release transition"
  end.

(** The journal a completed or aborted snapshot must be backed by. *)
Definition export_backs (mutation : mutationKind) (existing : Volume) (j : ExportJournal) : bool :=
  match mutation with
  | mutationFinishExportSnapshot => (ej_phase j =s ExportSnapshotReady) && isSome (ej_snapshot j)
  | _ => (ej_phase j =s ExportAborted) && isNone (ej_snapshot j)
  end &&
  (ej_volume j =s vo_id existing) && bool_decide (vo_disk existing = Some (ej_source j)) &&
  match vo_attachment existing with
  | Some a => (ej_session_id j =s at_session_id a) && (ej_session_name j =s at_session_name a)
  | None => false
  end.

(** A record that no file holds yet. *)
Definition checkNew (next : Volume) (mutation : mutationKind) : res unit :=
  check (bool_decide (mutation = mutationGeneric) && (vo_state next =s VolCreating) && isNone (vo_attachment next) &&
         isNone (vo_use next) && isNone (vo_disk next)) "new workspace must start unbound in creating state".

Section store.
Context {B : Type} {E : Env}.

Definition loadFromRoot (expectedDomain volumeID : string) : M B Volume :=
  let! f := fs_read Workspaces (json_name volumeID) in
  lift (parseVolume expectedDomain volumeID f).

Definition LoadVolume (expectedDomain volumeID : string) : M B Volume :=
  guard (negb (Workspacex.validUUID volumeID)) "invalid volume ID" ;;!
  lift (Domain.Parse expectedDomain) ;;!
  loadFromRoot expectedDomain volumeID.

Definition checkExisting (expectedDomain : string) (existing next : Volume) (mutation : mutationKind)
    (expectedPendingID : string) : M B unit :=
  lift (checkIdentity existing next mutation) ;;!
  lift (checkMutation existing next mutation expectedPendingID) ;;!
  match mutation with
  | mutationFinishExportSnapshot | mutationAbortExportSnapshot =>
      let! journal := wrapv "export snapshot lacks exact durable journal" (loadExportJournal expectedDomain expectedPendingID) in
      guard (negb (export_backs mutation existing journal)) "export snapshot lacks exact durable journal"
  | _ => ret tt
  end.

Fixpoint checkEntries (expectedDomain : string) (next : Volume) (mutation : mutationKind) (expectedPendingID : string)
    (entries : list (string * entry)) (found : bool) : M B bool :=
  match entries with
  | [] => ret found
  | (name, _) :: rest =>
      match json_key name with
      | None => checkEntries expectedDomain next mutation expectedPendingID rest found
      | Some key =>
          guard (negb (Workspacex.validUUID key)) "invalid workspace record name" ;;!
          let! existing := wrap "inspect workspace record" (loadFromRoot expectedDomain key) in
          if vo_id existing =s vo_id next then
            checkExisting expectedDomain existing next mutation expectedPendingID ;;!
            checkEntries expectedDomain next mutation expectedPendingID rest true
          else
            guard (mount_conflict existing next) "guest mount path overlaps another workspace" ;;!
            checkEntries expectedDomain next mutation expectedPendingID rest found
      end
  end.

Definition checkBindings (expectedDomain : string) (next : Volume) (mutation : mutationKind) (expectedPendingID : string) : M B unit :=
  let! entries := fs_list Workspaces in
  let! found := checkEntries expectedDomain next mutation expectedPendingID entries false in
  if found then ret tt else lift (checkNew next mutation).

Definition saveRecordTransitionExpectedPending (expectedDomain : string) (record : Volume) (mutation : mutationKind)
    (expectedPendingID : string) : M B unit :=
  lift (validateVolume expectedDomain record) ;;!
  checkBindings expectedDomain record mutation expectedPendingID ;;!
  guard (maxRecordBytes <? file_size (volumeFile record))%N "workspace record exceeds 1 MiB" ;;!
  fs_replace Workspaces (json_name (vo_id record)) (volumeFile record).
Definition saveRecordTransition (expectedDomain : string) (record : Volume) (mutation : mutationKind) : M B unit :=
  saveRecordTransitionExpectedPending expectedDomain record mutation "".
Definition SaveVolume (expectedDomain : string) (record : Volume) : M B unit :=
  saveRecordTransition expectedDomain record mutationGeneric.

(** locks.go *)
Definition AcquireStorageOperation (domainID : string) : M B unit :=
  lift (Domain.Parse domainID) ;;! Acquire (Lock.storage_scope domainID).
Definition AcquireVolumeUse (domainID volumeID : string) : M B unit :=
  lift (Domain.Parse domainID) ;;!
  guard (negb (Workspacex.validUUID volumeID)) "invalid volume ID" ;;!
  Acquire (Lock.volume_scope domainID volumeID).

(** registry.go: one scan of the entries, keeping what is attached to the
    session, in scan order. *)
Fixpoint selectAttachments (domainID sessionID sessionName : string) (entries : list (string * entry))
    (selected : list Volume) : M B (list Volume) :=
  match entries with
  | [] => ret selected
  | (name, _) :: rest =>
      match json_key name with
      | None => selectAttachments domainID sessionID sessionName rest selected
      | Some volumeID =>
          guard (negb (Workspacex.validUUID volumeID)) "invalid workspace record name" ;;!
          let! record := wrap "read workspace" (loadFromRoot domainID volumeID) in
          match vo_attachment record with
          | None => selectAttachments domainID sessionID sessionName rest selected
          | Some binding =>
              guard (negb (eqb (at_session_id binding =s sessionID) (at_session_name binding =s sessionName)))
                    "workspace attachment has conflicting session identity" ;;!
              if at_session_id binding ≠s sessionID then selectAttachments domainID sessionID sessionName rest selected
              else
                guard (existsb (λ prior, vo_uuid prior =s vo_uuid record) selected)
                      "session has duplicate workspace filesystem UUID" ;;!
                guard (existsb (λ prior, match vo_attachment prior with
                                         | Some p => mountsOverlap (at_mount p) (at_mount binding)
                                         | None => false end) selected)
                      "session has overlapping workspace mounts" ;;!
                guard (maxSessionAttachments <? length (selected ++ [record]))%nat "session exceeds its workspace attachments" ;;!
                selectAttachments domainID sessionID sessionName rest (selected ++ [record])
          end
      end
  end.
Definition listSessionAttachments (domainID sessionID sessionName : string) : M B (list Volume) :=
  guard (negb (Workspacex.validUUID sessionID) || negb (Workspacex.validSessionName sessionName))
        "invalid session attachment binding" ;;!
  let! entries := fs_list Workspaces in
  guard (maxRegistryEntries <? length entries)%nat "workspace registry exceeds its bound" ;;!
  let! selected := selectAttachments domainID sessionID sessionName entries [] in
  ret (sort_by vo_id selected).

Definition ListSessionAttachments (domainID sessionID sessionName : string) : M B (list Volume) :=
  guard (negb (Workspacex.validUUID sessionID) || negb (Workspacex.validSessionName sessionName))
        "invalid session attachment binding" ;;!
  AcquireStorageOperation domainID ;;!
  deferred_ignore (Lock.storage_scope domainID) (listSessionAttachments domainID sessionID sessionName).
End store.

(** ** Lemmas *)

Lemma mountsOverlap_sym a b : mountsOverlap a b = mountsOverlap b a.
Proof. unfold mountsOverlap. rewrite String.eqb_sym. destruct (b =s a); cbn; [done|apply orb_comm]. Qed.
Lemma mount_conflict_sym v v' : mount_conflict v v' = mount_conflict v' v.
Proof.
  unfold mount_conflict. destruct (vo_attachment v), (vo_attachment v'); try done.
  by rewrite String.eqb_sym, mountsOverlap_sym.
Qed.

Section lemmas.
Context {B : Type} {E : Env}.
Implicit Types w : world B.

Lemma quiet_loadFromRoot dom id : quiet (loadFromRoot dom id : M B _).
Proof. unfold loadFromRoot. quiet_tac. Qed.
Lemma quiet_LoadVolume dom id : quiet (LoadVolume dom id : M B _).
Proof. unfold LoadVolume. quiet_tac; apply quiet_loadFromRoot. Qed.
Lemma quiet_checkExisting dom e v m p : quiet (checkExisting dom e v m p : M B _).
Proof. unfold checkExisting. quiet_tac; apply quiet_loadExportJournal. Qed.
Lemma quiet_checkEntries dom v m p entries found : quiet (checkEntries dom v m p entries found : M B _).
Proof.
  revert found. induction entries as [|[name kind] rest IH]; intros found; cbn [checkEntries]; quiet_tac; auto;
    first [apply quiet_loadFromRoot|apply quiet_checkExisting].
Qed.
Lemma quiet_checkBindings dom v m p : quiet (checkBindings dom v m p : M B _).
Proof. unfold checkBindings. quiet_tac; apply quiet_checkEntries. Qed.
Lemma quiet_selectAttachments dom sid name entries sel : quiet (selectAttachments dom sid name entries sel : M B _).
Proof.
  revert sel. induction entries as [|[n kind] rest IH]; intros sel; cbn [selectAttachments]; quiet_tac; auto;
    apply quiet_loadFromRoot.
Qed.
Lemma quiet_listSessionAttachments dom sid name : quiet (listSessionAttachments dom sid name : M B _).
Proof. unfold listSessionAttachments. quiet_tac; apply quiet_selectAttachments. Qed.

Lemma loadFromRoot_ok dom id w v w' : loadFromRoot dom id w = (Ok v, w') → volume_at dom id (w_disk w) = Some v.
Proof. unfold loadFromRoot. intros H. ok_inv. apply fs_read_ok in Ha as [Hf ->]. apply view_Some. eauto. Qed.
Lemma LoadVolume_ok dom id w v w' :
  LoadVolume dom id w = (Ok v, w') → volume_at dom id (w_disk w) = Some v ∧ w_disk w' = w_disk w.
Proof.
  intros H. destruct (quiet_LoadVolume dom id w) as (r & n & Hq). rewrite Hq in H. injection H as -> <-. split; [|done].
  unfold LoadVolume in Hq. ok_inv. by apply loadFromRoot_ok in Hq.
Qed.

(** A completed or aborted snapshot is backed by its durable journal. *)
Definition backed (dom : string) (mutation : mutationKind) (pending : string) (k : disk) (old : Volume) : Prop :=
  match mutation with
  | mutationFinishExportSnapshot | mutationAbortExportSnapshot =>
      ∃ j, export_at dom pending k = Some j ∧ export_backs mutation old j = true
  | _ => True
  end.
Lemma checkExisting_ok dom old next mutation pending w u w' :
  checkExisting dom old next mutation pending w = (Ok u, w') →
  checkIdentity old next mutation = Ok tt ∧ checkMutation old next mutation pending = Ok tt ∧ backed dom mutation pending (w_disk w) old.
Proof.
  unfold checkExisting. intros H. ok_inv. destruct a, a0. split; [done|]. split; [done|].
  destruct mutation; try done; cbn in *; ok_inv; apply loadExportJournal_ok in Ha1; apply negb_false_iff in H; eauto.
Qed.
(** What a completed scan of the registry found. *)
Definition entry_checked (dom : string) (next : Volume) (mutation : mutationKind) (pending : string) (k : disk) (id : string) : Prop :=
  ∃ v, volume_at dom id k = Some v ∧
    if vo_id v =s vo_id next
    then checkIdentity v next mutation = Ok tt ∧ checkMutation v next mutation pending = Ok tt ∧ backed dom mutation pending k v
    else mount_conflict v next = false.
Lemma checkEntries_ok dom next mutation pending entries found w b w' :
  checkEntries dom next mutation pending entries found w = (Ok b, w') →
  (∀ name e id, (name, e) ∈ entries → json_key name = Some id → entry_checked dom next mutation pending (w_disk w) id) ∧
  (b = true → found = true ∨ ∃ e, (json_name (vo_id next), e) ∈ entries).
Proof.
  revert found w. induction entries as [|[name kind] rest IH]; intros found w H; cbn [checkEntries] in H.
  { ok_inv. split; [|by left]. intros n e id Hin. by apply not_elem_of_nil in Hin. }
  destruct (json_key name) as [key|] eqn:Hkey.
  2:{ apply IH in H as [H1 H2]. split.
      - intros n e id [[= -> ->]|Hin]%elem_of_cons Hk; [congruence|eauto].
      - intros Hb. destruct (H2 Hb) as [|[e He]]; [by left|]. right. exists e. by apply elem_of_cons; right. }
  apply bind_ok in H as (? & w0 & [_ ->]%guard_ok & H). apply bind_ok in H as (v & w1 & Hv & H). apply wrap_ok in Hv.
  destruct (quiet_loadFromRoot dom key w) as (rv & n & Hq). rewrite Hq in Hv. injection Hv as -> <-.
  apply loadFromRoot_ok in Hq. pose proof (volume_at_ok _ _ _ _ Hq) as (Hid & _).
  apply json_key_ok in Hkey as ->.
  destruct (vo_id v =s vo_id next) eqn:Ei.
  - apply bind_ok in H as ([] & w2 & Hc & H). destruct (quiet_checkExisting dom v next mutation pending (retick n w)) as (y & m & Hq2).
    rewrite Hq2 in Hc. injection Hc as -> <-. apply IH in H as [H1 _]. cbn [w_disk retick] in *.
    apply checkExisting_ok in Hq2. split.
    + intros n' e id [[= -> ->]|Hin]%elem_of_cons Hk; [|eauto]. rewrite json_key_name in Hk. injection Hk as <-.
      exists v. by rewrite Ei.
    + intros _. right. exists kind. bsimpl. rewrite <-Ei, Hid. by apply elem_of_cons; left.
  - apply bind_ok in H as (? & w2 & [Hm ->]%guard_ok & H). apply IH in H as [H1 H2]. cbn [w_disk retick] in *. split.
    + intros n' e id [[= -> ->]|Hin]%elem_of_cons Hk; [|eauto]. rewrite json_key_name in Hk. injection Hk as <-.
      exists v. by rewrite Ei.
    + intros Hb. destruct (H2 Hb) as [|[e He]]; [by left|]. right. exists e. by apply elem_of_cons; right.
Qed.
Lemma checkBindings_ok dom next mutation pending w u w' :
  checkBindings dom next mutation pending w = (Ok u, w') →
  (∀ id e, w_disk w !! (Workspaces, json_name id) = Some e → entry_checked dom next mutation pending (w_disk w) id) ∧
  (w_disk w !! (Workspaces, json_name (vo_id next)) = None → checkNew next mutation = Ok tt).
Proof.
  unfold checkBindings. intros H. apply bind_ok in H as (entries & w1 & [-> ->]%fs_list_ok & H).
  apply bind_ok in H as (b & w2 & Hc & H). apply checkEntries_ok in Hc as [H1 H2]. cbn [w_disk tick] in *. split.
  - intros id e Hk. apply dir_entries_spec in Hk. eapply H1; [done|apply json_key_name].
  - intros Hk. destruct b.
    + destruct (H2 eq_refl) as [|[e He%dir_entries_spec]]; congruence.
    + apply lift_ok in H as [H _]. by destruct u.
Qed.
(** The volume is attached to this session; its uuid and mount do not collide
    with another's. *)
Definition attached_to (sid name : string) (v : Volume) : Prop :=
  ∃ a, vo_attachment v = Some a ∧ at_session_id a = sid ∧ at_session_name a = name.
Definition compatible (v v' : Volume) : Prop :=
  vo_uuid v ≠ vo_uuid v' ∧
  ∀ a a', vo_attachment v = Some a → vo_attachment v' = Some a' → mountsOverlap (at_mount a) (at_mount a') = false.
Lemma compatible_sym v v' : compatible v v' → compatible v' v.
Proof. intros [Hu Hm]. split; [done|]. intros a a' Ha Ha'. rewrite mountsOverlap_sym. eauto. Qed.

(** What a completed selection found: every record of the registry parses and
    names the session by both of its names or by neither. *)
Definition entry_selected (dom sid name : string) (k : disk) (l : list Volume) (id : string) : Prop :=
  ∃ v, volume_at dom id k = Some v ∧
    ∀ a, vo_attachment v = Some a → (at_session_id a = sid ↔ at_session_name a = name) ∧ (at_session_id a = sid → v ∈ l).
Definition selection_ok (l : list Volume) : Prop :=
  (length l ≤ maxSessionAttachments)%nat ∧ ∀ v v', v ∈ l → v' ∈ l → vo_id v ≠ vo_id v' → compatible v v'.

Lemma selection_snoc sel v a :
  selection_ok sel → vo_attachment v = Some a →
  existsb (λ prior, vo_uuid prior =s vo_uuid v) sel = false →
  existsb (λ prior, match vo_attachment prior with Some p => mountsOverlap (at_mount p) (at_mount a) | None => false end) sel = false →
  (maxSessionAttachments <? length (sel ++ [v]))%nat = false → selection_ok (sel ++ [v]).
Proof.
  intros [_ Hs] Ha Hu Hm Hl%Nat.ltb_ge. split; [done|].
  assert (∀ x, x ∈ sel → compatible x v) as Hc.
  { intros x Hx%list_elem_of_In. split.
    - intros Heq. apply not_true_iff_false in Hu. apply Hu, existsb_exists. exists x. rewrite Heq. split; [done|apply eqs_refl].
    - intros ax av Hax Hav. assert (av = a) as -> by congruence. apply not_true_iff_false. intros Ho.
      apply not_true_iff_false in Hm. apply Hm, existsb_exists. exists x. by rewrite Hax. }
  intros x y [Hx|Hx]%elem_of_app [Hy|Hy]%elem_of_app Hne;
    rewrite ?list_elem_of_singleton in *; subst; [by apply Hs|by apply Hc|by apply compatible_sym, Hc|done].
Qed.
Lemma selectAttachments_ok dom sid name entries sel w l w' :
  selectAttachments dom sid name entries sel w = (Ok l, w') →
  (∀ n e id, (n, e) ∈ entries → json_key n = Some id → entry_selected dom sid name (w_disk w) l id) ∧
  (selection_ok sel → selection_ok l) ∧
  ∃ new, l = sel ++ new ∧ (NoDup entries.*1 → NoDup (vo_id <$> new)) ∧
    ∀ v, v ∈ new → json_name (vo_id v) ∈ entries.*1 ∧ volume_at dom (vo_id v) (w_disk w) = Some v ∧ attached_to sid name v.
Proof.
  revert sel w. induction entries as [|[n kind] rest IH]; intros sel w H; cbn [selectAttachments] in H.
  { ok_inv. split; [intros ? ? ? Hin; by apply not_elem_of_nil in Hin|]. split; [done|].
    exists []. rewrite app_nil_r. split; [done|]. split; [constructor|]. intros v Hv. by apply not_elem_of_nil in Hv. }
  assert (∀ sel w1, w_disk w1 = w_disk w → selectAttachments dom sid name rest sel w1 = (Ok l, w') →
    (∀ key, json_key n = Some key → entry_selected dom sid name (w_disk w) l key) →
    (∀ n0 e id, (n0, e) ∈ (n, kind) :: rest → json_key n0 = Some id → entry_selected dom sid name (w_disk w) l id) ∧
    (selection_ok sel → selection_ok l) ∧
    ∃ new, l = sel ++ new ∧ (NoDup ((n, kind) :: rest).*1 → NoDup (vo_id <$> new)) ∧
      ∀ v, v ∈ new → json_name (vo_id v) ∈ rest.*1 ∧ volume_at dom (vo_id v) (w_disk w) = Some v ∧ attached_to sid name v) as Hskip.
  { intros sel0 w1 Hd H1 Hn. apply IH in H1 as (H1 & H2 & new & -> & H3 & H4). rewrite Hd in *. split; [|split; [done|]].
    - intros n0 e id [[= -> ->]|Hin]%elem_of_cons Hk; eauto.
    - exists new. split; [done|]. split; [intros [_ ?]%NoDup_cons; auto|]. done. }
  destruct (json_key n) as [key|] eqn:Hkey.
  2:{ apply Hskip in H as (H1 & H2 & new & Hl & H3 & H4); [|done|done]. split; [done|]. split; [done|]. exists new.
      split; [done|]. split; [done|]. intros v Hv. destruct (H4 v Hv) as (?&?&?). split; [|done]. by apply elem_of_cons; right. }
  apply bind_ok in H as (? & w0 & [_ ->]%guard_ok & H). apply bind_ok in H as (v & w1 & Hv & H). apply wrap_ok in Hv.
  destruct (quiet_loadFromRoot dom key w) as (rv & m & Hq). rewrite Hq in Hv. injection Hv as -> <-.
  apply loadFromRoot_ok in Hq. pose proof (volume_at_ok _ _ _ _ Hq) as (Hid & _). apply json_key_ok in Hkey as ->.
  destruct (vo_attachment v) as [a|] eqn:Ha.
  2:{ apply Hskip in H as (H1 & H2 & new & Hl & H3 & H4); [|done|].
      - split; [done|]. split; [done|]. exists new.
        split; [done|]. split; [done|]. intros v' Hv. destruct (H4 v' Hv) as (?&?&?). split; [|done]. by apply elem_of_cons; right.
      - intros k0 [= <-]. exists v. split; [done|]. intros a Ha'. congruence. }
  apply bind_ok in H as (? & w0 & [Hb ->]%guard_ok & H). apply negb_false_iff, eqb_prop in Hb.
  destruct (at_session_id a =s sid) eqn:Es; cbn [negb] in H.
  2:{ apply Hskip in H as (H1 & H2 & new & Hl & H3 & H4); [|done|].
      - split; [done|]. split; [done|]. exists new.
        split; [done|]. split; [done|]. intros v' Hv. destruct (H4 v' Hv) as (?&?&?). split; [|done]. by apply elem_of_cons; right.
      - intros k0 [= <-]. exists v. split; [done|]. intros a0 Ha'. assert (a0 = a) as -> by congruence. symmetry in Hb. bsimpl. done. }
  symmetry in Hb. bsimpl.
  apply bind_ok in H as (? & w0 & [Hu ->]%guard_ok & H). apply bind_ok in H as (? & w0 & [Hm ->]%guard_ok & H).
  apply bind_ok in H as (? & w0 & [Hl4 ->]%guard_ok & H).
  assert (v ∈ l) as Hvl by (pose proof H as H0; apply IH in H0 as (_ & _ & new0 & -> & _); set_solver).
  apply Hskip in H as (H1 & H2 & new & Hl & H3 & H4); [|done|].
  - split; [done|]. split; [intros Hs; eapply H2, selection_snoc; eauto|]. exists (v :: new).
    split; [by rewrite Hl, <-app_assoc|]. split.
    + intros Hnd. cbn. apply NoDup_cons. split; [|by apply H3]. intros (v' & Hk & Hin)%list_elem_of_fmap_1.
      destruct (H4 v' Hin) as [Hr _]. cbn in Hnd. apply NoDup_cons in Hnd as [Hnd _]. apply Hnd. by rewrite <-Hid, Hk.
    + intros v' [->|Hv]%elem_of_cons.
      * rewrite Hid. split; [by apply elem_of_cons; left|]. split; [done|]. by exists a.
      * destruct (H4 v' Hv) as (?&?&?). split; [|done]. by apply elem_of_cons; right.
  - intros k0 [= <-]. exists v. split; [done|]. intros a0 Ha'. assert (a0 = a) as -> by congruence. done.
Qed.

(** The attached set, exactly: sorted, without repetition, and within every
    bound. *)
Record attachments (dom sid name : string) (k : disk) (l : list Volume) : Prop := {
  ats_in : ∀ v, v ∈ l → volume_at dom (vo_id v) k = Some v ∧ attached_to sid name v;
  ats_all : ∀ id v a, volume_at dom id k = Some v → vo_attachment v = Some a → at_session_id a = sid ∨ at_session_name a = name → v ∈ l;
  ats_parse : ∀ id e, k !! (Workspaces, json_name id) = Some e → isSome (volume_at dom id k) = true;
  ats_nodup : NoDup (vo_id <$> l);
  ats_sorted : StronglySorted (key_le vo_id) l;
  ats_selection : selection_ok l;
}.
Lemma listSessionAttachments_ok dom sid name w l w' :
  listSessionAttachments dom sid name w = (Ok l, w') → attachments dom sid name (w_disk w) l ∧ w_disk w' = w_disk w.
Proof.
  intros H. destruct (quiet_listSessionAttachments dom sid name w) as (r & n & Hq). rewrite Hq in H. injection H as -> <-.
  split; [|done]. unfold listSessionAttachments in Hq.
  apply bind_ok in Hq as (? & w0 & [_ ->]%guard_ok & Hq). apply bind_ok in Hq as (es & w1 & [-> ->]%fs_list_ok & Hq).
  apply bind_ok in Hq as (? & w0 & [_ ->]%guard_ok & Hq). apply bind_ok in Hq as (sel & w1 & Hs & Hq).
  apply ret_ok in Hq as [-> _]. apply selectAttachments_ok in Hs as (H1 & H2 & new & Hl & H3 & H4). cbn [app] in Hl. subst new.
  cbn [w_disk tick] in *. pose proof (sort_by_perm vo_id sel) as Hp. constructor.
  - intros v Hv. rewrite Hp in Hv. by apply H4.
  - intros id v a Hv Ha Hs. apply view_Some in Hv as Hf. destruct Hf as (f & Hf%dir_entries_spec & _).
    destruct (H1 _ _ _ Hf (json_key_name id)) as (v' & Hv' & Hsel). rewrite Hv in Hv'. injection Hv' as <-.
    destruct (Hsel a Ha) as [Hiff Hin]. rewrite Hp. naive_solver.
  - intros id e Hk%dir_entries_spec. destruct (H1 _ _ _ Hk (json_key_name id)) as (v' & -> & _). done.
  - rewrite Hp. apply H3, dir_entries_nodup.
  - apply sort_by_sorted.
  - assert (selection_ok sel) as [Hlen Hc].
    { apply H2. split; [cbn; lia|]. intros v v' Hv. by apply not_elem_of_nil in Hv. }
    split; [by rewrite Hp|]. intros v v'. rewrite Hp. apply Hc.
Qed.
(** *** The guarded save *)
Definition volume_event (v : Volume) : event := EvPublish Workspaces (json_name (vo_id v)) (volumeFile v).
Definition volume_disk (v : Volume) (k : disk) : disk := <[(Workspaces, json_name (vo_id v)) := EFile (volumeFile v)]> k.

(** What the save has established about the registry when it writes. *)
Record admitted (dom : string) (next : Volume) (mutation : mutationKind) (pending : string) (k : disk) : Prop := {
  ad_valid : volume_ok dom next;
  ad_old : ∀ e, k !! (Workspaces, json_name (vo_id next)) = Some e → ∃ old, volume_at dom (vo_id next) k = Some old ∧
    checkIdentity old next mutation = Ok tt ∧ checkMutation old next mutation pending = Ok tt;
  ad_new : k !! (Workspaces, json_name (vo_id next)) = None → checkNew next mutation = Ok tt;
  ad_mounts : ∀ id v, volume_at dom id k = Some v → id ≠ vo_id next → mount_conflict v next = false;
  ad_backed : ∀ old, volume_at dom (vo_id next) k = Some old → backed dom mutation pending k old;
}.
Lemma checkBindings_admits dom next mutation pending w u w' :
  volume_ok dom next → checkBindings dom next mutation pending w = (Ok u, w') → admitted dom next mutation pending (w_disk w).
Proof.
  intros Hv [H1 H2]%checkBindings_ok. constructor; [done| |done| |].
  - intros e He. destruct (H1 _ _ He) as (old & Ho & Hc). exists old. split; [done|].
    apply volume_at_ok in Ho as (Hid & _). rewrite Hid, eqs_refl in Hc. by destruct Hc as (? & ? & _).
  - intros id v Hat Hne. apply view_Some in Hat as Hf. destruct Hf as (f & Hf & _).
    destruct (H1 _ _ Hf) as (v' & Hv' & Hc). rewrite Hat in Hv'. injection Hv' as <-.
    apply volume_at_ok in Hat as (Hid & _). rewrite Hid in Hc. apply eqs_false in Hne. by rewrite Hne in Hc.
  - intros old Hat. apply view_Some in Hat as Hf. destruct Hf as (f & Hf & _).
    destruct (H1 _ _ Hf) as (v' & Hv' & Hc). rewrite Hat in Hv'. injection Hv' as <-.
    apply volume_at_ok in Hat as (Hid & _). rewrite Hid, eqs_refl in Hc. by destruct Hc as (_ & _ & ?).
Qed.
Lemma wp_saveTransitionPending P dom next mutation pending (Q : res unit → world B → Prop) w :
  (admitted dom next mutation pending (w_disk w) →
     P (w_trace w) (Step (volume_event next) (w_disk w) (volume_disk next (w_disk w)) (w_locks w)) ∧
     ∀ r n, Q r (did (volume_event next) (volume_disk next (w_disk w)) (retick n w))) →
  (∀ e n, Q (Er e) (retick n w)) →
  wp P (saveRecordTransitionExpectedPending dom next mutation pending) Q w.
Proof.
  intros H1 H2. unfold saveRecordTransitionExpectedPending. apply wp_bind, wp_lift.
  destruct (validateVolume dom next) as [u|e] eqn:Ev; [|rewrite (retick_self w); apply H2].
  apply validateVolume_ok in Ev. apply wp_bind, wp_quiet; [apply quiet_checkBindings|]. intros [u'|e] n Hc; [|apply H2].
  apply checkBindings_admits in Hc; [|done]. destruct (H1 Hc) as [HP HQ].
  apply wp_bind, wp_guard; [intros _|intros _; apply H2].
  apply wp_fs_replace; [done|auto|]. intros e _. apply H2.
Qed.
Lemma wp_saveTransition P dom next mutation (Q : res unit → world B → Prop) w :
  (admitted dom next mutation "" (w_disk w) →
     P (w_trace w) (Step (volume_event next) (w_disk w) (volume_disk next (w_disk w)) (w_locks w)) ∧
     ∀ r n, Q r (did (volume_event next) (volume_disk next (w_disk w)) (retick n w))) →
  (∀ e n, Q (Er e) (retick n w)) →
  wp P (saveRecordTransition dom next mutation) Q w.
Proof. apply wp_saveTransitionPending. Qed.
End lemmas.
#[export] Hint Resolve quiet_loadFromRoot quiet_LoadVolume quiet_checkBindings quiet_listSessionAttachments : quiet.

(** ** Steps on one volume, as the batches promise them *)

(** The step writes [f v] over exactly the volume [v] that its file held before,
    under that volume's own lock. *)
Record rewrites (dom : string) (f : Volume → Volume) (v : Volume) (s : step) : Prop := {
  rw_event : st_event s = volume_event (f v);
  rw_before : volume_at dom (vo_id v) (st_before s) = Some v;
  rw_after : st_disk s = volume_disk (f v) (st_before s);
  rw_lock : Lock.volume_scope dom (vo_id v) ∈ st_locks s;
}.
(** The locks of a batch, beside those of its volumes. *)
Definition batch_held (dom name : string) (locks : list string) : Prop :=
  Lock.storage_scope dom ∈ locks ∧ Lock.session_scope dom name ∈ locks.
(** The use is the session's own: of its backend object, and of its exact
    generation while it is stopping. *)
Definition own_use (expected : SessionRecord) (u : Use) : Prop :=
  us_kind u = br_kind (sr_backend expected) ∧ us_object u = br_object_id (sr_backend expected) ∧
  (sr_state expected = StateStopping → us_generation u = sr_generation expected).
(** A volume attached to the session on disk, whose backend object was just
    observed stopped, gets a use of that object while the session is stopped, or
    gives up the session's own use when it is stopping or stopped; nothing else
    of the volume changes. *)
Definition use_step (dom name : string) (o : list step) (s : step) : Prop :=
  batch_held dom name (st_locks s) ∧
  ∃ r v u, session_at dom name (st_before s) = Some r ∧ recently (observed_stopped (br_object_id (sr_backend r))) o ∧
    attached_to (sr_id r) name v ∧ rewrites dom (set_use u) v s ∧
    (sr_state r = StateStopped ∧ vo_use v = None ∧
       (∃ generation, u = Some (mkUse (br_kind (sr_backend r)) (br_object_id (sr_backend r)) generation)) ∨
     sr_state r ∈ [StateStopping; StateStopped] ∧ u = None ∧ ∃ use, vo_use v = Some use ∧ own_use r use).
(** A volume of the deleting session on disk, whose backend object was just
    observed absent, loses its attachment while nothing uses it, and nothing else. *)
Definition detach_step (dom name : string) (o : list step) (s : step) : Prop :=
  batch_held dom name (st_locks s) ∧
  ∃ r v, session_at dom name (st_before s) = Some r ∧ sr_state r = StateDeleting ∧
    recently (observed_absent (br_object_id (sr_backend r))) o ∧
    attached_to (sr_id r) name v ∧ vo_use v = None ∧ vo_pending v = None ∧ rewrites dom (set_attachment None) v s.

(** *** Locks *)
Section locks.
Context {B : Type} {E : Env}.
Implicit Types (w : world B) (P : stepP).
Lemma wp_AcquireStorage P dom (Q : res unit → world B → Prop) w :
  lock_free P → (∀ w', took (Lock.storage_scope dom) w w' → Q (Ok tt) w') → (∀ e n, Q (Er e) (retick n w)) →
  wp P (AcquireStorageOperation dom) Q w.
Proof.
  intros HP H1 H2. unfold AcquireStorageOperation. apply wp_bind, wp_lift.
  destruct (Domain.Parse dom); [by apply wp_Acquire_took|rewrite (retick_self w); apply H2].
Qed.
Lemma wp_AcquireVolumeUse P dom id (Q : res unit → world B → Prop) w :
  lock_free P → (∀ w', took (Lock.volume_scope dom id) w w' → Q (Ok tt) w') → (∀ e n, Q (Er e) (retick n w)) →
  wp P (AcquireVolumeUse dom id) Q w.
Proof.
  intros HP H1 H2. unfold AcquireVolumeUse. apply wp_bind, wp_lift.
  destruct (Domain.Parse dom); [|rewrite (retick_self w); apply H2].
  wp_guard as _ by (rewrite (retick_self w); apply H2). by apply wp_Acquire_took.
Qed.
(** The listing under its own storage lock writes nothing; what it says of
    the files is not promised once the lock is given up. *)
Lemma wp_ListSessionAttachments P dom sid name (Q : res (list Volume) → world B → Prop) w :
  lock_free P → (∀ r w', w_locks w' = w_locks w → w_host w' = w_host w → left_alone (w_disk w) (w_disk w') → Q r w') →
  wp P (ListSessionAttachments dom sid name) Q w.
Proof.
  intros HP HQ. unfold ListSessionAttachments. wp_guard as _ by (by apply HQ).
  apply wp_bind, wp_AcquireStorage; [done| |intros; by apply HQ]. intros w1 Htk.
  pose proof (took_left_alone _ _ _ Htk) as Hk. destruct Htk as [Hf Hl Hh _ _].
  apply (wp_leaves _ _ (w_locks w) (λ _ k h, h = w_host w ∧ left_alone (w_disk w) k)).
  - apply wp_deferred_leaves; [done|by intros r r2 d h|done|].
    apply wp_quiet; [apply quiet_listSessionAttachments|]. intros r n _. by split.
  - intros r w' Hl' [Hh' Hk']. by apply HQ.
Qed.
End locks.

(** *** How a record may evolve *)

(** No two volumes of the registry claim overlapping mounts of one session. *)
Definition registry_ok (dom : string) (k : disk) : Prop :=
  ∀ id id' v v', volume_at dom id k = Some v → volume_at dom id' k = Some v' → id ≠ id' → mount_conflict v v' = false.
Lemma registry_preserved dom next mutation pending k :
  admitted dom next mutation pending k → volume_ints next = true → registry_ok dom k → registry_ok dom (volume_disk next k).
Proof.
  intros [Hv _ _ Hm _] Hi Hr id id' v v' H1 H2 Hne. unfold volume_disk in *.
  assert (∀ i, vo_id next ≠ i → volume_at dom i (<[(Workspaces, json_name (vo_id next)):=EFile (volumeFile next)]> k) = volume_at dom i k) as Hother
    by (intros i Hi'; by apply (volume_at_written_ne dom)).
  destruct (decide (id = vo_id next)) as [->|Ha], (decide (id' = vo_id next)) as [->|Hb]; try done;
    repeat match goal with H : volume_at dom (vo_id next) _ = Some _ |- _ => rewrite (volume_at_written _ _ _ Hv Hi) in H; injection H as <- end;
    rewrite ?Hother in * by congruence; eauto.
  rewrite mount_conflict_sym. eauto.
Qed.

(** A record replaces another without losing what it stands for. *)
Record evolution (dom pending : string) (k : disk) (old next : Volume) (mutation : mutationKind) : Prop := {
  ev_identity : vo_size next = vo_size old ∧ vo_format next = vo_format old ∧ vo_uuid next = vo_uuid old;
  ev_disk : ∀ d, vo_disk old = Some d → vo_disk next = Some d;
  ev_failed : vo_state old = VolFailed → vo_state next = VolFailed;
  ev_available : vo_state old = VolAvailable → vo_state next ≠ VolCreating;
  ev_promoted : vo_state old = VolCreating → vo_state next = VolAvailable → mutation = mutationPromoteVerified;
  ev_use : vo_use old ≠ vo_use next →
    mutation = mutationReserveUse ∧ vo_use old = None ∧ vo_attachment next = vo_attachment old ∨
    mutation = mutationReleaseUse ∧ vo_use next = None ∧ vo_attachment next = vo_attachment old;
  ev_attachment : vo_attachment old ≠ vo_attachment next →
    mutation = mutationAttach ∧ vo_attachment old = None ∧ vo_use old = None ∨
    mutation = mutationDetach ∧ vo_attachment next = None ∧ vo_use old = None;
  ev_pending : isSome (vo_pending old) = true → vo_pending old ≠ vo_pending next →
    mutation = mutationFinishExportSnapshot ∨ mutation = mutationAbortExportSnapshot;
  ev_export : mutation = mutationFinishExportSnapshot ∨ mutation = mutationAbortExportSnapshot →
    is_exact_pending pending (vo_pending old) = true ∧ next = set_pending None old ∧
    ∃ j, export_at dom pending k = Some j ∧ export_backs mutation old j = true;
}.
Lemma isNone_eq {A} (o : option A) : isNone o = true ↔ o = None.
Proof. by destruct o. Qed.
Lemma checks_evolution dom k old next mutation pending :
  checkIdentity old next mutation = Ok tt → checkMutation old next mutation pending = Ok tt → backed dom mutation pending k old →
  evolution dom pending k old next mutation.
Proof.
  intros Hid Hm Hb.
  assert (mutation = mutationFinishExportSnapshot ∨ mutation = mutationAbortExportSnapshot → is_exact_pending pending (vo_pending old) = true ∧
    next = set_pending None old ∧ ∃ j, export_at dom pending k = Some j ∧ export_backs mutation old j = true) as Hexport.
  { intros [->| ->]; unfold checkMutation in Hm; rewrite check_ok, !andb_true_iff, bool_decide_eq_true in Hm; by destruct Hm as [[? _] <-]. }
  clear Hb. revert Hid Hm. unfold checkIdentity. rewrite !check_then_ok, check_ok, !andb_true_iff, !negb_true_iff, orb_false_iff, !andb_false_iff,
    !bool_decide_eq_false, !String.eqb_neq, Z.eqb_eq, !String.eqb_eq, !negb_false_iff, !String.eqb_eq.
  intros (Hprom & [Hfail Havail] & [[Hsz Hfm] Huu] & Hdk & Hpe) Hm.
  assert ((vo_use old = vo_use next ∨ vo_use old ≠ vo_use next ∧
     (mutation = mutationReserveUse ∧ vo_use old = None ∧ vo_attachment next = vo_attachment old ∨
      mutation = mutationReleaseUse ∧ vo_use next = None ∧ vo_attachment next = vo_attachment old)) ∧
    (vo_attachment old = vo_attachment next ∨
      mutation = mutationAttach ∧ vo_attachment old = None ∧ vo_use old = None ∨
      mutation = mutationDetach ∧ vo_attachment next = None ∧ vo_use old = None)) as [Hu Ha].
  { unfold checkMutation in Hm.
    destruct mutation; rewrite ?check_then_ok, ?check_ok, ?andb_true_iff, ?bool_decide_eq_true, ?isNone_eq in Hm;
      try (destruct Hm as [_ Heq]; rewrite <-Heq; by split; left);
      (destruct (decide (vo_use old = vo_use next)); [split; [by left|]|split; [right; split; [done|]|]]);
      destruct_and?; first [by left; congruence|by auto 6|congruence]. }
  constructor.
  - done.
  - intros d Hd. rewrite Hd in Hdk. by apply bool_decide_eq_true in Hdk.
  - intros Hs. destruct Hfail; congruence.
  - intros Hs. destruct Havail; congruence.
  - intros Hs Hn. destruct Hprom as [[|]|Hp]; [congruence|congruence|by apply dec_stable].
  - naive_solver.
  - naive_solver.
  - intros Hs Hne. destruct mutation; auto; exfalso; destruct Hpe as [[[Hp|Hp]|Hp]|Hp]; try congruence; apply Hp; congruence.
  - done.
Qed.

(** ** Properties *)

(** C36: a save of a volume record, whatever the declared mutation and the
    expected pending operation ([saveRecordTransition] expects none, the end of an
    export snapshot names its own) and whatever fails, either changes nothing and
    reports an error or replaces that
    one record; a record is only created unbound in the creating state; a
    replaced record evolves safely: its filesystem identity, size and disk never
    change, a failed volume stays failed, only a verified promotion makes it
    available, and its use, attachment and pending operation change only through
    the dedicated transitions; an export snapshot is finished or aborted only when
    it is exactly the expected pending operation, with the export journal of that
    name on disk backing just that outcome for just that volume, and nothing else
    of the record changes; and a registry in which no two volumes of one
    session claim overlapping mounts stays so. *)
Theorem save_volume_guarded `{E : Env} {B} (dom : string) (next : Volume) (mutation : mutationKind) (pending : string) (w : world B) :
  let r := (saveRecordTransitionExpectedPending dom next mutation pending w).1 in
  let w' := (saveRecordTransitionExpectedPending dom next mutation pending w).2 in
  volume_ints next = true →
  (w_disk w' = w_disk w ∧ is_ok r = false ∨
   w_disk w' = volume_disk next (w_disk w) ∧ volume_at dom (vo_id next) (w_disk w') = Some next ∧
   match w_disk w !! (Workspaces, json_name (vo_id next)) with
   | Some _ => ∃ old, volume_at dom (vo_id next) (w_disk w) = Some old ∧ evolution dom pending (w_disk w) old next mutation
   | None => mutation = mutationGeneric ∧ vo_state next = VolCreating ∧ vo_disk next = None ∧ vo_attachment next = None ∧ vo_use next = None
   end) ∧
  (registry_ok dom (w_disk w) → registry_ok dom (w_disk w')).
Proof.
  intros r w' Hi. subst r w'. pose proof (wp_saveTransitionPending (λ _ _, True) dom next mutation pending (λ r w',
    w_disk w' = w_disk w ∧ is_ok r = false ∨ w_disk w' = volume_disk next (w_disk w) ∧ admitted dom next mutation pending (w_disk w)) w) as H.
  unfold wp in H. destruct (saveRecordTransitionExpectedPending dom next mutation pending w) as [r w']. cbn [fst snd].
  destruct H as [[[Hd Hr]|[Hd Ha]] _].
  - intros Ha. split; [done|]. intros r0 n. by right.
  - intros e n. by left.
  - rewrite Hd. split; [by left|done].
  - rewrite Hd. split; [|by apply (registry_preserved dom next mutation pending)]. right. pose proof Ha as [Hv Hold Hnew _ Hback].
    split; [done|]. split; [by apply volume_at_written|].
    destruct (w_disk w !! _) as [e|].
    + destruct (Hold e eq_refl) as (old & Ho & Hc & Hm). exists old. split; [done|]. eapply checks_evolution; eauto.
    + specialize (Hnew eq_refl). unfold checkNew in Hnew. rewrite check_ok in Hnew. bsimpl.
      by destruct (vo_attachment next), (vo_use next), (vo_disk next).
Qed.
Section save_witness.
#[local] Existing Instance quietEnv.
Definition oneVolume : world unit := worldOf {[ (Workspaces, json_name (vo_id example_volume)) := EFile (volumeFile example_volume) ]} tt.
Definition example_used : Volume := set_use (Some (mkUse "tart" "vm-1" "99999999-9999-4999-8999-999999999999")) example_volume.
(** The volume while its export snapshot is pending, and the journal that backs
    its end. *)
Definition example_pending_id : string := "22222222-bbbb-4ccc-8ddd-eeeeeeeeeeee".
Definition example_pending : Volume := set_pending (Some (mkPending ExportSnapshotKind example_pending_id)) example_volume.
Definition example_ready : ExportJournal :=
  mkExportJournal 1 example_pending_id "work" (vo_id example_volume) "01234567-89ab-4def-8123-456789abcdef" "dev" "vm-1"
    (vo_uuid example_volume) (vo_size example_volume) (mkDisk 16777220 18446744073709551615)
    (path_join "exports" [example_pending_id; "snapshot.raw"%string]) "/home/me/out" (mkDisk 1 2) ["src"%string] ExportSnapshotReady
    (Some (mkExportSnapshot (mkDisk 1 3) "0a0a0a0a0a0a0a0a0a0a0a0a0a0a0a0a0a0a0a0a0a0a0a0a0a0a0a0a0a0a0a0a")).
Definition pendingVolume : world unit :=
  worldOf {[ (Workspaces, json_name (vo_id example_volume)) := EFile (volumeFile example_pending);
             (Exports, json_name example_pending_id) := EFile (exportFile example_ready) ]} tt.
#[local] Abbreviation finish pending := (saveRecordTransitionExpectedPending "work" example_volume mutationFinishExportSnapshot pending pendingVolume).
Lemma save_volume_guarded_witness :
  volume_ints example_used = true ∧
  (saveRecordTransition "work" example_used mutationReserveUse oneVolume).1 = Ok tt ∧
  is_ok (saveRecordTransition "work" example_used mutationGeneric oneVolume).1 = false ∧
  ((finish example_pending_id).1 = Ok tt ∧ is_ok (finish "").1 = false ∧
   (registry_ok "work" (w_disk pendingVolume) → registry_ok "work" (w_disk (finish example_pending_id).2))) ∧
  (registry_ok "work" (w_disk oneVolume) →
   registry_ok "work" (w_disk (saveRecordTransition "work" example_used mutationReserveUse oneVolume).2)).
Proof.
  split; [reflexivity|]. split; [vm_compute; reflexivity|]. split; [vm_compute; reflexivity|]. split.
  { split; [vm_compute; reflexivity|]. split; [vm_compute; reflexivity|].
    exact (proj2 (save_volume_guarded "work" example_volume mutationFinishExportSnapshot example_pending_id pendingVolume eq_refl)). }
  exact (proj2 (save_volume_guarded "work" example_used mutationReserveUse "" oneVolume eq_refl)).
Defined.
End save_witness.

(** A successful listing of a session's attachments is exactly the set
    of volumes on disk that name the session, each once, in ascending order of
    volume ID, at most four, with distinct filesystems and disjoint mounts; it
    reads every record of the registry, so a corrupt record or one that names
    the session by only one of its two names makes it fail; and no other list
    has these properties. *)
Theorem attachment_listing_exact `{E : Env} {B} (dom sid name : string) (w w' : world B) (l : list Volume) :
  listSessionAttachments dom sid name w = (Ok l, w') →
  attachments dom sid name (w_disk w) l ∧ w_disk w' = w_disk w ∧
  (∀ id v, volume_at dom id (w_disk w) = Some v → v ∈ l ↔ attached_to sid name v) ∧
  (∀ l', attachments dom sid name (w_disk w) l' → l' = l).
Proof.
  intros [Ha Hd]%listSessionAttachments_ok. split; [done|]. split; [done|]. split.
  - intros id v Hv. pose proof (volume_at_ok _ _ _ _ Hv) as (Hid & _). split.
    + intros Hin. by destruct (ats_in _ _ _ _ _ Ha v Hin).
    + intros (a & Hat & Hs & _). eapply (ats_all _ _ _ _ _ Ha); eauto.
  - intros l' Ha'. assert (∀ v, v ∈ l' ↔ v ∈ l) as Hiff.
    { intros v. split; intros Hin; [destruct (ats_in _ _ _ _ _ Ha' v Hin) as [Hv (a & Hat & Hs & _)]|
                                    destruct (ats_in _ _ _ _ _ Ha v Hin) as [Hv (a & Hat & Hs & _)]];
        eapply ats_all; eauto. }
    apply (StronglySorted_unique_strong (key_le vo_id)).
    + intros x y Hx Hy H1 H2. pose proof (str_le_antisymm _ _ H1 H2) as Hid.
      destruct (ats_in _ _ _ _ _ Ha' x Hx) as [Hvx _], (ats_in _ _ _ _ _ Ha y Hy) as [Hvy _]. congruence.
    + by apply ats_sorted in Ha'.
    + by apply ats_sorted in Ha.
    + apply NoDup_Permutation; [..|done]; eapply (NoDup_fmap_1 vo_id), ats_nodup; eassumption.
Qed.
Section listing_witness.
#[local] Existing Instance quietEnv.
Lemma attachment_listing_exact_witness :
  attachments "work" "01234567-89ab-4def-8123-456789abcdef" "dev" (w_disk oneVolume) [example_volume].
Proof.
  refine (proj1 (attachment_listing_exact "work" "01234567-89ab-4def-8123-456789abcdef" "dev" oneVolume
    (listSessionAttachments "work" "01234567-89ab-4def-8123-456789abcdef" "dev" oneVolume).2 [example_volume] _)).
  vm_compute. reflexivity.
Defined.
End listing_witness.
