(* ===== verification/WorkspaceTransition.v ===== *)
(** The single-volume transitions of src/internal/workspacex: attach, detach,
    use reservation and release (transition.go), promotion after verified
    formatting (promotion.go), managed creation (create_managed.go) and legacy
    reconciliation (reconcile_legacy.go). A boolean [observer] says whether
    the caller passed a backend observer. *)
From S2P Require Import Prelude Ids Json SessionRecord Outside World Host Logic SessionStore RebuildJournal WorkspaceRecord ExportJournal WorkspaceStore.

Section transitions.
Context {B : Type} {H : Host B} {E : Env}.

(** ** transition.go *)

Definition observedStopped (observer : bool) (objectID : string) : M B unit :=
  guard (negb observer) "backend observer is required" ;;!
  let! observation := wrap "observe exact backend object" (Observe objectID) in
  guard ((ob_object observation ≠s objectID) || negb (ob_exists observation) || (ob_state observation ≠s ObjectStopped))
        "backend object is not observed stopped".

Definition stoppedSession (observer : bool) (domainID name : string) : M B SessionRecord :=
  let! record := LoadRecord domainID name in
  guard ((sr_state record ≠s StateStopped) || (br_kind (sr_backend record) ≠s "tart")) "session is not durably stopped" ;;!
  RequireNoRebuild domainID name ;;!
  observedStopped observer (br_object_id (sr_backend record)) ;;!
  ret record.

Definition Attach (observer : bool) (domainID volumeID sessionName mountPath : string) : M B Volume :=
  guard (negb (Workspacex.validUUID volumeID) || negb (Workspacex.validSessionName sessionName) ||
         negb (Workspacex.validMountPath mountPath)) "invalid attach request" ;;!
  AcquireSession domainID sessionName ;;!
  deferred_ignore (Lock.session_scope domainID sessionName) (
  AcquireStorageOperation domainID ;;!
  deferred_ignore (Lock.storage_scope domainID) (
  let! record := LoadVolume domainID volumeID in
  guard ((vo_state record ≠s VolAvailable) || isSome (vo_attachment record) || isSome (vo_use record) || isSome (vo_pending record))
        "workspace is not unattached and available" ;;!
  let! target := stoppedSession observer domainID sessionName in
  let! attached := wrap "inspect session workspace attachments" (listSessionAttachments domainID (sr_id target) sessionName) in
  guard (maxSessionAttachments <=? length attached)%nat "session already has its workspace attachments" ;;!
  guard (existsb (λ prior, vo_uuid prior =s vo_uuid record) attached) "session already attaches this filesystem UUID" ;;!
  let record := set_attachment (Some (mkAttachment (sr_id target) sessionName mountPath)) record in
  saveRecordTransition domainID record mutationAttach ;;!
  ret record)).

Definition Detach (observer : bool) (domainID volumeID sessionName : string) : M B Volume :=
  guard (negb (Workspacex.validUUID volumeID) || negb (Workspacex.validSessionName sessionName)) "invalid detach request" ;;!
  AcquireSession domainID sessionName ;;!
  deferred_ignore (Lock.session_scope domainID sessionName) (
  AcquireStorageOperation domainID ;;!
  deferred_ignore (Lock.storage_scope domainID) (
  let! record := LoadVolume domainID volumeID in
  match vo_attachment record with
  | None => throw (Errorf "workspace is not safely detachable")
  | Some binding =>
      guard ((vo_state record ≠s VolAvailable) || (at_session_name binding ≠s sessionName) || isSome (vo_use record) ||
             isSome (vo_pending record)) "workspace is not safely detachable" ;;!
      let! target := stoppedSession observer domainID sessionName in
      guard (sr_id target ≠s at_session_id binding) "session identity changed before detach" ;;!
      let record := set_attachment None record in
      saveRecordTransition domainID record mutationDetach ;;!
      ret record
  end)).

Definition ReserveUse (observer : bool) (domainID volumeID : string) (requested : Use) : M B Volume :=
  guard (negb (Workspacex.validUUID volumeID) || (us_kind requested ≠s "tart") ||
         negb (Workspacex.validObjectID (us_object requested)) || negb (Workspacex.validUUID (us_generation requested)))
        "invalid workspace use request" ;;!
  let! initial := LoadVolume domainID volumeID in
  match vo_attachment initial with
  | None => throw (Errorf "workspace is not attached")
  | Some binding =>
      AcquireSession domainID (at_session_name binding) ;;!
      deferred_ignore (Lock.session_scope domainID (at_session_name binding)) (
      AcquireStorageOperation domainID ;;!
      deferred_ignore (Lock.storage_scope domainID) (
      let! record := LoadVolume domainID volumeID in
      guard ((vo_state record ≠s VolAvailable) || bool_decide (vo_attachment record ≠ Some binding) ||
             isSome (vo_use record) || isSome (vo_pending record)) "workspace attachment is not available for exact use" ;;!
      let! target := stoppedSession observer domainID (at_session_name binding) in
      guard ((sr_id target ≠s at_session_id binding) || (br_object_id (sr_backend target) ≠s us_object requested))
            "workspace use does not match stopped sandbox identity" ;;!
      let record := set_use (Some requested) record in
      saveRecordTransition domainID record mutationReserveUse ;;!
      ret record))
  end.

Definition ReleaseUseAfterObservedStop (observer : bool) (domainID volumeID : string) (expected : Use) : M B Volume :=
  guard (negb (Workspacex.validUUID volumeID)) "invalid volume ID" ;;!
  let! initial := LoadVolume domainID volumeID in
  match vo_attachment initial with
  | None => throw (Errorf "workspace is not attached")
  | Some binding =>
      AcquireVolumeUse domainID volumeID ;;!
      deferred_ignore (Lock.volume_scope domainID volumeID) (
      AcquireSession domainID (at_session_name binding) ;;!
      deferred_ignore (Lock.session_scope domainID (at_session_name binding)) (
      AcquireStorageOperation domainID ;;!
      deferred_ignore (Lock.storage_scope domainID) (
      let! record := LoadVolume domainID volumeID in
      match vo_attachment record with
      | None => throw (Errorf "workspace use reservation changed")
      | Some current =>
          guard ((at_session_name current ≠s at_session_name binding) || (at_session_id current ≠s at_session_id binding) ||
                 bool_decide (vo_use record ≠ Some expected) || isSome (vo_pending record)) "workspace use reservation changed" ;;!
          guard (us_kind expected ≠s "tart") "unsupported backend use" ;;!
          let! sessionRecord := wrap "reload workspace-owning session" (LoadRecord domainID (at_session_name current)) in
          guard ((sr_id sessionRecord ≠s at_session_id current) || (br_kind (sr_backend sessionRecord) ≠s us_kind expected) ||
                 (br_object_id (sr_backend sessionRecord) ≠s us_object expected) ||
                 ((sr_state sessionRecord ≠s StateStopped) && (sr_state sessionRecord ≠s StateStopping)) ||
                 ((sr_state sessionRecord =s StateStopping) && (sr_generation sessionRecord ≠s us_generation expected)))
                "session is not stopping or stopped for exact workspace use" ;;!
          observedStopped observer (us_object expected) ;;!
          let record := set_use None record in
          saveRecordTransition domainID record mutationReleaseUse ;;!
          ret record
      end)))
  end.

(** ** promotion.go *)

Definition volumeRequest (domainID : string) (v : Volume) : FormatRequest :=
  mkFormatRequest domainID (vo_id v) (vo_uuid v) (vo_size v).
Definition CloseDisk : M B unit := host_ask host_CloseDisk.

(** The tests' [hook] and [syncAvailable] arguments are nil in the program. *)
Definition promoteVerified (domainID volumeID : string) : M B Volume :=
  guard (negb (Workspacex.validUUID volumeID)) "invalid volume ID" ;;!
  AcquireStorageOperation domainID ;;!
  deferred_ignore (Lock.storage_scope domainID) (
  let! record := LoadVolume domainID volumeID in
  guard (((vo_state record ≠s VolCreating) && (vo_state record ≠s VolAvailable)) || isSome (vo_attachment record) ||
         isSome (vo_use record) || isSome (vo_pending record)) "workspace is not an unbound creatable volume" ;;!
  let! qualified := wrap "admit verified formatter journal and disk"
                      (Admit (mkFormatRequest domainID volumeID (vo_uuid record) (vo_size record))) in
  wrap "close admitted workspace disk" CloseDisk ;;!
  guard ((ql_domain qualified ≠s vo_domain record) || (ql_volume qualified ≠s volumeID) || (ql_uuid qualified ≠s vo_uuid record) ||
         negb (ql_size qualified =? vo_size record) || (ql_device qualified =? 0) || (ql_inode qualified =? 0))
        "formatter qualification does not match workspace record" ;;!
  let verifiedDisk := mkDisk (ql_device qualified) (ql_inode qualified) in
  if vo_state record =s VolAvailable then
    guard (bool_decide (vo_disk record ≠ Some verifiedDisk)) "available workspace disk differs from formatter qualification" ;;!
    wrap "sync previously published workspace record" (fs_sync Workspaces) ;;!
    ret record
  else
    guard (isSome (vo_disk record)) "creating workspace already claims a disk" ;;!
    let record := set_disk (Some verifiedDisk) (set_vstate VolAvailable record) in
    wrap "persist verified workspace" (saveRecordTransition domainID record mutationPromoteVerified) ;;!
    ret record).
Definition PromoteVerified := promoteVerified.

(** ** create_managed.go *)

Definition matchManagedRecord (record : Volume) (request : FormatRequest) : res unit :=
  check ((vo_domain record =s fr_domain request) && (vo_id record =s fr_volume request) && (vo_size record =? fr_size request) &&
         (vo_uuid record =s fr_uuid request) && (vo_format record =s FormatRawExt4))
        "workspace creation request differs from existing volume identity" ;;?
  check (((vo_state record =s VolCreating) || (vo_state record =s VolAvailable)) && isNone (vo_attachment record) &&
         isNone (vo_use record) && isNone (vo_pending record)) "existing workspace is not an unbound creatable volume".

(** [held.Release()] is explicit here; its error takes precedence over the
    load's. *)
Definition loadManagedRecord (request : FormatRequest) : M B (option Volume) :=
  AcquireStorageOperation (fr_domain request) ;;!
  let! loaded := attempt (LoadVolume (fr_domain request) (fr_volume request)) in
  wrap "release workspace inspection lock" (Release (Lock.storage_scope (fr_domain request))) ;;!
  match loaded with
  | Er e => if err_not_exist e then ret None else throw e
  | Ok record => lift (matchManagedRecord record request) ;;! ret (Some record)
  end.

Definition creatingVolume (request : FormatRequest) : Volume :=
  mkVolume workspaceRecordVersion (fr_domain request) (fr_volume request) (fr_size request) FormatRawExt4 (fr_uuid request)
    VolCreating None None None None.

Definition CreateManaged (formatter : bool) (request : FormatRequest) : M B Volume :=
  let creating := creatingVolume request in
  lift (validateVolume (fr_domain request) creating) ;;!
  guard (negb formatter) "workspace formatter is required" ;;!
  host_ask (host_CheckCreationStorage request) ;;!
  let! existing := loadManagedRecord request in
  match existing with
  | Some _ => PromoteVerified (fr_domain request) (fr_volume request)
  | None =>
      let! admitted := attempt (Admit request) in
      match admitted with
      | Ok _ => CloseDisk
      | Er _ =>
          wrap "admit workspace formatter" (host_ask host_FormatterCheck) ;;!
          wrap "format workspace" (host_ask (host_FormatCreate request))
      end ;;!
      AcquireStorageOperation (fr_domain request) ;;!
      let! storage := attempt (host_ask (host_CheckCreationStorage request)) in
      match storage with
      | Er e => throw_join e (Release (Lock.storage_scope (fr_domain request)))
      | Ok _ =>
          let! loaded := attempt (LoadVolume (fr_domain request) (fr_volume request)) in
          let! published := attempt
            (match loaded with
             | Er e => if err_not_exist e then SaveVolume (fr_domain request) creating else throw e
             | Ok record => lift (matchManagedRecord record request)
             end) in
          let! released := attempt (Release (Lock.storage_scope (fr_domain request))) in
          wrap "publish creating workspace record" (lift published) ;;!
          wrap "release workspace creation lock" (lift released) ;;!
          PromoteVerified (fr_domain request) (fr_volume request)
      end
  end.

(** ** reconcile_legacy.go: [storage] stands for the enrolled storage
    declaration, [storage_ok] for its own validation and its agreement with
    the state root. *)
Definition legacy_matches (journal : FormatJournal) (record : Volume) : bool :=
  (fj_version journal =? 1) && (fj_state journal =s "verified") &&
  (fj_domain journal =s vo_domain record) && (fj_volume journal =s vo_id record) && (fj_uuid journal =s vo_uuid record) &&
  (fj_size journal =? vo_size record) &&
  match fj_identity journal, vo_disk record with
  | Some (device, inode), Some d => (device =? di_device d) && (inode =? di_inode d)
  | _, _ => false
  end.
Definition reconcileLegacyLocked (observer : bool) (domainID volumeID : string) (storage : nat) (initial : Volume) : M B Volume :=
  AcquireStorageOperation domainID ;;!
  deferred_join (Lock.storage_scope domainID) (
  wrap "recheck workspace backing storage under locks" (host_ask (host_CheckStorage storage)) ;;!
  let! record := LoadVolume domainID volumeID in
  guard (bool_decide (initial ≠ record) || (vo_state record ≠s VolAvailable) || isNone (vo_disk record) ||
         isSome (vo_use record) || isSome (vo_pending record)) "workspace is changed or has unresolved use or operation" ;;!
  match vo_attachment record with
  | None => ret tt
  | Some binding =>
      let! owner := wrap "prove attached backend stopped" (stoppedSession observer domainID (at_session_name binding)) in
      guard (sr_id owner ≠s at_session_id binding) "workspace attachment differs from exact stopped session"
  end ;;!
  let request := mkFormatRequest domainID volumeID (vo_uuid record) (vo_size record) in
  let! journal := wrap "read exact legacy formatter receipt" (host_ask (host_ReadFormatJournal request)) in
  guard (negb (legacy_matches journal record)) "available workspace record differs from exact verified v1 receipt" ;;!
  wrap "bind legacy workspace proof" (host_ask (host_BindLegacy request storage)) ;;!
  ret record).
Definition ReconcileLegacy (observer : bool) (domainID volumeID : string) (storage : nat) (storage_ok : bool) : M B Volume :=
  guard (negb (Workspacex.validUUID volumeID) || negb storage_ok) "invalid exact legacy reconciliation request" ;;!
  wrap "admit workspace backing storage" (host_ask (host_CheckStorage storage)) ;;!
  let! initial := LoadVolume domainID volumeID in
  AcquireVolumeUse domainID volumeID ;;!
  deferred_join (Lock.volume_scope domainID volumeID) (
  match vo_attachment initial with
  | None => reconcileLegacyLocked observer domainID volumeID storage initial
  | Some binding =>
      AcquireSession domainID (at_session_name binding) ;;!
      deferred_join (Lock.session_scope domainID (at_session_name binding))
        (reconcileLegacyLocked observer domainID volumeID storage initial)
  end).
End transitions.

(** ** Lemmas *)

Section lemmas.
Context {B : Type} {H : Host B} {E : Env}.
Implicit Types (w : world B) (P : stepP).

Lemma wp_observedStopped P observer objectID (Q : res unit → world B → Prop) w :
  (∀ r, P (w_trace w) (Step (EvObserve objectID r) (w_disk w) (w_disk w) (w_locks w))) →
  (∀ s b, observed_stopped objectID s → Q (Ok tt) (World (w_disk w) b (w_locks w) (s :: w_trace w) (w_tick w))) →
  (∀ e w', w_disk w' = w_disk w → w_locks w' = w_locks w → Q (Er e) w') →
  wp P (observedStopped observer objectID) Q w.
Proof.
  intros HP H1 H2. unfold observedStopped. wp_guard as _ by (by apply H2).
  apply wp_bind, wp_wrap, wp_host_call. intros [ob|e] b _; (split; [apply HP|]); [|by apply H2].
  apply wp_guard; [|intros _; by apply H2]. intros Hg. rewrite !orb_false_iff, !negb_false_iff, !String.eqb_eq in Hg.
  destruct Hg as [[Ho He] Hs]. apply H1. exists ob. split_and!; [done|done|]. unfold exists_stopped. by rewrite He, Hs.
Qed.
Lemma wp_Admit P request (Q : res Qualification → world B → Prop) w :
  (∀ r w', same w w' → Q r w') → wp P (Admit request) Q w.
Proof. intros HQ. apply wp_host_ask. destruct (host_Admit request (w_host w)) as [r b]. by apply HQ. Qed.
Lemma wp_CloseDisk P (Q : res unit → world B → Prop) w : (∀ r w', same w w' → Q r w') → wp P CloseDisk Q w.
Proof. intros HQ. apply wp_host_ask. destruct (host_CloseDisk (w_host w)) as [r b]. by apply HQ. Qed.
End lemmas.
