(* ===== verification/DiskReserve.v ===== *)
(** Host disk space: the guard that keeps a reserve on the host's file systems
    while an operation runs (src/internal/diskreserve/guard.go), and the
    headroom an export asks for before it copies or receives anything
    (checkExportHeadroom of src/internal/workspacex/export_copy.go,
    exportReceiverReserve of export_publish.go). Sizes are unsigned 64-bit
    integers, with the wrap-around of every product and sum written out. *)
From S2P Require Import Prelude Ids Json Outside World Logic JsonText ExportJournal Receiver.

(** ** Arithmetic *)

(** The fields of [syscall.Statfs_t] that are read. *)
Record Statfs := mkStatfs { sf_bsize : Z; sf_blocks : Z; sf_bavail : Z }.
(** As wide as the system call's fields. *)
Record typed_statfs (s : Statfs) : Prop := {
  ts_bsize : - 2 ^ 63 <= sf_bsize s < 2 ^ 63;
  ts_blocks : 0 <= sf_blocks s < 2 ^ 64;
  ts_bavail : 0 <= sf_bavail s < 2 ^ 64;
}.
Definition maxUint64 : Z := 2 ^ 64 - 1.
Definition twentyGiB : Z := 20 * 2 ^ 30.
Definition samplingMargin : Z := 2 ^ 30.
Definition exportMargin : Z := 3 * 2 ^ 30.
(** A tenth of the capacity, at least twenty GiB. *)
Definition reserveFloor (capacity : Z) : Z :=
  let floor := capacity / 10 in if floor <? twentyGiB then twentyGiB else floor.

Definition checkValues (capacity free : Z) : res unit :=
  check (negb ((capacity =? 0) || (capacity <? free))) "invalid host filesystem capacity" ;;?
  check (negb (free <=? (reserveFloor capacity + samplingMargin) mod 2 ^ 64)) "free space is at or below reserve plus stopping margin".
Definition checkDirectory (stat : Statfs) : res unit :=
  check (negb (sf_bsize stat <=? 0)) "invalid host filesystem block size" ;;?
  check (negb ((maxUint64 / sf_bsize stat <? sf_blocks stat) || (maxUint64 / sf_bsize stat <? sf_bavail stat)))
        "host filesystem capacity overflow" ;;?
  checkValues ((sf_blocks stat * sf_bsize stat) mod 2 ^ 64) ((sf_bavail stat * sf_bsize stat) mod 2 ^ 64).
Definition exportHeadroom (stat : Statfs) : res unit :=
  check (negb ((sf_bsize stat <=? 0) || (maxUint64 / sf_bsize stat <? sf_blocks stat) || (maxUint64 / sf_bsize stat <? sf_bavail stat)))
        "invalid export filesystem capacity" ;;?
  let capacity := (sf_blocks stat * sf_bsize stat) mod 2 ^ 64 in
  let free := (sf_bavail stat * sf_bsize stat) mod 2 ^ 64 in
  check (negb (free <=? (reserveFloor capacity + exportMargin) mod 2 ^ 64)) "insufficient host headroom for bounded export".
Definition receiverReserve (stat : Statfs) : res Z :=
  check (negb ((sf_bsize stat <=? 0) || (maxUint64 / sf_bsize stat <? sf_blocks stat))) "invalid export destination capacity" ;;?
  let capacity := (sf_blocks stat * sf_bsize stat) mod 2 ^ 64 in
  Ok ((reserveFloor capacity + 2 ^ 30) mod 2 ^ 64).

(** ** The guard *)

(** What the operating system answers about a directory: whether it opens,
    and its free space; the context; and, for the goroutine that samples while
    an operation runs, the answers its checks got until the operation ended. *)
Class ReservePlatform := {
  rv_open : nat → string → res unit;
  rv_statfs : nat → string → res Statfs;
  rv_canceled : nat → bool;
  rv_samples : nat → list (string → res Statfs);
}.
(** [errors.Join] *)
Definition join_errors (l : list (option error)) : option error :=
  foldr (λ e rest, match e, rest with
                   | Some e, Some e2 => Some (join_err e e2)
                   | Some e, None => Some e
                   | None, _ => rest end) None l.
Definition error_of {A} (r : res A) : option error := match r with Ok _ => None | Er e => Some e end.

Section guard.
Context {B : Type} {E : Env} {R : ReservePlatform}.

Definition guardedErr : M B unit := let! c := ask (λ n, Ok (rv_canceled n)) in guard c "context canceled".
Fixpoint openDirectories (directories : list string) : M B unit :=
  match directories with
  | [] => ret tt
  | path :: rest => wrap "open disk reserve directory" (ask (λ n, rv_open n path)) ;;! openDirectories rest
  end.
Fixpoint checkDirectories (directories : list string) : M B unit :=
  match directories with
  | [] => ret tt
  | path :: rest =>
      wrap "host disk reserve" (let! stat := ask (λ n, rv_statfs n path) in lift (checkDirectory stat)) ;;!
      checkDirectories rest
  end.
(** One tick of the monitor, and all of them: it ends at the first failure,
    which also cancels the context the operation was given. *)
Fixpoint sampleDirectories (sample : string → res Statfs) (directories : list string) : res unit :=
  match directories with
  | [] => Ok tt
  | path :: rest => (let? stat := sample path in checkDirectory stat) ;;? sampleDirectories sample rest
  end.
Fixpoint monitor (samples : list (string → res Statfs)) (directories : list string) : res unit :=
  match samples with
  | [] => Ok tt
  | sample :: later =>
      match sampleDirectories sample directories with
      | Ok _ => monitor later directories
      | Er e => Er (wrapw "host disk reserve during operation" e)
      end
  end.
(** The operation asks its own context whether it is cancelled; what the
    monitor does to it is one of the answers it may get. Its result stays
    assigned to the caller's variable when a check fails later. *)
Definition runWithChecker {A} (directories : list string) (operation : M B A) : M B (option A * option error) :=
  let! admitted := attempt (guardedErr ;;! wrap "host disk reserve before operation" (checkDirectories directories)) in
  match admitted with
  | Er e => ret (None, Some e)
  | Ok _ =>
      let! result := attempt operation in
      let! samples := ask (λ n, Ok (rv_samples n)) in
      let! final := attempt (wrap "host disk reserve after operation" (checkDirectories directories)) in
      let! ended := attempt guardedErr in
      ret (match result with Ok a => Some a | Er _ => None end,
           join_errors [error_of result; error_of (monitor samples directories); error_of final; error_of ended])
  end.
Definition RunAssigning {A} (directories : list string) (operation : M B A) : M B (option A * option error) :=
  let! opened := attempt (guard (length directories =? 0)%nat "disk reserve requires directories and an operation" ;;!
                          openDirectories directories) in
  match opened with
  | Er e => ret (None, Some e)
  | Ok _ => runWithChecker directories operation
  end.
(** For the callers that use the result only when no error is reported. *)
Definition Run {A} (directories : list string) (operation : M B A) : M B A :=
  let! (result, err) := RunAssigning directories operation in
  match err, result with
  | None, Some a => ret a
  | Some e, _ => throw e
  | None, None => throw (Errorf "unreachable")
  end.

(** checkExportHeadroom, and exportReceiverReserve of one directory *)
Fixpoint checkExportHeadroom (directories : list string) : M B unit :=
  match directories with
  | [] => ret tt
  | path :: rest =>
      let! stat := ask (λ n, rv_statfs n path) in
      lift (exportHeadroom stat) ;;!
      checkExportHeadroom rest
  end.
Definition exportReceiverReserve (parent : string) : M B Z :=
  let! stat := ask (λ n, rv_statfs n parent) in lift (receiverReserve stat).
End guard.

(** ** Lemmas *)

(** What the machine computes is the exact product, and it is below 2^64. *)
Lemma capacity_exact (s : Statfs) (blocks : Z) :
  0 < sf_bsize s < 2 ^ 63 → 0 <= blocks →
  blocks <= maxUint64 / sf_bsize s ↔ blocks * sf_bsize s < 2 ^ 64.
Proof.
  intros Hs Hb. unfold maxUint64. split; intros H.
  - pose proof (Z.mul_div_le (2 ^ 64 - 1) (sf_bsize s) (proj1 Hs)). nia.
  - apply Z.div_le_lower_bound; lia.
Qed.
Lemma reserveFloor_exact capacity : reserveFloor capacity = Z.max (capacity / 10) twentyGiB.
Proof. unfold reserveFloor. destruct (Z.ltb_spec (capacity / 10) twentyGiB); lia. Qed.
Lemma reserveFloor_small capacity margin : 0 <= capacity < 2 ^ 64 → 0 <= margin <= 2 ^ 32 →
  (reserveFloor capacity + margin) mod 2 ^ 64 = Z.max (capacity / 10) twentyGiB + margin.
Proof.
  intros Hc Hm. rewrite reserveFloor_exact, Z.mod_small; [done|].
  pose proof (Z.div_pos capacity 10). pose proof (Z.div_le_upper_bound capacity 10 (2 ^ 61)). unfold twentyGiB. lia.
Qed.

(** The exact bounds behind the checks. *)
Definition capacity_of (s : Statfs) : Z := sf_blocks s * sf_bsize s.
Definition free_of (s : Statfs) : Z := sf_bavail s * sf_bsize s.
Definition floor_of (s : Statfs) : Z := Z.max (capacity_of s / 10) twentyGiB.
Record measured (s : Statfs) : Prop := {
  me_bsize : 0 < sf_bsize s;
  me_capacity : capacity_of s < 2 ^ 64;
  me_free : free_of s < 2 ^ 64;
}.
Lemma measured_small s : typed_statfs s → measured s →
  (sf_blocks s * sf_bsize s) mod 2 ^ 64 = capacity_of s ∧ (sf_bavail s * sf_bsize s) mod 2 ^ 64 = free_of s ∧
  0 <= capacity_of s ∧ 0 <= free_of s.
Proof. intros [Ha Hb Hc] [H1 H2 H3]. unfold capacity_of, free_of in *. rewrite !Z.mod_small; nia. Qed.
Lemma exportHeadroom_ok s : typed_statfs s →
  exportHeadroom s = Ok tt ↔ measured s ∧ floor_of s + exportMargin < free_of s.
Proof.
  intros Ht. pose proof Ht as [Ha Hb Hc]. unfold exportHeadroom. rewrite check_then_ok, check_ok, !negb_true_iff, !orb_false_iff, !Z.leb_gt, !Z.ltb_ge.
  split.
  - intros [[[H1 H2] H3] H4]. apply capacity_exact in H2, H3; [|lia..].
    assert (measured s) as Hm by done. split; [done|]. destruct (measured_small s Ht Hm) as (Ec & Ef & Hc0 & Hf0).
    rewrite Ec, Ef, reserveFloor_small in H4 by (destruct Hm; unfold exportMargin; lia). done.
  - intros [Hm H4]. destruct (measured_small s Ht Hm) as (Ec & Ef & Hc0 & Hf0). destruct Hm as [H1 H2 H3].
    rewrite !capacity_exact, Ec, Ef by lia. split; [by split|].
    by rewrite reserveFloor_small by (unfold exportMargin; lia).
Qed.
Lemma checkDirectory_ok s : typed_statfs s →
  checkDirectory s = Ok tt ↔ measured s ∧ 0 < capacity_of s ∧ free_of s <= capacity_of s ∧ floor_of s + samplingMargin < free_of s.
Proof.
  intros Ht. pose proof Ht as [Ha Hb Hc]. unfold checkDirectory, checkValues.
  rewrite !check_then_ok, check_ok, !negb_true_iff, !orb_false_iff, !Z.leb_gt, !Z.eqb_neq, !Z.ltb_ge.
  split.
  - intros (H1 & [H2 H3] & [H4 H5] & H6). apply capacity_exact in H2, H3; [|lia..].
    assert (measured s) as Hm by done. split; [done|]. destruct (measured_small s Ht Hm) as (Ec & Ef & Hc0 & Hf0).
    rewrite Ec, ?Ef in *. rewrite reserveFloor_small in H6 by (destruct Hm; unfold samplingMargin; lia).
    unfold floor_of. lia.
  - intros [Hm H4]. destruct (measured_small s Ht Hm) as (Ec & Ef & Hc0 & Hf0). destruct Hm as [H1 H2 H3].
    rewrite !capacity_exact, Ec, Ef by lia. do 2 (split; [done|]). split; [lia|].
    rewrite reserveFloor_small by (unfold samplingMargin; lia). unfold floor_of in H4. lia.
Qed.
Lemma receiverReserve_ok s r : typed_statfs s →
  receiverReserve s = Ok r ↔ 0 < sf_bsize s ∧ capacity_of s < 2 ^ 64 ∧ r = floor_of s + 2 ^ 30.
Proof.
  intros Ht. pose proof Ht as [Ha Hb Hc]. unfold receiverReserve. rewrite check_then_ok, negb_true_iff, orb_false_iff, Z.leb_gt, Z.ltb_ge.
  split.
  - intros [[H1 H2] H3]. apply capacity_exact in H2; [|lia..]. unfold floor_of, capacity_of.
    assert (0 <= sf_blocks s * sf_bsize s) by nia. rewrite (Z.mod_small (_ * _)), reserveFloor_small in H3 by lia. injection H3 as <-. done.
  - intros (H1 & H2 & ->). rewrite capacity_exact by lia. split; [done|]. unfold floor_of, capacity_of in *.
    assert (0 <= sf_blocks s * sf_bsize s) by nia. rewrite (Z.mod_small (_ * _)), reserveFloor_small by lia. done.
Qed.

(** *** The guard *)
Section guard_lemmas.
Context {B : Type} {E : Env} {R : ReservePlatform}.
Implicit Types (w : world B) (P : stepP).

Lemma quiet_guardedErr : quiet (guardedErr : M B unit).
Proof. unfold guardedErr. quiet_tac. Qed.
Lemma quiet_openDirectories l : quiet (openDirectories l : M B unit).
Proof. induction l as [|p l IH]; cbn [openDirectories]; quiet_tac. Qed.
Lemma quiet_checkDirectories l : quiet (checkDirectories l : M B unit).
Proof. induction l as [|p l IH]; cbn [checkDirectories]; quiet_tac. Qed.
Lemma quiet_checkExportHeadroom l : quiet (checkExportHeadroom l : M B unit).
Proof. induction l as [|p l IH]; cbn [checkExportHeadroom]; quiet_tac. Qed.
Lemma quiet_exportReceiverReserve p : quiet (exportReceiverReserve p : M B Z).
Proof. unfold exportReceiverReserve. quiet_tac. Qed.

Lemma join_errors_head e l : ∃ e', join_errors (Some e :: l) = Some e'.
Proof. cbn. destruct (foldr _ _ l); eauto. Qed.
(** Everything the guard adds to the operation is quiet; the operation's own
    success is necessary for the guard's. *)
Lemma wp_RunAssigning {A} P directories (operation : M B A) (Q : res (option A * option error) → world B → Prop) w :
  (∀ n, wp P operation (λ r w', ∀ n',
     match r with
     | Ok a => ∀ err, Q (Ok (Some a, err)) (retick n' w')
     | Er _ => ∀ e, Q (Ok (None, Some e)) (retick n' w')
     end) (retick n w)) →
  (∀ e n, Q (Ok (None, Some e)) (retick n w)) →
  wp P (RunAssigning directories operation) Q w.
Proof.
  intros Hop He. unfold RunAssigning, runWithChecker.
  apply wp_bind, wp_attempt, wp_quiet; [apply quiet_bind; [apply quiet_guard|intros _; apply quiet_openDirectories]|].
  intros [[]|e] n _; [|apply wp_ret, He].
  apply wp_bind, wp_attempt, wp_quiet;
    [apply quiet_bind; [apply quiet_guardedErr|intros _; apply quiet_wrap, quiet_checkDirectories]|].
  intros [[]|e] n1 _; [|apply wp_ret, He].
  apply wp_bind, wp_attempt. eapply wp_conseq; [apply (Hop n1)|]. intros r w1 H1. cbn beta iota.
  apply wp_bind, wp_quiet; [apply quiet_ask|]. intros r2 n3 Hr2. unfold ask in Hr2. injection Hr2 as <- _. set (samples := rv_samples _). cbn beta iota.
  apply wp_bind, wp_attempt, wp_quiet; [apply quiet_wrap, quiet_checkDirectories|]. intros final n4 _.
  apply wp_bind, wp_attempt, wp_quiet; [apply quiet_guardedErr|]. intros ended n5 _. apply wp_ret.
  specialize (H1 n5). destruct r as [a|e]; [apply H1|]. destruct (join_errors_head e [error_of (monitor samples directories); error_of final; error_of ended]) as [e' He'].
  cbn [error_of]. rewrite He'. apply H1.
Qed.
Lemma wp_Run {A} P directories (operation : M B A) (Q : res A → world B → Prop) w :
  (∀ n, wp P operation (λ r w', ∀ n', (∀ e, Q (Er e) (retick n' w')) ∧ ∀ a, r = Ok a → Q (Ok a) (retick n' w')) (retick n w)) →
  (∀ e n, Q (Er e) (retick n w)) →
  wp P (Run directories operation) Q w.
Proof.
  intros Hop He. unfold Run. apply wp_bind, wp_RunAssigning; [|intros e n; apply wp_throw, He].
  intros n. eapply wp_conseq; [apply Hop|]. intros [a|e] w1 H1 n'.
  - intros [e|]; [apply wp_throw, H1|by apply wp_ret, H1].
  - intros e2. apply wp_throw, H1.
Qed.

(** What a successful run was told about the directories, and when. *)
Definition reserved_at (n : nat) (path : string) : Prop := ∃ stat, rv_statfs n path = Ok stat ∧ checkDirectory stat = Ok tt.
Lemma checkDirectories_ok directories w u w' :
  checkDirectories directories w = (Ok u, w') →
  (w_tick w <= w_tick w')%nat ∧ ∀ path, path ∈ directories → ∃ n, (w_tick w <= n < w_tick w')%nat ∧ reserved_at n path.
Proof.
  revert w. induction directories as [|p directories IH]; intros w H; cbn [checkDirectories] in H.
  - ok_inv. split; [lia|]. intros path Hp. by apply not_elem_of_nil in Hp.
  - ok_inv. unfold ask in Ha0. injection Ha0 as Hs <-. apply IH in H as [Hle Hall]. cbn [w_tick tick] in *. split; [lia|].
    intros path [->|Hp]%elem_of_cons.
    + exists (w_tick w). split; [lia|]. eexists. split; [exact Hs|]. by destruct a.
    + destruct (Hall path Hp) as (n & Hn & Hr). exists n. split; [lia|done].
Qed.
Lemma guardedErr_ok w u w' : guardedErr w = (Ok u, w') → rv_canceled (w_tick w) = false ∧ w' = tick w.
Proof. unfold guardedErr. intros H. ok_inv. unfold ask in Ha. injection Ha as <- <-. done. Qed.
Lemma sampleDirectories_ok sample directories :
  sampleDirectories sample directories = Ok tt →
  ∀ path, path ∈ directories → ∃ stat, sample path = Ok stat ∧ checkDirectory stat = Ok tt.
Proof.
  induction directories as [|p directories IH]; cbn [sampleDirectories]; intros H path Hp; [by apply not_elem_of_nil in Hp|].
  destruct (sample p) as [stat|e] eqn:Es; [|done]. cbn in H. destruct (checkDirectory stat) as [[]|e] eqn:Ec; [|done].
  apply elem_of_cons in Hp as [->|Hp]; [eauto|by apply IH].
Qed.
Lemma monitor_ok samples directories :
  monitor samples directories = Ok tt → ∀ sample, sample ∈ samples → sampleDirectories sample directories = Ok tt.
Proof.
  induction samples as [|s samples IH]; cbn [monitor]; intros H sample Hs; [by apply not_elem_of_nil in Hs|].
  destruct (sampleDirectories s directories) as [[]|e] eqn:Es; [|done]. apply elem_of_cons in Hs as [->|Hs]; [done|by apply IH].
Qed.
Lemma join_errors_none l : join_errors l = None → ∀ e, e ∈ l → e = None.
Proof.
  induction l as [|x l IH]; cbn; intros H e He; [by apply not_elem_of_nil in He|].
  destruct x as [x|]; [by destruct (foldr _ _ l)|]. apply elem_of_cons in He as [->|He]; [done|by apply IH].
Qed.
Lemma error_of_none {A} (r : res A) : error_of r = None → ∃ a, r = Ok a.
Proof. destruct r; [eauto|done]. Qed.
End guard_lemmas.
#[export] Hint Resolve quiet_guardedErr quiet_checkExportHeadroom quiet_exportReceiverReserve : quiet.

(** [checkSpace] of the receiver, for sizes that do not saturate. *)
Lemma spaceOf_exact s reserve incoming : typed_statfs s → measured s → 0 <= incoming → 0 <= reserve →
  reserve + incoming <= free_of s → spaceOf reserve incoming (sf_bsize s, sf_bavail s) = Ok tt.
Proof.
  intros Ht Hm Hi Hr Hs. destruct (measured_small s Ht Hm) as (_ & Ef & _ & Hf). destruct Hm as [H1 _ H3].
  unfold spaceOf. rewrite Ef. rewrite check_then_ok, check_ok, !negb_true_iff, Z.leb_gt, !orb_false_iff, !Z.ltb_ge.
  split; [done|]. assert (negb (sf_bavail s =? 0) && negb (free_of s / sf_bsize s =? sf_bavail s) = false) as ->.
  { unfold free_of. rewrite Z.div_mul by lia. by rewrite Z.eqb_refl, andb_false_r. }
  rewrite Z.mod_small by lia. lia.
Qed.

(** ** Properties *)

(** The space checks are exact and fit together. A file system passes the
    export's headroom check exactly when its sizes fit 64 bits and its free space
    exceeds its floor, a tenth of its capacity and at least twenty GiB, by more
    than three GiB: no product or sum wraps. The reserve the receiver is then
    given is that floor and one GiB, and until more than two GiB have been used,
    every receiver check of bytes still within them and every check of the guard
    passes, so an admitted export of at most 512 MiB is never refused for want of
    space that only it uses. *)
Theorem export_headroom_exact (s : Statfs) :
  typed_statfs s →
  (exportHeadroom s = Ok tt ↔ measured s ∧ floor_of s + 3 * 2 ^ 30 < free_of s) ∧
  (exportHeadroom s = Ok tt →
   receiverReserve s = Ok (floor_of s + 2 ^ 30) ∧
   ∀ later incoming, typed_statfs later → sf_bsize later = sf_bsize s → sf_blocks later = sf_blocks s →
     0 <= incoming → free_of later <= capacity_of later → free_of s - free_of later + incoming <= 2 ^ 31 →
     spaceOf (floor_of s + 2 ^ 30) incoming (sf_bsize later, sf_bavail later) = Ok tt ∧ checkDirectory later = Ok tt).
Proof.
  intros Ht. pose proof (exportHeadroom_ok s Ht) as Hiff. unfold exportMargin in Hiff. split; [done|].
  intros [Hm Hf]%Hiff. pose proof Hm as [H1 H2 H3]. split; [by apply receiverReserve_ok|].
  intros later incoming Hl Hb Hc Hi Hcap Hused.
  assert (capacity_of later = capacity_of s) as Hsame by (unfold capacity_of; congruence).
  assert (measured later) as Hml by (constructor; [congruence|lia|lia]).
  assert (floor_of later = floor_of s) as Hfl by (unfold floor_of; congruence).
  assert (twentyGiB <= floor_of s) as Hge by (unfold floor_of; lia). unfold twentyGiB in Hge. split.
  - apply spaceOf_exact; [done|done|done|lia|lia].
  - apply checkDirectory_ok; [done|]. unfold samplingMargin. rewrite Hfl. split; [done|]. lia.
Qed.
(** A disk of 256 GiB with 64 GiB free. *)
Definition example_statfs : Statfs := mkStatfs 4096 (2 ^ 26) (2 ^ 24).
Lemma example_statfs_typed : typed_statfs example_statfs.
Proof. by repeat split. Qed.
Lemma export_headroom_exact_witness :
  typed_statfs example_statfs ∧ exportHeadroom example_statfs = Ok tt ∧
  spaceOf (floor_of example_statfs + 2 ^ 30) (2 ^ 29) (4096, 2 ^ 24) = Ok tt ∧ checkDirectory example_statfs = Ok tt.
Proof.
  split; [exact example_statfs_typed|]. split; [vm_compute; reflexivity|].
  refine (proj2 (proj2 (export_headroom_exact example_statfs example_statfs_typed) _) example_statfs (2 ^ 29) example_statfs_typed _ _ _ _ _);
    [vm_compute; reflexivity|reflexivity|reflexivity|lia|vm_compute; discriminate|vm_compute; discriminate].
Defined.

(** An operation run under the guard succeeds only when the reserve held all
    along: it ran, once, and itself succeeded; every guarded directory had more
    free space than its reserve and the stopping margin in a check made before
    the operation began, at every sample taken while it ran, and in a check made
    after it ended; and the caller's context was still alive then. *)
Theorem reserve_held_throughout `{E : Env} `{R : ReservePlatform} {B A} (directories : list string) (operation : M B A) (w w' : world B) (a : A) :
  Run directories operation w = (Ok a, w') →
  directories ≠ [] ∧
  ∃ w1 w2, operation w1 = (Ok a, w2) ∧
    (∀ path, path ∈ directories → ∃ n, (n < w_tick w1)%nat ∧ reserved_at n path) ∧
    (∀ sample path, sample ∈ rv_samples (w_tick w2) → path ∈ directories →
       ∃ stat, sample path = Ok stat ∧ checkDirectory stat = Ok tt) ∧
    (∀ path, path ∈ directories → ∃ n, (w_tick w2 < n < w_tick w')%nat ∧ reserved_at n path) ∧
    ∃ n, (w_tick w2 < n < w_tick w')%nat ∧ rv_canceled n = false.
Proof.
  unfold Run. intros H. ok_inv. destruct a0 as [result err]. destruct err as [e|]; [discriminate|].
  destruct result as [a0|]; [|discriminate]. unfold ret in H. injection H as -> ->.
  unfold RunAssigning, runWithChecker in Ha. apply bind_ok in Ha as ([[]|e] & w1 & Hopen & Ha); [|discriminate].
  apply bind_ok in Ha as ([[]|e] & w2 & Hbefore & Ha); [|discriminate].
  apply bind_ok in Ha as (result & w3 & Hop & Ha). apply bind_ok in Ha as (samples & w4 & Hs & Ha).
  apply bind_ok in Ha as (final & w5 & Hafter & Ha). apply bind_ok in Ha as (ended & w6 & Hended & Ha).
  apply ret_ok in Ha as [Hr ->]. pose proof (f_equal fst Hr) as Ea. pose proof (f_equal snd Hr) as Ej. cbn [fst snd] in Ea, Ej.
  symmetry in Ej. pose proof (join_errors_none _ Ej) as Hn. clear Ej Hr.
  destruct result as [x|e]; [|done]. injection Ea as <-. ok_inv. split; [by intros ->|].
  destruct (error_of_none (monitor samples directories)) as [[] Hm]; [apply Hn; set_solver|].
  destruct (error_of_none final) as [u6 ->]; [apply Hn; set_solver|]. destruct (error_of_none ended) as [u7 ->]; [apply Hn; set_solver|].
  unfold ask in Hs. injection Hs as <- <-.
  apply wrap_ok, checkDirectories_ok in Hafter as [Hle Hafter]. apply checkDirectories_ok in Hbefore as [_ Hbefore].
  apply guardedErr_ok in Hended as [Hend ->]. cbn [w_tick tick] in *.
  exists w2, w3. split; [done|]. split; [|split; [|split]].
  - intros path Hp. destruct (Hbefore path Hp) as (n & Hlt & Hr). exists n. split; [lia|done].
  - intros sample path Hin Hp. by eapply sampleDirectories_ok, Hp; eapply monitor_ok.
  - intros path Hp. destruct (Hafter path Hp) as (n & Hlt & Hr). exists n. split; [lia|done].
  - exists (w_tick w5). split; [lia|done].
Qed.
Section guard_witness.
#[local] Existing Instance quietEnv.
#[local] Instance example_reserve : ReservePlatform := {|
  rv_open _ _ := Ok tt; rv_statfs _ _ := Ok example_statfs; rv_canceled _ := false; rv_samples _ := [λ _, Ok example_statfs] |}.
Definition example_guarded : res nat * world unit := Run ["/srv/exports"%string] (ret 7%nat) (worldOf ∅ tt).
Lemma reserve_held_throughout_witness : ∃ w1 w2 : world unit, (ret 7%nat : M unit nat) w1 = (Ok 7%nat, w2) ∧
  ∀ path, path ∈ ["/srv/exports"%string] → ∃ n, (n < w_tick w1)%nat ∧ reserved_at n path.
Proof.
  destruct (reserve_held_throughout ["/srv/exports"%string] (ret 7%nat) (worldOf ∅ tt) example_guarded.2 7%nat) as (_ & w1 & w2 & Hop & Hb & _).
  - vm_compute. reflexivity.
  - exact (ex_intro _ w1 (ex_intro _ w2 (conj Hop Hb))).
Defined.
End guard_witness.
