(* ===== verification/Capture.v ===== *)
(** The capture of the export inspector's output
    (src/internal/exportx/capture.go): the trusted helper boots the offline
    guest and copies its serial stream to standard output, which is spooled into
    the private file [stream.bin] of the transaction's directory; the host's
    final observation of the virtual machine is one line of its log. The stream
    is handed out only with that evidence, removed when the machine is proved
    stopped, and left in place otherwise. Also what the operating system shows
    of files (metadata of src/internal/workspacex/securefs.go and
    exportx/parent.go). *)
From S2P Require Import Prelude Ids Bytes Json JsonText Outside World Logic ExportJournal Receiver DiskReserve.

(** ** Files as they are seen *)

(** Device and inode; size; whether type, mode, owner, link count and access
    control list are those of a private file or directory. *)
Record FileInfo := mkInfo { fi_identity : Z * Z; fi_size : Z; fi_private : bool }.
Definition SameFile (a b : FileInfo) : bool := bool_decide (fi_identity a = fi_identity b).
(** Answers of the operating system: metadata and entries of a directory given
    by its path, identities of the files of the state root, close and seek. *)
Class HostFiles := {
  hf_stat : nat → string → res FileInfo;
  hf_names : nat → string → res (list string);
  hf_identity : nat → dirname → string → Z * Z;
  hf_close : nat → res unit;
  hf_seek : nat → res unit;
  hf_canceled : nat → bool;
  hf_random : nat → res string;
}.

(** ** The helper's log *)

Record InspectorEvidence := mkInspected {
  ie_state : string; ie_network : Z; ie_console : Z; ie_export : Z; ie_mode : string }.
Definition maxInspectorStreamBytes : Z := 640 * 2 ^ 20.
Definition maxInspectorLogBytes : Z := 16 * 2 ^ 10.
Definition evidence_prefix : string := "BOOT_EVIDENCE ".
Definition cancelled_prefix : string := "BOOT_CANCELLED ".

(** [bytes.Split(log, "\n")] *)
Fixpoint split_lines (s : string) : list string :=
  match s with
  | EmptyString => [EmptyString]
  | String c r =>
      if Ascii.eqb c "010" then EmptyString :: split_lines r
      else match split_lines r with line :: rest => String c line :: rest | [] => [String c EmptyString] end
  end.
(** The payload of the one evidence line. *)
Fixpoint evidence_payload (lines : list string) (payload : option string) : res (option string) :=
  match lines with
  | [] => Ok payload
  | line :: rest =>
      match strip_prefix evidence_prefix line with
      | Some found => check (isNone payload) "duplicate inspector evidence" ;;? evidence_payload rest (Some found)
      | None => evidence_payload rest payload
      end
  end.
(** The fields of the one object, by name. *)
Fixpoint evidence_fields (fields : list (string * json)) (seen : list (string * json)) : res (list (string * json)) :=
  match fields with
  | [] => Ok seen
  | (key, raw) :: rest =>
      check (negb (existsb (λ kv, kv.1 =s key) seen)) "duplicate inspector evidence field" ;;?
      evidence_fields rest ((key, raw) :: seen)
  end.
Definition field_of (fields : list (string * json)) (key : string) : option json :=
  snd <$> List.find (λ kv, kv.1 =s key) fields.
Definition evidence_count (fields : list (string * json)) (key : string) : res Z :=
  match field_of fields key with
  | None | Some JNull => fail "invalid inspector evidence count"
  | Some raw => let? n := get_int raw 0 in check (negb (n <? 0)) "invalid inspector evidence count" ;;? Ok n
  end.
Definition evidence_text (fields : list (string * json)) (key : string) : res string :=
  match field_of fields key with None => fail "unexpected end of JSON input" | Some raw => get_string raw "" end.
Definition decodeEvidence (fields : list (string * json)) (streamSize : Z) : res InspectorEvidence :=
  check ((length fields =? 4)%nat || (length fields =? 5)%nat) "incomplete inspector host evidence" ;;?
  let? mode := if (length fields =? 5)%nat then
                 let? mode := evidence_text fields "inspector_mode" in
                 check (mode =s "export") "inspector did not report export mode" ;;? Ok mode
               else Ok EmptyString in
  let? state := evidence_text fields "vm_state" in
  check (state =s "stopped") "inspector VM did not stop" ;;?
  let? network := evidence_count fields "runtime_network_devices" in
  let? console := evidence_count fields "console_bytes" in
  let? export := evidence_count fields "export_bytes" in
  check (negb (negb (network =? 0) || (256 * 2 ^ 10 <? console) || negb (export =? streamSize)))
        "inspector host observations do not match captured stream" ;;?
  Ok (mkInspected state network console export mode).
Definition parseInspectorEvidence (log : string) (streamSize : Z) : res InspectorEvidence :=
  let lines := split_lines log in
  check (negb (existsb (has_prefix cancelled_prefix) lines)) "cancelled inspector stream cannot be published" ;;?
  let? payload := evidence_payload lines None in
  match payload with
  | None | Some EmptyString => fail "missing inspector host evidence"
  | Some payload =>
      match scan payload with
      | Some [JObj fields] => let? fields := evidence_fields fields [] in decodeEvidence fields streamSize
      | _ => fail "invalid inspector host evidence"
      end
  end.

(** [bytes.ReplaceAll]; what is left is shorter at every step. *)
Fixpoint replaceAll (steps : nat) (old new s : string) : string :=
  match steps, s with
  | S steps, String c r => match strip_prefix old s with
                           | Some rest => new +:+ replaceAll steps old new rest
                           | None => String c (replaceAll steps old new r)
                           end
  | _, _ => s
  end.
Definition parseInspectorCancellation (log : string) (streamSize : Z) : res InspectorEvidence :=
  check (negb (str_contains evidence_prefix log)) "conflicting inspector completion and cancellation receipts" ;;?
  parseInspectorEvidence (replaceAll (String.length log) cancelled_prefix evidence_prefix log) streamSize.

(** ** The run of the helper *)

(** How the process ended: an exit code, and whether the error wraps the
    cancellation of its context. *)
Record waitError := mkWait { we_exit : option Z; we_cancellation : bool; we_error : error }.
(** One run: the pipes and the start, what was read from the pipes, chunk by
    chunk, and how reading, the process and its context ended. *)
Record HelperRun := mkRun {
  hr_pipes : res unit; hr_start : res unit; hr_stdout : list string; hr_stderr : list string;
  hr_read : option error; hr_wait : option waitError; hr_context : option error }.
Class CaptureHost (B : Type) := { ch_helper : string → list string → B → HelperRun * B }.

(** [boundedInspectorWriter]: what is passed on, and whether something was
    dropped; it keeps draining once the limit is reached. *)
Fixpoint boundedWrites (limit count : Z) (data : list string) : list string * bool :=
  match data with
  | [] => ([], false)
  | d :: rest =>
      let length := Z.of_nat (String.length d) in
      let remaining := limit - count in
      if length =? 0 then boundedWrites limit count rest
      else if remaining <=? 0 then let '(l, _) := boundedWrites limit count rest in (l, true)
      else
        let kept := if remaining <? length then str_take (Z.to_nat remaining) d else d in
        let '(l, overflow) := boundedWrites limit (count + Z.of_nat (String.length kept)) rest in
        (kept :: l, overflow || (remaining <? length))
  end.

(** ** The spool *)

(** The captured stream: where it is and what it was seen to be. *)
Record CapturedInspectorStream := mkCaptured {
  cs_directory : dirname; cs_parent : string; cs_parentID : FileInfo; cs_streamID : FileInfo; cs_evidence : InspectorEvidence }.
(** An error of the capture, and whether the machine's stop is unproven
    ([errors.Is(err, ErrInspectorStopUnproven)]). *)
Record captureFailure := mkFailure { cf_unproven : bool; cf_error : error }.
Inductive ending := Kept (captured : CapturedInspectorStream) | Preserved (e : error) | Discarded (e : error).

Abbreviation stream_bin := "stream.bin"%string.
Definition ErrInspectorStopUnproven : error := Errorf "inspector VM stop evidence unproven; private spool and bundle retained".

Section capture.
Context {B : Type} {E : Env} {R : ReservePlatform} {F : HostFiles} {H : CaptureHost B}.

Definition stat_directory (path : string) : M B FileInfo := ask (λ n, hf_stat n path).
Definition info_of (identity : Z * Z) (e : entry) : FileInfo :=
  match e with EFile f => mkInfo identity (Z.of_N (file_size f)) true | _ => mkInfo identity 0 false end.
(** [Lstat] of a file; an open descriptor is seen through its name, which the
    [SameFile] checks tie to it. *)
Definition stat_file (d : dirname) (name : string) : M B FileInfo :=
  let! e := fs_lstat d name in
  let! identity := ask (λ n, Ok (hf_identity n d name)) in
  ret (info_of identity e).
Definition contextErr : M B unit := let! c := ask (λ n, Ok (hf_canceled n)) in guard c "context canceled".

(** parent.go *)
Definition openPrivateParent (path : string) : M B FileInfo :=
  let! info := stat_directory path in
  guard (negb (fi_private info)) "export parent must be a private directory" ;;!
  let! opened := wrapv "export parent changed while opening" (stat_directory path) in
  guard (negb (SameFile info opened)) "export parent changed while opening" ;;!
  let! root := wrapv "export parent changed while opening root" (stat_directory path) in
  guard (negb (SameFile info root)) "export parent changed while opening root" ;;!
  ret info.
Definition samePrivateParent (path : string) (original : FileInfo) : M B unit :=
  let! info := stat_directory path in
  guard (negb (fi_private info)) "export parent must be a private directory" ;;!
  let! opened := stat_directory path in
  guard (negb (SameFile original info) || negb (SameFile original opened)) "export parent changed".

(** [CapturedInspectorStream.Remove] *)
Definition Remove (captured : CapturedInspectorStream) : M B unit :=
  ask hf_close ;;!
  let! parent := openPrivateParent (cs_parent captured) in
  guard (negb (SameFile parent (cs_parentID captured))) "inspector spool parent changed" ;;!
  let! info := attempt (stat_file (cs_directory captured) stream_bin) in
  match info with
  | Er e => if err_not_exist e then ret tt else throw (Errorf "inspector spool path changed")
  | Ok info =>
      guard (negb (SameFile info (cs_streamID captured)) || negb (fi_private info)) "inspector spool path changed" ;;!
      fs_remove (cs_directory captured) stream_bin ;;!
      fs_sync (cs_directory captured)
  end.
(** [CapturedInspectorStream.AdmitForPublication] *)
Definition AdmitForPublication (captured : CapturedInspectorStream) (expectedParent : string) : M B unit :=
  let evidence := cs_evidence captured in
  guard ((expectedParent ≠s cs_parent captured) || (ie_mode evidence ≠s "export") || (ie_state evidence ≠s "stopped") ||
         negb (ie_network evidence =? 0)) "captured export spool lacks exact publication binding" ;;!
  let! parent := openPrivateParent expectedParent in
  guard (negb (SameFile parent (cs_parentID captured))) "captured spool parent changed" ;;!
  let! path := wrapv "captured spool path changed" (stat_file (cs_directory captured) stream_bin) in
  guard (negb (SameFile path (cs_streamID captured)) || negb (fi_private path)) "captured spool path changed" ;;!
  let! opened := wrapv "captured spool descriptor changed" (stat_file (cs_directory captured) stream_bin) in
  guard (negb (SameFile opened path) || negb (fi_private opened) || negb (fi_size opened =? ie_export evidence))
        "captured spool descriptor changed" ;;!
  ask hf_seek.

(** The copy of standard output into the spool. *)
Fixpoint spoolChunks (d : dirname) (data : list string) : M B unit :=
  match data with
  | [] => ret tt
  | chunk :: rest => fs_append d stream_bin chunk ;;! spoolChunks d rest
  end.
(** The error of a cancelled run whose machine is nevertheless proved stopped. *)
Definition stoppedThoughCancelled (run : HelperRun) (log : string) (count : Z) : option error :=
  match hr_context run with
  | None => None
  | Some cancellation =>
      match parseInspectorCancellation log count, hr_wait run with
      | Ok evidence, Some wait =>
          if (ie_mode evidence =s "export") && match we_exit wait with Some code => 0 <? code | None => false end
          then Some (join_err cancellation (we_error wait)) else None
      | _, _ => None
      end ∪
      (if match hr_wait run with None => true | Some wait => we_cancellation wait end
       then match parseInspectorEvidence log count with Ok _ => Some cancellation | Er _ => None end else None)
  end.
Definition captureChecks (d : dirname) (path : string) (parent : FileInfo) (count : Z) (evidence : InspectorEvidence) : M B ending :=
  fs_sync d ;;!
  let! info := wrapv "captured stream metadata changed" (stat_file d stream_bin) in
  guard (negb (fi_size info =? count) || negb (fi_private info)) "captured stream metadata changed" ;;!
  let! pathInfo := wrapv "captured stream path changed" (stat_file d stream_bin) in
  guard (negb (SameFile info pathInfo) || negb (fi_private pathInfo)) "captured stream path changed" ;;!
  samePrivateParent path parent ;;!
  let! finalParent := wrapv "capture parent changed after helper reap" (stat_directory path) in
  guard (negb (SameFile parent finalParent)) "capture parent changed after helper reap" ;;!
  guard (negb (fi_private finalParent)) "capture parent ACL after helper reap" ;;!
  ask hf_seek ;;!
  ret (Kept (mkCaptured d path finalParent pathInfo evidence)).
(** What is decided once the process has been waited for and both pipes read. *)
Definition captureOutcome (d : dirname) (path : string) (parent : FileInfo) (run : HelperRun) : M B ending :=
  match hr_pipes run, hr_start run with
  | Er e, _ => ret (Discarded e)
  | Ok _, Er e => ret (Discarded (match hr_context run with Some c => join_err (wrapw "start inspector helper" e) c
                                                          | None => wrapw "start inspector helper" e end))
  | Ok _, Ok _ =>
      let '(chunks, outOverflow) := boundedWrites maxInspectorStreamBytes 0 (hr_stdout run) in
      let '(lines, logOverflow) := boundedWrites maxInspectorLogBytes 0 (hr_stderr run) in
      let log := cat lines in
      let count := Z.of_nat (String.length (cat chunks)) in
      let! copied := attempt (spoolChunks d chunks) in
      let pipeErr := join_errors [error_of copied; hr_read run] in
      let waitErr := option_map we_error (hr_wait run) in
      match hr_wait run, hr_context run, pipeErr with
      | None, None, None =>
          if outOverflow || logOverflow then ret (Preserved (wrapw "inspector output exceeded capture limit" ErrInspectorStopUnproven))
          else match parseInspectorEvidence log count with
               | Er e => ret (Preserved (join_err ErrInspectorStopUnproven e))
               | Ok evidence => captureChecks d path parent count evidence
               end
      | _, _, _ =>
          let stopped := if isNone pipeErr && negb outOverflow && negb logOverflow then stoppedThoughCancelled run log count else None in
          ret match stopped with
              | Some e => Discarded e
              | None => Preserved (default ErrInspectorStopUnproven
                          (join_errors [Some ErrInspectorStopUnproven; hr_context run; waitErr; pipeErr]))
              end
      end
  end.

(** [captureInspector]; the error of the deferred cleanup is joined. *)
Definition captureInspector (d : dirname) (path executable transaction : string) (args : list string)
  : M B (CapturedInspectorStream + captureFailure) :=
  let! opened := attempt (
    guard ((executable =s "") || negb (canonical_abs executable)) "invalid inspector capture inputs" ;;!
    contextErr ;;!
    let! parent := openPrivateParent path in
    fs_create d stream_bin (bytes_file "") ;;!
    ret parent) in
  match opened with
  | Er e => ret (inr (mkFailure false e))
  | Ok parent =>
      let! seen := attempt (stat_file d stream_bin) in
      match seen with
      | Er e => attempt (ask hf_close) ;;! ret (inr (mkFailure false e))
      | Ok original =>
          let! ended := attempt (
            let! run := host_call (λ r, EvCapture transaction (let? _ := r in Ok tt))
                          (λ b, let '(run, b') := ch_helper executable args b in (Ok run, b')) in
            captureOutcome d path parent run) in
          match ended with
          | Ok (Kept captured) => ret (inl captured)
          | Ok (Preserved e) =>
              let! synced := attempt (fs_sync d) in
              let! shut := attempt (ask hf_close) in
              ret (inr (mkFailure true (default e (join_errors [Some e; error_of synced; error_of shut]))))
          | Ok (Discarded e) | Er e =>
              let! removed := attempt (Remove (mkCaptured d path parent original (mkInspected "" 0 0 0 ""))) in
              ret (inr (mkFailure false (default e (join_errors [Some e; error_of removed]))))
          end
      end
  end.
(** A captured stream that is not wanted after all. *)
Definition dropCapture (captured : CapturedInspectorStream) (e : error) : M B (CapturedInspectorStream + captureFailure) :=
  let! removed := attempt (Remove captured) in
  ret (inr (mkFailure false (default e (join_errors [Some e; error_of removed])))).
Definition CaptureInspector (d : dirname) (path executable transaction : string) (args : list string)
  : M B (CapturedInspectorStream + captureFailure) :=
  let! (result, err) := RunAssigning [path] (captureInspector d path executable transaction args) in
  match result, err with
  | Some (inl captured), None => ret (inl captured)
  | Some (inl captured), Some e => dropCapture captured e
  | Some (inr failure), None => ret (inr failure)
  | Some (inr failure), Some e => ret (inr (mkFailure (cf_unproven failure) (join_err (cf_error failure) e)))
  | None, Some e => ret (inr (mkFailure false e))
  | None, None => throw (Errorf "unreachable")
  end.
Definition CaptureExportInspector (d : dirname) (path executable transaction : string) (args : list string)
  : M B (CapturedInspectorStream + captureFailure) :=
  let! result := CaptureInspector d path executable transaction args in
  match result with
  | inr failure => ret (inr failure)
  | inl captured =>
      if ie_mode (cs_evidence captured) ≠s "export" then dropCapture captured (Errorf "inspector helper did not prove export mode")
      else if ie_export (cs_evidence captured) <? 22 then
        dropCapture captured (Errorf "inspector guest produced no complete export header")
      else ret (inl captured)
  end.
End capture.

(** ** Lemmas *)

(** *** The log *)

(** What evidence says, whatever else the log holds. *)
Record stopped_evidence (ev : InspectorEvidence) (streamSize : Z) : Prop := {
  sv_state : ie_state ev = "stopped"%string;
  sv_network : ie_network ev = 0;
  sv_export : ie_export ev = streamSize;
  sv_console : 0 <= ie_console ev <= 256 * 2 ^ 10;
  sv_mode : ie_mode ev = ""%string ∨ ie_mode ev = "export"%string;
}.
Lemma evidence_count_ok fields key n : evidence_count fields key = Ok n → 0 <= n.
Proof.
  unfold evidence_count. intros H. destruct (field_of fields key) as [raw|]; [|done].
  assert ((let? n := get_int raw 0 in check (negb (n <? 0)) "invalid inspector evidence count" ;;? Ok n) = Ok n) as Hn by by destruct raw.
  destruct (get_int raw 0) as [m|e]; [|done]. cbn in Hn. rewrite check_then_ok, negb_true_iff, Z.ltb_ge in Hn. by destruct Hn as [? [= ->]].
Qed.
Lemma decodeEvidence_ok fields n ev : decodeEvidence fields n = Ok ev → stopped_evidence ev n.
Proof.
  unfold decodeEvidence. rewrite check_then_ok. intros [_ H].
  match type of H with res_bind ?m _ = _ => destruct m as [mode|e] eqn:Em; [|done] end. cbn [res_bind] in H.
  destruct (evidence_text fields "vm_state") as [state|e]; [|done]. cbn [res_bind] in H. rewrite check_then_ok in H. destruct H as [Hs H].
  destruct (evidence_count fields "runtime_network_devices") as [network|e]; [|done].
  destruct (evidence_count fields "console_bytes") as [console|e] eqn:Ec; [|done]. apply evidence_count_ok in Ec.
  destruct (evidence_count fields "export_bytes") as [export|e]; [|done].
  cbn [res_bind] in H. rewrite check_then_ok, negb_true_iff, !orb_false_iff, !negb_false_iff, !Z.eqb_eq, Z.ltb_ge in H.
  destruct H as [[[Hn Hc] He] [= <-]]. apply String.eqb_eq in Hs. constructor; try done.
  cbn. destruct (length fields =? 5)%nat; [|injection Em as <-; by left].
  destruct (evidence_text fields "inspector_mode") as [m|e]; [|done]. cbn in Em. rewrite check_then_ok in Em. destruct Em as [Hm [= <-]].
  right. by apply String.eqb_eq in Hm.
Qed.
Lemma parseInspectorEvidence_ok log n ev : parseInspectorEvidence log n = Ok ev → stopped_evidence ev n.
Proof.
  unfold parseInspectorEvidence. rewrite check_then_ok. intros [_ H].
  destruct (evidence_payload _ _) as [[[|c payload]|]|e]; try done. cbn [res_bind] in H.
  destruct (scan (String c payload)) as [[|[] [|]]|]; try done. destruct (evidence_fields _ _) as [fields'|e]; [|done].
  by apply decodeEvidence_ok in H.
Qed.

(** *** The bounded writer *)
Lemma boundedWrites_whole limit count data l :
  0 <= count <= limit → boundedWrites limit count data = (l, false) →
  cat l = cat data ∧ count + size (cat data) <= limit.
Proof.
  revert count l. induction data as [|d data IH]; intros count l Hc H; cbn [boundedWrites] in H.
  - injection H as <-. split; [done|]. unfold size. cbn. lia.
  - destruct (Z.eqb_spec (Z.of_nat (String.length d)) 0) as [Hd|Hd].
    { apply IH in H; [|done]. destruct d; [|cbn [String.length] in Hd; lia]. done. }
    destruct (Z.leb_spec (limit - count) 0).
    { destruct (boundedWrites limit count data). discriminate. }
    destruct (Z.ltb_spec (limit - count) (Z.of_nat (String.length d))) as [Hl|Hl].
    { destruct (boundedWrites limit _ data) as [l' o]. rewrite orb_true_r in H. discriminate. }
    destruct (boundedWrites limit _ data) as [l' o] eqn:Er. rewrite orb_false_r in H. injection H as <- ->.
    apply IH in Er as [Hcat Hsize]; [|lia]. cbn [cat]. rewrite Hcat. split; [done|].
    unfold size in *. rewrite str_length_app. lia.
Qed.

(** *** The spool *)
Section spool.
Context {B : Type} {E : Env} {R : ReservePlatform} {F : HostFiles} {H : CaptureHost B}.
Implicit Types (w : world B) (P : stepP).

Lemma quiet_stat_directory path : quiet (stat_directory path : M B _).
Proof. unfold stat_directory. quiet_tac. Qed.
Lemma quiet_stat_file d name : quiet (stat_file d name : M B _).
Proof. unfold stat_file. quiet_tac. Qed.
Lemma quiet_contextErr : quiet (contextErr : M B _).
Proof. unfold contextErr. quiet_tac. Qed.
#[local] Hint Resolve quiet_stat_directory quiet_stat_file quiet_contextErr : quiet.
Lemma quiet_openPrivateParent path : quiet (openPrivateParent path : M B _).
Proof. unfold openPrivateParent. quiet_tac. Qed.
Lemma quiet_samePrivateParent path info : quiet (samePrivateParent path info : M B _).
Proof. unfold samePrivateParent. quiet_tac. Qed.
#[local] Hint Resolve quiet_openPrivateParent quiet_samePrivateParent : quiet.
Lemma quiet_AdmitForPublication captured path : quiet (AdmitForPublication captured path : M B _).
Proof. unfold AdmitForPublication. quiet_tac. Qed.
Lemma quiet_captureChecks d path parent count ev : quiet (captureChecks d path parent count ev : M B _).
Proof. unfold captureChecks. quiet_tac. Qed.

(** Everything but the spool of [d] is as in [k0]. *)
Definition only_spool (d : dirname) (k0 k : disk) : Prop := ∀ key, key ≠ (d, stream_bin) → k !! key = k0 !! key.
Definition spool_event (d : dirname) (transaction : string) (ev : event) : Prop :=
  (∃ f, ev = EvCreate d stream_bin f) ∨ (∃ f, ev = EvWrite d stream_bin f) ∨ ev = EvRemove d stream_bin ∨ ∃ r, ev = EvCapture transaction r.
(** The spool holds these bytes. *)
Definition spooled (d : dirname) (content : string) (k : disk) : Prop :=
  ∃ f, k !! (d, stream_bin) = Some (EFile f) ∧ file_blob f = content.
Lemma only_spool_refl d k : only_spool d k k.
Proof. by intros key _. Qed.
Lemma only_spool_insert d k0 k e : only_spool d k0 k → only_spool d k0 (<[(d, stream_bin) := e]> k).
Proof. intros Hk key Hne. rewrite lookup_insert_ne by done. by apply Hk. Qed.
Lemma only_spool_delete d k0 k : only_spool d k0 k → only_spool d k0 (delete (d, stream_bin) k).
Proof. intros Hk key Hne. rewrite lookup_delete_ne by done. by apply Hk. Qed.

(** One run of the helper over files [k0], holding [L]: every step concerns the
    spool alone and satisfies [P]. *)
Section run.
Context (P : stepP) (d : dirname) (transaction : string) (k0 : disk) (L : list string).
Context (HP : ∀ o ev b k, spool_event d transaction ev → only_spool d k0 k → P o (Step ev b k L)).

(** What holds of the world all along. *)
Record at_spool w : Prop := { sp_rest : only_spool d k0 (w_disk w); sp_locks : w_locks w = L }.
#[local] Ltac spool_tac := match goal with H : at_spool _ |- _ => destruct H; by constructor end.

Lemma wp_spoolChunks data content (Q : res unit → world B → Prop) w :
  at_spool w → spooled d content (w_disk w) →
  (∀ r w', at_spool w' → (∃ c, spooled d c (w_disk w')) → (r = Ok tt → spooled d (content +:+ cat data) (w_disk w')) → Q r w') →
  wp P (spoolChunks d data) Q w.
Proof.
  revert content w. induction data as [|chunk data IH]; intros content w Hw Hs HQ; cbn [spoolChunks].
  - apply wp_ret, HQ; [done|by exists content|]. intros _. cbn. by rewrite str_app_nil.
  - apply wp_bind, wp_fs_append.
    + intros f b Hf. destruct Hs as (f' & Hf' & <-). rewrite Hf' in Hf. injection Hf as ->. destruct Hw as [Hr HL].
      assert (∀ b, at_spool (did (EvWrite d stream_bin (appended f b)) (<[(d, stream_bin) := EFile (appended f b)]> (w_disk w)) w)) as Hat
        by (intros; by constructor; [apply only_spool_insert|]).
      assert (∀ b, spooled d (file_blob f +:+ b) (<[(d, stream_bin) := EFile (appended f b)]> (w_disk w))) as Hsp
        by (intros b'; exists (appended f b'); by rewrite lookup_insert_eq).
      split; [rewrite HL; apply HP; [right; left; eauto|by apply only_spool_insert]|]. split.
      * intros ->. apply (IH (file_blob f +:+ chunk)); [apply Hat|apply Hsp|]. intros r w' Hw' Hc Hok. apply HQ; [done|done|].
        intros Hr'. specialize (Hok Hr'). by rewrite str_app_assoc in Hok.
      * intros e. apply HQ; [apply Hat|eexists; apply Hsp|done].
    + intros e. apply HQ; [spool_tac|by exists content|done].
Qed.

Lemma wp_Remove captured (Q : res unit → world B → Prop) w :
  cs_directory captured = d → at_spool w → (∀ r w', at_spool w' → Q r w') → wp P (Remove captured) Q w.
Proof.
  intros Hd Hw HQ. unfold Remove. rewrite Hd.
  wp_read as r n _ by (apply HQ; spool_tac). wp_read as parent n1 _ by (apply HQ; spool_tac).
  wp_guard as _ by (apply HQ; spool_tac).
  apply wp_bind, wp_attempt, wp_quiet; [apply quiet_stat_file|]. intros [info|e] n2 _.
  - wp_guard as _ by (apply HQ; spool_tac). apply wp_bind, wp_fs_remove.
    + intros e He k. destruct Hw as [Hr HL]. split; [cbn [w_locks retick]; rewrite HL; apply HP; [by right; right; left|by apply only_spool_delete]|].
      intros [[]|e']; [apply wp_fs_sync; intros r'|]; apply HQ; (constructor; [by apply only_spool_delete|done]).
    + intros e. apply HQ; spool_tac.
  - destruct (err_not_exist e); [apply wp_ret|apply wp_throw]; apply HQ; spool_tac.
Qed.

(** A stream handed out: what the helper did, and what the spool holds. *)
Record evidenced (run : HelperRun) (content : string) (captured : CapturedInspectorStream) : Prop := {
  evd_exit : hr_wait run = None ∧ hr_context run = None ∧ hr_read run = None;
  evd_content : content = cat (hr_stdout run) ∧ size content <= maxInspectorStreamBytes;
  evd_log : size (cat (hr_stderr run)) <= maxInspectorLogBytes ∧
            parseInspectorEvidence (cat (hr_stderr run)) (size content) = Ok (cs_evidence captured);
}.
Definition kept (path : string) (run : HelperRun) (captured : CapturedInspectorStream) (k : disk) : Prop :=
  cs_directory captured = d ∧ cs_parent captured = path ∧ ∃ content, evidenced run content captured ∧ spooled d content k.

Lemma join_errors_pair (a b : option error) : join_errors [a; b] = None → a = None ∧ b = None.
Proof. by destruct a, b. Qed.
Lemma wp_captureChecks path parent run content evidence (Q : res ending → world B → Prop) w :
  at_spool w → spooled d content (w_disk w) →
  (∀ captured, cs_evidence captured = evidence → evidenced run content captured) →
  (∀ r w', at_spool w' → match r with Ok (Kept c) => kept path run c (w_disk w') | Ok (Preserved _) => ∃ c, spooled d c (w_disk w') | _ => True end →
     Q r w') →
  wp P (captureChecks d path parent (size content) evidence) Q w.
Proof.
  intros Hw Hs Hev HQ. apply wp_quiet; [apply quiet_captureChecks|]. intros r n Hr. apply HQ; [spool_tac|].
  cbn [w_disk retick]. destruct r as [e|e]; [|done]. unfold captureChecks in Hr. ok_inv. apply ret_ok in Hr as [-> _].
  split; [done|]. split; [done|]. exists content. split; [by apply Hev|exact Hs].
Qed.
Lemma wp_captureOutcome path parent run (Q : res ending → world B → Prop) w :
  at_spool w → spooled d "" (w_disk w) →
  (∀ r w', at_spool w' → match r with Ok (Kept c) => kept path run c (w_disk w') | Ok (Preserved _) => ∃ c, spooled d c (w_disk w') | _ => True end →
     Q r w') →
  wp P (captureOutcome d path parent run) Q w.
Proof.
  intros Hw Hs HQ. unfold captureOutcome.
  destruct (hr_pipes run) as [[]|e]; [|by apply wp_ret, HQ]. destruct (hr_start run) as [[]|e]; [|by apply wp_ret, HQ].
  destruct (boundedWrites maxInspectorStreamBytes 0 (hr_stdout run)) as [chunks outOver] eqn:Eo.
  destruct (boundedWrites maxInspectorLogBytes 0 (hr_stderr run)) as [lines logOver] eqn:El.
  apply wp_bind, wp_attempt, (wp_spoolChunks _ ""); [done|done|]. intros copied w1 Hw1 Hc Hok. cbn beta iota.
  assert (∀ e, Q (Ok (Preserved e)) w1) as HP' by (intros; by apply HQ).
  assert (∀ e, Q (Ok (Discarded e)) w1) as HD by (intros; by apply HQ).
  destruct (hr_wait run) as [wt|] eqn:Ew; [apply wp_ret; match goal with |- Q (Ok match ?x with _ => _ end) _ => by destruct x end|].
  destruct (hr_context run) as [ctx|] eqn:Ec; [apply wp_ret; match goal with |- Q (Ok match ?x with _ => _ end) _ => by destruct x end|].
  destruct (join_errors [error_of copied; hr_read run]) as [e|] eqn:Ej; [apply wp_ret; match goal with |- Q (Ok match ?x with _ => _ end) _ => by destruct x end|].
  apply join_errors_pair in Ej as [[[] ->]%error_of_none Hread].
  destruct outOver; [by apply wp_ret|]. destruct logOver; [by apply wp_ret|]. cbn [orb].
  apply boundedWrites_whole in Eo as [Eo Ho]; [|done]. apply boundedWrites_whole in El as [El Hl]; [|done].
  destruct (parseInspectorEvidence _ _) as [ev|e] eqn:Ep; [|by apply wp_ret].
  specialize (Hok eq_refl). cbn in Hok. apply (wp_captureChecks _ _ run (cat chunks)); [done|done| |done].
  intros captured Hev. constructor; [done| |]; [split; [done|rewrite Eo; lia]|]. rewrite <-El, Hev. split; [rewrite El; lia|done].
Qed.

Lemma wp_captureInspector path executable args (Q : res (CapturedInspectorStream + captureFailure) → world B → Prop) w :
  at_spool w →
  (∀ r w', at_spool w' →
     match r with
     | Ok (inl c) => ∃ b, kept path (ch_helper executable args b).1 c (w_disk w')
     | Ok (inr f) => cf_unproven f = true → ∃ c, spooled d c (w_disk w')
     | Er _ => False
     end → Q r w') →
  wp P (captureInspector d path executable transaction args) Q w.
Proof.
  intros Hw HQ. unfold captureInspector.
  apply wp_bind, wp_attempt. wp_guard as _ by (by apply wp_ret, HQ).
  apply wp_bind, wp_quiet; [apply quiet_contextErr|]. intros [[]|e] n _; [|apply wp_ret, HQ; [spool_tac|done]].
  apply wp_bind, wp_quiet; [apply quiet_openPrivateParent|]. intros [parent|e] n1 _; [|apply wp_ret, HQ; [spool_tac|done]].
  apply wp_bind. pose proof Hw as [Hr HL].
  assert (∀ f e f' n, wp P (ret (inr (mkFailure false e))) Q (did (EvCreate d stream_bin f) (<[(d, stream_bin) := EFile f']> (w_disk w)) (retick n w))) as Hfail
    by (intros; apply wp_ret, HQ; [constructor; [by apply only_spool_insert|done]|done]).
  apply wp_fs_create; [|intros e _; apply wp_ret, HQ; [spool_tac|done]].
  intros _ f' Hf' k. split; [cbn [w_locks retick]; rewrite HL; apply HP; [left; eauto|by apply only_spool_insert]|]. split; [|intros e; apply Hfail].
  intros ->. apply wp_ret. cbn beta iota.
  set (w1 := did _ _ _). assert (at_spool w1) as Hw1 by (constructor; [by apply only_spool_insert|done]).
  assert (spooled d "" (w_disk w1)) as Hs1 by (eexists; split; [apply lookup_insert_eq|done]). clearbody w1.
  apply wp_bind, wp_attempt, wp_quiet; [apply quiet_stat_file|]. intros [original|e] n2 _; cbn beta iota.
  2:{ apply wp_bind, wp_attempt, wp_quiet; [apply quiet_ask|]. intros r n3 _. apply wp_ret, HQ; [spool_tac|done]. }
  apply wp_bind, wp_attempt, wp_bind, wp_host_call. intros r b Hrun.
  destruct (ch_helper executable args (w_host (retick n2 w1))) as [run b'] eqn:Ehelp. injection Hrun as <- <-.
  split; [destruct Hw1 as [Hr1 HL1]; cbn [w_locks w_disk retick]; rewrite HL1; apply HP; [right; right; right; eauto|done]|].
  apply (wp_captureOutcome path parent run); [by destruct Hw1; constructor|exact Hs1|].
  intros [[c|e|e]|e] w2 Hw2 H2; cbn beta iota.
  - apply wp_ret, HQ; [done|]. eexists. by rewrite Ehelp.
  - apply wp_bind, wp_attempt, wp_quiet; [apply quiet_fs_sync|]. intros r n3 _.
    apply wp_bind, wp_attempt, wp_quiet; [apply quiet_ask|]. intros r' n4 _. apply wp_ret, HQ; [spool_tac|by intros _].
  - apply wp_bind, wp_attempt, wp_Remove; [done|done|]. intros r w3 Hw3. by apply wp_ret, HQ.
  - apply wp_bind, wp_attempt, wp_Remove; [done|done|]. intros r w3 Hw3. by apply wp_ret, HQ.
Qed.
Lemma wp_dropCapture captured e (Q : res (CapturedInspectorStream + captureFailure) → world B → Prop) w :
  cs_directory captured = d → at_spool w →
  (∀ f w', at_spool w' → cf_unproven f = false → Q (Ok (inr f)) w') → wp P (dropCapture captured e) Q w.
Proof. intros Hd Hw HQ. apply wp_bind, wp_attempt, wp_Remove; [done|done|]. intros r w' Hw'. by apply wp_ret, HQ. Qed.
(** What [CaptureExportInspector] leaves behind. *)
Definition captured_well (path executable : string) (args : list string) (r : res (CapturedInspectorStream + captureFailure)) (k : disk) : Prop :=
  match r with
  | Ok (inl c) => ie_mode (cs_evidence c) = "export"%string ∧ 22 <= ie_export (cs_evidence c) ∧ ∃ b, kept path (ch_helper executable args b).1 c k
  | Ok (inr f) => cf_unproven f = true → ∃ c, spooled d c k
  | Er _ => False
  end.
Lemma wp_CaptureExportInspector path executable args (Q : res (CapturedInspectorStream + captureFailure) → world B → Prop) w :
  at_spool w → (∀ r w', at_spool w' → captured_well path executable args r (w_disk w') → Q r w') →
  wp P (CaptureExportInspector d path executable transaction args) Q w.
Proof.
  intros Hw HQ. unfold CaptureExportInspector, CaptureInspector. apply wp_bind, wp_bind.
  assert (∀ f w', at_spool w' → cf_unproven f = false → wp P (ret (inr f)) Q w') as Hfail
    by (intros f w' Hw' Hf; apply wp_ret, HQ; [done|]; cbn; by rewrite Hf).
  apply wp_RunAssigning; [|intros e n; apply wp_ret, Hfail; [spool_tac|done]]. intros n.
  apply wp_captureInspector; [spool_tac|]. intros [[c|f]|e] w1 Hw1 H1 n1; [| |done]; intros [e|]; cbn beta iota.
  - destruct H1 as (b & Hd & _). apply wp_dropCapture; [done|spool_tac|]. intros f w2 Hw2 Hf. by apply Hfail.
  - apply wp_ret. destruct (ie_mode (cs_evidence c) =s "export") eqn:Em; cbn [negb].
    + destruct (Z.ltb_spec (ie_export (cs_evidence c)) 22).
      * destruct H1 as (b & Hd & _). apply wp_dropCapture; [done|spool_tac|]. intros f w2 Hw2 Hf. apply HQ; [done|]. cbn. by rewrite Hf.
      * apply wp_ret, HQ; [spool_tac|]. split; [by apply String.eqb_eq|]. split; [done|]. destruct H1 as (b & Hk). by exists b.
    + destruct H1 as (b & Hd & _). apply wp_dropCapture; [done|spool_tac|]. intros f w2 Hw2 Hf. apply HQ; [done|]. cbn. by rewrite Hf.
  - apply wp_ret, wp_ret, HQ; [spool_tac|]. cbn. intros Hu. by apply H1.
  - apply wp_ret, wp_ret, HQ; [spool_tac|done].
Qed.
End run.
End spool.

(** ** Properties *)

(** C29: a captured stream is handed out only with proof. Whatever the helper
    does and whatever fails, when a stream is handed out the helper exited
    without error and was not cancelled, its pipes were read to their end, the
    spool holds exactly its standard output, complete, at least a header long and
    within 640 MiB, and its log, also complete, carries one line of evidence that
    the virtual machine stopped in export mode, without network devices, after
    exactly that many bytes; when the machine's stop is not proved the spool is
    still there; and no file but the spool has changed. *)
Theorem captured_stream_is_proved `{E : Env} `{R : ReservePlatform} `{F : HostFiles} {B} `{H : CaptureHost B}
    (d : dirname) (path executable transaction : string) (args : list string) (w : world B) :
  let r := (CaptureExportInspector d path executable transaction args w).1 in
  let k := w_disk (CaptureExportInspector d path executable transaction args w).2 in
  only_spool d (w_disk w) k ∧
  match r with
  | Ok (inl captured) =>
      ∃ b content, let run := (ch_helper executable args b).1 in
        (hr_wait run = None ∧ hr_context run = None ∧ hr_read run = None) ∧
        spooled d content k ∧ content = cat (hr_stdout run) ∧ 22 <= size content <= maxInspectorStreamBytes ∧
        parseInspectorEvidence (cat (hr_stderr run)) (size content) = Ok (cs_evidence captured) ∧
        stopped_evidence (cs_evidence captured) (size content) ∧ ie_mode (cs_evidence captured) = "export"%string
  | Ok (inr failure) => cf_unproven failure = true → ∃ content, spooled d content k
  | Er _ => False
  end.
Proof.
  intros r k. subst r k.
  pose proof (wp_CaptureExportInspector (λ _ _, True) d transaction (w_disk w) (w_locks w) (λ _ _ _ _ _ _, I) path executable args
    (λ r w', at_spool d (w_disk w) (w_locks w) w' ∧ captured_well d path executable args r (w_disk w')) w) as Hwp.
  apply wp_result in Hwp; [|by constructor; [apply only_spool_refl|]|by intros]. destruct Hwp as [[Hk _] Hc]. split; [done|].
  destruct (CaptureExportInspector _ _ _ _ _ w).1 as [[c|f]|e]; [|exact Hc|done].
  destruct Hc as (Hm & Hn & b & _ & _ & content & [Hx [Hc Hl] [_ Hp]] & Hs). exists b, content.
  pose proof (parseInspectorEvidence_ok _ _ _ Hp) as Hev. pose proof (sv_export _ _ Hev) as Hsz. rewrite Hsz in Hn. done.
Qed.

(** *** Evaluations *)
Section examples.
#[local] Existing Instance quietEnv.
#[local] Existing Instance example_reserve.
#[local] Instance example_files : HostFiles := {|
  hf_stat _ _ := Ok (mkInfo (1, 2) 0 true); hf_names _ _ := Ok []; hf_identity _ _ _ := (1, 3); hf_close _ := Ok tt; hf_seek _ := Ok tt;
  hf_canceled _ := false; hf_random _ := Ok (str_repeat "A" 16) |}.
Definition example_log (bytes : Z) : string :=
  "booting" +:+ String LF (evidence_prefix +:+
    render (JObj [("vm_state", JStr "stopped"); ("runtime_network_devices", JNum 0); ("console_bytes", JNum 7); ("export_bytes", JNum bytes);
                  ("inspector_mode", JStr "export")]) +:+ String LF "").
#[local] Instance example_helper : CaptureHost string := {|
  ch_helper _ _ log := (mkRun (Ok tt) (Ok tt) [str_repeat "x" 20; "yz"%string] [log] None None None, log) |}.
Definition example_capture (bytes : Z) : res (CapturedInspectorStream + captureFailure) * world string :=
  CaptureExportInspector (Transaction "t") "/srv" "/opt/helper" "t" [] (worldOf ∅ (example_log bytes)).
Example capture_proved : ∃ c, (example_capture 22).1 = Ok (inl c).
Proof. eexists. vm_compute. reflexivity. Qed.
Example capture_unproven : ∃ e, (example_capture 23).1 = Ok (inr (mkFailure true e)).
Proof. eexists. vm_compute. reflexivity. Qed.
End examples.
