(* ===== verification/Exports.v ===== *)
(** The export transaction of src/internal/workspacex: the isolated snapshot of
    a stopped workspace (export_copy.go), its recovery (export_recover.go), the
    request and the bound capture of the inspector (export_request.go,
    export_capture.go), the publication (export_publish.go) and the whole run and
    its resumption (export_run.go). The snapshot and the spool are files of the
    transaction's directory; the receiver is the one of Receiver.v, on the
    entries of the destination. *)
From S2P Require Import Prelude Ids Bytes Json JsonText SessionRecord Outside World Host Logic WorkspaceRecord ExportJournal WorkspaceStore WorkspaceTransition Receiver DiskReserve Capture.

Abbreviation snapshot_raw := "snapshot.raw"%string.
Definition exportCopyBufferBytes : Z := 2 ^ 20.
Definition maxInspectorRequestBytes : Z := 128 * 2 ^ 10.

(** ** Results that carry an error beside their value *)

(** A Go pair of a result and an error; a deferred release joins its error. *)
Definition outcome (A : Type) : Type := (A * option error)%type.
Definition join_outcome {A} (r : res (outcome A)) (r2 : res unit) : res (outcome A) :=
  match r, r2 with
  | Ok (a, e), Er e2 => Ok (a, Some (match e with Some e => join_err e e2 | None => e2 end))
  | _, _ => r
  end.
(** [if err != nil { return value, err }] *)
Definition or_return {B A C} (value : C) (m : M B A) (k : A → M B (outcome C)) : M B (outcome C) :=
  let! r := attempt m in match r with Ok a => k a | Er e => ret (value, Some e) end.
Notation "'let*' x := m 'else' value 'in' k" := (or_return value m (λ x, k))
  (at level 10, x pattern, m at level 100, value at level 100, k at level 200) : go_scope.

(** ** The surroundings of an export *)

(** The bytes and the metadata of the workspace disk that [workspaceformat.Admit]
    pinned, and of the path when it is admitted again. *)
Class SourceDisk := {
  sd_read : nat → Z → Z → res string;
  sd_stat : nat → res FileInfo;
  sd_again : nat → res FileInfo;
}.
(** The entries of a directory outside the state root, which the receiver
    changes, and the builder and admission of inspector bundles. *)
Record InspectorBundle := mkBundle { ib_helper : string; ib_kernel : string; ib_initrd : string }.
Class Inspection (B : Type) := {
  in_entries : string → B → gmap string tree;
  in_publish : string → gmap string tree → B → B;
  in_admit : string → string → string → B → res InspectorBundle * B;
  in_build : string → string → string → string → B → res string * B;
  in_remove : string → B → res unit * B;
}.

(** ** Pure parts *)

Definition le (s : string) : Z := be 0 (String.string_of_list_ascii (rev (String.list_ascii_of_string s))).
Definition bytes_at (from to : nat) (s : string) : string := str_take (to - from) (str_drop from s).
(** [requireCleanExportSuperblock]: magic, clean state, journal and extents,
    and no recovery pending. *)
Definition cleanSuperblock (block : string) : res unit :=
  check (le (bytes_at 0x38 0x3a block) =? 0xef53) "ext4 superblock magic is absent" ;;?
  check (le (bytes_at 0x3a 0x3c block) =? 1) "ext4 filesystem is not clean" ;;?
  check (negb ((Z.land (le (bytes_at 0x5c 0x60 block)) 0x04 =? 0) || (Z.land (le (bytes_at 0x60 0x64 block)) 0x40 =? 0)))
        "ext4 filesystem lacks journal or extents" ;;?
  check (negb (negb (Z.land (le (bytes_at 0x60 0x64 block)) 0x04 =? 0) || negb (Z.land (le (bytes_at 0x64 0x68 block)) 0x10000 =? 0)))
        "ext4 filesystem requires recovery".
Definition diskIdentity (info : FileInfo) : res DiskIdentity :=
  let '(device, inode) := fi_identity info in
  check (negb ((device =? 0) || (inode =? 0))) "disk identity unavailable" ;;? Ok (mkDisk device inode).
Definition exportTransactionHex (id : string) : string :=
  bytes_at 0 8 id +:+ bytes_at 9 13 id +:+ bytes_at 14 18 id +:+ bytes_at 19 23 id +:+ str_drop 24 id.

Definition inspectorRequest (j : ExportJournal) : json :=
  JObj [("version", JNum 1); ("transaction", jstr (Session.strip_dashes (ej_id j))); ("filesystem_uuid", jstr (ej_uuid j));
        ("disk_bytes", JNum (ej_size j)); ("selected", JArr (map jstr (ej_selected j)))].
Definition encodeExportInspectorRequest (j : ExportJournal) : res string :=
  validateExportJournal j ;;?
  check ((ej_phase j =s ExportSnapshotReady) || (ej_phase j =s ExportInspected))
        "export snapshot is not ready for inspector request or safe retry" ;;?
  let raw := render (inspectorRequest j) in
  check (negb ((String.length raw =? 0)%nat || (maxInspectorRequestBytes <? Z.of_nat (String.length raw) + 1)))
        "inspector request exceeds private initramfs member bound" ;;?
  Ok (raw +:+ String LF "").
Record PreparedExportInspectorRequest := mkPrepared { pr_journal : ExportJournal; pr_path : string; pr_request : string }.
Definition exportInspectorBootArgs (bundle : InspectorBundle) (prepared : PreparedExportInspectorRequest) : list string :=
  match ej_snapshot (pr_journal prepared) with
  | None => []
  | Some s =>
      ["boot-export"%string; ib_kernel bundle; ib_initrd bundle; pr_path prepared; Session.strip_dashes (ej_id (pr_journal prepared));
       render (JNum (di_device (es_identity s))); render (JNum (di_inode (es_identity s))); render (JNum (ej_size (pr_journal prepared)))]
  end.
(** What a record and a journal must agree on for the snapshot's recovery. *)
Definition is_export_pending (id : string) (p : option Pending) : bool :=
  match p with Some p => (pe_kind p =s ExportSnapshotKind) && (pe_id p =s id) | None => false end.
Definition exactBinding (record : Volume) (j : ExportJournal) : bool :=
  (vo_state record =s VolAvailable) && bool_decide (vo_disk record = Some (ej_source j)) && isNone (vo_use record) &&
  match vo_attachment record with
  | Some a => (at_session_id a =s ej_session_id j) && (at_session_name a =s ej_session_name j)
  | None => false
  end.
Definition export_options (parent : string) (j : ExportJournal) (minimumFree : Z) : Options :=
  mkOptions parent (unhex (exportTransactionHex (ej_id j))) (ej_selected j) (2 ^ 20) (256 * 2 ^ 20) (512 * 2 ^ 20) 8192 4096 minimumFree.

Section exports.
Context {B : Type} {E : Env} {H : Host B} {R : ReservePlatform} {F : HostFiles} {S : SourceDisk} {I : Inspection B}
        {C : CaptureHost B} {RP : ReceiverPlatform} {D : Digests}.

(** ** Reading *)

(** [io.ReadFull] of the pinned disk at an offset: fewer bytes are an error. *)
Definition readSource (offset length : Z) : M B string :=
  let! bytes := ask (λ n, sd_read n offset length) in
  guard (negb (Z.of_nat (String.length bytes) =? length)) "unexpected EOF" ;;!
  ret bytes.
(** The same of the snapshot. *)
Definition readSnapshot (id : string) (offset length : Z) : M B string :=
  let! f := fs_read (Transaction id) snapshot_raw in
  let bytes := str_take (Z.to_nat length) (str_drop (Z.to_nat offset) (file_blob f)) in
  guard (negb (Z.of_nat (String.length bytes) =? length)) "unexpected EOF" ;;!
  ret bytes.
(** [hashExactExportBytes]: what was hashed, chunk by chunk; a size has at most
    [turns size] chunks. *)
Definition turns (size : Z) : nat := Datatypes.S (Z.to_nat (size / exportCopyBufferBytes)).
Fixpoint hashChunks (turns : nat) (read : Z → Z → M B string) (offset remaining : Z) : M B string :=
  if remaining <=? 0 then ret EmptyString
  else match turns with
       | O => throw (Errorf "unreachable")
       | Datatypes.S turns =>
           contextErr ;;!
           let length := Z.min exportCopyBufferBytes remaining in
           let! chunk := read offset length in
           let! rest := hashChunks turns read (offset + length) (remaining - length) in
           ret (chunk +:+ rest)
       end.
Definition hashExactExportBytes (read : Z → Z → M B string) (size : Z) : M B string :=
  let! bytes := hashChunks (turns size) read 0 size in ret (sha256 bytes).

(** ** export_copy.go *)

Definition admitExportParent (path : string) : M B DiskIdentity :=
  guard (negb (canonical_abs path)) "export destination parent must be a clean absolute path" ;;!
  let! before := wrapv "export destination parent is not private" (stat_directory path) in
  guard (negb (fi_private before)) "export destination parent is not private" ;;!
  let! opened := wrapv "export destination parent changed" (stat_directory path) in
  guard (negb (SameFile before opened)) "export destination parent changed" ;;!
  let! names := wrapv "export destination parent must be empty" (ask (λ n, hf_names n path)) in
  guard (negb (length names =? 0)%nat) "export destination parent must be empty" ;;!
  lift (diskIdentity opened).
(** Sixteen random bytes, as the list their hexadecimal text stands for. *)
Definition newExportUUID : M B string :=
  let! random := ask hf_random in
  lift (Session.newID (Ok (map byte_val (String.list_ascii_of_string random)))).

(** The copy loop: what was copied. *)
Fixpoint copyChunks (turns : nat) (id : string) (copied size : Z) : M B string :=
  if size <=? copied then ret EmptyString
  else match turns with
       | O => throw (Errorf "unreachable")
       | Datatypes.S turns =>
           contextErr ;;!
           let length := Z.min exportCopyBufferBytes (size - copied) in
           let! chunk := readSource copied length in
           fs_append (Transaction id) snapshot_raw chunk ;;!
           let! rest := copyChunks turns id (copied + length) size in
           ret (chunk +:+ rest)
       end.
Definition requireDistinctExportSnapshot (snapshot : DiskIdentity) : M B unit :=
  let! info := ask sd_stat in
  let! current := lift (diskIdentity info) in
  guard (bool_decide (snapshot = current)) "export snapshot is not distinct from pinned source inode".
Definition verifyExportSource (request : FormatRequest) (expected : DiskIdentity) (copied : string) : M B unit :=
  let! qualified := Admit request in
  let! checked := attempt (
    guard (negb (ql_device qualified =? di_device expected) || negb (ql_inode qualified =? di_inode expected))
          "export source identity changed" ;;!
    let! old := ask sd_stat in
    let! new := wrapv "export source path changed" (ask sd_again) in
    guard (negb (SameFile old new)) "export source path changed" ;;!
    ask hf_seek ;;!
    let! hash := hashExactExportBytes readSource (fr_size request) in
    guard (hash ≠s copied) "export source bytes changed during copy" ;;!
    let! old := wrapv "export source size changed after digest" (ask sd_stat) in
    guard (negb (fi_size old =? fr_size request)) "export source size changed after digest" ;;!
    let! new := wrapv "export source path changed after digest" (ask sd_again) in
    guard (negb (SameFile old new) || negb (fi_size new =? fr_size request)) "export source path changed after digest") in
  attempt CloseDisk ;;! lift checked.

Definition copyExportSnapshot (request : FormatRequest) (journal : ExportJournal) : M B ExportSnapshot :=
  let id := ej_id journal in
  let d := Transaction id in
  fs_create d snapshot_raw (bytes_file "") ;;!
  ask hf_seek ;;!
  let! bytes := copyChunks (turns (ej_size journal)) id 0 (ej_size journal) in
  fs_sync d ;;!
  let! copyInfo := wrapv "export snapshot length changed" (stat_file d snapshot_raw) in
  guard (negb (fi_size copyInfo =? ej_size journal)) "export snapshot length changed" ;;!
  let! copyIdentity := lift (diskIdentity copyInfo) in
  requireDistinctExportSnapshot copyIdentity ;;!
  let! pathInfo := wrapv "export snapshot path or metadata changed" (stat_file d snapshot_raw) in
  guard (negb (SameFile copyInfo pathInfo) || negb (fi_private pathInfo)) "export snapshot path or metadata changed" ;;!
  ask hf_seek ;;!
  let! snapshotHash := wrapv "export snapshot digest differs from copied bytes"
                         (hashExactExportBytes (readSnapshot id) (ej_size journal)) in
  guard (snapshotHash ≠s sha256 bytes) "export snapshot digest differs from copied bytes" ;;!
  verifyExportSource request (ej_source journal) (sha256 bytes) ;;!
  let! finalInfo := wrapv "export snapshot path changed before publication" (stat_file d snapshot_raw) in
  guard (negb (SameFile copyInfo finalInfo) || negb (fi_size finalInfo =? ej_size journal) || negb (fi_private finalInfo))
        "export snapshot path changed before publication" ;;!
  let! finalOpened := wrapv "export snapshot descriptor changed before publication" (stat_file d snapshot_raw) in
  guard (negb (SameFile finalOpened finalInfo) || negb (fi_size finalOpened =? ej_size journal))
        "export snapshot descriptor changed before publication" ;;!
  ask hf_close ;;!
  fs_sync d ;;!
  ret (mkExportSnapshot copyIdentity (sha256 bytes)).

Definition finishExportSnapshotPending (domainID : string) (ready : ExportJournal) : M B unit :=
  guard ((ej_domain ready ≠s domainID) || (ej_phase ready ≠s ExportSnapshotReady) || isNone (ej_snapshot ready))
        "export snapshot is not ready to release its volume" ;;!
  let! persisted := wrapv "durable export snapshot differs before Pending release" (loadExportJournal domainID (ej_id ready)) in
  guard (bool_decide (persisted ≠ ready)) "durable export snapshot differs before Pending release" ;;!
  let! current := LoadVolume domainID (ej_volume ready) in
  guard (negb (is_export_pending (ej_id ready) (vo_pending current) && exactBinding current ready))
        "export Pending does not match exact ready snapshot" ;;!
  saveRecordTransitionExpectedPending domainID (set_pending None current) mutationFinishExportSnapshot (ej_id ready).

(** [openChild(exports, id)] *)
Definition openTransaction (id : string) : M B unit :=
  let! e := fs_lstat Exports id in
  match e with EDir => ret tt | _ => throw (Errorf "must be a private non-symlink directory with mode 0700") end.

(** The part that reserves, copies and publishes, under the three locks. *)
Definition snapshotReserved (stateRoot domainID : string) (record : Volume) (journal : ExportJournal) : M B (outcome ExportJournal) :=
  let* _ := lift (validateExportJournal journal) else zeroExportJournal in
  let* _ := wrap "persist export transaction before reservation" (createExportJournal journal) else journal in
  let* _ := wrap "persist export Pending marker"
              (saveRecordTransition domainID (set_pending (Some (mkPending ExportSnapshotKind (ej_id journal))) record)
                 mutationBeginExportSnapshot) else journal in
  let* _ := wrap "create exact private export transaction directory" (fs_mkdir Exports (ej_id journal)) else journal in
  let* _ := fs_sync Exports else journal in
  let* _ := openTransaction (ej_id journal) else journal in
  let* snapshot := wrap "copy export snapshot"
                     (Run [stateRoot; ej_parent journal] (copyExportSnapshot (volumeRequest domainID record) journal)) else journal in
  let ready := set_export_phase ExportSnapshotReady (Some snapshot) journal in
  let* _ := wrap "publish durable snapshot identity" (advanceExportJournal journal ready) else journal in
  let* _ := wrap "clear exact export Pending after snapshot" (finishExportSnapshotPending domainID ready) else ready in
  ret (ready, None).
Definition newJournal (domainID volumeID destinationParent : string) (selected : list string) (record : Volume) (target : SessionRecord)
    (disk parent : DiskIdentity) (id : string) : ExportJournal :=
  mkExportJournal 1 id domainID volumeID (sr_id target) (sr_name target) (br_object_id (sr_backend target)) (vo_uuid record) (vo_size record)
    disk (path_join "exports" [id; snapshot_raw]) destinationParent parent selected ExportCopying None.
Definition snapshotAdmitted (stateRoot domainID volumeID destinationParent : string) (selected : list string) (record : Volume)
    (target : SessionRecord) (disk : DiskIdentity) (qualified : Qualification) : M B (outcome ExportJournal) :=
  let zero := zeroExportJournal in
  let* _ := guard (negb (ql_device qualified =? di_device disk) || negb (ql_inode qualified =? di_inode disk))
              "workspace source identity differs from qualified record" else zero in
  let* _ := wrap "offline export source" (let! block := readSource 1024 1024 in lift (cleanSuperblock block)) else zero in
  let* parent := admitExportParent destinationParent else zero in
  let* _ := stat_directory stateRoot else zero in
  let* _ := checkExportHeadroom [stateRoot; destinationParent] else zero in
  let* id := newExportUUID else zero in
  snapshotReserved stateRoot domainID record
    (newJournal domainID volumeID destinationParent selected record target disk parent id).
Definition snapshotLocked (observer : bool) (stateRoot domainID volumeID destinationParent : string) (selected : list string)
    (binding : Attachment) : M B (outcome ExportJournal) :=
  let zero := zeroExportJournal in
  let* record := LoadVolume domainID volumeID else zero in
  match vo_disk record with
  | None => ret (zero, Some (Errorf "workspace is not available for stopped export"))
  | Some disk =>
      let* _ := guard ((vo_state record ≠s VolAvailable) || bool_decide (vo_attachment record ≠ Some binding) || isSome (vo_use record) ||
                       isSome (vo_pending record) || (maxAlphaExportVolumeBytes <? vo_size record))
                  "workspace is not available for stopped export" else zero in
      let* target := wrap "export session is not the exact stopped attachment"
                       (stoppedSession observer domainID (at_session_name binding)) else zero in
      let* _ := guard (sr_id target ≠s at_session_id binding) "export session is not the exact stopped attachment" else zero in
      let* qualified := wrap "admit export source" (Admit (volumeRequest domainID record)) else zero in
      let! result := attempt (snapshotAdmitted stateRoot domainID volumeID destinationParent selected record target disk qualified) in
      attempt CloseDisk ;;! lift result
  end.
Definition createExportSnapshot (observer : bool) (stateRoot domainID volumeID destinationParent : string) (selected : list string)
  : M B (outcome ExportJournal) :=
  let zero := zeroExportJournal in
  let* _ := guard (negb (Workspacex.validUUID volumeID)) "invalid export volume ID" else zero in
  let* initial := LoadVolume domainID volumeID else zero in
  match vo_attachment initial with
  | None => ret (zero, Some (Errorf "export requires an attached alpha-size workspace"))
  | Some binding =>
      let* _ := guard (maxAlphaExportVolumeBytes <? vo_size initial) "export requires an attached alpha-size workspace" else zero in
      let* _ := AcquireVolumeUse domainID volumeID else zero in
      deferred join_outcome (Lock.volume_scope domainID volumeID) (
      let* _ := AcquireSession domainID (at_session_name binding) else zero in
      deferred join_outcome (Lock.session_scope domainID (at_session_name binding)) (
      let* _ := AcquireStorageOperation domainID else zero in
      deferred join_outcome (Lock.storage_scope domainID)
        (snapshotLocked observer stateRoot domainID volumeID destinationParent selected binding)))
  end.
Definition CreateExportSnapshot := createExportSnapshot.

(** ** export_recover.go *)

Definition admitExactExportSnapshot (journal : ExportJournal) : M B unit :=
  let id := ej_id journal in
  let d := Transaction id in
  openTransaction id ;;!
  let! opening := stat_file d snapshot_raw in
  guard (negb (fi_private opening)) "must be a private non-symlink regular file with mode 0600" ;;!
  let! info := wrapv "snapshot size changed before recovery" (stat_file d snapshot_raw) in
  guard (negb (SameFile opening info) || negb (fi_private info)) "file changed while opening" ;;!
  guard (negb (fi_size info =? ej_size journal)) "snapshot size changed before recovery" ;;!
  let! identity := wrapv "snapshot identity changed before recovery" (lift (diskIdentity info)) in
  guard (match ej_snapshot journal with
         | None => true
         | Some s => bool_decide (identity ≠ es_identity s) || bool_decide (identity = ej_source journal)
         end) "snapshot identity changed before recovery" ;;!
  let! hash := wrapv "snapshot digest changed before recovery" (hashExactExportBytes (readSnapshot id) (ej_size journal)) in
  guard (match ej_snapshot journal with None => true | Some s => hash ≠s es_sha256 s end) "snapshot digest changed before recovery" ;;!
  let! finalInfo := wrapv "snapshot path changed before recovery" (stat_file d snapshot_raw) in
  guard (negb (SameFile info finalInfo) || negb (fi_size finalInfo =? ej_size journal) || negb (fi_private finalInfo))
        "snapshot path changed before recovery" ;;!
  let! finalOpened := wrapv "snapshot descriptor changed before recovery" (stat_file d snapshot_raw) in
  guard (negb (SameFile finalOpened finalInfo) || negb (fi_size finalOpened =? ej_size journal) || negb (fi_private finalOpened))
        "snapshot descriptor changed before recovery".

Definition requireAbsentSnapshotDirectory (id : string) : M B unit :=
  let! found := attempt (fs_lstat Exports id) in
  match found with
  | Er e => if err_not_exist e then ret tt else throw e
  | Ok _ => throw (Errorf "export snapshot directory exists without exact cleanup authority")
  end.
Definition removeExactPartialSnapshot (journal : ExportJournal) : M B unit :=
  let id := ej_id journal in
  let d := Transaction id in
  let! opened := attempt (openTransaction id) in
  match opened with
  | Er e => if err_not_exist e then ret tt else throw e
  | Ok _ =>
      let! entries := fs_list d in
      guard (existsb (λ ne, ne.1 ≠s snapshot_raw) entries) "export transaction directory contains unexpected state" ;;!
      let! found := attempt (stat_file d snapshot_raw) in
      match found with
      | Er e => if err_not_exist e then ret tt else throw e
      | Ok info =>
          guard (negb (fi_private info) || (ej_size journal <? fi_size info)) "partial export snapshot is not exact private owned state" ;;!
          fs_remove d snapshot_raw
      end ;;!
      fs_sync d ;;!
      ask hf_close ;;!
      wrap "export transaction directory has unexpected state" (fs_rmdir Exports id d) ;;!
      fs_sync Exports
  end.

(** The [switch journal.Phase]: [inl] returns, [inr] goes on with the journal. *)
Definition recoverPhase (domainID : string) (record : Volume) (journal : ExportJournal) : M B (ExportJournal + ExportJournal) :=
  if ej_phase journal =s ExportCopying then
    (if isNone (vo_pending record) then requireAbsentSnapshotDirectory (ej_id journal) else removeExactPartialSnapshot journal) ;;!
    let aborted := set_export_phase ExportAborted (ej_snapshot journal) journal in
    advanceExportJournal journal aborted ;;!
    ret (inr aborted)
  else if ej_phase journal =s ExportSnapshotReady then
    (if isSome (vo_pending record) then
       admitExactExportSnapshot journal ;;! finishExportSnapshotPending domainID journal
     else ret tt) ;;!
    ret (inl journal)
  else if ej_phase journal =s ExportAborted then
    requireAbsentSnapshotDirectory (ej_id journal) ;;! ret (inr journal)
  else ret (inr journal).
Definition recoverAdmitted (domainID : string) (record : Volume) (journal : ExportJournal) (qualified : Qualification) : M B ExportJournal :=
  guard (negb (ql_device qualified =? di_device (ej_source journal)) || negb (ql_inode qualified =? di_inode (ej_source journal)))
        "export source identity changed before recovery" ;;!
  let! phase := recoverPhase domainID record journal in
  match phase with
  | inl journal => ret journal
  | inr journal =>
      (if isSome (vo_pending record) then
         saveRecordTransitionExpectedPending domainID (set_pending None record) mutationAbortExportSnapshot (ej_id journal)
       else ret tt) ;;!
      ret journal
  end.
Definition recoverLocked (observer : bool) (domainID transactionID : string) (initial : ExportJournal) : M B ExportJournal :=
  let! journal := wrapv "export journal changed before recovery" (loadExportJournal domainID transactionID) in
  guard (bool_decide (initial ≠ journal)) "export journal changed before recovery" ;;!
  let! record := LoadVolume domainID (ej_volume journal) in
  if isNone (vo_pending record) && ((ej_phase journal =s ExportSnapshotReady) || (ej_phase journal =s ExportAborted)) then ret journal
  else
    guard (negb (exactBinding record journal && (vo_uuid record =s ej_uuid journal) && (vo_size record =? ej_size journal)) ||
           (isSome (vo_pending record) && negb (is_export_pending (ej_id journal) (vo_pending record))))
          "export recovery cannot prove exact available workspace binding" ;;!
    let! stopped := wrap "export recovery cannot prove exact stopped backend" (stoppedSession observer domainID (ej_session_name journal)) in
    guard ((sr_id stopped ≠s ej_session_id journal) || (br_object_id (sr_backend stopped) ≠s ej_backend journal))
          "export recovery cannot prove exact stopped backend" ;;!
    let! qualified := wrap "re-admit export source for recovery"
                        (Admit (mkFormatRequest domainID (ej_volume journal) (ej_uuid journal) (ej_size journal))) in
    let! result := attempt (recoverAdmitted domainID record journal qualified) in
    attempt CloseDisk ;;! lift result.
Definition RecoverExportSnapshot (observer : bool) (domainID transactionID : string) : M B (outcome ExportJournal) :=
  let zero := zeroExportJournal in
  let* initial := loadExportJournal domainID transactionID else zero in
  let* _ := guard ((ej_phase initial ≠s ExportCopying) && (ej_phase initial ≠s ExportSnapshotReady) && (ej_phase initial ≠s ExportAborted))
              "transaction is beyond snapshot recovery" else zero in
  let* _ := AcquireVolumeUse domainID (ej_volume initial) else zero in
  deferred join_outcome (Lock.volume_scope domainID (ej_volume initial)) (
  let* _ := AcquireSession domainID (ej_session_name initial) else zero in
  deferred join_outcome (Lock.session_scope domainID (ej_session_name initial)) (
  let* _ := AcquireStorageOperation domainID else zero in
  deferred join_outcome (Lock.storage_scope domainID)
    (let* journal := recoverLocked observer domainID transactionID initial else zero in ret (journal, None)))).

(** ** export_request.go, export_capture.go *)

Definition transactionPath (stateRoot id : string) : string := path_join stateRoot ["exports"%string; id].
Definition prepareExportInspectorRequestLocked (stateRoot domainID transactionID : string) : M B PreparedExportInspectorRequest :=
  let! journal := loadExportJournal domainID transactionID in
  let! request := lift (encodeExportInspectorRequest journal) in
  wrap "admit exact export snapshot before inspector request" (admitExactExportSnapshot journal) ;;!
  ret (mkPrepared journal (path_join stateRoot [ej_snapshot_path journal]) request).
Definition PrepareExportInspectorRequest (stateRoot domainID transactionID : string) : M B PreparedExportInspectorRequest :=
  lift (Domain.Parse domainID) ;;!
  guard (negb (Workspacex.validUUID transactionID)) "invalid export transaction ID" ;;!
  Acquire (Lock.export_scope domainID transactionID) ;;!
  deferred_ignore (Lock.export_scope domainID transactionID) (prepareExportInspectorRequestLocked stateRoot domainID transactionID).

(** The spool, if any, and the journal; the error with the mark of an unproven stop. *)
Abbreviation capture_outcome := ((option CapturedInspectorStream * ExportJournal) * option captureFailure)%type.
Definition failed (e : error) : option captureFailure := Some (mkFailure false e).
Definition removing (captured : CapturedInspectorStream) (e : error) : M B error :=
  let! removed := attempt (Remove captured) in
  ret (match removed with Ok _ => e | Er e2 => join_err e e2 end).
Definition captureLocked (stateRoot domainID transactionID bundlePath sourceRoot : string) : M B capture_outcome :=
  let! prepared := attempt (prepareExportInspectorRequestLocked stateRoot domainID transactionID) in
  match prepared with
  | Er e => ret ((None, zeroExportJournal), failed e)
  | Ok prepared =>
      let journal := pr_journal prepared in
      let! artifacts := attempt (host_ask (in_admit bundlePath sourceRoot (pr_request prepared))) in
      match artifacts with
      | Er e => ret ((None, journal), failed (wrapw "admit export inspector bundle" e))
      | Ok artifacts =>
          if (ib_helper artifacts =s "") || (ib_kernel artifacts =s "") || (ib_initrd artifacts =s "")
          then ret ((None, journal), failed (Errorf "inspector bundle lacks launch artifacts"))
          else
            let! result := CaptureExportInspector (Transaction (ej_id journal)) (transactionPath stateRoot (ej_id journal))
                             (ib_helper artifacts) (ej_id journal) (exportInspectorBootArgs artifacts prepared) in
            match result with
            | inr failure => ret ((None, journal), Some failure)
            | inl captured =>
                let! admitted := attempt (admitExactExportSnapshot journal) in
                match admitted with
                | Er e => let! e := removing captured (wrapw "snapshot changed after inspector reap" e) in ret ((None, journal), failed e)
                | Ok _ =>
                    let! current := attempt (loadExportJournal domainID transactionID) in
                    if match current with Ok current => bool_decide (current = journal) | Er _ => false end
                    then ret ((Some captured, journal), None)
                    else let! e := removing captured (Errorf "export journal changed after inspector reap") in ret ((None, journal), failed e)
                end
            end
      end
  end.
Definition captureBoundExportInspector (stateRoot domainID transactionID bundlePath sourceRoot : string) : M B capture_outcome :=
  let scope := Lock.export_scope domainID transactionID in
  if negb (is_ok (Domain.Parse domainID)) || negb (Workspacex.validUUID transactionID)
  then ret ((None, zeroExportJournal), failed (Errorf "invalid export capture binding"))
  else
    let! held := attempt (Acquire scope) in
    match held with
    | Er e => ret ((None, zeroExportJournal), failed e)
    | Ok _ =>
        let! (result, failure) := captureLocked stateRoot domainID transactionID bundlePath sourceRoot in
        let! released := attempt (Release scope) in
        match released with
        | Ok _ => ret (result, failure)
        | Er e =>
            let! e := match result.1 with Some captured => removing captured e | None => ret e end in
            ret ((None, result.2), Some (match failure with
                                         | Some f => mkFailure (cf_unproven f) (join_err (cf_error f) e)
                                         | None => mkFailure false e end))
        end
    end.
Definition CaptureAdmittedExportInspector := captureBoundExportInspector.

(** ** export_publish.go *)

(** [exportx.ReceiveSelectedExport] on the spool and the entries of the parent
    directory; the receiver touches neither the records nor the locks. *)
Definition receiveSpool (captured : CapturedInspectorStream) (transaction : string) (o : Options) : M B (outcome string) := λ w,
  let input := match w_disk w !! (cs_directory captured, stream_bin) with Some (EFile f) => file_blob f | _ => EmptyString end in
  let '(r, sw) := ReceiveSelectedExport o
                    (World (w_disk w) (mkSpool input (in_entries (op_parent o) (w_host w))) (w_locks w) (w_trace w) (w_tick w)) in
  let received := match r with Ok (path, None) => Ok path | Ok (_, Some e) => Er e | Er e => Er e end in
  (Ok (match r with Ok answer => answer | Er e => (EmptyString, Some e) end),
   World (w_disk w) (in_publish (op_parent o) (sp_entries (w_host sw)) (w_host w)) (w_locks w)
     (Step (EvReceive transaction (op_parent o) received) (w_disk w) (w_disk w) (w_locks w) :: w_trace w) (w_tick sw)).
Definition recheckPublishedExportParent (journal : ExportJournal) : M B unit :=
  let path := ej_parent journal in
  let! info := wrapv "published export parent is no longer private" (stat_directory path) in
  guard (negb (fi_private info)) "published export parent is no longer private" ;;!
  let! opened := wrapv "published export parent path changed" (stat_directory path) in
  guard (negb (SameFile info opened)) "published export parent path changed" ;;!
  let! identity := wrapv "published export parent identity changed" (lift (diskIdentity info)) in
  guard (bool_decide (identity ≠ ej_destination journal)) "published export parent identity changed".
Definition publishReceived (journal inspected : ExportJournal) (received : outcome string) : M B (outcome string) :=
  let '(published, err) := received in
  match err with
  | Some e => ret (published, Some e)
  | None =>
      let* _ := guard (published ≠s path_join (ej_parent journal) [exportTransactionHex (ej_id journal)])
                  "receiver published an unexpected export path" else published in
      let* _ := recheckPublishedExportParent journal else published in
      let* _ := wrap "export output exists but published phase was not durable"
                  (advanceExportJournalLocked inspected (set_export_phase ExportPublished (ej_snapshot inspected) inspected)) else published in
      ret (published, None)
  end.
Definition publishLocked (stateRoot domainID transactionID : string) (captured : CapturedInspectorStream) : M B (outcome string) :=
  let none := EmptyString in
  let* journal := wrapv "export journal is not ready for publication or safe retry" (loadExportJournal domainID transactionID) else none in
  let* _ := guard ((ej_phase journal ≠s ExportSnapshotReady) && (ej_phase journal ≠s ExportInspected))
              "export journal is not ready for publication or safe retry" else none in
  let* _ := wrap "re-admit exact inspector spool" (AdmitForPublication captured (transactionPath stateRoot (ej_id journal))) else none in
  let* _ := wrap "re-admit snapshot before publication" (admitExactExportSnapshot journal) else none in
  let* identity := admitExportParent (ej_parent journal) else none in
  let* _ := guard (bool_decide (identity ≠ ej_destination journal)) "export destination parent identity changed" else none in
  let* _ := checkExportHeadroom [ej_parent journal] else none in
  let* minimumFree := exportReceiverReserve (ej_parent journal) else none in
  let inspected := set_export_phase ExportInspected (ej_snapshot journal) journal in
  let* _ := (if ej_phase journal =s ExportSnapshotReady then advanceExportJournalLocked journal inspected else ret tt) else none in
  let! received := receiveSpool captured (ej_id journal) (export_options (ej_parent journal) journal minimumFree) in
  publishReceived journal inspected received.
Definition PublishCapturedExport (stateRoot domainID transactionID : string) (captured : CapturedInspectorStream) : M B (outcome string) :=
  let scope := Lock.export_scope domainID transactionID in
  let! result :=
    (let* _ := guard (negb (is_ok (Domain.Parse domainID)) || negb (Workspacex.validUUID transactionID))
                 "invalid export publication identity" else EmptyString in
     let* _ := Acquire scope else EmptyString in
     deferred join_outcome scope (publishLocked stateRoot domainID transactionID captured)) in
  let! removed := attempt (Remove captured) in
  lift (join_outcome (Ok result) removed).

(** ** export_run.go *)

Definition requireAbsentInspectorSpool (id : string) : M B unit :=
  openTransaction id ;;!
  let! found := attempt (fs_lstat (Transaction id) stream_bin) in
  match found with
  | Er e => if err_not_exist e then ret tt else throw e
  | Ok _ => throw (Errorf "unverified private inspector spool exists; inspect the exact helper and transaction before retry")
  end.
(** The journal, the published path, and the error with its mark. *)
Abbreviation run_outcome := ((ExportJournal * string) * option captureFailure)%type.
Definition completeCaptured (stateRoot domainID : string) (journal : ExportJournal) (captured : CapturedInspectorStream) : M B run_outcome :=
  let! (published, err) := PublishCapturedExport stateRoot domainID (ej_id journal) captured in
  match err with
  | Some e => ret ((journal, published), failed (wrapw "publication" e))
  | None =>
      let! verified := attempt (loadExportJournal domainID (ej_id journal)) in
      let expected := set_export_phase ExportPublished (ej_snapshot journal) journal in
      match verified with
      | Ok verified =>
          if bool_decide (verified = expected) then ret ((verified, published), None)
          else ret ((journal, published), failed (Errorf "output exists but durable published state cannot be re-read"))
      | Er _ => ret ((journal, published), failed (Errorf "output exists but durable published state cannot be re-read"))
      end
  end.
Definition completeSelectedWorkspaceWithBundle (stateRoot domainID : string) (journal : ExportJournal) (bundle sourceRoot : string)
  : M B run_outcome :=
  let! (result, failure) :=
    (let! ((captured, observed), failure) := CaptureAdmittedExportInspector stateRoot domainID (ej_id journal) bundle sourceRoot in
     match captured, failure with
     | _, Some f => ret ((journal, EmptyString), Some (mkFailure (cf_unproven f) (wrapw "inspector capture" (cf_error f))))
     | Some captured, None =>
         if bool_decide (observed = journal) then completeCaptured stateRoot domainID journal captured
         else let! e := removing captured (Errorf "export journal changed between bundle and capture") in
              ret ((journal, EmptyString), failed e)
     | None, None => ret ((journal, EmptyString), failed (Errorf "unreachable"))
     end) in
  if match failure with Some f => cf_unproven f | None => false end then ret (result, failure)
  else
    let! removed := attempt (host_ask (in_remove bundle)) in
    ret (result, match removed, failure with
                 | Ok _, _ => failure
                 | Er e, None => failed e
                 | Er e, Some f => Some (mkFailure (cf_unproven f) (join_err (cf_error f) e)) end).
Definition completeSelectedWorkspace (stateRoot domainID : string) (journal : ExportJournal) (sourceRoot isoPath goBinary : string)
  : M B run_outcome :=
  let! bundle := attempt (host_ask (in_build (ej_id journal) sourceRoot isoPath goBinary)) in
  match bundle with
  | Er e => ret ((journal, EmptyString), failed (wrapw "bundle build" e))
  | Ok bundle => completeSelectedWorkspaceWithBundle stateRoot domainID journal bundle sourceRoot
  end.
Definition ExportSelectedWorkspace (observer : bool) (stateRoot domainID volumeID destinationParent : string) (selected : list string)
    (sourceRoot isoPath goBinary : string) : M B run_outcome :=
  let! (journal, err) := CreateExportSnapshot observer stateRoot domainID volumeID destinationParent selected in
  match err with
  | Some e => ret ((journal, EmptyString), failed e)
  | None => completeSelectedWorkspace stateRoot domainID journal sourceRoot isoPath goBinary
  end.

(** [or_return] for the outcomes of a run *)
Definition or_fail {A} (journal : ExportJournal) (m : M B A) (k : A → M B run_outcome) : M B run_outcome :=
  let! r := attempt m in match r with Ok a => k a | Er e => ret ((journal, EmptyString), failed e) end.
Definition resumeSelectedWorkspace (stateRoot domainID transactionID sourceRoot isoPath goBinary : string) : M B run_outcome :=
  or_fail zeroExportJournal (loadExportJournal domainID transactionID) (λ journal,
  or_fail journal (guard ((ej_phase journal ≠s ExportSnapshotReady) && (ej_phase journal ≠s ExportInspected))
                     "export transaction is not ready for snapshot-based resume") (λ _,
  or_fail journal (wrap "re-admit exact snapshot before resume" (admitExactExportSnapshot journal)) (λ _,
  or_fail journal (wrap "export destination is not the original empty private parent" (admitExportParent (ej_parent journal))) (λ identity,
  or_fail journal (ask hf_close) (λ _,
  or_fail journal (guard (bool_decide (identity ≠ ej_destination journal)) "export destination parent identity changed before resume") (λ _,
  or_fail journal (requireAbsentInspectorSpool (ej_id journal)) (λ _,
  completeSelectedWorkspace stateRoot domainID journal sourceRoot isoPath goBinary))))))).
Definition recoverNeeded (domainID : string) (journal : ExportJournal) : M B bool :=
  if (ej_phase journal =s ExportCopying) || (ej_phase journal =s ExportAborted) then ret true
  else if ej_phase journal =s ExportSnapshotReady then
    let! record := attempt (LoadVolume domainID (ej_volume journal)) in
    match record with
    | Ok record => ret (is_export_pending (ej_id journal) (vo_pending record))
    | Er e => if err_not_exist e then ret false else throw e
    end
  else ret false.
Definition ResumeSelectedWorkspace (observer : bool) (stateRoot domainID transactionID sourceRoot isoPath goBinary : string) : M B run_outcome :=
  or_fail zeroExportJournal (loadExportJournal domainID transactionID) (λ journal,
  or_fail journal (recoverNeeded domainID journal) (λ needed,
  if needed then
    if negb observer then ret ((journal, EmptyString), failed (Errorf "export snapshot recovery requires backend observation"))
    else
      let! (recovered, err) := RecoverExportSnapshot observer domainID transactionID in
      match err with
      | Some e => ret ((recovered, EmptyString), failed e)
      | None =>
          if ej_phase recovered =s ExportAborted then ret ((recovered, EmptyString), None)
          else resumeSelectedWorkspace stateRoot domainID transactionID sourceRoot isoPath goBinary
      end
  else resumeSelectedWorkspace stateRoot domainID transactionID sourceRoot isoPath goBinary)).
End exports.
