(* ===== verification/ExportSafety.v ===== *)
(** What the export transaction promises: every change of the journal, of the
    volume's reservation, of the snapshot and of the inspector's spool is made
    under the right locks and only in the phase that allows it; the inspector runs
    and the receiver reads only while the durable journal records the very
    snapshot that is on disk; the published phase follows a completed
    publication; and recovery leaves a transaction at rest. *)
From S2P Require Import Prelude Ids Bytes Json JsonText SessionRecord Outside World Host Logic SessionStore RebuildJournal WorkspaceRecord ExportJournal WorkspaceStore WorkspaceTransition Receiver ReceiverSafety DiskReserve Capture Exports.

(** ** The discipline of an export *)

(** The file of the journal holds it. *)
Definition recorded (dom : string) (j : ExportJournal) (k : disk) : Prop :=
  ej_domain j = dom ∧
  (k !! (Exports, json_name (ej_id j)) = Some (EFile (exportFile j)) ∨ export_at dom (ej_id j) k = Some j).
(** The volume is reserved for this export alone. *)
Definition volume_held (dom : string) (j : ExportJournal) (k : disk) : Prop :=
  ∃ v, volume_at dom (ej_volume j) k = Some v ∧ exactBinding v j = true ∧ is_export_pending (ej_id j) (vo_pending v) = true.
(** The snapshot has the recorded length and its bytes the recorded digest. *)
Definition snapshot_exact `{Digests} (j : ExportJournal) (k : disk) : Prop :=
  ∃ s f, ej_snapshot j = Some s ∧ k !! (Transaction (ej_id j), snapshot_raw) = Some (EFile f) ∧
    Z.of_N (file_size f) = ej_size j ∧ (Z.to_nat (ej_size j) <= String.length (file_blob f))%nat ∧
    sha256 (str_take (Z.to_nat (ej_size j)) (file_blob f)) = es_sha256 s.
Definition under_locks (dom : string) (j : ExportJournal) (L : list string) : Prop :=
  Lock.volume_scope dom (ej_volume j) ∈ L ∧ Lock.session_scope dom (ej_session_name j) ∈ L ∧ Lock.storage_scope dom ∈ L.
Definition stopped_since (j : ExportJournal) (o : list step) : Prop := recently (observed_stopped (ej_backend j)) o.

(** The copy and its cleanup: the journal is copying, the volume reserved, the
    machine observed stopped, all under the three locks. *)
Definition copying_step (dom id : string) (o : list step) (s : step) : Prop :=
  ∃ j, ej_id j = id ∧ ej_phase j = ExportCopying ∧ recorded dom j (st_disk s) ∧ volume_held dom j (st_disk s) ∧
    under_locks dom j (st_locks s) ∧ stopped_since j o.
(** The inspection: the snapshot is the recorded one, under the journal's lock. *)
Definition inspecting_step `{Digests} (dom id : string) (s : step) : Prop :=
  ∃ j, ej_id j = id ∧ (ej_phase j = ExportSnapshotReady ∨ ej_phase j = ExportInspected) ∧ recorded dom j (st_disk s) ∧
    snapshot_exact j (st_disk s) ∧ Lock.export_scope dom id ∈ st_locks s.
Definition received (j : ExportJournal) (s : step) : Prop :=
  st_event s = EvReceive (ej_id j) (ej_parent j) (Ok (path_join (ej_parent j) [exportTransactionHex (ej_id j)])).
(** What each phase stands for when it is made durable. *)
Definition phase_earned `{Digests} (dom : string) (j : ExportJournal) (o : list step) (s : step) : Prop :=
  (ej_phase j = ExportSnapshotReady → snapshot_exact j (st_disk s) ∧ volume_held dom j (st_disk s) ∧ under_locks dom j (st_locks s)) ∧
  (ej_phase j = ExportAborted → st_disk s !! (Exports, ej_id j) = None ∧ under_locks dom j (st_locks s)) ∧
  (ej_phase j = ExportInspected → snapshot_exact j (st_disk s)) ∧
  (ej_phase j = ExportPublished → recently (received j) o).
(** A change of the volume's record: the reservation or its end. *)
Definition reservation_step (dom : string) (j : ExportJournal) (v : Volume) (o : list step) (s : step) : Prop :=
  (vo_disk v = Some (ej_source j) ∧ under_locks dom j (st_locks s) ∧ recorded dom j (st_disk s)) ∧
  (ej_phase j = ExportCopying ∧ is_export_pending (ej_id j) (vo_pending v) = true ∧ exactBinding v j = true ∧ stopped_since j o ∨
   vo_pending v = None ∧ ej_phase j = ExportSnapshotReady ∧ isSome (ej_snapshot j) = true ∨
   vo_pending v = None ∧ ej_phase j = ExportAborted ∧ st_disk s !! (Exports, ej_id j) = None).

Definition export_step `{Digests} (dom : string) : stepP := λ o s,
  match st_event s with
  | EvAcquire _ | EvRelease _ | EvObserve _ _ => True
  | EvCreate Exports name f =>
      ∃ j, name = json_name (ej_id j) ∧ f = exportFile j ∧ ej_domain j = dom ∧ ej_phase j = ExportCopying ∧
        under_locks dom j (st_locks s) ∧ stopped_since j o
  | EvPublish Exports name f =>
      ∃ old j, name = json_name (ej_id j) ∧ f = exportFile j ∧ Lock.export_scope dom (ej_id j) ∈ st_locks s ∧
        validExportPhaseAdvance old j = true ∧ set_export_phase (ej_phase old) (ej_snapshot old) j = old ∧ phase_earned dom j o s
  | EvPublish Workspaces name f => ∃ j v, name = json_name (ej_volume j) ∧ f = volumeFile v ∧ reservation_step dom j v o s
  | EvMkdir Exports id => copying_step dom id o s
  | EvCreate (Transaction id) name _ | EvWrite (Transaction id) name _ =>
      name = snapshot_raw ∧ copying_step dom id o s ∨ name = stream_bin ∧ inspecting_step dom id s
  | EvRemove (Transaction id) name => name = snapshot_raw ∧ copying_step dom id o s ∨ name = stream_bin
  | EvRemove Exports id => copying_step dom id o s ∧ no_entries (Transaction id) (st_disk s)
  | EvCapture id _ => inspecting_step dom id s
  | EvReceive id parent _ =>
      ∃ j, ej_id j = id ∧ ej_parent j = parent ∧ ej_phase j = ExportInspected ∧ recorded dom j (st_disk s) ∧ snapshot_exact j (st_disk s) ∧
        Lock.export_scope dom id ∈ st_locks s
  | _ => False
  end.

(** What the other processes leave alone while this one holds the domain's
    storage lock: the records of its volumes, and the files of a transaction
    whose journal is still copying. *)
Class ExportProtocol (E : Env) : Prop := {
  protocol_volume : ∀ n held k dom id v, Lock.storage_scope dom ∈ held → volume_at dom id k = Some v →
    env_others n held k !! (Workspaces, json_name id) = k !! (Workspaces, json_name id);
  protocol_snapshot : ∀ n held k dom j, Lock.storage_scope dom ∈ held → recorded dom j k → ej_phase j = ExportCopying →
    env_others n held k !! (Transaction (ej_id j), snapshot_raw) = k !! (Transaction (ej_id j), snapshot_raw) ∧
    env_others n held k !! (Exports, ej_id j) = k !! (Exports, ej_id j);
}.
#[export] Instance quiet_export : ExportProtocol quietEnv.
Proof. by constructor. Qed.

(** ** Lemmas *)

Lemma json_name_not id : id ≠ json_name id.
Proof. intros H. apply (f_equal String.length) in H. unfold json_name in H. rewrite str_length_app in H. cbn in H. lia. Qed.
Lemma export_step_locks `{Digests} dom : lock_free (export_step dom).
Proof. by intros o s sc [Hs|Hs]; unfold export_step; rewrite Hs. Qed.
#[export] Hint Resolve export_step_locks : core.

(** *** What depends on a few files only *)
Lemma recorded_ext dom j k k' :
  k' !! (Exports, json_name (ej_id j)) = k !! (Exports, json_name (ej_id j)) → recorded dom j k → recorded dom j k'.
Proof. intros Hk [Hd [H|H]]; (split; [done|]); [left; congruence|right]. unfold export_at in *. by rewrite (view_ext _ _ _ _ k). Qed.
Lemma volume_held_ext dom j k k' :
  k' !! (Workspaces, json_name (ej_volume j)) = k !! (Workspaces, json_name (ej_volume j)) → volume_held dom j k → volume_held dom j k'.
Proof. intros Hk (v & Hv & Hx). exists v. split; [|done]. unfold volume_at in *. by rewrite (view_ext _ _ _ _ k). Qed.
Lemma snapshot_exact_ext `{Digests} j k k' :
  k' !! (Transaction (ej_id j), snapshot_raw) = k !! (Transaction (ej_id j), snapshot_raw) → snapshot_exact j k → snapshot_exact j k'.
Proof. intros Hk (s & f & Hs & Hf & Hx). exists s, f. by rewrite Hk. Qed.

(** The three locks as they are taken. *)
Lemma under_locks_here dom j L :
  under_locks dom j (Lock.storage_scope dom :: Lock.session_scope dom (ej_session_name j) :: Lock.volume_scope dom (ej_volume j) :: L).
Proof. unfold under_locks. set_solver. Qed.

(** *** Rules for outcomes *)
Section rules.
Context {B : Type} {E : Env}.
Implicit Types (w : world B) (P : stepP).
Lemma wp_or_value {A X} P (value : X) (m : M B A) k (Q : res (outcome X) → world B → Prop) w :
  wp P m (λ r w', match r with Ok a => wp P (k a) Q w' | Er e => Q (Ok (value, Some e)) w' end) w →
  wp P (or_return value m k) Q w.
Proof.
  intros Hm. apply wp_bind, wp_attempt. eapply wp_conseq; [exact Hm|]. intros [a|e] w' H; [exact H|by apply wp_ret].
Qed.
Lemma wp_or_quiet {A X} P (value : X) (m : M B A) k (Q : res (outcome X) → world B → Prop) w :
  quiet m → (∀ a n, m w = (Ok a, retick n w) → wp P (k a) Q (retick n w)) → (∀ e n, Q (Ok (value, Some e)) (retick n w)) →
  wp P (or_return value m k) Q w.
Proof. intros Hm H1 H2. apply wp_or_value, wp_quiet; [done|]. intros [a|e] n Hr; [by apply H1|apply H2]. Qed.
(** Nothing is claimed of the outcome: only the steps matter. *)
Lemma wp_deferred_emits {A} P join scope (m : M B A) w :
  lock_free P → wp P m (λ _ _, True) w → wp P (deferred join scope m) (λ _ _, True) w.
Proof.
  intros HP Hm. apply wp_deferred. eapply wp_conseq; [exact Hm|]. intros r w' _.
  apply wp_Release; [eapply HP; cbn; eauto|done|done].
Qed.
Lemma wp_silent_emits {A} P (m : M B A) (w : world B) : silent m → wp P m (λ _ _, True) w.
Proof. intros Hm. by apply wp_silent. Qed.
Lemma wp_attempt_last {A C} P (m : M B A) (r : res C) (Q : res C → world B → Prop) w :
  wp P m (λ _ w', Q r w') w → wp P (attempt m ;;! lift r) Q w.
Proof. intros Hm. apply wp_bind, wp_attempt. eapply wp_conseq; [exact Hm|]. intros r' w' H. by apply wp_lift. Qed.
End rules.

(** *** Quiet parts *)
Section quiet_parts.
Context {B : Type} {E : Env} {H : Host B} {R : ReservePlatform} {F : HostFiles} {S : SourceDisk} {D : Digests}.
Implicit Types (w : world B) (P : stepP).

#[local] Hint Resolve quiet_stat_directory quiet_stat_file quiet_contextErr : quiet.
Lemma quiet_readSource off len : quiet (readSource off len : M B _).
Proof. unfold readSource. quiet_tac. Qed.
Lemma quiet_readSnapshot id off len : quiet (readSnapshot id off len : M B _).
Proof. unfold readSnapshot. quiet_tac. Qed.
Lemma quiet_hashChunks n (read : Z → Z → M B string) off rem : (∀ a b, quiet (read a b)) → quiet (hashChunks n read off rem).
Proof. intros Hr. revert off rem. induction n as [|n IH]; intros off rem; cbn [hashChunks]; quiet_tac; auto. Qed.
Lemma quiet_hashExact (read : Z → Z → M B string) size : (∀ a b, quiet (read a b)) → quiet (hashExactExportBytes read size).
Proof. intros Hr. unfold hashExactExportBytes. quiet_tac. by apply quiet_hashChunks. Qed.
Lemma quiet_hashSnapshot id size : quiet (hashExactExportBytes (readSnapshot id) size : M B _).
Proof. apply quiet_hashExact, quiet_readSnapshot. Qed.
Lemma quiet_hashSource size : quiet (hashExactExportBytes readSource size : M B _).
Proof. apply quiet_hashExact, quiet_readSource. Qed.
#[local] Hint Resolve quiet_readSource quiet_hashSnapshot quiet_hashSource : quiet.
Lemma quiet_admitExportParent path : quiet (admitExportParent path : M B _).
Proof. unfold admitExportParent. quiet_tac. Qed.
Lemma quiet_newExportUUID : quiet (newExportUUID : M B _).
Proof. unfold newExportUUID. quiet_tac. Qed.
Lemma quiet_requireDistinct i : quiet (requireDistinctExportSnapshot i : M B _).
Proof. unfold requireDistinctExportSnapshot. quiet_tac. Qed.
Lemma quiet_openTransaction id : quiet (openTransaction id : M B _).
Proof. unfold openTransaction. quiet_tac. Qed.
#[local] Hint Resolve quiet_openTransaction : quiet.
Lemma quiet_admitExact j : quiet (admitExactExportSnapshot j : M B _).
Proof. unfold admitExactExportSnapshot. quiet_tac. Qed.
Lemma quiet_requireAbsent id : quiet (requireAbsentSnapshotDirectory id : M B _).
Proof. unfold requireAbsentSnapshotDirectory. quiet_tac. Qed.
Lemma quiet_recheckParent j : quiet (recheckPublishedExportParent j : M B _).
Proof. unfold recheckPublishedExportParent. quiet_tac. Qed.
Lemma quiet_requireAbsentSpool id : quiet (requireAbsentInspectorSpool id : M B _).
Proof. unfold requireAbsentInspectorSpool. quiet_tac. Qed.
Lemma quiet_prepareRequest root dom id : quiet (prepareExportInspectorRequestLocked root dom id : M B _).
Proof. unfold prepareExportInspectorRequestLocked. pose proof quiet_admitExact. quiet_tac; auto. Qed.
Lemma quiet_recoverNeeded dom j : quiet (recoverNeeded dom j : M B _).
Proof. unfold recoverNeeded. quiet_tac. Qed.

(** *** Reading the snapshot *)
Lemma readSnapshot_ok id off len w bytes w' :
  readSnapshot id off len w = (Ok bytes, w') →
  ∃ f, w_disk w !! (Transaction id, snapshot_raw) = Some (EFile f) ∧ w_disk w' = w_disk w ∧
    bytes = str_take (Z.to_nat len) (str_drop (Z.to_nat off) (file_blob f)) ∧ Z.of_nat (String.length bytes) = len.
Proof.
  unfold readSnapshot. intros Hr. apply bind_ok in Hr as (f & w1 & [Hf ->]%fs_read_ok & Hr).
  apply bind_ok in Hr as ([] & w2 & [Hg ->]%guard_ok & Hr). apply ret_ok in Hr as [-> ->].
  apply negb_false_iff, Z.eqb_eq in Hg. by exists f.
Qed.
Lemma contextErr_ok w u w' : contextErr w = (Ok u, w') → w_disk w' = w_disk w.
Proof. intros Hc. destruct (quiet_contextErr (B := B) w) as (r & n & Hq). rewrite Hq in Hc. by injection Hc as _ <-. Qed.
Lemma take_take_drop a b s : str_take a s +:+ str_take b (str_drop a s) = str_take (a + b) s.
Proof. revert s. induction a as [|a IH]; intros [|c s]; [by destruct b|done|by destruct b|]. cbn. unfold String.append in *. cbn. by rewrite IH. Qed.
(** What is hashed is the file's bytes, and all of them are there. *)
Lemma hashChunks_snapshot n id off rem w bytes w' f :
  0 <= off → 0 <= rem → w_disk w !! (Transaction id, snapshot_raw) = Some (EFile f) →
  hashChunks n (readSnapshot id) off rem w = (Ok bytes, w') →
  bytes = str_take (Z.to_nat rem) (str_drop (Z.to_nat off) (file_blob f)) ∧ Z.of_nat (String.length bytes) = rem.
Proof.
  revert off rem w bytes w'. induction n as [|n IH]; intros off rem w bytes w' Ho Hm Hf Hh; cbn [hashChunks] in Hh.
  - destruct (Z.leb_spec rem 0); [|done]. assert (rem = 0) as -> by lia. apply ret_ok in Hh as [-> _]. split; [by destruct (str_drop _ _)|done].
  - destruct (Z.leb_spec rem 0).
    { assert (rem = 0) as -> by lia. apply ret_ok in Hh as [-> _]. split; [by destruct (str_drop _ _)|done]. }
    apply bind_ok in Hh as (u & w1 & Hc%contextErr_ok & Hh). apply bind_ok in Hh as (chunk & w2 & Hr & Hh).
    apply bind_ok in Hh as (rest & w3 & Hrest & Hh). apply ret_ok in Hh as [-> _].
    apply readSnapshot_ok in Hr as (g & Hg & Hd & -> & Hlen). rewrite Hc in Hg. rewrite Hf in Hg. injection Hg as <-.
    assert (0 < exportCopyBufferBytes) as Hpos by done.
    set (len := Z.min exportCopyBufferBytes rem) in *.
    apply IH in Hrest as [-> Hl]; [|lia|lia|by rewrite Hd, Hc]. split.
    + rewrite Z2Nat.inj_add, <-drop_drop, take_take_drop, <-Z2Nat.inj_add by lia. f_equal. f_equal. lia.
    + rewrite str_length_app. lia.
Qed.
Lemma hashSnapshot_ok id size w hash w' f :
  0 <= size → w_disk w !! (Transaction id, snapshot_raw) = Some (EFile f) →
  hashExactExportBytes (readSnapshot id) size w = (Ok hash, w') →
  (Z.to_nat size <= String.length (file_blob f))%nat ∧ hash = sha256 (str_take (Z.to_nat size) (file_blob f)).
Proof.
  intros Hs Hf Hh. unfold hashExactExportBytes in Hh. apply bind_ok in Hh as (bytes & w1 & Hb & Hh). apply ret_ok in Hh as [-> _].
  eapply hashChunks_snapshot in Hb as [Heq Hl]; [|done|done|done]. cbn [str_drop] in Heq. change (str_drop (Z.to_nat 0) (file_blob f)) with (file_blob f) in Heq.
  rewrite Heq. split; [|done]. rewrite Heq in Hl.
  destruct (Nat.le_gt_cases (Z.to_nat size) (String.length (file_blob f))) as [|Hgt]; [done|].
  assert (String.length (str_take (Z.to_nat size) (file_blob f)) <= String.length (file_blob f))%nat as Hle.
  { rewrite (take_drop (Z.to_nat size) (file_blob f)) at 2. rewrite str_length_app. lia. }
  lia.
Qed.
(** An admission of the snapshot establishes the digest. *)
Lemma stat_file_ok d name w info w' :
  stat_file d name w = (Ok info, w') →
  w_disk w' = w_disk w ∧ (fi_private info = true → ∃ f, w_disk w !! (d, name) = Some (EFile f) ∧ fi_size info = Z.of_N (file_size f)).
Proof.
  unfold stat_file. intros Hs. apply bind_ok in Hs as (e & w1 & He & Hs). apply bind_ok in Hs as (i & w2 & Hi & Hs).
  apply ret_ok in Hs as [-> ->]. unfold ask in Hi. injection Hi as _ <-.
  unfold fs_lstat in He. destruct (now_fault w); [|done..]. destruct (w_disk w !! (d, name)) as [e'|] eqn:Ek; [|done]. injection He as -> <-.
  split; [done|]. destruct e as [f| |]; [|done..]. intros _. by exists f.
Qed.
Lemma admitExact_ok j w u w' :
  0 <= ej_size j → admitExactExportSnapshot j w = (Ok u, w') → snapshot_exact j (w_disk w).
Proof.
  intros Hs Ha. unfold admitExactExportSnapshot in Ha.
  apply bind_ok in Ha as ([] & w0 & Ho & Ha). destruct (quiet_openTransaction (ej_id j) w) as (r0 & n0 & Hq0). rewrite Hq0 in Ho. injection Ho as -> <-.
  apply bind_ok in Ha as (opening & w1 & [Hd1 Hp]%stat_file_ok & Ha). apply bind_ok in Ha as ([] & w2 & [Hg ->]%guard_ok & Ha).
  apply negb_false_iff in Hg. destruct (Hp Hg) as (f & Hf & _). cbn [w_disk retick] in *.
  apply bind_ok in Ha as (info & w3 & Hi & Ha). apply wrapv_ok, stat_file_ok in Hi as [Hd3 Hi].
  apply bind_ok in Ha as ([] & w4 & [Hg4 ->]%guard_ok & Ha). apply orb_false_iff in Hg4 as [_ Hg4]. apply negb_false_iff in Hg4.
  destruct (Hi Hg4) as (f' & Hf' & Hsz). rewrite Hd1, Hf in Hf'. injection Hf' as <-.
  apply bind_ok in Ha as ([] & w5 & [Hg5 ->]%guard_ok & Ha). apply negb_false_iff, Z.eqb_eq in Hg5.
  apply bind_ok in Ha as (identity & w6 & Hid & Ha). apply wrapv_ok, lift_ok in Hid as [_ ->].
  apply bind_ok in Ha as ([] & w7 & [Hg7 ->]%guard_ok & Ha). destruct (ej_snapshot j) as [s|] eqn:Es; [|done].
  apply bind_ok in Ha as (hash & w8 & Hh & Ha). apply wrapv_ok in Hh.
  eapply hashSnapshot_ok in Hh as [Hlen Hhash]; [|done|by rewrite Hd3, Hd1].
  apply bind_ok in Ha as ([] & w9 & [Hg9 ->]%guard_ok & Ha). apply negb_false_iff, String.eqb_eq in Hg9.
  exists s, f. split_and!; [done|done|lia|done|congruence].
Qed.
End quiet_parts.
#[export] Hint Resolve quiet_stat_directory quiet_stat_file quiet_contextErr quiet_readSource quiet_hashSnapshot quiet_hashSource
  quiet_admitExportParent quiet_newExportUUID quiet_requireDistinct quiet_openTransaction quiet_admitExact quiet_requireAbsent
  quiet_recheckParent quiet_requireAbsentSpool quiet_prepareRequest quiet_recoverNeeded : quiet.

(** *** Silent parts *)
Section silent_parts.
Context {B : Type} {E : Env} {H : Host B} {R : ReservePlatform} {F : HostFiles} {S : SourceDisk} {D : Digests}.
Implicit Types (w : world B).
Lemma silent_host_ask {A} (f : B → res A * B) : silent (host_ask f).
Proof. intros w. unfold host_ask. destruct (f (w_host w)) as [r b]. by exists r, b, (w_tick w). Qed.
Lemma silent_attempt {A} (m : M B A) : silent m → silent (attempt m).
Proof. intros Hm w. unfold attempt. destruct (Hm w) as (r & b & n & ->). by eexists _, b, n. Qed.
Lemma silent_disk {A} (m : M B A) w r w' : silent m → m w = (r, w') → w_disk w' = w_disk w.
Proof. intros Hm Hr. destruct (Hm w) as (r0 & b & n & Hq). rewrite Hq in Hr. by injection Hr as _ <-. Qed.
Lemma silent_Admit request : silent (Admit request : M B _).
Proof. apply silent_host_ask. Qed.
Lemma silent_CloseDisk : silent (CloseDisk : M B _).
Proof. apply silent_host_ask. Qed.
Lemma silent_verifyExportSource request expected copied : silent (verifyExportSource request expected copied : M B _).
Proof.
  unfold verifyExportSource. apply silent_bind; [apply silent_Admit|]. intros q. apply silent_bind; [apply silent_attempt|].
  - apply silent_quiet. quiet_tac.
  - intros r. apply silent_bind; [apply silent_attempt, silent_CloseDisk|]. intros _. apply silent_quiet, quiet_lift.
Qed.
End silent_parts.
(** Run a computation whose success is known one command further: the files
    are those it began with. *)
Ltac silent_solve := first [apply silent_verifyExportSource|apply silent_quiet; solve [quiet_tac]].

Ltac ok_bind H a w Ha := apply bind_ok in H as (a & w & Ha & H).
Ltac ok_disk Ha := apply silent_disk in Ha; [|silent_solve].

(** *** The copy *)
Section copy.
Context {B : Type} {E : Env} {H : Host B} {R : ReservePlatform} {F : HostFiles} {S : SourceDisk} {D : Digests}.
Implicit Types (w : world B).
Context (dom : string) (j : ExportJournal) (L : list string).
Context (copying : ej_phase j = ExportCopying) (locks : under_locks dom j L).

(** What holds all along the copy and its cleanup. *)
Record copy_world w : Prop := {
  cw_journal : recorded dom j (w_disk w);
  cw_volume : volume_held dom j (w_disk w);
  cw_locks : w_locks w = L;
  cw_stopped : stopped_since j (w_trace w);
}.
Lemma copy_world_same w w' :
  w_disk w' = w_disk w → w_locks w' = w_locks w → w_trace w' = w_trace w → copy_world w → copy_world w'.
Proof. intros Hd Hl Ht []. constructor; by rewrite ?Hd, ?Hl, ?Ht. Qed.
(** One step on another file. *)
Lemma copy_did ev k w :
  copy_world w → (∀ sc, ev ≠ EvAcquire sc) →
  k !! (Exports, json_name (ej_id j)) = w_disk w !! (Exports, json_name (ej_id j)) →
  k !! (Workspaces, json_name (ej_volume j)) = w_disk w !! (Workspaces, json_name (ej_volume j)) →
  copying_step dom (ej_id j) (w_trace w) (Step ev (w_disk w) k (w_locks w)) ∧ copy_world (did ev k w).
Proof.
  intros [Hj Hv HL Hs] Hev Hk1 Hk2.
  assert (recorded dom j k) as Hj' by by eapply recorded_ext. assert (volume_held dom j k) as Hv' by by eapply volume_held_ext.
  split; [exists j; rewrite HL; split_and!; done|]. constructor; try done. by apply recently_cons.
Qed.
Lemma copy_insert ev d name e w :
  copy_world w → (∀ sc, ev ≠ EvAcquire sc) → (d, name) ≠ (Exports, json_name (ej_id j)) → (d, name) ≠ (Workspaces, json_name (ej_volume j)) →
  let k := <[(d, name) := e]> (w_disk w) in
  copying_step dom (ej_id j) (w_trace w) (Step ev (w_disk w) k (w_locks w)) ∧ copy_world (did ev k w).
Proof. intros Hw Hev H1 H2 k. subst k. apply copy_did; [done|done|by rewrite lookup_insert_ne..]. Qed.
Lemma copy_delete ev d name w :
  copy_world w → (∀ sc, ev ≠ EvAcquire sc) → (d, name) ≠ (Exports, json_name (ej_id j)) → (d, name) ≠ (Workspaces, json_name (ej_volume j)) →
  let k := delete (d, name) (w_disk w) in
  copying_step dom (ej_id j) (w_trace w) (Step ev (w_disk w) k (w_locks w)) ∧ copy_world (did ev k w).
Proof. intros Hw Hev H1 H2 k. subst k. apply copy_did; [done|done|by rewrite lookup_delete_ne..]. Qed.
#[local] Ltac copy_same := match goal with H : copy_world ?w |- copy_world _ => by apply (copy_world_same w) end.

Lemma wp_copyChunks n id copied size (Q : res string → world B → Prop) w :
  id = ej_id j → copy_world w → (∀ r w', copy_world w' → Q r w') → wp (export_step dom) (copyChunks n id copied size) Q w.
Proof.
  intros ->. revert copied w Q. induction n as [|n IH]; intros copied w Q Hw HQ; cbn [copyChunks]; destruct (size <=? copied).
  1,3: by apply wp_ret, HQ. 1: by apply wp_throw, HQ.
  apply wp_bind, wp_quiet; [apply quiet_contextErr|]. intros [[]|e] n0 _; [|apply HQ; copy_same].
  apply wp_bind, wp_quiet; [apply quiet_readSource|]. intros [chunk|e] n1 _; [|apply HQ; copy_same].
  apply wp_bind, wp_fs_append; [|intros e; apply HQ; copy_same]. intros f b _ k. set (w1 := retick n1 (retick n0 w)) in *.
  destruct (copy_insert (EvWrite (Transaction (ej_id j)) snapshot_raw (appended f b)) (Transaction (ej_id j)) snapshot_raw (EFile (appended f b)) w1)
    as [Hs Hc]; [subst w1; copy_same|done|done|done|].
  split; [by left|]. split; [intros _|intros e; by apply HQ].
  apply wp_bind, IH; [done|]. intros [rest|e] w2 Hw2; [by apply wp_ret, HQ|by apply HQ].
Qed.

(** The checks that follow the copy read back what was written. *)
Lemma wp_copyExportSnapshot request (Q : res ExportSnapshot → world B → Prop) w :
  0 <= ej_size j → copy_world w →
  (∀ r w', copy_world w' →
     (∀ s, r = Ok s → snapshot_exact (set_export_phase ExportSnapshotReady (Some s) j) (w_disk w')) → Q r w') →
  wp (export_step dom) (copyExportSnapshot request j) Q w.
Proof.
  intros Hsize Hw HQ. unfold copyExportSnapshot. apply wp_bind, wp_fs_create; [|intros e _; apply HQ; [copy_same|done]].
  intros _ f' _ k.
  destruct (copy_insert (EvCreate (Transaction (ej_id j)) snapshot_raw (bytes_file "")) (Transaction (ej_id j)) snapshot_raw (EFile f') w)
    as [Hs Hc]; [done|done|done|done|].
  split; [by left|]. split; [intros _|intros e; by apply HQ].
  apply wp_bind, wp_quiet; [apply quiet_ask|]. intros [[]|e] n _; [|apply HQ; [copy_same|done]].
  apply wp_bind, wp_copyChunks; [done|copy_same|]. intros [bytes|e] w2 Hw2; [|by apply HQ].
  match goal with |- wp _ ?m _ _ => assert (silent m) as Hsil end.
  { repeat (apply silent_bind; [silent_solve|intros ?]). silent_solve. }
  apply wp_silent; [exact Hsil|]. intros r b n2 Hr. apply HQ; [by apply (copy_world_same w2)|]. intros s ->. cbn [w_disk rehost].
  clear HQ Hsil. ok_bind Hr u3 w3 H3. ok_disk H3. ok_bind Hr copyInfo w4 H4. ok_disk H4. ok_bind Hr u5 w5 H5. ok_disk H5.
  ok_bind Hr ident w6 H6. ok_disk H6. ok_bind Hr u7 w7 H7. ok_disk H7.
  ok_bind Hr pathInfo w8 H8. apply wrapv_ok, stat_file_ok in H8 as [Hd8 Hpriv]. ok_bind Hr u9 w9 H9. apply guard_ok in H9 as [Hg9 ->].
  apply orb_false_iff in Hg9 as [_ Hg9]. apply negb_false_iff in Hg9. destruct (Hpriv Hg9) as (f & Hf & _).
  ok_bind Hr u10 w10 H10. ok_disk H10. ok_bind Hr hash w11 H11. apply wrapv_ok in H11.
  assert (w_disk w10 !! (Transaction (ej_id j), snapshot_raw) = Some (EFile f)) as Hf10 by congruence.
  pose proof (hashSnapshot_ok _ _ _ _ _ _ Hsize Hf10 H11) as [Hlen Hhash]. ok_disk H11.
  ok_bind Hr u12 w12 H12. apply guard_ok in H12 as [Hg12 ->]. apply negb_false_iff, String.eqb_eq in Hg12.
  ok_bind Hr u13 w13 H13. ok_disk H13.
  ok_bind Hr finalInfo w14 H14. apply wrapv_ok, stat_file_ok in H14 as [Hd14 Hpriv14]. ok_bind Hr u15 w15 H15. apply guard_ok in H15 as [Hg15 ->].
  apply orb_false_iff in Hg15 as [Hg15 Hp15]. apply orb_false_iff in Hg15 as [_ Hsz]. apply negb_false_iff in Hp15, Hsz. apply Z.eqb_eq in Hsz.
  destruct (Hpriv14 Hp15) as (g & Hg & Hsz'). assert (g = f) as -> by congruence.
  ok_bind Hr openInfo w16 H16. ok_bind Hr u17 w17 H17. ok_bind Hr u18 w18 H18. ok_bind Hr u19 w19 H19. apply ret_ok in Hr as [-> _].
  exists (mkExportSnapshot ident (sha256 bytes)), f. cbn [set_export_phase ej_id ej_size ej_snapshot es_sha256].
  split_and!; [done|congruence|congruence|done|congruence].
Qed.
End copy.

(** *** Advancing the journal, ending the reservation *)
Lemma set_export_phase_fields p s j :
  ej_id (set_export_phase p s j) = ej_id j ∧ ej_domain (set_export_phase p s j) = ej_domain j ∧ ej_volume (set_export_phase p s j) = ej_volume j ∧
  ej_session_name (set_export_phase p s j) = ej_session_name j.
Proof. done. Qed.
Lemma exactBinding_phase v p s j : exactBinding v (set_export_phase p s j) = exactBinding v j.
Proof. done. Qed.
Lemma same_binding old next :
  set_export_phase (ej_phase old) (ej_snapshot old) next = old →
  ej_id next = ej_id old ∧ ej_domain next = ej_domain old ∧ ej_volume next = ej_volume old ∧ ej_session_name next = ej_session_name old.
Proof. by intros <-. Qed.

Section advance.
Context {B : Type} {E : Env} {H : Host B} {D : Digests}.
Implicit Types (w : world B) (P : stepP).
Definition journal_event (j : ExportJournal) : event := EvPublish Exports (json_name (ej_id j)) (exportFile j).
Definition journal_disk (j : ExportJournal) (k : disk) : disk := <[(Exports, json_name (ej_id j)) := EFile (exportFile j)]> k.
Lemma recorded_written dom j k : ej_domain j = dom → recorded dom j (journal_disk j k).
Proof. intros Hd. split; [done|]. left. apply lookup_insert_eq. Qed.

Lemma wp_advanceLocked P expected next (Q : res unit → world B → Prop) w :
  (export_at (ej_domain expected) (ej_id expected) (w_disk w) = Some expected → validExportPhaseAdvance expected next = true →
   set_export_phase (ej_phase expected) (ej_snapshot expected) next = expected →
   P (w_trace w) (Step (journal_event next) (w_disk w) (journal_disk next (w_disk w)) (w_locks w)) ∧
   ∀ r n, Q r (did (journal_event next) (journal_disk next (w_disk w)) (retick n w))) →
  (∀ e n, Q (Er e) (retick n w)) →
  wp P (advanceExportJournalLocked expected next) Q w.
Proof.
  intros H1 H2. unfold advanceExportJournalLocked. assert (∀ e, Q (Er e) w) as H2' by (intros; rewrite (retick_self w); apply H2).
  apply wp_bind, wp_lift. destruct (validateExportJournal expected) as [[]|e]; [|apply H2'].
  apply wp_bind, wp_lift. destruct (validateExportJournal next) as [[]|e]; [|apply H2'].
  wp_guard as Hg by (apply H2'). apply orb_false_iff in Hg as [Hb Hv]. apply negb_false_iff in Hv. apply bool_decide_eq_false, dec_stable in Hb.
  wp_read as current n Hr by (apply H2). apply loadExportJournalFromRoot_ok in Hr.
  wp_guard as Hc by (apply H2). apply bool_decide_eq_false, dec_stable in Hc as ->.
  apply wp_bind, wp_lift. unfold encodeExportJournal. destruct (check _ _) as [[]|e]; [cbn|apply H2].
  destruct (H1 Hr Hv Hb) as [HP HQ]. apply wp_fs_replace; [exact HP|intros r; apply HQ|intros e _; apply (H2 e (Datatypes.S n))].
Qed.
Lemma wp_advanceExport P expected next (Q : res unit → world B → Prop) w :
  lock_free P →
  (∀ w1, took (Lock.export_scope (ej_domain expected) (ej_id expected)) w w1 →
     export_at (ej_domain expected) (ej_id expected) (w_disk w1) = Some expected → validExportPhaseAdvance expected next = true →
     set_export_phase (ej_phase expected) (ej_snapshot expected) next = expected →
     P (w_trace w1) (Step (journal_event next) (w_disk w1) (journal_disk next (w_disk w1)) (w_locks w1)) ∧
     ∀ r w2, w_locks w2 = w_locks w → w_disk w2 = journal_disk next (w_disk w1) → Q r w2) →
  (∀ e w2, w_locks w2 = w_locks w → Q (Er e) w2) →
  wp P (advanceExportJournal expected next) Q w.
Proof.
  intros HP H1 H2. unfold advanceExportJournal. apply wp_bind, wp_lift. destruct (validateExportJournal expected) as [[]|e]; [|by apply H2].
  apply wp_bind, wp_Acquire_took; [done| |intros e n; by apply H2]. intros w1 Ht. cbn beta iota.
  apply wp_deferred. pose proof Ht as [Hfree Hlocks _ _ _]. apply wp_advanceLocked.
  - intros Hx Hv Hb. destruct (H1 w1 Ht Hx Hv Hb) as [Hstep HQ]. split; [done|]. intros r n.
    eapply wp_Release_held; [done|exact Hlocks|done|]. intros r2 w2 Hl Hd _ _. apply HQ; [done|]. by rewrite Hd.
  - intros e n. eapply wp_Release_held; [done|exact Hlocks|done|]. intros r2 w2 Hl Hd _ _. by apply H2.
Qed.

Context (dom : string).
Lemma is_export_pending_ready id p : is_export_pending id p = is_exact_pending id p.
Proof. done. Qed.
Lemma exactBinding_disk v j : exactBinding v j = true → vo_disk v = Some (ej_source j).
Proof. unfold exactBinding. intros Hx. bsimpl. done. Qed.
Lemma volume_disk_exports v k name : volume_disk v k !! (Exports, name) = k !! (Exports, name).
Proof. by apply lookup_insert_ne. Qed.
(** The end of a reservation after the snapshot is durable. *)
Definition unreserved (j : ExportJournal) (k : disk) : Prop := ∃ v, volume_at dom (ej_volume j) k = Some v ∧ vo_pending v = None.
(** A transaction at rest: the snapshot is ready or the export aborted, and the
    volume is reserved no more. *)
Definition settled_export (j : ExportJournal) (k : disk) : Prop :=
  (ej_phase j = ExportSnapshotReady ∨ ej_phase j = ExportAborted) ∧ recorded dom j k ∧ unreserved j k.
Lemma unreserved_written j v k :
  ej_volume j = vo_id v → volume_ok dom (set_pending None v) → volume_ints v = true → unreserved j (volume_disk (set_pending None v) k).
Proof. intros Hj Hv Hi. exists (set_pending None v). split; [|done]. rewrite Hj. by apply (volume_at_written dom (set_pending None v)). Qed.
Lemma wp_finishPending ready (Q : res unit → world B → Prop) w :
  under_locks dom ready (w_locks w) → (∀ r w', w_locks w' = w_locks w → (r = Ok tt → settled_export ready (w_disk w')) → Q r w') →
  wp (export_step dom) (finishExportSnapshotPending dom ready) Q w.
Proof.
  intros HL HQ. unfold finishExportSnapshotPending.
  wp_guard as Hg by (by apply HQ). apply orb_false_iff in Hg as [Hg Hsnap]. apply orb_false_iff in Hg as [Hdom Hph].
  apply negb_false_iff, String.eqb_eq in Hdom, Hph. 
  wp_read as persisted n Hp by (by apply HQ). apply loadExportJournal_ok in Hp. wp_guard as Hc by (by apply HQ).
  apply bool_decide_eq_false, dec_stable in Hc as ->.
  wp_read as current n1 Hv by (by apply HQ). apply LoadVolume_ok in Hv as [Hv _].
  wp_guard as Hb by (by apply HQ). apply negb_false_iff, andb_true_iff in Hb as [_ Hb].
  pose proof (volume_at_ok _ _ _ _ Hv) as (Hid & _ & Hints).
  apply wp_saveTransitionPending; [|intros e n2; by apply HQ]. intros Ha.
  assert (∀ v k, export_at dom (ej_id ready) (volume_disk v k) = export_at dom (ej_id ready) k) as Hother
    by (intros v k; unfold export_at; by rewrite (view_ext _ _ _ _ k) by apply volume_disk_exports).
  split; [|intros r n2; apply HQ; [done|]; intros _; split; [by left|]; split; [split; [done|right; exact (eq_trans (Hother _ _) Hp)]|];
           apply unreserved_written; [by rewrite Hid|by destruct Ha|done]].
  exists ready, (set_pending None current). split; [by rewrite <-Hid|]. split; [done|]. split.
  - split; [by apply exactBinding_disk in Hb|]. split; [done|]. split; [done|]. right.
    cbn [st_disk]. rewrite Hother. exact Hp.
  - right. left. by destruct (ej_snapshot ready).
Qed.
End advance.

(** *** Creation *)
Section create.
Context {B : Type} {E : Env} {EP : ExportProtocol E} {H : Host B} {R : ReservePlatform} {F : HostFiles} {S : SourceDisk} {D : Digests}.
Implicit Types (w : world B).
Context (dom : string).

Lemma took_volume scope w w' id v :
  took scope w w' → Lock.storage_scope dom ∈ w_locks w → volume_at dom id (w_disk w) = Some v →
  w_disk w' !! (Workspaces, json_name id) = w_disk w !! (Workspaces, json_name id).
Proof. intros [_ _ _ [n ->] _] Hin Hv. by eapply protocol_volume. Qed.
Lemma took_snapshot scope w w' j :
  took scope w w' → Lock.storage_scope dom ∈ w_locks w → recorded dom j (w_disk w) → ej_phase j = ExportCopying →
  w_disk w' !! (Transaction (ej_id j), snapshot_raw) = w_disk w !! (Transaction (ej_id j), snapshot_raw) ∧
  w_disk w' !! (Exports, ej_id j) = w_disk w !! (Exports, ej_id j).
Proof. intros [_ _ _ [n ->] _] Hin Hr Hp. by eapply protocol_snapshot. Qed.
Lemma took_held scope w w' j :
  took scope w w' → Lock.storage_scope dom ∈ w_locks w → volume_held dom j (w_disk w) → volume_held dom j (w_disk w').
Proof. intros Ht Hin (v & Hv & Hx). apply (volume_held_ext dom j (w_disk w)); [by eapply took_volume|by exists v]. Qed.

Lemma journal_disk_other j k d name : d ≠ Exports → journal_disk j k !! (d, name) = k !! (d, name).
Proof. intros Hd. apply lookup_insert_ne. by intros [= ?]. Qed.
(** The ready phase is earned by a copy that was read back. *)
Lemma wp_publishReady j s (Q : res unit → world B → Prop) w :
  ej_phase j = ExportCopying → copy_world dom j (w_locks w) w → under_locks dom j (w_locks w) →
  snapshot_exact (set_export_phase ExportSnapshotReady (Some s) j) (w_disk w) →
  (∀ r w', w_locks w' = w_locks w → Q r w') →
  wp (export_step dom) (advanceExportJournal j (set_export_phase ExportSnapshotReady (Some s) j)) Q w.
Proof.
  intros Hph [Hj Hv _ _] HL Hs HQ. pose proof HL as (_ & _ & Hst). set (ready := set_export_phase ExportSnapshotReady (Some s) j) in *.
  pose proof Hj as [Hd _].
  apply wp_advanceExport; [done| |intros e w2; apply HQ]. intros w1 Ht _ Hadv Hsame. rewrite Hd in Ht.
  destruct (took_snapshot _ _ _ _ Ht Hst Hj Hph) as [Hraw _]. pose proof (took_held _ _ _ _ Ht Hst Hv) as Hv1.
  split; [|intros r w2 Hl _; by apply HQ].
  exists j, ready. split; [done|]. split; [done|]. pose proof (tk_locks _ _ _ Ht) as Hl1. rewrite Hl1.
  split; [set_solver|]. split; [done|]. split; [done|]. split; [|done]. intros _. cbn [st_disk st_locks].
  split; [|split].
  - eapply snapshot_exact_ext; [|exact Hs]. rewrite journal_disk_other by done. exact Hraw.
  - change (volume_held dom ready ?k) with (volume_held dom j k). eapply volume_held_ext; [|exact Hv1]. by rewrite journal_disk_other.
  - destruct HL as (H1 & H2 & H3). split_and!; set_solver.
Qed.

Lemma emits_snapshotReserved root record j w :
  volume_at dom (ej_volume j) (w_disk w) = Some record → exactBinding record j = true → ej_phase j = ExportCopying → ej_domain j = dom →
  under_locks dom j (w_locks w) → stopped_since j (w_trace w) →
  wp (export_step dom) (snapshotReserved root dom record j) (λ _ _, True) w.
Proof.
  intros Hv Hb Hph Hd HL Hs. pose proof (volume_at_ok _ _ _ _ Hv) as (Hid & Hok & Hints). unfold snapshotReserved.
  apply wp_or_quiet; [apply quiet_lift| |done]. intros [] n Hval. apply lift_ok in Hval as [Hval _].
  assert (0 <= ej_size j) as Hsize.
  { unfold validateExportJournal in Hval. rewrite check_then_ok in Hval. destruct Hval as [Hval _]. bsimpl. lia. }
  apply wp_or_value, wp_wrap. unfold createExportJournal.
  wp_guard as _ by done. apply wp_bind, wp_lift. destruct (validateExportJournal j) as [[]|e]; [|done].
  apply wp_bind, wp_lift. destruct (encodeExportJournal j) as [raw|e] eqn:Eraw; [|done].
  assert (raw = exportFile j) as ->.
  { unfold encodeExportJournal in Eraw. destruct (check _ _); [|done]. by injection Eraw. }
  apply wp_fs_create; [|done]. intros _ f' _ k. split; [exists j; cbn [st_locks w_locks retick]; done|]. split; [intros ->|done].
  set (w1 := did _ _ _). assert (w_disk w1 !! (Exports, json_name (ej_id j)) = Some (EFile (exportFile j))) as Hj1 by apply lookup_insert_eq.
  assert (volume_at dom (ej_volume j) (w_disk w1) = Some record) as Hv1 by (unfold volume_at in *; rewrite (view_ext _ _ _ _ (w_disk w)); [done|by apply lookup_insert_ne]).
  assert (stopped_since j (w_trace w1)) as Hs1 by by apply recently_cons.
  assert (w_locks w1 = w_locks w) as Hl1 by done. clearbody w1. clear k.
  set (v := set_pending (Some (mkPending ExportSnapshotKind (ej_id j))) record).
  assert (exactBinding v j = true) as Hbv by done.
  assert (is_export_pending (ej_id j) (vo_pending v) = true) as Hpv by (cbn; by rewrite !eqs_refl).
  apply wp_or_value, wp_wrap, wp_saveTransition; [|done]. intros Ha.
  assert (recorded dom j (volume_disk v (w_disk w1))) as Hrec by (split; [done|left; by rewrite volume_disk_exports]).
  split.
  { exists j, v. split; [by rewrite <-Hid|]. split; [done|]. split; [split; [by apply exactBinding_disk|]; split; [by rewrite Hl1|done]|]. by left. }
  intros [[]|e] n1; [|done].
  set (w2 := did _ _ _). assert (copy_world dom j (w_locks w) w2) as Hw2.
  { constructor; [done| |done|by apply recently_cons]. exists v. split; [|done]. rewrite <-Hid.
    change (vo_id record) with (vo_id v). apply volume_at_written; [by destruct Ha|done]. }
  clearbody w2. clear Ha Hrec Hs1 Hv1 Hj1 Hl1 w1.
  apply wp_or_value, wp_wrap, wp_fs_mkdir; [|done]. intros _ k.
  destruct (copy_insert dom j (w_locks w) Hph HL (EvMkdir Exports (ej_id j)) Exports (ej_id j) EDir w2) as [Hst3 Hw3];
    [done|done|intros [= Hx]; by apply json_name_not in Hx|done|].
  split; [exact Hst3|]. intros [[]|e]; [|done]. set (w3 := did _ _ _) in *. clearbody w3. clear Hst3 k Hw2.
  apply wp_or_quiet; [apply quiet_fs_sync| |done]. intros [] n3 _.
  apply wp_or_quiet; [apply quiet_openTransaction| |done]. intros [] n4 _.
  apply wp_or_value, wp_wrap, wp_Run; [|done]. intros n5.
  apply (wp_copyExportSnapshot dom j (w_locks w)); [done|done|done|by apply (copy_world_same dom j _ w3)|].
  intros r w4 Hw4 Hsnap n6. split; [done|]. intros s ->. specialize (Hsnap s eq_refl).
  pose proof (cw_locks _ _ _ _ Hw4) as Hl4.
  apply wp_or_value, wp_wrap, wp_publishReady; [done|by rewrite <-Hl4 in Hw4; apply (copy_world_same dom j _ w4)|by cbn [w_locks retick]; rewrite Hl4|done|].
  intros [[]|e] w5 Hl5; [|done]. cbn [w_locks retick] in Hl5.
  apply wp_or_value, wp_wrap, wp_finishPending; [rewrite Hl5, Hl4; exact HL|]. intros [[]|e] w6 _ _; [by apply wp_ret|done].
Qed.

(** The observation of the stopped machine. *)
Lemma wp_stoppedSession P observer name (Q : res SessionRecord → world B → Prop) w :
  (∀ o id r k L, P o (Step (EvObserve id r) k k L)) →
  (∀ record w', sr_name record = name → w_disk w' = w_disk w → w_locks w' = w_locks w →
     recently (observed_stopped (br_object_id (sr_backend record))) (w_trace w') → Q (Ok record) w') →
  (∀ e w', w_locks w' = w_locks w → Q (Er e) w') →
  wp P (stoppedSession observer dom name) Q w.
Proof.
  intros HP H1 H2. unfold stoppedSession. wp_read as record n Hr by (by apply H2).
  apply LoadRecord_ok, session_at_ids in Hr as [_ Hname]. wp_guard as _ by (by apply H2).
  wp_read as u n1 _ by (by apply H2).
  apply wp_bind, wp_observedStopped; [intros r; apply HP| |intros e w' _ Hl; by apply H2].
  intros s b Hs. apply wp_ret, H1; [done|done|done|]. by apply recently_here.
Qed.
Lemma emits_snapshotAdmitted root vol parent selected record target disk qualified w :
  volume_at dom vol (w_disk w) = Some record → vo_disk record = Some disk → vo_state record = VolAvailable → vo_use record = None →
  vo_attachment record = Some (mkAttachment (sr_id target) (sr_name target) (match vo_attachment record with Some a => at_mount a | None => "" end)) →
  Lock.volume_scope dom vol ∈ w_locks w → Lock.session_scope dom (sr_name target) ∈ w_locks w → Lock.storage_scope dom ∈ w_locks w →
  recently (observed_stopped (br_object_id (sr_backend target))) (w_trace w) →
  wp (export_step dom) (snapshotAdmitted root dom vol parent selected record target disk qualified) (λ _ _, True) w.
Proof.
  intros Hv Hdisk Hst Huse Hatt Hl1 Hl2 Hl3 Hs. unfold snapshotAdmitted.
  apply wp_or_quiet; [apply quiet_guard| |done]. intros _ n _.
  apply wp_or_quiet; [quiet_tac| |done]. intros _ n1 _. apply wp_or_quiet; [apply quiet_admitExportParent| |done]. intros destination n2 _.
  apply wp_or_quiet; [apply quiet_stat_directory| |done]. intros _ n3 _. apply wp_or_quiet; [quiet_tac| |done]. intros _ n4 _.
  apply wp_or_quiet; [apply quiet_newExportUUID| |done]. intros id n5 _.
  apply emits_snapshotReserved; try done. unfold exactBinding, newJournal; cbn [ej_source ej_session_id ej_session_name].
  rewrite Hst, Hdisk, Huse, Hatt. cbn. by rewrite bool_decide_true, !eqs_refl by done.
Qed.
Lemma emits_snapshotLocked observer root vol parent selected binding w :
  Lock.volume_scope dom vol ∈ w_locks w → Lock.session_scope dom (at_session_name binding) ∈ w_locks w → Lock.storage_scope dom ∈ w_locks w →
  wp (export_step dom) (snapshotLocked observer root dom vol parent selected binding) (λ _ _, True) w.
Proof.
  intros Hl1 Hl2 Hl3. unfold snapshotLocked. apply wp_or_quiet; [quiet_tac| |done]. intros record n Hv. apply LoadVolume_ok in Hv as [Hv _].
  destruct (vo_disk record) as [disk|] eqn:Hdisk; [|by apply wp_ret].
  apply wp_or_quiet; [apply quiet_guard| |done]. intros [] n1 [Hg _]%guard_ok. bsimpl. 
  apply wp_or_value, wp_wrap, wp_stoppedSession; [done| |done]. intros target w1 Hname Hd Hl Hs.
  apply wp_or_quiet; [apply quiet_guard| |done]. intros [] n2 [Hg2 _]%guard_ok. bsimpl.
  apply wp_or_value, wp_wrap, wp_Admit. intros [qualified|e] w2 [Hd2 Hl2' Ht2]; [|done].
  cbn [w_disk w_locks w_trace retick] in *.
  apply wp_bind, wp_attempt. eapply wp_conseq; [|intros r w3 _; apply wp_bind, wp_attempt, wp_CloseDisk; intros; by apply wp_lift].
  apply emits_snapshotAdmitted; rewrite ?Hd2, ?Hl2', ?Hl, ?Ht2, ?Hd, ?Hname; try done.
  - by destruct (vo_use record).
  - apply dec_stable in H4. rewrite H4, Hg2. by destruct binding.
Qed.
(** The three locks, in their order. *)
Lemma wp_three_locks {A} (value : A) vol session (body : M B (outcome A)) w :
  (∀ w', Lock.volume_scope dom vol ∈ w_locks w' → Lock.session_scope dom session ∈ w_locks w' → Lock.storage_scope dom ∈ w_locks w' →
     wp (export_step dom) body (λ _ _, True) w') →
  wp (export_step dom)
    (let* _ := AcquireVolumeUse dom vol else value in
     deferred join_outcome (Lock.volume_scope dom vol) (
     let* _ := AcquireSession dom session else value in
     deferred join_outcome (Lock.session_scope dom session) (
     let* _ := AcquireStorageOperation dom else value in
     deferred join_outcome (Lock.storage_scope dom) body))) (λ _ _, True) w.
Proof.
  intros Hb. apply wp_or_value, wp_AcquireVolumeUse; [done| |done]. intros w1 [_ Hl1 _ _ _]. apply wp_deferred_emits; [done|].
  apply wp_or_value, wp_AcquireSession; [done| |done]. intros w2 [_ Hl2 _ _ _]. apply wp_deferred_emits; [done|].
  apply wp_or_value, wp_AcquireStorage; [done| |done]. intros w3 [_ Hl3 _ _ _]. apply wp_deferred_emits; [done|].
  apply Hb; rewrite Hl3, Hl2, Hl1; set_solver.
Qed.
Lemma emits_createExportSnapshot observer root vol parent selected :
  emits (export_step dom) (createExportSnapshot observer root dom vol parent selected : M B _).
Proof.
  intros w. unfold createExportSnapshot. apply wp_or_quiet; [apply quiet_guard| |done]. intros _ n _.
  apply wp_or_quiet; [quiet_tac| |done]. intros initial n1 _. destruct (vo_attachment initial) as [binding|]; [|by apply wp_ret].
  apply wp_or_quiet; [apply quiet_guard| |done]. intros _ n2 _. apply wp_three_locks. intros w' H1 H2 H3. by apply emits_snapshotLocked.
Qed.
End create.

(** *** Recovery *)
Section recovery.
Context {B : Type} {E : Env} {EP : ExportProtocol E} {H : Host B} {R : ReservePlatform} {F : HostFiles} {S : SourceDisk} {D : Digests}.
Implicit Types (w : world B).
Context (dom : string).

Lemma requireAbsent_ok id w u w' :
  requireAbsentSnapshotDirectory id w = (Ok u, w') → w_disk w !! (Exports, id) = None.
Proof.
  unfold requireAbsentSnapshotDirectory. intros Hr. ok_bind Hr found w1 Hf. apply attempt_ok in Hf.
  destruct found as [e|e]; [done|]. destruct (err_not_exist e) eqn:Ee; [|done].
  unfold fs_lstat in Hf. destruct (now_fault w); [|by injection Hf as <- _..]. destruct (w_disk w !! (Exports, id)); [done|done].
Qed.
Lemma openTransaction_absent id w e w' :
  openTransaction id w = (Er e, w') → err_not_exist e = true → w_disk w !! (Exports, id) = None.
Proof.
  unfold openTransaction. intros Ho Hn. apply bind_er in Ho as [Ho|(x & w1 & _ & Ho)].
  - unfold fs_lstat in Ho. destruct (now_fault w); [|by injection Ho as <- _..]. destruct (w_disk w !! (Exports, id)); [done|done].
  - destruct x; [|done|]; by injection Ho as <- _.
Qed.

Section partial.
Context (j : ExportJournal) (L : list string) (copying : ej_phase j = ExportCopying) (locks : under_locks dom j L).
#[local] Ltac copy_same := match goal with H : copy_world _ _ _ ?w |- copy_world _ _ _ _ => by apply (copy_world_same dom j L w) end.
(** Cleanup removes the partial copy and its directory, and nothing else; when
    it succeeds the directory is gone. *)
Lemma wp_removeExactPartial (Q : res unit → world B → Prop) w :
  copy_world dom j L w →
  (∀ r w', copy_world dom j L w' → (r = Ok tt → w_disk w' !! (Exports, ej_id j) = None) → Q r w') →
  wp (export_step dom) (removeExactPartialSnapshot j) Q w.
Proof.
  intros Hw HQ. unfold removeExactPartialSnapshot. apply wp_bind, wp_attempt, wp_quiet; [apply quiet_openTransaction|].
  intros [[]|e] n Hopen; cbn beta iota.
  2:{ destruct (err_not_exist e) eqn:Ee; [|apply wp_throw, HQ; [copy_same|done]].
      apply wp_ret, HQ; [copy_same|]. intros _. exact (openTransaction_absent _ _ _ _ Hopen Ee). }
  wp_read as entries n1 _ by (apply HQ; [copy_same|done]). wp_guard as _ by (apply HQ; [copy_same|done]).
  apply wp_bind, wp_attempt, wp_quiet; [apply quiet_stat_file|]. intros found n2 _.
  apply wp_bind. set (w1 := retick n2 _). assert (copy_world dom j L w1) as Hw1 by copy_same. clearbody w1. clear Hopen Hw.
  apply (wp_conseq _ _ (λ r w2, copy_world dom j L w2)).
  { destruct found as [info|e]; [|destruct (err_not_exist e); [by apply wp_ret|by apply wp_throw]].
    wp_guard as _ by done. apply wp_fs_remove; [|intros e; copy_same]. intros e _ k.
    destruct (copy_delete dom j L copying locks (EvRemove (Transaction (ej_id j)) snapshot_raw) (Transaction (ej_id j)) snapshot_raw w1)
      as [Hs Hc]; [done|done|done|done|]. split; [by left|]. intros r. exact Hc. }
  intros [[]|e] w2 Hw2; [|by apply HQ].
  apply wp_bind, wp_quiet; [apply quiet_fs_sync|]. intros [[]|e] n3 _; [|apply HQ; [copy_same|done]].
  apply wp_bind, wp_quiet; [apply quiet_ask|]. intros [[]|e] n4 _; [|apply HQ; [copy_same|done]].
  set (w3 := retick n4 _). assert (copy_world dom j L w3) as Hw3 by copy_same. clearbody w3.
  apply wp_bind, wp_wrap, wp_fs_rmdir; [|intros e; apply HQ; [copy_same|done]]. intros Hdir Hempty k.
  destruct (copy_delete dom j L copying locks (EvRemove Exports (ej_id j)) Exports (ej_id j) w3)
    as [Hs Hc]; [done|done|intros [= Hx]; by apply json_name_not in Hx|done|].
  subst k. split; [split; [exact Hs|intros name; cbn [st_disk]; rewrite lookup_delete_ne by done; apply Hempty]|].
  intros [[]|e]; [|by apply HQ]. apply wp_quiet; [apply quiet_fs_sync|]. intros r n5 _. apply HQ; [refine (copy_world_same dom j L _ (retick n5 _) _ _ _ Hc); done|].
  intros _. cbn. apply lookup_delete_eq.
Qed.
End partial.
(** What a recovery that goes on has established: the journal is aborted and
    its directory gone. *)
Definition aborted_at (j j' : ExportJournal) (k : disk) : Prop :=
  ej_phase j' = ExportAborted ∧ recorded dom j' k ∧ k !! (Exports, ej_id j') = None ∧ set_export_phase (ej_phase j) (ej_snapshot j) j' = j.
Lemma wp_publishAborted j (Q : res unit → world B → Prop) w :
  ej_phase j = ExportCopying → recorded dom j (w_disk w) → w_disk w !! (Exports, ej_id j) = None → under_locks dom j (w_locks w) →
  (∀ r w', w_locks w' = w_locks w →
     (r = Ok tt → aborted_at j (set_export_phase ExportAborted (ej_snapshot j) j) (w_disk w') ∧
        (unreserved dom j (w_disk w) → unreserved dom j (w_disk w'))) → Q r w') →
  wp (export_step dom) (advanceExportJournal j (set_export_phase ExportAborted (ej_snapshot j) j)) Q w.
Proof.
  intros Hph Hj Hgone HL HQ. pose proof HL as (H1 & H2 & Hst). pose proof Hj as [Hd _]. set (next := set_export_phase _ _ _) in *.
  apply wp_advanceExport; [done| |intros e w2 Hl; by apply HQ]. intros w1 Ht _ Hadv Hsame. rewrite Hd in Ht.
  destruct (took_snapshot _ _ _ _ _ Ht Hst Hj Hph) as [_ Hdir]. rewrite Hgone in Hdir. pose proof (tk_locks _ _ _ Ht) as Hl1.
  assert (journal_disk next (w_disk w1) !! (Exports, ej_id next) = None) as Hgone1.
  { unfold journal_disk. rewrite lookup_insert_ne; [exact Hdir|]. intros [= Hx]. by apply (json_name_not (ej_id j)). }
  split.
  - exists j, next. split; [done|]. split; [done|]. rewrite Hl1. split; [set_solver|]. split; [done|]. split; [done|].
    split; [done|]. split; [|done]. intros _. split; [exact Hgone1|]. cbn [st_locks]. split_and!; set_solver.
  - intros r w2 Hl Hk. apply HQ; [done|]. intros _. rewrite Hk.
    split; [split; [done|]; split; [by apply recorded_written|]; split; [exact Hgone1|done]|].
    intros (v & Hv & Hnone). exists v. split; [|done].
    pose proof (took_volume _ _ _ _ _ _ Ht Hst Hv) as Hsame1. unfold volume_at in *. rewrite (view_ext _ _ _ _ (w_disk w)); [done|].
    rewrite <-Hsame1. by apply lookup_insert_ne.
Qed.
Lemma wp_recoverPhase record j (Q : res (ExportJournal + ExportJournal) → world B → Prop) w :
  volume_at dom (ej_volume j) (w_disk w) = Some record → exactBinding record j = true →
  (isSome (vo_pending record) = true → is_export_pending (ej_id j) (vo_pending record) = true) →
  export_at dom (ej_id j) (w_disk w) = Some j → under_locks dom j (w_locks w) → stopped_since j (w_trace w) →
  ej_phase j = ExportCopying ∨ ej_phase j = ExportSnapshotReady ∨ ej_phase j = ExportAborted →
  (∀ r w', w_locks w' = w_locks w →
     (∀ j', r = Ok (inr j') → aborted_at j j' (w_disk w') ∧ (vo_pending record = None → unreserved dom j (w_disk w'))) →
     (∀ j', r = Ok (inl j') → settled_export dom j' (w_disk w')) → Q r w') →
  wp (export_step dom) (recoverPhase dom record j) Q w.
Proof.
  intros Hv Hb Hp Hj HL Hs Hph HQ. unfold recoverPhase. pose proof (export_at_ok _ _ _ _ Hj) as (_ & Hd & _).
  assert (recorded dom j (w_disk w)) as Hrec by (split; [done|by right]).
  destruct Hph as [Hph|[Hph|Hph]]; rewrite Hph; cbn [String.eqb Ascii.eqb Bool.eqb].
  - apply wp_bind. apply (wp_conseq _ _ (λ r w1, w_locks w1 = w_locks w ∧ recorded dom j (w_disk w1) ∧
      (r = Ok tt → w_disk w1 !! (Exports, ej_id j) = None) ∧ (vo_pending record = None → unreserved dom j (w_disk w1)))).
    { destruct (vo_pending record) as [p|] eqn:Ep; cbn [isNone].
      - apply (wp_removeExactPartial j (w_locks w)); [done|done| |].
        + constructor; [done| |done|done]. exists record. rewrite Ep. split; [done|]. split; [done|]. by apply Hp.
        + by intros r w1 [Hj1 _ Hl1 _] Hgone.
      - apply wp_quiet; [apply quiet_requireAbsent|]. intros r n Hr. split; [done|]. split; [done|].
        split; [intros ->; by apply requireAbsent_ok in Hr|]. intros _. by exists record. }
    intros [[]|e] w1 (Hl1 & Hj1 & Hgone & Hun); [|by apply HQ].
    apply wp_bind, wp_publishAborted; [done|done|by apply Hgone|by rewrite Hl1|].
    intros [[]|e] w2 Hl2 Hab; [|by apply HQ; [congruence|..]]. destruct (Hab eq_refl) as [Hab1 Hab2].
    apply wp_ret, HQ; [congruence| |done]. intros j' [= <-]. split; [done|]. intros Hn. by apply Hab2, Hun.
  - apply wp_bind. apply (wp_conseq _ _ (λ r w1, w_locks w1 = w_locks w ∧ (r = Ok tt → settled_export dom j (w_disk w1)))).
    { destruct (vo_pending record) as [p|] eqn:Ep; cbn [isSome].
      - apply wp_bind, wp_quiet; [apply quiet_admitExact|]. intros [[]|e] n _; [|done]. by apply wp_finishPending.
      - apply wp_ret. split; [done|]. intros _. split; [by left|]. split; [done|]. by exists record. }
    intros [[]|e] w1 [Hl1 Hset]; [|by apply HQ]. apply wp_ret, HQ; [done|done|]. intros j' [= <-]. by apply Hset.
  - apply wp_bind, wp_quiet; [apply quiet_requireAbsent|]. intros [[]|e] n Hr; [|by apply HQ]. apply requireAbsent_ok in Hr.
    apply wp_ret, HQ; [done| |done]. intros j' [= <-]. split; [|by exists record].
    split; [done|]. split; [done|]. split; [done|]. by destruct j.
Qed.
(** The answer of a recovery. *)
Definition settled_answer (r : res ExportJournal) (k : disk) : Prop := ∀ j, r = Ok j → settled_export dom j k.
Lemma wp_recoverAdmitted record j qualified w :
  volume_at dom (ej_volume j) (w_disk w) = Some record → exactBinding record j = true →
  (isSome (vo_pending record) = true → is_export_pending (ej_id j) (vo_pending record) = true) →
  export_at dom (ej_id j) (w_disk w) = Some j → under_locks dom j (w_locks w) → stopped_since j (w_trace w) →
  ej_phase j = ExportCopying ∨ ej_phase j = ExportSnapshotReady ∨ ej_phase j = ExportAborted →
  wp (export_step dom) (recoverAdmitted dom record j qualified) (λ r w', settled_answer r (w_disk w')) w.
Proof.
  intros Hv Hb Hp Hj HL Hs Hph. unfold recoverAdmitted. wp_guard as _ by done.
  apply wp_bind, (wp_recoverPhase record j); try done. intros [[j'|j']|e] w1 Hl1 Hab Hset; [| |done].
  { apply wp_ret. intros j'' [= <-]. by apply Hset. }
  destruct (Hab j' eq_refl) as [(Hph' & Hrec & Hgone & Hsame) Hun].
  apply same_binding in Hsame as Hfields. destruct Hfields as (Hid & _ & Hvol & Hname).
  assert (ej_source j' = ej_source j) as Hsrc by by rewrite <-Hsame.
  assert (∀ k, recorded dom j' k → unreserved dom j k → settled_answer (Ok j') k) as Hend.
  { intros k Hr Hu j'' [= <-]. split; [by right|]. split; [done|]. unfold unreserved. by rewrite Hvol. }
  apply wp_bind. destruct (vo_pending record) as [p|] eqn:Ep; cbn [isSome]; [|by apply wp_ret, wp_ret, Hend, Hun].
  pose proof (volume_at_ok _ _ _ _ Hv) as (Hvid & _ & Hints).
  assert (∀ v k, recorded dom j' k → recorded dom j' (volume_disk v k)) as Hkeep
    by (intros v k; apply recorded_ext; by apply volume_disk_exports).
  apply wp_saveTransitionPending; [|done]. intros Ha. split.
  - exists j', (set_pending None record). split; [cbn; congruence|]. split; [done|]. split.
    + split; [rewrite Hsrc; by apply exactBinding_disk|]. split; [|by apply Hkeep].
      cbn [st_locks]. rewrite Hl1. unfold under_locks. by rewrite Hvol, Hname.
    + right. right. split; [done|]. split; [done|]. cbn [st_disk]. by rewrite volume_disk_exports.
  - intros [[]|e] n; [|done]. apply wp_ret, Hend; [by apply Hkeep|]. apply unreserved_written; [by rewrite Hvid|by destruct Ha|done].
Qed.
Lemma wp_recoverLocked observer transaction initial w :
  ej_phase initial = ExportCopying ∨ ej_phase initial = ExportSnapshotReady ∨ ej_phase initial = ExportAborted →
  under_locks dom initial (w_locks w) →
  wp (export_step dom) (recoverLocked observer dom transaction initial) (λ r w', settled_answer r (w_disk w')) w.
Proof.
  intros Hph HL. unfold recoverLocked. wp_read as journal n Hj by done. apply loadExportJournal_ok in Hj.
  wp_guard as Hg by done. apply bool_decide_eq_false, dec_stable in Hg as <-. pose proof (export_at_ok _ _ _ _ Hj) as (Hid & Hdom & _).
  wp_read as record n1 Hv by done. apply LoadVolume_ok in Hv as [Hv _].
  destruct (isNone (vo_pending record) && _) eqn:Hdone.
  { apply wp_ret. intros j [= <-]. apply andb_true_iff in Hdone as [Hn Hd]. rewrite orb_true_iff, !String.eqb_eq in Hd.
    split; [done|]. split; [split; [done|right; by rewrite Hid]|]. exists record. split; [done|]. by destruct (vo_pending record). }
  wp_guard as Hg by done. apply orb_false_iff in Hg as [Hb Hp]. apply negb_false_iff in Hb. bsimpl.
  apply wp_bind, wp_wrap, wp_stoppedSession; [done| |done]. intros stopped w1 Hname Hd Hl Hs. cbn [w_disk w_locks retick] in *.
  wp_guard as Hg2 by done. bsimpl.
  apply wp_bind, wp_wrap, wp_Admit. intros [qualified|e] w2 [Hd2 Hl2 Ht2]; [|done].
  apply wp_bind, wp_attempt.
  eapply wp_conseq; [|intros r w3 Hr; apply wp_bind, wp_attempt, wp_CloseDisk; intros r' w4 [Hd4 _ _]; apply wp_lift; rewrite Hd4; exact Hr].
  apply wp_recoverAdmitted; rewrite ?Hd2, ?Hl2, ?Ht2, ?Hd, ?Hl, ?Hid; try done.
  - intros Hsome. rewrite Hsome, Hid in Hp. by apply negb_false_iff in Hp.
  - unfold stopped_since. congruence.
Qed.
(** The recovery, like the creation, keeps the discipline; when it succeeds the
    transaction is at rest. *)
Definition recovered (r : res (outcome ExportJournal)) (k : disk) : Prop := ∀ j, r = Ok (j, None) → settled_export dom j k.
Lemma recovered_failed a e k : recovered (Ok (a, Some e)) k.
Proof. by intros j. Qed.
#[local] Hint Resolve recovered_failed : core.
Lemma closed_recovered (r : res (outcome ExportJournal)) r2 k : recovered r k → recovered (join_outcome r r2) k.
Proof. intros Hr. destruct r as [[j e]|e], r2 as [[]|e2]; try done. Qed.
Lemma wp_deferred_recovered scope (m : M B (outcome ExportJournal)) w :
  wp (export_step dom) m (λ r w', recovered r (w_disk w')) w →
  wp (export_step dom) (deferred join_outcome scope m) (λ r w', recovered r (w_disk w')) w.
Proof.
  apply wp_deferred_filter; [done|]. intros r r2 w1 w2 _ Hd _ _ Hr. rewrite Hd. by apply closed_recovered.
Qed.
Lemma wp_RecoverExportSnapshot observer transaction w :
  wp (export_step dom) (RecoverExportSnapshot observer dom transaction : M B _) (λ r w', recovered r (w_disk w')) w.
Proof.
  unfold RecoverExportSnapshot. apply wp_or_quiet; [apply quiet_loadExportJournal| |intros; apply recovered_failed]. intros initial n Hj.
  apply wp_or_quiet; [apply quiet_guard| |intros; apply recovered_failed]. intros [] n1 [Hg _]%guard_ok. 
  apply wp_or_value, wp_AcquireVolumeUse; [done| |intros; apply recovered_failed]. intros w1 [_ Hl1 _ _ _]. apply wp_deferred_recovered.
  apply wp_or_value, wp_AcquireSession; [done| |intros; apply recovered_failed]. intros w2 [_ Hl2 _ _ _]. apply wp_deferred_recovered.
  apply wp_or_value, wp_AcquireStorage; [done| |intros; apply recovered_failed]. intros w3 [_ Hl3 _ _ _]. apply wp_deferred_recovered.
  apply wp_or_value. eapply wp_conseq; [apply wp_recoverLocked|].
  - rewrite !andb_false_iff, !negb_false_iff, !String.eqb_eq in Hg. tauto.
  - unfold under_locks. rewrite Hl3, Hl2, Hl1. set_solver.
  - intros [j|e] w4 Hr; [|apply recovered_failed]. apply wp_ret. intros j' [= <-]. by apply Hr.
Qed.
End recovery.


(** *** Inspection and publication *)
Section inspection.
Context {B : Type} {E : Env} {H : Host B} {R : ReservePlatform} {F : HostFiles} {S : SourceDisk} {I : Inspection B}
        {C : CaptureHost B} {RP : ReceiverPlatform} {D : Digests}.
Implicit Types (w : world B).
Context (dom : string).

(** The removal of a spool is allowed at any time. *)
Lemma emits_Remove id captured w :
  cs_directory captured = Transaction id → wp (export_step dom) (Remove captured) (λ _ _, True) w.
Proof.
  intros Hd. unfold Remove. rewrite Hd. wp_read as r n _ by done.
  apply wp_bind, wp_quiet; [apply quiet_openPrivateParent|]. intros [parent|e] n1 _; [|done].
  wp_guard as _ by done. apply wp_bind, wp_attempt, wp_quiet; [apply quiet_stat_file|]. intros [info|e] n2 _.
  - wp_guard as _ by done. apply wp_bind, wp_fs_remove; [|done]. intros e He k. split; [by right|].
    intros [[]|e']; [by apply wp_fs_sync|done].
  - destruct (err_not_exist e); [by apply wp_ret|by apply wp_throw].
Qed.
Lemma wp_removing {A} id captured e (k : error → M B A) (Q : res A → world B → Prop) w :
  cs_directory captured = Transaction id → (∀ e w', wp (export_step dom) (k e) Q w') →
  wp (export_step dom) (let! e := removing captured e in k e) Q w.
Proof.
  intros Hd Hk. apply wp_bind. unfold removing. apply wp_bind, wp_attempt. eapply wp_conseq; [by eapply emits_Remove|].
  intros r w' _. apply wp_ret, Hk.
Qed.

Lemma journal_size_ok j : validateExportJournal j = Ok tt → 0 <= ej_size j.
Proof. unfold validateExportJournal. rewrite check_then_ok. intros [Hv _]. bsimpl. lia. Qed.
(** The request is prepared over the recorded snapshot. *)
Lemma prepare_ok root id w prepared w' :
  prepareExportInspectorRequestLocked root dom id w = (Ok prepared, w') →
  export_at dom id (w_disk w) = Some (pr_journal prepared) ∧
  (ej_phase (pr_journal prepared) = ExportSnapshotReady ∨ ej_phase (pr_journal prepared) = ExportInspected) ∧
  snapshot_exact (pr_journal prepared) (w_disk w).
Proof.
  unfold prepareExportInspectorRequestLocked. intros Hr. ok_bind Hr journal w1 H1. pose proof H1 as Hj. apply loadExportJournal_ok in Hj.
  apply silent_disk in H1; [|apply silent_quiet, quiet_loadExportJournal].
  ok_bind Hr request w2 H2. apply lift_ok in H2 as [Hreq ->]. ok_bind Hr u w3 H3. apply wrap_ok in H3. apply ret_ok in Hr as [-> _]. cbn [pr_journal].
  unfold encodeExportInspectorRequest in Hreq. destruct (validateExportJournal journal) as [[]|e] eqn:Hv; [|done]. cbn [res_bind] in Hreq.
  rewrite check_then_ok in Hreq. destruct Hreq as [Hph _]. apply orb_true_iff in Hph. rewrite !String.eqb_eq in Hph.
  split; [done|]. split; [done|]. rewrite <-H1. eapply admitExact_ok; [by apply journal_size_ok|exact H3].
Qed.
(** What the run of the inspector does is part of an inspection. *)
Lemma spool_steps j k0 L :
  recorded dom j k0 → snapshot_exact j k0 → ej_phase j = ExportSnapshotReady ∨ ej_phase j = ExportInspected →
  Lock.export_scope dom (ej_id j) ∈ L →
  ∀ o ev b k, spool_event (Transaction (ej_id j)) (ej_id j) ev → only_spool (Transaction (ej_id j)) k0 k → export_step dom o (Step ev b k L).
Proof.
  intros Hj Hs Hph HL o ev b k Hev Hk.
  assert (inspecting_step dom (ej_id j) (Step ev b k L)) as Hstep.
  { exists j. split; [done|]. split; [done|]. split; [eapply recorded_ext; [|exact Hj]; by apply Hk|].
    split; [eapply snapshot_exact_ext; [|exact Hs]; by apply Hk|done]. }
  destruct Hev as [[f ->]|[[f ->]|[->|[r ->]]]]; cbn; auto.
Qed.
(** A capture hands out a spool of the transaction's directory. *)
Definition own_spool (r : res ((option CapturedInspectorStream * ExportJournal) * option captureFailure)) : Prop :=
  ∀ c j f, r = Ok ((Some c, j), f) → cs_directory c = Transaction (ej_id j).
Lemma wp_removing_none id captured e (j : ExportJournal) w :
  cs_directory captured = Transaction id →
  wp (export_step dom) (let! e := removing captured e in ret ((None, j), failed e)) (λ r _, own_spool r) w.
Proof. intros Hd. eapply wp_removing; [exact Hd|]. intros. by apply wp_ret. Qed.
Lemma wp_captureLocked root id bundle source w :
  Lock.export_scope dom id ∈ w_locks w →
  wp (export_step dom) (captureLocked root dom id bundle source) (λ r _, own_spool r) w.
Proof.
  intros HL. unfold captureLocked. apply wp_bind, wp_attempt, wp_quiet; [apply quiet_prepareRequest|].
  intros [prepared|e] n Hp; [|by apply wp_ret]. cbn beta iota. apply prepare_ok in Hp as (Hj & Hph & Hs). set (j := pr_journal prepared) in *.
  pose proof (export_at_ok _ _ _ _ Hj) as (Hid & Hd & _).
  apply wp_bind, wp_attempt, wp_host_ask. destruct (in_admit _ _ _ _) as [[artifacts|e] b]; [|by apply wp_ret]. cbn beta iota.
  set (w1 := World _ _ _ _ _). destruct (_ || _ || _); [by apply wp_ret|].
  apply wp_bind, (wp_CaptureExportInspector (export_step dom) _ _ (w_disk w) (w_locks w)).
  { apply (spool_steps j); [split; [done|right; by rewrite Hid]|done|done|by rewrite Hid]. }
  { by constructor; [apply only_spool_refl|]. }
  intros r w2 _ Hw. destruct r as [[c|f]|e]; [|by apply wp_ret|done].
  destruct Hw as (_ & _ & run & Hc & _). apply wp_bind, wp_attempt, wp_quiet; [apply quiet_admitExact|].
  intros [[]|e] n2 _; cbn beta iota; [|by eapply wp_removing_none].
  apply wp_bind, wp_attempt, wp_quiet; [apply quiet_loadExportJournal|]. intros [current|e] n3 _; cbn beta iota; [|by eapply wp_removing_none].
  destruct (bool_decide _); [|by eapply wp_removing_none]. apply wp_ret. by intros c' j' f' [= <- <- <-].
Qed.
Lemma wp_captureBound root id bundle source (Q : _ → world B → Prop) w :
  (∀ r w', own_spool r → Q r w') →
  wp (export_step dom) (captureBoundExportInspector root dom id bundle source) Q w.
Proof.
  intros HQ. unfold captureBoundExportInspector. destruct (_ || _); [by apply wp_ret, HQ|].
  apply wp_bind, wp_attempt, wp_Acquire_took; [done| |intros e n; by apply wp_ret, HQ]. intros w1 Ht. cbn beta iota.
  apply wp_bind. eapply wp_conseq; [apply wp_captureLocked; rewrite (tk_locks _ _ _ Ht); set_solver|].
  intros [[[captured j] f]|e] w2 Hown; [|by apply HQ].
  apply wp_bind, wp_attempt, wp_Release; [by apply (export_step_locks dom _ _ (Lock.export_scope dom id)); right| |].
  - intros r _. cbn beta iota. destruct r as [[]|e]; [apply wp_ret, HQ; intros c j' f' [= -> -> ->]; by eapply Hown|].
    apply wp_bind. cbn [fst snd]. destruct captured as [c|].
    + unfold removing. apply wp_bind, wp_attempt. eapply wp_conseq; [eapply emits_Remove; by eapply Hown|]. intros r' w' _.
      by apply wp_ret, wp_ret, HQ.
    + by apply wp_ret, wp_ret, HQ.
  - intros _. apply wp_ret, HQ. intros c j' f' [= -> -> ->]. by eapply Hown.
Qed.

(** Only the receiver's own entries change. *)
Lemma wp_receiveSpool P captured transaction o (Q : res (outcome string) → world B → Prop) w :
  (∀ r, P (w_trace w) (Step (EvReceive transaction (op_parent o) r) (w_disk w) (w_disk w) (w_locks w))) →
  (∀ answer w', w_disk w' = w_disk w → w_locks w' = w_locks w →
     (∀ path, answer = (path, None) → w_trace w' = Step (EvReceive transaction (op_parent o) (Ok path)) (w_disk w) (w_disk w) (w_locks w) :: w_trace w) →
     Q (Ok answer) w') →
  wp P (receiveSpool captured transaction o) Q w.
Proof.
  intros HP HQ. unfold wp, receiveSpool. destruct (ReceiveSelectedExport _ _) as [r sw]. split.
  - destruct r as [[path [e|]]|e]; apply HQ; try done. by intros path' [= <-].
  - eexists [_]. split; [reflexivity|]. by split.
Qed.
(** The receiver reported the publication of this path. *)
Definition reported (id path : string) (o : list step) : Prop := ∃ parent s, s ∈ o ∧ st_event s = EvReceive id parent (Ok path).
Definition answered (id : string) (r : res (outcome string)) w : Prop := ∀ path, r = Ok (path, None) → reported id path (w_trace w).
Lemma reported_more id path o o' : o ⊆ o' → reported id path o → reported id path o'.
Proof. intros Ho (parent & s & Hs & He). exists parent, s. split; [by apply Ho|done]. Qed.
Lemma answered_failed id path e w : answered id (Ok (path, Some e)) w.
Proof. by intros p. Qed.
Lemma answered_er id e w : answered id (Er e) w.
Proof. by intros p. Qed.
#[local] Hint Resolve answered_failed answered_er : core.
(** The phase that follows a completed reception. *)
Lemma wp_publishReceived journal inspected answer w :
  Lock.export_scope dom (ej_id inspected) ∈ w_locks w → ej_domain inspected = dom → ej_id journal = ej_id inspected → ej_parent journal = ej_parent inspected →
  (∀ path, answer = (path, None) → ∃ k L o, w_trace w = Step (EvReceive (ej_id inspected) (ej_parent inspected) (Ok path)) k k L :: o) →
  wp (export_step dom) (publishReceived journal inspected answer) (answered (ej_id inspected)) w.
Proof.
  intros HL Hd Hid Hpar Hr. destruct answer as [published [e|]]; [by apply wp_ret, answered_failed|]. cbn [publishReceived].
  destruct (Hr published eq_refl) as (k & L & o & Ht). clear Hr.
  apply wp_or_quiet; [apply quiet_guard| |done]. intros [] n [Hg _]%guard_ok. apply negb_false_iff, String.eqb_eq in Hg as ->.
  apply wp_or_quiet; [apply quiet_recheckParent| |done]. intros [] n1 _.
  apply wp_or_value, wp_wrap, wp_advanceLocked; [|done]. intros _ Hadv Hsame. cbn [w_disk w_locks w_trace retick]. split.
  2:{ intros [[]|e] n2; [|done]. apply wp_ret. intros path [= <-]. exists (ej_parent inspected). eexists. cbn. rewrite Ht.
      split; [by apply list_elem_of_further, list_elem_of_here|]. cbn. by rewrite Hpar, Hid. }
  exists inspected, (set_export_phase ExportPublished (ej_snapshot inspected) inspected).
  split; [done|]. split; [done|]. split; [done|]. split; [done|]. split; [done|]. split; [done|]. split; [done|]. split; [done|].
  intros _. rewrite Ht. apply recently_here. unfold received. cbn [st_event set_export_phase ej_id ej_parent]. by rewrite Hid, Hpar.
Qed.
Lemma wp_publishLocked root id captured w :
  Lock.export_scope dom id ∈ w_locks w → wp (export_step dom) (publishLocked root dom id captured) (answered id) w.
Proof.
  intros HL. unfold publishLocked.
  apply wp_or_quiet; [apply quiet_wrapv, quiet_loadExportJournal| |done]. intros journal n Hj. apply wrapv_ok, loadExportJournal_ok in Hj.
  pose proof (export_at_ok _ _ _ _ Hj) as (Hid & Hd & Hval).
  apply wp_or_quiet; [apply quiet_guard| |done]. intros [] n1 [Hg _]%guard_ok.
  apply wp_or_quiet; [apply quiet_wrap, quiet_AdmitForPublication| |done]. intros [] n2 _.
  apply wp_or_quiet; [apply quiet_wrap, quiet_admitExact| |done]. intros [] n3 Hs. apply wrap_ok, admitExact_ok in Hs; [|by apply journal_size_ok].
  apply wp_or_quiet; [apply quiet_admitExportParent| |done]. intros identity n4 _.
  apply wp_or_quiet; [apply quiet_guard| |done]. intros [] n5 _.
  apply wp_or_quiet; [apply quiet_checkExportHeadroom| |done]. intros [] n6 _.
  apply wp_or_quiet; [apply quiet_exportReceiverReserve| |done]. intros minimumFree n7 _.
  cbn [w_disk retick] in Hs. set (w1 := retick n7 _).
  assert (w_disk w1 = w_disk w ∧ w_locks w1 = w_locks w) as [Hd1 Hl1] by done. clearbody w1.
  set (inspected := set_export_phase ExportInspected (ej_snapshot journal) journal).
  assert (∀ w2, recorded dom inspected (w_disk w2) → snapshot_exact inspected (w_disk w2) → w_locks w2 = w_locks w →
    wp (export_step dom) (let! received := receiveSpool captured (ej_id journal) (export_options (ej_parent journal) journal minimumFree) in
                          publishReceived journal inspected received) (answered id) w2) as Hgo.
  { intros w2 Hj2 Hs2 Hl2. apply wp_bind, wp_receiveSpool.
    - intros r. exists inspected. rewrite <-Hid in HL. cbn [st_locks]. by rewrite Hl2.
    - intros answer w3 Hd3 Hl3 Hr3. rewrite <-Hid. apply (wp_publishReceived journal inspected); try done; [by rewrite Hl3, Hl2; cbn; rewrite Hid|].
      intros path Hpath. eexists _, _, _. by apply Hr3. }
  apply wp_or_value. destruct (ej_phase journal =s ExportSnapshotReady) eqn:Hph.
  - apply wp_advanceLocked; [|done]. intros _ Hadv Hsame. rewrite Hd1, Hl1.
    assert (snapshot_exact inspected (journal_disk inspected (w_disk w))) as Hs1.
    { eapply snapshot_exact_ext; [|exact Hs]. by apply lookup_insert_ne. }
    split.
    + exists journal, inspected. rewrite <-Hid in HL. done.
    + intros [[]|e] n8; [|done]. apply Hgo; [by apply recorded_written|exact Hs1|done].
  - apply andb_false_iff in Hg as [Hg|Hg]; apply negb_false_iff in Hg; [congruence|]. apply String.eqb_eq in Hg.
    assert (inspected = journal) as -> by (subst inspected; rewrite <-Hg; by destruct journal).
    apply wp_ret, Hgo; [rewrite Hd1; split; [done|right; by rewrite Hid]|by rewrite Hd1|done].
Qed.
Lemma wp_PublishCapturedExport root id captured tid w :
  cs_directory captured = Transaction tid →
  wp (export_step dom) (PublishCapturedExport root dom id captured) (answered id) w.
Proof.
  intros Hd. unfold PublishCapturedExport. apply wp_bind. apply (wp_conseq _ _ (answered id)).
  - apply wp_or_quiet; [apply quiet_guard| |done]. intros [] n _.
    apply wp_or_value, wp_Acquire_took; [done| |done]. intros w1 Ht.
    eapply wp_deferred_filter; [done| |apply wp_publishLocked; rewrite (tk_locks _ _ _ Ht); set_solver].
    intros [[path e]|e] [[]|e2] w2 w3 _ _ _ Htr Ha path'; try done; intros [= <- ->]; eapply reported_more; eauto.
  - intros [result|e] w1 Ha; [|done]. apply wp_bind, wp_attempt.
    eapply wp_conseq; [by apply wp_extends; eapply emits_Remove|]. intros r w2 [_ (new & Hnew)]. apply wp_lift.
    intros path Hr. destruct result as [path' e], r as [[]|e2]; [|done]. injection Hr as -> ->.
    eapply reported_more; [|by apply Ha]. rewrite Hnew. set_solver.
Qed.

(** *** The run *)

(** What a run that reports success leaves: the published phase, durable, and
    the path the receiver reported. *)
Definition finished (r : res ((ExportJournal * string) * option captureFailure)) w : Prop := ∀ j path, r = Ok ((j, path), None) →
  ej_phase j = ExportPublished ∧ export_at dom (ej_id j) (w_disk w) = Some j ∧ reported (ej_id j) path (w_trace w).
Lemma finished_failed a f w : finished (Ok (a, Some f)) w.
Proof. by intros j path. Qed.
Lemma finished_er e w : finished (Er e) w.
Proof. by intros j path. Qed.
#[local] Hint Resolve finished_failed finished_er : core.
Lemma wp_completeCaptured root journal captured tid w :
  cs_directory captured = Transaction tid →
  wp (export_step dom) (completeCaptured root dom journal captured) finished w.
Proof.
  intros Hd. unfold completeCaptured. apply wp_bind. eapply wp_conseq; [by eapply wp_PublishCapturedExport|].
  intros [[published [e|]]|e] w1 Ha; [by apply wp_ret, finished_failed| |done].
  apply wp_bind, wp_attempt, wp_quiet; [apply quiet_loadExportJournal|]. intros [verified|e] n Hv; cbn beta iota; [|by apply wp_ret, finished_failed].
  destruct (bool_decide_reflect (verified = set_export_phase ExportPublished (ej_snapshot journal) journal)) as [->|_]; apply wp_ret; [|apply finished_failed].
  apply loadExportJournal_ok in Hv. intros j path [= <- <-]. split; [done|]. split; [exact Hv|by apply Ha].
Qed.
Lemma wp_completeSelectedWorkspace root journal source iso go w :
  wp (export_step dom) (completeSelectedWorkspace root dom journal source iso go : M B _) finished w.
Proof.
  unfold completeSelectedWorkspace. apply wp_bind, wp_attempt, wp_host_ask. destruct (in_build _ _ _ _ _) as [[bundle|e] b]; [|by apply wp_ret, finished_failed].
  cbn beta iota. unfold completeSelectedWorkspaceWithBundle. apply wp_bind. apply (wp_conseq _ _ finished).
  - apply wp_bind, wp_captureBound. intros [[[captured observed] failure]|e] w1 Hown; [|done].
    destruct captured as [c|], failure as [f|]; try by apply wp_ret, finished_failed.
    assert (cs_directory c = Transaction (ej_id observed)) as Hc by by eapply Hown.
    destruct (bool_decide _); [by eapply wp_completeCaptured|].
    eapply wp_removing; [exact Hc|]. intros. by apply wp_ret, finished_failed.
  - intros [[result failure]|e] w1 Hf; [|done]. destruct failure as [f|].
    + destruct (cf_unproven f); [by apply wp_ret|]. apply wp_bind, wp_attempt, wp_host_ask. destruct (in_remove _ _) as [[[]|e] b']; by apply wp_ret, finished_failed.
    + apply wp_bind, wp_attempt, wp_host_ask. destruct (in_remove _ _) as [[[]|e] b']; apply wp_ret; [exact Hf|apply finished_failed].
Qed.
End inspection.

(** The whole run and its resumption. *)
Section run.
Context {B : Type} {E : Env} {EP : ExportProtocol E} {H : Host B} {R : ReservePlatform} {F : HostFiles} {S : SourceDisk} {I : Inspection B}
        {C : CaptureHost B} {RP : ReceiverPlatform} {D : Digests}.
Implicit Types (w : world B).
Context (dom : string).
#[local] Hint Resolve finished_failed finished_er : core.

Lemma wp_ExportSelectedWorkspace observer root vol parent selected source iso go w :
  wp (export_step dom) (ExportSelectedWorkspace observer root dom vol parent selected source iso go : M B _) (finished dom) w.
Proof.
  unfold ExportSelectedWorkspace. apply wp_bind. eapply wp_conseq; [apply emits_createExportSnapshot|].
  intros [[journal [e|]]|e] w1 _; [by apply wp_ret|apply wp_completeSelectedWorkspace|done].
Qed.
(** A resumption may instead find that the export was given up. *)
Definition resumed (r : res ((ExportJournal * string) * option captureFailure)) w : Prop := ∀ j path, r = Ok ((j, path), None) →
  ej_phase j = ExportPublished ∧ export_at dom (ej_id j) (w_disk w) = Some j ∧ reported (ej_id j) path (w_trace w) ∨
  ej_phase j = ExportAborted ∧ path = EmptyString ∧ recorded dom j (w_disk w) ∧ unreserved dom j (w_disk w).
Lemma finished_resumed r w : finished dom r w → resumed r w.
Proof. intros Hf j path Hr. left. by apply Hf. Qed.
Lemma wp_or_fail {A} P journal (m : M B A) (k : A → M B ((ExportJournal * string) * option captureFailure)) w :
  quiet m → (∀ a n, m w = (Ok a, retick n w) → wp P (k a) resumed (retick n w)) → wp P (or_fail journal m k) resumed w.
Proof.
  intros Hm Hk. unfold or_fail. apply wp_bind, wp_attempt, wp_quiet; [done|].
  intros [a|e] n Hr; [by apply Hk|by apply wp_ret, finished_resumed].
Qed.
Lemma wp_resumeSelectedWorkspace root id source iso go w :
  wp (export_step dom) (resumeSelectedWorkspace root dom id source iso go : M B _) resumed w.
Proof.
  unfold resumeSelectedWorkspace. pose proof (@quiet_loadExportJournal B E).
  repeat (apply wp_or_fail; [quiet_tac; auto with quiet|intros ? ? _]).
  eapply wp_conseq; [apply wp_completeSelectedWorkspace|]. intros r w'. apply finished_resumed.
Qed.
Lemma wp_ResumeSelectedWorkspace observer root id source iso go w :
  wp (export_step dom) (ResumeSelectedWorkspace observer root dom id source iso go : M B _) resumed w.
Proof.
  unfold ResumeSelectedWorkspace. apply wp_or_fail; [apply quiet_loadExportJournal|]. intros journal n _.
  apply wp_or_fail; [apply quiet_recoverNeeded|]. intros [] n1 _; [|apply wp_resumeSelectedWorkspace].
  destruct (negb observer); [by apply wp_ret, finished_resumed|]. apply wp_bind. eapply wp_conseq; [apply wp_RecoverExportSnapshot|].
  intros [[j [e|]]|e] w1 Hr; [by apply wp_ret, finished_resumed| |by apply finished_resumed].
  destruct (ej_phase j =s ExportAborted) eqn:Hph; [|apply wp_resumeSelectedWorkspace].
  apply wp_ret. intros j' path [= <- <-]. right. apply String.eqb_eq in Hph. destruct (Hr j eq_refl) as (_ & Hrec & Hun). done.
Qed.
End run.

(** ** Properties *)
Section properties.
Context {B : Type} {E : Env} {EP : ExportProtocol E} {H : Host B} {R : ReservePlatform} {F : HostFiles} {S : SourceDisk} {I : Inspection B}
        {C : CaptureHost B} {RP : ReceiverPlatform} {D : Digests}.

(** C26: an export never outruns its evidence. Whatever fails, whatever the
    helper and the operating system answer, and whatever processes that follow the
    storage lock do in between, the whole export of a workspace changes nothing
    but its journal, its volume's reservation, its snapshot and its spool: the
    volume is reserved and the snapshot written only under the volume, session
    and storage locks, with the machine observed stopped since; the snapshot is
    called ready only when its file has the recorded length and digest; the
    inspector runs and the receiver reads only while the journal that records
    that very snapshot is durable, under the export's lock; and the published
    phase is written only after the receiver reported the transaction's own path.
    When the run reports success, the published journal is durable and the
    receiver published the returned path. *)
Theorem export_run_is_safe (observer : bool) (stateRoot dom volumeID parent : string) (selected : list string)
    (sourceRoot isoPath goBinary : string) (w : world B) :
  wp (export_step dom) (ExportSelectedWorkspace observer stateRoot dom volumeID parent selected sourceRoot isoPath goBinary)
     (λ r w', ∀ j path, r = Ok ((j, path), None) →
        ej_phase j = ExportPublished ∧ export_at dom (ej_id j) (w_disk w') = Some j ∧ reported (ej_id j) path (w_trace w')) w.
Proof. apply wp_ExportSelectedWorkspace. Qed.

(** C27: an interrupted export is resumed under the same discipline, from
    whatever files it left: success means that it is published, durably, or that
    it was given up, its aborted journal durable and its volume free. *)
Theorem export_resume_is_safe (observer : bool) (stateRoot dom transactionID sourceRoot isoPath goBinary : string) (w : world B) :
  wp (export_step dom) (ResumeSelectedWorkspace observer stateRoot dom transactionID sourceRoot isoPath goBinary)
     (λ r w', ∀ j path, r = Ok ((j, path), None) →
        ej_phase j = ExportPublished ∧ export_at dom (ej_id j) (w_disk w') = Some j ∧ reported (ej_id j) path (w_trace w') ∨
        ej_phase j = ExportAborted ∧ path = EmptyString ∧ recorded dom j (w_disk w') ∧ unreserved dom j (w_disk w')) w.
Proof. apply wp_ResumeSelectedWorkspace. Qed.

(** C28: recovery brings a transaction to rest. It keeps the discipline (the
    partial copy is removed only under the locks, with the machine observed
    stopped, and the journal aborted only once its directory is gone), and
    when it succeeds the journal is durably ready or aborted and the volume is
    reserved no more. *)
Theorem recovery_settles (observer : bool) (dom transactionID : string) (w : world B) :
  wp (export_step dom) (RecoverExportSnapshot observer dom transactionID)
     (λ r w', ∀ j, r = Ok (j, None) →
        (ej_phase j = ExportSnapshotReady ∨ ej_phase j = ExportAborted) ∧ recorded dom j (w_disk w') ∧
        ∃ v, volume_at dom (ej_volume j) (w_disk w') = Some v ∧ vo_pending v = None) w.
Proof. apply wp_RecoverExportSnapshot. Qed.
End properties.

(** *** Evaluations: an export of one small workspace, published; one whose copy
    was interrupted, recovered and given up *)
Section evaluations.
#[local] Existing Instance quietEnv.
#[local] Existing Instance labHost.
#[local] Existing Instance example_reserve.
#[local] Existing Instance ReceiverSafety.labDigests.
#[local] Existing Instance ReceiverSafety.labPlatform.
Definition lab_superblock : string :=
  str_repeat "000" 56 +:+ String "083" (String "239" (String "001" (String "000" EmptyString))) +:+ str_repeat "000" 32 +:+
  String "004" (str_repeat "000" 3) +:+ String "064" (str_repeat "000" 3) +:+ str_repeat "000" 924.
Definition lab_image : string := str_repeat "000" 1024 +:+ lab_superblock +:+ str_repeat "x" 2048.
#[local] Instance lab_host_files : HostFiles := {|
  hf_stat _ _ := Ok (mkInfo (1, 2) 0 true); hf_names _ _ := Ok []; hf_identity _ _ _ := (1, 3); hf_close _ := Ok tt; hf_seek _ := Ok tt;
  hf_canceled _ := false; hf_random _ := Ok (str_repeat "A" 16) |}.
#[local] Instance lab_disk : SourceDisk := {|
  sd_read _ off len := Ok (str_take (Z.to_nat len) (str_drop (Z.to_nat off) lab_image));
  sd_stat _ := Ok (mkInfo (1, 1) 4096 true); sd_again _ := Ok (mkInfo (1, 1) 4096 true) |}.
#[local] Instance lab_inspection : Inspection lab := {|
  in_entries _ _ := ∅; in_publish _ _ b := b; in_admit _ _ _ b := (Ok (mkBundle "/opt/helper" "kernel" "initrd"), b);
  in_build _ _ _ _ b := (Ok "/srv/bundle", b); in_remove _ b := (Ok tt, b) |}.
Definition lab_transaction : string := "41414141-4141-4141-8141-414141414141".
Definition lab_output : string := encode_stream (unhex (exportTransactionHex lab_transaction)) ReceiverSafety.lab_items.
#[local] Instance lab_helper : CaptureHost lab := {|
  ch_helper _ _ b := (mkRun (Ok tt) (Ok tt) [lab_output] [example_log (Z.of_nat (String.length lab_output))] None None None, b) |}.
Definition lab_source : Volume :=
  mkVolume 1 "work" "0a0a0a0a-bbbb-4ccc-8ddd-eeeeeeeeeeee" 4096 FormatRawExt4 "1b1b1b1b-bbbb-4ccc-8ddd-eeeeeeeeeeee" VolAvailable
    (Some (mkDisk 1 1)) (Some (mkAttachment (sr_id example_record) "dev" "/home/boxwarden/workspaces/src")) None None.
Definition lab_workspace : world lab :=
  worldOf {[ (Sessions, "dev.json") := EFile (sessionFile example_record);
             (Workspaces, json_name (vo_id lab_source)) := EFile (volumeFile lab_source) ]}
          {[ br_object_id (sr_backend example_record) := ObjectStopped ]}.
Definition lab_export : M lab ((ExportJournal * string) * option captureFailure) :=
  ExportSelectedWorkspace true "/var/lib/boxwarden" "work" (vo_id lab_source) "/srv/exports" ["docs/a.txt"%string] "/src" "/iso" "/usr/bin/go".
Definition lab_published : ExportJournal :=
  match (lab_export lab_workspace).1 with Ok ((j, _), _) => j | Er _ => zeroExportJournal end.
Definition lab_path : string := "/srv/exports/41414141414141418141414141414141".
Lemma export_run_is_safe_witness :
  ej_phase lab_published = ExportPublished ∧
  export_at "work" (ej_id lab_published) (w_disk (lab_export lab_workspace).2) = Some lab_published ∧
  reported (ej_id lab_published) lab_path (w_trace (lab_export lab_workspace).2).
Proof.
  refine (wp_result _ _ _ _ (export_run_is_safe true "/var/lib/boxwarden" "work" (vo_id lab_source) "/srv/exports" ["docs/a.txt"%string]
            "/src" "/iso" "/usr/bin/go" lab_workspace) lab_published lab_path _).
  vm_compute. reflexivity.
Defined.

(** The copy stops at once when the disk cannot be read from its start. *)
Definition lab_torn : SourceDisk := {|
  sd_read _ off len := if off <? 1024 then Er (Errorf "input/output error") else Ok (str_take (Z.to_nat len) (str_drop (Z.to_nat off) lab_image));
  sd_stat _ := Ok (mkInfo (1, 1) 4096 true); sd_again _ := Ok (mkInfo (1, 1) 4096 true) |}.
Definition lab_interrupted : world lab :=
  (ExportSelectedWorkspace (S := lab_torn) true "/var/lib/boxwarden" "work" (vo_id lab_source) "/srv/exports" ["docs/a.txt"%string]
     "/src" "/iso" "/usr/bin/go" lab_workspace).2.
Definition lab_resumption : res ((ExportJournal * string) * option captureFailure) * world lab :=
  ResumeSelectedWorkspace true "/var/lib/boxwarden" "work" lab_transaction "/src" "/iso" "/usr/bin/go" lab_interrupted.
Definition lab_given_up : ExportJournal := match lab_resumption.1 with Ok ((j, _), _) => j | Er _ => zeroExportJournal end.
Example lab_interruption :
  (ej_phase <$> export_at "work" lab_transaction (w_disk lab_interrupted)) = Some ExportCopying ∧
  (isSome ∘ vo_pending <$> volume_at "work" (vo_id lab_source) (w_disk lab_interrupted)) = Some true ∧
  isSome (w_disk lab_interrupted !! (Transaction lab_transaction, snapshot_raw)) = true ∧
  ej_phase lab_given_up = ExportAborted ∧
  w_disk lab_resumption.2 !! (Transaction lab_transaction, snapshot_raw) = None ∧ w_disk lab_resumption.2 !! (Exports, lab_transaction) = None.
Proof. vm_compute. by split_and!. Qed.
Lemma export_resume_is_safe_witness :
  ej_phase lab_given_up = ExportPublished ∧ export_at "work" (ej_id lab_given_up) (w_disk lab_resumption.2) = Some lab_given_up ∧
    reported (ej_id lab_given_up) EmptyString (w_trace lab_resumption.2) ∨
  ej_phase lab_given_up = ExportAborted ∧ EmptyString = EmptyString ∧ recorded "work" lab_given_up (w_disk lab_resumption.2) ∧
    unreserved "work" lab_given_up (w_disk lab_resumption.2).
Proof.
  refine (wp_result _ _ _ _ (export_resume_is_safe true "/var/lib/boxwarden" "work" lab_transaction "/src" "/iso" "/usr/bin/go" lab_interrupted)
            lab_given_up EmptyString _).
  vm_compute. reflexivity.
Defined.
Lemma recovery_settles_witness :
  (ej_phase lab_given_up = ExportSnapshotReady ∨ ej_phase lab_given_up = ExportAborted) ∧
  recorded "work" lab_given_up (w_disk (RecoverExportSnapshot true "work" lab_transaction lab_interrupted).2) ∧
  ∃ v, volume_at "work" (ej_volume lab_given_up) (w_disk (RecoverExportSnapshot true "work" lab_transaction lab_interrupted).2) = Some v ∧
    vo_pending v = None.
Proof.
  refine (wp_result _ _ _ _ (recovery_settles true "work" lab_transaction lab_interrupted) lab_given_up _).
  vm_compute. reflexivity.
Defined.
End evaluations.
