(* ===== verification/ImportTree.v ===== *)
(** Captured import trees (src/internal/importx/inspect.go, published.go and the
    declarations of source.go): the manifest and its one canonical encoding, the
    re-admission of a captured snapshot, and its comparison with a published
    export. A directory opened as a root is a record of three operations; the
    captured snapshot is the part of the state root below imports/<id>, the
    published tree an entry of the export's destination. *)
From S2P Require Import Prelude Ids Bytes Json JsonText Recipe Selection SessionRecord Outside World Logic ExportJournal Receiver DiskReserve Capture Exports.

Definition maxImportFiles : Z := 4096.
Definition maxImportDirectories : Z := 2048.
Definition maxImportFileBytes : Z := 64 * 2 ^ 20.
Definition maxImportTotalBytes : Z := 256 * 2 ^ 20.
Definition maxManifestBytes : Z := 4 * 2 ^ 20.
Definition manifestName : string := ".boxwarden-import-manifest.json".

(** ** The manifest *)

Record Entry := mkEntry { en_path : string; en_kind : string; en_size : Z; en_sha256 : string }.
#[export] Instance Entry_eq_dec : EqDecision Entry.
Proof. solve_decision. Defined.
Definition zeroEntry : Entry := mkEntry "" "" 0 "".
Record ImportSnapshot := mkImportSnapshot {
  ss_transaction : string; ss_directory : string; ss_digest : string;
  ss_files : Z; ss_directories : Z; ss_bytes : Z; ss_entries : list Entry }.
Record manifest := mkManifest { mf_version : Z; mf_entries : slice Entry }.

Definition marshalEntry (e : Entry) : json :=
  JObj ([("path"%string, jstr (en_path e)); ("kind"%string, jstr (en_kind e))] ++
        (if en_size e =? 0 then [] else [("size"%string, JNum (en_size e))]) ++
        (if en_sha256 e =s "" then [] else [("sha256"%string, jstr (en_sha256 e))])).
Definition marshalManifest (m : manifest) : json :=
  JObj [("version", JNum (mf_version m)); ("entries", marshal_slice marshalEntry (mf_entries m))].
Definition entry_field (name : string) (v : json) (e : Entry) : res Entry :=
  if name =s "path" then let? x := get_string v (en_path e) in Ok (mkEntry x (en_kind e) (en_size e) (en_sha256 e))
  else if name =s "kind" then let? x := get_string v (en_kind e) in Ok (mkEntry (en_path e) x (en_size e) (en_sha256 e))
  else if name =s "size" then let? x := get_int v (en_size e) in Ok (mkEntry (en_path e) (en_kind e) x (en_sha256 e))
  else let? x := get_string v (en_sha256 e) in Ok (mkEntry (en_path e) (en_kind e) (en_size e) x).
Definition decodeEntry : json → Entry → res Entry := unmarshal_struct ["path"; "kind"; "size"; "sha256"] entry_field.
Definition manifest_field (name : string) (v : json) (m : manifest) : res manifest :=
  if name =s "version" then let? x := get_int v (mf_version m) in Ok (mkManifest x (mf_entries m))
  else let? x := decode_slice decodeEntry zeroEntry v (mf_entries m) in Ok (mkManifest (mf_version m) x).
Definition decodeManifest : json → manifest → res manifest := unmarshal_struct ["version"; "entries"] manifest_field.
Definition canonicalManifest (m : manifest) : string := render (marshalManifest m).
(** [bytes.TrimSuffix(raw, "\n")] *)
Definition trim_newline (raw : string) : string := default raw (strip_suffix (String LF "") raw).
(** The manifest of these bytes, when they are its canonical encoding. *)
Definition parseManifest (raw : string) : res manifest :=
  let? v := match scan (trim_newline raw) with Some [v] => Ok v | _ => fail "invalid import manifest" end in
  let? m := match decodeManifest v (mkManifest 0 None) with Ok m => Ok m | Er _ => fail "invalid import manifest" end in
  check (mf_version m =? 1) "invalid import manifest" ;;?
  check (raw =s canonicalManifest m +:+ String LF "") "import manifest is not canonical" ;;?
  Ok m.

(** ** Names *)

Definition component_char (first : bool) (c : ascii) : bool :=
  isAlphaNumeric c || (negb first && existsb (Ascii.eqb c) ["."; "_"; "-"]%char).
Definition validComponent (value : string) : bool :=
  negb ((String.length value =? 0)%nat || (63 <? String.length value)%nat || existsb (String.eqb value) ["."; ".."; ".git"]%string) &&
  match value with EmptyString => false | String c rest => component_char true c && str_all (component_char false) rest end.
Definition validSnapshotPath (value : string) : bool :=
  negb ((String.length value =? 0)%nat || (Selection.maxPathBytes <? String.length value)%nat || has_prefix "/" value || negb (canonical_rel value)) &&
  negb (Selection.maxDepth + 1 <? length (split_slash "" value))%nat && forallb validComponent (split_slash "" value).
Definition canonicalAbsolute (name : string) : bool :=
  canonical_abs name && (name ≠s "/") && negb (4096 <? String.length name)%nat.
(** [path.Join] of a clean relative directory and a name of it. *)
Definition child_of (relative name : string) : string := if relative =s "" then name else relative +:+ "/" +:+ name.

(** ** Metadata *)

Inductive treekind := KDirectory | KRegular | KSpecial.
#[export] Instance treekind_eq_dec : EqDecision treekind.
Proof. solve_decision. Defined.
(** Device and inode; kind; permission bits; whether the owner, the link count
    and the access control list are those of a private entry; size; time of the
    last modification. *)
Record TreeInfo := mkTreeInfo {
  ti_identity : Z * Z; ti_kind : treekind; ti_perm : Z; ti_owned : bool; ti_size : Z; ti_modified : Z }.
Definition SameTree (a b : TreeInfo) : bool := bool_decide (ti_identity a = ti_identity b).
Definition sameSourceInfo (a b : TreeInfo) : bool :=
  (ti_size a =? ti_size b) && bool_decide (ti_kind a = ti_kind b) && (ti_perm a =? ti_perm b) && (ti_modified a =? ti_modified b).
Definition admitSourceInfo (info : TreeInfo) : res unit :=
  check (negb (bool_decide (ti_kind info = KSpecial) || negb (Z.land (ti_perm info) 18 =? 0)))
        "source is a link, special file, or group/other writable" ;;?
  check (ti_owned info) "source is not solely owned by current user".
Definition is_directory (info : TreeInfo) : bool := bool_decide (ti_kind info = KDirectory).
Definition is_regular (info : TreeInfo) : bool := bool_decide (ti_kind info = KRegular).
(** Octal 0700 and 0600. *)
Definition perm_dir : Z := 448.
Definition perm_file : Z := 384.

(** The identity and the time the operating system shows of a path. *)
Class TreeHost := { th_identity : nat → string → string → Z * Z; th_modified : nat → string → string → Z }.

Section trees.
Context {B : Type} {E : Env} {F : HostFiles} {T : TreeHost} {I : Inspection B} {D : Digests}.

(** ** Roots *)

(** [os.Root]: [Lstat], the names of a directory and whether they are
    directories, and the bytes of a file. *)
Record Root := mkRoot {
  rt_path : string;
  rt_lstat : string → M B TreeInfo;
  rt_list : string → M B (list (string * bool));
  rt_read : string → M B string;
}.
Definition seen_info (path name : string) (kind : treekind) (perm : Z) (owned : bool) (size : Z) : M B TreeInfo :=
  let! identity := ask (λ n, Ok (th_identity n path name)) in
  let! modified := ask (λ n, Ok (th_modified n path name)) in
  ret (mkTreeInfo identity kind perm owned size modified).
Definition entry_info (path name : string) (e : entry) : M B TreeInfo :=
  match e with
  | EFile f => seen_info path name KRegular perm_file true (Z.of_N (file_size f))
  | EDir => seen_info path name KDirectory perm_dir true 0
  | EUnsafe => seen_info path name KSpecial 0 false 0
  end.
(** The name of an entry below a directory, when it is one of its own. *)
Definition child_name (relative path : string) : option string :=
  match (if relative =s "" then Some path else strip_prefix (relative +:+ "/") path) with
  | Some rest => if (rest =s "") || str_contains "/" rest then None else Some rest
  | None => None
  end.

(** imports/<id> below the state root. *)
Definition captured_root (path id : string) : Root := {|
  rt_path := path;
  rt_lstat name := let! e := (if name =s "." then fs_lstat Imports id else fs_lstat (Captured id) name) in entry_info path name e;
  rt_list relative :=
    let! entries := fs_list (Captured id) in
    ret (omap (λ ne, (λ name, (name, match ne.2 with EDir => true | _ => false end)) <$> child_name relative ne.1) entries);
  rt_read name := let! f := fs_read (Captured id) name in ret (file_blob f);
|}.
(** The directory [sub] of the published tree of a transaction. *)
Definition below (sub name : string) : string := if (name =s ".") || (name =s "") then sub else sub +:+ "/" +:+ name.
Definition published_node (parent transaction sub name : string) (b : B) : res node :=
  match in_entries parent b !! transaction with
  | Some t => match t !! below sub name with Some n => Ok n | None => Er ErrNotExist end
  | None => Er ErrNotExist
  end.
Definition published_root (parent transaction sub : string) : Root := {|
  rt_path := path_join parent [transaction; sub];
  rt_lstat name :=
    let! n := host_try (λ b, (published_node parent transaction sub name b, b)) in
    match n with
    | NDir => seen_info (path_join parent [transaction; sub]) name KDirectory perm_dir true 0
    | NFile content => seen_info (path_join parent [transaction; sub]) name KRegular perm_file true (Z.of_nat (String.length content))
    end;
  rt_list relative :=
    let! nodes := host_try (λ b, (Ok (map_to_list (default ∅ (in_entries parent b !! transaction))), b)) in
    ret (omap (λ kn, (λ name, (name, match kn.2 with NDir => true | NFile _ => false end)) <$> child_name (below sub relative) kn.1) nodes);
  rt_read name :=
    let! n := host_try (λ b, (published_node parent transaction sub name b, b)) in
    match n with NFile content => ret content | NDir => throw (Errorf "is a directory") end;
|}.

(** ** inspect.go *)

Definition same_tree (a b : TreeInfo) : bool := SameTree a b && sameSourceInfo a b.
Definition verifySnapshotFile (root : Root) (entry : Entry) (expected : TreeInfo) : M B unit :=
  let! opened := wrapv "import snapshot file changed while opening" (rt_lstat root (en_path entry)) in
  guard (negb (same_tree expected opened)) "import snapshot file changed while opening" ;;!
  let! bytes := rt_read root (en_path entry) in
  guard (Z.of_nat (String.length bytes) <? en_size entry) "EOF" ;;!
  guard (en_size entry <? Z.of_nat (String.length bytes)) "import snapshot file size changed during admission" ;;!
  let! after := wrapv "import snapshot file digest or identity changed" (rt_lstat root (en_path entry)) in
  guard (negb (same_tree expected after) || (sha256 bytes ≠s en_sha256 entry)) "import snapshot file digest or identity changed".

(** What the entries loop has seen. *)
Record inspected := mkSeen { sn_index : gmap string Entry; sn_files : Z; sn_dirs : Z; sn_bytes : Z }.
Definition index_path (e : Entry) (s : inspected) : gmap string Entry := <[en_path e := e]> (sn_index s).
Definition inspectEntry (root : Root) (s : inspected) (e : Entry) : M B inspected :=
  guard (negb (validSnapshotPath (en_path e)) || (en_path e =s manifestName)) "invalid import entry path" ;;!
  guard (isSome (sn_index s !! en_path e)) "duplicate import entry path" ;;!
  let parent := path_dir (en_path e) in
  guard ((parent ≠s ".") && negb (match sn_index s !! parent with Some a => en_kind a =s "directory" | None => false end))
        "import entry lacks declared directory ancestor" ;;!
  let! info := rt_lstat root (en_path e) in
  lift (admitSourceInfo info) ;;!
  if en_kind e =s "directory" then
    guard (negb (is_directory info) || negb (ti_perm info =? perm_dir) || negb (en_size e =? 0) || (en_sha256 e ≠s "") ||
           (maxImportDirectories <=? sn_dirs s)) "invalid import directory entry" ;;!
    ret (mkSeen (index_path e s) (sn_files s) (sn_dirs s + 1) (sn_bytes s))
  else if en_kind e =s "file" then
    guard (negb (is_regular info) || negb (ti_perm info =? perm_file) || negb (ti_size info =? en_size e) || (en_size e <? 0) ||
           (maxImportFileBytes <? en_size e) || (maxImportFiles <=? sn_files s) || (maxImportTotalBytes - en_size e <? sn_bytes s) ||
           negb (validDigest (en_sha256 e))) "invalid import file entry" ;;!
    verifySnapshotFile root e info ;;!
    ret (mkSeen (index_path e s) (sn_files s + 1) (sn_dirs s) (sn_bytes s + en_size e))
  else throw (Errorf "invalid import entry kind").
Fixpoint inspectEntries (root : Root) (s : inspected) (entries : list Entry) : M B inspected :=
  match entries with
  | [] => ret s
  | e :: rest => let! s := inspectEntry root s e in inspectEntries root s rest
  end.
(** The walk over what is there. A declared path has at most [maxDepth + 1]
    components, so the recursion is no deeper. *)
Section walk.
Context (index : gmap string Entry) (visit : string → gset string → M B (gset string)).
Fixpoint walkEntries (relative : string) (entries : list (string * bool)) (seen : gset string) : M B (gset string) :=
  match entries with
  | [] => ret seen
  | (entryName, isDir) :: rest =>
      if (relative =s "") && (entryName =s manifestName) then walkEntries relative rest seen
      else
        let name := child_of relative entryName in
        match index !! name with
        | None => throw (Errorf "unlisted or changed import snapshot entry")
        | Some declared =>
            guard (bool_decide (name ∈ seen) || negb (Bool.eqb isDir (en_kind declared =s "directory")))
                  "unlisted or changed import snapshot entry" ;;!
            let seen := {[ name ]} ∪ seen in
            let! seen := (if en_kind declared =s "directory" then visit name seen else ret seen) in
            walkEntries relative rest seen
        end
  end.
End walk.
Fixpoint inspectSnapshotDirectory (fuel : nat) (root : Root) (index : gmap string Entry) (relative : string) (seen : gset string)
  : M B (gset string) :=
  match fuel with
  | O => throw (Errorf "unreachable")
  | Datatypes.S fuel =>
      let! entries := wrapv "read bounded import snapshot directory" (rt_list root relative) in
      guard (maxImportFiles + maxImportDirectories + 1 <? Z.of_nat (length entries)) "read bounded import snapshot directory" ;;!
      walkEntries index (inspectSnapshotDirectory fuel root index) relative entries seen
  end.
Definition walk_fuel : nat := Selection.maxDepth + 2.
(** A private directory given by its path. *)
Definition openPrivateDirectory (name : string) : M B unit :=
  guard (negb (canonicalAbsolute name)) "private directory path must be canonical and absolute" ;;!
  let! info := stat_directory name in
  guard (negb (fi_private info)) "private directory must be mode 0700" ;;!
  let! opened := wrapv "private directory changed while opening" (stat_directory name) in
  guard (negb (SameFile info opened)) "private directory changed while opening".
Definition readManifest (root : Root) : M B manifest :=
  let! info := wrapv "invalid import manifest metadata" (rt_lstat root manifestName) in
  guard (negb (is_regular info) || negb (ti_perm info =? perm_file) || (ti_size info <? 2) || (maxManifestBytes <? ti_size info))
        "invalid import manifest metadata" ;;!
  lift (admitSourceInfo info) ;;!
  let! opened := wrapv "import manifest changed while opening" (rt_lstat root manifestName) in
  guard (negb (SameTree info opened)) "import manifest changed while opening" ;;!
  let! read := attempt (rt_read root manifestName) in
  let! after := wrapv "import manifest changed during admission" (rt_lstat root manifestName) in
  guard (negb (same_tree info after)) "import manifest changed during admission" ;;!
  let! raw := wrapv "read bounded import manifest" (lift read) in
  guard (maxManifestBytes <? Z.of_nat (String.length raw)) "read bounded import manifest" ;;!
  lift (parseManifest raw).
Definition inspectRoot (root : Root) (transactionID : string) : M B ImportSnapshot :=
  let! m := readManifest root in
  let entries := items (mf_entries m) in
  guard ((length entries =? 0)%nat || (maxImportFiles + maxImportDirectories <? Z.of_nat (length entries))) "invalid import entry count" ;;!
  let! s := inspectEntries root (mkSeen ∅ 0 0 0) entries in
  guard (sn_files s =? 0) "empty import snapshot" ;;!
  let! seen := inspectSnapshotDirectory walk_fuel root (sn_index s) "" ∅ in
  guard (negb (base.size seen =? base.size (sn_index s))%nat) "declared import snapshot entry disappeared during admission" ;;!
  ret (mkImportSnapshot transactionID (rt_path root) (sha256 (canonicalManifest m)) (sn_files s) (sn_dirs s) (sn_bytes s) entries).
Definition InspectSnapshot (stagingParent transactionID : string) : M B ImportSnapshot :=
  guard (negb (canonicalAbsolute stagingParent) || negb (Session.validUUID transactionID)) "invalid import snapshot identity" ;;!
  openPrivateDirectory stagingParent ;;!
  let root := captured_root (path_join stagingParent [transactionID]) transactionID in
  let! info := wrapv "invalid import snapshot directory" (rt_lstat root ".") in
  guard (negb (is_directory info) || negb (ti_perm info =? perm_dir)) "invalid import snapshot directory" ;;!
  lift (admitSourceInfo info) ;;!
  let! opened := wrapv "import snapshot directory changed while opening" (rt_lstat root ".") in
  guard (negb (SameTree info opened)) "import snapshot directory changed while opening" ;;!
  inspectRoot root transactionID.

(** ** published.go *)

Definition pathContains (parent child : string) : bool := (parent =s child) || has_prefix (if parent =s "/" then "/" else parent +:+ "/") child.
Section compare.
Context (root : Root) (index : gmap string Entry) (visit : string → TreeInfo → gset string → M B (gset string)).
Fixpoint compareEntries (relative : string) (entries : list (string * bool)) (seen : gset string) : M B (gset string) :=
  match entries with
  | [] => ret seen
  | (entryName, isDir) :: rest =>
      let item := child_of relative entryName in
      match index !! item with
      | None => throw (Errorf "published import contains an unlisted or changed entry")
      | Some declared =>
          guard (bool_decide (item ∈ seen) || negb (Bool.eqb isDir (en_kind declared =s "directory")))
                "published import contains an unlisted or changed entry" ;;!
          let! listed := rt_lstat root item in
          let! info := wrapv "published import entry changed while inspecting" (rt_lstat root item) in
          guard (negb (same_tree listed info)) "published import entry changed while inspecting" ;;!
          lift (admitSourceInfo info) ;;!
          let! seen :=
            (if en_kind declared =s "directory" then
               guard (negb (is_directory info) || negb (ti_perm info =? perm_dir)) "published import directory is not private" ;;!
               visit item info seen
             else
               guard (negb (is_regular info) || negb (ti_perm info =? perm_file) || negb (ti_size info =? en_size declared))
                     "published import file metadata differs" ;;!
               verifySnapshotFile root declared info ;;!
               ret seen) in
          compareEntries relative rest ({[ item ]} ∪ seen)
      end
  end.
End compare.
Definition dot_of (relative : string) : string := if relative =s "" then "." else relative.
Fixpoint inspectPublishedDirectory (fuel : nat) (root : Root) (index : gmap string Entry) (relative : string) (expected : TreeInfo)
    (seen : gset string) : M B (gset string) :=
  match fuel with
  | O => throw (Errorf "unreachable")
  | Datatypes.S fuel =>
      let! opened := wrapv "published import directory changed while opening" (rt_lstat root (dot_of relative)) in
      guard (negb (same_tree opened expected)) "published import directory changed while opening" ;;!
      let! entries := wrapv "read bounded published import directory" (rt_list root relative) in
      guard (maxImportFiles + maxImportDirectories <? Z.of_nat (length entries)) "read bounded published import directory" ;;!
      let! seen := compareEntries root index (inspectPublishedDirectory fuel root index) relative entries seen in
      let! after := wrapv "published import directory changed during inspection" (rt_lstat root (dot_of relative)) in
      guard (negb (same_tree expected after)) "published import directory changed during inspection" ;;!
      ret seen
  end.
Definition index_of (entries : list Entry) : gmap string Entry := foldl (λ m e, <[en_path e := e]> m) ∅ entries.
Definition ComparePublishedTree (stagingParent transactionID parent transaction sub : string) : M B ImportSnapshot :=
  let! snapshot := InspectSnapshot stagingParent transactionID in
  let root := published_root parent transaction sub in
  guard (negb (canonicalAbsolute (rt_path root)) || (rt_path root =s ss_directory snapshot) ||
         pathContains (rt_path root) (ss_directory snapshot) || pathContains (ss_directory snapshot) (rt_path root))
        "invalid independent published import path" ;;!
  wrap "published import root" (openPrivateDirectory (rt_path root)) ;;!
  let! info := rt_lstat root "." in
  let index := index_of (ss_entries snapshot) in
  let! seen := inspectPublishedDirectory walk_fuel root index "" info ∅ in
  guard (negb (base.size seen =? base.size index)%nat) "published import tree omitted captured entries" ;;!
  ret snapshot.
End trees.

(** ** Lemmas *)

(** *** Fuel: the walk is no deeper than a declared path *)
Definition depth_of (relative : string) : nat := if relative =s "" then 0 else length (split_slash "" relative).
Lemma split_slash_length acc s : (1 <= length (split_slash acc s))%nat.
Proof. revert acc. induction s as [|c s IH]; intros acc; cbn; [lia|]. destruct (Ascii.eqb c "/"); cbn; [lia|apply IH]. Qed.
Lemma split_slash_app acc a b :
  length (split_slash acc (a +:+ String "/" b)) = (length (split_slash acc a) + length (split_slash "" b))%nat.
Proof.
  revert acc. induction a as [|c a IH]; intros acc; [done|].
  change (String c a +:+ String "/" b) with (String c (a +:+ String "/" b)). cbn [split_slash]. destruct (Ascii.eqb c "/"); cbn [length]; by rewrite IH.
Qed.
Lemma child_deeper relative name : (depth_of relative < depth_of (child_of relative name))%nat ∨ child_of relative name = EmptyString.
Proof.
  unfold depth_of, child_of. destruct (relative =s "") eqn:Er.
  - destruct (name =s "") eqn:En; [right; by apply String.eqb_eq in En|]. left. pose proof (split_slash_length "" name). lia.
  - left. assert (((relative +:+ "/" +:+ name) =s "") = false) as ->.
    { apply eqs_false. intros H. destruct relative; [by rewrite eqs_refl in Er|done]. }
    change (relative +:+ "/" +:+ name) with (relative +:+ String "/" name). rewrite split_slash_app. pose proof (split_slash_length "" name). lia.
Qed.
Lemma valid_depth path : validSnapshotPath path = true → path ≠ EmptyString ∧ (depth_of path <= Selection.maxDepth + 1)%nat.
Proof.
  unfold validSnapshotPath. intros H. bsimpl. split.
  - intros ->. by cbn in *.
  - unfold depth_of. destruct (path =s ""); [lia|]. apply Nat.ltb_ge. assumption.
Qed.

Section walks.
Context {B : Type} {E : Env} {F : HostFiles} {T : TreeHost} {I : Inspection B} {D : Digests}.
Implicit Types (w : world B) (root : Root (B := B)).

Lemma bind_cong {A C} (m : M B A) (f g : A → M B C) w : (∀ a w', m w = (Ok a, w') → f a w' = g a w') → bind m f w = bind m g w.
Proof. intros H. unfold bind. destruct (m w) as [[a|e] w']; [by apply H|done]. Qed.
Section fuel.
Context (root : Root (B := B)) (index : gmap string Entry).
Context (Hindex : ∀ path e, index !! path = Some e → validSnapshotPath path = true).
(** More fuel than the depth of declared paths changes nothing. *)
Lemma inspect_fuel n m relative seen w :
  (Selection.maxDepth + 1 < n + depth_of relative)%nat → (Selection.maxDepth + 1 < m + depth_of relative)%nat →
  (depth_of relative <= Selection.maxDepth + 1)%nat →
  inspectSnapshotDirectory n root index relative seen w = inspectSnapshotDirectory m root index relative seen w.
Proof.
  revert m relative seen w. induction n as [|n IH]; intros [|m] relative seen w Hn Hm Hd; [lia..|].
  cbn [inspectSnapshotDirectory]. apply bind_cong. intros entries w1 _. apply bind_cong. intros _ w2 _.
  revert seen w2. induction entries as [|[entryName isDir] rest IHr]; intros seen w2; [done|]. cbn [walkEntries].
  destruct (_ && _); [apply IHr|]. destruct (index !! child_of relative entryName) as [declared|] eqn:Ei; [|done].
  apply bind_cong. intros _ w3 _. apply Hindex, valid_depth in Ei as [Hne Hle].
  destruct (child_deeper relative entryName) as [Hlt|?]; [|done].
  set (visited := if en_kind declared =s "directory" then _ else _ : M B (gset string)).
  transitivity (bind (if en_kind declared =s "directory" then inspectSnapshotDirectory m root index (child_of relative entryName) ({[child_of relative entryName]} ∪ seen) else ret ({[child_of relative entryName]} ∪ seen))
                  (λ seen0, walkEntries index (inspectSnapshotDirectory n root index) relative rest seen0) w3).
  - unfold visited. destruct (_ =s _); [|done]. unfold bind. rewrite (IH m) by lia. done.
  - apply bind_cong. intros seen' w4 _. apply IHr.
Qed.
Lemma compare_fuel n m relative info seen w :
  (Selection.maxDepth + 1 < n + depth_of relative)%nat → (Selection.maxDepth + 1 < m + depth_of relative)%nat →
  (depth_of relative <= Selection.maxDepth + 1)%nat →
  inspectPublishedDirectory n root index relative info seen w = inspectPublishedDirectory m root index relative info seen w.
Proof.
  revert m relative info seen w. induction n as [|n IH]; intros [|m] relative info seen w Hn Hm Hd; [lia..|].
  cbn [inspectPublishedDirectory]. apply bind_cong. intros opened w0 _. apply bind_cong. intros _ w1 _.
  apply bind_cong. intros entries w2 _. apply bind_cong. intros _ w3 _.
  assert (∀ seen w4, compareEntries root index (inspectPublishedDirectory n root index) relative entries seen w4 =
                     compareEntries root index (inspectPublishedDirectory m root index) relative entries seen w4) as Hc.
  { induction entries as [|[entryName isDir] rest IHr]; intros seen' w4; [done|]. cbn [compareEntries].
    destruct (index !! child_of relative entryName) as [declared|] eqn:Ei; [|done]. apply Hindex, valid_depth in Ei as [Hne Hle].
    destruct (child_deeper relative entryName) as [Hlt|?]; [|done].
    apply bind_cong. intros _ w5 _. apply bind_cong. intros listed w6 _. apply bind_cong. intros found w7 _.
    apply bind_cong. intros _ w8 _. apply bind_cong. intros _ w9 _.
    destruct (en_kind declared =s "directory").
    - unfold bind at 1 3. unfold bind at 1 2. destruct (guard _ _ w9) as [[[]|e] w10]; [|done]. rewrite (IH m) by lia.
      destruct (inspectPublishedDirectory m _ _ _ _ _ w10) as [[s'|e] w11]; [apply IHr|done].
    - apply bind_cong. intros s' w10 _. apply IHr. }
  unfold bind. by rewrite Hc.
Qed.
End fuel.

(** *** What a root shows *)

(** A name a directory may list. *)
Definition plain_name (name : string) : Prop := name ≠ EmptyString ∧ name ≠ "."%string ∧ str_contains "/" name = false.
(** A root reads one tree: [look] its directories and files, [present] all
    that it lists; reading changes nothing. *)
Class ShowsTree (root : Root (B := B)) (look : world B → string → option node) (present : world B → string → Prop) := {
  sh_stable : ∀ w n path, look (retick n w) path = look w path ∧ (present (retick n w) path ↔ present w path);
  sh_lstat : ∀ name, quiet (rt_lstat root name);
  sh_list : ∀ name, quiet (rt_list root name);
  sh_read : ∀ name, quiet (rt_read root name);
  sh_dir : ∀ name w info w', name ≠ "."%string → rt_lstat root name w = (Ok info, w') → ti_kind info = KDirectory → look w name = Some NDir;
  sh_file : ∀ name w content w', rt_read root name w = (Ok content, w') → look w name = Some (NFile content);
  sh_listed : ∀ relative name w l w', rt_list root relative w = (Ok l, w') → present w (child_of relative name) →
    relative ≠ "."%string → plain_name name → ∃ d, (name, d) ∈ l;
}.
Lemma strip_prefix_app p s : strip_prefix p (p +:+ s) = Some s.
Proof.
  induction p as [|c p IH]; [by destruct s|]. change (String c p +:+ s) with (String c (p +:+ s)). cbn [strip_prefix].
  by rewrite Ascii.eqb_refl.
Qed.
Lemma child_name_of relative name :
  name ≠ EmptyString → str_contains "/" name = false → child_name relative (child_of relative name) = Some name.
Proof.
  intros Hn Hs. unfold child_name, child_of. apply eqs_false in Hn.
  destruct (relative =s ""); [by rewrite Hn, Hs|].
  replace (relative +:+ "/" +:+ name) with ((relative +:+ "/") +:+ name) by (by rewrite str_app_assoc).
  by rewrite strip_prefix_app, Hn, Hs.
Qed.
Lemma quiet_seen_info path name kind perm owned size : quiet (seen_info path name kind perm owned size : M B _).
Proof. unfold seen_info. quiet_tac. Qed.
Lemma seen_info_ok path name kind perm owned size w info w' :
  seen_info path name kind perm owned size w = (Ok info, w') → ti_kind info = kind.
Proof. unfold seen_info, ask, bind, ret. cbn. by intros [= <- _]. Qed.

(** The captured snapshot. *)
Definition captured_look (id : string) (k : disk) (path : string) : option node :=
  match k !! (Captured id, path) with Some (EFile f) => Some (NFile (file_blob f)) | Some EDir => Some NDir | _ => None end.
Definition captured_present (id : string) (k : disk) (path : string) : Prop := is_Some (k !! (Captured id, path)).
#[export] Instance captured_shows path id : ShowsTree (captured_root path id) (λ w, captured_look id (w_disk w)) (λ w, captured_present id (w_disk w)).
Proof.
  pose proof quiet_seen_info as Hq. constructor.
  - done.
  - intros name. cbn [captured_root rt_lstat]. destruct (name =s "."); apply quiet_bind; try apply quiet_fs_lstat; intros []; apply Hq.
  - intros name. cbn. quiet_tac.
  - intros name. cbn. quiet_tac.
  - intros name w info w' Hne Hr Hk. cbn [captured_root rt_lstat] in Hr. apply eqs_false in Hne. rewrite Hne in Hr.
    apply bind_ok in Hr as (e & w1 & He & Hr). unfold fs_lstat in He. destruct (now_fault w); try done.
    unfold captured_look. destruct (w_disk w !! _) as [e'|]; [|done]. injection He as -> _.
    destruct e; apply seen_info_ok in Hr; congruence.
  - intros name w content w' Hr. cbn in Hr. apply bind_ok in Hr as (f & w1 & [Hf _]%fs_read_ok & Hr). apply ret_ok in Hr as [-> _].
    unfold captured_look. by rewrite Hf.
  - intros relative name w l w' Hr [e He] _ (Hne & _ & Hs). cbn in Hr. apply bind_ok in Hr as (es & w1 & [-> _]%fs_list_ok & Hr). apply ret_ok in Hr as [-> _].
    exists (match e with EDir => true | _ => false end). apply list_elem_of_omap. exists (child_of relative name, e).
    split; [by apply dir_entries_spec|]. cbn. by rewrite child_name_of.
Qed.

(** The published tree. *)
Definition published_look (entries : gmap string tree) (transaction sub path : string) : option node :=
  match entries !! transaction with Some t => t !! below sub path | None => None end.
Definition published_present (entries : gmap string tree) (transaction sub path : string) : Prop :=
  is_Some (published_look entries transaction sub path).
Lemma published_node_ok parent transaction sub name w n :
  published_node parent transaction sub name (w_host w) = Ok n → published_look (in_entries parent (w_host w)) transaction sub name = Some n.
Proof.
  unfold published_node, published_look. destruct (in_entries _ _ !! transaction) as [t|]; [|done]. destruct (t !! below sub name); [|done].
  congruence.
Qed.
Lemma child_below sub relative name : sub ≠ EmptyString → relative ≠ "."%string → name ≠ "."%string → name ≠ EmptyString →
  below sub (child_of relative name) = child_of (below sub relative) name.
Proof.
  intros Hsub Hdot Hc Hn. unfold below. assert ((child_of relative name =s ".") = false) as ->.
  { apply eqs_false. unfold child_of. destruct (relative =s "") eqn:Er; [done|]. apply eqs_false in Er.
    intros H. apply (f_equal String.length) in H. rewrite !str_length_app in H. destruct relative; cbn in H; [done|lia]. } assert ((child_of relative name =s "") = false) as ->.
  { apply eqs_false. unfold child_of. destruct (relative =s "") eqn:Er; [done|]. by destruct relative. }
  apply eqs_false in Hdot. rewrite Hdot. cbn [orb]. unfold child_of. apply eqs_false in Hsub.
  destruct (relative =s "") eqn:Er; [by rewrite Hsub|].
  assert (((sub +:+ "/" +:+ relative) =s "") = false) as -> by (apply eqs_false; by destruct sub). by rewrite !str_app_assoc.
Qed.
Lemma published_shows parent transaction sub :
  sub ≠ EmptyString → ShowsTree (published_root parent transaction sub) (λ w, published_look (in_entries parent (w_host w)) transaction sub)
    (λ w, published_present (in_entries parent (w_host w)) transaction sub).
Proof.
  intros Hsub. pose proof quiet_seen_info as Hq. constructor.
  - done.
  - intros name. cbn [published_root rt_lstat]. apply quiet_bind; [by apply quiet_host_try|]. intros []; apply Hq.
  - intros name. cbn. apply quiet_bind; [by apply quiet_host_try|]. intros l. apply quiet_ret.
  - intros name. cbn. apply quiet_bind; [by apply quiet_host_try|]. intros []; auto with quiet.
  - intros name w info w' Hne Hr Hk. cbn [published_root rt_lstat] in Hr. apply bind_ok in Hr as (n & w1 & Hn%host_try_ok & Hr).
    injection Hn as Hn _. apply published_node_ok in Hn as ->. destruct n; apply seen_info_ok in Hr; congruence.
  - intros name w content w' Hr. cbn in Hr. apply bind_ok in Hr as (n & w1 & Hn%host_try_ok & Hr).
    injection Hn as Hn _. apply published_node_ok in Hn as ->. destruct n; [done|]. by apply ret_ok in Hr as [-> _].
  - intros relative name w l w' Hr [n Hn] Hdot (Hne & Hnd & Hs). cbn in Hr. apply bind_ok in Hr as (es & w1 & He%host_try_ok & Hr). apply ret_ok in Hr as [-> _].
    injection He as He _. exists (match n with NDir => true | NFile _ => false end). apply list_elem_of_omap.
    unfold published_look in Hn. subst es. destruct (in_entries _ _ !! transaction) as [t|]; [|done].
    exists (below sub (child_of relative name), n). split; [by apply elem_of_map_to_list|]. cbn.
    rewrite child_below, child_name_of; try done.
Qed.
End walks.
