(* ===== verification/ImportMatch.v ===== *)
(** What a successful inspection of a captured snapshot, and its comparison with
    a published tree, prove of the files: both trees hold exactly the entries of
    one canonical manifest. *)
From S2P Require Import Prelude Ids Bytes Json JsonText Recipe Selection SessionRecord Outside World Logic ExportJournal Receiver DiskReserve Capture Exports ImportTree.

(** ** A tree that is exactly what a manifest declares *)

Definition of_kind (kind : string) (entries : list Entry) : list Entry := filter (λ e, en_kind e = kind) entries.
Definition total_size (entries : list Entry) : Z := foldr (λ e n, en_size e + n) 0 (of_kind "file" entries).
Definition declared_dir (entries : list Entry) (relative : string) : Prop :=
  relative = EmptyString ∨ ∃ e, e ∈ entries ∧ en_path e = relative ∧ en_kind e = "directory"%string.
Definition entry_shown `{Digests} (look : string → option node) (e : Entry) : Prop :=
  en_kind e = "directory"%string ∧ look (en_path e) = Some NDir ∨
  en_kind e = "file"%string ∧ ∃ content, look (en_path e) = Some (NFile content) ∧
    Z.of_nat (String.length content) = en_size e ∧ sha256 content = en_sha256 e.
(** The paths are distinct, valid, and each in a declared directory. *)
Record paths_ok (entries : list Entry) : Prop := {
  po_distinct : NoDup (en_path <$> entries);
  po_valid : ∀ e, e ∈ entries → validSnapshotPath (en_path e) = true ∧ en_path e ≠ manifestName;
  po_parent : ∀ e, e ∈ entries → path_dir (en_path e) = "."%string ∨ declared_dir entries (path_dir (en_path e));
}.
(** Every declared entry is there as declared, and no directory holds anything
    else ([but] apart). *)
Record tree_exact `{Digests} (entries : list Entry) (but : string → Prop) (look : string → option node) (present : string → Prop) : Prop := {
  te_shown : ∀ e, e ∈ entries → entry_shown look e;
  te_only : ∀ relative name, declared_dir entries relative → plain_name name → present (child_of relative name) →
    child_of relative name ∈ en_path <$> entries ∨ but (child_of relative name);
}.
Record within_limits (entries : list Entry) : Prop := {
  wl_files : Z.of_nat (length (of_kind "file" entries)) <= maxImportFiles;
  wl_dirs : Z.of_nat (length (of_kind "directory" entries)) <= maxImportDirectories;
  wl_each : ∀ e, e ∈ entries → en_kind e = "file"%string → 0 <= en_size e <= maxImportFileBytes;
  wl_total : total_size entries <= maxImportTotalBytes;
}.

(** What an admitted snapshot is. *)
Record snapshot_proved `{Digests} (look : string → option node) (present : string → Prop) (s : ImportSnapshot) : Prop := {
  sp_paths : paths_ok (ss_entries s);
  sp_limits : within_limits (ss_entries s);
  sp_files : ss_files s = Z.of_nat (length (of_kind "file" (ss_entries s))) ∧ 1 <= ss_files s;
  sp_bytes : ss_bytes s = total_size (ss_entries s);
  sp_exact : tree_exact (ss_entries s) (eq manifestName) look present;
  sp_manifest : ∃ raw m, look manifestName = Some (NFile raw) ∧ parseManifest raw = Ok m ∧ items (mf_entries m) = ss_entries s ∧
    ss_digest s = sha256 (canonicalManifest m);
}.
(** The snapshot is the one on disk. *)
Definition captured_exact `{Digests} (id : string) (s : ImportSnapshot) (k : disk) : Prop :=
  snapshot_proved (captured_look id k) (captured_present id k) s.

(** ** Lemmas *)

Lemma of_kind_app kind a b : of_kind kind (a ++ b) = of_kind kind a ++ of_kind kind b.
Proof. apply filter_app. Qed.
Lemma total_size_app a b : total_size (a ++ b) = total_size a + total_size b.
Proof. unfold total_size. rewrite of_kind_app, foldr_app. induction (of_kind "file" a) as [|e l IH]; cbn; lia. Qed.
Lemma of_kind_one kind e : of_kind kind [e] = if en_kind e =s kind then [e] else [].
Proof. unfold of_kind. rewrite filter_cons. destruct (decide (en_kind e = kind)) as [->|Hne]; [by rewrite eqs_refl|]. apply eqs_false in Hne. by rewrite Hne. Qed.
Lemma declared_dir_more entries more relative : declared_dir entries relative → declared_dir (entries ++ more) relative.
Proof. intros [H|(e & He & Hx)]; [by left|]. right. exists e. set_solver. Qed.

(** What is proved of a snapshot depends on its own directory only. *)
Lemma snapshot_proved_ext `{Digests} look look' present present' s :
  (∀ path, look' path = look path) → (∀ path, present' path ↔ present path) → snapshot_proved look present s → snapshot_proved look' present' s.
Proof.
  intros Hl Hp [H1 H2 H3 H4 [Hs Ho] (raw & m & Hr & Hm)]. constructor; try done.
  - split; [|intros relative name Hd Hn H'; apply Ho; [done..|by apply Hp]].
    intros e He. unfold entry_shown. rewrite Hl. by apply Hs.
  - exists raw, m. by rewrite Hl.
Qed.
Lemma captured_exact_ext `{Digests} id s k k' :
  (∀ name, k' !! (Captured id, name) = k !! (Captured id, name)) → captured_exact id s k → captured_exact id s k'.
Proof.
  intros Hk. apply snapshot_proved_ext; intros path; [unfold captured_look|unfold captured_present]; by rewrite Hk.
Qed.

(** What the loop over the entries keeps. *)
Record loop_ok `{Digests} (look : string → option node) (done : list Entry) (s : inspected) : Prop := {
  lo_paths : paths_ok done;
  lo_limits : within_limits done;
  lo_shown : ∀ e, e ∈ done → entry_shown look e;
  lo_index : ∀ path e, sn_index s !! path = Some e ↔ e ∈ done ∧ en_path e = path;
  lo_files : sn_files s = Z.of_nat (length (of_kind "file" done));
  lo_dirs : sn_dirs s = Z.of_nat (length (of_kind "directory" done));
  lo_bytes : sn_bytes s = total_size done;
}.
Lemma paths_ok_snoc entries e :
  paths_ok entries → en_path e ∉ en_path <$> entries → validSnapshotPath (en_path e) = true → en_path e ≠ manifestName →
  path_dir (en_path e) = "."%string ∨ declared_dir entries (path_dir (en_path e)) → paths_ok (entries ++ [e]).
Proof.
  intros [Hd Hv Hp] Hn H1 H2 H3. constructor.
  - rewrite fmap_app. apply NoDup_app. split; [done|]. split; [set_solver|apply NoDup_singleton].
  - intros e' [He|He%list_elem_of_singleton]%elem_of_app; [auto|by subst].
  - intros e' [He|He%list_elem_of_singleton]%elem_of_app; [destruct (Hp e' He) as [?|?]|subst; destruct H3 as [?|?]]; eauto using declared_dir_more.
Qed.
Lemma index_snoc (index : gmap string Entry) (entries : list Entry) e :
  (∀ path e, index !! path = Some e ↔ e ∈ entries ∧ en_path e = path) → en_path e ∉ en_path <$> entries →
  ∀ path e', <[en_path e := e]> index !! path = Some e' ↔ e' ∈ entries ++ [e] ∧ en_path e' = path.
Proof.
  intros Hi Hn path e'. rewrite elem_of_app, list_elem_of_singleton. destruct (decide (path = en_path e)) as [->|Hne].
  - rewrite lookup_insert_eq. split; [intros [= <-]; auto|]. intros [[He| ->] Hp]; [|done].
    exfalso. apply Hn. rewrite <-Hp. by apply list_elem_of_fmap_2.
  - rewrite lookup_insert_ne by done. rewrite Hi. split; [intros []; auto|]. intros [[He| ->] Hp]; [done|by subst].
Qed.
Lemma in_index (index : gmap string Entry) (entries : list Entry) (path : string) :
  (∀ path e, index !! path = Some e ↔ e ∈ entries ∧ en_path e = path) → is_Some (index !! path) ↔ path ∈ en_path <$> entries.
Proof.
  intros Hi. rewrite list_elem_of_fmap. split.
  - intros [e He]. apply Hi in He as [He Hp]. by exists e.
  - intros (e & -> & He). exists e. by apply Hi.
Qed.

Section matching.
Context {B : Type} {E : Env} {F : HostFiles} {T : TreeHost} {I : Inspection B} {D : Digests}.
Implicit Types (w : world B) (root : Root (B := B)).

(** A successful quiet call leaves the world but for the clock. *)
Lemma quiet_ok {A} (m : M B A) w r w' : quiet m → m w = (r, w') → ∃ n, w' = retick n w.
Proof. intros Hm Hr. destruct (Hm w) as (r0 & n & Hw). rewrite Hw in Hr. injection Hr as _ <-. by exists n. Qed.

Section root.
Context (root : Root (B := B)) (look : world B → string → option node) (present : world B → string → Prop) {S : ShowsTree root look present}.

#[local] Hint Resolve sh_lstat sh_list sh_read : quiet.
Lemma quiet_verifySnapshotFile e info : quiet (verifySnapshotFile root e info).
Proof. unfold verifySnapshotFile. quiet_tac; first [apply sh_lstat|apply sh_read]. Qed.
Lemma verifySnapshotFile_ok e info w u w' :
  verifySnapshotFile root e info w = (Ok u, w') →
  (∃ content, look w (en_path e) = Some (NFile content) ∧ Z.of_nat (String.length content) = en_size e ∧ sha256 content = en_sha256 e).
Proof.
  unfold verifySnapshotFile. intros H. ok_inv. bsimpl. apply (quiet_ok _ _ _ _ (sh_lstat _)) in Ha as [n ->].
  apply sh_file in Ha1. destruct (sh_stable w n (en_path e)) as [Hl _]. rewrite Hl in Ha1. exists a1. split; [done|]. split; [|done]. lia.
Qed.
Lemma quiet_inspectEntry s e : quiet (inspectEntry root s e).
Proof. unfold inspectEntry. pose proof quiet_verifySnapshotFile. quiet_tac; auto using sh_lstat. Qed.
(** One more entry, of either kind. *)
Lemma loop_ok_snoc w done s e s' :
  loop_ok (look w) done s → (sn_index s !! en_path e = None) → validSnapshotPath (en_path e) = true → en_path e ≠ manifestName →
  path_dir (en_path e) = "."%string ∨ (∃ a, sn_index s !! path_dir (en_path e) = Some a ∧ en_kind a = "directory"%string) →
  entry_shown (look w) e → sn_index s' = <[en_path e := e]> (sn_index s) →
  within_limits (done ++ [e]) →
  sn_files s' = Z.of_nat (length (of_kind "file" (done ++ [e]))) → sn_dirs s' = Z.of_nat (length (of_kind "directory" (done ++ [e]))) →
  sn_bytes s' = total_size (done ++ [e]) → loop_ok (look w) (done ++ [e]) s'.
Proof.
  intros [Hp Hl Hs Hi _ _ _] Hnone Hv Hm Hpar Hsh Hidx Hlim H1 H2 H3.
  assert (en_path e ∉ en_path <$> done) as Hn by (rewrite <-(in_index _ _ _ Hi), Hnone; by intros []).
  constructor; try done.
  - apply paths_ok_snoc; try done. destruct Hpar as [?|(a & Ha & Hk)]; [by left|]. right. right. apply Hi in Ha as [Ha Hpa]. by exists a.
  - intros e' [He|He%list_elem_of_singleton]%elem_of_app; [auto|by subst].
  - rewrite Hidx. by apply index_snoc.
Qed.
Lemma within_snoc_dir entries e :
  within_limits entries → en_kind e = "directory"%string → Z.of_nat (length (of_kind "directory" entries)) < maxImportDirectories →
  within_limits (entries ++ [e]).
Proof.
  intros [Hf Hd He Ht] Hk Hlt. constructor; rewrite ?of_kind_app, ?of_kind_one, ?length_app, ?total_size_app; unfold total_size; rewrite ?of_kind_one, ?Hk; cbn.
  - rewrite Nat.add_0_r. done.
  - lia.
  - intros e' [H|H%list_elem_of_singleton]%elem_of_app Hk'; [auto|subst; congruence].
  - unfold total_size in Ht. lia.
Qed.
Lemma within_snoc_file entries e :
  within_limits entries → en_kind e = "file"%string → Z.of_nat (length (of_kind "file" entries)) < maxImportFiles →
  0 <= en_size e <= maxImportFileBytes → total_size entries <= maxImportTotalBytes - en_size e → within_limits (entries ++ [e]).
Proof.
  intros [Hf Hd He Ht] Hk Hlt Hz Htot. constructor; rewrite ?of_kind_app, ?of_kind_one, ?length_app, ?total_size_app; unfold total_size; rewrite ?of_kind_one, ?Hk; cbn.
  - lia.
  - rewrite Nat.add_0_r. done.
  - intros e' [H|H%list_elem_of_singleton]%elem_of_app Hk'; [auto|by subst].
  - unfold total_size in Htot. lia.
Qed.
Lemma inspectEntry_ok done s e w s' w' :
  loop_ok (look w) done s → inspectEntry root s e w = (Ok s', w') → loop_ok (look w) (done ++ [e]) s' ∧ ∃ n, w' = retick n w.
Proof.
  intros Hok H. pose proof (quiet_ok _ _ _ _ (quiet_inspectEntry s e) H) as Hw. split; [|exact Hw]. clear Hw.
  unfold inspectEntry in H. apply bind_ok in H as ([] & w1 & [Hg ->]%guard_ok & H). apply bind_ok in H as ([] & w2 & [Hg2 ->]%guard_ok & H).
  apply bind_ok in H as ([] & w3 & [Hg3 ->]%guard_ok & H). apply bind_ok in H as (info & w4 & Hinfo & H). apply bind_ok in H as ([] & w5 & [_ ->]%lift_ok & H).
  apply orb_false_iff in Hg as [Hv%negb_false_iff Hm%eqs_false].
  assert (sn_index s !! en_path e = None) as Hnone by (by destruct (sn_index s !! en_path e)).
  assert (path_dir (en_path e) = "."%string ∨ ∃ a, sn_index s !! path_dir (en_path e) = Some a ∧ en_kind a = "directory"%string) as Hpar.
  { apply andb_false_iff in Hg3 as [Hd%neqs_false|Hd%negb_false_iff]; [by left|]. right.
    destruct (sn_index s !! path_dir (en_path e)) as [a|]; [|done]. exists a. split; [done|]. by apply eqs_true. }
  assert (en_path e ≠ "."%string) as Hdot by (intros Hd; rewrite Hd in Hv; by vm_compute in Hv).
  pose proof Hok as [_ Hlim _ _ Hf Hd Hb].
  destruct (en_kind e =s "directory") eqn:Hk; [|destruct (en_kind e =s "file") eqn:Hk2; [|done]].
  - apply eqs_true in Hk. apply bind_ok in H as ([] & w6 & [Hg4 ->]%guard_ok & H). apply ret_ok in H as [-> _]. bsimpl.
    assert (Z.of_nat (length (of_kind "directory" done)) < maxImportDirectories) by lia.
    eapply loop_ok_snoc; try done.
    + left. split; [done|]. eapply sh_dir; [done|exact Hinfo|]. unfold is_directory in *. by bsimpl.
    + by apply within_snoc_dir.
    + rewrite of_kind_app, of_kind_one, Hk, length_app. cbn. lia.
    + rewrite of_kind_app, of_kind_one, Hk, length_app. cbn. lia.
    + rewrite total_size_app. unfold total_size at 2. rewrite of_kind_one, Hk. cbn. lia.
  - apply eqs_true in Hk2. apply bind_ok in H as ([] & w6 & [Hg4 ->]%guard_ok & H). apply bind_ok in H as ([] & w7 & Hver & H). apply ret_ok in H as [-> _].
    apply (quiet_ok _ _ _ _ (sh_lstat _)) in Hinfo as [n ->]. apply verifySnapshotFile_ok in Hver. destruct (sh_stable w n (en_path e)) as [Hl _]. rewrite Hl in Hver.
    bsimpl. assert (0 <= en_size e <= maxImportFileBytes) by lia. assert (Z.of_nat (length (of_kind "file" done)) < maxImportFiles) by lia.
    eapply loop_ok_snoc; try done.
    + by right.
    + apply within_snoc_file; try done. lia.
    + rewrite of_kind_app, of_kind_one, Hk2, length_app. cbn. lia.
    + rewrite of_kind_app, of_kind_one, Hk2, length_app. cbn. lia.
    + rewrite total_size_app. unfold total_size at 2. rewrite of_kind_one, Hk2. cbn. lia.
Qed.
Lemma quiet_inspectEntries s entries : quiet (inspectEntries root s entries).
Proof. revert s. induction entries as [|e rest IH]; intros s; cbn [inspectEntries]; [apply quiet_ret|]. apply quiet_bind; [apply quiet_inspectEntry|apply IH]. Qed.
Lemma loop_ok_stable n w done s : loop_ok (look (retick n w)) done s ↔ loop_ok (look w) done s.
Proof.
  assert (∀ e, entry_shown (look (retick n w)) e ↔ entry_shown (look w) e) as He.
  { intros e. unfold entry_shown. destruct (sh_stable w n (en_path e)) as [-> _]. reflexivity. }
  split; intros []; constructor; try done; intros; apply He; auto.
Qed.
Lemma inspectEntries_ok entries done s w s' w' :
  loop_ok (look w) done s → inspectEntries root s entries w = (Ok s', w') → loop_ok (look w) (done ++ entries) s'.
Proof.
  revert done s w. induction entries as [|e rest IH]; intros done s w Hok H; cbn [inspectEntries] in H.
  - apply ret_ok in H as [-> _]. by rewrite app_nil_r.
  - apply bind_ok in H as (s1 & w1 & He & H). apply (inspectEntry_ok done) in He as [H1 [n ->]]; [|done].
    apply loop_ok_stable with (n := n) in H1. eapply IH in H; [|exact H1]. rewrite loop_ok_stable, <-app_assoc in H. exact H.
Qed.

(** *** The two walks *)
Section walk.
Context (index : gmap string Entry) (but : string → Prop).
Context (Hvalid : ∀ path e, index !! path = Some e → validSnapshotPath path = true ∧ en_path e = path).

(** Nothing undeclared is in the directory. *)
Definition closed_at w (relative : string) : Prop :=
  ∀ name, plain_name name → present w (child_of relative name) → is_Some (index !! child_of relative name) ∨ but (child_of relative name).
(** What a walk adds to the seen entries satisfies [good], and its directories
    hold nothing undeclared. *)
Context (good : world B → Entry → Prop) (Hgood : ∀ w n e, good (retick n w) e → good w e).
Definition walked w (seen seen' : gset string) : Prop :=
  seen ⊆ seen' ∧ ∀ p, p ∈ seen' → p ∈ seen ∨ ∃ e, index !! p = Some e ∧ good w e ∧ (en_kind e = "directory"%string → closed_at w p).
Lemma closed_at_retick n w relative : closed_at (retick n w) relative → closed_at w relative.
Proof. intros H name Hn Hp. apply H; [done|]. by destruct (sh_stable w n (child_of relative name)) as [_ ->]. Qed.
Lemma walked_retick n w seen seen' : walked (retick n w) seen seen' → walked w seen seen'.
Proof.
  intros [H1 H2]. split; [done|]. intros p Hp. destruct (H2 p Hp) as [?|(e & He & Hg & Hd)]; [by left|]. right. exists e. split; [done|].
  split; [by eapply Hgood|]. intros Hk. eapply closed_at_retick; eauto.
Qed.
Lemma walked_trans w s1 s2 s3 : walked w s1 s2 → walked w s2 s3 → walked w s1 s3.
Proof. intros [H1 H2] [H3 H4]. split; [set_solver|]. intros p Hp. destruct (H4 p Hp) as [H|?]; [apply (H2 p H)|by right]. Qed.
Lemma walked_refl w s : walked w s s.
Proof. split; [done|]. by left. Qed.
Lemma walked_add w s p e : index !! p = Some e → good w e → (en_kind e = "directory"%string → closed_at w p) → walked w s ({[p]} ∪ s).
Proof. intros He Hg Hd. split; [set_solver|]. intros q [->%elem_of_singleton|?]%elem_of_union; [right; eauto|by left]. Qed.
Lemma declared_not_dot path e : index !! path = Some e → path ≠ "."%string.
Proof. intros H ->. apply Hvalid in H as [H _]. by vm_compute in H. Qed.
(** Every listed name is declared. *)
Lemma closed_listed w relative l w' :
  relative ≠ "."%string → rt_list root relative w = (Ok l, w') →
  (∀ name d, (name, d) ∈ l → is_Some (index !! child_of relative name) ∨ but (child_of relative name)) → closed_at w relative.
Proof. intros Hdot Hl Hall name Hn Hp. destruct (sh_listed _ _ _ _ _ Hl Hp Hdot Hn) as [d Hd]. by eapply Hall. Qed.

Section snapshot.
Context (Hbut : but manifestName) (Hany : ∀ w e, good w e).
Definition visits (relative : string) (m : gset string → M B (gset string)) : Prop :=
  ∀ seen, quiet (m seen) ∧ ∀ w seen' w', m seen w = (Ok seen', w') → walked w seen seen' ∧ closed_at w relative.
Lemma walkEntries_ok visit relative l :
  (∀ path e, index !! path = Some e → en_kind e = "directory"%string → visits path (visit path)) →
  ∀ seen, quiet (walkEntries index visit relative l seen) ∧ ∀ w seen' w',
  walkEntries index visit relative l seen w = (Ok seen', w') →
  walked w seen seen' ∧ ∀ name d, (name, d) ∈ l → is_Some (index !! child_of relative name) ∨ but (child_of relative name).
Proof.
  intros Hvisit. induction l as [|[name d] rest IH]; intros seen; cbn [walkEntries].
  { split; [apply quiet_ret|]. intros w seen' w' [-> _]%ret_ok. split; [apply walked_refl|]. intros ? ? []%not_elem_of_nil. }
  destruct ((relative =s "") && (name =s manifestName)) eqn:Em.
  { destruct (IH seen) as [Hq IHs]. split; [done|]. intros w seen' w' [Hw Hl]%IHs. split; [done|].
    intros name' d' [[= -> ->]|Hin]%elem_of_cons; [|by eapply Hl]. bsimpl. subst. by right. }
  destruct (index !! child_of relative name) as [e|] eqn:Ei; [|by split; [apply quiet_throw|]].
  set (path := child_of relative name) in *.
  assert (∀ seen, quiet (if en_kind e =s "directory" then visit path seen else ret seen)) as Hqv.
  { intros s. destruct (en_kind e =s "directory") eqn:Ek; [|apply quiet_ret]. apply eqs_true in Ek. by apply (Hvisit _ _ Ei Ek). }
  split; [apply quiet_bind; [apply quiet_guard|intros _]; apply quiet_bind; [apply Hqv|intros s; apply IH]|].
  intros w seen' w' H. apply bind_ok in H as ([] & w1 & [Hg ->]%guard_ok & H). apply bind_ok in H as (seen1 & w2 & Hv & H).
  destruct (quiet_ok _ _ _ _ (Hqv _) Hv) as [n ->]. apply IH in H as [Hw Hl]. apply walked_retick in Hw.
  assert (walked w seen seen1) as H1.
  { destruct (en_kind e =s "directory") eqn:Ek.
    - apply eqs_true in Ek. apply (Hvisit _ _ Ei Ek) in Hv as [Hv1 Hv2]. eapply walked_trans; [|exact Hv1]. by apply (walked_add _ _ _ e).
    - apply ret_ok in Hv as [-> _]. apply eqs_false in Ek. by apply (walked_add _ _ _ e). }
  split; [by eapply walked_trans|]. intros name' d' [[= -> ->]|Hin]%elem_of_cons; [left; by exists e|by eapply Hl].
Qed.
Lemma snapshotDirectory_ok n relative : relative ≠ "."%string → visits relative (inspectSnapshotDirectory n root index relative).
Proof.
  revert relative. induction n as [|n IH]; intros relative Hdot seen; cbn [inspectSnapshotDirectory]; [by split; [apply quiet_throw|]|].
  assert (∀ l, _) as Hwalk by (intros l; apply (walkEntries_ok (inspectSnapshotDirectory n root index) relative l); intros path e He _; by eapply IH, declared_not_dot).
  split; [apply quiet_bind; [apply quiet_wrapv, sh_list|intros l]; apply quiet_bind; [apply quiet_guard|intros _; apply Hwalk]|].
  intros w seen' w' H. apply bind_ok in H as (l & w1 & Hl%wrapv_ok & H). apply bind_ok in H as ([] & w2 & [_ ->]%guard_ok & H).
  destruct (quiet_ok _ _ _ _ (sh_list _) Hl) as [m ->]. apply Hwalk in H as [Hw Hall]. split; [by eapply walked_retick|by eapply closed_listed].
Qed.
End snapshot.

Section published.
Context (Hkinds : ∀ path e, index !! path = Some e → en_kind e = "directory"%string ∨ en_kind e = "file"%string).
Context (Hshown : ∀ w e, entry_shown (look w) e → good w e).
Lemma compareEntries_ok visit relative l :
  (∀ path e info, index !! path = Some e → en_kind e = "directory"%string → visits path (visit path info)) →
  ∀ seen, quiet (compareEntries root index visit relative l seen) ∧ ∀ w seen' w',
  compareEntries root index visit relative l seen w = (Ok seen', w') →
  walked w seen seen' ∧ ∀ name d, (name, d) ∈ l → is_Some (index !! child_of relative name) ∨ but (child_of relative name).
Proof.
  intros Hvisit. induction l as [|[name d] rest IH]; intros seen; cbn [compareEntries].
  { split; [apply quiet_ret|]. intros w seen' w' [-> _]%ret_ok. split; [apply walked_refl|]. intros ? ? []%not_elem_of_nil. }
  destruct (index !! child_of relative name) as [e|] eqn:Ei; [|by split; [apply quiet_throw|]].
  set (path := child_of relative name) in *. pose proof (Hvalid _ _ Ei) as [Hv Hpath]. pose proof (declared_not_dot _ _ Ei) as Hdot.
  pose proof sh_lstat as Hlstat. split.
  { repeat (apply quiet_bind; [solve [auto with quiet]|intros ?]). apply quiet_bind; [|intros; apply IH]. destruct (en_kind e =s "directory") eqn:Ek.
    - apply eqs_true in Ek. apply quiet_bind; [apply quiet_guard|intros _]. by apply (Hvisit path e).
    - apply quiet_bind; [apply quiet_guard|intros _]. apply quiet_bind; [apply quiet_verifySnapshotFile|intros _; apply quiet_ret]. }
  intros w seen' w' H. apply bind_ok in H as ([] & w1 & [_ ->]%guard_ok & H).
  apply bind_ok in H as (listed & w2 & Hlst & H). destruct (quiet_ok _ _ _ _ (sh_lstat _) Hlst) as [n1 ->].
  apply bind_ok in H as (info & w2 & Hinfo%wrapv_ok & H). destruct (quiet_ok _ _ _ _ (sh_lstat _) Hinfo) as [n2 ->].
  apply bind_ok in H as ([] & w1 & [_ ->]%guard_ok & H). apply bind_ok in H as ([] & w1 & [_ ->]%lift_ok & H).
  apply bind_ok in H as (seen1 & w2 & Hin & H).
  assert ((∃ n, w2 = retick n w) ∧ walked w seen ({[path]} ∪ seen1)) as [[n ->] H1].
  { destruct (en_kind e =s "directory") eqn:Ek.
    - apply eqs_true in Ek. apply bind_ok in Hin as ([] & w4 & [Hg ->]%guard_ok & Hin).
      destruct (Hvisit path e info Ei Ek seen) as [Hqv Hsv]. pose proof (quiet_ok _ _ _ _ Hqv Hin) as [n Hn]. split; [by exists n|].
      apply Hsv in Hin as [Hw Hc]. eapply walked_trans; [by eapply walked_retick|]. apply (walked_add _ _ _ e); [done| |intros _; by eapply closed_at_retick].
      apply Hshown. left. split; [done|]. rewrite Hpath. bsimpl. eapply sh_dir in Hinfo; [|done|unfold is_directory in *; by bsimpl].
      by destruct (sh_stable w n1 path) as [<- _].
    - apply bind_ok in Hin as ([] & w4 & [Hg ->]%guard_ok & Hin). apply bind_ok in Hin as ([] & w5 & Hver & Hin). apply ret_ok in Hin as [-> ->].
      pose proof (quiet_ok _ _ _ _ (quiet_verifySnapshotFile _ _) Hver) as [n ->]. split; [by exists n|].
      apply verifySnapshotFile_ok in Hver. apply eqs_false in Ek. apply (walked_add _ _ _ e); [done| |done].
      apply Hshown. right. split; [by destruct (Hkinds _ _ Ei)|]. destruct (sh_stable w n2 (en_path e)) as [Hl _].
      change (retick n2 (retick n1 w)) with (retick n2 w) in Hver. by rewrite Hl in Hver. }
  apply IH in H as [Hw Hl]. apply walked_retick in Hw.
  split; [by eapply walked_trans|]. intros name' d' [[= -> ->]|Hin']%elem_of_cons; [left; by exists e|by eapply Hl].
Qed.
Lemma publishedDirectory_ok n relative info : relative ≠ "."%string → visits relative (inspectPublishedDirectory n root index relative info).
Proof.
  revert relative info. induction n as [|n IH]; intros relative info Hdot seen; cbn [inspectPublishedDirectory]; [by split; [apply quiet_throw|]|].
  assert (∀ l, _) as Hwalk by (intros l; apply (compareEntries_ok (inspectPublishedDirectory n root index) relative l); intros path e i He _; by eapply IH, declared_not_dot).
  pose proof sh_lstat as Hlstat. pose proof sh_list as Hlist. split.
  { repeat (apply quiet_bind; [solve [auto with quiet]|intros ?]). apply quiet_bind; [apply Hwalk|intros ?]. repeat (apply quiet_bind; [solve [auto with quiet]|intros ?]). apply quiet_ret. }
  intros w seen' w' H. apply bind_ok in H as (opened & w1 & Ho%wrapv_ok & H). destruct (quiet_ok _ _ _ _ (sh_lstat _) Ho) as [n1 ->].
  apply bind_ok in H as ([] & w2 & [_ ->]%guard_ok & H). apply bind_ok in H as (l & w1 & Hl%wrapv_ok & H).
  destruct (quiet_ok _ _ _ _ (sh_list _) Hl) as [n2 ->]. apply bind_ok in H as ([] & w2 & [_ ->]%guard_ok & H).
  apply bind_ok in H as (seen1 & w3 & Hw & H). apply bind_ok in H as (after & w4 & _ & H). apply bind_ok in H as ([] & w5 & _ & H). apply ret_ok in H as [-> _].
  apply Hwalk in Hw as [Hw Hall]. split; [by eapply walked_retick, walked_retick|]. eapply closed_at_retick, closed_listed; eauto.
Qed.
End published.
End walk.

(** A walk that has seen every declared entry. *)
Lemma walk_complete index entries but good w seen :
  (∀ path e, index !! path = Some e ↔ e ∈ entries ∧ en_path e = path) →
  walked index but good w ∅ seen → closed_at index but w "" → base.size seen = base.size index →
  (∀ e, e ∈ entries → good w e) ∧
  ∀ relative name, declared_dir entries relative → plain_name name → present w (child_of relative name) →
    child_of relative name ∈ en_path <$> entries ∨ but (child_of relative name).
Proof.
  intros Hi [_ Hw] Hroot Hsize.
  assert (∀ p e, index !! p = Some e → p ∈ seen) as Hall.
  { assert (seen ⊆ dom index) as Hsub by (intros p [[]%not_elem_of_empty|(e & He & _)]%Hw; by apply elem_of_dom).
    apply set_subseteq_size_eq in Hsub; [|by rewrite size_dom, Hsize]. intros p e He. rewrite Hsub. by apply elem_of_dom. }
  split.
  - intros e He. assert (index !! en_path e = Some e) as Hx by by apply Hi.
    destruct (Hw _ (Hall _ _ Hx)) as [[]%not_elem_of_empty|(e' & He' & Hg & _)]. rewrite Hx in He'. by injection He' as ->.
  - intros relative name Hdir Hn Hp. rewrite <-(in_index _ _ _ Hi). destruct Hdir as [->|(e & He & Hpath & Hk)]; [by apply Hroot|].
    assert (index !! relative = Some e) as Hx by by apply Hi.
    destruct (Hw _ (Hall _ _ Hx)) as [[]%not_elem_of_empty|(e' & He' & _ & Hd)]. rewrite Hx in He'. injection He' as <-. by apply Hd.
Qed.
Lemma quiet_readManifest : quiet (readManifest root).
Proof. unfold readManifest. pose proof sh_lstat. pose proof sh_read. quiet_tac; auto. Qed.
Lemma readManifest_ok w m w' : readManifest root w = (Ok m, w') → ∃ raw, look w manifestName = Some (NFile raw) ∧ parseManifest raw = Ok m.
Proof.
  unfold readManifest. intros H. apply bind_ok in H as (info & w1 & Hi%wrapv_ok & H). destruct (quiet_ok _ _ _ _ (sh_lstat _) Hi) as [n1 ->].
  apply bind_ok in H as ([] & w2 & [_ ->]%guard_ok & H). apply bind_ok in H as ([] & w2 & [_ ->]%lift_ok & H).
  apply bind_ok in H as (opened & w1 & Ho%wrapv_ok & H). destruct (quiet_ok _ _ _ _ (sh_lstat _) Ho) as [n2 ->].
  apply bind_ok in H as ([] & w2 & [_ ->]%guard_ok & H). apply bind_ok in H as (read & w1 & Hr%attempt_ok & H).
  apply bind_ok in H as (after & w2 & _ & H). apply bind_ok in H as ([] & w3 & _ & H). apply bind_ok in H as (raw & w5 & Hraw%wrapv_ok & H).
  apply lift_ok in Hraw as [-> _]. apply bind_ok in H as ([] & w4 & _ & H). apply lift_ok in H as [H _].
  apply sh_file in Hr. change (retick n2 (retick n1 w)) with (retick n2 w) in Hr. destruct (sh_stable w n2 manifestName) as [Hl _]. rewrite Hl in Hr.
  by exists raw.
Qed.
Lemma loop_ok_empty w : loop_ok (look w) [] (mkSeen ∅ 0 0 0).
Proof.
  constructor; try done.
  - constructor; [constructor|by intros ? ?%not_elem_of_nil|by intros ? ?%not_elem_of_nil].
  - constructor; try done. by intros ? ?%not_elem_of_nil.
  - by intros ? ?%not_elem_of_nil.
  - intros path e. cbn. rewrite lookup_empty. split; [done|]. by intros [?%not_elem_of_nil _].
Qed.
Lemma index_valid look' done s : loop_ok look' done s →
  ∀ path e, sn_index s !! path = Some e → validSnapshotPath path = true ∧ en_path e = path.
Proof. intros Hok path e [He <-]%(lo_index _ _ _ Hok). split; [by apply (po_valid _ (lo_paths _ _ _ Hok))|done]. Qed.
Lemma inspectRoot_ok id w s w' : inspectRoot root id w = (Ok s, w') → snapshot_proved (look w) (present w) s.
Proof.
  unfold inspectRoot. intros H. apply bind_ok in H as (m & w1 & Hm & H). destruct (quiet_ok _ _ _ _ quiet_readManifest Hm) as [n ->].
  apply readManifest_ok in Hm as (raw & Hraw & Hparse). apply bind_ok in H as ([] & w2 & [_ ->]%guard_ok & H).
  apply bind_ok in H as (sn & w2 & Hs & H). destruct (quiet_ok _ _ _ _ (quiet_inspectEntries _ _) Hs) as [n2 ->].
  apply (inspectEntries_ok _ []) in Hs as Hok; [|apply loop_ok_empty]. rewrite loop_ok_stable in Hok. cbn [app] in Hok.
  apply bind_ok in H as ([] & w3 & [Hfiles ->]%guard_ok & H). apply bind_ok in H as (seen & w3 & Hwalk & H).
  apply bind_ok in H as ([] & w4 & [Hsize ->]%guard_ok & H). apply ret_ok in H as [-> _].
  pose proof (index_valid _ _ _ Hok) as Hvalid. pose proof Hok as [Hp Hl Hsh Hi Hf Hd Hb].
  destruct (snapshotDirectory_ok (sn_index sn) (eq manifestName) Hvalid (λ _ _, True) (λ _ _ _ _, Logic.I) eq_refl (λ _ _, Logic.I) walk_fuel "" ltac:(done) ∅) as [_ Hdir].
  change (retick n2 (retick n w)) with (retick n2 w) in Hwalk.
  apply Hdir in Hwalk as [Hw Hc]. apply walked_retick in Hw; [|done..]. apply closed_at_retick in Hc.
  apply negb_false_iff, Nat.eqb_eq in Hsize.
  destruct (walk_complete _ _ _ _ _ _ Hi Hw Hc Hsize) as [_ Honly]. constructor; cbn; try done.
  - split; [done|]. apply Z.eqb_neq in Hfiles. lia.
  - exists raw, m. done.
Qed.
End root.


(** The captured snapshot, and the published tree compared with it. *)
#[local] Hint Resolve quiet_stat_directory : quiet.
Lemma quiet_openPrivateDirectory name : quiet (openPrivateDirectory name : M B _).
Proof. unfold openPrivateDirectory. quiet_tac. Qed.
Section quiet.
Context (root : Root (B := B)) (look : world B → string → option node) (present : world B → string → Prop) {S : ShowsTree root look present}.
Lemma quiet_snapshotDirectory n index relative seen : quiet (inspectSnapshotDirectory n root index relative seen).
Proof.
  revert relative seen. induction n as [|n IH]; intros relative seen; cbn [inspectSnapshotDirectory]; [apply quiet_throw|].
  apply quiet_bind; [apply quiet_wrapv, sh_list|intros l]. apply quiet_bind; [apply quiet_guard|intros _].
  revert seen. induction l as [|[name d] rest IHl]; intros seen; cbn [walkEntries]; quiet_tac; auto.
Qed.
Lemma quiet_publishedDirectory n index relative info seen : quiet (inspectPublishedDirectory n root index relative info seen).
Proof.
  pose proof sh_lstat as Hlstat. pose proof sh_list as Hlist. pose proof quiet_verifySnapshotFile as Hv.
  revert relative info seen. induction n as [|n IH]; intros relative info seen; cbn [inspectPublishedDirectory]; [apply quiet_throw|].
  repeat (apply quiet_bind; [solve [auto with quiet]|intros ?]). apply quiet_bind; [|intros; quiet_tac; auto].
  revert seen. induction a1 as [|[name d] rest IHl]; intros seen; cbn [compareEntries]; quiet_tac; eauto.
Qed.
Lemma quiet_inspectRoot tid : quiet (inspectRoot root tid).
Proof.
  unfold inspectRoot. pose proof quiet_readManifest. pose proof quiet_inspectEntries. pose proof quiet_snapshotDirectory. quiet_tac; eauto.
Qed.
End quiet.
Lemma quiet_InspectSnapshot parent id : quiet (InspectSnapshot parent id : M B _).
Proof.
  unfold InspectSnapshot. set (root := captured_root _ _ : Root (B := B)). pose proof (captured_shows (path_join parent [id]) id : ShowsTree root _ _) as Hs.
  pose proof quiet_openPrivateDirectory. assert (∀ name, quiet (rt_lstat root name)) by (intros; apply sh_lstat).
  assert (∀ tid, quiet (inspectRoot root tid)) by (intros; by eapply quiet_inspectRoot). quiet_tac; auto.
Qed.
#[local] Hint Resolve quiet_InspectSnapshot quiet_openPrivateDirectory : quiet.
Lemma quiet_ComparePublishedTree staging id parent transaction sub : sub ≠ EmptyString → quiet (ComparePublishedTree staging id parent transaction sub : M B _).
Proof.
  intros Hsub. unfold ComparePublishedTree. set (root := published_root _ _ _ : Root (B := B)).
  pose proof (published_shows parent transaction sub Hsub : ShowsTree root _ _) as Hs.
  assert (∀ name, quiet (rt_lstat root name)) by (intros; apply sh_lstat).
  assert (∀ n index relative info seen, quiet (inspectPublishedDirectory n root index relative info seen)) by (intros; by eapply quiet_publishedDirectory).
  quiet_tac; auto.
Qed.
Lemma InspectSnapshot_ok parent id w s w' :
  InspectSnapshot parent id w = (Ok s, w') → captured_exact id s (w_disk w).
Proof.
  unfold InspectSnapshot. intros H. apply bind_ok in H as ([] & w1 & [_ ->]%guard_ok & H).
  apply bind_ok in H as ([] & w1 & Hp & H). destruct (quiet_ok _ _ _ _ (quiet_openPrivateDirectory _) Hp) as [n1 ->].
  set (root := captured_root _ _) in H. pose proof (captured_shows (path_join parent [id]) id : ShowsTree root _ _) as Hs.
  apply bind_ok in H as (info & w1 & Hi%wrapv_ok & H). destruct (quiet_ok _ _ _ _ (sh_lstat _) Hi) as [n2 ->].
  apply bind_ok in H as ([] & w2 & [_ ->]%guard_ok & H). apply bind_ok in H as ([] & w2 & [_ ->]%lift_ok & H).
  apply bind_ok in H as (opened & w1 & Ho%wrapv_ok & H). destruct (quiet_ok _ _ _ _ (sh_lstat _) Ho) as [n3 ->].
  apply bind_ok in H as ([] & w2 & [_ ->]%guard_ok & H). eapply inspectRoot_ok in H; [|exact Hs]. exact H.
Qed.
Lemma index_of_spec entries : NoDup (en_path <$> entries) → ∀ path e, index_of entries !! path = Some e ↔ e ∈ entries ∧ en_path e = path.
Proof.
  unfold index_of. induction entries as [|e entries IH] using rev_ind; intros Hd path e'.
  - cbn. rewrite lookup_empty. split; [done|]. by intros [?%not_elem_of_nil _].
  - rewrite foldl_snoc. rewrite fmap_app in Hd. apply NoDup_app in Hd as (Hd & Hn & _). apply index_snoc; [by apply IH|].
    intros Hin. apply (Hn _ Hin). set_solver.
Qed.
Lemma ComparePublishedTree_ok staging id parent transaction sub w s w' :
  sub ≠ EmptyString → ComparePublishedTree staging id parent transaction sub w = (Ok s, w') →
  captured_exact id s (w_disk w) ∧
  tree_exact (ss_entries s) (λ _, False) (published_look (in_entries parent (w_host w)) transaction sub) (published_present (in_entries parent (w_host w)) transaction sub).
Proof.
  intros Hsub H. unfold ComparePublishedTree in H. apply bind_ok in H as (snap & w1 & Hs & H).
  destruct (quiet_ok _ _ _ _ (quiet_InspectSnapshot _ _) Hs) as [n1 ->]. apply InspectSnapshot_ok in Hs as Hsp.
  set (root := published_root _ _ _) in H. pose proof (published_shows parent transaction sub Hsub : ShowsTree root _ _) as Hr.
  apply bind_ok in H as ([] & w1 & [_ ->]%guard_ok & H). apply bind_ok in H as ([] & w1 & Ho%wrap_ok & H).
  destruct (quiet_ok _ _ _ _ (quiet_openPrivateDirectory _) Ho) as [n2 ->].
  apply bind_ok in H as (info & w1 & Hi & H). destruct (quiet_ok _ _ _ _ (sh_lstat _) Hi) as [n3 ->].
  apply bind_ok in H as (seen & w1 & Hw & H). apply bind_ok in H as ([] & w2 & [Hsize _]%guard_ok & H). apply ret_ok in H as [-> _].
  split; [done|]. pose proof (sp_paths _ _ _ Hsp) as [Hd Hv _]. pose proof (index_of_spec _ Hd) as Hidx.
  assert (∀ path e, index_of (ss_entries snap) !! path = Some e → validSnapshotPath path = true ∧ en_path e = path) as Hvalid.
  { intros path e [He <-]%Hidx. split; [by apply Hv|done]. }
  assert (∀ w n e, entry_shown (published_look (in_entries parent (w_host (retick n w))) transaction sub) e → entry_shown (published_look (in_entries parent (w_host w)) transaction sub) e) as Hgood by done.
  assert (∀ path e, index_of (ss_entries snap) !! path = Some e → en_kind e = "directory"%string ∨ en_kind e = "file"%string) as Hkinds.
  { intros path e [He _]%Hidx. destruct (te_shown _ _ _ _ (sp_exact _ _ _ Hsp) _ He) as [[? _]|[? _]]; auto. }
  destruct (publishedDirectory_ok root _ _ (index_of (ss_entries snap)) (λ _, False) Hvalid (λ w, entry_shown (published_look (in_entries parent (w_host w)) transaction sub))
    Hgood Hkinds (λ _ _ H, H) walk_fuel "" info ltac:(done) ∅) as [_ Hdir].
  change (retick n3 (retick n2 (retick n1 w))) with (retick n3 w) in Hw.
  apply Hdir in Hw as [Hw Hc]. eapply walked_retick in Hw; [|exact Hr|exact Hgood]. eapply closed_at_retick in Hc; [|exact Hr].
  apply negb_false_iff, Nat.eqb_eq in Hsize. eapply walk_complete in Hsize as [Hshown Honly]; [|exact Hidx|exact Hw|exact Hc]. by constructor.
Qed.
End matching.
#[export] Hint Resolve quiet_InspectSnapshot : quiet.
