(* ===== verification/ImportCapture.v ===== *)
(** The capture of a selected host source
    (src/internal/importx/source.go and the exclusions and manifest of
    selection.go): a walk over a tree other processes may change at any moment,
    which copies what the selection leaves into a private staging directory,
    writes the manifest, and renames the directory to the transaction's name
    without replacing anything. What fails before the rename is removed. *)
From S2P Require Import Prelude Ids Bytes Json JsonText Recipe Selection SessionRecord Outside World Logic ExportJournal Receiver DiskReserve Capture Exports ImportTree.

(** What the operating system answers about a source given by its path, at every
    moment anew: its resolution, the metadata of a name below it, the entries of
    a directory, the bytes of a file. *)
Class ImportSource := {
  is_resolve : nat → string → res string;
  is_lstat : nat → string → string → res TreeInfo;
  is_list : nat → string → string → res (list (string * bool));
  is_read : nat → string → string → res string;
}.

(** What the walk has captured, and which exclusions it has met. *)
Record captured := mkCaptured {
  cp_files : Z; cp_dirs : Z; cp_bytes : Z; cp_entries : list Entry; cp_matched : gset string }.
Definition nothing_captured : captured := mkCaptured 0 0 0 [] ∅.
Definition exclude_match (name : string) (s : captured) : captured :=
  mkCaptured (cp_files s) (cp_dirs s) (cp_bytes s) (cp_entries s) ({[ name ]} ∪ cp_matched s).
Definition add_directory (path : string) (s : captured) : captured :=
  mkCaptured (cp_files s) (cp_dirs s + 1) (cp_bytes s) (cp_entries s ++ [mkEntry path "directory" 0 ""]) (cp_matched s).
Definition add_file (path : string) (size : Z) (digest : string) (s : captured) : captured :=
  mkCaptured (cp_files s + 1) (cp_dirs s) (cp_bytes s + size) (cp_entries s ++ [mkEntry path "file" size digest]) (cp_matched s).

(** The manifest's bytes and digest; an exclusion that met nothing, an empty
    selection and a digest other than the pinned one are refused. *)
Definition selectionManifest `{Digests} (s : captured) (selection : Selection) : res (string * string) :=
  check (forallb (λ name, bool_decide (name ∈ cp_matched s)) (items (sel_excludes selection))) "import exclusion did not match" ;;?
  check (negb (cp_files s =? 0)) "import source has no selected regular files" ;;?
  let raw := canonicalManifest (mkManifest 1 (Some (cp_entries s))) in
  check (negb (maxManifestBytes <? Z.of_nat (String.length raw) + 1)) "import manifest exceeds bound" ;;?
  let digest := sha256 raw in
  check (negb ((sel_digest selection ≠s "") && (sel_digest selection ≠s digest))) "import selection digest differs from preview; no snapshot published" ;;?
  Ok (raw, digest).
(** The private name a capture is staged under. *)
Definition temporary_name (transactionID nonce : string) : string := ".import-" +:+ transactionID +:+ "-" +:+ hexEncode nonce.

Section capture.
Context {B : Type} {E : Env} {R : ReservePlatform} {F : HostFiles} {T : TreeHost} {I : Inspection B} {D : Digests} {S : ImportSource}.

Definition source_root (path : string) : Root (B := B) := {|
  rt_path := path;
  rt_lstat name := ask (λ n, is_lstat n path name);
  rt_list relative := ask (λ n, is_list n path relative);
  rt_read name := ask (λ n, is_read n path name);
|}.

(** ** The walk *)

(** Without a staging directory (a preview) nothing is written. *)
Definition staged (stage : option string) (m : string → M B unit) : M B unit :=
  match stage with Some tmp => m tmp | None => ret tt end.
Definition copySourceFile (source : Root) (stage : option string) (name : string) (initial : TreeInfo) : M B string :=
  let! opened := wrapv "import source file changed while opening" (rt_lstat source name) in
  guard (negb (same_tree initial opened)) "import source file changed while opening" ;;!
  staged stage (λ tmp, fs_create (Captured tmp) name (bytes_file "")) ;;!
  let! content := rt_read source name in
  staged stage (λ tmp, fs_append (Captured tmp) name (str_take (Z.to_nat (ti_size initial)) content)) ;;!
  guard (Z.of_nat (String.length content) <? ti_size initial) "EOF" ;;!
  guard (ti_size initial <? Z.of_nat (String.length content)) "import source file grew during capture" ;;!
  let! after := wrapv "import source file changed during capture" (rt_lstat source name) in
  guard (negb (same_tree initial after)) "import source file changed during capture" ;;!
  let! pathInfo := wrapv "import source path changed during capture" (rt_lstat source name) in
  guard (negb (same_tree initial pathInfo)) "import source path changed during capture" ;;!
  staged stage (λ tmp, fs_sync (Captured tmp)) ;;!
  ret (sha256 content).

Section entries.
Context (source : Root (B := B)) (stage : option string) (excludes : list string) (visit : string → TreeInfo → captured → M B captured).
Definition captureEntry (depth : nat) (relative component : string) (s : captured) : M B captured :=
  guardedErr ;;!
  let child := child_of relative component in
  if existsb (String.eqb child) excludes then ret (exclude_match child s)
  else
    guard (negb (validComponent component) || (component =s manifestName)) "unsafe import source name" ;;!
    guard (Selection.maxPathBytes <? String.length child)%nat "import source path exceeds bound" ;;!
    let! info := rt_lstat source child in
    lift (admitSourceInfo info) ;;!
    if is_directory info then
      guard ((depth =? Selection.maxDepth)%nat || (maxImportDirectories <=? cp_dirs s)) "import source directory limit exceeded" ;;!
      staged stage (λ tmp, fs_mkdir (Captured tmp) child) ;;!
      let! s := visit child info (add_directory child s) in
      staged stage (λ tmp, fs_sync (Captured tmp)) ;;!
      ret s
    else
      guard (negb (is_regular info) || (maxImportFiles <=? cp_files s) || (ti_size info <? 0) || (maxImportFileBytes <? ti_size info) ||
             (maxImportTotalBytes - ti_size info <? cp_bytes s)) "import source file type or size limit exceeded" ;;!
      let! digest := copySourceFile source stage child info in
      ret (add_file child (ti_size info) digest s).
Fixpoint captureEntries (depth : nat) (relative : string) (entries : list (string * bool)) (s : captured) : M B captured :=
  match entries with
  | [] => ret s
  | (component, _) :: rest =>
      let! s := captureEntry depth relative component s in
      captureEntries depth relative rest s
  end.
End entries.
(** [depth] is at most [maxDepth]: an entry that deep is no directory. *)
Fixpoint captureDirectory (fuel : nat) (source : Root) (stage : option string) (excludes : list string) (relative : string)
    (expected : TreeInfo) (depth : nat) (s : captured) : M B captured :=
  match fuel with
  | O => throw (Errorf "unreachable")
  | Datatypes.S fuel =>
      guardedErr ;;!
      guard (Selection.maxDepth <? depth)%nat "import source depth exceeds bound" ;;!
      let! opened := wrapv "import source directory changed while opening" (rt_lstat source (dot_of relative)) in
      guard (negb (same_tree expected opened)) "import source directory changed while opening" ;;!
      let! entries := rt_list source relative in
      guard (maxImportFiles + maxImportDirectories + Z.of_nat (length excludes) <? Z.of_nat (length entries))
            "import source has too many entries" ;;!
      let! s := captureEntries source stage excludes
                  (λ child info, captureDirectory fuel source stage excludes child info (Datatypes.S depth)) depth relative (sort_by fst entries) s in
      let! after := wrapv "import source directory changed during capture" (rt_lstat source (dot_of relative)) in
      guard (negb (same_tree expected after)) "import source directory changed during capture" ;;!
      ret s
  end.
Definition capture_fuel : nat := Selection.maxDepth + 1.

(** ** The removal of a staging directory *)

(** [Remove] of a directory below the staging directory, or of itself. *)
Definition fs_rmdir_below (d : dirname) (name : string) : M B unit := λ w,
  match w_disk w !! (d, name) with
  | Some EDir =>
      if existsb (λ ne, has_prefix (name +:+ "/") ne.1) (dir_entries d (w_disk w)) then (fail "directory not empty", tick w)
      else match now_fault w with
           | NoFault => (Ok tt, did (EvRemove d name) (delete (d, name) (w_disk w)) w)
           | FailAfter => (fail "remove", did (EvRemove d name) (delete (d, name) (w_disk w)) w)
           | _ => (fail "remove failed", tick w)
           end
  | Some _ => (fail "not a directory", tick w)
  | None => (Er ErrNotExist, tick w)
  end.
Definition remove_directory (tmp relative : string) : M B unit :=
  if relative =s "" then fs_rmdir Imports tmp (Captured tmp) else fs_rmdir_below (Captured tmp) relative.
Section removal.
Context (stage : Root (B := B)) (tmp : string) (visit : string → TreeInfo → M B unit).
Fixpoint removeEntries (relative : string) (entries : list (string * bool)) : M B unit :=
  match entries with
  | [] => ret tt
  | (name, isDir) :: rest =>
      let child := child_of relative name in
      (if isDir : bool then let! info := rt_lstat stage child in visit child info else fs_remove (Captured tmp) child) ;;!
      removeEntries relative rest
  end.
End removal.
Fixpoint removePrivateTree (fuel : nat) (stage : Root) (tmp relative : string) (expected : TreeInfo) : M B unit :=
  match fuel with
  | O => throw (Errorf "unreachable")
  | Datatypes.S fuel =>
      let! named := attempt (rt_lstat stage (dot_of relative)) in
      match named with
      | Er e => if err_not_exist e then ret tt else throw (Errorf "import temporary directory changed before cleanup")
      | Ok named =>
          guard (negb (is_directory named) || negb (SameTree named expected)) "import temporary directory changed before cleanup" ;;!
          let! opened := wrapv "import temporary directory changed while opening for cleanup" (rt_lstat stage (dot_of relative)) in
          guard (negb (SameTree opened expected)) "import temporary directory changed while opening for cleanup" ;;!
          let! entries := rt_list stage relative in
          removeEntries stage tmp (removePrivateTree fuel stage tmp) relative entries ;;!
          remove_directory tmp relative
      end
  end.
Definition removal_fuel : nat := Selection.maxDepth + 2.

(** ** The capture *)

Definition absent_name (name : string) (msg : string) : M B unit :=
  let! found := attempt (fs_lstat Imports name) in
  match found with
  | Ok _ => throw (Errorf msg)
  | Er e => if err_not_exist e then ret tt else throw e
  end.
(** What happens in the staging directory, and its publication. *)
Definition captureStaged (source stage : Root) (directory transactionID tmp : string) (createdInfo : TreeInfo) (selection : Selection)
  : M B ImportSnapshot :=
  let! stageInfo := wrapv "import temporary directory changed while opening" (rt_lstat stage ".") in
  guard (negb (SameTree stageInfo createdInfo)) "import temporary directory changed while opening" ;;!
  let! rootInfo := rt_lstat source "." in
  let! s := captureDirectory capture_fuel source (Some tmp) (items (sel_excludes selection)) "" rootInfo 0 nothing_captured in
  let! (raw, digest) := lift (selectionManifest s selection) in
  fs_create (Captured tmp) manifestName (bytes_file (raw +:+ String LF "")) ;;!
  fs_sync (Captured tmp) ;;!
  guardedErr ;;!
  let! stillNamed := wrapv "import temporary directory changed before publication" (rt_lstat stage ".") in
  guard (negb (SameTree stillNamed createdInfo)) "import temporary directory changed before publication" ;;!
  wrapv "import snapshot destination changed" (absent_name transactionID "import snapshot destination changed") ;;!
  fs_rename_captured tmp transactionID ;;!
  ret (mkImportSnapshot transactionID directory digest (cp_files s) (cp_dirs s) (cp_bytes s) (cp_entries s)).
(** The guarded operation: what it published, and its error. *)
Definition captureGuarded (source : Root) (stagingParent transactionID tmp : string) (selection : Selection)
  : M B (option ImportSnapshot * option error) :=
  let stage := captured_root (path_join stagingParent [tmp]) tmp in
  let! made := attempt (fs_mkdir Imports tmp ;;! rt_lstat stage ".") in
  match made with
  | Er e => ret (None, Some e)
  | Ok createdInfo =>
      let! captured := attempt (captureStaged source stage (path_join stagingParent [transactionID]) transactionID tmp createdInfo selection) in
      match captured with
      | Ok snapshot => let! synced := attempt (fs_sync Imports) in ret (Some snapshot, error_of synced)
      | Er e =>
          let! removed := attempt (removePrivateTree removal_fuel stage tmp "" createdInfo) in
          ret (None, join_errors [Some e; error_of removed])
      end
  end.
Definition CaptureSelectedSource (sourcePath stagingParent transactionID : string) (selection : Selection) : M B (outcome ImportSnapshot) :=
  let! selection := lift (normalizeSelection selection) in
  guard (negb (Session.validUUID transactionID) || negb (canonicalAbsolute sourcePath) || negb (canonicalAbsolute stagingParent) ||
         (sourcePath =s stagingParent)) "invalid import source, staging parent, or transaction identity" ;;!
  let! resolvedSource := ask (λ n, is_resolve n sourcePath) in
  let! resolvedParent := ask (λ n, is_resolve n stagingParent) in
  guard (pathContains resolvedSource resolvedParent || pathContains resolvedParent resolvedSource) "import source and staging parent overlap" ;;!
  wrap "import source" (openPrivateDirectory sourcePath) ;;!
  wrap "import staging parent" (openPrivateDirectory stagingParent) ;;!
  absent_name transactionID "import snapshot already exists" ;;!
  let! nonce := ask hf_random in
  let! (result, err) := RunAssigning [stagingParent]
    (captureGuarded (source_root sourcePath) stagingParent transactionID (temporary_name transactionID nonce) selection) in
  let '(snapshot, failed) := default (None, None) result in
  match join_errors [failed; err], snapshot with
  | None, Some snapshot => ret (snapshot, None)
  | Some e, Some snapshot => ret (snapshot, Some (wrapw "import snapshot published but parent sync uncertain" e))
  | Some e, None => throw e
  | None, None => throw (Errorf "unreachable")
  end.
(** The same walk without staging. *)
Definition PreviewSource (sourcePath : string) (selection : Selection) : M B ImportSnapshot :=
  let! selection := lift (normalizeSelection selection) in
  wrap "import source" (openPrivateDirectory sourcePath) ;;!
  let source := source_root sourcePath in
  let! rootInfo := rt_lstat source "." in
  let! s := captureDirectory capture_fuel source None (items (sel_excludes selection)) "" rootInfo 0 nothing_captured in
  let! (_, digest) := lift (selectionManifest s selection) in
  guardedErr ;;!
  ret (mkImportSnapshot "" "" digest (cp_files s) (cp_dirs s) (cp_bytes s) (cp_entries s)).
End capture.
