(* ===== verification/CaptureSafety.v ===== *)
(** What the capture of an import source promises. *)
From S2P Require Import Prelude Ids Bytes Json JsonText Recipe Selection SessionRecord Outside World Logic ExportJournal Receiver DiskReserve Capture Exports ImportTree ImportMatch ImportCapture.

(** ** What is promised *)

(** A key of the directory [tmp] or of its place among the imports. *)
Definition in_staging (tmp : string) (key : dirname * string) : Prop := key = (Imports, tmp) ∨ key.1 = Captured tmp.
(** Nothing else changed; nothing but these two directories changed. *)
Definition outside (tmp : string) (k0 k : disk) : Prop := ∀ key, ¬ in_staging tmp key → k !! key = k0 !! key.
Definition beside (tmp id : string) (k0 k : disk) : Prop := ∀ key, ¬ in_staging tmp key → ¬ in_staging id key → k !! key = k0 !! key.
(** What is below a directory of captures is below one that exists. *)
Definition rooted (k : disk) : Prop := ∀ id p, is_Some (k !! (Captured id, p)) → k !! (Imports, id) = Some EDir.
(** A complete snapshot stands under the name. *)
Definition whole `{Digests} (id : string) (s : ImportSnapshot) (k : disk) : Prop := k !! (Imports, id) = Some EDir ∧ captured_exact id s k.

(** What the source answered about an entry, and what was copied of it. *)
Definition answered `{ImportSource} (path tmp : string) (k : disk) (e : Entry) : Prop :=
  en_kind e = "directory"%string ∧ (∃ n info, is_lstat n path (en_path e) = Ok info ∧ ti_kind info = KDirectory) ∨
  en_kind e = "file"%string ∧ ∃ n content, is_read n path (en_path e) = Ok content ∧ captured_look tmp k (en_path e) = Some (NFile content).
(** Everything the source listed in a directory is excluded or captured. *)
Definition listed_in `{ImportSource} (path : string) (excludes : list string) (relative : string) (entries : list Entry) : Prop :=
  ∃ n l, is_list n path relative = Ok l ∧
    ∀ name d, (name, d) ∈ l → child_of relative name ∈ excludes ∨ child_of relative name ∈ en_path <$> entries.
(** The snapshot is what the selection leaves of the source, as it answered. *)
Record selected `{ImportSource} (path : string) (n : Selection) (tmp : string) (s : ImportSnapshot) (k : disk) : Prop := {
  cs_pinned : sel_digest n = EmptyString ∨ sel_digest n = ss_digest s;
  cs_excluded : ∀ e, e ∈ ss_entries s → en_path e ∉ items (sel_excludes n);
  cs_answered : ∀ e, e ∈ ss_entries s → answered path tmp k e;
  cs_listed : ∀ relative, declared_dir (ss_entries s) relative → listed_in path (items (sel_excludes n)) relative (ss_entries s);
}.

(** The snapshot stands under its name, the staging directory is gone, and the
    rest of the files [k0] is as it was. *)
Record published_capture `{ImportSource} `{Digests} (path : string) (n : Selection) (tmp id : string) (k0 : disk) (s : ImportSnapshot) (k : disk) : Prop := {
  pb_beside : beside tmp id k0 k;
  pb_whole : whole id s k;
  pb_selected : selected path n id s k;
  pb_gone : k !! (Imports, tmp) = None;
  pb_clear : no_entries (Captured tmp) k;
}.

Definition staging_event (tmp : string) (ev : event) : Prop :=
  match ev with EvMkdir d n | EvCreate d n _ | EvWrite d n _ | EvRemove d n => in_staging tmp (d, n) | _ => False end.
Definition staging_step (tmp : string) (k0 : disk) : stepP := λ _ s, staging_event tmp (st_event s) ∧ outside tmp k0 (st_disk s).
(** Every step of a capture stays in one private directory, or is the one rename
    of a complete snapshot of the selection. *)
Definition capture_step `{ImportSource} `{Digests} (path : string) (n : Selection) (tmp id : string) (k0 : disk) : stepP := λ o s,
  staging_step tmp k0 o s ∨
  st_event s = EvRename Imports tmp id ∧ ∃ snapshot, published_capture path n tmp id k0 snapshot (st_disk s).

(** ** Lemmas *)

(** *** The manifest is written and read *)
Definition plain_entry (e : Entry) : Prop :=
  utf8 (en_path e) ∧ utf8 (en_kind e) ∧ utf8 (en_sha256 e) ∧ int64_ok (en_size e) = true.
Lemma decode_marshalEntry e : plain_entry e → decodeEntry (marshalEntry e) zeroEntry = Ok e.
Proof.
  intros (Hp & Hk & Hs & Hz). destruct e as [p k z s]. cbn in Hp, Hk, Hs, Hz. unfold decodeEntry, marshalEntry. cbn [en_path en_kind en_size en_sha256].
  destruct (z =? 0) eqn:Ez; destruct (s =s "") eqn:Es; cbn [app]; lenient_step; unfold entry_field; cbn [String.eqb Ascii.eqb Bool.eqb zeroEntry];
    repeat (first [rewrite get_utf8 by done|unfold get_int; rewrite Hz]; cbn [res_bind en_path en_kind en_size en_sha256]);
    try apply Z.eqb_eq in Ez as ->; try apply eqs_true in Es as ->; done.
Qed.
Lemma printable_entry e : plain_entry e → printable (marshalEntry e) = true.
Proof.
  intros (Hp & Hk & Hs & Hz). unfold marshalEntry. cbn [printable].
  destruct (en_size e =? 0); destruct (en_sha256 e =s ""); cbn [app]; printable_obj; first [by apply printable_jstr|done].
Qed.
Lemma parse_canonical entries : Forall plain_entry entries →
  parseManifest (canonicalManifest (mkManifest 1 (Some entries)) +:+ String LF "") = Ok (mkManifest 1 (Some entries)).
Proof.
  intros He. unfold parseManifest, trim_newline. rewrite strip_suffix_app. cbn [default id]. set (m := mkManifest 1 (Some entries)).
  assert (scan (canonicalManifest m) = Some [marshalManifest m]) as ->.
  { unfold canonicalManifest. rewrite <-(str_app_nil (render _)). apply scan_render; [|by left]. cbn [marshalManifest printable]. printable_obj; [done|].
    apply printable_slice. eapply Forall_impl; [exact He|]. apply printable_entry. }
  cbn [res_bind]. assert (decodeManifest (marshalManifest m) (mkManifest 0 None) = Ok m) as ->.
  { unfold decodeManifest, marshalManifest. lenient_step. unfold manifest_field. cbn [String.eqb Ascii.eqb Bool.eqb mf_version mf_entries m].
    unfold get_int. change (int64_ok 1) with true. cbn [res_bind mf_version mf_entries].
    rewrite decode_slice_map; [done|]. cbn [items default]. eapply Forall_impl; [exact He|]. apply decode_marshalEntry. }
  cbn [res_bind]. change (mf_version m =? 1) with true. cbn [check res_bind]. by rewrite eqs_refl.
Qed.

(** *** The paths of captured entries *)
Lemma component_char_slash first c : component_char first c = true → Ascii.eqb c "/" = false.
Proof. destruct c as [[] [] [] [] [] [] [] []], first; by vm_compute. Qed.
Lemma component_char_ascii first c : component_char first c = true → is_ascii c = true.
Proof. destruct c as [[] [] [] [] [] [] [] []], first; by vm_compute. Qed.
Lemma validComponent_chars c : validComponent c = true → c ≠ EmptyString ∧ str_all (λ a, component_char true a || component_char false a) c = true.
Proof.
  unfold validComponent. destruct c as [|a r]; [done|]. intros H. bsimpl. split; [done|]. cbn [str_all]. match goal with H : component_char true a = true |- _ => rewrite H end.
  cbn [orb andb]. eapply str_all_impl; [|eassumption]. intros x ->. by rewrite orb_true_r.
Qed.
Lemma split_plain acc s : str_all (λ a, component_char true a || component_char false a) s = true → split_slash acc s = [acc +:+ s].
Proof.
  revert acc. induction s as [|c s IH]; intros acc H; cbn [split_slash]; [by rewrite str_app_nil|]. cbn [str_all] in H. bsimpl.
  assert (Ascii.eqb c "/" = false) as -> by (apply orb_true_iff in H as [Hc|Hc]; by eapply component_char_slash).
  rewrite IH by done. by rewrite str_app_assoc.
Qed.
Lemma split_join acc a b : split_slash acc (a +:+ String "/" b) = split_slash acc a ++ split_slash "" b.
Proof.
  revert acc. induction a as [|c a IH]; intros acc; [done|]. change (String c a +:+ String "/" b) with (String c (a +:+ String "/" b)).
  cbn [split_slash]. destruct (Ascii.eqb c "/"); cbn [app]; by rewrite IH.
Qed.
Lemma split_slash_child relative c : validComponent c = true → split_slash "" (child_of relative c) = (if relative =s "" then [] else split_slash "" relative) ++ [c].
Proof.
  intros [_ Hc]%validComponent_chars. apply (split_plain "") in Hc as Hs. change ("" +:+ c) with c in Hs. unfold child_of. destruct (relative =s "") eqn:Er; [done|].
  change (relative +:+ "/" +:+ c) with (relative +:+ String "/" c). by rewrite split_join, Hs.
Qed.
Lemma clean_rel_snoc front l c : clean_rel front l = true → clean_elem c = true → clean_rel front (l ++ [c]) = true.
Proof.
  unfold clean_elem. intros Hl Hc. rewrite !andb_true_iff in Hc. revert front Hl. induction l as [|e l IH]; intros front Hl; cbn [app clean_rel] in *.
  - rewrite !andb_true_iff, orb_true_iff. tauto.
  - rewrite !andb_true_iff in Hl |- *. destruct Hl as [Hl Hr]. split; [done|]. by apply IH.
Qed.
(** Where the walk is: the root, or a valid directory, at its depth. *)
Definition walk_at (relative : string) (depth : nat) : Prop :=
  (relative = EmptyString ∨ validSnapshotPath relative = true) ∧ depth = depth_of relative.
Lemma valid_child relative depth c : walk_at relative depth → (depth <= Selection.maxDepth)%nat → validComponent c = true →
  (String.length (child_of relative c) <= Selection.maxPathBytes)%nat →
  validSnapshotPath (child_of relative c) = true ∧ walk_at (child_of relative c) (S depth).
Proof.
  intros [Hr ->] Hd Hc Hlen. apply validComponent_chars in Hc as Hne. destruct Hne as [Hne Hch].
  assert (depth_of (child_of relative c) = S (depth_of relative)) as Hdep.
  { unfold depth_of at 1. rewrite (split_slash_child _ _ Hc). assert ((child_of relative c =s "") = false) as ->.
    { apply eqs_false. unfold child_of. destruct (relative =s "") eqn:Er; [done|]. apply eqs_false in Er. by destruct relative. }
    rewrite length_app. unfold depth_of. destruct (relative =s ""); cbn [length]; lia. }
  assert (validSnapshotPath (child_of relative c) = true); [|split; [done|split; [by right|done]]].
  unfold validSnapshotPath. rewrite (split_slash_child _ _ Hc), forallb_app. cbn [forallb]. rewrite Hc.
  assert (canonical_rel (child_of relative c) = true ∧ has_prefix "/" (child_of relative c) = false ∧ child_of relative c ≠ EmptyString) as (Hcan & Hpre & Hnil).
  { assert (clean_elem c = true) as Hcc.
    { clear -Hc. unfold validComponent in Hc. rewrite !andb_true_iff, negb_true_iff, !orb_false_iff in Hc. cbn [existsb] in Hc. rewrite !orb_false_iff in Hc.
      destruct Hc as [[[He _] (Hd & Hdd & _)] _]. unfold clean_elem. rewrite Hd, Hdd. by destruct c. }
    unfold canonical_rel. rewrite (split_slash_child _ _ Hc). unfold child_of. destruct (relative =s "") eqn:Er.
    - assert (has_prefix "/" c = false) as Hp.
      { destruct c as [|a r]; [done|]. cbn [str_all] in Hch. bsimpl. destruct (Ascii.eqb_spec "/" a) as [<-|Hn]; [|unfold has_prefix; cbn; by destruct a as [[] [] [] [] [] [] [] []]].
        apply orb_true_iff in H as [H|H]; by vm_compute in H. }
      split_and!; [|done|done]. rewrite (clean_rel_snoc true []) by done. by rewrite orb_true_r.
    - apply eqs_false in Er. destruct Hr as [?|Hv]; [done|]. unfold validSnapshotPath in Hv. bsimpl. split_and!.
      + rewrite clean_rel_snoc; [by rewrite orb_true_r| |done]. match goal with H : canonical_rel _ = true |- _ => unfold canonical_rel in H; apply orb_true_iff in H as [Hdot|]; [|done] end.
        apply eqs_true in Hdot as ->. done.
      + destruct relative; [done|]. done.
      + by destruct relative. }
  rewrite Hcan, Hpre. assert ((String.length (child_of relative c) =? 0)%nat = false) as -> by (destruct (child_of relative c); done).
  assert ((Selection.maxPathBytes <? String.length (child_of relative c))%nat = false) as -> by by apply Nat.ltb_ge.
  cbn [negb orb]. rewrite length_app. cbn [length]. unfold depth_of in Hd.
  destruct (relative =s "") eqn:Er; [done|]. destruct Hr as [->|Hv]; [done|]. unfold validSnapshotPath in Hv. bsimpl.
  assert ((Selection.maxDepth + 1 <? length (split_slash "" relative) + 1)%nat = false) as -> by (apply Nat.ltb_ge; lia).
  match goal with H : forallb validComponent _ = true |- _ => by rewrite H end.
Qed.
Lemma path_dir_child relative c : validComponent c = true →
  path_dir (child_of relative c) = if relative =s "" then "."%string else relative.
Proof.
  intros [_ Hc]%validComponent_chars. assert (before_slash c = None) as Hn.
  { induction c as [|a c IH]; [done|]. cbn [str_all] in Hc. bsimpl. cbn [before_slash]. rewrite IH by done.
    apply orb_true_iff in H as [H%component_char_slash|H%component_char_slash]; by rewrite H. }
  unfold path_dir, child_of. destruct (relative =s ""); [by rewrite Hn|]. by rewrite before_slash_cat, Hn.
Qed.
Lemma valid_path_plain path : validSnapshotPath path = true → utf8 path.
Proof.
  intros H. unfold validSnapshotPath in H. bsimpl. apply coerce_ascii. apply (split_slash_all is_ascii ""); [|done]. apply forallb_forall. intros e He.
  assert (validComponent e = true) as [_ Hs]%validComponent_chars by (eapply forallb_forall; eassumption).
  eapply str_all_impl; [|exact Hs]. intros c [Hc|Hc]%orb_true_iff; by eapply component_char_ascii.
Qed.

Lemma count_snoc kind entries e :
  Z.of_nat (length (of_kind kind (entries ++ [e]))) = Z.of_nat (length (of_kind kind entries)) + (if en_kind e =s kind then 1 else 0).
Proof. rewrite of_kind_app, of_kind_one, length_app. destruct (_ =s _); cbn; lia. Qed.
Lemma total_snoc entries e : total_size (entries ++ [e]) = total_size entries + (if en_kind e =s "file" then en_size e else 0).
Proof. rewrite total_size_app. unfold total_size at 2. rewrite of_kind_one. destruct (_ =s _); cbn; lia. Qed.

(** *** The staging directory *)
Lemma outside_insert tmp k0 k key e : in_staging tmp key → outside tmp k0 k → outside tmp k0 (<[key := e]> k).
Proof. intros Hk Ho key' Hn. rewrite lookup_insert_ne by (intros ->; done). by apply Ho. Qed.
Lemma outside_delete tmp k0 k key : in_staging tmp key → outside tmp k0 k → outside tmp k0 (delete key k).
Proof. intros Hk Ho key' Hn. rewrite lookup_delete_ne by (intros ->; done). by apply Ho. Qed.
Lemma staging_inside tmp p : in_staging tmp (Captured tmp, p).
Proof. by right. Qed.
Lemma staging_itself tmp : in_staging tmp (Imports, tmp).
Proof. by left. Qed.
#[export] Hint Resolve outside_insert outside_delete staging_inside staging_itself : core.

Section capture.
Context {B : Type} {E : Env} {R : ReservePlatform} {F : HostFiles} {T : TreeHost} {I : Inspection B} {D : Digests} {S : ImportSource}.
Context (digest_form : ∀ s, Session.lowerSHA256 (sha256 s) = true).
Implicit Types (w : world B).

Section walk.
Context (path tmp : string) (k0 : disk) (excludes : list string).
Abbreviation P := (staging_step tmp k0).
Abbreviation source := (source_root (B := B) path).

Record in_stage w : Prop := {
  ig_outside : outside tmp k0 (w_disk w);
  ig_made : w_disk w !! (Imports, tmp) = Some EDir;
}.
Lemma in_stage_retick n w : in_stage w → in_stage (retick n w).
Proof. by intros []. Qed.
Lemma in_stage_put ev p e w : in_stage w → in_stage (did ev (<[(Captured tmp, p) := e]> (w_disk w)) w).
Proof. intros [Ho Hm]. constructor; cbn [w_disk did]; [auto|by rewrite lookup_insert_ne]. Qed.
Lemma staging_put ev p e w o l : staging_event tmp ev → in_stage w → P o (Step ev (w_disk w) (<[(Captured tmp, p) := e]> (w_disk w)) l).
Proof. intros He [Ho _]. split; [done|cbn [st_disk]; auto]. Qed.
#[local] Hint Resolve in_stage_retick in_stage_put : core.
Lemma wp_stage_mkdir p (Q : res unit → world B → Prop) w : in_stage w →
  (∀ e w', in_stage w' → Q (Er e) w') →
  (∀ w', in_stage w' → w_disk w !! (Captured tmp, p) = None → w_disk w' = <[(Captured tmp, p) := EDir]> (w_disk w) → Q (Ok tt) w') →
  wp P (fs_mkdir (Captured tmp) p) Q w.
Proof.
  intros Hw He Hq. apply wp_fs_mkdir; [|intros e; apply He; by apply (in_stage_retick _ w)].
  intros Hn k; subst k. split; [apply staging_put; [apply staging_inside|done]|]. intros [[]|e]; [by apply Hq; auto|apply He; auto].
Qed.
Lemma wp_stage_create p f (Q : res unit → world B → Prop) w : in_stage w →
  (∀ e w', in_stage w' → Q (Er e) w') →
  (∀ w', in_stage w' → w_disk w !! (Captured tmp, p) = None → w_disk w' = <[(Captured tmp, p) := EFile f]> (w_disk w) → Q (Ok tt) w') →
  wp P (fs_create (Captured tmp) p f) Q w.
Proof.
  intros Hw He Hq. apply wp_fs_create; [|intros e _; apply He; by apply (in_stage_retick _ w)].
  intros Hn f' Hf k; subst k. split; [apply staging_put; [apply staging_inside|done]|]. split; [intros ->; apply Hq; auto|intros e; apply He; auto].
Qed.
Lemma wp_stage_append p f bytes (Q : res unit → world B → Prop) w : in_stage w → w_disk w !! (Captured tmp, p) = Some (EFile f) →
  (∀ e w', in_stage w' → Q (Er e) w') →
  (∀ w', in_stage w' → w_disk w' = <[(Captured tmp, p) := EFile (appended f bytes)]> (w_disk w) → Q (Ok tt) w') →
  wp P (fs_append (Captured tmp) p bytes) Q w.
Proof.
  intros Hw Hp He Hq. apply wp_fs_append; [|intros e; apply He; by apply (in_stage_retick _ w)].
  intros f' b Hf k; subst k. rewrite Hp in Hf. injection Hf as <-. split; [apply staging_put; [apply staging_inside|done]|].
  split; [intros ->; apply Hq; auto|intros e; apply He; auto].
Qed.
Lemma quiet_source_lstat name : quiet (rt_lstat source name).
Proof. cbn. quiet_tac. Qed.
Lemma quiet_source_list name : quiet (rt_list source name).
Proof. cbn. quiet_tac. Qed.
Lemma quiet_source_read name : quiet (rt_read source name).
Proof. cbn. quiet_tac. Qed.
#[local] Hint Resolve quiet_source_lstat quiet_source_list quiet_source_read : quiet.
Lemma wp_copySourceFile name initial (Q : res string → world B → Prop) w : in_stage w →
  (∀ e w', in_stage w' → Q (Er e) w') →
  (∀ content f n w', in_stage w' → w_disk w !! (Captured tmp, name) = None → w_disk w' = <[(Captured tmp, name) := EFile f]> (w_disk w) →
     file_blob f = content → is_read n path name = Ok content → Z.of_nat (String.length content) = ti_size initial → Q (Ok (sha256 content)) w') →
  wp P (copySourceFile source (Some tmp) name initial) Q w.
Proof.
  intros Hw He Hq. unfold copySourceFile. cbn [staged].
  wp_read as opened n Ho by (apply He; auto). wp_guard as Hg by (apply He; auto).
  apply wp_bind, wp_stage_create; [auto|auto|]. intros w1 H1 Hnone Hd1.
  wp_read as content n1 Hc by (apply He; auto). cbn in Hc. unfold ask in Hc. injection Hc as Hread _.
  apply wp_bind, (wp_stage_append _ (bytes_file "")); [auto|cbn [w_disk retick]; by rewrite Hd1, lookup_insert_eq|auto|]. intros w2 H2 Hd2.
  wp_guard as Hlt by (apply He; auto). wp_guard as Hgt by (apply He; auto).
  wp_read as after n2 Ha by (apply He; auto). wp_guard as Hg2 by (apply He; auto).
  wp_read as pathInfo n3 Hp by (apply He; auto). wp_guard as Hg3 by (apply He; auto).
  wp_read as u n4 Hs by (apply He; auto). apply wp_ret. assert (Z.of_nat (String.length content) = ti_size initial) as Hlen by lia.
  assert (str_take (Z.to_nat (ti_size initial)) content = content) as Htake.
  { rewrite <-Hlen, Nat2Z.id. pose proof (take_app content "") as Ht. by rewrite str_app_nil in Ht. }
  apply (Hq content (appended (bytes_file "") content) (w_tick w1)); try done; [auto|].
  cbn [w_disk retick]. rewrite Hd2, Htake. cbn [w_disk retick]. by rewrite Hd1, insert_insert_eq.
Qed.

Abbreviation answered := (answered path tmp).
Record walk_ok (s : captured) (k : disk) : Prop := {
  wk_paths : paths_ok (cp_entries s);
  wk_limits : within_limits (cp_entries s);
  wk_files : cp_files s = Z.of_nat (length (of_kind "file" (cp_entries s)));
  wk_dirs : cp_dirs s = Z.of_nat (length (of_kind "directory" (cp_entries s)));
  wk_bytes : cp_bytes s = total_size (cp_entries s);
  wk_shown : ∀ e, e ∈ cp_entries s → entry_shown (captured_look tmp k) e;
  wk_answered : ∀ e, e ∈ cp_entries s → answered k e;
  wk_only : ∀ p, is_Some (k !! (Captured tmp, p)) → p ∈ en_path <$> cp_entries s;
  wk_selected : ∀ e, e ∈ cp_entries s → en_path e ∉ excludes;
  wk_bare : ∀ e, e ∈ cp_entries s → en_kind e = "directory"%string → en_size e = 0 ∧ en_sha256 e = EmptyString;
}.
Lemma captured_look_put p x k q : q ≠ p → captured_look tmp (<[(Captured tmp, p) := x]> k) q = captured_look tmp k q.
Proof. intros Hne. unfold captured_look. by rewrite lookup_insert_ne by congruence. Qed.
Lemma walk_ok_snoc s s' k e x : walk_ok s k → k !! (Captured tmp, en_path e) = None → cp_entries s' = cp_entries s ++ [e] →
  validSnapshotPath (en_path e) = true → en_path e ≠ manifestName → en_path e ∉ excludes →
  path_dir (en_path e) = "."%string ∨ declared_dir (cp_entries s) (path_dir (en_path e)) →
  let k' := <[(Captured tmp, en_path e) := x]> k in
  entry_shown (captured_look tmp k') e → answered k' e → (en_kind e = "directory"%string → en_size e = 0 ∧ en_sha256 e = EmptyString) → within_limits (cp_entries s') →
  cp_files s' = Z.of_nat (length (of_kind "file" (cp_entries s'))) → cp_dirs s' = Z.of_nat (length (of_kind "directory" (cp_entries s'))) →
  cp_bytes s' = total_size (cp_entries s') → walk_ok s' k'.
Proof.
  intros Hok Hnone Hs' Hv Hm Hx Hpar k' Hsh Han Hbare Hlim Hf Hd Hb.
  assert (en_path e ∉ en_path <$> cp_entries s) as Hfresh.
  { intros (e' & Hp & He)%list_elem_of_fmap. destruct (wk_shown _ _ Hok e' He) as [[_ Hl]|[_ (c & Hl & _)]];
      unfold captured_look in Hl; by rewrite <-Hp, Hnone in Hl. }
  assert (∀ e', e' ∈ cp_entries s → captured_look tmp k' (en_path e') = captured_look tmp k (en_path e')) as Hold.
  { intros e' He. apply captured_look_put. intros Heq. apply Hfresh. rewrite <-Heq. by apply list_elem_of_fmap_2. }
  constructor; try done; rewrite ?Hs'.
  - apply paths_ok_snoc; try done. apply Hok.
  - intros e' [He|He%list_elem_of_singleton]%elem_of_app; [|by subst]. unfold entry_shown. rewrite Hold by done. by apply Hok.
  - intros e' [He|He%list_elem_of_singleton]%elem_of_app; [|by subst]. unfold answered. rewrite Hold by done. by apply Hok.
  - intros p Hp. rewrite fmap_app. cbn. destruct (decide (p = en_path e)) as [->|Hne]; [set_solver|].
    subst k'. rewrite lookup_insert_ne in Hp by congruence. apply elem_of_app. left. by apply Hok.
  - intros e' [He|He%list_elem_of_singleton]%elem_of_app; [by apply Hok|by subst].
  - intros e' [He|He%list_elem_of_singleton]%elem_of_app; [by apply Hok|by subst].
Qed.
(** A name of the directory the walk is in that it may add. *)
Record fresh_child (s : captured) (child : string) : Prop := {
  fc_valid : validSnapshotPath child = true;
  fc_manifest : child ≠ manifestName;
  fc_selected : child ∉ excludes;
  fc_parent : path_dir child = "."%string ∨ declared_dir (cp_entries s) (path_dir child);
}.
Lemma fresh_child_at s relative component : declared_dir (cp_entries s) relative → validComponent component = true → component ≠ manifestName →
  validSnapshotPath (child_of relative component) = true → child_of relative component ∉ excludes → fresh_child s (child_of relative component).
Proof.
  intros Hdir Hcomp Hman Hv Hx. constructor; [done| |done|].
  - intros Heq. pose proof (split_slash_child relative component Hcomp) as Hs. rewrite Heq in Hs. change (split_slash "" manifestName) with [manifestName] in Hs.
    destruct (relative =s ""); [by injection Hs as Hs|].
    pose proof (split_slash_length "" relative) as Hl. apply (f_equal length) in Hs. rewrite length_app in Hs. cbn in Hs. lia.
  - rewrite (path_dir_child _ _ Hcomp). destruct (relative =s ""); auto.
Qed.
Lemma walk_ok_directory s k child n info : walk_ok s k → k !! (Captured tmp, child) = None → fresh_child s child →
  cp_dirs s < maxImportDirectories → is_lstat n path child = Ok info → ti_kind info = KDirectory →
  walk_ok (add_directory child s) (<[(Captured tmp, child) := EDir]> k).
Proof.
  intros Hok Hnone [] Hl Hinfo Hkind.
  apply (walk_ok_snoc s _ _ (mkEntry child "directory" 0 "")); try done; cbn [en_path add_directory cp_entries cp_files cp_dirs cp_bytes].
  - left. split; [done|]. unfold captured_look. by rewrite lookup_insert_eq.
  - left. split; [done|]. by exists n, info.
  - apply within_snoc_dir; [apply Hok|done|]. by rewrite <-(wk_dirs _ _ Hok).
  - rewrite count_snoc, (wk_files _ _ Hok). cbn. lia.
  - rewrite count_snoc, (wk_dirs _ _ Hok). cbn. lia.
  - rewrite total_snoc, (wk_bytes _ _ Hok). cbn. lia.
Qed.
Lemma walk_ok_file s k child n f size : walk_ok s k → k !! (Captured tmp, child) = None → fresh_child s child →
  cp_files s < maxImportFiles → 0 <= size <= maxImportFileBytes → cp_bytes s <= maxImportTotalBytes - size →
  is_read n path child = Ok (file_blob f) → Z.of_nat (String.length (file_blob f)) = size →
  walk_ok (add_file child size (sha256 (file_blob f)) s) (<[(Captured tmp, child) := EFile f]> k).
Proof.
  intros Hok Hnone [] Hf Hz Ht Hread Hsize.
  apply (walk_ok_snoc s _ _ (mkEntry child "file" size (sha256 (file_blob f)))); try done; cbn [en_path add_file cp_entries cp_files cp_dirs cp_bytes].
  - right. split; [done|]. exists (file_blob f). unfold captured_look. cbn [en_path en_size en_sha256]. by rewrite lookup_insert_eq.
  - right. split; [done|]. exists n, (file_blob f). unfold captured_look. cbn [en_path]. by rewrite lookup_insert_eq.
  - apply within_snoc_file; [apply Hok|done|by rewrite <-(wk_files _ _ Hok)|done|by rewrite <-(wk_bytes _ _ Hok)].
  - rewrite count_snoc, (wk_files _ _ Hok). cbn. lia.
  - rewrite count_snoc, (wk_dirs _ _ Hok). cbn. lia.
  - rewrite total_snoc, (wk_bytes _ _ Hok). cbn. lia.
Qed.
Lemma walk_ok_nothing k : no_entries (Captured tmp) k → walk_ok nothing_captured k.
Proof.
  intros Hn. constructor; try done; try by intros e ?%not_elem_of_nil.
  - constructor; [constructor|by intros ? ?%not_elem_of_nil|by intros ? ?%not_elem_of_nil].
  - constructor; try done. by intros ? ?%not_elem_of_nil.
  - intros p [e He]. by rewrite Hn in He.
Qed.

Abbreviation listed relative := (λ s, listed_in path excludes relative (cp_entries s)).
Record advances (s s' : captured) : Prop := {
  av_prefix : cp_entries s `prefix_of` cp_entries s';
  av_listed : ∀ e, e ∈ cp_entries s' → en_kind e = "directory"%string → e ∈ cp_entries s ∨ listed_in path excludes (en_path e) (cp_entries s');
}.
Lemma prefix_in s s' p : cp_entries s `prefix_of` cp_entries s' → p ∈ en_path <$> cp_entries s → p ∈ en_path <$> cp_entries s'.
Proof. intros [l ->]. rewrite fmap_app. set_solver. Qed.
Lemma listed_more relative s s' : cp_entries s `prefix_of` cp_entries s' → listed_in path excludes relative (cp_entries s) → listed_in path excludes relative (cp_entries s').
Proof. intros Hp (n & l & Hl & Hall). exists n, l. split; [done|]. intros name d Hin. destruct (Hall _ _ Hin); [by left|right; by eapply prefix_in]. Qed.
Lemma declared_more s s' p : cp_entries s `prefix_of` cp_entries s' → declared_dir (cp_entries s) p → declared_dir (cp_entries s') p.
Proof. intros [l ->]. apply declared_dir_more. Qed.
Lemma advances_refl s s' : cp_entries s' = cp_entries s → advances s s'.
Proof. intros Hs. split; rewrite Hs; [done|]. auto. Qed.
Lemma advances_trans s1 s2 s3 : advances s1 s2 → advances s2 s3 → advances s1 s3.
Proof.
  intros [H1 H2] [H3 H4]. split; [by etrans|]. intros e He Hk. destruct (H4 e He Hk) as [He2|?]; [|by right].
  destruct (H2 e He2 Hk) as [?|Hl]; [by left|right]. by eapply listed_more.
Qed.
(** A step of the walk: it stays in the staging directory, and what it adds is exact. *)
Definition walks (s : captured) (seen : captured → Prop) (m : M B captured) (w : world B) : Prop :=
  ∀ Q : res captured → world B → Prop, (∀ e w', in_stage w' → Q (Er e) w') →
  (∀ s' w', in_stage w' → walk_ok s' (w_disk w') → advances s s' → seen s' → Q (Ok s') w') → wp P m Q w.
Lemma quiet_stage_guard : quiet (guardedErr : M B unit).
Proof. apply quiet_guardedErr. Qed.
#[local] Hint Resolve quiet_stage_guard : quiet.
Section entries.
Context (visit : string → TreeInfo → captured → M B captured) (depth : nat) (relative : string).
Context (Hat : walk_at relative depth) (Hdepth : (depth <= Selection.maxDepth)%nat).
Context (Hvisit : ∀ child info s w, walk_at child (Datatypes.S depth) → declared_dir (cp_entries s) child → walk_ok s (w_disk w) → in_stage w →
  walks s (listed child) (visit child info s) w).
Abbreviation taken name := (λ s', child_of relative name ∈ excludes ∨ child_of relative name ∈ en_path <$> cp_entries s').
Lemma wp_captureEntry component s w : declared_dir (cp_entries s) relative → walk_ok s (w_disk w) → in_stage w →
  walks s (taken component) (captureEntry source (Some tmp) excludes visit depth relative component s) w.
Proof.
  intros Hdir Hok Hw Q He Hq. unfold captureEntry. cbn [staged]. wp_read as u n Hc by (apply He; auto). set (child := child_of relative component).
  destruct (existsb (String.eqb child) excludes) eqn:Ex.
  { apply wp_ret, Hq; [auto|by destruct Hok|by apply advances_refl|]. left. apply existsb_exists in Ex as (x & Hx & Heq%eqs_true). change (child ∈ excludes). rewrite Heq. by apply list_elem_of_In. }
  assert (child ∉ excludes) as Hx.
  { intros Hin. apply not_true_iff_false in Ex. apply Ex, existsb_exists. exists child. split; [by apply list_elem_of_In|by apply eqs_true]. }
  wp_guard as Hg by (apply He; auto). apply orb_false_iff in Hg as [Hcomp%negb_false_iff Hman%eqs_false].
  wp_guard as Hlen by (apply He; auto). apply Nat.ltb_ge in Hlen.
  destruct (valid_child relative depth component Hat Hdepth Hcomp Hlen) as [Hv Hat']. fold child in Hv, Hat'.
  assert (fresh_child s child) as Hfresh by by apply fresh_child_at.
  wp_read as info n1 Hinfo by (apply He; auto). cbn in Hinfo. unfold ask in Hinfo. injection Hinfo as Hinfo _.
  apply wp_bind, wp_lift. destruct (admitSourceInfo info) as [[]|e]; [|apply He; auto]. cbn beta iota.
  destruct (is_directory info) eqn:Hkind.
  - wp_guard as Hlim by (apply He; auto). apply orb_false_iff in Hlim as [Hd%Nat.eqb_neq Hl%Z.leb_gt].
    apply wp_bind, wp_stage_mkdir; [auto|auto|]. intros w1 H1 Hnone Hd1. cbn [w_disk retick] in Hnone, Hd1.
    assert (walk_ok (add_directory child s) (w_disk w1)) as Hok1.
    { rewrite Hd1. eapply walk_ok_directory; [done|done|done|lia|exact Hinfo|]. by apply bool_decide_eq_true in Hkind. }
    assert (child ∈ en_path <$> cp_entries (add_directory child s)) as Hin by (cbn; rewrite fmap_app; set_solver).
    apply wp_bind, (Hvisit child info _ _ Hat'); [|done|done|auto|].
    { right. exists (mkEntry child "directory" 0 ""). cbn. set_solver. }
    intros s' w2 H2 Hok2 Hadv Hlist. wp_read as u2 n2 Hsync by (apply He; auto). apply wp_ret, Hq; [auto|done| |].
    + destruct Hadv as [Hpre Had]. split; [etrans; [|exact Hpre]; by exists [mkEntry child "directory" 0 ""]|].
      intros e Hel Hk. destruct (Had e Hel Hk) as [Hel2|?]; [|by right]. cbn in Hel2. apply elem_of_app in Hel2 as [?| ->%list_elem_of_singleton]; [by left|by right].
    + right. eapply prefix_in; [apply Hadv|done].
  - wp_guard as Hlim by (apply He; auto). rewrite !orb_false_iff in Hlim. destruct Hlim as [[[[_ Hf%Z.leb_gt] H0%Z.ltb_ge] Hmax%Z.ltb_ge] Htot%Z.ltb_ge].
    apply wp_bind, wp_copySourceFile; [auto|auto|]. intros content f n2 w1 H1 Hnone Hd1 Hblob Hread Hsize. cbn [w_disk retick] in Hnone, Hd1.
    apply wp_ret, Hq; [done| | |].
    + rewrite Hd1. subst content. eapply walk_ok_file; try done; lia.
    + split; [by exists [mkEntry child "file" (ti_size info) (sha256 content)]|]. cbn. intros e [?| ->%list_elem_of_singleton]%elem_of_app Hk; [by left|done].
    + right. cbn. rewrite fmap_app. set_solver.
Qed.
Lemma wp_captureEntries l s w : declared_dir (cp_entries s) relative → walk_ok s (w_disk w) → in_stage w →
  walks s (λ s', ∀ name d, (name, d) ∈ l → taken name s') (captureEntries source (Some tmp) excludes visit depth relative l s) w.
Proof.
  revert s w. induction l as [|[component d] rest IH]; intros s w Hdir Hok Hw Q He Hq; cbn [captureEntries].
  { apply wp_ret, Hq; [done|done|by apply advances_refl|]. by intros name d' ?%not_elem_of_nil. }
  apply wp_bind, wp_captureEntry; [done|done|done|auto|]. intros s1 w1 H1 Hok1 Hadv Htaken.
  apply IH; [eapply declared_more; [apply Hadv|done]|done|done|auto|]. intros s2 w2 H2 Hok2 Hadv2 Hrest.
  apply Hq; [done|done|by eapply advances_trans|]. intros name d' [[= -> ->]|Hin]%elem_of_cons; [|by eapply Hrest].
  destruct Htaken as [?|Hin]; [by left|right]. eapply prefix_in; [apply Hadv2|done].
Qed.
End entries.
Lemma wp_captureDirectory fuel relative expected depth s w : walk_at relative depth → declared_dir (cp_entries s) relative →
  walk_ok s (w_disk w) → in_stage w →
  walks s (listed relative) (captureDirectory fuel source (Some tmp) excludes relative expected depth s) w.
Proof.
  revert relative expected depth s w. induction fuel as [|fuel IH]; intros relative expected depth s w Hat Hdir Hok Hw Q He Hq; cbn [captureDirectory].
  { by apply wp_throw, He. }
  wp_read as u n Hc by (apply He; auto). wp_guard as Hdepth by (apply He; auto). apply Nat.ltb_ge in Hdepth.
  wp_read as opened n1 Ho by (apply He; auto). wp_guard as Hg by (apply He; auto).
  wp_read as l n2 Hl by (apply He; auto). cbn in Hl. unfold ask in Hl. injection Hl as Hl _. wp_guard as Hmany by (apply He; auto).
  apply wp_bind, (wp_captureEntries _ depth relative Hat Hdepth); [|done|done|auto|auto|].
  { intros child info s1 w1 Hat1 Hdir1 Hok1 Hw1. by apply IH. }
  intros s1 w1 H1 Hok1 Hadv Hall. wp_read as after n3 Ha by (apply He; auto). wp_guard as Hg2 by (apply He; auto).
  apply wp_ret, Hq; [auto|done|done|]. eexists _, l. split; [exact Hl|]. intros name d Hin. apply (Hall name d). by rewrite sort_by_perm.
Qed.

(** *** The removal *)
Record settled w : Prop := {
  sd_outside : outside tmp k0 (w_disk w);
  sd_whole : w_disk w !! (Imports, tmp) = Some EDir ∨ no_entries (Captured tmp) (w_disk w);
}.
Lemma settled_retick n w : settled w → settled (retick n w).
Proof. by intros []. Qed.
Lemma in_stage_settled w : in_stage w → settled w.
Proof. intros []. split; auto. Qed.
#[local] Hint Resolve settled_retick in_stage_settled : core.
Lemma settled_delete ev p w : settled w → settled (did ev (delete (Captured tmp, p) (w_disk w)) w).
Proof.
  intros [Ho Hm]. constructor; cbn [w_disk did]; [auto|]. destruct Hm as [Hm|Hn]; [left; by rewrite lookup_delete_ne|right].
  intros q. destruct (decide (q = p)) as [->|Hne]; [apply lookup_delete_eq|]. rewrite lookup_delete_ne by congruence. apply Hn.
Qed.
Lemma staging_delete key w o l : in_staging tmp key → outside tmp k0 (w_disk w) → P o (Step (EvRemove key.1 key.2) (w_disk w) (delete key (w_disk w)) l).
Proof. destruct key. intros Hk Ho. split; [done|]. cbn. auto. Qed.
#[local] Hint Resolve settled_delete : core.
Definition settles (m : M B unit) : Prop := ∀ (Q : res unit → world B → Prop) w, settled w → (∀ r w', settled w' → Q r w') → wp P m Q w.
Lemma settles_remove p : settles (fs_remove (Captured tmp) p).
Proof.
  intros Q w Hw HQ. apply wp_fs_remove.
  - intros Hk. split; [apply (staging_delete (Captured tmp, p)); [done|apply Hw]|]. intros r. apply HQ. auto.
  - intros e. apply HQ. by apply (settled_retick _ w).
Qed.
Lemma settles_remove_directory relative : settles (remove_directory tmp relative).
Proof.
  intros Q w Hw HQ. assert (∀ e, Q (Er e) (tick w)) as Hfail by (intros e; apply HQ; by apply (settled_retick _ w)).
  unfold remove_directory. destruct (relative =s "").
  - apply wp_fs_rmdir; [|done]. intros Hk Hn k. subst k. split; [apply (staging_delete (Imports, tmp)); [done|apply Hw]|]. intros r. apply HQ.
    constructor; cbn [w_disk did]; [destruct Hw; auto|right]. intros q. rewrite lookup_delete_ne by done. apply Hn.
  - unfold wp, fs_rmdir_below. destruct (w_disk w !! (Captured tmp, relative)) as [[]|]; try (split; [apply Hfail|by exists []]).
    destruct (existsb _ _); [split; [apply Hfail|by exists []]|].
    pose proof (staging_delete (Captured tmp, relative) w (w_trace w) (w_locks w) (staging_inside _ _) (sd_outside _ Hw)) as HP.
    destruct (now_fault w); (split; [first [apply Hfail|apply HQ; auto]|]); first [by exists []|eexists [_]; split; [reflexivity|by split]].
Qed.
Lemma settles_then (m1 m2 : M B unit) : settles m1 → settles m2 → settles (m1 ;;! m2).
Proof. intros H1 H2 Q w Hw HQ. apply wp_bind, H1; [done|]. intros [[]|e] w1 Hw1; [by apply H2|by apply HQ]. Qed.
Lemma settles_after {A} (m : M B A) (f : A → M B unit) : quiet m → (∀ a, settles (f a)) → settles (bind m f).
Proof. intros Hm Hf Q w Hw HQ. apply wp_bind, wp_quiet; [done|]. intros [a|e] n _; [by apply Hf; auto|by apply HQ, settled_retick]. Qed.
Lemma settles_quiet (m : M B unit) : quiet m → settles m.
Proof. intros Hm Q w Hw HQ. apply wp_quiet; [done|]. intros r n _. by apply HQ, settled_retick. Qed.
Context (stage : Root (B := B)) (Hlstat : ∀ name, quiet (rt_lstat stage name)) (Hlist : ∀ name, quiet (rt_list stage name)).
Lemma settles_removeEntries visit relative l : (∀ child info, settles (visit child info)) → settles (removeEntries stage tmp visit relative l).
Proof.
  intros Hv. induction l as [|[name d] rest IH]; cbn [removeEntries]; [apply settles_quiet, quiet_ret|].
  apply settles_then; [|done]. destruct d; [by apply settles_after|apply settles_remove].
Qed.
Lemma settles_removePrivateTree fuel relative expected : settles (removePrivateTree fuel stage tmp relative expected).
Proof.
  revert relative expected. induction fuel as [|fuel IH]; intros relative expected; cbn [removePrivateTree]; [apply settles_quiet, quiet_throw|].
  apply settles_after; [by apply quiet_attempt|]. intros [named|e]; [|apply settles_quiet; destruct (err_not_exist e); auto with quiet].
  apply settles_then; [apply settles_quiet, quiet_guard|]. apply settles_after; [by apply quiet_wrapv|]. intros opened.
  apply settles_then; [apply settles_quiet, quiet_guard|]. apply settles_after; [done|]. intros l.
  apply settles_then; [by apply settles_removeEntries|apply settles_remove_directory].
Qed.
End walk.

(** *** The rename *)
Lemma swap_name_twice from to n : swap_name from to (swap_name from to n) = n.
Proof.
  unfold swap_name. destruct (String.eqb_spec n from) as [->|H1].
  - destruct (String.eqb_spec to from) as [->|]; [done|]. by rewrite String.eqb_refl.
  - destruct (String.eqb_spec n to) as [->|H2]; [by rewrite String.eqb_refl|]. apply String.eqb_neq in H1, H2. by rewrite H1, H2.
Qed.
Lemma swap_name_other from to n : n ≠ from → n ≠ to → swap_name from to n = n.
Proof. intros H1 H2. unfold swap_name. apply String.eqb_neq in H1, H2. by rewrite H1, H2. Qed.
Lemma swap_name_from from to : swap_name from to from = to.
Proof. unfold swap_name. by rewrite String.eqb_refl. Qed.
Lemma swap_name_to from to : swap_name from to to = from.
Proof. unfold swap_name. destruct (String.eqb_spec to from) as [->|]; [done|]. by rewrite String.eqb_refl. Qed.
Lemma renamed_twice from to key : renamed from to (renamed from to key) = key.
Proof. destruct key as [[] n]; cbn; by rewrite ?swap_name_twice. Qed.
#[local] Instance renamed_inj from to : Inj (=) (=) (renamed from to).
Proof. intros a b Hab. by rewrite <-(renamed_twice from to a), Hab, renamed_twice. Qed.
Lemma lookup_renamed from to (k : disk) key : (kmap (renamed from to) k : disk) !! key = k !! renamed from to key.
Proof. rewrite <-(renamed_twice from to key) at 1. apply (lookup_kmap (renamed from to)). Qed.
Lemma renamed_other from to key : ¬ in_staging from key → ¬ in_staging to key → renamed from to key = key.
Proof.
  unfold in_staging. destruct key as [[] n]; cbn; intros H1 H2; try done; rewrite swap_name_other; naive_solver.
Qed.
Lemma wp_rename P from to (Q : res unit → world B → Prop) w :
  (w_disk w !! (Imports, to) = None → let k : disk := kmap (renamed from to) (w_disk w) in
   P (w_trace w) (Step (EvRename Imports from to) (w_disk w) k (w_locks w)) ∧ ∀ r, Q r (did (EvRename Imports from to) k w)) →
  (∀ e, Q (Er e) (tick w)) →
  wp P (fs_rename_captured from to) Q w.
Proof.
  intros H1 H2. unfold wp, fs_rename_captured. destruct (w_disk w !! (Imports, to)) as [e|]; [split; [apply H2|by exists []]|].
  destruct (w_disk w !! (Imports, from)) as [e|]; [|split; [apply H2|by exists []]]. destruct (H1 eq_refl) as [HP HQ].
  destruct (now_fault w); (split; [first [apply HQ|apply H2]|]); first [by exists []|eexists [_]; split; [reflexivity|by split]].
Qed.

(** *** The publication *)
Lemma selectionManifest_ok s n raw digest : selectionManifest s n = Ok (raw, digest) →
  cp_files s ≠ 0 ∧ raw = canonicalManifest (mkManifest 1 (Some (cp_entries s))) ∧ digest = sha256 raw ∧
  (sel_digest n = EmptyString ∨ sel_digest n = digest) ∧ Forall (λ name, name ∈ cp_matched s) (items (sel_excludes n)).
Proof.
  unfold selectionManifest. intros H. res_inv H. apply check_ok in Ha, Ha0, Ha1, Ha2. injection H as <- <-. bsimpl. split_and!; try done.
  - apply andb_false_iff in Ha2 as [Hd|Hd]; [left; by apply neqs_false in Hd|right; by apply neqs_false in Hd].
  - apply Forall_forall. intros x Hx%list_elem_of_In. rewrite forallb_forall in Ha. by eapply bool_decide_eq_true, Ha.
Qed.
Definition manifest_file (s : captured) : file := bytes_file (canonicalManifest (mkManifest 1 (Some (cp_entries s))) +:+ String LF "").
Lemma walk_snapshot path tmp excludes s k id directory : walk_ok path tmp excludes s k → cp_files s ≠ 0 →
  k !! (Captured tmp, manifestName) = None →
  captured_exact tmp (mkImportSnapshot id directory (sha256 (canonicalManifest (mkManifest 1 (Some (cp_entries s))))) (cp_files s) (cp_dirs s) (cp_bytes s) (cp_entries s))
    (<[(Captured tmp, manifestName) := EFile (manifest_file s)]> k).
Proof.
  intros Hok Hf Hnone. assert (∀ e, e ∈ cp_entries s → en_path e ≠ manifestName) as Hman by (intros e He; by apply (po_valid _ (wk_paths _ _ _ _ _ Hok))).
  constructor; cbn [ss_entries ss_files ss_bytes ss_digest].
  - apply Hok.
  - apply Hok.
  - split; [apply Hok|]. rewrite (wk_files _ _ _ _ _ Hok) in Hf |- *. lia.
  - apply Hok.
  - constructor.
    + intros e He. unfold entry_shown. rewrite captured_look_put by by apply Hman. by apply (wk_shown _ _ _ _ _ Hok).
    + intros relative name _ _ Hp. destruct (decide (child_of relative name = manifestName)) as [->|Hne]; [by right|left].
      unfold captured_present in Hp. rewrite lookup_insert_ne in Hp by congruence. by apply (wk_only _ _ _ _ _ Hok).
  - exists (file_blob (manifest_file s)), (mkManifest 1 (Some (cp_entries s))). split; [unfold captured_look; by rewrite lookup_insert_eq|].
    split; [|done]. unfold manifest_file. cbn [bytes_file file_blob]. apply parse_canonical, Forall_forall. intros e He.
    pose proof (po_valid _ (wk_paths _ _ _ _ _ Hok) e He) as [Hv _]. pose proof (wl_each _ (wk_limits _ _ _ _ _ Hok) e He) as Hz.
    pose proof (wk_bare _ _ _ _ _ Hok e He) as Hbare. apply valid_path_plain in Hv. unfold maxImportFileBytes in Hz.
    destruct (wk_shown _ _ _ _ _ Hok e He) as [[Hk _]|[Hk (c & _ & _ & Hc)]]; unfold plain_entry; rewrite Hk.
    + destruct (Hbare Hk) as [-> ->]. done.
    + rewrite <-Hc. split_and!; [done|done|apply coerce_sha, digest_form|]. apply Hz in Hk. apply andb_true_iff. rewrite Z.leb_le, Z.ltb_lt. lia.
Qed.

Section publish.
Context (path tmp id : string) (k0 : disk) (n : Selection).
Context (Hroot : rooted k0) (Hfree : k0 !! (Imports, id) = None) (Hne : tmp ≠ id).
Abbreviation excludes := (items (sel_excludes n)).
Abbreviation source := (source_root (B := B) path).
Abbreviation P := (capture_step path n tmp id k0).
#[local] Hint Resolve in_stage_retick in_stage_put settled_retick in_stage_settled quiet_guardedErr quiet_source_lstat quiet_source_list quiet_source_read : quiet core.

Abbreviation published := (published_capture path n tmp id k0).
Lemma selected_ext s t t' k k' : (∀ p, captured_look t' k' p = captured_look t k p) → selected path n t s k → selected path n t' s k'.
Proof.
  intros Hl [H1 H2 H3 H4]. constructor; try done. intros e He. destruct (H3 e He) as [?|(Hk & m & c & Hr & Hc)]; [by left|right].
  split; [done|]. exists m, c. by rewrite Hl.
Qed.
Lemma published_rename s (w : world B) : in_stage tmp k0 w → captured_exact tmp s (w_disk w) → selected path n tmp s (w_disk w) →
  published s (kmap (renamed tmp id) (w_disk w)).
Proof.
  intros [Ho Hm] Hs Hsel. set (k := w_disk w) in *. set (k' := kmap (renamed tmp id) k : disk).
  assert (∀ p, k' !! (Captured id, p) = k !! (Captured tmp, p)) as Hin.
  { intros p. subst k'. rewrite lookup_renamed. cbn. by rewrite swap_name_to. }
  assert (∀ p, captured_look id k' p = captured_look tmp k p) as Hlook by (intros p; unfold captured_look; by rewrite Hin).
  assert (no_entries (Captured id) k) as Hclear.
  { intros p. rewrite Ho by (intros [?|?]; cbn in *; congruence). destruct (k0 !! (Captured id, p)) as [e|] eqn:Ek; [|done]. exfalso.
    assert (k0 !! (Imports, id) = Some EDir) by by apply (Hroot id p); eauto. congruence. }
  constructor.
  - intros key H1 H2. subst k'. rewrite lookup_renamed, renamed_other by done. by apply Ho.
  - split; [subst k'; rewrite lookup_renamed; cbn; by rewrite swap_name_to|].
    apply (snapshot_proved_ext (captured_look tmp k) _ (captured_present tmp k)); [done| |done]. intros p. unfold captured_present. by rewrite Hin.
  - by eapply selected_ext.
  - subst k'. rewrite lookup_renamed. cbn. rewrite swap_name_from. rewrite Ho by (intros [?|?]; cbn in *; congruence). done.
  - intros p. subst k'. rewrite lookup_renamed. cbn. by rewrite swap_name_from.
Qed.
Lemma quiet_absent_name name msg : quiet (absent_name name msg : M B unit).
Proof. unfold absent_name. quiet_tac. Qed.
Lemma quiet_stage_lstat parent name : quiet (rt_lstat (captured_root parent tmp : Root (B := B)) name).
Proof. apply sh_lstat. Qed.
Lemma quiet_stage_list parent name : quiet (rt_list (captured_root parent tmp : Root (B := B)) name).
Proof. apply sh_list. Qed.
#[local] Hint Resolve quiet_absent_name quiet_stage_lstat quiet_stage_list : quiet.
Lemma staging_capture (o : list step) (s : step) : staging_step tmp k0 o s → P o s.
Proof. by left. Qed.
Lemma wp_captureStaged parent directory info (Q : res ImportSnapshot → world B → Prop) w :
  in_stage tmp k0 w → no_entries (Captured tmp) (w_disk w) →
  (∀ e w', settled tmp k0 w' → Q (Er e) w') →
  (∀ s w', published s (w_disk w') → Q (Ok s) w' ∧ ∀ e, Q (Er e) w') →
  wp P (captureStaged source (captured_root parent tmp) directory id tmp info n) Q w.
Proof.
  intros Hw Hempty He Hq. unfold captureStaged. assert (∀ e m, Q (Er e) (retick m w)) as Hfail by (intros; apply He; auto).
  wp_read as stageInfo n1 H1 by apply Hfail. wp_guard as Hg1 by apply Hfail. wp_read as rootInfo n2 H2 by apply Hfail.
  apply wp_bind, (wp_impl (staging_step tmp k0)); [apply staging_capture|].
  apply (wp_captureDirectory path tmp k0 excludes); [by split; [left|]|by left|by apply walk_ok_nothing|auto|auto|].
  intros s w1 Hw1 Hok [_ Hdirs] Hlist. apply wp_bind, wp_lift.
  destruct (selectionManifest s n) as [[raw digest]|e] eqn:Hsel; [|apply He; auto]. cbn beta iota. apply selectionManifest_ok in Hsel as (Hf & -> & -> & Hpin & _).
  apply wp_bind, (wp_impl (staging_step tmp k0)); [apply staging_capture|].
  apply (wp_stage_create tmp k0); [done|auto|]. intros w2 Hw2 Hnone Hd2.
  assert (∀ e m, Q (Er e) (retick m w2)) as Hfail2 by (intros; apply He; auto).
  wp_read as u1 n3 H3 by apply Hfail2. wp_read as u2 n4 H4 by apply Hfail2. wp_read as still n5 H5 by apply Hfail2.
  wp_guard as Hg2 by apply Hfail2. wp_read as u3 n6 H6 by apply Hfail2.
  match goal with |- context [mkImportSnapshot ?a ?b ?c ?d ?e ?f ?g] => set (snap := mkImportSnapshot a b c d e f g) end.
  assert (published snap (kmap (renamed tmp id) (w_disk w2))) as Hpub.
  { apply published_rename; [done| |].
    - rewrite Hd2. by apply (walk_snapshot path tmp excludes).
    - constructor; cbn [ss_entries ss_digest snap]; [done|apply Hok| |].
      + intros e Hel. rewrite Hd2. destruct (wk_answered _ _ _ _ _ Hok e Hel) as [?|(Hk & m & c & Hr & Hc)]; [by left|right]. split; [done|].
        exists m, c. rewrite captured_look_put; [done|]. by apply (po_valid _ (wk_paths _ _ _ _ _ Hok)).
      + intros relative [->|(e & Hel & <- & Hk)]; [done|]. destruct (Hdirs e Hel Hk) as [Hin|Hl]; [by apply not_elem_of_nil in Hin|done]. }
  apply wp_bind, wp_rename.
  - intros _ k. split; [right; split; [done|]; by exists snap|].
    intros [u|e]; cbn beta iota; [apply wp_ret|]; by apply (Hq snap).
  - intros e. apply He. by apply (settled_retick _ _ _ (retick n6 w2)), settled_retick, in_stage_settled.
Qed.
(** Nothing is left to remove once the directory has its name. *)
Lemma quiet_removal fuel parent info (Q : res unit → world B → Prop) w : w_disk w !! (Imports, tmp) = None → (∀ r m, Q r (retick m w)) →
  wp P (removePrivateTree fuel (captured_root parent tmp) tmp "" info) Q w.
Proof.
  intros Hgone HQ. destruct fuel as [|fuel]; cbn [removePrivateTree]; [apply wp_throw; rewrite (retick_self w); apply HQ|].
  apply wp_bind, wp_attempt, wp_quiet; [apply quiet_stage_lstat|]. intros [found|e] m Hr.
  - exfalso. cbn in Hr. apply bind_ok in Hr as (x & w1 & Hx & _). unfold fs_lstat in Hx. rewrite Hgone in Hx. by destruct (now_fault w).
  - destruct (err_not_exist e); [apply wp_ret|apply wp_throw]; apply HQ.
Qed.
Definition settles_or_published (w : world B) : Prop := settled tmp k0 w ∨ ∃ s, published s (w_disk w).
Lemma settles_or_published_retick m w : settles_or_published w → settles_or_published (retick m w).
Proof. intros [Hs|Hp]; [left; auto|by right]. Qed.
Lemma wp_captureGuarded parent (Q : res (option ImportSnapshot * option error) → world B → Prop) w :
  w_disk w = k0 →
  (∀ e w', settles_or_published w' → Q (Ok (None, Some e)) w') →
  (∀ s err w', published s (w_disk w') → Q (Ok (Some s, err)) w') →
  wp P (captureGuarded source parent id tmp n) Q w.
Proof.
  intros Hk He Hq. unfold captureGuarded. set (stage := captured_root _ _).
  assert (∀ e w', settled tmp k0 w' → Q (Ok (None, Some e)) w') as Hset by (intros; apply He; by left).
  assert (settled tmp k0 w) as Hw.
  { split; [by intros key _; rewrite Hk|]. destruct (k0 !! (Imports, tmp)) eqn:Ek; [destruct e|]; rewrite Hk;
      try (by left); right; intros p; (destruct (k0 !! (Captured tmp, p)) as [x|] eqn:Ex; [|done]); exfalso;
      (assert (k0 !! (Imports, tmp) = Some EDir) by by apply (Hroot tmp p); eauto); congruence. }
  apply wp_bind, wp_attempt, wp_bind, wp_fs_mkdir; [|intros e; by apply wp_ret, Hset, (settled_retick _ _ _ w)].
  intros Hnone k. rewrite Hk in Hnone.
  assert (no_entries (Captured tmp) k) as Hempty.
  { intros p. subst k. rewrite lookup_insert_ne, Hk by done. destruct (k0 !! (Captured tmp, p)) as [x|] eqn:Ex; [|done].
    assert (k0 !! (Imports, tmp) = Some EDir) by by apply (Hroot tmp p); eauto. congruence. }
  assert (in_stage tmp k0 (did (EvMkdir Imports tmp) k w)) as Hin.
  { constructor; cbn [w_disk did]; subst k; [|apply lookup_insert_eq]. apply outside_insert; [done|]. apply Hw. }
  split; [left; split; [apply staging_itself|apply Hin]|]. intros [[]|e]; [|apply wp_ret, Hset; auto].
  apply wp_quiet; [apply quiet_stage_lstat|]. intros [info|e] m _; cbn beta iota; [|apply wp_ret, Hset; auto].
  apply wp_bind, wp_attempt, wp_captureStaged; [auto|exact Hempty| |].
  - intros e w1 Hw1. apply wp_bind, wp_attempt, (wp_impl (staging_step tmp k0)); [apply staging_capture|].
    apply settles_removePrivateTree; [intros; apply quiet_stage_lstat|intros; apply quiet_stage_list|done|]. intros r w2 Hw2. apply wp_ret.
    destruct r; cbn; by apply Hset.
  - intros s w1 Hpub. split.
    + apply wp_bind, wp_attempt, wp_quiet; [apply quiet_fs_sync|]. intros r m1 _. by apply wp_ret, Hq.
    + intros e. apply wp_bind, wp_attempt, quiet_removal; [apply Hpub|]. intros r m1. apply wp_ret. destruct r; cbn; apply He; right; by exists s.
Qed.
Lemma settled_rooted w : settled tmp k0 w → rooted (w_disk w).
Proof.
  intros [Ho Hm] i p [e He]. destruct (decide (i = tmp)) as [->|Hi]; [destruct Hm as [?|Hn]; [done|by rewrite Hn in He]|].
  rewrite Ho in He |- * by (intros [?|?]; cbn in *; congruence). apply (Hroot i p). eauto.
Qed.
Lemma published_rooted s k : published s k → rooted k.
Proof.
  intros [Hb [Hd _] _ _ Hc] i p [e He]. destruct (decide (i = tmp)) as [->|Hi]; [by rewrite Hc in He|].
  destruct (decide (i = id)) as [->|Hi2]; [done|]. rewrite Hb in He |- * by (intros [?|?]; cbn in *; congruence). apply (Hroot i p). eauto.
Qed.
End publish.

(** A staging name is longer than the transaction's. *)
Lemma temporary_name_other id nonce : temporary_name id nonce ≠ id.
Proof. intros Heq. apply (f_equal String.length) in Heq. unfold temporary_name in Heq. rewrite !str_length_app in Heq. cbn in Heq. lia. Qed.
End capture.

(** *** A preview and a capture of the same source *)

Create HintDb agree.
(** Two runs that both succeed give the same. *)
Definition agree {B A} (m1 m2 : M B A) : Prop := ∀ w1 w2 a1 a2 w1' w2', m1 w1 = (Ok a1, w1') → m2 w2 = (Ok a2, w2') → a1 = a2.
Section agree.
Context {B : Type}.
Lemma agree_ret {A} (a : A) : agree (ret a : M B A) (ret a).
Proof. intros w1 w2 a1 a2 w1' w2' [-> _]%ret_ok [-> _]%ret_ok. done. Qed.
Lemma agree_bind {A C} (m1 m2 : M B A) (f1 f2 : A → M B C) : agree m1 m2 → (∀ a, agree (f1 a) (f2 a)) → agree (bind m1 f1) (bind m2 f2).
Proof.
  intros Hm Hf w1 w2 a1 a2 w1' w2' (b1 & v1 & H1 & H1')%bind_ok (b2 & v2 & H2 & H2')%bind_ok.
  assert (b1 = b2) as -> by by eapply Hm. by eapply Hf.
Qed.
Lemma agree_unit (m1 m2 : M B unit) : agree m1 m2.
Proof. by intros w1 w2 [] [] w1' w2' _ _. Qed.
Lemma agree_lift {A} (r : res A) : agree (lift r : M B A) (lift r).
Proof. intros w1 w2 a1 a2 w1' w2' [H1 _]%lift_ok [H2 _]%lift_ok. congruence. Qed.
Lemma agree_wrapv {A} msg (m1 m2 : M B A) : agree m1 m2 → agree (wrapv msg m1) (wrapv msg m2).
Proof. intros Hm w1 w2 a1 a2 w1' w2' H1%wrapv_ok H2%wrapv_ok. by eapply Hm. Qed.
Lemma agree_wrap {A} msg (m1 m2 : M B A) : agree m1 m2 → agree (wrap msg m1) (wrap msg m2).
Proof. intros Hm w1 w2 a1 a2 w1' w2' H1%wrap_ok H2%wrap_ok. by eapply Hm. Qed.
Lemma agree_throw {A} e (m2 : M B A) : agree (throw e) m2.
Proof. by intros w1 w2 a1 a2 w1' w2' ?%throw_ok. Qed.
End agree.
#[export] Hint Resolve agree_ret agree_bind agree_unit agree_lift agree_wrapv agree_wrap agree_throw : agree.
(** A source that answers the same whenever it answers. *)
Record still `{ImportSource} (path : string) : Prop := {
  st_lstat : ∀ n m name a b, is_lstat n path name = Ok a → is_lstat m path name = Ok b → a = b;
  st_list : ∀ n m name a b, is_list n path name = Ok a → is_list m path name = Ok b → a = b;
  st_read : ∀ n m name a b, is_read n path name = Ok a → is_read m path name = Ok b → a = b;
}.
Section preview.
Context {B : Type} {E : Env} {R : ReservePlatform} {F : HostFiles} {T : TreeHost} {I : Inspection B} {D : Digests} {S : ImportSource}.
Context (path : string) (Hstill : still path).
Abbreviation source := (source_root (B := B) path).
Lemma agree_lstat name : agree (rt_lstat source name) (rt_lstat source name).
Proof. intros w1 w2 a1 a2 w1' w2' H1 H2. cbn in H1, H2. unfold ask in *. injection H1 as H1 _. injection H2 as H2 _. by eapply (st_lstat _ Hstill). Qed.
Lemma agree_list name : agree (rt_list source name) (rt_list source name).
Proof. intros w1 w2 a1 a2 w1' w2' H1 H2. cbn in H1, H2. unfold ask in *. injection H1 as H1 _. injection H2 as H2 _. by eapply (st_list _ Hstill). Qed.
Lemma agree_read name : agree (rt_read source name) (rt_read source name).
Proof. intros w1 w2 a1 a2 w1' w2' H1 H2. cbn in H1, H2. unfold ask in *. injection H1 as H1 _. injection H2 as H2 _. by eapply (st_read _ Hstill). Qed.
#[local] Hint Resolve agree_lstat agree_list agree_read : agree.
Ltac agree_tac := repeat (first [apply agree_unit|apply agree_bind; [|intros ?]]); auto with agree.
Lemma agree_copySourceFile stage1 stage2 name info : agree (copySourceFile source stage1 name info) (copySourceFile source stage2 name info).
Proof. unfold copySourceFile. agree_tac. Qed.
Lemma agree_captureDirectory stage1 stage2 excludes fuel relative info depth s :
  agree (captureDirectory fuel source stage1 excludes relative info depth s) (captureDirectory fuel source stage2 excludes relative info depth s).
Proof.
  revert relative info depth s. induction fuel as [|fuel IH]; intros relative info depth s; cbn [captureDirectory]; [apply agree_throw|].
  pose proof agree_copySourceFile as Hcopy.
  agree_tac. revert s. induction (sort_by fst _) as [|[component d] rest IHl]; intros s; cbn [captureEntries]; [apply agree_ret|].
  apply agree_bind; [|intros s'; apply IHl]. unfold captureEntry. agree_tac.
  destruct (existsb _ _); [apply agree_ret|]. agree_tac. destruct (is_directory _); agree_tac.
Qed.
Lemma agree_walk stage1 stage2 excludes w1 w2 i1 i2 w1' w2' s1 s2 v1 v2 v1' v2' :
  rt_lstat source "." w1 = (Ok i1, w1') → rt_lstat source "." w2 = (Ok i2, w2') →
  captureDirectory capture_fuel source stage1 excludes "" i1 0 nothing_captured v1 = (Ok s1, v1') →
  captureDirectory capture_fuel source stage2 excludes "" i2 0 nothing_captured v2 = (Ok s2, v2') → s1 = s2.
Proof. intros H1 H2 H3 H4. assert (i1 = i2) as -> by by eapply agree_lstat. by eapply agree_captureDirectory. Qed.
End preview.

Section outcomes.
Context {B : Type} {E : Env} {R : ReservePlatform} {F : HostFiles} {T : TreeHost} {I : Inspection B} {D : Digests} {S : ImportSource}.
Implicit Types (w : world B).
Lemma RunAssigning_ok {A} directories (operation : M B A) w a err w' :
  RunAssigning directories operation w = (Ok (Some a, err), w') → ∃ w1 w2, operation w1 = (Ok a, w2).
Proof.
  unfold RunAssigning, runWithChecker. intros ([[]|e] & w1 & _ & H)%bind_ok; [|apply ret_ok in H as [? _]; congruence].
  apply bind_ok in H as ([[]|e] & w2 & _ & H); [|apply ret_ok in H as [? _]; congruence].
  apply bind_ok in H as (result & w3 & Hop & H). apply bind_ok in H as (samples & w4 & _ & H). apply bind_ok in H as (final & w5 & _ & H).
  apply bind_ok in H as (ended & w6 & _ & H). apply ret_ok in H as [H _]. destruct result as [x|e]; [|congruence].
  apply attempt_ok in Hop. exists w2, w3. rewrite Hop. congruence.
Qed.
(** What a snapshot returned stands for: one walk and its manifest. *)
Definition walked_to (path : string) (stage : option string) (n : Selection) (s : ImportSnapshot) : Prop :=
  ∃ i w1 w1' c w2 w2' raw, rt_lstat (source_root (B := B) path) "." w1 = (Ok i, w1') ∧
    captureDirectory capture_fuel (source_root path) stage (items (sel_excludes n)) "" i 0 nothing_captured w2 = (Ok c, w2') ∧
    selectionManifest c n = Ok (raw, ss_digest s) ∧ ss_files s = cp_files c ∧ ss_directories s = cp_dirs c ∧ ss_bytes s = cp_bytes c ∧ ss_entries s = cp_entries c.
Lemma captureStaged_walked path stage directory id tmp info n w s w' :
  captureStaged (source_root path) stage directory id tmp info n w = (Ok s, w') → walked_to path (Some tmp) n s.
Proof.
  unfold captureStaged. intros (i0 & w1 & _ & H)%bind_ok. apply bind_ok in H as (u1 & w2 & _ & H). apply bind_ok in H as (i & w3 & Hi & H).
  apply bind_ok in H as (c & w4 & Hc & H). apply bind_ok in H as ([raw digest] & w5 & [Hm ->]%lift_ok & H).
  repeat (apply bind_ok in H as (? & ? & _ & H)). apply ret_ok in H as [-> _]. exists i, w2, w3, c, w3, w4, raw. by split_and!.
Qed.
Lemma CaptureSelectedSource_walked path parent id sel w s err w' : CaptureSelectedSource path parent id sel w = (Ok (s, err), w') →
  ∃ n tmp, normalizeSelection sel = Ok n ∧ walked_to path (Some tmp) n s.
Proof.
  unfold CaptureSelectedSource. intros (n & w1 & [Hn ->]%lift_ok & H)%bind_ok. do 7 (apply bind_ok in H as (? & ? & _ & H)).
  apply bind_ok in H as (nonce & w8 & _ & H). apply bind_ok in H as ([result e] & w9 & Hrun & H).
  destruct result as [[[snap|] failed]|]; cbn [default Datatypes.id] in H; try (by destruct (join_errors _); apply throw_ok in H).
  apply RunAssigning_ok in Hrun as (v1 & v2 & Hop). assert (snap = s) as -> by (destruct (join_errors _); apply ret_ok in H as [? _]; congruence).
  unfold captureGuarded in Hop. apply bind_ok in Hop as ([info|e1] & v3 & _ & Hop); [|apply ret_ok in Hop as [? _]; congruence].
  apply bind_ok in Hop as ([snap|e1] & v4 & Hst%attempt_ok & Hop).
  - apply bind_ok in Hop as (synced & v5 & _ & Hop). apply ret_ok in Hop as [Hop _]. assert (snap = s) as -> by congruence.
    apply captureStaged_walked in Hst. by exists n, (temporary_name id nonce).
  - apply bind_ok in Hop as (removed & v5 & _ & Hop). apply ret_ok in Hop as [? _]. congruence.
Qed.
Lemma PreviewSource_walked path sel w s w' : PreviewSource path sel w = (Ok s, w') → ∃ n, normalizeSelection sel = Ok n ∧ walked_to path None n s.
Proof.
  unfold PreviewSource. intros (n & w1 & [Hn ->]%lift_ok & H)%bind_ok. apply bind_ok in H as (u & w2 & _ & H). apply bind_ok in H as (i & w3 & Hi & H).
  apply bind_ok in H as (c & w4 & Hc & H). apply bind_ok in H as ([raw digest] & w5 & [Hm ->]%lift_ok & H).
  apply bind_ok in H as (u2 & w6 & _ & H). apply ret_ok in H as [-> _]. exists n. split; [done|]. exists i, w2, w3, c, w3, w4, raw. by split_and!.
Qed.
Lemma quiet_preview_walk path excludes fuel relative info depth s :
  quiet (captureDirectory fuel (source_root (B := B) path) None excludes relative info depth s).
Proof.
  pose proof (quiet_source_lstat (B := B) path) as H1. pose proof (quiet_source_list (B := B) path) as H2. pose proof (quiet_source_read (B := B) path) as H3.
  revert relative info depth s. induction fuel as [|fuel IH]; intros relative info depth s; cbn [captureDirectory]; [apply quiet_throw|].
  quiet_tac; auto. match goal with |- context [sort_by fst ?x] => generalize (sort_by fst x) as l end. intros l. revert s. induction l as [|[component d] rest IHl]; intros s; cbn [captureEntries]; [apply quiet_ret|].
  apply quiet_bind; [|intros s'; apply IHl]. unfold captureEntry, copySourceFile. cbn [staged]. quiet_tac; auto.
Qed.
Lemma quiet_PreviewSource path sel : quiet (PreviewSource path sel : M B _).
Proof.
  unfold PreviewSource. pose proof (quiet_source_lstat (B := B) path) as H1. pose proof (quiet_openPrivateDirectory (B := B)). pose proof quiet_preview_walk.
  quiet_tac; auto.
Qed.
End outcomes.

(** *** Fuel: neither walk is deeper than the source may be *)
Section fuel.
Context {B : Type} {E : Env} {R : ReservePlatform} {F : HostFiles} {T : TreeHost} {D : Digests}.
Implicit Types (w : world B).
Lemma bind_ext {A C} (m1 m2 : M B A) (f1 f2 : A → M B C) w : m1 w = m2 w → (∀ a w', f1 a w' = f2 a w') → bind m1 f1 w = bind m2 f2 w.
Proof. intros Hm Hf. unfold bind. rewrite Hm. destruct (m2 w) as [[a|e] w']; [apply Hf|done]. Qed.
(** Directories are entered to depth [maxDepth] only: more fuel changes nothing. *)
Lemma capture_fuel_enough (source : Root (B := B)) stage excludes n m relative info depth s w :
  (depth <= Selection.maxDepth)%nat → (Selection.maxDepth < n + depth)%nat → (Selection.maxDepth < m + depth)%nat →
  captureDirectory n source stage excludes relative info depth s w = captureDirectory m source stage excludes relative info depth s w.
Proof.
  revert m relative info depth s w. induction n as [|n IH]; intros [|m] relative info depth s w Hd Hn Hm; [lia..|]. cbn [captureDirectory].
  do 4 (apply bind_cong; intros ? ? _). apply bind_cong. intros entries w4 _. apply bind_cong. intros _ w5 _.
  assert (∀ l s w, captureEntries source stage excludes (λ child info, captureDirectory n source stage excludes child info (S depth)) depth relative l s w =
                   captureEntries source stage excludes (λ child info, captureDirectory m source stage excludes child info (S depth)) depth relative l s w) as Hl.
  { induction l as [|[component d] rest IHl]; intros s0 w0; [done|]. cbn [captureEntries]. apply bind_ext; [|done].
    unfold captureEntry. apply bind_cong. intros _ w1 _. destruct (existsb _ _); [done|].
    do 4 (apply bind_cong; intros ? ? ?). destruct (is_directory _); [|done]. apply bind_cong. intros _ w6 [Hlim _]%guard_ok.
    apply orb_false_iff in Hlim as [Hlt%Nat.eqb_neq _]. apply bind_cong. intros _ w7 _. apply bind_ext; [|done]. apply IH; lia. }
  by apply bind_ext.
Qed.

(** Removal enters directories no deeper than they were made. *)
Section removal_fuel.
Context (parent tmp : string).
Abbreviation stage := (captured_root (B := B) parent tmp).
Definition dirs_within (k : disk) : Prop := ∀ p, k !! (Captured tmp, p) = Some EDir → (depth_of p <= Selection.maxDepth + 1)%nat.
Definition keeps {A} (m : M B A) : Prop := ∀ w, dirs_within (w_disk w) → dirs_within (w_disk (m w).2).
Lemma dirs_within_delete k key : dirs_within k → dirs_within (delete key k).
Proof. intros Hk p Hp. apply Hk. by apply lookup_delete_Some in Hp as [_ ?]. Qed.
Lemma keeps_quiet {A} (m : M B A) : quiet m → keeps m.
Proof. intros Hm w Hw. destruct (Hm w) as (r & n & ->). done. Qed.
Lemma keeps_bind {A C} (m : M B A) (f : A → M B C) : keeps m → (∀ a, keeps (f a)) → keeps (bind m f).
Proof. intros Hm Hf w Hw. specialize (Hm w Hw). unfold bind. destruct (m w) as [[a|e] w1]; [by apply Hf|done]. Qed.
Lemma keeps_remove p : keeps (fs_remove (Captured tmp) p).
Proof. intros w Hw. unfold fs_remove. destruct (w_disk w !! _); [|done]. destruct (now_fault w); try done; by apply dirs_within_delete. Qed.
Lemma keeps_remove_directory relative : keeps (remove_directory tmp relative).
Proof.
  intros w Hw. unfold remove_directory. destruct (relative =s ""); [unfold fs_rmdir|unfold fs_rmdir_below];
    destruct (w_disk w !! _) as [[]|]; try done; destruct (existsb _ _); try done; destruct (now_fault w); try done; by apply dirs_within_delete.
Qed.
Lemma keeps_removePrivateTree n relative info : keeps (removePrivateTree n stage tmp relative info).
Proof.
  assert (∀ name, quiet (rt_lstat stage name)) as Hlstat by (intros; apply sh_lstat). assert (∀ name, quiet (rt_list stage name)) as Hlist by (intros; apply sh_list).
  revert relative info. induction n as [|n IH]; intros relative info; cbn [removePrivateTree]; [apply keeps_quiet, quiet_throw|].
  apply keeps_bind; [by apply keeps_quiet, quiet_attempt|]. intros [named|e]; [|apply keeps_quiet; destruct (err_not_exist e); auto with quiet].
  apply keeps_bind; [apply keeps_quiet, quiet_guard|intros _]. apply keeps_bind; [by apply keeps_quiet, quiet_wrapv|intros opened].
  apply keeps_bind; [apply keeps_quiet, quiet_guard|intros _]. apply keeps_bind; [by apply keeps_quiet|intros l].
  apply keeps_bind; [|intros _; apply keeps_remove_directory]. induction l as [|[name d] rest IHl]; cbn [removeEntries]; [apply keeps_quiet, quiet_ret|].
  apply keeps_bind; [|done]. destruct d; [|apply keeps_remove]. apply keeps_bind; [by apply keeps_quiet|done].
Qed.
Lemma strip_prefix_ok p s r : strip_prefix p s = Some r → s = p +:+ r.
Proof.
  revert s. induction p as [|c p IH]; intros s H; cbn [strip_prefix] in H; [by destruct s; injection H as <-|].
  destruct s as [|d s]; [done|]. destruct (Ascii.eqb_spec c d) as [->|]; [|done]. apply IH in H as ->. done.
Qed.
Lemma stage_listed relative name l w w' : rt_list stage relative w = (Ok l, w') → (name, true) ∈ l →
  w_disk w !! (Captured tmp, child_of relative name) = Some EDir ∧ child_of relative name ≠ EmptyString.
Proof.
  cbn. intros H Hin. apply bind_ok in H as (es & w1 & [-> _]%fs_list_ok & H). apply ret_ok in H as [-> _].
  apply list_elem_of_omap in Hin as ([q e] & Hq%dir_entries_spec & Hc). cbn in Hc. destruct (child_name relative q) as [x|] eqn:Ex; [|done].
  injection Hc as -> He. destruct e; try done. unfold child_name, child_of in *. destruct (relative =s "") eqn:Er.
  - destruct ((q =s "") || str_contains "/" q) eqn:Eq; [done|]. injection Ex as ->. apply orb_false_iff in Eq as [Eq%eqs_false _]. done.
  - destruct (strip_prefix (relative +:+ "/") q) as [r|] eqn:Es; [|done]. destruct (_ || _); [done|]. injection Ex as ->.
    apply strip_prefix_ok in Es as ->. rewrite str_app_assoc in Hq. split; [exact Hq|]. apply eqs_false in Er. by destruct relative.
Qed.
Lemma removal_fuel_enough n m relative info w : dirs_within (w_disk w) →
  (Selection.maxDepth + 1 < n + depth_of relative)%nat → (Selection.maxDepth + 1 < m + depth_of relative)%nat → (depth_of relative <= Selection.maxDepth + 1)%nat →
  removePrivateTree n stage tmp relative info w = removePrivateTree m stage tmp relative info w.
Proof.
  revert m relative info w. induction n as [|n IH]; intros [|m] relative info w Hw Hn Hm Hd; [lia..|]. cbn [removePrivateTree].
  assert (∀ name, quiet (rt_lstat stage name)) as Hlstat by (intros; apply sh_lstat). assert (∀ name, quiet (rt_list stage name)) as Hlist by (intros; apply sh_list).
  apply bind_cong. intros [named|e] w1 H1; [|done]. apply (quiet_ok _ _ _ _ (quiet_attempt _ (Hlstat _))) in H1 as [n1 ->].
  apply bind_cong. intros _ w2 [_ ->]%guard_ok. apply bind_cong. intros opened w3 [n3 ->]%(quiet_ok _ _ _ _ (quiet_wrapv _ _ (Hlstat _))).
  apply bind_cong. intros _ w4 [_ ->]%guard_ok. apply bind_cong. intros l w5 Hl. apply bind_ext; [|done].
  assert (∀ name, (name, true) ∈ l → (depth_of relative < depth_of (child_of relative name) <= Selection.maxDepth + 1)%nat) as Hdeep.
  { intros name Hin. destruct (stage_listed _ _ _ _ _ Hl Hin) as [Hdir Hne]. split; [|by apply Hw]. by destruct (child_deeper relative name). }
  apply (quiet_ok _ _ _ _ (Hlist _)) in Hl as [n5 ->]. assert (dirs_within (w_disk (retick n5 (retick n3 (retick n1 w))))) as Hw5 by done.
  revert Hw5. generalize (retick n5 (retick n3 (retick n1 w))) as w6. clear Hw. induction l as [|[name d] rest IHl]; intros w6 Hw6; [done|]. cbn [removeEntries].
  set (once := λ f : nat, if d then let! info := rt_lstat stage (child_of relative name) in removePrivateTree f stage tmp (child_of relative name) info
                          else fs_remove (Captured tmp) (child_of relative name)).
  assert (once n w6 = once m w6) as Honce.
  { unfold once. destruct d; [|done]. apply bind_cong. intros i w7 [n7 ->]%(quiet_ok _ _ _ _ (Hlstat _)). specialize (Hdeep name ltac:(set_solver)). apply IH; [done|lia..]. }
  assert (keeps (once m)) as Hk.
  { unfold once. destruct d; [|apply keeps_remove]. apply keeps_bind; [by apply keeps_quiet|]. intros i. apply keeps_removePrivateTree. }
  change (bind (once n) (λ _, removeEntries stage tmp (removePrivateTree n stage tmp) relative rest) w6 = bind (once m) (λ _, removeEntries stage tmp (removePrivateTree m stage tmp) relative rest) w6).
  specialize (Hk w6 Hw6). unfold bind. rewrite Honce. destruct (once m w6) as [[u|e] w7]; [|done]. apply IHl; [|done]. intros x Hx. apply Hdeep. set_solver.
Qed.
End removal_fuel.
End fuel.

(** *** What a snapshot shows of a tree that did not change *)

(** The answers are those of one tree. *)
Record source_is `{ImportSource} (path : string) (src : string → option node) : Prop := {
  so_lstat : ∀ n name info, is_lstat n path name = Ok info → ti_kind info = KDirectory → name ≠ "."%string → src name = Some NDir;
  so_read : ∀ n name content, is_read n path name = Ok content → src name = Some (NFile content);
  so_list : ∀ n relative name l, is_list n path relative = Ok l → plain_name name → is_Some (src (child_of relative name)) → ∃ d, (name, d) ∈ l;
}.
(** The snapshot holds exactly what the exclusions leave of the tree, byte for byte. *)
Definition mirrors `{Digests} (excludes : list string) (src : string → option node) (id : string) (s : ImportSnapshot) (k : disk) : Prop :=
  tree_exact (ss_entries s) (λ p, p ∈ excludes) src (λ p, is_Some (src p)) ∧
  ∀ e, e ∈ ss_entries s → (en_path e ∉ excludes) ∧ captured_look id k (en_path e) = src (en_path e).
Lemma valid_path_not_dot path : validSnapshotPath path = true → path ≠ "."%string.
Proof. by intros H ->. Qed.
Lemma published_mirrors `{ImportSource} `{Digests} path n tmp id k0 s k src :
  published_capture path n tmp id k0 s k → source_is path src → mirrors (items (sel_excludes n)) src id s k.
Proof.
  intros [_ [_ Hx] [_ Hex Han Hl] _ _] [Hs1 Hs2 Hs3].
  assert (∀ e, e ∈ ss_entries s → captured_look id k (en_path e) = src (en_path e)) as Hlook.
  { intros e He. pose proof (te_shown _ _ _ _ (sp_exact _ _ _ Hx) e He) as Hsh. destruct (po_valid _ (sp_paths _ _ _ Hx) e He) as [Hv _].
    destruct (Han e He) as [[Hk (m & info & Hi & Hd)]|[Hk (m & content & Hr & ->)]]; [|by erewrite Hs2].
    destruct Hsh as [[_ ->]|[Hk' _]]; [|congruence]. erewrite Hs1; try done. by apply valid_path_not_dot. }
  split; [|intros e He; by split; auto]. split.
  - intros e He. unfold entry_shown. rewrite <-Hlook by done. by apply (sp_exact _ _ _ Hx).
  - intros relative name Hd Hn Hp. destruct (Hl relative Hd) as (m & l & Hlist & Hall). destruct (Hs3 _ _ _ _ Hlist Hn Hp) as [d Hin].
    destruct (Hall _ _ Hin); auto.
Qed.

Lemma wp_absent_name {B : Type} {E : Env} P name msg (Q : res unit → world B → Prop) w :
  (∀ n, w_disk w !! (Imports, name) = None → Q (Ok tt) (retick n w)) → (∀ e n, Q (Er e) (retick n w)) → wp P (absent_name name msg) Q w.
Proof.
  intros Hq He. unfold absent_name. apply wp_bind, wp_attempt, wp_quiet; [apply quiet_fs_lstat|]. intros [x|e] n Hr; [apply wp_throw, He|].
  destruct (err_not_exist e) eqn:Ee; [apply wp_ret, Hq|apply wp_throw, He]. unfold fs_lstat in Hr.
  destruct (now_fault w); try (injection Hr as <- _; done). destruct (w_disk w !! (Imports, name)); [done|]. done.
Qed.

Lemma wp_CaptureSelectedSource `{E : Env} `{R : ReservePlatform} `{F : HostFiles} `{T : TreeHost} {B : Type} `{I : Inspection B} `{D : Digests}
    `{S : ImportSource} (path parent id : string) (sel : Selection) (w : world B)
    (Hdigest : ∀ s, Session.lowerSHA256 (sha256 s) = true) (Hroot : rooted (w_disk w)) :
  wp (λ o s, ∃ nonce n, normalizeSelection sel = Ok n ∧ capture_step path n (temporary_name id nonce) id (w_disk w) o s) (CaptureSelectedSource path parent id sel) (λ r w',
    rooted (w_disk w') ∧ ∃ nonce, let tmp := temporary_name id nonce in
    match r with
    | Ok (s, _) => ∃ n, normalizeSelection sel = Ok n ∧ published_capture path n tmp id (w_disk w) s (w_disk w') ∧
        ∀ src, source_is path src → mirrors (items (sel_excludes n)) src id s (w_disk w')
    | Er _ => outside tmp (w_disk w) (w_disk w') ∨
        ∃ n s, normalizeSelection sel = Ok n ∧ published_capture path n tmp id (w_disk w) s (w_disk w')
    end) w.
Proof.
  set (Q := λ (r : res (outcome ImportSnapshot)) (w' : world B), _).
  assert (∀ e m, Q (Er e) (retick m w)) as Hfail by (intros e m; split; [done|]; exists ""; by left).
  unfold CaptureSelectedSource. apply wp_bind, wp_lift. destruct (normalizeSelection sel) as [n|e] eqn:Hn; [|rewrite (retick_self w); apply Hfail]. cbn beta iota.
  wp_guard as Hg by (rewrite (retick_self w); apply Hfail). wp_read as r1 n1 H1 by apply Hfail. wp_read as r2 n2 H2 by apply Hfail.
  wp_guard as Hg2 by apply Hfail. pose proof (quiet_openPrivateDirectory (B := B)) as Hopen.
  wp_read as u1 n3 H3 by apply Hfail. wp_read as u2 n4 H4 by apply Hfail.
  apply wp_bind, wp_absent_name; [|intros; apply Hfail]. intros n5 Hfree. cbn [w_disk retick] in Hfree. wp_read as nonce n6 H6 by apply Hfail.
  apply wp_bind, wp_RunAssigning; [|intros; apply wp_throw, Hfail]. intros n7.
  apply (wp_impl (capture_step path n (temporary_name id nonce) id (w_disk w))); [by intros o s Hs; exists nonce, n|].
  assert (∀ s w', published_capture path n (temporary_name id nonce) id (w_disk w) s (w_disk w') → ∀ err, Q (Ok (s, err)) w') as Hpub.
  { intros s w' Hp err. split; [by eapply published_rooted|]. exists nonce, n. split_and!; [done|done|]. intros src. by apply published_mirrors with (1 := Hp). }
  assert (∀ e w', settles_or_published path (temporary_name id nonce) id (w_disk w) n w' → Q (Er e) w') as Her.
  { intros e w' [Hs|[s Hp]]; (split; [first [by eapply settled_rooted|by eapply published_rooted]|]; exists nonce); [left; apply Hs|right; exists n, s; by split]. }
  apply (wp_captureGuarded Hdigest path (temporary_name id nonce) id (w_disk w) n); [done|done|apply temporary_name_other|done| |].
  - intros e w' Hs n8 err. destruct err as [e2|]; cbn [default Datatypes.id join_errors foldr]; apply wp_throw, Her; by apply settles_or_published_retick.
  - intros s err w' Hp n8 err2. cbn [default Datatypes.id]. destruct (join_errors [err; err2]); apply wp_ret; by apply Hpub.
Qed.
(** What a capture pinned to [digest] may do to the transaction's name: nothing,
    but for a rename that gives it a complete snapshot, of that digest. *)
Definition pinned_step `{Digests} (id digest : string) (k0 : disk) (_ : list step) (s : step) : Prop :=
  match st_event s with
  | EvRename _ _ to => to = id ∧ (∃ snapshot, whole id snapshot (st_disk s)) ∧ ∀ snapshot, whole id snapshot (st_disk s) → ss_digest snapshot = digest
  | _ => ∀ key, in_staging id key → st_disk s !! key = k0 !! key
  end.
Lemma whole_digest `{Digests} id s s' k : whole id s k → whole id s' k → ss_digest s = ss_digest s'.
Proof.
  intros [_ [_ _ _ _ _ (raw & m & Hl & Hp & _ & ->)]] [_ [_ _ _ _ _ (raw' & m' & Hl' & Hp' & _ & ->)]].
  rewrite Hl in Hl'. injection Hl' as <-. by rewrite Hp in Hp'; injection Hp' as <-.
Qed.
Lemma whole_outside `{Digests} tmp id s k0 k : tmp ≠ id → outside tmp k0 k → whole id s k → whole id s k0.
Proof.
  intros Hne Ho [Hd Hx]. split; [rewrite <-Ho; [done|intros [?|?]; cbn in *; congruence]|].
  eapply captured_exact_ext; [|exact Hx]. intros name. symmetry. apply Ho. intros [?|?]; cbn in *; congruence.
Qed.
Lemma published_digest `{ImportSource} `{Digests} path sel n tmp id k0 s k digest : normalizeSelection sel = Ok n → sel_digest sel = digest → digest ≠ EmptyString →
  published_capture path n tmp id k0 s k → ss_digest s = digest.
Proof.
  intros Hn <- Hne Hp. destruct (cs_pinned _ _ _ _ _ (pb_selected _ _ _ _ _ _ _ Hp)) as [He|<-].
  - unfold normalizeSelection in Hn. res_inv Hn. injection Hn as <-. done.
  - unfold normalizeSelection in Hn. res_inv Hn. by injection Hn as <-.
Qed.
Lemma wp_pinned_capture `{E : Env} `{R : ReservePlatform} `{F : HostFiles} `{T : TreeHost} {B : Type} `{I : Inspection B} `{D : Digests}
    `{S : ImportSource} (path parent id digest : string) (sel : Selection) (w : world B) :
  (∀ s, Session.lowerSHA256 (sha256 s) = true) → rooted (w_disk w) → sel_digest sel = digest → digest ≠ EmptyString →
  wp (pinned_step id digest (w_disk w)) (CaptureSelectedSource path parent id sel) (λ r w',
    (∀ s err, r = Ok (s, err) → ss_digest s = digest) ∧
    ∀ s, whole id s (w_disk w') → whole id s (w_disk w) ∨ ss_digest s = digest) w.
Proof.
  intros Hdigest Hroot Hpin Hne. eapply wp_conseq; [eapply wp_impl; [|by apply wp_CaptureSelectedSource]|].
  - intros o s (nonce & n & Hn & [[He Ho]|[He (snapshot & Hp)]]); unfold pinned_step.
    + assert (∀ key, in_staging id key → st_disk s !! key = w_disk w !! key) as Hk.
      { intros key Hin. apply Ho. intros Hin2. pose proof (temporary_name_other id nonce). destruct key as [d x], Hin as [[= -> ->]|Hin], Hin2 as [Hin2|Hin2]; cbn in *; congruence. }
      destruct (st_event s); try done.
    + rewrite He. pose proof (pb_whole _ _ _ _ _ _ _ Hp) as Hw. split; [done|]. split; [by exists snapshot|]. intros x Hx.
      rewrite (whole_digest _ _ _ _ Hx Hw). by eapply published_digest.
  - intros r w' (_ & nonce & Hr). destruct r as [[s err]|e].
    + destruct Hr as (n & Hn & Hp & _). assert (ss_digest s = digest) as Hs by by eapply published_digest. split; [by intros ? ? [= <- <-]|].
      intros x Hx. right. rewrite <-Hs. eapply whole_digest; [done|apply Hp].
    + split; [done|]. intros x Hx. destruct Hr as [Ho|(n & s & Hn & Hp)].
      * left. eapply whole_outside; [apply temporary_name_other|done|done].
      * right. rewrite (whole_digest _ _ _ _ Hx (pb_whole _ _ _ _ _ _ _ Hp)). by eapply published_digest.
Qed.

(** ** Properties *)

(** C32: Capturing a selected host source is safe whatever fails and whatever the
    source answers, at every moment anew: each step stays in one private staging
    directory, until one rename gives a complete snapshot its name; nothing else
    on disk ever changes, and no partial snapshot is ever under the transaction's
    name. A returned snapshot is the one on disk, exactly as its canonical
    manifest declares it, within all limits; everything the source listed in a
    captured directory is excluded or captured, nothing excluded is captured, the
    bytes of each file are bytes the source answered with, and a pinned digest is
    the manifest's. Of a source that answers as one tree, the snapshot is exactly
    what the exclusions leave, byte for byte. An error leaves all but the staging
    directory untouched, unless that complete snapshot had been published. *)
Theorem import_capture_is_safe `{E : Env} `{R : ReservePlatform} `{F : HostFiles} `{T : TreeHost} {B : Type} `{I : Inspection B} `{D : Digests}
    `{S : ImportSource} (path parent id : string) (sel : Selection) (w : world B)
    (Hdigest : ∀ s, Session.lowerSHA256 (sha256 s) = true) (Hroot : rooted (w_disk w)) :
  wp (λ o s, ∃ nonce n, normalizeSelection sel = Ok n ∧ capture_step path n (temporary_name id nonce) id (w_disk w) o s) (CaptureSelectedSource path parent id sel) (λ r w',
    rooted (w_disk w') ∧ ∃ nonce, let tmp := temporary_name id nonce in
    match r with
    | Ok (s, _) => ∃ n, normalizeSelection sel = Ok n ∧ published_capture path n tmp id (w_disk w) s (w_disk w') ∧
        ∀ src, source_is path src → mirrors (items (sel_excludes n)) src id s (w_disk w')
    | Er _ => outside tmp (w_disk w) (w_disk w') ∨
        ∃ n s, normalizeSelection sel = Ok n ∧ published_capture path n tmp id (w_disk w) s (w_disk w')
    end) w.
Proof. by apply wp_CaptureSelectedSource. Qed.

(** C33: A preview changes nothing and pins a capture. A capture given the
    preview's digest, whatever fails, whatever its result and however the source
    changed in between, touches the transaction's name only by a rename,
    which gives it a complete snapshot of that digest; so no other snapshot stands
    there afterwards than one that already did, and a returned one has that digest.
    And of a source that still answers the same, every capture with the same
    exclusions that succeeds takes exactly the previewed entries. *)
Theorem preview_pins_capture `{E : Env} `{R : ReservePlatform} `{F : HostFiles} `{T : TreeHost} {B : Type} `{I : Inspection B} `{D : Digests}
    `{S : ImportSource} (path parent id : string) (sel sel' : Selection) (w1 w1' w2 : world B) (p : ImportSnapshot)
    (Hdigest : ∀ s, Session.lowerSHA256 (sha256 s) = true) (Hroot : rooted (w_disk w2))
    (Hpreview : PreviewSource path sel w1 = (Ok p, w1')) :
  (∃ n, w1' = retick n w1) ∧
  (sel_digest sel' = ss_digest p →
   wp (pinned_step id (ss_digest p) (w_disk w2)) (CaptureSelectedSource path parent id sel') (λ r w2',
     (∀ s err, r = Ok (s, err) → ss_digest s = ss_digest p) ∧
     ∀ s, whole id s (w_disk w2') → whole id s (w_disk w2) ∨ ss_digest s = ss_digest p) w2) ∧
  (still path → sel_excludes sel' = sel_excludes sel → ∀ s err, (CaptureSelectedSource path parent id sel' w2).1 = Ok (s, err) →
   ss_entries s = ss_entries p ∧ ss_digest s = ss_digest p ∧ ss_files s = ss_files p ∧ ss_directories s = ss_directories p ∧ ss_bytes s = ss_bytes p).
Proof.
  split; [by eapply quiet_ok; [apply quiet_PreviewSource|]|].
  destruct (PreviewSource_walked _ _ _ _ _ Hpreview) as (n & Hn & i & v1 & v1' & c & v2 & v2' & raw & Hi & Hc & Hm & Hf & Hd & Hb & He).
  apply selectionManifest_ok in Hm as (_ & Hraw & Hdig & _ & _). split.
  - intros Hp. apply wp_pinned_capture; [done|done|done|]. rewrite Hdig. intros Hbad. pose proof (Hdigest raw) as Hform. by rewrite Hbad in Hform.
  - intros Hstill Hex s err Hcapture. destruct (CaptureSelectedSource path parent id sel' w2) as [r w2'] eqn:Er. cbn in Hcapture. subst r.
    destruct (CaptureSelectedSource_walked _ _ _ _ _ _ _ _ Er) as (n' & tmp & Hn' & i2 & u1 & u1' & c2 & u2 & u2' & raw2 & Hi2 & Hc2 & Hm2 & Hf2 & Hd2 & Hb2 & He2).
    apply selectionManifest_ok in Hm2 as (_ & Hraw2 & Hdig2 & _ & _).
    assert (items (sel_excludes n') = items (sel_excludes n)) as Hsame.
    { unfold normalizeSelection in Hn, Hn'. rewrite Hex in Hn'. res_inv Hn. res_inv Hn'. injection Hn as <-. by injection Hn' as <-. }
    rewrite Hsame in Hc2. assert (c2 = c) as -> by (eapply (agree_walk path Hstill); [exact Hi2|exact Hi|exact Hc2|exact Hc]).
    split_and!; congruence.
Qed.

(** ** Evaluations *)

Section evaluations.
#[local] Existing Instance quietEnv.
#[local] Existing Instance example_reserve.
#[local] Instance example_hex : Digests := {| sha256 s := hexEncode (str_repeat "a" 31 +:+ String (byte_at (Z.of_nat (String.length s) mod 256)) "") |}.
#[local] Instance example_files : HostFiles := {|
  hf_stat _ _ := Ok (mkInfo (1, 2) 0 true); hf_names _ _ := Ok []; hf_identity _ _ _ := (1, 3); hf_close _ := Ok tt; hf_seek _ := Ok tt;
  hf_canceled _ := false; hf_random _ := Ok (str_repeat "A" 16) |}.
#[local] Instance example_trees : TreeHost := {| th_identity _ _ _ := (1, 4); th_modified _ _ _ := 7 |}.
#[local] Instance example_inspection : Inspection unit := {|
  in_entries _ _ := ∅; in_publish _ _ b := b; in_admit _ _ _ b := (fail "unused", b);
  in_build _ _ _ _ b := (fail "unused", b); in_remove _ b := (Ok tt, b) |}.
Definition example_tree : gmap string node :=
  {[ "docs"%string := NDir; "docs/a.txt"%string := NFile "hello"; "b.txt"%string := NFile ""; ".git"%string := NDir ]}.
(** A source that holds this tree, in a mode and under an owner to be admitted. *)
Definition source_of (src : gmap string node) : ImportSource := {|
  is_resolve _ path := Ok path;
  is_lstat _ _ name :=
    if name =s "." then Ok (mkTreeInfo (2, 0) KDirectory perm_dir true 0 7)
    else match src !! name with
         | Some NDir => Ok (mkTreeInfo (2, 1) KDirectory perm_dir true 0 7)
         | Some (NFile content) => Ok (mkTreeInfo (2, 2) KRegular perm_file true (Z.of_nat (String.length content)) 7)
         | None => Er ErrNotExist
         end;
  is_list _ _ relative := Ok (omap (λ kn, (λ name, (name, match kn.2 with NDir => true | NFile _ => false end)) <$> child_name relative kn.1) (map_to_list src));
  is_read _ _ name := match src !! name with Some (NFile content) => Ok content | _ => fail "is a directory" end;
|}.
#[local] Instance example_source : ImportSource := source_of example_tree.
Definition example_selection (digest : string) : Selection := mkSelection (Some [".git"%string]) digest.
Definition example_id : string := "5c5c5c5c-bbbb-4ccc-8ddd-eeeeeeeeeeee".
Definition example_imports : string := "/var/lib/boxwarden/imports".
Definition example_preview : res ImportSnapshot * world unit := PreviewSource "/home/me/src" (example_selection "") (worldOf ∅ tt).
Definition example_digest : string := match example_preview.1 with Ok p => ss_digest p | Er _ => "" end.
Definition example_capture : res (outcome ImportSnapshot) * world unit :=
  CaptureSelectedSource "/home/me/src" example_imports example_id (example_selection example_digest) (worldOf ∅ tt).
Definition example_snapshot : ImportSnapshot := match example_capture.1 with Ok (s, _) => s | Er _ => mkImportSnapshot "" "" "" 0 0 0 [] end.
Definition example_previewed : ImportSnapshot := match example_preview.1 with Ok s => s | Er _ => mkImportSnapshot "" "" "" 0 0 0 [] end.
Lemma example_hex_form s : Session.lowerSHA256 (sha256 s) = true.
Proof.
  unfold sha256, example_hex. assert (0 <= Z.of_nat (String.length s) mod 256 < 256) as Hn by (apply Z.mod_pos_bound; lia).
  revert Hn. generalize (Z.of_nat (String.length s) mod 256) as n. intros n Hn.
  assert (∀ k, (k < 256)%nat → Session.lowerSHA256 (hexEncode (str_repeat "a" 31 +:+ String (byte_at (Z.of_nat k)) "")) = true) as Hall.
  { intros k Hk. assert (forallb (λ k, Session.lowerSHA256 (hexEncode (str_repeat "a" 31 +:+ String (byte_at (Z.of_nat k)) ""))) (seq 0 256) = true) as Hc by (vm_compute; reflexivity).
    eapply (proj1 (forallb_forall _ _)) in Hc; [exact Hc|]. apply in_seq. lia. }
  rewrite <-(Z2Nat.id n) by lia. apply Hall. lia.
Qed.
Lemma example_rooted : rooted (w_disk (worldOf ∅ tt)).
Proof. intros i p [e He]. cbn in He. by rewrite lookup_empty in He. Qed.
Lemma run_first {X Y} (r : X * Y) (a : X) : r.1 = a → r = (a, r.2).
Proof. destruct r. by intros <-. Qed.
Lemma example_preview_ok : example_preview = (Ok example_previewed, example_preview.2).
Proof. apply run_first. vm_compute. reflexivity. Qed.
Lemma example_capture_ok : example_capture = (Ok (example_snapshot, None), example_capture.2).
Proof. apply run_first. vm_compute. reflexivity. Qed.
Lemma example_still : still "/home/me/src".
Proof. constructor; intros n m name a b H1 H2; cbn in H1, H2; congruence. Qed.
Lemma example_pinned : example_digest = ss_digest example_previewed.
Proof. vm_compute. reflexivity. Qed.
Lemma import_capture_is_safe_witness : ∃ nonce n,
  published_capture "/home/me/src" n (temporary_name example_id nonce) example_id ∅ example_snapshot (w_disk example_capture.2).
Proof.
  destruct (wp_result _ _ _ _ (import_capture_is_safe "/home/me/src" example_imports example_id (example_selection example_digest) (worldOf ∅ tt)
    example_hex_form example_rooted)) as (_ & nonce & H).
  exists nonce. change (CaptureSelectedSource _ _ _ _ _) with example_capture in H. rewrite (f_equal fst example_capture_ok) in H.
  destruct H as (n & _ & Hp & _). exists n. exact Hp.
Defined.
Lemma preview_pins_capture_witness : ss_digest example_snapshot = ss_digest example_previewed ∧ ss_entries example_snapshot = ss_entries example_previewed.
Proof.
  destruct (preview_pins_capture "/home/me/src" example_imports example_id (example_selection "") (example_selection example_digest)
    (worldOf ∅ tt) example_preview.2 (worldOf ∅ tt) example_previewed example_hex_form example_rooted example_preview_ok) as (_ & Hpin & Hstill).
  pose proof (f_equal fst example_capture_ok) as Hok. split.
  - exact (proj1 (wp_result _ _ _ _ (Hpin example_pinned)) example_snapshot None Hok).
  - exact (proj1 (Hstill example_still eq_refl example_snapshot None Hok)).
Defined.
(** The captured snapshot is admitted again, exactly as it was returned. *)
Example example_admitted : (InspectSnapshot example_imports example_id example_capture.2).1 = Ok example_snapshot.
Proof. vm_compute. reflexivity. Qed.
(** A second capture of the transaction, one whose exclusion met nothing, one that
    excludes everything, and one pinned to another digest are refused, and leave
    no staging directory behind. *)
Definition refused_clean (sel : Selection) (w : world unit) : bool :=
  let '(r, w') := CaptureSelectedSource "/home/me/src" example_imports example_id sel w in
  negb (match r with Ok _ => true | Er _ => false end) && bool_decide ((map_to_list (w_disk w')).*1 = (map_to_list (w_disk w)).*1).
Example example_refusals :
  refused_clean (example_selection "") example_capture.2 = true ∧
  refused_clean (mkSelection (Some [".git"; "vendor"]%string) "") (worldOf ∅ tt) = true ∧
  refused_clean (mkSelection (Some [".git"; "docs"; "b.txt"]%string) "") (worldOf ∅ tt) = true ∧
  refused_clean (example_selection (sha256 "another")) (worldOf ∅ tt) = true ∧
  refused_clean zeroSelection (worldOf ∅ tt) = true.
Proof. vm_compute. by split_and!. Qed.
End evaluations.
