(* ===== verification/ImportJournal.v ===== *)
(** The import transaction journal of src/internal/workspacex/import_journal.go:
    its record, validation, strict decoder and encoder, creation and phase
    advancement, each of which re-admits the captured snapshot the journal binds. *)
From S2P Require Import Prelude Ids Bytes Json JsonText SessionRecord Outside World Host Logic WorkspaceRecord ExportJournal DiskReserve Capture Exports ImportTree.

Definition maxImportJournalBytes : N := 8 * 2 ^ 10.
Abbreviation ImportCaptured := "captured"%string.
Abbreviation ImportTransferring := "transferring"%string.
Abbreviation ImportVerified := "verified"%string.

Record ImportJournal := mkImportJournal {
  ij_version : Z;
  ij_id : string;
  ij_domain : string;
  ij_session_id : string;
  ij_session_name : string;
  ij_backend : string;
  ij_generation : string;
  ij_volume : string;
  ij_uuid : string;
  ij_mount : string;
  ij_digest : string;
  ij_files : Z;
  ij_bytes : Z;
  ij_phase : string;
  ij_export : string;
}.
#[export] Instance ImportJournal_eq_dec : EqDecision ImportJournal.
Proof. solve_decision. Defined.
Definition zeroImportJournal : ImportJournal := mkImportJournal 0 "" "" "" "" "" "" "" "" "" "" 0 0 "" "".
Definition set_import_phase (phase export : string) (j : ImportJournal) : ImportJournal :=
  mkImportJournal (ij_version j) (ij_id j) (ij_domain j) (ij_session_id j) (ij_session_name j) (ij_backend j) (ij_generation j)
    (ij_volume j) (ij_uuid j) (ij_mount j) (ij_digest j) (ij_files j) (ij_bytes j) phase export.

Definition validateImportJournal (j : ImportJournal) : res unit :=
  check ((ij_version j =? 1) && Workspacex.validUUID (ij_id j) && (ij_id j ≠s "00000000-0000-0000-0000-000000000000") &&
         Workspacex.validUUID (ij_session_id j) && Workspacex.validSessionName (ij_session_name j) &&
         Workspacex.validObjectID (ij_backend j) && Workspacex.validUUID (ij_generation j) && Workspacex.validUUID (ij_volume j) &&
         Workspacex.validUUID (ij_uuid j) && Workspacex.validMountPath (ij_mount j) && validSHA256 (ij_digest j) &&
         (1 <=? ij_files j) && (ij_files j <=? maxImportFiles) && (0 <=? ij_bytes j) && (ij_bytes j <=? maxImportTotalBytes))
        "invalid import transaction binding" ;;?
  Domain.Parse (ij_domain j) ;;?
  check ((ij_phase j =s ImportCaptured) || (ij_phase j =s ImportTransferring) || (ij_phase j =s ImportVerified)) "invalid import phase" ;;?
  if ij_phase j =s ImportVerified then
    check (Workspacex.validUUID (ij_export j) && (ij_export j ≠s ij_id j)) "verified import lacks distinct export evidence"
  else check (ij_export j =s "") "unverified import cannot bind export evidence".

(** ** Encoding and decoding *)

Definition marshalImportJournal (j : ImportJournal) : json :=
  JObj ([("version"%string, JNum (ij_version j)); ("id"%string, jstr (ij_id j)); ("domain"%string, jstr (ij_domain j));
         ("session_id"%string, jstr (ij_session_id j)); ("session_name"%string, jstr (ij_session_name j));
         ("backend_object"%string, jstr (ij_backend j)); ("generation"%string, jstr (ij_generation j));
         ("volume_id"%string, jstr (ij_volume j)); ("filesystem_uuid"%string, jstr (ij_uuid j));
         ("mount_path"%string, jstr (ij_mount j)); ("source_digest"%string, jstr (ij_digest j));
         ("file_count"%string, JNum (ij_files j)); ("total_bytes"%string, JNum (ij_bytes j)); ("phase"%string, jstr (ij_phase j))] ++
        (if ij_export j =s "" then [] else [("export_id"%string, jstr (ij_export j))])).
Definition importFile (j : ImportJournal) : file := json_file (marshalImportJournal j).
Definition encodeImportJournal (j : ImportJournal) : res file :=
  check (negb (maxImportJournalBytes <? file_size (importFile j))%N) "import journal exceeds limit" ;;?
  Ok (importFile j).

Definition import_field (name : string) (v : json) (j : ImportJournal) : option (res ImportJournal) :=
  let '(mkImportJournal ver id dom sid sn be gen vol uuid mnt dig fc tb ph ex) := j in
  if name =s "version" then Some (let? x := get_int v ver in Ok (mkImportJournal x id dom sid sn be gen vol uuid mnt dig fc tb ph ex))
  else if name =s "id" then Some (let? x := get_string v id in Ok (mkImportJournal ver x dom sid sn be gen vol uuid mnt dig fc tb ph ex))
  else if name =s "domain" then Some (let? x := get_string v dom in Ok (mkImportJournal ver id x sid sn be gen vol uuid mnt dig fc tb ph ex))
  else if name =s "session_id" then Some (let? x := get_string v sid in Ok (mkImportJournal ver id dom x sn be gen vol uuid mnt dig fc tb ph ex))
  else if name =s "session_name" then Some (let? x := get_string v sn in Ok (mkImportJournal ver id dom sid x be gen vol uuid mnt dig fc tb ph ex))
  else if name =s "backend_object" then Some (let? x := get_string v be in Ok (mkImportJournal ver id dom sid sn x gen vol uuid mnt dig fc tb ph ex))
  else if name =s "generation" then Some (let? x := get_string v gen in Ok (mkImportJournal ver id dom sid sn be x vol uuid mnt dig fc tb ph ex))
  else if name =s "volume_id" then Some (let? x := get_string v vol in Ok (mkImportJournal ver id dom sid sn be gen x uuid mnt dig fc tb ph ex))
  else if name =s "filesystem_uuid" then Some (let? x := get_string v uuid in Ok (mkImportJournal ver id dom sid sn be gen vol x mnt dig fc tb ph ex))
  else if name =s "mount_path" then Some (let? x := get_string v mnt in Ok (mkImportJournal ver id dom sid sn be gen vol uuid x dig fc tb ph ex))
  else if name =s "source_digest" then Some (let? x := get_string v dig in Ok (mkImportJournal ver id dom sid sn be gen vol uuid mnt x fc tb ph ex))
  else if name =s "file_count" then Some (let? x := get_int v fc in Ok (mkImportJournal ver id dom sid sn be gen vol uuid mnt dig x tb ph ex))
  else if name =s "total_bytes" then Some (let? x := get_int v tb in Ok (mkImportJournal ver id dom sid sn be gen vol uuid mnt dig fc x ph ex))
  else if name =s "phase" then Some (let? x := get_string v ph in Ok (mkImportJournal ver id dom sid sn be gen vol uuid mnt dig fc tb x ex))
  else if name =s "export_id" then Some (let? x := get_string v ex in Ok (mkImportJournal ver id dom sid sn be gen vol uuid mnt dig fc tb ph x))
  else None.
Definition import_required : list string :=
  ["version"; "id"; "domain"; "session_id"; "session_name"; "backend_object"; "generation"; "volume_id"; "filesystem_uuid";
   "mount_path"; "source_digest"; "file_count"; "total_bytes"; "phase"]%string.
Definition decodeImportJournal (v : json) : res ImportJournal :=
  let? (j, seen) := decode_object import_field v zeroImportJournal in
  check (seen_all import_required seen) "import journal missing field" ;;?
  validateImportJournal j ;;? Ok j.
(** What a file holds for one domain and transaction. *)
Definition parseImport (expectedDomain id : string) (f : file) : res ImportJournal :=
  let? v := single_doc maxImportJournalBytes f in
  let? j := decodeImportJournal v in
  check ((ij_domain j =s expectedDomain) && (ij_id j =s id)) "import journal differs from requested domain or transaction" ;;?
  Ok j.

(** ** Operations *)

Definition validImportAdvance (expected next : ImportJournal) : bool :=
  (ij_phase expected =s ImportCaptured) && (ij_phase next =s ImportTransferring) ||
  (ij_phase expected =s ImportTransferring) && (ij_phase next =s ImportVerified) && (ij_export expected =s "").

Section operations.
Context {B : Type} {E : Env} {F : HostFiles} {T : TreeHost} {I : Inspection B} {D : Digests}.

Definition imports_path (stateRoot : string) : string := path_join stateRoot ["imports"%string].
Definition admitImportSnapshot (stateRoot : string) (j : ImportJournal) : M B unit :=
  let! snapshot := InspectSnapshot (imports_path stateRoot) (ij_id j) in
  guard ((ss_digest snapshot ≠s ij_digest j) || negb (ss_files snapshot =? ij_files j) || negb (ss_bytes snapshot =? ij_bytes j))
        "captured import bytes differ from journal".

Definition loadImportJournalFromRoot (expectedDomain id : string) : M B ImportJournal :=
  let! f := fs_read Imports (json_name id) in
  lift (parseImport expectedDomain id f).
Definition LoadImportJournal (expectedDomain id : string) : M B ImportJournal :=
  guard (negb (Workspacex.validUUID id)) "invalid import transaction ID" ;;!
  lift (Domain.Parse expectedDomain) ;;!
  loadImportJournalFromRoot expectedDomain id.

Definition createImportJournal (stateRoot : string) (journal : ImportJournal) : M B unit :=
  guard (ij_phase journal ≠s ImportCaptured) "new import must begin captured" ;;!
  lift (validateImportJournal journal) ;;!
  admitImportSnapshot stateRoot journal ;;!
  let! found := attempt (loadImportJournalFromRoot (ij_domain journal) (ij_id journal)) in
  match found with
  | Ok current =>
      guard (bool_decide (current ≠ journal)) "existing import journal differs from captured transaction" ;;!
      fs_sync Imports
  | Er e =>
      if negb (err_not_exist e) then throw e
      else
        let! raw := lift (encodeImportJournal journal) in
        fs_publish_new Imports (json_name (ij_id journal)) raw
  end.

(** Under the transaction's own lock. *)
Definition advanceImportLocked (stateRoot : string) (expected next : ImportJournal) : M B unit :=
  let! current := wrapv "import journal changed before transition" (loadImportJournalFromRoot (ij_domain expected) (ij_id expected)) in
  admitImportSnapshot stateRoot expected ;;!
  if bool_decide (current = next) then fs_sync Imports
  else
    guard (bool_decide (current ≠ expected)) "import journal changed before transition" ;;!
    let! raw := lift (encodeImportJournal next) in
    fs_replace Imports (json_name (ij_id next)) raw.
Definition advanceImportJournal (stateRoot : string) (expected next : ImportJournal) : M B unit :=
  lift (validateImportJournal expected) ;;!
  lift (validateImportJournal next) ;;!
  guard (bool_decide (set_import_phase "" "" expected ≠ set_import_phase "" "" next) || negb (validImportAdvance expected next))
        "invalid import journal transition" ;;!
  let scope := Lock.import_scope (ij_domain expected) (ij_id expected) in
  Acquire scope ;;!
  deferred_ignore scope (advanceImportLocked stateRoot expected next).
End operations.

(** ** Lemmas *)

(** The journal an import file holds. *)
Definition import_at (dom id : string) : disk → option ImportJournal := view (parseImport dom id) Imports (json_name id).
Lemma parseImport_ok dom id f j :
  parseImport dom id f = Ok j → ij_id j = id ∧ ij_domain j = dom ∧ validateImportJournal j = Ok tt.
Proof.
  unfold parseImport. intros H. res_inv H. injection H as <-. apply check_ok in Ha1. bsimpl.
  split; [done|]. split; [done|]. unfold decodeImportJournal in Ha0. apply res_bind_ok in Ha0 as ([r seen] & _ & Ha0). cbv beta iota in Ha0.
  rewrite check_then_ok, unit_then_ok in Ha0. by destruct Ha0 as (_ & Hv & [= <-]).
Qed.
Lemma import_at_ok dom id k j :
  import_at dom id k = Some j → ij_id j = id ∧ ij_domain j = dom ∧ validateImportJournal j = Ok tt.
Proof. intros (f & _ & Hp)%view_Some. by apply parseImport_ok in Hp. Qed.
Section loads.
Context {B : Type} {E : Env}.
Implicit Types w : world B.
Lemma quiet_loadImportJournalFromRoot dom id : quiet (loadImportJournalFromRoot dom id : M B _).
Proof. unfold loadImportJournalFromRoot. quiet_tac. Qed.
Lemma quiet_LoadImportJournal dom id : quiet (LoadImportJournal dom id : M B _).
Proof. unfold LoadImportJournal. quiet_tac; apply quiet_loadImportJournalFromRoot. Qed.
Lemma loadImportJournalFromRoot_ok dom id w j w' :
  loadImportJournalFromRoot dom id w = (Ok j, w') → import_at dom id (w_disk w) = Some j.
Proof. unfold loadImportJournalFromRoot. intros H. ok_inv. apply fs_read_ok in Ha as [Hf ->]. apply view_Some. eauto. Qed.
Lemma LoadImportJournal_ok dom id w j w' :
  LoadImportJournal dom id w = (Ok j, w') → import_at dom id (w_disk w) = Some j.
Proof. unfold LoadImportJournal. intros H. ok_inv. by eapply loadImportJournalFromRoot_ok. Qed.
End loads.
#[export] Hint Resolve quiet_loadImportJournalFromRoot quiet_LoadImportJournal : quiet.
