(* ===== verification/Imports.v ===== *)
(** The import transaction of src/internal/workspacex: its beginning under a
    live, mount-probed session (import_begin.go), the transfer through the
    retained supervisor (import_transfer.go) and the verification against a
    stopped, published export (import_verify.go). *)
From S2P Require Import Prelude Ids Bytes Json JsonText SessionRecord Outside World Host Logic SessionStore RebuildJournal WorkspaceRecord ExportJournal WorkspaceStore WorkspaceTransition Receiver DiskReserve Capture Exports ImportTree ImportJournal.

Definition maxImportSnapshotAge : Z := 5 * 1000000000.
Definition import_root (id : string) : string := "boxwarden-import-" +:+ id.

(** ** Pure parts *)

(** The retained generation answers for this binding, now and completely. *)
Definition live_ready (binding : Binding) (live : Snapshot) (now : Z) : bool :=
  bool_decide (sn_binding live = binding) && negb (sn_at live =? 0) && (sn_at live <=? now) && (now - sn_at live <=? maxImportSnapshotAge) &&
  sn_running live && sn_serial live && sn_pin live && sn_cert live && sn_probe live && sn_zone live.
(** A clean session that runs and is durably ready. *)
Definition running_ready (domainID : string) (r : SessionRecord) : bool :=
  (sr_domain r =s domainID) && (sr_version r =? 2) && (sr_mode r =s ModeClean) && (sr_state r =s StateRunning) &&
  (rr_status (sr_readiness r) =s ReadinessReady) && (br_kind (sr_backend r) =s "tart").
(** The volume is attached to the session and in use by its generation. *)
Definition active_use (sessionID sessionName object generation : string) (v : Volume) : bool :=
  (vo_state v =s VolAvailable) && isSome (vo_disk v) && isNone (vo_pending v) &&
  match vo_attachment v with Some a => (at_session_id a =s sessionID) && (at_session_name a =s sessionName) | None => false end &&
  bool_decide (vo_use v = Some (mkUse "tart" object generation)).
Definition importControlBinding (j : ImportJournal) : Binding * ImportTransfer :=
  (mkBinding (ij_domain j) (ij_session_id j) "tart" (ij_backend j) (ij_generation j),
   mkTransfer (ij_id j) (ij_digest j) (ij_volume j) (ij_uuid j) (ij_mount j)).
Definition zeroImportResult : ImportResult := mkImportResult "" 0 0 "".
(** What the guest reports is what was captured. *)
Definition read_back (j : ImportJournal) (r : ImportResult) : bool :=
  (ir_digest r =s ij_digest j) && (ir_files r =? ij_files j) && (ir_bytes r =? ij_bytes j) &&
  (ir_path r =s ij_mount j +:+ "/" +:+ import_root (ij_id j)).
(** The export is one of the whole imported directory of the same volume. *)
Definition exports_import (exported : ExportJournal) (j : ImportJournal) : bool :=
  (ej_phase exported =s ExportPublished) && (ej_domain exported =s ij_domain j) && (ej_volume exported =s ij_volume j) &&
  (ej_session_id exported =s ij_session_id j) && (ej_session_name exported =s ij_session_name j) &&
  (ej_backend exported =s ij_backend j) && (ej_uuid exported =s ij_uuid j) &&
  bool_decide (ej_selected exported = [import_root (ij_id j)]).
(** The retained volume is the one that was exported, stopped and unused. *)
Definition retained (v : Volume) (j : ImportJournal) (exported : ExportJournal) : bool :=
  (vo_state v =s VolAvailable) && isNone (vo_use v) && isNone (vo_pending v) && (vo_uuid v =s ij_uuid j) && (vo_size v =? ej_size exported) &&
  bool_decide (vo_disk v = Some (ej_source exported)) &&
  match vo_attachment v with
  | Some a => (at_session_id a =s ij_session_id j) && (at_session_name a =s ij_session_name j) && (at_mount a =s ij_mount j)
  | None => false
  end.

(** The transfer action of the supervisor. *)
Class ImportControl (B : Type) := { ic_transfer : Binding → ImportTransfer → B → res ImportResult * B }.

Section imports.
Context {B : Type} {E : Env} {H : Host B} {F : HostFiles} {T : TreeHost} {I : Inspection B} {C : ImportControl B} {D : Digests}.

Definition TransferImport (b : Binding) (t : ImportTransfer) : M B ImportResult := host_call (EvTransfer b t) (ic_transfer b t).

(** ** import_begin.go *)

Definition beginAdmitted (stateRoot domainID sessionName transactionID : string) (current : SessionRecord) (selected : Volume)
  : M B (outcome ImportJournal) :=
  let zero := zeroImportJournal in
  let binding := mkBinding domainID (sr_id current) (br_kind (sr_backend current)) (br_object_id (sr_backend current)) (sr_generation current) in
  let* live := wrap "fresh import readiness" (SupervisorSnapshot binding) else zero in
  let* now := Now else zero in
  let* _ := guard (negb (live_ready binding live now)) "exact live session and workspace mount readiness is unproven" else zero in
  let* _ := contextErr else zero in
  let* snapshot := wrap "admit captured host source" (InspectSnapshot (imports_path stateRoot) transactionID) else zero in
  let result := mkImportJournal 1 transactionID domainID (sr_id current) sessionName (br_object_id (sr_backend current)) (sr_generation current)
                  (vo_id selected) (vo_uuid selected) (match vo_attachment selected with Some a => at_mount a | None => "" end)
                  (ss_digest snapshot) (ss_files snapshot) (ss_bytes snapshot) ImportCaptured "" in
  let* _ := createImportJournal stateRoot result else result in
  ret (result, None).
Definition beginLocked (stateRoot domainID sessionName volumeID transactionID : string) : M B (outcome ImportJournal) :=
  let zero := zeroImportJournal in
  let* current := LoadRecord domainID sessionName else zero in
  let* _ := guard (negb (running_ready domainID current && Workspacex.validUUID (sr_id current) && Workspacex.validUUID (sr_generation current)))
              "import requires exact clean running session with durable readiness" else zero in
  let* _ := RequireNoRebuild domainID sessionName else zero in
  let* attached := listSessionAttachments domainID (sr_id current) sessionName else zero in
  match List.find (λ v, vo_id v =s volumeID) attached with
  | None => ret (zero, Some (Errorf "import workspace lacks exact attached live Use"))
  | Some selected =>
      let* _ := guard (negb (active_use (sr_id current) sessionName (br_object_id (sr_backend current)) (sr_generation current) selected))
                  "import workspace lacks exact attached live Use" else zero in
      beginAdmitted stateRoot domainID sessionName transactionID current selected
  end.
Definition BeginImport (stateRoot domainID sessionName volumeID transactionID : string) : M B (outcome ImportJournal) :=
  let zero := zeroImportJournal in
  let* _ := guard (negb (is_ok (Domain.Parse domainID)) || negb (Workspacex.validSessionName sessionName) ||
                   negb (Workspacex.validUUID volumeID) || negb (Workspacex.validUUID transactionID))
              "invalid import request or readiness reader" else zero in
  let* _ := Acquire (Lock.transition_scope domainID sessionName) else zero in
  deferred join_outcome (Lock.transition_scope domainID sessionName) (
  let* _ := AcquireSession domainID sessionName else zero in
  deferred join_outcome (Lock.session_scope domainID sessionName) (
  let* _ := AcquireStorageOperation domainID else zero in
  deferred join_outcome (Lock.storage_scope domainID) (beginLocked stateRoot domainID sessionName volumeID transactionID))).

(** ** import_transfer.go *)

Definition admitTransferLive (stateRoot : string) (j : ImportJournal) : M B unit :=
  wrap "captured import source changed" (admitImportSnapshot stateRoot j) ;;!
  let! current := LoadRecord (ij_domain j) (ij_session_name j) in
  guard (negb (running_ready (ij_domain j) current && (sr_id current =s ij_session_id j) && (br_object_id (sr_backend current) =s ij_backend j) &&
               (sr_generation current =s ij_generation j))) "durable session differs from exact import generation" ;;!
  RequireNoRebuild (ij_domain j) (ij_session_name j) ;;!
  let! volume := LoadVolume (ij_domain j) (ij_volume j) in
  guard (negb (active_use (ij_session_id j) (ij_session_name j) (ij_backend j) (ij_generation j) volume && (vo_uuid volume =s ij_uuid j) &&
               match vo_attachment volume with Some a => at_mount a =s ij_mount j | None => false end))
        "workspace lacks exact active import Use" ;;!
  let binding := (importControlBinding j).1 in
  let! live := SupervisorSnapshot binding in
  let! now := Now in
  guard (negb (live_ready binding live now)) "fresh exact import readiness is unproven" ;;!
  contextErr.
(** Under the first storage lock: the journal to transfer under. *)
Definition transferIntent (stateRoot domainID transactionID : string) (initial : ImportJournal) : M B ImportJournal :=
  let! current := wrapv "import journal changed before transfer" (LoadImportJournal domainID transactionID) in
  guard (bool_decide (current ≠ initial)) "import journal changed before transfer" ;;!
  guard ((ij_phase current ≠s ImportCaptured) && (ij_phase current ≠s ImportTransferring)) "import is not captured or transferring" ;;!
  admitTransferLive stateRoot current ;;!
  if ij_phase current =s ImportCaptured then
    let next := set_import_phase ImportTransferring (ij_export current) current in
    advanceImportJournal stateRoot current next ;;! ret next
  else ret current.
(** Under the second one. *)
Definition transferChecked (stateRoot domainID transactionID : string) (current : ImportJournal) (result : ImportResult) : M B (outcome ImportResult) :=
  let zero := zeroImportResult in
  let* after := wrapv "import journal changed during transfer" (LoadImportJournal domainID transactionID) else zero in
  let* _ := guard (bool_decide (after ≠ current)) "import journal changed during transfer" else zero in
  let* _ := admitTransferLive stateRoot current else zero in
  let* _ := guard (negb (read_back current result)) "import readback differs from captured transaction" else zero in
  ret (result, None).
Definition TransferCapturedImport (stateRoot domainID transactionID : string) : M B (outcome ImportResult) :=
  let zero := zeroImportResult in
  let* _ := guard (negb (Workspacex.validUUID transactionID)) "invalid import transfer request" else zero in
  let* initial := LoadImportJournal domainID transactionID else zero in
  let name := ij_session_name initial in
  let* _ := Acquire (Lock.transition_scope domainID name) else zero in
  deferred join_outcome (Lock.transition_scope domainID name) (
  let* _ := AcquireSession domainID name else zero in
  deferred join_outcome (Lock.session_scope domainID name) (
  let* _ := AcquireStorageOperation domainID else zero in
  let* current := deferred_join (Lock.storage_scope domainID) (transferIntent stateRoot domainID transactionID initial) else zero in
  let '(binding, spec) := importControlBinding current in
  let* result := TransferImport binding spec else zero in
  let* _ := AcquireStorageOperation domainID else zero in
  deferred join_outcome (Lock.storage_scope domainID) (transferChecked stateRoot domainID transactionID current result))).

(** ** import_verify.go *)

Definition admitStoppedImportExport (observer : bool) (imported : ImportJournal) (exported : ExportJournal) : M B unit :=
  guard (negb (exports_import exported imported)) "published export does not bind the complete imported directory" ;;!
  let! volume := LoadVolume (ij_domain imported) (ij_volume imported) in
  guard (negb (retained volume imported exported)) "stopped export does not bind the retained workspace disk" ;;!
  let! qualified := wrap "re-admit retained import volume"
                      (Admit (mkFormatRequest (ij_domain imported) (ij_volume imported) (ij_uuid imported) (vo_size volume))) in
  CloseDisk ;;!
  guard (negb (match vo_disk volume with
               | Some d => (ql_device qualified =? di_device d) && (ql_inode qualified =? di_inode d)
               | None => false end)) "retained import disk identity changed" ;;!
  let! stopped := stoppedSession observer (ij_domain imported) (ij_session_name imported) in
  guard ((sr_id stopped ≠s ij_session_id imported) || (br_object_id (sr_backend stopped) ≠s ij_backend imported) ||
         (sr_domain stopped ≠s ij_domain imported)) "stopped session differs from import and export".
Definition publishedImportRoot (exported : ExportJournal) (importID : string) : M B string :=
  let path := ej_parent exported in
  let hex := exportTransactionHex (ej_id exported) in
  let! parent := wrapv "published export parent is not private" (stat_directory path) in
  guard (negb (fi_private parent)) "published export parent is not private" ;;!
  let! opened := wrapv "published export parent changed while opening" (stat_directory path) in
  guard (negb (SameFile parent opened)) "published export parent changed while opening" ;;!
  let! identity := wrapv "published export parent identity changed" (lift (diskIdentity opened)) in
  guard (bool_decide (identity ≠ ej_destination exported)) "published export parent identity changed" ;;!
  let! names := wrapv "published export destination is not the exact sole transaction directory"
                  (host_try (λ b, (Ok (elements (dom (in_entries path b))), b))) in
  guard (bool_decide (names ≠ [hex])) "published export destination is not the exact sole transaction directory" ;;!
  let! closed := wrapv "published export parent changed during admission" (stat_directory path) in
  guard (negb (SameFile opened closed)) "published export parent changed during admission" ;;!
  let! info := wrapv "published export transaction directory is not private" (stat_directory (path_join path [hex])) in
  guard (negb (fi_private info)) "published export transaction directory is not private" ;;!
  ret (path_join path [hex; import_root importID]).
Definition verifyLocked (observer : bool) (stateRoot domainID importID exportID : string) (initial : ImportJournal) : M B ImportJournal :=
  let! current := wrapv "import journal changed before verification" (LoadImportJournal domainID importID) in
  guard (bool_decide (current ≠ initial)) "import journal changed before verification" ;;!
  let! exported := loadExportJournal domainID exportID in
  admitStoppedImportExport observer current exported ;;!
  wrap "re-admit stopped export snapshot" (admitExactExportSnapshot exported) ;;!
  let! publishedRoot := publishedImportRoot exported (ij_id current) in
  let! snapshot := wrap "published import differs from captured source"
                     (ComparePublishedTree (imports_path stateRoot) (ij_id current) (ej_parent exported)
                        (exportTransactionHex (ej_id exported)) (import_root (ij_id current))) in
  guard ((ss_digest snapshot ≠s ij_digest current) || negb (ss_files snapshot =? ij_files current) || negb (ss_bytes snapshot =? ij_bytes current))
        "captured source differs from import journal" ;;!
  let! againPath := wrapv "published import destination changed during verification" (publishedImportRoot exported (ij_id current)) in
  guard (againPath ≠s publishedRoot) "published import destination changed during verification" ;;!
  let! again := wrapv "export evidence changed during import verification" (loadExportJournal domainID exportID) in
  guard (bool_decide (again ≠ exported)) "export evidence changed during import verification" ;;!
  admitStoppedImportExport observer current exported ;;!
  if ij_phase current =s ImportVerified then ret current
  else
    let verified := set_import_phase ImportVerified exportID current in
    advanceImportJournal stateRoot current verified ;;! ret verified.
Definition VerifyStoppedImport (observer : bool) (stateRoot domainID importID exportID : string) : M B (outcome ImportJournal) :=
  let zero := zeroImportJournal in
  let* _ := guard (negb (Workspacex.validUUID importID) || negb (Workspacex.validUUID exportID) || (importID =s exportID) || negb observer)
              "invalid stopped import verification request" else zero in
  let* initial := LoadImportJournal domainID importID else zero in
  let* _ := guard ((ij_phase initial ≠s ImportTransferring) && ((ij_phase initial ≠s ImportVerified) || (ij_export initial ≠s exportID)))
              "import is not transferring or verified by this export" else zero in
  let* _ := AcquireVolumeUse domainID (ij_volume initial) else zero in
  deferred join_outcome (Lock.volume_scope domainID (ij_volume initial)) (
  let* _ := AcquireSession domainID (ij_session_name initial) else zero in
  deferred join_outcome (Lock.session_scope domainID (ij_session_name initial)) (
  let* _ := AcquireStorageOperation domainID else zero in
  deferred join_outcome (Lock.storage_scope domainID)
    (let* journal := verifyLocked observer stateRoot domainID importID exportID initial else zero in ret (journal, None)))).
End imports.
