(* ===== verification/WorkspaceBatch.v ===== *)
(** The whole-session workspace transactions of src/internal/workspacex: the
    start batch and its verification (prepare_start.go), the release batch
    (release_uses.go), the stopped gates and deletion finalization
    (rebuild_gate.go, delete.go) and launch-disk admission (launch_disks.go).
    Each takes the volume-use locks in ascending volume order, then the session
    lock, then the storage lock. *)
From S2P Require Import Prelude Ids Json SessionRecord Outside World Host Logic SessionStore RebuildJournal WorkspaceRecord ExportJournal WorkspaceStore WorkspaceTransition.

Section batch.
Context {B : Type} {H : Host B} {E : Env}.

(** The loop that takes the volume-use locks: those obtained, in order, and
    the outcome. *)
Fixpoint acquireVolumes (domainID : string) (ids held : list string) : M B (list string * res unit) :=
  match ids with
  | [] => ret (held, Ok tt)
  | id :: rest =>
      let! r := attempt (wrap "lock workspace" (AcquireVolumeUse domainID id)) in
      match r with
      | Ok _ => acquireVolumes domainID rest (held ++ [Lock.volume_scope domainID id])
      | Er e => ret (held, Er e)
      end
  end.

(** The three-level lock nest around a batch: the volume locks are given up
    in the order [lifo] selects, each error joined into the result. *)
Definition withBatchLocks {A} (lifo : bool) (domainID name : string) (initial : list Volume) (body : M B A) : M B A :=
  let! (held, r) := acquireVolumes domainID (vo_id <$> initial) [] in
  deferred_all (if lifo then rev held else held) (
  lift r ;;!
  AcquireSession domainID name ;;!
  deferred_join (Lock.session_scope domainID name) (
  AcquireStorageOperation domainID ;;!
  deferred_join (Lock.storage_scope domainID) body)).

(** ** prepare_start.go *)

Definition start_phase_ok (p : string) : bool := (p =s RebuildCutover) || (p =s RebuildReady) || (p =s RebuildRetiring).

Definition requireStartJournal (domainID : string) (expected : SessionRecord) (rebuild : option RebuildJournal) : M B unit :=
  match rebuild with
  | None => RequireNoRebuild domainID (sr_name expected)
  | Some journal =>
      let! currentJournal := wrapv "workspace start lacks exact candidate rebuild journal"
                               (LoadRebuildJournal domainID (sr_name expected)) in
      guard (bool_decide (currentJournal ≠ journal) || negb (start_phase_ok (rj_phase currentJournal)) ||
             (rj_session_id currentJournal ≠s sr_id expected) ||
             (rj_cand_backend currentJournal ≠s br_object_id (sr_backend expected)) ||
             (rj_cand_revision currentJournal ≠s sr_golden expected))
            "workspace start lacks exact candidate rebuild journal"
  end.

(** The first pass over the attached set: every volume is idle and its disk
    still is the one the formatter qualified. *)
Fixpoint admitForStart (domainID : string) (attached : list Volume) : M B unit :=
  match attached with
  | [] => ret tt
  | record :: rest =>
      match vo_disk record with
      | None => throw (Errorf "workspace is not available for exact start")
      | Some disk =>
          guard ((vo_state record ≠s VolAvailable) || isSome (vo_pending record) || isSome (vo_use record))
                "workspace is not available for exact start" ;;!
          let! qualified := wrap "admit workspace before reservation" (Admit (volumeRequest domainID record)) in
          CloseDisk ;;!
          guard (negb (ql_device qualified =? di_device disk) || negb (ql_inode qualified =? di_inode disk))
                "workspace formatter identity changed" ;;!
          admitForStart domainID rest
      end
  end.

(** The second pass: one durable Use per volume. *)
Fixpoint writeUses (domainID : string) (use : Use) (attached : list Volume) : M B unit :=
  match attached with
  | [] => ret tt
  | record :: rest =>
      wrap "persist workspace use before starting"
        (saveRecordTransition domainID (set_use (Some use) record) mutationReserveUse) ;;!
      writeUses domainID use rest
  end.

Definition startedRecord (expected : SessionRecord) (generation : string) : SessionRecord :=
  set_readiness (mkReadiness ReadinessStarting "") (set_generation generation (set_state StateStarting expected)).
Definition sessionUse (expected : SessionRecord) (generation : string) : Use :=
  mkUse (br_kind (sr_backend expected)) (br_object_id (sr_backend expected)) generation.

Definition prepareSessionStartBody (observer : bool) (domainID : string) (expected : SessionRecord) (generation : string)
    (rebuild : option RebuildJournal) (initial : list Volume) : M B SessionRecord :=
  let! current := wrap "reload stopped session before workspace reservation" (LoadRecord domainID (sr_name expected)) in
  guard (bool_decide (current ≠ expected)) "stopped session changed before workspace reservation" ;;!
  requireStartJournal domainID expected rebuild ;;!
  let! attached := wrap "reload workspace attachments before reservation"
                     (listSessionAttachments domainID (sr_id expected) (sr_name expected)) in
  guard (bool_decide (initial ≠ attached)) "workspace attachment set changed before reservation" ;;!
  wrap "prove exact backend stopped before reservation" (observedStopped observer (br_object_id (sr_backend expected))) ;;!
  admitForStart domainID attached ;;!
  writeUses domainID (sessionUse expected generation) attached ;;!
  let started := startedRecord expected generation in
  wrap "persist starting session after workspace uses" (SaveRecord domainID started) ;;!
  ret started.

Definition prepareSessionStartJournal (observer : bool) (domainID : string) (expected : SessionRecord) (generation : string)
    (rebuild : option RebuildJournal) : M B SessionRecord :=
  guard ((sr_domain expected ≠s domainID) || negb (sr_version expected =? 2) || (sr_state expected ≠s StateStopped) ||
         (br_kind (sr_backend expected) ≠s "tart") || negb (Workspacex.validUUID (sr_id expected)) ||
         negb (Workspacex.validSessionName (sr_name expected)) ||
         negb (Workspacex.validObjectID (br_object_id (sr_backend expected))) || negb (Workspacex.validUUID generation))
        "invalid stopped session or generation" ;;!
  let! initial := ListSessionAttachments domainID (sr_id expected) (sr_name expected) in
  withBatchLocks false domainID (sr_name expected) initial
    (prepareSessionStartBody observer domainID expected generation rebuild initial).
Definition PrepareSessionStart (observer : bool) (domainID : string) (expected : SessionRecord) (generation : string) :=
  prepareSessionStartJournal observer domainID expected generation None.
Definition PrepareRebuildSessionStart (observer : bool) (domainID : string) (expected : SessionRecord) (generation : string)
    (journal : RebuildJournal) := prepareSessionStartJournal observer domainID expected generation (Some journal).

Fixpoint allUsed (want : Use) (attached : list Volume) : M B unit :=
  match attached with
  | [] => ret tt
  | record :: rest =>
      guard ((vo_state record ≠s VolAvailable) || isNone (vo_disk record) || isSome (vo_pending record) ||
             bool_decide (vo_use record ≠ Some want)) "workspace lacks exact session use" ;;!
      allUsed want rest
  end.
Definition VerifySessionUses (domainID : string) (expected : SessionRecord) : M B unit :=
  guard ((sr_domain expected ≠s domainID) || ((sr_state expected ≠s StateStarting) && (sr_state expected ≠s StateRunning)) ||
         negb (Workspacex.validUUID (sr_id expected)) || negb (Workspacex.validUUID (sr_generation expected)) ||
         negb (Workspacex.validSessionName (sr_name expected))) "invalid exact session use binding" ;;!
  AcquireStorageOperation domainID ;;!
  deferred_ignore (Lock.storage_scope domainID) (
  let! current := LoadRecord domainID (sr_name expected) in
  guard (bool_decide (current ≠ expected)) "session changed before exact use verification" ;;!
  let! attached := listSessionAttachments domainID (sr_id expected) (sr_name expected) in
  allUsed (sessionUse expected (sr_generation expected)) attached).

(** ** release_uses.go *)

Fixpoint releasable (expected : SessionRecord) (attached : list Volume) : M B unit :=
  match attached with
  | [] => ret tt
  | record :: rest =>
      guard ((vo_state record ≠s VolAvailable) || isSome (vo_pending record) || isNone (vo_disk record))
            "workspace is not releasable" ;;!
      match vo_use record with
      | None => ret tt
      | Some use =>
          guard ((us_kind use ≠s br_kind (sr_backend expected)) || (us_object use ≠s br_object_id (sr_backend expected)) ||
                 ((sr_state expected =s StateStopping) && (us_generation use ≠s sr_generation expected)))
                "workspace has foreign or inexact use"
      end ;;!
      releasable expected rest
  end.
Fixpoint writeReleases (domainID : string) (attached : list Volume) : M B unit :=
  match attached with
  | [] => ret tt
  | record :: rest =>
      match vo_use record with
      | None => ret tt
      | Some _ => wrap "persist workspace use release"
                    (saveRecordTransition domainID (set_use None record) mutationReleaseUse)
      end ;;!
      writeReleases domainID rest
  end.
Definition releaseSessionUses (observer : bool) (domainID : string) (expected : SessionRecord) : M B unit :=
  guard ((sr_domain expected ≠s domainID) || ((sr_state expected ≠s StateStopping) && (sr_state expected ≠s StateStopped)) ||
         (br_kind (sr_backend expected) ≠s "tart") || negb (Workspacex.validObjectID (br_object_id (sr_backend expected))) ||
         negb (Workspacex.validUUID (sr_id expected)) || negb (Workspacex.validSessionName (sr_name expected)) ||
         ((sr_state expected =s StateStopping) && negb (Workspacex.validUUID (sr_generation expected))) ||
         ((sr_state expected =s StateStopped) && (sr_generation expected ≠s "")))
        "invalid stopped or stopping session use binding" ;;!
  let! initial := ListSessionAttachments domainID (sr_id expected) (sr_name expected) in
  withBatchLocks false domainID (sr_name expected) initial (
  let! current := wrap "reload session before use release" (LoadRecord domainID (sr_name expected)) in
  guard (bool_decide (current ≠ expected)) "session changed before workspace use release" ;;!
  let! attached := listSessionAttachments domainID (sr_id expected) (sr_name expected) in
  guard (bool_decide (initial ≠ attached)) "workspace attachment set changed before use release" ;;!
  wrap "prove exact backend stopped before use release" (observedStopped observer (br_object_id (sr_backend expected))) ;;!
  releasable expected attached ;;!
  writeReleases domainID attached).
Definition ReleaseSessionUses := releaseSessionUses.

(** ** rebuild_gate.go *)

Definition idleFor (expected : SessionRecord) (volume : Volume) : bool :=
  (vo_state volume =s VolAvailable) && isSome (vo_disk volume) && isNone (vo_pending volume) && isNone (vo_use volume) &&
  match vo_attachment volume with
  | Some a => (at_session_id a =s sr_id expected) && (at_session_name a =s sr_name expected)
  | None => false
  end.
Fixpoint allIdle (expected : SessionRecord) (attached : list Volume) : M B unit :=
  match attached with
  | [] => ret tt
  | volume :: rest => guard (negb (idleFor expected volume)) "workspace is not idle for rebuild" ;;! allIdle expected rest
  end.

Definition WithStoppedRebuildGate {A} (observer : bool) (domainID : string) (expected : SessionRecord) (reserve : M B A) : M B A :=
  guard ((sr_domain expected ≠s domainID) || negb (sr_version expected =? 2) || (sr_state expected ≠s StateStopped) ||
         (br_kind (sr_backend expected) ≠s "tart") || negb (Workspacex.validUUID (sr_id expected)) ||
         negb (Workspacex.validSessionName (sr_name expected)) ||
         negb (Workspacex.validObjectID (br_object_id (sr_backend expected))) || (sr_generation expected ≠s ""))
        "invalid stopped rebuild reservation" ;;!
  let! initial := ListSessionAttachments domainID (sr_id expected) (sr_name expected) in
  withBatchLocks true domainID (sr_name expected) initial (
  let! current := wrapv "session changed before rebuild reservation" (LoadRecord domainID (sr_name expected)) in
  guard (bool_decide (current ≠ expected)) "session changed before rebuild reservation" ;;!
  RequireNoRebuild domainID (sr_name expected) ;;!
  let! attached := wrapv "workspace attachment set changed before rebuild reservation"
                     (listSessionAttachments domainID (sr_id expected) (sr_name expected)) in
  guard (bool_decide (initial ≠ attached)) "workspace attachment set changed before rebuild reservation" ;;!
  wrap "prove old system stopped for rebuild" (observedStopped observer (br_object_id (sr_backend expected))) ;;!
  allIdle expected attached ;;!
  reserve).

(** ** delete.go *)

Definition admitRetainedVolume (domainID : string) (volume : Volume) : M B unit :=
  match vo_disk volume with
  | None => throw (Errorf "workspace has no recorded disk identity")
  | Some disk =>
      let! qualified := wrap "admit retained workspace" (Admit (volumeRequest domainID volume)) in
      if (ql_domain qualified ≠s domainID) || (ql_volume qualified ≠s vo_id volume) || (ql_uuid qualified ≠s vo_uuid volume) ||
         negb (ql_size qualified =? vo_size volume) || negb (ql_device qualified =? di_device disk) ||
         negb (ql_inode qualified =? di_inode disk)
      then throw_join (Errorf "workspace disk differs from formatter proof") CloseDisk
      else CloseDisk
  end.
Fixpoint admitRetained (domainID : string) (attached : list Volume) : M B unit :=
  match attached with
  | [] => ret tt
  | volume :: rest => admitRetainedVolume domainID volume ;;! admitRetained domainID rest
  end.

Definition WithStoppedDeleteGate {A} (observer : bool) (domainID : string) (expected : SessionRecord) (reserve : M B A) : M B A :=
  WithStoppedRebuildGate observer domainID expected (
  let! attached := listSessionAttachments domainID (sr_id expected) (sr_name expected) in
  admitRetained domainID attached ;;!
  reserve).

Fixpoint allRetained (domainID : string) (expected : SessionRecord) (attached : list Volume) : M B unit :=
  match attached with
  | [] => ret tt
  | volume :: rest =>
      guard (negb (idleFor expected volume)) "workspace is not idle for deleted session" ;;!
      admitRetainedVolume domainID volume ;;!
      allRetained domainID expected rest
  end.
Fixpoint detachAll (domainID : string) (attached : list Volume) : M B unit :=
  match attached with
  | [] => ret tt
  | volume :: rest =>
      wrap "detach retained workspace" (saveRecordTransition domainID (set_attachment None volume) mutationDetach) ;;!
      detachAll domainID rest
  end.

Definition FinalizeDeletedSession (observer : bool) (domainID : string) (expected : SessionRecord) : M B unit :=
  guard ((sr_domain expected ≠s domainID) || negb (sr_version expected =? 2) || (sr_state expected ≠s StateDeleting) ||
         (br_kind (sr_backend expected) ≠s "tart") || negb (Workspacex.validUUID (sr_id expected)) ||
         negb (Workspacex.validSessionName (sr_name expected)) ||
         negb (Workspacex.validObjectID (br_object_id (sr_backend expected))) || (sr_generation expected ≠s "") || negb observer)
        "invalid deleted session finalization" ;;!
  let! initial := ListSessionAttachments domainID (sr_id expected) (sr_name expected) in
  withBatchLocks true domainID (sr_name expected) initial (
  let! current := wrapv "deleting session changed before finalization" (LoadRecord domainID (sr_name expected)) in
  guard (bool_decide (current ≠ expected)) "deleting session changed before finalization" ;;!
  RequireNoRebuild domainID (sr_name expected) ;;!
  let! attached := wrapv "workspace attachment set changed before deletion finalization"
                     (listSessionAttachments domainID (sr_id expected) (sr_name expected)) in
  guard (bool_decide (initial ≠ attached)) "workspace attachment set changed before deletion finalization" ;;!
  let! observation := wrapv "deleted backend is not exactly absent" (Observe (br_object_id (sr_backend expected))) in
  guard (negb (exactly_absent observation (br_object_id (sr_backend expected)))) "deleted backend is not exactly absent" ;;!
  allRetained domainID expected attached ;;!
  detachAll domainID attached ;;!
  let! remaining := wrapv "workspace attachments remain after deletion"
                      (listSessionAttachments domainID (sr_id expected) (sr_name expected)) in
  guard (negb (length remaining =? 0)%nat) "workspace attachments remain after deletion" ;;!
  wrap "sync retained workspace registry" (fs_sync Workspaces) ;;!
  RemoveDeletingRecordLocked expected).

(** ** launch_disks.go *)

(** [errors.Join(err, held.Release())] over a list of locks. *)
Fixpoint releaseEach (scopes : list string) (err : error) : M B error :=
  match scopes with
  | [] => ret err
  | s :: rest =>
      let! r := attempt (Release s) in
      releaseEach rest (match r with Ok _ => err | Er e => join_err err e end)
  end.
Definition releaseBoth (first second : string) : M B unit :=
  let! a := attempt (Release first) in
  let! b := attempt (Release second) in
  match a, b with
  | Ok _, Ok _ => ret tt
  | Er e, Ok _ | Ok _, Er e => throw e
  | Er e, Er e2 => throw (join_err e e2)
  end.

Fixpoint admitDisks (domainID : string) (expected : SessionRecord) (want : Use) (attached : list Volume) : M B (list nat) :=
  match attached with
  | [] => ret []
  | record :: rest =>
      match vo_disk record with
      | None => throw (Errorf "workspace lacks exact starting-generation use")
      | Some recorded =>
          guard ((vo_state record ≠s VolAvailable) || isSome (vo_pending record) || bool_decide (vo_use record ≠ Some want))
                "workspace lacks exact starting-generation use" ;;!
          let! qualified := wrap "admit workspace formatter proof" (Admit (volumeRequest domainID record)) in
          if (ql_domain qualified ≠s domainID) || (ql_volume qualified ≠s vo_id record) || (ql_uuid qualified ≠s vo_uuid record) ||
             negb (ql_size qualified =? vo_size record) || negb (ql_device qualified =? di_device recorded) ||
             negb (ql_inode qualified =? di_inode recorded)
          then
            throw_join (Errorf "workspace disk identity differs from formatter proof") CloseDisk
          else
            let! pinned := attempt (host_ask (host_NewManagedDisk (vo_id record) (br_object_id (sr_backend expected))
                                                (sr_generation expected))) in
            match pinned with
            | Er e => throw_join (wrapw "pin workspace disk lease" e) CloseDisk
            | Ok disk =>
                let! disks := admitDisks domainID expected want rest in
                ret (disk :: disks)
            end
      end
  end.

Definition AdmitLaunchDisks (observer : bool) (domainID : string) (expected : SessionRecord) : M B (option nat) :=
  let session := Lock.session_scope domainID (sr_name expected) in
  let storage := Lock.storage_scope domainID in
  guard ((sr_domain expected ≠s domainID) || (sr_state expected ≠s StateStarting) || (br_kind (sr_backend expected) ≠s "tart") ||
         negb (Workspacex.validUUID (sr_id expected)) || negb (Workspacex.validUUID (sr_generation expected)) ||
         negb (Workspacex.validSessionName (sr_name expected))) "invalid exact starting session binding" ;;!
  let! initial := ListSessionAttachments domainID (sr_id expected) (sr_name expected) in
  let! (held, r) := acquireVolumes domainID (vo_id <$> initial) [] in
  let! outcome := attempt (
    lift r ;;!
    AcquireSession domainID (sr_name expected) ;;!
    deferred_ignore session (
    AcquireStorageOperation domainID ;;!
    deferred_ignore storage (
    let! current := wrap "reload starting session before workspace admission" (LoadRecord domainID (sr_name expected)) in
    guard (bool_decide (current ≠ expected)) "starting session changed before workspace admission" ;;!
    let! attached := wrap "reload workspace attachments before launch"
                       (listSessionAttachments domainID (sr_id expected) (sr_name expected)) in
    guard (bool_decide (initial ≠ attached)) "workspace attachment set changed before launch admission" ;;!
    (if (0 <? length attached)%nat
     then wrap "prove exact backend stopped before workspace launch" (observedStopped observer (br_object_id (sr_backend expected)))
     else ret tt) ;;!
    let! disks := admitDisks domainID expected (sessionUse expected (sr_generation expected)) attached in
    if (length disks =? 0)%nat then releaseBoth storage session ;;! ret None
    else
      let! set := host_ask (host_NewManagedDiskSet disks) in
      releaseBoth storage session ;;!
      ret (Some set)))) in
  match outcome with
  | Ok set => ret set
  | Er e =>
      (* closing a pinned disk gives up the volume lock it owns *)
      let! e' := releaseEach held e in
      throw e'
  end.
End batch.

(** ** Lemmas *)

Section lemmas.
Context {B : Type} {H : Host B} {E : Env}.
Implicit Types (w : world B) (P : stepP).

(** The volume locks of a batch, as they are held: newest first. *)
Definition volume_locks (dom : string) (ids : list string) : list string := rev (Lock.volume_scope dom <$> ids).

Lemma wp_acquireVolumes P dom ids held (Q : res (list string * res unit) → world B → Prop) w :
  lock_free P →
  (∀ got r w', w_locks w' = rev got ++ w_locks w → (∀ s, s ∈ got → s ∉ w_locks w) → NoDup got → w_host w' = w_host w →
     (is_ok r = true → got = Lock.volume_scope dom <$> ids) → left_alone (w_disk w) (w_disk w') → Q (Ok (held ++ got, r)) w') →
  wp P (acquireVolumes dom ids held) Q w.
Proof.
  intros HP. revert held w. induction ids as [|id ids IH]; intros held w HQ; cbn [acquireVolumes].
  { apply wp_ret. specialize (HQ [] (Ok tt) w). rewrite app_nil_r in HQ. apply HQ; try done; [|constructor].
    intros s Hs. by apply not_elem_of_nil in Hs. }
  apply wp_bind, wp_attempt, wp_wrap, wp_AcquireVolumeUse; [done| |].
  - intros w1 Htk. pose proof (took_left_alone _ _ _ Htk) as Hk. destruct Htk as [Hf Hl Hh _ _].
    apply IH. intros got r w' Hl' Hn Hnd Hh' Hr Hk'.
    rewrite <-app_assoc. cbn [app]. apply HQ.
    + rewrite Hl', Hl. cbn [rev]. by rewrite <-app_assoc.
    + intros s [->|Hs]%elem_of_cons; [done|]. specialize (Hn s Hs). rewrite Hl in Hn. set_solver.
    + constructor; [|done]. intros Hs. apply (Hn _ Hs). rewrite Hl. set_solver.
    + congruence.
    + intros Hok. rewrite Hr by done. done.
    + by eapply left_alone_trans.
  - intros e n. apply wp_ret. specialize (HQ [] (Er (wrapw "lock workspace" e)) (retick n w)). rewrite app_nil_r in HQ.
    apply HQ; try done; [|constructor]. intros s Hs. by apply not_elem_of_nil in Hs.
Qed.

(** The batch: whatever happens, every lock taken is given up, and the body
    runs with all of them. *)
Lemma wp_withBatchLocks {A} P lifo dom name initial (body : M B A) (Q : res A → disk → B → Prop) w :
  lock_free P → closed join_release Q → (∀ e d, Q (Er e) d (w_host w)) →
  (∀ w1, w_locks w1 = Lock.storage_scope dom :: Lock.session_scope dom name :: volume_locks dom (vo_id <$> initial) ++ w_locks w →
     w_host w1 = w_host w → left_alone (w_disk w) (w_disk w1) → wp P body (leaves (w_locks w1) Q) w1) →
  wp P (withBatchLocks lifo dom name initial body) (leaves (w_locks w) Q) w.
Proof.
  intros HP HQ He Hbody. unfold withBatchLocks. apply wp_bind, wp_acquireVolumes; [done|].
  intros got r w1 Hl Hn Hnd Hh Hr Hk. cbn [app].
  assert (filter (λ s, s ∉ (if lifo then rev got else got)) (rev got ++ w_locks w) = w_locks w) as Hfilter.
  { assert (∀ s, s ∈ (if lifo then rev got else got) ↔ s ∈ got) as Hin
      by (intros s; destruct lifo; [by rewrite !list_elem_of_In, <-in_rev|done]).
    apply filter_drop.
    - intros s Hs Hn'. apply Hn', Hin. by rewrite list_elem_of_In, in_rev, <-list_elem_of_In.
    - intros s Hs Hs'%Hin. by apply (Hn s). }
  rewrite <-Hfilter. apply wp_deferred_all; [done..|].
  apply wp_bind, wp_lift. destruct r as [[]|e]; [|split; [done|by rewrite Hh]].
  specialize (Hr eq_refl). apply wp_bind, wp_AcquireSession; [done| |intros e n; split; [done|cbn; by rewrite Hh]].
  intros w2 Htk2. pose proof (took_left_alone _ _ _ Htk2) as Hk2. destruct Htk2 as [Hf2 Hl2 Hh2 _ _].
  rewrite <-Hl. apply wp_deferred_leaves; [done..|].
  apply wp_bind, wp_AcquireStorage; [done| |intros e n; split; [done|cbn; rewrite Hh2, Hh; done]].
  intros w3 Htk3. pose proof (took_left_alone _ _ _ Htk3) as Hk3. destruct Htk3 as [Hf3 Hl3 Hh3 _ _].
  rewrite <-Hl2. apply wp_deferred_leaves; [done..|].
  rewrite <-Hl3. apply Hbody; [|congruence|by eapply left_alone_trans, left_alone_trans]. rewrite Hl3, Hl2, Hl, Hr. done.
Qed.

(** Fit to be given a use: available, idle, its disk recorded. *)
Definition startable (v : Volume) : Prop :=
  vo_state v = VolAvailable ∧ isSome (vo_disk v) = true ∧ vo_pending v = None ∧ vo_use v = None.
Lemma wp_admitForStart P dom l (Q : res unit → world B → Prop) w :
  (∀ w', same w w' → Forall startable l → Q (Ok tt) w') → (∀ e w', same w w' → Q (Er e) w') →
  wp P (admitForStart dom l) Q w.
Proof.
  revert w. induction l as [|v l IH]; intros w H1 H2; cbn [admitForStart].
  { apply wp_ret, H1; [done|constructor]. }
  destruct (vo_disk v) as [d|] eqn:Ed; [|by apply wp_throw, H2].
  wp_guard as Hg by (by apply H2). rewrite !orb_false_iff, !negb_false_iff, String.eqb_eq in Hg. destruct Hg as [[Hs Hp] Hu].
  apply wp_bind, wp_wrap, wp_Admit. intros [q|e] w1 Hw1; [|by apply H2].
  apply wp_bind, wp_CloseDisk. intros [[]|e] w2 Hw2; [|by eapply H2, same_trans].
  wp_guard as _ by (by eapply H2, same_trans).
  apply IH.
  - intros w' Hw' Hl. apply H1; [by repeat (eapply same_trans; [done|])|]. constructor; [|done].
    unfold startable. rewrite Ed. by destruct (vo_pending v), (vo_use v).
  - intros e w' Hw'. apply H2. by repeat (eapply same_trans; [done|]).
Qed.

(** *** The loops that rewrite the volumes of a batch one by one *)
Fixpoint rewriteVolumes (dom msg : string) (f : Volume → Volume) (sel : Volume → bool) (mutation : mutationKind)
    (l : list Volume) : M B unit :=
  match l with
  | [] => ret tt
  | v :: rest =>
      (if sel v then wrap msg (saveRecordTransition dom (f v) mutation) else ret tt) ;;!
      rewriteVolumes dom msg f sel mutation rest
  end.
Lemma writeUses_rewrite dom use l :
  writeUses dom use l = rewriteVolumes dom "persist workspace use before starting" (set_use (Some use)) (λ _, true) mutationReserveUse l.
Proof. induction l as [|v l IH]; [done|]. cbn. by rewrite IH. Qed.
Lemma writeReleases_rewrite dom l :
  writeReleases dom l = rewriteVolumes dom "persist workspace use release" (set_use None) (λ v, isSome (vo_use v)) mutationReleaseUse l.
Proof. induction l as [|v l IH]; [done|]. cbn. rewrite IH. by destruct (vo_use v). Qed.
Lemma detachAll_rewrite dom l :
  detachAll dom l = rewriteVolumes dom "detach retained workspace" (set_attachment None) (λ _, true) mutationDetach l.
Proof. induction l as [|v l IH]; [done|]. cbn. by rewrite IH. Qed.

(** Every volume on disk is still to be rewritten, and then as expected, or is
    as it should become. *)
Definition rewritten_but (dom : string) (G R : Volume → Prop) (rest : list Volume) (k : disk) : Prop :=
  (∀ v, v ∈ rest → volume_at dom (vo_id v) k = Some v ∧ G v) ∧
  (∀ id v, volume_at dom id k = Some v → v ∈ rest ∨ R v).
(** Nothing but the rewriting happened to the volumes. *)
Definition rewritten (dom : string) (f : Volume → Volume) (l : list Volume) (k k' : disk) : Prop :=
  (∀ d name, d ≠ Workspaces → k' !! (d, name) = k !! (d, name)) ∧
  ∀ id, volume_at dom id k' = volume_at dom id k ∨ ∃ v, v ∈ l ∧ vo_id v = id ∧ volume_at dom id k' = Some (f v).

Section rewriting.
Context (dom msg : string) (f : Volume → Volume) (sel : Volume → bool) (mutation : mutationKind) (G R : Volume → Prop).
Context (f_id : ∀ v, vo_id (f v) = vo_id v) (f_ints : ∀ v, volume_ints v = true → volume_ints (f v) = true).
Context (f_R : ∀ v, G v → sel v = true → R (f v)) (skip_R : ∀ v, G v → sel v = false → R v).

Lemma rewritten_step v rest k :
  NoDup (vo_id <$> v :: rest) → sel v = true → volume_ok dom (f v) →
  rewritten_but dom G R (v :: rest) k → rewritten_but dom G R rest (volume_disk (f v) k).
Proof.
  intros Hnd Hs Hok [H1 H2]. apply NoDup_cons in Hnd as [Hn _].
  destruct (H1 v) as [Hat HG]; [by apply elem_of_cons; left|]. pose proof (volume_at_ok _ _ _ _ Hat) as (_ & _ & Hi).
  assert (∀ id, vo_id v ≠ id → volume_at dom id (volume_disk (f v) k) = volume_at dom id k) as Hne
    by (intros id Hne; apply (volume_at_written_ne dom (f v)); by rewrite f_id).
  split.
  - intros x Hx. rewrite Hne; [by apply H1; apply elem_of_cons; right|]. intros Heq. apply Hn. rewrite Heq. by apply list_elem_of_fmap_2.
  - intros id x Hx. destruct (decide (vo_id v = id)) as [<-|Hd].
    + rewrite <-(f_id v) in Hx. unfold volume_disk in Hx. rewrite volume_at_written in Hx by auto. injection Hx as <-. right. auto.
    + rewrite Hne in Hx by done. destruct (H2 _ _ Hx) as [[->|Hr]%elem_of_cons|Hu]; [|by left|by right].
      exfalso. apply Hd. by apply volume_at_ok in Hx as (-> & _).
Qed.
Lemma rewritten_skip v rest k :
  sel v = false → rewritten_but dom G R (v :: rest) k → rewritten_but dom G R rest k.
Proof.
  intros Hs [H1 H2]. split; [intros x Hx; by apply H1; apply elem_of_cons; right|].
  intros id x Hx. destruct (H2 _ _ Hx) as [[->|Hr]%elem_of_cons|Hu]; [|by left|by right].
  right. apply skip_R; [|done]. by apply H1, elem_of_cons; left.
Qed.

Lemma wp_rewriteVolumes P l (Q : res unit → world B → Prop) w :
  NoDup (vo_id <$> l) → rewritten_but dom G R l (w_disk w) →
  (∀ v w', v ∈ l → sel v = true → w_locks w' = w_locks w → (∀ X, recently X (w_trace w) → recently X (w_trace w')) →
     (∀ d name, d ≠ Workspaces → w_disk w' !! (d, name) = w_disk w !! (d, name)) → volume_at dom (vo_id v) (w_disk w') = Some v → G v →
     (∀ id x, volume_at dom id (w_disk w') = Some x → G x ∨ R x) →
     P (w_trace w') (Step (volume_event (f v)) (w_disk w') (volume_disk (f v) (w_disk w')) (w_locks w'))) →
  (∀ w', w_locks w' = w_locks w → w_host w' = w_host w → (∀ X, recently X (w_trace w) → recently X (w_trace w')) →
     rewritten dom f l (w_disk w) (w_disk w') → rewritten_but dom G R [] (w_disk w') → Q (Ok tt) w') →
  (∀ e w', w_locks w' = w_locks w → w_host w' = w_host w → Q (Er e) w') →
  wp P (rewriteVolumes dom msg f sel mutation l) Q w.
Proof.
  revert w. induction l as [|v l IH]; intros w Hnd Hu HP H1 H2; cbn [rewriteVolumes].
  { apply wp_ret, H1; try done. split; [done|]. by left. }
  assert (v ∈ v :: l) as Hv by (by apply elem_of_cons; left). pose proof Hnd as [_ Hnd']%NoDup_cons.
  destruct (proj1 Hu v Hv) as (Hat & HG). destruct (sel v) eqn:Hs; apply wp_bind.
  2:{ apply wp_ret, IH; [done|by eapply rewritten_skip| | |done].
      - intros v' w' Hv'. apply HP. by apply elem_of_cons; right.
      - intros w' Hl Hh Hr [Hd Hw] Hb. apply H1; try done. split; [done|]. intros id. destruct (Hw id) as [|(v' & ? & ?)]; [by left|].
        right. exists v'. split; [by apply elem_of_cons; right|done]. }
  apply wp_wrap, wp_saveTransition; [|intros e n; by apply H2].
  intros [Hok _ _ _]. split.
  { apply HP; try done. intros id x Hx. destruct (proj2 Hu id x Hx) as [Hin|HR]; [left; by apply (proj1 Hu)|by right]. } intros [[]|e] n; [|by apply H2]. cbn beta iota.
  assert (∀ X, recently X (w_trace w) → recently X (w_trace (did (volume_event (f v)) (volume_disk (f v) (w_disk w)) (retick n w)))) as Hrec
    by (intros X HX; apply recently_cons; [intros sc Hsc; discriminate Hsc|done]).
  assert (∀ d name, d ≠ Workspaces → volume_disk (f v) (w_disk w) !! (d, name) = w_disk w !! (d, name)) as Hother
    by (intros d name Hd; unfold volume_disk; rewrite lookup_insert_ne; [done|by intros [= <- _]]).
  apply IH; [done|by apply rewritten_step|..].
  - intros v' w' Hv' Hs' Hl Hr Hd. apply HP; [by apply elem_of_cons; right|done|done|auto|].
    intros d name Hne. by rewrite Hd, <-Hother by done.
  - intros w' Hl Hh Hr [Hd Hw] Hb. apply H1; auto. split; [intros d name Hne; by rewrite Hd, <-Hother by done|].
    intros id. destruct (Hw id) as [->|(v' & Hv' & Hx)]; [|right; exists v'; split; [by apply elem_of_cons; right|done]].
    destruct (decide (vo_id v = id)) as [<-|Hne].
    + right. exists v. split_and!; [done|done|]. rewrite <-(f_id v). apply volume_at_written; [done|].
      apply f_ints. by apply volume_at_ok in Hat as (_ & _ & ?).
    + left. apply (volume_at_written_ne dom (f v)). by rewrite f_id.
  - intros e w' Hl Hh. by apply H2.
Qed.
End rewriting.

Lemma volume_locks_held dom l v L : v ∈ l → Lock.volume_scope dom (vo_id v) ∈ volume_locks dom (vo_id <$> l) ++ L.
Proof.
  intros Hv. apply elem_of_app. left. unfold volume_locks. rewrite list_elem_of_In, <-in_rev, <-list_elem_of_In.
  by apply list_elem_of_fmap_2, list_elem_of_fmap_2.
Qed.

(** The journal gate of a start: no rebuild, or exactly the candidate's. *)
Definition start_gate (dom : string) (expected : SessionRecord) (rebuild : option RebuildJournal) (k : disk) : Prop :=
  match rebuild with
  | None => k !! (Rebuilds, json_name (sr_name expected)) = None
  | Some j => journal_at dom (sr_name expected) k = Some j ∧ start_phase_ok (rj_phase j) = true ∧
              rj_session_id j = sr_id expected ∧ rj_cand_backend j = br_object_id (sr_backend expected)
  end.
Lemma session_at_frame dom name (k k' : disk) :
  (∀ d n, d ≠ Workspaces → k' !! (d, n) = k !! (d, n)) → session_at dom name k' = session_at dom name k.
Proof. intros Hk. apply view_ext. by rewrite Hk. Qed.
Lemma start_gate_frame dom expected rebuild (k k' : disk) :
  (∀ d n, d ≠ Workspaces → k' !! (d, n) = k !! (d, n)) → start_gate dom expected rebuild k → start_gate dom expected rebuild k'.
Proof.
  intros Hk. unfold start_gate. destruct rebuild as [j|]; [|by rewrite Hk].
  intros [Hj Hg]. split; [|done]. unfold journal_at in *. rewrite <-Hj. apply view_ext. by rewrite Hk.
Qed.
Lemma quiet_requireStartJournal dom expected rebuild : quiet (requireStartJournal dom expected rebuild : M B _).
Proof. unfold requireStartJournal. quiet_tac. Qed.
#[local] Hint Resolve quiet_requireStartJournal : quiet.
Lemma requireStartJournal_ok dom expected rebuild w u w' :
  requireStartJournal dom expected rebuild w = (Ok u, w') → start_gate dom expected rebuild (w_disk w).
Proof.
  unfold requireStartJournal. destruct rebuild as [j|]; [|apply RequireNoRebuild_ok]. intros Hr. ok_inv.
  apply LoadRebuildJournal_ok in Ha. rewrite !orb_false_iff, !negb_false_iff, bool_decide_eq_false, !String.eqb_eq in Hr.
  destruct Hr as [[[[Hj Hp] Hs] Hb] _]. apply dec_stable in Hj. subst. done.
Qed.

Definition start_steps (dom : string) (expected : SessionRecord) (generation : string) (rebuild : option RebuildJournal)
    (o : list step) (s : step) : Prop :=
  let obj := br_object_id (sr_backend expected) in
  let use := sessionUse expected generation in
  match st_event s with
  | EvAcquire _ | EvRelease _ => True
  | EvObserve id _ => id = obj
  | EvPublish Workspaces _ _ =>
      batch_held dom (sr_name expected) (st_locks s) ∧ recently (observed_stopped obj) o ∧
      session_at dom (sr_name expected) (st_before s) = Some expected ∧ sr_state expected = StateStopped ∧
      start_gate dom expected rebuild (st_before s) ∧
      (∃ v, rewrites dom (set_use (Some use)) v s ∧ startable v ∧ attached_to (sr_id expected) (sr_name expected) v) ∧
      ∀ id v, volume_at dom id (st_before s) = Some v → attached_to (sr_id expected) (sr_name expected) v →
        startable v ∨ vo_use v = Some use
  | EvPublish Sessions name _ =>
      name = json_name (sr_name expected) ∧
      batch_held dom (sr_name expected) (st_locks s) ∧ recently (observed_stopped obj) o ∧
      session_at dom (sr_name expected) (st_before s) = Some expected ∧ sr_state expected = StateStopped ∧
      session_at dom (sr_name expected) (st_disk s) = Some (startedRecord expected generation) ∧
      start_gate dom expected rebuild (st_disk s) ∧
      ∀ id v, volume_at dom id (st_disk s) = Some v → attached_to (sr_id expected) (sr_name expected) v → vo_use v = Some use
  | _ => False
  end.
Definition started_disk (dom : string) (expected : SessionRecord) (generation : string) (k : disk) : Prop :=
  session_at dom (sr_name expected) k = Some (startedRecord expected generation) ∧
  ∀ id v, volume_at dom id k = Some v → attached_to (sr_id expected) (sr_name expected) v →
    vo_use v = Some (sessionUse expected generation).

Lemma wp_prepareBody observer dom expected generation rebuild initial L w :
  sr_version expected = 2 → sr_state expected = StateStopped →
  w_locks w = Lock.storage_scope dom :: Lock.session_scope dom (sr_name expected) :: volume_locks dom (vo_id <$> initial) ++ L →
  wp (start_steps dom expected generation rebuild) (prepareSessionStartBody observer dom expected generation rebuild initial)
     (leaves (w_locks w) (λ r k _, ∀ a, r = Ok a → a = startedRecord expected generation ∧ started_disk dom expected generation k)) w.
Proof.
  intros Hver Hstopped HL. unfold prepareSessionStartBody.
  wp_read as cur n1 Hcur by by_error. apply LoadRecord_ok in Hcur.
  wp_guard as Heq%bool_decide_eq_false by by_error. apply dec_stable in Heq as ->.
  wp_read as u n2 Hgate by by_error. apply requireStartJournal_ok in Hgate.
  wp_read as att n3 Hatt by by_error. apply listSessionAttachments_ok in Hatt as [Hatt _].
  wp_guard as Hsame%bool_decide_eq_false by by_error. apply dec_stable in Hsame as <-. cbn [w_disk retick] in *.
  apply wp_bind, wp_wrap, wp_observedStopped; [done| |by split]. intros s b Hobs. cbn [w_locks w_trace w_disk retick w_tick].
  apply wp_bind, wp_admitForStart; [|intros e w' [_ Hl _]; by split]. intros w1 [Hd1 Hl1 Ht1] Hst. cbn [w_disk w_locks w_trace] in *.
  assert (batch_held dom (sr_name expected) (w_locks w)) as Hheld by (rewrite HL; split; set_solver).
  set (use := sessionUse expected generation).
  apply wp_bind. rewrite writeUses_rewrite. apply (wp_rewriteVolumes dom _ _ _ _ (λ v, attached_to (sr_id expected) (sr_name expected) v ∧ startable v)
    (λ v, attached_to (sr_id expected) (sr_name expected) v → vo_use v = Some use)); [done..| | | | |].
  - by apply ats_nodup in Hatt.
  - rewrite Hd1. split.
    + intros v Hv. destruct (ats_in _ _ _ _ _ Hatt v Hv). rewrite Forall_forall in Hst. auto.
    + intros id v Hv. destruct (decide (v ∈ initial)) as [|Hn]; [by left|]. right. intros (a & Ha & Hs & _).
      exfalso. apply Hn. eapply ats_all; eauto.
  - intros v w' Hv _ Hl Hr Hd Hat [Hto Hsv] Hall. unfold start_steps. cbn [st_event volume_event st_locks st_before]. rewrite Hl, Hl1.
    rewrite Hd1 in Hd. split_and!; [apply Hheld..|apply Hr; rewrite Ht1; by apply recently_here| |done| | |].
    + rewrite <-Hcur. by apply session_at_frame.
    + by eapply start_gate_frame.
    + exists v. split_and!; [|done|done]. constructor; [done|done|done|]. cbn [st_locks]. rewrite HL.
      apply elem_of_cons. right. apply elem_of_cons. right. by apply volume_locks_held.
    + intros id x Hx Hto'. destruct (Hall id x Hx) as [[_ ?]|Hu]; [by left|right; by apply Hu].
  - intros w' Hl Hh Hr [Hd _] Hused. cbv zeta. rewrite Hd1 in Hd.
    assert (start_gate dom expected rebuild (w_disk w')) as Hgate' by by eapply start_gate_frame.
    apply wp_bind, wp_wrap, wp_SaveRecord; [|intros e n; split; [cbn; by rewrite Hl|done]].
    intros Hok.
    assert (upgradeRecordForStore (startedRecord expected generation) = startedRecord expected generation) as Hup
      by (unfold upgradeRecordForStore; cbn; by rewrite Hver).
    assert (started_disk dom expected generation (saved_disk (startedRecord expected generation) (w_disk w'))) as Hdone.
    { split; [rewrite <-Hup at 2; by apply (session_at_saved dom (startedRecord expected generation))|].
      intros id v Hv Hto. assert (volume_at dom id (w_disk w') = Some v) as Hv'.
      { rewrite <-Hv. apply view_ext. unfold saved_disk. rewrite lookup_insert_ne; [done|]. by intros [= ?]. }
      destruct (proj2 Hused id v Hv') as [Hin|Hu]; [by apply not_elem_of_nil in Hin|by apply Hu]. }
    split.
    + unfold start_steps. cbn [st_event save_event st_locks st_disk st_before]. rewrite Hl, Hl1. destruct Hdone as [Hd2 Hd3], Hheld as [Hh1 Hh2].
      split_and!; [done|by split|apply Hr; rewrite Ht1; by apply recently_here|rewrite <-Hcur; by apply session_at_frame|done|done| |done].
      unfold start_gate in *. unfold saved_disk, journal_at. destruct rebuild as [j|]; [|by rewrite lookup_insert_ne].
      destruct Hgate' as [Hj Hgate']. split; [|done]. rewrite <-Hj. by apply view_insert_ne.
    + intros [[]|e]; cbn beta iota; [|by split; [cbn; rewrite Hl|]]. apply wp_ret. split; [cbn; by rewrite Hl, Hl1|].
      intros a [= <-]. done.
  - intros e w' Hl Hh. split; [by rewrite Hl|done].
Qed.
(** *** Release *)

(** Fit to be released: its use, if it has one, is the session's own. *)
Definition releasable_volume (expected : SessionRecord) (v : Volume) : Prop :=
  vo_state v = VolAvailable ∧ vo_pending v = None ∧ ∀ use, vo_use v = Some use → own_use expected use.
Lemma quiet_releasable expected l : quiet (releasable expected l : M B _).
Proof. induction l as [|v l IH]; cbn [releasable]; quiet_tac. Qed.
Lemma releasable_ok expected l w u w' :
  releasable expected l w = (Ok u, w') → ∀ v, v ∈ l → releasable_volume expected v.
Proof.
  revert w. induction l as [|v l IH]; intros w Hr; cbn [releasable] in Hr; intros x Hx; [by apply not_elem_of_nil in Hx|].
  apply bind_ok in Hr as (? & w1 & [Hg ->]%guard_ok & Hr). apply bind_ok in Hr as (? & w2 & Hu & Hr).
  apply elem_of_cons in Hx as [->|Hx]; [|by eapply IH].
  rewrite !orb_false_iff, negb_false_iff, String.eqb_eq in Hg. destruct Hg as [[Hs Hp] _].
  split_and!; [done|by destruct (vo_pending v)|]. intros use Hv. rewrite Hv in Hu. apply guard_ok in Hu as [Hu _].
  rewrite !orb_false_iff, !negb_false_iff, !String.eqb_eq, andb_false_iff, negb_false_iff, String.eqb_eq, String.eqb_neq in Hu.
  destruct Hu as [[Hk Ho] Hgen]. split_and!; [done|done|]. naive_solver.
Qed.
Lemma volume_ints_use u v : volume_ints v = true → volume_ints (set_use u v) = true.
Proof. done. Qed.
Lemma volume_ints_attachment a v : volume_ints v = true → volume_ints (set_attachment a v) = true.
Proof. done. Qed.

Definition release_steps (dom : string) (expected : SessionRecord) (o : list step) (s : step) : Prop :=
  let obj := br_object_id (sr_backend expected) in
  match st_event s with
  | EvAcquire _ | EvRelease _ => True
  | EvObserve id _ => id = obj
  | EvPublish Workspaces _ _ =>
      batch_held dom (sr_name expected) (st_locks s) ∧ recently (observed_stopped obj) o ∧
      session_at dom (sr_name expected) (st_before s) = Some expected ∧ sr_state expected ∈ [StateStopping; StateStopped] ∧
      (∃ v use, rewrites dom (set_use None) v s ∧ vo_use v = Some use ∧ own_use expected use ∧
         attached_to (sr_id expected) (sr_name expected) v) ∧
      ∀ id v, volume_at dom id (st_before s) = Some v → attached_to (sr_id expected) (sr_name expected) v →
        releasable_volume expected v
  | _ => False
  end.
Definition released_disk (dom : string) (expected : SessionRecord) (k : disk) : Prop :=
  session_at dom (sr_name expected) k = Some expected ∧
  ∀ id v, volume_at dom id k = Some v → attached_to (sr_id expected) (sr_name expected) v → vo_use v = None.
Definition releaseBody (observer : bool) (domainID : string) (expected : SessionRecord) (initial : list Volume) : M B unit :=
  let! current := wrap "reload session before use release" (LoadRecord domainID (sr_name expected)) in
  guard (bool_decide (current ≠ expected)) "session changed before workspace use release" ;;!
  let! attached := listSessionAttachments domainID (sr_id expected) (sr_name expected) in
  guard (bool_decide (initial ≠ attached)) "workspace attachment set changed before use release" ;;!
  wrap "prove exact backend stopped before use release" (observedStopped observer (br_object_id (sr_backend expected))) ;;!
  releasable expected attached ;;!
  writeReleases domainID attached.
Lemma wp_releaseBody observer dom expected initial L w :
  sr_state expected ∈ [StateStopping; StateStopped] →
  w_locks w = Lock.storage_scope dom :: Lock.session_scope dom (sr_name expected) :: volume_locks dom (vo_id <$> initial) ++ L →
  wp (release_steps dom expected) (releaseBody observer dom expected initial)
     (leaves (w_locks w) (λ r k _, ∀ a, r = Ok a → released_disk dom expected k)) w.
Proof.
  intros Hstate HL. unfold releaseBody.
  wp_read as cur n1 Hcur by by_error. apply LoadRecord_ok in Hcur.
  wp_guard as Heq%bool_decide_eq_false by by_error. apply dec_stable in Heq as ->.
  wp_read as att n3 Hatt by by_error. apply listSessionAttachments_ok in Hatt as [Hatt _].
  wp_guard as Hsame%bool_decide_eq_false by by_error. apply dec_stable in Hsame as <-. cbn [w_disk retick] in *.
  apply wp_bind, wp_wrap, wp_observedStopped; [done| |by split]. intros s b Hobs. cbn [w_locks w_trace w_disk retick w_tick].
  apply wp_bind, wp_quiet; [apply quiet_releasable|]. intros [u|e] n4 Hrel; [|by_error].
  pose proof (releasable_ok _ _ _ _ _ Hrel) as Hfit. cbn [w_disk w_locks w_trace retick].
  assert (batch_held dom (sr_name expected) (w_locks w)) as Hheld by (rewrite HL; split; set_solver).
  rewrite writeReleases_rewrite.
  apply (wp_rewriteVolumes dom _ _ _ _ (λ v, attached_to (sr_id expected) (sr_name expected) v ∧ releasable_volume expected v)
    (λ v, attached_to (sr_id expected) (sr_name expected) v → vo_use v = None ∧ releasable_volume expected v)); [done|done| | | | | | |].
  - intros v [_ (?&?&?)] _ _. by split_and!.
  - intros v [_ ?] Hn _. by destruct (vo_use v).
  - by apply ats_nodup in Hatt.
  - split.
    + intros v Hv. destruct (ats_in _ _ _ _ _ Hatt v Hv). split; [done|]. split; [done|]. by apply Hfit.
    + intros id v Hv. destruct (decide (v ∈ initial)) as [|Hn]; [by left|]. right. intros (a & Ha & Hs & _).
      exfalso. apply Hn. eapply ats_all; eauto.
  - intros v w' Hv Hs Hl Hr Hd Hat [Hto Hown] Hall. unfold release_steps. cbn [st_event volume_event st_locks st_before]. rewrite Hl.
    destruct (vo_use v) as [use|] eqn:Hu; [|done].
    split_and!; [apply Hheld..|apply Hr; by apply recently_here| |done| |].
    + rewrite <-Hcur. by apply session_at_frame.
    + exists v, use. split_and!; [|done|by apply Hown|done]. constructor; [done|done|done|]. cbn [st_locks]. rewrite HL.
      apply elem_of_cons. right. apply elem_of_cons. right. by apply volume_locks_held.
    + intros id x Hx Hto'. destruct (Hall id x Hx) as [[_ ?]|Hu']; [done|by apply Hu'].
  - intros w' Hl Hh Hr [Hd _] [_ Hused]. split; [done|]. intros a _. split.
    + rewrite <-Hcur. by apply session_at_frame.
    + intros id v Hv Hto. destruct (Hused id v Hv) as [Hin|Hx]; [by apply not_elem_of_nil in Hin|by apply Hx].
  - intros e w' Hl Hh. by_error.
Qed.

(** *** Verification *)
Lemma quiet_allUsed want l : quiet (allUsed want l : M B _).
Proof. induction l as [|v l IH]; cbn [allUsed]; quiet_tac. Qed.
Lemma allUsed_ok want l w u w' : allUsed want l w = (Ok u, w') →
  ∀ v, v ∈ l → vo_state v = VolAvailable ∧ isSome (vo_disk v) = true ∧ vo_pending v = None ∧ vo_use v = Some want.
Proof.
  revert w. induction l as [|v l IH]; intros w Hr; cbn [allUsed] in Hr; intros x Hx; [by apply not_elem_of_nil in Hx|].
  apply bind_ok in Hr as (? & w1 & [Hg ->]%guard_ok & Hr). apply elem_of_cons in Hx as [->|Hx]; [|by eapply IH].
  rewrite !orb_false_iff, negb_false_iff, String.eqb_eq, bool_decide_eq_false in Hg. destruct Hg as [[[Hs Hd] Hp] Hu].
  apply dec_stable in Hu. split_and!; [done|by destruct (vo_disk v)|by destruct (vo_pending v)|done].
Qed.
(** *** Gates *)
Lemma idleFor_ok expected v : idleFor expected v = true →
  vo_state v = VolAvailable ∧ vo_pending v = None ∧ vo_use v = None ∧ attached_to (sr_id expected) (sr_name expected) v.
Proof.
  unfold idleFor, attached_to. destruct (vo_pending v), (vo_use v), (vo_attachment v) as [a|]; rewrite ?andb_false_r, ?andb_false_l; try done; cbn;
    rewrite ?andb_false_r, ?andb_true_r; try done. rewrite !andb_true_iff, !String.eqb_eq. intros [[? _] [? ?]]. split_and!; [done..|]. by exists a.
Qed.
Lemma quiet_allIdle expected l : quiet (allIdle expected l : M B _).
Proof. induction l as [|v l IH]; cbn [allIdle]; quiet_tac. Qed.
Lemma allIdle_ok expected l w u w' : allIdle expected l w = (Ok u, w') → ∀ v, v ∈ l → idleFor expected v = true.
Proof.
  revert w. induction l as [|v l IH]; intros w Hr; cbn [allIdle] in Hr; intros x Hx; [by apply not_elem_of_nil in Hx|].
  apply bind_ok in Hr as (? & w1 & [Hg%negb_false_iff ->]%guard_ok & Hr). apply elem_of_cons in Hx as [->|Hx]; [done|by eapply IH].
Qed.

(** A record at rest: stopped, of the current version, with no generation. *)
Definition at_rest (dom : string) (expected : SessionRecord) : Prop :=
  sr_domain expected = dom ∧ sr_version expected = 2 ∧ sr_state expected = StateStopped ∧
  br_kind (sr_backend expected) = "tart"%string ∧ sr_generation expected = EmptyString.
(** What a gate has established when it runs the reservation: under all the
    locks, the exact stopped session, no rebuild, its backend seen stopped, and
    every attached volume idle. *)
Record gate_open (dom : string) (expected : SessionRecord) (w : world B) : Prop := {
  go_rest : at_rest dom expected;
  go_held : batch_held dom (sr_name expected) (w_locks w);
  go_session : session_at dom (sr_name expected) (w_disk w) = Some expected;
  go_rebuild : w_disk w !! (Rebuilds, json_name (sr_name expected)) = None;
  go_stopped : recently (observed_stopped (br_object_id (sr_backend expected))) (w_trace w);
  go_idle : ∀ id v, volume_at dom id (w_disk w) = Some v → attached_to (sr_id expected) (sr_name expected) v →
    idleFor expected v = true ∧ Lock.volume_scope dom id ∈ w_locks w;
}.
Lemma gate_open_same dom expected w w' : same w w' → gate_open dom expected w → gate_open dom expected w'.
Proof. intros [Hd Hl Ht] []. constructor; rewrite ?Hd, ?Hl, ?Ht; auto. Qed.
Lemma wp_lock_step P {A} (m : M B A) expected Q w : wp P m Q w → (∀ o s, P o s → gate_steps P expected o s) → wp (gate_steps P expected) m Q w.
Proof. intros Hm HP. by eapply wp_impl. Qed.

Lemma wp_rebuildGate {A} P observer dom expected (reserve : M B A) (Q : A → disk → Prop) w :
  (∀ w1, gate_open dom expected w1 → w_locks w ⊆ w_locks w1 → left_alone (w_disk w) (w_disk w1) →
     wp (gate_steps P expected) reserve (leaves (w_locks w1) (λ r k _, ∀ a, r = Ok a → Q a k)) w1) →
  wp (gate_steps P expected) (WithStoppedRebuildGate observer dom expected reserve)
     (leaves (w_locks w) (λ r k _, ∀ a, r = Ok a → Q a k)) w.
Proof.
  intros Hres. assert (lock_free (gate_steps P expected)) as HP by (intros o s sc [Hs|Hs]; unfold gate_steps; by rewrite Hs).
  unfold WithStoppedRebuildGate. wp_guard as Hg by by_error.
  assert (at_rest dom expected) as Hrest by (bsimpl; unfold at_rest; by split_and!).
  apply wp_bind, wp_ListSessionAttachments; [done|]. intros [initial|e] w1 Hl1 Hh1 Hk1; [|by_error]. rewrite <-Hl1.
  apply (wp_withBatchLocks _ _ _ _ _ _ (λ r k _, ∀ a, r = Ok a → Q a k)); [done|by apply closed_ok|done|].
  intros w2 Hl2 _ Hk2.
  wp_read as cur n1 Hcur by by_error. apply LoadRecord_ok in Hcur.
  wp_guard as Heq%bool_decide_eq_false by by_error. apply dec_stable in Heq as ->.
  wp_read as u n2 Hreb by by_error. apply RequireNoRebuild_ok in Hreb.
  wp_read as att n3 Hatt by by_error. apply listSessionAttachments_ok in Hatt as [Hatt _].
  wp_guard as Hsame%bool_decide_eq_false by by_error. apply dec_stable in Hsame as <-. cbn [w_disk retick] in *.
  apply wp_bind, wp_wrap, wp_observedStopped; [by left| |by split]. intros s b Hobs. cbn [w_locks w_trace w_disk retick w_tick].
  apply wp_bind, wp_quiet; [apply quiet_allIdle|]. intros [u2|e] n4 Hidle; [|by_error].
  pose proof (allIdle_ok _ _ _ _ _ Hidle) as Hall. cbn [w_disk w_locks w_trace retick].
  eapply wp_leaves; [apply Hres|intros r w' Hl HQ; by split]; [|cbn; rewrite Hl2, Hl1; set_solver|by eapply left_alone_trans].
  constructor; cbn; try done.
  - rewrite Hl2. split; set_solver.
  - by apply recently_here.
  - intros id v Hv (a & Ha & Hs & _). assert (v ∈ initial) as Hin by (eapply ats_all; eauto). split; [by apply Hall|].
    rewrite Hl2. apply elem_of_cons. right. apply elem_of_cons. right.
    apply volume_at_ok in Hv as (<- & _). by apply volume_locks_held.
Qed.
(** The formatter's proof names exactly this volume and the disk it records. *)
Lemma wp_throw_join {A} P (e : error) (m : M B unit) (Q : res A → world B → Prop) w :
  wp P m (λ _ w', ∀ e', Q (Er e') w') w → wp P (throw_join e m) Q w.
Proof. intros Hm. unfold throw_join. apply wp_bind, wp_attempt. eapply wp_conseq; [exact Hm|]. intros r w' HQ. by apply wp_throw. Qed.
Lemma wp_admitRetainedVolume P dom v (Q : res unit → world B → Prop) w :
  (∀ r w', same w w' → Q r w') → wp P (admitRetainedVolume dom v) Q w.
Proof.
  intros HQ. unfold admitRetainedVolume. destruct (vo_disk v) as [d|]; [|by apply wp_throw, HQ].
  apply wp_bind, wp_wrap, wp_Admit. intros [q|e] w1 Hw; [|by apply HQ]. cbn beta iota.
  match goal with |- wp _ (if ?b then _ else _) _ _ => destruct b end.
  - apply wp_throw_join, wp_CloseDisk. intros r w2 Hw2 e'. by eapply HQ, same_trans.
  - apply wp_CloseDisk. intros r w2 Hw2. by eapply HQ, same_trans.
Qed.
Lemma wp_admitRetained P dom l (Q : res unit → world B → Prop) w :
  (∀ r w', same w w' → Q r w') → wp P (admitRetained dom l) Q w.
Proof.
  revert w. induction l as [|v l IH]; intros w HQ; cbn [admitRetained]; [by apply wp_ret, HQ|].
  apply wp_bind, wp_admitRetainedVolume. intros [u|e] w1 Hw; [|by apply HQ]. apply IH. intros r w2 Hw2. by eapply HQ, same_trans.
Qed.
Lemma wp_allRetained P dom expected l (Q : res unit → world B → Prop) w :
  (∀ w', same w w' → (∀ v, v ∈ l → idleFor expected v = true) → Q (Ok tt) w') → (∀ e w', same w w' → Q (Er e) w') →
  wp P (allRetained dom expected l) Q w.
Proof.
  revert w. induction l as [|v l IH]; intros w HQ He; cbn [allRetained].
  { apply wp_ret, HQ; [done|]. intros v Hv. by apply not_elem_of_nil in Hv. }
  wp_guard as Hi%negb_false_iff by (by apply He).
  apply wp_bind, wp_admitRetainedVolume. intros [u|e] w1 Hw; [|by apply He].
  apply IH; [|intros e w2 Hw2; by eapply He, same_trans].
  intros w2 Hw2 Hall. apply HQ; [by eapply same_trans|]. intros x [->|Hx]%elem_of_cons; auto.
Qed.
Lemma wp_deleteGate {A} P observer dom expected (reserve : M B A) (Q : A → disk → Prop) w :
  (∀ w1, gate_open dom expected w1 → w_locks w ⊆ w_locks w1 → left_alone (w_disk w) (w_disk w1) →
     wp (gate_steps P expected) reserve (leaves (w_locks w1) (λ r k _, ∀ a, r = Ok a → Q a k)) w1) →
  wp (gate_steps P expected) (WithStoppedDeleteGate observer dom expected reserve)
     (leaves (w_locks w) (λ r k _, ∀ a, r = Ok a → Q a k)) w.
Proof.
  intros Hres. apply wp_rebuildGate. intros w1 Hw1 Hsub Hk1.
  wp_read as att n Hatt by by_error. apply wp_bind, wp_admitRetained.
  intros [u|e] w2 [Hd Hl Ht]; [|by_error]. eapply wp_leaves; [apply Hres|].
  - by eapply (gate_open_same _ _ w1).
  - cbn in Hl. by rewrite Hl.
  - cbn in Hd. by rewrite Hd.
  - intros r w3 Hl3 HQ. split; [cbn in *; congruence|done].
Qed.

(** *** Finalization *)

Definition finalize_steps (dom : string) (expected : SessionRecord) (o : list step) (s : step) : Prop :=
  let obj := br_object_id (sr_backend expected) in
  match st_event s with
  | EvAcquire _ | EvRelease _ => True
  | EvObserve id _ => id = obj
  | EvPublish Workspaces _ _ =>
      batch_held dom (sr_name expected) (st_locks s) ∧ recently (observed_absent obj) o ∧
      session_at dom (sr_name expected) (st_before s) = Some expected ∧ sr_state expected = StateDeleting ∧
      st_before s !! (Rebuilds, json_name (sr_name expected)) = None ∧
      (∃ v, rewrites dom (set_attachment None) v s ∧ idleFor expected v = true) ∧
      ∀ id v a, volume_at dom id (st_before s) = Some v → vo_attachment v = Some a → at_session_id a = sr_id expected →
        idleFor expected v = true
  | EvRemove Sessions name =>
      name = json_name (sr_name expected) ∧ sr_state expected = StateDeleting ∧
      session_at dom (sr_name expected) (st_before s) = Some expected ∧
      batch_held dom (sr_name expected) (st_locks s) ∧ recently (observed_absent obj) o ∧
      st_disk s !! (Rebuilds, json_name (sr_name expected)) = None ∧
      ∀ id v a, volume_at dom id (st_disk s) = Some v → vo_attachment v = Some a → at_session_id a ≠ sr_id expected
  | _ => False
  end.
Lemma wp_RemoveDeleting P expected (Q : res unit → world B → Prop) w :
  (sr_state expected = StateDeleting → session_at (sr_domain expected) (sr_name expected) (w_disk w) = Some expected →
     let k := delete (Sessions, json_name (sr_name expected)) (w_disk w) in
     P (w_trace w) (Step (EvRemove Sessions (json_name (sr_name expected))) (w_disk w) k (w_locks w)) ∧
     ∀ r n, Q r (did (EvRemove Sessions (json_name (sr_name expected))) k (retick n w))) →
  (∀ e n, Q (Er e) (retick n w)) → wp P (RemoveDeletingRecordLocked expected) Q w.
Proof.
  intros H1 H2. unfold RemoveDeletingRecordLocked. wp_guard as Hg by (rewrite (retick_self w); apply H2).
  rewrite !orb_false_iff, !negb_false_iff, !String.eqb_eq in Hg. destruct Hg as [[_ Hs] _].
  wp_read as cur n1 Hcur by apply H2. apply loadRecordFromRoot_ok in Hcur.
  wp_guard as Heq%bool_decide_eq_false by apply H2. apply dec_stable in Heq as ->.
  wp_read as f n2 Hf by apply H2. destruct (H1 Hs Hcur) as [HP HQ]. apply wp_fs_remove.
  - intros e _. split; [done|]. intros r. apply HQ.
  - intros e. apply (H2 e).
Qed.
Definition finalizeBody (domainID : string) (expected : SessionRecord) (initial : list Volume) : M B unit :=
  let! current := wrapv "deleting session changed before finalization" (LoadRecord domainID (sr_name expected)) in
  guard (bool_decide (current ≠ expected)) "deleting session changed before finalization" ;;!
  RequireNoRebuild domainID (sr_name expected) ;;!
  let! attached := wrapv "workspace attachment set changed before deletion finalization"
                     (listSessionAttachments domainID (sr_id expected) (sr_name expected)) in
  guard (bool_decide (initial ≠ attached)) "workspace attachment set changed before deletion finalization" ;;!
  let! observation := wrapv "deleted backend is not exactly absent" (Observe (br_object_id (sr_backend expected))) in
  guard (negb (exactly_absent observation (br_object_id (sr_backend expected)))) "deleted backend is not exactly absent" ;;!
  allRetained domainID expected attached ;;!
  detachAll domainID attached ;;!
  let! remaining := wrapv "workspace attachments remain after deletion"
                      (listSessionAttachments domainID (sr_id expected) (sr_name expected)) in
  guard (negb (length remaining =? 0)%nat) "workspace attachments remain after deletion" ;;!
  wrap "sync retained workspace registry" (fs_sync Workspaces) ;;!
  RemoveDeletingRecordLocked expected.
(** No volume names the session, and its record is gone. *)
Definition finalized_disk (dom : string) (expected : SessionRecord) (k : disk) : Prop :=
  k !! (Sessions, json_name (sr_name expected)) = None ∧
  ∀ id v a, volume_at dom id k = Some v → vo_attachment v = Some a → at_session_id a ≠ sr_id expected.
Lemma unattached dom sid name k : attachments dom sid name k [] →
  ∀ id v a, volume_at dom id k = Some v → vo_attachment v = Some a → at_session_id a ≠ sid.
Proof. intros Ha id v a Hv Hat Hs. eapply (not_elem_of_nil v), ats_all; eauto. Qed.
Lemma volume_at_session dom id name (k : disk) : volume_at dom id (delete (Sessions, name) k) = volume_at dom id k.
Proof. by apply view_delete_ne. Qed.
Lemma wp_finalizeBody dom expected initial L w :
  sr_domain expected = dom → sr_state expected = StateDeleting →
  w_locks w = Lock.storage_scope dom :: Lock.session_scope dom (sr_name expected) :: volume_locks dom (vo_id <$> initial) ++ L →
  wp (finalize_steps dom expected) (finalizeBody dom expected initial)
     (leaves (w_locks w) (λ r k _, ∀ a, r = Ok a → finalized_disk dom expected k)) w.
Proof.
  intros Hdom Hdel HL. unfold finalizeBody.
  wp_read as cur n1 Hcur by by_error. apply LoadRecord_ok in Hcur.
  wp_guard as Heq%bool_decide_eq_false by by_error. apply dec_stable in Heq as ->.
  wp_read as u n2 Hreb by by_error. apply RequireNoRebuild_ok in Hreb.
  wp_read as att n3 Hatt by by_error. apply listSessionAttachments_ok in Hatt as [Hatt _].
  wp_guard as Hsame%bool_decide_eq_false by by_error. apply dec_stable in Hsame as <-. cbn [w_disk retick] in *.
  apply wp_bind, wp_wrapv, wp_host_call. intros [ob|e] b _; (split; [done|]); [|by_error]. cbn beta iota.
  wp_guard as Habs%negb_false_iff by by_error.
  assert (observed_absent (br_object_id (sr_backend expected)) (Step (EvObserve (br_object_id (sr_backend expected)) (Ok ob)) (w_disk w) (w_disk w) (w_locks w)))
    as Hobs by (exists ob; done).
  apply wp_bind, wp_allRetained; [|intros e w' []; by_error]. intros w1 [Hd1 Hl1 Ht1] Hidle. cbn [asked w_disk w_locks w_trace retick] in *.
  assert (batch_held dom (sr_name expected) (w_locks w)) as Hheld by (rewrite HL; split; set_solver).
  assert (recently (observed_absent (br_object_id (sr_backend expected))) (w_trace w1)) as Hrec by (rewrite Ht1; by apply recently_here).
  rewrite detachAll_rewrite. apply wp_bind.
  apply (wp_rewriteVolumes dom _ _ _ _ (λ v, idleFor expected v = true) (λ v, ∀ a, vo_attachment v = Some a → at_session_id a ≠ sr_id expected));
    [done..|by apply ats_nodup in Hatt| | | |].
  - rewrite Hd1. split.
    + intros v Hv. destruct (ats_in _ _ _ _ _ Hatt v Hv). auto.
    + intros id v Hv. destruct (decide (v ∈ initial)) as [|Hn]; [by left|]. right. intros a Ha Hs.
      apply Hn. eapply ats_all; eauto.
  - intros v w' Hv _ Hl Hr Hd Hat Hiv Hall. unfold finalize_steps. cbn [st_event volume_event st_locks st_before]. rewrite Hl, Hl1.
    rewrite Hd1 in Hd. split_and!; [apply Hheld..|by apply Hr| |done| | |].
    + rewrite <-Hcur. by apply session_at_frame.
    + by rewrite Hd.
    + exists v. split; [|done]. constructor; [done|done|done|]. cbn [st_locks]. rewrite HL.
      apply elem_of_cons. right. apply elem_of_cons. right. by apply volume_locks_held.
    + intros id x a Hx Ha Hs. destruct (Hall id x Hx) as [?|HR]; [done|]. by destruct (HR a Ha).
  - intros w' Hl Hh Hr [Hd _] _.
    wp_read as rem n4 Hrem by by_error. apply listSessionAttachments_ok in Hrem as [Hrem _].
    wp_guard as Hlen%negb_false_iff by by_error. apply Nat.eqb_eq in Hlen. destruct rem; [|done].
    pose proof (unattached _ _ _ _ Hrem) as Hun. cbn [w_disk retick] in Hun.
    apply wp_bind, wp_wrap, wp_fs_sync. intros [[]|e]; [|by_error]. cbn beta iota.
    apply wp_RemoveDeleting; [|intros e n; by_error]. intros Hs _. cbn zeta. cbn [w_disk w_locks w_trace tick retick].
    assert (finalized_disk dom expected (delete (Sessions, json_name (sr_name expected)) (w_disk w'))) as Hfin.
    { split; [apply lookup_delete_eq|]. intros id v a. rewrite volume_at_session. apply Hun. }
    split; [|intros r n; split; [cbn; congruence|done]].
    unfold finalize_steps. cbn [st_event st_locks st_disk st_before]. rewrite Hl, Hl1. rewrite Hd1 in Hd.
    split_and!; [done|done|rewrite <-Hcur; by apply session_at_frame|apply Hheld..|by apply Hr| |apply Hfin]. rewrite lookup_delete_ne by done. by rewrite Hd.
  - intros e w' Hl Hh. by_error.
Qed.
(** *** Launch admission *)
Lemma wp_admitDisks P dom expected want l (Q : res (list nat) → world B → Prop) w :
  (∀ disks w', same w w' → length disks = length l → (∀ v, v ∈ l → vo_state v = VolAvailable ∧ vo_pending v = None ∧ vo_use v = Some want) →
     Q (Ok disks) w') →
  (∀ e w', same w w' → Q (Er e) w') → wp P (admitDisks dom expected want l) Q w.
Proof.
  revert w Q. induction l as [|v l IH]; intros w Q HQ He; cbn [admitDisks].
  { apply wp_ret, HQ; [done|done|]. intros v Hv. by apply not_elem_of_nil in Hv. }
  destruct (vo_disk v) as [d|]; [|by apply wp_throw, He].
  wp_guard as Hg by (by apply He). rewrite !orb_false_iff, negb_false_iff, String.eqb_eq, bool_decide_eq_false in Hg.
  destruct Hg as [[Hs Hp] Hu%dec_stable].
  apply wp_bind, wp_wrap, wp_Admit. intros [q|e] w1 Hw1; [|by apply He]. cbn beta iota.
  match goal with |- wp _ (if ?b then _ else _) _ _ => destruct b end.
  { apply wp_throw_join, wp_CloseDisk. intros r w2 Hw2 e'. by eapply He, same_trans. }
  apply wp_bind, wp_attempt, wp_host_ask. destruct (host_NewManagedDisk _ _ _ _) as [[disk|e] b]; cbn beta iota.
  2:{ apply wp_throw_join, wp_CloseDisk. intros r w2 [] e'. apply He. destruct Hw1. constructor; cbn in *; congruence. }
  assert (same w (World (w_disk w1) b (w_locks w1) (w_trace w1) (w_tick w1))) as Hw2 by (destruct Hw1; by constructor).
  apply wp_bind, IH.
  - intros disks w' Hw' Hlen Hall. apply wp_ret, HQ; [by eapply same_trans|cbn; congruence|].
    intros x [->|Hx]%elem_of_cons; [|by apply Hall]. split_and!; [done|by destruct (vo_pending v)|done].
  - intros e w' Hw'. by eapply He, same_trans.
Qed.
Lemma wp_releaseEach P scopes err (Q : res error → world B → Prop) w :
  lock_free P →
  (∀ e w', w_locks w' = filter (λ s, s ∉ scopes) (w_locks w) → w_disk w' = w_disk w → Q (Ok e) w') → wp P (releaseEach scopes err) Q w.
Proof.
  intros HP. revert err w. induction scopes as [|s rest IH]; intros err w HQ; cbn [releaseEach].
  { apply wp_ret, HQ; [|done]. symmetry. apply filter_all. intros x _ Hx. by apply not_elem_of_nil in Hx. }
  assert (∀ L, filter (λ x, x ∉ rest) (filter (λ x, x ≠ s) L) = filter (λ x, x ∉ s :: rest) L) as Hf
    by (intros L; rewrite list_filter_filter; apply list_filter_iff; intros x; set_solver).
  apply wp_bind, wp_attempt, wp_Release; [by eapply HP; cbn; eauto|..].
  - intros r _. apply IH. intros e w' Hl Hd. apply HQ; [|done]. by rewrite Hl, <-Hf.
  - intros Hn. apply IH. intros e w' Hl Hd. apply HQ; [|done]. by rewrite Hl, <-Hf, (filter_absent s).
Qed.
Lemma wp_releaseBoth P a b (Q : res unit → world B → Prop) w :
  lock_free P →
  (∀ r w', w_locks w' = filter (λ s, s ≠ b) (filter (λ s, s ≠ a) (w_locks w)) → w_disk w' = w_disk w → w_host w' = w_host w →
     w_trace w ⊆ w_trace w' → Q r w') →
  wp P (releaseBoth a b) Q w.
Proof.
  intros HP HQ. unfold releaseBoth. apply wp_bind, wp_attempt.
  assert (∀ (r1 : res unit) w1, w_locks w1 = filter (λ s, s ≠ a) (w_locks w) → w_disk w1 = w_disk w → w_host w1 = w_host w →
    w_trace w ⊆ w_trace w1 →
    wp P (let! rb := attempt (Release b) in match r1, rb with
      | Ok _, Ok _ => ret tt | Er e, Ok _ | Ok _, Er e => throw e | Er e, Er e2 => throw (join_err e e2) end) Q w1) as Hnext.
  { intros r1 w1 Hl1 Hd1 Hh1 Ht1. apply wp_bind, wp_attempt, wp_Release; [by eapply HP; cbn; eauto|..].
    - intros r2 _. destruct r1, r2; first [apply wp_ret|apply wp_throw]; apply HQ; cbn; rewrite ?Hl1; set_solver.
    - intros Hn. destruct r1; first [apply wp_ret|apply wp_throw]; apply HQ; rewrite <-?Hl1; by rewrite ?filter_absent. }
  apply wp_Release; [by eapply HP; cbn; eauto|..].
  - intros r _. apply Hnext; try done. cbn. set_solver.
  - intros Hn. apply (Hnext (Ok tt)); [by rewrite filter_absent|done..].
Qed.

Definition launchBody (observer : bool) (domainID : string) (expected : SessionRecord) (initial : list Volume) : M B (option nat) :=
  let session := Lock.session_scope domainID (sr_name expected) in
  let storage := Lock.storage_scope domainID in
  let! current := wrap "reload starting session before workspace admission" (LoadRecord domainID (sr_name expected)) in
  guard (bool_decide (current ≠ expected)) "starting session changed before workspace admission" ;;!
  let! attached := wrap "reload workspace attachments before launch"
                     (listSessionAttachments domainID (sr_id expected) (sr_name expected)) in
  guard (bool_decide (initial ≠ attached)) "workspace attachment set changed before launch admission" ;;!
  (if (0 <? length attached)%nat
   then wrap "prove exact backend stopped before workspace launch" (observedStopped observer (br_object_id (sr_backend expected)))
   else ret tt) ;;!
  let! disks := admitDisks domainID expected (sessionUse expected (sr_generation expected)) attached in
  if (length disks =? 0)%nat then releaseBoth storage session ;;! ret None
  else
    let! set := host_ask (host_NewManagedDiskSet disks) in
    releaseBoth storage session ;;!
    ret (Some set).
Definition without (dom name : string) (L : list string) : list string :=
  filter (λ s, s ≠ Lock.session_scope dom name) (filter (λ s, s ≠ Lock.storage_scope dom) L).
Lemma without_idem dom name L : without dom name (without dom name L) = without dom name L.
Proof. unfold without. rewrite !list_filter_filter. apply list_filter_iff. naive_solver. Qed.
Lemma wp_launchBody P observer dom expected initial (Q : res (option nat) → world B → Prop) w :
  lock_free P → (∀ o r k L, P o (Step (EvObserve (br_object_id (sr_backend expected)) r) k k L)) →
  (∀ e w', without dom (sr_name expected) (w_locks w') = without dom (sr_name expected) (w_locks w) → Q (Er e) w') →
  (∀ set w', without dom (sr_name expected) (w_locks w') = without dom (sr_name expected) (w_locks w) →
     session_at dom (sr_name expected) (w_disk w') = Some expected → isSome set = negb (length initial =? 0)%nat →
     (∀ id v, volume_at dom id (w_disk w') = Some v → attached_to (sr_id expected) (sr_name expected) v →
        id ∈ (vo_id <$> initial) ∧ vo_state v = VolAvailable ∧ vo_pending v = None ∧ vo_use v = Some (sessionUse expected (sr_generation expected))) →
     (isSome set = true → ∃ s, s ∈ w_trace w' ∧ observed_stopped (br_object_id (sr_backend expected)) s) → Q (Ok set) w') →
  wp P (launchBody observer dom expected initial) Q w.
Proof.
  intros HP Hobserve He HQ. unfold launchBody. cbv zeta.
  wp_read as cur n1 Hcur by by apply He. apply LoadRecord_ok in Hcur.
  wp_guard as Heq%bool_decide_eq_false by by apply He. apply dec_stable in Heq as ->.
  wp_read as att n3 Hatt by by apply He. apply listSessionAttachments_ok in Hatt as [Hatt _].
  wp_guard as Hsame%bool_decide_eq_false by by apply He. apply dec_stable in Hsame as <-. cbn [w_disk retick] in *.
  apply wp_bind. eapply wp_conseq with (Q := λ r w', w_disk w' = w_disk w ∧ w_locks w' = w_locks w ∧
    (r = Ok tt → initial ≠ [] → ∃ s, s ∈ w_trace w' ∧ observed_stopped (br_object_id (sr_backend expected)) s)).
  { destruct (0 <? length initial)%nat eqn:El.
    - apply wp_wrap, wp_observedStopped; [auto| |intros e w' Hd Hl; by split_and!].
      intros s b Hs. split_and!; [done|done|]. intros _ _. exists s. cbn. split; [set_solver|done].
    - apply wp_ret. split_and!; [done|done|]. apply Nat.ltb_ge in El. intros _ Hne. destruct initial; [done|cbn in El; lia]. }
  intros [[]|e] w1 (Hd1 & Hl1 & Hs1); [|apply He; by rewrite Hl1]. specialize (Hs1 eq_refl).
  apply wp_bind, wp_admitDisks; [|intros e w2 []; apply He; congruence]. intros disks w2 [Hd2 Hl2 Ht2] Hlen Hall.
  assert (∀ (set : option nat) w3, isSome set = negb (length initial =? 0)%nat → w_disk w3 = w_disk w2 → w_locks w3 = w_locks w2 → w_trace w3 = w_trace w2 →
    wp P (releaseBoth (Lock.storage_scope dom) (Lock.session_scope dom (sr_name expected)) ;;! ret set) Q w3) as Hend.
  { intros set w3 Hset Hd3 Hl3 Ht3. apply wp_bind. eapply wp_conseq with (Q := λ r w', w_disk w' = w_disk w ∧
      without dom (sr_name expected) (w_locks w') = without dom (sr_name expected) (w_locks w) ∧ w_trace w2 ⊆ w_trace w').
    - apply wp_releaseBoth; [done|]. intros r w4 Hl4 Hd4 _ Ht4. rewrite Hd4, Hl4, <-Ht3. split_and!; [congruence| |done].
      rewrite Hl3, Hl2, Hl1. apply without_idem.
    - intros [[]|e] w4 (Hd4 & Hl4 & Ht4); [|by apply He]. apply wp_ret, HQ; rewrite ?Hd4; try done.
      + intros id v Hv (a & Ha & Hs & _). assert (v ∈ initial) as Hin by (eapply ats_all; eauto).
        pose proof (volume_at_ok _ _ _ _ Hv) as (<- & _). split; [by apply list_elem_of_fmap_2|by apply Hall].
      + intros Hs. destruct Hs1 as (s & Hin & Hob); [intros ->; by rewrite Hset in Hs|]. exists s. rewrite <-Ht2 in Hin. split; [set_solver|done]. }
  destruct (length disks =? 0)%nat eqn:E0.
  - apply Hend; [|done..]. by rewrite <-Hlen, E0.
  - apply wp_bind, wp_host_ask. destruct (host_NewManagedDiskSet _ _) as [[set|e] b].
    + apply Hend; [|done..]. by rewrite <-Hlen, E0.
    + apply He. cbn. by rewrite Hl2, Hl1.
Qed.
End lemmas.

(** *** The whole transactions *)

Lemma wp_prepareStart `{E : Env} `{H : Host B} (observer : bool) (dom : string) (expected : SessionRecord)
    (generation : string) (rebuild : option RebuildJournal) (w : world B) :
  wp (start_steps dom expected generation rebuild) (prepareSessionStartJournal observer dom expected generation rebuild)
     (λ r w', w_locks w' = w_locks w ∧
        ∀ started, r = Ok started → started = startedRecord expected generation ∧ started_disk dom expected generation (w_disk w')) w.
Proof.
  assert (lock_free (start_steps dom expected generation rebuild)) as HP
    by (intros o s sc [Hs|Hs]; unfold start_steps; by rewrite Hs).
  unfold prepareSessionStartJournal. wp_guard as Hg by by_error.
  assert (sr_version expected = 2 ∧ sr_state expected = StateStopped) as [Hver Hst] by (bsimpl; done).
  apply wp_bind, wp_ListSessionAttachments; [done|]. intros [initial|e] w1 Hl1 Hh1 _; [|done].
  eapply wp_leaves; [apply (wp_withBatchLocks _ false dom (sr_name expected) initial _
    (λ r k _, ∀ a, r = Ok a → a = startedRecord expected generation ∧ started_disk dom expected generation k)); [done|by apply closed_ok|done|]|].
  - intros w2 Hl2 Hh2 _. by eapply wp_prepareBody.
  - intros r w' Hl Hq. split; [congruence|done].
Qed.
Lemma wp_releaseUses `{E : Env} `{H : Host B} (observer : bool) (dom : string) (expected : SessionRecord)
    (w : world B) :
  wp (release_steps dom expected) (releaseSessionUses observer dom expected)
     (λ r w', w_locks w' = w_locks w ∧ (r = Ok tt → released_disk dom expected (w_disk w'))) w.
Proof.
  assert (lock_free (release_steps dom expected)) as HP by (intros o s sc [Hs|Hs]; unfold release_steps; by rewrite Hs).
  unfold releaseSessionUses. wp_guard as Hg by by_error.
  assert (sr_state expected ∈ [StateStopping; StateStopped]) as Hst.
  { rewrite !orb_false_iff, (andb_false_iff (_ ≠s _)), !neqs_false in Hg. destruct Hg as [[[[[[[_ Hst] _] _] _] _] _] _].
    destruct Hst as [->| ->]; set_solver. }
  apply wp_bind, wp_ListSessionAttachments; [done|]. intros [initial|e] w1 Hl1 Hh1 _; [|by_error].
  eapply wp_leaves; [apply (wp_withBatchLocks _ false dom (sr_name expected) initial (releaseBody observer dom expected initial)
    (λ r k _, ∀ a, r = Ok a → released_disk dom expected k)); [done|by apply closed_ok|done|]|].
  - intros w2 Hl2 Hh2 _. by eapply wp_releaseBody.
  - intros r w' Hl Hq. split; [congruence|]. intros ->. by eapply Hq.
Qed.
Lemma wp_finalizeDeleted `{E : Env} `{H : Host B} (observer : bool) (dom : string) (expected : SessionRecord)
    (w : world B) :
  wp (finalize_steps dom expected) (FinalizeDeletedSession observer dom expected)
     (λ r w', w_locks w' = w_locks w ∧ (r = Ok tt → finalized_disk dom expected (w_disk w'))) w.
Proof.
  assert (lock_free (finalize_steps dom expected)) as HP by (intros o s sc [Hs|Hs]; unfold finalize_steps; by rewrite Hs).
  unfold FinalizeDeletedSession. wp_guard as Hg by by_error.
  assert (sr_domain expected = dom ∧ sr_state expected = StateDeleting) as [Hdom Hst] by (bsimpl; done).
  apply wp_bind, wp_ListSessionAttachments; [done|]. intros [initial|e] w1 Hl1 Hh1 _; [|by_error].
  eapply wp_leaves; [apply (wp_withBatchLocks _ true dom (sr_name expected) initial (finalizeBody dom expected initial)
    (λ r k _, ∀ a, r = Ok a → finalized_disk dom expected k)); [done|by apply closed_ok|done|]|].
  - intros w2 Hl2 Hh2 _. by eapply wp_finalizeBody.
  - intros r w' Hl Hq. split; [congruence|]. intros ->. by eapply Hq.
Qed.

(** ** Properties *)

(** C10: starting a session commits its workspaces first: from any state,
    whatever fails, the expected stopped record is replaced by the starting one
    only while the locks of the batch are held, after its backend object was
    observed stopped under them, with the rebuild gate open, and with every volume
    attached to it already carrying the use of this very generation on disk; each
    use is written, under that volume's lock and while the session is still the
    expected stopped one, over exactly what the volume's file held before, which
    was available, with a disk, and idle, and no attached volume was ever found
    otherwise unless it has this use; nothing else is written; the locks are
    given up; and success means exactly that state. *)
Theorem start_commits_uses_first `{E : Env} `{H : Host B} (observer : bool) (dom : string) (expected : SessionRecord)
    (generation : string) (rebuild : option RebuildJournal) (w : world B) :
  wp (start_steps dom expected generation rebuild) (prepareSessionStartJournal observer dom expected generation rebuild)
     (λ r w', w_locks w' = w_locks w ∧
        ∀ started, r = Ok started → started = startedRecord expected generation ∧ started_disk dom expected generation (w_disk w')) w.
Proof. apply wp_prepareStart. Qed.

(** C11: uses are released only after the backend object was observed
    stopped under the locks of the batch, while the session on disk is the
    expected stopping or stopped one: each write takes the use, and nothing else,
    out of exactly what that volume's file held before, under that volume's lock,
    and that use was the session's own: of its backend object, and of its exact
    generation while it is stopping; not one is released while any attached
    volume carries a foreign use; nothing else is written; and when the release reports success, no volume attached to
    the session carries a use any more and the session record is still the
    expected one. *)
Theorem release_only_after_observed_stop `{E : Env} `{H : Host B} (observer : bool) (dom : string) (expected : SessionRecord)
    (w : world B) :
  wp (release_steps dom expected) (releaseSessionUses observer dom expected)
     (λ r w', w_locks w' = w_locks w ∧ (r = Ok tt → released_disk dom expected (w_disk w'))) w.
Proof. apply wp_releaseUses. Qed.

(** The use verification reads only, and when it succeeds, the session
    on disk is the expected starting or running record and every volume attached
    to it is available with exactly its generation's use. *)
Theorem verify_uses_sound `{E : Env} `{H : Host B} (dom : string) (expected : SessionRecord) (w : world B) :
  wp (λ _ s, ∃ sc, st_event s = EvAcquire sc ∨ st_event s = EvRelease sc) (VerifySessionUses dom expected)
     (λ r w', w_locks w' = w_locks w ∧ w_host w' = w_host w ∧
        (r = Ok tt → session_at dom (sr_name expected) (w_disk w') = Some expected ∧
           sr_state expected ∈ [StateStarting; StateRunning] ∧
           ∀ id v, volume_at dom id (w_disk w') = Some v → attached_to (sr_id expected) (sr_name expected) v →
             vo_state v = VolAvailable ∧ vo_pending v = None ∧ vo_use v = Some (sessionUse expected (sr_generation expected)))) w.
Proof.
  assert (lock_free (λ _ s, ∃ sc, st_event s = EvAcquire sc ∨ st_event s = EvRelease sc)) as HP by (intros o s sc Hs; by exists sc).
  unfold VerifySessionUses. apply wp_bind, wp_guard; [|intros _; by_error; by_error]. intros Hg.
  assert (sr_state expected ∈ [StateStarting; StateRunning]) as Hst.
  { rewrite !orb_false_iff, andb_false_iff, !negb_false_iff, !String.eqb_eq in Hg. set_solver. }
  apply wp_bind, wp_AcquireStorage; [done| |intros e n; split; [done|by_error]]. intros w1 [Hf Hl Hh _ _].
  eapply wp_leaves; [apply (wp_deferred_leaves _ _ _ _ (w_locks w) (λ r k h, h = w_host w ∧ (r = Ok tt → session_at dom (sr_name expected) k = Some expected ∧
    ∀ id v, volume_at dom id k = Some v → attached_to (sr_id expected) (sr_name expected) v →
      vo_state v = VolAvailable ∧ vo_pending v = None ∧ vo_use v = Some (sessionUse expected (sr_generation expected)))));
      [done|by apply closed_drop|done|]|].
  - wp_read as cur n1 Hcur by (split; [done|]; by_error). apply LoadRecord_ok in Hcur.
    wp_guard as Heq%bool_decide_eq_false by (split; [done|]; by_error). apply dec_stable in Heq as ->.
    wp_read as att n3 Hatt by (split; [done|]; by_error). apply listSessionAttachments_ok in Hatt as [Hatt _].
    apply wp_quiet; [apply quiet_allUsed|]. intros r n Hr. split; [done|]. split; [done|]. intros ->.
    pose proof (allUsed_ok _ _ _ _ _ Hr) as Hall. cbn [w_disk retick] in *. split; [done|].
    intros id v Hv (a & Ha & Hs & _). destruct (Hall v) as (?&?&?&?); [|done]. eapply ats_all; eauto.
  - intros r w' Hl' [Hh' Hq]. naive_solver.
Qed.

(** C13: both gates run the reservation only while they hold every lock of
    the batch and have established that the expected record is at rest (stopped,
    of this domain and the current version, on tart, with no generation) and is
    exactly the one on disk, that no rebuild is pending, that its backend object was observed
    stopped under these locks, and that every attached volume is idle; besides
    the reservation's own steps they only lock and observe; the locks are given
    up whatever happens; and success is the reservation's success. *)
Theorem gates_reserve_only_when_stopped `{E : Env} `{H : Host B} {A} (P : stepP) (Q : A → disk → Prop) (observer : bool) (dom : string)
    (expected : SessionRecord) (reserve : M B A) (w : world B) :
  (∀ w1, gate_open dom expected w1 →
     wp (gate_steps P expected) reserve (λ r w', w_locks w' = w_locks w1 ∧ ∀ a, r = Ok a → Q a (w_disk w')) w1) →
  wp (gate_steps P expected) (WithStoppedRebuildGate observer dom expected reserve)
     (λ r w', w_locks w' = w_locks w ∧ ∀ a, r = Ok a → Q a (w_disk w')) w ∧
  wp (gate_steps P expected) (WithStoppedDeleteGate observer dom expected reserve)
     (λ r w', w_locks w' = w_locks w ∧ ∀ a, r = Ok a → Q a (w_disk w')) w.
Proof. intros Hres. split; [apply wp_rebuildGate|apply wp_deleteGate]; intros w1 Hw1 _ _; by apply Hres. Qed.

(** C12: finalizing a deleted session never removes or alters a volume
    beyond its attachment: each write is exactly what that volume's file held
    before, without the attachment, under that volume's lock, only after the
    backend object was observed exactly absent under the locks of the batch, while
    the expected deleting record is on disk with no rebuild, and while every volume
    still naming the session is idle; that record is removed last, when
    no volume on disk names the session any more; and success means both. *)
Theorem finalize_detaches_then_removes `{E : Env} `{H : Host B} (observer : bool) (dom : string) (expected : SessionRecord)
    (w : world B) :
  wp (finalize_steps dom expected) (FinalizeDeletedSession observer dom expected)
     (λ r w', w_locks w' = w_locks w ∧ (r = Ok tt → finalized_disk dom expected (w_disk w'))) w.
Proof. apply wp_finalizeDeleted. Qed.

(** What an admitted launch rests on. *)
Definition launch_admitted (dom : string) (expected : SessionRecord) (L0 : list string) (set : option nat) (L : list string) (k : disk) : Prop :=
  session_at dom (sr_name expected) k = Some expected ∧ sr_state expected = StateStarting ∧
  ∃ ids, L = volume_locks dom ids ++ L0 ∧ isSome set = negb (length ids =? 0)%nat ∧
    ∀ id v, volume_at dom id k = Some v → attached_to (sr_id expected) (sr_name expected) v →
      id ∈ ids ∧ vo_state v = VolAvailable ∧ vo_pending v = None ∧ vo_use v = Some (sessionUse expected (sr_generation expected)).

(** Admitting the disks of a launch keeps exactly the volume locks, and
    only when it succeeds: on success the session and storage locks are given up
    again, the use lock of every volume attached to the starting session stays
    held, and each of these volumes carries the use of its exact generation (a
    session without volumes keeps no lock and gets no disk set); on any error all
    locks are given up; no file is written and no volume is admitted without its
    backend having been observed stopped. *)
Theorem launch_admission_keeps_volume_locks `{E : Env} `{H : Host B} (observer : bool) (dom : string) (expected : SessionRecord)
    (w : world B) :
  wp (λ _ s, match st_event s with EvAcquire _ | EvRelease _ => True | EvObserve id _ => id = br_object_id (sr_backend expected) | _ => False end)
     (AdmitLaunchDisks observer dom expected)
     (λ r w', match r with
              | Ok set => launch_admitted dom expected (w_locks w) set (w_locks w') (w_disk w') ∧
                          (isSome set = true → ∃ s, s ∈ w_trace w' ∧ observed_stopped (br_object_id (sr_backend expected)) s)
              | Er _ => w_locks w' = w_locks w
              end) w.
Proof.
  match goal with |- wp ?P0 _ _ _ => set (P := P0) end.
  assert (lock_free P) as HP by (intros o s sc [Hs|Hs]; unfold P; by rewrite Hs).
  unfold AdmitLaunchDisks. cbv zeta. wp_guard as Hg by done.
  assert (sr_state expected = StateStarting) as Hst by (bsimpl; done).
  apply wp_bind, wp_ListSessionAttachments; [done|]. intros [initial|e] w1 Hl1 Hh1 _; [|done]. cbn beta iota.
  apply wp_bind, wp_acquireVolumes; [done|]. intros got r0 w2 Hl2 Hn Hnd _ Hr _. cbn [app].
  assert (filter (λ s, s ∉ got) (rev got ++ w_locks w1) = w_locks w) as Hfilter.
  { rewrite <-Hl1. apply filter_drop; [intros s Hs Hn'; apply Hn'; by rewrite list_elem_of_In, in_rev, <-list_elem_of_In|].
    intros s Hs Hs'. by apply (Hn s). }
  set (settled := λ (r : res (option nat)) (L : list string) (k : disk) (tr : list step),
    match r with
    | Ok set => launch_admitted dom expected (w_locks w) set L k ∧
                (isSome set = true → ∃ s, s ∈ tr ∧ observed_stopped (br_object_id (sr_backend expected)) s)
    | Er _ => filter (λ s, s ∉ got) L = w_locks w
    end).
  assert (∀ r L k tr tr', tr ⊆ tr' → settled r L k tr → settled r L k tr') as Hmono.
  { intros [set|e] L k tr tr' Hsub; [|done]. intros [Ha Hs]. split; [done|]. intros Hset. destruct (Hs Hset) as (s & ? & ?). exists s. set_solver. }
  apply wp_bind, wp_attempt. eapply wp_conseq with (Q := λ r w', settled r (w_locks w') (w_disk w') (w_trace w')).
  2:{ intros [set|e] w' Hs; cbn beta iota; [by apply wp_ret|].
      apply wp_bind, wp_releaseEach; [done|]. intros e' w3 Hl3 _. apply wp_throw. cbn in Hs. by rewrite Hl3, Hs. }
  apply wp_bind, wp_lift. destruct r0 as [[]|e]; [|cbn; by rewrite Hl2]. specialize (Hr eq_refl). subst got.
  apply wp_bind, wp_AcquireSession; [done| |intros e n; cbn; by rewrite Hl2]. intros w3 [Hf3 Hl3 _ _ _].
  apply (wp_deferred_filter _ _ _ _ (λ r w', settled r (filter (λ s, s ≠ Lock.session_scope dom (sr_name expected)) (w_locks w')) (w_disk w') (w_trace w')));
    [done|intros r r2 wa wb Hl Hd _ Ht Hs; rewrite Hl, Hd; by eapply Hmono|].
  assert (∀ tr k e, settled (Er e) (filter (λ s, s ≠ Lock.session_scope dom (sr_name expected)) (w_locks w3)) k tr) as Her
    by (intros tr k e; cbn; rewrite Hl3, filter_head, Hl2; done).
  apply wp_bind, wp_AcquireStorage; [done| |intros e n; apply Her]. intros w4 [Hf4 Hl4 _ _ _].
  apply (wp_deferred_filter _ _ _ _ (λ r w', settled r (filter (λ s, s ≠ Lock.session_scope dom (sr_name expected))
      (filter (λ s, s ≠ Lock.storage_scope dom) (w_locks w'))) (w_disk w') (w_trace w')));
    [done|intros r r2 wa wb Hl Hd _ Ht Hs; rewrite Hl, Hd; by eapply Hmono|].
  assert (without dom (sr_name expected) (w_locks w4) = volume_locks dom (vo_id <$> initial) ++ w_locks w) as Hw4.
  { unfold without. by rewrite Hl4, (filter_head _ _ Hf4), Hl3, (filter_head _ _ Hf3), Hl2, Hl1. }
  apply wp_launchBody; [done|by intros o r k L| |].
  - intros e w5 Hl5. fold (without dom (sr_name expected) (w_locks w5)). rewrite Hl5, Hw4. rewrite Hl1 in Hfilter. exact Hfilter.
  - intros set w5 Hl5 Hses Hset Hvol Htr. fold (without dom (sr_name expected) (w_locks w5)). split; [|done].
    split; [done|]. split; [done|]. exists (vo_id <$> initial). rewrite Hl5, length_fmap. done.
Qed.

(** ** Evaluations: the theorems above are not about runs that always fail *)
Section evaluations.
#[local] Existing Instance quietEnv.
#[local] Existing Instance labHost.
Definition lab_volume : Volume := set_disk (Some (mkDisk 1 1)) example_volume.
Definition lab_files : disk :=
  {[ (Sessions, "dev.json") := EFile (sessionFile example_record);
     (Workspaces, json_name (vo_id lab_volume)) := EFile (volumeFile lab_volume) ]}.
Definition lab_object : string := br_object_id (sr_backend example_record).
Definition lab_world : world lab := worldOf lab_files {[ lab_object := ObjectStopped ]}.
Definition lab_generation : string := "99999999-9999-4999-8999-999999999999".
Example lab_start_release :
  let '(r, w1) := PrepareSessionStart true "work" example_record lab_generation lab_world in
  r = Ok (startedRecord example_record lab_generation) ∧
  (VerifySessionUses "work" (startedRecord example_record lab_generation) w1).1 = Ok tt ∧
  (AdmitLaunchDisks true "work" (startedRecord example_record lab_generation) w1).1 = Ok (Some 1%nat) ∧
  length (w_locks (AdmitLaunchDisks true "work" (startedRecord example_record lab_generation) w1).2) = 1%nat ∧
  is_ok (ReleaseSessionUses true "work" (startedRecord example_record lab_generation) w1).1 = false ∧
  (ReleaseSessionUses true "work" example_record lab_world).1 = Ok tt.
Proof. vm_compute. by split_and!. Qed.

(** The same files with the volume in use, and with the session deleting. *)
Definition lab_used : Volume := set_use (Some (sessionUse example_record lab_generation)) lab_volume.
Definition lab_deleting : SessionRecord := set_readiness (mkReadiness ReadinessNotReady "") (set_state StateDeleting example_record).
Definition used_world : world lab :=
  worldOf (<[(Workspaces, json_name (vo_id lab_volume)) := EFile (volumeFile lab_used)]> lab_files) {[ lab_object := ObjectStopped ]}.
Definition deleting_world : world lab := worldOf (<[(Sessions, "dev.json") := EFile (sessionFile lab_deleting)]> lab_files) ∅.
Definition lab_volume_in (w : world lab) : option Volume := volume_at "work" (vo_id lab_volume) (w_disk w).
Lemma start_commits_uses_first_witness :
  lab_volume_in lab_world = Some lab_volume ∧
  started_disk "work" example_record lab_generation (w_disk (PrepareSessionStart true "work" example_record lab_generation lab_world).2) ∧
  lab_volume_in (PrepareSessionStart true "work" example_record lab_generation lab_world).2 = Some lab_used.
Proof.
  split; [vm_compute; reflexivity|]. split; [|vm_compute; reflexivity].
  refine (proj2 (proj2 (wp_result _ _ _ _ (start_commits_uses_first true "work" example_record lab_generation None lab_world)) _ _)).
  vm_compute. reflexivity.
Defined.
Lemma release_only_after_observed_stop_witness :
  lab_volume_in used_world = Some lab_used ∧ released_disk "work" example_record (w_disk (ReleaseSessionUses true "work" example_record used_world).2) ∧
  lab_volume_in (ReleaseSessionUses true "work" example_record used_world).2 = Some lab_volume.
Proof.
  split; [vm_compute; reflexivity|]. split; [|vm_compute; reflexivity].
  refine (proj2 (wp_result _ _ _ _ (release_only_after_observed_stop true "work" example_record used_world)) _).
  vm_compute. reflexivity.
Defined.
Lemma finalize_detaches_then_removes_witness :
  lab_volume_in deleting_world = Some lab_volume ∧
  finalized_disk "work" lab_deleting (w_disk (FinalizeDeletedSession true "work" lab_deleting deleting_world).2) ∧
  lab_volume_in (FinalizeDeletedSession true "work" lab_deleting deleting_world).2 = Some (set_attachment None lab_volume).
Proof.
  split; [vm_compute; reflexivity|]. split; [|vm_compute; reflexivity].
  refine (proj2 (wp_result _ _ _ _ (finalize_detaches_then_removes true "work" lab_deleting deleting_world)) _).
  vm_compute. reflexivity.
Defined.
Lemma gates_reserve_only_when_stopped_witness :
  (WithStoppedRebuildGate true "work" example_record (ret tt) lab_world).1 = Ok tt ∧
  wp (gate_steps (λ _ _, False) example_record) (WithStoppedRebuildGate true "work" example_record (ret tt))
     (λ r w', w_locks w' = w_locks lab_world ∧ ∀ a, r = Ok a → True) lab_world.
Proof.
  split; [vm_compute; reflexivity|].
  refine (proj1 (gates_reserve_only_when_stopped (λ _ _, False) (λ _ _, True) true "work" example_record (ret tt) lab_world _)).
  intros w1 _. apply wp_ret. split; [reflexivity|intros a _; exact I].
Defined.
End evaluations.
