(* ===== verification/SessionCreate.v ===== *)
(** Session creation, src/internal/session/create.go: the reservation of a
    name, an identity and a backend object, and the idempotent reconciliation
    of a creating record to one stopped clone. The dependencies of a session
    service are presence flags of the corresponding Go fields: a nil dependency
    is an error, never a call. *)
From S2P Require Import Prelude Ids Json JsonText SessionRecord Outside World Host Logic Golden SessionStore RebuildJournal.

Inductive createStage := createAfterIntent | createAfterClone | createAfterMAC.

(** StartDependencies: presence of each dependency, and the plain data. *)
Record StartDependencies := mkStart {
  sd_Host : bool;
  sd_CA : bool;
  sd_Supervisor : bool;
  sd_Workspaces : bool;
  sd_NewGeneration : bool;
  sd_Now : bool;
  sd_reportsOutcome : bool;          (* the supervisor also implements StopWithOutcome *)
  sd_rebuildWorkspaces : bool;       (* the coordinator also implements PrepareRebuildStart *)
  sd_ConfiguredDomains : list (string * string);
  sd_RuntimeRoot : string;
  sd_ConfigPath : string;
}.

(** Service. [sv_hook] is the failure injected after a creation stage. *)
Record Service := mkService {
  sv_nil : bool;
  sv_domain : DomainConfig;
  sv_observer : bool;
  sv_creator : bool;
  sv_newID : bool;
  sv_hook : option (createStage → SessionRecord → option error);
  sv_start : option StartDependencies;
}.

(** [domain.Parse] of the configured domain, which must be itself, and a state
    root that is not blank. *)
Definition admitDomain (dom : DomainConfig) : res string :=
  match Domain.Parse (dc_ID dom) with
  | Er _ => fail "invalid configured domain"
  | Ok domainID =>
      check (negb ((domainID ≠s dc_ID dom) || blank (dc_StateRoot dom))) "invalid configured domain" ;;? Ok domainID
  end.

(** The witness of a session this call created. *)
Record FreshCreation := mkFresh { fc_record : SessionRecord; fc_created : bool }.

Definition creatingRecord (domainID name id mode objectID revision intentDigest : string) : SessionRecord :=
  mkSessionRecord recordVersion domainID name id mode StateCreating (mkBackendRef "tart" objectID) revision intentDigest ""
    (mkReadiness ReadinessNotReady "").

Definition validateCreatingIdentity (record : SessionRecord) : res unit :=
  check (negb ((sr_golden record =s "") || (br_kind (sr_backend record) ≠s "tart")))
        "creating session has incomplete immutable intent" ;;?
  check (br_object_id (sr_backend record) =s Session.objectIDFor (sr_domain record) (sr_id record))
        "creating session backend identity does not match its UUID reservation".

(** An observation that is about another object, unknown, or inconsistent. *)
Definition ambiguous (observation : Observation) (objectID : string) : bool :=
  (ob_object observation ≠s objectID) || negb (ObjectState_Valid (ob_state observation)) ||
  (ob_exists observation && (ob_state observation =s ObjectUnknown)) ||
  (negb (ob_exists observation) && (ob_state observation ≠s ObjectUnknown)).

Section create.
Context {B : Type} {H : Host B} {E : Env} {D : Digests}.

Definition observeExact (objectID : string) : M B Observation :=
  let! observation := wrap "observe backend object" (Observe objectID) in
  guard (ambiguous observation objectID) "backend returned ambiguous observation" ;;!
  ret observation.

Definition runHook (s : Service) (stage : createStage) (record : SessionRecord) : M B unit :=
  match sv_hook s with
  | None => ret tt
  | Some hook => match hook stage record with None => ret tt | Some e => throw (wrapw "create interrupted" e) end
  end.

Definition requireStoppedGolden (selected : GoldenRecord) : M B unit :=
  guard ((br_kind (gr_backend selected) ≠s "tart") || (br_object_id (gr_backend selected) ≠s gr_revision selected))
        "registered golden has an invalid backend reference" ;;!
  let! observation := wrap "observe registered golden" (observeExact (br_object_id (gr_backend selected))) in
  guard (negb (exists_stopped observation)) "registered golden must still be one stopped backend object".

Definition loadStoppedRevision (s : Service) (revision : string) : M B GoldenRecord :=
  wrap "acquire golden while reconciling session" (AcquireGolden (sv_domain s)) ;;!
  deferred_first Lock.golden_scope (
  let! selected := wrap "resolve recorded golden revision" (LoadRevisionLocked (sv_domain s) revision) in
  requireStoppedGolden selected ;;!
  ret selected).

Definition reserveIntent (s : Service) (domainID name mode revision intentDigest : string) : M B SessionRecord :=
  wrap "acquire golden while reserving session" (AcquireGolden (sv_domain s)) ;;!
  deferred_first Lock.golden_scope (
  let! selected :=
    (if revision =s "" then wrap "resolve current golden" (LoadCurrentLocked (sv_domain s))
     else wrap "resolve explicit base revision" (LoadRevisionLocked (sv_domain s) revision)) in
  requireStoppedGolden selected ;;!
  guard (negb (sv_newID s)) "session identity source is required" ;;!
  let! id := host_ask host_newID in
  guard (negb (Session.validUUID id)) "generated invalid session identity" ;;!
  let objectID := Session.objectIDFor domainID id in
  wrap "derive backend object identity" (lift (Backend.ValidateObjectID objectID)) ;;!
  wrap "reserve backend object identity" (requireUnreservedBackendObject domainID name objectID) ;;!
  let! observation := observeExact objectID in
  guard (ob_exists observation || (ob_state observation ≠s ObjectUnknown)) "backend object identity collision" ;;!
  let record := creatingRecord domainID name id mode objectID (gr_revision selected) intentDigest in
  wrap "persist creating intent" (SaveRecord domainID record) ;;!
  ret record).

Definition reconcileCreating (s : Service) (record : SessionRecord) : M B SessionRecord :=
  (if sr_intent record ≠s "" then wrap "load bound recipe intent before clone" (LoadRecipeIntent (sr_intent record)) else ret EmptyString) ;;!
  let! observation := observeExact (br_object_id (sr_backend record)) in
  (if negb (ob_exists observation) && (ob_state observation =s ObjectUnknown) then
     let! selected := loadStoppedRevision s (sr_golden record) in
     wrap "clone session backend object" (Clone (br_object_id (gr_backend selected)) (br_object_id (sr_backend record)))
   else if exists_stopped observation then ret tt
   else throw (Errorf "creating session has ambiguous backend state")) ;;!
  runHook s createAfterClone record ;;!
  wrap "randomize session MAC" (RandomizeMAC (br_object_id (sr_backend record))) ;;!
  runHook s createAfterMAC record ;;!
  let! observation := observeExact (br_object_id (sr_backend record)) in
  guard (negb (exists_stopped observation)) "created session did not reconcile to one stopped backend object" ;;!
  let record := set_state StateStopped record in
  wrap "persist stopped session" (SaveRecord (sr_domain record) record) ;;!
  ret record.

(** The branch taken when a record already exists: [inl] is a finished
    result, [inr] the creating record to reconcile. *)
Definition resumeExisting (domainID name mode revision intentDigest : string) (freshOnly : bool) (record : SessionRecord)
  : M B (SessionRecord + SessionRecord) :=
  guard freshOnly "session already exists; fresh clone required" ;;!
  guard (sr_mode record ≠s mode) "session already exists with another mode" ;;!
  guard ((revision ≠s "") && (sr_golden record ≠s revision)) "session is bound to another base" ;;!
  guard (sr_intent record ≠s intentDigest) "session is bound to a different recipe intent" ;;!
  if sr_state record =s StateStopped then
    let! observation := observeExact (br_object_id (sr_backend record)) in
    guard (negb (exists_stopped observation)) "session stopped intent does not match one stopped backend object" ;;!
    wrap "re-persist stopped session" (SaveRecord (sr_domain record) record) ;;!
    let! record := wrap "reload persisted stopped session" (LoadRecord domainID name) in
    ret (inl record)
  else if sr_state record =s StateCreating then
    lift (validateCreatingIdentity record) ;;!
    wrap "re-persist creating intent" (SaveRecord (sr_domain record) record) ;;!
    let! record := wrap "reload persisted creating intent" (LoadRecord domainID name) in
    ret (inr record)
  else throw (Errorf "session already exists with another intended state").

Definition create (s : Service) (rawName mode revision intentDigest : string) (freshOnly : bool) : M B SessionRecord :=
  guard (sv_nil s) "session service is required" ;;!
  let! domainID := lift (admitDomain (sv_domain s)) in
  guard (negb (sv_observer s) || negb (sv_creator s)) "session observer and creator are required" ;;!
  let! name := lift (Session.ParseName rawName) in
  guard ((mode ≠s ModeClean) && (mode ≠s ModeQuarantine)) "invalid session mode" ;;!
  wrap "acquire session lock" (AcquireSession domainID name) ;;!
  deferred_first (Lock.session_scope domainID name) (
  (if intentDigest ≠s "" then wrap "load requested recipe intent" (LoadRecipeIntent intentDigest) else ret EmptyString) ;;!
  RequireNoRebuild domainID name ;;!
  let! loaded := attempt (LoadRecord domainID name) in
  match loaded with
  | Er e =>
      if negb (err_not_exist e) then throw (wrapw "load existing session intent" e)
      else
        let! record := reserveIntent s domainID name mode revision intentDigest in
        runHook s createAfterIntent record ;;!
        reconcileCreating s record
  | Ok record =>
      let! r := resumeExisting domainID name mode revision intentDigest freshOnly record in
      match r with
      | inl record => ret record
      | inr record => reconcileCreating s record
      end
  end).

Definition Create (s : Service) (rawName mode : string) : M B SessionRecord := create s rawName mode "" "" false.
Definition CreateFromRevision (s : Service) (rawName mode revision : string) : M B SessionRecord :=
  wrap "invalid explicit base revision" (lift (Backend.ValidateObjectID revision)) ;;!
  create s rawName mode revision "" false.
Definition CreateFromRevisionWithIntent (s : Service) (rawName mode revision digest : string) : M B SessionRecord :=
  wrap "invalid explicit base revision" (lift (Backend.ValidateObjectID revision)) ;;!
  guard (negb (Session.lowerSHA256 digest)) "invalid recipe intent digest" ;;!
  create s rawName mode revision digest false.
Definition CreateFreshFromRevision (s : Service) (rawName mode revision : string) : M B FreshCreation :=
  wrap "invalid explicit base revision" (lift (Backend.ValidateObjectID revision)) ;;!
  let! record := create s rawName mode revision "" true in
  ret (mkFresh record true).
Definition CreateFreshFromRevisionWithIntent (s : Service) (rawName mode revision digest : string) : M B FreshCreation :=
  wrap "invalid explicit base revision" (lift (Backend.ValidateObjectID revision)) ;;!
  guard (negb (Session.lowerSHA256 digest)) "invalid recipe intent digest" ;;!
  let! record := create s rawName mode revision digest true in
  ret (mkFresh record true).
End create.

(** ** Lemmas *)

Lemma observed_exists_stopped objectID ob s :
  st_event s = EvObserve objectID (Ok ob) → ambiguous ob objectID = false → exists_stopped ob = true → observed_stopped objectID s.
Proof.
  intros Hs Ha He. exists ob. split; [done|]. split; [|done]. unfold ambiguous in Ha.
  rewrite !orb_false_iff, negb_false_iff, String.eqb_eq in Ha. apply Ha.
Qed.
Lemma observed_not_exists objectID ob s :
  st_event s = EvObserve objectID (Ok ob) → ambiguous ob objectID = false →
  negb (ob_exists ob) && (ob_state ob =s ObjectUnknown) = true → observed_absent objectID s.
Proof.
  intros Hs Ha He. exists ob. split; [done|]. unfold ambiguous in Ha. unfold exactly_absent.
  rewrite !orb_false_iff, negb_false_iff in Ha. destruct Ha as [[[-> _] _] _]. by rewrite <-andb_assoc.
Qed.
Lemma upgrade_idem r : upgradeRecordForStore (upgradeRecordForStore r) = upgradeRecordForStore r.
Proof. unfold upgradeRecordForStore at 2 3. destruct (_ || _) eqn:E; [|done]. unfold upgradeRecordForStore. by rewrite E. Qed.
Lemma upgrade_fields r : let u := upgradeRecordForStore r in
  sr_domain u = sr_domain r ∧ sr_name u = sr_name r ∧ sr_id u = sr_id r ∧ sr_state u = sr_state r ∧ sr_backend u = sr_backend r ∧
  sr_golden u = sr_golden r ∧ sr_intent u = sr_intent r ∧ sr_mode u = sr_mode r.
Proof. unfold upgradeRecordForStore. by destruct (_ || _). Qed.

Section lemmas.
Context {B : Type} {H : Host B} {E : Env} {D : Digests}.
Implicit Types (w : world B) (P : stepP).

(** One exact observation: nothing changed but the trace. *)
Record observed (objectID : string) (ob : Observation) (w w' : world B) : Prop := {
  obs_disk : w_disk w' = w_disk w;
  obs_locks : w_locks w' = w_locks w;
  obs_step : ∃ s, st_event s = EvObserve objectID (Ok ob) ∧ w_trace w' = s :: w_trace w;
  obs_clear : ambiguous ob objectID = false;
}.
Lemma wp_observeExact P objectID (Q : res Observation → world B → Prop) w :
  (∀ r, P (w_trace w) (Step (EvObserve objectID r) (w_disk w) (w_disk w) (w_locks w))) →
  (∀ ob w', observed objectID ob w w' → Q (Ok ob) w') →
  (∀ e w', w_disk w' = w_disk w → w_locks w' = w_locks w → Q (Er e) w') →
  wp P (observeExact objectID) Q w.
Proof.
  intros HP H1 H2. unfold observeExact. apply wp_bind, wp_wrap, wp_host_call.
  intros [ob|e] b _; (split; [apply HP|]); [|by apply H2]. cbn beta iota.
  wp_guard as Ha by (by apply H2). apply wp_ret, H1. constructor; [done|done|by exists (Step (EvObserve objectID (Ok ob)) (w_disk w) (w_disk w) (w_locks w))|done].
Qed.
Lemma observed_recently objectID ob w w' :
  observed objectID ob w w' → exists_stopped ob = true → recently (observed_stopped objectID) (w_trace w').
Proof.
  intros [_ _ (s & Hs & ->) Ha] He. by eapply recently_here, observed_exists_stopped.
Qed.
Lemma observed_keeps (R : step → Prop) objectID ob w w' :
  observed objectID ob w w' → recently R (w_trace w) → recently R (w_trace w').
Proof. intros [_ _ (s & Hs & ->) _] HR. apply recently_cons; [|done]. intros sc Hsc. congruence. Qed.

Lemma wp_requireStoppedGolden P selected (Q : res unit → world B → Prop) w :
  (∀ id r o k L, P o (Step (EvObserve id r) k k L)) →
  (∀ w', w_disk w' = w_disk w → w_locks w' = w_locks w → w_trace w ⊆ w_trace w' →
     recently (observed_stopped (br_object_id (gr_backend selected))) (w_trace w') → Q (Ok tt) w') →
  (∀ e w', w_disk w' = w_disk w → w_locks w' = w_locks w → Q (Er e) w') →
  wp P (requireStoppedGolden selected) Q w.
Proof.
  intros HP H1 H2. unfold requireStoppedGolden. wp_guard as _ by (by apply H2).
  apply wp_bind, wp_wrap, wp_observeExact; [auto| |intros e w' Hd Hl; by apply H2].
  intros ob w' Hob. apply wp_guard; [|intros _; apply H2; apply Hob].
  intros Hs%negb_false_iff. apply H1; [apply Hob|apply Hob| |by eapply observed_recently].
  destruct Hob as [_ _ (s & _ & ->) _]. set_solver.
Qed.

Lemma wp_runHook P s stage record (Q : res unit → world B → Prop) w :
  Q (Ok tt) w → (∀ e, Q (Er e) w) → wp P (runHook s stage record) Q w.
Proof.
  intros H1 H2. unfold runHook. destruct (sv_hook s) as [hook|]; [|by apply wp_ret].
  destruct (hook stage record); [by apply wp_throw|by apply wp_ret].
Qed.
End lemmas.

(** *** The steps of a creation *)

(** The durable creating record behind a step. *)
Definition durably (state : string) (dom name : string) (s : step) (r : SessionRecord) : Prop :=
  session_at dom name (st_disk s) = Some r ∧ sr_state r = state.
(** The object [source] is the registered golden [revision]. *)
Definition registered_base (dom revision source : string) (k : disk) : Prop :=
  source = revision ∧ golden_at dom revision k = Some (goldenRecordFor dom revision).
Lemma golden_registered dom revision k g : golden_at dom revision k = Some g → registered_base dom revision (br_object_id (gr_backend g)) k.
Proof. intros Hg. by pose proof (golden_at_ok _ _ _ _ Hg) as [-> _]. Qed.
Definition create_steps (dom name : string) (o : list step) (s : step) : Prop :=
  match st_event s with
  | EvAcquire _ | EvRelease _ | EvObserve _ _ => True
  | EvPublish Sessions n _ =>
      n = json_name name ∧ Lock.session_scope dom name ∈ st_locks s ∧
      ∃ r, durably StateCreating dom name s r ∨
           durably StateStopped dom name s r ∧ recently (observed_stopped (br_object_id (sr_backend r))) o
  | EvClone source target _ =>
      Lock.session_scope dom name ∈ st_locks s ∧
      ∃ r, durably StateCreating dom name s r ∧ target = br_object_id (sr_backend r) ∧ target = Session.objectIDFor dom (sr_id r) ∧
           (∃ t, t ∈ o ∧ observed_absent target t) ∧ recently (observed_stopped source) o ∧ registered_base dom (sr_golden r) source (st_disk s)
  | EvRandomizeMAC object _ =>
      Lock.session_scope dom name ∈ st_locks s ∧
      ∃ r, durably StateCreating dom name s r ∧ object = br_object_id (sr_backend r)
  | _ => False
  end.
Lemma admitDomain_ok d dom : admitDomain d = Ok dom → dc_ID d = dom ∧ Domain.Parse (dc_ID d) = Ok dom.
Proof.
  unfold admitDomain. destruct (Domain.Parse (dc_ID d)) as [x|] eqn:Ed; [|done]. apply Parse_ok in Ed as Hx. destruct Hx as [<- _].
  destruct (check _ _); [|done]. by intros [= <-].
Qed.
Lemma create_lock_free dom name : lock_free (create_steps dom name).
Proof. intros o s sc [Hs|Hs]; unfold create_steps; by rewrite Hs. Qed.
#[export] Hint Resolve create_lock_free : go.

Section create_lemmas.
Context {B : Type} {H : Host B} {E : Env} {D : Digests} {SP : SessionProtocol E}.
Context (dom name : string).
Implicit Types (w : world B).
#[local] Abbreviation session_lock := (Lock.session_scope dom name).
#[local] Abbreviation session_key := (Sessions, json_name name).

(** A body that runs under the session lock and ends with a stopped session. *)
Definition stopped_result (L : list string) : res SessionRecord → world B → Prop :=
  leaves L (λ r k _, ∀ a, r = Ok a → sr_state a = StateStopped ∧ session_at dom name k = Some (upgradeRecordForStore a)).

Lemma wp_loadStoppedRevision s revision (Q : res GoldenRecord → world B → Prop) w :
  session_lock ∈ w_locks w → dc_ID (sv_domain s) = dom →
  (∀ selected w', registered_base dom revision (br_object_id (gr_backend selected)) (w_disk w') → w_locks w' = w_locks w → w_disk w' !! session_key = w_disk w !! session_key → w_trace w ⊆ w_trace w' →
     recently (observed_stopped (br_object_id (gr_backend selected))) (w_trace w') → Q (Ok selected) w') →
  (∀ e w', w_locks w' = w_locks w → Q (Er e) w') →
  wp (create_steps dom name) (loadStoppedRevision s revision) Q w.
Proof.
  intros Hin Hid H1 H2. unfold loadStoppedRevision. apply wp_bind, wp_wrap, wp_AcquireGolden; [auto with go| |intros; by apply H2].
  intros w1 Htk. destruct (took_session _ _ _ _ _ Htk Hin) as [Hses _]. destruct Htk as [Hf Hl Hh _ Ht].
  apply wp_deferred. eapply wp_conseq with (Q := λ r w2, w_locks w2 = Lock.golden_scope :: w_locks w ∧ ∀ selected, r = Ok selected →
    golden_at dom revision (w_disk w2) = Some selected ∧ w_disk w2 = w_disk w1 ∧ w_trace w1 ⊆ w_trace w2 ∧ recently (observed_stopped (br_object_id (gr_backend selected))) (w_trace w2)).
  - wp_read as selected m Hload by by split. apply LoadRevisionLocked_ok in Hload. rewrite Hid in Hload.
    apply wp_bind, wp_requireStoppedGolden; [by intros|..].
    + intros w2 Hd2 Hl2 Ht2 Hr. apply wp_ret. split; [by rewrite Hl2|]. intros sel [= <-]. by rewrite Hd2.
    + intros e w2 Hd2 Hl2. split; [by rewrite Hl2|done].
  - intros r w2 [Hl2 Hq]. apply (wp_Release_held _ _ (w_locks w)); [auto with go|done|done|].
    intros r2 w3 Hl3 Hd3 _ Ht3. destruct r as [selected|e]; [|by destruct r2; apply H2].
    destruct (Hq selected eq_refl) as (Hg2 & Hd2 & Hs2 & Hr2). destruct r2 as [[]|e]; [|by apply H2].
    apply H1; [rewrite Hd3; by apply golden_registered|done|by rewrite Hd3, Hd2| |].
    + rewrite Ht3, Ht in *. set_solver.
    + rewrite Ht3. by apply recently_cons.
Qed.

Lemma session_entry_at w w' r : w_disk w' !! session_key = w_disk w !! session_key →
  session_at dom name (w_disk w) = Some r → session_at dom name (w_disk w') = Some r.
Proof. intros Hk <-. by apply view_ext. Qed.

Lemma wp_reconcileCreating s record w :
  session_lock ∈ w_locks w → dc_ID (sv_domain s) = dom → session_at dom name (w_disk w) = Some record → sr_state record = StateCreating →
  br_object_id (sr_backend record) = Session.objectIDFor dom (sr_id record) →
  wp (create_steps dom name) (reconcileCreating s record) (stopped_result (w_locks w)) w.
Proof.
  intros Hin Hid Hat Hst Hobj. pose proof (session_at_ids _ _ _ _ Hat) as [Hdom Hname]. set (obj := br_object_id (sr_backend record)) in *.
  unfold reconcileCreating. fold obj. apply wp_bind, wp_quiet; [quiet_tac|]. intros [u|e] n _; [|by_error].
  apply wp_bind, wp_observeExact; [done| |intros; by_error]. intros ob w1 Hob. cbn beta iota.
  apply wp_bind. eapply wp_conseq with (Q := λ r w2, w_locks w2 = w_locks w ∧ (is_ok r = true → w_disk w2 !! session_key = w_disk w !! session_key)).
  { destruct (negb (ob_exists ob) && _) eqn:Eab.
    - apply wp_bind, wp_loadStoppedRevision; [by rewrite (obs_locks _ _ _ _ Hob)|done| |intros e w2 Hl2; split; [rewrite Hl2; apply Hob|done]].
      intros selected w2 Hg2 Hl2 Hk2 Ht2 Hr2. apply wp_wrap, wp_host_call. intros r b _.
      assert (w_disk w2 !! session_key = w_disk w !! session_key) as Hk by (rewrite Hk2; by rewrite (obs_disk _ _ _ _ Hob)).
      assert (w_locks w2 = w_locks w) as Hl by (rewrite Hl2; apply Hob).
      split; [|by destruct r]. cbn [st_event st_locks]. rewrite Hl. split; [done|]. exists record.
      split; [split; [by eapply session_entry_at|done]|]. split_and!; [done|done| |done|done].
      destruct Hob as [_ _ (t & Ht & Htr) Ha]. exists t. split; [apply Ht2; rewrite Htr; set_solver|]. by eapply observed_not_exists.
    - destruct (exists_stopped ob); [apply wp_ret|apply wp_throw]; (split; [apply Hob|]); [|done].
      intros _. by rewrite (obs_disk _ _ _ _ Hob). }
  intros [u'|e] w2 [Hl2 Hk2]; [|by_error]. specialize (Hk2 eq_refl). cbn beta iota.
  apply wp_bind, wp_runHook; [|by intros; by_error].
  apply wp_bind, wp_wrap, wp_host_call. intros r b _. split.
  { cbn [st_event st_locks]. rewrite Hl2. split; [done|]. exists record. split; [|done]. split; [by eapply session_entry_at|done]. }
  destruct r as [u2|e]; [|by_error]. cbn beta iota.
  apply wp_bind, wp_runHook; [|by intros; by_error].
  apply wp_bind, wp_observeExact; [done| |intros; by_error]. intros ob2 w3 Hob2. cbn beta iota.
  wp_guard as Hex%negb_false_iff by (split; [rewrite (obs_locks _ _ _ _ Hob2); by cbn|done]).
  pose proof (obs_locks _ _ _ _ Hob2) as Hl3. cbn [asked w_locks] in Hl3.
  cbv zeta. apply wp_bind, wp_wrap, wp_SaveRecord; [|intros e n2; by_error]. cbn [sr_domain set_state]. rewrite Hdom. intros Hok.
  assert (session_at dom name (saved_disk (set_state StateStopped record) (w_disk w3)) = Some (upgradeRecordForStore (set_state StateStopped record)))
    as Hsaved by (rewrite <-Hname; by apply (session_at_saved dom (set_state StateStopped record))).
  split.
  - cbn [st_event save_event st_locks]. rewrite Hl3, Hl2. split_and!; [by rewrite <-Hname|done|].
    exists (upgradeRecordForStore (set_state StateStopped record)). right.
    destruct (upgrade_fields (set_state StateStopped record)) as (_&_&_&Hus&Hub&_). rewrite Hub.
    split; [by split|]. by eapply observed_recently.
  - intros [[]|e]; cbn beta iota; [|by_error]. apply wp_ret. split; [cbn; congruence|]. intros a [= <-]. done.
Qed.

Lemma wp_resumeExisting mode revision digest fresh record w :
  session_lock ∈ w_locks w → session_at dom name (w_disk w) = Some record →
  wp (create_steps dom name) (resumeExisting dom name mode revision digest fresh record)
     (leaves (w_locks w) (λ r k _, ∀ a, r = Ok a → match a with
        | inl x => sr_state x = StateStopped ∧ session_at dom name k = Some (upgradeRecordForStore x)
        | inr x => sr_state x = StateCreating ∧ session_at dom name k = Some x ∧ br_object_id (sr_backend x) = Session.objectIDFor dom (sr_id x)
        end)) w.
Proof.
  intros Hin Hat. pose proof (session_at_ids _ _ _ _ Hat) as [Hdom Hname].
  destruct (upgrade_fields record) as (Hud&Hun&Hui&Hus&Hub&_).
  assert (∀ P, record_ok dom record = true → P = session_at dom name (saved_disk record (w_disk w)) → P = Some (upgradeRecordForStore record)) as Hsaved
    by (intros P Hok ->; rewrite <-Hname; by apply session_at_saved).
  unfold resumeExisting. do 4 (wp_guard as _ by by_error). cbn beta iota.
  destruct (sr_state record =s StateStopped) eqn:E1; [|destruct (sr_state record =s StateCreating) eqn:E2; [|apply wp_throw; by_error]]; bsimpl.
  - apply wp_bind, wp_observeExact; [done| |intros; by_error]. intros ob w1 Hob.
    wp_guard as Hex%negb_false_iff by (split; [apply Hob|done]). pose proof (obs_locks _ _ _ _ Hob) as Hl1.
    apply wp_bind, wp_wrap, wp_SaveRecord; [|intros e n; by_error]. rewrite Hdom, (obs_disk _ _ _ _ Hob). intros Hok. split.
    + cbn [st_event save_event st_locks]. rewrite Hl1. split_and!; [by rewrite Hname|done|]. exists (upgradeRecordForStore record). right.
      rewrite Hub. split; [split; [by apply Hsaved|congruence]|]. by eapply observed_recently.
    + intros [[]|e]; cbn beta iota; [|by_error].
      wp_read as cur n Hcur by by_error. apply LoadRecord_ok in Hcur. cbn [w_disk did] in Hcur.
      rewrite (Hsaved _ Hok eq_refl) in Hcur. injection Hcur as <-.
      apply wp_ret. split; [cbn; congruence|]. intros a [= <-]. cbn [w_disk retick did]. rewrite upgrade_idem. split; [congruence|by apply Hsaved].
  - apply wp_bind, wp_lift. destruct (validateCreatingIdentity record) as [[]|e] eqn:Ev; [|by_error].
    unfold validateCreatingIdentity in Ev. rewrite check_then_ok, check_ok, String.eqb_eq in Ev. destruct Ev as [_ Hobj].
    apply wp_bind, wp_wrap, wp_SaveRecord; [|intros e n; by_error]. rewrite Hdom. intros Hok. split.
    + cbn [st_event save_event st_locks]. split_and!; [by rewrite Hname|done|]. exists (upgradeRecordForStore record). left.
      split; [by apply Hsaved|congruence].
    + intros [[]|e]; cbn beta iota; [|by_error].
      wp_read as cur n Hcur by by_error. apply LoadRecord_ok in Hcur. cbn [w_disk did] in Hcur.
      rewrite (Hsaved _ Hok eq_refl) in Hcur. injection Hcur as <-.
      apply wp_ret. split; [done|]. intros a [= <-]. cbn [w_disk retick did]. split_and!; [congruence|by apply Hsaved|].
      by rewrite Hub, Hui, Hobj, Hdom.
Qed.
End create_lemmas.

Section reserve_lemmas.
Context {B : Type} {H : Host B} {E : Env} {D : Digests}.
Context (dom name : string).
Implicit Types (w : world B).
#[local] Abbreviation session_lock := (Lock.session_scope dom name).

(** A fresh reservation: under the session and the golden lock, of an object
    that no session and no rebuild of the domain names and that the backend
    reports absent. *)
Definition reserve_steps (o : list step) (s : step) : Prop :=
  match st_event s with
  | EvAcquire _ | EvRelease _ | EvObserve _ _ => True
  | EvPublish Sessions n _ =>
      n = json_name name ∧ session_lock ∈ st_locks s ∧ Lock.golden_scope ∈ st_locks s ∧
      ∃ r, durably StateCreating dom name s r ∧ br_object_id (sr_backend r) = Session.objectIDFor dom (sr_id r) ∧
           recently (observed_absent (br_object_id (sr_backend r))) o ∧
           golden_at dom (sr_golden r) (st_disk s) = Some (goldenRecordFor dom (sr_golden r)) ∧
           unreserved dom name (br_object_id (sr_backend r)) (st_disk s)
  | _ => False
  end.
Lemma reserve_create o s : reserve_steps o s → create_steps dom name o s.
Proof.
  unfold reserve_steps, create_steps. destruct (st_event s) as [| |d n f| | | | | | | | | | | | | | | | | | |]; try done.
  destruct d; [|done..]. intros (?&?&_&r&?&_). eauto 10.
Qed.
Lemma wp_reserveIntent s mode revision digest w :
  session_lock ∈ w_locks w → dc_ID (sv_domain s) = dom →
  wp reserve_steps (reserveIntent s dom name mode revision digest)
     (leaves (w_locks w) (λ r k _, ∀ a, r = Ok a → sr_state a = StateCreating ∧ session_at dom name k = Some a ∧
        br_object_id (sr_backend a) = Session.objectIDFor dom (sr_id a))) w.
Proof.
  intros Hin Hid. assert (lock_free reserve_steps) as HP by (intros o x sc [Hs|Hs]; unfold reserve_steps; by rewrite Hs).
  unfold reserveIntent. apply wp_bind, wp_wrap, wp_AcquireGolden; [done| |intros; by_error].
  intros w1 [Hf Hl Hh _ Ht]. apply wp_deferred_leaves; [done|by apply closed_first|done|].
  assert (∀ e w', w_locks w' = w_locks w1 → leaves (Lock.golden_scope :: w_locks w) (λ r k _, ∀ a, r = Ok a → sr_state a = StateCreating ∧ session_at dom name k = Some a ∧
        br_object_id (sr_backend a) = Session.objectIDFor dom (sr_id a)) (Er e) w') as Her by (intros e w' Hl'; split; [congruence|done]).
  apply wp_bind. eapply wp_conseq with (Q := λ r w', w_locks w' = w_locks w1 ∧ ∀ g, r = Ok g →
    golden_at dom (gr_revision g) (w_disk w') = Some (goldenRecordFor dom (gr_revision g))).
  { destruct (revision =s ""); apply wp_wrap, wp_quiet; [auto with quiet|intros [g|e] m Hload|auto with quiet|intros [g|e] m Hload]; (split; [done|]); try done;
      intros g' [= <-]; [apply LoadCurrentLocked_ok in Hload as (p & _ & Hload)|apply LoadRevisionLocked_ok in Hload]; rewrite Hid in Hload;
      by pose proof (golden_at_ok _ _ _ _ Hload) as [-> _]. }
  intros [selected|e] w2 [Hl2 Hg2]; [|by apply Her]. specialize (Hg2 _ eq_refl). cbn beta iota.
  apply wp_bind, wp_requireStoppedGolden; [done| |intros; apply Her; congruence]. intros w3 Hd3 Hl3 _ _.
  assert (w_locks w3 = w_locks w1) as Hl31 by congruence.
  wp_guard as _ by by apply Her.
  apply wp_bind, wp_host_ask. destruct (host_newID _) as [[id|e] b]; [|by apply Her]. cbn beta iota.
  wp_guard as Hvid%negb_false_iff by by apply Her. cbv zeta.
  apply wp_bind, wp_wrap, wp_lift. destruct (Backend.ValidateObjectID _) as [u|e] eqn:Eo; [|by apply Her]. cbn beta iota.
  set (obj := Session.objectIDFor dom id) in *.
  apply wp_bind, wp_wrap, wp_quiet; [apply quiet_requireUnreservedBackendObject|]. intros [u2|e] n Hun; [|by apply Her].
  apply requireUnreserved_unreserved in Hun as [[HS HR] _]. cbn [w_disk] in HR, HS.
  apply wp_bind, wp_observeExact; [done| |intros; apply Her; cbn in *; congruence]. intros ob w4 Hob.
  assert (w_locks w4 = w_locks w1) as Hl41 by (by rewrite (obs_locks _ _ _ _ Hob)).
  wp_guard as Hg by by apply Her. rewrite orb_false_iff, negb_false_iff in Hg.
  apply wp_bind, wp_wrap, wp_SaveRecord; [|intros; by apply Her]. rewrite (obs_disk _ _ _ _ Hob). cbn [w_disk retick].
  set (r := creatingRecord _ _ _ _ _ _ _). intros Hok.
  pose proof (session_at_saved dom r (w_disk w3) Hok) as Hsaved. change (upgradeRecordForStore r) with r in Hsaved. change (sr_name r) with name in Hsaved.
  split.
  - cbn [st_event save_event st_locks]. rewrite Hl41, Hl. split_and!; [done|set_solver|set_solver|]. exists r.
    split_and!; [by split|done| | |].
    + destruct Hob as [_ _ (t & Ht' & ->) Ha]. apply recently_here. eapply observed_not_exists; [done|done|].
      destruct Hg as [-> Hg]. by rewrite Hg.
    + cbn [st_disk]. rewrite Hd3. unfold golden_at, saved_disk. rewrite view_insert_ne by done. exact Hg2.
    + split.
      * intros other r' Hr' Hne. cbn [st_disk] in Hr'. rewrite (session_at_saved_ne dom r) in Hr' by done. by eapply HS.
      * intros other j Hj. eapply HR. by rewrite <-Hj; symmetry; apply view_insert_ne.
  - intros [[]|e]; cbn beta iota; [|by apply Her]. apply wp_ret. split; [cbn; congruence|]. intros a [= <-]. done.
Qed.

End reserve_lemmas.

Lemma wp_create {B : Type} {H : Host B} {E : Env} {D : Digests} {SP : SessionProtocol E} dom name s rawName mode revision digest fresh (w : world B) :
  admitDomain (sv_domain s) = Ok dom → Session.ParseName rawName = Ok name →
  wp (create_steps dom name) (create s rawName mode revision digest fresh) (stopped_result dom name (w_locks w)) w.
Proof.
  intros Hdom Hname. pose proof (admitDomain_ok _ _ Hdom) as [Hid _]. unfold create. wp_guard as _ by by_error.
  apply wp_bind, wp_lift. rewrite Hdom. wp_guard as _ by by_error.
  apply wp_bind, wp_lift. rewrite Hname. wp_guard as _ by by_error.
  apply wp_bind, wp_wrap, wp_AcquireSession; [auto with go| |intros; by_error]. intros w1 [Hf Hl Hh _ _].
  apply wp_deferred_leaves; [auto with go|by apply closed_first|done|]. rewrite <-Hl.
  assert (Lock.session_scope dom name ∈ w_locks w1) as Hin by (rewrite Hl; set_solver).
  apply wp_bind, wp_quiet; [quiet_tac|]. intros [u|e] n _; [|by_error].
  wp_read as u2 n2 Hreb by by_error.
  apply wp_bind, wp_attempt, wp_quiet; [auto with quiet|]. intros [record|e] n3 Hload; cbn beta iota.
  - apply LoadRecord_ok in Hload. cbn [w_disk retick] in Hload.
    apply wp_bind. eapply wp_leaves; [by apply (wp_resumeExisting dom name mode revision digest fresh record)|].
    intros [[x|x]|e] w2 Hl2 Hq; [| |by_error].
    + destruct (Hq _ eq_refl). apply wp_ret. split; [done|]. by intros a [= <-].
    + destruct (Hq _ eq_refl) as (?&?&?). cbn [w_locks retick] in Hl2. rewrite <-Hl2. apply wp_reconcileCreating; try done. by rewrite Hl2.
  - destruct (negb (err_not_exist e)); [apply wp_throw; by_error|].
    apply wp_bind. eapply wp_leaves; [eapply wp_impl; [apply reserve_create|by apply (wp_reserveIntent dom name s mode revision digest)]|].
    intros [x|e2] w2 Hl2 Hq; [|by_error]. destruct (Hq _ eq_refl) as (?&?&?). cbn [w_locks retick] in Hl2. cbn beta iota.
    apply wp_bind, wp_runHook; [|intros; split; [done|done]]. rewrite <-Hl2. apply wp_reconcileCreating; try done. by rewrite Hl2.
Qed.

(** *** A creation that a stray rebuild entry blocks *)
Section blocked.
Context {B : Type} {H : Host B} {E : Env} {D : Digests}.
Context (junk : string) (Hjunk : untouched (Rebuilds, junk)).
Implicit Types (w : world B).

Lemma wp_reserveIntent_stray s dom name mode revision digest w :
  stray junk (w_disk w) → wp look_steps (reserveIntent s dom name mode revision digest) (fails (w_locks w)) w.
Proof.
  intros Hst. unfold reserveIntent. apply wp_bind, wp_wrap, wp_AcquireGolden; [auto with go| |intros; by_error].
  intros w1 Htk. apply (stray_left_alone _ _ (w_disk w1)) in Hst; [|done|by eapply took_left_alone].
  destruct Htk as [Hf Hl _ _ _]. apply wp_deferred_leaves; [auto with go|apply closed_fails_first|done|]. rewrite <-Hl.
  apply wp_bind. eapply wp_conseq with (Q := λ _ w', same w1 w').
  { destruct (revision =s ""); apply wp_wrap, wp_quiet; [auto with quiet| |auto with quiet|]; by intros [g|e] m _. }
  intros [selected|e] w2 [Hd2 Hl2 _]; [|by_error]. cbn beta iota.
  apply wp_bind, wp_requireStoppedGolden; [done| |intros; by_error]. intros w3 Hd3 Hl3 _ _.
  wp_guard as _ by by_error. apply wp_bind, wp_host_ask. destruct (host_newID _) as [[id|e] b]; [|by_error]. cbn beta iota.
  wp_guard as _ by by_error. cbv zeta. apply wp_bind, wp_wrap, wp_lift. destruct (Backend.ValidateObjectID _); [|by_error]. cbn beta iota.
  apply wp_bind, wp_wrap, wp_quiet; [apply quiet_requireUnreservedBackendObject|]. intros [u|e] n Hun; [|by_error].
  eapply stray_unreserved in Hun; [done|]. cbn [w_disk]. by rewrite Hd3, Hd2.
Qed.
Lemma wp_create_stray dom name s rawName mode revision digest fresh w :
  admitDomain (sv_domain s) = Ok dom → Session.ParseName rawName = Ok name →
  stray junk (w_disk w) → untouched (Sessions, json_name name) → w_disk w !! (Sessions, json_name name) = None →
  wp look_steps (create s rawName mode revision digest fresh) (fails (w_locks w)) w.
Proof.
  intros Hdom Hname Hst Hun Hno. unfold create. wp_guard as _ by by_error.
  apply wp_bind, wp_lift. rewrite Hdom. wp_guard as _ by by_error.
  apply wp_bind, wp_lift. rewrite Hname. wp_guard as _ by by_error.
  apply wp_bind, wp_wrap, wp_AcquireSession; [auto with go| |intros; by_error]. intros w1 Htk.
  pose proof (took_left_alone _ _ _ Htk) as Hk. apply (stray_left_alone _ _ (w_disk w1)) in Hst; [|done..].
  rewrite <-(Hk _ Hun) in Hno. destruct Htk as [Hf Hl _ _ _].
  apply wp_deferred_leaves; [auto with go|apply closed_fails_first|done|]. rewrite <-Hl.
  apply wp_bind, wp_quiet; [quiet_tac|]. intros [u|e] n _; [|by_error].
  wp_read as u2 n2 _ by by_error.
  apply wp_bind, wp_attempt, wp_quiet; [auto with quiet|]. intros [record|e] n3 Hload; cbn beta iota.
  - apply LoadRecord_ok, view_Some in Hload as (f & Hf' & _). cbn [w_disk retick] in Hf'. by rewrite Hno in Hf'.
  - destruct (negb (err_not_exist e)); [apply wp_throw; by_error|].
    apply wp_bind. eapply wp_leaves; [by apply wp_reserveIntent_stray|].
    intros [x|e2] w2 Hl2 Hq; [done|by_error].
Qed.
End blocked.

(** ** Properties *)

(** C9: creation is write-ahead: whatever fails and whatever other lock
    holders do, the backend is cloned into an object, and its address
    randomized, only while the session lock is held and the session's own record
    is on disk as creating and names exactly that object; the clone is made only
    over an object observed absent, named after the session's identity, from
    the object of the golden revision that the record names and the registry
    holds, just observed stopped; the record becomes stopped only right
    after its object was observed stopped; nothing else is written; and success
    means the stopped record is what a reader now finds. *)
Theorem create_reserves_before_cloning `{H : Host B} {E : Env} {D : Digests} {SP : SessionProtocol E} (s : Service)
    (dom name rawName mode revision digest : string) (fresh : bool) (w : world B) :
  admitDomain (sv_domain s) = Ok dom → Session.ParseName rawName = Ok name →
  wp (create_steps dom name) (create s rawName mode revision digest fresh)
     (λ r w', w_locks w' = w_locks w ∧
        ∀ a, r = Ok a → sr_state a = StateStopped ∧ session_at dom name (w_disk w') = Some (upgradeRecordForStore a)) w.
Proof. apply wp_create. Qed.

(** A fresh reservation is exclusive: the creating record is published
    only under the session lock and the golden lock, for an object derived from
    the new identity that the backend reports absent and that no other session
    and no rebuild of the state root names, and with a golden revision that is
    registered on disk. *)
Theorem reservation_is_exclusive `{H : Host B} {E : Env} (s : Service) (dom name mode revision digest : string) (w : world B) :
  Lock.session_scope dom name ∈ w_locks w → dc_ID (sv_domain s) = dom →
  wp (reserve_steps dom name) (reserveIntent s dom name mode revision digest)
     (λ r w', w_locks w' = w_locks w ∧
        ∀ a, r = Ok a → sr_state a = StateCreating ∧ session_at dom name (w_disk w') = Some a) w.
Proof.
  intros Hin Hid. eapply wp_leaves; [by apply wp_reserveIntent|]. intros r w' Hl Hq. split; [done|].
  intros a Ha. by destruct (Hq a Ha) as (?&?&_).
Qed.

Section evaluations.
#[local] Existing Instance quietEnv.
#[local] Existing Instance labHost.
#[local] Instance labDigests : Digests := {| sha256 s := s |}.
Definition lab_service : Service :=
  mkService false (mkDomainConfig "work" "/var/lib/boxwarden/work" None) true true true None None.
Definition golden_world : world lab := worldOf lab_goldens {[ "base-1" := ObjectStopped ]}.
Example lab_create :
  (Create lab_service "dev" ModeClean golden_world).1 = Ok example_record ∧
  session_at "work" "dev" (w_disk (Create lab_service "dev" ModeClean golden_world).2) = Some example_record ∧
  is_ok (CreateFreshFromRevision lab_service "dev" ModeClean "base-1" (Create lab_service "dev" ModeClean golden_world).2).1 = false ∧
  (CreateFromRevision lab_service "dev" ModeClean "base-1" (Create lab_service "dev" ModeClean golden_world).2).1 = Ok example_record.
Proof. vm_compute. by split_and!. Qed.
Lemma create_reserves_before_cloning_witness :
  session_at "work" "dev" (w_disk (create lab_service "dev" ModeClean "" "" false golden_world).2) = Some (upgradeRecordForStore example_record).
Proof.
  refine (proj2 (proj2 (wp_result _ _ _ golden_world
    (create_reserves_before_cloning lab_service "work" "dev" "dev" ModeClean "" "" false golden_world _ _)) example_record _));
    vm_compute; reflexivity.
Defined.
Lemma reservation_is_exclusive_witness :
  let w := set_locks [Lock.session_scope "work" "dev"] golden_world in
  w_locks (reserveIntent lab_service "work" "dev" ModeClean "" "" w).2 = [Lock.session_scope "work" "dev"].
Proof.
  cbv zeta.
  pose proof (reservation_is_exclusive lab_service "work" "dev" ModeClean "" "" (set_locks [Lock.session_scope "work" "dev"] golden_world)
    ltac:(apply list_elem_of_here) ltac:(reflexivity)) as Hw.
  unfold wp in Hw. destruct (reserveIntent _ _ _ _ _ _ _) as [r w']. exact (proj1 (proj1 Hw)).
Defined.
End evaluations.
