(* ===== verification/SessionStart.v ===== *)
(** Starting and stopping a session: src/internal/session/start.go and
    stop.go. The workspace coordinator is reached only through the class
    [WorkspaceLifecycle], as in the source, where session code cannot import the
    volume package. *)
From S2P Require Import Prelude Ids Json JsonText SessionRecord Outside World Host Logic SessionStore RebuildJournal WorkspaceRecord WorkspaceStore SessionCreate.

Definition maxReadySnapshotAge : Z := 90 * 1000000000.

(** The coordinator of volume-first batch transactions. The boolean is the
    presence of the backend observer. *)
Class WorkspaceLifecycle (B : Type) := {
  PrepareStart : bool → string → SessionRecord → string → M B SessionRecord;
  PrepareRebuildStart : bool → string → SessionRecord → string → RebuildJournal → M B SessionRecord;
  VerifyUses : string → SessionRecord → M B unit;
  ReleaseUses : bool → string → SessionRecord → M B unit;
}.

Definition sameLaunchIdentity (before after : SessionRecord) : bool :=
  (sr_domain before =s sr_domain after) && (sr_name before =s sr_name after) && (sr_id before =s sr_id after) &&
  (sr_mode before =s sr_mode after) && bool_decide (sr_backend before = sr_backend after) &&
  (sr_golden before =s sr_golden after) && (sr_generation before =s sr_generation after).
Definition sameStoppedIdentity (before after : SessionRecord) : bool :=
  (sr_domain before =s sr_domain after) && (sr_name before =s sr_name after) && (sr_id before =s sr_id after) &&
  (sr_mode before =s sr_mode after) && bool_decide (sr_backend before = sr_backend after) &&
  (sr_golden before =s sr_golden after).
Definition startBinding (record : SessionRecord) : Binding :=
  mkBinding (sr_domain record) (sr_id record) (br_kind (sr_backend record)) (br_object_id (sr_backend record)) (sr_generation record).

(** [ObservedAt] is set, not in the future, and at most ninety seconds old. *)
Definition fresh (snapshot : Snapshot) (now : Z) : bool :=
  negb (sn_at snapshot =? 0) && (sn_at snapshot <=? now) && (now - sn_at snapshot <=? maxReadySnapshotAge).
(** The bootstrapped and the fully ready snapshot of one exact generation. *)
Definition bootstrapped (record : SessionRecord) (snapshot : Snapshot) (now : Z) : bool :=
  bool_decide (sn_binding snapshot = startBinding record) && sn_running snapshot && sn_serial snapshot && sn_pin snapshot &&
  fresh snapshot now.
Definition converged (snapshot : Snapshot) : bool := sn_cert snapshot && sn_probe snapshot && sn_zone snapshot.

Definition readyRecord (record : SessionRecord) : SessionRecord :=
  set_readiness (mkReadiness ReadinessReady "") (set_state StateRunning record).
Definition stoppingRecord (record : SessionRecord) : SessionRecord :=
  set_readiness (mkReadiness ReadinessNotReady "") (set_state StateStopping record).
Definition stoppedRecord (record : SessionRecord) : SessionRecord :=
  set_readiness (mkReadiness ReadinessNotReady (rr_diagnostic (sr_readiness record)))
    (set_generation "" (set_state StateStopped record)).
Definition set_diagnostic (d : string) (record : SessionRecord) : SessionRecord :=
  set_readiness (mkReadiness (rr_status (sr_readiness record)) d) record.

Definition outcomeDiagnostic (outcome : StopOutcome) : string :=
  "request=" +:+ so_request outcome +:+ " forced=" +:+ (if so_forced outcome then "true" else "false") +:+
  " workspace_cleanliness=unverified".

Section start.
Context {B : Type} {H : Host B} {E : Env} {D : Digests} {W : WorkspaceLifecycle B}.

Definition validStartDependencies (s : Service) (start : StartDependencies) : res unit :=
  match Domain.Parse (dc_ID (sv_domain s)) with
  | Er _ => fail "invalid configured domain"
  | Ok _ =>
      check (negb (blank (dc_StateRoot (sv_domain s)))) "invalid configured domain" ;;?
      check (sv_observer s && sd_Host start && sd_CA start && sd_Supervisor start && sd_Workspaces start &&
             sd_NewGeneration start && sd_Now start && negb (length (sd_ConfiguredDomains start) =? 0)%nat &&
             canonical_abs (sd_RuntimeRoot start) && canonical_abs (sd_ConfigPath start))
            "session start dependencies are required"
  end.

Definition admitStartPrerequisites (s : Service) (start : StartDependencies) : M B unit :=
  wrap "admit host runtime" (host_ask host_CheckRuntime) ;;!
  let selected := (dc_ID (sv_domain s), dc_StateRoot (sv_domain s)) in
  guard (negb (bool_decide (selected ∈ sd_ConfiguredDomains start))) "configured domain CA collection omits selected domain" ;;!
  wrap "admit selected domain management CA" (host_ask (host_CACheck selected (sd_ConfiguredDomains start))).

Definition persistReady (record : SessionRecord) (snapshot : Snapshot) : M B SessionRecord :=
  let! now := Now in
  guard (negb (bootstrapped record snapshot now && converged snapshot)) "supervisor did not provide a fresh exact ready snapshot" ;;!
  let record := readyRecord record in
  wrap "persist running ready session" (SaveRecord (sr_domain record) record) ;;!
  ret record.

Definition acceptStarted (record : SessionRecord) (snapshot : Snapshot) : M B SessionRecord :=
  let! now := Now in
  guard (negb (bootstrapped record snapshot now)) "supervisor did not provide a fresh exact bootstrapped snapshot" ;;!
  if converged snapshot then persistReady record snapshot else ret record.

Definition reconcileReady (record : SessionRecord) : M B SessionRecord :=
  let! snapshot := wrap "inspect exact running generation" (SupervisorSnapshot (startBinding record)) in
  persistReady record snapshot.

(** The stopped case: upgrade, settle the previous batch, reserve the new one
    and come back with the durably starting record. *)
Definition startStopped (start : StartDependencies) (domainID name : string) (rebuild : option RebuildJournal)
    (record : SessionRecord) : M B SessionRecord :=
  let session := Lock.session_scope domainID name in
  let! observation := wrap "observe stopped session backend" (observeExact (br_object_id (sr_backend record))) in
  guard (negb (exists_stopped observation)) "stopped session does not match one stopped backend object" ;;!
  let! record :=
    (if sr_version record =? recordVersionV1 then
       wrap "upgrade stopped session before workspace reservation" (SaveRecord domainID record) ;;!
       let! upgraded := wrap "stopped session upgrade did not retain exact identity" (LoadRecord domainID name) in
       guard (negb (sr_version upgraded =? recordVersion) || (sr_state upgraded ≠s StateStopped) ||
              negb (sameStoppedIdentity record upgraded)) "stopped session upgrade did not retain exact identity" ;;!
       ret upgraded
     else ret record) in
  wrap "release session lock before stopped workspace reconciliation" (Release session) ;;!
  wrap "reconcile stopped workspace uses before start" (ReleaseUses true domainID record) ;;!
  wrap "reacquire session lock after stopped workspace reconciliation" (AcquireSession domainID name) ;;!
  let! current := wrap "stopped session changed during workspace reconciliation" (LoadRecord domainID name) in
  guard (bool_decide (current ≠ record)) "stopped session changed during workspace reconciliation" ;;!
  let! generation := wrap "generate start generation" (host_ask host_NewGeneration) in
  guard (negb (Session.validUUID generation)) "generate start generation" ;;!
  wrap "release session lock before workspace reservation" (Release session) ;;!
  let! started := wrap "reserve workspaces and persist starting session"
    (match rebuild with
     | None => PrepareStart true domainID record generation
     | Some journal =>
         guard (negb (sd_rebuildWorkspaces start)) "rebuild workspace start capability is unavailable" ;;!
         PrepareRebuildStart true domainID record generation journal
     end) in
  wrap "reacquire session lock after workspace reservation" (AcquireSession domainID name) ;;!
  let! record := wrap "starting session changed after workspace reservation" (LoadRecord domainID name) in
  guard (bool_decide (record ≠ started) || (sr_state record ≠s StateStarting)) "starting session changed after workspace reservation" ;;!
  ret record.

(** The starting case: [inl] is a finished start, [inr] the record to launch. *)
Definition startStarting (domainID name : string) (record : SessionRecord) : M B (SessionRecord + SessionRecord) :=
  let! observation := wrap "observe starting session backend" (observeExact (br_object_id (sr_backend record))) in
  guard (negb (ob_exists observation)) "starting session backend is missing" ;;!
  let running := ob_state observation =s ObjectRunning in
  guard (negb (running || (ob_state observation =s ObjectStopped))) "starting session backend state is ambiguous" ;;!
  let! answer := attempt (SupervisorSnapshot (startBinding record)) in
  match answer with
  | Er e => if running then throw (wrapw "inspect exact starting generation" e) else ret (inr record)
  | Ok snapshot =>
      let! now := Now in
      guard (bool_decide (sn_binding snapshot ≠ startBinding record) || negb (fresh snapshot now))
            "supervisor did not provide a fresh exact running snapshot" ;;!
      if negb (sn_running snapshot) then
        guard running "supervisor did not provide a fresh exact running snapshot" ;;! ret (inr record)
      else if sn_serial snapshot && sn_pin snapshot then
        if converged snapshot then let! r := persistReady record snapshot in ret (inl r)
        else
          let! ready := wrap "converge exact starting generation" (SupervisorReady (startBinding record)) in
          let! r := acceptStarted record ready in ret (inl r)
      else if negb (sn_serial snapshot) then
        wrap "release session lock before poisoned-generation stop" (Release (Lock.session_scope domainID name)) ;;!
        wrap "stop poisoned exact serial generation" (SupervisorStop (startBinding record)) ;;!
        wrap "reacquire session lock after poisoned-generation stop" (AcquireSession domainID name) ;;!
        let! current := wrap "poisoned-generation stop changed starting record" (LoadRecord domainID name) in
        guard (negb (sameLaunchIdentity record current) || (sr_state current ≠s StateStarting))
              "poisoned-generation stop changed starting record" ;;!
        let! stopped := wrap "prove exact backend stopped before same-generation relaunch"
                          (observeExact (br_object_id (sr_backend current))) in
        guard (negb (exists_stopped stopped)) "exact backend did not stop before same-generation relaunch" ;;!
        ret (inr current)
      else ret (inr record)
  end.

Definition launchRequest (start : StartDependencies) (record : SessionRecord) : LaunchRequest :=
  mkLaunchRequest (startBinding record)
    (path_join (sd_RuntimeRoot start) [sr_domain record; sr_id record; sr_generation record])
    (sd_ConfigPath start) (sr_name record).

(** The common tail: launch the exact generation without the session lock,
    then accept what the reloaded record and the snapshot prove. *)
Definition launch (start : StartDependencies) (domainID name : string) (record : SessionRecord) : M B SessionRecord :=
  guard ((sr_generation record =s "") || negb (Session.validUUID (sr_generation record))) "starting session has no valid generation" ;;!
  wrap "release session lock before supervisor launch" (Release (Lock.session_scope domainID name)) ;;!
  let! snapshot := wrap "start exact generation" (StartExact (launchRequest start record)) in
  wrap "reacquire session lock after supervisor launch" (AcquireSession domainID name) ;;!
  let! current := wrap "reload session after supervisor launch" (LoadRecord domainID name) in
  guard (negb (sameLaunchIdentity record current)) "session launch binding changed during supervisor handoff" ;;!
  if sr_state current =s StateStarting then acceptStarted current snapshot
  else if sr_state current =s StateRunning then reconcileReady current
  else throw (Errorf "session intent changed during supervisor handoff").

Definition rebuild_phase_ok (p : string) : bool := (p =s RebuildCutover) || (p =s RebuildReady) || (p =s RebuildRetiring).
Definition requireStartable (domainID name : string) (rebuild : option RebuildJournal) (record : SessionRecord) : M B unit :=
  match rebuild with
  | None => RequireNoRebuild domainID name
  | Some journal =>
      let! current := wrapv "starting session lacks exact candidate rebuild journal" (LoadRebuildJournal domainID name) in
      guard (bool_decide (current ≠ journal) || negb (rebuild_phase_ok (rj_phase current)) || (rj_session_id current ≠s sr_id record) ||
             (rj_cand_backend current ≠s br_object_id (sr_backend record)) || (rj_cand_revision current ≠s sr_golden record) ||
             (rj_cand_intent current ≠s sr_intent record)) "starting session lacks exact candidate rebuild journal"
  end.

Definition startSession (s : Service) (rawName : string) (rebuild : option RebuildJournal) : M B SessionRecord :=
  match sv_nil s, sv_start s with
  | false, Some start =>
      lift (validStartDependencies s start) ;;!
      let domainID := dc_ID (sv_domain s) in
      let! name := lift (Session.ParseName rawName) in
      wrap "acquire session transition lock" (Acquire (Lock.transition_scope domainID name)) ;;!
      deferred_first (Lock.transition_scope domainID name) (
      wrap "acquire session lock" (AcquireSession domainID name) ;;!
      deferred_first (Lock.session_scope domainID name) (
      let! record := wrap "load session record" (LoadRecord domainID name) in
      (if sr_intent record ≠s "" then wrap "load bound recipe intent before start" (LoadRecipeIntent (sr_intent record)) else ret EmptyString) ;;!
      requireStartable domainID name rebuild record ;;!
      admitStartPrerequisites s start ;;!
      guard ((br_kind (sr_backend record) ≠s "tart") || (br_object_id (sr_backend record) =s "")) "session backend binding is unsupported" ;;!
      (if (sr_state record =s StateStarting) || (sr_state record =s StateRunning)
       then wrap "verify exact workspace uses" (VerifyUses domainID record) else ret tt) ;;!
      if sr_state record =s StateStopped then
        let! started := startStopped start domainID name rebuild record in
        launch start domainID name started
      else if sr_state record =s StateStarting then
        let! r := startStarting domainID name record in
        match r with
        | inl finished => ret finished
        | inr record => launch start domainID name record
        end
      else if sr_state record =s StateRunning then reconcileReady record
      else throw (Errorf "session has incompatible start state")))
  | _, _ => throw (Errorf "session start dependencies are required")
  end.
Definition Start (s : Service) (rawName : string) : M B SessionRecord := startSession s rawName None.
Definition StartRebuildCandidate (s : Service) (rawName : string) (journal : RebuildJournal) : M B SessionRecord :=
  startSession s rawName (Some journal).

(** ** stop.go *)

Definition persistStopped (record : SessionRecord) : M B SessionRecord :=
  let record := stoppedRecord record in
  wrap "persist stopped session" (SaveRecord (sr_domain record) record) ;;!
  ret record.

Definition finishStopped (domainID name : string) (expected : SessionRecord) (diagnostic : string) : M B SessionRecord :=
  wrap "release session lock before workspace use release" (Release (Lock.session_scope domainID name)) ;;!
  wrap "release exact workspace uses after stop" (ReleaseUses true domainID expected) ;;!
  wrap "reacquire session lock after workspace use release" (AcquireSession domainID name) ;;!
  let! current := wrap "reload session after workspace use release" (LoadRecord domainID name) in
  guard (bool_decide (current ≠ expected)) "session changed during workspace use release" ;;!
  let! observation := wrap "observe exact backend after stop" (observeExact (br_object_id (sr_backend current))) in
  guard (negb (exists_stopped observation)) "supervisor stop did not prove exact backend stopped" ;;!
  if sr_state current =s StateStopped then ret current
  else persistStopped (set_diagnostic diagnostic current).

(** The supervisor is asked to stop the exact generation; when it reports an
    outcome, that is the diagnostic kept in the stopped record. *)
Definition stopGeneration (start : StartDependencies) (record : SessionRecord) : M B string :=
  if sd_reportsOutcome start then
    let! outcome := wrap "stop exact generation" (StopWithOutcome (startBinding record)) in
    ret (if StopOutcome_Valid outcome then outcomeDiagnostic outcome else EmptyString)
  else
    wrap "stop exact generation" (SupervisorStop (startBinding record)) ;;!
    ret EmptyString.

Definition stopActive (start : StartDependencies) (domainID name : string) (observation : Observation) (record : SessionRecord)
  : M B SessionRecord :=
  guard (negb (Session.validUUID (sr_generation record))) "session has no exact generation to stop" ;;!
  let! record :=
    (if sr_state record ≠s StateStopping then
       let record := stoppingRecord record in
       wrap "persist stopping intent" (SaveRecord domainID record) ;;!
       ret record
     else ret record) in
  let! quiesced :=
    (if ob_state observation =s ObjectStopped
     then wrap "prove exact generation quiesced" (Quiesced (startBinding record)) else ret false) in
  if quiesced : bool then finishStopped domainID name record ""
  else
    wrap "release session lock before supervisor stop" (Release (Lock.session_scope domainID name)) ;;!
    let! diagnostic := stopGeneration start record in
    finishStopped domainID name record diagnostic.

Definition Stop (s : Service) (rawName : string) : M B SessionRecord :=
  match sv_nil s, sv_start s with
  | false, Some start =>
      guard (negb (sv_observer s) || negb (sd_Supervisor start) || negb (sd_Workspaces start))
            "session stop dependencies are required" ;;!
      let! domainID := lift (admitDomain (sv_domain s)) in
      let! name := lift (Session.ParseName rawName) in
      wrap "acquire session transition lock" (Acquire (Lock.transition_scope domainID name)) ;;!
      deferred_first (Lock.transition_scope domainID name) (
      wrap "acquire session lock" (AcquireSession domainID name) ;;!
      deferred_first (Lock.session_scope domainID name) (
      let! record := wrap "load session record" (LoadRecord domainID name) in
      guard ((br_kind (sr_backend record) ≠s "tart") || (br_object_id (sr_backend record) =s "")) "unsupported session backend binding" ;;!
      let! observation := observeExact (br_object_id (sr_backend record)) in
      guard (negb (ob_exists observation) || (ob_state observation ≠s ObjectStopped) && (ob_state observation ≠s ObjectRunning))
            "exact session backend is absent or ambiguous" ;;!
      if sr_state record =s StateStopped then
        guard (ob_state observation ≠s ObjectStopped) "stopped intent conflicts with running backend" ;;!
        finishStopped domainID name record ""
      else if (sr_state record =s StateStarting) || (sr_state record =s StateRunning) || (sr_state record =s StateStopping)
      then stopActive start domainID name observation record
      else throw (Errorf "session has incompatible stop state")))
  | _, _ => throw (Errorf "session stop dependencies are required")
  end.
End start.

(** ** What the coordinator promises *)

(** The steps a workspace transaction of one session may record: it locks,
    observes the session's object, takes or gives up the uses of the volumes
    attached to the session, and publishes the session only as [published]
    allows. *)
Definition workspace_steps (dom name object : string) (published : disk → Prop) (o : list step) (s : step) : Prop :=
  match st_event s with
  | EvAcquire _ | EvRelease _ => True
  | EvObserve id _ => id = object
  | EvPublish Workspaces _ _ => use_step dom name o s
  | EvPublish Sessions n _ => n = json_name name ∧ Lock.session_scope dom name ∈ st_locks s ∧ published (st_disk s)
  | _ => False
  end.
(** The steps of a transaction that only reads. *)
Definition lock_steps (_ : list step) (s : step) : Prop :=
  match st_event s with EvAcquire _ | EvRelease _ => True | _ => False end.
(** [b] is [a], durably starting under a generation. *)
Definition starts (a b : SessionRecord) (generation : string) : Prop :=
  sr_state b = StateStarting ∧ sr_generation b = generation ∧ sr_backend b = sr_backend a ∧ sr_id b = sr_id a ∧
  sr_domain b = sr_domain a ∧ sr_name b = sr_name a.
Definition prepares {B} {E : Env} (dom : string) (record : SessionRecord) (generation : string) (m : M B SessionRecord) : Prop :=
  ∀ w, wp (workspace_steps dom (sr_name record) (br_object_id (sr_backend record))
             (λ k, ∃ r, session_at dom (sr_name record) k = Some r ∧ starts record r generation)) m
          (λ r w', w_locks w' = w_locks w ∧ ∀ a, r = Ok a → starts record a generation) w.
(** The files of a session that its session lock protects. *)
Definition same_session (dom name : string) (k k' : disk) : Prop :=
  k' !! (Sessions, json_name name) = k !! (Sessions, json_name name) ∧ k' !! (Rebuilds, json_name name) = k !! (Rebuilds, json_name name).
(** Only reading: the session the caller has locked stays as it is. *)
Definition keeps_session {B} {E : Env} (dom name : string) (m : M B unit) : Prop :=
  ∀ w, wp lock_steps m
          (λ _ w', w_locks w' = w_locks w ∧ (Lock.session_scope dom name ∈ w_locks w → same_session dom name (w_disk w) (w_disk w'))) w.
(** Releasing: no session is published; the caller has not locked it. *)
Definition publishes_no_session {B} {E : Env} (dom name object : string) (m : M B unit) : Prop :=
  ∀ w, wp (workspace_steps dom name object (λ _, False)) m (λ _ w', w_locks w' = w_locks w) w.
Class WorkspaceLaws (B : Type) {E : Env} {W : WorkspaceLifecycle B} : Prop := {
  law_prepare : ∀ observer dom record generation, prepares dom record generation (PrepareStart observer dom record generation);
  law_prepare_rebuild : ∀ observer dom record generation journal,
    prepares dom record generation (PrepareRebuildStart observer dom record generation journal);
  law_verify : ∀ dom record, keeps_session dom (sr_name record) (VerifyUses dom record);
  law_release : ∀ observer dom record, publishes_no_session dom (sr_name record) (br_object_id (sr_backend record)) (ReleaseUses observer dom record);
}.

(** ** The steps of a start *)

(** A fully converged, fresh snapshot of exactly this record's generation was
    among the answers received, and the clock was read last. *)
Definition vouched (r : SessionRecord) (o : list step) : Prop :=
  ∃ now k L rest snapshot, o = Step (EvNow now) k k L :: rest ∧ bootstrapped r snapshot now = true ∧ converged snapshot = true ∧
    ∃ t, t ∈ rest ∧ ((∃ request, st_event t = EvStartExact request (Ok snapshot)) ∨ ∃ b, st_event t = EvSnapshot b (Ok snapshot)).
Definition vouched_since (r : SessionRecord) (o : list step) : Prop := ∃ later earlier, o = later ++ earlier ∧ vouched r earlier.
Lemma vouched_since_cons r s o : vouched_since r o → vouched_since r (s :: o).
Proof. intros (later & earlier & -> & Hv). by exists (s :: later), earlier. Qed.
Definition start_session_steps (dom name : string) (o : list step) (s : step) : Prop :=
  match st_event s with
  | EvAcquire _ | EvRelease _ | EvObserve _ _ | EvSnapshot _ _ | EvNow _ => True
  | EvPublish Workspaces _ _ => use_step dom name o s
  | EvPublish Sessions n _ =>
      n = json_name name ∧ Lock.session_scope dom name ∈ st_locks s ∧
      ∃ r, session_at dom name (st_disk s) = Some r ∧
        (sr_state r = StateStopped ∨ sr_state r = StateStarting ∨
         sr_state r = StateRunning ∧ rr_status (sr_readiness r) = ReadinessReady ∧ vouched r o)
  | EvStartExact request _ =>
      Lock.transition_scope dom name ∈ st_locks s ∧ ¬ (Lock.session_scope dom name ∈ st_locks s) ∧ lr_record request = name ∧
      ∃ r, durably StateStarting dom name s r ∧ lr_binding request = startBinding r ∧ Session.validUUID (sr_generation r) = true
  | EvStop b _ =>
      Lock.transition_scope dom name ∈ st_locks s ∧ ∃ r, durably StateStarting dom name s r ∧ b = startBinding r
  | _ => False
  end.
(** The steps of a readiness check alone. *)
Definition check_steps (dom name : string) (o : list step) (s : step) : Prop :=
  match st_event s with
  | EvAcquire _ | EvRelease _ | EvObserve _ _ | EvSnapshot _ _ | EvNow _ => True
  | EvPublish Sessions n _ =>
      n = json_name name ∧ Lock.session_scope dom name ∈ st_locks s ∧
      ∃ r, session_at dom name (st_disk s) = Some r ∧ sr_state r = StateRunning ∧ rr_status (sr_readiness r) = ReadinessReady ∧ vouched r o
  | _ => False
  end.
Lemma check_start dom name o s : check_steps dom name o s → start_session_steps dom name o s.
Proof.
  unfold check_steps, start_session_steps. destruct (st_event s) as [| |[]| | | | | | | | | | | | | | | | | | |]; try done.
  intros (?&?&r&?&?&?&?). split_and!; [done|done|]. exists r. split; [done|]. right. by right.
Qed.
Lemma workspace_check dom name o s : lock_steps o s → check_steps dom name o s.
Proof. unfold lock_steps, check_steps. by destruct (st_event s). Qed.
Lemma check_lock_free dom name : lock_free (check_steps dom name).
Proof. intros o s sc [Hs|Hs]; unfold check_steps; by rewrite Hs. Qed.
#[export] Hint Resolve check_lock_free : go.
Lemma start_lock_free dom name : lock_free (start_session_steps dom name).
Proof. intros o s sc [Hs|Hs]; unfold start_session_steps; by rewrite Hs. Qed.
#[export] Hint Resolve start_lock_free : go.
Lemma workspace_start dom name object (published : disk → Prop) o s :
  (∀ k, published k → ∃ r, session_at dom name k = Some r ∧ sr_state r = StateStarting) →
  workspace_steps dom name object published o s → start_session_steps dom name o s.
Proof.
  intros Hp. unfold workspace_steps, start_session_steps. destruct (st_event s) as [| |d n f| | | | | | | | | | | | | | | | | | |]; try done.
  destruct d; try done. intros (?&?&Hk). split; [done|]. split; [done|]. destruct (Hp _ Hk) as (r&?&?). eauto 6.
Qed.

Section start_lemmas.
Context {B : Type} {H : Host B} {E : Env} {D : Digests} {W : WorkspaceLifecycle B} {WL : WorkspaceLaws B} {SP : SessionProtocol E}.
Context (dom name : string) (L0 : list string).
Implicit Types (w : world B).
#[local] Abbreviation session_lock := (Lock.session_scope dom name).
#[local] Abbreviation transition_lock := (Lock.transition_scope dom name).
#[local] Abbreviation session_key := (Sessions, json_name name).
#[local] Abbreviation steps := (start_session_steps dom name).
#[local] Abbreviation checks := (check_steps dom name).

(** The locks of a start: with and without the session lock. *)
Context (free_session : session_lock ∉ transition_lock :: L0) (free_transition : transition_lock ∉ L0).
Definition with_session : list string := session_lock :: transition_lock :: L0.
Definition without_session : list string := transition_lock :: L0.

(** The end of a start: the record returned is the one on disk, running or
    still starting; with an error the session lock may already be given up. *)
Definition start_result (r : res SessionRecord) (w : world B) : Prop :=
  (w_locks w = with_session ∨ w_locks w = without_session) ∧
  ∀ a, r = Ok a → session_at dom name (w_disk w) = Some a ∧ sr_state a ∈ [StateRunning; StateStarting].
Lemma start_error e w : w_locks w = with_session ∨ w_locks w = without_session → start_result (Er e) w.
Proof. intros HL. by split. Qed.

Lemma wp_Now P (Q : res Z → world B → Prop) w :
  (∀ o t k L, P o (Step (EvNow t) k k L)) →
  (∀ t b, Q (Ok t) (World (w_disk w) b (w_locks w) (Step (EvNow t) (w_disk w) (w_disk w) (w_locks w) :: w_trace w) (w_tick w))) → wp P Now Q w.
Proof.
  intros HP HQ. unfold Now. apply wp_host_call. intros r b Hr. destruct (host_Now (w_host w)) as [t b'] eqn:Et.
  injection Hr as <- <-. split; [apply HP|]. apply HQ.
Qed.

(** The end of a readiness check: the record is durably ready, on evidence. *)
Definition ready_result (record : SessionRecord) (k : disk) (r : res SessionRecord) (w : world B) : Prop :=
  w_locks w = with_session ∧
  ∀ a, r = Ok a → a = readyRecord record ∧ session_at dom name (w_disk w) = Some a ∧ vouched_since a (w_trace w) ∧
    w_disk w !! (Rebuilds, json_name name) = k !! (Rebuilds, json_name name).
Lemma ready_start record k r w : ready_result record k r w → start_result r w.
Proof.
  intros [HL Hq]. split; [by left|]. intros a Ha. destruct (Hq a Ha) as (-> & Hat & _). split; [done|]. apply elem_of_cons. by left.
Qed.
Lemma wp_ready {m : M B SessionRecord} {record k w} : wp checks m (ready_result record k) w → wp steps m start_result w.
Proof. intros Hm. eapply wp_impl; [apply check_start|]. eapply wp_conseq; [exact Hm|]. apply ready_start. Qed.

Lemma wp_persistReady record snapshot w :
  w_locks w = with_session → session_at dom name (w_disk w) = Some record →
  (∃ t, t ∈ w_trace w ∧ ((∃ request, st_event t = EvStartExact request (Ok snapshot)) ∨ ∃ b, st_event t = EvSnapshot b (Ok snapshot))) →
  wp checks (persistReady record snapshot) (ready_result record (w_disk w)) w.
Proof.
  assert (∀ e w', w_locks w' = with_session → ready_result record (w_disk w) (Er e) w') as Her by (intros; by split).
  intros HL Hat Hsn. pose proof (session_at_ids _ _ _ _ Hat) as [Hdom Hname].
  unfold persistReady. apply wp_bind, wp_Now; [done|]. intros now b.
  wp_guard as Hg%negb_false_iff by by apply Her. apply andb_true_iff in Hg as [Hb Hc].
  assert (vouched (readyRecord record) (Step (EvNow now) (w_disk w) (w_disk w) (w_locks w) :: w_trace w)) as Hvouched.
  { exists now, (w_disk w), (w_locks w), (w_trace w), snapshot. split_and!; [done|exact Hb|done|done]. }
  apply wp_bind, wp_wrap, wp_SaveRecord; [|intros; by apply Her]. cbn [sr_domain readyRecord set_readiness set_state]. rewrite Hdom.
  intros Hok. pose proof (session_at_saved dom (readyRecord record) (w_disk w) Hok) as Hsaved.
  assert (upgradeRecordForStore (readyRecord record) = readyRecord record) as Hup by (by apply upgrade_active).
  rewrite Hup in Hsaved. change (sr_name (readyRecord record)) with (sr_name record) in Hsaved. rewrite Hname in Hsaved.
  split.
  - unfold checks. cbn [st_event save_event st_locks st_disk w_disk w_trace w_locks].
    split_and!; [by rewrite <-Hname|rewrite HL; apply elem_of_cons; by left|]. by exists (readyRecord record).
  - intros [[]|e]; cbn beta iota; [|by apply Her]. apply wp_ret. split; [done|].
    intros a [= <-]. split_and!; [done|done|by eexists [_], _|]. cbn. unfold saved_disk. by rewrite lookup_insert_ne.
Qed.

Definition answered (snapshot : Snapshot) (o : list step) : Prop :=
  ∃ t, t ∈ o ∧ ((∃ request, st_event t = EvStartExact request (Ok snapshot)) ∨ ∃ b, st_event t = EvSnapshot b (Ok snapshot)).
Lemma answered_cons snapshot s o : answered snapshot o → answered snapshot (s :: o).
Proof. intros (t & Ht & Ha). exists t. split; [by apply elem_of_cons; right|done]. Qed.

Lemma wp_acceptStarted record snapshot w :
  w_locks w = with_session → session_at dom name (w_disk w) = Some record → sr_state record = StateStarting →
  answered snapshot (w_trace w) → wp steps (acceptStarted record snapshot) start_result w.
Proof.
  intros HL Hat Hst Hsn. unfold acceptStarted. apply wp_bind, wp_Now; [done|]. intros now b.
  wp_guard as _ by (apply start_error; by left). destruct (converged snapshot).
  - eapply wp_ready, wp_persistReady; [done|done|]. by apply answered_cons.
  - apply wp_ret. split; [by left|]. intros a [= <-]. split; [done|]. rewrite Hst. set_solver.
Qed.
Lemma wp_reconcileReady record w :
  w_locks w = with_session → session_at dom name (w_disk w) = Some record → wp checks (reconcileReady record) (ready_result record (w_disk w)) w.
Proof.
  intros HL Hat. unfold reconcileReady. apply wp_bind, wp_wrap, wp_host_call. intros [snapshot|e] b _; (split; [done|]);
    [|by split]. cbn beta iota. eapply wp_conseq; [apply wp_persistReady; [done|done|]|done].
  eexists. split; [apply elem_of_cons; by left|]. right. by eexists.
Qed.

Lemma release_session_lock P msg (Q : res unit → world B → Prop) w :
  lock_free P → w_locks w = with_session →
  (∀ r w', w_locks w' = without_session → w_disk w' = w_disk w → w_trace w ⊆ w_trace w' → Q r w') →
  wp P (wrap msg (Release session_lock)) Q w.
Proof.
  intros HP HL HQ. apply wp_wrap, (wp_Release_held _ _ without_session); [done|done|done|].
  intros r w' Hl Hd _ Ht. apply HQ; [done|done|]. rewrite Ht. set_solver.
Qed.
Lemma acquire_session_lock P msg (Q : res unit → world B → Prop) w :
  lock_free P → w_locks w = without_session →
  (∀ w', w_locks w' = with_session → w_trace w ⊆ w_trace w' → Q (Ok tt) w') →
  (∀ e n, Q (Er e) (retick n w)) → wp P (wrap msg (AcquireSession dom name)) Q w.
Proof.
  intros HP HL H1 H2. apply wp_wrap, wp_AcquireSession; [done| |intros; apply H2]. intros w' [Hf Hl _ _ Ht].
  apply H1; [by rewrite Hl, HL|]. rewrite Ht. set_solver.
Qed.

Lemma wp_launch start record w :
  w_locks w = with_session → session_at dom name (w_disk w) = Some record → sr_state record = StateStarting →
  wp steps (launch start dom name record) start_result w.
Proof.
  intros HL Hat Hst. pose proof (session_at_ids _ _ _ _ Hat) as [Hdom Hname]. unfold launch.
  wp_guard as Hg by (apply start_error; by left). rewrite orb_false_iff, negb_false_iff in Hg. destruct Hg as [_ Hgen].
  apply wp_bind, release_session_lock; [auto with go|done|]. intros [[]|e] w1 Hl1 Hd1 _; [|apply start_error; by right]. cbn beta iota.
  apply wp_bind, wp_wrap, wp_host_call. intros r b _. split.
  { cbn [st_event st_locks]. unfold steps. cbn [st_event st_locks st_disk]. rewrite Hl1.
    split_and!; [apply elem_of_cons; by left|done|exact Hname|]. exists record. unfold durably. cbn [st_disk]. rewrite Hd1. done. }
  destruct r as [snapshot|e]; [|apply start_error; by right]. cbn beta iota.
  assert (answered snapshot (w_trace (asked (EvStartExact (launchRequest start record)) (Ok snapshot) b w1))) as Ha.
  { eexists. split; [apply elem_of_cons; by left|]. left. by eexists. }
  apply wp_bind, acquire_session_lock; [auto with go|done| |intros; apply start_error; by right].
  intros w2 Hl2 Ht2. assert (answered snapshot (w_trace w2)) as Ha2 by (destruct Ha as (t & Ht & Ha); exists t; split; [set_solver|done]).
  wp_read as cur n Hcur by (apply start_error; by left). apply LoadRecord_ok in Hcur.
  wp_guard as _ by (apply start_error; by left).
  destruct (sr_state cur =s StateStarting) eqn:E1; [|destruct (sr_state cur =s StateRunning) eqn:E2; [|apply wp_throw, start_error; by left]]; bsimpl.
  - by apply wp_acceptStarted.
  - by eapply wp_ready, wp_reconcileReady.
Qed.

(** The branch of a record already starting: done, or a record to launch that
    is durably starting. *)
Definition starting_result (r : res (SessionRecord + SessionRecord)) (w : world B) : Prop :=
  (w_locks w = with_session ∨ w_locks w = without_session) ∧
  ∀ a, r = Ok a → match a with
    | inl x => session_at dom name (w_disk w) = Some x ∧ sr_state x ∈ [StateRunning; StateStarting]
    | inr x => w_locks w = with_session ∧ session_at dom name (w_disk w) = Some x ∧ sr_state x = StateStarting
    end.
Lemma wp_finished (m : M B SessionRecord) w :
  wp steps m start_result w → wp steps (let! r := m in ret (inl r)) starting_result w.
Proof.
  intros Hm. apply wp_bind. eapply wp_conseq; [exact Hm|]. intros [a|e] w' [HL Hq]; [|by split].
  apply wp_ret. split; [done|]. intros x [= <-]. by apply Hq.
Qed.
Lemma wp_startStarting record w :
  w_locks w = with_session → session_at dom name (w_disk w) = Some record → sr_state record = StateStarting →
  wp steps (startStarting dom name record) starting_result w.
Proof.
  intros HL Hat Hst. unfold startStarting.
  assert (∀ e w', w_locks w' = with_session ∨ w_locks w' = without_session → starting_result (Er e) w') as Her by (intros; by split).
  apply wp_bind, wp_wrap, wp_observeExact; [done| |intros; apply Her; left; congruence]. intros ob w1 [Hd1 Hl1 _ _]. cbn beta iota.
  assert (w_locks w1 = with_session) as HL1 by congruence.
  wp_guard as _ by (apply Her; by left). cbv zeta. wp_guard as _ by (apply Her; by left).
  apply wp_bind, wp_attempt, wp_host_call. intros r b _. split; [done|].
  assert (∀ w', w_locks w' = with_session → w_disk w' = w_disk w1 → starting_result (Ok (inr record)) w') as Hinr.
  { intros w' Hl Hd. split; [by left|]. intros a [= <-]. rewrite Hd, Hd1. done. }
  destruct r as [snapshot|e]; cbn beta iota.
  2:{ destruct (ob_state ob =s ObjectRunning); [apply wp_throw, Her; by left|by apply wp_ret, Hinr]. }
  set (w2 := asked _ _ _ _).
  assert (answered snapshot (w_trace w2)) as Ha by (eexists; split; [apply elem_of_cons; by left|]; right; by eexists).
  apply wp_bind, wp_Now; [done|]. intros now b'.
  wp_guard as _ by (apply Her; by left).
  destruct (negb (sn_running snapshot)).
  { wp_guard as _ by (apply Her; by left). by apply wp_ret, Hinr. }
  destruct (sn_serial snapshot && sn_pin snapshot).
  { destruct (converged snapshot).
    - eapply wp_finished, wp_ready, wp_persistReady; [done|by rewrite <-Hat, <-Hd1|]. by apply answered_cons.
    - apply wp_bind, wp_wrap, wp_host_call. intros [ready|e] b2 _; (split; [done|]); [|apply Her; by left]. cbn beta iota.
      apply wp_finished, wp_acceptStarted; [done|by rewrite <-Hat, <-Hd1|done|].
      eexists. split; [apply elem_of_cons; by left|]. right. by eexists. }
  destruct (negb (sn_serial snapshot)); [|by apply wp_ret, Hinr].
  apply wp_bind, release_session_lock; [auto with go|done|]. intros [[]|e] w3 Hl3 Hd3 _; [|apply Her; by right]. cbn beta iota.
  apply wp_bind, wp_wrap, wp_host_call. intros r b3 _. split.
  { unfold steps. cbn [st_event st_locks st_disk]. rewrite Hl3. split; [apply elem_of_cons; by left|].
    exists record. unfold durably. cbn [st_disk]. rewrite Hd3. cbn [w_disk w2 asked]. by rewrite Hd1. }
  destruct r as [[]|e]; [|apply Her; by right]. cbn beta iota.
  apply wp_bind, acquire_session_lock; [auto with go|done| |intros; apply Her; by right]. intros w4 Hl4 _.
  wp_read as cur n Hcur by (apply Her; by left). apply LoadRecord_ok in Hcur.
  wp_guard as Hg by (apply Her; by left). rewrite orb_false_iff, !negb_false_iff, String.eqb_eq in Hg. destruct Hg as [_ Hcs].
  apply wp_bind, wp_wrap, wp_observeExact; [done| |intros; apply Her; left; cbn in *; congruence]. intros ob2 w5 [Hd5 Hl5 _ _]. cbn beta iota.
  wp_guard as _ by (apply Her; left; cbn in *; congruence). apply wp_ret. cbn [w_locks w_disk retick] in *.
  split; [left; congruence|]. intros a [= <-]. rewrite Hd5. split_and!; [congruence|done|done].
Qed.

Definition stopped_start_result (r : res SessionRecord) (w : world B) : Prop :=
  (w_locks w = with_session ∨ w_locks w = without_session) ∧
  ∀ a, r = Ok a → w_locks w = with_session ∧ session_at dom name (w_disk w) = Some a ∧ sr_state a = StateStarting.
Lemma stopped_start_error e w : w_locks w = with_session ∨ w_locks w = without_session → stopped_start_result (Er e) w.
Proof. intros HL. by split. Qed.

(** A workspace transaction, run without the session lock. *)
Lemma wp_keeps_session (m : M B unit) (Q : res unit → world B → Prop) w :
  keeps_session dom name m →
  (∀ r w', w_locks w' = w_locks w →
     (session_lock ∈ w_locks w → same_session dom name (w_disk w) (w_disk w')) → Q r w') → wp steps m Q w.
Proof.
  intros Hm HQ. eapply wp_conseq; [eapply wp_impl; [|apply Hm]|].
  - intros o s Hs. by apply check_start, workspace_check.
  - intros r w' [Hl Hk]. auto.
Qed.
Lemma wp_publishes_none (m : M B unit) object (Q : res unit → world B → Prop) w :
  publishes_no_session dom name object m → (∀ r w', w_locks w' = w_locks w → Q r w') → wp steps m Q w.
Proof.
  intros Hm HQ. eapply wp_conseq; [eapply wp_impl; [|apply Hm]|apply HQ]. intros o s. by apply workspace_start.
Qed.
Lemma wp_prepares (m : M B SessionRecord) record generation (Q : res SessionRecord → world B → Prop) w :
  sr_name record = name → prepares dom record generation m →
  (∀ r w', w_locks w' = w_locks w → Q r w') → wp steps m Q w.
Proof.
  intros Hn Hm HQ. eapply wp_conseq; [eapply wp_impl; [|apply Hm]|].
  - intros o s. rewrite Hn. apply workspace_start. intros k (r & Hr & Hs & _). eauto.
  - intros r w' [Hl _]. auto.
Qed.

Lemma wp_startStopped start rebuild record w :
  w_locks w = with_session → session_at dom name (w_disk w) = Some record → sr_state record = StateStopped →
  wp steps (startStopped start dom name rebuild record) stopped_start_result w.
Proof.
  intros HL Hat Hst. pose proof (session_at_ids _ _ _ _ Hat) as [Hdom Hname]. unfold startStopped. cbv zeta.
  apply wp_bind, wp_wrap, wp_observeExact; [done| |intros; apply stopped_start_error; left; congruence].
  intros ob w1 [Hd1 Hl1 _ _]. cbn beta iota. assert (w_locks w1 = with_session) as HL1 by congruence.
  wp_guard as _ by (apply stopped_start_error; by left).
  apply wp_bind. eapply wp_conseq with (Q := λ r w', w_locks w' = with_session ∧ ∀ a, r = Ok a → sr_name a = name).
  { destruct (sr_version record =? recordVersionV1); [|apply wp_ret; split; [done|]; by intros a [= <-]].
    apply wp_bind, wp_wrap, wp_SaveRecord; [|intros; by split]. rewrite Hd1. intros Hok. split.
    - unfold steps. cbn [st_event save_event st_locks st_disk]. rewrite HL1. split_and!; [by rewrite Hname|apply elem_of_cons; by left|].
      exists (upgradeRecordForStore record). split; [rewrite <-Hname; by apply session_at_saved|].
      destruct (upgrade_fields record) as (_&_&_&->&_). by left.
    - intros [[]|e]; cbn beta iota; [|by split].
      wp_read as up n Hup by by split. apply LoadRecord_ok, session_at_ids in Hup as [_ Hn].
      wp_guard as _ by by split. apply wp_ret. split; [done|]. by intros a [= <-]. }
  intros [rec|e] w2 [Hl2 Hn2]; [|apply stopped_start_error; by left]. specialize (Hn2 _ eq_refl). cbn beta iota.
  apply wp_bind, release_session_lock; [auto with go|done|]. intros [[]|e] w3 Hl3 _ _; [|apply stopped_start_error; by right]. cbn beta iota.
  apply wp_bind, wp_wrap. eapply (wp_publishes_none _ (br_object_id (sr_backend rec))); [rewrite <-Hn2; apply law_release|].
  intros [u|e] w4 Hl4; [|apply stopped_start_error; right; congruence]. cbn beta iota.
  apply wp_bind, acquire_session_lock; [auto with go|congruence| |intros; apply stopped_start_error; right; cbn; congruence].
  intros w5 Hl5 _.
  wp_read as cur n5 Hcur by (apply stopped_start_error; by left).
  wp_guard as _ by (apply stopped_start_error; by left).
  apply wp_bind, wp_wrap, wp_host_ask. destruct (host_NewGeneration _) as [[generation|e] b]; [|apply stopped_start_error; by left]. cbn beta iota.
  wp_guard as _ by (apply stopped_start_error; by left).
  apply wp_bind, release_session_lock; [auto with go|done|]. intros [[]|e] w6 Hl6 _ _; [|apply stopped_start_error; by right]. cbn beta iota.
  apply wp_bind, wp_wrap. eapply wp_conseq with (Q := λ r w', w_locks w' = without_session).
  { destruct rebuild as [journal|].
    - wp_guard as _ by done. eapply wp_prepares; [exact Hn2|apply law_prepare_rebuild|]. intros r w' Hl. congruence.
    - eapply wp_prepares; [exact Hn2|apply law_prepare|]. intros r w' Hl. congruence. }
  intros [started|e] w7 Hl7; [|apply stopped_start_error; by right]. cbn beta iota.
  apply wp_bind, acquire_session_lock; [auto with go|done| |intros; apply stopped_start_error; by right]. intros w8 Hl8 _.
  wp_read as fin n8 Hfin by (apply stopped_start_error; by left). apply LoadRecord_ok in Hfin.
  wp_guard as Hg by (apply stopped_start_error; by left). rewrite orb_false_iff, negb_false_iff, String.eqb_eq in Hg. destruct Hg as [_ Hfs].
  apply wp_ret. split; [by left|]. intros a [= <-]. done.
Qed.

Lemma quiet_requireStartable domID nm rebuild record : quiet (requireStartable domID nm rebuild record : M B _).
Proof. unfold requireStartable. quiet_tac. Qed.
Lemma wp_admitStartPrerequisites P s start (Q : res unit → world B → Prop) w :
  (∀ r w', same w w' → Q r w') → wp P (admitStartPrerequisites s start) Q w.
Proof.
  intros HQ. unfold admitStartPrerequisites. apply wp_bind, wp_wrap, wp_host_ask.
  destruct (host_CheckRuntime _) as [[u|e] b]; [|by apply HQ]. cbn beta iota zeta.
  wp_guard as _ by by apply HQ. apply wp_wrap, wp_host_ask. destruct (host_CACheck _ _ _) as [[u2|e] b2]; by apply HQ.
Qed.

Lemma wp_startBody s start rebuild w :
  w_locks w = with_session →
  wp steps (let! record := wrap "load session record" (LoadRecord dom name) in
    (if sr_intent record ≠s "" then wrap "load bound recipe intent before start" (LoadRecipeIntent (sr_intent record)) else ret EmptyString) ;;!
    requireStartable dom name rebuild record ;;!
    admitStartPrerequisites s start ;;!
    guard ((br_kind (sr_backend record) ≠s "tart") || (br_object_id (sr_backend record) =s "")) "session backend binding is unsupported" ;;!
    (if (sr_state record =s StateStarting) || (sr_state record =s StateRunning)
     then wrap "verify exact workspace uses" (VerifyUses dom record) else ret tt) ;;!
    if sr_state record =s StateStopped then
      let! started := startStopped start dom name rebuild record in
      launch start dom name started
    else if sr_state record =s StateStarting then
      let! r := startStarting dom name record in
      match r with
      | inl finished => ret finished
      | inr record => launch start dom name record
      end
    else if sr_state record =s StateRunning then reconcileReady record
    else throw (Errorf "session has incompatible start state")) start_result w.
Proof.
  intros HL. wp_read as record n0 Hat by (apply start_error; by left). apply LoadRecord_ok in Hat.
  apply wp_bind, wp_quiet; [quiet_tac|]. intros [u|e] n _; [|apply start_error; by left].
  apply wp_bind, wp_quiet; [apply quiet_requireStartable|]. intros [u2|e] n2 _; [|apply start_error; by left].
  apply wp_bind, wp_admitStartPrerequisites. intros [u3|e] w3 [Hd3 Hl3 _]; [|apply start_error; left; cbn in *; congruence].
  cbn [w_disk w_locks retick] in *. assert (w_locks w3 = with_session) as HL3 by congruence.
  wp_guard as _ by (apply start_error; by left).
  assert (session_lock ∈ with_session) as Hin by (apply elem_of_cons; by left).
  pose proof (session_at_ids _ _ _ _ Hat) as [Hdom Hname].
  apply wp_bind. eapply wp_conseq with (Q := λ r w', w_locks w' = with_session ∧ session_at dom name (w_disk w') = Some record).
  { destruct (_ || _); [|apply wp_ret; split; [done|by rewrite Hd3]]. apply wp_wrap.
    eapply wp_keeps_session; [rewrite <-Hname; apply law_verify|].
    intros r w' Hl Hk. split; [congruence|]. rewrite <-Hat, <-Hd3. eapply view_ext, proj1, Hk. by rewrite HL3. }
  intros [u4|e] w4 [Hl4 Hat4]; [|apply start_error; by left]. cbn beta iota.
  destruct (sr_state record =s StateStopped) eqn:E1; [|destruct (sr_state record =s StateStarting) eqn:E2;
    [|destruct (sr_state record =s StateRunning) eqn:E3; [|apply wp_throw, start_error; by left]]]; bsimpl.
  - apply wp_bind. eapply wp_conseq; [by apply wp_startStopped|]. intros [a|e] w5 [Hl5 Hq]; [|by apply start_error].
    destruct (Hq a eq_refl) as (?&?&?). by apply wp_launch.
  - apply wp_bind. eapply wp_conseq; [by apply wp_startStarting|]. intros [[x|x]|e] w5 [Hl5 Hq]; [| |by apply start_error]; cbn beta iota.
    + apply wp_ret. split; [done|]. intros a [= <-]. exact (Hq _ eq_refl).
    + destruct (Hq _ eq_refl) as (?&?&?). by apply wp_launch.
  - by eapply wp_ready, wp_reconcileReady.
Qed.
End start_lemmas.

(** The nest of the transition and the session lock around a start or a stop:
    afterwards both locks are given up, whatever happened. *)
Definition settled_result {B} (L : list string) (Good : SessionRecord → disk → Prop) : res SessionRecord → world B → Prop :=
  leaves L (λ r k _, ∀ a, r = Ok a → Good a k).
Lemma wp_transition_nest {B} {E : Env} P dom name msg1 msg2 (body : M B SessionRecord) (Good : SessionRecord → disk → Prop) w :
  lock_free P →
  (∀ w1, Lock.session_scope dom name ∉ Lock.transition_scope dom name :: w_locks w → Lock.transition_scope dom name ∉ w_locks w →
     w_locks w1 = with_session dom name (w_locks w) →
     wp P body (λ r w', (w_locks w' = with_session dom name (w_locks w) ∨ w_locks w' = without_session dom name (w_locks w)) ∧
        ∀ a, r = Ok a → Good a (w_disk w')) w1) →
  wp P (wrap msg1 (Acquire (Lock.transition_scope dom name)) ;;!
        deferred_first (Lock.transition_scope dom name) (
        wrap msg2 (AcquireSession dom name) ;;!
        deferred_first (Lock.session_scope dom name) body)) (settled_result (w_locks w) Good) w.
Proof.
  intros HP Hbody. apply wp_bind, wp_wrap, wp_Acquire_took; [done| |intros; by_error]. intros w1 [Hf1 Hl1 _ _ _].
  apply wp_deferred_leaves; [done|by apply closed_first|done|].
  apply wp_bind, wp_wrap, wp_AcquireSession; [done| |intros; by_error]. intros w2 [Hf2 Hl2 _ _ _].
  rewrite Hl1 in Hf2, Hl2.
  eapply (wp_deferred_filter _ _ _ _ (λ r w', (w_locks w' = with_session dom name (w_locks w) ∨ w_locks w' = without_session dom name (w_locks w)) ∧
        ∀ a, r = Ok a → Good a (w_disk w'))); [done| |by apply Hbody].
  intros r r2 wa wb Hl Hd _ _ [HL Hq]. split.
  - rewrite Hl. destruct HL as [->| ->]; [by apply filter_head|by apply filter_absent].
  - rewrite Hd. intros a Ha. apply Hq. by destruct r, r2.
Qed.

(** The record returned is the one on disk, running or still starting. *)
Definition started (dom name : string) (a : SessionRecord) (k : disk) : Prop :=
  session_at dom name k = Some a ∧ sr_state a ∈ [StateRunning; StateStarting].
Lemma wp_startSession {B} {H : Host B} {E : Env} {D : Digests} {W : WorkspaceLifecycle B} {WL : WorkspaceLaws B} {SP : SessionProtocol E}
  s rawName rebuild name (w : world B) :
  Session.ParseName rawName = Ok name →
  wp (start_session_steps (dc_ID (sv_domain s)) name) (startSession s rawName rebuild)
     (settled_result (w_locks w) (started (dc_ID (sv_domain s)) name)) w.
Proof.
  intros Hname. unfold startSession. destruct (sv_nil s); [apply wp_throw; by_error|].
  destruct (sv_start s) as [start|]; [|apply wp_throw; by_error].
  apply wp_bind, wp_lift. destruct (validStartDependencies s start); [|by_error]. cbv zeta.
  apply wp_bind, wp_lift. rewrite Hname. apply wp_transition_nest; [auto with go|].
  intros w1 Hf1 Hf2 HL. eapply wp_conseq; [by apply wp_startBody|]. done.
Qed.

(** ** The steps of a stop *)

(** The record on disk is [a], or [a] as the store upgrades it. *)
Definition stored (dom name : string) (a : SessionRecord) (k : disk) : Prop :=
  session_at dom name k = Some a ∨ session_at dom name k = Some (upgradeRecordForStore a).
Definition stop_steps (dom name : string) (o : list step) (s : step) : Prop :=
  match st_event s with
  | EvAcquire _ | EvRelease _ | EvObserve _ _ | EvQuiesced _ _ => True
  | EvPublish Workspaces _ _ => use_step dom name o s
  | EvPublish Sessions n _ =>
      n = json_name name ∧ Lock.session_scope dom name ∈ st_locks s ∧
      ∃ r, durably StateStopping dom name s r ∨
           ∃ r0, r = upgradeRecordForStore (stoppedRecord r0) ∧ durably StateStopped dom name s r ∧
             recently (observed_stopped (br_object_id (sr_backend r))) o
  | EvStop b _ =>
      Lock.transition_scope dom name ∈ st_locks s ∧ ¬ (Lock.session_scope dom name ∈ st_locks s) ∧
      ∃ r, durably StateStopping dom name s r ∧ b = startBinding r
  | _ => False
  end.
Lemma stop_lock_free dom name : lock_free (stop_steps dom name).
Proof. intros o s sc [Hs|Hs]; unfold stop_steps; by rewrite Hs. Qed.
#[export] Hint Resolve stop_lock_free : go.
Lemma workspace_stop dom name object o s : workspace_steps dom name object (λ _, False) o s → stop_steps dom name o s.
Proof.
  unfold workspace_steps, stop_steps. destruct (st_event s) as [| |d n f| | | | | | | | | | | | | | | | | | |]; try done. by destruct d; [intros (?&?&?)|..].
Qed.

Section stop_lemmas.
Context {B : Type} {H : Host B} {E : Env} {D : Digests} {W : WorkspaceLifecycle B} {WL : WorkspaceLaws B}.
Context (dom name : string) (L0 : list string).
Implicit Types (w : world B).
#[local] Abbreviation session_lock := (Lock.session_scope dom name).
#[local] Abbreviation steps := (stop_steps dom name).
Context (free_session : session_lock ∉ Lock.transition_scope dom name :: L0) (free_transition : Lock.transition_scope dom name ∉ L0).
#[local] Abbreviation stored_as := (stored dom name).
#[local] Abbreviation locked := (with_session dom name L0).
#[local] Abbreviation unlocked := (without_session dom name L0).

(** The end of a stop: the record on disk is stopped and the one returned. *)
Definition stop_result (r : res SessionRecord) (w : world B) : Prop :=
  (w_locks w = locked ∨ w_locks w = unlocked) ∧
  ∀ a, r = Ok a → sr_state a = StateStopped ∧ stored_as a (w_disk w).
Lemma stop_error e w : w_locks w = locked ∨ w_locks w = unlocked → stop_result (Er e) w.
Proof. intros HL. by split. Qed.

Lemma wp_persistStopped record w :
  w_locks w = locked → session_at dom name (w_disk w) = Some record → recently (observed_stopped (br_object_id (sr_backend record))) (w_trace w) →
  ∀ d, wp steps (persistStopped (set_diagnostic d record)) stop_result w.
Proof.
  intros HL Hat Hrec d. pose proof (session_at_ids _ _ _ _ Hat) as [Hdom Hname]. unfold persistStopped. cbv zeta.
  apply wp_bind, wp_wrap, wp_SaveRecord; [|intros; apply stop_error; by left]. cbn [sr_domain stoppedRecord set_diagnostic set_readiness set_generation set_state].
  rewrite Hdom. intros Hok. set (r := stoppedRecord (set_diagnostic d record)) in *.
  pose proof (session_at_saved dom r (w_disk w) Hok) as Hsaved. change (sr_name r) with (sr_name record) in Hsaved. rewrite Hname in Hsaved.
  destruct (upgrade_fields r) as (_&_&_&Hus&Hub&_). split.
  - unfold steps. cbn [st_event save_event st_locks st_disk]. rewrite HL. split_and!; [by rewrite <-Hname|apply elem_of_cons; by left|].
    exists (upgradeRecordForStore r). right. exists (set_diagnostic d record). split; [done|]. split; [by split|]. by rewrite Hub.
  - intros [[]|e]; cbn beta iota; [|apply stop_error; by left]. apply wp_ret. split; [by left|]. intros a [= <-]. split; [done|]. by right.
Qed.
Lemma wp_finishStopped expected diagnostic w :
  w_locks w = locked ∨ w_locks w = unlocked → sr_name expected = name →
  wp steps (finishStopped dom name expected diagnostic) stop_result w.
Proof.
  intros HL Hname. unfold finishStopped.
  apply wp_bind, wp_wrap. eapply wp_conseq with (Q := λ r w', w_locks w' = unlocked).
  { destruct HL as [HL|HL].
    - apply (wp_Release_held _ _ unlocked); [auto with go|done|done|]. by intros r w' Hl _ _ _.
    - apply wp_Release; [exact I|intros r Hin; rewrite HL in Hin; done|done]. }
  intros [u|e] w1 Hl1; [|apply stop_error; by right]. cbn beta iota.
  apply wp_bind, wp_wrap. eapply wp_conseq; [eapply wp_impl; [|apply (law_release true dom expected)]|].
  { intros o s. rewrite Hname. apply workspace_stop. }
  intros [u2|e] w2 Hl2; [|apply stop_error; right; congruence]. cbn beta iota.
  apply wp_bind, wp_wrap, wp_AcquireSession; [auto with go| |intros; apply stop_error; right; cbn; congruence].
  intros w3 [_ Hl3 _ _ _]. assert (w_locks w3 = locked) as HL3 by (rewrite Hl3, Hl2, Hl1; done).
  wp_read as cur n Hcur by (apply stop_error; by left). apply LoadRecord_ok in Hcur.
  wp_guard as _ by (apply stop_error; by left).
  apply wp_bind, wp_wrap, wp_observeExact; [done| |intros; apply stop_error; left; cbn in *; congruence]. intros ob w4 Hob. cbn beta iota.
  pose proof (obs_locks _ _ _ _ Hob) as Hl4. pose proof (obs_disk _ _ _ _ Hob) as Hd4. cbn [w_locks w_disk retick] in *.
  assert (w_locks w4 = locked) as HL4 by congruence.
  wp_guard as Hex%negb_false_iff by (apply stop_error; by left).
  destruct (sr_state cur =s StateStopped) eqn:Es; bsimpl.
  - apply wp_ret. split; [by left|]. intros a [= <-]. split; [done|]. left. by rewrite Hd4.
  - apply wp_persistStopped; [done|by rewrite Hd4|by eapply observed_recently].
Qed.

Lemma wp_stopGeneration start record w :
  (∀ o k L r, w_locks w = L → w_disk w = k → steps o (Step (EvStop (startBinding record) r) k k L)) →
  wp steps (stopGeneration start record) (λ _ w', w_locks w' = w_locks w) w.
Proof.
  intros HP. unfold stopGeneration. destruct (sd_reportsOutcome start).
  - apply wp_bind, wp_wrap, wp_host_call. intros [o|e] b _; (split; [by apply HP|]); [by apply wp_ret|done].
  - apply wp_bind, wp_wrap, wp_host_call. intros [o|e] b _; (split; [by apply HP|]); [by apply wp_ret|done].
Qed.
Lemma wp_stopActive start ob record w :
  w_locks w = locked → session_at dom name (w_disk w) = Some record →
  wp steps (stopActive start dom name ob record) stop_result w.
Proof.
  intros HL Hat. pose proof (session_at_ids _ _ _ _ Hat) as [Hdom Hname]. unfold stopActive.
  wp_guard as _ by (apply stop_error; by left).
  apply wp_bind. eapply wp_conseq with (Q := λ r w', w_locks w' = locked ∧ ∀ a, r = Ok a →
    session_at dom name (w_disk w') = Some a ∧ sr_state a = StateStopping).
  { destruct (sr_state record ≠s StateStopping) eqn:Es; bsimpl; [|apply wp_ret; split; [done|]; by intros a [= <-]].
    apply wp_bind, wp_wrap, wp_SaveRecord; [|intros; by split]. intros Hok.
    pose proof (session_at_saved dom (stoppingRecord record) (w_disk w) Hok) as Hsaved.
    rewrite (upgrade_active (stoppingRecord record)) in Hsaved by done.
    change (sr_name (stoppingRecord record)) with (sr_name record) in Hsaved. rewrite Hname in Hsaved. split.
    - unfold steps. cbn [st_event save_event st_locks st_disk]. rewrite HL. split_and!; [by rewrite <-Hname|apply elem_of_cons; by left|].
      exists (stoppingRecord record). left. by split.
    - intros [[]|e]; cbn beta iota; [|by split]. apply wp_ret. split; [done|]. by intros a [= <-]. }
  intros [rec|e] w1 [HL1 Hq]; [|apply stop_error; by left]. destruct (Hq rec eq_refl) as [Hat1 Hst1]. cbn beta iota.
  pose proof (session_at_ids _ _ _ _ Hat1) as [_ Hname1].
  apply wp_bind. eapply wp_conseq with (Q := λ r w', w_locks w' = locked ∧ w_disk w' = w_disk w1).
  { destruct (ob_state ob =s ObjectStopped); [|by apply wp_ret]. apply wp_wrap, wp_host_call. intros r b _. by split. }
  intros [quiesced|e] w2 [HL2 Hd2]; [|apply stop_error; by left]. cbn beta iota.
  destruct quiesced; [apply wp_finishStopped; [by left|done]|].
  apply wp_bind, wp_wrap, (wp_Release_held _ _ unlocked); [auto with go|done|done|].
  intros r3 w3 Hl3 Hd3 _ _. destruct r3 as [u|e]; [|apply stop_error; by right]. cbn beta iota.
  apply wp_bind. eapply wp_conseq; [apply wp_stopGeneration|].
  - intros o k L r <- <-. unfold steps. cbn [st_event st_locks st_disk]. rewrite Hl3. split_and!; [apply elem_of_cons; by left|done|].
    exists rec. unfold durably. cbn [st_disk]. by rewrite Hd3, Hd2.
  - intros [d|e] w4 Hl4; [|apply stop_error; right; congruence]. apply wp_finishStopped; [right; congruence|done].
Qed.
End stop_lemmas.

Definition stopped (dom name : string) (a : SessionRecord) (k : disk) : Prop := sr_state a = StateStopped ∧ stored dom name a k.
Lemma wp_Stop {B} {H : Host B} {E : Env} {D : Digests} {W : WorkspaceLifecycle B} {WL : WorkspaceLaws B} s rawName domainID name (w : world B) :
  admitDomain (sv_domain s) = Ok domainID → Session.ParseName rawName = Ok name →
  wp (stop_steps domainID name) (Stop s rawName) (settled_result (w_locks w) (stopped domainID name)) w.
Proof.
  intros Hdom Hname. unfold Stop. destruct (sv_nil s); [apply wp_throw; by_error|].
  destruct (sv_start s) as [start|]; [|apply wp_throw; by_error].
  wp_guard as _ by by_error. apply wp_bind, wp_lift. rewrite Hdom. apply wp_bind, wp_lift. rewrite Hname.
  apply wp_transition_nest; [auto with go|]. intros w1 Hf1 Hf2 HL.
  wp_read as record n Hat by (apply stop_error; by left). apply LoadRecord_ok in Hat.
  pose proof (session_at_ids _ _ _ _ Hat) as [_ Hn].
  wp_guard as _ by (apply stop_error; by left).
  apply wp_bind, wp_observeExact; [done| |intros; apply stop_error; left; cbn in *; congruence]. intros ob w2 [Hd2 Hl2 _ _]. cbn beta iota.
  cbn [w_locks w_disk retick] in *. assert (w_locks w2 = with_session domainID name (w_locks w)) as HL2 by congruence.
  wp_guard as _ by (apply stop_error; by left).
  destruct (sr_state record =s StateStopped).
  { wp_guard as _ by (apply stop_error; by left). apply wp_finishStopped; [done|by left|done]. }
  destruct (_ || _); [|apply wp_throw, stop_error; by left].
  apply wp_stopActive; [done|done|by rewrite Hd2].
Qed.
