(* ===== verification/ImportSafety.v ===== *)
(** What the import transaction promises: the journal advances only over the
    captured bytes that are on disk at that moment; the supervisor is asked to
    transfer them only while the transferring journal is durable and the exact
    session, volume use and mount are proved live under the session's locks; and
    an import is called verified only for a stopped machine, over a retained
    volume and a published tree that holds exactly what was captured. *)
From S2P Require Import Prelude Ids Bytes Json JsonText Recipe SessionRecord Outside World Host Logic SessionStore RebuildJournal WorkspaceRecord ExportJournal WorkspaceStore WorkspaceTransition Receiver DiskReserve Capture Exports ExportSafety SessionStart ImportTree ImportMatch ImportJournal Imports.

(** ** The discipline of an import *)

(** A step that satisfies [R], taken under this lock, which was not given up since. *)
Definition while_held (scope : string) (R : list step → step → Prop) (o : list step) : Prop :=
  ∃ later s earlier, o = later ++ s :: earlier ∧ R earlier s ∧ scope ∈ st_locks s ∧ ∀ t, t ∈ later → st_event t ≠ EvRelease scope.
(** The clock was read just after the generation was reported ready. *)
Definition proved_live (b : Binding) (earlier : list step) (s : step) : Prop :=
  ∃ ss rest live now, earlier = ss :: rest ∧ st_event s = EvNow now ∧ st_event ss = EvSnapshot b (Ok live) ∧ live_ready b live now = true.
Definition live_since (dom : string) (j : ImportJournal) : list step → Prop :=
  while_held (Lock.session_scope dom (ij_session_name j)) (proved_live (importControlBinding j).1).
(** The generation was proved live again after the step [t]; the session lock,
    held at that proof, was not given up in between. *)
Definition live_after (dom : string) (j : ImportJournal) (t : step) (o : list step) : Prop :=
  ∃ later s mid before, o = later ++ s :: mid ++ t :: before ∧ proved_live (importControlBinding j).1 (mid ++ t :: before) s ∧
    Lock.session_scope dom (ij_session_name j) ∈ st_locks s ∧ ∀ x, x ∈ mid → st_event x ≠ EvRelease (Lock.session_scope dom (ij_session_name j)).
Definition stopped_under (dom : string) (j : ImportJournal) : list step → Prop :=
  while_held (Lock.session_scope dom (ij_session_name j)) (λ _, observed_stopped (ij_backend j)).

(** The journal is durable. *)
Definition import_recorded (dom : string) (j : ImportJournal) (k : disk) : Prop :=
  ij_domain j = dom ∧ (k !! (Imports, json_name (ij_id j)) = Some (EFile (importFile j)) ∨ import_at dom (ij_id j) k = Some j).
(** What it says was captured is what is on disk. *)
Definition import_captured `{Digests} (j : ImportJournal) (k : disk) : Prop :=
  ∃ s, captured_exact (ij_id j) s k ∧ ss_digest s = ij_digest j ∧ ss_files s = ij_files j ∧ ss_bytes s = ij_bytes j.
(** The session runs, ready, in the journal's generation, without a rebuild,
    and its volume is in use and mounted as the journal says. *)
Record import_live (dom : string) (j : ImportJournal) (k : disk) : Prop := {
  il_session : ∃ r, session_at dom (ij_session_name j) k = Some r ∧ running_ready dom r = true ∧ sr_id r = ij_session_id j ∧
    br_object_id (sr_backend r) = ij_backend j ∧ sr_generation r = ij_generation j;
  il_volume : ∃ v, volume_at dom (ij_volume j) k = Some v ∧
    active_use (ij_session_id j) (ij_session_name j) (ij_backend j) (ij_generation j) v = true ∧ vo_uuid v = ij_uuid j ∧
    at_mount <$> vo_attachment v = Some (ij_mount j);
  il_rebuild : k !! (Rebuilds, json_name (ij_session_name j)) = None;
}.
Definition session_locks (dom : string) (j : ImportJournal) (L : list string) : Prop :=
  Lock.transition_scope dom (ij_session_name j) ∈ L ∧ Lock.session_scope dom (ij_session_name j) ∈ L.
(** The published tree of the export holds exactly the entries of the manifest
    whose digest the journal records. *)
Definition published_exact `{Digests} (entries : gmap string tree) (exported : ExportJournal) (j : ImportJournal) : Prop :=
  ∃ m, sha256 (canonicalManifest m) = ij_digest j ∧ paths_ok (items (mf_entries m)) ∧ within_limits (items (mf_entries m)) ∧
    tree_exact (items (mf_entries m)) (λ _, False)
      (published_look entries (exportTransactionHex (ej_id exported)) (import_root (ij_id j)))
      (published_present entries (exportTransactionHex (ej_id exported)) (import_root (ij_id j))).
(** What "verified" stands for. *)
Definition import_verified `{Digests} (dom : string) (published : string → gmap string tree) (j : ImportJournal) (o : list step) (s : step) : Prop :=
  ∃ exported v, export_at dom (ij_export j) (st_disk s) = Some exported ∧ exports_import exported j = true ∧
    snapshot_exact exported (st_disk s) ∧ volume_at dom (ij_volume j) (st_disk s) = Some v ∧ retained v j exported = true ∧
    stopped_under dom j o ∧ published_exact (published (ej_parent exported)) exported j ∧
    Lock.volume_scope dom (ij_volume j) ∈ st_locks s ∧ Lock.session_scope dom (ij_session_name j) ∈ st_locks s ∧
    Lock.storage_scope dom ∈ st_locks s.

(** [published] is what the destinations of exports hold. *)
Definition import_step `{Digests} (dom : string) (published : string → gmap string tree) : stepP := λ o s,
  match st_event s with
  | EvAcquire _ | EvRelease _ | EvObserve _ _ | EvSnapshot _ _ | EvNow _ => True
  | EvCreate Imports name f =>
      ∃ j, name = json_name (ij_id j) ∧ f = importFile j ∧ ij_domain j = dom ∧ ij_phase j = ImportCaptured ∧
        st_before s !! (Imports, name) = None ∧ import_captured j (st_disk s) ∧ import_live dom j (st_disk s) ∧ live_since dom j o ∧
        session_locks dom j (st_locks s) ∧ Lock.storage_scope dom ∈ st_locks s
  | EvPublish Imports name f =>
      ∃ old j, name = json_name (ij_id j) ∧ f = importFile j ∧ ij_domain j = dom ∧
        import_at dom (ij_id j) (st_before s) = Some old ∧ validImportAdvance old j = true ∧
        set_import_phase "" "" old = set_import_phase "" "" j ∧ import_captured j (st_disk s) ∧
        Lock.import_scope dom (ij_id j) ∈ st_locks s ∧
        (ij_phase j = ImportTransferring → import_live dom j (st_disk s) ∧ live_since dom j o ∧ session_locks dom j (st_locks s) ∧
           Lock.storage_scope dom ∈ st_locks s) ∧
        (ij_phase j = ImportVerified → import_verified dom published j o s)
  | EvTransfer b t _ =>
      ∃ j, importControlBinding j = (b, t) ∧ ij_phase j = ImportTransferring ∧ import_recorded dom j (st_disk s) ∧
        import_captured j (st_disk s) ∧ import_live dom j (st_disk s) ∧ live_since dom j o ∧ session_locks dom j (st_locks s)
  | _ => False
  end.

(** What the other processes leave alone while this one holds the domain's
    storage lock: a published export and its snapshot. *)
Class ImportProtocol (E : Env) : Prop := {
  protocol_published : ∀ n held k dom id j, Lock.storage_scope dom ∈ held → export_at dom id k = Some j → ej_phase j = ExportPublished →
    env_others n held k !! (Exports, json_name id) = k !! (Exports, json_name id) ∧
    env_others n held k !! (Transaction id, snapshot_raw) = k !! (Transaction id, snapshot_raw);
}.
#[export] Instance quiet_import : ImportProtocol quietEnv.
Proof. by constructor. Qed.
(** Observing a machine and admitting a disk leave the published trees alone. *)
Class KeepsPublished (B : Type) `{Host B} `{Inspection B} : Prop := {
  kp_admit : ∀ q b path, in_entries path (host_Admit q b).2 = in_entries path b;
  kp_close : ∀ b path, in_entries path (host_CloseDisk b).2 = in_entries path b;
  kp_observe : ∀ id b path, in_entries path (host_Observe id b).2 = in_entries path b;
}.

(** ** Lemmas *)

Lemma import_step_locks `{Digests} dom published : lock_free (import_step dom published).
Proof. by intros o s sc [Hs|Hs]; unfold import_step; rewrite Hs. Qed.
#[export] Hint Resolve import_step_locks : core.

(** *** Under one lock *)
Lemma while_held_here scope (R : list step → step → Prop) s o : R o s → scope ∈ st_locks s → while_held scope R (s :: o).
Proof. intros HR Hs. exists [], s, o. split_and!; [done|done|done|]. by intros t ?%not_elem_of_nil. Qed.
(** More was recorded, but the lock was kept. *)
Definition kept_on (scope : string) (o o' : list step) : Prop := ∃ new, o' = new ++ o ∧ ∀ t, t ∈ new → st_event t ≠ EvRelease scope.
Lemma while_held_on scope R o o' : kept_on scope o o' → while_held scope R o → while_held scope R o'.
Proof.
  intros (new & -> & Hn) (later & s & earlier & -> & HR & Hs & Hl). exists (new ++ later), s, earlier. rewrite <-app_assoc.
  split_and!; [done|done|done|]. intros t [Ht|Ht]%elem_of_app; auto.
Qed.
Lemma kept_on_refl scope o : kept_on scope o o.
Proof. exists []. split; [done|]. by intros t ?%not_elem_of_nil. Qed.
Lemma kept_on_cons scope o o' s : st_event s ≠ EvRelease scope → kept_on scope o o' → kept_on scope o (s :: o').
Proof. intros Hs (new & -> & Hn). exists (s :: new). split; [done|]. intros t [->|Ht]%elem_of_cons; auto. Qed.
Lemma import_scope_not_session dom id dom' name : Lock.import_scope dom id ≠ Lock.session_scope dom' name.
Proof. by unfold Lock.import_scope, Lock.session_scope. Qed.
Lemma storage_scope_not_session dom dom' name : Lock.storage_scope dom ≠ Lock.session_scope dom' name.
Proof. by unfold Lock.storage_scope, Lock.session_scope. Qed.

(** *** What depends on a few files only *)
Lemma import_captured_ext `{Digests} j k k' :
  (∀ name, k' !! (Captured (ij_id j), name) = k !! (Captured (ij_id j), name)) → import_captured j k → import_captured j k'.
Proof. intros Hk (s & Hs & Hx). exists s. split; [by eapply captured_exact_ext|done]. Qed.
Lemma import_live_ext dom j k k' :
  k' !! (Sessions, json_name (ij_session_name j)) = k !! (Sessions, json_name (ij_session_name j)) →
  k' !! (Workspaces, json_name (ij_volume j)) = k !! (Workspaces, json_name (ij_volume j)) →
  k' !! (Rebuilds, json_name (ij_session_name j)) = k !! (Rebuilds, json_name (ij_session_name j)) →
  import_live dom j k → import_live dom j k'.
Proof.
  intros H1 H2 H3 [Hs Hv Hr]. constructor; [..|congruence].
  - destruct Hs as (r & Hr' & Hx). exists r. split; [|done]. unfold session_at in *. by rewrite (view_ext _ _ _ _ k).
  - destruct Hv as (v & Hv & Hx). exists v. split; [|done]. unfold volume_at in *. by rewrite (view_ext _ _ _ _ k).
Qed.
(** The two fields an advance may change. *)
Lemma advance_fields old j : set_import_phase "" "" old = set_import_phase "" "" j →
  ij_id old = ij_id j ∧ ij_domain old = ij_domain j ∧ ij_session_name old = ij_session_name j ∧ ij_volume old = ij_volume j ∧
  ij_digest old = ij_digest j ∧ ij_files old = ij_files j ∧ ij_bytes old = ij_bytes j.
Proof. destruct old, j. cbn. intros [=]. by subst. Qed.

Section import.
Context {B : Type} {E : Env} {SP : SessionProtocol E} {EP : ExportProtocol E} {H : Host B} {F : HostFiles}
        {T : TreeHost} {I : Inspection B} {C : ImportControl B} {D : Digests}.
Implicit Types (w : world B).
Context (dom : string) (published : string → gmap string tree).
Abbreviation P := (import_step dom published).

Lemma quiet_admitImport root j : quiet (admitImportSnapshot root j : M B _).
Proof. unfold admitImportSnapshot. quiet_tac. Qed.
Lemma admitImport_ok root j w u w' : admitImportSnapshot root j w = (Ok u, w') → import_captured j (w_disk w).
Proof.
  unfold admitImportSnapshot. intros Ha. apply bind_ok in Ha as (s & w1 & Hs%InspectSnapshot_ok & Ha). apply guard_ok in Ha as [Hg _].
  bsimpl. by exists s.
Qed.
#[local] Hint Resolve quiet_admitImport quiet_LoadRecord quiet_RequireNoRebuild quiet_LoadVolume quiet_listSessionAttachments : quiet.

(** *** The advance of the journal *)
Lemma wp_advanceImport root current next (Q : res unit → world B → Prop) w :
  ij_domain current = dom → validImportAdvance current next = true →
  (∀ w1, took (Lock.import_scope dom (ij_id current)) w w1 → import_captured next (<[(Imports, json_name (ij_id next)) := EFile (importFile next)]> (w_disk w1)) →
     (ij_phase next = ImportTransferring → let k := <[(Imports, json_name (ij_id next)) := EFile (importFile next)]> (w_disk w1) in
        import_live dom next k ∧ live_since dom next (w_trace w1) ∧ session_locks dom next (w_locks w1) ∧ Lock.storage_scope dom ∈ w_locks w1) ∧
     (ij_phase next = ImportVerified →
        import_verified dom published next (w_trace w1) (Step (EvPublish Imports (json_name (ij_id next)) (importFile next))
(w_disk w1)           (<[(Imports, json_name (ij_id next)) := EFile (importFile next)]> (w_disk w1)) (w_locks w1)))) →
  (∀ r w2, w_locks w2 = w_locks w → w_host w2 = w_host w → (∀ name, kept_on (Lock.session_scope dom name) (w_trace w) (w_trace w2)) →
     (r = Ok tt → import_recorded dom next (w_disk w2) ∧ import_captured next (w_disk w2) ∧
        ∃ w1, took (Lock.import_scope dom (ij_id current)) w w1 ∧ ∀ d name, d ≠ Imports → w_disk w2 !! (d, name) = w_disk w1 !! (d, name)) → Q r w2) →
  wp P (advanceImportJournal root current next) Q w.
Proof.
  intros Hdom Hadv HP HQ. unfold advanceImportJournal. assert (∀ e n, Q (Er e) (retick n w)) as Hfail by (intros; apply HQ; try done; intros; apply kept_on_refl).
  apply wp_bind, wp_lift. destruct (validateImportJournal current); [|rewrite (retick_self w); apply Hfail].
  apply wp_bind, wp_lift. destruct (validateImportJournal next); [|rewrite (retick_self w); apply Hfail].
  wp_guard as Hg by (rewrite (retick_self w); apply Hfail). apply orb_false_iff in Hg as [Hsame _]. apply bool_decide_eq_false, dec_stable in Hsame.
  destruct (advance_fields _ _ Hsame) as (Hid & Hdm & Hsn & Hvol & Hdg & Hfl & Hby). rewrite Hdom.
  apply wp_bind, wp_Acquire_took; [done| |done]. intros w1 Ht. pose proof (tk_locks _ _ _ Ht) as Hl1. pose proof (tk_free _ _ _ Ht) as Hfree.
  apply wp_deferred. apply (wp_conseq _ _ (λ r w2, w_locks w2 = w_locks w1 ∧ w_host w2 = w_host w1 ∧
    (∀ name, kept_on (Lock.session_scope dom name) (w_trace w1) (w_trace w2)) ∧
    (r = Ok tt → import_recorded dom next (w_disk w2) ∧ import_captured next (w_disk w2) ∧
       ∀ d name, d ≠ Imports → w_disk w2 !! (d, name) = w_disk w1 !! (d, name)))).
  - unfold advanceImportLocked. assert (∀ n, ∀ name, kept_on (Lock.session_scope dom name) (w_trace w1) (w_trace (retick n w1))) as Hkeep by (intros; apply kept_on_refl).
    assert (∀ n e, let w2 := retick n w1 in let r := Er e : res unit in w_locks w2 = w_locks w1 ∧ w_host w2 = w_host w1 ∧
      (∀ name, kept_on (Lock.session_scope dom name) (w_trace w1) (w_trace w2)) ∧
      (r = Ok tt → import_recorded dom next (w_disk w2) ∧ import_captured next (w_disk w2) ∧
         ∀ d name, d ≠ Imports → w_disk w2 !! (d, name) = w_disk w1 !! (d, name))) as Hend by (intros n e w2 r; split_and!; [done|done|apply Hkeep|done]).
    wp_read as cur n Hcur by (by apply Hend). apply loadImportJournalFromRoot_ok in Hcur. rewrite Hdom in Hcur.
    wp_read as u n1 Hadm by (by apply (Hend n1)). apply admitImport_ok in Hadm. cbn [w_disk retick] in Hadm.
    assert (import_captured next (w_disk w1)) as Hcap.
    { destruct Hadm as (s & Hs & H1 & H2 & H3). exists s. rewrite <-Hid, <-Hdg, <-Hfl, <-Hby. done. }
    destruct (bool_decide_reflect (cur = next)) as [Heq|Hne].
    { apply wp_quiet; [apply quiet_fs_sync|]. intros r n2 _. split_and!; [done|done|apply Hkeep|]. intros _. split; [|done]. split; [congruence|].
      right. rewrite <-Hid, <-Heq. exact Hcur. }
    wp_guard as Hg by (by apply (Hend n1)). apply bool_decide_eq_false, dec_stable in Hg as ->.
    unfold encodeImportJournal. apply wp_bind, wp_lift. destruct (check _ _); [|by apply (Hend n1)]. cbn [res_bind].
    assert (import_captured next (<[(Imports, json_name (ij_id next)) := EFile (importFile next)]> (w_disk w1))) as Hcap2.
    { apply (import_captured_ext next (w_disk w1)); [|done]. intros name. by rewrite lookup_insert_ne. }
    destruct (HP w1 Ht Hcap2) as [Htr Hver]. apply wp_fs_replace; cbn [w_disk w_locks w_trace retick].
    + exists current, next. split_and!; [done|done|congruence|by rewrite <-Hid|done|done|done| |done|done].
      * cbn [st_locks]. rewrite Hl1, <-Hid. apply elem_of_cons. by left.
    + intros r. cbn. split_and!; try done.
      * intros name. apply kept_on_cons; [done|apply kept_on_refl].
      * intros _. split; [|split; [done|]].
        -- split; [congruence|]. left. apply lookup_insert_eq.
        -- intros d name Hd. apply lookup_insert_ne. congruence.
    + intros e _. by apply (Hend (S n1)).
  - intros r w2 (Hl2 & Hh2 & Hk2 & Hr). rewrite Hl1 in Hl2.
    apply (wp_Release_held _ _ (w_locks w)); [done|done|done|]. intros r2 w3 Hl3 Hd3 Hh3 Ht3. apply HQ; [done| | |].
    + rewrite Hh3, Hh2. apply (tk_host _ _ _ Ht).
    + intros name. rewrite Ht3. apply kept_on_cons; [intros [= Hx]; by apply import_scope_not_session in Hx|].
      destruct (Hk2 name) as (new & -> & Hn). exists (new ++ [Step (EvAcquire (Lock.import_scope dom (ij_id current))) (w_disk w) (w_disk w1) (w_locks w)]).
      rewrite (tk_trace _ _ _ Ht), <-app_assoc. split; [done|]. intros t [Ht'| ->%list_elem_of_singleton]%elem_of_app; [auto|done].
    + intros Hok. cbn in Hok. destruct (Hr Hok) as (H1 & H2 & H3). rewrite Hd3. split_and!; [done|done|]. by exists w1.
Qed.

(** *** The proof that the session is live *)
Lemma wp_SupervisorSnapshot b (Q : res Snapshot → world B → Prop) w :
  (∀ r w', w_disk w' = w_disk w → w_locks w' = w_locks w → w_trace w' = Step (EvSnapshot b r) (w_disk w) (w_disk w) (w_locks w) :: w_trace w → Q r w') →
  wp P (SupervisorSnapshot b) Q w.
Proof. intros HQ. apply wp_host_call. intros r h _. split; [done|]. by apply HQ. Qed.
Lemma wp_readNow (Q : res Z → world B → Prop) w :
  (∀ now w', w_disk w' = w_disk w → w_locks w' = w_locks w → w_trace w' = Step (EvNow now) (w_disk w) (w_disk w) (w_locks w) :: w_trace w → Q (Ok now) w') →
  wp P Now Q w.
Proof. intros HQ. apply wp_Now; [done|]. intros t h. by apply HQ. Qed.
Lemma active_mount v j :
  active_use (ij_session_id j) (ij_session_name j) (ij_backend j) (ij_generation j) v &&
    (vo_uuid v =s ij_uuid j) && match vo_attachment v with Some a => at_mount a =s ij_mount j | None => false end = true →
  active_use (ij_session_id j) (ij_session_name j) (ij_backend j) (ij_generation j) v = true ∧ vo_uuid v = ij_uuid j ∧
    at_mount <$> vo_attachment v = Some (ij_mount j).
Proof.
  intros [[Ha Hu%eqs_true]%andb_true_iff Hm]%andb_true_iff. split_and!; [done|done|]. destruct (vo_attachment v) as [a|]; [|done].
  apply eqs_true in Hm. cbn. by rewrite Hm.
Qed.
Lemma wp_admitTransferLive root j (Q : res unit → world B → Prop) w :
  ij_domain j = dom → Lock.session_scope dom (ij_session_name j) ∈ w_locks w →
  (∀ r w', w_disk w' = w_disk w → w_locks w' = w_locks w → (∀ name, kept_on (Lock.session_scope dom name) (w_trace w) (w_trace w')) →
     (r = Ok tt → import_captured j (w_disk w) ∧ import_live dom j (w_disk w) ∧ live_since dom j (w_trace w') ∧
        ∃ s ss, w_trace w' = s :: ss :: w_trace w ∧ proved_live (importControlBinding j).1 (ss :: w_trace w) s ∧
          Lock.session_scope dom (ij_session_name j) ∈ st_locks s) → Q r w') →
  wp P (admitTransferLive root j) Q w.
Proof.
  intros Hdom Hin HQ. unfold admitTransferLive. rewrite Hdom.
  assert (∀ n e, Q (Er e) (retick n w)) as Hfail by (intros; apply HQ; try done; intros; apply kept_on_refl).
  apply wp_bind, wp_wrap, wp_quiet; [apply quiet_admitImport|]. intros [[]|e] n0 Hcap; [|by apply Hfail]. apply admitImport_ok in Hcap.
  wp_read as r n1 Hr by (by apply Hfail). apply LoadRecord_ok in Hr. wp_guard as Hg by (apply (Hfail n1)). bsimpl.
  wp_read as u n2 Hnone by (by apply Hfail). apply RequireNoRebuild_ok in Hnone.
  wp_read as v n3 Hv by (by apply Hfail). apply LoadVolume_ok in Hv as [Hv _]. wp_guard as Hg2 by (apply (Hfail n3)).
  apply negb_false_iff, active_mount in Hg2. cbn [w_disk w_locks retick] in *.
  apply wp_bind, wp_SupervisorSnapshot. intros [live|e] w1 Hd1 Hl1 Ht1; cbn [w_disk w_locks w_trace retick] in *.
  2:{ apply HQ; [done|done| |done]. intros name. rewrite Ht1. apply kept_on_cons; [done|apply kept_on_refl]. }
  apply wp_bind, wp_readNow. intros now w2 Hd2 Hl2 Ht2.
  assert (∀ name, kept_on (Lock.session_scope dom name) (w_trace w) (w_trace w2)) as Hkept.
  { intros name. rewrite Ht2, Ht1. do 2 (apply kept_on_cons; [done|]). apply kept_on_refl. }
  wp_guard as Hlive by (apply HQ; [congruence|congruence|done|done]). apply negb_false_iff in Hlive.
  apply wp_quiet; [apply quiet_contextErr|]. intros q n4 _. apply HQ; cbn [w_disk w_locks retick]; [congruence|congruence|done|]. intros _.
  cbn [w_trace retick]. rewrite Ht2, Ht1. set (ss := Step (EvSnapshot _ _) _ _ _). set (s := Step (EvNow now) _ _ _).
  assert (proved_live (importControlBinding j).1 (ss :: w_trace w) s) as Hpl by (by exists ss, (w_trace w), live, now).
  assert (Lock.session_scope dom (ij_session_name j) ∈ st_locks s) as Hs by (cbn [st_locks s]; by rewrite Hl1).
  split; [done|]. split; [|split].
  - constructor; [by exists r|by exists v|done].
  - by apply while_held_here.
  - by exists s, ss.
Qed.

(** A lock taken beside the session's and the storage's leaves the proof. *)
Lemma took_live scope w w' j :
  took scope w w' → Lock.session_scope dom (ij_session_name j) ∈ w_locks w → Lock.storage_scope dom ∈ w_locks w →
  import_live dom j (w_disk w) → import_live dom j (w_disk w').
Proof.
  intros Ht Hs Hst Hl. destruct (took_session _ _ _ _ _ Ht Hs) as [H1 H2].
  apply (import_live_ext dom j (w_disk w)); [done| |done|done]. destruct (il_volume _ _ _ Hl) as (v & Hv & _).
  by eapply took_volume.
Qed.
Lemma kept_took scope w w' dom' name : took scope w w' → kept_on (Lock.session_scope dom' name) (w_trace w) (w_trace w').
Proof. intros Ht. rewrite (tk_trace _ _ _ Ht). apply kept_on_cons; [done|apply kept_on_refl]. Qed.
Lemma live_written j d name e k : d = Imports → import_live dom j k → import_live dom j (<[(d, name) := e]> k).
Proof. intros ->. by apply import_live_ext; apply lookup_insert_ne. Qed.

(** *** The transfer *)
(** The journal to transfer under, durable and admitted. *)
Definition transferable (j : ImportJournal) w : Prop :=
  ij_domain j = dom ∧ ij_phase j = ImportTransferring ∧ import_recorded dom j (w_disk w) ∧ import_captured j (w_disk w) ∧
  import_live dom j (w_disk w) ∧ live_since dom j (w_trace w).
Lemma wp_transferIntent root id initial (Q : res ImportJournal → world B → Prop) w :
  session_locks dom initial (w_locks w) → Lock.storage_scope dom ∈ w_locks w →
  (∀ r w', w_locks w' = w_locks w → (∀ j, r = Ok j → transferable j w' ∧ ij_session_name j = ij_session_name initial) → Q r w') →
  wp P (transferIntent root dom id initial) Q w.
Proof.
  intros HL Hst HQ. unfold transferIntent. wp_read as current n Hc by (by apply HQ). apply LoadImportJournal_ok in Hc.
  wp_guard as Hg by (by apply HQ). apply bool_decide_eq_false, dec_stable in Hg as ->. wp_guard as Hph by (by apply HQ).
  pose proof (import_at_ok _ _ _ _ Hc) as (Hid & Hdom & _).
  apply wp_bind, wp_admitTransferLive; [done|apply HL|]. intros [[]|e] w1 Hd1 Hl1 Hk1 Hok; [|by apply HQ].
  destruct (Hok eq_refl) as (Hcap & Hlive & Hsince & _). cbn [w_disk w_locks w_trace retick] in *. rewrite <-Hd1 in *.
  destruct (ij_phase initial =s ImportCaptured) eqn:Hp.
  - apply eqs_true in Hp. set (next := set_import_phase ImportTransferring (ij_export initial) initial).
    apply wp_bind, wp_advanceImport; [done|unfold validImportAdvance; cbn; by rewrite Hp| |].
    + intros w2 Ht2 Hcap2. split; [|done]. intros _. pose proof (tk_locks _ _ _ Ht2) as Hl2. split_and!.
      * apply live_written; [done|]. eapply (took_live _ w1) in Hlive; [|done|rewrite Hl1; apply HL|by rewrite Hl1]. by destruct Hlive.
      * eapply while_held_on; [by eapply kept_took|]. exact Hsince.
      * rewrite Hl2, Hl1. destruct HL. split; apply elem_of_cons; by right.
      * rewrite Hl2, Hl1. apply elem_of_cons. by right.
    + intros [[]|e] w2 Hl2 _ Hk2 Hok2; [|apply HQ; [congruence|done]]. destruct (Hok2 eq_refl) as (Hrec & Hcap2 & w3 & Ht3 & Hsame).
      apply wp_ret, HQ; [congruence|]. intros j [= <-]. split; [|done]. split_and!; [done|done|done|done| |].
      * eapply (took_live _ w1) in Hlive; [|done|rewrite Hl1; apply HL|by rewrite Hl1].
        apply (import_live_ext dom next (w_disk w3)); try by apply Hsame. by destruct Hlive.
      * eapply while_held_on; [apply Hk2|]. exact Hsince.
  - apply wp_ret, HQ; [done|]. intros j [= <-]. split; [|done]. split_and!; [done| |split; [done|right; by rewrite Hid]|done|done|done].
    apply andb_false_iff in Hph as [Hph|Hph]; apply negb_false_iff in Hph; [congruence|by apply eqs_true].
Qed.

(** A result that survives the release of a lock. *)
Definition succeeds {A} (Φ : A → list step → disk → B → Prop) (r : res (outcome A)) w : Prop :=
  ∀ a, r = Ok (a, None) → Φ a (w_trace w) (w_disk w) (w_host w).
Lemma succeeds_failed {A} (Φ : A → list step → disk → B → Prop) a e w : succeeds Φ (Ok (a, Some e)) w.
Proof. by intros a'. Qed.
Lemma succeeds_er {A} (Φ : A → list step → disk → B → Prop) e w : succeeds Φ (Er e) w.
Proof. by intros a'. Qed.
#[local] Hint Resolve succeeds_failed succeeds_er : core.
Lemma wp_deferred_succeeds {A} (Φ : A → list step → disk → B → Prop) scope (m : M B (outcome A)) w :
  (∀ a new o k h, Φ a o k h → Φ a (new ++ o) k h) →
  wp P m (succeeds Φ) w → wp P (deferred join_outcome scope m) (succeeds Φ) w.
Proof.
  intros HΦ Hm. apply wp_deferred. eapply wp_conseq; [exact Hm|]. intros r w1 Hr.
  assert (∀ r2 new (w2 : world B), w_disk w2 = w_disk w1 → w_host w2 = w_host w1 → w_trace w2 = new ++ w_trace w1 → succeeds Φ (join_outcome r r2) w2) as Hend.
  { intros r2 new w2 Hd Hh Ht a Ha. destruct r as [[x e]|e], r2 as [[]|e2]; try done. cbn in Ha. rewrite Hd, Hh, Ht.
    apply HΦ, Hr. by injection Ha as -> ->. }
  apply wp_Release; [done|intros r2 _; by eapply (Hend r2 [_])|intros _; by apply (Hend _ [])].
Qed.
(** What a reported transfer stands for. *)
Definition transferred (id : string) (result : ImportResult) (o : list step) (k : disk) (_ : B) : Prop :=
  ∃ j t, ij_id j = id ∧ ij_phase j = ImportTransferring ∧
    st_event t = EvTransfer (importControlBinding j).1 (importControlBinding j).2 (Ok result) ∧ read_back j result = true ∧
    live_after dom j t o ∧ import_recorded dom j k ∧ import_captured j k ∧ import_live dom j k.
Lemma transferred_more id result new o k h : transferred id result o k h → transferred id result (new ++ o) k h.
Proof.
  intros (j & t & H1 & H2 & H3 & H4 & (later & s & mid & before & -> & Hl) & H5). exists j, t. split_and!; try done; [|apply H5..].
  exists (new ++ later), s, mid, before. by rewrite <-app_assoc.
Qed.
#[local] Hint Resolve transferred_more : core.
Lemma wp_transferChecked root id current result t w :
  ij_domain current = dom → ij_phase current = ImportTransferring → Lock.session_scope dom (ij_session_name current) ∈ w_locks w →
  (∃ mid before, w_trace w = mid ++ t :: before ∧ ∀ x, x ∈ mid → st_event x ≠ EvRelease (Lock.session_scope dom (ij_session_name current))) →
  st_event t = EvTransfer (importControlBinding current).1 (importControlBinding current).2 (Ok result) →
  wp P (transferChecked root dom id current result) (succeeds (transferred id)) w.
Proof.
  intros Hdom Hph Hin (mid & before & Ht & Hkept) Hev. unfold transferChecked. apply wp_or_quiet; [auto with quiet| |done]. intros after n Ha%wrapv_ok.
  apply LoadImportJournal_ok in Ha. apply wp_or_quiet; [apply quiet_guard| |done]. intros [] n1 [Hg _]%guard_ok. apply bool_decide_eq_false, dec_stable in Hg as ->.
  pose proof (import_at_ok _ _ _ _ Ha) as (Hid & _ & _).
  apply wp_or_value, wp_admitTransferLive; [done|done|]. intros [[]|e] w1 Hd1 Hl1 Hk1 Hok; [|done].
  destruct (Hok eq_refl) as (Hcap & Hlive & _ & s & ss & Htr & Hpl & Hsl). apply wp_or_quiet; [apply quiet_guard| |done]. intros [] n2 [Hg2 _]%guard_ok.
  apply negb_false_iff in Hg2. apply wp_ret. intros a [= <-]. cbn [w_trace w_disk retick] in *. rewrite Hd1.
  exists current, t. split_and!; try done.
  - rewrite Htr. rewrite Ht in *. exists [], s, (ss :: mid), before. split_and!; [done|done|done|].
    destruct Hpl as (ss' & rest & live & now & [= <- _] & _ & Hss & _). intros x [->|Hx]%elem_of_cons; [by rewrite Hss|by apply Hkept].
  - split; [done|]. right. by rewrite Hid.
Qed.
Lemma wp_TransferCapturedImport root id w :
  wp P (TransferCapturedImport root dom id : M B _) (succeeds (transferred id)) w.
Proof.
  unfold TransferCapturedImport. apply wp_or_quiet; [apply quiet_guard| |done]. intros _ n _.
  apply wp_or_quiet; [apply quiet_LoadImportJournal| |done]. intros initial n1 _.
  apply wp_or_value, wp_Acquire_took; [done| |done]. intros w1 Ht1. apply wp_deferred_succeeds; [eauto|].
  apply wp_or_value, wp_AcquireSession; [done| |done]. intros w2 Ht2. apply wp_deferred_succeeds; [eauto|].
  apply wp_or_value, wp_AcquireStorage; [done| |done]. intros w3 Ht3.
  pose proof (tk_locks _ _ _ Ht1) as Hl1. pose proof (tk_locks _ _ _ Ht2) as Hl2. pose proof (tk_locks _ _ _ Ht3) as Hl3. pose proof (tk_free _ _ _ Ht3) as Hfree.
  assert (session_locks dom initial (w_locks w2)) as HL by (rewrite Hl2, Hl1; split; set_solver).
  apply wp_or_value, wp_deferred, wp_transferIntent; [rewrite Hl3; destruct HL; split; set_solver|rewrite Hl3; set_solver|].
  intros r w4 Hl4 Hr. apply (wp_Release_held _ _ (w_locks w2)); [done|by rewrite Hl4, Hl3|done|]. intros r2 w5 Hl5 Hd5 _ Ht5.
  destruct r as [current|e], r2 as [[]|e2]; cbn [join_release]; try done.
  destruct (Hr current eq_refl) as [(Hdom & Hph & Hrec & Hcap & Hlive & Hsince) Hname].
  destruct (importControlBinding current) as [binding spec] eqn:Hb.
  assert (session_locks dom current (w_locks w5)) as HL5 by (unfold session_locks; rewrite Hl5, Hname; exact HL).
  apply wp_or_value, wp_host_call. intros result h _. split.
  - exists current. rewrite Hd5. split_and!; try done. rewrite Ht5. eapply while_held_on; [|exact Hsince].
    apply kept_on_cons; [intros [= Hx]; by apply storage_scope_not_session in Hx|apply kept_on_refl].
  - destruct result as [result|e]; [|done]. set (w6 := asked _ _ _ _). apply wp_or_value, wp_AcquireStorage; [done| |done]. intros w7 Ht7.
    apply wp_deferred_succeeds; [eauto|]. eapply wp_transferChecked; [done|done| | |].
    + rewrite (tk_locks _ _ _ Ht7). apply elem_of_cons. right. apply HL5.
    + rewrite (tk_trace _ _ _ Ht7). eexists [_], _. split; [reflexivity|]. by intros x ->%list_elem_of_singleton.
    + by rewrite Hb.
Qed.

(** *** The beginning *)
Definition begun (id : string) (j : ImportJournal) (_ : list step) (k : disk) (_ : B) : Prop :=
  ij_id j = id ∧ ij_phase j = ImportCaptured ∧ import_recorded dom j k ∧ import_captured j k ∧ import_live dom j k.
Lemma wp_createImportJournal root j (Q : res unit → world B → Prop) w :
  ij_domain j = dom → import_live dom j (w_disk w) → live_since dom j (w_trace w) → session_locks dom j (w_locks w) → Lock.storage_scope dom ∈ w_locks w →
  (∀ r w', (r = Ok tt → import_recorded dom j (w_disk w') ∧ import_captured j (w_disk w') ∧ import_live dom j (w_disk w')) → Q r w') →
  wp P (createImportJournal root j) Q w.
Proof.
  intros Hdom Hlive Hsince HL Hst HQ. unfold createImportJournal. wp_guard as Hph by (by apply HQ). apply neqs_false in Hph.
  apply wp_bind, wp_lift. destruct (validateImportJournal j); [|by apply HQ].
  wp_read as u n Hcap by (by apply HQ). apply admitImport_ok in Hcap.
  apply wp_bind, wp_attempt, wp_quiet; [apply quiet_loadImportJournalFromRoot|]. rewrite Hdom. intros [current|e] n1 Hcur; cbn beta iota.
  - apply loadImportJournalFromRoot_ok in Hcur. wp_guard as Hg by (by apply HQ). apply bool_decide_eq_false, dec_stable in Hg as ->.
    apply wp_quiet; [apply quiet_fs_sync|]. intros r n2 _. apply HQ. intros _. split; [split; [done|by right]|done].
  - destruct (negb (err_not_exist e)); [by apply wp_throw, HQ|]. unfold encodeImportJournal. apply wp_bind, wp_lift.
    destruct (check _ _); [|by apply HQ]. cbn [res_bind]. apply wp_fs_publish_new; [|by intros; apply HQ]. intros Hnone. cbn [w_disk w_locks w_trace retick] in *.
    assert (import_captured j (<[(Imports, json_name (ij_id j)) := EFile (importFile j)]> (w_disk w))) as Hc
      by (apply (import_captured_ext j (w_disk w)); [intros name; by rewrite lookup_insert_ne|done]).
    assert (import_live dom j (<[(Imports, json_name (ij_id j)) := EFile (importFile j)]> (w_disk w))) as Hl by by apply live_written.
    split; [by exists j|]. intros r. apply HQ. intros _. split; [split; [done|left; apply lookup_insert_eq]|done].
Qed.
Lemma wp_beginAdmitted root name id r v w :
  session_at dom name (w_disk w) = Some r → running_ready dom r = true → volume_at dom (vo_id v) (w_disk w) = Some v →
  active_use (sr_id r) name (br_object_id (sr_backend r)) (sr_generation r) v = true → w_disk w !! (Rebuilds, json_name name) = None →
  Lock.transition_scope dom name ∈ w_locks w → Lock.session_scope dom name ∈ w_locks w → Lock.storage_scope dom ∈ w_locks w →
  wp P (beginAdmitted root dom name id r v) (succeeds (begun id)) w.
Proof.
  intros Hr Hrun Hv Huse Hnone HL1 HL2 HL3. unfold beginAdmitted.
  assert (br_kind (sr_backend r) = "tart"%string) as Hkind by (unfold running_ready in Hrun; by bsimpl). rewrite Hkind.
  apply wp_or_value, wp_wrap, wp_SupervisorSnapshot. intros [live|e] w1 Hd1 Hl1 Ht1; [|done].
  apply wp_or_value, wp_readNow. intros now w2 Hd2 Hl2 Ht2. apply wp_or_quiet; [apply quiet_guard| |done]. intros [] n [Hg _]%guard_ok. apply negb_false_iff in Hg.
  apply wp_or_quiet; [apply quiet_contextErr| |done]. intros u n1 _.
  apply wp_or_quiet; [auto with quiet| |done]. intros s n2 _.
  set (j := mkImportJournal _ _ _ _ _ _ _ _ _ _ _ _ _ _ _).
  assert (import_live dom j (w_disk w2)) as Hlive.
  { rewrite Hd2, Hd1. constructor; [by exists r| |done]. exists v. split_and!; [done|done|done|].
    unfold active_use in Huse. cbn. destruct (vo_attachment v); [done|]. by rewrite andb_false_r in Huse. }
  apply wp_or_value, wp_createImportJournal; cbn [w_disk w_locks w_trace retick]; [done|done| |split; by rewrite Hl2, Hl1|by rewrite Hl2, Hl1|].
  - rewrite Ht2, Ht1. apply while_held_here; [|cbn [st_locks]; by rewrite Hl1].
    exists (Step (EvSnapshot (importControlBinding j).1 (Ok live)) (w_disk w) (w_disk w) (w_locks w)), (w_trace w), live, now. done.
  - intros [[]|e] w3 Hok; [|done]. destruct (Hok eq_refl) as (H1 & H2 & H3). apply wp_ret. intros a [= <-]. done.
Qed.
Lemma wp_BeginImport root name vol id w : wp P (BeginImport root dom name vol id : M B _) (succeeds (begun id)) w.
Proof.
  unfold BeginImport. apply wp_or_quiet; [apply quiet_guard| |done]. intros _ n _.
  apply wp_or_value, wp_Acquire_took; [done| |done]. intros w1 Ht1. apply wp_deferred_succeeds; [done|].
  apply wp_or_value, wp_AcquireSession; [done| |done]. intros w2 Ht2. apply wp_deferred_succeeds; [done|].
  apply wp_or_value, wp_AcquireStorage; [done| |done]. intros w3 Ht3. apply wp_deferred_succeeds; [done|].
  pose proof (tk_locks _ _ _ Ht1) as Hl1. pose proof (tk_locks _ _ _ Ht2) as Hl2. pose proof (tk_locks _ _ _ Ht3) as Hl3.
  unfold beginLocked. apply wp_or_quiet; [auto with quiet| |done]. intros current n1 Hr. apply LoadRecord_ok in Hr.
  apply wp_or_quiet; [apply quiet_guard| |done]. intros [] n2 [Hg _]%guard_ok. apply negb_false_iff in Hg. apply andb_true_iff in Hg as [[Hrun _]%andb_true_iff _].
  apply wp_or_quiet; [auto with quiet| |done]. intros u n3 Hnone. apply RequireNoRebuild_ok in Hnone.
  apply wp_or_quiet; [auto with quiet| |done]. intros attached n4 Hat. apply listSessionAttachments_ok in Hat as [Hat _].
  destruct (List.find _ attached) as [v|] eqn:Hf; [|by apply wp_ret]. apply List.find_some in Hf as [Hin Hvol]. apply list_elem_of_In in Hin.
  apply wp_or_quiet; [apply quiet_guard| |done]. intros [] n5 [Hg2 _]%guard_ok. apply negb_false_iff in Hg2.
  destruct (ats_in _ _ _ _ _ Hat v Hin) as [Hv _].
  apply wp_beginAdmitted; cbn [w_disk w_locks retick] in *; try done; rewrite Hl3, Hl2, Hl1; set_solver.
Qed.

(** *** The verification *)
Section verify.
Context {IP : ImportProtocol E} {KP : KeepsPublished B}.
(** The destinations are as they were at the beginning. *)
Definition shown w : Prop := ∀ path, in_entries path (w_host w) = published path.
Lemma quiet_publishedImportRoot exported id : quiet (publishedImportRoot exported id : M B _).
Proof. unfold publishedImportRoot. quiet_tac. by apply quiet_host_try. Qed.
Lemma wp_Admit_shown q (Q : res Qualification → world B → Prop) w :
  shown w → (∀ r w', shown w' → same w w' → Q r w') → wp P (Admit q) Q w.
Proof.
  intros Hw HQ. apply wp_host_ask. destruct (host_Admit q (w_host w)) as [r h] eqn:Eh. apply HQ; [|done]. intros path. cbn.
  pose proof (kp_admit q (w_host w) path) as Hk. rewrite Eh in Hk. cbn in Hk. rewrite Hk. apply Hw.
Qed.
Lemma wp_CloseDisk_shown (Q : res unit → world B → Prop) w :
  shown w → (∀ r w', shown w' → same w w' → Q r w') → wp P CloseDisk Q w.
Proof.
  intros Hw HQ. apply wp_host_ask. destruct (host_CloseDisk (w_host w)) as [r h] eqn:Eh. apply HQ; [|done]. intros path. cbn.
  pose proof (kp_close (w_host w) path) as Hk. rewrite Eh in Hk. cbn in Hk. rewrite Hk. apply Hw.
Qed.
Lemma wp_stopped_shown observer name (Q : res SessionRecord → world B → Prop) w :
  shown w → (∀ r w', shown w' → w_disk w' = w_disk w → w_locks w' = w_locks w →
     (∀ n, kept_on (Lock.session_scope dom n) (w_trace w) (w_trace w')) →
     (∀ record, r = Ok record → ∃ s o, w_trace w' = s :: o ∧ observed_stopped (br_object_id (sr_backend record)) s ∧ st_locks s = w_locks w) → Q r w') →
  wp P (stoppedSession observer dom name) Q w.
Proof.
  intros Hw HQ. assert (∀ n e, Q (Er e) (retick n w)) as Hfail by (intros; apply HQ; try done; intros; apply kept_on_refl).
  unfold stoppedSession. wp_read as record n _ by (by apply Hfail). wp_guard as _ by (apply (Hfail n)). wp_read as u n1 _ by (by apply Hfail).
  apply wp_bind. unfold observedStopped. wp_guard as _ by (apply (Hfail n1)). apply wp_bind, wp_wrap, wp_host_call. intros r h Hr. split; [done|].
  set (w1 := asked _ _ _ _). assert (shown w1) as Hw1.
  { intros path. cbn. pose proof (kp_observe (br_object_id (sr_backend record)) (w_host w) path) as Hk. cbn [w_host retick] in Hr. rewrite Hr in Hk. cbn in Hk. rewrite Hk. apply Hw. }
  assert (∀ m, kept_on (Lock.session_scope dom m) (w_trace w) (w_trace w1)) as Hk by (intros m; apply kept_on_cons; [done|apply kept_on_refl]).
  destruct r as [ob|e]; [|by apply HQ]. apply wp_guard; [|intros _; by apply HQ]. intros Hg. rewrite !orb_false_iff, !negb_false_iff, !String.eqb_eq in Hg.
  destruct Hg as [[Ho He] Hs]. apply wp_ret, HQ; try done. intros record' [= <-].
  eexists _, _. split; [reflexivity|]. split; [|done]. exists ob. split_and!; [done|done|]. unfold exists_stopped. by rewrite He, Hs.
Qed.
(** The retained volume and the stopped machine. *)
Definition stopped_export (imported : ImportJournal) (exported : ExportJournal) w : Prop :=
  exports_import exported imported = true ∧
  (∃ v, volume_at dom (ij_volume imported) (w_disk w) = Some v ∧ retained v imported exported = true) ∧ stopped_under dom imported (w_trace w).
Lemma wp_admitStopped observer imported exported (Q : res unit → world B → Prop) w :
  shown w → ij_domain imported = dom → Lock.session_scope dom (ij_session_name imported) ∈ w_locks w →
  (∀ r w', shown w' → w_disk w' = w_disk w → w_locks w' = w_locks w → (r = Ok tt → stopped_export imported exported w') → Q r w') →
  wp P (admitStoppedImportExport observer imported exported) Q w.
Proof.
  intros Hw Hdom Hin HQ. unfold admitStoppedImportExport. rewrite Hdom. wp_guard as Hex by (by apply HQ). apply negb_false_iff in Hex.
  wp_read as v n Hv by (by apply HQ). apply LoadVolume_ok in Hv as [Hv _]. wp_guard as Hret by (by apply HQ). apply negb_false_iff in Hret.
  apply wp_bind, wp_wrap, wp_Admit_shown; [done|]. intros [q|e] w1 Hw1 [Hd1 Hl1 _]; [|by apply HQ]. cbn [w_disk w_locks retick] in *.
  apply wp_bind, wp_CloseDisk_shown; [done|]. intros [[]|e] w2 Hw2 [Hd2 Hl2 _]; [|apply HQ; [done|congruence|congruence|done]].
  wp_guard as _ by (apply HQ; [done|congruence|congruence|done]).
  apply wp_bind, wp_stopped_shown; [done|]. intros [stopped|e] w3 Hw3 Hd3 Hl3 _ Hs; [|apply HQ; [done|congruence|congruence|done]].
  apply wp_guard; [|intros _; apply HQ; [done|congruence|congruence|done]]. intros Hg. bsimpl.
  apply HQ; [done|congruence|congruence|]. intros _. split; [done|]. split; [exists v; split; [congruence|done]|].
  destruct (Hs stopped eq_refl) as (s & o & -> & Hobs & Hsl). apply while_held_here; [congruence|]. rewrite Hsl, Hl2, Hl1. exact Hin.
Qed.
(** A journal called verified. *)
Definition verified (id exportID : string) (j : ImportJournal) (_ : list step) (k : disk) (h : B) : Prop :=
  ij_id j = id ∧ ij_phase j = ImportVerified ∧ ij_export j = exportID ∧ import_recorded dom j k ∧ import_captured j k ∧
  ∃ exported, export_at dom exportID k = Some exported ∧ exports_import exported j = true ∧ snapshot_exact exported k ∧
    published_exact (in_entries (ej_parent exported) h) exported j.
Lemma unverified_export j : validateImportJournal j = Ok tt → ij_phase j = ImportTransferring → ij_export j = EmptyString.
Proof.
  unfold validateImportJournal. intros Hv Hp. rewrite Hp in Hv. res_inv Hv. cbn in Hv. apply check_ok in Hv. by apply eqs_true.
Qed.
(** The export's journal, its snapshot and the volumes outlast one more lock
    and the writing of the import's journal. *)
Lemma verified_files scope w w1 k id exported :
  took scope w w1 → Lock.storage_scope dom ∈ w_locks w → (∀ d name, d ≠ Imports → k !! (d, name) = w_disk w1 !! (d, name)) →
  export_at dom id (w_disk w) = Some exported → ej_phase exported = ExportPublished → snapshot_exact exported (w_disk w) →
  export_at dom id k = Some exported ∧ snapshot_exact exported k ∧ ∀ vol v, volume_at dom vol (w_disk w) = Some v → volume_at dom vol k = Some v.
Proof.
  intros Ht Hst Hk He Hp Hx. pose proof (export_at_ok _ _ _ _ He) as (Hid & _).
  destruct (tk_disk _ _ _ Ht) as [n Hn]. destruct (protocol_published n _ _ dom id exported Hst He Hp) as [H1 H2]. rewrite <-Hn in H1, H2. split_and!.
  - unfold export_at in *. rewrite (view_ext _ _ _ _ (w_disk w)); [done|]. by rewrite Hk.
  - apply (snapshot_exact_ext _ (w_disk w)); [|done]. rewrite Hk, Hid by done. exact H2.
  - intros vol v Hv. pose proof (took_volume _ _ _ _ _ _ Ht Hst Hv) as Hsame. unfold volume_at in *. rewrite (view_ext _ _ _ _ (w_disk w)); [done|].
    by rewrite Hk.
Qed.
Lemma import_root_not_empty id : import_root id ≠ EmptyString.
Proof. done. Qed.
Lemma wp_verifyLocked observer root id exportID initial (Q : res ImportJournal → world B → Prop) w :
  shown w → ij_phase initial = ImportTransferring ∨ ij_phase initial = ImportVerified ∧ ij_export initial = exportID →
  Lock.volume_scope dom (ij_volume initial) ∈ w_locks w → Lock.session_scope dom (ij_session_name initial) ∈ w_locks w → Lock.storage_scope dom ∈ w_locks w →
  (∀ r w', (∀ j, r = Ok j → verified id exportID j (w_trace w') (w_disk w') (w_host w')) → Q r w') →
  wp P (verifyLocked observer root dom id exportID initial) Q w.
Proof.
  intros Hw Hph HL1 HL2 HL3 HQ. unfold verifyLocked. wp_read as current n Hc by (by apply HQ). apply LoadImportJournal_ok in Hc.
  wp_guard as Hg by (by apply HQ). apply bool_decide_eq_false, dec_stable in Hg as ->. pose proof (import_at_ok _ _ _ _ Hc) as (Hid & Hdom & _).
  wp_read as exported n1 He by (by apply HQ). apply loadExportJournal_ok in He. pose proof (export_at_ok _ _ _ _ He) as (Heid & _ & Hev). cbn [w_disk retick] in He.
  apply wp_bind, wp_admitStopped; [done|done|done|]. intros [[]|e] w1 Hw1 Hd1 Hl1 _; [|by apply HQ].
  wp_read as u n2 Hx by (by apply HQ). apply admitExact_ok in Hx; [|by apply journal_size_ok].
  apply wp_bind, wp_quiet; [apply quiet_publishedImportRoot|]. intros [path|e] n3 _; [|by apply HQ].
  apply wp_bind, wp_wrap, wp_quiet; [apply quiet_ComparePublishedTree, import_root_not_empty|]. intros [s|e] n4 Hcmp; [|by apply HQ].
  apply ComparePublishedTree_ok in Hcmp as [Hcap Htree]; [|apply import_root_not_empty].
  wp_guard as Hsum by (by apply HQ). bsimpl. cbn [w_disk w_locks w_host retick] in *.
  assert (published_exact (published (ej_parent exported)) exported initial) as Hpub.
  { destruct Hcap as [Hp Hlim _ _ _ (raw & m & _ & _ & Hm & Hdig)]. exists m. rewrite Hm. split_and!; [congruence|done|done|].
    by rewrite <-(Hw1 (ej_parent exported)). }
  assert (import_captured initial (w_disk w1)) as Hcap1 by (by exists s).
  apply wp_bind, wp_wrapv, wp_quiet; [apply quiet_publishedImportRoot|]. intros [again|e] n5 _; [|by apply HQ]. wp_guard as _ by (by apply HQ). wp_read as again2 n6 _ by (by apply HQ). wp_guard as _ by (by apply HQ).
  apply wp_bind, wp_admitStopped; [done|done|by cbn; rewrite Hl1|]. intros [[]|e] w2 Hw2 Hd2 Hl2 Hst; [|by apply HQ].
  destruct (Hst eq_refl) as (Hexp & (v & Hv & Hret) & Hsince). cbn [w_disk w_locks retick] in *. rewrite Hl1 in Hl2.
  rewrite <-Hd2 in Hcap1, Hx. rewrite <-Hd1, <-Hd2 in Hc, He.
  assert (ej_phase exported = ExportPublished) as Hep by (unfold exports_import in Hexp; by bsimpl).
  destruct (ij_phase initial =s ImportVerified) eqn:Hp.
  { apply eqs_true in Hp. apply wp_ret, HQ. intros j [= <-]. destruct Hph as [Hph|[_ Hx']]; [congruence|].
    split_and!; [done|done|done|split; [done|right; by rewrite Hid]|done|]. exists exported. split_and!; [done|done|done|]. by rewrite (Hw2 (ej_parent exported)). }
  apply eqs_false in Hp. destruct Hph as [Hph|[Hph _]]; [|done]. set (next := set_import_phase ImportVerified exportID initial).
  apply wp_bind, wp_advanceImport; [done| | |].
  - unfold validImportAdvance. cbn. rewrite Hph. cbn. apply eqs_true. eapply unverified_export, Hph. by apply import_at_ok in Hc as (_ & _ & ?).
  - intros w3 Ht Hcap3. split; [done|]. intros _. pose proof (tk_locks _ _ _ Ht) as Hl3.
    destruct (verified_files _ _ _ _ exportID exported Ht ltac:(by rewrite Hl2) (λ d name Hd, lookup_insert_ne _ (Imports, json_name (ij_id next)) (d, name) (EFile (importFile next)) ltac:(congruence)) He Hep Hx) as (H3 & H4 & H5).
    exists exported, v. split_and!; [done|done|done|by apply H5|done| |done|..]; cbn [st_locks]; rewrite ?Hl3, ?Hl2.
    + eapply while_held_on; [by eapply kept_took|done].
    + apply elem_of_cons. by right.
    + apply elem_of_cons. by right.
    + apply elem_of_cons. by right.
  - intros [[]|e] w3 Hl3 Hh3 _ Hok; [|by apply HQ]. destruct (Hok eq_refl) as (Hrec & Hcap3 & w4 & Ht & Hsame).
    destruct (verified_files _ _ _ _ exportID exported Ht ltac:(by rewrite Hl2) Hsame He Hep Hx) as (H3 & H4 & _).
    apply wp_ret, HQ. intros j [= <-]. split_and!; [done|done|done|done|done|]. exists exported. split_and!; [done|done|done|].
    rewrite Hh3, (Hw2 (ej_parent exported)). exact Hpub.
Qed.
Lemma wp_VerifyStoppedImport observer root id exportID w :
  shown w → wp P (VerifyStoppedImport observer root dom id exportID : M B _) (succeeds (verified id exportID)) w.
Proof.
  intros Hw. unfold VerifyStoppedImport. apply wp_or_quiet; [apply quiet_guard| |done]. intros _ n _.
  apply wp_or_quiet; [apply quiet_LoadImportJournal| |done]. intros initial n1 _. apply wp_or_quiet; [apply quiet_guard| |done]. intros [] n2 [Hg _]%guard_ok.
  apply wp_or_value, wp_AcquireVolumeUse; [done| |done]. intros w1 Ht1. apply wp_deferred_succeeds; [done|].
  apply wp_or_value, wp_AcquireSession; [done| |done]. intros w2 Ht2. apply wp_deferred_succeeds; [done|].
  apply wp_or_value, wp_AcquireStorage; [done| |done]. intros w3 Ht3. apply wp_deferred_succeeds; [done|].
  pose proof (tk_locks _ _ _ Ht1) as Hl1. pose proof (tk_locks _ _ _ Ht2) as Hl2. pose proof (tk_locks _ _ _ Ht3) as Hl3.
  apply wp_or_value, wp_verifyLocked.
  - intros path. by rewrite (tk_host _ _ _ Ht3), (tk_host _ _ _ Ht2), (tk_host _ _ _ Ht1).
  - rewrite andb_false_iff, orb_false_iff, !negb_false_iff, !String.eqb_eq in Hg. tauto.
  - rewrite Hl3, Hl2, Hl1. set_solver.
  - rewrite Hl3, Hl2. set_solver.
  - rewrite Hl3. set_solver.
  - intros [j|e] w4 Hv; [|done]. apply wp_ret. intros a [= <-]. by apply Hv.
Qed.
End verify.
End import.

(** ** Properties *)
Section properties.
Context {B : Type} {E : Env} {SP : SessionProtocol E} {EP : ExportProtocol E} {H : Host B} {F : HostFiles}
        {T : TreeHost} {I : Inspection B} {C : ImportControl B} {D : Digests}.

(** C30: an import moves bytes only on evidence. Whatever fails, whatever the
    supervisor and the operating system answer, and whatever processes that keep
    the lock protocol do in between, beginning an import and transferring it
    change nothing but the import's journal: it is created where there was none,
    and advanced over exactly the journal on disk, whose phase (and export) alone
    change, only while the captured files on disk are exactly those of a canonical manifest
    with the journal's digest, counts and limits; the supervisor is asked to
    transfer only while the transferring journal is durable, under the session's
    two locks, with the exact running session, attached and mounted volume and
    absent rebuild on disk, and the generation reported ready, freshly, since the
    session lock was taken. A reported success of a transfer means that the guest's
    answer to that very request agrees with the captured digest, counts and path,
    and that all of this still holds: journal, captured files, session and volume
    are so on disk, and the generation was reported ready again, freshly, after
    the answer, without the session lock having been given up in between. *)
Theorem import_transfer_is_safe (published : string → gmap string tree) (stateRoot dom sessionName volumeID id : string) (w : world B) :
  wp (import_step dom published) (BeginImport stateRoot dom sessionName volumeID id)
     (λ r w', ∀ j, r = Ok (j, None) →
        ij_id j = id ∧ ij_phase j = ImportCaptured ∧ import_recorded dom j (w_disk w') ∧ import_captured j (w_disk w') ∧ import_live dom j (w_disk w')) w ∧
  wp (import_step dom published) (TransferCapturedImport stateRoot dom id)
     (λ r w', ∀ result, r = Ok (result, None) → ∃ j t,
        ij_id j = id ∧ ij_phase j = ImportTransferring ∧
        st_event t = EvTransfer (importControlBinding j).1 (importControlBinding j).2 (Ok result) ∧ read_back j result = true ∧
        live_after dom j t (w_trace w') ∧ import_recorded dom j (w_disk w') ∧ import_captured j (w_disk w') ∧ import_live dom j (w_disk w')) w.
Proof. split; [apply wp_BeginImport|apply wp_TransferCapturedImport]. Qed.

(** C31: an import is called verified only for the very tree that was
    captured. The verification changes nothing but the phase and the export of the
    import's journal, over exactly the journal on disk, and that only under the volume's, session's, storage's and import's locks, with
    the machine observed stopped since the session lock was taken, the retained
    volume unused, the export of the imported directory durably published from
    that volume and its snapshot still exact, and the published tree holding
    exactly the entries (paths, kinds, sizes, digests) of a manifest with the
    journal's digest, as the captured tree does. A reported success means that
    this journal is durable and that the published tree is still that one. *)
Theorem import_verify_is_safe {IP : ImportProtocol E} {KP : KeepsPublished B}
    (observer : bool) (stateRoot dom id exportID : string) (w : world B) :
  wp (import_step dom (λ path, in_entries path (w_host w))) (VerifyStoppedImport observer stateRoot dom id exportID)
     (λ r w', ∀ j, r = Ok (j, None) →
        ij_id j = id ∧ ij_phase j = ImportVerified ∧ ij_export j = exportID ∧ import_recorded dom j (w_disk w') ∧ import_captured j (w_disk w') ∧
        ∃ exported, export_at dom exportID (w_disk w') = Some exported ∧ exports_import exported j = true ∧ snapshot_exact exported (w_disk w') ∧
          published_exact (in_entries (ej_parent exported) (w_host w')) exported j) w.
Proof. by apply wp_VerifyStoppedImport. Qed.
End properties.

(** *** Evaluations: a captured directory of one file is begun, transferred,
    and, once its session has stopped and the directory was exported, verified *)
Section evaluations.
#[local] Existing Instance quietEnv.
#[local] Existing Instance labHost.
#[local] Existing Instance ReceiverSafety.labDigests.
#[local] Instance lab_files : HostFiles := {|
  hf_stat _ _ := Ok (mkInfo (1, 2) 0 true); hf_names _ _ := Ok []; hf_identity _ _ _ := (1, 3); hf_close _ := Ok tt; hf_seek _ := Ok tt;
  hf_canceled _ := false; hf_random _ := Ok (str_repeat "A" 16) |}.
#[local] Instance lab_trees : TreeHost := {| th_identity _ _ _ := (1, 4); th_modified _ _ _ := 7 |}.
Definition lab_import : string := "5c5c5c5c-bbbb-4ccc-8ddd-eeeeeeeeeeee".
Definition lab_export_id : string := "6d6d6d6d-bbbb-4ccc-8ddd-eeeeeeeeeeee".
Definition lab_tree : tree :=
  {[ import_root lab_import := NDir; (import_root lab_import +:+ "/docs")%string := NDir;
     (import_root lab_import +:+ "/docs/a.txt")%string := NFile "hello world" ]}.
#[local] Instance lab_destinations : Inspection lab := {|
  in_entries _ _ := {[ exportTransactionHex lab_export_id := lab_tree ]}; in_publish _ _ b := b; in_admit _ _ _ b := (fail "unused", b);
  in_build _ _ _ _ b := (fail "unused", b); in_remove _ b := (Ok tt, b) |}.
#[local] Instance lab_keeps : KeepsPublished lab.
Proof. by constructor. Qed.
Definition lab_entries : manifest :=
  mkManifest 1 (Some [mkEntry "docs" "directory" 0 ""; mkEntry "docs/a.txt" "file" 11 (sha256 "hello world")]).
Definition lab_result (t : ImportTransfer) : ImportResult :=
  mkImportResult (it_digest t) 1 11 (it_mount t +:+ "/" +:+ import_root (it_transaction t)).
#[local] Instance lab_control : ImportControl lab := {| ic_transfer _ t b := (Ok (lab_result t), b) |}.

Definition lab_generation : string := "99999999-9999-4999-8999-999999999999".
Definition lab_running : SessionRecord :=
  mkSessionRecord 2 "work" "dev" (sr_id example_record) ModeClean StateRunning (sr_backend example_record) "base-1" "" lab_generation
    (mkReadiness ReadinessReady "").
Definition lab_object : string := br_object_id (sr_backend example_record).
Definition lab_volume (use : option Use) : Volume :=
  mkVolume 1 "work" "0a0a0a0a-bbbb-4ccc-8ddd-eeeeeeeeeeee" 4096 FormatRawExt4 "1b1b1b1b-bbbb-4ccc-8ddd-eeeeeeeeeeee" VolAvailable
    (Some (mkDisk 1 1)) (Some (mkAttachment (sr_id example_record) "dev" "/home/boxwarden/workspaces/src")) use None.
Definition lab_captured : disk :=
  {[ (Imports, lab_import) := EDir;
     (Captured lab_import, manifestName) := EFile (bytes_file (canonicalManifest lab_entries +:+ String LF ""));
     (Captured lab_import, "docs"%string) := EDir;
     (Captured lab_import, "docs/a.txt"%string) := EFile (bytes_file "hello world") ]}.
Definition lab_live : world lab :=
  worldOf (<[(Sessions, "dev.json"%string) := EFile (sessionFile lab_running)]>
          (<[(Workspaces, json_name (vo_id (lab_volume None))) := EFile (volumeFile (lab_volume (Some (mkUse "tart" lab_object lab_generation))))]> lab_captured))
          {[ lab_object := ObjectRunning ]}.
Definition lab_begin : res (outcome ImportJournal) * world lab :=
  BeginImport "/var/lib/boxwarden" "work" "dev" (vo_id (lab_volume None)) lab_import lab_live.
Definition lab_transfer : res (outcome ImportResult) * world lab := TransferCapturedImport "/var/lib/boxwarden" "work" lab_import lab_begin.2.
Definition lab_begun : ImportJournal := match lab_begin.1 with Ok (j, _) => j | Er _ => zeroImportJournal end.

(** The session has stopped, and the directory was exported. *)
Definition lab_exported : ExportJournal :=
  mkExportJournal 1 lab_export_id "work" (vo_id (lab_volume None)) (sr_id example_record) "dev" lab_object (vo_uuid (lab_volume None)) 4096
    (mkDisk 1 1) (path_join "exports" [lab_export_id; snapshot_raw]) "/srv/exports" (mkDisk 1 2) [import_root lab_import] ExportPublished
    (Some (mkExportSnapshot (mkDisk 1 3) (sha256 ""))).
Definition lab_stopped : world lab :=
  worldOf (<[(Sessions, "dev.json"%string) := EFile (sessionFile example_record)]>
          (<[(Workspaces, json_name (vo_id (lab_volume None))) := EFile (volumeFile (lab_volume None))]>
          (<[(Exports, json_name lab_export_id) := EFile (exportFile lab_exported)]> (<[(Exports, lab_export_id) := EDir]>
          (<[(Transaction lab_export_id, snapshot_raw) := EFile (bytes_file (str_repeat "x" 4096))]> (w_disk lab_transfer.2))))))
          {[ lab_object := ObjectStopped ]}.
Definition lab_verify : res (outcome ImportJournal) * world lab :=
  VerifyStoppedImport true "/var/lib/boxwarden" "work" lab_import lab_export_id lab_stopped.
Definition lab_verified : ImportJournal := match lab_verify.1 with Ok (j, _) => j | Er _ => zeroImportJournal end.
Definition lab_answer : ImportResult := lab_result (importControlBinding lab_begun).2.
Lemma import_transfer_is_safe_witness :
  (ij_id lab_begun = lab_import ∧ ij_phase lab_begun = ImportCaptured ∧ import_recorded "work" lab_begun (w_disk lab_begin.2) ∧
   import_captured lab_begun (w_disk lab_begin.2) ∧ import_live "work" lab_begun (w_disk lab_begin.2)) ∧
  ∃ j t, ij_id j = lab_import ∧ ij_phase j = ImportTransferring ∧
    st_event t = EvTransfer (importControlBinding j).1 (importControlBinding j).2 (Ok lab_answer) ∧ read_back j lab_answer = true ∧
    live_after "work" j t (w_trace lab_transfer.2) ∧ import_recorded "work" j (w_disk lab_transfer.2) ∧ import_captured j (w_disk lab_transfer.2) ∧ import_live "work" j (w_disk lab_transfer.2).
Proof.
  split.
  - refine (wp_result _ _ _ _ (proj1 (import_transfer_is_safe (λ _, ∅) "/var/lib/boxwarden" "work" "dev" (vo_id (lab_volume None)) lab_import lab_live)) lab_begun _).
    vm_compute. reflexivity.
  - refine (wp_result _ _ _ _ (proj2 (import_transfer_is_safe (λ _, ∅) "/var/lib/boxwarden" "work" "dev" (vo_id (lab_volume None)) lab_import lab_begin.2)) lab_answer _).
    vm_compute. reflexivity.
Defined.
Lemma import_verify_is_safe_witness :
  ij_id lab_verified = lab_import ∧ ij_phase lab_verified = ImportVerified ∧ ij_export lab_verified = lab_export_id ∧
  import_recorded "work" lab_verified (w_disk lab_verify.2) ∧ import_captured lab_verified (w_disk lab_verify.2) ∧
  ∃ exported, export_at "work" lab_export_id (w_disk lab_verify.2) = Some exported ∧ exports_import exported lab_verified = true ∧
    snapshot_exact exported (w_disk lab_verify.2) ∧ published_exact (in_entries (ej_parent exported) (w_host lab_verify.2)) exported lab_verified.
Proof.
  refine (wp_result _ _ _ _ (import_verify_is_safe true "/var/lib/boxwarden" "work" lab_import lab_export_id lab_stopped) lab_verified _).
  vm_compute. reflexivity.
Defined.
(** A published tree with one file more, or one that lost a byte, is refused. *)
Definition lab_published_as (t : tree) : Inspection lab := {|
  in_entries _ _ := {[ exportTransactionHex lab_export_id := t ]}; in_publish _ _ b := b; in_admit _ _ _ b := (fail "unused", b);
  in_build _ _ _ _ b := (fail "unused", b); in_remove _ b := (Ok tt, b) |}.
Definition lab_refusal (t : tree) : option string :=
  match (VerifyStoppedImport (I := lab_published_as t) true "/var/lib/boxwarden" "work" lab_import lab_export_id lab_stopped).1 with
  | Ok (_, e) => err_msg <$> e
  | Er e => Some (err_msg e)
  end.
Example lab_refusals :
  lab_refusal lab_tree = None ∧
  isSome (lab_refusal (<[(import_root lab_import +:+ "/docs/b.txt")%string := NFile ""]> lab_tree)) = true ∧
  isSome (lab_refusal (<[(import_root lab_import +:+ "/docs/a.txt")%string := NFile "hello worl"]> lab_tree)) = true ∧
  isSome (lab_refusal (delete (import_root lab_import +:+ "/docs/a.txt")%string lab_tree)) = true.
Proof. vm_compute. by split_and!. Qed.
End evaluations.
