(* ===== verification/ActionAttempt.v ===== *)
(** Guest action attempts, src/internal/session/action_attempt.go and
    action_list.go: the durable record of one attempt, its exclusive
    reservation, its single transition to an outcome, and the listing of a
    session's attempts. The files are action-attempts/<session>/<attempt>.json,
    the directory [Attempts session]. *)
From S2P Require Import Prelude Ids Json JsonText Recipe GuestProto SessionRecord Outside World Host Logic SessionStore RebuildJournal.

Definition maxActionAttemptBytes : N := 2048.
Definition maxActionAttempts : nat := 4096.

Abbreviation ActionAttemptReserved := "reserved"%string.
Abbreviation ActionAttemptSucceeded := "succeeded"%string.
Abbreviation ActionAttemptFailed := "failed"%string.
Abbreviation ActionAttemptIndeterminate := "indeterminate"%string.
Abbreviation ActionAttemptSkipped := "skipped"%string.

Record ActionAttempt := mkAttempt {
  aa_version : Z; aa_domain : string; aa_session_name : string; aa_session : string; aa_object : string;
  aa_generation : string; aa_recipe : string; aa_action : string; aa_phase : string; aa_attempt : string;
  aa_state : string; aa_receipt : string }.
#[export] Instance ActionAttempt_eq_dec : EqDecision ActionAttempt.
Proof. solve_decision. Defined.
Definition zeroAttempt : ActionAttempt := mkAttempt 0 "" "" "" "" "" "" "" "" "" "" "".
(** [a.State = state; a.ReceiptSHA256 = receipt] *)
Definition set_outcome (state receipt : string) (a : ActionAttempt) : ActionAttempt :=
  mkAttempt (aa_version a) (aa_domain a) (aa_session_name a) (aa_session a) (aa_object a) (aa_generation a)
    (aa_recipe a) (aa_action a) (aa_phase a) (aa_attempt a) state receipt.

Definition validActionID (value : string) : bool :=
  match value with
  | EmptyString => false
  | String c rest => negb (64 <? String.length value)%nat && is_lower c && str_all id_byte rest
  end.
Definition validateActionAttempt (a : ActionAttempt) : res unit :=
  match Domain.Parse (aa_domain a), Session.ParseName (aa_session_name a) with
  | Ok parsedDomain, Ok name =>
      check (parsedDomain =s aa_domain a) "invalid action attempt domain" ;;?
      check ((name =s aa_session_name a) && (aa_version a =? 1) && Session.validUUID (aa_session a) &&
             Session.validUUID (aa_generation a) && Session.validUUID (aa_attempt a) && (aa_attempt a ≠s nil_uuid) &&
             Session.validBackendObjectID (aa_object a) && Session.lowerSHA256 (aa_recipe a) && validActionID (aa_action a))
            "invalid action attempt identity" ;;?
      check (existsb (String.eqb (aa_phase a)) ["once"; "reconfigure"; "startup"; "launch"]) "invalid action phase" ;;?
      if existsb (String.eqb (aa_state a)) [ActionAttemptReserved; ActionAttemptFailed; ActionAttemptIndeterminate; ActionAttemptSkipped]
      then check (aa_receipt a =s "") "unfinished or failed action cannot claim a receipt"
      else if aa_state a =s ActionAttemptSucceeded
      then check (Session.lowerSHA256 (aa_receipt a)) "successful action requires a receipt digest"
      else fail "invalid action attempt state"
  | _, _ => fail "invalid action attempt identity"
  end.

(** ** Encoding *)

Definition marshalAttempt (a : ActionAttempt) : json :=
  JObj [("version", JNum (aa_version a)); ("domain", jstr (aa_domain a)); ("session_name", jstr (aa_session_name a));
        ("session_id", jstr (aa_session a)); ("backend_object", jstr (aa_object a)); ("generation", jstr (aa_generation a));
        ("recipe_digest", jstr (aa_recipe a)); ("action_id", jstr (aa_action a)); ("action_phase", jstr (aa_phase a));
        ("attempt_id", jstr (aa_attempt a)); ("state", jstr (aa_state a)); ("receipt_sha256", jstr (aa_receipt a))].
Definition encodeActionAttempt (a : ActionAttempt) : res file :=
  let f := json_file (marshalAttempt a) in
  check (negb (maxActionAttemptBytes <? file_size f)%N) "action attempt exceeds bound" ;;? Ok f.
Definition attempt_field (name : string) (v : json) (a : ActionAttempt) : option (res ActionAttempt) :=
  let '(mkAttempt ver dom sn sid ob gen rd ai ap at_ st rs) := a in
  if name =s "version" then Some (let? x := get_int v ver in Ok (mkAttempt x dom sn sid ob gen rd ai ap at_ st rs))
  else if name =s "domain" then Some (let? x := get_string v dom in Ok (mkAttempt ver x sn sid ob gen rd ai ap at_ st rs))
  else if name =s "session_name" then Some (let? x := get_string v sn in Ok (mkAttempt ver dom x sid ob gen rd ai ap at_ st rs))
  else if name =s "session_id" then Some (let? x := get_string v sid in Ok (mkAttempt ver dom sn x ob gen rd ai ap at_ st rs))
  else if name =s "backend_object" then Some (let? x := get_string v ob in Ok (mkAttempt ver dom sn sid x gen rd ai ap at_ st rs))
  else if name =s "generation" then Some (let? x := get_string v gen in Ok (mkAttempt ver dom sn sid ob x rd ai ap at_ st rs))
  else if name =s "recipe_digest" then Some (let? x := get_string v rd in Ok (mkAttempt ver dom sn sid ob gen x ai ap at_ st rs))
  else if name =s "action_id" then Some (let? x := get_string v ai in Ok (mkAttempt ver dom sn sid ob gen rd x ap at_ st rs))
  else if name =s "action_phase" then Some (let? x := get_string v ap in Ok (mkAttempt ver dom sn sid ob gen rd ai x at_ st rs))
  else if name =s "attempt_id" then Some (let? x := get_string v at_ in Ok (mkAttempt ver dom sn sid ob gen rd ai ap x st rs))
  else if name =s "state" then Some (let? x := get_string v st in Ok (mkAttempt ver dom sn sid ob gen rd ai ap at_ x rs))
  else if name =s "receipt_sha256" then Some (let? x := get_string v rs in Ok (mkAttempt ver dom sn sid ob gen rd ai ap at_ st x))
  else None.
Definition attempt_fields : list string :=
  ["version"; "domain"; "session_name"; "session_id"; "backend_object"; "generation"; "recipe_digest"; "action_id";
   "action_phase"; "attempt_id"; "state"; "receipt_sha256"].
Definition decodeActionAttempt (v : json) : res ActionAttempt :=
  let? (a, seen) := decode_object attempt_field v zeroAttempt in
  check (seen_all attempt_fields seen) "missing action attempt field" ;;?
  validateActionAttempt a ;;? Ok a.
(** What a file holds for one domain, session and attempt. *)
Definition parseAttempt (domainID sessionID attemptID : string) (f : file) : res ActionAttempt :=
  let? v := single_doc maxActionAttemptBytes f in
  let? a := decodeActionAttempt v in
  check ((aa_domain a =s domainID) && (aa_session a =s sessionID) && (aa_attempt a =s attemptID))
        "action attempt differs from requested binding" ;;?
  Ok a.
Definition attempt_at (domainID sessionID attemptID : string) (k : disk) : option ActionAttempt :=
  view (parseAttempt domainID sessionID attemptID) (Attempts sessionID) (json_name attemptID) k.

Definition actionMatchesRunningRecord (a : ActionAttempt) (record : SessionRecord) : bool :=
  (sr_domain record =s aa_domain a) && (sr_name record =s aa_session_name a) && (sr_id record =s aa_session a) &&
  (br_kind (sr_backend record) =s "tart") && (br_object_id (sr_backend record) =s aa_object a) &&
  (sr_intent record =s aa_recipe a) && (sr_generation record =s aa_generation a) && (sr_state record =s StateRunning) &&
  (rr_status (sr_readiness record) =s ReadinessReady).
Definition actionMatchesStoppedRecord (a : ActionAttempt) (record : SessionRecord) : bool :=
  (sr_domain record =s aa_domain a) && (sr_name record =s aa_session_name a) && (sr_id record =s aa_session a) &&
  (br_kind (sr_backend record) =s "tart") && (br_object_id (sr_backend record) =s aa_object a) &&
  (sr_intent record =s aa_recipe a) && (sr_state record =s StateStopped) && (sr_generation record =s "") &&
  (rr_status (sr_readiness record) =s ReadinessNotReady).

(** The prior attempt that forbids a new one on the same system. *)
Definition replays (next prior : ActionAttempt) : bool :=
  (aa_action prior =s aa_action next) && (aa_phase prior =s aa_phase next) && (aa_recipe prior =s aa_recipe next) &&
  (aa_object prior =s aa_object next) && ((aa_phase next =s "once") || (aa_generation prior =s aa_generation next)).

(** The attempt a temporary file of the store belongs to:
    [.<uuid>.json.tmp-<32 hexadecimal digits>]. *)
Definition temporary_attempt (name : string) : option string :=
  match name with
  | String "." rest =>
      let id := String.substring 0 36 rest in
      if (String.length name =? 1 + 36 + 10 + 32)%nat && (String.substring 36 10 rest =s ".json.tmp-") &&
         Session.validUUID id && str_all is_lower_hex (String.substring 46 32 rest)
      then Some id else None
  | _ => None
  end.

Section store.
Context {B : Type} {E : Env} {D : Digests}.

(** The recipe the attempt names declares its action. *)
Definition declares (intent : Recipe) (a : ActionAttempt) : bool :=
  existsb (λ s, (st_id s =s aa_action a) && (st_phase s =s aa_phase a)) (items (rc_steps intent)) ||
  (aa_phase a =s "launch") && existsb (λ l, la_id l =s aa_action a) (items (rc_launch intent)).
Definition admitActionIntent (a : ActionAttempt) : M B unit :=
  let! raw := wrap "load exact action recipe" (LoadRecipeIntent (aa_recipe a)) in
  let! intent := lift (DecodeIntent raw) in
  guard (negb (declares intent a)) "action is absent from exact recipe".

Definition LoadActionAttempt (domainID sessionID attemptID : string) : M B ActionAttempt :=
  lift (Domain.Parse domainID) ;;!
  guard (negb (Session.validUUID sessionID) || negb (Session.validUUID attemptID)) "invalid action attempt path" ;;!
  let! f := fs_read (Attempts sessionID) (json_name attemptID) in
  let! a := lift (parseAttempt domainID sessionID attemptID f) in
  admitActionIntent a ;;!
  ret a.

(** [publishedActionAttemptTemporary]: whether a name is passed over. *)
Definition requirePrivateRegularInfo (info : entry) : res unit :=
  match info with EFile _ => Ok tt | _ => fail "must be a private regular file" end.
Definition publishedActionAttemptTemporary (sessionID name : string) : M B bool :=
  match temporary_attempt name with
  | None => ret false
  | Some id =>
      let! info := fs_lstat (Attempts sessionID) name in
      lift (requirePrivateRegularInfo info) ;;!
      guard (match info with EFile f => (maxActionAttemptBytes <? file_size f)%N | _ => true end)
            "unpublished action attempt exceeds bound" ;;!
      let! final := wrap "published action attempt is absent" (fs_lstat (Attempts sessionID) (json_name id)) in
      lift (requirePrivateRegularInfo final) ;;!
      ret true
  end.

Fixpoint scanReplays (next : ActionAttempt) (entries : list (string * entry)) : M B unit :=
  match entries with
  | [] => ret tt
  | (name, kind) :: rest =>
      let! temporary := wrap "inspect unpublished action attempt" (publishedActionAttemptTemporary (aa_session next) name) in
      if temporary : bool then scanReplays next rest
      else match kind, json_key name with
           | EDir, _ | _, None => throw (Errorf "unexpected action attempt entry")
           | _, Some id =>
               let! prior := wrap "inspect prior action attempt" (LoadActionAttempt (aa_domain next) (aa_session next) id) in
               guard (replays next prior) "action already has an attempt on this system" ;;!
               scanReplays next rest
           end
  end.
Definition rejectActionReplay (next : ActionAttempt) : M B unit :=
  let! entries := fs_list (Attempts (aa_session next)) in
  guard (maxActionAttempts <? length entries)%nat "action attempt registry exceeds bound" ;;!
  scanReplays next entries.

Definition ReserveActionAttempt (a : ActionAttempt) : M B unit :=
  lift (validateActionAttempt a) ;;!
  guard (aa_state a ≠s ActionAttemptReserved) "new action attempt must begin reserved" ;;!
  let! record := LoadRecord (aa_domain a) (aa_session_name a) in
  guard (negb (actionMatchesRunningRecord a record)) "action attempt differs from running session binding" ;;!
  admitActionIntent a ;;!
  rejectActionReplay a ;;!
  let! raw := lift (encodeActionAttempt a) in
  wrap "publish action attempt" (fs_publish_new (Attempts (aa_session a)) (json_name (aa_attempt a)) raw).

(** The states an attempt may advance between. *)
Definition may_advance (from to : string) : bool :=
  (to ≠s ActionAttemptReserved) &&
  ((from =s ActionAttemptReserved) ||
   (from =s ActionAttemptIndeterminate) && ((to =s ActionAttemptSucceeded) || (to =s ActionAttemptSkipped))).
Definition advanceActionAttempt (expected next : ActionAttempt) : M B unit :=
  lift (validateActionAttempt expected) ;;!
  lift (validateActionAttempt next) ;;!
  guard (negb (may_advance (aa_state expected) (aa_state next))) "action attempt cannot advance from or to this state" ;;!
  guard (bool_decide (next ≠ set_outcome (aa_state next) (aa_receipt next) expected)) "action attempt transition changed identity" ;;!
  let! current := LoadActionAttempt (aa_domain expected) (aa_session expected) (aa_attempt expected) in
  if bool_decide (current = next) then ret tt
  else
    guard (bool_decide (current ≠ expected)) "action attempt changed before terminal result" ;;!
    (if aa_state next =s ActionAttemptSucceeded then
       let! record := LoadRecord (aa_domain next) (aa_session_name next) in
       guard (negb (actionMatchesRunningRecord next record)) "successful action differs from running session binding"
     else ret tt) ;;!
    (if aa_state next =s ActionAttemptSkipped then
       let! record := LoadRecord (aa_domain next) (aa_session_name next) in
       guard (negb (actionMatchesStoppedRecord next record)) "skipped action differs from stopped session binding"
     else ret tt) ;;!
    let! raw := lift (encodeActionAttempt next) in
    fs_replace (Attempts (aa_session expected)) (json_name (aa_attempt expected)) raw.

(** ** action_list.go *)

Fixpoint attemptIDs (sessionID : string) (entries : list (string * entry)) : M B (list string) :=
  match entries with
  | [] => ret []
  | (name, kind) :: rest =>
      let! temporary := wrap "inspect unpublished action attempt" (publishedActionAttemptTemporary sessionID name) in
      if temporary : bool then attemptIDs sessionID rest
      else match kind, json_key name with
           | EDir, _ | _, None => throw (Errorf "unexpected action attempt entry")
           | _, Some id =>
               guard (negb (Session.validUUID id)) "invalid action attempt entry" ;;!
               let! ids := attemptIDs sessionID rest in
               ret (id :: ids)
           end
  end.
Fixpoint loadAttempts (record : SessionRecord) (ids : list string) : M B (list ActionAttempt) :=
  match ids with
  | [] => ret []
  | id :: rest =>
      let! a := wrap "load exact action attempt" (LoadActionAttempt (sr_domain record) (sr_id record) id) in
      guard (aa_session_name a ≠s sr_name record) "action attempt names a different session" ;;!
      let! results := loadAttempts record rest in
      ret (a :: results)
  end.
Definition listActionAttemptsForRecord (record : SessionRecord) : M B (list ActionAttempt) :=
  let! entries := fs_list (Attempts (sr_id record)) in
  guard (maxActionAttempts <? length entries)%nat "action attempt registry exceeds bound" ;;!
  let! ids := attemptIDs (sr_id record) entries in
  loadAttempts record (sort_by id ids).
End store.

(** ** Lemmas *)

(** The identity of a valid attempt, as properties. *)
Record attempt_ok (a : ActionAttempt) : Prop := {
  at_version : aa_version a = 1;
  at_domain : Lock.validLowerIdentifier (aa_domain a) = true;
  at_name : Lock.validLowerIdentifier (aa_session_name a) = true;
  at_session : Session.validUUID (aa_session a) = true;
  at_generation : Session.validUUID (aa_generation a) = true;
  at_attempt : Session.validUUID (aa_attempt a) = true;
  at_object : Session.validBackendObjectID (aa_object a) = true;
  at_recipe : Session.lowerSHA256 (aa_recipe a) = true;
  at_action : validActionID (aa_action a) = true;
  at_phase : aa_phase a ∈ ["once"; "reconfigure"; "startup"; "launch"]%string;
  at_state : aa_state a ∈ [ActionAttemptReserved; ActionAttemptFailed; ActionAttemptIndeterminate; ActionAttemptSkipped] ∧ aa_receipt a = "" ∨
             aa_state a = ActionAttemptSucceeded ∧ Session.lowerSHA256 (aa_receipt a) = true;
}.
Lemma validateActionAttempt_ok a u : validateActionAttempt a = Ok u → attempt_ok a.
Proof.
  unfold validateActionAttempt. destruct (Domain.Parse (aa_domain a)) as [d|] eqn:Ed; [|done].
  destruct (Session.ParseName (aa_session_name a)) as [n|] eqn:En; [|done].
  intros H. apply check_then_ok in H as [_ H]. apply check_then_ok in H as [Hi H]. apply check_then_ok in H as [Hp H].
  apply Parse_ok in Ed as [_ Hd]. apply ParseName_ok in En as [_ Hn]. bsimpl. apply in_literals in Hp.
  constructor; try done.
  destruct (existsb _ _) eqn:Es in H.
  - left. apply check_ok, eqs_true in H. by apply in_literals in Es.
  - right. destruct (aa_state a =s ActionAttemptSucceeded) eqn:Ea in H; [|done]. apply check_ok in H. by apply eqs_true in Ea.
Qed.
Lemma validActionID_plain s : validActionID s = true → plain_upto 64 s.
Proof.
  change (validActionID s) with (actionID s). intros [Ht Hl]%action_token. by apply token_upto.
Qed.

(** The attempt as written is the attempt as read, and always fits. *)
Lemma decode_marshal_attempt a : validateActionAttempt a = Ok tt → decodeActionAttempt (marshalAttempt a) = Ok a.
Proof.
  intros Hv. pose proof (validateActionAttempt_ok _ _ Hv) as [].
  assert (coerce_utf8 (aa_phase a) = aa_phase a) as Kp by (by eapply (literal_plain 11)).
  assert (coerce_utf8 (aa_state a) = aa_state a ∧ coerce_utf8 (aa_receipt a) = aa_receipt a) as [Ks Kr].
  { destruct at_state0 as [[Hs ->]|[-> Hr]]; (split; [|first [done|by apply coerce_sha]]); [by eapply (literal_plain 13)|done]. }
  apply coerce_ident in at_domain0, at_name0. apply coerce_uuid in at_session0, at_generation0, at_attempt0.
  apply coerce_objectid in at_object0. apply coerce_sha in at_recipe0. apply validActionID_plain in at_action0 as (_ & Ka & _).
  unfold decodeActionAttempt, decode_object, marshalAttempt.
  destruct a as [ver dom sn sid ob gen rd ai ap at_ st rs]; cbn -[validateActionAttempt] in *. subst ver.
  change (int64_ok 1) with true. cbn -[validateActionAttempt].
  by rewrite at_domain0, at_name0, at_session0, at_object0, at_generation0, at_recipe0, Ka, Kp, at_attempt0, Ks, Kr, Hv.
Qed.
Lemma attempt_size a : attempt_ok a → (file_size (json_file (marshalAttempt a)) ≤ maxActionAttemptBytes)%N.
Proof.
  intros []. cbn [json_file file_size]. unfold marshalAttempt. rewrite at_version0.
  assert (plain_upto 11 (aa_phase a)) as (?&?&?) by (by eapply literal_plain).
  assert (plain_upto 13 (aa_state a) ∧ plain_upto 64 (aa_receipt a)) as [(?&?&?) (?&?&?)].
  { destruct at_state0 as [[Hs ->]|[-> Hr]]; (split; [|apply plain_sha; auto]); [by eapply literal_plain|].
    by apply (literal_plain 13 _ [ActionAttemptSucceeded]); [apply elem_of_cons; left|]. }
  apply plain_ident in at_domain0 as (?&?&?), at_name0 as (?&?&?).
  apply plain_uuid in at_session0 as (?&?&?), at_generation0 as (?&?&?), at_attempt0 as (?&?&?).
  apply plain_objectid in at_object0 as (?&?&?).
  pose proof (plain_sha _ (or_intror at_recipe0)) as (?&?&?). apply validActionID_plain in at_action0 as (?&?&?).
  unfold maxActionAttemptBytes. eapply N.le_trans; [apply N.add_le_mono_r; obj_size_tac|]. size_lia.
Qed.
Definition attemptFile (a : ActionAttempt) : file := json_file (marshalAttempt a).
Lemma encode_attempt a : validateActionAttempt a = Ok tt → encodeActionAttempt a = Ok (attemptFile a).
Proof.
  intros Hv%validateActionAttempt_ok. unfold encodeActionAttempt. cbv zeta.
  by rewrite (proj2 (N.ltb_ge _ _) (attempt_size _ Hv)).
Qed.
Lemma parse_attemptFile a : validateActionAttempt a = Ok tt →
  parseAttempt (aa_domain a) (aa_session a) (aa_attempt a) (attemptFile a) = Ok a.
Proof.
  intros Hv. unfold parseAttempt, single_doc. pose proof (attempt_size _ (validateActionAttempt_ok _ _ Hv)) as Hs.
  unfold attemptFile. rewrite (proj2 (N.ltb_ge _ _) Hs).
  cbn [json_file file_docs res_bind]. rewrite (decode_marshal_attempt _ Hv). cbn [res_bind]. by rewrite !eqs_refl.
Qed.
Lemma parseAttempt_ok dom sid id f a : parseAttempt dom sid id f = Ok a →
  aa_domain a = dom ∧ aa_session a = sid ∧ aa_attempt a = id ∧ validateActionAttempt a = Ok tt.
Proof.
  unfold parseAttempt, decodeActionAttempt. intros H. res_inv H. apply check_ok in Ha1. bsimpl. injection H as <-.
  apply res_bind_ok in Ha0 as ([a' seen] & _ & Ha0). apply res_bind_ok in Ha0 as (? & _ & Ha0).
  apply unit_then_ok in Ha0 as [Hv Ha0]. injection Ha0 as <-. done.
Qed.
Lemma attempt_at_ok dom sid id k a : attempt_at dom sid id k = Some a →
  aa_domain a = dom ∧ aa_session a = sid ∧ aa_attempt a = id ∧ validateActionAttempt a = Ok tt.
Proof. intros (f & _ & H)%view_Some. by eapply parseAttempt_ok. Qed.

(** The disk after an attempt is written, and what it holds. *)
Definition attempt_key (a : ActionAttempt) : dirname * string := (Attempts (aa_session a), json_name (aa_attempt a)).
Definition attempt_disk (a : ActionAttempt) (k : disk) : disk := <[attempt_key a := EFile (attemptFile a)]> k.
Lemma attempt_written a k : validateActionAttempt a = Ok tt →
  attempt_at (aa_domain a) (aa_session a) (aa_attempt a) (attempt_disk a k) = Some a.
Proof. intros H. apply view_insert. by apply parse_attemptFile. Qed.
Lemma attempt_written_ne a k dom sid id : (sid, id) ≠ (aa_session a, aa_attempt a) →
  attempt_at dom sid id (attempt_disk a k) = attempt_at dom sid id k.
Proof. intros Hne. apply view_insert_ne. intros [= E1 E2%json_name_inj]. congruence. Qed.

Section quietness.
Context {B : Type} {E : Env} {D : Digests}.
Lemma quiet_admitActionIntent a : quiet (admitActionIntent a : M B unit).
Proof. unfold admitActionIntent. quiet_tac. Qed.
Lemma quiet_LoadActionAttempt dom sid id : quiet (LoadActionAttempt dom sid id : M B _).
Proof. unfold LoadActionAttempt. quiet_tac. apply quiet_admitActionIntent. Qed.
Lemma quiet_publishedTemporary sid name : quiet (publishedActionAttemptTemporary sid name : M B bool).
Proof. unfold publishedActionAttemptTemporary. quiet_tac. Qed.
Lemma quiet_scanReplays next entries : quiet (scanReplays next entries : M B unit).
Proof.
  induction entries as [|[name kind] rest IH]; cbn [scanReplays]; quiet_tac; first [apply quiet_publishedTemporary|apply quiet_LoadActionAttempt].
Qed.
Lemma quiet_rejectActionReplay a : quiet (rejectActionReplay a : M B unit).
Proof. unfold rejectActionReplay. quiet_tac. apply quiet_scanReplays. Qed.
Lemma quiet_attemptIDs sid entries : quiet (attemptIDs sid entries : M B _).
Proof. induction entries as [|[name kind] rest IH]; cbn [attemptIDs]; quiet_tac; apply quiet_publishedTemporary. Qed.
Lemma quiet_loadAttempts r ids : quiet (loadAttempts r ids : M B _).
Proof. induction ids as [|id ids IH]; cbn [loadAttempts]; quiet_tac; apply quiet_LoadActionAttempt. Qed.
Lemma quiet_listActionAttempts r : quiet (listActionAttemptsForRecord r : M B _).
Proof. unfold listActionAttemptsForRecord. quiet_tac; [apply quiet_attemptIDs|apply quiet_loadAttempts]. Qed.
End quietness.
#[export] Hint Resolve quiet_admitActionIntent quiet_LoadActionAttempt quiet_rejectActionReplay quiet_listActionAttempts : quiet.

(** *** What reading proves *)

(** The attempt is declared by the stored recipe it names. *)
Definition intent_at `{Digests} (digest : string) (k : disk) : option Recipe :=
  view (λ f, check (negb (maxStoredRecipeIntentBytes <? file_size f)%N && (sha256 (file_blob f) =s digest)) "" ;;? DecodeIntent (file_blob f))
    Intents (json_name digest) k.
Section reads.
Context {B : Type} {E : Env} {D : Digests}.
Implicit Types w : world B.
Lemma LoadRecipeIntent_ok digest w raw w' : LoadRecipeIntent digest w = (Ok raw, w') →
  ∃ intent, intent_at digest (w_disk w) = Some intent ∧ DecodeIntent raw = Ok intent.
Proof.
  unfold LoadRecipeIntent, readRecipeIntent. intros H. ok_inv. apply fs_read_ok in Ha0 as [Hf ->].
  apply neqs_false in Ha2. destruct (DecodeIntent (file_blob a0)) as [intent|] eqn:Hd; [|done].
  exists intent. split; [|done]. apply view_Some. exists a0. split; [done|]. by rewrite Ha1, Ha2, eqs_refl, Hd.
Qed.
Lemma admitActionIntent_ok a w u w' : admitActionIntent a w = (Ok u, w') →
  ∃ intent, intent_at (aa_recipe a) (w_disk w) = Some intent ∧ declares intent a = true.
Proof.
  unfold admitActionIntent. intros H. ok_inv. apply LoadRecipeIntent_ok in Ha as (intent & Hi & Hdec).
  apply negb_false_iff in H. exists intent. split; [done|]. congruence.
Qed.
Lemma LoadActionAttempt_ok dom sid id w a w' : LoadActionAttempt dom sid id w = (Ok a, w') →
  attempt_at dom sid id (w_disk w) = Some a ∧ ∃ intent, intent_at (aa_recipe a) (w_disk w) = Some intent ∧ declares intent a = true.
Proof.
  unfold LoadActionAttempt. intros H. ok_inv. apply fs_read_ok in Ha1 as [Hf ->].
  split; [apply view_Some; eauto|]. by apply admitActionIntent_ok in Ha3.
Qed.

(** No attempt in the session's registry forbids [next]. *)
Definition unreplayed (next : ActionAttempt) (k : disk) : Prop :=
  ∀ id prior, attempt_at (aa_domain next) (aa_session next) id k = Some prior → replays next prior = false.
Lemma uuid_no_temporary id : Session.validUUID id = true → temporary_attempt (json_name id) = None.
Proof.
  unfold Session.validUUID. intros H. bsimpl. destruct id as [|c r]; [done|]. cbn in H0. bsimpl.
  unfold json_name. change (String c r +:+ ".json") with (String c (r +:+ ".json")).
  destruct c as [[] [] [] [] [] [] [] []]; try done.
Qed.
Lemma scanReplays_ok next entries w u w' : scanReplays next entries w = (Ok u, w') →
  ∀ id e, (json_name id, e) ∈ entries → Session.validUUID id = true →
  ∃ prior, attempt_at (aa_domain next) (aa_session next) id (w_disk w) = Some prior ∧ replays next prior = false.
Proof.
  revert w. induction entries as [|[name kind] rest IH]; intros w H id e Hin Hid; [by apply not_elem_of_nil in Hin|].
  cbn [scanReplays] in H. ok_inv.
  destruct (quiet_publishedTemporary (aa_session next) name w) as (r & n & Hq). rewrite Hq in Ha. injection Ha as -> <-.
  apply elem_of_cons in Hin as [Hn|Hin].
  - injection Hn as <- <-. unfold publishedActionAttemptTemporary in Hq. rewrite (uuid_no_temporary _ Hid) in Hq.
    injection Hq as <- _. rewrite json_key_name in H.
    assert (∃ prior w2, LoadActionAttempt (aa_domain next) (aa_session next) id (retick n w) = (Ok prior, w2) ∧ replays next prior = false)
      as (prior & w2 & Hp & Hr) by (destruct e; ok_inv; eauto).
    exists prior. split; [|done]. by apply LoadActionAttempt_ok in Hp as [? _].
  - destruct a; [by eapply (IH _ H)|].
    assert (∃ w2, scanReplays next rest w2 = (Ok u, w') ∧ w_disk w2 = w_disk w) as (w2 & Hs & Hw2).
    { destruct kind; destruct (json_key name) as [key|]; ok_inv;
        (destruct (quiet_LoadActionAttempt (aa_domain next) (aa_session next) key (retick n w)) as (r & m & Hl); rewrite Hl in Ha;
         injection Ha as -> <-; by eexists). }
    rewrite <-Hw2. by eapply (IH _ Hs).
Qed.
Lemma rejectActionReplay_ok next w u w' : rejectActionReplay next w = (Ok u, w') → unreplayed next (w_disk w).
Proof.
  unfold rejectActionReplay. intros H. ok_inv. apply fs_list_ok in Ha as [-> ->]. intros id prior Hp.
  pose proof (attempt_at_ok _ _ _ _ _ Hp) as (_ & _ & Hid & Hv).
  assert (Session.validUUID id = true) as Hu by (rewrite <-Hid; by apply validateActionAttempt_ok, at_attempt in Hv).
  pose proof Hp as (f & Hf & _)%view_Some.
  destruct (scanReplays_ok _ _ _ _ _ H id (EFile f)) as (p & Hp' & Hr); [by apply dir_entries_spec|done|].
  cbn in Hp'. congruence.
Qed.

(** *** Writing attempts *)

(** What a reservation has established when it publishes. *)
Record reservable_attempt (a : ActionAttempt) (k : disk) : Prop := {
  ra_valid : validateActionAttempt a = Ok tt;
  ra_state : aa_state a = ActionAttemptReserved;
  ra_running : ∃ record, session_at (aa_domain a) (aa_session_name a) k = Some record ∧ actionMatchesRunningRecord a record = true;
  ra_declared : ∃ intent, intent_at (aa_recipe a) k = Some intent ∧ declares intent a = true;
  ra_unreplayed : unreplayed a k;
  ra_free : k !! attempt_key a = None;
}.
Definition reserve_event (a : ActionAttempt) : event := EvCreate (Attempts (aa_session a)) (json_name (aa_attempt a)) (attemptFile a).
Lemma wp_ReserveActionAttempt P a (Q : res unit → world B → Prop) w :
  (∀ n, reservable_attempt a (w_disk w) →
     P (w_trace w) (Step (reserve_event a) (w_disk w) (attempt_disk a (w_disk w)) (w_locks w)) ∧
     ∀ r, Q r (did (reserve_event a) (attempt_disk a (w_disk w)) (retick n w))) →
  (∀ e n, Q (Er e) (retick n w)) →
  wp P (ReserveActionAttempt a) Q w.
Proof.
  intros H1 H2. unfold ReserveActionAttempt. apply wp_bind, wp_lift.
  destruct (validateActionAttempt a) as [[]|e] eqn:Ev; [|rewrite (retick_self w); apply H2].
  wp_guard as Hs%neqs_false by (rewrite (retick_self w); apply H2).
  wp_read as record n1 Hl by apply H2. apply LoadRecord_ok in Hl.
  wp_guard as Hm%negb_false_iff by apply H2.
  wp_read as u n2 Hi by apply H2. apply admitActionIntent_ok in Hi.
  wp_read as u3 n3 Hr by apply H2. apply rejectActionReplay_ok in Hr.
  apply wp_bind, wp_lift. rewrite (encode_attempt _ Ev). apply wp_wrap.
  apply wp_fs_publish_new; [|intros e _; apply H2]. intros Hfree.
  destruct (H1 n3) as [HP HQ]; [constructor; eauto|]. split; [exact HP|]. intros [u4|e]; apply HQ.
Qed.

(** The states an attempt passes through, as the documents promise them. *)
Inductive attempt_step : ActionAttempt → ActionAttempt → Prop :=
| finish_reserved a state receipt : aa_state a = ActionAttemptReserved → state ≠ ActionAttemptReserved →
    attempt_step a (set_outcome state receipt a)
| recover_indeterminate a receipt : aa_state a = ActionAttemptIndeterminate →
    attempt_step a (set_outcome ActionAttemptSucceeded receipt a)
| skip_indeterminate a receipt : aa_state a = ActionAttemptIndeterminate →
    attempt_step a (set_outcome ActionAttemptSkipped receipt a).
Definition advance_event (a : ActionAttempt) : event := EvPublish (Attempts (aa_session a)) (json_name (aa_attempt a)) (attemptFile a).
(** What an advance has established when it publishes. *)
Record advances (expected next : ActionAttempt) (k : disk) : Prop := {
  ad_valid : validateActionAttempt next = Ok tt;
  ad_step : attempt_step expected next;
  ad_current : attempt_at (aa_domain expected) (aa_session expected) (aa_attempt expected) k = Some expected;
  ad_success : aa_state next = ActionAttemptSucceeded →
    ∃ record, session_at (aa_domain next) (aa_session_name next) k = Some record ∧ actionMatchesRunningRecord next record = true;
  ad_skip : aa_state next = ActionAttemptSkipped →
    ∃ record, session_at (aa_domain next) (aa_session_name next) k = Some record ∧ actionMatchesStoppedRecord next record = true;
}.
Lemma may_advance_step a st r : may_advance (aa_state a) st = true → attempt_step a (set_outcome st r a).
Proof.
  unfold may_advance. intros H. bsimpl. apply orb_true_iff in H0 as [H0|H0]; bsimpl; [by constructor|].
  apply orb_true_iff in H1 as [H1|H1]; bsimpl; subst; by constructor.
Qed.
Lemma wp_advanceActionAttempt P expected next (Q : res unit → world B → Prop) w :
  (∀ n, advances expected next (w_disk w) →
     P (w_trace w) (Step (advance_event next) (w_disk w) (attempt_disk next (w_disk w)) (w_locks w)) ∧
     ∀ r, Q r (did (advance_event next) (attempt_disk next (w_disk w)) (retick n w))) →
  (∀ n, attempt_at (aa_domain next) (aa_session next) (aa_attempt next) (w_disk w) = Some next → Q (Ok tt) (retick n w)) →
  (∀ e n, Q (Er e) (retick n w)) →
  wp P (advanceActionAttempt expected next) Q w.
Proof.
  intros H1 H2 H3. unfold advanceActionAttempt. apply wp_bind, wp_lift.
  destruct (validateActionAttempt expected) as [[]|e] eqn:Ee; [|rewrite (retick_self w); apply H3]. apply wp_bind, wp_lift.
  destruct (validateActionAttempt next) as [[]|e] eqn:En; [|rewrite (retick_self w); apply H3].
  wp_guard as Hm%negb_false_iff by (rewrite (retick_self w); apply H3).
  wp_guard as Hn%bool_decide_eq_false by (rewrite (retick_self w); apply H3). apply dec_stable in Hn.
  wp_read as cur n Hl by apply H3. apply LoadActionAttempt_ok in Hl as [Hcur _].
  assert (aa_domain next = aa_domain expected ∧ aa_session next = aa_session expected ∧ aa_attempt next = aa_attempt expected)
    as (Hd & Hs & Hi) by (by rewrite Hn).
  case_bool_decide as Hc; [subst cur; apply wp_ret, H2; by rewrite Hd, Hs, Hi|].
  wp_guard as He%bool_decide_eq_false by apply H3. apply dec_stable in He. subst cur.
  assert (∀ (test : ActionAttempt → SessionRecord → bool) msg (b : bool) m (K : world B → Prop),
    (∀ n', (b = true → ∃ record, session_at (aa_domain next) (aa_session_name next) (w_disk w) = Some record ∧ test next record = true) →
       K (retick n' w)) →
    wp P (if b then let! record := LoadRecord (aa_domain next) (aa_session_name next) in guard (negb (test next record)) msg else ret tt)
      (λ r w', match r with Ok _ => K w' | Er e => Q (Er e) w' end) (retick m w)) as Htest.
  { intros test msg b m K HK. destruct b; [|apply wp_ret, HK; done].
    wp_read as record n' Hrec by apply H3. apply LoadRecord_ok in Hrec.
    apply wp_guard; [|intros _; apply H3]. intros Ht%negb_false_iff. apply HK. eauto. }
  apply wp_bind, Htest. intros n1 Hsucc. apply wp_bind, Htest. intros n2 Hskip.
  apply wp_bind, wp_lift. rewrite (encode_attempt _ En). cbn beta iota.
  assert (advances expected next (w_disk w)) as Hadv.
  { constructor; [done|rewrite Hn; by apply may_advance_step|done|..].
    - intros Hst. apply Hsucc. by apply eqs_true.
    - intros Hst. apply Hskip. by apply eqs_true. }
  destruct (H1 n2 Hadv) as [HP HQ]. unfold advance_event, attempt_disk, attempt_key in HP, HQ. rewrite <-Hs, <-Hi.
  apply wp_fs_replace; [exact HP|exact HQ|]. intros e _. apply H3.
Qed.
End reads.

(** ** Properties *)

Definition terminal (a : ActionAttempt) : Prop := aa_state a ∈ [ActionAttemptSucceeded; ActionAttemptFailed; ActionAttemptSkipped].
Lemma terminal_stays a b : terminal a → ¬ attempt_step a b.
Proof. unfold terminal. rewrite !elem_of_cons, elem_of_nil. intros Ht Hs. destruct Ht as [Ht|[Ht|[Ht|[]]]], Hs; congruence. Qed.

Section properties.
Context {B : Type} {E : Env} {D : Digests}.
Implicit Types w : world B.

(** C37: recording an outcome refines the documented life of an attempt,
    under every failure of the file system: nothing on disk changes, or the
    attempt on disk was exactly the expected one and becomes the complete next
    one by a step of that life (reserved to any outcome; indeterminate to checked
    success or deliberate skip), a success only while its session's record is
    running and ready under its very binding, a skip only while it is stopped; a
    succeeded, failed or skipped attempt is never changed; and success means the
    next attempt is what the registry holds. *)
Theorem advance_refines (expected next : ActionAttempt) w :
  let res := (advanceActionAttempt expected next w).1 in let w' := (advanceActionAttempt expected next w).2 in
  (w_disk w' = w_disk w ∨ advances expected next (w_disk w) ∧ w_disk w' = attempt_disk next (w_disk w)) ∧
  (∀ current, attempt_at (aa_domain expected) (aa_session expected) (aa_attempt expected) (w_disk w) = Some current →
     terminal current → w_disk w' = w_disk w) ∧
  (res = Ok tt → attempt_at (aa_domain next) (aa_session next) (aa_attempt next) (w_disk w') = Some next) ∧
  w_locks w' = w_locks w ∧ w_host w' = w_host w.
Proof.
  pose proof (wp_advanceActionAttempt (λ _ _, True) expected next (λ res w',
    (w_disk w' = w_disk w ∨ advances expected next (w_disk w) ∧ w_disk w' = attempt_disk next (w_disk w)) ∧
    (res = Ok tt → attempt_at (aa_domain next) (aa_session next) (aa_attempt next) (w_disk w') = Some next) ∧
    w_locks w' = w_locks w ∧ w_host w' = w_host w) w) as H.
  apply wp_result in H.
  2: { intros n Ha. split; [done|]. intros r. split_and!; [by right|intros _; apply attempt_written, Ha|done..]. }
  2, 3: intros; split_and!; [by left|done..].
  cbv zeta. destruct H as (Hd & Hr & Hl & Hh). split_and!; [done| |done..].
  intros current Hc Ht. destruct Hd as [|[[_ Hs Hcur _ _] _]]; [done|]. exfalso.
  assert (current = expected) as -> by congruence. by eapply terminal_stays.
Qed.

(** A reservation is exclusive, under every failure of the file
    system: nothing on disk changes, or the session on disk runs, is ready and is
    bound exactly as the attempt says, the stored recipe declares the action, no
    attempt of the session's registry (whatever its outcome) is of the same action
    on the same system, and the new name then holds the complete reserved
    attempt; success means the latter; and from then on no attempt of the same
    action on the same system passes the check. *)
Theorem reserve_excludes_replay (a : ActionAttempt) w :
  let res := (ReserveActionAttempt a w).1 in let w' := (ReserveActionAttempt a w).2 in
  (w_disk w' = w_disk w ∧ is_ok res = false ∨
   reservable_attempt a (w_disk w) ∧ w_disk w' = attempt_disk a (w_disk w) ∧
   attempt_at (aa_domain a) (aa_session a) (aa_attempt a) (w_disk w') = Some a ∧
   ∀ next, aa_domain next = aa_domain a → aa_session next = aa_session a → replays next a = true → ¬ unreplayed next (w_disk w')) ∧
  w_locks w' = w_locks w ∧ w_host w' = w_host w.
Proof.
  pose proof (wp_ReserveActionAttempt (λ _ _, True) a (λ res w',
    (w_disk w' = w_disk w ∧ is_ok res = false ∨ reservable_attempt a (w_disk w) ∧ w_disk w' = attempt_disk a (w_disk w)) ∧
    w_locks w' = w_locks w ∧ w_host w' = w_host w) w) as H.
  apply wp_result in H.
  2: { intros n Ha. split; [done|]. intros r. split_and!; [by right|done..]. }
  2: { intros e n. split_and!; [by left|done..]. }
  cbv zeta. destruct H as (Hd & Hl & Hh). split_and!; [|done..]. destruct Hd as [|[Ha Hd]]; [by left|right].
  pose proof (attempt_written _ (w_disk w) (ra_valid _ _ Ha)) as Hat. rewrite <-Hd in Hat. split_and!; [done..|].
  intros next Hdom Hsid Hr Hu. rewrite <-Hdom, <-Hsid in Hat. by rewrite (Hu _ _ Hat) in Hr.
Qed.
End properties.

(** ** Evaluations *)

Definition action_recipe : Recipe := normalised (mkRecipe 1 (mkSource sourceKind sourceSHA256) (mkMachine 4 8192 64) None
  (Some [mkStep "greet" "startup" (Some ["/usr/bin/env"]); mkStep "setup" "once" (Some ["/usr/bin/true"; "a b"])]) None None).
Definition action_session : SessionRecord :=
  mkSessionRecord recordVersion "work" "dev" "01234567-89ab-4def-8123-456789abcdef" ModeClean StateRunning
    (mkBackendRef "tart" "boxwarden-work-0123456789ab4def8123456789abcdef") "base-1" sourceSHA256
    "99999999-9999-4999-8999-999999999999" (mkReadiness ReadinessReady "").
Definition action_disk : disk :=
  {[ (Sessions, json_name "dev") := EFile (sessionFile action_session);
     (Intents, json_name sourceSHA256) := EFile (bytes_file (render (marshalIntent action_recipe))) ]}.
Definition action_world : world lab := worldOf action_disk {[ "boxwarden-work-0123456789ab4def8123456789abcdef" := ObjectRunning ]}.
Definition example_attempt : ActionAttempt :=
  mkAttempt 1 "work" "dev" "01234567-89ab-4def-8123-456789abcdef" "boxwarden-work-0123456789ab4def8123456789abcdef"
    "99999999-9999-4999-8999-999999999999" sourceSHA256 "setup" "once" "11111111-2222-4333-8444-555555555555" ActionAttemptReserved "".
#[local] Existing Instance quietEnv.
#[local] Existing Instance fixedDigests.
Example attempts_in_the_lab :
  let w1 := (ReserveActionAttempt example_attempt action_world).2 in
  let done := set_outcome ActionAttemptSucceeded sourceSHA256 example_attempt in
  (ReserveActionAttempt example_attempt action_world).1 = Ok tt ∧
  is_ok (ReserveActionAttempt (mkAttempt 1 "work" "dev" (aa_session example_attempt) (aa_object example_attempt)
    (aa_generation example_attempt) sourceSHA256 "setup" "once" "22222222-2222-4333-8444-555555555555" ActionAttemptReserved "") w1).1 = false ∧
  (advanceActionAttempt example_attempt done w1).1 = Ok tt ∧
  is_ok (advanceActionAttempt done (set_outcome ActionAttemptFailed "" example_attempt) (advanceActionAttempt example_attempt done w1).2).1 = false.
Proof. vm_compute. by split_and!. Qed.
