(* ===== verification/ActionService.v ===== *)
(** Running guest actions, src/internal/session/action_plan.go,
    action_plan_state.go, action_service.go and action_skip.go: the plan of the
    automatic steps that remain, and the service that reserves an attempt,
    sends the request, and records one checked receipt. A Go result that is
    returned along with an error is kept: an operation yields the attempt and
    an optional error, and [Er e] is the zero attempt with the error [e]. *)
From S2P Require Import Prelude Ids Json JsonText Recipe GuestProto SessionRecord Outside World Host Logic SessionStore RebuildJournal.
From S2P Require Import SessionCreate SessionStart ActionAttempt.

(** ** The plan *)

Definition automaticSteps (intent : Recipe) : list Recipe.Step :=
  filter (λ s, st_phase s = "once") (items (rc_steps intent)) ++ filter (λ s, st_phase s = "startup") (items (rc_steps intent)).
Definition action_key (phase id : string) : string := phase +:+ String "/" id.
Definition settled (a : ActionAttempt) : bool := (aa_state a =s ActionAttemptSucceeded) || (aa_state a =s ActionAttemptSkipped).
(** The loop over the attempts: the keys seen, and those completed. *)
Fixpoint completedActions (record : SessionRecord) (attempts : list ActionAttempt) (seen completed : list string) : res (list string) :=
  match attempts with
  | [] => Ok completed
  | attempt :: rest =>
      validateActionAttempt attempt ;;?
      check ((aa_domain attempt =s sr_domain record) && (aa_session_name attempt =s sr_name record) && (aa_session attempt =s sr_id record))
            "automatic action journal contains a foreign attempt" ;;?
      if aa_object attempt ≠s br_object_id (sr_backend record) then completedActions record rest seen completed
      else if existsb (String.eqb (aa_state attempt)) [ActionAttemptReserved; ActionAttemptIndeterminate; ActionAttemptFailed]
      then fail "automatic action has an unresolved attempt"
      else if (aa_phase attempt ≠s "once") && (aa_phase attempt ≠s "startup") then completedActions record rest seen completed
      else if (aa_recipe attempt ≠s sr_intent record) || (aa_phase attempt =s "startup") && (aa_generation attempt ≠s sr_generation record)
      then completedActions record rest seen completed
      else
        let key := action_key (aa_phase attempt) (aa_action attempt) in
        check (negb (existsb (String.eqb key) seen)) "automatic action has conflicting attempts" ;;?
        completedActions record rest (key :: seen) (if settled attempt then key :: completed else completed)
  end.
Fixpoint pendingSteps (completed : list string) (steps pending : list Recipe.Step) : res (list Recipe.Step) :=
  match steps with
  | [] => Ok pending
  | step :: rest =>
      if existsb (String.eqb (action_key (st_phase step) (st_id step))) completed
      then check (length pending =? 0)%nat "automatic action completed after an earlier step was missing" ;;?
           pendingSteps completed rest pending
      else pendingSteps completed rest (pending ++ [step])
  end.
(** A recipe-bound session that runs and is durably ready. *)
Definition runs_recipe (record : SessionRecord) : bool :=
  negb ((sr_state record ≠s StateRunning) || (rr_status (sr_readiness record) ≠s ReadinessReady) ||
        (br_kind (sr_backend record) ≠s "tart") || negb (Session.validUUID (sr_generation record)) ||
        negb (Session.lowerSHA256 (sr_intent record))).
Definition PlanAutomaticActions `{Digests} (record : SessionRecord) (intent : Recipe) (attempts : list ActionAttempt)
  : res (list Recipe.Step) :=
  validateRecordForStore (sr_domain record) record ;;?
  check (runs_recipe record) "automatic actions require a recipe-bound running session" ;;?
  let? canonical := CanonicalIntent intent in
  check (canonical.2 =s sr_intent record) "automatic action recipe differs from session intent" ;;?
  let? completed := completedActions record attempts [] [] in
  pendingSteps completed (automaticSteps intent) [].

(** ** The service *)

Record ActionService := mkActionService {
  av_nil : bool; av_domain : DomainConfig; av_control : bool; av_now : bool; av_newID : bool }.

(** An attempt, and the error returned with it. *)
Definition outcome : Type := ActionAttempt * option error.
(** [err = errors.Join(err, held.Release())] beside a result. *)
Definition join_outcome {A} (r : res (A * option error)) (released : res unit) : res (A * option error) :=
  match r, released with
  | Ok (a, None), Er e => Ok (a, Some e)
  | Ok (a, Some e), Er e2 => Ok (a, Some (join_err e e2))
  | Er e, Er e2 => Er (join_err e e2)
  | _, Ok _ => r
  end.

Definition requestOf (attempt : ActionAttempt) (kind : string) (argv : slice string) : ActionRequest :=
  mkActionRequest Version (mkAssociation (aa_domain attempt) (aa_session attempt) kind (aa_object attempt))
    (aa_generation attempt) (aa_recipe attempt) (aa_action attempt) (aa_phase attempt) (aa_attempt attempt) argv.
Definition reservedAttempt (record : SessionRecord) (name actionID phase attemptID : string) : ActionAttempt :=
  mkAttempt 1 (sr_domain record) name (sr_id record) (br_object_id (sr_backend record)) (sr_generation record) (sr_intent record)
    actionID phase attemptID ActionAttemptReserved "".
(** The arguments of the first step with this identifier and phase; a nil or
    empty vector counts as absent. *)
Definition stepArgv (intent : Recipe) (actionID phase : string) : slice string :=
  match find (λ s, (st_id s =s actionID) && (st_phase s =s phase)) (items (rc_steps intent)) with
  | Some s => match items (st_argv s) with [] => None | l => Some l end
  | None => None
  end.
Definition succeededAttempt `{Digests} (attempt : ActionAttempt) (receiptBytes : string) : ActionAttempt :=
  set_outcome ActionAttemptSucceeded (sha256 receiptBytes) attempt.
(** A snapshot that proves the exact generation ready now. *)
Definition fresh_ready (binding : Binding) (snapshot : Snapshot) (now : Z) : bool :=
  bool_decide (sn_binding snapshot = binding) && sn_running snapshot && sn_serial snapshot && sn_pin snapshot &&
  sn_cert snapshot && sn_probe snapshot && sn_zone snapshot && fresh snapshot now.

Section service.
Context {B : Type} {H : Host B} {E : Env} {D : Digests}.

Definition requireFreshActionReady (binding : Binding) : M B unit :=
  let! snapshot := wrap "inspect exact action generation" (SupervisorSnapshot binding) in
  let! now := Now in
  guard (negb (fresh_ready binding snapshot now)) "action requires fresh exact-generation READY".

(** [indeterminateAction]: the reserved attempt becomes indeterminate, or stays
    reserved when even that cannot be recorded. *)
Definition indeterminateAction (reserved : ActionAttempt) (cause : error) : M B outcome :=
  let uncertain := set_outcome ActionAttemptIndeterminate "" reserved in
  let! r := attempt (advanceActionAttempt reserved uncertain) in
  match r with
  | Ok _ => ret (uncertain, Some cause)
  | Er e => ret (reserved, Some (join_err cause (wrapw "record indeterminate action" e)))
  end.
(** [if err != nil { return fallback, err }] *)
Definition or_return {A C} (fallback : error → M B (C * option error)) (m : M B A) (k : A → M B (C * option error))
  : M B (C * option error) :=
  let! r := attempt m in match r with Ok a => k a | Er e => fallback e end.
Definition with_error {A} (a : A) (e : error) : M B (A * option error) := ret (a, Some e).

(** The locks and the record of an operation on one session. *)
Definition withActionLocks {A} (domainID name : string) (body : string → string → SessionRecord → M B (A * option error)) : M B (A * option error) :=
  wrap "acquire session transition lock" (Acquire (Lock.transition_scope domainID name)) ;;!
  deferred join_outcome (Lock.transition_scope domainID name) (
  wrap "acquire session lock" (AcquireSession domainID name) ;;!
  deferred join_outcome (Lock.session_scope domainID name) (
  let! record := LoadRecord domainID name in
  body domainID name record)).

(** The part of [ExecuteAction] after the reservation. *)
Definition runReserved (binding : Binding) (request : ActionRequest) (reserved : ActionAttempt) : M B outcome :=
  or_return (indeterminateAction reserved) (wrap "exact guest action" (RunAction binding request)) (λ receipt,
  or_return (indeterminateAction reserved) (wrap "invalid exact guest receipt" (lift (EncodeActionReceipt request receipt))) (λ receiptBytes,
  or_return (indeterminateAction reserved) (wrap "fresh READY after guest action" (requireFreshActionReady binding)) (λ _,
  let result := succeededAttempt reserved receiptBytes in
  or_return (indeterminateAction reserved) (wrap "record exact action receipt" (advanceActionAttempt reserved result)) (λ _,
  ret (result, None))))).
Definition executeLocked (phase actionID domainID name : string) (record : SessionRecord) : M B outcome :=
  guard ((sr_state record ≠s StateRunning) || (rr_status (sr_readiness record) ≠s ReadinessReady) ||
         (br_kind (sr_backend record) ≠s "tart") || (sr_intent record =s "") || negb (Session.validUUID (sr_generation record)))
        "action requires a recipe-bound running session" ;;!
  RequireNoRebuild domainID name ;;!
  let! intentBytes := wrap "load exact action recipe" (LoadRecipeIntent (sr_intent record)) in
  let! intent := lift (DecodeIntent intentBytes) in
  let argv := stepArgv intent actionID phase in
  guard (isNone argv) "action is absent from exact stored recipe" ;;!
  (if (phase =s "once") || (phase =s "startup") then
     let! attempts := wrap "load exact automatic action journal" (listActionAttemptsForRecord record) in
     let! pending := wrap "plan automatic actions before reservation" (lift (PlanAutomaticActions record intent attempts)) in
     guard (match pending with [] => true | s :: _ => (st_phase s ≠s phase) || (st_id s ≠s actionID) end)
           "action is not the next automatic step"
   else ret tt) ;;!
  let! attemptID := wrap "allocate action attempt" (host_ask host_newID) in
  let reserved := reservedAttempt record name actionID phase attemptID in
  let request := requestOf reserved (br_kind (sr_backend record)) argv in
  wrap "stored recipe action is not executable" (lift (EncodeActionRequest request)) ;;!
  requireFreshActionReady (startBinding record) ;;!
  ReserveActionAttempt reserved ;;!
  runReserved (startBinding record) request reserved.
Definition ExecuteAction (s : ActionService) (rawName phase actionID : string) : M B outcome :=
  guard (av_nil s || negb (av_control s) || negb (av_now s) || negb (av_newID s)) "action service dependencies are required" ;;!
  let! domainID := lift (admitDomain (av_domain s)) in
  let! name := lift (Session.ParseName rawName) in
  guard ((phase ≠s "once") && (phase ≠s "reconfigure") && (phase ≠s "startup")) "unsupported guest action phase" ;;!
  withActionLocks domainID name (executeLocked phase actionID).

Definition retryLocked (attemptID domainID name : string) (record : SessionRecord) : M B outcome :=
  let! att := LoadActionAttempt domainID (sr_id record) attemptID in
  if (aa_state att ≠s ActionAttemptReserved) && (aa_state att ≠s ActionAttemptIndeterminate)
  then with_error att (Errorf "action attempt is already terminal")
  else if negb (actionMatchesRunningRecord att record)
  then with_error att (Errorf "action retry differs from current running generation")
  else
  or_return (with_error att) (RequireNoRebuild domainID name) (λ _,
  or_return (with_error att) (LoadRecipeIntent (aa_recipe att)) (λ intentBytes,
  or_return (with_error att) (lift (DecodeIntent intentBytes)) (λ intent,
  let argv := stepArgv intent (aa_action att) (aa_phase att) in
  if isNone argv || (aa_phase att =s "launch")
  then with_error att (Errorf "action retry differs from exact guest-only recipe step")
  else
  let request := requestOf att (br_kind (sr_backend record)) argv in
  let binding := startBinding record in
  or_return (with_error att) (lift (EncodeActionRequest request)) (λ _,
  or_return (with_error att) (requireFreshActionReady binding) (λ _,
  let uncertain := set_outcome ActionAttemptIndeterminate "" att in
  or_return (with_error att) (wrap "mark interrupted action indeterminate"
    (if aa_state att =s ActionAttemptReserved then advanceActionAttempt att uncertain else ret tt)) (λ _,
  let att := if aa_state att =s ActionAttemptReserved then uncertain else att in
  or_return (with_error att) (wrap "exact guest action retry" (RetryAction binding request)) (λ receipt,
  or_return (with_error att) (wrap "invalid exact guest receipt" (lift (EncodeActionReceipt request receipt))) (λ receiptBytes,
  or_return (with_error att) (wrap "fresh READY after guest action retry" (requireFreshActionReady binding)) (λ _,
  let result := succeededAttempt att receiptBytes in
  or_return (with_error att) (wrap "record exact recovered receipt" (advanceActionAttempt att result)) (λ _,
  ret (result, None))))))))))).
Definition RetryActionAttempt (s : ActionService) (rawName attemptID : string) : M B outcome :=
  guard (av_nil s || negb (av_control s) || negb (av_now s)) "action service dependencies are required" ;;!
  let! domainID := lift (admitDomain (av_domain s)) in
  let! name := wrapv "invalid exact action retry identity" (lift (Session.ParseName rawName)) in
  guard (negb (Session.validUUID attemptID)) "invalid exact action retry identity" ;;!
  withActionLocks domainID name (retryLocked attemptID).

(** ** action_skip.go *)

Definition skipLocked (attemptID domainID name : string) (record : SessionRecord) : M B outcome :=
  let! att := LoadActionAttempt domainID (sr_id record) attemptID in
  if negb (actionMatchesStoppedRecord att record) then with_error att (Errorf "action skip requires the exact stopped system")
  else if aa_state att =s ActionAttemptSkipped then ret (att, None)
  else if (aa_state att ≠s ActionAttemptReserved) && (aa_state att ≠s ActionAttemptIndeterminate)
  then with_error att (Errorf "action attempt cannot be skipped")
  else
  let result := set_outcome ActionAttemptSkipped (aa_receipt att) att in
  or_return (with_error att) (wrap "record explicit action skip" (advanceActionAttempt att result)) (λ _, ret (result, None)).
Definition SkipAction (s : ActionService) (rawName attemptID : string) : M B outcome :=
  guard (av_nil s) "action service is required" ;;!
  let! domainID := lift (admitDomain (av_domain s)) in
  let! name := wrapv "invalid exact action skip identity" (lift (Session.ParseName rawName)) in
  guard (negb (Session.validUUID attemptID)) "invalid exact action skip identity" ;;!
  withActionLocks domainID name (skipLocked attemptID).

(** ** action_plan_state.go and the automatic runner *)

Definition ListActionAttempts (configured : DomainConfig) (rawName : string) : M B (list ActionAttempt) :=
  let! domainID := lift (admitDomain configured) in
  let! name := lift (Session.ParseName rawName) in
  wrap "acquire session lock" (AcquireSession domainID name) ;;!
  deferred_join (Lock.session_scope domainID name) (
  let! record := LoadRecord domainID name in
  listActionAttemptsForRecord record).
Definition LoadAutomaticActionPlan (configured : DomainConfig) (rawName : string) : M B (SessionRecord * list Recipe.Step) :=
  let! domainID := lift (admitDomain configured) in
  let! name := lift (Session.ParseName rawName) in
  wrap "acquire session lock" (AcquireSession domainID name) ;;!
  deferred_join (Lock.session_scope domainID name) (
  let! record := LoadRecord domainID name in
  if sr_intent record =s "" then ret (record, [])
  else
  let! raw := wrap "load exact automatic action recipe" (LoadRecipeIntent (sr_intent record)) in
  let! intent := lift (DecodeIntent raw) in
  let! attempts := wrap "load exact automatic action journal" (listActionAttemptsForRecord record) in
  let! pending := lift (PlanAutomaticActions record intent attempts) in
  ret (record, pending)).

Definition maxAutomaticActions : nat := 128.
(** The loop of [RunAutomaticActions] with [rounds] to go. *)
Fixpoint automaticLoop (s : ActionService) (started : SessionRecord) (rounds : nat) (completed : list ActionAttempt)
  : M B (list ActionAttempt * option error) :=
  or_return (with_error completed) (wrap "load automatic action plan" (LoadAutomaticActionPlan (av_domain s) (sr_name started))) (λ '(current, pending),
  if bool_decide (current ≠ started) then with_error completed (Errorf "automatic action session changed after start")
  else match pending with
       | [] => ret (completed, None)
       | step :: _ =>
           match rounds with
           | O => with_error completed (Errorf "automatic action count exceeds recipe bound")
           | S rounds =>
               let! r := attempt (ExecuteAction s (sr_name started) (st_phase step) (st_id step)) in
               let '(att, runErr) := match r with Ok o => o | Er e => (zeroAttempt, Some e) end in
               let completed := if aa_attempt att ≠s "" then completed ++ [att] else completed in
               match runErr with
               | Some e => with_error completed (wrapw "automatic action" e)
               | None =>
                   if (aa_state att ≠s ActionAttemptSucceeded) || (aa_phase att ≠s st_phase step) || (aa_action att ≠s st_id step)
                   then with_error completed (Errorf "automatic action returned no checked success")
                   else automaticLoop s started rounds completed
               end
           end
       end).
Definition RunAutomaticActions (s : ActionService) (started : SessionRecord) : M B (list ActionAttempt * option error) :=
  guard (av_nil s || negb (av_control s)) "action service dependencies are required" ;;!
  guard (sr_domain started ≠s dc_ID (av_domain s)) "automatic action session differs from selected domain" ;;!
  automaticLoop s started maxAutomaticActions [].
End service.

(** ** Lemmas *)

(** *** The plan *)

(** The attempt settles this step on this system. *)
Definition serves (record : SessionRecord) (s : Recipe.Step) (a : ActionAttempt) : Prop :=
  aa_object a = br_object_id (sr_backend record) ∧ aa_recipe a = sr_intent record ∧ aa_phase a = st_phase s ∧ aa_action a = st_id s ∧
  (aa_phase a = "startup" → aa_generation a = sr_generation record).
(** The attempts the plan looks at. *)
Definition relevant (record : SessionRecord) (a : ActionAttempt) : bool :=
  (aa_object a =s br_object_id (sr_backend record)) && ((aa_phase a =s "once") || (aa_phase a =s "startup")) &&
  (aa_recipe a =s sr_intent record) && ((aa_phase a ≠s "startup") || (aa_generation a =s sr_generation record)).
Definition own (record : SessionRecord) (a : ActionAttempt) : Prop :=
  validateActionAttempt a = Ok tt ∧ aa_domain a = sr_domain record ∧ aa_session_name a = sr_name record ∧ aa_session a = sr_id record.
Definition resolved (record : SessionRecord) (a : ActionAttempt) : Prop :=
  aa_object a = br_object_id (sr_backend record) → aa_state a ∈ [ActionAttemptSucceeded; ActionAttemptSkipped].
Definition key_of (a : ActionAttempt) : string := action_key (aa_phase a) (aa_action a).
Lemma resolved_iff a : validateActionAttempt a = Ok tt →
  existsb (String.eqb (aa_state a)) [ActionAttemptReserved; ActionAttemptIndeterminate; ActionAttemptFailed] = negb (settled a).
Proof.
  intros Hv%validateActionAttempt_ok%at_state. rewrite !elem_of_cons, elem_of_nil in Hv. unfold settled.
  destruct Hv as [[[->|[->|[->|[->|[]]]]] _]|[-> _]]; reflexivity.
Qed.
Lemma settled_in a : settled a = true ↔ aa_state a ∈ [ActionAttemptSucceeded; ActionAttemptSkipped].
Proof. unfold settled. rewrite orb_true_iff, !eqs_true. set_solver. Qed.

Lemma completed_own record a rest seen completed l :
  completedActions record (a :: rest) seen completed = Ok l → own record a ∧ resolved record a.
Proof.
  cbn [completedActions]. rewrite unit_then_ok, check_then_ok. intros (Hv & Ho & H). bsimpl. split; [done|].
  intros Hobj. apply (proj2 (neqs_false _ _)) in Hobj. rewrite Hobj, (resolved_iff _ Hv) in H.
  destruct (settled a) eqn:Hs; [by apply settled_in|done].
Qed.
Lemma completed_step record a rest seen completed : own record a → resolved record a →
  completedActions record (a :: rest) seen completed =
  if relevant record a then
    check (negb (existsb (String.eqb (key_of a)) seen)) "automatic action has conflicting attempts" ;;?
    completedActions record rest (key_of a :: seen) (key_of a :: completed)
  else completedActions record rest seen completed.
Proof.
  intros (Hv & Hd & Hn & Hi) Hr. cbn [completedActions]. rewrite Hv, Hd, Hn, Hi, !eqs_refl. cbn [andb check res_bind].
  unfold relevant. destruct (aa_object a =s br_object_id (sr_backend record)) eqn:Eo; [|done]. apply eqs_true in Eo. cbn [negb andb].
  pose proof (proj2 (settled_in a) (Hr Eo)) as Hs. rewrite (resolved_iff _ Hv), Hs. cbn [negb]. fold (key_of a).
  destruct (aa_phase a =s "once"), (aa_phase a =s "startup"), (aa_recipe a =s sr_intent record), (aa_generation a =s sr_generation record); done.
Qed.
Lemma completedActions_exact record attempts seen completed l :
  completedActions record attempts seen completed = Ok l ↔
  Forall (own record) attempts ∧ Forall (resolved record) attempts ∧
  NoDup (key_of <$> filter (λ a, relevant record a = true) attempts) ∧
  (∀ k, k ∈ key_of <$> filter (λ a, relevant record a = true) attempts → k ∉ seen) ∧
  l = rev (key_of <$> filter (λ a, relevant record a = true) attempts) ++ completed.
Proof.
  revert seen completed l. induction attempts as [|a rest IH]; intros seen completed l.
  { split; [intros [= <-]; split_and!; [done|done|constructor|set_solver|done]|by intros (_ & _ & _ & _ & ->)]. }
  rewrite !Forall_cons. split.
  - intros H. destruct (completed_own _ _ _ _ _ _ H) as [Ho Hr]. rewrite (completed_step _ _ _ _ _ Ho Hr) in H.
    destruct (relevant record a) eqn:Er.
    + rewrite filter_cons_True by done. apply check_then_ok in H as [Hk H]. apply IH in H as (H1 & H2 & H3 & H4 & ->).
      apply negb_true_iff in Hk. apply not_true_iff_false in Hk. rewrite seen_in in Hk.
      split_and!; [done|done|done|done| | |].
      * cbn [fmap list_fmap]. constructor; [|done]. intros Hin. apply (H4 _ Hin). by left.
      * intros k. cbn [fmap list_fmap]. intros [->|Hin]%elem_of_cons; [done|]. intros Hs. apply (H4 _ Hin). by right.
      * cbn [fmap list_fmap rev]. by rewrite <-app_assoc.
    + rewrite filter_cons_False by congruence. apply IH in H as (H1 & H2 & H3 & H4 & ->). by split_and!.
  - intros ([Ho H1] & [Hr H2] & H3 & H4 & ->). rewrite (completed_step _ _ _ _ _ Ho Hr).
    destruct (relevant record a) eqn:Er.
    + rewrite filter_cons_True in H3, H4 |- * by done. cbn [fmap list_fmap] in *. apply NoDup_cons in H3 as [Hn H3].
      assert (existsb (String.eqb (key_of a)) seen = false) as ->.
      { apply not_true_iff_false. rewrite seen_in. apply H4. by left. }
      cbn [negb check res_bind]. apply IH. split_and!; [done|done|done| |cbn [rev]; by rewrite <-app_assoc].
      intros k Hk [->|Hs]%elem_of_cons; [done|]. apply (H4 k); [by right|done].
    + rewrite filter_cons_False in H3, H4 |- * by congruence. apply IH. by split_and!.
Qed.

Lemma pendingSteps_exact completed steps pending0 pending :
  pendingSteps completed steps pending0 = Ok pending ↔
  ∃ before after, steps = before ++ after ∧ pending = pending0 ++ after ∧ (pending0 ≠ [] → before = []) ∧
    Forall (λ s, action_key (st_phase s) (st_id s) ∈ completed) before ∧
    Forall (λ s, action_key (st_phase s) (st_id s) ∉ completed) after.
Proof.
  revert pending0. induction steps as [|s rest IH]; intros pending0; cbn [pendingSteps].
  { split.
    - intros [= <-]. exists [], []. split_and!; [done|by rewrite app_nil_r|done|constructor|constructor].
    - intros (before & after & H & -> & _). symmetry in H. apply app_eq_nil in H as [_ ->]. by rewrite app_nil_r. }
  destruct (existsb _ completed) eqn:Ek.
  - apply seen_in in Ek. rewrite check_then_ok, Nat.eqb_eq, IH. split.
    + intros (Hl & before & after & -> & -> & _ & Hb & Ha). destruct pending0; [|done]. exists (s :: before), after.
      split_and!; [done|done|done|by constructor|done].
    + intros (before & after & H & -> & Hne & Hb & Ha). destruct before as [|b before].
      { cbn [app] in H. subst after. by apply Forall_cons in Ha as [Ha _]. }
      injection H as <- ->. apply Forall_cons in Hb as [_ Hb].
      destruct pending0; [|by specialize (Hne ltac:(done))]. split; [done|]. by exists before, after.
  - apply not_true_iff_false in Ek. rewrite seen_in in Ek. rewrite IH. split.
    + intros (before & after & -> & -> & Hne & Hb & Ha). specialize (Hne ltac:(by destruct pending0)) as ->.
      exists [], (s :: after). rewrite <-app_assoc. split_and!; [done|done|done|constructor|by constructor].
    + intros (before & after & H & -> & Hne & Hb & Ha). destruct before as [|b before].
      2: { injection H as <- _. by apply Forall_cons in Hb as [Hb _]. }
      cbn [app] in H. subst after. apply Forall_cons in Ha as [_ Ha]. exists [], rest. rewrite <-app_assoc. split_and!; [done|done|done|constructor|done].
Qed.
Lemma action_key_inj p i p' i' : p ∈ ["once"; "startup"]%string → p' ∈ ["once"; "startup"]%string →
  action_key p i = action_key p' i' → p = p' ∧ i = i'.
Proof.
  intros Hp Hp'. rewrite !elem_of_cons, elem_of_nil in Hp, Hp'. unfold action_key.
  apply (str_all_append_inj (λ c, negb (Ascii.eqb c "/"))); [done|by destruct Hp as [->|[->|[]]]|by destruct Hp' as [->|[->|[]]]].
Qed.
Lemma automatic_phase intent s : s ∈ automaticSteps intent → st_phase s ∈ ["once"; "startup"]%string.
Proof.
  unfold automaticSteps. rewrite elem_of_app, !list_elem_of_filter. intros [[-> _]|[-> _]]; [by left|by right; left].
Qed.
(** A step's key is settled exactly when an attempt of the plan serves it. *)
Lemma served_key record (attempts : list ActionAttempt) s : st_phase s ∈ ["once"; "startup"]%string →
  action_key (st_phase s) (st_id s) ∈ key_of <$> filter (λ a, relevant record a = true) attempts ↔
  ∃ a, a ∈ attempts ∧ serves record s a.
Proof.
  intros Hs. rewrite list_elem_of_fmap. split.
  - intros (a & Hk & [Hr Ha]%list_elem_of_filter). exists a. split; [done|]. unfold relevant in Hr. bsimpl.
    assert (aa_phase a ∈ ["once"; "startup"]%string) as Hp.
    { apply orb_true_iff in H2 as [->%eqs_true| ->%eqs_true]; [by left|by right; left]. }
    apply action_key_inj in Hk as [Hk1 Hk2]; [|done|done]. split_and!; try done.
    intros Hst. rewrite Hst in H0. apply orb_true_iff in H0 as [H0|H0]; [done|by apply eqs_true].
  - intros (a & Ha & Ho & Hrd & Hp & Hi & Hg). exists a. split; [unfold key_of; congruence|]. apply list_elem_of_filter. split; [|done].
    unfold relevant. rewrite Ho, Hrd, !eqs_refl. rewrite <-Hp in Hs. rewrite !elem_of_cons, elem_of_nil in Hs.
    destruct Hs as [E1|[E1|[]]]; rewrite E1 in *; [by rewrite !eqs_refl|]. by rewrite (Hg eq_refl), !eqs_refl.
Qed.
(** The keys the plan counts as completed are those some attempt serves. *)
Lemma completed_serves record attempts l s : completedActions record attempts [] [] = Ok l → st_phase s ∈ ["once"; "startup"]%string →
  action_key (st_phase s) (st_id s) ∈ l ↔ ∃ a, a ∈ attempts ∧ serves record s a.
Proof.
  intros (_ & _ & _ & _ & ->)%completedActions_exact Hs. rewrite app_nil_r, <-(served_key _ _ _ Hs).
  by rewrite !list_elem_of_In, <-in_rev.
Qed.
(** The steps left to run: those the attempts have not settled, once they form
    a suffix of the automatic steps. *)
Definition remaining (record : SessionRecord) (attempts : list ActionAttempt) (steps pending : list Recipe.Step) : Prop :=
  ∃ before, steps = before ++ pending ∧
    (∀ s, s ∈ before → ∃ a, a ∈ attempts ∧ serves record s a ∧ aa_state a ∈ [ActionAttemptSucceeded; ActionAttemptSkipped]) ∧
    (∀ s a, s ∈ pending → a ∈ attempts → ¬ serves record s a).
(** What the plan requires of the session and of its journal. *)
Record plannable `{Digests} (record : SessionRecord) (intent : Recipe) (attempts : list ActionAttempt) : Prop := {
  pl_valid : validateRecordForStore (sr_domain record) record = Ok tt;
  pl_runs : runs_recipe record = true;
  pl_canonical : ∃ text, CanonicalIntent intent = Ok (text, sr_intent record);
  pl_own : Forall (own record) attempts;
  pl_resolved : Forall (resolved record) attempts;
  pl_single : NoDup (key_of <$> filter (λ a, relevant record a = true) attempts);
}.

(** ** Properties *)

(** The automatic plan is exact: it is produced when, and only when,
    the record is valid and runs a recipe durably ready, the recipe is the
    canonical one the session is bound to, every attempt of the journal belongs
    to the session, none on the session's system is reserved, indeterminate or
    failed, no two settle the same step, and the steps they settle are a prefix
    of the automatic steps (the once steps in recipe order, then the startup
    steps in recipe order); the plan is then the rest of those steps. *)
Theorem plan_exact {D : Digests} record intent attempts pending :
  PlanAutomaticActions record intent attempts = Ok pending ↔
  plannable record intent attempts ∧ remaining record attempts (automaticSteps intent) pending.
Proof.
  unfold PlanAutomaticActions. rewrite unit_then_ok, check_then_ok. split.
  - intros (Hv & Hr & H). apply res_bind_ok in H as ([text digest] & Hc & H). apply check_then_ok in H as [Hd H].
    apply res_bind_ok in H as (completed & Hk & H). cbn in Hd. apply eqs_true in Hd. subst digest.
    pose proof (proj1 (completedActions_exact _ _ _ _ _) Hk) as (H1 & H2 & H3 & _ & _).
    apply pendingSteps_exact in H as (before & after & Hs & -> & _ & Hb & Ha).
    assert (∀ s, s ∈ before ++ after → st_phase s ∈ ["once"; "startup"]%string) as Hph
      by (intros s Hin; rewrite <-Hs in Hin; by eapply automatic_phase).
    split; [by constructor; eauto|]. exists before. split_and!; [done| |].
    + intros s Hin. pose proof (proj1 (Forall_forall _ _) Hb s Hin) as Hc'. cbn beta in Hc'.
      apply (completed_serves _ _ _ _ Hk) in Hc' as (a & Hia & Hsv); [|apply Hph; set_solver].
      exists a. split_and!; [done..|]. apply (proj1 (Forall_forall _ _) H2 a Hia). apply Hsv.
    + intros s a Hin Hia Hsv. apply (proj1 (Forall_forall _ _) Ha s Hin).
      apply (completed_serves _ _ _ _ Hk); [apply Hph; set_solver|]. eauto.
  - intros [[Hv Hr [text Hc] Ho Hrs Hn] (before & Hs & Hb & Ha)]. split_and!; [done..|]. rewrite Hc. cbn [res_bind snd]. rewrite eqs_refl. cbn [check res_bind].
    assert (Hk : completedActions record attempts [] [] = Ok (rev (key_of <$> filter (λ a, relevant record a = true) attempts) ++ []))
      by (apply completedActions_exact; split_and!; [done..|set_solver|done]).
    rewrite Hk. cbn [res_bind]. apply pendingSteps_exact. exists before, pending.
    assert (∀ s, s ∈ before ++ pending → st_phase s ∈ ["once"; "startup"]%string) as Hph
      by (intros s Hin; rewrite <-Hs in Hin; by eapply automatic_phase).
    split_and!; [done|done|done|apply Forall_forall; intros s Hin..].
    + apply (completed_serves _ _ _ _ Hk); [apply Hph; set_solver|]. destruct (Hb s Hin) as (a & ? & ? & _). eauto.
    + intros (a & Hia & Hsv)%(completed_serves _ _ _ _ Hk); [by eapply Ha|apply Hph; set_solver].
Qed.
