(* ===== verification/ActionSafety.v ===== *)
(** What the action operations of ActionService.v may do, whatever fails and
    whoever interferes: what is written, and what is true when a request goes
    to the guest; that one action of one system has one attempt identifier
    for ever; and that the automatic runner ends. *)
From S2P Require Import Prelude Ids Json JsonText Recipe GuestProto SessionRecord Outside World Host Logic SessionStore RebuildJournal.
From S2P Require Import SessionCreate SessionStart ActionAttempt ActionService.

(** ** The steps of an action operation *)

(** The requests sent to the guest, newest first, and whether each was a retry. *)
Definition requests (o : list step) : list (bool * ActionRequest) :=
  omap (λ s, match st_event s with EvAction retry _ request _ => Some (retry, request) | _ => None end) o.
(** Two requests run the same action on the same system. *)
Definition same_run (r r' : ActionRequest) : bool :=
  (as_domain (aq_association r) =s as_domain (aq_association r')) && (as_session (aq_association r) =s as_session (aq_association r')) &&
  (aq_action r =s aq_action r') && (aq_phase r =s aq_phase r') && (aq_recipe r =s aq_recipe r') &&
  (as_object (aq_association r) =s as_object (aq_association r')) && ((aq_phase r =s "once") || (aq_generation r =s aq_generation r')).

Definition action_locked (dom name : string) (s : step) : Prop :=
  Lock.transition_scope dom name ∈ st_locks s ∧ Lock.session_scope dom name ∈ st_locks s.
(** The last two steps, but [n] at most, prove the generation ready. *)
Definition proved_ready (n : nat) (b : Binding) (o : list step) : Prop :=
  ∃ later sn ss earlier snapshot now, o = later ++ sn :: ss :: earlier ∧ (length later ≤ n)%nat ∧
    st_event sn = EvNow now ∧ st_event ss = EvSnapshot b (Ok snapshot) ∧ fresh_ready b snapshot now = true.
(** The guest answered the attempt's request with its exact receipt, and was
    then proved ready. *)
Definition receipt_evidence `{Digests} (next : ActionAttempt) (o : list step) : Prop :=
  ∃ sn ss sa earlier retry b request receipt bytes, o = sn :: ss :: sa :: earlier ∧ proved_ready 0 b o ∧
    st_event sa = EvAction retry b request (Ok receipt) ∧ aq_attempt request = aa_attempt next ∧
    EncodeActionReceipt request receipt = Ok bytes ∧ aa_receipt next = sha256 bytes.
(** Every automatic step before this one is settled on this system. *)
Definition in_order (dom : string) (record : SessionRecord) (intent : Recipe) (a : ActionAttempt) (k : disk) : Prop :=
  ∃ before step after, automaticSteps intent = before ++ step :: after ∧ st_phase step = aa_phase a ∧ st_id step = aa_action a ∧
    ∀ s, s ∈ before → ∃ id prior, attempt_at dom (sr_id record) id k = Some prior ∧ serves record s prior ∧
      aa_state prior ∈ [ActionAttemptSucceeded; ActionAttemptSkipped].
(** What holds when a request goes to the guest. *)
Record sendable `{Digests} (dom name : string) (retry : bool) (b : Binding) (request : ActionRequest) (k : disk) (o : list step)
    (record : SessionRecord) (a : ActionAttempt) (intent : Recipe) : Prop := {
  se_session : session_at dom name k = Some record;
  se_running : actionMatchesRunningRecord a record = true;
  se_binding : b = startBinding record;
  se_attempt : attempt_at dom (sr_id record) (aa_attempt a) k = Some a;
  se_state : aa_state a = if retry then ActionAttemptIndeterminate else ActionAttemptReserved;
  se_intent : intent_at (aa_recipe a) k = Some intent;
  se_argv : stepArgv intent (aa_action a) (aa_phase a) = aq_argv request ∧ aq_argv request ≠ None;
  se_request : request = requestOf a "tart" (aq_argv request);
  se_no_rebuild : k !! (Rebuilds, json_name name) = None;
  se_ready : proved_ready 1 b o;
  se_reserved : retry = false → ∃ t o', o = t :: o' ∧ st_event t = reserve_event a;
  se_order : retry = false → aa_phase a ∈ ["once"; "startup"]%string → in_order dom record intent a k;
}.
Definition action_steps `{Digests} (dom name : string) (o : list step) (s : step) : Prop :=
  match st_event s with
  | EvAcquire _ | EvRelease _ | EvSnapshot _ _ | EvNow _ => True
  | EvCreate (Attempts _) _ _ =>
      action_locked dom name s ∧ ∃ a, st_event s = reserve_event a ∧ reservable_attempt a (st_before s) ∧ st_disk s = attempt_disk a (st_before s) ∧
        aa_domain a = dom ∧ aa_session_name a = name
  | EvPublish (Attempts _) _ _ =>
      action_locked dom name s ∧ ∃ before next, st_event s = advance_event next ∧ advances before next (st_before s) ∧ st_disk s = attempt_disk next (st_before s) ∧
        aa_domain next = dom ∧ aa_session_name next = name ∧ (aa_state next = ActionAttemptSucceeded → receipt_evidence next o)
  | EvAction retry b request _ => action_locked dom name s ∧ ∃ record a intent, sendable dom name retry b request (st_disk s) o record a intent
  | _ => False
  end.
(** A request for a run that was requested before is a retry of the same attempt. *)
Definition repeats_nothing (later earlier : bool * ActionRequest) : Prop :=
  same_run later.2 earlier.2 = true → later.1 = true ∧ aq_attempt later.2 = aq_attempt earlier.2.
Definition one_attempt (o : list step) (s : step) : Prop :=
  ∀ retry b request answer, st_event s = EvAction retry b request answer → Forall (repeats_nothing (retry, request)) (requests o).
Definition run_steps `{Digests} (dom name : string) : stepP := λ o s, action_steps dom name o s ∧ one_attempt o s.
Lemma run_lock_free `{Digests} dom name : lock_free (run_steps dom name).
Proof. intros o s sc [Hs|Hs]; (split; [unfold action_steps; by rewrite Hs|intros r b q e; by rewrite Hs]). Qed.
#[export] Hint Resolve run_lock_free : go.

(** ** The invariant *)

(** No two attempts of a session run the same action on the same system. *)
Definition single_attempts (k : disk) : Prop :=
  ∀ dom sid id id' a a', attempt_at dom sid id k = Some a → attempt_at dom sid id' k = Some a' → replays a a' = true → id = id'.
(** Every request ever sent has its attempt on disk. *)
Definition run_of (a : ActionAttempt) (r : ActionRequest) : Prop :=
  aa_action a = aq_action r ∧ aa_phase a = aq_phase r ∧ aa_recipe a = aq_recipe r ∧
  aa_object a = as_object (aq_association r) ∧ aa_generation a = aq_generation r.
Definition logged (r : ActionRequest) (k : disk) : Prop :=
  ∃ a, attempt_at (as_domain (aq_association r)) (as_session (aq_association r)) (aq_attempt r) k = Some a ∧ run_of a r.
Definition consistent (k : disk) (rs : list (bool * ActionRequest)) : Prop :=
  single_attempts k ∧ Forall (λ r, logged r.2 k) rs.

(** What is assumed of the other processes: an attempt is never removed or
    made another one, only its outcome may be recorded; and no second attempt
    of the same run appears. *)
Class AttemptProtocol (E : Env) : Prop := {
  protocol_attempts : ∀ n held k dom sid id a, attempt_at dom sid id k = Some a →
    ∃ state receipt, attempt_at dom sid id (env_others n held k) = Some (set_outcome state receipt a);
  protocol_single : ∀ n held k, single_attempts k → single_attempts (env_others n held k);
}.
#[export] Instance quiet_attempts : AttemptProtocol quietEnv.
Proof.
  constructor; [|done]. intros n held k dom sid id a Ha. exists (aa_state a), (aa_receipt a). by destruct a.
Qed.

Lemma consistent_others {E : Env} {AP : AttemptProtocol E} rs n held k : consistent k rs → consistent (env_others n held k) rs.
Proof.
  intros [Hs Hl]. split; [by apply protocol_single|]. eapply Forall_impl; [exact Hl|]. intros r (a & Ha & Hr).
  destruct (protocol_attempts n held k _ _ _ _ Ha) as (st & rc & Ha'). eexists. split; [exact Ha'|exact Hr].
Qed.

(** A name of the registry, read for any domain, holds one attempt. *)
Lemma attempt_at_domain dom dom' sid id k a a' :
  attempt_at dom sid id k = Some a → attempt_at dom' sid id k = Some a' → a = a' ∧ dom = dom'.
Proof.
  intros (f & Hf & Hp)%view_Some (f' & Hf' & Hp')%view_Some. assert (f' = f) as -> by congruence.
  pose proof (parseAttempt_ok _ _ _ _ _ Hp) as (<- & _). pose proof (parseAttempt_ok _ _ _ _ _ Hp') as (<- & _).
  unfold parseAttempt in Hp, Hp'. res_inv Hp. res_inv Hp'. injection Hp as <-. injection Hp' as <-.
  assert (a0 = a3) as -> by congruence. assert (a1 = a4) as -> by congruence. done.
Qed.
(** Writing an attempt over its own earlier version, or under a free name. *)
Definition overwrites (a : ActionAttempt) (k : disk) : Prop :=
  ∀ dom b, attempt_at dom (aa_session a) (aa_attempt a) k = Some b → dom = aa_domain a ∧ a = set_outcome (aa_state a) (aa_receipt a) b.
Lemma replays_sym a b : replays a b = true → replays b a = true.
Proof.
  unfold replays. rewrite !andb_true_iff, !orb_true_iff, !eqs_true. intros ((((-> & ->) & ->) & ->) & [H|H]).
  - by split_and!; [..|left].
  - by split_and!; [..|right].
Qed.
Lemma attempt_at_written a k dom sid id b : validateActionAttempt a = Ok tt → attempt_at dom sid id (attempt_disk a k) = Some b →
  dom = aa_domain a ∧ sid = aa_session a ∧ id = aa_attempt a ∧ b = a ∨
  (sid, id) ≠ (aa_session a, aa_attempt a) ∧ attempt_at dom sid id k = Some b.
Proof.
  intros Hv Hb. destruct (decide ((sid, id) = (aa_session a, aa_attempt a))) as [[= -> ->]|Hne].
  - left. destruct (attempt_at_domain _ _ _ _ _ _ _ Hb (attempt_written _ _ Hv)) as [-> ->]. done.
  - right. by rewrite attempt_written_ne in Hb.
Qed.
Lemma consistent_written rs a k : validateActionAttempt a = Ok tt → overwrites a k →
  (∀ id b, attempt_at (aa_domain a) (aa_session a) id k = Some b → replays a b = true → id = aa_attempt a) →
  consistent k rs → consistent (attempt_disk a k) rs.
Proof.
  intros Hv Ho Hone [Hs Hl]. split.
  - intros dom sid id1 id2 a1 a2 H1 H2 Hr.
    apply (attempt_at_written _ _ _ _ _ _ Hv) in H1 as [(-> & -> & -> & ->)|[_ H1]], H2 as [(E1 & E2 & -> & ->)|[_ H2]].
    + done.
    + symmetry. by eapply Hone.
    + subst. eapply Hone; [done|]. by apply replays_sym.
    + by eapply Hs.
  - eapply Forall_impl; [exact Hl|]. intros r (b & Hb & Hr). unfold logged.
    destruct (decide ((as_session (aq_association r.2), aq_attempt r.2) = (aa_session a, aa_attempt a))) as [[= E1 E2]|Hne].
    + rewrite E1, E2 in *. destruct (Ho _ _ Hb) as [-> Ha]. exists a. split; [by apply attempt_written|]. by rewrite Ha.
    + exists b. split; [|done]. by rewrite attempt_written_ne.
Qed.
Lemma consistent_reserved {D : Digests} rs a k : reservable_attempt a k → consistent k rs → consistent (attempt_disk a k) rs.
Proof.
  intros [Hv _ _ _ Hu Hf] Hk. apply consistent_written; [done| |..|done].
  - intros dom b (f & Hb & _)%view_Some. unfold attempt_key in Hf. congruence.
  - intros id b Hb Hr. by rewrite (Hu _ _ Hb) in Hr.
Qed.
Lemma attempt_step_outcome before next : attempt_step before next → next = set_outcome (aa_state next) (aa_receipt next) before.
Proof. by intros []. Qed.
Lemma consistent_advanced rs before next k : advances before next k → consistent k rs → consistent (attempt_disk next k) rs.
Proof.
  intros [Hv Hst Hc _ _] Hk. apply attempt_step_outcome in Hst as Hn.
  assert (aa_domain next = aa_domain before ∧ aa_session next = aa_session before ∧ aa_attempt next = aa_attempt before)
    as (Ed & Es & Ei) by (by rewrite Hn).
  apply consistent_written; [done| |..|done].
  - intros dom b Hb. rewrite Es, Ei in Hb. destruct (attempt_at_domain _ _ _ _ _ _ _ Hb Hc) as [-> ->]. done.
  - intros id b Hb Hr. rewrite Ed, Es in Hb. symmetry. rewrite Ei. eapply (proj1 Hk); [exact Hc|exact Hb|].
    rewrite Hn in Hr. exact Hr.
Qed.
(** A request whose attempt is on disk. *)
Lemma consistent_sent rs retry r k : consistent k rs → logged r k → consistent k ((retry, r) :: rs).
Proof. intros [Hs Hl] Hr. split; [done|by constructor]. Qed.

(** A logged request of the same run names an attempt that forbids another. *)
Lemma logged_replays a kind argv r k : same_run (requestOf a kind argv) r = true → logged r k →
  ∃ prior, attempt_at (aa_domain a) (aa_session a) (aq_attempt r) k = Some prior ∧ replays a prior = true.
Proof.
  unfold same_run, requestOf, replays. cbn. rewrite !andb_true_iff, orb_true_iff, !eqs_true.
  intros ((((((-> & ->) & ->) & ->) & ->) & ->) & Hg) (b & Hb & E1 & E2 & E3 & E4 & E5). exists b. split; [done|].
  rewrite E1, E2, E3, E4, E5, !eqs_refl. apply orb_true_iff. destruct Hg as [->|Hg]; [by left|right]. apply eqs_true. congruence.
Qed.
Lemma fresh_run {D : Digests} a kind argv rs k : reservable_attempt a k → consistent k rs →
  Forall (repeats_nothing (false, requestOf a kind argv)) rs.
Proof.
  intros Ha [_ Hl]. eapply Forall_impl; [exact Hl|]. intros r Hr Hs. destruct (logged_replays _ _ _ _ _ Hs Hr) as (p & Hp & Hrp).
  by rewrite (ra_unreplayed _ _ Ha _ _ Hp) in Hrp.
Qed.
Lemma same_attempt a kind argv rs k : attempt_at (aa_domain a) (aa_session a) (aa_attempt a) k = Some a → consistent k rs →
  Forall (repeats_nothing (true, requestOf a kind argv)) rs.
Proof.
  intros Ha [Hs Hl]. eapply Forall_impl; [exact Hl|]. intros r Hr Hsame. split; [done|].
  destruct (logged_replays _ _ _ _ _ Hsame Hr) as (p & Hp & Hrp). by eapply Hs.
Qed.

(** What the records of other directories say is not touched. *)
Lemma session_at_attempt dom name a k : session_at dom name (attempt_disk a k) = session_at dom name k.
Proof. by apply view_insert_ne. Qed.
Lemma intent_at_attempt {D : Digests} digest a k : intent_at digest (attempt_disk a k) = intent_at digest k.
Proof. by apply view_insert_ne. Qed.
Lemma rebuilds_attempt n a k : attempt_disk a k !! (Rebuilds, n) = k !! (Rebuilds, n).
Proof. by apply lookup_insert_ne. Qed.

(** ** Running the operations *)

Section runs.
Context {B : Type} {H : Host B} {E : Env} {D : Digests}.
Variables dom name : string.
Implicit Types (w : world B) (L : list string) (a : ActionAttempt).
Abbreviation P := (run_steps dom name).

Lemma wp_or_return {A C} (Pr : stepP) (fb : error → M B (C * option error)) (m : M B A) k Q w :
  wp Pr m (λ r w', match r with Ok a => wp Pr (k a) Q w' | Er e => wp Pr (fb e) Q w' end) w → wp Pr (or_return fb m k) Q w.
Proof. intros Hm. unfold or_return. apply wp_bind, wp_attempt. eapply wp_conseq; [exact Hm|]. by intros [x|e] w'. Qed.

(** The files are consistent with what was sent, the locks are [L]. *)
Definition steady L w : Prop := w_locks w = L ∧ consistent (w_disk w) (requests (w_trace w)).
(** The attempt is on disk, with some outcome. *)
Definition on_disk a (k : disk) : Prop :=
  ∃ state receipt, attempt_at dom (aa_session a) (aa_attempt a) k = Some (set_outcome state receipt a).
Lemma on_disk_self a k : attempt_at dom (aa_session a) (aa_attempt a) k = Some a → on_disk a k.
Proof. intros Ha. exists (aa_state a), (aa_receipt a). by destruct a. Qed.
Lemma steady_retick L n w : steady L w → steady L (retick n w).
Proof. done. Qed.

(** Checking that the generation is ready adds two steps that are no request. *)
Lemma wp_requireFreshActionReady L b (Q : res unit → world B → Prop) w : steady L w →
  (∀ w', steady L w' → w_disk w' = w_disk w → (∃ sn ss, w_trace w' = sn :: ss :: w_trace w) →
     requests (w_trace w') = requests (w_trace w) → proved_ready 0 b (w_trace w') → Q (Ok tt) w') →
  (∀ e w', steady L w' → w_disk w' = w_disk w → Q (Er e) w') →
  wp P (requireFreshActionReady b) Q w.
Proof.
  intros [HL Hk] H1 H2. unfold requireFreshActionReady. apply wp_bind, wp_wrap, wp_host_call. intros r h _. split; [by split|].
  destruct r as [snapshot|e]; [|by apply H2]. apply wp_bind, wp_host_call. intros t h' Ht. split; [by split|].
  destruct t as [now|e].
  2: { apply H2; [by split|done]. }
  apply wp_guard; intros Hf; [|by apply H2]. apply negb_false_iff in Hf. apply H1; try done.
  - eexists _, _. reflexivity.
  - eexists [], _, _, _, snapshot, now. by split_and!.
Qed.

(** Recording an outcome. *)
Definition wrote a w w' : Prop :=
  w_disk w' = w_disk w ∧ w_trace w' = w_trace w ∨ ∃ s, w_disk w' = attempt_disk a (w_disk w) ∧ w_trace w' = s :: w_trace w.
Definition both_locked L : Prop := Lock.transition_scope dom name ∈ L ∧ Lock.session_scope dom name ∈ L.
Lemma wp_outcome L state receipt a (Q : res unit → world B → Prop) w :
  both_locked L → aa_domain a = dom → aa_session_name a = name → steady L w → on_disk a (w_disk w) →
  (state = ActionAttemptSucceeded → receipt_evidence (set_outcome state receipt a) (w_trace w)) →
  (∀ w', steady L w' → attempt_at dom (aa_session a) (aa_attempt a) (w_disk w') = Some (set_outcome state receipt a) →
     wrote (set_outcome state receipt a) w w' → Q (Ok tt) w') →
  (∀ e w', steady L w' → on_disk a (w_disk w') → Q (Er e) w') →
  wp P (advanceActionAttempt a (set_outcome state receipt a)) Q w.
Proof.
  intros Hboth Hd Hn [HL Hk] Ha He H1 H2. apply wp_advanceActionAttempt.
  - intros n Hadv. pose proof (attempt_written _ (w_disk w) (ad_valid _ _ _ Hadv)) as Hw. cbn [set_outcome aa_domain aa_session aa_attempt] in Hw.
    rewrite Hd in Hw. split.
    + split; [|by intros ? ? ? ?]. split; [by rewrite HL|]. eexists a, _. split_and!; [reflexivity|exact Hadv|done..].
    + assert (steady L (did (advance_event (set_outcome state receipt a)) (attempt_disk (set_outcome state receipt a) (w_disk w)) (retick n w)))
        as Hs by (split; [done|by apply (consistent_advanced _ _ _ _ Hadv)]).
      intros [[]|e]; [|by apply H2; [|eexists _, _]]. apply H1; [done..|]. right. eexists. split; reflexivity.
  - intros n Hat. cbn [set_outcome aa_domain aa_session aa_attempt] in Hat. rewrite Hd in Hat. apply H1; [done..|by left].
  - intros e n. by apply H2.
Qed.

(** An attempt and error that name an attempt of the registry. *)
Variable about : ActionAttempt → Prop.
Hypothesis about_outcome : ∀ state receipt a, about a → about (set_outcome state receipt a).
Variable final : string.
Definition result_on (r : res outcome) (k : disk) : Prop :=
  match r with
  | Ok (a, None) => attempt_at dom (aa_session a) (aa_attempt a) k = Some a ∧ aa_state a = final ∧ about a
  | Ok (a, Some _) => on_disk a k ∧ about a
  | Er _ => True
  end.
Definition ends L : res outcome → world B → Prop := λ r w, steady L w ∧ result_on r (w_disk w).

Lemma wp_indeterminate L a cause w : both_locked L → aa_domain a = dom → aa_session_name a = name → about a →
  steady L w → on_disk a (w_disk w) → wp P (indeterminateAction a cause) (ends L) w.
Proof.
  intros Hb Hd Hn Hab Hw Ha. unfold indeterminateAction. apply wp_bind, wp_attempt, (wp_outcome L); [done..| |].
  - intros w' Hs Hat _. apply wp_ret. split; [done|]. split; [|by apply about_outcome]. by apply on_disk_self.
  - intros e w' Hs Hat. by apply wp_ret.
Qed.
Lemma wp_with_error L a e w : about a → steady L w → on_disk a (w_disk w) → wp P (with_error a e) (ends L) w.
Proof. intros. by apply wp_ret. Qed.

(** Sending the request. *)
Lemma wp_send L retry b request (f : B → res ActionReceipt * B) record a intent (Q : res ActionReceipt → world B → Prop) w :
  sendable dom name retry b request (w_disk w) (w_trace w) record a intent →
  (retry = false → Forall (repeats_nothing (false, request)) (requests (w_trace w))) → both_locked L → steady L w →
  (∀ r s w', steady L w' → w_disk w' = w_disk w → w_trace w' = s :: w_trace w → st_event s = EvAction retry b request r → Q r w') →
  wp P (host_call (EvAction retry b request) f) Q w.
Proof.
  intros Hse Hfresh Hb [HL Hk] HQ. apply wp_host_call. intros r h _. pose proof (se_request _ _ _ _ _ _ _ _ _ _ Hse) as Hreq.
  pose proof (attempt_at_ok _ _ _ _ _ (se_attempt _ _ _ _ _ _ _ _ _ _ Hse)) as (Hd & Hs & _ & _).
  pose proof (se_attempt _ _ _ _ _ _ _ _ _ _ Hse) as Hat. rewrite <-Hd, <-Hs in Hat. split.
  - split; [split; [by rewrite HL|eauto]|]. intros retry' b' request' answer [= <- <- <- <-].
    destruct retry; [rewrite Hreq; by eapply same_attempt|by apply Hfresh].
  - eapply HQ; [|done..|done]. split; [done|]. apply consistent_sent; [done|]. rewrite Hreq. by exists a.
Qed.

(** From the guest's answer to the recorded success. *)
Lemma wp_recorded L (fb : error → M B outcome) m1 m2 m3 retry b request a receipt sa earlier w :
  final = ActionAttemptSucceeded → both_locked L → aa_domain a = dom → aa_session_name a = name → about a →
  aq_attempt request = aa_attempt a → w_trace w = sa :: earlier → st_event sa = EvAction retry b request (Ok receipt) →
  steady L w → on_disk a (w_disk w) →
  (∀ e w', steady L w' → on_disk a (w_disk w') → wp P (fb e) (ends L) w') →
  wp P (or_return fb (wrap m1 (lift (EncodeActionReceipt request receipt))) (λ bytes,
        or_return fb (wrap m2 (requireFreshActionReady b)) (λ _,
        or_return fb (wrap m3 (advanceActionAttempt a (succeededAttempt a bytes))) (λ _, ret (succeededAttempt a bytes, None))))) (ends L) w.
Proof.
  intros Hfin Hb Hd Hn Hab Hreq Ht Hsa Hw Ha Hfb. apply wp_or_return, wp_wrap, wp_lift.
  destruct (EncodeActionReceipt request receipt) as [bytes|e] eqn:Hen; [|by apply Hfb].
  apply wp_or_return, wp_wrap, (wp_requireFreshActionReady L); [done| |].
  - intros w1 Hw1 Hk1 (sn & ss & Ht1) _ Hp. apply wp_or_return, wp_wrap, (wp_outcome L); [done..|by rewrite Hk1| | |].
    + intros _. rewrite Ht in Ht1. rewrite Ht1 in Hp. rewrite Ht1.
      eexists sn, ss, sa, earlier, retry, b, request, receipt, bytes. by split_and!.
    + intros w2 Hs Hat _. apply wp_ret. split; [done|]. split_and!; [done|done|by apply about_outcome].
    + intros e w2 Hs Hat. by apply Hfb.
  - intros e w1 Hw1 Hk1. apply Hfb; [done|by rewrite Hk1].
Qed.

(** *** The three operations under their locks *)

Lemma loadAttempts_ok record ids w l w' : loadAttempts record ids w = (Ok l, w') →
  ∀ a, a ∈ l → ∃ id, attempt_at (sr_domain record) (sr_id record) id (w_disk w) = Some a.
Proof.
  revert w l. induction ids as [|id ids IH]; intros w l Hl a Ha; cbn [loadAttempts] in Hl; ok_inv; [by apply not_elem_of_nil in Ha|].
  destruct (quiet_LoadActionAttempt (sr_domain record) (sr_id record) id w) as (r & n & Hq). rewrite Hq in Ha0. injection Ha0 as -> <-.
  apply LoadActionAttempt_ok in Hq as [Hat _]. apply elem_of_cons in Ha as [->|Ha]; [eauto|]. by apply (IH _ _ Ha2 _ Ha).
Qed.
Lemma listActionAttempts_ok record w l w' : listActionAttemptsForRecord record w = (Ok l, w') →
  ∀ a, a ∈ l → ∃ id, attempt_at (sr_domain record) (sr_id record) id (w_disk w) = Some a.
Proof.
  unfold listActionAttemptsForRecord. intros Hl. ok_inv. apply fs_list_ok in Ha as [_ ->].
  destruct (quiet_attemptIDs (sr_id record) a (tick w)) as (r & n & Hq). rewrite Hq in Ha1. injection Ha1 as -> <-.
  exact (loadAttempts_ok _ _ _ _ _ Hl).
Qed.

Definition planned (phase actionID : string) (record : SessionRecord) (intent : Recipe) : M B unit :=
  if (phase =s "once") || (phase =s "startup") then
     let! attempts := wrap "load exact automatic action journal" (listActionAttemptsForRecord record) in
     let! pending := wrap "plan automatic actions before reservation" (lift (PlanAutomaticActions record intent attempts)) in
     guard (match pending with [] => true | s :: _ => (st_phase s ≠s phase) || (st_id s ≠s actionID) end)
           "action is not the next automatic step"
   else ret tt.
Lemma quiet_planned phase actionID record intent : quiet (planned phase actionID record intent).
Proof. unfold planned. quiet_tac. Qed.
Lemma planned_ok phase actionID record intent w u w' a : planned phase actionID record intent w = (Ok u, w') →
  sr_domain record = dom → aa_phase a = phase → aa_action a = actionID →
  phase ∈ ["once"; "startup"]%string → in_order dom record intent a (w_disk w).
Proof.
  unfold planned. intros Hp Hd Hph Hid Hin.
  assert ((phase =s "once") || (phase =s "startup") = true) as Hauto
    by (rewrite !elem_of_cons, elem_of_nil in Hin; by destruct Hin as [->|[->|[]]]).
  rewrite Hauto in Hp. ok_inv. pose proof (listActionAttempts_ok _ _ _ _ Ha) as Hlist.
  apply plan_exact in Ha0 as [_ (before & Hsteps & Hb & _)]. destruct a1 as [|s pending]; [done|].
  apply orb_false_iff in Hp as [Hp1%neqs_false Hp2%neqs_false]. exists before, s, pending.
  split_and!; [done|congruence|congruence|]. intros s' Hs'. destruct (Hb _ Hs') as (prior & Hpr & Hsv & Hst).
  destruct (Hlist _ Hpr) as (id & Hat). rewrite Hd in Hat. eauto.
Qed.
Lemma in_order_reserved record intent a k : k !! attempt_key a = None → in_order dom record intent a k →
  in_order dom record intent a (attempt_disk a k).
Proof.
  intros Hf (before & s & after & Hs & Hp & Hi & Hb). exists before, s, after. split_and!; [done..|].
  intros s' Hin. destruct (Hb _ Hin) as (id & prior & Hat & Hsv). exists id, prior. split; [|done].
  rewrite attempt_written_ne; [done|]. intros [= E1 E2]. destruct (proj1 (view_Some _ _ _ _ _) Hat) as (f & Hfile & _).
  unfold attempt_key in Hf. congruence.
Qed.
End runs.

Section operations.
Context {B : Type} {H : Host B} {E : Env} {D : Digests}.
Implicit Types (w : world B) (L : list string).

Definition for_step (phase actionID : string) (a : ActionAttempt) : Prop := aa_phase a = phase ∧ aa_action a = actionID.
Definition for_attempt (id : string) (a : ActionAttempt) : Prop := aa_attempt a = id.

Lemma proved_ready_cons b s (o : list step) : proved_ready 0 b o → proved_ready 1 b (s :: o).
Proof.
  intros (later & sn & ss & earlier & snapshot & now & -> & Hl & Hr). destruct later; [|cbn in Hl; lia].
  exists [s], sn, ss, earlier, snapshot, now. split; [done|split; [cbn; lia|apply Hr]].
Qed.
Lemma proved_ready_later b (o : list step) : proved_ready 0 b o → proved_ready 1 b o.
Proof. intros (later & sn & ss & earlier & snapshot & now & -> & Hl & Hr). exists later, sn, ss, earlier, snapshot, now. split; [done|split; [lia|apply Hr]]. Qed.
Lemma wp_runReserved dom name L phase actionID record intent a argv w :
  both_locked dom name L → aa_domain a = dom → aa_session_name a = name → for_step phase actionID a → steady L w →
  sendable dom name false (startBinding record) (requestOf a "tart" argv) (w_disk w) (w_trace w) record a intent →
  Forall (repeats_nothing (false, requestOf a "tart" argv)) (requests (w_trace w)) →
  wp (run_steps dom name) (runReserved (startBinding record) (requestOf a "tart" argv) a)
    (ends dom (for_step phase actionID) ActionAttemptSucceeded L) w.
Proof.
  intros Hb Hd Hn Hab Hw Hse Hfresh.
  assert (on_disk dom a (w_disk w)) as Hon.
  { pose proof (se_attempt _ _ _ _ _ _ _ _ _ _ Hse) as Hat. pose proof (attempt_at_ok _ _ _ _ _ Hat) as (_ & Hs & _).
    apply on_disk_self. by rewrite Hs. }
  assert (∀ e w', steady L w' → on_disk dom a (w_disk w') → wp (run_steps dom name) (indeterminateAction a e)
    (ends dom (for_step phase actionID) ActionAttemptSucceeded L) w') as Hfb by (intros; by apply wp_indeterminate).
  unfold runReserved. apply wp_or_return, wp_wrap. eapply (wp_send dom name L); [exact Hse|by intros _|done|done|].
  intros [receipt|e] s w' Hw' Hk Ht Hs; [|by apply Hfb; [|rewrite Hk]].
  eapply wp_recorded; [done..|exact Ht|exact Hs|done|by rewrite Hk|done].
Qed.
Lemma wp_executeLocked dom name L phase actionID record w :
  both_locked dom name L → steady L w → session_at dom name (w_disk w) = Some record →
  wp (run_steps dom name) (executeLocked phase actionID dom name record)
    (ends dom (for_step phase actionID) ActionAttemptSucceeded L) w.
Proof.
  intros Hb Hw Hrec. pose proof (session_at_ids _ _ _ _ Hrec) as [Hdom Hname].
  assert (∀ e w', steady L w' → ends dom (for_step phase actionID) ActionAttemptSucceeded L (Er e) w') as Herr by done.
  unfold executeLocked. wp_guard as Hg by by apply Herr. repeat (apply orb_false_iff in Hg as [Hg ?]).
  wp_read as u n1 Hr by by apply Herr. apply RequireNoRebuild_ok in Hr.
  wp_read as raw n2 Hi by by apply Herr. apply LoadRecipeIntent_ok in Hi as (intent & Hi & Hdec).
  apply wp_bind, wp_lift. rewrite Hdec. cbv zeta.
  wp_guard as Hargv by by apply Herr.
  fold (planned phase actionID record intent (B := B)).
  apply wp_bind, wp_quiet; [apply quiet_planned|]. intros [[]|e] n3 Hp; [|by apply Herr].
  apply wp_bind, wp_wrap, wp_host_ask. destruct (host_newID _) as [[id|e] h]; [|by apply Herr].
  set (a := reservedAttempt record name actionID phase id).
  apply wp_bind, wp_wrap, wp_lift. destruct (EncodeActionRequest _) as [enc|e]; [|by apply Herr].
  apply wp_bind, (wp_requireFreshActionReady dom name L); [done| |intros; by apply Herr].
  intros w1 Hw1 Hk1 _ Hreq1 Hready.
  apply wp_bind, wp_ReserveActionAttempt; [|by intros].
  intros n4 Hres. destruct (ra_running _ _ Hres) as (record' & Hrec' & Hm).
  assert (record' = record) as -> by (cbn in Hrec'; rewrite Hdom, Hk1 in Hrec'; cbn in Hrec'; congruence).
  assert (steady L (did (reserve_event a) (attempt_disk a (w_disk w1)) (retick n4 w1))) as Hs2.
  { split; [apply Hw1|]. apply (consistent_reserved _ _ _ Hres), Hw1. }
  split.
  { split; [|by intros ? ? ? ?]. split; [destruct Hw1 as [-> _]; apply Hb|]. exists a. by split_and!. }
  intros [[]|e]; [|by apply Herr]. apply neqs_false in H2. rewrite H2.
  apply (wp_runReserved dom name L phase actionID record intent); [done..| |].
  - change (sendable dom name false (startBinding record) (requestOf a "tart" (stepArgv intent actionID phase)) (attempt_disk a (w_disk w1))
      (Step (reserve_event a) (w_disk w1) (attempt_disk a (w_disk w1)) (w_locks w1) :: w_trace w1) record a intent).
    constructor; try done.
    + by rewrite session_at_attempt, Hk1.
    + pose proof (attempt_written _ (w_disk w1) (ra_valid _ _ Hres)) as Hat. cbn [a reservedAttempt aa_domain aa_session aa_attempt] in Hat. by rewrite Hdom in Hat.
    + by rewrite intent_at_attempt, Hk1.
    + split; [done|]. cbn. by destruct (stepArgv intent actionID phase).
    + by rewrite rebuilds_attempt, Hk1.
    + by apply proved_ready_cons.
    + intros _. by eexists _, _.
    + intros _ Hph. apply in_order_reserved; [apply Hres|]. rewrite Hk1. exact (planned_ok dom _ _ _ _ _ _ _ a Hp Hdom eq_refl eq_refl Hph).
  - cbn. destruct Hw1 as [_ Hc]. by eapply fresh_run.
Qed.

Lemma matches_identity a record : actionMatchesRunningRecord a record = true →
  aa_domain a = sr_domain record ∧ aa_session_name a = sr_name record ∧ br_kind (sr_backend record) = "tart".
Proof. unfold actionMatchesRunningRecord. rewrite !andb_true_iff, !eqs_true. naive_solver. Qed.
Lemma matches_stopped a record : actionMatchesStoppedRecord a record = true →
  aa_domain a = sr_domain record ∧ aa_session_name a = sr_name record.
Proof. unfold actionMatchesStoppedRecord. rewrite !andb_true_iff, !eqs_true. naive_solver. Qed.

Lemma wp_resend dom name L id record intent a argv m1 m2 m3 m4 w :
  both_locked dom name L → aa_domain a = dom → aa_session_name a = name → for_attempt id a → steady L w →
  sendable dom name true (startBinding record) (requestOf a "tart" argv) (w_disk w) (w_trace w) record a intent →
  wp (run_steps dom name)
    (or_return (with_error a) (wrap m1 (RetryAction (startBinding record) (requestOf a "tart" argv))) (λ receipt,
     or_return (with_error a) (wrap m2 (lift (EncodeActionReceipt (requestOf a "tart" argv) receipt))) (λ bytes,
     or_return (with_error a) (wrap m3 (requireFreshActionReady (startBinding record))) (λ _,
     or_return (with_error a) (wrap m4 (advanceActionAttempt a (succeededAttempt a bytes))) (λ _, ret (succeededAttempt a bytes, None))))))
    (ends dom (for_attempt id) ActionAttemptSucceeded L) w.
Proof.
  intros Hb Hd Hn Hab Hw Hse.
  assert (on_disk dom a (w_disk w)) as Hon.
  { pose proof (se_attempt _ _ _ _ _ _ _ _ _ _ Hse) as Hat. pose proof (attempt_at_ok _ _ _ _ _ Hat) as (_ & Hs & _).
    apply on_disk_self. by rewrite Hs. }
  apply wp_or_return, wp_wrap. eapply (wp_send dom name L); [exact Hse|done|done|done|].
  intros [receipt|e] s w' Hw' Hk Ht Hs; [|by apply wp_with_error; [..|rewrite Hk]].
  eapply wp_recorded; [done..|exact Ht|exact Hs|done|by rewrite Hk|]. intros. by apply wp_with_error.
Qed.
Lemma wp_retryLocked dom name L attemptID record w :
  both_locked dom name L → steady L w → session_at dom name (w_disk w) = Some record →
  wp (run_steps dom name) (retryLocked attemptID dom name record) (ends dom (for_attempt attemptID) ActionAttemptSucceeded L) w.
Proof.
  intros Hb Hw Hrec. pose proof (session_at_ids _ _ _ _ Hrec) as [Hdom Hname].
  unfold retryLocked. wp_read as a n1 Ha by done. apply LoadActionAttempt_ok in Ha as [Hat _].
  pose proof (attempt_at_ok _ _ _ _ _ Hat) as (Hd & Hs & Hid & _).
  assert (on_disk dom a (w_disk w)) as Hon by (apply on_disk_self; by rewrite Hs, Hid).
  assert (∀ state receipt e w', steady L w' → on_disk dom a (w_disk w') → wp (run_steps dom name) (with_error (set_outcome state receipt a) e)
    (ends dom (for_attempt attemptID) ActionAttemptSucceeded L) w') as Hfb by (intros; by apply wp_with_error).
  assert (a = set_outcome (aa_state a) (aa_receipt a) a) as Ha by by destruct a.
  assert (∀ e w', steady L w' → w_disk w' = w_disk w → wp (run_steps dom name) (with_error a e)
    (ends dom (for_attempt attemptID) ActionAttemptSucceeded L) w') as Hfb0 by (intros e w' Hw' Hk; rewrite Ha; apply Hfb; [done|by rewrite Hk]).
  destruct (_ && _) eqn:Hst; [by apply Hfb0|]. destruct (actionMatchesRunningRecord a record) eqn:Hm; cbn [negb]; [|by apply Hfb0].
  destruct (matches_identity _ _ Hm) as (Had & Han & Hkind). rewrite Hkind.
  apply wp_or_return, wp_quiet; [eauto with quiet|]. intros [?|e] n2 Hr; [|by apply Hfb0]. apply RequireNoRebuild_ok in Hr.
  apply wp_or_return, wp_quiet; [eauto with quiet|]. intros [raw|e] n3 Hi; [|by apply Hfb0].
  apply LoadRecipeIntent_ok in Hi as (intent & Hi & Hdec). apply wp_or_return, wp_lift. rewrite Hdec. cbv zeta.
  destruct (isNone _ || _) eqn:Hargv; [by apply Hfb0|]. apply orb_false_iff in Hargv as [Hargv _].
  apply wp_or_return, wp_lift. destruct (EncodeActionRequest _) as [enc|e]; [|by apply Hfb0].
  apply wp_or_return, (wp_requireFreshActionReady dom name L); [done| |intros; by apply Hfb0].
  intros w1 Hw1 Hk1 _ _ Hready. change (w_disk w1 = w_disk w) in Hk1.
  assert (∀ v w2, steady L w2 → w_disk w2 = w_disk w ∨ w_disk w2 = attempt_disk v (w_disk w) →
    (∃ state receipt, v = set_outcome state receipt a) → aa_state v = ActionAttemptIndeterminate →
    attempt_at dom (sr_id record) attemptID (w_disk w2) = Some v → proved_ready 1 (startBinding record) (w_trace w2) →
    sendable dom name true (startBinding record) (requestOf v "tart" (stepArgv intent (aa_action v) (aa_phase v)))
      (w_disk w2) (w_trace w2) record v intent) as Hse.
  { intros v w2 Hw2 Hk2 (st & rc & ->) Hind Hat2 Hp2. constructor; try done.
    - destruct Hk2 as [-> | ->]; [|rewrite session_at_attempt]; done.
    - cbn [set_outcome aa_attempt]. by rewrite Hid.
    - destruct Hk2 as [-> | ->]; [|rewrite intent_at_attempt]; done.
    - split; [done|]. cbn. by destruct (stepArgv intent (aa_action a) (aa_phase a)).
    - destruct Hk2 as [-> | ->]; [|rewrite rebuilds_attempt]; done. }
  assert (aa_domain a = dom ∧ aa_session_name a = name ∧ for_attempt attemptID a) as (Hd' & Hn' & Hfor) by (split_and!; congruence).
  apply wp_or_return, wp_wrap. destruct (aa_state a =s ActionAttemptReserved) eqn:Hres.
  - apply (wp_outcome dom name L); [done..|by rewrite Hk1|done| |].
    + intros w2 Hw2 Hat2 Hwr. rewrite Hs, Hid in Hat2.
      apply (wp_resend dom name L attemptID record intent (set_outcome ActionAttemptIndeterminate "" a)); [done..|].
      refine (Hse (set_outcome ActionAttemptIndeterminate "" a) w2 _ _ _ _ _ _); [done| |by eexists _, _|done|done|].
      * destruct Hwr as [[-> _]|(s & -> & _)]; rewrite Hk1; auto.
      * destruct Hwr as [[_ ->]|(s & _ & ->)]; [by apply proved_ready_later|by apply proved_ready_cons].
    + intros e w2 Hw2 Hon2. rewrite Ha. by apply Hfb.
  - apply wp_ret. apply (wp_resend dom name L attemptID record intent a); [done..|].
    apply (Hse a w1); [done|by left|by eexists _, _|..|by rewrite Hk1|by apply proved_ready_later].
    apply andb_false_iff in Hst as [Hst|Hst]; [discriminate|by apply neqs_false in Hst].
Qed.
Lemma wp_skipLocked dom name L attemptID record w :
  both_locked dom name L → steady L w → session_at dom name (w_disk w) = Some record →
  wp (run_steps dom name) (skipLocked attemptID dom name record) (ends dom (for_attempt attemptID) ActionAttemptSkipped L) w.
Proof.
  intros Hb Hw Hrec. pose proof (session_at_ids _ _ _ _ Hrec) as [Hdom Hname].
  unfold skipLocked. wp_read as a n1 Ha by done. apply LoadActionAttempt_ok in Ha as [Hat _].
  pose proof (attempt_at_ok _ _ _ _ _ Hat) as (Hd & Hs & Hid & _).
  assert (on_disk dom a (w_disk w)) as Hon by (apply on_disk_self; by rewrite Hs, Hid).
  destruct (actionMatchesStoppedRecord a record) eqn:Hm; cbn [negb]; [|by apply wp_with_error].
  destruct (matches_stopped _ _ Hm) as (Had & Han).
  destruct (aa_state a =s ActionAttemptSkipped) eqn:Hsk.
  { apply eqs_true in Hsk. apply wp_ret. split; [done|]. split_and!; [by rewrite Hs, Hid|done|done]. }
  destruct (_ && _); [by apply wp_with_error|].
  apply wp_or_return, wp_wrap, (wp_outcome dom name L); [done|congruence|congruence|done|done|done| |].
  - intros w2 Hw2 Hat2 _. apply wp_ret. split; [done|]. by split_and!.
  - intros e w2 Hw2 Hon2. by apply wp_with_error.
Qed.

(** *** The operations *)

Lemma steady_took {AP : AttemptProtocol E} L scope w w' : took scope w w' → steady L w → steady (scope :: L) w'.
Proof.
  intros [_ Hl _ [n Hd] Ht] [HL Hk]. split; [by rewrite Hl, HL|]. rewrite Hd, Ht. by apply consistent_others.
Qed.
Lemma wp_held {AP : AttemptProtocol E} dom name about final L scope (m : M B outcome) w :
  scope ∉ L → wp (run_steps dom name) m (ends dom about final (scope :: L)) w →
  wp (run_steps dom name) (deferred join_outcome scope m) (ends dom about final L) w.
Proof.
  intros Hn Hm. apply wp_deferred. eapply wp_conseq; [exact Hm|]. intros r w1 [[HL Hk] Hr].
  apply (wp_Release_held _ _ L); [eauto with go|done|done|]. intros r2 w2 HL2 Hd2 _ Ht2.
  split; [split; [done|by rewrite Hd2, Ht2]|]. rewrite Hd2.
  destruct r as [[a [e|]]|e], r2 as [[]|e2]; try done. destruct Hr as (Hat & _ & Hab). split; [|done]. by apply on_disk_self.
Qed.
Lemma wp_withActionLocks {AP : AttemptProtocol E} dom name about final body L w :
  (∀ L' record w', both_locked dom name L' → steady L' w' → session_at dom name (w_disk w') = Some record →
     wp (run_steps dom name) (body dom name record) (ends dom about final L') w') →
  steady L w → wp (run_steps dom name) (withActionLocks dom name body) (ends dom about final L) w.
Proof.
  intros Hbody Hw. unfold withActionLocks. apply wp_bind, wp_wrap, wp_Acquire_took; [eauto with go| |by intros].
  intros w1 Ht1. pose proof (steady_took L _ _ _ Ht1 Hw) as Hw1. apply wp_held; [destruct Hw as [<- _]; apply Ht1|].
  apply wp_bind, wp_wrap, wp_AcquireSession; [eauto with go| |by intros].
  intros w2 Ht2. pose proof (steady_took _ _ _ _ Ht2 Hw1) as Hw2. apply wp_held; [destruct Hw1 as [<- _]; apply Ht2|].
  wp_read as record n Hl by done. apply LoadRecord_ok in Hl. apply Hbody; [|done|done].
  split; set_solver.
Qed.

(** The configured domain and the session name are admitted as they are. *)
Ltac admit_names tac :=
  apply wp_bind, wp_lift;
  lazymatch goal with |- context [admitDomain ?d] =>
    let E := fresh in destruct (admitDomain d) as [?|?] eqn:E; [|tac]; apply admitDomain_ok in E as [<- _] end;
  apply wp_bind; try apply wp_wrapv; apply wp_lift;
  lazymatch goal with |- context [Session.ParseName ?n] =>
    let E := fresh in destruct (Session.ParseName n) as [?|?] eqn:E; [|tac]; apply ParseName_ok in E as [-> _] end.

(** The requests and files of one operation, wherever it started. *)
Lemma wp_ExecuteAction {AP : AttemptProtocol E} s rawName phase actionID L w : steady L w →
  wp (run_steps (dc_ID (av_domain s)) rawName) (ExecuteAction s rawName phase actionID)
    (ends (dc_ID (av_domain s)) (for_step phase actionID) ActionAttemptSucceeded L) w.
Proof.
  intros Hw. unfold ExecuteAction. wp_guard as _ by done. admit_names done.
  wp_guard as _ by done. apply wp_withActionLocks; [|done]. intros. by apply wp_executeLocked.
Qed.
Lemma wp_RetryActionAttempt {AP : AttemptProtocol E} s rawName attemptID L w : steady L w →
  wp (run_steps (dc_ID (av_domain s)) rawName) (RetryActionAttempt s rawName attemptID)
    (ends (dc_ID (av_domain s)) (for_attempt attemptID) ActionAttemptSucceeded L) w.
Proof.
  intros Hw. unfold RetryActionAttempt. wp_guard as _ by done. admit_names done.
  wp_guard as _ by done. apply wp_withActionLocks; [|done]. intros. by apply wp_retryLocked.
Qed.
Lemma wp_SkipAction {AP : AttemptProtocol E} s rawName attemptID L w : steady L w →
  wp (run_steps (dc_ID (av_domain s)) rawName) (SkipAction s rawName attemptID)
    (ends (dc_ID (av_domain s)) (for_attempt attemptID) ActionAttemptSkipped L) w.
Proof.
  intros Hw. unfold SkipAction. wp_guard as _ by done. admit_names done.
  wp_guard as _ by done. apply wp_withActionLocks; [|done]. intros. by apply wp_skipLocked.
Qed.

(** *** The automatic runner *)

(** Nothing of the bound recipe is left to run. *)
Definition all_settled (dom : string) (record : SessionRecord) (k : disk) : Prop :=
  sr_intent record = "" ∨ ∃ intent, intent_at (sr_intent record) k = Some intent ∧
    ∀ s, s ∈ automaticSteps intent → ∃ id a, attempt_at dom (sr_id record) id k = Some a ∧ serves record s a ∧
      aa_state a ∈ [ActionAttemptSucceeded; ActionAttemptSkipped].
Definition plan_read (dom name : string) (r : res (SessionRecord * list Recipe.Step)) (k : disk) : Prop :=
  ∀ record, r = Ok (record, []) → session_at dom name k = Some record ∧ all_settled dom record k.
Lemma wp_LoadAutomaticActionPlan {AP : AttemptProtocol E} cfg rawName L w : steady L w →
  wp (run_steps (dc_ID cfg) rawName) (LoadAutomaticActionPlan cfg rawName)
    (λ r w', steady L w' ∧ plan_read (dc_ID cfg) rawName r (w_disk w')) w.
Proof.
  intros Hw. set (Q := λ L0 (r : res (SessionRecord * list Recipe.Step)) w', steady L0 w' ∧ plan_read (dc_ID cfg) rawName r (w_disk w')).
  assert (∀ L0 e w', steady L0 w' → Q L0 (Er e) w') as Herr by (intros; by split).
  unfold LoadAutomaticActionPlan. admit_names ltac:(by apply Herr).
  apply wp_bind, wp_wrap, wp_AcquireSession; [eauto with go| |by intros; apply Herr].
  intros w1 Ht1. pose proof (steady_took L _ _ _ Ht1 Hw) as Hw1. apply wp_deferred. eapply wp_conseq with (Q := Q (Lock.session_scope (dc_ID cfg) rawName :: L)).
  - wp_read as record n Hrec by by apply Herr. apply LoadRecord_ok in Hrec. pose proof (session_at_ids _ _ _ _ Hrec) as [Hdom _].
    destruct (sr_intent record =s "") eqn:Hi.
    { apply wp_ret. split; [done|]. intros r [= <-]. split; [done|]. left. by apply eqs_true. }
    wp_read as raw n2 Hraw by by apply Herr. apply LoadRecipeIntent_ok in Hraw as (intent & Hint & Hdec).
    apply wp_bind, wp_lift. rewrite Hdec. cbn beta iota.
    apply wp_bind, wp_wrap, wp_quiet; [eauto with quiet|]. intros [attempts|e] n3 Hlist; [|by apply Herr].
    apply wp_bind, wp_lift. destruct (PlanAutomaticActions record intent attempts) as [pending|e] eqn:Hplan; [|by apply Herr].
    apply wp_ret. split; [done|]. intros r [= <- ->]. split; [done|]. right. exists intent. split; [done|].
    apply plan_exact in Hplan as [_ (before & Hs & Hb & _)]. rewrite app_nil_r in Hs. rewrite Hs. intros s Hin.
    destruct (Hb _ Hin) as (a & Ha & Hsv & Hst). destruct (listActionAttempts_ok _ _ _ _ Hlist _ Ha) as (id & Hat).
    rewrite Hdom in Hat. eauto.
  - intros r w2 [[HL Hk] Hr]. apply (wp_Release_held _ _ L); [eauto with go|done|destruct Hw as [<- _]; apply Ht1|].
    intros r2 w3 HL3 Hd3 _ Ht3. split; [split; [done|by rewrite Hd3, Ht3]|]. rewrite Hd3.
    destruct r as [p|e], r2 as [[]|e2]; try done.
Qed.

(** What the runner returns without an error. *)
Definition ran_all (dom : string) (started : SessionRecord) (r : res (list ActionAttempt * option error)) (k : disk) : Prop :=
  ∀ completed, r = Ok (completed, None) →
    session_at dom (sr_name started) k = Some started ∧ all_settled dom started k ∧ Forall (λ a, aa_state a = ActionAttemptSucceeded) completed.
Lemma wp_automaticLoop {AP : AttemptProtocol E} s started rounds completed L w : steady L w →
  Forall (λ a, aa_state a = ActionAttemptSucceeded) completed →
  wp (run_steps (dc_ID (av_domain s)) (sr_name started)) (automaticLoop s started rounds completed)
    (λ r w', steady L w' ∧ ran_all (dc_ID (av_domain s)) started r (w_disk w')) w.
Proof.
  revert completed w. induction rounds as [|rounds IH]; intros completed w Hw Hdone; cbn [automaticLoop];
    apply wp_or_return, wp_wrap; (eapply wp_conseq; [by apply (wp_LoadAutomaticActionPlan _ _ L)|]);
    intros [[current pending]|e] w1 [Hw1 Hp]; try (by apply wp_ret); cbn beta iota;
    (case_bool_decide as Hc; [by apply wp_ret|subst current]);
    (destruct pending as [|step pending];
      [apply wp_ret; split; [done|]; intros c [= <-]; destruct (Hp _ eq_refl); by split_and!|]); [by apply wp_ret|].
  apply wp_bind, wp_attempt. eapply wp_conseq; [by apply (wp_ExecuteAction _ _ _ _ L)|].
  intros r w2 [Hw2 Hr]. destruct r as [[a [e|]]|e]; cbn beta iota zeta; try (by apply wp_ret).
  destruct (_ || _) eqn:Hbad; [by apply wp_ret|]. apply IH; [done|]. apply orb_false_iff in Hbad as [Hbad _].
  apply orb_false_iff in Hbad as [Hbad%neqs_false _]. case_match; [|done]. apply Forall_app. split; [done|]. by constructor.
Qed.
End operations.

(** ** Sequences of calls *)

Inductive action_call :=
| CallExecute (rawName phase actionID : string)
| CallRetry (rawName attemptID : string)
| CallSkip (rawName attemptID : string)
| CallRun (started : SessionRecord).
Definition call_name (c : action_call) : string :=
  match c with CallExecute n _ _ | CallRetry n _ | CallSkip n _ => n | CallRun started => sr_name started end.

Section calls.
Context {B : Type} {H : Host B} {E : Env} {D : Digests}.
Implicit Types (w : world B).

(** The world after one call, and after several, of possibly different services. *)
Definition perform (s : ActionService) (c : action_call) w : world B :=
  match c with
  | CallExecute n phase id => (ExecuteAction s n phase id w).2
  | CallRetry n id => (RetryActionAttempt s n id w).2
  | CallSkip n id => (SkipAction s n id w).2
  | CallRun started => (RunAutomaticActions s started w).2
  end.
Fixpoint perform_all (calls : list (ActionService * action_call)) w : world B :=
  match calls with
  | [] => w
  | (s, c) :: rest => perform_all rest (perform s c w)
  end.

Lemma requests_app (new base : list step) : requests (new ++ base) = requests new ++ requests base.
Proof. unfold requests. by rewrite omap_app. Qed.
Lemma requests_pairs dom name new base : trace_ok (run_steps dom name) new base →
  ForallOrdPairs repeats_nothing (requests base) → ForallOrdPairs repeats_nothing (requests (new ++ base)).
Proof.
  induction new as [|st new IH]; [done|]. intros [[_ Hst] Hnew] Hb. specialize (IH Hnew Hb).
  cbn [app]. unfold requests at 1. cbn [omap list_omap]. fold (requests (new ++ base)).
  destruct (st_event st) eqn:Hev; try done. constructor; [|done]. exact (Hst _ _ _ _ Hev).
Qed.
Lemma wp_RunAutomaticActions {AP : AttemptProtocol E} s started L w : steady L w →
  wp (run_steps (dc_ID (av_domain s)) (sr_name started)) (RunAutomaticActions s started)
    (λ r w', steady L w' ∧ ran_all (dc_ID (av_domain s)) started r (w_disk w')) w.
Proof.
  intros Hw. unfold RunAutomaticActions. wp_guard as _ by done. wp_guard as _ by done. by apply wp_automaticLoop.
Qed.
Lemma perform_steps {AP : AttemptProtocol E} s c L w : steady L w →
  steady L (perform s c w) ∧ ∃ new, w_trace (perform s c w) = new ++ w_trace w ∧
    trace_ok (run_steps (dc_ID (av_domain s)) (call_name c)) new (w_trace w).
Proof.
  intros Hw. assert (∀ A (m : M B A) (Q : res A → world B → Prop), wp (run_steps (dc_ID (av_domain s)) (call_name c)) m Q w →
    (∀ r w', Q r w' → steady L w') → steady L (m w).2 ∧ ∃ new, w_trace (m w).2 = new ++ w_trace w ∧
      trace_ok (run_steps (dc_ID (av_domain s)) (call_name c)) new (w_trace w)) as Hwp.
  { intros A m Q Hm HQ. unfold wp in Hm. destruct (m w) as [r w']. destruct Hm as [Hm Ht]. split; [by eapply HQ|exact Ht]. }
  destruct c; cbn [perform call_name] in *; eapply Hwp;
    first [by apply (wp_ExecuteAction _ _ _ _ L)|by apply (wp_RetryActionAttempt _ _ _ L)|by apply (wp_SkipAction _ _ _ L)
          |by apply (wp_RunAutomaticActions _ _ L)|by intros r w' []].
Qed.
Lemma perform_all_pairs {AP : AttemptProtocol E} calls L w : steady L w → ForallOrdPairs repeats_nothing (requests (w_trace w)) →
  steady L (perform_all calls w) ∧ ForallOrdPairs repeats_nothing (requests (w_trace (perform_all calls w))).
Proof.
  revert w. induction calls as [|[s c] calls IH]; intros w Hw Hp; [done|]. cbn [perform_all].
  destruct (perform_steps s c L w Hw) as (Hw' & new & Ht & Hn). apply IH; [done|]. rewrite Ht. by eapply requests_pairs.
Qed.

(** ** Properties *)

(** C14: whatever fails, whatever the guest and the supervisor answer, and
    whatever the holders of other locks do that respects the attempt protocol,
    one action call (an explicit execution, a retry, a skip, or a whole
    automatic run) only records attempts of its own session, under the session's
    transition and session locks, by an exclusive reservation of a name that was
    free or by a step of the documented life from exactly the attempt that was on
    disk just before (so a succeeded, failed or skipped attempt is never
    overwritten), a success only with the digest of the exact receipt the
    guest just answered and a proof of readiness after it; a request goes to the
    guest only under both locks, for an attempt that is durably reserved (just
    before, when it is not a retry) or indeterminate, bound to the running record
    and no rebuild pending, with the arguments of the stored recipe's step, after a
    fresh proof that this very generation is ready, a first automatic request only
    once every earlier automatic step is settled; and a request for a run that was
    requested before is a retry of that same attempt. The locks are given back and
    the attempts stay consistent with the requests. *)
Theorem action_calls_safe {AP : AttemptProtocol E} (s : ActionService) (c : action_call) w
    (Hw : consistent (w_disk w) (requests (w_trace w))) :
  let w' := perform s c w in
  (∃ new, w_trace w' = new ++ w_trace w ∧ trace_ok (run_steps (dc_ID (av_domain s)) (call_name c)) new (w_trace w)) ∧
  w_locks w' = w_locks w ∧ consistent (w_disk w') (requests (w_trace w')).
Proof. destruct (perform_steps s c (w_locks w) w) as ([Hl Hk] & Ht); [by split|]. by split_and!. Qed.

(** C15: no action is replayed: after any sequence of action calls, of any
    services and sessions, under every failure and every interference that
    respects the attempt protocol, any two requests ever sent for the same action
    of the same system (and the same generation, but for once steps) carry one
    attempt identifier, and the later one is an explicit retry; so at most one
    request of a run is not a retry. *)
Theorem actions_never_replay {AP : AttemptProtocol E} (calls : list (ActionService * action_call)) (k : disk) (b : B)
    (Hk : single_attempts k) :
  let w' := perform_all calls (worldOf k b) in
  ForallOrdPairs repeats_nothing (requests (w_trace w')) ∧ single_attempts (w_disk w').
Proof.
  destruct (perform_all_pairs calls [] (worldOf k b)) as [[_ [Hs _]] Hp]; [by split|by constructor|]. by split.
Qed.

(** What an action call returns is what the registry holds: without an
    error, the attempt returned is on disk, whole, for the step or the attempt
    asked for, and is succeeded (skipped, for a skip); along with an error, the
    registry still holds that attempt with some outcome. *)
Theorem action_results {AP : AttemptProtocol E} (s : ActionService) (rawName phase actionID attemptID : string) w
    (Hw : consistent (w_disk w) (requests (w_trace w))) :
  let dom := dc_ID (av_domain s) in
  (let (r, w') := ExecuteAction s rawName phase actionID w in result_on dom (for_step phase actionID) ActionAttemptSucceeded r (w_disk w')) ∧
  (let (r, w') := RetryActionAttempt s rawName attemptID w in result_on dom (for_attempt attemptID) ActionAttemptSucceeded r (w_disk w')) ∧
  (let (r, w') := SkipAction s rawName attemptID w in result_on dom (for_attempt attemptID) ActionAttemptSkipped r (w_disk w')).
Proof.
  assert (steady (w_locks w) w) as Hst by by split.
  split_and!; [pose proof (wp_ExecuteAction s rawName phase actionID _ w Hst) as Hm|pose proof (wp_RetryActionAttempt s rawName attemptID _ w Hst) as Hm
    |pose proof (wp_SkipAction s rawName attemptID _ w Hst) as Hm]; unfold wp in Hm; case_match; apply Hm.
Qed.

(** An automatic run that returns without an error has settled
    everything: the session's record on disk is still the started one, every
    once and startup step of its recipe has a succeeded or skipped attempt on
    this system in the registry, and all the attempts it returns succeeded. *)
Theorem automatic_run_settles {AP : AttemptProtocol E} (s : ActionService) (started : SessionRecord) w completed w'
    (Hw : consistent (w_disk w) (requests (w_trace w))) (Hrun : RunAutomaticActions s started w = (Ok (completed, None), w')) :
  session_at (dc_ID (av_domain s)) (sr_name started) (w_disk w') = Some started ∧
  all_settled (dc_ID (av_domain s)) started (w_disk w') ∧ Forall (λ a, aa_state a = ActionAttemptSucceeded) completed.
Proof.
  pose proof (wp_RunAutomaticActions s started (w_locks w) w) as Hm. unfold wp in Hm. rewrite Hrun in Hm.
  by destruct Hm as [[_ Hr] _]; [split|apply Hr].
Qed.
End calls.

(** ** Evaluations *)

Section evaluations.
#[local] Existing Instance quietEnv.
#[local] Existing Instance labHost.
#[local] Existing Instance fixedDigests.
Definition lab_action_config : DomainConfig := mkDomainConfig "work" "/var/lib/boxwarden/work" None.
Definition lab_actions : ActionService := mkActionService false lab_action_config true true true.
(** The automatic run, then the same step by hand, then a retry of a settled attempt. *)
Definition lab_calls : list (ActionService * action_call) :=
  [(lab_actions, CallRun action_session); (lab_actions, CallExecute "dev" "once" "setup");
   (lab_actions, CallRetry "dev" "11111111-2222-4333-8444-555555555555")].
Lemma action_disk_single : single_attempts action_disk.
Proof.
  assert (∀ dom sid id, attempt_at dom sid id action_disk = None) as Hn.
  { intros. unfold attempt_at, view, action_disk. by rewrite lookup_insert_ne, lookup_singleton_ne by done. }
  intros dom sid id id' a a' Ha. by rewrite Hn in Ha.
Qed.
Lemma action_calls_safe_witness :
  consistent action_disk [] ∧ consistent (w_disk (perform lab_actions (CallRun action_session) action_world))
    (requests (w_trace (perform lab_actions (CallRun action_session) action_world))) ∧
  length (requests (w_trace (perform lab_actions (CallRun action_session) action_world))) = 2%nat.
Proof.
  assert (consistent action_disk []) as Hc by (split; [exact action_disk_single|constructor]).
  split; [exact Hc|]. split; [apply (action_calls_safe lab_actions (CallRun action_session) action_world Hc)|vm_compute; reflexivity].
Defined.
Lemma actions_never_replay_witness :
  ForallOrdPairs repeats_nothing (requests (w_trace (perform_all lab_calls action_world))) ∧
  (λ r, (r.1, aq_action r.2)) <$> requests (w_trace (perform_all lab_calls action_world)) = [(false, "greet"); (false, "setup")]%string.
Proof.
  pose proof (actions_never_replay lab_calls action_disk (w_host action_world) action_disk_single) as Hr. cbv zeta in Hr.
  change (worldOf action_disk (w_host action_world)) with action_world in Hr.
  split; [exact (proj1 Hr)|vm_compute; reflexivity].
Defined.
Lemma action_results_witness :
  let (r, w') := ExecuteAction lab_actions "dev" "once" "setup" action_world in
  result_on "work" (for_step "once" "setup") ActionAttemptSucceeded r (w_disk w') ∧ is_ok r = true.
Proof.
  assert (consistent action_disk []) as Hc by (split; [exact action_disk_single|constructor]).
  pose proof (proj1 (action_results lab_actions "dev" "once" "setup" "" action_world Hc)) as Hr.
  assert (is_ok (ExecuteAction lab_actions "dev" "once" "setup" action_world).1 = true) as Ho by (vm_compute; reflexivity).
  destruct (ExecuteAction lab_actions "dev" "once" "setup" action_world) as [r w']. split; [exact Hr|exact Ho].
Defined.
Definition lab_completed : list ActionAttempt :=
  match (RunAutomaticActions lab_actions action_session action_world).1 with Ok (l, _) => l | Er _ => [] end.
Lemma automatic_run_settles_witness :
  let (r, w') := RunAutomaticActions lab_actions action_session action_world in
  r = Ok (lab_completed, None) ∧ length lab_completed = 2%nat ∧ all_settled "work" action_session (w_disk w').
Proof.
  assert (consistent action_disk []) as Hc by (split; [exact action_disk_single|constructor]).
  assert ((RunAutomaticActions lab_actions action_session action_world).1 = Ok (lab_completed, None)) as H1 by (vm_compute; reflexivity).
  assert (length lab_completed = 2%nat) as H2 by (vm_compute; reflexivity).
  destruct (RunAutomaticActions lab_actions action_session action_world) as [r w'] eqn:Hrun. cbn [fst] in H1. subst r.
  pose proof (automatic_run_settles lab_actions action_session action_world lab_completed w' Hc Hrun) as Hr.
  split; [reflexivity|]. split; [exact H2|exact (proj1 (proj2 Hr))].
Defined.
End evaluations.
