(* ===== verification/GuestAction.v ===== *)
(** The guest side of an action, src/internal/guestproto/action_store.go and
    action_exec.go, with the binding manifest of bootstrap.go it checks: claim
    an attempt, run its command once, publish its receipt. Several helper
    processes of one guest may do this at the same time without any lock, so a
    helper is a program over single file-system calls, and a schedule says in
    which order the calls of all helpers happen, which of them fail and how,
    and which helpers never get any further. *)
From S2P Require Import Prelude Ids Json JsonText Recipe GuestProto World.

(** ** The guest's files *)

(** One file of the action store: its bytes, and whether it is a regular file
    of the helper's own user and mode. Its link count is the number of its names. *)
Record inode := mkInode { in_data : string; in_private : bool }.
Record guest := mkGuest {
  g_names : gmap (string * string) nat;       (* (session, name) below action-attempts/ *)
  g_inodes : gmap nat inode;
  g_next : nat;                               (* the number of the next new file *)
  g_dirs : gmap string unit;                  (* the directories, below var/lib/boxwarden *)
  g_unsafe : list string;                     (* paths that fail the privacy checks *)
  g_manifest : option string;                 (* active/management-binding.json *)
  g_log : list (ActionRequest * res unit);    (* the commands run, newest first *)
}.
Definition set_names names (g : guest) : guest :=
  mkGuest names (g_inodes g) (g_next g) (g_dirs g) (g_unsafe g) (g_manifest g) (g_log g).
Definition set_data (fd : nat) (data : string) (g : guest) : guest :=
  mkGuest (g_names g) (alter (λ i, mkInode data (in_private i)) fd (g_inodes g)) (g_next g) (g_dirs g) (g_unsafe g) (g_manifest g) (g_log g).
Definition data_of (fd : nat) (g : guest) : string := match g_inodes g !! fd with Some i => in_data i | None => "" end.
Definition links (ino : nat) (g : guest) : nat := size (filter (λ kv : string * string * nat, kv.2 = ino) (g_names g)).

(** ** File-system calls *)

(** An exclusive creation or link. *)
Inductive exclusive (A : Type) := Made (a : A) | Exists | Failed (e : error).
Arguments Made {A} a.
Arguments Exists {A}.
Arguments Failed {A} e.

(** What Lstat tells of a file: which one it is, whether it is a regular file
    of the helper's own user and mode, and its link count. *)
Record fileinfo := mkInfo { fi_ino : nat; fi_private : bool; fi_links : nat }.

Inductive gop : Type → Type :=
| OContext : gop (res unit)
| OSafe (path : string) : gop (res unit)
| OManifest : gop (res string)
| OLstatDir (path : string) : gop (res bool)
| OMkdir (path : string) : gop (exclusive unit)
| OOpenDir (path : string) : gop (res unit)
| OLstat (session name : string) : gop (res fileinfo)
| OOpenRead (session name : string) : gop (res nat)
| OFstat (fd : nat) : gop (res nat)
| OReadAll (fd : nat) (limit : N) : gop (res string)
| OOpenExcl (session name : string) : gop (exclusive nat)
| OWrite (fd : nat) (data : string) : gop (res unit)
| OSync (fd : nat) : gop (res unit)
| OClose (fd : nat) : gop (res unit)
| OSyncDir (path : string) : gop (res unit)
| OLink (session old new : string) : gop (exclusive unit)
| ORemove (session name : string) : gop (res unit)
| ONonce : gop (res (list Z))
| ORun (request : ActionRequest) : gop (res unit).

(** How one call goes: as it should, without effect, partly (a write stops
    after some bytes), or with its effect and an error; the random bytes; and
    the outcome of the command. *)
Record choice := mkChoice { ch_fault : fault; ch_partial : nat; ch_nonce : nat → Z; ch_answer : res unit }.

Definition plain_call {X} (c : choice) (x : res X) (g : guest) : res X * guest :=
  match ch_fault c with NoFault => (x, g) | _ => (fail "call failed", g) end.
Definition create_file (session name : string) (g : guest) : guest :=
  mkGuest (<[(session, name) := g_next g]> (g_names g)) (<[g_next g := mkInode "" true]> (g_inodes g)) (S (g_next g))
    (g_dirs g) (g_unsafe g) (g_manifest g) (g_log g).
Definition make_dir (path : string) (g : guest) : guest :=
  mkGuest (g_names g) (g_inodes g) (g_next g) (<[path := tt]> (g_dirs g)) (g_unsafe g) (g_manifest g) (g_log g).
Definition info_of (ino : nat) (g : guest) : fileinfo :=
  mkInfo ino (match g_inodes g !! ino with Some i => in_private i | None => false end) (links ino g).
Definition do_op {X} (c : choice) (o : gop X) (g : guest) : X * guest :=
  match o in gop X return X * guest with
  | OContext => plain_call c (Ok tt) g
  | OSafe path => plain_call c (check (negb (existsb (String.eqb path) (g_unsafe g))) "unsafe path") g
  | OManifest => plain_call c (match g_manifest g with Some contents => Ok contents | None => Er ErrNotExist end) g
  | OLstatDir path => plain_call c (match g_dirs g !! path with Some _ => Ok (negb (existsb (String.eqb path) (g_unsafe g))) | None => Er ErrNotExist end) g
  | OMkdir path =>
      match ch_fault c, g_dirs g !! path with
      | NoFault, None => (Made tt, make_dir path g)
      | NoFault, Some _ => (Exists, g)
      | FailAfter, None => (Failed (Errorf "mkdir"), make_dir path g)
      | _, _ => (Failed (Errorf "mkdir"), g)
      end
  | OOpenDir path => plain_call c (match g_dirs g !! path with Some _ => Ok tt | None => Er ErrNotExist end) g
  | OLstat session name => plain_call c (match g_names g !! (session, name) with Some ino => Ok (info_of ino g) | None => Er ErrNotExist end) g
  | OOpenRead session name => plain_call c (match g_names g !! (session, name) with Some ino => Ok ino | None => Er ErrNotExist end) g
  | OFstat fd => plain_call c (Ok fd) g
  | OReadAll fd limit => plain_call c (Ok (String.substring 0 (S (N.to_nat limit)) (data_of fd g))) g
  | OOpenExcl session name =>
      match ch_fault c, g_names g !! (session, name) with
      | NoFault, None => (Made (g_next g), create_file session name g)
      | NoFault, Some _ => (Exists, g)
      | FailAfter, None => (Failed (Errorf "open"), create_file session name g)
      | _, _ => (Failed (Errorf "open"), g)
      end
  | OWrite fd data =>
      match ch_fault c with
      | NoFault => (Ok tt, set_data fd (data_of fd g +:+ data) g)
      | FailBefore => (fail "write", g)
      | FailTorn _ => (fail "write", set_data fd (data_of fd g +:+ String.substring 0 (ch_partial c) data) g)
      | FailAfter => (fail "write", set_data fd (data_of fd g +:+ data) g)
      end
  | OSync fd => plain_call c (Ok tt) g
  | OClose fd => plain_call c (Ok tt) g
  | OSyncDir path => plain_call c (Ok tt) g
  | OLink session old new =>
      match ch_fault c, g_names g !! (session, old), g_names g !! (session, new) with
      | NoFault, Some ino, None => (Made tt, set_names (<[(session, new) := ino]> (g_names g)) g)
      | NoFault, Some _, Some _ => (Exists, g)
      | NoFault, None, _ => (Failed ErrNotExist, g)
      | FailAfter, Some ino, None => (Failed (Errorf "link"), set_names (<[(session, new) := ino]> (g_names g)) g)
      | _, _, _ => (Failed (Errorf "link"), g)
      end
  | ORemove session name =>
      match ch_fault c, g_names g !! (session, name) with
      | NoFault, Some _ => (Ok tt, set_names (delete (session, name) (g_names g)) g)
      | NoFault, None => (Er ErrNotExist, g)
      | FailAfter, Some _ => (fail "remove", set_names (delete (session, name) (g_names g)) g)
      | _, _ => (fail "remove", g)
      end
  | ONonce => plain_call c (Ok ((λ i, ch_nonce c i `mod` 256) <$> seq 0 16)) g
  | ORun request =>
      (ch_answer c, mkGuest (g_names g) (g_inodes g) (g_next g) (g_dirs g) (g_unsafe g) (g_manifest g) ((request, ch_answer c) :: g_log g))
  end.

(** ** Helper programs *)

Inductive prog (A : Type) : Type :=
| Ret (a : A)
| Call {X : Type} (o : gop X) (k : X → prog A).
Arguments Ret {A} a.
Arguments Call {A X} o k.
Fixpoint pbind {A C} (p : prog A) (f : A → prog C) : prog C :=
  match p with Ret a => f a | Call o k => Call o (λ x, pbind (k x) f) end.
(** [a, err := p(); if err != nil { return err }] *)
Definition rbind {A C} (p : prog (res A)) (f : A → prog (res C)) : prog (res C) :=
  pbind p (λ r, match r with Ok a => f a | Er e => Ret (Er e) end).
Definition call {X} (o : gop X) : prog X := Call o Ret.
Definition pure {A} (r : res A) : prog (res A) := Ret r.
Notation "'let*' x := p 'in' k" := (pbind p (λ x, k)) (at level 10, x pattern, p at level 100, k at level 200) : go_scope.
Notation "'let*!' x := p 'in' k" := (rbind p (λ x, k)) (at level 10, x pattern, p at level 100, k at level 200) : go_scope.
Notation "p ;;*! k" := (rbind p (λ _, k)) (at level 100, k at level 200, right associativity) : go_scope.

(** ** The binding manifest *)

Record bindingManifest := mkManifest { bm_version : Z; bm_association : Association; bm_fingerprint : string; bm_principal : string }.
Definition zeroManifest : bindingManifest := mkManifest 0 zeroAssociation "" "".
Definition manifest_fields : list string := "version"%string :: association_fields ++ ["ca_fingerprint"; "principal"]%string.
Definition manifest_field (name : string) (v : json) (m : bindingManifest) : res bindingManifest :=
  let '(mkManifest version association fingerprint principal) := m in
  if name =s "version" then let? x := get_int v version in Ok (mkManifest x association fingerprint principal)
  else if name =s "ca_fingerprint" then let? x := get_string v fingerprint in Ok (mkManifest version association x principal)
  else if name =s "principal" then let? x := get_string v principal in Ok (mkManifest version association fingerprint x)
  else let? x := association_field name v association in Ok (mkManifest version x fingerprint principal).
Definition parseManifest (contents : string) : res bindingManifest :=
  let? contents := readBounded contents MaxRequestBytes in
  let? fields := exactObject contents manifest_fields in
  let? value := decode_struct manifest_fields manifest_field (JObj fields) zeroManifest in
  check (Association_valid (bm_association value) && validFingerprint (bm_fingerprint value) &&
         (bm_principal value =s derivedPrincipal (as_session (bm_association value)))) "invalid binding manifest" ;;?
  Ok value.

Definition bootstrap_ancestors : list string := ["etc"; "etc/ssh"; "etc/ssh/boxwarden"]%string.
Definition active_path : string := "etc/ssh/boxwarden/active".
Definition base_path : string := "var/lib/boxwarden".
Definition verifyActiveAssociation (association : Association) : prog (res unit) :=
  let*! contents := call OManifest in
  let*! manifest := pure (parseManifest contents) in
  pure (check ((bm_version manifest =? Version) && bool_decide (bm_association manifest = association) &&
               (bm_principal manifest =s derivedPrincipal (as_session association))) "management association differs") ;;*!
  call (OSafe active_path).

(** ** The store *)

Section store.
Context {D : Digests}.

Definition marshalClaim (digest : string) : json := JObj [("version", JNum Version); ("request_sha256", jstr digest)].
Definition actionClaimBytes (request : ActionRequest) : res string :=
  let? encoded := EncodeActionRequest request in Ok (render (marshalClaim encoded.2)).
Fixpoint validateBootstrapAncestors (paths : list string) : prog (res unit) :=
  match paths with
  | [] => Ret (Ok tt)
  | path :: rest => call (OSafe path) ;;*! validateBootstrapAncestors rest
  end.
Definition openActionChild (parent path : string) (create : bool) : prog (res unit) :=
  let* found := call (OLstatDir path) in
  let* info := match found with
               | Er e =>
                   if err_not_exist e && create then
                     let* made := call (OMkdir path) in
                     match made with
                     | Failed e => Ret (Er e)
                     | _ => call (OSyncDir parent) ;;*! call (OLstatDir path)
                     end
                   else Ret (Er e)
               | Ok safe => Ret (Ok safe)
               end in
  match info with
  | Er e => Ret (Er e)
  | Ok safe => if negb safe then Ret (fail "unsafe action directory") else call (OOpenDir path)
  end.
Definition attempts_path : string := "action-attempts".
Definition session_path (session : string) : string := attempts_path +:+ "/" +:+ session.
Definition openActionStore (request : ActionRequest) (create : bool) : prog (res unit) :=
  pure (Validate request) ;;*!
  validateBootstrapAncestors bootstrap_ancestors ;;*!
  verifyActiveAssociation (aq_association request) ;;*!
  call (OSafe base_path) ;;*!
  openActionChild "" attempts_path create ;;*!
  openActionChild attempts_path (session_path (as_session (aq_association request))) create.
Definition readActionFile (session name : string) (limit : N) : prog (res string) :=
  let*! info := call (OLstat session name) in
  if negb (fi_private info && (fi_links info =? 1)%nat) then Ret (fail "unsafe action file")
  else
    let*! file := call (OOpenRead session name) in
    let* raw :=
      (let* opened := call (OFstat file) in
       match opened with
       | Ok opened =>
           if negb (opened =? fi_ino info)%nat then Ret (fail "action file changed while opening")
           else
             let* raw := call (OReadAll file limit) in
             match raw with
             | Ok raw =>
                 if (limit <? N.of_nat (String.length raw))%N then Ret (fail "action file exceeds bound")
                 else
                   let* after := call (OLstat session name) in
                   match after with
                   | Ok after => if negb (fi_ino after =? fi_ino info)%nat then Ret (fail "action file changed while reading") else Ret (Ok raw)
                   | Er _ => Ret (fail "action file changed while reading")
                   end
             | Er _ => Ret (fail "action file exceeds bound")
             end
       | Er _ => Ret (fail "action file changed while opening")
       end) in
    let* _ := call (OClose file) in
    Ret raw.

Definition claim_name (attempt : string) : string := attempt +:+ ".claim".
Definition receipt_name (attempt : string) : string := attempt +:+ ".receipt".
(** Write, sync and close; the first error, or the close error. *)
Definition writeFile (fd : nat) (data : string) : prog (res unit) :=
  let* written := call (OWrite fd data) in
  let* synced := match written with Ok _ => call (OSync fd) | Er e => Ret (Er e) end in
  let* closed := call (OClose fd) in
  Ret (match synced, closed with Er e, Ok _ => Er e | Er e, Er e2 => Er (join_err e e2) | Ok _, r => r end).
(** A claim that was there before: its receipt, when the command completed. *)
Definition readClaimed (request : ActionRequest) (claim : string) : prog (res (option ActionReceipt)) :=
  let session := as_session (aq_association request) in
  let* existing := readActionFile session (claim_name (aq_attempt request)) 256 in
  match existing with
  | Er _ => Ret (fail "action claim differs from exact request")
  | Ok existing =>
      if existing ≠s claim then Ret (fail "action claim differs from exact request")
      else
        let* raw := readActionFile session (receipt_name (aq_attempt request)) MaxActionReceiptBytes in
        match raw with
        | Er e => Ret (if err_not_exist e then fail "action was claimed without a completed receipt" else Er e)
        | Ok raw => Ret (let? receipt := DecodeActionReceipt request raw in Ok (Some receipt))
        end
  end.
Definition ClaimAction (request : ActionRequest) : prog (res (option ActionReceipt)) :=
  let session := as_session (aq_association request) in
  openActionStore request true ;;*!
  let*! claim := pure (actionClaimBytes request) in
  let* found := call (OLstat session (claim_name (aq_attempt request))) in
  match found with
  | Ok _ => readClaimed request claim
  | Er e =>
      if negb (err_not_exist e) then Ret (Er e)
      else
        let* receipt := call (OLstat session (receipt_name (aq_attempt request))) in
        match receipt with
        | Ok _ => Ret (fail "action receipt exists without a claim")
        | Er e =>
            if negb (err_not_exist e) then Ret (Er e)
            else
              let* file := call (OOpenExcl session (claim_name (aq_attempt request))) in
              match file with
              | Made fd => writeFile fd claim ;;*! call (OSyncDir (session_path session)) ;;*! Ret (Ok None)
              | Exists => readClaimed request claim
              | Failed e => Ret (Er e)
              end
        end
  end.

(** [defer store.Remove(temporaryName)] *)
Definition removing {A} (session name : string) (p : prog A) : prog A :=
  let* r := p in let* _ := call (ORemove session name) in Ret r.
Definition publishReceipt (session target raw : string) : prog (res unit) :=
  let*! nonce := call ONonce in
  let temporaryName := target +:+ ".tmp-" +:+ Session.hex nonce in
  let* file := call (OOpenExcl session temporaryName) in
  match file with
  | Exists => Ret (fail "file exists")
  | Failed e => Ret (Er e)
  | Made fd =>
      removing session temporaryName (
      writeFile fd raw ;;*!
      let publish := call (ORemove session temporaryName) ;;*! call (OSyncDir (session_path session)) in
      let* linked := call (OLink session temporaryName target) in
      match linked with
      | Made _ => publish
      | Exists =>
          let* prior := readActionFile session target MaxActionReceiptBytes in
          match prior with
          | Ok prior => if prior =s raw then publish else Ret (fail "concurrent action receipt differs")
          | Er _ => Ret (fail "concurrent action receipt differs")
          end
      | Failed e => Ret (Er e)
      end)
  end.
Definition PublishActionSuccess (request : ActionRequest) (receipt : ActionReceipt) : prog (res unit) :=
  let session := as_session (aq_association request) in
  let*! raw := pure (EncodeActionReceipt request receipt) in
  openActionStore request false ;;*!
  let*! claim := pure (actionClaimBytes request) in
  let* existing := readActionFile session (claim_name (aq_attempt request)) 256 in
  match existing with
  | Er _ => Ret (fail "action success lacks exact durable claim")
  | Ok existing =>
      if existing ≠s claim then Ret (fail "action success lacks exact durable claim")
      else
        let* prior := readActionFile session (receipt_name (aq_attempt request)) MaxActionReceiptBytes in
        match prior with
        | Ok prior => if prior =s raw then call (OSyncDir (session_path session)) else Ret (fail "existing action receipt differs")
        | Er e => if negb (err_not_exist e) then Ret (Er e) else publishReceipt session (receipt_name (aq_attempt request)) raw
        end
  end.

(** ** Execution *)

Definition ExecuteAction (request : ActionRequest) : prog (res ActionReceipt) :=
  call OContext ;;*!
  pure (Validate request) ;;*!
  pure (check (aq_phase request ≠s "launch") "desktop launch action is not yet supported") ;;*!
  let*! prior := ClaimAction request in
  match prior with
  | Some receipt => Ret (Ok receipt)
  | None =>
      call (ORun request) ;;*!
      let*! encoded := pure (EncodeActionRequest request) in
      let receipt := mkActionReceipt Version (aq_association request) (aq_generation request) (aq_recipe request) (aq_action request)
        (aq_phase request) (aq_attempt request) encoded.2 "succeeded" in
      PublishActionSuccess request receipt ;;*!
      Ret (Ok receipt)
  end.

(** ** The helpers of one guest *)

Definition pool : Type := list (ActionRequest * prog (res ActionReceipt)).
(** A new helper for a request, or the next call of a helper. *)
Inductive turn := Spawn (request : ActionRequest) | Next (helper : nat) (c : choice).
Definition advance (c : choice) {A} (p : prog A) (g : guest) : prog A * guest :=
  match p with
  | Ret a => (Ret a, g)
  | Call o k => let '(x, g') := do_op c o g in (k x, g')
  end.
Definition happen (ev : turn) (s : pool * guest) : pool * guest :=
  let '(helpers, g) := s in
  match ev with
  | Spawn request => (helpers ++ [(request, ExecuteAction request)], g)
  | Next i c =>
      match helpers !! i with
      | Some (request, p) => let '(p', g') := advance c p g in (<[i := (request, p')]> helpers, g')
      | None => s
      end
  end.
Definition schedule (evs : list turn) (s : pool * guest) : pool * guest := fold_left (λ s ev, happen ev s) evs s.
End store.
