(* ===== verification/GuestSafety.v ===== *)
(** Any number of concurrent, failing and interrupted helpers run each
    attempt's command at most once, and only truthful receipts come back. The
    proof gives every helper a local state (the claim it made and has not used
    yet, the file it opened and has not written yet) and checks each helper's
    program alone against what the others may do. *)
From S2P Require Import Prelude Ids Json JsonText Recipe GuestProto Outside World Host Logic SessionStore ActionAttempt ActionService ActionSafety GuestAction.

(** ** Lemmas *)

(** *** Names and bytes of the store *)

Definition claim_of (name : string) : option string := strip_suffix ".claim" name.
Lemma claim_of_claim a : claim_of (claim_name a) = Some a.
Proof. apply strip_suffix_app. Qed.
Lemma claim_of_Some name a : claim_of name = Some a → name = claim_name a.
Proof. apply strip_suffix_ok. Qed.
(** A name that ends in another byte claims nothing. *)
Lemma claim_of_last s (c : ascii) : c ≠ "m"%char → claim_of (s +:+ String c "") = None.
Proof.
  intros Hc. destruct (claim_of _) as [a|] eqn:E; [|done]. apply claim_of_Some in E. exfalso. apply Hc.
  unfold claim_name in E. change (a +:+ ".claim") with (a +:+ (".clai" +:+ String "m" "")) in E. rewrite <-str_app_assoc in E.
  by apply last_byte_inj in E.
Qed.
Lemma claim_of_receipt a : claim_of (receipt_name a) = None.
Proof.
  unfold receipt_name. change (a +:+ ".receipt") with (a +:+ (".receip" +:+ String "t" "")). rewrite <-str_app_assoc. by apply claim_of_last.
Qed.
Lemma hex_last (l : list Z) b : ∃ s c, Session.hex (l ++ [b]) = s +:+ String c "" ∧ c ≠ "m"%char.
Proof.
  induction l as [|x l (s & c & IH & Hc)].
  - cbn [app Session.hex]. eexists (String _ ""), _. split; [reflexivity|].
    assert (0 ≤ Z.land b 15 < 16) as Hb by (change 15 with (Z.ones 4); rewrite Z.land_ones by lia; apply Z.mod_pos_bound; lia).
    pose proof (hexd_hex _ Hb) as Hh. intros Hm. by rewrite Hm in Hh.
  - cbn [app Session.hex]. rewrite IH. eexists (String _ (String _ s)), c. by split.
Qed.
Lemma claim_of_temporary a (nonce : nat → Z) :
  claim_of (receipt_name a +:+ ".tmp-" +:+ Session.hex ((λ i, nonce i `mod` 256) <$> seq 0 16)) = None.
Proof.
  change (seq 0 16) with (seq 0 15 ++ [15%nat]). rewrite fmap_app. cbn [fmap list_fmap].
  destruct (hex_last ((λ i, nonce i `mod` 256) <$> seq 0 15) (nonce 15%nat `mod` 256)) as (s & c & Hs & Hc).
  cbn [fmap list_fmap] in Hs. rewrite Hs, <-!str_app_assoc. by apply claim_of_last.
Qed.

Definition str_prefix (a b : string) : Prop := ∃ c, b = a +:+ c.
Lemma substring_prefix n s : str_prefix (String.substring 0 n s) s.
Proof. eexists. apply substring_split. Qed.
Definition run_key (r : ActionRequest) : string * string := (as_session (aq_association r), aq_attempt r).
Definition claim_key (k : string * string) : string * string := (k.1, claim_name k.2).
Lemma claim_key_inj k k' : claim_key k = claim_key k' → k = k'.
Proof.
  destruct k as [s a], k' as [s' a']. intros [= -> H]. f_equal. apply (f_equal claim_of) in H. rewrite !claim_of_claim in H. congruence.
Qed.

Section safety.
Context {D : Digests}.

Definition receipt_bytes (r : ActionRequest) : string := render (marshalReceipt (receipt_for r)).

(** The requests made of the guest, and those whose command ended well. *)
Variables asked success : ActionRequest → Prop.
(** Nothing yet, or the beginning of a truthful receipt. *)
Definition truthful (data : string) : Prop := data = "" ∨ ∃ r, success r ∧ str_prefix data (receipt_bytes r).

(** *** The local state of a helper *)
Record local := mkLocal {
  l_claim : option (string * string);   (* the claim it made and has not used *)
  l_fd : option (nat * bool);           (* the file it created and has not written: a claim or not *)
  l_seen : option (nat * bool);         (* the file it opened to read *)
}.
Definition idle : local := mkLocal None None None.

(** When a helper may make a call, and what it knows and has afterwards. *)
Definition may {X} (o : gop X) (l : local) : Prop :=
  match o with
  | OWrite fd data => ∃ claim, l_fd l = Some (fd, claim) ∧ (claim = false → ∃ r, success r ∧ data = receipt_bytes r)
  | OLink _ old new => claim_of old = None ∧ claim_of new = None
  | ORemove _ name => claim_of name = None
  | ORun r => l_claim l = Some (run_key r) ∧ Validate r = Ok tt ∧ asked r
  | _ => True
  end.
Definition after {X} (o : gop X) (l : local) (x : X) (l' : local) : Prop :=
  match o in gop X return X → Prop with
  | OOpenExcl session name => λ x, match x with
      | Made fd => l' = mkLocal (match claim_of name with Some a => Some (session, a) | None => l_claim l end) (Some (fd, isSome (claim_of name))) (l_seen l)
      | _ => l' = l end
  | OWrite _ _ => λ _, l' = mkLocal (l_claim l) None (l_seen l)
  | OOpenRead _ name => λ x, match x with Ok fd => l' = mkLocal (l_claim l) (l_fd l) (Some (fd, isSome (claim_of name))) | Er _ => l' = l end
  | OReadAll fd _ => λ x, l' = l ∧ ∀ data, x = Ok data → l_seen l = Some (fd, false) → truthful data
  | ONonce => λ x, l' = l ∧ ∀ bytes, x = Ok bytes → ∃ nonce : nat → Z, bytes = (λ i, nonce i `mod` 256) <$> seq 0 16
  | ORun r => λ x, l' = mkLocal None (l_fd l) (l_seen l) ∧ (x = Ok tt → success r)
  | _ => λ _, l' = l
  end x.
Fixpoint behaves {A} (Post : A → local → Prop) (l : local) (p : prog A) : Prop :=
  match p with
  | Ret a => Post a l
  | Call o k => may o l ∧ ∀ x l', after o l x l' → behaves Post l' (k x)
  end.

Lemma behaves_bind {A C} (p : prog A) (f : A → prog C) Post Q l :
  behaves Post l p → (∀ a l', Post a l' → behaves Q l' (f a)) → behaves Q l (pbind p f).
Proof. revert l. induction p as [a|X o k IH]; intros l Hp Hf; [by apply Hf|]. destruct Hp as [Hm Hk]. split; [done|]. eauto. Qed.
Lemma behaves_impl {A} (p : prog A) (Post Q : A → local → Prop) l :
  behaves Post l p → (∀ a l', Post a l' → Q a l') → behaves Q l p.
Proof. revert l. induction p as [a|X o k IH]; intros l Hp Hf; [by apply Hf|]. destruct Hp as [Hm Hk]. split; [done|]. eauto. Qed.
Lemma behaves_rbind {A C} (p : prog (res A)) (f : A → prog (res C)) Post Q l :
  behaves Post l p → (∀ a l', Post (Ok a) l' → behaves Q l' (f a)) → (∀ e l', Post (Er e) l' → Q (Er e) l') → behaves Q l (rbind p f).
Proof. intros Hp Hf He. eapply behaves_bind; [exact Hp|]. intros [a|e] l' H; [by apply Hf|by apply He]. Qed.
Lemma behaves_pure {A C} (r : res A) (f : A → prog (res C)) Q l :
  (∀ a, r = Ok a → behaves Q l (f a)) → (∀ e, Q (Er e) l) → behaves Q l (rbind (pure r) f).
Proof. destruct r as [a|e]; cbn; auto. Qed.
(** A call that changes nothing for its helper. *)
Lemma behaves_call {X C} (o : gop X) (f : X → prog C) Q l :
  may o l → (∀ x l', after o l x l' → l' = l) → (∀ x, after o l x l → behaves Q l (f x)) → behaves Q l (pbind (call o) f).
Proof. intros Hm Ha Hf. split; [done|]. intros x l' H. pose proof (Ha _ _ H) as ->. by apply Hf. Qed.

(** *** Each part of the helper *)

Definition keeps {A} (l : local) (r : res A) (l' : local) : Prop := l' = l.
Lemma behaves_ancestors paths l : behaves (λ _ l', l' = l) l (validateBootstrapAncestors paths).
Proof.
  induction paths as [|path paths IH]; [done|]. cbn [validateBootstrapAncestors]. unfold rbind.
  apply behaves_call; [done|done|]. by intros [[]|e] _.
Qed.
Lemma behaves_child parent path create l : behaves (λ _ l', l' = l) l (openActionChild parent path create).
Proof.
  unfold openActionChild. apply behaves_call; [done|done|]. intros found _. apply (behaves_bind _ _ (λ _ l', l' = l)).
  - destruct found as [safe|e]; [done|]. destruct (err_not_exist e && create); [|done]. apply behaves_call; [done|done|].
    intros [[]| |e2] _; try done; unfold rbind; (apply behaves_call; [done|done|]); by intros [[]|e3] _.
  - by intros [[]|e] l' ->.
Qed.
(** What is read of a file that is not a claim is truthful. *)
Lemma behaves_read session name limit l :
  behaves (λ r _, ∀ data, r = Ok data → claim_of name = None → truthful data) l (readActionFile session name limit).
Proof.
  unfold readActionFile, rbind. apply behaves_call; [done|done|]. intros [info|e] _; [|done].
  destruct (negb _); [done|]. split; [done|]. intros [file|e] l' Hl'; cbn in Hl'; [|by subst]. subst l'. cbn [pbind].
  apply (behaves_bind _ _ (λ r _, ∀ data, r = Ok data → claim_of name = None → truthful data)).
  2: { intros r l' Hr. split; [done|]. by intros x l2 _. }
  apply behaves_call; [done|done|]. intros [opened|e] _; [|done]. destruct (negb _); [done|].
  apply behaves_call; [done|by intros x l' []|]. intros [raw|e] [_ Hraw]; [|done]. destruct (_ <? _)%N; [done|].
  apply behaves_call; [done|done|]. intros [after_|e] _; [|done]. destruct (negb _); [done|].
  intros data [= <-] Hn. apply Hraw; [done|]. cbn. by rewrite Hn.
Qed.
Lemma behaves_open request create l :
  behaves (λ r l', l' = l ∧ (r = Ok tt → Validate request = Ok tt)) l (openActionStore request create).
Proof.
  unfold openActionStore, verifyActiveAssociation. apply behaves_pure; [|done]. intros [] Hv.
  eapply behaves_rbind; [apply behaves_ancestors| |by intros e l' ->]. intros [] l' ->.
  apply (behaves_rbind _ _ (λ _ l', l' = l)); [..|by intros e l' ->].
  - unfold rbind. apply behaves_call; [done|done|]. intros [contents|e] _; [|done].
    apply behaves_pure; [|done]. intros m _. apply behaves_pure; [|done]. intros [] _. split; [done|]. by intros x l' ->.
  - intros [] l' ->. unfold rbind at 1. apply behaves_call; [done|done|]. intros [[]|e] _; [|done].
    eapply behaves_rbind; [apply behaves_child| |by intros e l' ->]. intros [] l' ->.
    eapply behaves_impl; [apply behaves_child|]. by intros r l' ->.
Qed.
(** Writing out the file just opened. *)
Lemma behaves_write fd data l claim :
  l_fd l = Some (fd, claim) → (claim = false → ∃ r, success r ∧ data = receipt_bytes r) →
  behaves (λ _ l', l' = mkLocal (l_claim l) None (l_seen l)) l (writeFile fd data).
Proof.
  intros Hfd Hd. unfold writeFile. apply (behaves_bind _ _ (λ _ l', l' = mkLocal (l_claim l) None (l_seen l))).
  { split; [by exists claim|]. by intros w l' ->. }
  intros w l' ->. apply (behaves_bind _ _ (λ _ l', l' = mkLocal (l_claim l) None (l_seen l))).
  - destruct w as [[]|e]; [|done]. split; [done|]. by intros x l' ->.
  - intros s l' ->. split; [done|]. by intros c l' ->.
Qed.

(** What a helper returns for its request is the receipt of a command that
    ended well, for this request or one that has the very same receipt. *)
Definition returned (request : ActionRequest) (receipt : ActionReceipt) : Prop :=
  receipt = receipt_for request ∧ ∃ r, success r ∧ receipt_for r = receipt_for request.
Hypothesis digest_form : ∀ s, Session.lowerSHA256 (sha256 s) = true.
Hypothesis success_valid : ∀ r, success r → Validate r = Ok tt.
Lemma printable_bytes r : Validate r = Ok tt → printable (marshalReceipt (receipt_for r)) = true.
Proof. intros Hv. apply printable_receipt, receipt_for_ok; [by apply Validate_ok|apply digest_form]. Qed.
Lemma marshalReceipt_inj r r' : marshalReceipt r = marshalReceipt r' → r = r'.
Proof.
  destruct r as [? [] ? ? ? ? ? ? ?], r' as [? [] ? ? ? ? ? ? ?]. unfold marshalReceipt, marshalAssociation, jstr. cbn. intros H. simplify_eq. done.
Qed.
Lemma truthful_receipt request data receipt : Validate request = Ok tt → truthful data → DecodeActionReceipt request data = Ok receipt →
  returned request receipt.
Proof.
  intros Hv Ht Hd. apply decoded_receipt in Hd as [-> Hdata]. split; [done|].
  assert (∃ tail, data = receipt_bytes request +:+ tail) as [tail ->].
  { destruct Hdata as [-> | ->]; [|by eexists]. exists "". by rewrite str_app_nil. }
  destruct Ht as [Ht|(r & Hr & c & Hc)]; [done|]. exists r. split; [done|]. rewrite str_app_assoc in Hc.
  pose proof (printable_bytes _ Hv) as H1. pose proof (printable_bytes _ (success_valid _ Hr)) as H2.
  apply marshalReceipt_inj. unfold receipt_bytes in Hc.
  destruct (marshalReceipt (receipt_for request)) as [| | | | | |fs] eqn:E1, (marshalReceipt (receipt_for r)) as [| | | | | |fs'] eqn:E2; try done.
  destruct (render_prefix fs fs' (tail +:+ c) H1 H2) as [-> _]; [by intros ->|by intros ->|done|done].
Qed.

Lemma behaves_readClaimed request claim l : Validate request = Ok tt →
  behaves (λ r _, match r with Ok (Some receipt) => returned request receipt | Ok None => False | Er _ => True end) l
    (readClaimed request claim).
Proof.
  intros Hv. unfold readClaimed. eapply behaves_bind; [apply behaves_read|]. intros [existing|e] l' _; [|done].
  destruct (existing ≠s claim); [done|]. eapply behaves_bind; [apply behaves_read|]. intros [raw|e] l2 Hraw.
  - destruct (DecodeActionReceipt request raw) as [receipt|e] eqn:Hd; [|done]. cbn.
    eapply truthful_receipt; [done| |exact Hd]. apply Hraw; [done|apply claim_of_receipt].
  - by destruct (err_not_exist e).
Qed.
(** A claim that is new is this helper's to use. *)
Lemma behaves_claim request l :
  behaves (λ r l', Validate request = Ok tt → match r with Ok (Some receipt) => returned request receipt
                                              | Ok None => l_claim l' = Some (run_key request) | Er _ => True end) l (ClaimAction request).
Proof.
  unfold ClaimAction. eapply behaves_rbind; [apply behaves_open| |done]. intros [] l' [-> Hv]. specialize (Hv eq_refl).
  apply behaves_pure; [|done]. intros claim _.
  assert (behaves (λ r l', Validate request = Ok tt → match r with Ok (Some receipt) => returned request receipt
            | Ok None => l_claim l' = Some (run_key request) | Er _ => True end) l (readClaimed request claim)) as Hread.
  { eapply behaves_impl; [by apply behaves_readClaimed|]. by intros [[receipt|]|e] l' H _. }
  apply behaves_call; [done|done|]. intros [[]|e] _; [exact Hread|]. destruct (err_not_exist e); cbn [negb]; [|done].
  apply behaves_call; [done|done|]. intros [[]|e2] _; [done|]. destruct (err_not_exist e2); cbn [negb]; [|done].
  split; [done|]. intros [fd| |e3] l' Hl'; cbn in Hl'; [|by subst|by subst]. rewrite claim_of_claim in Hl'. subst l'.
  apply (behaves_rbind _ _ (λ _ l', l' = mkLocal (Some (run_key request)) None (l_seen l))).
  - by refine (behaves_write fd claim (mkLocal _ _ _) _ eq_refl _).
  - intros [] l' ->. unfold rbind. apply behaves_call; [done|done|]. by intros [[]|e4] _.
  - done.
Qed.
Lemma behaves_publishReceipt session attempt request l : success request →
  behaves (λ _ _, True) l (publishReceipt session (receipt_name attempt) (receipt_bytes request)).
Proof.
  intros Hs. unfold publishReceipt, rbind. split; [done|]. intros x l' [-> Hx]. destruct x as [bytes|e]; [|done].
  destruct (Hx bytes eq_refl) as [nonce ->]. cbn [call pbind].
  set (name := receipt_name attempt +:+ ".tmp-" +:+ Session.hex ((λ i, nonce i `mod` 256) <$> seq 0 16)).
  assert (claim_of name = None) as Hn by apply claim_of_temporary.
  split; [done|]. intros [fd| |e] l' Hl'; cbn in Hl'; [|by subst|by subst]. rewrite Hn in Hl'. cbn in Hl'. subst l'. cbn [pbind].
  unfold removing. apply (behaves_bind _ _ (λ _ _, True)).
  2: { intros r l' _. split; [exact Hn|]. by intros x l2 ->. }
  apply (behaves_rbind _ _ (λ _ _, True)); [|intros [] l' _|done].
  { eapply behaves_impl; [eapply behaves_write; [done|]|done]. intros _. by exists request. }
  assert (∀ l2, behaves (λ _ _, True) l2 (call (ORemove session name) ;;*! call (OSyncDir (session_path session)))) as Hpub.
  { intros l2. split; [exact Hn|]. intros [[]|e] l3 ->; [|done]. split; [done|]. done. }
  split; [split; [exact Hn|apply claim_of_receipt]|]. intros [[]| |e] l2 ->; [apply Hpub| |done].
  eapply behaves_bind; [apply behaves_read|]. intros [prior|e] l3 _; [|done]. destruct (prior =s _); [apply Hpub|done].
Qed.
Lemma behaves_publish request l : success request →
  behaves (λ _ _, True) l (PublishActionSuccess request (receipt_for request)).
Proof.
  intros Hs. unfold PublishActionSuccess. apply behaves_pure; [|done]. intros raw Hraw.
  assert (raw = receipt_bytes request) as ->.
  { unfold EncodeActionReceipt in Hraw. apply unit_then_ok in Hraw as [_ Hraw]. apply check_then_ok in Hraw as [_ Hraw].
    unfold receipt_bytes. congruence. }
  eapply behaves_rbind; [apply behaves_open| |done]. intros [] l' [-> _]. apply behaves_pure; [|done]. intros claim _.
  eapply behaves_bind; [apply behaves_read|]. intros [existing|e] l2 _; [|done]. destruct (existing ≠s claim); [done|].
  eapply behaves_bind; [apply behaves_read|]. intros [prior|e] l3 _.
  - destruct (prior =s _); [|done]. by split.
  - destruct (negb _); [done|by apply behaves_publishReceipt].
Qed.
Lemma behaves_execute request : asked request →
  behaves (λ r _, ∀ receipt, r = Ok receipt → returned request receipt) idle (ExecuteAction request).
Proof.
  intros Hask. assert (∀ e, ∀ receipt, @Er ActionReceipt e = Ok receipt → returned request receipt) as Her by done.
  unfold ExecuteAction. unfold rbind at 1. apply behaves_call; [done|done|]. intros [[]|e] _; [|exact (Her _)].
  apply behaves_pure; [|intros e; exact (Her _)]. intros [] Hv. apply behaves_pure; [|intros e; exact (Her _)]. intros [] _.
  eapply behaves_rbind; [apply behaves_claim| |intros e l' _; exact (Her _)]. intros [receipt|] l' Hcl; specialize (Hcl Hv).
  { by intros rc [= <-]. }
  split; [by split|]. intros [[]|e] l2 [-> Hs]; [|exact (Her _)]. specialize (Hs eq_refl). cbn [pbind].
  apply behaves_pure; [|intros e; exact (Her _)]. intros [raw digest] He.
  pose proof (EncodeActionRequest_ok _ _ _ He) as (_ & -> & -> & _). cbn [snd].
  fold (receipt_for request). eapply behaves_rbind; [by apply behaves_publish| |intros e l3 _; exact (Her _)].
  intros [] l3 _ rc [= <-]. split; [done|]. by exists request.
Qed.

(** *** What all helpers keep together *)

Definition log_keys (g : guest) : list (string * string) := (λ e, run_key e.1) <$> g_log g.
(** [kind ino]: whether the file was created as a claim. *)
Record shared (ls : list local) (kind : nat → bool) (g : guest) : Prop := {
  sh_claims : ∀ i l key, ls !! i = Some l → l_claim l = Some key →
    is_Some (g_names g !! claim_key key) ∧ (key ∉ log_keys g) ∧ ∀ j l', ls !! j = Some l' → l_claim l' = Some key → i = j;
  sh_once : NoDup (log_keys g);
  sh_log : ∀ r x, (r, x) ∈ g_log g → is_Some (g_names g !! claim_key (run_key r)) ∧ Validate r = Ok tt ∧ asked r;
  sh_names : ∀ session name ino, g_names g !! (session, name) = Some ino → (ino < g_next g)%nat ∧ kind ino = isSome (claim_of name);
  sh_data : ∀ ino, kind ino = false → truthful (data_of ino g);
  sh_fresh : ∀ ino, (g_next g ≤ ino)%nat → g_inodes g !! ino = None;
  sh_files : ∀ i l fd claim, ls !! i = Some l → l_fd l = Some (fd, claim) →
    (fd < g_next g)%nat ∧ kind fd = claim ∧
    (claim = false → data_of fd g = "" ∧ ∀ j l' claim', ls !! j = Some l' → l_fd l' = Some (fd, claim') → i = j);
  sh_seen : ∀ i l fd claim, ls !! i = Some l → l_seen l = Some (fd, claim) → (fd < g_next g)%nat ∧ kind fd = claim;
}.
Lemma shared_same ls kind g g' : g_names g' = g_names g → g_inodes g' = g_inodes g → g_next g' = g_next g → g_log g' = g_log g →
  shared ls kind g → shared ls kind g'.
Proof.
  intros H1 H2 H3 H4 []. constructor; unfold data_of, log_keys in *; rewrite ?H1, ?H2, ?H3, ?H4; assumption.
Qed.
Lemma log_key_in g key : key ∈ log_keys g ↔ ∃ r x, (r, x) ∈ g_log g ∧ run_key r = key.
Proof.
  unfold log_keys. rewrite list_elem_of_fmap. split; [intros ([r x] & -> & H); eauto|intros (r & x & H & <-); by exists (r, x)].
Qed.
(** A local state with no more than before is as good. *)
Lemma shared_local ls kind g i l l' : ls !! i = Some l → shared ls kind g →
  (l_claim l' = None ∨ l_claim l' = l_claim l) → (l_fd l' = None ∨ l_fd l' = l_fd l) →
  (∀ fd claim, l_seen l' = Some (fd, claim) → (fd < g_next g)%nat ∧ kind fd = claim) → shared (<[i := l']> ls) kind g.
Proof.
  intros Hi [Hc Ho Hlog Hn Hd Hf Hfd Hse] Hlc Hlf Hls.
  assert (∀ j x, <[i := l']> ls !! j = Some x → ∃ y, ls !! j = Some y ∧ (l_claim x = None ∨ l_claim x = l_claim y) ∧
    (l_fd x = None ∨ l_fd x = l_fd y) ∧ (∀ fd claim, l_seen x = Some (fd, claim) → (fd < g_next g)%nat ∧ kind fd = claim)) as Hold.
  { intros j x [(-> & <- & _)|[_ H]]%list_lookup_insert_Some; [by exists l|]. exists x. split_and!; eauto. }
  constructor; [|assumption..| |].
  - intros j x key Hj Hk. destruct (Hold j x Hj) as (y & Hy & [Hcx|Hcx] & _); [congruence|]. rewrite Hcx in Hk.
    destruct (Hc j y key Hy Hk) as (H1 & H2 & H3). split_and!; [done|done|]. intros j2 x2 Hj2 Hk2.
    destruct (Hold j2 x2 Hj2) as (y2 & Hy2 & [Hc2|Hc2] & _); [congruence|]. rewrite Hc2 in Hk2. by eapply H3.
  - intros j x fd claim Hj Hk. destruct (Hold j x Hj) as (y & Hy & _ & [Hcx|Hcx] & _); [congruence|]. rewrite Hcx in Hk.
    destruct (Hfd j y fd claim Hy Hk) as (H1 & H2 & H3). split_and!; [done|done|]. intros Hcl. destruct (H3 Hcl) as [H4 H5].
    split; [done|]. intros j2 x2 claim' Hj2 Hk2.
    destruct (Hold j2 x2 Hj2) as (y2 & Hy2 & _ & [Hc2|Hc2] & _); [congruence|]. rewrite Hc2 in Hk2. by eapply H5.
  - intros j x fd claim Hj Hk. destruct (Hold j x Hj) as (y & Hy & _ & _ & Hsx). by apply Hsx.
Qed.

(** A local state with a new claim or a new file. *)
Lemma shared_take ls kind g i l l' : ls !! i = Some l → shared ls kind g →
  (l_claim l' = l_claim l ∨ ∃ key, l_claim l' = Some key ∧ is_Some (g_names g !! claim_key key) ∧ (key ∉ log_keys g) ∧
     ∀ j l2, ls !! j = Some l2 → l_claim l2 ≠ Some key) →
  (∃ fd claim, l_fd l' = Some (fd, claim) ∧ (fd < g_next g)%nat ∧ kind fd = claim ∧ data_of fd g = "" ∧
     ∀ j l2 c, ls !! j = Some l2 → l_fd l2 ≠ Some (fd, c)) →
  l_seen l' = l_seen l → shared (<[i := l']> ls) kind g.
Proof.
  intros Hi [Hc Ho Hlog Hn Hd Hf Hfd Hse] Hlc (fd & claim & Hl' & Hfd1 & Hfd2 & Hfd3 & Hfd4) Hls.
  assert (∀ j x, <[i := l']> ls !! j = Some x → j = i ∧ x = l' ∨ j ≠ i ∧ ls !! j = Some x) as Hold.
  { intros j x [(-> & <- & _)|[? H]]%list_lookup_insert_Some; auto. }
  constructor; [|assumption..| |].
  - intros j x key [[-> ->]|[Hji Hj]]%Hold Hk.
    + assert (is_Some (g_names g !! claim_key key) ∧ (key ∉ log_keys g) ∧ ∀ j l2, ls !! j = Some l2 → l_claim l2 = Some key → i = j) as (H1 & H2 & H3).
      { destruct Hlc as [Hlc|(key' & Hk' & H1 & H2 & H3)]; [apply (Hc i l key Hi); congruence|].
        assert (key' = key) as -> by congruence. split_and!; [done|done|]. intros j l2 Hj Hj2. by destruct (H3 j l2 Hj). }
      split_and!; [done|done|]. intros j x [[-> ->]|[_ Hj]]%Hold Hk2; [done|by eapply H3].
    + destruct (Hc j x key Hj Hk) as (H1 & H2 & H3). split_and!; [done|done|].
      intros j2 x2 [[-> ->]|[_ Hj2]]%Hold Hk2; [|by eapply H3].
      destruct Hlc as [Hlc|(key' & Hk' & _ & _ & H4)]; [by apply (H3 i l Hi); congruence|].
      assert (key' = key) as -> by congruence. by destruct (H4 j x Hj).
  - intros j x fd' claim' [[-> ->]|[Hji Hj]]%Hold Hk.
    + assert (fd' = fd ∧ claim' = claim) as [-> ->] by (split; congruence). split_and!; [done|done|]. intros _. split; [done|].
      intros j x c [[-> ->]|[_ Hj]]%Hold Hk2; [done|]. by destruct (Hfd4 j x c Hj).
    + destruct (Hfd j x fd' claim' Hj Hk) as (H1 & H2 & H3). split_and!; [done|done|]. intros Hcl. destruct (H3 Hcl) as [H4 H5].
      split; [done|]. intros j2 x2 c [[-> ->]|[_ Hj2]]%Hold Hk2; [|by eapply H5].
      assert (fd' = fd) as -> by congruence. by destruct (Hfd4 j x claim' Hj).
  - intros j x fd' claim' [[-> ->]|[_ Hj]]%Hold Hk; [rewrite Hls in Hk|]; by eapply Hse.
Qed.
(** The names change, but for claims. *)
Lemma shared_names ls kind g names' : shared ls kind g →
  (∀ session name ino, names' !! (session, name) = Some ino → (ino < g_next g)%nat ∧ kind ino = isSome (claim_of name)) →
  (∀ session name, claim_of name ≠ None → names' !! (session, name) = g_names g !! (session, name)) →
  shared ls kind (set_names names' g).
Proof.
  intros [Hc Ho Hlog Hn Hd Hf Hfd Hse] Hnames Hclaims.
  assert (∀ key, names' !! claim_key key = g_names g !! claim_key key) as Hk.
  { intros [session a]. apply Hclaims. by rewrite claim_of_claim. }
  constructor; cbn; try assumption.
  - intros j l key. rewrite Hk. apply Hc.
  - intros r x Hin. rewrite Hk. by eapply Hlog.
Qed.
(** A file is written that nobody else is about to write a receipt to. *)
Lemma data_of_set fd d g ino : data_of ino (set_data fd d g) = if decide (ino = fd) then (match g_inodes g !! fd with Some _ => d | None => "" end) else data_of ino g.
Proof.
  unfold data_of, set_data. cbn. case_decide as Hd.
  - subst. rewrite lookup_alter_eq. by destruct (g_inodes g !! fd).
  - by rewrite lookup_alter_ne by done.
Qed.
Lemma shared_write ls kind g fd d : shared ls kind g →
  (kind fd = false → truthful d) → (∀ j l c, ls !! j = Some l → l_fd l = Some (fd, c) → c = true) →
  shared ls kind (set_data fd d g).
Proof.
  intros [Hc Ho Hlog Hn Hd Hf Hfd Hse] Ht Hfree. constructor; try assumption.
  - intros ino Hk. rewrite data_of_set. case_decide; [subst|by apply Hd]. destruct (g_inodes g !! fd); [by apply Ht|by left].
  - intros ino Hino. cbn in *. rewrite lookup_alter_None. by apply Hf.
  - intros j l fd' claim Hj Hl. destruct (Hfd j l fd' claim Hj Hl) as (H1 & H2 & H3). split_and!; [done|done|].
    intros Hcl. rewrite data_of_set, decide_False; [by apply H3|]. intros ->. by specialize (Hfree j l claim Hj Hl) as ->.
Qed.
(** A file is created. *)
Lemma shared_create ls kind g session name : g_names g !! (session, name) = None → shared ls kind g →
  shared ls (λ n, if (n =? g_next g)%nat then isSome (claim_of name) else kind n) (create_file session name g).
Proof.
  intros Hfree [Hc Ho Hlog Hn Hd Hf Hfd Hse]. unfold create_file.
  assert (∀ key, is_Some (g_names g !! claim_key key) → is_Some (<[(session, name) := g_next g]> (g_names g) !! claim_key key)) as Hmono.
  { intros key Hkey. destruct (decide ((session, name) = claim_key key)) as [->|Hne]; [rewrite lookup_insert_eq; eauto|by rewrite lookup_insert_ne]. }
  assert (∀ ino, (ino < g_next g)%nat → (ino =? g_next g)%nat = false) as Hlt by (intros; apply Nat.eqb_neq; lia).
  assert (∀ ino, (ino < g_next g)%nat → data_of ino (create_file session name g) = data_of ino g) as Hdata.
  { intros ino Hino. unfold data_of, create_file. cbn. rewrite lookup_insert_ne by lia. done. }
  constructor; cbn.
  - intros j l key Hj Hl. destruct (Hc j l key Hj Hl) as (H1 & H2). split; [by apply Hmono|exact H2].
  - exact Ho.
  - intros r x Hin. destruct (Hlog r x Hin) as [H1 H2]. split; [by apply Hmono|done].
  - intros s n ino [[[= <- <-] <-]|[_ Hino]]%lookup_insert_Some; [split; [lia|by rewrite Nat.eqb_refl]|].
    destruct (Hn s n ino Hino) as [H1 H2]. split; [lia|]. by rewrite Hlt.
  - intros ino Hk. destruct (Nat.lt_trichotomy ino (g_next g)) as [Hino|[->|Hino]].
    + change (truthful (data_of ino (create_file session name g))). rewrite Hdata by done. apply Hd. by rewrite Hlt in Hk.
    + left. unfold data_of. cbn. by rewrite lookup_insert_eq.
    + left. unfold data_of. cbn. rewrite lookup_insert_ne by lia. by rewrite Hf by lia.
  - intros ino Hino. rewrite lookup_insert_ne by lia. apply Hf. lia.
  - intros j l fd claim Hj Hl. destruct (Hfd j l fd claim Hj Hl) as (H1 & H2 & H3). split_and!; [lia|by rewrite Hlt|].
    intros Hcl. destruct (H3 Hcl) as [H4 H5]. split; [|done]. change (data_of fd (create_file session name g) = ""). by rewrite Hdata.
  - intros j l fd claim Hj Hl. destruct (Hse j l fd claim Hj Hl) as [H1 H2]. split; [lia|by rewrite Hlt].
Qed.
(** The command of the claim runs. *)
Lemma shared_run ls kind g i l request answer : ls !! i = Some l → l_claim l = Some (run_key request) → Validate request = Ok tt → asked request →
  shared ls kind g →
  shared (<[i := mkLocal None (l_fd l) (l_seen l)]> ls) kind
    (mkGuest (g_names g) (g_inodes g) (g_next g) (g_dirs g) (g_unsafe g) (g_manifest g) ((request, answer) :: g_log g)).
Proof.
  intros Hi Hcl Hv Hask Hsh. pose proof (sh_claims _ _ _ Hsh i l _ Hi Hcl) as (H1 & H2 & H3).
  pose proof (shared_local _ _ _ i l (mkLocal None (l_fd l) (l_seen l)) Hi Hsh ltac:(by left) ltac:(by right) (λ fd cl, sh_seen _ _ _ Hsh i l fd cl Hi)) as [Hc Ho Hlog Hn Hd Hf Hfd Hse].
  constructor; try assumption.
  - intros j x key Hj Hk. destruct (Hc j x key Hj Hk) as (H4 & H5 & H6). split_and!; [done| |done].
    unfold log_keys. cbn. intros [->|Hin]%elem_of_cons; [|done].
    apply list_lookup_insert_Some in Hj as [(-> & <- & _)|[Hne Hj]]; [done|]. by rewrite (H3 j x Hj Hk) in Hne.
  - unfold log_keys. cbn. by constructor.
  - cbn. intros r x [[= -> ->]|Hin]%elem_of_cons; [done|by eapply Hlog].
Qed.

Lemma truthful_app data d : data = "" → truthful d → truthful (data +:+ d).
Proof. by intros ->. Qed.
Lemma truthful_prefix data n : truthful data → truthful (String.substring 0 n data).
Proof.
  intros [->|(r & Hr & c & Hc)]; [left; by destruct n|]. right. exists r. split; [done|].
  destruct (substring_prefix n data) as [tail Ht]. exists (tail +:+ c). by rewrite Hc, Ht at 1; rewrite str_app_assoc.
Qed.
Lemma truthful_part r n : success r → truthful (String.substring 0 n (receipt_bytes r)).
Proof. intros Hr. right. exists r. split; [done|apply substring_prefix]. Qed.
Lemma truthful_whole r : success r → truthful (receipt_bytes r).
Proof. intros Hr. right. exists r. split; [done|]. exists "". by rewrite str_app_nil. Qed.

Lemma plain_call_eq {X} c (x : res X) g : plain_call c x g = (x, g) ∨ plain_call c x g = (fail "call failed", g).
Proof. unfold plain_call. destruct (ch_fault c); auto. Qed.
Lemma plain_call_snd {X} c (x : res X) g : (plain_call c x g).2 = g.
Proof. by destruct (plain_call_eq c x g) as [-> | ->]. Qed.
(** A call that changes nothing for anyone. *)
Lemma op_quiet {X} ls kind g i l (o : gop X) c : ls !! i = Some l → shared ls kind g →
  (do_op c o g).2 = g → after o l (do_op c o g).1 l →
  ∃ kind' l', after o l (do_op c o g).1 l' ∧ shared (<[i := l']> ls) kind' (do_op c o g).2.
Proof. intros Hi Hsh Hg Ha. exists kind, l. split; [done|]. by rewrite list_insert_id, Hg. Qed.
(** A write by the helper that may make it. *)
Lemma op_write ls kind g i l fd data c : ls !! i = Some l → shared ls kind g → may (OWrite fd data) l →
  shared (<[i := mkLocal (l_claim l) None (l_seen l)]> ls) kind (do_op c (OWrite fd data) g).2.
Proof.
  intros Hi Hsh (claim & Hfd & Hdata).
  pose proof (sh_files _ _ _ Hsh i l fd claim Hi Hfd) as (_ & Hkind & Hown).
  pose proof (shared_local _ _ _ i l (mkLocal (l_claim l) None (l_seen l)) Hi Hsh ltac:(by right) ltac:(by left) (λ fd cl, sh_seen _ _ _ Hsh i l fd cl Hi)) as Hsh'.
  assert (∀ d, (claim = false → truthful d) → shared (<[i := mkLocal (l_claim l) None (l_seen l)]> ls) kind (set_data fd d g)) as Hw.
  { intros d Hd. apply shared_write; [done|intros Hkf; apply Hd; congruence|]. intros j x cl Hj Hx.
    apply list_lookup_insert_Some in Hj as [(-> & <- & _)|[Hne Hj]]; [done|].
    pose proof (sh_files _ _ _ Hsh j x fd cl Hj Hx) as (_ & Hk2 & _). destruct cl; [done|].
    assert (claim = false) as Hcf by congruence. destruct (Hown Hcf) as [_ H]. by rewrite (H j x false Hj Hx) in Hne. }
  assert (∀ d, (∀ r, success r → data = receipt_bytes r → truthful d) → claim = false → truthful (data_of fd g +:+ d)) as Htr.
  { intros d Hd Hcf. destruct (Hown Hcf) as [He _]. destruct (Hdata Hcf) as (r & Hr & Hb). apply truthful_app; [done|]. by eapply Hd. }
  cbn [do_op]. destruct (ch_fault c); cbn [snd]; [apply Hw, Htr|exact Hsh'|apply Hw, Htr|apply Hw, Htr];
    intros r Hr ->; [by apply truthful_whole|by apply truthful_part|by apply truthful_whole].
Qed.
Lemma op_open ls kind g i l session name c : ls !! i = Some l → shared ls kind g →
  ∃ kind' l', after (OOpenExcl session name) l (do_op c (OOpenExcl session name) g).1 l' ∧
    shared (<[i := l']> ls) kind' (do_op c (OOpenExcl session name) g).2.
Proof.
  intros Hi Hsh. assert (∀ e, ∃ kind' l', after (OOpenExcl session name) l (Failed e) l' ∧ shared (<[i := l']> ls) kind' g) as Hno.
  { intros e. exists kind, l. split; [done|]. by rewrite list_insert_id. }
  cbn [do_op]. destruct (g_names g !! (session, name)) as [ino|] eqn:Hfree; destruct (ch_fault c); cbn [fst snd]; try apply Hno.
  - exists kind, l. split; [done|]. by rewrite list_insert_id.
  - eexists _, _. split; [reflexivity|]. eapply shared_take; [exact Hi|by apply shared_create|..].
    + destruct (claim_of name) as [a|] eqn:Hcl; [|by left]. right. exists (session, a). cbn [l_claim].
      pose proof (claim_of_Some _ _ Hcl) as Hname. change (claim_key (session, a)) with (session, claim_name a). rewrite <-Hname. split_and!.
      * done.
      * cbn. rewrite lookup_insert_eq. eauto.
      * intros (r & x & Hin & Hr)%log_key_in. cbn in Hin. pose proof (sh_log _ _ _ Hsh r x Hin) as [[ino Hino] _].
        rewrite Hr in Hino. change (claim_key (session, a)) with (session, claim_name a) in Hino. congruence.
      * intros j l2 Hj Hl2. pose proof (sh_claims _ _ _ Hsh j l2 _ Hj Hl2) as [[ino Hino] _].
        change (claim_key (session, a)) with (session, claim_name a) in Hino. congruence.
    + exists (g_next g), (isSome (claim_of name)). cbn. rewrite Nat.eqb_refl. split_and!; [done|lia|done| |].
      * unfold data_of. cbn. by rewrite lookup_insert_eq.
      * intros j l2 cl Hj Hl2. pose proof (sh_files _ _ _ Hsh j l2 _ _ Hj Hl2) as (? & _). lia.
    + done.
  - eexists _, l. split; [reflexivity|]. rewrite list_insert_id by done. by apply shared_create.
Qed.
Lemma do_op_shared ls kind g i l {X} (o : gop X) c : ls !! i = Some l → shared ls kind g → may o l →
  (∀ r, (r, Ok tt) ∈ g_log (do_op c o g).2 → Validate r = Ok tt → success r) →
  ∃ kind' l', after o l (do_op c o g).1 l' ∧ shared (<[i := l']> ls) kind' (do_op c o g).2.
Proof.
  intros Hi Hsh Hm Hs.
  assert (∀ k g', shared ls k g' → shared (<[i := l]> ls) k g') as Hid by (intros; by rewrite list_insert_id).
  destruct o; try solve [eapply op_quiet; [done|done|apply plain_call_snd|done]].
  - exists kind, l. split; [done|]. apply Hid. cbn [do_op]. destruct (ch_fault c), (g_dirs g !! path); try done; by apply (shared_same _ _ g).
  - exists kind. cbn [do_op]. destruct (g_names g !! (session, name)) as [ino|] eqn:Hino.
    2: { exists l. by destruct (plain_call_eq c (@Er nat ErrNotExist) g) as [-> | ->]; (split; [|apply Hid]). }
    destruct (plain_call_eq c (Ok ino) g) as [-> | ->]; [|exists l; split; [done|by apply Hid]].
    eexists. split; [reflexivity|]. apply (shared_local _ _ _ _ l); [done|done|by right|by right|].
    intros fd cl [= <- <-]. by eapply sh_names.
  - exists kind, l. cbn [do_op]. match goal with |- context [plain_call c ?x g] => set (answer := x) end.
    destruct (plain_call_eq c answer g) as [-> | ->]; (split; [|by apply Hid]); (split; [done|]); [|done].
    intros data [= <-] Hl. apply truthful_prefix, (sh_data _ _ _ Hsh). by eapply sh_seen.
  - by eapply op_open.
  - eexists kind, _. split; [reflexivity|]. by apply op_write.
  - exists kind, l. split; [done|]. apply Hid. destruct Hm as [Hold Hnew]. cbn [do_op].
    assert (∀ ino, g_names g !! (session, old) = Some ino → shared ls kind (set_names (<[(session, new) := ino]> (g_names g)) g)) as Hl.
    { intros ino Hino. apply shared_names; [done|..].
      - intros s n ino' [[[= <- <-] <-]|[_ H]]%lookup_insert_Some; [|by eapply sh_names].
        destruct (sh_names _ _ _ Hsh _ _ _ Hino) as [H1 H2]. rewrite Hold in H2. by rewrite Hnew.
      - intros s n Hn. apply lookup_insert_ne. intros [= -> ->]. done. }
    destruct (ch_fault c), (g_names g !! (session, old)), (g_names g !! (session, new)); cbn [snd]; auto.
  - exists kind, l. split; [done|]. apply Hid. cbn [do_op].
    assert (shared ls kind (set_names (delete (session, name) (g_names g)) g)) as Hl.
    { apply shared_names; [done|..].
      - intros s n ino [_ H]%lookup_delete_Some. by eapply sh_names.
      - intros s n Hn. apply lookup_delete_ne. intros [= -> ->]. done. }
    destruct (ch_fault c), (g_names g !! (session, name)); cbn [snd]; auto.
  - exists kind, l. cbn [do_op]. destruct (plain_call_eq c (Ok ((λ i : nat, ch_nonce c i `mod` 256) <$> seq 0 16)) g) as [-> | ->];
      (split; [|by apply Hid]); (split; [done|]); [|done]. intros bytes [= <-]. by eexists.
  - eexists kind, _. split; [split; [reflexivity|]|by destruct Hm as (? & ? & ?); eapply shared_run].
    intros Ha. apply Hs; [|by destruct Hm as (? & ? & ?)]. cbn in Ha |- *. rewrite Ha. apply elem_of_cons. by left.
Qed.

(** *** All helpers together *)

Definition truthfully (request : ActionRequest) (r : res ActionReceipt) (_ : local) : Prop :=
  ∀ receipt, r = Ok receipt → returned request receipt.
Definition pool_ok (s : pool * guest) : Prop :=
  ∃ ls kind, Forall2 (λ l h, behaves (truthfully h.1) l h.2) ls s.1 ∧ shared ls kind s.2.
Lemma shared_spawn ls kind g : shared ls kind g → shared (ls ++ [idle]) kind g.
Proof.
  intros [Hc Ho Hlog Hn Hd Hf Hfd Hse].
  assert (∀ j x, (ls ++ [idle]) !! j = Some x → x = idle ∨ ls !! j = Some x) as Hold.
  { intros j x [H|[_ H]]%lookup_app_Some; [by right|]. apply list_lookup_singleton_Some in H as [_ <-]. by left. }
  constructor; [|assumption..| |].
  - intros j x key [->|Hj]%Hold Hk; [done|]. destruct (Hc j x key Hj Hk) as (H1 & H2 & H3). split_and!; [done|done|].
    intros j2 x2 [->|Hj2]%Hold Hk2; [done|by eapply H3].
  - intros j x fd claim [->|Hj]%Hold Hk; [done|]. destruct (Hfd j x fd claim Hj Hk) as (H1 & H2 & H3). split_and!; [done|done|].
    intros Hcl. destruct (H3 Hcl) as [H4 H5]. split; [done|]. intros j2 x2 c2 [->|Hj2]%Hold Hk2; [done|by eapply H5].
  - intros j x fd claim [->|Hj]%Hold Hk; [done|by eapply Hse].
Qed.
Lemma happen_ok ev s : (∀ request, ev = Spawn request → asked request) →
  (∀ r, (r, Ok tt) ∈ g_log (happen ev s).2 → Validate r = Ok tt → success r) → pool_ok s → pool_ok (happen ev s).
Proof.
  intros Hask Hs (ls & kind & Hb & Hsh). destruct s as [helpers g]. destruct ev as [request|i c]; cbn [happen fst snd] in *.
  - exists (ls ++ [idle]), kind. split; [|by apply shared_spawn]. apply Forall2_app; [done|]. constructor; [|done].
    apply behaves_execute. by apply Hask.
  - destruct (helpers !! i) as [[request p]|] eqn:Hi; [|by exists ls, kind].
    destruct (Forall2_lookup_r _ _ _ _ _ Hb Hi) as (l & Hl & Hp). cbn [fst snd] in Hp.
    destruct p as [r|X o k]; cbn [advance] in *.
    + exists ls, kind. cbn [fst snd]. assert (<[i := (request, Ret r)]> helpers = helpers) as -> by by apply list_insert_id. done.
    + destruct Hp as [Hm Hk]. destruct (do_op c o g) as [x g'] eqn:Hdo. cbn [fst snd] in *.
      destruct (do_op_shared ls kind g i l o c Hl Hsh Hm) as (kind' & l' & Ha & Hsh'); [by rewrite Hdo|].
      rewrite Hdo in Ha, Hsh'. exists (<[i := l']> ls), kind'. split; [|done]. apply Forall2_insert; [done|]. by apply Hk.
Qed.
(** The log only grows. *)
Lemma do_op_log {X} c (o : gop X) g e : e ∈ g_log g → e ∈ g_log (do_op c o g).2.
Proof.
  intros He. destruct o; cbn [do_op]; try (by rewrite plain_call_snd);
    try (by repeat case_match). apply elem_of_cons. by right.
Qed.
Lemma happen_log ev s e : e ∈ g_log s.2 → e ∈ g_log (happen ev s).2.
Proof.
  destruct s as [helpers g], ev as [request|i c]; [done|]. cbn. destruct (helpers !! i) as [[request [r|X o k]]|]; [done| |done].
  cbn [advance]. intros He. pose proof (do_op_log c o g e He) as H. by destruct (do_op c o g).
Qed.
Lemma schedule_log evs s e : e ∈ g_log s.2 → e ∈ g_log (schedule evs s).2.
Proof. revert s. induction evs as [|ev evs IH]; intros s He; [done|]. by apply IH, happen_log. Qed.
Lemma schedule_ok evs s : (∀ request, Spawn request ∈ evs → asked request) →
  (∀ r, (r, Ok tt) ∈ g_log (schedule evs s).2 → Validate r = Ok tt → success r) → pool_ok s → pool_ok (schedule evs s).
Proof.
  revert s. induction evs as [|ev evs IH]; intros s Hask Hs Hok; [done|]. cbn [schedule fold_left] in *. apply IH; [|done|].
  - intros request Hin. apply Hask, elem_of_cons. by right.
  - apply happen_ok; [|intros r Hr; by apply Hs, schedule_log|done]. intros request ->. apply Hask, elem_of_cons. by left.
Qed.

End safety.

Section pools.
Context {D : Digests}.
(** A guest in whose store nothing has been claimed. *)
Record unused (g : guest) : Prop := {
  un_names : g_names g = ∅; un_inodes : g_inodes g = ∅; un_log : g_log g = [] }.
Hypothesis digest_form : ∀ s, Session.lowerSHA256 (sha256 s) = true.
Lemma unused_ok asked success g : unused g → pool_ok asked success ([], g).
Proof.
  intros [Hn Hi Hl]. exists [], (λ _, false). split; [constructor|]. constructor; cbn.
  - done.
  - unfold log_keys. rewrite Hl. constructor.
  - intros r x Hin. rewrite Hl in Hin. by apply not_elem_of_nil in Hin.
  - intros session name ino. by rewrite Hn.
  - intros ino _. left. unfold data_of. by rewrite Hi.
  - intros ino _. by rewrite Hi.
  - done.
  - done.
Qed.
Definition succeeded_in (log : list (ActionRequest * res unit)) (r : ActionRequest) : Prop := (r, Ok tt) ∈ log ∧ Validate r = Ok tt.
Lemma reached_ok evs g : unused g →
  pool_ok (λ r, Spawn r ∈ evs) (succeeded_in (g_log (schedule evs ([], g)).2)) (schedule evs ([], g)).
Proof.
  intros Hg. apply schedule_ok; [done|by intros r []|done|by split|by apply unused_ok].
Qed.

(** One request of each run reaches a guest that runs each attempt once. *)
Lemma same_run_sym r r' : same_run r r' = true → same_run r' r = true.
Proof.
  unfold same_run. rewrite !andb_true_iff, !orb_true_iff, !eqs_true. intros ((((((-> & ->) & ->) & ->) & ->) & ->) & H).
  split_and!; try done. destruct H as [H|H]; auto.
Qed.
Lemma same_run_session r r' : same_run r r' = true → as_session (aq_association r) = as_session (aq_association r').
Proof. unfold same_run. rewrite !andb_true_iff, !eqs_true. naive_solver. Qed.
Lemma once_each (rs : list (bool * ActionRequest)) (log : list (ActionRequest * res unit)) :
  ForallOrdPairs repeats_nothing rs → (∀ e, e ∈ log → e.1 ∈ snd <$> rs) → NoDup ((λ e, run_key e.1) <$> log) →
  ForallOrdPairs (λ e e', same_run e.1 e'.1 = false) log.
Proof.
  intros Hrs Hin. induction log as [|e log IH]; [constructor|]. cbn [fmap list_fmap]. intros [Hn Hnd]%NoDup_cons. constructor.
  - apply Forall_forall. intros e' He'. apply not_true_is_false. intros Hsame. apply Hn, list_elem_of_fmap. exists e'. split; [|done].
    assert (aq_attempt e.1 = aq_attempt e'.1) as Ha.
    { pose proof (Hin e ltac:(by left)) as ([b r] & Her & Hr)%list_elem_of_fmap.
      pose proof (Hin e' ltac:(by right)) as ([b' r'] & Her' & Hr')%list_elem_of_fmap. cbn in Her, Her'. rewrite Her, Her' in *.
      destruct (ForallOrdPairs_In Hrs (b, r) (b', r')) as [[= -> ->]|[H|H]]; [by apply list_elem_of_In|by apply list_elem_of_In|done|..].
      - by destruct (H Hsame).
      - by destruct (H (same_run_sym _ _ Hsame)). }
    unfold run_key. by rewrite Ha, (same_run_session _ _ Hsame).
  - apply IH; [|done]. intros e2 He2. apply Hin. by right.
Qed.

(** ** Properties *)

(** C16: a guest runs an attempt at most once: whatever requests are made of
    it, however many helper processes serve them, in whatever order their single
    file-system calls happen, whichever of these fail (before their effect, after
    it, or a write part way), and whichever helpers never get any further, the
    commands it has ever run have pairwise different attempts, and each is the
    command of a valid request that was made of it. (A SHA-256 digest is 64
    lower-case hexadecimal digits.) *)
Theorem guest_runs_once (evs : list turn) (g : guest) (Hg : unused g) :
  let log := g_log (schedule evs ([], g)).2 in
  NoDup ((λ e, run_key e.1) <$> log) ∧ ∀ request x, (request, x) ∈ log → Spawn request ∈ evs ∧ Validate request = Ok tt.
Proof.
  destruct (reached_ok evs g Hg) as (ls & kind & _ & Hsh). cbv zeta. split; [apply Hsh|]. intros r x Hin.
  by destruct (sh_log _ _ _ _ _ Hsh r x Hin) as (_ & ? & ?).
Qed.

(** C18: a receipt is the truth: in every such schedule, a helper that
    returns without an error returns the one receipt of its request, and the
    guest has run the command of a request with that very receipt (the same
    session, object, generation, recipe, action, phase, attempt and request
    digest), and that command ended well. *)
Theorem guest_receipts_truthful (evs : list turn) (g : guest) (i : nat) (request : ActionRequest) (receipt : ActionReceipt)
    (Hg : unused g) (Hi : (schedule evs ([], g)).1 !! i = Some (request, Ret (Ok receipt))) :
  receipt = receipt_for request ∧
  ∃ r, (r, Ok tt) ∈ g_log (schedule evs ([], g)).2 ∧ run_key r = run_key request ∧ receipt_for r = receipt_for request.
Proof.
  destruct (reached_ok evs g Hg) as (ls & kind & Hb & _). destruct (Forall2_lookup_r _ _ _ _ _ Hb Hi) as (l & _ & Hp).
  destruct (Hp receipt eq_refl) as (-> & r & [Hr _] & He). split; [done|]. exists r. split_and!; [done| |done].
  unfold receipt_for in He. unfold run_key. by injection He as -> _ _ _ _ -> _.
Qed.

(** C17: the host and the guest together run each action once: when all that
    a guest is ever asked are requests that the host's action calls have sent, in
    any number and order of calls, under every failure on both sides, every
    schedule of the guest's helpers, and every interference on the host that
    respects the attempt protocol, no two of the commands the guest has run are
    the same action on the same system (and the same generation, but for once
    steps). *)
Theorem host_and_guest_run_once {B} {H : Host B} {E : Env} {AP : AttemptProtocol E} (calls : list (ActionService * action_call)) (k : disk) (b : B)
    (evs : list turn) (g : guest) (Hk : single_attempts k) (Hg : unused g)
    (Hasked : ∀ request, Spawn request ∈ evs → request ∈ snd <$> requests (w_trace (perform_all calls (worldOf k b)))) :
  ForallOrdPairs (λ e e', same_run e.1 e'.1 = false) (g_log (schedule evs ([], g)).2).
Proof.
  destruct (perform_all_pairs calls [] (worldOf k b)) as [_ Hp]; [by split|by constructor|].
  destruct (reached_ok evs g Hg) as (ls & kind & _ & Hsh). eapply once_each; [exact Hp| |apply Hsh].
  intros [r x] Hin. apply Hasked. by destruct (sh_log _ _ _ _ _ Hsh r x Hin) as (_ & _ & ?).
Qed.
End pools.

(** ** Evaluations *)

Section evaluations.
#[local] Existing Instance quietEnv.
#[local] Existing Instance labHost.
#[local] Existing Instance fixedDigests.
Definition lab_manifest (a : Association) : string :=
  render (JObj ([("version"%string, JNum Version)] ++ marshalAssociation a ++
    [("ca_fingerprint", jstr "SHA256:AAAAAAAAAAAAAAAAAAAAAAAAAAAAAAAAAAAAAAAAAAA");
     ("principal", jstr (derivedPrincipal (as_session a)))]%string)).
Definition lab_guest (a : Association) : guest := mkGuest ∅ ∅ 0 ∅ [] (Some (lab_manifest a)) [].
Lemma lab_guest_unused a : unused (lab_guest a).
Proof. by constructor. Qed.
Definition lab_choice : choice := mkChoice NoFault 0 Z.of_nat (Ok tt).
Definition lab_turns (helpers rounds : nat) : list turn :=
  mjoin (replicate rounds ((λ i, Next i lab_choice) <$> seq 0 helpers)).
(** Two helpers at once for one request; one of them alone runs the command.
    A third, later, returns the receipt of that run. *)
Definition lab_schedule : list turn :=
  [Spawn example_request; Spawn example_request] ++ lab_turns 2 70 ++ [Spawn example_request] ++ lab_turns 3 70.
#[local] Notation "'lab_final'" := (schedule lab_schedule ([], lab_guest example_association)) (only parsing).
Definition returned_ok (p : prog (res ActionReceipt)) : bool := match p with Ret r => is_ok r | Call _ _ => false end.
Lemma guest_runs_once_witness :
  NoDup ((λ e, run_key e.1) <$> g_log lab_final.2) ∧ length (g_log lab_final.2) = 1%nat ∧
  (λ h, returned_ok h.2) <$> lab_final.1 = [true; false; true].
Proof.
  pose proof (guest_runs_once (λ _, eq_refl) lab_schedule (lab_guest example_association) (lab_guest_unused example_association)) as Hr.
  split; [exact (proj1 Hr)|]. split; vm_compute; reflexivity.
Defined.
Lemma guest_receipts_truthful_witness :
  lab_final.1 !! 2%nat = Some (example_request, Ret (Ok (receipt_for example_request))) ∧
  ∃ r, (r, Ok tt) ∈ g_log lab_final.2 ∧ run_key r = run_key example_request ∧ receipt_for r = receipt_for example_request.
Proof.
  assert (lab_final.1 !! 2%nat = Some (example_request, Ret (Ok (receipt_for example_request)))) as Hi by (vm_compute; reflexivity).
  pose proof (guest_receipts_truthful (λ _, eq_refl) lab_schedule (lab_guest example_association) 2 example_request
    (receipt_for example_request) (lab_guest_unused example_association) Hi) as Hr.
  split; [exact Hi|exact (proj2 Hr)].
Defined.
(** All requests that the action calls of [lab_calls] send, each asked twice. *)
#[local] Notation "'lab_requests'" :=
  (snd <$> requests (w_trace (perform_all lab_calls (worldOf action_disk (w_host action_world))))) (only parsing).
Definition lab_asked : list turn := (Spawn <$> lab_requests ++ lab_requests) ++ lab_turns 4 70.
Definition lab_session_guest : guest := lab_guest (match lab_requests with r :: _ => aq_association r | [] => zeroAssociation end).
Lemma lab_session_unused : unused lab_session_guest.
Proof. constructor; reflexivity. Qed.
Lemma spawned_turns helpers rounds request : Spawn request ∉ lab_turns helpers rounds.
Proof.
  unfold lab_turns. intros (l & Hin & Hl)%list_elem_of_join. apply elem_of_replicate in Hl as [-> _].
  by apply list_elem_of_fmap in Hin as (i & Hi & _).
Qed.
Lemma lab_asked_sent request : Spawn request ∈ lab_asked → request ∈ lab_requests.
Proof.
  unfold lab_asked. intros [H|H]%elem_of_app; [|by apply spawned_turns in H].
  apply list_elem_of_fmap in H as (r & [= ->] & Hr). apply elem_of_app in Hr as [H|H]; exact H.
Qed.
Lemma host_and_guest_run_once_witness :
  ForallOrdPairs (λ e e', same_run e.1 e'.1 = false) (g_log (schedule lab_asked ([], lab_session_guest)).2) ∧
  length (g_log (schedule lab_asked ([], lab_session_guest)).2) = 2%nat.
Proof.
  pose proof (host_and_guest_run_once (λ _, eq_refl) lab_calls action_disk (w_host action_world) lab_asked lab_session_guest action_disk_single
    lab_session_unused) as Hr.
  split; [exact (Hr lab_asked_sent)|vm_compute; reflexivity].
Defined.
End evaluations.
