(* ===== verification/GuestRun.v ===== *)
(** A helper of the guest on its own, with every call going as it should: it
    completes its action, and asked again it runs nothing. *)
From S2P Require Import Prelude Ids Json JsonText Recipe GuestProto World Host GuestAction GuestSafety.

(** ** Lemmas *)

Section alone.
Context {D : Digests}.
(** One helper on its own, every call as it should go. *)
Definition untroubled (nonce : nat → Z) (answer : res unit) : choice := mkChoice NoFault 0 nonce answer.
Fixpoint run_alone {A} (c : choice) (p : prog A) (g : guest) : A * guest :=
  match p with
  | Ret a => (a, g)
  | Call o k => let '(x, g') := do_op c o g in run_alone c (k x) g'
  end.
Lemma run_alone_bind {A C} c (p : prog A) (f : A → prog C) g :
  run_alone c (pbind p f) g = let '(a, g') := run_alone c p g in run_alone c (f a) g'.
Proof. revert g. induction p as [a|X o k IH]; intros g; [done|]. cbn. destruct (do_op c o g) as [x g']. apply IH. Qed.
Lemma run_alone_rbind {A C} c (p : prog (res A)) (f : A → prog (res C)) g :
  run_alone c (rbind p f) g = let '(r, g') := run_alone c p g in match r with Ok a => run_alone c (f a) g' | Er e => (Er e, g') end.
Proof. unfold rbind. rewrite run_alone_bind. destruct (run_alone c p g) as [[a|e] g']; done. Qed.

Context (nonce : nat → Z) (answer : res unit) (request : ActionRequest) (contents : string) (manifest : bindingManifest).
Hypothesis digest_form : ∀ s, Session.lowerSHA256 (sha256 s) = true.
Context (encoded : string * string) (Hencode : EncodeActionRequest request = Ok encoded).
Hypothesis Hparse : parseManifest contents = Ok manifest.
Hypothesis Hversion : bm_version manifest = Version.
Hypothesis Hbound : bm_association manifest = aq_association request.
Let c := untroubled nonce answer.
Let session := as_session (aq_association request).
Let attempt := aq_attempt request.
Let digest := sha256 (render (marshalRequest request)).
Let claim := render (marshalClaim digest).
Let tmp := receipt_name attempt +:+ ".tmp-" +:+ Session.hex ((λ i, nonce i `mod` 256) <$> seq 0 16).

Lemma encoding : Validate request = Ok tt ∧ encoded = (render (marshalRequest request), digest).
Proof using Hencode.
  destruct encoded as [raw d]. pose proof (EncodeActionRequest_ok _ _ _ Hencode) as (? & -> & -> & _). done.
Qed.
Lemma manifest_principal : bm_principal manifest = derivedPrincipal session.
Proof using Hparse Hbound.
  unfold parseManifest in Hparse. res_inv Hparse. apply check_ok in Ha2. bsimpl. unfold session. rewrite <-Hbound. congruence.
Qed.
Definition at_work (names : gmap (string * string) nat) inodes n dirs log : guest := mkGuest names inodes n dirs [] (Some contents) log.
#[local] Arguments openActionChild : simpl never.
Lemma child_alone parent path create names inodes n dirs log : create = true ∨ dirs !! path = Some tt →
  run_alone c (openActionChild parent path create) (at_work names inodes n dirs log) =
  (Ok tt, at_work names inodes n (<[path := tt]> dirs) log).
Proof using.
  intros Hc. unfold openActionChild. cbn. destruct (dirs !! path) as [[]|] eqn:Hd; cbn.
  - by rewrite Hd, insert_id.
  - destruct Hc as [->|]; [|done]. cbn. rewrite Hd. cbn. rewrite lookup_insert_eq. cbn. by rewrite lookup_insert_eq.
Qed.
Definition prepared (dirs : gmap string unit) : gmap string unit := <[session_path session := tt]> (<[attempts_path := tt]> dirs).
Definition has_dirs (dirs : gmap string unit) : Prop := dirs !! attempts_path = Some tt ∧ dirs !! session_path session = Some tt.
Lemma prepared_has dirs : has_dirs (prepared dirs).
Proof using.
  split; unfold prepared; [|apply lookup_insert_eq]. destruct (decide (session_path session = attempts_path)) as [->|Hne]; [apply lookup_insert_eq|].
  by rewrite lookup_insert_ne, lookup_insert_eq.
Qed.
Lemma has_prepared dirs : has_dirs dirs → prepared dirs = dirs.
Proof using. intros [H1 H2]. unfold prepared. by rewrite (insert_id dirs attempts_path), insert_id. Qed.
Lemma open_alone create names inodes n dirs log : create = true ∨ has_dirs dirs →
  run_alone c (openActionStore request create) (at_work names inodes n dirs log) = (Ok tt, at_work names inodes n (prepared dirs) log).
Proof using All.
  intros Hc. unfold openActionStore, verifyActiveAssociation. rewrite (proj1 encoding). cbn. rewrite Hparse. cbn.
  rewrite Hversion, Hbound, manifest_principal, bool_decide_true, eqs_refl by done. cbn.
  rewrite run_alone_rbind, child_alone by by destruct Hc as [|[]]; auto.
  apply child_alone. destruct Hc as [|[]]; [by left|right]. fold session.
  destruct (decide (attempts_path = session_path session)) as [->|Hne]; [apply lookup_insert_eq|by rewrite lookup_insert_ne].
Qed.
Lemma claim_bytes : actionClaimBytes request = Ok claim.
Proof using Hencode. unfold actionClaimBytes. rewrite Hencode. destruct encoding as [_ ->]. done. Qed.
Lemma claim_size : (N.of_nat (String.length claim) ≤ 256)%N.
Proof using digest_form.
  unfold claim. rewrite render_size. unfold marshalClaim.
  pose proof (plain_sha _ (or_intror (digest_form (render (marshalRequest request))))) as Hp. fold digest in Hp. clearbody digest. destruct Hp as (?&?&?).
  eapply N.le_trans; [obj_size_tac|]. unfold Version. size_lia.
Qed.
(** The store of one attempt: nothing, its claim, its claim and its receipt. *)
Definition claim_key_of : string * string := (session, claim_name attempt).
Definition receipt_key_of : string * string := (session, receipt_name attempt).
Lemma keys_differ : claim_key_of ≠ receipt_key_of ∧ (session, tmp) ≠ receipt_key_of ∧ (session, tmp) ≠ claim_key_of.
Proof.
  unfold claim_key_of, receipt_key_of. split_and!.
  - intros [= H]. apply (f_equal claim_of) in H. by rewrite claim_of_claim, claim_of_receipt in H.
  - intros [= H]. apply (f_equal String.length) in H. unfold tmp in H. rewrite !str_length_app in H. cbn in H. lia.
  - intros [= H]. apply (f_equal claim_of) in H. unfold tmp in H. by rewrite claim_of_temporary, claim_of_claim in H.
Qed.
Lemma claim_alone n dirs :
  run_alone c (ClaimAction request) (at_work ∅ ∅ n dirs []) =
  (Ok None, at_work {[claim_key_of := n]} {[n := mkInode claim true]} (S n) (prepared dirs) []).
Proof using All.
  unfold ClaimAction. rewrite run_alone_rbind, open_alone by by left. rewrite claim_bytes.
  unfold claim_key_of. clearbody claim. cbn. fold session attempt. cbn. rewrite !lookup_empty. cbn. rewrite !lookup_empty. cbn. rewrite !lookup_empty.
  unfold create_file, at_work. cbn. unfold set_data, data_of. cbn [g_names g_inodes g_next g_dirs g_unsafe g_manifest g_log].
  by rewrite lookup_insert_eq, alter_insert_eq.
Qed.

Lemma run_alone_call {X A} (o : gop X) (f : X → prog A) g :
  run_alone c (pbind (call o) f) g = let '(x, g') := do_op c o g in run_alone c (f x) g'.
Proof. reflexivity. Qed.
Lemma only_link names inodes n dirs log k ino : names !! k = Some ino → (∀ k', names !! k' = Some ino → k' = k) →
  links ino (at_work names inodes n dirs log) = 1%nat.
Proof.
  intros Hn Hone. unfold links. cbn. rewrite <-(map_size_singleton (M := gmap (string * string)) k ino). f_equal. apply map_eq. intros k2.
  apply option_eq. intros x. rewrite map_lookup_filter_Some, lookup_singleton_Some. cbn. split.
  - intros [Hk ->]. split; [symmetry; by apply Hone|done].
  - by intros [<- <-].
Qed.
Lemma substring_long data n : (String.length data ≤ n)%nat → String.substring 0 n data = data.
Proof. revert n. induction data as [|a data IH]; intros [|n] Hn; cbn in *; try done; [lia|]. by rewrite IH by lia. Qed.
Lemma read_alone name limit ino data names inodes n dirs log :
  names !! (session, name) = Some ino → inodes !! ino = Some (mkInode data true) →
  (∀ k, names !! k = Some ino → k = (session, name)) → (N.of_nat (String.length data) ≤ limit)%N →
  run_alone c (readActionFile session name limit) (at_work names inodes n dirs log) = (Ok data, at_work names inodes n dirs log).
Proof.
  intros Hn Hi Hone Hl. unfold readActionFile. rewrite run_alone_rbind. cbn [call run_alone do_op plain_call ch_fault c untroubled].
  change (g_names (at_work names inodes n dirs log)) with names. rewrite Hn.
  assert (info_of ino (at_work names inodes n dirs log) = mkInfo ino true 1) as ->.
  { unfold info_of. rewrite (only_link _ _ _ _ _ _ _ Hn Hone). cbn. by rewrite Hi. }
  cbn [fi_private fi_links fi_ino Nat.eqb andb negb]. rewrite run_alone_rbind. cbn [call run_alone do_op plain_call ch_fault c untroubled].
  change (g_names (at_work names inodes n dirs log)) with names. rewrite Hn. cbn [call pbind run_alone do_op plain_call ch_fault c untroubled].
  rewrite Nat.eqb_refl. cbn [negb call pbind run_alone do_op plain_call ch_fault c untroubled].
  assert (data_of ino (at_work names inodes n dirs log) = data) as -> by (unfold data_of; cbn; by rewrite Hi).
  rewrite substring_long by lia. replace (limit <? _)%N with false by (symmetry; by apply N.ltb_ge).
  cbn [call pbind run_alone do_op plain_call ch_fault c untroubled]. change (g_names (at_work names inodes n dirs log)) with names. rewrite Hn.
  cbn [info_of fi_ino call pbind run_alone do_op plain_call ch_fault c untroubled]. rewrite Nat.eqb_refl. done.
Qed.
Lemma read_none name limit names inodes n dirs log : names !! (session, name) = None →
  run_alone c (readActionFile session name limit) (at_work names inodes n dirs log) = (Er ErrNotExist, at_work names inodes n dirs log).
Proof. intros Hn. unfold readActionFile. rewrite run_alone_rbind. cbn. by rewrite Hn. Qed.
Definition claimed n dirs log : guest := at_work {[claim_key_of := n]} {[n := mkInode claim true]} (S n) dirs log.
Definition published n dirs log : guest :=
  at_work (<[receipt_key_of := S n]> {[claim_key_of := n]}) (<[S n := mkInode (receipt_bytes request) true]> {[n := mkInode claim true]}) (S (S n)) dirs log.
Lemma write_alone fd data names inodes n dirs log i : inodes !! fd = Some i →
  run_alone c (writeFile fd data) (at_work names inodes n dirs log) =
  (Ok tt, at_work names (<[fd := mkInode (in_data i +:+ data) (in_private i)]> inodes) n dirs log).
Proof.
  intros Hi. unfold writeFile, at_work. cbn. unfold set_data, data_of. cbn [g_inodes g_names g_next g_dirs g_unsafe g_manifest g_log]. rewrite Hi.
  do 2 f_equal. apply map_eq. intros j.
  destruct (decide (j = fd)) as [->|Hj]; [by rewrite lookup_alter_eq, lookup_insert_eq, Hi|by rewrite lookup_alter_ne, lookup_insert_ne].
Qed.
Lemma publishReceipt_alone bytes data n dirs log :
  run_alone c (publishReceipt session (receipt_name attempt) bytes)
    (at_work {[claim_key_of := n]} {[n := mkInode data true]} (S n) dirs log) =
  (Ok tt, at_work (<[receipt_key_of := S n]> {[claim_key_of := n]}) (<[S n := mkInode bytes true]> {[n := mkInode data true]}) (S (S n)) dirs log).
Proof using.
  destruct keys_differ as (H1 & H2 & H3). unfold claim_key_of, receipt_key_of in *.
  unfold publishReceipt. rewrite run_alone_rbind. cbn [run_alone call do_op plain_call ch_fault c untroubled ch_nonce].
  fold tmp. clearbody tmp. rewrite run_alone_call. cbn [do_op ch_fault c untroubled at_work g_names].
  rewrite lookup_singleton_ne by done. cbn [g_next]. unfold removing. rewrite run_alone_bind, run_alone_rbind.
  unfold create_file, at_work. cbn [g_names g_inodes g_next g_dirs g_unsafe g_manifest g_log].
  change (mkGuest ?a ?b ?d ?e [] (Some contents) ?f) with (at_work a b d e f).
  rewrite (write_alone _ _ _ _ _ _ _ (mkInode "" true)) by apply lookup_insert_eq.
  rewrite insert_insert_eq. cbn [in_data in_private String.append]. rewrite run_alone_call.
  cbn [do_op ch_fault c untroubled at_work g_names]. rewrite lookup_insert_eq, lookup_insert_ne, lookup_singleton_ne by done.
  unfold set_names. cbn [g_names g_inodes g_next g_dirs g_unsafe g_manifest g_log run_alone call rbind pbind do_op ch_fault c untroubled].
  rewrite lookup_insert_ne, lookup_insert_eq by done. cbn [run_alone plain_call ch_fault c untroubled do_op g_names set_names]. 
  cbn [run_alone call plain_call do_op ch_fault c untroubled]. unfold set_names, at_work. cbn [g_names g_inodes g_next g_dirs g_unsafe g_manifest g_log].
  rewrite lookup_delete_eq, delete_insert_ne, delete_insert_id by (try apply lookup_singleton_ne; done). done.
Qed.
Lemma publish_alone n dirs log : has_dirs dirs →
  run_alone c (PublishActionSuccess request (receipt_for request)) (claimed n dirs log) = (Ok tt, published n dirs log).
Proof using All.
  intros Hd. unfold PublishActionSuccess. rewrite (encoded_receipt request (render (marshalRequest request)) digest).
  2: { rewrite Hencode. f_equal. apply encoding. }
  2: apply digest_form.
  rewrite run_alone_rbind. cbn [pure run_alone]. rewrite run_alone_rbind. unfold claimed. rewrite open_alone, has_prepared by auto.
  rewrite run_alone_rbind, claim_bytes. cbn [pure run_alone]. fold session attempt. rewrite run_alone_bind.
  rewrite (read_alone _ _ n claim); [|apply lookup_singleton_eq|apply lookup_singleton_eq|by intros k [? _]%lookup_singleton_Some|apply claim_size].
  rewrite eqs_refl. cbn [negb]. rewrite run_alone_bind.
  destruct keys_differ as (H1 & H2 & H3). unfold published, claim_key_of, receipt_key_of in *. fold tmp.
  fold (receipt_bytes request). generalize (receipt_bytes request). intros bytes. clearbody claim.
  rewrite read_none by by rewrite lookup_singleton_ne.
  change (err_not_exist ErrNotExist) with true. cbn [negb].
  apply publishReceipt_alone.
Qed.
(** A helper whose attempt was claimed before. *)
Lemma reclaim_alone names inodes n ino dirs log : has_dirs dirs →
  names !! claim_key_of = Some ino → inodes !! ino = Some (mkInode claim true) → (∀ k, names !! k = Some ino → k = claim_key_of) →
  run_alone c (ClaimAction request) (at_work names inodes n dirs log) =
  run_alone c (let* raw := readActionFile session (receipt_name attempt) MaxActionReceiptBytes in
               match raw with
               | Er e => Ret (if err_not_exist e then fail "action was claimed without a completed receipt" else Er e)
               | Ok raw => Ret (let? receipt := DecodeActionReceipt request raw in Ok (Some receipt))
               end) (at_work names inodes n dirs log).
Proof using All.
  intros Hd Hn Hi Hone. unfold ClaimAction. rewrite run_alone_rbind, open_alone, has_prepared by auto.
  rewrite run_alone_rbind, claim_bytes. cbn [pure run_alone]. fold session attempt. rewrite run_alone_call.
  cbn [do_op plain_call ch_fault c untroubled at_work g_names]. unfold claim_key_of in Hn. rewrite Hn. unfold readClaimed. fold session attempt.
  rewrite run_alone_bind, (read_alone _ _ ino claim) by (done || apply claim_size). by rewrite eqs_refl.
Qed.
Definition finished n dirs : guest :=
  match answer with
  | Ok _ => published n (prepared dirs) [(request, Ok tt)]
  | Er e => claimed n (prepared dirs) [(request, Er e)]
  end.
Lemma execute_alone n dirs : aq_phase request ≠ "launch"%string →
  run_alone c (ExecuteAction request) (at_work ∅ ∅ n dirs []) =
  (match answer with Ok _ => Ok (receipt_for request) | Er e => Er e end, finished n dirs).
Proof using All.
  intros Hp. unfold ExecuteAction. rewrite run_alone_rbind. cbn [call run_alone do_op plain_call ch_fault c untroubled].
  rewrite (proj1 encoding). rewrite run_alone_rbind. cbn [pure run_alone]. rewrite run_alone_rbind.
  replace (aq_phase request ≠s "launch") with true by (symmetry; by apply neqs_true). cbn [check pure run_alone].
  rewrite run_alone_rbind, claim_alone. unfold rbind at 1. rewrite run_alone_call. cbn [do_op ch_answer c untroubled].
  unfold finished, claimed, at_work. cbn [g_names g_inodes g_next g_dirs g_unsafe g_manifest g_log].
  assert (answer = Ok tt ∨ ∃ e, answer = Er e) as [Ha|[e Ha]] by (destruct answer as [[]|e]; eauto); rewrite Ha; [|done].
  rewrite run_alone_rbind, Hencode. cbn [pure run_alone]. rewrite (proj2 encoding). cbn [snd]. unfold digest.
  fold (receipt_for request). rewrite run_alone_rbind.
  change (mkGuest ?a ?b ?d ?e [] (Some contents) ?f) with (at_work a b d e f). fold (claimed n (prepared dirs) [(request, Ok tt)]). rewrite (publish_alone n).
  - done.
  - apply prepared_has.
Qed.
(** Asked again, nothing runs: the receipt of a command that ended well comes
    back, and one that did not is never tried again. *)
Lemma again_alone n dirs : aq_phase request ≠ "launch"%string →
  run_alone c (ExecuteAction request) (finished n dirs) =
  (match answer with Ok _ => Ok (receipt_for request) | Er _ => fail "action was claimed without a completed receipt" end, finished n dirs).
Proof using All.
  intros Hp. unfold ExecuteAction. rewrite run_alone_rbind. cbn [call run_alone do_op plain_call ch_fault c untroubled].
  rewrite (proj1 encoding). rewrite run_alone_rbind. cbn [pure run_alone]. rewrite run_alone_rbind.
  replace (aq_phase request ≠s "launch") with true by (symmetry; by apply neqs_true). cbn [check pure run_alone].
  rewrite run_alone_rbind. destruct keys_differ as (H1 & _ & _). unfold claim_key_of, receipt_key_of in H1.
  assert (answer = Ok tt ∨ ∃ e, answer = Er e) as [Ha|[e Ha]] by (destruct answer as [[]|e]; eauto);
    unfold finished; rewrite Ha; unfold published, claimed.
  - rewrite (reclaim_alone _ _ _ n); [|apply prepared_has|by rewrite lookup_insert_ne, lookup_singleton_eq
      |by rewrite lookup_insert_ne, lookup_singleton_eq by lia|].
    2: { intros k [[<- H]|[_ [? _]%lookup_singleton_Some]]%lookup_insert_Some; [lia|done]. }
    rewrite run_alone_bind, (read_alone _ _ (S n) (receipt_bytes request)); [|apply lookup_insert_eq|apply lookup_insert_eq| |].
    + cbn [run_alone]. unfold receipt_bytes. pose proof Hencode as He. rewrite (proj2 encoding) in He.
      rewrite (canonical_receipt _ _ _ _ He (digest_form _) (or_introl eq_refl)). done.
    + intros k [[<- _]|[_ [_ ?]%lookup_singleton_Some]]%lookup_insert_Some; [done|lia].
    + unfold receipt_bytes. rewrite render_size.
      pose proof (receipt_size _ (receipt_for_ok _ (Validate_ok _ (proj1 encoding)) (digest_form _))). unfold MaxActionReceiptBytes. lia.
  - rewrite (reclaim_alone _ _ _ n); [|apply prepared_has|apply lookup_singleton_eq|apply lookup_singleton_eq|by intros k [? _]%lookup_singleton_Some].
    unfold claim_key_of. by rewrite run_alone_bind, read_none by by rewrite lookup_singleton_ne.
Qed.
End alone.

(** ** Properties *)

(** C19: a helper left alone completes: on a guest whose store is unused
    and whose binding manifest is that of the request, a helper for an encodable
    request other than a desktop launch runs the command exactly once and returns
    the request's receipt if the command ends well, and the command's error
    otherwise; asked for the same request again, it runs nothing and changes
    nothing, and returns the very same receipt, or refuses because the earlier
    command did not complete. *)
Theorem lone_helper_completes {D : Digests} (nonce : nat → Z) (answer : res unit) (request : ActionRequest) (g : guest) (contents : string)
    (manifest : bindingManifest) (Hd : ∀ s, Session.lowerSHA256 (sha256 s) = true) (Hg : unused g) (Hsafe : g_unsafe g = [])
    (Hm : g_manifest g = Some contents) (Hp : parseManifest contents = Ok manifest) (Hv : bm_version manifest = Version)
    (Ha : bm_association manifest = aq_association request) (He : is_ok (EncodeActionRequest request) = true)
    (Hph : aq_phase request ≠ "launch"%string) :
  let first := run_alone (untroubled nonce answer) (ExecuteAction request) g in
  let second := run_alone (untroubled nonce answer) (ExecuteAction request) first.2 in
  first.1 = match answer with Ok _ => Ok (receipt_for request) | Er e => Er e end ∧ g_log first.2 = [(request, answer)] ∧
  second.1 = match answer with Ok _ => Ok (receipt_for request)
                             | Er _ => fail "action was claimed without a completed receipt" end ∧ second.2 = first.2.
Proof.
  destruct g as [names inodes n dirs unsafe m log], Hg as [H1 H2 H3]. cbn in H1, H2, H3, Hsafe, Hm. subst.
  destruct (EncodeActionRequest request) as [encoded|e] eqn:Henc; [|done].
  cbv zeta. change (mkGuest ∅ ∅ n dirs [] (Some contents) []) with (at_work contents ∅ ∅ n dirs []).
  rewrite (execute_alone nonce answer request contents manifest Hd encoded) by done. cbn [fst snd].
  rewrite (again_alone nonce answer request contents manifest Hd encoded) by done. unfold finished. by destruct answer as [[]|e].
Qed.

(** ** Evaluations *)

Section evaluations.
#[local] Existing Instance fixedDigests.
Lemma lone_helper_completes_witness :
  (run_alone (untroubled Z.of_nat (Ok tt)) (ExecuteAction example_request) (lab_guest example_association)).1 = Ok (receipt_for example_request).
Proof.
  refine (proj1 (lone_helper_completes Z.of_nat (Ok tt) example_request (lab_guest example_association) (lab_manifest example_association)
    (mkManifest Version example_association "SHA256:AAAAAAAAAAAAAAAAAAAAAAAAAAAAAAAAAAAAAAAAAAA" (derivedPrincipal (as_session example_association)))
    _ _ _ _ _ _ _ _ _)); first [reflexivity|by constructor|done].
Defined.
End evaluations.
