(* ===== verification/SessionDelete.v ===== *)
(** Deleting a session: src/internal/session/delete.go. The gate that reserves
    the deletion and the finalizer that detaches the retained volumes are
    reached through the class [StoppedGates], which the rebuild service uses too. *)
From S2P Require Import Prelude Ids Json SessionRecord Outside World Host Logic SessionStore RebuildJournal WorkspaceRecord WorkspaceStore SessionCreate.

(** RebuildGate, DeleteGate and DeleteFinalizer; the boolean is the presence of
    the backend observer. *)
Class StoppedGates (B : Type) := {
  RebuildGate : ∀ {A}, bool → string → SessionRecord → M B A → M B A;
  DeleteGate : ∀ {A}, bool → string → SessionRecord → M B A → M B A;
  DeleteFinalizer : bool → string → SessionRecord → M B unit;
}.

Record DeleteDependencies := mkDeleteDeps { dd_Observer : bool; dd_Deleter : bool; dd_Gate : bool; dd_Finalize : bool }.
Record DeleteService := mkDeleteService { ds_nil : bool; ds_domain : DomainConfig; ds_deps : DeleteDependencies }.

Definition deletingRecord (record : SessionRecord) : SessionRecord :=
  set_readiness (mkReadiness ReadinessNotReady "") (set_state StateDeleting record).

(** The backend answers that let a reserved deletion go on. *)
Definition deletable (o : Observation) (objectID : string) : bool :=
  (ob_object o =s objectID) && ObjectState_Valid (ob_state o) &&
  negb (ob_exists o && (ob_state o ≠s ObjectStopped)) && negb (negb (ob_exists o) && (ob_state o ≠s ObjectUnknown)).

Section delete.
Context {B : Type} {H : Host B} {E : Env} {G : StoppedGates B}.

(** The deletion intent: reserved under the gate when the session is stopped,
    written again under the session lock when a previous attempt left it. *)
Definition reserveDeletion (domainID name : string) (record : SessionRecord) : M B SessionRecord :=
  if sr_state record =s StateStopped then
    wrap "reserve stopped session deletion"
      (DeleteGate true domainID record (
         let record := deletingRecord record in
         SaveRecord domainID record ;;! ret record))
  else if sr_state record =s StateDeleting then
    let session := Lock.session_scope domainID name in
    AcquireSession domainID name ;;!
    let! loaded := attempt (LoadRecord domainID name) in
    match loaded with
    | Ok current =>
        if bool_decide (current = record) then
          let! synced := attempt (SaveRecord domainID record) in
          let! released := attempt (Release session) in
          match synced, released with
          | Ok _, Ok _ => ret record
          | Er e, Ok _ | Ok _, Er e => throw (wrapw "sync deletion intent before retry" e)
          | Er e, Er e2 => throw (wrapw "sync deletion intent before retry" (join_err e e2))
          end
        else throw_join (Errorf "deleting session changed before retry") (Release session)
    | Er _ => throw_join (Errorf "deleting session changed before retry") (Release session)
    end
  else throw (Errorf "session is not durably stopped or deleting").

Definition DeleteSession (s : DeleteService) (rawName : string) : M B unit :=
  guard (ds_nil s || negb (dd_Observer (ds_deps s)) || negb (dd_Deleter (ds_deps s)) || negb (dd_Gate (ds_deps s)) ||
         negb (dd_Finalize (ds_deps s))) "session deletion dependencies are required" ;;!
  let! domainID := lift (admitDomain (ds_domain s)) in
  let! name := lift (Session.ParseName rawName) in
  Acquire (Lock.transition_scope domainID name) ;;!
  deferred_join (Lock.transition_scope domainID name) (
  let! record := LoadRecord domainID name in
  RequireNoRebuild domainID name ;;!
  let! record := reserveDeletion domainID name record in
  let objectID := br_object_id (sr_backend record) in
  let! observation := wrapv "ambiguous backend state before session deletion" (Observe objectID) in
  guard (negb (deletable observation objectID)) "ambiguous backend state before session deletion" ;;!
  (if ob_exists observation then wrap "delete exact stopped backend" (Delete objectID) else ret tt) ;;!
  let! observation := wrapv "backend did not reconcile absent after deletion" (Observe objectID) in
  guard (negb (exactly_absent observation objectID)) "backend did not reconcile absent after deletion" ;;!
  wrap "retain workspace volumes after backend deletion" (DeleteFinalizer true domainID record)).
End delete.

(** ** What the gates promise *)

(** The state in which a gate runs the reservation. *)
Record reservable {B} (dom : string) (expected : SessionRecord) (w : world B) : Prop := {
  rv_lock : Lock.session_scope dom (sr_name expected) ∈ w_locks w;
  rv_session : session_at dom (sr_name expected) (w_disk w) = Some expected;
  rv_rebuild : w_disk w !! (Rebuilds, json_name (sr_name expected)) = None;
  rv_stopped : recently (observed_stopped (br_object_id (sr_backend expected))) (w_trace w);
}.
(** A gate only locks and observes besides its reservation, gives its locks up
    again, and succeeds as the reservation does. *)
Definition gated {B} {E : Env} (gate : ∀ {A}, bool → string → SessionRecord → M B A → M B A) : Prop :=
  ∀ A P (Q : A → disk → Prop) observer dom expected (reserve : M B A) w,
    (∀ w1, reservable dom expected w1 → w_locks w ⊆ w_locks w1 → left_alone (w_disk w) (w_disk w1) →
       wp (gate_steps P expected) reserve (leaves (w_locks w1) (λ r k _, ∀ a, r = Ok a → Q a k)) w1) →
    wp (gate_steps P expected) (gate observer dom expected reserve) (leaves (w_locks w) (λ r k _, ∀ a, r = Ok a → Q a k)) w.
(** The finalizer detaches volumes and then removes the session, only once the
    backend object was observed absent. *)
Definition finalizer_steps (dom : string) (expected : SessionRecord) (o : list step) (s : step) : Prop :=
  match st_event s with
  | EvAcquire _ | EvRelease _ => True
  | EvPublish Workspaces _ _ => detach_step dom (sr_name expected) o s
  | EvObserve id _ => id = br_object_id (sr_backend expected)
  | EvRemove Sessions n =>
      n = json_name (sr_name expected) ∧ Lock.session_scope dom (sr_name expected) ∈ st_locks s ∧
      recently (observed_absent (br_object_id (sr_backend expected))) o
  | _ => False
  end.
Class GateLaws (B : Type) {E : Env} {G : StoppedGates B} : Prop := {
  law_rebuild_gate : gated (@RebuildGate B G);
  law_delete_gate : gated (@DeleteGate B G);
  law_finalize : ∀ observer dom expected w,
    wp (finalizer_steps dom expected) (DeleteFinalizer observer dom expected)
       (λ r w', w_locks w' = w_locks w ∧ (r = Ok tt → w_disk w' !! (Sessions, json_name (sr_name expected)) = None)) w;
}.

(** ** The steps of a deletion *)

Definition delete_steps (dom name : string) (o : list step) (s : step) : Prop :=
  match st_event s with
  | EvAcquire _ | EvRelease _ | EvObserve _ _ => True
  | EvPublish Workspaces _ _ => detach_step dom name o s
  | EvPublish Sessions n _ =>
      n = json_name name ∧ Lock.session_scope dom name ∈ st_locks s ∧
      ∃ r, durably StateDeleting dom name s r ∧
        (recently (observed_stopped (br_object_id (sr_backend r))) o ∧ st_disk s !! (Rebuilds, json_name name) = None ∨
         ∃ t rest, o = t :: rest ∧ durably StateDeleting dom name t r)
  | EvDelete object _ =>
      Lock.transition_scope dom name ∈ st_locks s ∧
      recently (observed_stopped object) o ∧
      ∃ r, durably StateDeleting dom name s r ∧ object = br_object_id (sr_backend r)
  | EvRemove Sessions n =>
      n = json_name name ∧ Lock.session_scope dom name ∈ st_locks s ∧
      ∃ r t, t ∈ o ∧ durably StateDeleting dom name t r ∧ recently (observed_absent (br_object_id (sr_backend r))) o
  | _ => False
  end.
Lemma delete_lock_free dom name : lock_free (delete_steps dom name).
Proof. intros o s sc [Hs|Hs]; unfold delete_steps; by rewrite Hs. Qed.
#[export] Hint Resolve delete_lock_free : go.

Lemma deletable_stopped o objectID : deletable o objectID = true → ob_exists o = true → ob_object o = objectID ∧ exists_stopped o = true.
Proof.
  unfold deletable, exists_stopped. intros Hd Hex. rewrite Hex in *. cbn [andb negb] in *.
  rewrite !andb_true_iff, negb_true_iff, neqs_false, !String.eqb_eq in *. naive_solver.
Qed.

Section delete_lemmas.
Context {B : Type} {H : Host B} {E : Env} {G : StoppedGates B} {GL : GateLaws B}.
Context (dom name : string).
Implicit Types (w : world B).
#[local] Abbreviation session_lock := (Lock.session_scope dom name).
#[local] Abbreviation steps := (delete_steps dom name).

(** The deletion is reserved: the record on disk says so. *)
Definition reserved (a : SessionRecord) (k : disk) : Prop := session_at dom name k = Some a ∧ sr_state a = StateDeleting.
#[local] Abbreviation reservation L := (leaves L (λ r k _, ∀ a, r = Ok a → reserved a k)).

Lemma save_reserved record w r2 :
  record_ok dom record = true → sr_name record = name → sr_state record = StateDeleting →
  reserved record (w_disk (did (B := B) (save_event record) (saved_disk record (w_disk w)) (set_locks r2 w))).
Proof.
  intros Hok Hn Hst. split; [|done]. cbn. rewrite <-Hn, (session_at_saved dom record (w_disk w) Hok).
  by rewrite upgrade_active by (rewrite Hst; done).
Qed.

(** The reservation the gate runs on a stopped session. *)
Lemma wp_reserveStopped record w : sr_name record = name → reservable dom record w →
  wp (gate_steps steps record) (SaveRecord dom (deletingRecord record) ;;! ret (deletingRecord record)) (reservation (w_locks w)) w.
Proof.
  intros Hn [Hl Hses Hreb Hobs]. rewrite Hn in *.
  apply wp_bind, wp_SaveRecord; [|intros; by_error]. intros Hok.
  pose proof (save_reserved (deletingRecord record) w (w_locks w) Hok Hn eq_refl) as Hres. split.
  - unfold gate_steps, steps. cbn [st_event save_event st_locks st_disk]. split; [by rewrite <-Hn|]. split; [done|].
    exists (deletingRecord record). split; [exact Hres|]. left. split; [done|].
    unfold saved_disk. by rewrite lookup_insert_ne by done.
  - intros [[]|e]; cbn beta iota; [|by_error]. apply wp_ret. split; [done|]. by intros a [= <-].
Qed.
(** The reservation confirmed on a session already deleting. *)
Lemma wp_reserveAgain record L w :
  sr_name record = name → sr_state record = StateDeleting → w_locks w = session_lock :: L → session_lock ∉ L →
  session_at dom name (w_disk w) = Some record →
  (∃ t rest, w_trace w = t :: rest ∧ st_disk t = w_disk w) →
  wp steps (let! synced := attempt (SaveRecord dom record) in
          let! released := attempt (Release session_lock) in
          match synced, released with
          | Ok _, Ok _ => ret record
          | Er e, Ok _ | Ok _, Er e => throw (wrapw "sync deletion intent before retry" e)
          | Er e, Er e2 => throw (wrapw "sync deletion intent before retry" (join_err e e2))
          end) (reservation L) w.
Proof.
  intros Hn Hst HL Hf Hat (t & rest & Ht & Hd).
  apply wp_bind, wp_attempt. eapply wp_conseq with (Q := λ r w', w_locks w' = session_lock :: L ∧ reserved record (w_disk w')).
  - apply wp_SaveRecord; [|intros; by split]. intros Hok. pose proof (save_reserved record w (w_locks w) Hok Hn Hst) as Hres. split; [|by split].
    unfold steps. cbn [st_event save_event st_locks st_disk]. rewrite HL. split_and!; [by rewrite <-Hn|apply elem_of_cons; by left|].
    exists record. split; [done|]. right. exists t, rest. split; [done|]. unfold durably. by rewrite Hd.
  - intros synced w1 [Hl1 Hr1]. apply wp_bind, wp_attempt, (wp_Release_held _ _ L); [auto with go|done|done|].
    intros released w2 Hl2 Hd2 _ _. destruct synced, released; first [apply wp_throw; by_error|apply wp_ret].
    split; [done|]. intros b [= <-]. by rewrite Hd2.
Qed.

Lemma wp_reserveDeletion record w :
  sr_name record = name →
  wp steps (reserveDeletion dom name record) (reservation (w_locks w)) w.
Proof.
  intros Hn. unfold reserveDeletion. destruct (sr_state record =s StateStopped).
  - apply wp_wrap. eapply wp_conseq; [eapply wp_impl; [|apply law_delete_gate; intros w1 Hw1 _ _; by apply wp_reserveStopped]|].
    + unfold gate_steps. intros o s. unfold steps. by destruct (st_event s) as [| |[]|[]| | | | | | | | | | | | | | | | | |].
    + intros [a|e] w' [Hl Hq]; [by split|by_error].
  - destruct (sr_state record =s StateDeleting) eqn:Est; bsimpl; [|apply wp_throw; by_error].
    apply wp_bind, wp_AcquireSession; [auto with go| |intros; by_error]. intros w1 [Hf Hl _ _ Ht].
    apply wp_bind, wp_attempt, wp_quiet; [auto with quiet|]. intros r n Hr.
    assert (∀ e, wp steps (throw_join e (Release session_lock)) (reservation (w_locks w)) (retick n w1)) as Her.
    { intros e. unfold throw_join. apply wp_bind, wp_attempt, (wp_Release_held _ _ (w_locks w)); [auto with go|done|done|].
      intros r0 w2 Hl2 _ _ _. apply wp_throw. by_error. }
    destruct r as [cur|e]; [|apply Her]. case_bool_decide as Hc; [subst cur|apply Her]. apply LoadRecord_ok in Hr.
    apply wp_reserveAgain; [done|done|done|done|done|]. eexists _, _. split; [exact Ht|done].
Qed.

(** What the deletion says of the files when it succeeds: the session is gone. *)
Definition deleted : res unit → disk → B → Prop := λ r k _, r = Ok tt → k !! (Sessions, json_name name) = None.
Lemma wp_finalizer record w t :
  sr_name record = name → t ∈ w_trace w → durably StateDeleting dom name t record →
  wp steps (wrap "retain workspace volumes after backend deletion" (DeleteFinalizer true dom record))
     (leaves (w_locks w) deleted) w.
Proof.
  intros Hn Hin Hdur. apply wp_wrap. eapply wp_conseq; [eapply wp_impl; [|apply wp_since, law_finalize]|].
  - intros o s [HP Ho]. revert HP. unfold finalizer_steps, steps. rewrite Hn. destruct (st_event s) as [| |[]|[]|[]| | | | | | | | | | | | | | | | |]; try done.
    intros (?&?&?). split_and!; [done|done|]. exists record, t. split_and!; [by apply Ho|done|done].
  - intros [[]|e] w' [[Hl Hd] _]; (split; [done|]); intros [=]. rewrite <-Hn. by apply Hd.
Qed.
Lemma wp_DeleteSession s rawName w :
  admitDomain (ds_domain s) = Ok dom → Session.ParseName rawName = Ok name →
  wp steps (DeleteSession s rawName) (leaves (w_locks w) deleted) w.
Proof.
  intros Hdom Hname. assert (∀ e w', w_locks w' = w_locks w → leaves (w_locks w) deleted (Er e) w') as Her0 by (intros e w' Hl'; split; [done|by intros [=]]).
  unfold DeleteSession. wp_guard as _ by by apply Her0.
  apply wp_bind, wp_lift. rewrite Hdom. apply wp_bind, wp_lift. rewrite Hname.
  apply wp_bind, wp_Acquire_took; [auto with go| |intros; by apply Her0]. intros w1 [Hf1 Hl1 _ _ _].
  apply wp_deferred_leaves; [auto with go|intros [[]|e] [[]|e2] d h Hq; unfold deleted in *; cbn; done|done|].
  assert (∀ e w', w_locks w' = w_locks w1 → leaves (Lock.transition_scope dom name :: w_locks w) deleted (Er e) w') as Her
    by (intros e w' Hl'; split; [congruence|by intros [=]]).
  wp_read as record0 n0 Hat0 by (by apply Her). apply LoadRecord_ok, session_at_ids in Hat0 as [_ Hn0].
  wp_read as u n1 Hnr by (by apply Her).
  apply wp_bind. eapply wp_conseq; [by apply wp_reserveDeletion|].
  intros [record|e] w2 [Hl2 Hq]; [|by apply Her]. destruct (Hq record eq_refl) as [Hat Hst]. cbn beta iota zeta. cbn [w_locks retick] in Hl2.
  pose proof (session_at_ids _ _ _ _ Hat) as [_ Hn].
  set (objectID := br_object_id (sr_backend record)).
  apply wp_bind, wp_wrapv, wp_host_call. intros r b _. split; [done|]. destruct r as [ob|e]; [|by apply Her]. cbn beta iota.
  wp_guard as Hg%negb_false_iff by (by apply Her).
  apply wp_bind. eapply wp_conseq with (Q := λ r w', w_locks w' = w_locks w1 ∧ ∃ t, t ∈ w_trace w' ∧ durably StateDeleting dom name t record).
  { assert (∃ t, t ∈ w_trace (asked (EvObserve objectID) (Ok ob) b w2) ∧ durably StateDeleting dom name t record) as Hdur.
    { eexists. split; [apply elem_of_cons; by left|by split]. }
    destruct (ob_exists ob) eqn:Hex; [|by apply wp_ret]. apply wp_wrap, wp_host_call. intros r b' _. split.
    - unfold steps. cbn [st_event st_locks st_disk asked w_locks w_trace w_disk]. rewrite Hl2, Hl1. split; [apply elem_of_cons; by left|].
      split; [|by exists record]. apply recently_here. exists ob. split; [done|]. by apply deletable_stopped.
    - split; [done|]. destruct Hdur as (t & Ht & Hdur). exists t. split; [|done]. cbn. set_solver. }
  intros [u2|e] w3 [Hl3 (t & Ht & Hdur)]; [|by apply Her]. cbn beta iota.
  apply wp_bind, wp_wrapv, wp_host_call. intros r b' _. split; [done|]. destruct r as [ob2|e]; [|by apply Her]. cbn beta iota.
  wp_guard as _ by (by apply Her).
  eapply wp_leaves; [eapply wp_finalizer; [done| |exact Hdur]|].
  - cbn. set_solver.
  - intros r w4 Hl4 Hd. split; [cbn in *; congruence|done].
Qed.
End delete_lemmas.
