(* ===== verification/Rebuild.v ===== *)
(** Replacing the system of a stopped session: src/internal/session/rebuild.go,
    a journaled sequence prepare (reserve, clone), cut over, start, confirm
    ready, retire the old system; every step may be retried from its journal. *)
From S2P Require Import Prelude Ids Json JsonText SessionRecord Outside World Host Logic Golden SessionStore RebuildJournal SessionCreate SessionStart SessionDelete.

(** RebuildDependencies and RebuildService. The hooks are the failures injected
    after a phase; [rs_prepared] is the frozen candidate of ExecutePrepared. *)
Record RebuildDependencies := mkRebuildDeps {
  rd_Observer : bool; rd_Creator : bool; rd_Deleter : bool; rd_Gate : bool; rd_Pins : bool }.
Record RebuildService := mkRebuildService {
  rs_nil : bool;
  rs_domain : DomainConfig;
  rs_deps : RebuildDependencies;
  rs_newID : bool;
  rs_cutoverHook : option error;
  rs_readyHook : option error;
  rs_prepared : option RebuildJournal;
}.
Definition bind_prepared (j : RebuildJournal) (s : RebuildService) : RebuildService :=
  mkRebuildService (rs_nil s) (rs_domain s) (rs_deps s) (rs_newID s) (rs_cutoverHook s) (rs_readyHook s) (Some j).

Definition requirePrepared (s : RebuildService) (j : RebuildJournal) : res unit :=
  match rs_prepared s with
  | None => Ok tt
  | Some expected =>
      check ((rj_domain j =s rj_domain expected) && (rj_session_name j =s rj_session_name expected) &&
             (rj_session_id j =s rj_session_id expected) && (rj_operation j =s rj_operation expected) &&
             (rj_old_backend j =s rj_old_backend expected) && (rj_old_revision j =s rj_old_revision expected) &&
             (rj_cand_backend j =s rj_cand_backend expected) && (rj_cand_revision j =s rj_cand_revision expected) &&
             (rj_old_intent j =s rj_old_intent expected) && (rj_cand_intent j =s rj_cand_intent expected))
            "rebuild journal differs from frozen replacement candidate"
  end.

(** The journal a reservation writes, before the old pin is known. *)
Definition reservedJournal (old : SessionRecord) (operationID revision candidateDigest : string) : RebuildJournal :=
  mkJournal 1 (sr_domain old) (sr_name old) (sr_id old) operationID RebuildReserved (br_object_id (sr_backend old))
    (sr_golden old) (sr_intent old) (Session.objectIDFor (sr_domain old) operationID) revision candidateDigest false "".

(** The record names the candidate, respectively the old system, of a journal. *)
Definition is_candidate (record : SessionRecord) (j : RebuildJournal) : bool :=
  (br_object_id (sr_backend record) =s rj_cand_backend j) && (sr_golden record =s rj_cand_revision j) &&
  (sr_intent record =s rj_cand_intent j).
Definition is_old_stopped (record : SessionRecord) (j : RebuildJournal) : bool :=
  (sr_state record =s StateStopped) && (br_object_id (sr_backend record) =s rj_old_backend j) &&
  (sr_golden record =s rj_old_revision j) && (sr_intent record =s rj_old_intent j) && (sr_generation record =s "").
Definition is_ready_candidate (record : SessionRecord) (j : RebuildJournal) : bool :=
  (sr_id record =s rj_session_id j) && (br_kind (sr_backend record) =s "tart") && is_candidate record j &&
  (sr_state record =s StateRunning) && (rr_status (sr_readiness record) =s ReadinessReady).
Definition candidateRecord (record : SessionRecord) (j : RebuildJournal) : SessionRecord :=
  set_intent (rj_cand_intent j) (set_golden (rj_cand_revision j)
    (set_backend (mkBackendRef (br_kind (sr_backend record)) (rj_cand_backend j)) record)).
Definition ready_or_throw (record : SessionRecord) : bool :=
  (sr_state record =s StateRunning) && (rr_status (sr_readiness record) =s ReadinessReady).

Section rebuild.
Context {B : Type} {H : Host B} {E : Env} {D : Digests} {W : WorkspaceLifecycle B} {G : StoppedGates B}.

(** The [observeExact] of RebuildService: any failure is ambiguous. *)
Definition observeRebuild (objectID : string) : M B Observation :=
  let! observation := wrapv "ambiguous rebuild backend observation" (Observe objectID) in
  guard (ambiguous observation objectID) "ambiguous rebuild backend observation" ;;!
  ret observation.

Definition requireStoppedBase (selected : GoldenRecord) : M B unit :=
  guard ((br_kind (gr_backend selected) ≠s "tart") || (br_object_id (gr_backend selected) ≠s gr_revision selected))
        "replacement base has invalid backend binding" ;;!
  let! observation := wrapv "replacement base must be exact stopped object" (observeRebuild (br_object_id (gr_backend selected))) in
  guard (negb (exists_stopped observation)) "replacement base must be exact stopped object".

Definition loadStoppedBase (s : RebuildService) (revision : string) : M B GoldenRecord :=
  AcquireGolden (rs_domain s) ;;!
  deferred_join Lock.golden_scope (
  let! selected := LoadRevisionLocked (rs_domain s) revision in
  requireStoppedBase selected ;;!
  ret selected).

Definition verifyOldPin (journal : RebuildJournal) : M B unit :=
  let! loaded := attempt (host_ask (host_LoadPin (oldPinBinding journal))) in
  match loaded with
  | Er e => if err_not_exist e && negb (rj_pin_present journal) then ret tt else throw (wrapw "reload exact old host-key pin" e)
  | Ok pin => lift (verifyOldPinWitness journal pin)
  end.

Definition reserveCandidate (s : RebuildService) (old : SessionRecord) (revision candidateDigest : string) : M B RebuildJournal :=
  AcquireGolden (rs_domain s) ;;!
  deferred_join Lock.golden_scope (
  let! selected := LoadRevisionLocked (rs_domain s) revision in
  requireStoppedBase selected ;;!
  let! operationID := wrapv "invalid rebuild operation identity" (host_ask host_newID) in
  guard (negb (Session.validUUID operationID)) "invalid rebuild operation identity" ;;!
  let journal := reservedJournal old operationID (gr_revision selected) candidateDigest in
  lift (Backend.ValidateObjectID (rj_cand_backend journal)) ;;!
  let! observation := wrapv "candidate object identity is not absent" (observeRebuild (rj_cand_backend journal)) in
  guard (ob_exists observation || (ob_state observation ≠s ObjectUnknown)) "candidate object identity is not absent" ;;!
  let! loaded := attempt (host_ask (host_LoadPin (oldPinBinding journal))) in
  let! journal :=
    (match loaded with
     | Ok pin =>
         let journal := set_pin true (sha256_json (marshalPin pin)) journal in
         lift (verifyOldPinWitness journal pin) ;;! ret journal
     | Er e => if err_not_exist e then ret journal else throw (wrapw "load exact old host-key pin" e)
     end) in
  wrap "persist rebuild candidate reservation" (createRebuildJournal journal) ;;!
  ret journal).

Definition matches_request (journal : RebuildJournal) (record : SessionRecord) (revision candidateDigest : string) : bool :=
  (rj_session_id journal =s sr_id record) && (rj_old_backend journal =s br_object_id (sr_backend record)) &&
  (rj_old_revision journal =s sr_golden record) && (rj_old_intent journal =s sr_intent record) &&
  (rj_cand_intent journal =s candidateDigest) && (rj_cand_revision journal =s revision) &&
  ((rj_phase journal =s RebuildReserved) || (rj_phase journal =s RebuildCloned)).

(** From a journal in phase Reserved: clone once, randomize, prove stopped,
    and record Cloned under the session lock. *)
Definition cloneCandidate (domainID name : string) (record : SessionRecord) (journal : RebuildJournal)
    (selected : GoldenRecord) (observation : Observation) : M B RebuildJournal :=
  let! observation :=
    (if negb (ob_exists observation) && (ob_state observation =s ObjectUnknown) then
       wrap "clone recorded rebuild candidate" (Clone (br_object_id (gr_backend selected)) (rj_cand_backend journal)) ;;!
       observeRebuild (rj_cand_backend journal)
     else ret observation) in
  guard (negb (exists_stopped observation)) "recorded rebuild candidate has ambiguous backend state" ;;!
  wrap "randomize recorded rebuild candidate MAC" (RandomizeMAC (rj_cand_backend journal)) ;;!
  let! observation := wrapv "rebuild candidate did not reconcile stopped after MAC randomization"
                        (observeRebuild (rj_cand_backend journal)) in
  guard (negb (exists_stopped observation)) "rebuild candidate did not reconcile stopped after MAC randomization" ;;!
  let next := set_phase RebuildCloned journal in
  AcquireSession domainID name ;;!
  deferred_join (Lock.session_scope domainID name) (
  let! current := wrapv "old session changed before cloned phase" (LoadRecord domainID name) in
  guard (bool_decide (current ≠ record)) "old session changed before cloned phase" ;;!
  wrap "persist cloned rebuild candidate" (advanceRebuildJournal journal next) ;;!
  ret next).

Definition prepareCandidate (s : RebuildService) (rawName revision candidateDigest : string) : M B RebuildJournal :=
  guard (rs_nil s || negb (rd_Observer (rs_deps s)) || negb (rd_Creator (rs_deps s)) || negb (rd_Gate (rs_deps s)) ||
         negb (rd_Pins (rs_deps s)) || negb (rs_newID s)) "rebuild preparation dependencies are required" ;;!
  let! domainID := lift (admitDomain (rs_domain s)) in
  let! name := lift (Session.ParseName rawName) in
  wrap "invalid replacement base revision" (lift (Backend.ValidateObjectID revision)) ;;!
  (if candidateDigest ≠s "" then wrap "load candidate recipe intent" (LoadRecipeIntent candidateDigest) else ret EmptyString) ;;!
  Acquire (Lock.transition_scope domainID name) ;;!
  deferred_join (Lock.transition_scope domainID name) (
  let! record := LoadRecord domainID name in
  (if sr_intent record ≠s "" then wrap "load old recipe intent" (LoadRecipeIntent (sr_intent record)) else ret EmptyString) ;;!
  let! loaded := attempt (LoadRebuildJournal domainID name) in
  let! journal :=
    (match loaded with
     | Ok journal => ret journal
     | Er e =>
         if err_not_exist e then
           guard (isSome (rs_prepared s)) "frozen candidate journal is missing; no new candidate will be allocated" ;;!
           RebuildGate true domainID record (reserveCandidate s record revision candidateDigest)
         else throw e
     end) in
  lift (requirePrepared s journal) ;;!
  guard (negb (matches_request journal record revision candidateDigest))
        "rebuild journal does not match stopped old system and requested base" ;;!
  guard ((sr_state record ≠s StateStopped) || (br_kind (sr_backend record) ≠s "tart"))
        "old system is not durably stopped for candidate preparation" ;;!
  verifyOldPin journal ;;!
  let! oldObservation := wrapv "old system is no longer exactly stopped" (observeRebuild (rj_old_backend journal)) in
  guard (negb (exists_stopped oldObservation)) "old system is no longer exactly stopped" ;;!
  let! selected := loadStoppedBase s revision in
  let! observation := observeRebuild (rj_cand_backend journal) in
  if rj_phase journal =s RebuildCloned then
    guard (negb (exists_stopped observation)) "recorded cloned candidate is not stopped" ;;! ret journal
  else cloneCandidate domainID name record journal selected observation).
Definition PrepareCandidate (s : RebuildService) (rawName revision : string) := prepareCandidate s rawName revision "".
Definition PrepareCandidateWithIntent (s : RebuildService) (rawName revision digest : string) : M B RebuildJournal :=
  guard (negb (Session.lowerSHA256 digest)) "invalid candidate recipe intent digest" ;;!
  prepareCandidate s rawName revision digest.

Fixpoint requireAllStopped (objects : list string) : M B unit :=
  match objects with
  | [] => ret tt
  | objectID :: rest =>
      let! observation := wrapv "rebuild cutover requires exact stopped object" (observeRebuild objectID) in
      guard (negb (exists_stopped observation)) "rebuild cutover requires exact stopped object" ;;!
      requireAllStopped rest
  end.

Definition Cutover (s : RebuildService) (rawName : string) : M B SessionRecord :=
  guard (rs_nil s || negb (rd_Observer (rs_deps s)) || negb (rd_Pins (rs_deps s))) "rebuild cutover dependencies are required" ;;!
  let! domainID := lift (admitDomain (rs_domain s)) in
  let! name := lift (Session.ParseName rawName) in
  Acquire (Lock.transition_scope domainID name) ;;!
  deferred_join (Lock.transition_scope domainID name) (
  AcquireSession domainID name ;;!
  deferred_join (Lock.session_scope domainID name) (
  let! journal := wrapv "candidate is not journaled as cloned or in cutover" (LoadRebuildJournal domainID name) in
  guard ((rj_phase journal ≠s RebuildCloned) && (rj_phase journal ≠s RebuildCutover))
        "candidate is not journaled as cloned or in cutover" ;;!
  lift (requirePrepared s journal) ;;!
  let! record := wrapv "session identity changed before rebuild cutover" (LoadRecord domainID name) in
  guard ((sr_id record ≠s rj_session_id journal) || (br_kind (sr_backend record) ≠s "tart"))
        "session identity changed before rebuild cutover" ;;!
  (if rj_cand_intent journal ≠s "" then
     wrap "load candidate recipe intent before cutover" (LoadRecipeIntent (rj_cand_intent journal)) else ret EmptyString) ;;!
  if (rj_phase journal =s RebuildCutover) && is_candidate record journal then ret record
  else
    guard (negb (is_old_stopped record journal)) "old stopped system does not match rebuild cutover journal" ;;!
    verifyOldPin journal ;;!
    requireAllStopped [rj_old_backend journal; rj_cand_backend journal] ;;!
    (if rj_phase journal =s RebuildCloned then
       wrap "persist rebuild cutover intent" (advanceRebuildJournal journal (set_phase RebuildCutover journal)) ;;!
       match rs_cutoverHook s with None => ret tt | Some e => throw e end
     else ret tt) ;;!
    let record := candidateRecord record journal in
    wrap "persist candidate as active system" (SaveRecord domainID record) ;;!
    ret record)).

Definition matchesStarter (s : RebuildService) (starter : Service) : bool :=
  negb (sv_nil starter) && bool_decide (sv_domain starter = rs_domain s).

Definition ConfirmReady (s : RebuildService) (rawName : string) (starter : Service) : M B SessionRecord :=
  match sv_start starter with
  | None => throw (Errorf "exact rebuild starter is required")
  | Some start =>
      guard (rs_nil s || negb (matchesStarter s starter)) "exact rebuild starter is required" ;;!
      lift (validStartDependencies starter start) ;;!
      let! domainID := lift (let? d := Domain.Parse (dc_ID (rs_domain s)) in
                             check (d =s dc_ID (rs_domain s)) "invalid rebuild domain" ;;? Ok d) in
      let! name := lift (Session.ParseName rawName) in
      Acquire (Lock.transition_scope domainID name) ;;!
      deferred_join (Lock.transition_scope domainID name) (
      AcquireSession domainID name ;;!
      deferred_join (Lock.session_scope domainID name) (
      let! journal := wrapv "rebuild is not in candidate readiness phase" (LoadRebuildJournal domainID name) in
      guard ((rj_phase journal ≠s RebuildCutover) && (rj_phase journal ≠s RebuildReady))
            "rebuild is not in candidate readiness phase" ;;!
      lift (requirePrepared s journal) ;;!
      let! record := wrapv "candidate session is not durably ready" (LoadRecord domainID name) in
      guard (negb (is_ready_candidate record journal)) "candidate session is not durably ready" ;;!
      wrap "verify candidate workspace uses before rebuild ready" (VerifyUses domainID record) ;;!
      let! record := wrap "verify fresh exact candidate readiness" (reconcileReady record) in
      if rj_phase journal =s RebuildReady then ret record
      else
        match rs_readyHook s with None => ret tt | Some e => throw e end ;;!
        wrap "persist rebuild ready phase" (advanceRebuildJournal journal (set_phase RebuildReady journal)) ;;!
        ret record))
  end.

Definition RetireOld (s : RebuildService) (rawName : string) (starter : Service) : M B SessionRecord :=
  match sv_start starter with
  | None => throw (Errorf "exact rebuild retirement dependencies are required")
  | Some start =>
      guard (rs_nil s || negb (rd_Observer (rs_deps s)) || negb (rd_Deleter (rs_deps s)) || negb (matchesStarter s starter))
            "exact rebuild retirement dependencies are required" ;;!
      lift (validStartDependencies starter start) ;;!
      let! domainID := lift (let? d := Domain.Parse (dc_ID (rs_domain s)) in
                             check (d =s dc_ID (rs_domain s)) "invalid rebuild domain" ;;? Ok d) in
      let! name := lift (Session.ParseName rawName) in
      Acquire (Lock.transition_scope domainID name) ;;!
      deferred_join (Lock.transition_scope domainID name) (
      AcquireSession domainID name ;;!
      deferred_join (Lock.session_scope domainID name) (
      let! journal := wrapv "rebuild is not ready for exact old-system retirement" (LoadRebuildJournal domainID name) in
      guard ((rj_phase journal ≠s RebuildReady) && (rj_phase journal ≠s RebuildRetiring))
            "rebuild is not ready for exact old-system retirement" ;;!
      lift (requirePrepared s journal) ;;!
      let! record := wrapv "active candidate changed before retirement" (LoadRecord domainID name) in
      guard (negb (is_ready_candidate record journal)) "active candidate changed before retirement" ;;!
      wrap "verify active candidate workspace uses before retirement" (VerifyUses domainID record) ;;!
      let! record := wrap "require fresh candidate READY before old-system retirement" (reconcileReady record) in
      let! old := wrapv "old rebuild system is not provably stopped or absent" (observeRebuild (rj_old_backend journal)) in
      guard (ob_exists old && (ob_state old ≠s ObjectStopped)) "old rebuild system is not provably stopped or absent" ;;!
      let! journal :=
        (if rj_phase journal =s RebuildReady then
           guard (negb (ob_exists old)) "old rebuild system disappeared before deletion intent" ;;!
           let next := set_phase RebuildRetiring journal in
           wrap "persist old-system retirement intent" (advanceRebuildJournal journal next) ;;!
           ret next
         else ret journal) in
      Release (Lock.session_scope domainID name) ;;!
      (if ob_exists old then wrap "delete exact old rebuild object" (Delete (rj_old_backend journal)) else ret tt) ;;!
      let! old := wrapv "old rebuild object did not reconcile absent" (observeRebuild (rj_old_backend journal)) in
      guard (ob_exists old || (ob_state old ≠s ObjectUnknown)) "old rebuild object did not reconcile absent" ;;!
      AcquireSession domainID name ;;!
      let! current := wrapv "active candidate changed during old-system deletion" (LoadRecord domainID name) in
      guard (bool_decide (current ≠ record)) "active candidate changed during old-system deletion" ;;!
      wrap "clear completed rebuild journal" (removeRebuildJournal journal) ;;!
      ret record))
  end.

Definition settlePrepared (s : RebuildService) (expected : RebuildJournal) (name : string) (starter : Service) : M B SessionRecord :=
  (* a starter composed without start dependencies would be a nil dereference
     here; no composition of the program has one *)
  match sv_start starter with
  | None => throw (Errorf "session start dependencies are required")
  | Some start =>
      let domainID := dc_ID (rs_domain s) in
      lift (validStartDependencies starter start) ;;!
      Acquire (Lock.transition_scope domainID name) ;;!
      deferred_join (Lock.transition_scope domainID name) (
      AcquireSession domainID name ;;!
      deferred_join (Lock.session_scope domainID name) (
      RequireNoRebuild domainID name ;;!
      wrap "settle completed rebuild journal directory" syncRebuildJournalRegistry ;;!
      let! record := LoadRecord domainID name in
      guard ((sr_id record ≠s rj_session_id expected) || (br_kind (sr_backend record) ≠s "tart") || negb (is_candidate record expected))
            "completed system differs from frozen replacement candidate" ;;!
      if sr_state record =s StateStopped then
        let! observed := wrapv "completed candidate is not exactly stopped" (observeRebuild (br_object_id (sr_backend record))) in
        guard (negb (exists_stopped observed)) "completed candidate is not exactly stopped" ;;!
        ret record
      else if sr_state record =s StateRunning then
        VerifyUses domainID record ;;! reconcileReady record
      else throw (Errorf "completed candidate is not stopped or ready")))
  end.

(** A repeated request whose base is already selected. *)
Definition settleSameBase (s : RebuildService) (name candidateDigest : string) (starter : Service) (current : SessionRecord) : M B SessionRecord :=
  guard ((candidateDigest ≠s "") && (sr_intent current ≠s candidateDigest))
        "same-base recipe intent change requires an explicit reset operation" ;;!
  wrap "settle completed rebuild journal directory" syncRebuildJournalRegistry ;;!
  guard ((sr_state current ≠s StateStopped) && ((sr_state current ≠s StateRunning) || (rr_status (sr_readiness current) ≠s ReadinessReady)))
        "session already uses requested base but is not stopped or ready" ;;!
  if sr_state current =s StateRunning then Start starter name
  else
    let! observation := wrapv "same-base stopped session is not exactly stopped" (observeRebuild (br_object_id (sr_backend current))) in
    guard (negb (exists_stopped observation)) "same-base stopped session is not exactly stopped" ;;!
    ret current.

Definition startCandidate (starter : Service) (name : string) (j : RebuildJournal) : M B unit :=
  let! record := StartRebuildCandidate starter name j in
  guard (negb (ready_or_throw record)) "candidate remains not ready; retry exact rebuild after readiness converges".

(** The driver once the journal's fate is known: [loaded] is None when no
    journal existed. *)
Definition drive (s : RebuildService) (name revision candidateDigest : string) (starter : Service) (current : SessionRecord)
    (loaded : option RebuildJournal) : M B SessionRecord :=
  (if candidateDigest ≠s "" then wrap "load pending candidate recipe intent" (LoadRecipeIntent candidateDigest) else ret EmptyString) ;;!
  lift (Backend.ValidateObjectID revision) ;;!
  let! j :=
    (match loaded with
     | None => prepareCandidate s name revision candidateDigest
     | Some j =>
         if (rj_phase j =s RebuildReserved) || (rj_phase j =s RebuildCloned)
         then prepareCandidate s name revision candidateDigest else ret j
     end) in
  let! j :=
    (if (rj_phase j =s RebuildCloned) || (rj_phase j =s RebuildCutover) then
       Cutover s name ;;!
       let! j := LoadRebuildJournal (dc_ID (rs_domain s)) name in
       lift (requirePrepared s j) ;;!
       startCandidate starter name j ;;!
       ConfirmReady s name starter ;;!
       ret j
     else ret j) in
  (if ((rj_phase j =s RebuildReady) || (rj_phase j =s RebuildRetiring)) &&
      ((sr_state current =s StateStopped) || (sr_state current =s StateStarting)) then
     lift (requirePrepared s j) ;;!
     startCandidate starter name j
   else ret tt) ;;!
  RetireOld s name starter.

Definition execute (s : RebuildService) (rawName revision candidateDigest : string) (starter : Service) : M B SessionRecord :=
  guard (rs_nil s || negb (matchesStarter s starter)) "matching rebuild starter is required" ;;!
  let! name := lift (Session.ParseName rawName) in
  let! current := LoadRecord (dc_ID (rs_domain s)) name in
  let! loaded := attempt (LoadRebuildJournal (dc_ID (rs_domain s)) name) in
  match loaded with
  | Er e =>
      if err_not_exist e then
        match rs_prepared s with
        | Some expected => settlePrepared s expected name starter
        | None =>
            guard (revision =s "") "new rebuild requires an exact prepared base revision" ;;!
            if sr_golden current =s revision then settleSameBase s name candidateDigest starter current
            else drive s name revision candidateDigest starter current None
        end
      else throw e
  | Ok j =>
      lift (requirePrepared s j) ;;!
      let '(revision, candidateDigest) :=
        if revision =s "" then (rj_cand_revision j, rj_cand_intent j) else (revision, candidateDigest) in
      guard ((revision ≠s rj_cand_revision j) || (candidateDigest ≠s rj_cand_intent j))
            "pending rebuild is bound to a different base or recipe intent" ;;!
      drive s name revision candidateDigest starter current (Some j)
  end.

Definition Execute (s : RebuildService) (rawName revision : string) (starter : Service) := execute s rawName revision "" starter.
Definition ExecuteWithIntent (s : RebuildService) (rawName revision digest : string) (starter : Service) : M B SessionRecord :=
  guard (negb (Session.lowerSHA256 digest)) "invalid candidate recipe intent digest" ;;!
  guard (rs_nil s) "rebuild service is required" ;;!
  wrap "load candidate recipe intent" (LoadRecipeIntent digest) ;;!
  execute s rawName revision digest starter.
Definition ExecutePrepared (s : RebuildService) (rawName : string) (expected : RebuildJournal) (starter : Service) : M B SessionRecord :=
  guard (rs_nil s || negb (is_ok (validateRebuildJournal expected)) || (rj_domain expected ≠s dc_ID (rs_domain s)) ||
         (rj_session_name expected ≠s rawName) || (rj_phase expected ≠s RebuildCloned))
        "exact cloned replacement witness is required" ;;!
  execute (bind_prepared expected s) rawName (rj_cand_revision expected) (rj_cand_intent expected) starter.
End rebuild.

(** ** Lemmas *)

(** The journal on disk when a step was over. *)
Definition journaled (phase dom name : string) (s : step) (j : RebuildJournal) : Prop :=
  journal_at dom name (st_disk s) = Some j ∧ rj_phase j = phase.
(** The step moved the journal that was on disk into this phase, the next one of
    its life. *)
Definition moved (phase dom name : string) (s : step) (j : RebuildJournal) : Prop :=
  journaled phase dom name s j ∧
  ∃ old, journal_at dom name (st_before s) = Some old ∧ nextPhase (rj_phase old) = Some phase ∧ j = set_phase phase old.
Lemma moved_phase p ph old dom name ev k L :
  rj_domain old = dom → rj_session_name old = name → nextPhase (rj_phase old) = Some ph → set_phase p old = set_phase ph old → journal_ok (set_phase p old) →
  journal_at (rj_domain old) (rj_session_name old) k = Some old →
  moved p dom name (Step ev k (journal_disk (set_phase p old) k) L) (set_phase p old).
Proof.
  intros <- <- Hn Hs Hok Hat. split; [split; [|done]; exact (journal_at_written (set_phase p old) k Hok)|].
  exists old. split_and!; [done| |done]. rewrite Hn. f_equal. by apply (f_equal rj_phase) in Hs.
Qed.
Definition both_locks (dom name : string) (locks : list string) : Prop :=
  Lock.session_scope dom name ∈ locks ∧ Lock.transition_scope dom name ∈ locks.

Section shared.
Context {B : Type} {H : Host B} {E : Env} {D : Digests}.
Implicit Types (w : world B) (P : stepP).

Lemma wp_observeRebuild P objectID (Q : res Observation → world B → Prop) w :
  (∀ r, P (w_trace w) (Step (EvObserve objectID r) (w_disk w) (w_disk w) (w_locks w))) →
  (∀ ob w', observed objectID ob w w' → Q (Ok ob) w') →
  (∀ e w', w_disk w' = w_disk w → w_locks w' = w_locks w → w_trace w ⊆ w_trace w' → Q (Er e) w') →
  wp P (observeRebuild objectID) Q w.
Proof.
  intros HP H1 H2. unfold observeRebuild. apply wp_bind, wp_wrapv, wp_host_call.
  intros [ob|e] b _; (split; [apply HP|]); [|apply H2; cbn; set_solver]. cbn beta iota.
  wp_guard as Ha by (apply H2; cbn; set_solver). apply wp_ret, H1.
  constructor; [done|done|by exists (Step (EvObserve objectID (Ok ob)) (w_disk w) (w_disk w) (w_locks w))|done].
Qed.
Lemma observed_trace objectID ob w w' : observed objectID ob w w' → w_trace w ⊆ w_trace w'.
Proof. intros [_ _ (s & _ & ->) _]. set_solver. Qed.
Lemma observed_head objectID ob w w' : observed objectID ob w w' → exists_stopped ob = true →
  ∃ t, t ∈ w_trace w' ∧ observed_stopped objectID t.
Proof.
  intros [_ _ (s & Hs & ->) Ha] He. exists s. split; [apply elem_of_cons; by left|by eapply observed_exists_stopped].
Qed.

Lemma wp_requireStoppedBase P selected (Q : res unit → world B → Prop) w :
  (∀ id r o k L, P o (Step (EvObserve id r) k k L)) →
  (∀ w', w_disk w' = w_disk w → w_locks w' = w_locks w → w_trace w ⊆ w_trace w' →
     (∃ t, t ∈ w_trace w' ∧ observed_stopped (br_object_id (gr_backend selected)) t) → Q (Ok tt) w') →
  (∀ e w', w_disk w' = w_disk w → w_locks w' = w_locks w → w_trace w ⊆ w_trace w' → Q (Er e) w') →
  wp P (requireStoppedBase selected) Q w.
Proof.
  intros HP H1 H2. unfold requireStoppedBase. wp_guard as _ by (by apply H2).
  apply wp_bind, wp_wrapv, wp_observeRebuild; [auto| |intros; by apply H2].
  intros ob w' Hob. apply wp_guard; [|intros _; apply H2; [apply Hob|apply Hob|by eapply observed_trace]].
  intros Hs%negb_false_iff. apply H1; [apply Hob|apply Hob|by eapply observed_trace|by eapply observed_head].
Qed.
Lemma wp_verifyOldPin P j (Q : res unit → world B → Prop) w :
  (∀ r w', same w w' → Q r w') → wp P (verifyOldPin j) Q w.
Proof.
  intros HQ. unfold verifyOldPin. apply wp_bind, wp_attempt, wp_host_ask. destruct (host_LoadPin _ _) as [[pin|e] b].
  - apply wp_lift. by apply HQ.
  - destruct (_ && _); [apply wp_ret|apply wp_throw]; by apply HQ.
Qed.
Lemma quiet_syncRebuild : quiet (syncRebuildJournalRegistry : M B _).
Proof. apply quiet_fs_sync. Qed.
Lemma wp_loadStoppedBase P s revision (Q : res GoldenRecord → world B → Prop) w :
  lock_free P → (∀ id r o k L, P o (Step (EvObserve id r) k k L)) →
  (∀ r w', w_locks w' = w_locks w → (∃ w1, took Lock.golden_scope w w1 ∧ w_disk w' = w_disk w1) ∨ w_disk w' = w_disk w → w_trace w ⊆ w_trace w' →
     (∀ selected, r = Ok selected → registered_base (dc_ID (rs_domain s)) revision (br_object_id (gr_backend selected)) (w_disk w') ∧
        ∃ t, t ∈ w_trace w' ∧ observed_stopped (br_object_id (gr_backend selected)) t) → Q r w') →
  wp P (loadStoppedBase s revision) Q w.
Proof.
  intros HP Ho HQ. unfold loadStoppedBase. apply wp_bind, wp_AcquireGolden; [done| |].
  2:{ intros e n. by apply HQ; [|right| |]. }
  intros w1 Htk. pose proof Htk as [Hf Hl _ _ Ht].
  eapply (wp_deferred_filter _ _ _ _ (λ r w', w_locks w' = w_locks w1 ∧ w_disk w' = w_disk w1 ∧ w_trace w1 ⊆ w_trace w' ∧
     (∀ selected, r = Ok selected → registered_base (dc_ID (rs_domain s)) revision (br_object_id (gr_backend selected)) (w_disk w') ∧
        ∃ t, t ∈ w_trace w' ∧ observed_stopped (br_object_id (gr_backend selected)) t))); [done| |].
  - intros r r2 wa wb Hlb Hdb _ Htb (Hla & Hda & Hta & Hr). apply HQ.
    + by rewrite Hlb, Hla, Hl, filter_head.
    + left. exists w1. split; [done|congruence].
    + rewrite Ht in Hta. set_solver.
    + intros selected Hsel. destruct r as [x|e], r2 as [u|e2]; try discriminate Hsel. injection Hsel as ->.
      destruct (Hr selected eq_refl) as (Hg & t & ? & ?). rewrite Hdb. split; [done|]. exists t. split; [set_solver|done].
  - wp_read as selected m Hload by by split_and!. apply LoadRevisionLocked_ok in Hload.
    apply wp_bind, wp_requireStoppedBase; [done| |].
    + intros w2 Hd2 Hl2 Ht2 Hs. apply wp_ret. split_and!; try done. intros sel [= <-]. rewrite Hd2. split; [by apply golden_registered|done].
    + intros e w2 Hd2 Hl2 Ht2. by split_and!.
Qed.
End shared.

(** *** Preparation *)

(** The steps of a preparation: the journal reserves the candidate before
    anything is cloned, and nothing but this session's journal is written. *)
Definition prepare_steps (dom name : string) (o : list step) (s : step) : Prop :=
  match st_event s with
  | EvAcquire _ | EvRelease _ | EvObserve _ _ => True
  | EvCreate Rebuilds n f =>
      n = json_name name ∧ both_locks dom name (st_locks s) ∧ Lock.golden_scope ∈ st_locks s ∧
      ∃ j r, f = journalFile j ∧ journal_ok j ∧ rj_phase j = RebuildReserved ∧ session_at dom name (st_disk s) = Some r ∧
        rj_session_id j = sr_id r ∧ rj_old_backend j = br_object_id (sr_backend r) ∧
        recently (observed_absent (rj_cand_backend j)) o ∧
        unreserved dom name (rj_cand_backend j) (delete (Rebuilds, json_name name) (st_disk s))
  | EvClone source target _ =>
      Lock.transition_scope dom name ∈ st_locks s ∧ recently (observed_absent target) o ∧ (∃ t, t ∈ o ∧ observed_stopped source t) ∧
      ∃ j, journaled RebuildReserved dom name s j ∧ target = rj_cand_backend j ∧
           registered_base dom (rj_cand_revision j) source (st_disk s) ∧ ∃ t, t ∈ o ∧ observed_stopped (rj_old_backend j) t
  | EvRandomizeMAC object _ =>
      Lock.transition_scope dom name ∈ st_locks s ∧ recently (observed_stopped object) o ∧
      ∃ j, journaled RebuildReserved dom name s j ∧ object = rj_cand_backend j
  | EvPublish Rebuilds n _ =>
      n = json_name name ∧ both_locks dom name (st_locks s) ∧
      ∃ j, moved RebuildCloned dom name s j ∧ ∃ t, t ∈ o ∧ observed_stopped (rj_cand_backend j) t
  | _ => False
  end.
Lemma prepare_lock_free dom name : lock_free (prepare_steps dom name).
Proof. intros o s sc [Hs|Hs]; unfold prepare_steps; by rewrite Hs. Qed.
#[export] Hint Resolve prepare_lock_free : go.

Section prepare.
Context {B : Type} {H : Host B} {E : Env} {D : Digests} {G : StoppedGates B} {GL : GateLaws B} {SP : SessionProtocol E}.
Context (dom name : string).
Implicit Types (w : world B).
#[local] Abbreviation session_lock := (Lock.session_scope dom name).
#[local] Abbreviation transition_lock := (Lock.transition_scope dom name).
#[local] Abbreviation steps := (prepare_steps dom name).
#[local] Abbreviation journal_key := (Rebuilds, json_name name).

(** The journal [j] is on disk. *)
Definition on_disk (r : res RebuildJournal) (k : disk) (h : B) : Prop := ∀ j, r = Ok j → journal_at dom name k = Some j.

(** The reservation under the gate. *)
Lemma wp_reserveCandidate s old revision digest w :
  sr_name old = name → reservable dom old w → transition_lock ∈ w_locks w →
  wp (gate_steps steps old) (reserveCandidate s old revision digest) (leaves (w_locks w) on_disk) w.
Proof.
  intros Hn [Hl Hses Hreb _] Htl. rewrite Hn in *.
  pose proof (session_at_ids _ _ _ _ Hses) as [Hdom _].
  assert (lock_free (gate_steps steps old)) as HP by (intros o x sc [Hs|Hs]; unfold gate_steps; by rewrite Hs).
  assert (∀ e w', w_locks w' = Lock.golden_scope :: w_locks w → leaves (Lock.golden_scope :: w_locks w) on_disk (Er e) w') as Her by (intros; by split).
  unfold reserveCandidate. apply wp_bind, wp_AcquireGolden; [done| |intros; by_error].
  intros w1 Htk. destruct (took_session _ _ _ _ _ Htk Hl) as [Hs1 Hr1]. destruct Htk as [Hf Hl1 _ _ _].
  apply wp_deferred_leaves; [done|by apply closed_ok|done|].
  wp_read as selected m Hload by by apply Her.
  apply wp_bind, wp_requireStoppedBase; [by right| |intros; apply Her; cbn in *; congruence]. intros w2 Hd2 Hl2 _ _. cbn [w_disk w_locks retick] in *.
  assert (w_locks w2 = Lock.golden_scope :: w_locks w) as HL2 by congruence.
  apply wp_bind, wp_wrapv, wp_host_ask. destruct (host_newID _) as [[op|e] b2]; [|by apply Her]. cbn beta iota.
  wp_guard as _ by by apply Her. cbv zeta. set (j := reservedJournal _ _ _ _).
  apply wp_bind, wp_lift. destruct (Backend.ValidateObjectID _); [|by apply Her]. cbn beta iota.
  apply wp_bind, wp_wrapv, wp_observeRebuild; [by right| |intros; apply Her; cbn in *; congruence]. intros ob w3 Hob.
  pose proof (obs_disk _ _ _ _ Hob) as Hd3. pose proof (obs_locks _ _ _ _ Hob) as Hl3. cbn [w_disk w_locks] in *.
  wp_guard as Hg by (apply Her; congruence).
  assert (recently (observed_absent (rj_cand_backend j)) (w_trace w3)) as Hab.
  { destruct Hob as [_ _ (t & Ht & ->) Ha]. apply recently_here. eapply observed_not_exists; [done|done|].
    apply orb_false_iff in Hg as [-> Hg]. apply neqs_false in Hg. by rewrite Hg. }
  apply wp_bind, wp_attempt, wp_host_ask. destruct (host_LoadPin _ _) as [loaded b3]. cbn beta iota.
  apply wp_bind. eapply wp_conseq with (Q := λ r w', same w3 w' ∧ ∀ x, r = Ok x → ∃ present digest, x = set_pin present digest j).
  { destruct loaded as [pin|e].
    - apply wp_bind, wp_lift. destruct (verifyOldPinWitness _ pin); [|by split]. apply wp_ret. split; [done|]. intros x [= <-]. by eexists _, _.
    - destruct (err_not_exist e); [apply wp_ret|apply wp_throw]; (split; [done|]); intros x [= <-]. by eexists false, "". }
  intros [j'|e] w4 [[Hd4 Hl4 Ht4] Hj']; [|apply Her; congruence]. destruct (Hj' _ eq_refl) as (present & pd & ->). cbn beta iota.
  apply wp_bind, wp_wrap, wp_createRebuildJournal; [|intros; apply Her; cbn; congruence].
  set (j1 := set_pin present pd j). change (rj_session_name j1) with (sr_name old). change (rj_domain j1) with (sr_domain old). rewrite Hn, Hdom.
  intros Hok Hph Hun Hnone f n. cbv zeta.
  assert (session_at dom name (<[(Rebuilds, json_name name):=EFile f]> (w_disk w4)) = Some old) as Hses4.
  { rewrite <-Hses. apply view_ext. rewrite lookup_insert_ne by done. congruence. }
  assert (w_locks w4 = Lock.golden_scope :: w_locks w) as HL4 by congruence.
  split.
  - unfold gate_steps, steps, both_locks. cbn [st_event st_locks st_disk]. rewrite HL4. split; [done|]. split; [split; set_solver|]. split; [set_solver|].
    exists j1, old. split_and!; try done; [by rewrite Ht4|].
    by rewrite delete_insert_id by done.
  - split; [|intros e; by apply Her]. intros ->. apply wp_ret. split; [done|]. intros x [= <-].
    rewrite <-Hn, <-Hdom. exact (journal_at_written j1 (w_disk w4) Hok).
Qed.

(** Advancing the session's journal under both locks. *)
Lemma advanced_at next k :
  rj_domain next = dom → rj_session_name next = name → journal_ok next → journal_at dom name (journal_disk next k) = Some next.
Proof. intros <- <-. apply journal_at_written. Qed.

Definition cloned_result (r : res RebuildJournal) (k : disk) (h : B) : Prop :=
  ∀ j, r = Ok j → journal_at dom name k = Some j ∧ rj_phase j = RebuildCloned.
Lemma wp_cloneCandidate record journal selected ob L w :
  w_locks w = transition_lock :: L → journal_at dom name (w_disk w) = Some journal → rj_phase journal = RebuildReserved →
  (∃ t, t ∈ w_trace w ∧ observed_stopped (br_object_id (gr_backend selected)) t) →
  (∃ t, t ∈ w_trace w ∧ observed_stopped (rj_old_backend journal) t) →
  registered_base dom (rj_cand_revision journal) (br_object_id (gr_backend selected)) (w_disk w) →
  (∃ w0, observed (rj_cand_backend journal) ob w0 w) →
  wp steps (cloneCandidate dom name record journal selected ob) (leaves (w_locks w) cloned_result) w.
Proof.
  intros HL Hj Hph Hsrc Hold Hreg [w0 Hob]. pose proof (journal_at_ok _ _ _ _ Hj) as (Hdom & Hname & Hjok). unfold cloneCandidate.
  apply wp_bind. eapply wp_conseq with (Q := λ r w', w_locks w' = w_locks w ∧ w_disk w' = w_disk w ∧ ∀ o, r = Ok o → exists_stopped o = true →
    recently (observed_stopped (rj_cand_backend journal)) (w_trace w')).
  { destruct (negb (ob_exists ob) && (ob_state ob =s ObjectUnknown)) eqn:Eab.
    - apply wp_bind, wp_wrap, wp_host_call. intros r b _. split.
      + unfold steps. cbn [st_event st_locks st_disk]. rewrite HL. split; [set_solver|]. split_and!; [|done|by exists journal].
        destruct Hob as [_ _ (t & Ht & ->) Ha]. apply recently_here. by eapply observed_not_exists.
      + destruct r as [[]|e]; [|by split]. cbn beta iota. apply wp_observeRebuild; [done| |by split].
        intros o w1 Ho. split_and!; [by rewrite (obs_locks _ _ _ _ Ho)|by rewrite (obs_disk _ _ _ _ Ho)|].
        intros o' [= <-] Hex. by eapply observed_recently.
    - apply wp_ret. split_and!; [done|done|]. intros o [= <-] Hex. by eapply observed_recently. }
  intros [o|e] w1 (Hl1 & Hd1 & Hq); [|by by_error]. specialize (Hq _ eq_refl). cbn beta iota.
  wp_guard as Hex%negb_false_iff by by_error. specialize (Hq Hex).
  apply wp_bind, wp_wrap, wp_host_call. intros r b _. split.
  { unfold steps. cbn [st_event st_locks st_disk]. rewrite Hl1, HL. split; [set_solver|]. split; [done|].
    exists journal. unfold journaled. cbn [st_disk]. by rewrite Hd1. }
  destruct r as [[]|e]; [|by by_error]. cbn beta iota.
  apply wp_bind, wp_wrapv, wp_observeRebuild; [done| |intros; by_error]. intros o2 w2 Ho2. cbn beta iota.
  pose proof (obs_disk _ _ _ _ Ho2) as Hd2. pose proof (obs_locks _ _ _ _ Ho2) as Hl2. cbn [w_disk w_locks asked] in *.
  wp_guard as Hex2%negb_false_iff by by_error. cbv zeta.
  apply wp_bind, wp_AcquireSession; [auto with go| |intros; by_error]. intros w3 [Hf3 Hl3 _ _ Ht3]. rewrite <-Hl1, <-Hl2.
  apply wp_deferred_leaves; [auto with go|by apply closed_ok|done|].
  wp_read as cur n Hcur by by_error. wp_guard as _ by by_error.
  apply wp_bind, wp_wrap, wp_advance; [| |intros; by_error].
  - intros ph m Hnph Hset _ Hnext Hcurj. pose proof (moved_phase _ _ _ _ _ (journal_event (set_phase RebuildCloned journal)) _ (w_locks w3) Hdom Hname Hnph Hset Hnext Hcurj) as Hmoved.
    set (next := set_phase RebuildCloned journal) in *.
    pose proof (advanced_at next (w_disk w3) Hdom Hname Hnext) as Hat. split.
    + unfold steps, both_locks. cbn [st_event journal_event st_locks w_locks w_trace retick].
      rewrite Hl3. split; [by rewrite <-Hname|]. split; [split; [set_solver|rewrite Hl2, Hl1, HL; set_solver]|].
      exists next. split; [exact Hmoved|]. destruct (observed_head _ _ _ _ Ho2 Hex2) as (t & Ht & Hs). exists t. split; [rewrite Ht3; set_solver|done].
    + intros [[]|e]; [|by by_error]. apply wp_ret. split; [done|]. intros x [= <-]. by split.
  - intros m Hnext. apply wp_ret. rewrite Hdom in Hnext. split; [done|]. intros x [= <-]. split; [|done].
    by rewrite Hname in Hnext.
Qed.

Lemma gate_prepare expected o s : gate_steps steps expected o s → steps o s.
Proof. unfold gate_steps. destruct (st_event s) as [| | | | | | | |id r| | | | | | | | | | | | |] eqn:Es; try done; intros _; unfold prepare_steps; by rewrite Es. Qed.
Lemma wp_prepareCandidate s rawName revision digest w :
  admitDomain (rs_domain s) = Ok dom → Session.ParseName rawName = Ok name →
  wp steps (prepareCandidate s rawName revision digest) (leaves (w_locks w) cloned_result) w.
Proof.
  intros Hdom Hname. unfold prepareCandidate. wp_guard as _ by by_error.
  apply wp_bind, wp_lift. rewrite Hdom. apply wp_bind, wp_lift. rewrite Hname.
  apply wp_bind, wp_wrap, wp_lift. destruct (Backend.ValidateObjectID revision); [|by_error]. cbn beta iota.
  apply wp_bind, wp_quiet; [quiet_tac|]. intros [u|e] n0 _; [|by_error].
  apply wp_bind, wp_Acquire_took; [auto with go| |intros; by_error]. intros w1 [Hf1 Hl1 _ _ _]. cbn [w_locks retick] in Hf1, Hl1.
  apply wp_deferred_leaves; [auto with go|by apply closed_ok|done|]. rewrite <-Hl1.
  assert (∀ e w', w_locks w' = w_locks w1 → leaves (w_locks w1) cloned_result (Er e) w') as Her by (intros; by split).
  wp_read as record n1 Hrec by by apply Her. apply LoadRecord_ok, session_at_ids in Hrec as [_ Hn].
  apply wp_bind, wp_quiet; [quiet_tac|]. intros [u2|e] n2 _; [|by apply Her].
  apply wp_bind, wp_attempt, wp_quiet; [auto with quiet|]. intros loaded n3 Hload. cbn beta iota.
  apply wp_bind. eapply wp_conseq with (Q := leaves (w_locks w1) on_disk).
  { destruct loaded as [j|e].
    - apply LoadRebuildJournal_ok in Hload. apply wp_ret. split; [done|]. by intros x [= <-].
    - destruct (err_not_exist e); [|apply wp_throw; by split]. wp_guard as _ by by split.
      eapply wp_impl; [apply (gate_prepare record)|]. change (w_locks w1) with (w_locks (retick n3 (retick n2 (retick n1 w1)))).
      apply (law_rebuild_gate _ _ (λ j k, journal_at dom name k = Some j)). intros w2 Hw2 Hsub _.
      apply wp_reserveCandidate; [done|done|]. apply Hsub. cbn. rewrite Hl1. set_solver. }
  intros [journal|e] w2 [Hl2 Hj]; [|by apply Her]. specialize (Hj _ eq_refl). cbn beta iota.
  apply wp_bind, wp_lift. destruct (requirePrepared s journal); [|by apply Her].
  wp_guard as Hm%negb_false_iff by by apply Her. wp_guard as _ by by apply Her.
  apply wp_bind, wp_verifyOldPin. intros [u3|e] w3 [Hd3 Hl3 Ht3]; [|apply Her; congruence]. cbn beta iota.
  apply wp_bind, wp_wrapv, wp_observeRebuild; [done| |intros; apply Her; congruence]. intros ob w4 Hob.
  pose proof (obs_disk _ _ _ _ Hob) as Hd4. pose proof (obs_locks _ _ _ _ Hob) as Hl4. cbn beta iota.
  wp_guard as Hex%negb_false_iff by (apply Her; congruence). destruct (observed_head _ _ _ _ Hob Hex) as (told & Htold & Hsold).
  apply wp_bind, wp_loadStoppedBase; [auto with go|done|]. intros [selected|e] w5 Hl5 Hd5 Ht5 Hsel; [|apply Her; congruence].
  destruct (Hsel selected eq_refl) as (Hreg & tsel & Htsel & Hssel). rewrite (proj1 (admitDomain_ok _ _ Hdom)) in Hreg. cbn beta iota.
  assert (w_disk w5 !! journal_key = w_disk w2 !! journal_key) as Hk5.
  { rewrite <-Hd3, <-Hd4. destruct Hd5 as [(w4' & Htk & ->)| ->]; [|done].
    apply (took_journal _ _ _ dom name Htk). rewrite Hl4, Hl3, Hl2, Hl1. set_solver. }
  apply wp_bind, wp_observeRebuild; [done| |intros; apply Her; congruence]. intros ob6 w6 Hob6.
  pose proof (obs_disk _ _ _ _ Hob6) as Hd6. pose proof (obs_locks _ _ _ _ Hob6) as Hl6. cbn beta iota.
  assert (journal_at dom name (w_disk w6) = Some journal) as Hj6 by (rewrite Hd6, <-Hj; by apply view_ext).
  destruct (rj_phase journal =s RebuildCloned) eqn:Ep; bsimpl.
  { wp_guard as _ by (apply Her; congruence). apply wp_ret. split; [congruence|]. by intros x [= <-]. }
  assert (rj_phase journal = RebuildReserved) as Hph.
  { unfold matches_request in Hm. rewrite !andb_true_iff, orb_true_iff, !String.eqb_eq in Hm. naive_solver. }
  assert (rj_cand_revision journal = revision) as Hrev by (unfold matches_request in Hm; by rewrite !andb_true_iff, !String.eqb_eq in Hm; naive_solver).
  assert (w_locks w6 = w_locks w1) as HL6 by congruence. rewrite <-HL6.
  pose proof (observed_trace _ _ _ _ Hob6) as Ht6.
  eapply wp_cloneCandidate; [by rewrite HL6, Hl1|done|done| | |by rewrite Hrev, Hd6|by exists w5].
  - exists tsel. split; [by apply Ht6|done].
  - exists told. split; [by apply Ht6, Ht5|done].
Qed.

(** *** A preparation that a stray entry blocks *)
Context (junk : string) (Hjunk : untouched (Rebuilds, junk)).
Lemma wp_reserveCandidate_stray P s old revision digest w :
  lock_free P → (∀ id r o k L, P o (Step (EvObserve id r) k k L)) → stray junk (w_disk w) →
  wp P (reserveCandidate s old revision digest) (fails (w_locks w)) w.
Proof.
  intros HP Ho Hst. unfold reserveCandidate. apply wp_bind, wp_AcquireGolden; [done| |intros; by_error].
  intros w1 Htk. apply (stray_left_alone _ _ (w_disk w1)) in Hst; [|done|by eapply took_left_alone].
  destruct Htk as [Hf Hl _ _ _]. apply wp_deferred_leaves; [done|apply closed_fails|done|]. rewrite <-Hl.
  wp_read as selected m _ by by_error.
  apply wp_bind, wp_requireStoppedBase; [done| |intros; by_error]. intros w2 Hd2 Hl2 _ _.
  apply wp_bind, wp_wrapv, wp_host_ask. destruct (host_newID _) as [[op|e] b2]; [|by_error]. cbn beta iota.
  wp_guard as _ by by_error. cbv zeta. apply wp_bind, wp_lift. destruct (Backend.ValidateObjectID _); [|by_error]. cbn beta iota.
  apply wp_bind, wp_wrapv, wp_observeRebuild; [done| |intros; by_error]. intros ob w3 Hob.
  pose proof (obs_disk _ _ _ _ Hob) as Hd3. pose proof (obs_locks _ _ _ _ Hob) as Hl3. cbn [w_disk w_locks retick] in *.
  wp_guard as _ by by_error. apply wp_bind, wp_attempt, wp_host_ask. destruct (host_LoadPin _ _) as [loaded b3]. cbn beta iota.
  apply wp_bind. eapply wp_conseq with (Q := λ _ w', same w3 w').
  { destruct loaded as [pin|e].
    - apply wp_bind, wp_lift. destruct (verifyOldPinWitness _ pin); [by apply wp_ret|done].
    - destruct (err_not_exist e); [by apply wp_ret|by apply wp_throw]. }
  intros [j|e] w4 [Hd4 Hl4 _]; [|by_error]. cbn beta iota.
  apply wp_bind, wp_wrap, (wp_createRebuildJournal_stray _ junk); [by rewrite Hd4, Hd3, Hd2|intros; by_error].
Qed.
Lemma gate_looks expected o s : gate_steps look_steps expected o s → look_steps o s.
Proof. unfold gate_steps. destruct (st_event s) eqn:Es; try done; intros _; unfold look_steps; by rewrite Es. Qed.
Lemma wp_prepareCandidate_stray s rawName revision digest w :
  admitDomain (rs_domain s) = Ok dom → Session.ParseName rawName = Ok name →
  stray junk (w_disk w) → untouched journal_key → w_disk w !! journal_key = None →
  wp look_steps (prepareCandidate s rawName revision digest) (fails (w_locks w)) w.
Proof.
  intros Hdom Hname Hst Hun Hno. unfold prepareCandidate. wp_guard as _ by by_error.
  apply wp_bind, wp_lift. rewrite Hdom. apply wp_bind, wp_lift. rewrite Hname.
  apply wp_bind, wp_wrap, wp_lift. destruct (Backend.ValidateObjectID revision); [|by_error]. cbn beta iota.
  apply wp_bind, wp_quiet; [quiet_tac|]. intros [u|e] n0 _; [|by_error].
  apply wp_bind, wp_Acquire_took; [auto with go| |intros; by_error]. intros w1 Htk.
  pose proof (took_left_alone _ _ _ Htk) as Hk. cbn [w_disk retick] in Hk. apply (stray_left_alone _ _ (w_disk w1)) in Hst; [|done..].
  rewrite <-(Hk _ Hun) in Hno. destruct Htk as [Hf Hl _ _ _]. cbn [w_locks retick] in Hf, Hl.
  apply wp_deferred_leaves; [auto with go|apply closed_fails|done|]. rewrite <-Hl.
  wp_read as record n1 _ by by_error.
  apply wp_bind, wp_quiet; [quiet_tac|]. intros [u2|e] n2 _; [|by_error].
  apply wp_bind, wp_attempt, wp_quiet; [auto with quiet|]. intros loaded n3 Hload. cbn beta iota.
  apply wp_bind. eapply wp_conseq with (Q := leaves (w_locks w1) (λ r _ _, ∀ a, r = Ok a → False)).
  { destruct loaded as [j|e].
    - apply LoadRebuildJournal_ok, view_Some in Hload as (f & Hf' & _). cbn [w_disk retick] in Hf'. by rewrite Hno in Hf'.
    - destruct (err_not_exist e); [|apply wp_throw; by_error]. wp_guard as _ by by_error.
      eapply wp_impl; [apply (gate_looks record)|]. change (w_locks w1) with (w_locks (retick n3 (retick n2 (retick n1 w1)))).
      apply (law_rebuild_gate _ _ (λ _ _, False)). intros w2 Hw2 Hsub Hk2. cbn [w_disk retick] in Hk2.
      eapply wp_leaves; [apply wp_reserveCandidate_stray|].
      + intros o x sc [Hs|Hs]; unfold gate_steps; by rewrite Hs.
      + intros. unfold gate_steps. cbn. by right.
      + by eapply stray_left_alone.
      + intros r w3 Hl3 Hr. split; [done|]. intros x0 Hx; by rewrite Hx in Hr. }
  intros [j|e] w2 [Hl2 Hq]; [by destruct (Hq j)|]. by_error.
Qed.
End prepare.

(** *** Cutover *)

(** The steps of a cutover: the journal first, the session record second, both
    while the old and the candidate object have just been seen stopped. *)
Definition cutover_ready (j : RebuildJournal) (r : SessionRecord) (o : list step) : Prop :=
  is_old_stopped r j = true ∧ sr_id r = rj_session_id j ∧
  recently (observed_stopped (rj_old_backend j)) o ∧ recently (observed_stopped (rj_cand_backend j)) o.
Definition cutover_steps (dom name : string) (o : list step) (s : step) : Prop :=
  match st_event s with
  | EvAcquire _ | EvRelease _ | EvObserve _ _ => True
  | EvPublish Rebuilds n _ =>
      n = json_name name ∧ both_locks dom name (st_locks s) ∧
      ∃ j r, moved RebuildCutover dom name s j ∧ session_at dom name (st_disk s) = Some r ∧ cutover_ready j r o
  | EvPublish Sessions n _ =>
      n = json_name name ∧ both_locks dom name (st_locks s) ∧
      ∃ j r, journaled RebuildCutover dom name s j ∧ session_at dom name (st_before s) = Some r ∧
        session_at dom name (st_disk s) = Some (upgradeRecordForStore (candidateRecord r j)) ∧ cutover_ready j r o
  | _ => False
  end.
Lemma cutover_lock_free dom name : lock_free (cutover_steps dom name).
Proof. intros o s sc [Hs|Hs]; unfold cutover_steps; by rewrite Hs. Qed.
#[export] Hint Resolve cutover_lock_free : go.

Section cutover.
Context {B : Type} {H : Host B} {E : Env} {D : Digests}.
Context (dom name : string).
Implicit Types (w : world B).
#[local] Abbreviation session_lock := (Lock.session_scope dom name).
#[local] Abbreviation transition_lock := (Lock.transition_scope dom name).
#[local] Abbreviation steps := (cutover_steps dom name).

Lemma wp_requireAllStopped P objects (Q : res unit → world B → Prop) w :
  (∀ id r o k L, P o (Step (EvObserve id r) k k L)) →
  (∀ w', w_disk w' = w_disk w → w_locks w' = w_locks w → (∀ R, recently R (w_trace w) → recently R (w_trace w')) →
     (∀ x, x ∈ objects → recently (observed_stopped x) (w_trace w')) → Q (Ok tt) w') →
  (∀ e w', w_disk w' = w_disk w → w_locks w' = w_locks w → Q (Er e) w') →
  wp P (requireAllStopped objects) Q w.
Proof.
  intros HP. revert w. induction objects as [|x objects IH]; intros w H1 H2; cbn [requireAllStopped].
  { apply wp_ret, H1; try done. intros x Hx. by apply not_elem_of_nil in Hx. }
  apply wp_bind, wp_wrapv, wp_observeRebuild; [auto| |auto]. intros ob w1 Hob. cbn beta iota.
  pose proof (obs_disk _ _ _ _ Hob) as Hd. pose proof (obs_locks _ _ _ _ Hob) as Hl.
  wp_guard as Hex%negb_false_iff by by apply H2. apply IH; [|intros e w' Hd' Hl'; apply H2; congruence].
  intros w' Hd' Hl' Hk Hall. apply H1; [congruence|congruence| |].
  - intros R HR. by eapply Hk, observed_keeps.
  - intros y [->|Hy]%elem_of_cons; [|by apply Hall]. by eapply Hk, observed_recently.
Qed.

(** After a cutover the session names the candidate of the journal, which is
    in its cutover phase. *)
Definition cut_over (a : SessionRecord) (k : disk) : Prop :=
  stored dom name a k ∧ ∃ j, journal_at dom name k = Some j ∧ rj_phase j = RebuildCutover ∧ is_candidate a j = true.

Lemma wp_writeCutover record j w :
  both_locks dom name (w_locks w) → journal_at dom name (w_disk w) = Some j → rj_phase j = RebuildCutover →
  session_at dom name (w_disk w) = Some record → cutover_ready j record (w_trace w) →
  wp steps (wrap "persist candidate as active system" (SaveRecord dom (candidateRecord record j)) ;;! ret (candidateRecord record j))
     (leaves (w_locks w) (λ r k _, ∀ a, r = Ok a → cut_over a k)) w.
Proof.
  intros HL Hj Hph Hat Hready. pose proof (session_at_ids _ _ _ _ Hat) as [Hdom Hname].
  apply wp_bind, wp_wrap, wp_SaveRecord; [|intros; by_error]. intros Hok.
  pose proof (session_at_saved dom (candidateRecord record j) (w_disk w) Hok) as Hsaved.
  change (sr_name (candidateRecord record j)) with (sr_name record) in Hsaved. rewrite Hname in Hsaved.
  assert (journal_at dom name (saved_disk (candidateRecord record j) (w_disk w)) = Some j) as Hj'.
  { rewrite <-Hj. apply view_ext. unfold saved_disk. by rewrite lookup_insert_ne by done. }
  split.
  - unfold steps. cbn [st_event save_event st_locks st_disk]. split; [by rewrite <-Hname|]. split; [done|].
    exists j, record. by split_and!.
  - intros [[]|e]; cbn beta iota; [|by_error]. apply wp_ret. split; [done|]. intros a [= <-].
    split; [by right|]. exists j. split_and!; [done|done|]. unfold is_candidate. cbn. by rewrite !eqs_refl.
Qed.
Lemma wp_Cutover s rawName w :
  admitDomain (rs_domain s) = Ok dom → Session.ParseName rawName = Ok name →
  wp steps (Cutover s rawName) (leaves (w_locks w) (λ r k _, ∀ a, r = Ok a → cut_over a k)) w.
Proof.
  intros Hdom Hname. unfold Cutover. wp_guard as _ by by_error.
  apply wp_bind, wp_lift. rewrite Hdom. apply wp_bind, wp_lift. rewrite Hname.
  apply wp_bind, wp_Acquire_took; [auto with go| |intros; by_error]. intros w1 [Hf1 Hl1 _ _ _].
  apply wp_deferred_leaves; [auto with go|by apply closed_ok|done|].
  apply wp_bind, wp_AcquireSession; [auto with go| |intros; by_error]. intros w2 [Hf2 Hl2 _ _ _]. rewrite <-Hl1.
  apply wp_deferred_leaves; [auto with go|by apply closed_ok|done|]. rewrite <-Hl2.
  assert (both_locks dom name (w_locks w2)) as HL by (rewrite Hl2, Hl1; split; set_solver).
  set (Q := leaves (w_locks w2) _). assert (∀ e w', w_locks w' = w_locks w2 → Q (Er e) w') as Her by (intros; by split).
  wp_read as journal n1 Hj by by apply Her. apply LoadRebuildJournal_ok in Hj. pose proof (journal_at_ok _ _ _ _ Hj) as (Hjd & Hjn & _).
  wp_guard as Hph by by apply Her. apply wp_bind, wp_lift. destruct (requirePrepared s journal); [|by apply Her].
  wp_read as record n2 Hrec by by apply Her. apply LoadRecord_ok in Hrec.
  wp_guard as Hid by by apply Her. apply orb_false_iff in Hid as [Hid%neqs_false _].
  apply wp_bind, wp_quiet; [quiet_tac|]. intros [u|e] n3 _; [|by apply Her].
  destruct ((rj_phase journal =s RebuildCutover) && is_candidate record journal) eqn:Edone.
  { apply andb_true_iff in Edone as [Ep%String.eqb_eq Ec]. apply wp_ret. split; [done|]. intros x [= <-].
    split; [by left|]. by exists journal. }
  wp_guard as Hold%negb_false_iff by by apply Her.
  apply wp_bind, wp_verifyOldPin. intros [u2|e] w3 [Hd3 Hl3 Ht3]; [|by apply Her]. cbn beta iota.
  apply wp_bind, wp_requireAllStopped; [done| |intros; apply Her; cbn in *; congruence].
  intros w4 Hd4 Hl4 _ Hall. cbn [w_disk w_locks w_trace retick] in *. set (next := set_phase RebuildCutover journal).
  apply wp_bind. eapply wp_conseq with (Q := λ r w', w_locks w' = w_locks w2 ∧ ∀ u, r = Ok u →
    session_at dom name (w_disk w') = Some record ∧ journal_at dom name (w_disk w') = Some next ∧ cutover_ready next record (w_trace w')).
  { assert (cutover_ready next record (w_trace w4)) as Hready by (split_and!; [exact Hold|done|apply Hall; set_solver|apply Hall; set_solver]).
    assert (session_at dom name (w_disk w4) = Some record) as Hrec4 by (by rewrite Hd4, Hd3).
    assert (journal_at dom name (w_disk w4) = Some journal) as Hj4 by (by rewrite Hd4, Hd3).
    destruct (rj_phase journal =s RebuildCloned) eqn:Ep; bsimpl.
    - apply wp_bind, wp_wrap, wp_advance; [| |intros; split; [cbn; congruence|done]].
      + intros ph n Hnph Hset _ Hnext Hcurj.
        pose proof (moved_phase _ _ _ _ _ (journal_event next) _ (w_locks w4) Hjd Hjn Hnph Hset Hnext Hcurj) as Hmoved.
        fold next. pose proof (advanced_at dom name next (w_disk w4) Hjd Hjn Hnext) as Hat.
        assert (session_at dom name (journal_disk next (w_disk w4)) = Some record) as Hat2.
        { rewrite <-Hrec4. apply view_ext. unfold journal_disk. by rewrite lookup_insert_ne by done. }
        split.
        * unfold steps. cbn [st_event journal_event st_locks st_disk]. split; [by rewrite <-Hjn|]. rewrite Hl4, Hl3. split; [done|].
          exists next, record. split; [|by split]. rewrite Hl4, Hl3 in Hmoved. exact Hmoved.
        * intros [[]|e]; cbn beta iota; [|split; [cbn; congruence|done]].
          assert (cutover_ready next record (w_trace (did (B := B) (journal_event next) (journal_disk next (w_disk w4)) (retick n w4)))) as Hready'.
          { destruct Hready as (?&?&?&?). split_and!; try done; by apply recently_cons. }
          destruct (rs_cutoverHook s); [apply wp_throw; split; [cbn; congruence|done]|].
          apply wp_ret. split; [cbn; congruence|]. by intros x _.
      + intros n Hnext. rewrite Hjd, Hjn, Hj4 in Hnext. injection Hnext as Hnext. apply (f_equal rj_phase) in Hnext. cbn in Hnext.
        rewrite Ep in Hnext. done.
    - apply wp_ret. split; [congruence|]. intros x _. split; [done|]. split; [|done].
      assert (next = journal) as ->; [|done]. rewrite andb_false_iff, !neqs_false in Hph. destruct Hph as [|Hph]; [done|].
      unfold next, set_phase. by destruct journal; cbn in *; subst. }
  intros [u3|e] w5 [Hl5 Hq]; [|by apply Her]. destruct (Hq _ eq_refl) as (Hrec5 & Hj5 & Hready5). cbn beta iota zeta.
  change (candidateRecord record journal) with (candidateRecord record next). unfold Q. rewrite <-Hl5.
  apply wp_writeCutover; [by rewrite Hl5|done|done|done|done].
Qed.
End cutover.

(** *** Confirmation and retirement *)

(** The candidate of the journal is the session's running, ready system, and a
    fresh snapshot of its exact generation says so. *)
Definition ready_candidate (dom name : string) (j : RebuildJournal) (o : list step) (k : disk) : Prop :=
  ∃ r, session_at dom name k = Some r ∧ is_ready_candidate r j = true ∧ vouched_since r o.
Definition confirm_steps (dom name : string) (o : list step) (s : step) : Prop :=
  match st_event s with
  | EvPublish Rebuilds n _ =>
      n = json_name name ∧ both_locks dom name (st_locks s) ∧
      ∃ j, moved RebuildReady dom name s j ∧ ready_candidate dom name j o (st_disk s)
  | _ => check_steps dom name o s
  end.
Definition retire_steps (dom name : string) (o : list step) (s : step) : Prop :=
  match st_event s with
  | EvPublish Rebuilds n _ =>
      n = json_name name ∧ both_locks dom name (st_locks s) ∧
      ∃ j, moved RebuildRetiring dom name s j ∧ ready_candidate dom name j o (st_disk s) ∧
        recently (observed_stopped (rj_old_backend j)) o
  | EvDelete object _ =>
      Lock.transition_scope dom name ∈ st_locks s ∧ recently (observed_stopped object) o ∧
      ∃ j, journaled RebuildRetiring dom name s j ∧ object = rj_old_backend j ∧ object ≠ rj_cand_backend j ∧
        ready_candidate dom name j o (st_disk s)
  | EvRemove Rebuilds n =>
      n = json_name name ∧ both_locks dom name (st_locks s) ∧
      ∃ j, journal_at dom name (st_before s) = Some j ∧ rj_phase j = RebuildRetiring ∧ ready_candidate dom name j o (st_disk s) ∧
        ∃ a t rest, o = a :: t :: rest ∧ observed_absent (rj_old_backend j) t ∧
          st_event a = EvAcquire (Lock.session_scope dom name) ∧ Lock.transition_scope dom name ∈ st_locks a
  | _ => check_steps dom name o s
  end.
Lemma confirm_lock_free dom name : lock_free (confirm_steps dom name).
Proof. intros o s sc [Hs|Hs]; unfold confirm_steps, check_steps; by rewrite Hs. Qed.
Lemma retire_lock_free dom name : lock_free (retire_steps dom name).
Proof. intros o s sc [Hs|Hs]; unfold retire_steps, check_steps; by rewrite Hs. Qed.
#[export] Hint Resolve confirm_lock_free retire_lock_free : go.

Lemma check_confirm dom name o s : check_steps dom name o s → confirm_steps dom name o s.
Proof. unfold confirm_steps, check_steps. by destruct (st_event s) as [| |[]|[]|[]| | | | | | | | | | | | | | | | |]. Qed.
Lemma check_retire dom name o s : check_steps dom name o s → retire_steps dom name o s.
Proof. unfold retire_steps, check_steps. by destruct (st_event s) as [| |[]|[]|[]| | | | | | | | | | | | | | | | |]. Qed.

Section retire.
Context {B : Type} {H : Host B} {E : Env} {D : Digests} {W : WorkspaceLifecycle B} {WL : WorkspaceLaws B}.
Context (dom name : string).
Implicit Types (w : world B).
#[local] Abbreviation session_lock := (Lock.session_scope dom name).
#[local] Abbreviation transition_lock := (Lock.transition_scope dom name).

(** Both phases begin alike: the uses of the durably ready candidate are
    verified, then its readiness is established afresh. *)
Definition checked (L : list string) (j : RebuildJournal) (r : res SessionRecord) (w : world B) : Prop :=
  w_locks w = L ∧ ∀ a, r = Ok a →
    session_at dom name (w_disk w) = Some a ∧ is_ready_candidate a j = true ∧ vouched_since a (w_trace w) ∧
    journal_at dom name (w_disk w) = Some j.
Lemma wp_checkReady msg1 msg2 record j L w :
  w_locks w = session_lock :: transition_lock :: L →
  session_at dom name (w_disk w) = Some record → journal_at dom name (w_disk w) = Some j → is_ready_candidate record j = true →
  wp (check_steps dom name) (wrap msg1 (VerifyUses dom record) ;;! wrap msg2 (reconcileReady record))
     (checked (session_lock :: transition_lock :: L) j) w.
Proof.
  intros HL Hat Hj Hc. pose proof (session_at_ids _ _ _ _ Hat) as [_ Hname].
  apply wp_bind, wp_wrap. eapply wp_conseq; [eapply wp_impl; [|apply law_verify]|].
  { intros o s. apply workspace_check. }
  intros [u|e] w1 [Hl1 Hk1]; [|split; [congruence|done]]. cbn beta iota. rewrite Hname in Hk1.
  destruct Hk1 as [Hs1 Hr1]; [rewrite HL; apply elem_of_cons; by left|].
  assert (session_at dom name (w_disk w1) = Some record) as Hat1 by (rewrite <-Hat; by apply view_ext).
  apply wp_wrap. eapply wp_conseq; [eapply (wp_reconcileReady dom name L); [unfold with_session; congruence|done]|].
  intros [a|e] w2 [Hl2 Hq]; (split; [exact Hl2|]); [|done]. intros x [= <-].
  destruct (Hq _ eq_refl) as (-> & Hat2 & Hv & Hr2). split_and!; [done| |done|rewrite <-Hj; apply view_ext; congruence].
  revert Hc. unfold is_ready_candidate, is_candidate. rewrite !andb_true_iff. cbn. naive_solver.
Qed.

Lemma ready_candidate_frame j o k k' a : session_at dom name k = Some a → is_ready_candidate a j = true → vouched_since a o →
  session_at dom name k' = session_at dom name k → ready_candidate dom name j o k'.
Proof. intros Hat Hc Hv Hk. exists a. by rewrite Hk. Qed.
Lemma journal_disk_session (j : RebuildJournal) (k : disk) : session_at dom name (journal_disk j k) = session_at dom name k.
Proof. apply view_ext. unfold journal_disk. by rewrite lookup_insert_ne. Qed.

(** After a confirmation the record on disk is the running, ready candidate of
    a journal that says so. *)
Definition confirmed (a : SessionRecord) (k : disk) : Prop :=
  session_at dom name k = Some a ∧ ∃ j, journal_at dom name k = Some j ∧ rj_phase j = RebuildReady ∧ is_ready_candidate a j = true.

Lemma wp_ConfirmReady s rawName starter w :
  Domain.Parse (dc_ID (rs_domain s)) = Ok dom → Session.ParseName rawName = Ok name →
  wp (confirm_steps dom name) (ConfirmReady s rawName starter) (leaves (w_locks w) (λ r k _, ∀ a, r = Ok a → confirmed a k)) w.
Proof.
  intros Hdom Hname. unfold ConfirmReady. destruct (sv_start starter) as [start|]; [|apply wp_throw; by_error].
  wp_guard as _ by by_error. apply wp_bind, wp_lift. destruct (validStartDependencies starter start); [|by_error].
  apply wp_bind, wp_lift. rewrite Hdom. cbn [res_bind]. destruct (check _ _); [|by_error]. cbn beta iota.
  apply wp_bind, wp_lift. rewrite Hname.
  apply wp_bind, wp_Acquire_took; [auto with go| |intros; by_error]. intros w1 [Hf1 Hl1 _ _ _].
  apply wp_deferred_leaves; [auto with go|by apply closed_ok|done|].
  apply wp_bind, wp_AcquireSession; [auto with go| |intros; by_error]. intros w2 [Hf2 Hl2 _ _ _]. rewrite <-Hl1.
  apply wp_deferred_leaves; [auto with go|by apply closed_ok|done|]. rewrite <-Hl2.
  assert (w_locks w2 = session_lock :: transition_lock :: w_locks w) as HL by congruence.
  set (Q := leaves (w_locks w2) _). assert (∀ e w', w_locks w' = w_locks w2 → Q (Er e) w') as Her by (intros; by split).
  wp_read as journal n1 Hj by by apply Her. apply LoadRebuildJournal_ok in Hj. pose proof (journal_at_ok _ _ _ _ Hj) as (Hjd & Hjn & _).
  wp_guard as Hph by by apply Her. apply wp_bind, wp_lift. destruct (requirePrepared s journal); [|by apply Her].
  wp_read as record n2 Hrec by by apply Her. apply LoadRecord_ok in Hrec.
  wp_guard as Hc%negb_false_iff by by apply Her.
  apply wp_assoc, wp_bind. eapply wp_conseq; [eapply wp_impl; [apply check_confirm|by apply (wp_checkReady _ _ record journal (w_locks w))]|].
  intros [r|e] w3 [Hl3 Hq]; [|apply Her; congruence]. destruct (Hq _ eq_refl) as (Hat & Hca & Hv & Hj3). cbn beta iota. clear Hq.
  destruct (rj_phase journal =s RebuildReady) eqn:Ep; bsimpl.
  { apply wp_ret. split; [congruence|]. intros x [= <-]. split; [done|]. by exists journal. }
  apply wp_bind. destruct (rs_readyHook s); [apply wp_throw, Her; congruence|apply wp_ret]. cbn beta iota.
  set (next := set_phase RebuildReady journal).
  apply wp_bind, wp_wrap, wp_advance; [| |intros; apply Her; cbn; congruence].
  - intros ph n Hnph Hset _ Hnext Hcurj. pose proof (moved_phase _ _ _ _ _ (journal_event next) _ (w_locks w3) Hjd Hjn Hnph Hset Hnext Hcurj) as Hmoved.
    fold next. pose proof (advanced_at dom name next (w_disk w3) Hjd Hjn Hnext) as Hat'.
    pose proof (journal_disk_session next (w_disk w3)) as Hfr. split.
    + unfold confirm_steps. cbn [st_event journal_event st_locks st_disk]. split; [by rewrite <-Hjn|].
      rewrite Hl3. rewrite Hl3 in Hmoved. split; [split; set_solver|]. exists next. split; [exact Hmoved|]. by apply (ready_candidate_frame next _ (w_disk w3) _ r).
    + intros [[]|e]; cbn beta iota; [|apply Her; cbn; congruence]. apply wp_ret. split; [cbn; congruence|]. intros x [= <-].
      split; [by rewrite <-Hat|]. by exists next.
  - intros n Hnext. rewrite Hjd, Hjn in Hnext. apply wp_ret. split; [cbn; congruence|]. intros x [= <-]. split; [done|]. by exists next.
Qed.

(** After a retirement the ready candidate is the session's system and no
    rebuild is left. *)
Definition retired (a : SessionRecord) (k : disk) : Prop :=
  session_at dom name k = Some a ∧ sr_state a = StateRunning ∧ rr_status (sr_readiness a) = ReadinessReady ∧
  k !! (Rebuilds, json_name name) = None.
Definition retire_result (L : list string) (r : res SessionRecord) (w : world B) : Prop :=
  (w_locks w = session_lock :: transition_lock :: L ∨ w_locks w = transition_lock :: L) ∧ ∀ a, r = Ok a → retired a (w_disk w).

(** The deletion itself, with the session lock given up and taken again. *)
Definition retireOld (journal : RebuildJournal) (record : SessionRecord) (old : Observation) : M B SessionRecord :=
  Release (Lock.session_scope dom name) ;;!
  (if ob_exists old then wrap "delete exact old rebuild object" (Delete (rj_old_backend journal)) else ret tt) ;;!
  let! old := wrapv "old rebuild object did not reconcile absent" (observeRebuild (rj_old_backend journal)) in
  guard (ob_exists old || (ob_state old ≠s ObjectUnknown)) "old rebuild object did not reconcile absent" ;;!
  AcquireSession dom name ;;!
  let! current := wrapv "active candidate changed during old-system deletion" (LoadRecord dom name) in
  guard (bool_decide (current ≠ record)) "active candidate changed during old-system deletion" ;;!
  wrap "clear completed rebuild journal" (removeRebuildJournal journal) ;;!
  ret record.
Lemma wp_retireOld journal record old L w :
  w_locks w = session_lock :: transition_lock :: L → session_lock ∉ transition_lock :: L →
  journal_at dom name (w_disk w) = Some journal → rj_phase journal = RebuildRetiring →
  session_at dom name (w_disk w) = Some record → is_ready_candidate record journal = true → vouched_since record (w_trace w) →
  (ob_exists old = true → recently (observed_stopped (rj_old_backend journal)) (w_trace w)) →
  wp (retire_steps dom name) (retireOld journal record old) (retire_result L) w.
Proof.
  intros HL Hf Hj Hph Hat Hc Hv Hold. pose proof (journal_at_ok _ _ _ _ Hj) as (Hjd & Hjn & Hjok). unfold retireOld.
  assert (∀ e w', w_locks w' = session_lock :: transition_lock :: L ∨ w_locks w' = transition_lock :: L → retire_result L (Er e) w') as Her by (intros; by split).
  apply wp_bind, (wp_Release_held _ _ (transition_lock :: L)); [auto with go|done|done|].
  intros [u|e] w1 Hl1 Hd1 _ Ht1; [|apply Her; by right]. cbn beta iota.
  assert (ready_candidate dom name journal (w_trace w1) (w_disk w1)) as Hready.
  { exists record. rewrite Hd1, Ht1. split_and!; [done|done|by apply vouched_since_cons]. }
  apply wp_bind. eapply wp_conseq with (Q := λ r w', w_locks w' = transition_lock :: L ∧ w_disk w' = w_disk w1 ∧ vouched_since record (w_trace w')).
  { destruct (ob_exists old) eqn:Hex; [|apply wp_ret; rewrite Ht1; split_and!; [done|done|by apply vouched_since_cons]].
    apply wp_wrap, wp_host_call. intros r b _. split.
    - unfold retire_steps. cbn [st_event st_locks st_disk]. rewrite Hl1. split; [set_solver|].
      split; [rewrite Ht1; by apply recently_cons, Hold|]. exists journal. unfold journaled. cbn [st_disk]. rewrite Hd1 at 1.
      split_and!; [done|done|done|apply not_eq_sym, jo_distinct, Hjok|done].
    - cbn. rewrite Ht1. split_and!; [by destruct r|by destruct r|]. by apply vouched_since_cons, vouched_since_cons. }
  intros [u2|e] w2 (Hl2 & Hd2 & Hv2); [|apply Her; by right]. cbn beta iota.
  apply wp_bind, wp_wrapv, wp_observeRebuild; [done| |intros; apply Her; right; congruence]. intros ob w3 Hob. cbn beta iota.
  pose proof (obs_disk _ _ _ _ Hob) as Hd3. pose proof (obs_locks _ _ _ _ Hob) as Hl3.
  wp_guard as Hab by (apply Her; right; congruence).
  assert (∃ t rest, w_trace w3 = t :: rest ∧ observed_absent (rj_old_backend journal) t) as (t & rest & Ht & Habs).
  { destruct Hob as [_ _ (t & Hs & ->) Ha]. exists t, (w_trace w2). split; [done|]. eapply observed_not_exists; [done|done|].
    apply orb_false_iff in Hab as [-> Hab%neqs_false]. by rewrite Hab. }
  assert (vouched_since record (w_trace w3)) as Hv3.
  { destruct Hob as [_ _ (x & _ & ->) _]. by apply vouched_since_cons. }
  apply wp_bind, wp_AcquireSession; [auto with go| |intros; apply Her; right; cbn; congruence]. intros w4 [Hf4 Hl4 _ _ Ht4].
  assert (w_locks w4 = session_lock :: transition_lock :: L) as HL4 by congruence.
  wp_read as cur n Hcur by (apply Her; by left). apply LoadRecord_ok in Hcur.
  wp_guard as Heq%bool_decide_eq_false by (apply Her; by left). apply dec_stable in Heq as ->.
  apply wp_bind, wp_wrap, wp_removeRebuildJournal; [|intros; apply Her; by left]. cbn [w_disk w_locks w_trace retick] in *.
  intros _ Hj4. rewrite Hjd, Hjn in *. cbv zeta.
  assert (session_at dom name (delete (Rebuilds, json_name name) (w_disk w4)) = Some record) as Hat5 by (rewrite <-Hcur; by apply view_delete_ne).
  split.
  - unfold retire_steps. cbn [st_event st_locks st_disk st_before]. split; [done|]. rewrite HL4. split; [split; set_solver|].
    exists journal. split_and!; [done|done| |].
    + rewrite Ht4. exists record. split_and!; [done|done|by apply vouched_since_cons].
    + rewrite Ht4, Ht. eexists _, t, rest. split; [reflexivity|]. split_and!; [done|done|]. cbn [st_locks]. rewrite Hl3, Hl2. set_solver.
  - intros [[]|e] m; cbn beta iota; [|apply Her; by left]. apply wp_ret. split; [by left|]. intros a [= <-].
    split; [done|]. revert Hc. unfold is_ready_candidate. rewrite !andb_true_iff, !String.eqb_eq. intros [[_ ?] ?].
    split_and!; [done|done|]. cbn. by rewrite lookup_delete_eq.
Qed.

Lemma wp_RetireOld s rawName starter w :
  Domain.Parse (dc_ID (rs_domain s)) = Ok dom → Session.ParseName rawName = Ok name →
  wp (retire_steps dom name) (RetireOld s rawName starter) (leaves (w_locks w) (λ r k _, ∀ a, r = Ok a → retired a k)) w.
Proof.
  intros Hdom Hname. unfold RetireOld. destruct (sv_start starter) as [start|]; [|apply wp_throw; by_error].
  wp_guard as _ by by_error. apply wp_bind, wp_lift. destruct (validStartDependencies starter start); [|by_error].
  apply wp_bind, wp_lift. rewrite Hdom. cbn [res_bind]. destruct (check _ _); [|by_error]. cbn beta iota.
  apply wp_bind, wp_lift. rewrite Hname.
  apply wp_bind, wp_Acquire_took; [auto with go| |intros; by_error]. intros w1 [Hf1 Hl1 _ _ _].
  apply wp_deferred_leaves; [auto with go|by apply closed_ok|done|].
  apply wp_bind, wp_AcquireSession; [auto with go| |intros; by_error]. intros w2 [Hf2 Hl2 _ _ _].
  assert (w_locks w2 = session_lock :: transition_lock :: w_locks w) as HL by congruence.
  rewrite Hl1 in Hf2.
  apply (wp_deferred_filter _ _ _ _ (retire_result (w_locks w))); [auto with go| |].
  { intros r r2 wa wb Hl Hd _ _ [HLa Hq]. split.
    - rewrite Hl. destruct HLa as [->| ->]; [by apply filter_head|by apply filter_absent].
    - intros x Ha. rewrite Hd. apply Hq. by destruct r as [?|?], r2 as [[]|?]. }
  set (Q := retire_result (w_locks w)). assert (∀ e w', w_locks w' = w_locks w2 → Q (Er e) w') as Her by (intros; split; [left; congruence|done]).
  wp_read as journal n1 Hj by by apply Her. apply LoadRebuildJournal_ok in Hj. pose proof (journal_at_ok _ _ _ _ Hj) as (Hjd & Hjn & _).
  wp_guard as Hph by by apply Her. apply wp_bind, wp_lift. destruct (requirePrepared s journal); [|by apply Her].
  wp_read as record n2 Hrec by by apply Her. apply LoadRecord_ok in Hrec.
  wp_guard as Hc%negb_false_iff by by apply Her.
  apply wp_assoc, wp_bind. eapply wp_conseq; [eapply wp_impl; [apply check_retire|by apply (wp_checkReady _ _ record journal (w_locks w))]|].
  intros [r|e] w3 [Hl3 Hq]; [|apply Her; congruence]. destruct (Hq _ eq_refl) as (Hat & Hca & Hv & Hj3). cbn beta iota. clear Hq.
  apply wp_bind, wp_wrapv, wp_observeRebuild; [done| |intros; apply Her; congruence]. intros old w4 Hob. cbn beta iota.
  pose proof (obs_disk _ _ _ _ Hob) as Hd4. pose proof (obs_locks _ _ _ _ Hob) as Hl4.
  wp_guard as Hold by (apply Her; congruence).
  assert (vouched_since r (w_trace w4)) as Hv4 by (destruct Hob as [_ _ (x & _ & ->) _]; by apply vouched_since_cons).
  assert (ob_exists old = true → recently (observed_stopped (rj_old_backend journal)) (w_trace w4)) as Hrec4.
  { intros Hex. eapply observed_recently; [done|]. unfold exists_stopped. rewrite Hex in *. cbn in *. by apply neqs_false in Hold as ->. }
  set (next := set_phase RebuildRetiring journal).
  apply wp_bind. eapply wp_conseq with (Q := λ x w', w_locks w' = w_locks w2 ∧ ∀ j, x = Ok j → j = next ∧ journal_at dom name (w_disk w') = Some next ∧
    session_at dom name (w_disk w') = Some r ∧ vouched_since r (w_trace w') ∧
    (ob_exists old = true → recently (observed_stopped (rj_old_backend journal)) (w_trace w'))).
  { assert (session_at dom name (w_disk w4) = Some r ∧ journal_at dom name (w_disk w4) = Some journal) as [Hat4 Hj4] by (by rewrite Hd4).
    destruct (rj_phase journal =s RebuildReady) eqn:Ep.
    - wp_guard as Hex%negb_false_iff by (split; [congruence|done]). cbv zeta. fold next.
      apply wp_bind, wp_wrap, wp_advance; [| |intros; split; [cbn; congruence|done]].
      + intros ph n Hnph Hset _ Hnext Hcurj. pose proof (moved_phase _ _ _ _ _ (journal_event next) _ (w_locks w4) Hjd Hjn Hnph Hset Hnext Hcurj) as Hmoved.
        pose proof (advanced_at dom name next (w_disk w4) Hjd Hjn Hnext) as Hat'.
        pose proof (journal_disk_session next (w_disk w4)) as Hfr. split.
        * unfold retire_steps. cbn [st_event journal_event st_locks st_disk]. split; [by rewrite <-Hjn|].
          rewrite Hl4, Hl3. rewrite Hl4, Hl3 in Hmoved. split; [split; set_solver|]. exists next. split; [exact Hmoved|split; [|by apply Hrec4]].
          by apply (ready_candidate_frame next _ (w_disk w4) _ r).
        * intros [[]|e]; cbn beta iota; [|split; [cbn; congruence|done]]. apply wp_ret. split; [cbn; congruence|]. intros j [= <-].
          split_and!; [done|done|by rewrite <-Hat4|by apply vouched_since_cons|]. intros Hx. by apply recently_cons, Hrec4.
      + intros n Hnext. rewrite Hjd, Hjn in Hnext. apply wp_ret. split; [cbn; congruence|]. by intros j [= <-].
    - apply wp_ret. split; [congruence|]. intros j [= <-]. assert (journal = next) as Hjn'.
      { rewrite andb_false_iff, !neqs_false in Hph. apply String.eqb_neq in Ep. destruct Hph as [Hph|Hph]; [done|].
        unfold next, set_phase. by destruct journal; cbn in *; subst. }
      rewrite <-Hjn'. by split_and!. }
  intros [j|e] w5 [Hl5 Hq]; [|by apply Her]. destruct (Hq j eq_refl) as (-> & Hj5 & Hat5 & Hv5 & Hrec5). cbn beta iota.
  by apply (wp_retireOld next r old (w_locks w)); [congruence|..].
Qed.
End retire.

(** *** The driver *)

Definition rebuild_steps (dom name : string) (o : list step) (s : step) : Prop :=
  prepare_steps dom name o s ∨ cutover_steps dom name o s ∨ start_session_steps dom name o s ∨
  confirm_steps dom name o s ∨ retire_steps dom name o s.
Lemma rebuild_lock_free dom name : lock_free (rebuild_steps dom name).
Proof. intros o s sc Hs. left. by eapply prepare_lock_free. Qed.
#[export] Hint Resolve rebuild_lock_free : go.

Lemma ParseName_again raw name : Session.ParseName raw = Ok name → Session.ParseName name = Ok name.
Proof. intros H. apply ParseName_ok in H as Hn. destruct Hn as [-> _]. done. Qed.

Section execute.
Context {B : Type} {H : Host B} {E : Env} {D : Digests} {W : WorkspaceLifecycle B} {WL : WorkspaceLaws B}.
Context {G : StoppedGates B} {GL : GateLaws B} {SP : SessionProtocol E}.
Context (dom name : string).
Implicit Types (w : world B).
#[local] Abbreviation session_lock := (Lock.session_scope dom name).
#[local] Abbreviation transition_lock := (Lock.transition_scope dom name).
#[local] Abbreviation steps := (rebuild_steps dom name).

(** What a run that succeeds says of the files: the record it returns is the
    one on disk, at rest or on its way to ready. *)
Definition settled (a : SessionRecord) (k : disk) : Prop :=
  session_at dom name k = Some a ∧ sr_state a ∈ [StateStopped; StateRunning; StateStarting].
#[local] Abbreviation outcome L := (leaves L (λ r k _, ∀ a, r = Ok a → settled a k)).

Lemma wp_startCandidate starter nm j w :
  dc_ID (sv_domain starter) = dom → Session.ParseName nm = Ok name →
  wp steps (startCandidate starter nm j) (λ _ w', w_locks w' = w_locks w) w.
Proof.
  intros Hdom Hname. unfold startCandidate, StartRebuildCandidate. apply wp_bind.
  eapply wp_conseq; [eapply wp_impl; [|by apply wp_startSession]|].
  - intros o s. rewrite Hdom. unfold rebuild_steps. tauto.
  - intros [a|e] w' [Hl _]; [|done]. by apply wp_guard.
Qed.

Lemma wp_settlePrepared s expected starter w :
  dc_ID (rs_domain s) = dom →
  wp steps (settlePrepared s expected name starter) (outcome (w_locks w)) w.
Proof.
  intros Hdom. unfold settlePrepared. destruct (sv_start starter) as [start|]; [|apply wp_throw; by_error]. cbv zeta. rewrite Hdom.
  apply wp_bind, wp_lift. destruct (validStartDependencies starter start); [|by_error].
  apply wp_bind, wp_Acquire_took; [auto with go| |intros; by_error]. intros w1 [Hf1 Hl1 _ _ _].
  apply wp_deferred_leaves; [auto with go|by apply closed_ok|done|].
  apply wp_bind, wp_AcquireSession; [auto with go| |intros; by_error]. intros w2 [Hf2 Hl2 _ _ _]. rewrite <-Hl1.
  apply wp_deferred_leaves; [auto with go|by apply closed_ok|done|]. rewrite <-Hl2.
  assert (w_locks w2 = session_lock :: transition_lock :: w_locks w) as HL by congruence.
  set (Q := leaves (w_locks w2) _). assert (∀ e w', w_locks w' = w_locks w2 → Q (Er e) w') as Her by (intros; by split).
  wp_read as u n1 Hnr by by apply Her.
  apply wp_bind, wp_wrap, wp_quiet; [apply quiet_syncRebuild|]. intros [u2|e] n2 _; [|by apply Her]. cbn beta iota.
  wp_read as record n3 Hrec by by apply Her. apply LoadRecord_ok in Hrec. cbn [w_disk retick] in Hrec.
  pose proof (session_at_ids _ _ _ _ Hrec) as [_ Hn].
  wp_guard as _ by by apply Her.
  destruct (sr_state record =s StateStopped) eqn:E1; bsimpl.
  { apply wp_bind, wp_wrapv, wp_observeRebuild; [by left| |intros; by apply Her]. intros ob w3 Hob. cbn beta iota.
    wp_guard as _ by (apply Her; by rewrite (obs_locks _ _ _ _ Hob)). apply wp_ret.
    split; [by rewrite (obs_locks _ _ _ _ Hob)|]. intros x [= <-]. rewrite (obs_disk _ _ _ _ Hob). split; [done|]. rewrite E1. set_solver. }
  destruct (sr_state record =s StateRunning) eqn:E2; [|apply wp_throw; by apply Her].
  apply wp_bind. eapply wp_conseq; [eapply wp_impl; [|apply law_verify]|].
  { intros o s0 Hs%(workspace_check dom name)%check_start. unfold rebuild_steps. tauto. }
  intros [u3|e] w3 [Hl3 Hk3]; [|by apply Her]. cbn beta iota. rewrite Hn in Hk3. cbn [w_locks w_disk retick] in *.
  destruct Hk3 as [Hs3 _]; [rewrite HL; set_solver|].
  eapply wp_conseq; [eapply wp_impl; [|apply (wp_reconcileReady dom name (w_locks w)); [unfold with_session; congruence|rewrite <-Hrec; by apply view_ext]]|].
  { intros o s0 Hs%check_start. unfold rebuild_steps. tauto. }
  intros r w4 [Hl4 Hq]. split; [rewrite Hl4; exact (eq_sym HL)|]. intros x Hx. destruct (Hq x Hx) as (-> & Hat & _). split; [done|].
  cbn. set_solver.
Qed.

Lemma wp_settleSameBase s digest starter current w :
  dc_ID (sv_domain starter) = dom → Session.ParseName name = Ok name → session_at dom name (w_disk w) = Some current →
  wp steps (settleSameBase s name digest starter current) (outcome (w_locks w)) w.
Proof.
  intros Hdom Hname Hat. unfold settleSameBase. wp_guard as _ by by_error.
  apply wp_bind, wp_wrap, wp_quiet; [apply quiet_syncRebuild|]. intros [u|e] n _; [|by_error]. cbn beta iota.
  wp_guard as Hst by by_error.
  destruct (sr_state current =s StateRunning) eqn:E1.
  - unfold Start. eapply wp_conseq; [eapply wp_impl; [|by apply wp_startSession]|].
    + intros o s0. rewrite Hdom. unfold rebuild_steps. tauto.
    + intros r w' [Hl Hq]. split; [done|]. intros x Hx. destruct (Hq x Hx) as [Hx1 Hx2]. rewrite Hdom in Hx1. split; [done|]. set_solver.
  - apply wp_bind, wp_wrapv, wp_observeRebuild; [by left| |intros; by_error]. intros ob w3 Hob. cbn beta iota.
    wp_guard as _ by (split; [by rewrite (obs_locks _ _ _ _ Hob)|done]). apply wp_ret.
    split; [by rewrite (obs_locks _ _ _ _ Hob)|]. intros x [= <-]. rewrite (obs_disk _ _ _ _ Hob). split; [done|].
    rewrite andb_false_iff, neqs_false, orb_false_iff, !neqs_false in Hst. apply String.eqb_neq in E1. destruct Hst as [->|[? _]]; [set_solver|done].
Qed.

Lemma wp_drive s revision digest starter current loaded w :
  admitDomain (rs_domain s) = Ok dom → dc_ID (sv_domain starter) = dom → Session.ParseName name = Ok name →
  wp steps (drive s name revision digest starter current loaded) (outcome (w_locks w)) w.
Proof.
  intros Hadm Hdom Hname. apply admitDomain_ok in Hadm as Hd. destruct Hd as [Hd Hp]. unfold drive.
  assert (∀ rev dg w1 L, w_locks w1 = L → wp steps (prepareCandidate s name rev dg) (λ _ w', w_locks w' = L) w1) as Hprep.
  { intros rev dg w1 L <-. eapply wp_conseq; [eapply wp_impl; [|by apply wp_prepareCandidate]|by intros r w' [Hl _]].
    intros o s0. unfold rebuild_steps. tauto. }
  apply wp_bind, wp_quiet; [quiet_tac|]. intros [u|e] n _; [|by_error].
  apply wp_bind, wp_lift. destruct (Backend.ValidateObjectID revision); [|by_error].
  apply wp_bind. eapply wp_conseq with (Q := λ _ w', w_locks w' = w_locks w).
  { destruct loaded as [j|]; [destruct (_ || _); [|by apply wp_ret]|]; by apply Hprep. }
  intros [j|e] w1 Hl1; [|by_error]. cbn beta iota.
  apply wp_bind. eapply wp_conseq with (Q := λ _ w', w_locks w' = w_locks w).
  { destruct (_ || _); [|by apply wp_ret].
    apply wp_bind. eapply wp_conseq; [eapply wp_impl; [|by apply wp_Cutover]|].
    { intros o s0. unfold rebuild_steps. tauto. }
    intros [c|e] w2 [Hl2 _]; [|congruence]. cbn beta iota. rewrite Hd.
    wp_read as j2 n2 _ by (cbn; congruence). apply wp_bind, wp_lift. destruct (requirePrepared s j2); [|cbn; congruence].
    apply wp_bind. eapply wp_conseq; [by apply wp_startCandidate|]. intros [u2|e] w3 Hl3; [|cbn in *; congruence]. cbn beta iota.
    apply wp_bind. eapply wp_conseq; [eapply wp_impl; [|by apply wp_ConfirmReady]|].
    { intros o s0. unfold rebuild_steps. tauto. }
    intros [c2|e] w4 [Hl4 _]; [apply wp_ret|]; cbn in *; congruence. }
  intros [j2|e] w2 Hl2; [|by_error]. cbn beta iota.
  apply wp_bind. eapply wp_conseq with (Q := λ _ w', w_locks w' = w_locks w).
  { destruct (_ && _); [|by apply wp_ret]. apply wp_bind, wp_lift. destruct (requirePrepared s j2); [|done].
    eapply wp_conseq; [by apply wp_startCandidate|]. intros; cbn in *; congruence. }
  intros [u3|e] w3 Hl3; [|by_error]. cbn beta iota. rewrite <-Hl3.
  eapply wp_conseq; [eapply wp_impl; [|by apply wp_RetireOld]|].
  { intros o s0. unfold rebuild_steps. tauto. }
  intros r w4 [Hl4 Hq]. split; [done|]. intros x Hx. destruct (Hq x Hx) as (Hat & Hst & _). split; [done|]. rewrite Hst. set_solver.
Qed.

Lemma wp_execute s rawName revision digest starter w :
  admitDomain (rs_domain s) = Ok dom → Session.ParseName rawName = Ok name →
  wp steps (execute s rawName revision digest starter) (outcome (w_locks w)) w.
Proof.
  intros Hadm Hname. apply admitDomain_ok in Hadm as Hd. destruct Hd as [Hd Hp]. unfold execute.
  wp_guard as Hm by by_error. apply orb_false_iff in Hm as [_ Hm%negb_false_iff]. unfold matchesStarter in Hm.
  apply andb_true_iff in Hm as [_ Hm%bool_decide_eq_true].
  assert (dc_ID (sv_domain starter) = dom) as Hsd by (by rewrite Hm).
  apply wp_bind, wp_lift. rewrite Hname, Hd. apply ParseName_again in Hname as Hname2.
  wp_read as current n1 Hcur by by_error. apply LoadRecord_ok in Hcur.
  apply wp_bind, wp_attempt, wp_quiet; [auto with quiet|]. intros loaded n2 _. cbn beta iota.
  change (w_locks w) with (w_locks (retick n2 (retick n1 w))).
  destruct loaded as [j|e].
  - apply wp_bind, wp_lift. destruct (requirePrepared s j); [|by_error].
    destruct (if revision =s "" then _ else _) as [rev dg]. wp_guard as _ by by_error. by apply wp_drive.
  - destruct (err_not_exist e); [|apply wp_throw; by_error].
    destruct (rs_prepared s) as [expected|]; [by apply wp_settlePrepared|].
    wp_guard as _ by by_error. destruct (sr_golden current =s revision); [by apply wp_settleSameBase|by apply wp_drive].
Qed.
Lemma wp_ExecutePrepared s rawName expected starter w :
  admitDomain (rs_domain s) = Ok dom → Session.ParseName rawName = Ok name →
  wp steps (ExecutePrepared s rawName expected starter) (outcome (w_locks w)) w.
Proof.
  intros Hadm Hname. unfold ExecutePrepared. wp_guard as _ by by_error. by apply wp_execute.
Qed.
End execute.
