(* ===== verification/Compose.v ===== *)
(** The production composition (src/internal/sessionruntime/start.go, delete.go
    and rebuild.go wire it): the workspace batches of src/internal/workspacex
    are the coordinator and the gates that the session services reach through
    their interfaces. The instances below discharge every law the services were
    verified against, so the theorems of this file are about the composed
    program; only the lock protocol of the other processes is assumed. *)
From S2P Require Import Prelude Ids Json JsonText SessionRecord Outside World Logic Host Golden SessionStore RebuildJournal WorkspaceRecord WorkspaceStore.
From S2P Require Import WorkspaceTransition WorkspaceBatch SessionCreate SessionStart SessionDelete Rebuild.

Section compose.
Context {B : Type} {H : Host B} {E : Env}.

#[export] Instance workspaceStartCoordinator : WorkspaceLifecycle B := {|
  PrepareStart := PrepareSessionStart;
  PrepareRebuildStart := PrepareRebuildSessionStart;
  VerifyUses := VerifySessionUses;
  ReleaseUses := ReleaseSessionUses;
|}.
#[export] Instance workspaceGates : StoppedGates B := {|
  RebuildGate := @WithStoppedRebuildGate B H E;
  DeleteGate := @WithStoppedDeleteGate B H E;
  DeleteFinalizer := FinalizeDeletedSession;
|}.

(** ** The laws *)

Lemma start_workspace dom expected generation rebuild o s :
  start_steps dom expected generation rebuild o s →
  workspace_steps dom (sr_name expected) (br_object_id (sr_backend expected))
    (λ k, ∃ r, session_at dom (sr_name expected) k = Some r ∧ starts expected r generation) o s.
Proof.
  unfold start_steps, workspace_steps. destruct (st_event s) as [| |[]| | | | | | | | | | | | | | | | | | |]; try done.
  - intros (Hn & [_ Hs] & _ & _ & _ & Hat & _). split_and!; [done|done|]. by exists (startedRecord expected generation).
  - intros (Hh & Hr & Hat & Hst & _ & (v & Hw & (_ & _ & _ & Hu) & Hto) & _). split; [done|]. exists expected, v, (Some (sessionUse expected generation)).
    split_and!; [done|done|done|done|]. left. split_and!; [done|done|]. by exists generation.
Qed.
Lemma batch_prepares observer dom record generation rebuild :
  prepares dom record generation (prepareSessionStartJournal observer dom record generation rebuild).
Proof.
  intros w. eapply wp_conseq; [eapply wp_impl; [|apply wp_prepareStart]|].
  - intros o s. apply start_workspace.
  - intros r w' [Hl Hq]. split; [done|]. intros a Ha. by destruct (Hq a Ha) as [-> _].
Qed.
Lemma verify_keeps {SP : SessionProtocol E} dom record :
  keeps_session dom (sr_name record) (VerifySessionUses dom record : M B unit).
Proof.
  intros w. match goal with |- wp ?P0 _ ?Q0 _ => set (P := P0); set (Q := Q0) end.
  assert (lock_free P) as HP by (intros o s sc [Hs|Hs]; unfold P, lock_steps; by rewrite Hs).
  unfold VerifySessionUses. wp_guard as _ by by split.
  apply wp_bind, wp_AcquireStorage; [done| |by split]. intros w1 Htk.
  assert (Lock.session_scope dom (sr_name record) ∈ w_locks w → same_session dom (sr_name record) (w_disk w) (w_disk w1)) as Hs
    by (intros Hin; exact (took_session _ _ _ _ _ Htk Hin)).
  destruct Htk as [Hf Hl _ _ _].
  eapply wp_leaves; [apply (wp_deferred_leaves _ _ _ _ (w_locks w) (λ _ k _, k = w_disk w1)); [done|by apply closed_drop|done|]|].
  - apply wp_quiet; [quiet_tac; apply quiet_allUsed|]. by intros r n _.
  - intros r w' Hl' Hk. split; [done|]. by rewrite Hk.
Qed.
Lemma release_publishes_none observer dom record :
  publishes_no_session dom (sr_name record) (br_object_id (sr_backend record)) (ReleaseSessionUses observer dom record : M B unit).
Proof.
  intros w. eapply wp_conseq; [eapply wp_impl; [|apply wp_releaseUses]|by intros r w' [Hl _]].
  intros o s. unfold release_steps, workspace_steps. destruct (st_event s) as [| |[]| | | | | | | | | | | | | | | | | | |]; try done.
  intros (Hh & Hr & Hat & Hst & (v & use & Hw & Hu & Hown & Hto) & _). split; [done|]. exists record, v, None.
  split_and!; [done|done|done|done|]. right. split_and!; [done|done|by exists use].
Qed.
#[export] Instance batch_laws {SP : SessionProtocol E} : WorkspaceLaws B.
Proof.
  constructor; intros.
  - apply batch_prepares.
  - apply batch_prepares.
  - apply verify_keeps.
  - apply release_publishes_none.
Qed.

Lemma gate_reservable dom expected (w : world B) : gate_open dom expected w → reservable dom expected w.
Proof. intros [_ [_ Hs] Hat Hr Hst _]. by constructor. Qed.
#[export] Instance gate_laws : GateLaws B.
Proof.
  constructor.
  - intros A P Q observer dom expected reserve w Hres. apply wp_rebuildGate. intros w1 Hw1. by apply Hres, gate_reservable.
  - intros A P Q observer dom expected reserve w Hres. apply wp_deleteGate. intros w1 Hw1. by apply Hres, gate_reservable.
  - intros observer dom expected w. eapply wp_conseq; [eapply wp_impl; [|apply wp_finalizeDeleted]|].
    + intros o s. unfold finalize_steps, finalizer_steps. destruct (st_event s) as [| |[]| |[]| | | | | | | | | | | | | | | | |]; try done.
      * intros (Hh & Hr & Hat & Hst & _ & (v & Hw & Hi) & _). split; [done|]. exists expected, v.
        destruct (idleFor_ok _ _ Hi) as (_ & Hp & Hu & Hto). by split_and!.
      * intros (Hn & _ & _ & [_ Hs] & Hab & _). by split_and!.
    + intros r w' [Hl Hq]. split; [done|]. intros Hr. by destruct (Hq Hr).
Qed.
End compose.


(** ** Properties *)

Section properties.
Context {B : Type} {H : Host B} {E : Env} {D : Digests} {SP : SessionProtocol E}.
Implicit Types (w : world B).

(** C7: starting a session launches a supervisor only from durable intent:
    whatever fails and whatever the holders of other locks do, the exact
    generation is launched only while the transition lock is held and the session
    lock is not, and the session's record on disk is starting under exactly that
    generation and backend object; a generation is stopped only when its record
    is durably starting (a poisoned serial channel); the session is published as
    running only as ready, vouched for by a fresh converged snapshot of its exact
    generation that a supervisor had answered; both locks are given up; and
    success returns the record on disk, running or starting. *)
Theorem start_launches_only_durable_intent (s : Service) (rawName name : string) (rebuild : option RebuildJournal) w :
  Session.ParseName rawName = Ok name →
  wp (start_session_steps (dc_ID (sv_domain s)) name) (startSession s rawName rebuild)
     (λ r w', w_locks w' = w_locks w ∧ ∀ a, r = Ok a →
        session_at (dc_ID (sv_domain s)) name (w_disk w') = Some a ∧ sr_state a ∈ [StateRunning; StateStarting]) w.
Proof. intros Hname. by apply wp_startSession. Qed.

(** C8: stopping a session records the intent first: a supervisor is asked
    to stop a generation only while the record on disk is stopping under exactly
    that generation; the session is published only as stopping, or as stopped
    right after its backend object was observed stopped; and success means a
    stopped record on disk. *)
Theorem stop_persists_intent_first (s : Service) (rawName dom name : string) w :
  admitDomain (sv_domain s) = Ok dom → Session.ParseName rawName = Ok name →
  wp (stop_steps dom name) (Stop s rawName)
     (λ r w', w_locks w' = w_locks w ∧ ∀ a, r = Ok a → sr_state a = StateStopped ∧ stored dom name a (w_disk w')) w.
Proof. intros Hdom Hname. by apply wp_Stop. Qed.

(** C6: deleting a session deletes a backend object only when that object
    was just observed stopped and the session's record on disk is deleting and
    names it; the deletion is reserved only while the object is observed stopped
    and no rebuild is pending, or confirmed when it already was; the record is
    removed only after it was durably deleting and its object was observed
    exactly absent; and success means the record is gone. *)
Theorem delete_reserves_before_deleting (s : DeleteService) (rawName dom name : string) w :
  admitDomain (ds_domain s) = Ok dom → Session.ParseName rawName = Ok name →
  wp (delete_steps dom name) (DeleteSession s rawName)
     (λ r w', w_locks w' = w_locks w ∧ (r = Ok tt → w_disk w' !! (Sessions, json_name name) = None)) w.
Proof. intros Hdom Hname. by apply wp_DeleteSession. Qed.

(** C4: preparing a replacement reserves before cloning: the journal is
    created under the session, transition and golden locks, for an object
    observed absent that no session and no rebuild names, while the session on
    disk is the one it describes; the candidate is cloned, and its address
    randomized, only while that journal is on disk in its reserved phase, into
    exactly that object, from the registered golden that the journal names; the journal advances only after the candidate was
    observed stopped; no session is written; and success means the journal on disk
    is the returned one, in its cloned phase. *)
Theorem prepare_reserves_before_cloning (s : RebuildService) (rawName dom name revision digest : string) w :
  admitDomain (rs_domain s) = Ok dom → Session.ParseName rawName = Ok name →
  wp (prepare_steps dom name) (prepareCandidate s rawName revision digest)
     (λ r w', w_locks w' = w_locks w ∧ ∀ j, r = Ok j → journal_at dom name (w_disk w') = Some j ∧ rj_phase j = RebuildCloned) w.
Proof. intros Hdom Hname. by apply wp_prepareCandidate. Qed.

(** C3: a cutover writes the journal first and the session second, each
    under both locks, while the session is the exact old stopped system of the
    journal and both objects were just observed stopped; the session is written
    only while the journal on disk is in its cutover phase, and becomes its
    candidate; and success means both are on disk. *)
Theorem cutover_journal_first (s : RebuildService) (rawName dom name : string) w :
  admitDomain (rs_domain s) = Ok dom → Session.ParseName rawName = Ok name →
  wp (cutover_steps dom name) (Cutover s rawName)
     (λ r w', w_locks w' = w_locks w ∧ ∀ a, r = Ok a → cut_over dom name a (w_disk w')) w.
Proof. intros Hdom Hname. by apply wp_Cutover. Qed.

(** C2: retiring the old system deletes exactly the old backend object of a
    journal that is on disk in its retiring phase, never the candidate, only
    while the record on disk is that journal's running and ready candidate with a
    fresh vouching snapshot, and only after the object was observed stopped; the
    journal that is removed, last, is the retiring one on disk, and the answer just
    before the session lock was taken for it was that its old object is absent;
    and success means a running ready session without a journal. *)
Theorem retire_deletes_only_old (s : RebuildService) (starter : Service) (rawName dom name : string) w :
  Domain.Parse (dc_ID (rs_domain s)) = Ok dom → Session.ParseName rawName = Ok name →
  wp (retire_steps dom name) (RetireOld s rawName starter)
     (λ r w', w_locks w' = w_locks w ∧ ∀ a, r = Ok a → retired dom name a (w_disk w')) w.
Proof. intros Hdom Hname. by apply wp_RetireOld. Qed.

(** C5: confirming a replacement moves the journal to its ready phase only
    under both locks, while the record on disk is the journal's running and ready
    candidate and a fresh converged snapshot of its generation vouches for it;
    nothing is launched, stopped or deleted; and success means just that state. *)
Theorem confirm_needs_fresh_readiness (s : RebuildService) (starter : Service) (rawName dom name : string) w :
  Domain.Parse (dc_ID (rs_domain s)) = Ok dom → Session.ParseName rawName = Ok name →
  wp (confirm_steps dom name) (ConfirmReady s rawName starter)
     (λ r w', w_locks w' = w_locks w ∧ ∀ a, r = Ok a → confirmed dom name a (w_disk w')) w.
Proof. intros Hdom Hname. by apply wp_ConfirmReady. Qed.


(** C39: one stray entry in the rebuild registry, such as the temporary file
    of an interrupted phase advance, blocks every new session and every new
    rebuild of the state root: as long as nobody removes it, creating a session
    that has no record yet, and preparing a replacement that has no journal yet,
    always fail, having only taken and given up locks and observed objects (no
    record and no journal is written, nothing is cloned), whatever fails on
    the way and whatever other processes do to all other files. *)
Theorem stray_rebuild_entry_blocks (s : Service) (rs : RebuildService) (junk rawName dom name mode revision digest : string)
    (fresh : bool) w :
  json_key junk = None → is_Some (w_disk w !! (Rebuilds, junk)) → untouched (Rebuilds, junk) →
  admitDomain (sv_domain s) = Ok dom → admitDomain (rs_domain rs) = Ok dom → Session.ParseName rawName = Ok name →
  (untouched (Sessions, json_name name) → w_disk w !! (Sessions, json_name name) = None →
   wp look_steps (create s rawName mode revision digest fresh) (λ r w', w_locks w' = w_locks w ∧ is_ok r = false) w) ∧
  (untouched (Rebuilds, json_name name) → w_disk w !! (Rebuilds, json_name name) = None →
   wp look_steps (prepareCandidate rs rawName revision digest) (λ r w', w_locks w' = w_locks w ∧ is_ok r = false) w).
Proof.
  intros Hkey He Hun Hs Hr Hname. split; intros Hun' Hno.
  - by apply (wp_create_stray junk Hun dom name).
  - by apply (wp_prepareCandidate_stray dom name junk Hun).
Qed.
End properties.

(** ** Evaluations: a session's life in the laboratory

    Created from one golden object, started, stopped, its system replaced by
    another, and deleted; each theorem above is applied to its run. *)
Section evaluations.
#[local] Existing Instance quietEnv.
#[local] Existing Instance labHost.
#[local] Instance labDigests : Digests := {| sha256 s := s |}.
Definition lab_config : DomainConfig := mkDomainConfig "work" "/var/lib/boxwarden/work" None.
Definition lab_start : StartDependencies :=
  mkStart true true true true true true true true [("work", "/var/lib/boxwarden/work")] "/run/boxwarden" "/etc/boxwarden.json".
Definition lab_starter : Service := mkService false lab_config true true true None (Some lab_start).
Definition lab_deleter : DeleteService := mkDeleteService false lab_config (mkDeleteDeps true true true true).
Definition lab_rebuilder : RebuildService := mkRebuildService false lab_config (mkRebuildDeps true true true true true) true None None None.
Definition two_goldens : world lab := worldOf lab_goldens {[ "base-1" := ObjectStopped; "base-2" := ObjectStopped ]}.

Definition created : world lab := (Create lab_starter "dev" ModeClean two_goldens).2.
Definition running : world lab := (Start lab_starter "dev" created).2.
Definition halted : world lab := (Stop lab_starter "dev" running).2.
Definition cloned : world lab := (prepareCandidate lab_rebuilder "dev" "base-2" "" halted).2.
Definition switched : world lab := (Cutover lab_rebuilder "dev" cloned).2.
Definition lab_journal : RebuildJournal := set_phase RebuildCutover (default example_journal (journal_at "work" "dev" (w_disk cloned))).
Definition restarted : world lab := (StartRebuildCandidate lab_starter "dev" lab_journal switched).2.
Definition assured : world lab := (ConfirmReady lab_rebuilder "dev" lab_starter restarted).2.
Definition replaced : world lab := (RetireOld lab_rebuilder "dev" lab_starter assured).2.

Definition summary (w : world lab) : option (string * string) :=
  (λ r, (sr_state r, br_object_id (sr_backend r))) <$> session_at "work" "dev" (w_disk w).
Definition old_object : string := "boxwarden-work-0123456789ab4def8123456789abcdef".
Definition new_object : string := "boxwarden-work-11111111222243338444555555555555".
Example lab_life :
  summary created = Some (StateStopped, old_object) ∧ summary running = Some (StateRunning, old_object) ∧
  summary halted = Some (StateStopped, old_object) ∧ summary switched = Some (StateStopped, new_object) ∧
  summary replaced = Some (StateRunning, new_object) ∧
  summary (Execute lab_rebuilder "dev" "base-2" lab_starter halted).2 = Some (StateRunning, new_object) ∧
  w_host replaced !! old_object = None ∧
  summary (DeleteSession lab_deleter "dev" halted).2 = None ∧
  w_host (DeleteSession lab_deleter "dev" halted).2 !! old_object = None.
Proof. vm_compute. by split_and!. Qed.

#[local] Abbreviation result_of m w := (default example_record (ok_of ((m w).1))).
Lemma start_launches_only_durable_intent_witness :
  sr_state (result_of (startSession lab_starter "dev" None) created) = StateRunning ∧
  session_at "work" "dev" (w_disk running) = Some (result_of (startSession lab_starter "dev" None) created).
Proof.
  split; [vm_compute; reflexivity|].
  refine (proj1 (proj2 (wp_result _ _ _ _ (start_launches_only_durable_intent lab_starter "dev" "dev" None created _)) _ _)); vm_compute; reflexivity.
Defined.
Lemma stop_persists_intent_first_witness :
  stored "work" "dev" (result_of (Stop lab_starter "dev") running) (w_disk halted).
Proof.
  refine (proj2 (proj2 (wp_result _ _ _ _ (stop_persists_intent_first lab_starter "dev" "work" "dev" running _ _)) _ _)); vm_compute; reflexivity.
Defined.
Lemma delete_reserves_before_deleting_witness :
  w_disk (DeleteSession lab_deleter "dev" halted).2 !! (Sessions, json_name "dev") = None.
Proof.
  refine (proj2 (wp_result _ _ _ _ (delete_reserves_before_deleting lab_deleter "dev" "work" "dev" halted _ _)) _); vm_compute; reflexivity.
Defined.
Lemma prepare_reserves_before_cloning_witness :
  journal_at "work" "dev" (w_disk cloned) =
    Some (default example_journal (ok_of (prepareCandidate lab_rebuilder "dev" "base-2" "" halted).1)).
Proof.
  refine (proj1 (proj2 (wp_result _ _ _ _ (prepare_reserves_before_cloning lab_rebuilder "dev" "work" "dev" "base-2" "" halted _ _))
    (default example_journal (ok_of (prepareCandidate lab_rebuilder "dev" "base-2" "" halted).1)) _)); vm_compute; reflexivity.
Defined.
Lemma cutover_journal_first_witness :
  cut_over "work" "dev" (result_of (Cutover lab_rebuilder "dev") cloned) (w_disk switched).
Proof.
  refine (proj2 (wp_result _ _ _ _ (cutover_journal_first lab_rebuilder "dev" "work" "dev" cloned _ _)) _ _); vm_compute; reflexivity.
Defined.
Lemma retire_deletes_only_old_witness :
  retired "work" "dev" (result_of (RetireOld lab_rebuilder "dev" lab_starter) assured) (w_disk replaced).
Proof.
  refine (proj2 (wp_result _ _ _ _ (retire_deletes_only_old lab_rebuilder lab_starter "dev" "work" "dev" assured _ _)) _ _); vm_compute; reflexivity.
Defined.
Lemma confirm_needs_fresh_readiness_witness :
  confirmed "work" "dev" (result_of (ConfirmReady lab_rebuilder "dev" lab_starter) restarted) (w_disk assured).
Proof.
  refine (proj2 (wp_result _ _ _ _ (confirm_needs_fresh_readiness lab_rebuilder lab_starter "dev" "work" "dev" restarted _ _)) _ _); vm_compute; reflexivity.
Defined.
Definition leftover : string := ".dev.json.tmp-0123456789abcdef0123456789abcdef".
Definition littered : world lab := worldOf (<[(Rebuilds, leftover) := EFile (journalFile example_journal)]> (w_disk halted)) (w_host halted).
Lemma stray_rebuild_entry_blocks_witness :
  is_ok (create lab_service "new" ModeClean "" "" false littered).1 = false ∧
  is_ok (prepareCandidate lab_rebuilder "dev" "base-2" "" littered).1 = false.
Proof.
  split.
  - refine (proj2 (wp_result _ _ _ _ (proj1 (stray_rebuild_entry_blocks lab_service lab_rebuilder leftover "new" "work" "new" ModeClean "" "" false littered
      _ _ _ _ _ _) _ _))); first [reflexivity|eexists; vm_compute; reflexivity|vm_compute; reflexivity].
  - refine (proj2 (wp_result _ _ _ _ (proj2 (stray_rebuild_entry_blocks lab_service lab_rebuilder leftover "dev" "work" "dev" ModeClean "base-2" "" false littered
      _ _ _ _ _ _) _ _))); first [reflexivity|eexists; vm_compute; reflexivity|vm_compute; reflexivity].
Defined.
End evaluations.
